(* ===== verification/_CoqProject ===== *)
-Q . S2P
Prelude.v
Store.v
GoStr.v
GoTime.v
GoFloat.v
GoCodec.v
Totp.v
PathSec.v
Protocol.v
AgentJobs.v
AgentSocket.v
PanelJobs.v
RateLimit.v
Auth.v
Metrics.v
AlertRules.v
Monitoring.v
AlertRound.v
Notifications.v
AlertNotices.v
Seal.v
Secrets.v
TwoFactor.v
TenancyRules.v
Quota.v
Tenants.v
Tenancy.v
TenancyRights.v
TenancyServer.v
TenancyScope.v
QuotaGuard.v
QuotaLimits.v
UsageMeter.v
HostTenancy.v
Netip.v
GoSort.v
DnsRules.v
ZoneFile.v
NamedConf.v
NamedHost.v
NamedChange.v
NamedStatus.v
DnsTemplates.v
DnsTables.v
DnsService.v
DnsChange.v
DnsPublish.v
DnsOnHost.v
DnsRemote.v
DnsPanel.v
FirewallRules.v
FirewallChange.v
Cron.v
Crontab.v
SshKeys.v
SshConfig.v
SshChange.v
DeployRules.v
CommandRunner.v
DeployHost.v
DeployRun.v
DeployTree.v
DeployTables.v
DeployService.v
DeployKept.v
DeployPanel.v
