(* ===== verification/Prelude.v ===== *)
(** * JotHost Panel: a verification library (root file)

    ** The program

    JotHost Panel administers a web host from a browser. Two Go programs do the
    work. The *API* ([src/api/]) keeps users, websites and jobs in PostgreSQL
    and holds no privilege on the host. The *Agent* ([src/agent/]) runs as
    root, listens on a Unix socket and carries out a closed list of named
    operations. They share the packages of [src/shared/]: the wire protocol and
    the validators. A user's action travels like this: the API validates it and
    either calls the Agent at once or puts a row in its job table; the panel's
    worker claims the row and submits it over the socket; the Agent
    authenticates the connection and the request, looks the operation up,
    runs it or hands it to its own job runner, and audits it; the operation's
    handler calls a provider, which validates the names and paths again and
    changes the host. The worker follows the Agent's job and stores the outcome.
    Beside these, the API samples the host, judges alert rules on what it
    measured and sends notifications, each in a loop of its own over tables of
    the same database. Accounts form a hierarchy of administrators, resellers and
    customers; plans are sold as subscriptions, websites belong to subscriptions,
    and a guard in front of the routes that create something holds the limits.

    ** The files

    - [Prelude] (here): results of fallible functions, 64-bit integers,
      lists, runs of step relations, shared tactics and hints.
    - [Store]: calls to PostgreSQL and Redis. A state monad with errors whose
      calls take effect as a whole or not at all and whose answer may be lost
      either way; programs as sequences of such calls.
    - [GoStr], [GoTime], [GoFloat], [Netip], [GoSort]: what the code uses of Go's
      standard library: [strings], [strconv] and [path/filepath]; instants and the
      civil calendar of [time] in UTC; [float64] and its printing; [net/netip] and the
      addresses of [net]; [sort.SliceStable].
    - [PathSec]: [src/agent/internal/pathsec/pathsec.go]. Cleaning a path,
      resolving it through symbolic links against its deepest existing
      ancestor, and containment in the allowed roots.
    - [Protocol]: [src/shared/protocol/protocol.go]. Operation names, the
      allowlist, requests, responses and job states.
    - [AgentJobs]: [src/agent/internal/jobs/jobs.go]. The Agent's job runner;
      each section under its lock is one step of a transition system, so its
      theorems hold for every interleaving.
    - [AgentSocket]: [src/agent/internal/socket/auth.go], [server.go],
      [src/agent/internal/operations/registry.go] and
      [src/agent/internal/audit/audit.go]. One connection from accept to
      answer: peer, token, registry, dispatch (using [AgentJobs] for
      asynchronous operations) and audit records.
    - [PanelJobs]: [src/api/internal/jobs/jobs.go] and [worker.go]. The job
      table, one definition per SQL statement, and the worker on it.
    - [RateLimit]: [src/api/internal/ratelimit/ratelimit.go]. [Auth]:
      [src/api/internal/sessions/sessions.go] and [tokenstore.go], [service.go]
      and [impersonation.go] of [src/api/internal/auth/]. Sessions and their
      refresh tokens, access tokens in Redis, and login, refresh, logout and
      impersonation over them. [GoCodec], [Totp]: the codecs and
      [src/api/internal/secrets/totp.go]; [TwoFactor]: two-factor set-up, its codes
      and its recovery codes in [src/api/internal/auth/] and [users/].
    - [Secrets]: [encrypt.go] and [rotate.go] of [src/api/internal/secrets/]. Secrets
      at rest and the rotation of their key.
    - [TenancyRules]: [src/shared/validate/tenancy.go]. [Quota]: the arithmetic of
      [src/api/internal/tenancy/quota.go]. [Tenants]: the tables of
      [repository.go], one definition per statement. [Tenancy]: the use cases of
      [service.go] and the checks of [impersonation.go]. [TenancyRights]: the
      statements an actor is entitled to, and that every use case takes no
      others. [TenancyServer]: the requests of [handlers.go]. [TenancyScope]: what no
      sequence of them does.
    - [QuotaGuard]: the middleware of [quota.go]; [QuotaLimits]: what it keeps, with
      the row [src/api/internal/websites/repository.go] inserts. [UsageMeter]:
      [sampler.go] and [RecordUsage]. [HostTenancy]: [src/agent/internal/tenancy/],
      the other end of it.
    - [Metrics]: [metrics.go], [rollup.go] and [sampler.go] of
      [src/api/internal/metrics/]. Samples, hourly summaries, and since when a
      threshold has been breached.
    - [AlertRules]: [src/shared/validate/monitoring.go] and the evaluator of
      [src/api/internal/monitoring/]; [Monitoring]: its [repository.go],
      [monitor.go] and [service.go]; the history and the notifier are the
      classes [MetricSource] and [Notifier]. [AlertRound]: what a round should
      do to the alerts, as a pure function, and that it does.
    - [Notifications]: [emit.go], [service.go], [repository.go] and
      [dispatcher.go] of [src/api/internal/notifications/]. Events, channels,
      the outbox and the dispatcher. [AlertNotices]: the outbox as the monitor's
      notifier.
    - [Seal]: [src/shared/seal/seal.go]. Sealed streams: the framing, the
      nonces, the writer's buffer and the reader.
    - [DnsRules]: [src/shared/validate/dns.go]. [ZoneFile]:
      [src/agent/internal/dns/zone.go] and the payload of a zone. [NamedConf]:
      [config.go] beside it; [NamedHost]: [dns.go], with the host's files and BIND's
      programs; [NamedChange]: what installing a configuration does to the host.
      [NamedStatus]: [status.go] and [dnssec.go].
    - The panel's side of it, [src/api/internal/dns/]: [DnsTemplates]: [template.go].
      [DnsTables]: the tables, one definition per statement of [repository.go],
      [template_repository.go] and [builtin.go], with the checks of their schema.
      [DnsService]: the use cases of [service.go], [managed.go], [sync.go] and
      [certificate.go], over a name server behind the class [NameServer].
      [DnsChange]: what they may do to the tables. [DnsPublish]: what the name server
      is handed and what a failure leaves. [DnsOnHost]: the host of [NamedHost] as that
      name server. [DnsRemote]: [remote.go] and [import.go], a zone at another
      provider. [DnsPanel]: two paths that publish nothing, and concrete runs.
    - [FirewallRules]: [src/shared/validate/firewall.go],
      [src/agent/internal/firewall/rule.go], [guard.go] and the parsers of
      [firewall.go]. Rules, their command line, reading ufw's listings back,
      and the guard against closing the administrator's own ports.
    - [FirewallChange]: [src/agent/internal/firewall/change.go], [backup.go]
      and [firewall.go]. A change with its backup, its marker on disk, its
      timer, its confirmation and its undoing.
    - [Cron]: [src/shared/validate/cron.go]. Schedules and the next time one
      fires. [Crontab]: [src/agent/internal/cron/crontab.go] and [cron.go]. The
      panel's block inside a crontab that the customer also edits.
    - [SshKeys]: [src/agent/internal/ssh/keys.go]. Accounts and their authorised keys.
      [SshConfig]: [ssh.go], [apply.go] and [audit.go] beside it, with what
      [src/agent/internal/operations/ssh.go] and [src/api/internal/ssh/handlers.go] add:
      the effective configuration, the panel's file and a change of it.
      [SshChange]: what a change does to the host.
    - [CommandRunner]: [command.go] and [detached.go] of [src/agent/internal/command/].
      The programs the Agent may start, and how; what a program does is the
      parameter [launch].
    - [DeployRules]: [src/shared/validate/deploy.go]. [DeployHost]:
      [src/agent/internal/deploy/], with its handler in
      [src/agent/internal/operations/deploy.go]: a deployment, its git commands, steps,
      log and rollback, and the keys. [DeployRun]: which processes a deployment starts.
      [DeployTree]: where it leaves the working tree, with what git promises in the
      class [GitLaws].
    - [DeployTables]: the statements of [repository.go] in [src/api/internal/deploy/], with
      the checks of [src/migrations/0022_deployments.up.sql]. [DeployService]:
      [service.go] and [webhook.go] beside it, over an Agent behind the class
      [DeployAgent], the job table of [PanelJobs] and its worker's turn. [DeployKept]:
      what any sequence of requests and turns keeps. [DeployPanel]: webhooks, the way
      from the queue to the Agent and back, and concrete runs.

    ** What the theorems show

    - Reaching the host. A connection changes the host only through a handler of
      an allowlisted operation, for an accepted peer with the right token
      ([AgentSocket.host_touched_only_when_authorised]); no handler sees the
      token; refusals look alike and are audited; the registry the Agent starts
      with covers the allowlist exactly.
    - Paths. A path the Agent accepts lies inside an allowed root element by
      element, whatever symbolic links the file system holds
      ([PathSec.Resolve_contained]); the loop over ancestors terminates and
      computes its reference definition.
    - Jobs on the Agent. The bounds and the bookkeeping of the runner in every
      reachable state, finished jobs keep their record for the retention window,
      a granted cancellation is final, and a full runner drains whatever its executors
      come back with ([AgentJobs.runner_drains]).
    - Jobs in the panel. Claiming is first come, first served and exclusive, no
      row contradicts itself under any interleaving and any database failure,
      each turn of the worker settles the job it took whatever the Agent answers,
      and a drain empties the queue.
    - Firewall. An accepted change keeps every guarded port open, and so
      does any sequence of them ([FirewallRules.Guard_keeps_ports_open]); rules survive the
      trip through ufw's listing; an accepted change either is confirmed or is
      undone, by the timer or by the next start, back to the rules before it
      ([FirewallChange.unconfirmed_change_is_undone],
      [FirewallChange.restart_keeps_the_promise]); a refused change arms nothing.
    - Sessions. A refresh token works once ([Auth.refresh_token_works_once]); one
      that leaked ends every session of its owner when it is presented again;
      logging out is final; the limiter admits no more than its limit in any
      window, whatever Redis loses ([RateLimit.limiter_limits]). A code is good for
      its half minute and its neighbours, and a recovery code once
      ([TwoFactor.recovery_code_works_once]); every request about the second factor
      does one thing.
    - Secrets at rest. Rotating the key re-encrypts everything or nothing
      ([Secrets.rotation_is_all_or_nothing]).
    - Tenancy. A use case takes only statements its actor is entitled to, whatever
      fails on the way ([TenancyServer.handle_steps]); so the tables stay well formed
      ([TenancyScope.endpoints_keep_tables]), the recursive query over the hierarchy
      ends ([TenancyScope.hierarchy_query_ends]), and nobody but an administrator
      touches what is not below them ([TenancyScope.request_stays_in_scope]);
      impersonation goes down. Behind the guard a hard limit is passed by at most as many
      requests as are under way at once, less one ([QuotaLimits.guard_holds_the_limit]),
      and what is charged is what is counted, but for websites outside every plan
      ([QuotaLimits.subdomain_outside_every_plan]).
      The meter counts no byte twice in a month of one log
      ([UsageMeter.meter_never_overcounts]); the unit on the host says what the
      limits are ([HostTenancy.RenderSlice_directives]).
    - Name server. A rendered zone is read back as the records it was rendered
      from ([ZoneFile.RenderZone_reads_back]), whatever order they came in
      ([ZoneFile.RenderZone_order_independent]); the include lists the zones it was
      built from ([NamedConf.include_names_the_zones]); a reconciliation that
      answers "applied" left exactly the wanted files
      ([NamedChange.accepted_configuration_is_in_place]), and a zone BIND refuses is
      never installed ([NamedChange.refused_zone_installs_nothing]).
    - From the panel to the name server. A request about zones and records that
      answers has put what the tables say into the host's files
      ([DnsOnHost.answered_request_is_on_the_host]); one that fails because the host
      refuses leaves the tables as they were
      ([DnsPublish.failed_request_leaves_the_tables]); serials grow with every change
      of records ([DnsPublish.published_record_moves_the_serial]); and the tables keep
      the schema's promises and more ([DnsChange.requests_keep_the_tables]). A template
      that is accepted renders with nothing left in braces
      ([DnsTemplates.substitute_complete]), names and records survive the way to a
      provider and back ([DnsRemote.relativeTo_qualify], [DnsRemote.fetched_after_push]).
    - Sealed streams. What was written is read back whatever sizes it was written
      in ([Seal.sealed_streams_open]), and a reader that accepts a stream has read
      exactly what was sealed: chunks cannot be changed, dropped, swapped or cut
      off ([Seal.tampering_is_refused]).
    - Watching the host. The hourly summaries equal a single aggregation of all
      samples ([Metrics.rollup_from_scratch]); a round of the monitor does to the
      alerts what is due ([AlertRound.round_meets_the_verdicts]), every alert has its
      reason ([Monitoring.alert_has_its_reason]), the tables keep their
      invariants under any interleaving and failure, and what a rule is built from
      always fits its table.
    - Telling people. Each thing that happens is one event with one delivery for
      each channel that wants it, the outbox keeps its invariants, and it drains
      after as many rounds as attempts are allowed ([Notifications.queue_drains]);
      every alert a round changes is announced exactly once
      ([AlertNotices.every_alert_is_announced_once]).
    - SSH. The panel's file is read back as it was written
      ([SshChange.drop_in_reads_back]); after a change that is accepted the server's
      files say what was asked for, and it leaves a way in where there was one
      ([SshChange.accepted_change_keeps_a_way_in]), one that
      fails leaves the files and the server as they were
      ([SshChange.refused_change_is_undone]); a request about keys changes one account by
      one key ([SshKeys.key_requests_change_one_account]).
    - Programs and deployments. The runner starts programs of its list only, with
      checked arguments and environment ([CommandRunner.only_allowlisted_programs_run]).
      Whatever a deployment runs, it runs as the website's account and in its
      directory, and nothing of the request can be read as an option
      ([DeployRun.deployment_runs_as_the_site]); its answer says which commit the tree
      is on ([DeployTree.deployment_says_where_the_tree_is]), its log is bounded and its
      script private. In the panel only a genuine push deploys
      ([DeployPanel.only_a_genuine_push_deploys]), no repository has two deployments in
      progress and the tables stay sound ([DeployKept.deployments_stay_sound]); what is
      queued passes the Agent's checks ([DeployPanel.queued_deployments_are_accepted]),
      and the turn that takes a deployment up closes it, where the outcome fits its
      columns ([DeployPanel.a_turn_closes_the_deployment]).
    - Scheduled jobs. [Cron.NextRun_spec]: the next run is the first whole minute
      after the given instant, within four years, at which the schedule fires by
      the rules of crontab; an accepted schedule has one
      normal form and each of its fields matches something. The panel's block
      replaces its predecessor and nothing else of the crontab
      ([Crontab.block_is_replaced]), every line of it is one comment or one entry,
      and the identifiers written are those read back.

    ** Conventions

    - A Go function that returns [(T, error)] returns [result E T]; [E] lists
      the errors a caller can tell apart, and message texts are kept only where
      they reach a user or a file.
    - A string is its bytes. Unicode white space is recognised exactly; case
      mapping is exact on ASCII and the identity above it.
    - An [int] is a [Z], wrapped by [wrap64] where it can leave its range.
      Instants are nanoseconds since 1970 in UTC, not wrapped: the code's dates
      stay far inside the range.
    - A mutex section, an SQL statement or a file-system call is atomic. Failures
      are scripts: a list that says which of the coming statements or calls
      fails; each theorem says which failures it allows.
    - Code outside the repository is a parameter: the file system of [PathSec],
      the JSON decoder and the handlers of [AgentSocket], the Agent's answers in
      [PanelJobs], the hashes of [Auth] (class [AuthEnv]) and the cipher of [Seal]
      (classes [Crypto] and [CryptoLaws]), the decimal columns of PostgreSQL (class [Numeric]
      of [GoFloat]), its collation ([Monitoring.Collation]), what the Agent's probes
      and the senders answer (scripts), ufw in [FirewallRules] (class [UfwEffect]) and
      [FirewallChange] (classes [Env] and [UfwLaws]), the programs of BIND
      ([NamedHost.Tools]), the order of texts and the type [cidr] of PostgreSQL
      ([DnsTables.Postgres]), the API of a DNS provider ([DnsRemote.Provides]), sshd
      ([SshConfig.Sshd] and the laws [SshChange.SshdLaws]), the programs the runner starts
      ([launch] in [CommandRunner]), and in [DeployService] HMAC-SHA256 and the reading of
      a forge's JSON. The hypotheses on them are
      its documented behaviour (for [DeployTree.GitLaws] also that no build moves
      HEAD), and small instances, such as the ufw of
      [FirewallChange] and the sshd of [SshChange.Small], satisfy them.
    - [%q] is [ZoneFile.quote], exact on the printable ASCII the validators admit.
    - In [DnsService] an identifier that is no UUID is one that no row has.
    - JSON payloads are maps from names to scalar values; what nests deeper is
      kept as text, since no modelled code looks inside.

    ** Bounds and fuel

    Loops that Go writes with [for] and that are not structural take fuel from their
    input: [PathSec.resolve_loop] the length of the path (each turn drops a
    segment), [Netip.ipv6_loop], [GoStr.replace_all] and the string
    scanners the length of the text, as [ZoneFile.chunks] and
    [ZoneFile.read_strings] and [DnsTemplates.unknown_go] do, [GoStr.utoa_go] the number of bits,
    [SshConfig.glob] the length of the pattern,
    [Cron.walk] the number of minutes left in the search window; the theorems
    about them show the fuel is enough. Loops over the world's answers
    ([PanelJobs.follow], [PanelJobs.drain]) recurse on the list of answers, whose
    end is the deadline in [follow].

    ** What modelling showed

    - For the root "/" the containment test admits nothing
      ([PathSec.root_slash_admits_nothing]).
    - A change the firewall failed to undo can be forgotten, and a confirmed one
      undone at a restart, if a marker could not be removed
      ([FirewallChange.unconfirmed_change_forgotten],
      [FirewallChange.confirmed_change_undone_at_restart]).
    - Day fields from */10 to */19 are taken as unrestricted by the next-run search
      ([Cron.isUnrestricted_sound] has the exact statement), signed numbers pass
      the schedule check, and the Agent's own check of a cron job trims what
      rendering does not ([Crontab.untrimmed_command_injects]).
    - A job whose process died less than a quarter of an hour before the next
      start stays running for ever ([PanelJobs.interrupted_job_stuck]), and a job
      the Agent cancelled is stored as failed
      ([PanelJobs.agent_cancelled_is_stored_failed]).
    - Rules on disks and swap that ask for a duration, three of the default rules
      among them, never open an alert ([Monitoring.only_some_rules_fire],
      [Monitoring.default_rules_that_never_fire]); rules on the network are accepted
      and never judged ([AlertRound.network_is_never_read]); a load rule compares the
      load per core and looks the duration up in the total load
      ([AlertRound.Rounds.a_load_blip_opens_an_alert]); some alerts stay open that
      the comments say are resolved ([AlertRound.Rounds]).
    - A configuration the name server refuses is not rolled back to what was there:
      the host loses its main configuration, and zone files already rewritten are
      removed ([NamedChange.refused_configuration_breaks_the_host],
      [NamedHost.Nameserver.refused_change]). Reading a status without a serial panics
      ([NamedStatus.samples]).
    - The DNS records of a subdomain are written but never published, since the
      request that should publish them has no identifier
      ([DnsPanel.subdomain_is_never_published]); an import from a provider that
      changes something is written, answers with an error and is not published, since
      two arguments change places ([DnsPanel.import_is_never_published]); a deletion the
      host refuses stays, and a record that was taken back can stay with a secondary,
      whose serial has not moved; on a host with an IPv6 address the default template
      makes every new zone fail ([DnsPanel.Small]).
    - An SSH change that turns passwords off is accepted when keys are off already, and
      nobody can log in; the last key can be withdrawn while passwords are off; a server
      that did not reload is answered as a success; and a port that is open for UDP
      only counts as open for SSH ([SshChange.Small]).
    - A counter reset inside an hour is summarised as traffic
      ([Metrics.Samples.counter_reset_is_a_spike]).
    - Two API processes can send a message twice, and a lost answer repeats it without
      bound ([Notifications.Outbox]); the news that an alert is over stays below the
      floor of a default channel
      ([AlertNotices.resolutions_stay_below_the_default_floor]).
    - Websites escape their plans: a subdomain, and a website created for a
      subscription that does not exist, belong to none
      ([QuotaLimits.subdomain_outside_every_plan],
      [QuotaLimits.unknown_subscription_costs_nothing]), and a reseller can take
      anybody's website into a subscription of his own
      ([TenancyScope.Shop.website_taken]). Of several logs one that rotates counts
      the others twice ([UsageMeter.January.counted_twice]). A subscription's name may be
      longer than the Agent accepts, and the Agent's own check of it lets a line feed
      through ([HostTenancy.Small]).

    - Remotes of other transports pass the check of a repository's address
      ([DeployRules.other_transports_pass]). A push of a tag deploys, a rollback without a
      commit deploys the newest one, and a deployment stays in progress, with its
      website blocked, when its waiting job is cancelled or its outcome does not fit the
      table; a restart can leave two jobs for one website ([DeployPanel.Small]). A step
      that overruns its time is no outcome: its output is lost
      ([DeployTree.Small.overrun_is_no_outcome]).

    ** Not modelled

    HTTP handlers and middleware, SQL repositories that only read or write
    records, providers that only fill templates and run programs, start-up
    and logging. Goroutine scheduling is modelled by interleaved steps, not
    the Go memory model. The tenancy theorems are about requests one after
    another. *)

From stdpp Require Export base tactics option list gmap strings.
From stdpp Require Export numbers.
From Stdlib Require Export Ascii.

(** ** Results of fallible Go functions

    A Go function returning [(T, error)] becomes a function returning
    [result E T], where [E] enumerates the sentinel errors a caller can tell
    apart with [errors.Is].  A function returning only [error] returns
    [result E unit]. *)
Inductive result (E A : Type) : Type :=
| Ok (a : A)
| Err (e : E).
Arguments Ok {E A} a.
Arguments Err {E A} e.

Declare Scope go_scope.
Delimit Scope go_scope with go.

(** [x, err := c; if err != nil { return err }; k]. *)
Definition rbind {E A B} (c : result E A) (k : A -> result E B) : result E B :=
  match c with Ok a => k a | Err e => Err e end.

Notation "'let?' x ':=' c 'in' k" := (rbind c (fun x => k))
  (at level 10, x name, c at level 100, k at level 200) : go_scope.
Notation "c ';?' k" := (rbind c (fun _ : unit => k))
  (at level 199, right associativity) : go_scope.
Open Scope go_scope.

(** [if cond { return err }] followed by the rest of the function. *)
Definition guard {E} (cond : bool) (e : E) : result E unit :=
  if cond then Err e else Ok tt.

Definition is_ok {E A} (r : result E A) : bool :=
  match r with Ok _ => true | Err _ => false end.

Definition ok_value {E A} (r : result E A) : option A :=
  match r with Ok a => Some a | Err _ => None end.

#[global] Instance result_eq_dec {E A} `{EqDecision E, EqDecision A} :
  EqDecision (result E A).
Proof. solve_decision. Defined.

Section result_lemmas.
Context {E A B : Type}.

Lemma rbind_ok (c : result E A) (k : A -> result E B) b :
  rbind c k = Ok b <-> exists a, c = Ok a /\ k a = Ok b.
Proof. destruct c; simpl; split; naive_solver. Qed.

Lemma rbind_err (c : result E A) (k : A -> result E B) e :
  rbind c k = Err e <-> c = Err e \/ exists a, c = Ok a /\ k a = Err e.
Proof. destruct c; simpl; split; naive_solver. Qed.

Lemma guard_ok (b : bool) (e : E) u : guard b e = Ok u <-> b = false.
Proof. destruct b, u; simpl; naive_solver. Qed.

Lemma guard_err (b : bool) (e e' : E) : guard b e = Err e' <-> b = true /\ e = e'.
Proof. destruct b; simpl; naive_solver. Qed.

Lemma guard_bind_ok (b : bool) (e : E) (k : result E B) x :
  rbind (guard b e) (fun _ => k) = Ok x <-> b = false /\ k = Ok x.
Proof. destruct b; simpl; naive_solver. Qed.
End result_lemmas.

Create HintDb go discriminated.

(** [go_inv H] opens a successful run [H : ... = Ok x] into the guards it
    passed and the intermediate values it bound. *)
Ltac go_inv H :=
  repeat first
    [ rewrite guard_bind_ok in H; let H1 := fresh "Hg" in destruct H as [H1 H]
    | rewrite rbind_ok in H;
      let x := fresh "v" in let H1 := fresh "Hb" in destruct H as (x & H1 & H) ].

(** Splits every boolean connective and comparison in the context. *)
Ltac bool_hyps :=
  repeat match goal with
  | H : (_ && _)%bool = true |- _ => apply andb_true_iff in H; destruct H
  | H : (_ || _)%bool = false |- _ => apply orb_false_iff in H; destruct H
  | H : negb _ = true |- _ => apply negb_true_iff in H
  | H : negb _ = false |- _ => apply negb_false_iff in H
  | H : (_ <? _)%Z = true |- _ => apply Z.ltb_lt in H
  | H : (_ <? _)%Z = false |- _ => apply Z.ltb_ge in H
  | H : (_ <=? _)%Z = true |- _ => apply Z.leb_le in H
  | H : (_ <=? _)%Z = false |- _ => apply Z.leb_gt in H
  | H : (_ =? _)%Z = true |- _ => apply Z.eqb_eq in H
  | H : (_ =? _)%Z = false |- _ => apply Z.eqb_neq in H
  | H : (_ <? _)%nat = true |- _ => apply Nat.ltb_lt in H
  | H : (_ <? _)%nat = false |- _ => apply Nat.ltb_ge in H
  | H : (_ <=? _)%nat = true |- _ => apply Nat.leb_le in H
  | H : (_ <=? _)%nat = false |- _ => apply Nat.leb_gt in H
  | H : (_ =? _)%nat = true |- _ => apply Nat.eqb_eq in H
  | H : (_ =? _)%nat = false |- _ => apply Nat.eqb_neq in H
  | H : (_ =? _)%string = true |- _ => apply String.eqb_eq in H
  | H : (_ =? _)%string = false |- _ => apply String.eqb_neq in H
  | H : bool_decide _ = true |- _ => apply bool_decide_eq_true_1 in H
  | H : bool_decide _ = false |- _ => apply bool_decide_eq_false_1 in H
  end.

(** The same, also splitting disjunctions into cases. *)
Ltac bool_cases :=
  repeat first
    [ progress bool_hyps
    | match goal with
      | H : (_ || _)%bool = true |- _ => apply orb_true_iff in H; destruct H
      end ].

(** ** Machine integers

    Go's [int] on the supported platforms (linux/amd64 and arm64) is a signed
    64-bit integer.  It is modelled by [Z]; arithmetic that can leave the range
    is wrapped with [wrap64]. *)
Definition int_min : Z := (- 2 ^ 63)%Z.
Definition int_max : Z := (2 ^ 63 - 1)%Z.
Definition in_int (z : Z) : bool := ((int_min <=? z) && (z <=? int_max))%Z.
Definition wrap64 (z : Z) : Z := ((z + 2 ^ 63) mod 2 ^ 64 - 2 ^ 63)%Z.

Lemma wrap64_id z : in_int z = true -> wrap64 z = z.
Proof.
  unfold in_int, int_min, int_max, wrap64. intros H. bool_hyps.
  rewrite Z.mod_small; lia.
Qed.

Lemma wrap64_range z : in_int (wrap64 z) = true.
Proof.
  unfold in_int, int_min, int_max, wrap64.
  pose proof (Z.mod_pos_bound (z + 2 ^ 63) (2 ^ 64) ltac:(lia)).
  apply andb_true_iff; split; apply Z.leb_le; lia.
Qed.

(** ** Lists *)
Section list_lemmas.
Context {A : Type}.

(** [existsb]/[forallb] against stdpp membership. *)
Lemma existsb_elem (p : A -> bool) (l : list A) :
  existsb p l = true <-> exists x, x ∈ l /\ p x = true.
Proof.
  rewrite existsb_exists. setoid_rewrite list_elem_of_In. done.
Qed.

Lemma forallb_elem (p : A -> bool) (l : list A) :
  forallb p l = true <-> forall x, x ∈ l -> p x = true.
Proof.
  rewrite forallb_forall. setoid_rewrite list_elem_of_In. done.
Qed.

End list_lemmas.

(** ** Rows of a table

    [map_find p m] is the row a query with the condition [p] answers, with its key. *)
Section map_find.
Context `{Countable K} {A : Type}.

Definition map_find (p : A -> bool) (m : gmap K A) : option (K * A) :=
  List.find (fun x => p (snd x)) (map_to_list m).

Lemma map_find_some p m k a : map_find p m = Some (k, a) -> m !! k = Some a /\ p a = true.
Proof.
  unfold map_find. intros [Hin Hp]%List.find_some. simpl in Hp.
  split; [|done]. apply list_elem_of_In, elem_of_map_to_list in Hin. done.
Qed.

Lemma map_find_none p m k a : map_find p m = None -> m !! k = Some a -> p a = false.
Proof.
  unfold map_find. intros Hn Hl.
  apply (List.find_none _ _ Hn (k, a)), list_elem_of_In, elem_of_map_to_list. done.
Qed.

(** The row is determined when the condition is a key. *)
Lemma map_find_unique p m k a :
  (forall k1 k2 a1 a2, m !! k1 = Some a1 -> m !! k2 = Some a2 -> p a1 = true -> p a2 = true -> k1 = k2) ->
  m !! k = Some a -> p a = true -> map_find p m = Some (k, a).
Proof.
  intros Hu Hl Hp. destruct (map_find p m) as [[k' a']|] eqn:E.
  - apply map_find_some in E as [Hl' Hp']. rewrite (Hu k k' a a') in *; naive_solver.
  - apply (map_find_none _ _ _ _ E) in Hl. congruence.
Qed.
End map_find.

(** ** Step relations and reachability *)
Section reach.
Context {S L : Type} (step : S -> L -> S -> Prop).

(** [run s ls s']: the labels [ls] take [s] to [s']. *)
Inductive run : S -> list L -> S -> Prop :=
| run_nil s : run s [] s
| run_cons s l s' ls s'' : step s l s' -> run s' ls s'' -> run s (l :: ls) s''.

Lemma run_invariant (I : S -> Prop) :
  (forall s l s', I s -> step s l s' -> I s') ->
  forall s ls s', I s -> run s ls s' -> I s'.
Proof. intros Hp s ls s' Hi Hr. induction Hr; eauto. Qed.

Lemma run_app s1 l1 s2 l2 s3 : run s1 l1 s2 -> run s2 l2 s3 -> run s1 (l1 ++ l2) s3.
Proof. induction 1; simpl; eauto using run. Qed.
End reach.
