(* ===== verification/Store.v ===== *)
(** * Calls to a store that may fail

    A state monad with errors for the use cases that talk to PostgreSQL and Redis, and the one
    assumption made about a call: it takes effect as a whole or not at all, and its answer
    may be lost either way. A world carries a script that says what each coming call meets. *)

From S2P Require Import Prelude.

(** Nothing, a failure before the call ran, or an answer lost after it ran. *)
Inductive fault := Fine | NotSent | NoReply.

Definition M (W E A : Type) : Type := W -> result E A * W.

Section Monad.
Context {W E : Type}.

Definition ret {A} (a : A) : M W E A := fun w => (Ok a, w).
Definition fail {A} (e : E) : M W E A := fun w => (Err e, w).
Definition bind {A B} (m : M W E A) (k : A -> M W E B) : M W E B :=
  fun w => match m w with (Ok a, w') => k a w' | (Err e, w') => (Err e, w') end.
(** The error as a value, for the places that look at it. *)
Definition attempt {A} (m : M W E A) : M W E (result E A) := fun w => let '(r, w') := m w in (Ok r, w').
Definition get {A} (f : W -> A) : M W E A := fun w => (Ok (f w), w).
Definition update (f : W -> W) : M W E unit := fun w => (Ok tt, f w).
Definition answer {A} (r : result E A) : M W E A := fun w => (r, w).

Lemma bind_ret {A B} (a : A) (k : A -> M W E B) w : bind (ret a) k w = k a w.
Proof. done. Qed.

Lemma bind_ok {A B} (m : M W E A) (k : A -> M W E B) w b w' :
  bind m k w = (Ok b, w') <-> exists a w1, m w = (Ok a, w1) /\ k a w1 = (Ok b, w').
Proof. unfold bind. destruct (m w) as [[a|e] w1]; naive_solver. Qed.

(** [m] relates the worlds before and after it by [R], whatever it answers. *)
Definition respects {A} (R : W -> W -> Prop) (m : M W E A) : Prop := forall w, R w (snd (m w)).

Context (R : W -> W -> Prop) (R_refl : forall w, R w w).
Context (R_trans : forall u v w, R u v -> R v w -> R u w).

Lemma respects_ret {A} (a : A) : respects R (ret a).
Proof. intros w. apply R_refl. Qed.
Lemma respects_fail {A} e : respects R (@fail A e).
Proof. intros w. apply R_refl. Qed.
Lemma respects_get {A} (f : W -> A) : respects R (get f).
Proof. intros w. apply R_refl. Qed.
Lemma respects_answer {A} (r : result E A) : respects R (answer r).
Proof. intros w. apply R_refl. Qed.
Lemma respects_bind {A B} (m : M W E A) (k : A -> M W E B) :
  respects R m -> (forall a, respects R (k a)) -> respects R (bind m k).
Proof.
  intros Hm Hk w. unfold bind. specialize (Hm w). destruct (m w) as [[a|e] w1]; [|done].
  eapply R_trans; [exact Hm|apply Hk].
Qed.
Lemma respects_attempt {A} (m : M W E A) : respects R m -> respects R (attempt m).
Proof. intros Hm w. unfold attempt. specialize (Hm w). by destruct (m w). Qed.
End Monad.

Declare Scope store_scope.
Delimit Scope store_scope with store.
Notation "'let!' x ':=' c 'in' k" := (bind c (fun x => k))
  (at level 10, x pattern, c at level 100, k at level 200) : store_scope.
Notation "c ';!' k" := (bind c (fun _ => k))
  (at level 100, k at level 200, right associativity) : store_scope.

(** ** Calls *)
Class Faulty (W : Type) := {
  faults_of : W -> list fault;
  with_faults : list fault -> W -> W;
}.

Section Calls.
Context {W E : Type} `{Faulty W} (down : E).

Definition call {A} (f : W -> result E A * W) : M W E A :=
  fun w =>
    match faults_of w with
    | [] => f w
    | Fine :: fs => f (with_faults fs w)
    | NotSent :: fs => (Err down, with_faults fs w)
    | NoReply :: fs => (Err down, snd (f (with_faults fs w)))
    end.

Definition query {A} (f : W -> result E A) : M W E A := call (fun w => (f w, w)).

Lemma call_fine {A} (f : W -> result E A * W) w : faults_of w = [] -> call f w = f w.
Proof. intros Hf. unfold call. by rewrite Hf. Qed.

(** A call leaves the world of one that worked or of one that never happened. *)
Lemma respects_call {A} (R : W -> W -> Prop) (f : W -> result E A * W) :
  (forall w, R w w) -> (forall fs w, R w (with_faults fs w)) ->
  (forall u v w, R u v -> R v w -> R u w) ->
  respects R f -> respects R (call f).
Proof.
  intros Hr Hw Ht Hf w. unfold call. destruct (faults_of w) as [|[] fs]; [apply Hf| |apply Hw|];
    (eapply Ht; [apply (Hw fs)|apply Hf]).
Qed.

Lemma call_ok {A} (f : W -> result E A * W) w a w' :
  call f w = (Ok a, w') -> f w = (Ok a, w') \/ exists fs, f (with_faults fs w) = (Ok a, w').
Proof. unfold call. destruct (faults_of w) as [|[] fs]; try done; eauto. Qed.
End Calls.

(** ** Programs as sequences of steps

    [moves step m]: running [m] takes the world along steps of [step], whatever it answers. *)
Section moves.
Context {W E : Type} (step : W -> unit -> W -> Prop).

Definition reaches (w w' : W) : Prop := exists ls, run step w ls w'.

Lemma reaches_refl w : reaches w w.
Proof. exists []. constructor. Qed.
Lemma reaches_trans u v w : reaches u v -> reaches v w -> reaches u w.
Proof. intros [l1 H1] [l2 H2]. exists (l1 ++ l2)%list. by eapply run_app. Qed.
Lemma reaches_step w w' : step w tt w' -> reaches w w'.
Proof. intros Hs. exists [tt]. econstructor; [done|constructor]. Qed.
Lemma reaches_invariant (I : W -> Prop) w w' :
  (forall w l w', I w -> step w l w' -> I w') -> I w -> reaches w w' -> I w'.
Proof. intros Hi Hw [ls Hr]. by eapply run_invariant. Qed.

Definition moves {A} (m : M W E A) : Prop := respects reaches m.

Lemma moves_ret {A} (a : A) : moves (ret a).
Proof. apply respects_ret, reaches_refl. Qed.
Lemma moves_fail {A} e : moves (@fail _ _ A e).
Proof. apply respects_fail, reaches_refl. Qed.
Lemma moves_get {A} (f : W -> A) : moves (get f).
Proof. apply respects_get, reaches_refl. Qed.
Lemma moves_answer {A} (r : result E A) : moves (answer r).
Proof. apply respects_answer, reaches_refl. Qed.
Lemma moves_bind {A B} (m : M W E A) (k : A -> M W E B) :
  moves m -> (forall a, moves (k a)) -> moves (bind m k).
Proof. apply respects_bind, reaches_trans. Qed.
Lemma moves_attempt {A} (m : M W E A) : moves m -> moves (attempt m).
Proof. apply respects_attempt. Qed.
Lemma moves_step {A} (m : M W E A) : (forall w, step w tt (snd (m w))) -> moves m.
Proof. intros Hm w. by apply reaches_step. Qed.
End moves.

(** The programs known to move by their steps, and the steps. *)
Create HintDb moves discriminated.
#[export] Hint Resolve moves_ret moves_fail moves_get moves_answer : moves.

(** Follows the code: a bind, an error looked at, a case, a statement. *)
Ltac moves_tac :=
  repeat first
    [ progress intros
    | solve [eauto with moves]
    | progress cbv zeta
    | apply moves_bind | apply moves_attempt
    | solve [apply moves_step; eauto with moves]
    | match goal with |- moves _ (match ?x with _ => _ end) => destruct x end ].

(** ** What a program leaves behind

    [wp m Q F w]: from [w], [m] answers with what [Q] holds of, or fails in a world of [F].
    [same] is the part of the world that a call which only reads, or never ran, leaves alone. *)
Class Quiet (W : Type) `{Faulty W} := {
  same : W -> W -> Prop;
  same_refl w : same w w;
  same_faults fs w : same w (with_faults fs w);
}.

Section wp.
Context {W E : Type} `{Quiet W}.

Definition wp {A} (m : M W E A) (Q : A -> W -> Prop) (F : W -> Prop) (w : W) : Prop :=
  match m w with (Ok a, w') => Q a w' | (Err _, w') => F w' end.

Lemma wp_ret {A} (a : A) (Q : A -> W -> Prop) F w : Q a w -> wp (ret a) Q F w.
Proof. done. Qed.
Lemma wp_fail {A} e (Q : A -> W -> Prop) (F : W -> Prop) w : F w -> wp (fail e) Q F w.
Proof. done. Qed.
Lemma wp_get {A} (f : W -> A) (Q : A -> W -> Prop) F w : Q (f w) w -> wp (get f) Q F w.
Proof. done. Qed.
Lemma wp_update f (Q : unit -> W -> Prop) F w : Q tt (f w) -> wp (update f) Q F w.
Proof. done. Qed.
Lemma wp_answer {A} r (Q : A -> W -> Prop) (F : W -> Prop) w :
  F w -> (forall a, r = Ok a -> Q a w) -> wp (answer r) Q F w.
Proof. unfold wp, answer. destruct r; auto. Qed.

Lemma wp_bind {A B} (m : M W E A) (k : A -> M W E B) (Q : B -> W -> Prop) F w :
  wp m (fun a w' => wp (k a) Q F w') F w -> wp (bind m k) Q F w.
Proof. intros Hw. unfold wp, bind in *. by destruct (m w) as [[a|e] w']. Qed.

Lemma wp_weaken {A} (m : M W E A) (Q Q' : A -> W -> Prop) (F F' : W -> Prop) w :
  wp m Q F w -> (forall a w', Q a w' -> Q' a w') -> (forall w', F w' -> F' w') -> wp m Q' F' w.
Proof. intros Hw HQ HF. unfold wp in *. destruct (m w) as [[a|e] w']; auto. Qed.

Lemma wp_attempt {A} (m : M W E A) (Q : result E A -> W -> Prop) F w :
  wp m (fun a w' => Q (Ok a) w') (fun w' => forall e, Q (Err e) w') w -> wp (attempt m) Q F w.
Proof. intros Hw. unfold wp, attempt in *. destruct (m w) as [[a|e] w']; auto. Qed.

Lemma wp_call {A} down (f : W -> result E A * W) (Q : A -> W -> Prop) F w :
  (forall w0, same w w0 ->
     F w0 /\ match f w0 with (Ok a, w') => Q a w' /\ F w' | (Err _, w') => F w' end) ->
  wp (call down f) Q F w.
Proof.
  intros Hf. unfold wp, call. destruct (faults_of w) as [|[] fs].
  - destruct (Hf w (same_refl w)) as [_ Hr]. by destruct (f w) as [[a|e] w']; [destruct Hr|].
  - destruct (Hf _ (same_faults fs w)) as [_ Hr]. by destruct (f _) as [[a|e] w']; [destruct Hr|].
  - by destruct (Hf _ (same_faults fs w)).
  - destruct (Hf _ (same_faults fs w)) as [_ Hr]. by destruct (f _) as [[a|e] w']; [destruct Hr|].
Qed.

Lemma wp_query {A} down (f : W -> result E A) (Q : A -> W -> Prop) F w :
  (forall w0, same w w0 -> F w0 /\ forall a, f w0 = Ok a -> Q a w0) -> wp (query down f) Q F w.
Proof.
  intros Hf. apply wp_call. intros w0 Hs. destruct (Hf w0 Hs) as [HF HQ]. split; [done|].
  destruct (f w0) as [a|e]; auto.
Qed.

(** What every run leaves. *)
Lemma wp_sound {A} (m : M W E A) (F : W -> Prop) w : wp m (fun _ => F) F w -> F (snd (m w)).
Proof. intros Hw. unfold wp in Hw. by destruct (m w) as [[a|e] w']. Qed.

Lemma wp_ok {A} (m : M W E A) (Q : A -> W -> Prop) F w a w' : wp m Q F w -> m w = (Ok a, w') -> Q a w'.
Proof. unfold wp. intros Hw Em. by rewrite Em in Hw. Qed.
End wp.
