(* ===== verification/GoStr.v ===== *)
(** * Go strings

    The functions of Go's [strings], [strconv] and [path/filepath] packages the
    panel uses, on byte strings ([String.string], one [ascii] per byte).

    White space is Unicode white space as [unicode.IsSpace] defines it, matched
    on its UTF-8 encoding.  Case mapping ([to_lower], [equal_fold]) is exact on
    ASCII and leaves every byte from 128 up as it is. *)

From S2P Require Import Prelude.

#[local] Open Scope string_scope.
#[global] Arguments String.append : simpl nomatch.
#[global] Arguments Ascii.eqb : simpl never.
#[global] Arguments String.eqb : simpl never.
#[global] Arguments nat_of_ascii : simpl never.

(** ** Characters *)
Definition char_code (a : ascii) : nat := nat_of_ascii a.
Definition in_range (lo hi a : ascii) : bool :=
  ((nat_of_ascii lo <=? nat_of_ascii a) && (nat_of_ascii a <=? nat_of_ascii hi))%nat.
Definition is_digit (a : ascii) : bool := in_range "0" "9" a.
Definition is_lower (a : ascii) : bool := in_range "a" "z" a.
Definition is_upper (a : ascii) : bool := in_range "A" "Z" a.
Definition is_hex (a : ascii) : bool := is_digit a || in_range "a" "f" a || in_range "A" "F" a.
Definition is_ascii_space (a : ascii) : bool :=
  let n := nat_of_ascii a in ((9 <=? n) && (n <=? 13) || (n =? 32))%nat.

Definition lower_char (a : ascii) : ascii :=
  if is_upper a then ascii_of_nat (nat_of_ascii a + 32) else a.

Fixpoint str_map (f : ascii -> ascii) (s : string) : string :=
  match s with "" => "" | String a s' => String (f a) (str_map f s') end.

(** [strings.ToLower], on ASCII. *)
Definition to_lower : string -> string := str_map lower_char.

(** [strings.EqualFold], on ASCII. *)
Definition equal_fold (s t : string) : bool := (to_lower s =? to_lower t)%string.

Fixpoint str_forall (p : ascii -> bool) (s : string) : bool :=
  match s with "" => true | String a s' => p a && str_forall p s' end.

Fixpoint str_exists (p : ascii -> bool) (s : string) : bool :=
  match s with "" => false | String a s' => p a || str_exists p s' end.

(** [strings.ContainsRune] for an ASCII rune. *)
Definition contains_char (c : ascii) (s : string) : bool := str_exists (Ascii.eqb c) s.

(** [strings.ContainsAny] for a set of ASCII characters. *)
Definition contains_any (cs s : string) : bool := str_exists (fun a => contains_char a cs) s.

(** ** Prefixes and substrings *)
Fixpoint has_prefix (p s : string) : bool :=
  match p, s with
  | "", _ => true
  | String a p', String b s' => Ascii.eqb a b && has_prefix p' s'
  | _, _ => false
  end.

Fixpoint trim_prefix_opt (p s : string) : option string :=
  match p, s with
  | "", _ => Some s
  | String a p', String b s' => if Ascii.eqb a b then trim_prefix_opt p' s' else None
  | _, _ => None
  end.

Definition trim_prefix (p s : string) : string := default s (trim_prefix_opt p s).

Fixpoint has_suffix (p s : string) : bool :=
  (p =? s)%string ||
  match s with "" => false | String _ s' => has_suffix p s' end.

(** [strings.TrimSuffix]. *)
Fixpoint trim_suffix_opt (p s : string) : option string :=
  if (p =? s)%string then Some ""
  else match s with
       | "" => None
       | String a s' => String a <$> trim_suffix_opt p s'
       end.
Definition trim_suffix (p s : string) : string := default s (trim_suffix_opt p s).

(** [strings.Contains]. *)
Fixpoint str_contains (p s : string) : bool :=
  has_prefix p s || match s with "" => false | String _ s' => str_contains p s' end.

(** [strings.Cut] on a one-byte separator: text before, text after, found. *)
Fixpoint cut (c : ascii) (s : string) : string * string * bool :=
  match s with
  | "" => ("", "", false)
  | String a s' =>
      if Ascii.eqb a c then ("", s', true)
      else let '(x, y, found) := cut c s' in (String a x, y, found)
  end.

(** [strings.Cut] on any separator. *)
Fixpoint cut_str (sep s : string) : string * string * bool :=
  match trim_prefix_opt sep s with
  | Some rest => ("", rest, true)
  | None =>
      match s with
      | "" => ("", "", false)
      | String a s' => let '(x, y, found) := cut_str sep s' in (String a x, y, found)
      end
  end.

(** [strings.Index] of a separator as the text before and after it. *)
Definition cut_opt (sep s : string) : option (string * string) :=
  let '(x, y, found) := cut_str sep s in if found then Some (x, y) else None.

(** [strings.ReplaceAll(s, old, new)] for an [old] that is not empty; the fuel is the length. *)
Fixpoint replace_all (fuel : nat) (old new s : string) : string :=
  match fuel with
  | O => s
  | S f => match cut_opt old s with
           | Some (x, y) => x ++ new ++ replace_all f old new y
           | None => s
           end
  end.

(** [strings.Split] on a one-byte separator. *)
Fixpoint split (c : ascii) (s : string) : list string :=
  match s with
  | "" => [""]
  | String a s' =>
      if Ascii.eqb a c then "" :: split c s'
      else match split c s' with
           | [] => [String a ""]
           | x :: xs => String a x :: xs
           end
  end.

(** [strings.Join]. *)
Fixpoint join (sep : string) (l : list string) : string :=
  match l with
  | [] => ""
  | [x] => x
  | x :: xs => x ++ sep ++ join sep xs
  end.

(** ** White space *)

(** The length in bytes of the white-space rune [s] starts with, 0 if none:
    U+0009..U+000D, U+0020, U+0085, U+00A0, U+1680, U+2000..U+200A, U+2028,
    U+2029, U+202F, U+205F and U+3000. *)
Definition space_len (s : string) : nat :=
  match s with
  | "" => 0
  | String a s1 =>
      let n := nat_of_ascii a in
      if (n <? 128)%nat then (if is_ascii_space a then 1 else 0)
      else match s1 with
      | "" => 0
      | String b s2 =>
          let m := nat_of_ascii b in
          if (n =? 194)%nat && ((m =? 133) || (m =? 160))%nat then 2
          else match s2 with
          | "" => 0
          | String c _ =>
              let k := nat_of_ascii c in
              if ((n =? 225) && (m =? 154) && (k =? 128))%nat ||
                 ((n =? 226) && (m =? 128) &&
                    (((128 <=? k) && (k <=? 138)) || (k =? 168) || (k =? 169) || (k =? 175)))%nat ||
                 ((n =? 226) && (m =? 129) && (k =? 159))%nat ||
                 ((n =? 227) && (m =? 128) && (k =? 128))%nat
              then 3 else 0
          end
      end
  end.

Fixpoint trim_left_go (skip : nat) (s : string) : string :=
  match s with
  | "" => ""
  | String a s' =>
      match skip with
      | S k => trim_left_go k s'
      | O => match space_len s with O => s | S k => trim_left_go k s' end
      end
  end.

Definition trim_left (s : string) : string := trim_left_go 0 s.

Fixpoint trim_right (s : string) : string :=
  match s with
  | "" => ""
  | String a s' => if (trim_left s =? "")%string then "" else String a (trim_right s')
  end.

(** [strings.TrimSpace]. *)
Definition trim_space (s : string) : string := trim_right (trim_left s).

(** [strings.Fields]. *)
Fixpoint fields_go (cur : option string) (skip : nat) (s : string) : list string :=
  match s with
  | "" => option_list cur
  | String a s' =>
      match skip with
      | S k => fields_go cur k s'
      | O =>
          match space_len s with
          | O => fields_go (Some (default "" cur ++ String a "")) 0 s'
          | S k => app (option_list cur) (fields_go None k s')
          end
      end
  end.

Definition fields (s : string) : list string := fields_go None 0 s.

(** [strings.Trim] with a set of ASCII characters. *)
Fixpoint trim_left_set (cs s : string) : string :=
  match s with
  | "" => ""
  | String a s' => if contains_char a cs then trim_left_set cs s' else s
  end.
Fixpoint trim_right_set (cs s : string) : string :=
  match s with
  | "" => ""
  | String a s' =>
      if str_forall (fun b => contains_char b cs) s then ""
      else String a (trim_right_set cs s')
  end.
Definition trim_set (cs s : string) : string := trim_right_set cs (trim_left_set cs s).

(** [strings.ReplaceAll] of one character by nothing. *)
Fixpoint remove_char (c : ascii) (s : string) : string :=
  match s with
  | "" => ""
  | String a s => if Ascii.eqb a c then remove_char c s else String a (remove_char c s)
  end%string.

(** ** Numbers *)
Definition digit_val (a : ascii) : Z := Z.of_nat (nat_of_ascii a - 48).

Fixpoint digits_val (acc : Z) (s : string) : option Z :=
  match s with
  | "" => Some acc
  | String a s' => if is_digit a then digits_val (acc * 10 + digit_val a)%Z s' else None
  end.

Definition udigits (s : string) : option Z :=
  match s with "" => None | _ => digits_val 0 s end.

(** [strconv.Atoi]: an optional sign, at least one digit, the value in [int]. *)
Definition atoi (s : string) : option Z :=
  let v := match s with
           | "" => None
           | String a t =>
               if Ascii.eqb a "-" then Z.opp <$> udigits t
               else if Ascii.eqb a "+" then udigits t
               else udigits s
           end in
  match v with
  | Some z => if in_int z then Some z else None
  | None => None
  end.

Definition digit_char (z : Z) : ascii := ascii_of_nat (48 + Z.to_nat z).

(** [strconv.Itoa]; the fuel is the number of bits, an upper bound on the
    number of decimal digits. *)
Fixpoint utoa_go (fuel : nat) (z : Z) (acc : string) : string :=
  match fuel with
  | O => acc
  | S f =>
      let acc' := String (digit_char (z mod 10)) acc in
      if (z / 10 =? 0)%Z then acc' else utoa_go f (z / 10) acc'
  end.
Definition utoa (z : Z) : string := utoa_go (S (Z.to_nat (Z.log2 z))) z "".
Definition itoa (z : Z) : string := if (z <? 0)%Z then "-" ++ utoa (- z) else utoa z.

(** ** Slash-separated paths ([path/filepath] on Unix) *)
Definition slash : ascii := "/".

(** The element loop of [filepath.Clean]: empty and dot elements disappear, a
    dot-dot removes the element before it (kept at the front of a relative
    path, dropped at the root).  [acc] is the output so far, last first. *)
Fixpoint clean_go (rooted : bool) (acc segs : list string) : list string :=
  match segs with
  | [] => rev acc
  | s :: r =>
      if (s =? "")%string || (s =? ".")%string then clean_go rooted acc r
      else if (s =? "..")%string then
        match acc with
        | [] => clean_go rooted (if rooted then [] else [".."]) r
        | x :: acc' =>
            if (x =? "..")%string then clean_go rooted (".." :: acc) r
            else clean_go rooted acc' r
        end
      else clean_go rooted (s :: acc) r
  end.

Definition is_abs (p : string) : bool := has_prefix "/" p.

(** [filepath.Clean]. *)
Definition fp_clean (p : string) : string :=
  if (p =? "")%string then "."
  else
    let out := join "/" (clean_go (is_abs p) [] (split slash p)) in
    if is_abs p then "/" ++ out else if (out =? "")%string then "." else out.

(** [path[:strings.LastIndex(path, "/")+1]] and what follows it. *)
Fixpoint last_slash (s : string) : string * string :=
  match s with
  | "" => ("", "")
  | String a s' =>
      let '(d, b) := last_slash s' in
      if Ascii.eqb a slash then (String a d, b)
      else match d with "" => ("", String a b) | _ => (String a d, b) end
  end.

(** [filepath.Dir]. *)
Definition fp_dir (p : string) : string := fp_clean (fst (last_slash p)).

Fixpoint strip_slashes (s : string) : string :=
  match s with
  | "" => ""
  | String a s' => if str_forall (Ascii.eqb slash) s then "" else String a (strip_slashes s')
  end.

(** [filepath.Base]. *)
Definition fp_base (p : string) : string :=
  if (p =? "")%string then "."
  else let b := snd (last_slash (strip_slashes p)) in
       if (b =? "")%string then "/" else b.

(** [filepath.Join]. *)
Fixpoint fp_join (elems : list string) : string :=
  match elems with
  | [] => ""
  | e :: r => if (e =? "")%string then fp_join r else fp_clean (join "/" elems)
  end.

#[global] Arguments fp_join : simpl never.
#[global] Arguments fp_clean : simpl never.

(** ** Lemmas *)

Lemma eqb_refl_char a : Ascii.eqb a a = true.
Proof. apply Ascii.eqb_refl. Qed.

Lemma app_nil_r_str s : s ++ "" = s.
Proof. induction s; simpl; congruence. Qed.

Lemma app_assoc_str s t u : (s ++ t) ++ u = s ++ (t ++ u).
Proof. induction s; simpl; congruence. Qed.

Lemma app_string_cons a s t : String a s ++ t = String a (s ++ t).
Proof. reflexivity. Qed.

Lemma length_app_str s t : String.length (s ++ t) = (String.length s + String.length t)%nat.
Proof. induction s; simpl; congruence. Qed.

Lemma app_inv_head_str s t u : s ++ t = s ++ u -> t = u.
Proof. induction s; simpl; intros; simplify_eq; auto. Qed.

Create Rewrite HintDb str.
#[export] Hint Rewrite app_nil_r_str app_assoc_str app_string_cons eqb_refl_char : str.

Lemma str_forall_app p s t : str_forall p (s ++ t) = str_forall p s && str_forall p t.
Proof. induction s; simpl; [done|]. rewrite IHs. by destruct (p a). Qed.

Lemma str_exists_app p s t : str_exists p (s ++ t) = str_exists p s || str_exists p t.
Proof. induction s; simpl; [done|]. rewrite IHs. by destruct (p a). Qed.

Lemma str_forall_impl (p q : ascii -> bool) s :
  (forall a, p a = true -> q a = true) -> str_forall p s = true -> str_forall q s = true.
Proof.
  intros Hpq. induction s; simpl; [done|]. rewrite !andb_true_iff. naive_solver.
Qed.

Lemma str_exists_negb p s : str_exists p s = negb (str_forall (fun a => negb (p a)) s).
Proof. induction s; simpl; [done|]. rewrite IHs. by destruct (p a), (str_forall _ s). Qed.

Lemma contains_char_app c s t :
  contains_char c (s ++ t) = contains_char c s || contains_char c t.
Proof. apply str_exists_app. Qed.

(** A character class that leaves [c] out leaves it out of the string. *)
Lemma contains_char_forall c p s :
  str_forall p s = true -> p c = false -> contains_char c s = false.
Proof.
  unfold contains_char. intros Hs Hc. induction s; simpl in *; [done|].
  apply andb_true_iff in Hs as [Ha Hs].
  destruct (Ascii.eqb_spec c a) as [->|]; [congruence|]. simpl. auto.
Qed.

Lemma has_prefix_spec p s : has_prefix p s = true <-> exists t, s = p ++ t.
Proof.
  revert s. induction p as [|a p IH]; intros s; simpl; [naive_solver|].
  destruct s as [|b s]; [naive_solver|].
  rewrite andb_true_iff, Ascii.eqb_eq, IH. naive_solver.
Qed.

Lemma trim_prefix_opt_spec p s t : trim_prefix_opt p s = Some t <-> s = p ++ t.
Proof.
  revert s. induction p as [|a p IH]; intros s; simpl; [naive_solver|].
  destruct s as [|b s]; [naive_solver|].
  destruct (Ascii.eqb_spec a b) as [->|]; [rewrite IH|]; naive_solver.
Qed.

(** ** Cutting, splitting and joining *)

Lemma cut_app c s t :
  contains_char c s = false -> cut c (s ++ String c t) = (s, t, true).
Proof.
  unfold contains_char. induction s as [|a s IH]; simpl; intros H.
  - by rewrite Ascii.eqb_refl.
  - apply orb_false_iff in H as [Ha H]. rewrite Ascii.eqb_sym, Ha, IH by done. done.
Qed.

Lemma cut_none c s : contains_char c s = false -> cut c s = (s, "", false).
Proof.
  unfold contains_char. induction s as [|a s IH]; simpl; intros H; [done|].
  apply orb_false_iff in H as [Ha H]. rewrite Ascii.eqb_sym, Ha, IH by done. done.
Qed.

Lemma cut_spec c s x y b :
  cut c s = (x, y, b) ->
  contains_char c x = false /\ (if b then s = x ++ String c y else s = x /\ y = "").
Proof.
  revert x y b. induction s as [|a s IH]; intros x y b; simpl; [naive_solver|].
  destruct (Ascii.eqb_spec a c) as [->|Hne]; [naive_solver|].
  destruct (cut c s) as [[x' y'] b'] eqn:E. intros [= <- <- <-].
  specialize (IH _ _ _ eq_refl) as [Hc Hb]. unfold contains_char in *. simpl.
  rewrite Hc. destruct (Ascii.eqb_spec c a); [congruence|].
  split; [done|]. destruct b'; naive_solver.
Qed.

Lemma split_not_nil c s : split c s <> [].
Proof.
  destruct s as [|a s]; simpl; [done|]. destruct (Ascii.eqb a c); [done|].
  by destruct (split c s).
Qed.

Lemma split_none c s : contains_char c s = false -> split c s = [s].
Proof.
  unfold contains_char. induction s as [|a s IH]; simpl; intros H; [done|].
  apply orb_false_iff in H as [Ha H]. rewrite Ascii.eqb_sym, Ha, IH by done. done.
Qed.

Lemma split_app c s t :
  contains_char c s = false -> split c (s ++ String c t) = s :: split c t.
Proof.
  unfold contains_char. induction s as [|a s IH]; simpl; intros H.
  - by rewrite Ascii.eqb_refl.
  - apply orb_false_iff in H as [Ha H]. rewrite Ascii.eqb_sym, Ha, IH by done. done.
Qed.

Lemma split_no_sep c s : Forall (fun x => contains_char c x = false) (split c s).
Proof.
  induction s as [|a s IH]; simpl; [by repeat constructor|].
  destruct (Ascii.eqb_spec a c) as [->|Hne]; [by constructor|].
  destruct (split c s) as [|x xs]; inversion_clear IH; repeat constructor; try done;
    unfold contains_char in *; simpl; destruct (Ascii.eqb_spec c a); try congruence; done.
Qed.

Lemma join_split c s : join (String c "") (split c s) = s.
Proof.
  induction s as [|a s IH]; simpl; [done|].
  pose proof (split_not_nil c s). destruct (split c s) as [|x xs] eqn:E; [done|].
  destruct (Ascii.eqb_spec a c) as [->|Hne].
  - simpl in *. by rewrite IH.
  - destruct xs; simpl in *; by rewrite <- IH.
Qed.

Lemma split_join c l :
  l <> [] -> Forall (fun x => contains_char c x = false) l ->
  split c (join (String c "") l) = l.
Proof.
  intros Hn Hl. induction Hl as [|x l Hx Hl IH]; [done|].
  destruct l as [|y l]; simpl; [by apply split_none|].
  rewrite split_app by done. f_equal. by apply IH.
Qed.

Lemma split_join_app c l t :
  Forall (fun x => contains_char c x = false) l -> l <> [] ->
  split c (join (String c "") l ++ String c t) = (l ++ split c t)%list.
Proof.
  intros Hl Hn. induction Hl as [|x l Hx Hl IH]; [done|].
  destruct l as [|y l]; cbn [join]; [by apply split_app|].
  rewrite app_assoc_str. change (String c "" ++ ?a) with (String c a).
  rewrite app_string_cons. rewrite split_app by done. cbn [app]. f_equal. by apply IH.
Qed.

Lemma join_cons sep x l : l <> [] -> join sep (x :: l) = x ++ sep ++ join sep l.
Proof. by destruct l. Qed.

Lemma join_forall p sep l :
  str_forall p sep = true -> Forall (fun s => str_forall p s = true) l ->
  str_forall p (join sep l) = true.
Proof.
  intros Hs. induction 1 as [|x l Hx Hl IH]; [done|]. destruct l; [done|].
  rewrite join_cons by done. by rewrite !str_forall_app, Hx, Hs, IH.
Qed.

Lemma join_snoc sep l x : l <> [] -> join sep (l ++ [x])%list = join sep l ++ sep ++ x.
Proof.
  intros Hn. induction l as [|y l IH]; [done|]. destruct l as [|z l].
  - done.
  - change ((y :: z :: l) ++ [x])%list with (y :: ((z :: l) ++ [x]))%list.
    rewrite join_cons by done.
    rewrite IH by done. rewrite (join_cons _ _ (z :: l)) by done.
    autorewrite with str. done.
Qed.

Lemma join_app sep l k :
  l <> [] -> k <> [] -> join sep (l ++ k)%list = join sep l ++ sep ++ join sep k.
Proof.
  intros Hl Hk. induction l as [|y l IH]; [done|]. destruct l as [|z l].
  - simpl. destruct k; done.
  - change ((y :: z :: l) ++ k)%list with (y :: ((z :: l) ++ k))%list.
    rewrite join_cons by done. rewrite IH by done.
    rewrite (join_cons _ _ (z :: l)) by done. autorewrite with str. done.
Qed.

(** ** Cleaned paths

    An element a cleaned absolute path is made of, and the path its elements
    spell. *)
Definition good_seg (s : string) : Prop :=
  s <> "" /\ s <> "." /\ s <> ".." /\ contains_char slash s = false.
Definition abs_path (segs : list string) : string := "/" ++ join "/" segs.

Lemma good_seg_no_slash l :
  Forall good_seg l -> Forall (fun x => contains_char slash x = false) l.
Proof. apply Forall_impl. by intros x (_ & _ & _ & H). Qed.

Lemma good_seg_eqb s : good_seg s ->
  (s =? "")%string = false /\ (s =? ".")%string = false /\ (s =? "..")%string = false.
Proof. intros (H1 & H2 & H3 & _). by rewrite !String.eqb_neq. Qed.

Lemma clean_go_good r acc segs :
  Forall good_seg segs -> clean_go r acc segs = (rev acc ++ segs)%list.
Proof.
  intros H. revert acc. induction H as [|s l Hs Hl IH]; intros acc; simpl.
  - by rewrite app_nil_r.
  - apply good_seg_eqb in Hs as (-> & -> & ->). simpl. rewrite IH. simpl.
    by rewrite <- app_assoc.
Qed.

Lemma split_abs segs :
  Forall good_seg segs ->
  split slash (abs_path segs) = match segs with [] => [""; ""] | _ => "" :: segs end.
Proof.
  intros H. unfold abs_path, slash. simpl. destruct segs; [done|].
  f_equal. apply split_join; [done|]. by apply good_seg_no_slash.
Qed.

Lemma fp_clean_rooted p :
  is_abs p = true -> fp_clean p = abs_path (clean_go true [] (split slash p)).
Proof.
  intros Hp. unfold fp_clean. rewrite Hp. by destruct p.
Qed.

Lemma fp_clean_abs segs : Forall good_seg segs -> fp_clean (abs_path segs) = abs_path segs.
Proof.
  intros H. rewrite fp_clean_rooted by done. rewrite split_abs by done.
  destruct segs as [|s l]; [done|].
  change (clean_go true [] ("" :: s :: l)) with (clean_go true [] (s :: l)).
  by rewrite clean_go_good.
Qed.

Lemma clean_go_rooted acc segs :
  Forall good_seg acc -> Forall (fun x => contains_char slash x = false) segs ->
  Forall good_seg (clean_go true acc segs).
Proof.
  intros Ha Hs. revert acc Ha. induction Hs as [|s l Hs Hl IH]; intros acc Ha; simpl.
  - by apply Forall_rev.
  - destruct (String.eqb_spec s ""); simpl; [auto|].
    destruct (String.eqb_spec s "."); simpl; [auto|].
    destruct (String.eqb_spec s "..").
    + destruct acc as [|x acc]; [by apply IH|]. inversion_clear Ha as [|? ? Hx Hacc].
      apply good_seg_eqb in Hx as (_ & _ & ->). by apply IH.
    + apply IH. constructor; [|done]. done.
Qed.

(** [filepath.Clean] of an absolute path is the absolute path of some good
    elements. *)
Lemma fp_clean_is_abs p :
  is_abs p = true -> exists segs, Forall good_seg segs /\ fp_clean p = abs_path segs.
Proof.
  intros Hp. rewrite fp_clean_rooted by done. eexists; split; [|reflexivity].
  apply clean_go_rooted; [constructor|apply split_no_sep].
Qed.

Lemma abs_path_inj k l :
  Forall good_seg k -> Forall good_seg l -> abs_path k = abs_path l -> k = l.
Proof.
  intros Hk Hl E. apply (f_equal (split slash)) in E. rewrite !split_abs in E by done.
  destruct k as [|x k], l as [|y l]; simplify_eq; try done;
    inversion_clear Hk as [|? ? (H & _)]; inversion_clear Hl as [|? ? (H' & _)]; done.
Qed.

Lemma last_slash_none s : contains_char slash s = false -> last_slash s = ("", s).
Proof.
  unfold contains_char. induction s as [|a s IH]; simpl; intros H; [done|].
  apply orb_false_iff in H as [Ha H]. rewrite IH by done. by rewrite Ascii.eqb_sym, Ha.
Qed.

Lemma last_slash_app s b :
  contains_char slash b = false -> last_slash (s ++ "/" ++ b) = (s ++ "/", b).
Proof.
  intros Hb. induction s as [|a s IH].
  - simpl. by rewrite last_slash_none.
  - rewrite app_string_cons. cbn [last_slash]. rewrite IH.
    destruct (Ascii.eqb a slash); [done|]. by destruct s.
Qed.

Lemma abs_path_snoc segs x :
  abs_path (segs ++ [x])%list = (if decide (segs = []) then "" else abs_path segs) ++ "/" ++ x.
Proof.
  unfold abs_path. case_decide; subst; [done|]. by rewrite join_snoc.
Qed.

Lemma good_abs_no_trailing segs x : Forall good_seg (segs ++ [x])%list ->
  fp_clean (abs_path segs ++ "/") = abs_path segs.
Proof.
  intros H. apply Forall_app in H as [H _]. destruct segs as [|s l]; [done|].
  assert (E : abs_path (s :: l) ++ "/" = join "/" (("" :: s :: l) ++ [""])).
  { rewrite join_snoc by done. autorewrite with str. reflexivity. }
  rewrite E. change (("" :: s :: l) ++ [""])%list with ("" :: ((s :: l) ++ [""]))%list.
  rewrite (join_cons "/" "") by done. rewrite fp_clean_rooted by done.
  change ("" ++ "/" ++ ?t) with ("" ++ String slash t).
  rewrite split_app by done. cbn [clean_go]. simpl ("" =? "")%string. cbn [orb].
  rewrite split_join; [|done|].
  2:{ apply Forall_app; split; [by apply good_seg_no_slash|by repeat constructor]. }
  unfold abs_path. f_equal. f_equal.
  assert (G : forall acc, clean_go true acc ((s :: l) ++ [""])%list = clean_go true acc (s :: l)).
  { generalize (s :: l) H. induction 1 as [|y k Hy Hk IH]; intros acc; [done|].
    simpl. apply good_seg_eqb in Hy as (-> & -> & ->). simpl. apply IH. }
  rewrite G, clean_go_good by done. done.
Qed.

Lemma fp_dir_abs segs x :
  Forall good_seg (segs ++ [x])%list -> fp_dir (abs_path (segs ++ [x])%list) = abs_path segs.
Proof.
  intros H. pose proof (good_abs_no_trailing _ _ H) as Hc.
  apply Forall_app in H as [Hs Hx]. apply Forall_singleton in Hx as (_ & _ & _ & Hx).
  rewrite abs_path_snoc. unfold fp_dir. rewrite last_slash_app by done. simpl.
  case_decide; subst; [done|]. done.
Qed.

Lemma fp_dir_root : fp_dir "/" = "/".
Proof. reflexivity. Qed.

Lemma strip_slashes_app s b :
  b <> "" -> contains_char slash b = false -> strip_slashes (s ++ b) = s ++ b.
Proof.
  intros Hb Hc. induction s as [|a s IH].
  - simpl. unfold contains_char in Hc. induction b as [|c b IHb]; [done|].
    simpl in *. apply orb_false_iff in Hc as [Hc Hc']. rewrite Hc. simpl.
    destruct b; [done|]. by rewrite IHb.
  - rewrite app_string_cons. simpl. rewrite str_forall_app.
    assert (str_forall (Ascii.eqb slash) b = false) as ->.
    { destruct b as [|c b]; [done|]. unfold contains_char in Hc. simpl in *.
      by apply orb_false_iff in Hc as [-> _]. }
    rewrite !andb_false_r. by rewrite IH.
Qed.

Lemma fp_base_abs segs x :
  Forall good_seg (segs ++ [x])%list -> fp_base (abs_path (segs ++ [x])%list) = x.
Proof.
  intros H. apply Forall_app in H as [_ Hx]. rewrite Forall_singleton in Hx.
  destruct Hx as (Hn & _ & _ & Hx). unfold fp_base. rewrite abs_path_snoc.
  set (d := if decide _ then _ else _).
  assert ((d ++ "/" ++ x =? "")%string = false) as -> by (by destruct d).
  rewrite <- app_assoc_str, strip_slashes_app, app_assoc_str, last_slash_app by done. simpl.
  apply String.eqb_neq in Hn. by rewrite Hn.
Qed.

Lemma fp_clean_rel segs :
  segs <> [] -> Forall good_seg segs -> fp_clean (join "/" segs) = join "/" segs.
Proof.
  intros Hn H. unfold fp_clean.
  assert (Hr : is_abs (join "/" segs) = false /\ (join "/" segs =? "")%string = false).
  { destruct segs as [|s l]; [done|]. inversion_clear H as [|? ? (Hs & _ & _ & Hc)].
    destruct s as [|a s]; [done|]. unfold contains_char in Hc. simpl in Hc.
    apply orb_false_iff in Hc as [Hc _]. unfold is_abs.
    destruct l; simpl; unfold slash in Hc; by rewrite Hc. }
  destruct Hr as [-> ->]. cbv iota.
  rewrite split_join by (done || by apply good_seg_no_slash).
  rewrite clean_go_good by done. simpl.
  destruct (String.eqb_spec (join "/" segs) ""); [|done].
  exfalso. destruct segs as [|s l]; [done|]. inversion_clear H as [|? ? (Hs & _)].
  destruct s; [done|]. by destruct l.
Qed.

Lemma join_good_not_empty segs :
  segs <> [] -> Forall good_seg segs -> join "/" segs <> "".
Proof.
  intros Hn H. destruct segs as [|s l]; [done|]. inversion_clear H as [|? ? (Hs & _)].
  destruct s; [done|]. by destruct l.
Qed.

(** Re-attaching one element in front of the elements collected so far. *)
Lemma fp_join_rel x rem :
  good_seg x -> Forall good_seg rem ->
  fp_join [x; join "/" rem] = join "/" (x :: rem).
Proof.
  intros Hx Hr. unfold fp_join at 1. pose proof (good_seg_eqb _ Hx) as (-> & _).
  destruct rem as [|y rem].
  - cbn [join]. unfold fp_clean.
    destruct x as [|a x]; [by destruct Hx|].
    assert (Hs : contains_char slash (String a x) = false) by apply Hx.
    assert (is_abs (String a x ++ "/" ++ "") = false) as ->.
    { unfold contains_char in Hs. simpl in Hs. apply orb_false_iff in Hs as [Hs _].
      unfold is_abs, slash in *. simpl. by rewrite Hs. }
    change ("/" ++ "") with (String slash ""). rewrite split_app by done.
    pose proof (good_seg_eqb _ Hx) as (E1 & E2 & E3).
    cbn [split clean_go]. rewrite E1, E2, E3. done.
  - change (join "/" [x; join "/" (y :: rem)]) with (join "/" (x :: y :: rem)).
    apply fp_clean_rel; [done|]. by constructor.
Qed.

(** Joining the elements collected so far to an absolute path. *)
Lemma fp_join_abs rs rem :
  Forall good_seg rs -> Forall good_seg rem -> rem <> [] ->
  fp_join [abs_path rs; join "/" rem] = abs_path (rs ++ rem)%list.
Proof.
  intros Hrs Hr Hn. unfold fp_join at 1.
  replace (abs_path rs =? "")%string with false by done. cbv iota. cbn [join].
  destruct rs as [|r rs].
  - change (abs_path [] ++ "/" ++ join "/" rem)
      with (String slash (String slash (join "/" rem))).
    rewrite fp_clean_rooted by done.
    cbn [split]. change (Ascii.eqb slash slash) with true. cbv iota.
    rewrite split_join by (done || by apply good_seg_no_slash).
    cbn [clean_go]. simpl ("" =? "")%string. cbn [orb].
    by rewrite clean_go_good.
  - assert (E : abs_path (r :: rs) ++ "/" ++ join "/" rem = abs_path ((r :: rs) ++ rem)%list).
    { unfold abs_path. rewrite join_app by done. by rewrite app_assoc_str. }
    rewrite E. apply fp_clean_abs. by apply Forall_app.
Qed.

(** ** Tokens

    Printable ASCII characters other than the space; a token is a non-empty
    run of them. *)
Definition graph_char (a : ascii) : bool :=
  ((33 <=? nat_of_ascii a) && (nat_of_ascii a <=? 126))%nat.
Definition token (s : string) : Prop := s <> "" /\ str_forall graph_char s = true.

#[global] Arguments space_len : simpl never.

Lemma graph_not_space a s : graph_char a = true -> space_len (String a s) = 0%nat.
Proof.
  unfold graph_char, space_len, is_ascii_space. intros H. bool_hyps.
  replace (nat_of_ascii a <? 128)%nat with true by (symmetry; apply Nat.ltb_lt; lia).
  destruct (_ || _) eqn:E; [|done]. exfalso.
  apply orb_true_iff in E as [E|E]; bool_hyps; lia.
Qed.

Lemma fields_go_token cur s t :
  str_forall graph_char s = true -> s <> "" ->
  fields_go cur 0 (s ++ String " " t) = (default "" cur ++ s) :: fields_go None 0 t.
Proof.
  revert cur. induction s as [|a s IH]; intros cur Hs Hn; [done|].
  simpl in Hs. apply andb_true_iff in Hs as [Ha Hs]. rewrite app_string_cons.
  cbn [fields_go]. rewrite graph_not_space by done.
  destruct s as [|b s].
  - reflexivity.
  - rewrite IH by done. simpl default. by rewrite app_assoc_str.
Qed.

Lemma fields_go_end cur s :
  str_forall graph_char s = true -> s <> "" -> fields_go cur 0 s = [default "" cur ++ s].
Proof.
  revert cur. induction s as [|a s IH]; intros cur Hs Hn; [done|].
  simpl in Hs. apply andb_true_iff in Hs as [Ha Hs].
  cbn [fields_go]. rewrite graph_not_space by done.
  destruct s as [|b s]; [done|].
  rewrite IH by done. simpl default. by rewrite app_assoc_str.
Qed.

(** Splitting a space-joined list of tokens gives the tokens back. *)
Lemma fields_join l : Forall token l -> fields (join " " l) = l.
Proof.
  unfold fields. induction 1 as [|x l [Hn Hx] Hl IH]; [done|].
  destruct l as [|y l].
  - simpl. by rewrite fields_go_end.
  - rewrite join_cons by done. change (x ++ " " ++ ?t) with (x ++ String " " t).
    rewrite fields_go_token by done. simpl default. by rewrite IH.
Qed.

Lemma space_len_wide b s k :
  space_len (String b s) = S (S k) ->
  exists c s', s = String c s' /\ (128 <= nat_of_ascii c)%nat /\
    (k = 0 \/ k = 1 /\ exists d s'', s' = String d s'' /\ (128 <= nat_of_ascii d)%nat)%nat.
Proof.
  unfold space_len. intros H.
  destruct (nat_of_ascii b <? 128)%nat; [by destruct (is_ascii_space b)|].
  destruct s as [|c s]; [done|].
  destruct (_ && _) eqn:E in H.
  - exists c, s. bool_cases; simplify_eq; (split; [done|]; split; [lia|by left]).
  - clear E. destruct s as [|d s]; [done|].
    destruct (_ || _) eqn:E in H; [|done]. simplify_eq. exists c, (String d s).
    bool_cases; (split; [done|]; split; [lia|]; right; split; [done|];
      exists d, s; split; [done|lia]).
Qed.

Lemma space_len_bound b t a k :
  graph_char a = true -> space_len (String b (t ++ String a "")) = S k ->
  (k <= String.length t)%nat.
Proof.
  unfold graph_char. intros Ha H. bool_hyps. destruct k as [|k]; [lia|].
  apply space_len_wide in H as (c & s' & Hs & Hc & Hk).
  destruct t as [|c' t]; simpl in *; simplify_eq; [lia|].
  destruct Hk as [->|(-> & d & s'' & Hs & Hd)]; [lia|].
  destruct t as [|d' t]; simpl in *; simplify_eq; lia.
Qed.

Lemma trim_left_go_snoc k s a :
  graph_char a = true -> (k <= String.length s)%nat -> trim_left_go k (s ++ String a "") <> "".
Proof.
  intros Ha. revert k. induction s as [|b s IH]; intros k Hk.
  - simpl in Hk. destruct k; [|lia]. simpl. by rewrite graph_not_space.
  - rewrite app_string_cons. cbn [trim_left_go]. destruct k as [|k].
    + destruct (space_len _) as [|k] eqn:E; [done|]. apply IH. by eapply space_len_bound.
    + apply IH. simpl in Hk. lia.
Qed.

Lemma trim_right_snoc s a :
  graph_char a = true -> trim_right (s ++ String a "") = s ++ String a "".
Proof.
  intros Ha. induction s as [|b s IH].
  - simpl. unfold trim_left. simpl. by rewrite graph_not_space.
  - rewrite app_string_cons. cbn [trim_right].
    rewrite (proj2 (String.eqb_neq _ _)); [by rewrite IH|].
    apply (trim_left_go_snoc 0 (String b s) a); [done|lia].
Qed.

(** Text that starts and ends with a printable character has no white space
    to trim. *)
Lemma trim_space_id a s b :
  graph_char a = true -> graph_char b = true ->
  trim_space (String a (s ++ String b "")) = String a (s ++ String b "") /\
  trim_space (String a "") = String a "".
Proof.
  intros Ha Hb. unfold trim_space, trim_left. cbn [trim_left_go].
  rewrite !graph_not_space by done. split.
  - by apply (trim_right_snoc (String a s)).
  - by apply (trim_right_snoc "").
Qed.

Lemma string_snoc_inv s : s <> "" -> exists t a, s = t ++ String a "".
Proof.
  induction s as [|b s IH]; [done|]. intros _. destruct (decide (s = "")) as [->|Hn].
  - by exists "", b.
  - destruct (IH Hn) as (t & a & ->). by exists (String b t), a.
Qed.

Lemma trim_space_tokens l :
  l <> [] -> Forall token l -> trim_space (join " " l) = join " " l.
Proof.
  intros Hn Hl. assert (Hlast : exists t a, join " " l = t ++ String a "" /\ graph_char a = true).
  { destruct l as [|x l] using rev_ind; [done|]. clear IHl.
    apply Forall_app in Hl as [_ Hx]. rewrite Forall_singleton in Hx. destruct Hx as [Hx Hx'].
    destruct (string_snoc_inv x Hx) as (t & a & ->). rewrite str_forall_app in Hx'.
    simpl in Hx'. bool_hyps. destruct (decide (l = [])) as [->|Hl].
    - by exists t, a.
    - rewrite join_snoc by done. exists (join " " l ++ " " ++ t), a.
      by rewrite !app_assoc_str. }
  destruct Hlast as (t & a & Ht & Ha).
  assert (Hhead : exists c u, join " " l = String c u /\ graph_char c = true).
  { destruct Hl as [|x l [Hx Hx'] Hl]; [done|]. destruct x as [|c x]; [done|].
    simpl in Hx'. bool_hyps. destruct l; [by exists c, x|].
    rewrite join_cons by done. eexists c, _. done. }
  destruct Hhead as (c & u & Hu & Hc). unfold trim_space, trim_left.
  rewrite Hu. cbn [trim_left_go]. rewrite graph_not_space by done. rewrite <- Hu, Ht.
  by apply trim_right_snoc.
Qed.

(** ** Lines *)
Definition LF : ascii := "010".
Definition nl : string := String LF "".

(** Every line with its line feed. *)
Definition unlines (l : list string) : string := foldr (fun x s => x ++ nl ++ s) "" l.
Definition one_line (s : string) : Prop := contains_char LF s = false.

Lemma unlines_app l k : unlines (l ++ k)%list = unlines l ++ unlines k.
Proof. induction l as [|x l IH]; [done|]. simpl. by rewrite IH, !app_assoc_str. Qed.

Lemma join_unlines l : l <> [] -> join nl l ++ nl = unlines l.
Proof.
  induction l as [|x l IH]; intros Hn; [done|]. destruct l as [|y l]; [done|].
  rewrite join_cons by done. rewrite !app_assoc_str, IH by done. done.
Qed.

Lemma split_unlines l : Forall one_line l -> split LF (unlines l) = (l ++ [""])%list.
Proof.
  induction 1 as [|x l Hx Hl IH]; [done|].
  change (unlines (x :: l)) with (x ++ String LF (unlines l)). rewrite split_app by done.
  by rewrite IH.
Qed.

Lemma split_one_line s : Forall one_line (split LF s).
Proof. apply split_no_sep. Qed.

Lemma one_line_app s t : one_line s -> one_line t -> one_line (s ++ t).
Proof. unfold one_line. intros Hs Ht. by rewrite contains_char_app, Hs, Ht. Qed.

(** ** White space that is trimmed twice *)
Lemma space_len_app s t k : space_len s = S k -> space_len (s ++ t) = S k.
Proof.
  unfold space_len. destruct s as [|a s]; [done|]. rewrite app_string_cons.
  destruct (nat_of_ascii a <? 128)%nat; [done|]. destruct s as [|b s]; [done|]. rewrite app_string_cons.
  destruct (_ && _); [done|]. by destruct s as [|c s].
Qed.
Lemma space_len_fits s k : space_len s = S k -> exists p q, s = p ++ q /\ String.length p = S k.
Proof.
  unfold space_len. destruct s as [|a s]; [done|]. destruct (nat_of_ascii a <? 128)%nat.
  - destruct (is_ascii_space a); [|done]. intros [= <-]. by exists (String a ""), s.
  - destruct s as [|b s]; [done|]. destruct (_ && _).
    + intros [= <-]. by exists (String a (String b "")), s.
    + destruct s as [|c s]; [done|]. destruct (_ || _); [|done]. intros [= <-]. by exists (String a (String b (String c ""))), s.
Qed.
Lemma trim_left_go_skip p q : trim_left_go (String.length p) (p ++ q) = trim_left_go 0 q.
Proof. induction p as [|a p IH]; [done|]. cbn. exact IH. Qed.
Lemma trim_left_space p q k : String.length p = S k -> space_len (p ++ q) = S k -> trim_left (p ++ q) = trim_left q.
Proof.
  destruct p as [|a p]; [done|]. cbn [String.length]. intros [= Hp] Hk. unfold trim_left. rewrite app_string_cons in *.
  cbn [trim_left_go]. rewrite Hk, <- Hp. apply trim_left_go_skip.
Qed.
Lemma blank_app s t : trim_left s = "" -> trim_left (s ++ t) = trim_left t.
Proof.
  remember (String.length s) as n eqn:Hn. revert s Hn. induction n as [n IH] using lt_wf_ind. intros s Hn Hs.
  destruct s as [|a s]; [done|]. destruct (space_len (String a s)) as [|k] eqn:Ek.
  { unfold trim_left in Hs. cbn [trim_left_go] in Hs. by rewrite Ek in Hs. }
  destruct (space_len_fits _ _ Ek) as (p & q & Hpq & Hp). rewrite Hpq in *.
  rewrite (trim_left_space p q k) in Hs by done. rewrite app_assoc_str.
  rewrite (trim_left_space p (q ++ t) k); [|done|rewrite <- app_assoc_str; by apply space_len_app].
  eapply IH; [|reflexivity|done]. rewrite length_app_str in Hn. lia.
Qed.
Lemma trim_right_prefix s : exists q, s = trim_right s ++ q /\ trim_left q = "".
Proof.
  induction s as [|a s [q [Hs Hq]]]; [by exists ""|]. cbn [trim_right]. destruct (String.eqb_spec (trim_left (String a s)) "") as [E|E].
  - by exists (String a s).
  - exists q. split; [|done]. rewrite app_string_cons. by rewrite <- Hs.
Qed.
Lemma trim_right_blank s : trim_left (trim_right s) = "" -> trim_right s = "".
Proof.
  intros Hp. destruct (trim_right_prefix s) as (q & Hs & Hq).
  assert (Hb : trim_left s = "") by by rewrite Hs, blank_app. destruct s as [|a s]; [done|]. cbn [trim_right].
  by rewrite Hb.
Qed.
Lemma trim_right_twice s : trim_right (trim_right s) = trim_right s.
Proof.
  induction s as [|a s IH]; [done|]. destruct (String.eqb_spec (trim_left (String a s)) "") as [E|E].
  - cbn [trim_right]. by rewrite E.
  - assert (Ht : trim_right (String a s) = String a (trim_right s)).
    { cbn [trim_right]. by rewrite (proj2 (String.eqb_neq _ _) E). }
    destruct (String.eqb_spec (trim_left (trim_right (String a s))) "") as [E'|E'].
    { apply trim_right_blank in E'. by rewrite Ht in E'. }
    rewrite Ht in *. cbn [trim_right]. by rewrite (proj2 (String.eqb_neq _ _) E'), IH.
Qed.
Lemma trim_left_solid s : space_len (trim_left s) = 0%nat.
Proof.
  unfold trim_left. cut (forall n, space_len (trim_left_go n s) = 0%nat); [by intros Hn; apply Hn|].
  induction s as [|a s IH]; intros n; [by destruct n|]. cbn [trim_left_go].
  destruct n as [|n]; [|apply IH]. destruct (space_len (String a s)) as [|k] eqn:Ek; [done|apply IH].
Qed.
Lemma solid_left s : space_len s = 0%nat -> trim_left s = s.
Proof. destruct s as [|a s]; [done|]. intros Hs. unfold trim_left. cbn [trim_left_go]. by rewrite Hs. Qed.
Lemma trim_space_twice s : trim_space (trim_space s) = trim_space s.
Proof.
  unfold trim_space. rewrite (solid_left (trim_right (trim_left s))); [apply trim_right_twice|].
  destruct (trim_right_prefix (trim_left s)) as (q & Hs & _). pose proof (trim_left_solid s) as Hl. rewrite Hs in Hl.
  destruct (space_len (trim_right (trim_left s))) as [|k] eqn:E; [done|]. by rewrite (space_len_app _ _ _ E) in Hl.
Qed.

(** ** Numbers written and read *)
Lemma digit_char_spec z : (0 <= z < 10)%Z -> is_digit (digit_char z) = true /\ digit_val (digit_char z) = z.
Proof.
  intros Hz. assert (Hin : In z [0; 1; 2; 3; 4; 5; 6; 7; 8; 9]%Z) by (cbn; lia).
  repeat (destruct Hin as [<-|Hin]; [by vm_compute|]). done.
Qed.

Lemma utoa_go_forall (p : ascii -> bool) fuel : (forall a, is_digit a = true -> p a = true) ->
  forall z acc, str_forall p acc = true -> str_forall p (utoa_go fuel z acc) = true.
Proof.
  intros Hp. induction fuel as [|fuel IH]; intros z acc Ha; [done|]. cbn [utoa_go].
  assert (Hd : str_forall p (String (digit_char (z mod 10)) acc) = true).
  { cbn. rewrite Ha, Hp; [done|]. apply digit_char_spec, Z.mod_pos_bound. lia. }
  destruct (z / 10 =? 0)%Z; [done|by apply IH].
Qed.

Lemma itoa_forall (p : ascii -> bool) z : (forall a, is_digit a = true -> p a = true) -> p "-"%char = true ->
  str_forall p (itoa z) = true.
Proof.
  intros Hp Hm. unfold itoa, utoa. destruct (z <? 0)%Z; [|by apply utoa_go_forall].
  change (str_forall p (String "-" (utoa_go (S (Z.to_nat (Z.log2 (- z)))) (- z) "")) = true).
  cbn [str_forall]. rewrite Hm. by apply utoa_go_forall.
Qed.

Lemma utoa_go_value fuel : forall z acc, (0 <= z < 2 ^ Z.of_nat fuel)%Z ->
  fuel <> 0%nat -> digits_val 0 (utoa_go fuel z acc) = digits_val z acc.
Proof.
  induction fuel as [|fuel IH]; intros z acc Hz Hf; [done|]. cbn [utoa_go].
  destruct (digit_char_spec (z mod 10)) as [Hd Hv]; [apply Z.mod_pos_bound; lia|].
  pose proof (Z.div_mod z 10 ltac:(done)) as Hz10. pose proof (Z.mod_pos_bound z 10 ltac:(done)) as Hmod.
  destruct (Z.eqb_spec (z / 10) 0) as [E|E].
  - cbn [digits_val]. rewrite Hd, Hv. f_equal. lia.
  - assert (Hfuel : fuel <> 0%nat) by (intros ->; cbn in Hz; lia).
    rewrite IH; [|split; [lia|]|done]. 2:{ rewrite Nat2Z.inj_succ, Z.pow_succ_r in Hz by lia. lia. }
    cbn [digits_val]. rewrite Hd, Hv. f_equal. lia.
Qed.

Lemma utoa_go_not_empty fuel : forall z acc, acc <> "" \/ fuel <> 0%nat -> utoa_go fuel z acc <> "".
Proof.
  induction fuel as [|fuel IH]; intros z acc Ha; [by destruct Ha|]. cbn [utoa_go].
  destruct (z / 10 =? 0)%Z; [done|]. apply IH. by left.
Qed.

Lemma utoa_head fuel : fuel <> 0%nat -> forall z, exists a t, utoa_go fuel z "" = String a t /\ is_digit a = true.
Proof.
  intros Hf z. pose proof (utoa_go_not_empty fuel z "" (or_intror Hf)) as Hn.
  pose proof (utoa_go_forall is_digit fuel (fun a Ha => Ha) z "" eq_refl) as Hd.
  destruct (utoa_go fuel z "") as [|a t]; [done|]. exists a, t. split; [done|]. cbn in Hd.
  by apply andb_true_iff in Hd as [Hd _].
Qed.

Lemma udigits_utoa z : (0 <= z)%Z -> udigits (utoa z) = Some z.
Proof.
  intros Hz. unfold utoa. set (f := S (Z.to_nat (Z.log2 z))).
  destruct (utoa_head f ltac:(done) z) as (a & t & Hs & _). unfold udigits. rewrite Hs, <- Hs.
  rewrite utoa_go_value; [done| |done]. subst f. split; [done|].
  destruct (Z.eq_dec z 0%Z) as [->|Hnz]; [cbn; lia|].
  destruct (Z.log2_spec z) as [_ Hl]; [lia|]. rewrite Nat2Z.inj_succ, Z2Nat.id by apply Z.log2_nonneg. done.
Qed.

(** Different numbers are printed differently. *)
Lemma itoa_inj m n : itoa m = itoa n -> m = n.
Proof.
  assert (Hu : forall z s, utoa z <> String "-" s).
  { intros z s E. destruct (utoa_head (S (Z.to_nat (Z.log2 z))) ltac:(done) z) as (a & t & Hs & Hd).
    unfold utoa in E. rewrite E in Hs. injection Hs as <- _. by vm_compute in Hd. }
  unfold itoa. destruct (Z.ltb_spec m 0), (Z.ltb_spec n 0); intros E.
  - injection E as E. assert (Some (- m) = Some (- n))%Z as [= Heq]; [|lia].
    rewrite <- !udigits_utoa by lia. by rewrite E.
  - by destruct (Hu n (utoa (- m))).
  - by destruct (Hu m (utoa (- n))).
  - assert (Some m = Some n) as [= ->]; [|done]. rewrite <- !udigits_utoa by lia. by rewrite E.
Qed.

(** Every number of the width of [int] reads back as itself. *)
Lemma atoi_itoa z : (0 <= z)%Z -> in_int z = true -> atoi (itoa z) = Some z.
Proof.
  intros Hz Hi. pose proof (udigits_utoa z Hz) as Hu. unfold itoa, utoa in *. destruct (Z.ltb_spec z 0); [lia|]. unfold atoi.
  set (f := S (Z.to_nat (Z.log2 z))) in *.
  destruct (utoa_head f ltac:(done) z) as (a & t & Hs & Hd). rewrite Hs in *.
  assert (Ascii.eqb a "-" = false /\ Ascii.eqb a "+" = false) as [-> ->].
  { split; apply Ascii.eqb_neq; intros ->; by vm_compute in Hd. }
  by rewrite Hu, Hi.
Qed.
