(* ===== verification/GoTime.v ===== *)
(** * Instants and civil dates (package [time], in UTC)

    An instant is the number of nanoseconds since 1970-01-01T00:00:00Z. The
    calendar is the proleptic Gregorian one [time.Time] uses; only UTC is modelled,
    which is the zone the modelled code works in. *)

From S2P Require Import Prelude GoStr.

#[local] Open Scope Z_scope.

Definition Second : Z := 10 ^ 9.
Definition Minute : Z := 60 * Second.
Definition Hour : Z := 60 * Minute.
Definition day_ns : Z := 24 * Hour.

(** The civil date of a day number counted from 1970-01-01; a year starts in
    March so that the leap day comes last. *)
Definition date_of_doe (doe : Z) : Z * Z * Z :=
  let yoe := (doe - doe / 1460 + doe / 36524 - doe / 146096) / 365 in
  let doy := doe - (365 * yoe + yoe / 4 - yoe / 100) in
  let mp := (5 * doy + 2) / 153 in
  let d := doy - (153 * mp + 2) / 5 + 1 in
  let m := if mp <? 10 then mp + 3 else mp - 9 in
  ((if m <=? 2 then yoe + 1 else yoe), m, d).

Definition civil_of_days (days : Z) : Z * Z * Z :=
  let z := days + 719468 in
  let '(y, m, d) := date_of_doe (z mod 146097) in
  (y + 400 * (z / 146097), m, d).

Definition days_of_civil (y m d : Z) : Z :=
  let y := if m <=? 2 then y - 1 else y in
  let era := y / 400 in
  let yoe := y mod 400 in
  let mp := if 2 <? m then m - 3 else m + 9 in
  let doy := (153 * mp + 2) / 5 + d - 1 in
  let doe := yoe * 365 + yoe / 4 - yoe / 100 + doy in
  era * 146097 + doe - 719468.

(** Monday 5 January 1970 is day 4, and Sunday is 0. *)
Definition weekday_of_days (days : Z) : Z := (days + 4) mod 7.

Definition t_date (t : Z) : Z * Z * Z := civil_of_days (t / day_ns).
Definition t_Year (t : Z) : Z := fst (fst (t_date t)).
Definition t_Month (t : Z) : Z := snd (fst (t_date t)).
Definition t_Day (t : Z) : Z := snd (t_date t).
Definition t_Weekday (t : Z) : Z := weekday_of_days (t / day_ns).
Definition t_Hour (t : Z) : Z := (t mod day_ns) / Hour.
Definition t_Minute (t : Z) : Z := (t mod Hour) / Minute.
Definition t_Second (t : Z) : Z := (t mod Minute) / Second.
Definition t_Nanosecond (t : Z) : Z := t mod Second.

(** [time.Date(y, m, d, h, min, 0, 0, time.UTC)] for fields in range. *)
Definition t_of (y m d h min : Z) : Z :=
  days_of_civil y m d * day_ns + h * Hour + min * Minute.

(** A decimal of a fixed width, as [Format] pads its fields. *)
Fixpoint pad (width : nat) (z : Z) (acc : string) : string :=
  match width with
  | O => acc
  | S w => pad w (z / 10) (String (digit_char (z mod 10)) acc)
  end.

(** [Format("20060102T150405.000000000")]. *)
Definition stamp (t : Z) : string :=
  (pad 4 (t_Year t) "" ++ pad 2 (t_Month t) "" ++ pad 2 (t_Day t) "" ++ "T" ++
   pad 2 (t_Hour t) "" ++ pad 2 (t_Minute t) "" ++ pad 2 (t_Second t) "" ++ "." ++
   pad 9 (t_Nanosecond t) "")%string.

(** The zero [time.Time] is the first instant of year 1. *)
Definition t_zero : Z := days_of_civil 1 1 1 * day_ns.
Definition IsZero (t : Z) : bool := t =? t_zero.

(** [t.Sub(u)], which saturates. *)
Definition t_Sub (t u : Z) : Z := Z.max int_min (Z.min int_max (t - u)).

Example calendar_examples :
  t_date (t_of 2024 2 29 12 30) = (2024, 2, 29) /\ t_Weekday (t_of 2024 2 29 0 0) = 4 /\
  t_date (t_of 2100 2 28 0 0 + day_ns) = (2100, 3, 1) /\
  days_of_civil 1970 1 1 = 0 /\ t_date (-1) = (1969, 12, 31) /\
  stamp (t_of 2026 7 4 9 5 + 6 * Second + 7) = "20260704T090506.000000007"%string.
Proof. vm_compute. repeat split. Qed.

(** ** Padded numbers are digits *)

Lemma digit_char_digit z : is_digit (digit_char (z mod 10)) = true.
Proof.
  pose proof (Z.mod_pos_bound z 10 eq_refl) as Hb. revert Hb.
  generalize (z mod 10)%Z. intros d Hd.
  assert (Hc : (d = 0 \/ d = 1 \/ d = 2 \/ d = 3 \/ d = 4 \/ d = 5 \/ d = 6 \/ d = 7 \/ d = 8 \/ d = 9)%Z)
    by lia.
  by repeat destruct Hc as [->|Hc]; [..|subst].
Qed.

Lemma pad_digits w z : str_forall is_digit (pad w z "") = true.
Proof.
  assert (H : forall acc, str_forall is_digit acc = true -> str_forall is_digit (pad w z acc) = true).
  { revert z. induction w as [|w IH]; intros z acc Ha; cbn [pad]; [done|].
    apply IH. cbn [str_forall]. by rewrite digit_char_digit. }
  by apply H.
Qed.

Lemma pad_no c w z : is_digit c = false -> contains_char c (pad w z "") = false.
Proof. intros Hc. apply (contains_char_forall c is_digit); [apply pad_digits|exact Hc]. Qed.
Lemma pad_length w z acc : String.length (pad w z acc) = (w + String.length acc)%nat.
Proof.
  revert z acc. induction w as [|w IH]; intros z acc; cbn [pad]; [done|].
  rewrite IH. simpl. lia.
Qed.
