(* ===== verification/GoFloat.v ===== *)
(** * The floating-point numbers of Go ([float64])

    A [float64] is a [spec_float] of the Standard Library: a sign, a mantissa and an exponent,
    or one of the special values. What the modelled code uses of them: comparison, the test
    for a whole number, and printing with a fixed number of decimals, which [fmt] rounds
    from the exact binary value, halves to even. *)

From Stdlib Require Import ZArith.
From S2P Require Import Prelude GoStr GoTime.
From Stdlib Require Export SpecFloat.

#[local] Open Scope Z_scope.

Definition float := spec_float.

(** [m * 2^e], rounded to a [float64] where it does not fit. *)
Definition f_make (m e : Z) : float := binary_normalize 53 1024 m e false.
Definition f_int (z : Z) : float := f_make z 0.

Definition f_lt (x y : float) : bool := SFltb x y.
Definition f_eq (x y : float) : bool := SFeqb x y.
Definition f_zero : float := S754_zero false.

(** [x == math.Trunc(x)]; nothing equals NaN. *)
Definition is_whole (x : float) : bool :=
  match x with
  | S754_zero _ | S754_infinity _ => true
  | S754_nan => false
  | S754_finite _ m e => (0 <=? e) || (Z.pos m mod 2 ^ (- e) =? 0)
  end.

(** The quotient to the nearest whole number, halves to even. *)
Definition div_even (a b : Z) : Z :=
  let q := a / b in
  let r := a mod b in
  if (b <? 2 * r) || ((2 * r =? b) && Z.odd q) then q + 1 else q.

(** The quotient to the nearest whole number, halves away from zero, for [0 <= a]: what
    PostgreSQL does when it rounds a NUMERIC. *)
Definition div_half_up (a b : Z) : Z := (2 * a + b) / (2 * b).

Definition scaled (p : nat) (m : positive) (e : Z) : Z :=
  let a := Z.pos m * 10 ^ Z.of_nat p in
  if 0 <=? e then a * 2 ^ e else div_even a (2 ^ (- e)).

Definition decimal (p : nat) (n : Z) : string :=
  match p with
  | O => utoa n
  | _ => utoa (n / 10 ^ Z.of_nat p) ++ "." ++ pad p (n mod 10 ^ Z.of_nat p) ""
  end.

(** [fmt.Sprintf("%.<p>f", x)] *)
Definition fixed (p : nat) (x : float) : string :=
  match x with
  | S754_zero s => (if s then "-" else "") ++ decimal p 0
  | S754_infinity s => if s then "-Inf" else "+Inf"
  | S754_nan => "NaN"
  | S754_finite s m e => (if s then "-" else "") ++ decimal p (scaled p m e)
  end.

(** [x / y], [x * y] and [x + y], and [int64(x)] for a value in range. *)
Definition f_div (x y : float) : float := SFdiv 53 1024 x y.
Definition f_mul (x y : float) : float := SFmul 53 1024 x y.
Definition f_add (x y : float) : float := SFadd 53 1024 x y.
Definition f_trunc (x : float) : Z :=
  match x with
  | S754_finite s m e =>
      let n := if 0 <=? e then Z.pos m * 2 ^ e else Z.pos m / 2 ^ (- e) in
      if s then - n else n
  | _ => 0
  end.

Example fixed_examples :
  fixed 1 (f_make 183 (-1)) = "91.5"%string /\ fixed 0 (f_int 80) = "80"%string /\
  fixed 1 (f_make 1 (-2)) = "0.2"%string /\ fixed 1 (f_make 3 (-2)) = "0.8"%string /\
  fixed 1 (f_make (-7) (-3)) = "-0.9"%string /\ is_whole (f_make 3 (-1)) = false /\
  f_lt (f_make 3 (-1)) (f_int 2) = true /\ fixed 0 (S754_zero true) = "-0"%string.
Proof. vm_compute. repeat split. Qed.

(** Both roundings are within half a unit. *)
Lemma div_even_near a b : 0 < b -> 2 * Z.abs (div_even a b * b - a) <= b.
Proof.
  intros Hb. unfold div_even. pose proof (Z.div_mod a b ltac:(lia)).
  pose proof (Z.mod_pos_bound a b Hb).
  destruct (b <? 2 * (a mod b)) eqn:E1; simpl.
  - apply Z.ltb_lt in E1. nia.
  - apply Z.ltb_ge in E1. destruct (2 * (a mod b) =? b) eqn:E2; simpl.
    + apply Z.eqb_eq in E2. destruct (Z.odd (a / b)); nia.
    + nia.
Qed.

Lemma div_half_up_near a b : 0 < b -> 2 * Z.abs (div_half_up a b * b - a) <= b.
Proof.
  intros Hb. unfold div_half_up. pose proof (Z.div_mod (2 * a + b) (2 * b) ltac:(lia)).
  pose proof (Z.mod_pos_bound (2 * a + b) (2 * b) ltac:(lia)). nia.
Qed.

Lemma div_half_up_mono a a' b : 0 < b -> a <= a' -> div_half_up a b <= div_half_up a' b.
Proof. intros Hb Ha. unfold div_half_up. apply Z.div_le_mono; lia. Qed.

Lemma f_lt_irrefl x : f_lt x x = false.
Proof.
  unfold f_lt, SFltb, SFcompare. destruct x as [| | |[] m e]; try done; [by destruct s| |];
    by rewrite Z.compare_refl, ?Pos.compare_cont_refl.
Qed.

(** ** NUMERIC columns

    A NUMERIC(p, 2) column holds a whole number of hundredths. How the driver writes a
    [float64] into one, reads it back and passes one to a comparison is the driver's and the
    server's. *)
Class Numeric := {
  hundredths : float -> Z;
  float8 : Z -> float;
  num_compare : Z -> float -> comparison;
}.

(** Writing to a column of [p] digits, which refuses a number too long for it. *)
Definition to_column `{Numeric} (p : Z) (x : float) : option Z :=
  let z := hundredths x in
  if Z.abs z <? 10 ^ p then Some z else None.

(** The same for a nullable value: [Some None] is a stored NULL. *)
Definition to_nullable `{Numeric} (p : Z) (x : option float) : option (option Z) :=
  match x with None => Some None | Some x => Some <$> to_column p x end.

(** A driver for examples: whole hundredths, rounded to the nearest. *)
#[local] Instance toy_numeric : Numeric := {
  hundredths x :=
    match x with
    | S754_finite s m e => if s then - scaled 2 m e else scaled 2 m e
    | _ => 0
    end;
  float8 z := f_div (f_int z) (f_int 100);
  num_compare z x :=
    match SFcompare (f_div (f_int z) (f_int 100)) x with Some c => c | None => Lt end;
}.

Example toy_numeric_examples :
  to_column 5 (f_make 183 (-1)) = Some 9150 /\ to_column 5 (f_int 1000) = None /\
  f_eq (float8 9150) (f_make 183 (-1)) = true /\ num_compare 9150 (f_int 90) = Gt.
Proof. vm_compute. repeat split. Qed.
