(* ===== verification/GoCodec.v ===== *)
(** * Text encodings ([encoding/base32], [encoding/base64])

    What the code uses of Go's encodings: base 32 in its standard alphabet without padding, and
    base 64 in its standard alphabet without padding, decoded strictly. Bytes are numbers
    below 256; a text is regrouped as a number from one base to the other. *)

From S2P Require Import Prelude GoStr.

#[local] Open Scope Z_scope.

(** ** Numbers in a base *)
Fixpoint digits (B : Z) (n : nat) (v : Z) : list Z :=
  match n with O => [] | S n => (digits B n (v / B) ++ [v mod B])%list end.
Definition undigits (B : Z) (l : list Z) : Z := fold_left (fun acc d => acc * B + d) l 0.

Definition is_byte (b : Z) : Prop := 0 <= b < 256.

(** ** Base 32 *)
Definition base32_alphabet : string := "ABCDEFGHIJKLMNOPQRSTUVWXYZ234567".

Definition base32_char (v : Z) : ascii :=
  match String.get (Z.to_nat v) base32_alphabet with Some a => a | None => "A"%char end.

(** The place of a character in the alphabet. *)
Definition base32_val (a : ascii) : option Z :=
  if is_upper a then Some (Z.of_nat (nat_of_ascii a) - 65)
  else if in_range "2" "7" a then Some (Z.of_nat (nat_of_ascii a) - 24)
  else None.

(** Of one to five bytes, two to eight characters; the last is filled up with zero bits. *)
Definition quantum_chars (bytes : nat) : nat :=
  match bytes with 0 => 0 | 1 => 2 | 2 => 4 | 3 => 5 | 4 => 7 | _ => 8 end%nat.

(** How many bytes characters make: what is no encoding of anything makes none. *)
Definition quantum_bytes (chars : nat) : nat :=
  match chars with 2 => 1 | 4 => 2 | 5 => 3 | 7 => 4 | 8 => 5 | _ => 0 end%nat.

Definition encode_quantum (bytes : list Z) : list Z :=
  let n := quantum_chars (length bytes) in
  digits 32 n (undigits 256 bytes * 2 ^ (5 * Z.of_nat n - 8 * Z.of_nat (length bytes))).

Definition decode_quantum (vals : list Z) : list Z :=
  let n := quantum_bytes (length vals) in
  digits 256 n (undigits 32 vals / 2 ^ (5 * Z.of_nat (length vals) - 8 * Z.of_nat n)).

Fixpoint encode_vals (bytes : list Z) : list Z :=
  match bytes with
  | a :: b :: c :: d :: e :: rest => (encode_quantum [a; b; c; d; e] ++ encode_vals rest)%list
  | _ => encode_quantum bytes
  end.

Fixpoint decode_vals (vals : list Z) : list Z :=
  match vals with
  | a :: b :: c :: d :: e :: f :: g :: h :: rest =>
      (decode_quantum [a; b; c; d; e; f; g; h] ++ decode_vals rest)%list
  | _ => decode_quantum vals
  end.

Fixpoint of_chars (l : list ascii) : string :=
  match l with [] => "" | a :: l => String a (of_chars l) end.

(** [EncodeToString]. *)
Definition base32_encode (bytes : list Z) : string := of_chars (map base32_char (encode_vals bytes)).

(** The values of a text, line ends left out. *)
Fixpoint base32_vals (s : string) : option (list Z) :=
  match s with
  | "" => Some []
  | String a s =>
      if Ascii.eqb a "010" || Ascii.eqb a "013" then base32_vals s
      else v ← base32_val a; l ← base32_vals s; Some (v :: l)
  end%string.

(** [DecodeString]. *)
Definition base32_decode (s : string) : option (list Z) := decode_vals <$> base32_vals s.

(** ** Numbers in a base *)
Lemma digits_length B n v : length (digits B n v) = n.
Proof. revert v. induction n as [|n IH]; intros v; cbn; [done|]. rewrite length_app, IH. simpl. lia. Qed.

Lemma undigits_snoc B l d : undigits B (l ++ [d]) = undigits B l * B + d.
Proof. unfold undigits. by rewrite fold_left_app. Qed.

Lemma undigits_digits B n v : 0 < B -> undigits B (digits B n v) = v mod B ^ Z.of_nat n.
Proof.
  intros HB. revert v. induction n as [|n IH]; intros v; cbn [digits]; [by rewrite Z.mod_1_r|].
  rewrite undigits_snoc, IH, Nat2Z.inj_succ, Z.pow_succ_r by lia.
  rewrite Z.rem_mul_r by (try lia; apply Z.pow_nonzero; lia). ring.
Qed.

Lemma undigits_bound B l : 0 < B -> Forall (fun d => 0 <= d < B) l -> 0 <= undigits B l < B ^ Z.of_nat (length l).
Proof.
  intros HB. induction l as [|d l IH] using rev_ind; intros Hl; [by cbn|].
  apply Forall_app in Hl as [Hl Hd]. rewrite Forall_singleton in Hd. specialize (IH Hl).
  rewrite undigits_snoc, length_app, Nat2Z.inj_add. cbn [length]. rewrite Z.pow_add_r by lia.
  change (Z.of_nat 1) with 1. rewrite Z.pow_1_r.
  revert IH. generalize (undigits B l), (B ^ Z.of_nat (length l)). intros u p Hu.
  assert (u * B <= (p - 1) * B) by (apply Z.mul_le_mono_nonneg_r; lia). nia.
Qed.

Lemma digits_undigits B l :
  0 < B -> Forall (fun d => 0 <= d < B) l -> digits B (length l) (undigits B l) = l.
Proof.
  intros HB. induction l as [|d l IH] using rev_ind; intros Hl; [done|].
  apply Forall_app in Hl as [Hl Hd]. rewrite Forall_singleton in Hd.
  rewrite length_app, Nat.add_comm, undigits_snoc. cbn [length Nat.add digits].
  rewrite (Z.add_comm _ d), Z.div_add, Z.mod_add by lia.
  rewrite Z.div_small, Z.mod_small by exact Hd. by rewrite Z.add_0_l, IH.
Qed.

Lemma digits_bound B n v : 0 < B -> Forall (fun d => 0 <= d < B) (digits B n v).
Proof.
  intros HB. revert v. induction n as [|n IH]; intros v; cbn [digits]; [constructor|].
  apply Forall_app. split; [apply IH|]. apply Forall_singleton, Z.mod_pos_bound, HB.
Qed.

(** ** Base 32 *)
Lemma quantum_round_trip l :
  (length l <= 5)%nat -> Forall is_byte l ->
  decode_quantum (encode_quantum l) = l /\ length (encode_quantum l) = quantum_chars (length l).
Proof.
  intros Hn Hl. unfold encode_quantum. cbv zeta. set (n := quantum_chars (length l)).
  split; [|apply digits_length]. unfold decode_quantum. rewrite digits_length.
  assert (Hq : quantum_bytes n = length l).
  { unfold n. do 6 (destruct l as [|? l]; [done|]). simpl in Hn. lia. }
  rewrite Hq. cbv zeta. set (p := 5 * Z.of_nat n - 8 * Z.of_nat (length l)).
  assert (Hp : 0 <= p /\ 5 * Z.of_nat n = p + 8 * Z.of_nat (length l)).
  { split; [|unfold p; lia]. unfold p, n. do 6 (destruct l as [|? l]; [by cbn|]). simpl in Hn. lia. }
  destruct Hp as [Hp He]. pose proof (undigits_bound 256 l eq_refl Hl) as Hb.
  rewrite undigits_digits by lia.
  assert (Hpow : (32 ^ Z.of_nat n = 2 ^ p * 256 ^ Z.of_nat (length l))).
  { change 32 with (2 ^ 5). change 256 with (2 ^ 8). rewrite <- !Z.pow_mul_r by lia.
    rewrite <- Z.pow_add_r by lia. f_equal. lia. }
  assert (0 < 2 ^ p) by (apply Z.pow_pos_nonneg; lia).
  rewrite Z.mod_small by nia. rewrite Z.div_mul by lia. by apply digits_undigits.
Qed.

Lemma chunk_ind (P : list Z -> Prop) :
  (forall l, (length l < 5)%nat -> P l) ->
  (forall a b c d e l, P l -> P (a :: b :: c :: d :: e :: l)) -> forall l, P l.
Proof.
  intros Hs Hc l. remember (length l) as n eqn:E. revert l E.
  induction n as [n IH] using lt_wf_ind. intros l ->.
  do 5 (destruct l as [|? l]; [apply Hs; simpl; lia|]). apply Hc. eapply IH; [|done]. simpl. lia.
Qed.

Lemma vals_round_trip l : Forall is_byte l -> decode_vals (encode_vals l) = l.
Proof.
  induction l as [l Hs|a b c d e l IH] using chunk_ind; intros Hl.
  - assert (He : encode_vals l = encode_quantum l).
    { do 5 (destruct l as [|? l]; [done|]). simpl in Hs. lia. }
    destruct (quantum_round_trip l ltac:(lia) Hl) as [Hr Hlen]. rewrite He.
    assert (Hd : decode_vals (encode_quantum l) = decode_quantum (encode_quantum l)); [|congruence].
    assert (Hlt : (length (encode_quantum l) < 8)%nat).
    { rewrite Hlen. do 5 (destruct l as [|? l]; [simpl; lia|]). simpl in Hs. lia. }
    revert Hlt. generalize (encode_quantum l) as m. intros m Hm.
    do 8 (destruct m as [|? m]; [done|]). simpl in Hm. lia.
  - assert (H5 : Forall is_byte [a; b; c; d; e] /\ Forall is_byte l).
    { change (a :: b :: c :: d :: e :: l) with ([a; b; c; d; e] ++ l)%list in Hl. by apply Forall_app. }
    destruct H5 as [H5 Hl']. destruct (quantum_round_trip [a; b; c; d; e] ltac:(simpl; lia) H5) as [Hr Hlen].
    cbn [encode_vals]. remember (encode_quantum [a; b; c; d; e]) as q eqn:Eq.
    do 9 (destruct q as [|? q]; try discriminate Hlen). cbn [app decode_vals]. rewrite Hr. cbn [app].
    by rewrite IH.
Qed.

Lemma base32_char_spec v :
  0 <= v < 32 ->
  let a := base32_char v in
  base32_val a = Some v /\ graph_char a = true /\ Ascii.eqb a "010" = false /\ Ascii.eqb a "013" = false /\
  contains_char a "=" = false.
Proof.
  intros Hv a. unfold a. clear a.
  assert (Hall : forallb (fun v => let a := base32_char v in
    bool_decide (base32_val a = Some v) && graph_char a && negb (Ascii.eqb a "010") &&
    negb (Ascii.eqb a "013") && negb (contains_char a "=")) (seqZ 0 32) = true) by (vm_compute; reflexivity).
  pose proof (proj1 (forallb_elem _ _) Hall v) as Hx. cbv beta zeta in Hx.
  specialize (Hx ltac:(apply elem_of_seqZ; lia)). bool_hyps. done.
Qed.

Lemma encode_quantum_bound l : Forall (fun v => 0 <= v < 32) (encode_quantum l).
Proof. by apply digits_bound. Qed.

Lemma encode_vals_bound l : Forall (fun v => 0 <= v < 32) (encode_vals l).
Proof.
  induction l as [l Hs|a b c d e l IH] using chunk_ind.
  - do 5 (destruct l as [|? l]; [apply encode_quantum_bound|]). simpl in Hs. lia.
  - cbn [encode_vals]. apply Forall_app. split; [apply encode_quantum_bound|done].
Qed.

Lemma base32_vals_chars l :
  Forall (fun v => 0 <= v < 32) l -> base32_vals (of_chars (map base32_char l)) = Some l.
Proof.
  induction l as [|v l IH]; intros Hl; [done|]. apply Forall_cons_1 in Hl as [Hv Hl].
  destruct (base32_char_spec v Hv) as (Hval & _ & Hn & Hr & _). cbn [map of_chars base32_vals].
  rewrite Hn, Hr, Hval. cbn. by rewrite IH.
Qed.

Lemma base32_round_trip l : Forall is_byte l -> base32_decode (base32_encode l) = Some l.
Proof.
  intros Hl. unfold base32_decode, base32_encode.
  rewrite base32_vals_chars by apply encode_vals_bound. cbn. by rewrite vals_round_trip.
Qed.


(** ** Base 64 *)
Definition base64_alphabet : string := "ABCDEFGHIJKLMNOPQRSTUVWXYZabcdefghijklmnopqrstuvwxyz0123456789+/".

Definition base64_char (v : Z) : ascii :=
  match String.get (Z.to_nat v) base64_alphabet with Some a => a | None => "A"%char end.

Definition base64_val (a : ascii) : option Z :=
  if is_upper a then Some (Z.of_nat (nat_of_ascii a) - 65)
  else if is_lower a then Some (Z.of_nat (nat_of_ascii a) - 71)
  else if is_digit a then Some (Z.of_nat (nat_of_ascii a) + 4)
  else if Ascii.eqb a "+" then Some 62
  else if Ascii.eqb a "/" then Some 63
  else None.

(** One to three bytes make two to four characters. *)
Definition encode_quantum64 (bytes : list Z) : list Z :=
  match bytes with
  | [] => []
  | _ => let n := S (length bytes) in
         digits 64 n (undigits 256 bytes * 2 ^ (6 * Z.of_nat n - 8 * Z.of_nat (length bytes)))
  end.

(** Strict: the bits left over are zero, and one character is no quantum. *)
Definition decode_quantum64 (vals : list Z) : option (list Z) :=
  match vals with
  | [] => Some []
  | [_] => None
  | _ => let n := pred (length vals) in
         let spare := 2 ^ (6 * Z.of_nat (length vals) - 8 * Z.of_nat n) in
         if undigits 64 vals mod spare =? 0 then Some (digits 256 n (undigits 64 vals / spare)) else None
  end.

Fixpoint encode_vals64 (bytes : list Z) : list Z :=
  match bytes with
  | a :: b :: c :: rest => (encode_quantum64 [a; b; c] ++ encode_vals64 rest)%list
  | _ => encode_quantum64 bytes
  end.

Fixpoint decode_vals64 (vals : list Z) : option (list Z) :=
  match vals with
  | a :: b :: c :: d :: rest =>
      l ← decode_quantum64 [a; b; c; d]; l' ← decode_vals64 rest; Some (l ++ l')%list
  | _ => decode_quantum64 vals
  end.

(** [RawStdEncoding.EncodeToString]. *)
Definition base64_encode (bytes : list Z) : string := of_chars (map base64_char (encode_vals64 bytes)).

Fixpoint base64_vals (s : string) : option (list Z) :=
  match s with
  | "" => Some []
  | String a s =>
      if Ascii.eqb a "010" || Ascii.eqb a "013" then base64_vals s
      else v ← base64_val a; l ← base64_vals s; Some (v :: l)
  end%string.

(** [RawStdEncoding.Strict().DecodeString]. *)
Definition base64_decode (s : string) : option (list Z) := vals ← base64_vals s; decode_vals64 vals.

Lemma quantum64_round_trip l :
  (length l <= 3)%nat -> Forall is_byte l ->
  decode_quantum64 (encode_quantum64 l) = Some l /\
  length (encode_quantum64 l) = match l with [] => 0 | _ => S (length l) end%nat.
Proof.
  intros Hn Hl. destruct l as [|x l]; [done|]. unfold encode_quantum64. cbv zeta.
  set (m := x :: l) in *. set (n := S (length m)). split; [|apply digits_length].
  set (p := 6 * Z.of_nat n - 8 * Z.of_nat (length m)).
  assert (Hp : 0 <= p /\ 6 * Z.of_nat n = p + 8 * Z.of_nat (length m)) by (unfold p, n; simpl in *; lia).
  destruct Hp as [Hp He]. pose proof (undigits_bound 256 m eq_refl Hl) as Hb.
  assert (Hpow : (64 ^ Z.of_nat n = 2 ^ p * 256 ^ Z.of_nat (length m))).
  { change 64 with (2 ^ 6). change 256 with (2 ^ 8). rewrite <- !Z.pow_mul_r by lia.
    rewrite <- Z.pow_add_r by lia. f_equal. lia. }
  assert (H2 : 0 < 2 ^ p) by (apply Z.pow_pos_nonneg; lia).
  assert (Hu : undigits 64 (digits 64 n (undigits 256 m * 2 ^ p)) = undigits 256 m * 2 ^ p).
  { rewrite undigits_digits by lia. apply Z.mod_small. nia. }
  pose proof (digits_length 64 n (undigits 256 m * 2 ^ p)) as Hlen.
  assert (Hn2 : (2 <= n)%nat) by (unfold n, m; simpl; lia).
  assert (Hunf : forall vals, (2 <= length vals)%nat -> decode_quantum64 vals =
    let spare := 2 ^ (6 * Z.of_nat (length vals) - 8 * Z.of_nat (pred (length vals))) in
    if undigits 64 vals mod spare =? 0 then Some (digits 256 (pred (length vals)) (undigits 64 vals / spare)) else None).
  { intros [|? [|? vals]] H; simpl in H; [lia|lia|done]. }
  rewrite Hunf by lia. rewrite Hlen, Hu. cbv zeta. change (pred n) with (length m). fold p.
  rewrite Z.mod_mul, Z.div_mul by lia. cbn [Z.eqb]. by rewrite digits_undigits.
Qed.

Lemma triple_ind (P : list Z -> Prop) :
  (forall l, (length l < 3)%nat -> P l) -> (forall a b c l, P l -> P (a :: b :: c :: l)) -> forall l, P l.
Proof.
  intros Hs Hc l. remember (length l) as n eqn:E. revert l E.
  induction n as [n IH] using lt_wf_ind. intros l ->.
  do 3 (destruct l as [|? l]; [apply Hs; simpl; lia|]). apply Hc. eapply IH; [|done]. simpl. lia.
Qed.

Lemma vals64_round_trip l : Forall is_byte l -> decode_vals64 (encode_vals64 l) = Some l.
Proof.
  induction l as [l Hs|a b c l IH] using triple_ind; intros Hl.
  - assert (He : encode_vals64 l = encode_quantum64 l).
    { do 3 (destruct l as [|? l]; [done|]). simpl in Hs. lia. }
    destruct (quantum64_round_trip l ltac:(lia) Hl) as [Hr Hlen]. rewrite He.
    assert (Hd : decode_vals64 (encode_quantum64 l) = decode_quantum64 (encode_quantum64 l)); [|congruence].
    assert (Hlt : (length (encode_quantum64 l) < 4)%nat).
    { rewrite Hlen. destruct l; simpl in *; lia. }
    revert Hlt. generalize (encode_quantum64 l) as m. intros m Hm.
    do 4 (destruct m as [|? m]; [done|]). simpl in Hm. lia.
  - assert (H3 : Forall is_byte [a; b; c] /\ Forall is_byte l).
    { change (a :: b :: c :: l) with ([a; b; c] ++ l)%list in Hl. by apply Forall_app. }
    destruct H3 as [H3 Hl']. destruct (quantum64_round_trip [a; b; c] ltac:(simpl; lia) H3) as [Hr Hlen].
    cbn [encode_vals64]. remember (encode_quantum64 [a; b; c]) as q eqn:Eq.
    do 5 (destruct q as [|? q]; try discriminate Hlen). cbn [app decode_vals64]. rewrite Hr.
    cbn [mbind option_bind]. by rewrite IH.
Qed.

Lemma base64_char_spec v :
  0 <= v < 64 ->
  base64_val (base64_char v) = Some v /\ Ascii.eqb (base64_char v) "010" = false /\
  Ascii.eqb (base64_char v) "013" = false.
Proof.
  intros Hv.
  assert (Hall : forallb (fun v => let a := base64_char v in
    bool_decide (base64_val a = Some v) && negb (Ascii.eqb a "010") && negb (Ascii.eqb a "013"))
    (seqZ 0 64) = true) by (vm_compute; reflexivity).
  pose proof (proj1 (forallb_elem _ _) Hall v) as Hx. cbv beta zeta in Hx.
  specialize (Hx ltac:(apply elem_of_seqZ; lia)). bool_hyps. done.
Qed.

Lemma encode_quantum64_bound l : Forall (fun v => 0 <= v < 64) (encode_quantum64 l).
Proof. destruct l; [constructor|by apply digits_bound]. Qed.

Lemma base64_vals_chars l :
  Forall (fun v => 0 <= v < 64) l -> base64_vals (of_chars (map base64_char l)) = Some l.
Proof.
  induction l as [|v l IH]; intros Hl; [done|]. apply Forall_cons_1 in Hl as [Hv Hl].
  destruct (base64_char_spec v Hv) as (Hval & Hn & Hr). cbn [map of_chars base64_vals].
  rewrite Hn, Hr, Hval. cbn. by rewrite IH.
Qed.

Lemma base64_round_trip l : Forall is_byte l -> base64_decode (base64_encode l) = Some l.
Proof.
  intros Hl. unfold base64_decode, base64_encode. rewrite base64_vals_chars.
  - cbn. by apply vals64_round_trip.
  - clear Hl. induction l as [l Hs|a b c l IH] using triple_ind.
    + do 3 (destruct l as [|? l]; [apply encode_quantum64_bound|]). simpl in Hs. lia.
    + cbn [encode_vals64]. apply Forall_app. split; [apply encode_quantum64_bound|done].
Qed.

Example base64_examples :
  base64_encode [102; 111; 111; 98] = "Zm9vYg"%string /\ base64_decode "Zm9vYg" = Some [102; 111; 111; 98] /\
  base64_decode "Zm9vYh" = None /\ base64_decode "Zm9vY" = None /\ base64_decode "Zm9vYg==" = None.
Proof. vm_compute. repeat split. Qed.
