(* ===== verification/Totp.v ===== *)
(** * Time-based one-time codes ([api/internal/secrets/totp.go])

    The shared secret as the text a person types into an authenticator, the code of a moment,
    and the check of a code. Bytes are numbers below 256. The HMAC is a parameter. *)

From S2P Require Import Prelude GoStr GoTime GoCodec.

#[local] Open Scope Z_scope.

(** ** Secrets *)
Inductive totp_err := ErrInvalidSecret.

Definition totpDigits : nat := 6.
Definition totpPeriod : Z := 30 * Second.
Definition totpSecretSize : nat := 20.
Definition totpSkew : Z := 1.

Definition upper_char (a : ascii) : ascii :=
  if is_lower a then ascii_of_nat (nat_of_ascii a - 32) else a.
Definition to_upper : string -> string := str_map upper_char.

Definition decodeTOTPSecret (secret : string) : result totp_err (list Z) :=
  let normalized := to_upper (remove_char " " (trim_space secret)) in
  let normalized := trim_right_set "=" normalized in
  match base32_decode normalized with
  | Some (b :: key) => Ok (b :: key)
  | _ => Err ErrInvalidSecret
  end.

(** ** Codes *)

(** HMAC-SHA1: twenty bytes of a key and a message. *)
Class Hmac := {
  hmac_sha1 : list Z -> list Z -> list Z;
  hmac_length : forall key msg, length (hmac_sha1 key msg) = 20%nat;
  hmac_bytes : forall key msg, Forall is_byte (hmac_sha1 key msg);
}.

(** [t.Unix()]. *)
Definition t_Unix (t : Z) : Z := t / Second.

Section codes.
Context `{Hmac}.

Definition totpAt (key : list Z) (counter : Z) : string :=
  let sum := hmac_sha1 key (digits 256 8 (counter mod 2 ^ 64)) in
  let offset := Z.to_nat (Z.land (default 0 (list.last sum)) 15) in
  let truncated := Z.land (undigits 256 (take 4 (drop offset sum))) (2 ^ 31 - 1) in
  pad totpDigits (truncated mod 10 ^ Z.of_nat totpDigits) "".

Definition counter_at (t : Z) : Z := Z.quot (t_Unix t) (Z.quot totpPeriod Second).

Definition TOTPCode (secret : string) (t : Z) : result totp_err string :=
  let? key := decodeTOTPSecret secret in Ok (totpAt key (counter_at t)).

(** The candidates of the loop, one step around the present one. *)
Definition candidates (key : list Z) (counter : Z) : list string :=
  map (fun offset => totpAt key (counter + offset)) [- totpSkew; 0; totpSkew].

Definition VerifyTOTP (secret code : string) (now : Z) : result totp_err bool :=
  let code := trim_space code in
  if negb (String.length code =? totpDigits)%nat then Ok false
  else if negb (str_forall is_digit code) then Ok false
  else
    let? key := decodeTOTPSecret secret in
    Ok (existsb (String.eqb code) (candidates key (counter_at now))).
End codes.

(** ** Secrets *)
Lemma trim_right_set_id cs s :
  str_forall (fun a => negb (contains_char a cs)) s = true -> trim_right_set cs s = s.
Proof.
  induction s as [|a s IH]; [done|]. cbn. intros [Ha Hs]%andb_true_iff.
  apply negb_true_iff in Ha. rewrite Ha. cbn. by rewrite IH.
Qed.

Lemma of_chars_forall p l : Forall (fun a => p a = true) l -> str_forall p (of_chars l) = true.
Proof. induction 1 as [|a l Ha _ IH]; [done|]. cbn. by rewrite Ha, IH. Qed.

Lemma base32_encode_forall p b :
  (forall v, 0 <= v < 32 -> p (base32_char v) = true) -> str_forall p (base32_encode b) = true.
Proof.
  intros Hp. apply of_chars_forall. pose proof (encode_vals_bound b) as Hb.
  induction Hb as [|v l Hv _ IH]; cbn; constructor; auto.
Qed.

Lemma remove_char_app c s t : remove_char c (s ++ t)%string = (remove_char c s ++ remove_char c t)%string.
Proof. induction s as [|a s IH]; [done|]. cbn. destruct (Ascii.eqb a c); [done|]. cbn. by rewrite IH. Qed.

Lemma remove_char_token s : str_forall graph_char s = true -> remove_char " " s = s.
Proof.
  induction s as [|a s IH]; [done|]. cbn. intros [Ha Hs]%andb_true_iff.
  destruct (Ascii.eqb_spec a " ") as [->|_]; [discriminate Ha|]. by rewrite IH.
Qed.

(** However a secret is set in groups, the spaces go. *)
Lemma remove_char_groups l : Forall token l -> remove_char " " (join " " l) = join "" l.
Proof.
  induction l as [|x l IH]; intros Hl; [done|]. apply Forall_cons_1 in Hl as [[_ Hx] Hl].
  destruct l as [|y l]; [by apply remove_char_token|].
  rewrite !join_cons by done. rewrite !remove_char_app, (remove_char_token x Hx), IH by done. done.
Qed.

(** ** Codes *)
Lemma trim_space_token x : token x -> trim_space x = x.
Proof. intros Hx. apply (trim_space_tokens [x]); [done|by constructor]. Qed.

Section code_lemmas.
Context `{Hmac}.

Lemma totpAt_shape key c : str_forall is_digit (totpAt key c) = true /\ String.length (totpAt key c) = totpDigits.
Proof. split; [apply pad_digits|]. unfold totpAt. cbv zeta. by rewrite pad_length. Qed.

Lemma digit_graph a : is_digit a = true -> graph_char a = true.
Proof. by destruct a as [[] [] [] [] [] [] [] []]. Qed.

Lemma totpAt_trim key c : trim_space (totpAt key c) = totpAt key c.
Proof.
  destruct (totpAt_shape key c) as [Hd Hl]. apply trim_space_token. split.
  - intros E. rewrite E in Hl. discriminate.
  - eapply str_forall_impl; [apply digit_graph|exact Hd].
Qed.

Lemma VerifyTOTP_candidates secret key code now :
  decodeTOTPSecret secret = Ok key ->
  VerifyTOTP secret code now = Ok (existsb (String.eqb (trim_space code)) (candidates key (counter_at now))).
Proof.
  intros Hk. unfold VerifyTOTP. rewrite Hk. cbv zeta. cbn [rbind].
  destruct (existsb _ _) eqn:E.
  - apply existsb_exists in E as (x & Hx & ->%String.eqb_eq).
    apply in_map_iff in Hx as (o & <- & _). destruct (totpAt_shape key (counter_at now + o)) as [Hd Hl].
    by rewrite Hl, Hd.
  - by do 2 (destruct (negb _); [done|]).
Qed.

(** Accepted are the codes of the present step and of the two beside it. *)
Lemma VerifyTOTP_true secret key code now :
  decodeTOTPSecret secret = Ok key ->
  VerifyTOTP secret code now = Ok true <->
  exists c, Z.abs (c - counter_at now) <= totpSkew /\ trim_space code = totpAt key c.
Proof.
  intros Hk. rewrite (VerifyTOTP_candidates _ _ _ _ Hk). split.
  - intros E. assert (E' : existsb (String.eqb (trim_space code)) (candidates key (counter_at now)) = true)
      by congruence.
    apply existsb_exists in E' as (x & Hx & ->%String.eqb_eq).
    apply in_map_iff in Hx as (o & <- & Ho). exists (counter_at now + o). split; [|done].
    unfold totpSkew in *. destruct Ho as [<-|[<-|[<-|[]]]]; lia.
  - intros (c & Hc & ->). f_equal. apply existsb_exists. exists (totpAt key c).
    split; [|apply String.eqb_refl]. apply in_map_iff. exists (c - counter_at now).
    split; [f_equal; lia|]. unfold totpSkew in *. simpl. lia.
Qed.

Lemma counter_at_div t : 0 <= t -> counter_at t = t / totpPeriod.
Proof.
  intros Ht. unfold counter_at, t_Unix, totpPeriod.
  rewrite (Z.quot_div_nonneg (t / Second)); [|by apply Z.div_pos|by vm_compute].
  by rewrite Z.div_div by (by vm_compute).
Qed.
End code_lemmas.

(** A secret survives being copied: whatever bytes the panel drew, their text, in capitals or
    not and set in groups or not, is decoded to the same bytes by the check. *)
Theorem secret_round_trip groups b
  (Hb : Forall is_byte b) (Hne : b <> []) (Hg : groups <> []) (Ht : Forall token groups)
  (Hs : to_upper (join "" groups) = base32_encode b) :
  decodeTOTPSecret (join " " groups) = Ok b.
Proof.
  unfold decodeTOTPSecret. cbv zeta. rewrite trim_space_tokens, remove_char_groups, Hs by done.
  rewrite trim_right_set_id.
  - rewrite base32_round_trip by done. by destruct b.
  - apply base32_encode_forall. intros v Hv. by destruct (base32_char_spec v Hv) as (_ & _ & _ & _ & ->).
Qed.

(** The window of a code. With a secret that decodes, a code is accepted exactly if it is
    that of the present half minute or of one beside it; so the code of a moment is accepted up
    to thirty seconds before and after it, and whatever is accepted is the code of a moment
    less than a minute away. *)
Theorem VerifyTOTP_window `{Hmac} secret key now
  (Hk : decodeTOTPSecret secret = Ok key) (Hnow : totpPeriod <= now) :
  (forall code, VerifyTOTP secret code now = Ok true <->
     exists c, Z.abs (c - counter_at now) <= 1 /\ trim_space code = totpAt key c) /\
  (forall t code, 0 <= t -> Z.abs (now - t) <= 30 * Second -> TOTPCode secret t = Ok code ->
     VerifyTOTP secret code now = Ok true) /\
  (forall code, VerifyTOTP secret code now = Ok true ->
     exists t, 0 <= t /\ Z.abs (now - t) < 60 * Second /\ TOTPCode secret t = Ok (trim_space code)).
Proof.
  assert (HP : 0 < totpPeriod) by (by vm_compute).
  split; [intros code; by apply VerifyTOTP_true|]. split.
  - intros t code Ht Habs Hc. unfold TOTPCode in Hc. rewrite Hk in Hc. injection Hc as <-.
    apply (VerifyTOTP_true _ key); [done|]. exists (counter_at t). rewrite totpAt_trim. split; [|done].
    rewrite !counter_at_div by lia. change (30 * Second) with totpPeriod in Habs. unfold totpSkew.
    pose proof (Z.div_mod t totpPeriod ltac:(lia)). pose proof (Z.mod_pos_bound t totpPeriod HP).
    pose proof (Z.div_mod now totpPeriod ltac:(lia)). pose proof (Z.mod_pos_bound now totpPeriod HP).
    nia.
  - intros code Hv. apply (VerifyTOTP_true _ key) in Hv as (c & Hc & ->); [|done].
    rewrite counter_at_div in Hc by lia. unfold totpSkew in Hc.
    pose proof (Z.div_mod now totpPeriod ltac:(lia)) as Hd.
    pose proof (Z.mod_pos_bound now totpPeriod HP) as Hm.
    pose proof (Z.div_le_lower_bound now totpPeriod 1 HP ltac:(lia)).
    exists (c * totpPeriod + Z.min (now mod totpPeriod) 0). change (60 * Second) with (2 * totpPeriod).
    rewrite Z.min_r, Z.add_0_r by lia. split; [nia|]. split; [nia|].
    unfold TOTPCode. rewrite Hk. cbn. rewrite counter_at_div by nia. by rewrite Z.div_mul by lia.
Qed.

Module Codes.
(** A function of the right shape in place of HMAC-SHA1. *)
Definition toy_sum (key msg : list Z) : list Z := digits 256 20 (undigits 257 (key ++ msg) * 7919 ^ 14).

#[local] Instance toy_hmac : Hmac := {
  hmac_sha1 := toy_sum;
  hmac_length key msg := digits_length 256 20 _;
  hmac_bytes key msg := digits_bound 256 20 _ (eq_refl : 0 < 256);
}.

Example encodings :
  base32_encode [1; 2; 3] = "AEBAG"%string /\
  base32_encode (map (fun c => Z.of_nat (nat_of_ascii c)) ["f"; "o"; "o"; "b"; "a"; "r"]%char) = "MZXW6YTBOI"%string /\
  base32_decode "MZXW6YTBOI" = Some (map (fun c => Z.of_nat (nat_of_ascii c)) ["f"; "o"; "o"; "b"; "a"; "r"]%char) /\
  decodeTOTPSecret "  mzxw 6===" = Ok [102; 111; 111] /\ decodeTOTPSecret "MZXW6-" = Err ErrInvalidSecret.
Proof. vm_compute. repeat split. Qed.

Lemma secret_round_trip_witness :
  to_upper (join "" ["ae"; "BAG"]%string) = base32_encode [1; 2; 3] /\
  decodeTOTPSecret (join " " ["ae"; "BAG"]%string) = Ok [1; 2; 3].
Proof.
  split; [vm_compute; reflexivity|]. apply secret_round_trip.
  - repeat (apply Forall_cons; [split; vm_compute; congruence|]). apply Forall_nil.
  - discriminate.
  - discriminate.
  - repeat (apply Forall_cons; [split; [discriminate|reflexivity]|]). apply Forall_nil.
  - vm_compute. reflexivity.
Defined.

Lemma VerifyTOTP_window_witness :
  exists code, TOTPCode "AEBAG" (100 * Second) = Ok code /\
    VerifyTOTP "AEBAG" code (125 * Second) = Ok true.
Proof.
  destruct (TOTPCode "AEBAG" (100 * Second)) as [code|e] eqn:E; [|discriminate (eq_trans (eq_sym E) eq_refl)].
  exists code. split; [reflexivity|].
  assert (Hk : decodeTOTPSecret "AEBAG" = Ok [1; 2; 3]) by (vm_compute; reflexivity).
  assert (Hn : totpPeriod <= 125 * Second) by (vm_compute; congruence).
  destruct (VerifyTOTP_window "AEBAG" [1; 2; 3] (125 * Second) Hk Hn) as (_ & Hw & _).
  apply (Hw (100 * Second) code); [vm_compute; congruence|vm_compute; congruence|exact E].
Defined.
End Codes.
