(* ===== verification/PathSec.v ===== *)
(** * Path validation ([agent/internal/pathsec/pathsec.go])

    The Agent runs as root, so every path a caller supplies is cleaned,
    resolved through symbolic links against its deepest existing ancestor, and
    checked to lie inside an allowed root.  The host's file system is a
    parameter ([filesystem]): what [filepath.EvalSymlinks], [os.Lstat] and
    [os.Stat] answer. *)

From S2P Require Import Prelude GoStr.

#[local] Open Scope string_scope.

(** What a file-system call fails with, as far as the code looks:
    [os.IsNotExist] or anything else. *)
Inductive os_err := NotExist | OsOther.
Inductive file_kind := Directory | Regular | Special.

Record filesystem := {
  eval_symlinks : string -> result os_err string;
  lstat : string -> result os_err file_kind;
  stat : string -> result os_err file_kind;
}.

(** [filepath.EvalSymlinks] answers an absolute path with a cleaned absolute
    path ("EvalSymlinks calls Clean on the result"). *)
Definition fs_clean (fs : filesystem) : Prop :=
  forall p q, is_abs p = true -> eval_symlinks fs p = Ok q ->
    exists segs, Forall good_seg segs /\ q = abs_path segs.

Inductive path_err :=
| ErrNoRoots | ErrEmptyPath | ErrTooLong | ErrNullByte | ErrNotAbsolute
| ErrTraversal | ErrOutsideRoot | ErrNotFound | ErrNotDirectory
| ErrNotRegular | ErrResolve | ErrStat.

Definition max_path_length : nat := 4096.

Record Validator := { roots : list string }.

(** One iteration of [NewValidator]'s loop. *)
Definition resolve_root (fs : filesystem) (root : string) : result path_err string :=
  guard (negb (is_abs root)) ErrNotAbsolute ;?
  let clean := fp_clean root in
  Ok (match eval_symlinks fs clean with Ok real => real | Err _ => clean end).

Fixpoint resolve_roots (fs : filesystem) (rs : list string) : result path_err (list string) :=
  match rs with
  | [] => Ok []
  | r :: rs' =>
      let? x := resolve_root fs r in
      let? xs := resolve_roots fs rs' in
      Ok (x :: xs)
  end.

Definition NewValidator (fs : filesystem) (rs : list string) : result path_err Validator :=
  guard (bool_decide (rs = [])) ErrNoRoots ;?
  let? resolved := resolve_roots fs rs in
  Ok {| roots := resolved |}.

(** The package's [Clean]. *)
Definition Clean (path : string) : result path_err string :=
  guard (path =? "") ErrEmptyPath ;?
  guard (max_path_length <? String.length path)%nat ErrTooLong ;?
  guard (contains_char "000" path) ErrNullByte ;?
  guard (negb (is_abs path)) ErrNotAbsolute ;?
  guard (existsb (String.eqb "..") (split slash path)) ErrTraversal ;?
  Ok (fp_clean path).

(** The loop of [resolveThroughSymlinks]: [current] shrinks to its parent and
    [remainder] grows in front while nothing exists at [current]. *)
Fixpoint resolve_loop (fs : filesystem) (path : string) (fuel : nat)
    (remainder current : string) : option (result path_err string) :=
  match fuel with
  | O => None
  | S f =>
      match eval_symlinks fs current with
      | Ok resolved =>
          Some (Ok (if remainder =? "" then resolved else fp_join [resolved; remainder]))
      | Err OsOther => Some (Err ErrResolve)
      | Err NotExist =>
          let parent := fp_dir current in
          if parent =? current then Some (Ok path)
          else resolve_loop fs path f (fp_join [fp_base current; remainder]) parent
      end
  end.

Definition resolveThroughSymlinks (fs : filesystem) (path : string)
  : option (result path_err string) :=
  resolve_loop fs path (S (String.length path)) "" path.

Definition contains (v : Validator) (path : string) : bool :=
  existsb (fun root => (path =? root) || has_prefix (root ++ "/") path) (roots v).

(** [Validator.Resolve] and the three that build on it.  [None] stands for a
    loop that did not finish; [resolve_total] rules it out. *)
Definition Resolve (fs : filesystem) (v : Validator) (path : string)
  : option (result path_err string) :=
  match Clean path with
  | Err e => Some (Err e)
  | Ok clean =>
      r ← resolveThroughSymlinks fs clean;
      Some (let? resolved := r in
            guard (negb (contains v resolved)) ErrOutsideRoot ;?
            Ok resolved)
  end.

Definition ResolveExisting (fs : filesystem) (v : Validator) (path : string)
  : option (result path_err string) :=
  r ← Resolve fs v path;
  Some (let? resolved := r in
        match lstat fs resolved with
        | Ok _ => Ok resolved
        | Err NotExist => Err ErrNotFound
        | Err OsOther => Err ErrStat
        end).

Definition resolve_kind (k : file_kind) (bad : path_err)
    (fs : filesystem) (v : Validator) (path : string) : option (result path_err string) :=
  r ← ResolveExisting fs v path;
  Some (let? resolved := r in
        match stat fs resolved with
        | Err _ => Err ErrStat
        | Ok k' =>
            match k, k' with
            | Directory, Directory | Regular, Regular => Ok resolved
            | _, _ => Err bad
            end
        end).

Definition ResolveDir := resolve_kind Directory ErrNotDirectory.
Definition ResolveFile := resolve_kind Regular ErrNotRegular.

(** ** Cleaning *)

(** The elements [Clean] keeps. *)
Definition kept (s : string) : bool := negb ((s =? "") || (s =? ".")).

Lemma clean_go_filter acc segs :
  existsb (String.eqb "..") segs = false ->
  clean_go true acc segs = (rev acc ++ List.filter kept segs)%list.
Proof.
  revert acc. induction segs as [|s l IH]; intros acc H; simpl in *.
  - by rewrite app_nil_r.
  - apply orb_false_iff in H as [Hs Hl]. unfold kept at 1.
    destruct ((s =? "") || (s =? ".")); simpl; [by apply IH|].
    rewrite String.eqb_sym, Hs. rewrite IH by done. simpl. by rewrite <- app_assoc.
Qed.

Lemma filter_kept_good segs :
  Forall (fun x => contains_char slash x = false) segs ->
  existsb (String.eqb "..") segs = false ->
  Forall good_seg (List.filter kept segs).
Proof.
  induction 1 as [|s l Hs Hl IH]; intros H; simpl in *; [constructor|].
  apply orb_false_iff in H as [Hdd H]. unfold kept at 1.
  destruct (String.eqb_spec s ""), (String.eqb_spec s "."); simpl; auto.
  constructor; [|by auto]. apply String.eqb_neq in Hdd. by repeat split.
Qed.

(** Exactly which caller-supplied paths [Clean] accepts - at most 4096
    bytes, absolute, no null byte, no [..] element - and what it answers: the
    path of the elements that are neither empty nor a dot. *)
Theorem Clean_spec p q :
  Clean p = Ok q <->
  (String.length p <= 4096)%nat /\ is_abs p = true /\
  contains_char "000" p = false /\ ~ In ".." (split slash p) /\
  q = abs_path (List.filter kept (split slash p)).
Proof.
  unfold Clean. rewrite !guard_bind_ok.
  assert (Hin : existsb (String.eqb "..") (split slash p) = false <-> ~ In ".." (split slash p)).
  { rewrite <- not_true_iff_false, existsb_exists. setoid_rewrite String.eqb_eq. naive_solver. }
  rewrite Hin. unfold max_path_length. rewrite Nat.ltb_ge, negb_false_iff, String.eqb_neq.
  assert (Hq : is_abs p = true -> ~ In ".." (split slash p) ->
               fp_clean p = abs_path (List.filter kept (split slash p))).
  { intros Ha Hn. rewrite fp_clean_rooted by done. f_equal.
    rewrite clean_go_filter; [done|]. by apply Hin. }
  split.
  - intros (? & ? & ? & ? & ? & [= <-]). split_and!; auto.
  - intros (? & ? & ? & ? & ->). split_and!; auto; [by intros ->|].
    by rewrite Hq.
Qed.

(** ** Resolution *)
Section Resolution.
Context (fs : filesystem).

(** What the loop computes, on elements: [rem] is what has been set aside.
    The deepest prefix of the path the file system knows is resolved and the
    elements below it are re-attached; a path of which not even [/] resolves
    is returned as it is. *)
Fixpoint resolve_spec (path : string) (rev_segs rem : list string) : result path_err string :=
  match eval_symlinks fs (abs_path (rev rev_segs)) with
  | Ok r => Ok (match rem with [] => r | _ => fp_join [r; join "/" rem] end)
  | Err OsOther => Err ErrResolve
  | Err NotExist =>
      match rev_segs with
      | [] => Ok path
      | x :: rest => resolve_spec path rest (x :: rem)
      end
  end.

Lemma join_empty_iff rem : Forall good_seg rem -> (join "/" rem =? "") = bool_decide (rem = []).
Proof.
  intros H. destruct rem as [|y rem]; [done|].
  apply String.eqb_neq. by apply join_good_not_empty.
Qed.

Lemma resolve_loop_spec path rev_segs rem fuel :
  Forall good_seg (rev rev_segs) -> Forall good_seg rem ->
  (length rev_segs < fuel)%nat ->
  resolve_loop fs path fuel (join "/" rem) (abs_path (rev rev_segs)) =
  Some (resolve_spec path rev_segs rem).
Proof.
  revert rem fuel. induction rev_segs as [|x l IH]; intros rem fuel Hs Hr Hf;
    (destruct fuel as [|fuel]; [simpl in Hf; lia|]); cbn [resolve_loop resolve_spec rev] in *.
  - destruct (eval_symlinks fs _) as [r|[]]; try done.
    rewrite join_empty_iff by done. by destruct rem.
  - destruct (eval_symlinks fs _) as [r|[]]; try done.
    { rewrite join_empty_iff by done. by destruct rem. }
    rewrite fp_dir_abs, fp_base_abs by done.
    apply Forall_app in Hs as [Hs Hx]. rewrite Forall_singleton in Hx.
    destruct (String.eqb_spec (abs_path (rev l)) (abs_path (rev l ++ [x]))) as [E|_].
    + apply abs_path_inj in E; [|done|by apply Forall_app; auto using Forall_singleton].
      apply (f_equal length) in E. rewrite length_app in E. simpl in E. lia.
    + rewrite fp_join_rel by done. apply IH; [done|by constructor|simpl in Hf; lia].
Qed.

Lemma abs_path_length segs :
  Forall good_seg segs -> (length segs < String.length (abs_path segs))%nat.
Proof.
  intros H. unfold abs_path. rewrite length_app_str. simpl.
  induction H as [|x l (Hx & _) Hl IH]; simpl; [lia|].
  destruct x as [|a x]; [done|]. destruct l as [|y l]; simpl in *; [lia|].
  rewrite !length_app_str. simpl in *. lia.
Qed.

(** [resolveThroughSymlinks] on the cleaned form of a path always returns,
    and computes [resolve_spec]. *)
Lemma resolveThroughSymlinks_spec segs :
  Forall good_seg segs ->
  resolveThroughSymlinks fs (abs_path segs) =
  Some (resolve_spec (abs_path segs) (rev segs) []).
Proof.
  intros H. unfold resolveThroughSymlinks.
  rewrite <- (resolve_loop_spec _ (rev segs) [] (S (String.length (abs_path segs)))).
  - by rewrite rev_involutive.
  - by rewrite rev_involutive.
  - constructor.
  - rewrite length_rev. pose proof (abs_path_length segs H). lia.
Qed.

Context (Hfs : fs_clean fs).

Lemma resolve_spec_clean path rev_segs rem q :
  Forall good_seg (rev rev_segs) -> Forall good_seg rem ->
  (exists segs, Forall good_seg segs /\ path = abs_path segs) ->
  resolve_spec path rev_segs rem = Ok q ->
  exists segs, Forall good_seg segs /\ q = abs_path segs.
Proof.
  intros Hs Hr Hp. revert rem Hr Hs. induction rev_segs as [|x l IH]; intros rem Hr Hs H; cbn [resolve_spec] in H;
    destruct (eval_symlinks fs _) as [r|[]] eqn:E; simplify_eq; auto.
  1, 2: apply Hfs in E as (rs & Hrs & ->); [|done];
      destruct rem; [naive_solver|]; cbv iota; rewrite fp_join_abs by done;
      (eexists; split; [|reflexivity]; by apply Forall_app).
  simpl in Hs. apply Forall_app in Hs as [Hs Hx]. rewrite Forall_singleton in Hx.
  exact (IH (x :: rem) ltac:(by constructor) Hs H).
Qed.
End Resolution.

(** ** Containment *)

Lemma double_slash_prefix ps :
  Forall good_seg ps -> has_prefix ("/" ++ "/") (abs_path ps) = false.
Proof.
  intros Hps. destruct ps as [|p ps]; [done|].
  inversion_clear Hps as [|? ? (Hn & _ & _ & Hc)]. destruct p as [|a p]; [done|].
  unfold contains_char, abs_path, slash in *. cbn in Hc.
  apply orb_false_iff in Hc as [Hc _]. destruct ps; cbn; by rewrite Hc.
Qed.

Lemma prefix_segments rs ps :
  Forall good_seg rs -> Forall good_seg ps ->
  has_prefix (abs_path rs ++ "/") (abs_path ps) = true ->
  exists t, t <> [] /\ ps = (rs ++ t)%list.
Proof.
  intros Hrs Hps H. destruct rs as [|r rs].
  - change (abs_path []) with "/" in H. by rewrite double_slash_prefix in H.
  - apply has_prefix_spec in H as [t Ht].
    pose proof (split_abs ps Hps) as E. rewrite Ht in E.
    assert (E2 : split slash ((abs_path (r :: rs) ++ "/") ++ t)
                 = (("" :: r :: rs) ++ split slash t)%list).
    { rewrite app_assoc_str. change (abs_path (r :: rs)) with (join "/" ("" :: r :: rs)).
      apply split_join_app; [|done]. constructor; [done|]. by apply good_seg_no_slash. }
    rewrite E2 in E. pose proof (split_not_nil slash t).
    exists (split slash t). split; [done|].
    destruct ps as [|s ps]; simplify_eq/=; [|done].
    by destruct rs; simplify_eq/=.
Qed.

Lemma resolve_roots_clean fs rs out :
  fs_clean fs -> resolve_roots fs rs = Ok out ->
  Forall (fun r => exists segs, Forall good_seg segs /\ r = abs_path segs) out.
Proof.
  intros Hfs. revert out. induction rs as [|r rs IH]; intros out H; cbn [resolve_roots] in H.
  - injection H as <-. constructor.
  - go_inv H. injection H as <-. constructor; [|by apply IH].
    unfold resolve_root in Hb. go_inv Hb. apply negb_false_iff in Hg.
    pose proof (fp_clean_is_abs _ Hg) as (segs & Hs & E).
    destruct (eval_symlinks fs (fp_clean r)) as [q|] eqn:Eq; injection Hb as <-; [|eauto].
    eapply Hfs; [|exact Eq]. by rewrite E.
Qed.

Lemma Clean_good p q : Clean p = Ok q -> exists segs, Forall good_seg segs /\ q = abs_path segs.
Proof.
  intros H. unfold Clean in H. go_inv H. injection H as <-.
  apply fp_clean_is_abs. by apply negb_false_iff.
Qed.

Section Safety.
Context (fs : filesystem) (Hfs : fs_clean fs).

(** [Resolve] returns for every path (the loop of [resolveThroughSymlinks]
    runs at most once per element). *)
Lemma resolve_returns v p : is_Some (Resolve fs v p).
Proof.
  unfold Resolve. destruct (Clean p) as [q|] eqn:E; [|done].
  apply Clean_good in E as (segs & Hs & ->).
  by rewrite resolveThroughSymlinks_spec.
Qed.

Lemma resolve_contained rs v p q :
  NewValidator fs rs = Ok v -> Resolve fs v p = Some (Ok q) ->
  exists rsegs t, Forall good_seg (rsegs ++ t) /\
    In (abs_path rsegs) (roots v) /\ q = abs_path (rsegs ++ t)%list.
Proof.
  intros Hv H. unfold NewValidator in Hv. go_inv Hv. injection Hv as <-.
  apply resolve_roots_clean in Hb; [|done].
  unfold Resolve in H. destruct (Clean p) as [c|] eqn:Ec; [|done].
  apply Clean_good in Ec as (segs & Hs & ->).
  rewrite resolveThroughSymlinks_spec in H by done. cbn in H. injection H as H.
  clear Hg. go_inv H. injection H as <-. apply negb_false_iff in Hg.
  eapply resolve_spec_clean in Hb0 as (ps & Hps & ->);
    [|done|by rewrite rev_involutive|constructor|eauto].
  unfold contains in Hg. apply existsb_exists in Hg as (root & Hin & Hg).
  assert (Hrt := proj1 (List.Forall_forall _ _) Hb _ Hin). cbn in Hrt.
  destruct Hrt as (rsegs & Hrs & ->). exists rsegs.
  apply orb_true_iff in Hg as [Hg|Hg].
  - exists []. apply String.eqb_eq, abs_path_inj in Hg as ->; [|done..].
    rewrite app_nil_r. auto.
  - apply prefix_segments in Hg as (t & Ht & ->); [|done..]. exists t. auto.
Qed.
End Safety.

(** ** The properties *)

(** C2: a path [Resolve] (or any of its variants) lets through lies inside an
    allowed root, element by element: the answer's elements start with all the
    elements of a configured root, and none of them is [..], [.] or empty.
    [ResolveFile] also guarantees a regular file and [ResolveDir] a
    directory. *)
Theorem Resolve_contained fs rs v p q :
  fs_clean fs ->
  NewValidator fs rs = Ok v ->
  (Resolve fs v p = Some (Ok q) \/ ResolveExisting fs v p = Some (Ok q) \/
   ResolveDir fs v p = Some (Ok q) \/ ResolveFile fs v p = Some (Ok q)) ->
  (exists rsegs t, Forall good_seg (rsegs ++ t) /\
      In (abs_path rsegs) (roots v) /\ q = abs_path (rsegs ++ t)%list) /\
  (ResolveDir fs v p = Some (Ok q) -> stat fs q = Ok Directory) /\
  (ResolveFile fs v p = Some (Ok q) -> stat fs q = Ok Regular).
Proof.
  intros Hfs Hv H.
  assert (He : ResolveExisting fs v p = Some (Ok q) -> Resolve fs v p = Some (Ok q)).
  { unfold ResolveExisting. destruct (Resolve fs v p) as [[r|e]|]; cbn; try done.
    destruct (lstat fs r) as [|[]]; naive_solver. }
  assert (Hk : forall k bad, resolve_kind k bad fs v p = Some (Ok q) ->
            ResolveExisting fs v p = Some (Ok q) /\ stat fs q = Ok k).
  { intros k bad. unfold resolve_kind.
    destruct (ResolveExisting fs v p) as [[r|e]|]; cbn; try done.
    destruct (stat fs r) as [k'|] eqn:Es; [|done]. destruct k, k'; naive_solver. }
  split; [|split; [apply (Hk Directory)|apply (Hk Regular)]].
  eapply resolve_contained; [done..|].
  destruct H as [H|[H|[H|H]]]; [done|by apply He|by apply He, (Hk Directory ErrNotDirectory)|by apply He, (Hk Regular ErrNotRegular)].
Qed.

(** A small host: /var/www is a directory, /var/www/link is a symbolic link to
    /etc, /var/www/site/index.php a regular file; nothing else exists below /. *)
Module Host.
Definition known : list (string * (string * file_kind)) :=
  [("/", ("/", Directory)); ("/etc", ("/etc", Directory)); ("/var", ("/var", Directory));
   ("/var/www", ("/var/www", Directory)); ("/var/www/link", ("/etc", Directory));
   ("/var/www/site", ("/var/www/site", Directory));
   ("/var/www/site/index.php", ("/var/www/site/index.php", Regular))].
Fixpoint look (l : list (string * (string * file_kind))) (p : string)
  : result os_err (string * file_kind) :=
  match l with
  | [] => Err NotExist
  | (k, v) :: l' => if p =? k then Ok v else look l' p
  end.
Definition fs : filesystem := {|
  eval_symlinks p := let? r := look known p in Ok r.1;
  lstat p := let? r := look known p in Ok r.2;
  stat p := let? r := look known p in Ok r.2 |}.

Definition good_segb (s : string) : bool :=
  negb (s =? "") && negb (s =? ".") && negb (s =? "..") && negb (contains_char slash s).
Lemma good_segs_dec l : forallb good_segb l = true -> Forall good_seg l.
Proof.
  induction l as [|s l IH]; simpl; [constructor|]. intros H.
  unfold good_segb in *. bool_hyps. constructor; [|auto]. by split_and!.
Qed.

Lemma look_clean l p r :
  Forall (fun e => exists segs, forallb good_segb segs = true /\ e.2.1 = abs_path segs) l ->
  look l p = Ok r -> exists segs, Forall good_seg segs /\ r.1 = abs_path segs.
Proof.
  induction 1 as [|[k v] l (segs & Hs & Hk) Hl IH]; simpl; [done|].
  destruct (p =? k); [|done]. intros [= <-]. exists segs. split; [by apply good_segs_dec|done].
Qed.

Lemma clean : fs_clean fs.
Proof.
  intros p q _ H. cbn [eval_symlinks fs] in H. go_inv H. injection H as <-.
  eapply look_clean; [|exact Hb]. unfold known.
  repeat (constructor; [first
    [ by exists [] | by exists ["etc"] | by exists ["var"] | by exists ["var"; "www"]
    | by exists ["var"; "www"; "site"] | by exists ["var"; "www"; "site"; "index.php"] ]|]).
  constructor.
Qed.
End Host.

Lemma Resolve_contained_witness :
  let q := "/var/www/site/index.php" in
  exists rsegs t, Forall good_seg (rsegs ++ t) /\
    In (abs_path rsegs) ["/var/www"] /\ q = abs_path (rsegs ++ t)%list.
Proof.
  exact (proj1 (Resolve_contained Host.fs ["/var//www/"] {| roots := ["/var/www"] |}
    "/var/www/site/./index.php" "/var/www/site/index.php"
    Host.clean eq_refl (or_intror (or_intror (or_intror eq_refl))))).
Defined.

(** The link that leaves the root is refused, and so is a sibling directory
    whose name merely starts with the root's. *)
Example Resolve_symlink_escape :
  Resolve Host.fs {| roots := ["/var/www"] |} "/var/www/link/passwd" = Some (Err ErrOutsideRoot) /\
  Resolve Host.fs {| roots := ["/var/www"] |} "/var/wwwevil/x" = Some (Err ErrOutsideRoot) /\
  Resolve Host.fs {| roots := ["/var/www"] |} "/var/www/new/file" = Some (Ok "/var/www/new/file").
Proof. repeat split; reflexivity. Qed.

(** [resolveThroughSymlinks] terminates on every path [Clean] produces and
    computes the reference definition [resolve_spec]: the deepest existing
    ancestor resolved, the missing elements re-attached below it. *)
Theorem resolveThroughSymlinks_refines fs p c :
  Clean p = Ok c ->
  exists segs, c = abs_path segs /\
    resolveThroughSymlinks fs c = Some (resolve_spec fs c (rev segs) []).
Proof.
  intros H. apply Clean_good in H as (segs & Hs & ->). exists segs.
  by rewrite resolveThroughSymlinks_spec.
Qed.

Lemma resolveThroughSymlinks_refines_witness :
  exists segs, "/var/www/new/file" = abs_path segs /\
    resolveThroughSymlinks Host.fs "/var/www/new/file" =
    Some (resolve_spec Host.fs "/var/www/new/file" (rev segs) []).
Proof.
  exact (resolveThroughSymlinks_refines Host.fs "/var/www//new/file" "/var/www/new/file" eq_refl).
Defined.

(** A root directory configured as [/] admits nothing but itself: the
    separator test of [contains] looks for [//]. *)
Theorem root_slash_admits_nothing p :
  fp_clean p = p -> is_abs p = true ->
  contains {| roots := ["/"] |} p = (p =? "/").
Proof.
  intros Hc Ha. apply fp_clean_is_abs in Ha as (segs & Hs & E). rewrite Hc in E. subst p.
  unfold contains. cbn [roots existsb]. by rewrite orb_false_r, double_slash_prefix, orb_false_r.
Qed.

Lemma root_slash_admits_nothing_witness :
  contains {| roots := ["/"] |} "/etc" = ("/etc" =? "/").
Proof. apply (root_slash_admits_nothing "/etc"); reflexivity. Defined.
