(* ===== verification/Protocol.v ===== *)
(** * The API-Agent wire contract ([shared/protocol/protocol.go])

    The operation names, the allowlist, the request envelope and its
    validation, and the responses. *)

From S2P Require Import Prelude GoStr.

#[local] Open Scope string_scope.

(** A decoded JSON value, Go's [any]; an array or an object is kept as its JSON
    text, the code modelled here never looks inside one. *)
Inductive any :=
| ANull | ABool (b : bool) | ANumber (z : Z) | AString (s : string) | ANested (json : string).

Abbreviation data := (gmap string any).

(** ** Operations *)
Definition OperationPing : string := "agent.ping".
Definition OperationInfo : string := "agent.info".
Definition OperationSystemInfo : string := "system.info".
Definition OperationMetricsCPU : string := "metrics.cpu".
Definition OperationMetricsMemory : string := "metrics.memory".
Definition OperationMetricsDisk : string := "metrics.disk".
Definition OperationMetricsNetwork : string := "metrics.network".
Definition OperationMetricsLoad : string := "metrics.load".
Definition OperationProcessList : string := "process.list".
Definition OperationGrafanaStatus : string := "grafana.status".
Definition OperationGrafanaInstall : string := "grafana.install".
Definition OperationGrafanaProvision : string := "grafana.provision".
Definition OperationServiceBootAudit : string := "service.boot-audit".
Definition OperationServiceBootPersist : string := "service.boot-persist".
Definition OperationServiceDetect : string := "service.detect".
Definition OperationServiceAction : string := "service.action".
Definition OperationServiceList : string := "service.list".
Definition OperationServiceStatus : string := "service.status".
Definition OperationWebsiteCreate : string := "website.create".
Definition OperationWebsiteDelete : string := "website.delete".
Definition OperationWebsiteUpdate : string := "website.update".
Definition OperationWebsiteStatus : string := "website.status".
Definition OperationWebsiteLogs : string := "website.logs".
Definition OperationNginxValidate : string := "nginx.validate".
Definition OperationNginxReload : string := "nginx.reload".
Definition OperationPHPVersions : string := "php.versions".
Definition OperationPHPInstall : string := "php.install".
Definition OperationPHPUninstall : string := "php.uninstall".
Definition OperationPHPPoolCreate : string := "php.pool.create".
Definition OperationPHPPoolDelete : string := "php.pool.delete".
Definition OperationPHPPoolStatus : string := "php.pool.status".
Definition OperationPHPExtensions : string := "php.extensions".
Definition OperationWebsitePHPSet : string := "website.php.set".
Definition OperationWebsitePHPUnset : string := "website.php.unset".
Definition OperationSSLIssue : string := "ssl.issue".
Definition OperationSSLRenew : string := "ssl.renew".
Definition OperationSSLRevoke : string := "ssl.revoke".
Definition OperationSSLStatus : string := "ssl.status".
Definition OperationSSLCapabilities : string := "ssl.capabilities".
Definition OperationDatabaseEngines : string := "database.engines".
Definition OperationDatabaseList : string := "database.list".
Definition OperationDatabaseCreate : string := "database.create".
Definition OperationDatabaseDelete : string := "database.delete".
Definition OperationDatabaseSize : string := "database.size".
Definition OperationDatabaseUserList : string := "database.user.list".
Definition OperationDatabaseUserCreate : string := "database.user.create".
Definition OperationDatabaseUserDelete : string := "database.user.delete".
Definition OperationDatabaseUserPassword : string := "database.user.password".
Definition OperationDatabaseUserGrant : string := "database.user.grant".
Definition OperationDatabaseExport : string := "database.export".
Definition OperationDatabaseImport : string := "database.import".
Definition OperationDatabaseTransferBegin : string := "database.transfer.begin".
Definition OperationDatabaseTransferRead : string := "database.transfer.read".
Definition OperationDatabaseTransferWrite : string := "database.transfer.write".
Definition OperationDatabaseTransferFinish : string := "database.transfer.finish".
Definition OperationPHPMyAdminStatus : string := "phpmyadmin.status".
Definition OperationPHPMyAdminInstall : string := "phpmyadmin.install".
Definition OperationPHPMyAdminUninstall : string := "phpmyadmin.uninstall".
Definition OperationFirewallStatus : string := "firewall.status".
Definition OperationFirewallChange : string := "firewall.change".
Definition OperationFirewallConfirm : string := "firewall.confirm".
Definition OperationFirewallRollback : string := "firewall.rollback".
Definition OperationApacheStatus : string := "apache.status".
Definition OperationApacheInstall : string := "apache.install".
Definition OperationNodeVersions : string := "node.versions".
Definition OperationNodeInstall : string := "node.install".
Definition OperationNodeUninstall : string := "node.uninstall".
Definition OperationNodeAppDeploy : string := "node.app.deploy".
Definition OperationNodeAppRemove : string := "node.app.remove".
Definition OperationNodeAppStart : string := "node.app.start".
Definition OperationNodeAppStop : string := "node.app.stop".
Definition OperationNodeAppRestart : string := "node.app.restart".
Definition OperationNodeAppStatus : string := "node.app.status".
Definition OperationNodeAppLogs : string := "node.app.logs".
Definition OperationNodeAppInstall : string := "node.app.dependencies".
Definition OperationFileList : string := "file.list".
Definition OperationFileStat : string := "file.stat".
Definition OperationFileRead : string := "file.read".
Definition OperationFileWrite : string := "file.write".
Definition OperationFileMkdir : string := "file.mkdir".
Definition OperationFileCreate : string := "file.create".
Definition OperationFileDelete : string := "file.delete".
Definition OperationFileCopy : string := "file.copy".
Definition OperationFileMove : string := "file.move".
Definition OperationFileChmod : string := "file.chmod".
Definition OperationFileArchive : string := "file.archive".
Definition OperationFileExtract : string := "file.extract".
Definition OperationFileSearch : string := "file.search".
Definition OperationFail2banStatus : string := "fail2ban.status".
Definition OperationFail2banInstall : string := "fail2ban.install".
Definition OperationFail2banConfigure : string := "fail2ban.configure".
Definition OperationFail2banIgnore : string := "fail2ban.ignore".
Definition OperationFail2banBanned : string := "fail2ban.banned".
Definition OperationFail2banUnban : string := "fail2ban.unban".
Definition OperationFail2banBan : string := "fail2ban.ban".
Definition OperationFTPStatus : string := "ftp.status".
Definition OperationFTPInstall : string := "ftp.install".
Definition OperationFTPReconcile : string := "ftp.reconcile".
Definition OperationFTPSessions : string := "ftp.sessions".
Definition OperationFTPDisconnect : string := "ftp.disconnect".
Definition OperationUpdatesCheck : string := "updates.check".
Definition OperationUpdatesApply : string := "updates.apply".
Definition OperationUpdatesRevert : string := "updates.revert".
Definition OperationSecurityPorts : string := "security.ports".
Definition OperationSecurityPermissions : string := "security.permissions".
Definition OperationBackupCapabilities : string := "backup.capabilities".
Definition OperationBackupCreate : string := "backup.create".
Definition OperationBackupVerify : string := "backup.verify".
Definition OperationBackupRestore : string := "backup.restore".
Definition OperationBackupDelete : string := "backup.delete".
Definition OperationBackupCheckTarget : string := "backup.destination.check".
Definition OperationDNSStatus : string := "dns.status".
Definition OperationDNSInstall : string := "dns.install".
Definition OperationDNSReconcile : string := "dns.reconcile".
Definition OperationDNSZoneStatus : string := "dns.zone.status".
Definition OperationDNSSigning : string := "dns.signing".
Definition OperationDeployStatus : string := "deploy.status".
Definition OperationDeployKeyGenerate : string := "deploy.key.generate".
Definition OperationDeployKeyRemove : string := "deploy.key.remove".
Definition OperationDeployRun : string := "deploy.run".
Definition OperationDeployUnlink : string := "deploy.unlink".
Definition OperationTenantStatus : string := "tenant.status".
Definition OperationTenantUsage : string := "tenant.usage".
Definition OperationTenantIsolationApply : string := "tenant.isolation.apply".
Definition OperationTenantIsolationRemove : string := "tenant.isolation.remove".
Definition OperationMailStatus : string := "mail.status".
Definition OperationMailInstall : string := "mail.install".
Definition OperationMailReconcile : string := "mail.reconcile".
Definition OperationMailDKIMGenerate : string := "mail.dkim.generate".
Definition OperationMailDKIMRemove : string := "mail.dkim.remove".
Definition OperationMailQuota : string := "mail.quota".
Definition OperationWebmailInstall : string := "webmail.install".
Definition OperationWebmailRemove : string := "webmail.remove".
Definition OperationSSHStatus : string := "ssh.status".
Definition OperationSSHConfigure : string := "ssh.configure".
Definition OperationSSHKeyList : string := "ssh.keys.list".
Definition OperationSSHKeyAdd : string := "ssh.keys.add".
Definition OperationSSHKeyRemove : string := "ssh.keys.remove".
Definition OperationCronStatus : string := "cron.status".
Definition OperationCronApply : string := "cron.apply".
Definition OperationCronRemove : string := "cron.remove".
Definition OperationCronRun : string := "cron.run".
Definition OperationCronLogRemove : string := "cron.log.remove".
Definition OperationLogList : string := "log.list".
Definition OperationLogTail : string := "log.tail".
Definition OperationLogRead : string := "log.read".
Definition OperationJobStatus : string := "job.status".
Definition OperationJobCancel : string := "job.cancel".
Definition OperationJobList : string := "job.list".

Definition allowedOperations : list string := [
  OperationPing; OperationInfo; OperationSystemInfo; OperationMetricsCPU;
  OperationMetricsMemory; OperationMetricsDisk; OperationMetricsNetwork;
  OperationMetricsLoad; OperationProcessList; OperationGrafanaStatus;
  OperationGrafanaInstall; OperationGrafanaProvision; OperationServiceBootAudit;
  OperationServiceBootPersist; OperationServiceDetect; OperationServiceAction;
  OperationServiceList; OperationServiceStatus; OperationWebsiteCreate;
  OperationWebsiteDelete; OperationWebsiteUpdate; OperationWebsiteStatus;
  OperationWebsiteLogs; OperationNginxValidate; OperationNginxReload;
  OperationPHPVersions; OperationPHPInstall; OperationPHPUninstall;
  OperationPHPPoolCreate; OperationPHPPoolDelete; OperationPHPPoolStatus;
  OperationPHPExtensions; OperationFirewallStatus; OperationFirewallChange;
  OperationFirewallConfirm; OperationFirewallRollback; OperationApacheStatus;
  OperationApacheInstall; OperationWebsitePHPSet; OperationWebsitePHPUnset;
  OperationSSLIssue; OperationSSLRenew; OperationSSLRevoke; OperationSSLStatus;
  OperationSSLCapabilities; OperationDatabaseEngines; OperationDatabaseList;
  OperationDatabaseCreate; OperationDatabaseDelete; OperationDatabaseSize;
  OperationDatabaseUserList; OperationDatabaseUserCreate;
  OperationDatabaseUserDelete; OperationDatabaseUserPassword;
  OperationDatabaseUserGrant; OperationDatabaseExport; OperationDatabaseImport;
  OperationDatabaseTransferBegin; OperationDatabaseTransferRead;
  OperationDatabaseTransferWrite; OperationDatabaseTransferFinish;
  OperationPHPMyAdminStatus; OperationPHPMyAdminInstall;
  OperationPHPMyAdminUninstall; OperationNodeVersions; OperationNodeInstall;
  OperationNodeUninstall; OperationNodeAppDeploy; OperationNodeAppRemove;
  OperationNodeAppStart; OperationNodeAppStop; OperationNodeAppRestart;
  OperationNodeAppStatus; OperationNodeAppLogs; OperationNodeAppInstall;
  OperationFileList; OperationFileStat; OperationFileRead; OperationFileWrite;
  OperationFileMkdir; OperationFileCreate; OperationFileDelete; OperationFileCopy;
  OperationFileMove; OperationFileChmod; OperationFileArchive; OperationFileExtract;
  OperationFileSearch; OperationFail2banStatus; OperationFail2banInstall;
  OperationFail2banConfigure; OperationFail2banIgnore; OperationFail2banBanned;
  OperationFail2banUnban; OperationFail2banBan; OperationFTPStatus;
  OperationFTPInstall; OperationFTPReconcile; OperationFTPSessions;
  OperationFTPDisconnect; OperationUpdatesCheck; OperationUpdatesApply;
  OperationUpdatesRevert; OperationSecurityPorts; OperationSecurityPermissions;
  OperationBackupCapabilities; OperationBackupCreate; OperationBackupVerify;
  OperationBackupRestore; OperationBackupDelete; OperationBackupCheckTarget;
  OperationDNSStatus; OperationDNSInstall; OperationDNSReconcile;
  OperationDNSZoneStatus; OperationDNSSigning; OperationDeployStatus;
  OperationDeployKeyGenerate; OperationDeployKeyRemove; OperationDeployRun;
  OperationDeployUnlink; OperationTenantStatus; OperationTenantUsage;
  OperationTenantIsolationApply; OperationTenantIsolationRemove; OperationMailStatus;
  OperationMailInstall; OperationMailReconcile; OperationMailDKIMGenerate;
  OperationMailDKIMRemove; OperationMailQuota; OperationWebmailInstall;
  OperationWebmailRemove; OperationSSHStatus; OperationSSHConfigure;
  OperationSSHKeyList; OperationSSHKeyAdd; OperationSSHKeyRemove;
  OperationCronStatus; OperationCronApply; OperationCronRemove; OperationCronRun;
  OperationCronLogRemove; OperationLogList; OperationLogTail; OperationLogRead;
  OperationJobStatus; OperationJobCancel; OperationJobList
].

Definition IsAllowed (op : string) : bool := existsb (String.eqb op) allowedOperations.

Definition jobControlOperations : list string :=
  [OperationJobStatus; OperationJobCancel; OperationJobList].

Definition IsJobControl (op : string) : bool := existsb (String.eqb op) jobControlOperations.

(** ** Requests *)
Definition ModeSync : string := "sync".
Definition ModeAsync : string := "async".
Definition maxRequestIDLength : nat := 64.

Record Request := {
  Operation : string;
  RequestID : string;
  Token : string;
  Mode : string;
  Payload : data;
}.

Definition Async (r : Request) : bool := Mode r =? ModeAsync.

Inductive request_err :=
| ErrOperationRequired | ErrUnknownOperation | ErrRequestIDRequired
| ErrRequestIDTooLong | ErrBadMode | ErrAsyncJobControl.

Definition Validate (r : Request) : result request_err unit :=
  guard (Operation r =? "") ErrOperationRequired ;?
  guard (negb (IsAllowed (Operation r))) ErrUnknownOperation ;?
  guard (RequestID r =? "") ErrRequestIDRequired ;?
  guard (maxRequestIDLength <? String.length (RequestID r))%nat ErrRequestIDTooLong ;?
  guard (negb ((Mode r =? "") || (Mode r =? ModeSync) || (Mode r =? ModeAsync))) ErrBadMode ;?
  guard (Async r && IsJobControl (Operation r)) ErrAsyncJobControl ;?
  Ok tt.

(** ** Responses *)
Inductive Status := StatusSuccess | StatusFailed | StatusAccepted.

(** The error codes of the transport and the handlers. *)
Definition CodeUnknownOperation := "UNKNOWN_OPERATION".
Definition CodeInvalidRequest := "INVALID_REQUEST".
Definition CodeInvalidPayload := "INVALID_PAYLOAD".
Definition CodeUnauthorized := "UNAUTHORIZED".
Definition CodeInternal := "INTERNAL_ERROR".
Definition CodeTimeout := "OPERATION_TIMEOUT".
Definition CodeUnsupported := "UNSUPPORTED".
Definition CodeNotFound := "NOT_FOUND".
Definition CodeBusy := "AGENT_BUSY".

Record Error := { Code : string; Message : string }.

Record Response := {
  resp_status : Status;
  resp_request_id : string;
  resp_data : data;
  resp_error : option Error;
}.

Definition NewError (requestID code message : string) : Response :=
  {| resp_status := StatusFailed; resp_request_id := requestID; resp_data := ∅;
     resp_error := Some {| Code := code; Message := message |} |}.

Definition NewSuccess (requestID : string) (d : data) : Response :=
  {| resp_status := StatusSuccess; resp_request_id := requestID; resp_data := d;
     resp_error := None |}.

Definition NewAccepted (requestID jobID : string) : Response :=
  {| resp_status := StatusAccepted; resp_request_id := requestID;
     resp_data := {[ "job_id" := AString jobID ]}; resp_error := None |}.

(** ** Job states *)
Inductive JobState := JobPending | JobRunning | JobSuccess | JobFailed | JobCancelled.

#[global] Instance JobState_eq_dec : EqDecision JobState.
Proof. solve_decision. Defined.

Definition Terminal (s : JobState) : bool :=
  match s with JobSuccess | JobFailed | JobCancelled => true | _ => false end.

(** ** Lemmas *)

(** The request envelope [Validate] lets through. *)
Definition well_formed (r : Request) : Prop :=
  In (Operation r) allowedOperations /\ RequestID r <> "" /\
  (String.length (RequestID r) <= 64)%nat /\
  (Mode r = "" \/ Mode r = "sync" \/ Mode r = "async") /\
  (Mode r = "async" -> ~ In (Operation r) jobControlOperations).

Lemma existsb_eqb_In s l : existsb (String.eqb s) l = true <-> In s l.
Proof. rewrite existsb_exists. setoid_rewrite String.eqb_eq. naive_solver. Qed.

Lemma IsAllowed_In op : IsAllowed op = true <-> In op allowedOperations.
Proof. apply existsb_eqb_In. Qed.

Lemma IsJobControl_In op : IsJobControl op = false <-> ~ In op jobControlOperations.
Proof. by rewrite <- not_true_iff_false, <- existsb_eqb_In. Qed.

Lemma allowed_not_empty : IsAllowed "" = false.
Proof. vm_compute. reflexivity. Qed.

Lemma allowedOperations_NoDup : NoDup allowedOperations.
Proof. apply (bool_decide_unpack _). vm_compute. exact I. Qed.

#[local] Opaque IsAllowed IsJobControl allowedOperations jobControlOperations.

(** [Request.Validate] accepts exactly the well-formed envelopes: an
    allowlisted operation, a request id of 1 to 64 bytes, a known mode, and
    never a job-control operation run asynchronously. *)
Theorem Validate_spec r : Validate r = Ok tt <-> well_formed r.
Proof.
  unfold Validate, well_formed, Async, ModeSync, ModeAsync, maxRequestIDLength.
  destruct r as [op rid tok mode pl]; cbn [Operation RequestID Mode].
  rewrite !guard_bind_ok, !negb_false_iff, !orb_true_iff, !String.eqb_eq, !String.eqb_neq.
  rewrite Nat.ltb_ge, andb_false_iff, String.eqb_neq, IsAllowed_In, IsJobControl_In.
  assert (Hne : In op allowedOperations -> op <> "").
  { intros Hin ->. apply IsAllowed_In in Hin. by rewrite allowed_not_empty in Hin. }
  destruct (decide (mode = "async")); naive_solver.
Qed.
