(* ===== verification/AgentJobs.v ===== *)
(** * The Agent's job runner ([agent/internal/jobs/jobs.go])

    Every operation that takes the runner's lock is one atomic step of the
    model; the goroutine running a job contributes two (entering [run] and
    recording the outcome) and its context one (the deadline).  Job ids come
    from twelve random bytes: [Submit] takes the id as an argument, and the
    step relation only submits an id the table does not hold. *)

From Stdlib Require Import Sorting.Sorted.
From S2P Require Import Prelude GoStr Protocol.

#[local] Open Scope Z_scope.

(** What [ctx.Err()] answers; the first cause to happen is the one it keeps. *)
Inductive ctx_state := Live | Canceled | DeadlineExceeded.

#[global] Instance ctx_state_eq_dec : EqDecision ctx_state.
Proof. solve_decision. Defined.

Record Job := {
  ID : string;
  JOperation : string;
  JRequestID : string;
  State : JobState;
  Progress : Z;
  JMessage : string;
  CreatedAt : Z;
  StartedAt : option Z;
  CompletedAt : option Z;
  Result : option data;
  JError : option Error;
  (** whether the [cancel] field is non-nil *)
  cancel : bool;
}.

Record Options := {
  MaxConcurrent : Z;
  Retention : Z;
  MaxJobs : Z;
  Timeout : Z;
}.

Definition minute : Z := 60 * 10 ^ 9.

(** The defaults [NewRunner] fills in (durations in nanoseconds). *)
Definition normalise (o : Options) : Options := {|
  MaxConcurrent := if MaxConcurrent o <=? 0 then 4 else MaxConcurrent o;
  Retention := if Retention o <=? 0 then 15 * minute else Retention o;
  MaxJobs := if MaxJobs o <=? 0 then 256 else MaxJobs o;
  Timeout := if Timeout o <=? 0 then 30 * minute else Timeout o |}.

Record Runner := {
  opts : Options;
  jobs : gmap string Job;
  running : Z;
  (** the contexts the jobs' goroutines hold *)
  ctxs : gmap string ctx_state;
}.

Definition NewRunner (o : Options) : Runner :=
  {| opts := normalise o; jobs := ∅; running := 0; ctxs := ∅ |}.

Definition set_jobs (r : Runner) (m : gmap string Job) : Runner :=
  {| opts := opts r; jobs := m; running := running r; ctxs := ctxs r |}.

(** ** Eviction *)
Definition expired (cutoff : Z) (j : Job) : bool :=
  Terminal (State j) &&
  match CompletedAt j with Some c => c <? cutoff | None => false end.

Definition evictLocked (now : Z) (r : Runner) : Runner :=
  set_jobs r (filter (fun kv => expired (now - Retention (opts r)) kv.2 = false) (jobs r)).

(** ** Submitting *)
Inductive runner_err := ErrNotFound | ErrQueueFull | ErrTerminal.

Definition new_job (id op requestID : string) (now : Z) : Job := {|
  ID := id; JOperation := op; JRequestID := requestID; State := JobPending;
  Progress := 0; JMessage := ""; CreatedAt := now; StartedAt := None;
  CompletedAt := None; Result := None; JError := None; cancel := true |}.

Definition Submit (r : Runner) (now : Z) (op requestID id : string)
  : Runner * result runner_err string :=
  let r1 := evictLocked now r in
  if MaxConcurrent (opts r1) <=? running r1 then (r1, Err ErrQueueFull)
  else if MaxJobs (opts r1) <=? Z.of_nat (size (jobs r1)) then (r1, Err ErrQueueFull)
  else ({| opts := opts r1; jobs := <[id := new_job id op requestID now]> (jobs r1);
           running := running r1 + 1; ctxs := <[id := Live]> (ctxs r1) |}, Ok id).

(** ** Running *)

(** What an executor comes back with; [safeExec] turns a panic into an error
    that is not structured. *)
Inductive exec_outcome :=
| Returned (d : data)
| Structured (code message : string)
| Unexpected
| Panicked.

(** [describeError]. *)
Definition describeError (out : exec_outcome) : Error :=
  match out with
  | Structured code message => {| Code := code; Message := message |}
  | _ => {| Code := CodeInternal; Message := "Operation failed" |}
  end.

Definition start_job (now : Z) (j : Job) : Job := {|
  ID := ID j; JOperation := JOperation j; JRequestID := JRequestID j;
  State := JobRunning; Progress := Progress j; JMessage := JMessage j;
  CreatedAt := CreatedAt j; StartedAt := Some now; CompletedAt := CompletedAt j;
  Result := Result j; JError := JError j; cancel := cancel j |}.

(** The state, progress, result and error the final [switch] of [run] sets. *)
Definition outcome_fields (c : ctx_state) (out : exec_outcome) (j : Job)
  : JobState * Z * option data * option Error :=
  match c with
  | Canceled =>
      (JobCancelled, Progress j, Result j,
       Some {| Code := CodeInvalidRequest; Message := "Operation cancelled" |})
  | DeadlineExceeded =>
      (JobFailed, Progress j, Result j,
       Some {| Code := CodeTimeout; Message := "Operation timed out" |})
  | Live =>
      match out with
      | Returned d => (JobSuccess, 100, Some d, JError j)
      | _ => (JobFailed, Progress j, Result j, Some (describeError out))
      end
  end.

Definition finish_job (now : Z) (c : ctx_state) (out : exec_outcome) (j : Job) : Job :=
  let '(st, pr, res, er) := outcome_fields c out j in {|
  ID := ID j; JOperation := JOperation j; JRequestID := JRequestID j;
  State := st; Progress := pr; JMessage := JMessage j;
  CreatedAt := CreatedAt j; StartedAt := StartedAt j; CompletedAt := Some now;
  Result := res; JError := er; cancel := false |}.

Definition run_start (r : Runner) (now : Z) (id : string) : Runner :=
  set_jobs r (alter (start_job now) id (jobs r)).

Definition run_finish (r : Runner) (now : Z) (id : string) (out : exec_outcome) : Runner :=
  let c := default Live (ctxs r !! id) in
  {| opts := opts r; jobs := alter (finish_job now c out) id (jobs r);
     running := running r - 1; ctxs := ctxs r |}.

(** ** Progress *)
Definition clamp_percent (p : Z) : Z :=
  let p := if p <? 0 then 0 else p in if 100 <? p then 100 else p.

Definition progress_job (p : Z) (m : string) (j : Job) : Job := {|
  ID := ID j; JOperation := JOperation j; JRequestID := JRequestID j;
  State := State j; Progress := p; JMessage := m;
  CreatedAt := CreatedAt j; StartedAt := StartedAt j; CompletedAt := CompletedAt j;
  Result := Result j; JError := JError j; cancel := cancel j |}.

Definition setProgress (r : Runner) (id : string) (percent : Z) (message : string) : Runner :=
  match jobs r !! id with
  | None => r
  | Some j =>
      if Terminal (State j) then r
      else set_jobs r (<[id := progress_job (clamp_percent percent) message j]> (jobs r))
  end.

(** ** Reading, cancelling, shutting down *)

(** [clone] hides the cancel function. *)
Definition clone (j : Job) : Job := {|
  ID := ID j; JOperation := JOperation j; JRequestID := JRequestID j;
  State := State j; Progress := Progress j; JMessage := JMessage j;
  CreatedAt := CreatedAt j; StartedAt := StartedAt j; CompletedAt := CompletedAt j;
  Result := Result j; JError := JError j; cancel := false |}.

Definition Get (r : Runner) (id : string) : result runner_err Job :=
  match jobs r !! id with Some j => Ok (clone j) | None => Err ErrNotFound end.

(** [List] evicts and answers every retained job, newest first.  The order of
    jobs created at the same instant is not determined by the code (map
    iteration and an unstable sort), so the answer is a relation. *)
Definition list_answer (now : Z) (r : Runner) (out : list Job) : Prop :=
  out ≡ₚ (clone <$> (map_to_list (jobs (evictLocked now r))).*2) /\
  StronglySorted (fun a b => CreatedAt b <= CreatedAt a) out.

Definition fire (c : ctx_state) (o : option ctx_state) : option ctx_state :=
  match o with Some Live => Some c | o => o end.

(** Firing a job's [cancel] function; contexts already done keep their cause. *)
Definition cancel_ctx (r : Runner) (c : ctx_state) (id : string) : Runner :=
  {| opts := opts r; jobs := jobs r; running := running r;
     ctxs := partial_alter (fire c) id (ctxs r) |}.

Definition Cancel (r : Runner) (id : string) : Runner * result runner_err unit :=
  match jobs r !! id with
  | None => (r, Err ErrNotFound)
  | Some j =>
      if Terminal (State j) then (r, Err ErrTerminal)
      else (if cancel j then cancel_ctx r Canceled id else r, Ok tt)
  end.

Definition Shutdown (r : Runner) : Runner :=
  {| opts := opts r; jobs := jobs r; running := running r;
     ctxs := map_imap (fun id c =>
       match jobs r !! id with
       | Some j => if cancel j then fire Canceled (Some c) else Some c
       | None => Some c
       end) (ctxs r) |}.

(** ** The runner as a transition system *)
Inductive label :=
| LSubmit (now : Z) (op requestID id : string)
| LStart (now : Z) (id : string)
| LReport (id : string) (percent : Z) (message : string)
| LDeadline (id : string)
| LFinish (now : Z) (id : string) (out : exec_outcome)
| LCancel (id : string)
| LList (now : Z)
| LShutdown.

Definition job_in (r : Runner) (id : string) (s : JobState) : bool :=
  match jobs r !! id with Some j => bool_decide (State j = s) | None => false end.

Definition exec (r : Runner) (l : label) : option Runner :=
  match l with
  | LSubmit now op rid id =>
      match jobs r !! id with None => Some (Submit r now op rid id).1 | Some _ => None end
  | LStart now id => if job_in r id JobPending then Some (run_start r now id) else None
  | LReport id p m => Some (setProgress r id p m)
  | LDeadline id => Some (cancel_ctx r DeadlineExceeded id)
  | LFinish now id out => if job_in r id JobRunning then Some (run_finish r now id out) else None
  | LCancel id => Some (Cancel r id).1
  | LList now => Some (evictLocked now r)
  | LShutdown => Some (Shutdown r)
  end.

Definition step (r : Runner) (l : label) (r' : Runner) : Prop := exec r l = Some r'.

Fixpoint exec_all (r : Runner) (ls : list label) : option Runner :=
  match ls with
  | [] => Some r
  | l :: ls' => r' ← exec r l; exec_all r' ls'
  end.

(** ** Counting live jobs *)

Definition live (m : gmap string Job) : gmap string Job :=
  filter (fun kv => Terminal (State kv.2) = false) m.

Lemma lookup_live m i j : live m !! i = Some j <-> m !! i = Some j /\ Terminal (State j) = false.
Proof. unfold live. by rewrite map_lookup_filter_Some. Qed.

Lemma live_insert_live m i j :
  m !! i = None -> Terminal (State j) = false ->
  size (live (<[i := j]> m)) = S (size (live m)).
Proof.
  intros Hm Hj. unfold live. rewrite map_filter_insert_True by done.
  apply map_size_insert_None. apply map_lookup_filter_None. left. done.
Qed.

(** Replacing a live job by a live job keeps the count. *)
Lemma live_replace m i j j' :
  m !! i = Some j -> Terminal (State j) = false -> Terminal (State j') = false ->
  size (live (<[i := j']> m)) = size (live m).
Proof.
  intros Hm Hj Hj'. unfold live. rewrite map_filter_insert_True by done.
  apply map_size_insert_Some. exists j. by apply map_lookup_filter_Some.
Qed.

(** Replacing a live job by a finished one lowers it by one. *)
Lemma live_finish m i j j' :
  m !! i = Some j -> Terminal (State j) = false -> Terminal (State j') = true ->
  S (size (live (<[i := j']> m))) = size (live m).
Proof.
  intros Hm Hj Hj'. unfold live.
  rewrite map_filter_insert_False by (simpl; congruence).
  assert (Hl : filter (fun kv => Terminal (State kv.2) = false) m !! i = Some j)
    by by apply map_lookup_filter_Some.
  rewrite map_filter_delete. rewrite map_size_delete_Some by eauto.
  assert (size (filter (fun kv : string * Job => Terminal (State kv.2) = false) m) <> 0%nat).
  { apply map_size_non_empty_iff. intros E. by rewrite E in Hl. }
  lia.
Qed.

Lemma live_evict now r : live (jobs (evictLocked now r)) = live (jobs r).
Proof.
  apply map_eq. intros i. apply option_eq. intros j. rewrite !lookup_live. simpl.
  rewrite map_lookup_filter_Some. simpl. unfold expired.
  destruct (Terminal (State j)); naive_solver.
Qed.

Lemma lookup_evict now r i j :
  jobs (evictLocked now r) !! i = Some j <->
  jobs r !! i = Some j /\ expired (now - Retention (opts r)) j = false.
Proof. simpl. by rewrite map_lookup_filter_Some. Qed.

Lemma evict_size now r : (size (jobs (evictLocked now r)) <= size (jobs r))%nat.
Proof. apply map_subseteq_size. simpl. apply map_filter_subseteq. Qed.

(** ** The invariant *)

(** What holds of every record the runner keeps. *)
Definition job_ok (id : string) (j : Job) : Prop :=
  ID j = id /\ 0 <= Progress j <= 100 /\
  cancel j = negb (Terminal (State j)) /\
  (is_Some (CompletedAt j) <-> Terminal (State j) = true) /\
  (State j = JobRunning -> is_Some (StartedAt j)) /\
  match State j with
  | JobSuccess => Progress j = 100 /\ is_Some (Result j) /\ JError j = None
  | JobFailed | JobCancelled => Result j = None /\ is_Some (JError j)
  | _ => Result j = None /\ JError j = None
  end.

Record runner_ok (r : Runner) : Prop := {
  ok_count : running r = Z.of_nat (size (live (jobs r)));
  ok_concurrent : running r <= MaxConcurrent (opts r);
  ok_retained : Z.of_nat (size (jobs r)) <= MaxJobs (opts r);
  ok_jobs : forall id j, jobs r !! id = Some j -> job_ok id j;
  ok_ctxs : forall id j, jobs r !! id = Some j -> Terminal (State j) = false ->
              is_Some (ctxs r !! id);
}.

Lemma runner_ok_init o : runner_ok (NewRunner o).
Proof.
  split; try done; simpl.
  all: try (destruct (MaxConcurrent o <=? 0) eqn:E; lia).
  destruct (MaxJobs o <=? 0) eqn:E; rewrite map_size_empty; lia.
Qed.

Lemma evict_ok now r : runner_ok r -> runner_ok (evictLocked now r).
Proof.
  intros [Hc Hm Hs Hj Hx]. split.
  - by rewrite live_evict.
  - done.
  - pose proof (evict_size now r). change (opts (evictLocked now r)) with (opts r). lia.
  - intros id j H. apply lookup_evict in H as [H _]. auto.
  - intros id j H. apply lookup_evict in H as [H _]. eauto.
Qed.

Lemma submit_ok now op rid id r :
  runner_ok r -> jobs r !! id = None -> runner_ok (Submit r now op rid id).1.
Proof.
  intros Hr Hid. pose proof (evict_ok now r Hr) as Ho. unfold Submit.
  assert (Hid' : jobs (evictLocked now r) !! id = None).
  { apply eq_None_not_Some. intros [j H]. apply lookup_evict in H as [H _]. congruence. }
  revert Ho Hid'. generalize (evictLocked now r). intros r1 [Hc Hm Hs Hj Hx] Hid1.
  destruct (_ <=? running r1) eqn:E1; [by split|].
  destruct (_ <=? Z.of_nat _) eqn:E2; [by split|]. bool_hyps.
  split; simpl.
  - rewrite live_insert_live by done. lia.
  - lia.
  - rewrite map_size_insert_None by done. lia.
  - intros i j. rewrite lookup_insert_Some. intros [[<- <-]|[_ H]]; [|auto].
    unfold job_ok. simpl. rewrite is_Some_alt. repeat split; done || lia.
  - intros i j. rewrite lookup_insert_Some.
    intros [[<- <-]|[Hne H]] Ht; [by rewrite lookup_insert_eq|].
    rewrite lookup_insert_ne by done. eauto.
Qed.

(** Updating one live job in place. *)
Lemma update_live_ok r id j j' :
  runner_ok r -> jobs r !! id = Some j -> Terminal (State j) = false ->
  Terminal (State j') = false -> job_ok id j' ->
  runner_ok (set_jobs r (<[id := j']> (jobs r))).
Proof.
  intros [Hc Hm Hs Hj Hx] Hid Ht Ht' Hok. split; simpl; try done.
  - by erewrite live_replace.
  - rewrite map_size_insert_Some by eauto. done.
  - intros i k. rewrite lookup_insert_Some. intros [[<- <-]|[_ H]]; auto.
  - intros i k. rewrite lookup_insert_Some. intros [[<- <-]|[_ H]]; eauto.
Qed.

Lemma job_in_spec r id s : job_in r id s = true <-> exists j, jobs r !! id = Some j /\ State j = s.
Proof.
  unfold job_in. destruct (jobs r !! id) as [j|]; [rewrite bool_decide_eq_true|]; naive_solver.
Qed.

Lemma alter_as_insert {A} (f : A -> A) (m : gmap string A) i x :
  m !! i = Some x -> alter f i m = <[i := f x]> m.
Proof.
  intros H. apply map_eq. intros k. destruct (decide (i = k)) as [<-|Hne].
  - rewrite lookup_alter_eq, lookup_insert_eq, H. done.
  - by rewrite lookup_alter_ne, lookup_insert_ne by done.
Qed.

Lemma start_ok now id r :
  runner_ok r -> job_in r id JobPending = true -> runner_ok (run_start r now id).
Proof.
  intros Hr H. apply job_in_spec in H as (j & Hj & Hs). unfold run_start.
  rewrite (alter_as_insert _ _ _ _ Hj).
  eapply update_live_ok; eauto; [by rewrite Hs|].
  pose proof (ok_jobs _ Hr _ _ Hj) as H. unfold job_ok in *. rewrite Hs in H. simpl in *.
  naive_solver.
Qed.

Lemma clamp_range p : 0 <= clamp_percent p <= 100.
Proof. unfold clamp_percent. repeat case_match; bool_hyps; lia. Qed.

Lemma report_ok id p m r : runner_ok r -> runner_ok (setProgress r id p m).
Proof.
  intros Hr. unfold setProgress. destruct (jobs r !! id) as [j|] eqn:Hj; [|done].
  destruct (Terminal (State j)) eqn:Ht; [done|].
  eapply update_live_ok; eauto.
  pose proof (ok_jobs _ Hr _ _ Hj) as H. pose proof (clamp_range p).
  unfold job_ok in *. simpl. destruct (State j); naive_solver.
Qed.

Lemma finish_terminal now c out j : Terminal (State (finish_job now c out j)) = true.
Proof. unfold finish_job. by destruct c, out. Qed.

Lemma finish_job_ok now c out id j :
  job_ok id j -> State j = JobRunning -> job_ok id (finish_job now c out j).
Proof.
  unfold job_ok. intros H Hs. rewrite Hs in H. simpl in H.
  destruct H as (? & ? & _ & _ & _ & ? & ?).
  unfold finish_job, is_Some. destruct c, out; simpl; split_and!; naive_solver lia.
Qed.

Lemma finish_ok now id out r :
  runner_ok r -> job_in r id JobRunning = true -> runner_ok (run_finish r now id out).
Proof.
  intros [Hc Hm Hs Hj Hx] H. apply job_in_spec in H as (j & Hid & Hst). unfold run_finish.
  rewrite (alter_as_insert _ _ _ _ Hid).
  assert (Ht : Terminal (State j) = false) by (by rewrite Hst).
  pose proof (live_finish _ _ _ _ Hid Ht (finish_terminal now (default Live (ctxs r !! id)) out j)).
  split; simpl; try lia.
  - rewrite map_size_insert_Some by eauto. done.
  - intros i k. rewrite lookup_insert_Some. intros [[<- <-]|[_ ?]]; [|auto].
    apply finish_job_ok; auto.
  - intros i k. rewrite lookup_insert_Some. intros [[<- <-]|[_ ?]] Hk; [|eauto].
    by rewrite finish_terminal in Hk.
Qed.

Lemma ctxs_only_ok r x :
  runner_ok r -> (forall id, is_Some (ctxs r !! id) -> is_Some (x !! id)) ->
  runner_ok {| opts := opts r; jobs := jobs r; running := running r; ctxs := x |}.
Proof. intros [Hc Hm Hs Hj Hx] H. split; simpl; eauto. Qed.

Lemma fire_is_Some c o : is_Some o -> is_Some (fire c o).
Proof. intros [[] ->]; done. Qed.

Lemma cancel_ctx_ok c id r : runner_ok r -> runner_ok (cancel_ctx r c id).
Proof.
  intros Hr. apply ctxs_only_ok; [done|]. intros i Hi. rewrite lookup_partial_alter.
  case_decide as E; [subst; by apply fire_is_Some|done].
Qed.

Lemma shutdown_ok r : runner_ok r -> runner_ok (Shutdown r).
Proof.
  intros Hr. apply ctxs_only_ok; [done|]. intros i [c Hi].
  rewrite map_lookup_imap, Hi. simpl. destruct (jobs r !! i) as [j|]; [|done].
  destruct (cancel j); [by destruct c|done].
Qed.

Lemma step_ok r l r' : runner_ok r -> step r l r' -> runner_ok r'.
Proof.
  intros Hr H. unfold step in H. destruct l; simpl in H; repeat case_match; simplify_eq;
    auto using submit_ok, start_ok, report_ok, cancel_ctx_ok, finish_ok, evict_ok, shutdown_ok.
  unfold Cancel. repeat case_match; simpl; auto using cancel_ctx_ok.
Qed.

(** ** The properties *)

Lemma reachable_ok o ls r : run step (NewRunner o) ls r -> runner_ok r.
Proof. apply (run_invariant step runner_ok); [|apply runner_ok_init]. intros. by eapply step_ok. Qed.

(** C16: in every state reachable from a new runner, by any interleaving of
    submissions, starts, progress reports, deadlines, completions,
    cancellations, listings and shutdown: the [running] counter is the number
    of unfinished jobs and never exceeds [MaxConcurrent]; at most [MaxJobs] are
    retained; progress stays within 0-100; a job has a completion time exactly
    when it is finished, a result exactly when it succeeded, an error exactly
    when it did not, and a cancel function exactly while it is unfinished. *)
Theorem runner_invariant o ls r : run step (NewRunner o) ls r -> runner_ok r.
Proof. apply reachable_ok. Qed.

Lemma run_exec_all r ls r' : exec_all r ls = Some r' -> run step r ls r'.
Proof.
  revert r. induction ls as [|l ls IH]; simpl; intros r H; [simplify_eq; constructor|].
  destruct (exec r l) as [r1|] eqn:E; [|done]. simpl in H. econstructor; [exact E|eauto].
Qed.

Definition sample_options : Options :=
  {| MaxConcurrent := 2; Retention := 10; MaxJobs := 3; Timeout := 100 |}.
Definition sample_labels : list label :=
  [LSubmit 1 "php.install" "req-1" "job_a"; LStart 2 "job_a"; LReport "job_a" 140 "half way";
   LSubmit 3 "ssl.issue" "req-2" "job_b"; LStart 4 "job_b"; LCancel "job_b";
   LSubmit 5 "ssl.issue" "req-3" "job_c"; LFinish 6 "job_b" (Returned ∅);
   LFinish 7 "job_a" Panicked].
Definition sample_end : Runner := default (NewRunner sample_options)
  (exec_all (NewRunner sample_options) sample_labels).

(** The third submission is refused (two are running), the cancelled job ends
    cancelled although its executor returned a result, and the job whose
    executor panicked failed. *)
Example sample_end_jobs :
  (fun j => (State j, Progress j)) <$> jobs sample_end !! "job_a" = Some (JobFailed, 100) /\
  State <$> jobs sample_end !! "job_b" = Some JobCancelled /\
  State <$> jobs sample_end !! "job_c" = None /\ running sample_end = 0.
Proof. vm_compute. auto. Qed.

Lemma runner_invariant_witness : runner_ok sample_end.
Proof.
  apply (runner_invariant sample_options sample_labels).
  apply run_exec_all. vm_compute. reflexivity.
Defined.

(** [Submit] refuses exactly when, once finished jobs past their retention
    are dropped, [MaxConcurrent] jobs are running or [MaxJobs] are retained; a
    refusal changes nothing but that eviction, and an accepted job is pending,
    counted, retrievable under its id with a live context, and every other job
    is left as it was. *)
Theorem Submit_spec r now op rid id :
  let r1 := evictLocked now r in
  let '(r2, res) := Submit r now op rid id in
  if decide (running r < MaxConcurrent (opts r) /\ Z.of_nat (size (jobs r1)) < MaxJobs (opts r))
  then res = Ok id /\ Get r2 id = Ok (clone (new_job id op rid now)) /\
       running r2 = running r + 1 /\ ctxs r2 !! id = Some Live /\
       (forall i, i <> id -> jobs r2 !! i = jobs r1 !! i /\ ctxs r2 !! i = ctxs r !! i)
  else res = Err ErrQueueFull /\ r2 = r1.
Proof.
  cbv zeta. unfold Submit.
  change (running (evictLocked now r)) with (running r).
  change (opts (evictLocked now r)) with (opts r).
  destruct (Z.leb_spec (MaxConcurrent (opts r)) (running r)).
  { rewrite decide_False by lia. done. }
  destruct (Z.leb_spec (MaxJobs (opts r)) (Z.of_nat (size (jobs (evictLocked now r))))).
  { rewrite decide_False by lia. done. }
  rewrite decide_True by done. unfold Get. cbn [jobs running ctxs].
  rewrite !lookup_insert_eq. split_and!; try done.
  intros i Hi. rewrite !lookup_insert_ne by done. done.
Qed.

(** The instant a step reads the clock to evict. *)
Definition evicts_at (l : label) : option Z :=
  match l with LSubmit now _ _ _ | LList now => Some now | _ => None end.

Lemma finished_step r l r' id j c :
  step r l r' -> jobs r !! id = Some j -> Terminal (State j) = true -> CompletedAt j = Some c ->
  opts r' = opts r /\
  (jobs r' !! id = Some j \/ exists now, evicts_at l = Some now /\ c < now - Retention (opts r)).
Proof.
  unfold step. intros H Hj Ht Hc.
  assert (He : forall now, jobs (evictLocked now r) !! id = Some j \/ c < now - Retention (opts r)).
  { intros now. destruct (expired (now - Retention (opts r)) j) eqn:E.
    - right. unfold expired in E. rewrite Ht, Hc in E. simpl in E. by bool_hyps.
    - left. by apply lookup_evict. }
  destruct l; simpl in H.
  - destruct (jobs r !! id0) eqn:E; simplify_eq. unfold Submit.
    specialize (He now). repeat case_match; simpl in *; (split; [done|]); try naive_solver.
    rewrite lookup_insert_ne by congruence. naive_solver.
  - unfold job_in in H. destruct (jobs r !! id0) as [k|] eqn:E; [|done].
    case_bool_decide as Hk; simplify_eq/=. split; [done|]. left.
    rewrite lookup_alter_ne; [done|]. intros ->. rewrite E in Hj. simplify_eq. by rewrite Hk in Ht.
  - simplify_eq. unfold setProgress. destruct (jobs r !! id0) as [k|] eqn:E; [|auto].
    destruct (Terminal (State k)) eqn:Hk; [auto|]. split; [done|]. left. simpl.
    rewrite lookup_insert_ne; [done|]. intros ->. rewrite E in Hj. simplify_eq. congruence.
  - simplify_eq. auto.
  - unfold job_in in H. destruct (jobs r !! id0) as [k|] eqn:E; [|done].
    case_bool_decide as Hk; simplify_eq/=. split; [done|]. left.
    rewrite lookup_alter_ne; [done|]. intros ->. rewrite E in Hj. simplify_eq. by rewrite Hk in Ht.
  - simplify_eq. unfold Cancel. repeat case_match; auto.
  - simplify_eq. split; [done|]. destruct (He now); naive_solver.
  - simplify_eq. auto.
Qed.

(** A finished job never changes again and stays queryable for the whole
    retention window: after any further steps, it is either exactly the record
    it was or one of those steps read a clock more than [Retention] past its
    completion. *)
Theorem finished_job_kept r ls r' id j c :
  run step r ls r' -> jobs r !! id = Some j -> Terminal (State j) = true ->
  CompletedAt j = Some c ->
  Get r' id = Ok (clone j) \/
  exists l now, In l ls /\ evicts_at l = Some now /\ c + Retention (opts r) < now.
Proof.
  intros Hr Hj Ht Hc. unfold Get. induction Hr as [r|r l r1 ls r2 Hs Hr IH]; [left; by rewrite Hj|].
  pose proof (finished_step _ _ _ _ _ _ Hs Hj Ht Hc) as [Ho [H|(now & H1 & H2)]].
  - destruct (IH H) as [?|(l' & now & ? & ? & ?)]; [by left|].
    right. exists l', now. rewrite <- Ho. simpl. auto.
  - right. exists l, now. simpl. split; [by left|]. split; [done|lia].
Qed.

Lemma finished_job_kept_witness :
  Get (default sample_end (exec_all sample_end [LList 16; LSubmit 17 "ssl.issue" "r" "job_d"])) "job_b"
    = Ok (clone (default (new_job "" "" "" 0) (jobs sample_end !! "job_b"))) \/
  exists l now, In l [LList 16; LSubmit 17 "ssl.issue" "r" "job_d"] /\
    evicts_at l = Some now /\ 6 + 10 < now.
Proof.
  apply (finished_job_kept sample_end _ _ "job_b" _ 6);
    [apply run_exec_all; vm_compute; reflexivity|vm_compute; reflexivity..].
Defined.

(** ** Cancellation *)

Definition submits (id : string) (l : label) : bool :=
  match l with LSubmit _ _ _ i => bool_decide (i = id) | _ => false end.

(** The terminal state a done context leads to. *)
Definition abort_state (c : ctx_state) : JobState :=
  match c with Canceled => JobCancelled | _ => JobFailed end.

Definition doomed (id : string) (c : ctx_state) (r : Runner) : Prop :=
  ctxs r !! id = Some c /\
  forall j, jobs r !! id = Some j -> Terminal (State j) = true -> State j = abort_state c.

Lemma doomed_jobs id c r r' :
  doomed id c r -> ctxs r' !! id = ctxs r !! id ->
  (forall j, jobs r' !! id = Some j -> Terminal (State j) = true ->
     jobs r !! id = Some j \/ State j = abort_state c) ->
  doomed id c r'.
Proof. intros [Hc Hd] Hx Hj. split; [by rewrite Hx|]. naive_solver. Qed.

Lemma finish_doomed now c out j :
  c <> Live -> State (finish_job now c out j) = abort_state c.
Proof. by destruct c. Qed.

Lemma fire_done c o x : o = Some x -> x <> Live -> fire c o = Some x.
Proof. intros ->. by destruct x. Qed.

Lemma cancel_ctx_doomed id i c c' r : c <> Live -> doomed id c r -> doomed id c (cancel_ctx r c' i).
Proof.
  intros Hc Hd. eapply doomed_jobs; eauto. simpl. rewrite lookup_partial_alter.
  case_decide; [subst|done]. destruct Hd as [Hx _]. rewrite Hx. by apply fire_done.
Qed.

Lemma doomed_step id c r l r' :
  c <> Live -> doomed id c r -> step r l r' -> submits id l = false -> doomed id c r'.
Proof.
  unfold step. intros Hc Hd H Hs.
  assert (He : forall now, doomed id c (evictLocked now r)).
  { intros now. eapply doomed_jobs; eauto. intros j H1 _. left.
    by apply lookup_evict in H1 as [H1 _]. }
  destruct l; simpl in H.
  - destruct (jobs r !! id0) eqn:E; simplify_eq. simpl in Hs. bool_hyps.
    unfold Submit. repeat case_match; try apply He.
    eapply doomed_jobs; [apply (He now)|simpl; by rewrite lookup_insert_ne|].
    simpl. intros j. rewrite lookup_insert_ne by done. auto.
  - destruct (job_in r id0 JobPending); simplify_eq.
    eapply doomed_jobs; eauto. simpl. intros j. rewrite lookup_alter_Some.
    intros [(-> & k & Hk & ->)|[_ Hj]] Ht; [done|auto].
  - simplify_eq. unfold setProgress. destruct (jobs r !! id0) as [k|] eqn:E; [|done].
    destruct (Terminal (State k)) eqn:Hk; [done|]. eapply doomed_jobs; eauto. simpl.
    intros j. rewrite lookup_insert_Some. intros [[<- <-]|[_ Hj]] Ht; [|auto].
    simpl in Ht. congruence.
  - simplify_eq. by apply cancel_ctx_doomed.
  - destruct (job_in r id0 JobRunning); simplify_eq.
    eapply doomed_jobs; eauto. simpl. intros j. rewrite lookup_alter_Some.
    intros [(-> & k & Hk & ->)|[_ Hj]] Ht; [|auto]. right.
    destruct Hd as [-> _]. by apply finish_doomed.
  - simplify_eq. unfold Cancel. repeat case_match; try done. by apply cancel_ctx_doomed.
  - simplify_eq. apply He.
  - simplify_eq. eapply doomed_jobs; eauto. simpl. rewrite map_lookup_imap.
    destruct Hd as [-> _]. simpl. repeat case_match; by destruct c.
Qed.

(** Cancelling works and is final.  Once [Cancel] has answered success for
    a job whose deadline has not passed, that job can only end as CANCELLED,
    whatever its executor returns and whatever else happens - it never becomes
    SUCCESS. *)
Theorem cancelled_stays_cancelled o ls0 r r1 id ls r2 j :
  run step (NewRunner o) ls0 r -> ctxs r !! id = Some Live ->
  Cancel r id = (r1, Ok tt) -> run step r1 ls r2 ->
  forallb (fun l => negb (submits id l)) ls = true ->
  jobs r2 !! id = Some j -> Terminal (State j) = true -> State j = JobCancelled.
Proof.
  intros H0 Hx Hcan Hr Hs Hj Ht.
  pose proof (reachable_ok _ _ _ H0) as Hok.
  assert (Hd : doomed id Canceled r1).
  { unfold Cancel in Hcan. destruct (jobs r !! id) as [k|] eqn:Hk; [|done].
    destruct (Terminal (State k)) eqn:Hkt; [done|].
    pose proof (ok_jobs _ Hok _ _ Hk) as (_ & _ & Hkc & _).
    rewrite Hkc, Hkt in Hcan. simpl in Hcan. simplify_eq. split; simpl.
    - by rewrite lookup_partial_alter_eq, Hx.
    - naive_solver congruence. }
  clear Hcan H0 Hx Hok. induction Hr as [r1|r1 l rm ls r2 Hst Hr IH].
  - by apply (proj2 Hd).
  - simpl in Hs. bool_hyps. apply IH; auto. by eapply doomed_step.
Qed.

Definition cancel_mid : Runner := default (NewRunner sample_options)
  (exec_all (NewRunner sample_options) [LSubmit 1 "php.install" "req-1" "job_a"; LStart 2 "job_a"]).
Definition cancel_rest : list label :=
  [LReport "job_a" 50 ""; LDeadline "job_a"; LFinish 9 "job_a" (Returned ∅)].
Definition cancel_end : Runner :=
  default cancel_mid (exec_all (Cancel cancel_mid "job_a").1 cancel_rest).

Lemma cancelled_stays_cancelled_witness :
  State (default (new_job "" "" "" 0) (jobs cancel_end !! "job_a")) = JobCancelled.
Proof.
  apply (cancelled_stays_cancelled sample_options
    [LSubmit 1 "php.install" "req-1" "job_a"; LStart 2 "job_a"] cancel_mid
    (Cancel cancel_mid "job_a").1 "job_a" cancel_rest cancel_end);
    first [apply run_exec_all; vm_compute; reflexivity|vm_compute; reflexivity].
Defined.

(** ** Draining *)

Definition submission (l : label) : bool := match l with LSubmit _ _ _ _ => true | _ => false end.
Definition starts (l : label) : bool := match l with LStart _ _ => true | _ => false end.
Definition finishes (l : label) : bool := match l with LFinish _ _ _ => true | _ => false end.
Definition times (p : label -> bool) (ls : list label) : Z := Z.of_nat (length (List.filter p ls)).

(** The jobs that have not started. *)
Definition waiting (r : Runner) : gset string := dom (filter (fun kv => State kv.2 = JobPending) (jobs r)).

Lemma elem_of_waiting r id : id ∈ waiting r <-> job_in r id JobPending = true.
Proof.
  unfold waiting. rewrite elem_of_dom, job_in_spec. unfold is_Some. setoid_rewrite map_lookup_filter_Some. done.
Qed.

Lemma waiting_fewer r r' : (forall id j', jobs r' !! id = Some j' -> State j' = JobPending ->
    exists j, jobs r !! id = Some j /\ State j = JobPending) -> waiting r' ⊆ waiting r.
Proof.
  intros Hj id. rewrite !elem_of_waiting, !job_in_spec. intros (j' & Hl & Hs). eauto.
Qed.

Lemma altered (f : Job -> Job) (m : gmap string Job) i id j' : alter f i m !! id = Some j' ->
  (i = id /\ exists j, m !! id = Some j /\ j' = f j) \/ i <> id /\ m !! id = Some j'.
Proof.
  destruct (decide (i = id)) as [->|Hn]; [|rewrite lookup_alter_ne by done; by right].
  rewrite lookup_alter_eq. intros (j & Hj & ->)%fmap_Some. left. eauto.
Qed.

(** Only a submission adds to the jobs that wait, and a start takes one away. *)
Lemma waiting_step r l r' : step r l r' -> submission l = false ->
  Z.of_nat (size (waiting r')) + (if starts l then 1 else 0) <= Z.of_nat (size (waiting r)).
Proof.
  intros Hst Hl. destruct l as [| now id|id p m|id|now id out|id|now|]; [done|..]; unfold step in Hst; cbn [exec starts] in *.
  1: { destruct (job_in r id JobPending) eqn:Hin; [|done]. injection Hst as <-.
    assert (Hsub : waiting (run_start r now id) ⊆ waiting r ∖ {[id]}).
    { intros k. rewrite elem_of_difference, elem_of_singleton, !elem_of_waiting, !job_in_spec.
      intros (j' & Hl' & Hs). apply altered in Hl' as [(-> & j & _ & ->)|[Hn Hj]]; [done|]. split; [eauto|congruence]. }
    apply subseteq_size in Hsub. rewrite size_difference in Hsub by (apply singleton_subseteq_l; by apply elem_of_waiting).
    rewrite size_singleton in Hsub. assert (size (waiting r) <> 0%nat); [|lia].
    apply size_non_empty_iff. intros E. apply (not_elem_of_empty (C := gset string) id). rewrite <- E. by apply elem_of_waiting. }
  all: assert (waiting r' ⊆ waiting r); [|apply subseteq_size in H; lia]; apply waiting_fewer; intros k j' Hj Hs.
  - injection Hst as <-. unfold setProgress in Hj. destruct (jobs r !! id) as [j|] eqn:E; [|eauto].
    destruct (Terminal (State j)); [eauto|]. cbn [set_jobs jobs] in Hj.
    apply lookup_insert_Some in Hj as [[<- <-]|[_ Hj]]; eauto.
  - injection Hst as <-. eauto.
  - destruct (job_in r id JobRunning) eqn:Hin; [|done]. injection Hst as <-. apply altered in Hj as [(-> & j & Hj & ->)|[_ Hj]]; [|eauto].
    unfold finish_job, outcome_fields in Hs. by destruct (default Live _), out.
  - injection Hst as <-. unfold Cancel in Hj. repeat case_match; cbn in Hj; eauto.
  - injection Hst as <-. apply lookup_evict in Hj as [Hj _]. eauto.
  - injection Hst as <-. eauto.
Qed.

(** Only a submission takes room, and whatever an executor comes back with gives its room back. *)
Lemma running_step r l r' : step r l r' -> submission l = false ->
  running r' = running r - (if finishes l then 1 else 0).
Proof.
  intros Hst Hl. destruct l as [| now id|id p m|id|now id out|id|now|]; [done|..]; unfold step in Hst; cbn [exec finishes] in *.
  - destruct (job_in r id JobPending); [|done]. injection Hst as <-. cbn. lia.
  - injection Hst as <-. unfold setProgress. repeat case_match; cbn; lia.
  - injection Hst as <-. cbn. lia.
  - destruct (job_in r id JobRunning); [|done]. by injection Hst as <-.
  - injection Hst as <-. unfold Cancel. repeat case_match; cbn; lia.
  - injection Hst as <-. cbn. lia.
  - injection Hst as <-. cbn. lia.
Qed.

(** C39: no job is ever stuck and no room is lost. From any reachable state, along any run without
    new submissions, every return of an executor, whatever it returns or if it panics, gives back
    the room of one job; there are at most as many starts and returns left as jobs were admitted;
    and until none is, either a job that waits can be started, at any instant, or one that runs
    can come back, at any instant and with any outcome, so the run goes on to its end. *)
Theorem runner_drains o ls0 r ls r' :
  run step (NewRunner o) ls0 r -> run step r ls r' -> forallb (fun l => negb (submission l)) ls = true ->
  running r' = running r - times finishes ls /\ 0 <= running r' /\ times starts ls <= running r /\
  (running r' = 0 \/ exists id, (forall now, is_Some (exec r' (LStart now id))) \/
                                (forall now out, is_Some (exec r' (LFinish now id out)))).
Proof.
  intros H0 Hrun Hls.
  pose proof (reachable_ok _ _ _ H0) as Hok0.
  assert (Hok : runner_ok r').
  { eapply (run_invariant step runner_ok); [|exact Hok0|exact Hrun]. intros. by eapply step_ok. }
  assert (Hcount : running r' = running r - times finishes ls /\
    Z.of_nat (size (waiting r')) + times starts ls <= Z.of_nat (size (waiting r))).
  { clear -Hrun Hls. induction Hrun as [|r l r1 ls r' Hst _ IH]; [unfold times; cbn; lia|].
    cbn [forallb] in Hls. apply andb_true_iff in Hls as [Hl%negb_true_iff Hls]. destruct (IH Hls) as [IH1 IH2].
    pose proof (running_step _ _ _ Hst Hl). pose proof (waiting_step _ _ _ Hst Hl). unfold times in *. cbn [List.filter].
    destruct (finishes l), (starts l); cbn [length] in *; lia. }
  destruct Hcount as [Hfin Hstart]. split; [done|]. rewrite (ok_count _ Hok) at 1. split; [lia|]. split.
  - assert (size (waiting r) <= size (live (jobs r)))%nat; [|rewrite (ok_count _ Hok0); lia].
    unfold waiting. rewrite size_dom. apply map_subseteq_size, map_subseteq_spec. intros i j [Hj Hs]%map_lookup_filter_Some.
    apply lookup_live. split; [done|]. cbn in Hs. by rewrite Hs.
  - destruct (decide (size (live (jobs r')) = 0%nat)) as [Hz|Hz]; [left; rewrite (ok_count _ Hok); lia|right].
    destruct (map_choose (live (jobs r'))) as (id & j & Hj); [by intros E; rewrite E, map_size_empty in Hz|].
    apply lookup_live in Hj as [Hj Ht]. exists id. cbn [exec].
    destruct (State j) eqn:Hs; try done; [left; intros now|right; intros now out];
      (replace (job_in r' id _) with true by (symmetry; apply job_in_spec; eauto)); eauto.
Qed.

(** Two jobs run when no more are admitted; one of them panics and the other returns after it was
    cancelled. *)
Definition two_run : Runner := default (NewRunner sample_options) (exec_all (NewRunner sample_options) (take 7 sample_labels)).
Lemma runner_drains_witness :
  running two_run = 2 /\
  let ls := [LFinish 6 "job_b" (Returned ∅); LFinish 7 "job_a" Panicked] in
  running (default two_run (exec_all two_run ls)) = 0 /\ times finishes ls = 2.
Proof.
  split; [vm_compute; reflexivity|]. intros ls.
  destruct (runner_drains sample_options (take 7 sample_labels) two_run ls (default two_run (exec_all two_run ls)))
    as (Hr & _).
  - apply run_exec_all. vm_compute. reflexivity.
  - apply run_exec_all. vm_compute. reflexivity.
  - reflexivity.
  - split; [|reflexivity]. rewrite Hr. vm_compute. reflexivity.
Defined.
