(* ===== verification/AgentSocket.v ===== *)
(** * Dispatch and the Agent's socket
    ([agent/internal/operations/registry.go], [agent/internal/socket/])

    One connection carries one request: the peer is identified and authorised,
    the request read, decoded and authenticated by its token, then dispatched
    through the allowlist, run synchronously or handed to the job runner, and
    audited.  The host an operation works on is an abstract state [W], the
    handlers are arbitrary functions on it, and the JSON decoder is a
    parameter. *)

From S2P Require Import Prelude GoStr Protocol AgentJobs.

#[local] Open Scope string_scope.

(** ** The authenticator ([socket/auth.go]) *)
Record PeerCredentials := { UID : Z; GID : Z; PID : Z }.

Record Authenticator := { allowedUIDs : gset Z; auth_token : string }.

Definition NewAuthenticator (uids : list Z) (token : string) : Authenticator :=
  {| allowedUIDs := list_to_set uids; auth_token := token |}.

Definition RequiresToken (a : Authenticator) : bool := negb (auth_token a =? "").
Definition RestrictsPeers (a : Authenticator) : bool := (0 <? size (allowedUIDs a))%nat.

Inductive auth_err := ErrPeerDenied | ErrTokenMissing | ErrTokenMismatch.

Definition AuthorizePeer (a : Authenticator) (p : PeerCredentials) : result auth_err unit :=
  if negb (RestrictsPeers a) then Ok tt
  else if (UID p =? 0)%Z then Ok tt
  else guard (negb (bool_decide (UID p ∈ allowedUIDs a))) ErrPeerDenied.

Definition AuthorizeToken (a : Authenticator) (token : string) : result auth_err unit :=
  if negb (RequiresToken a) then Ok tt
  else
    guard (token =? "") ErrTokenMissing ;?
    guard (negb (token =? auth_token a)) ErrTokenMismatch.

(** ** Audit records ([audit/audit.go]) *)
Inductive audit_status := AuditSuccess | AuditFailure | AuditDenied.

Record audit_record := {
  a_operation : string;
  a_request_id : string;
  a_status : audit_status;
  a_peer : option PeerCredentials;
  a_error_code : string;
  a_detail : list (string * string);
}.

Definition auditStatus (s : Status) : audit_status :=
  match s with StatusSuccess | StatusAccepted => AuditSuccess | StatusFailed => AuditFailure end.

Definition effectiveMode (r : Request) : string := if Mode r =? "" then ModeSync else Mode r.

Definition clear_token (r : Request) : Request :=
  {| Operation := Operation r; RequestID := RequestID r; Token := ""; Mode := Mode r;
     Payload := Payload r |}.

Section Agent.
Context {W : Type}.

(** A handler changes the host and returns data, a structured error, any other
    error, or panics. *)
Definition Handler : Type := W -> Request -> W * exec_outcome.

Record Registry := { handlers : gmap string Handler }.

(** [mustRegister]; [None] is the panic. *)
Definition mustRegister (op : string) (h : Handler) (r : Registry) : option Registry :=
  if negb (IsAllowed op) then None
  else match handlers r !! op with
       | Some _ => None
       | None => Some {| handlers := <[op := h]> (handlers r) |}
       end.

Fixpoint register_all (h : string -> Handler) (ops : list string) (r : Registry)
  : option Registry :=
  match ops with
  | [] => Some r
  | op :: ops' => r' ← mustRegister op (h op) r; register_all h ops' r'
  end.

(** The operations [NewRegistry] registers, in its order. *)
Definition registeredOperations : list string := [
  OperationPing; OperationInfo; OperationSystemInfo; OperationMetricsCPU;
  OperationMetricsMemory; OperationMetricsDisk; OperationMetricsNetwork;
  OperationMetricsLoad; OperationProcessList; OperationGrafanaStatus;
  OperationGrafanaInstall; OperationGrafanaProvision; OperationServiceBootAudit;
  OperationServiceBootPersist; OperationServiceDetect; OperationServiceAction;
  OperationServiceList; OperationServiceStatus; OperationWebsiteCreate;
  OperationWebsiteDelete; OperationWebsiteUpdate; OperationWebsiteStatus;
  OperationWebsiteLogs; OperationNginxValidate; OperationNginxReload;
  OperationPHPVersions; OperationPHPInstall; OperationPHPUninstall;
  OperationPHPPoolCreate; OperationPHPPoolDelete; OperationPHPPoolStatus;
  OperationPHPExtensions; OperationFirewallStatus; OperationFirewallChange;
  OperationFirewallConfirm; OperationFirewallRollback; OperationApacheStatus;
  OperationApacheInstall; OperationWebsitePHPSet; OperationWebsitePHPUnset;
  OperationSSLIssue; OperationSSLRenew; OperationSSLRevoke; OperationSSLStatus;
  OperationSSLCapabilities; OperationDatabaseEngines; OperationDatabaseList;
  OperationDatabaseCreate; OperationDatabaseDelete; OperationDatabaseSize;
  OperationDatabaseUserList; OperationDatabaseUserCreate;
  OperationDatabaseUserDelete; OperationDatabaseUserPassword;
  OperationDatabaseUserGrant; OperationDatabaseExport; OperationDatabaseImport;
  OperationDatabaseTransferBegin; OperationDatabaseTransferRead;
  OperationDatabaseTransferWrite; OperationDatabaseTransferFinish;
  OperationPHPMyAdminStatus; OperationPHPMyAdminInstall;
  OperationPHPMyAdminUninstall; OperationNodeVersions; OperationNodeInstall;
  OperationNodeUninstall; OperationNodeAppDeploy; OperationNodeAppRemove;
  OperationNodeAppStart; OperationNodeAppStop; OperationNodeAppRestart;
  OperationNodeAppStatus; OperationNodeAppLogs; OperationNodeAppInstall;
  OperationFileList; OperationFileStat; OperationFileRead; OperationFileWrite;
  OperationFileMkdir; OperationFileCreate; OperationFileDelete; OperationFileCopy;
  OperationFileMove; OperationFileChmod; OperationFileArchive; OperationFileExtract;
  OperationFileSearch; OperationFail2banStatus; OperationFail2banInstall;
  OperationFail2banConfigure; OperationFail2banIgnore; OperationFail2banBanned;
  OperationFail2banUnban; OperationFail2banBan; OperationFTPStatus;
  OperationFTPInstall; OperationFTPReconcile; OperationFTPSessions;
  OperationFTPDisconnect; OperationUpdatesCheck; OperationUpdatesApply;
  OperationUpdatesRevert; OperationSecurityPorts; OperationSecurityPermissions;
  OperationBackupCapabilities; OperationBackupCreate; OperationBackupVerify;
  OperationBackupRestore; OperationBackupDelete; OperationBackupCheckTarget;
  OperationDNSStatus; OperationDNSInstall; OperationDNSReconcile;
  OperationDNSZoneStatus; OperationDNSSigning; OperationDeployStatus;
  OperationDeployKeyGenerate; OperationDeployKeyRemove; OperationDeployRun;
  OperationDeployUnlink; OperationTenantStatus; OperationTenantUsage;
  OperationTenantIsolationApply; OperationTenantIsolationRemove; OperationMailStatus;
  OperationMailInstall; OperationMailReconcile; OperationMailDKIMGenerate;
  OperationMailDKIMRemove; OperationMailQuota; OperationWebmailInstall;
  OperationWebmailRemove; OperationSSHStatus; OperationSSHConfigure;
  OperationSSHKeyList; OperationSSHKeyAdd; OperationSSHKeyRemove;
  OperationCronStatus; OperationCronApply; OperationCronRemove; OperationCronRun;
  OperationCronLogRemove; OperationLogList; OperationLogTail; OperationLogRead;
  OperationJobStatus; OperationJobCancel; OperationJobList
].

Definition NewRegistry (h : string -> Handler) : option Registry :=
  register_all h registeredOperations {| handlers := ∅ |}.

(** [invoke]: a panic becomes a structured internal error. *)
Definition invoke (h : Handler) (w : W) (req : Request) : W * exec_outcome :=
  let '(w', out) := h w req in
  (w', match out with
       | Panicked => Structured CodeInternal "The operation failed unexpectedly"
       | _ => out
       end).

Definition errorResponse (req : Request) (out : exec_outcome) : Response :=
  match out with
  | Structured code message => NewError (RequestID req) code message
  | _ => NewError (RequestID req) CodeInternal "Operation failed"
  end.

(** The Agent: the host, the job runner and the audit trail. *)
Record Agent := { host : W; runner : Runner; audit : list audit_record }.

(** What the surroundings contribute to one connection: whether a concurrency
    slot was obtained before shutdown, whether the connection deadline could be
    set, whether the operation's deadline passed, the clock, and the twelve
    random bytes of a new job id. *)
Record conn_env := {
  slot : bool; deadline_set : bool; timed_out : bool; now : Z; fresh_id : string }.

Definition dispatchAsync (env : conn_env) (req : Request) (st : Agent) : Agent * Response :=
  let '(r', res) := Submit (runner st) (now env) (Operation req) (RequestID req) (fresh_id env) in
  ({| host := host st; runner := r'; audit := audit st |},
   match res with
   | Ok jobID => NewAccepted (RequestID req) jobID
   | Err ErrQueueFull =>
       NewError (RequestID req) CodeBusy "The agent is at its job limit. Try again shortly."
   | Err _ => NewError (RequestID req) CodeInternal "Operation failed"
   end).

Definition Dispatch (reg : Registry) (env : conn_env) (req : Request) (st : Agent)
  : Agent * Response :=
  match Validate req with
  | Err ErrUnknownOperation =>
      (st, NewError (RequestID req) CodeUnknownOperation "Operation is not permitted")
  | Err _ => (st, NewError (RequestID req) CodeInvalidRequest "Request is not valid")
  | Ok _ =>
      match handlers reg !! Operation req with
      | None => (st, NewError (RequestID req) CodeUnknownOperation "Operation is not permitted")
      | Some h =>
          if Async req then dispatchAsync env req st
          else
            let '(w', out) := invoke h (host st) req in
            let st' := {| host := w'; runner := runner st; audit := audit st |} in
            (st', match out with
                  | Returned d => NewSuccess (RequestID req) d
                  | _ => errorResponse req out
                  end)
      end
  end.

(** ** One connection ([socket/server.go]) *)
Definition maxRequestBytes : Z := 2 ^ 20.

Definition write_audit (st : Agent) (rec : audit_record) : Agent :=
  {| host := host st; runner := runner st; audit := audit st ++ [rec] |}.

(** [bufio.Reader.ReadBytes('\n')] over [limitedConn]: the bytes up to and
    including the first newline within the limit, or everything there is
    (and [true]) when no newline comes. *)
Fixpoint read_line (limit : Z) (input : string) : string * bool :=
  match input with
  | "" => ("", true)
  | String a rest =>
      if (limit <=? 0)%Z then ("", true)
      else if Ascii.eqb a "010" then (String a "", false)
      else let '(x, e) := read_line (limit - 1) rest in (String a x, e)
  end.

Definition denial (requestID : string) : Response :=
  NewError requestID CodeUnauthorized "Not authorised".

Definition denyConnection (st : Agent) (peer : PeerCredentials) (op rid reason : string)
  : Agent * option Response :=
  (write_audit st {| a_operation := op; a_request_id := rid; a_status := AuditDenied;
                     a_peer := Some peer; a_error_code := CodeUnauthorized;
                     a_detail := [("reason", reason)] |},
   Some (denial rid)).

Definition malformed : Response := NewError "" CodeInvalidRequest "Malformed request".

Definition job_id_detail (resp : Response) : list (string * string) :=
  match resp_data resp !! "job_id" with Some (AString id) => [("job_id", id)] | _ => [] end.

Context (auth : Authenticator) (reg : Registry) (decode : string -> option Request).

(** [handleConn] from the point where a request has been decoded. *)
Definition serve_request (env : conn_env) (peer : PeerCredentials) (req : Request) (st : Agent)
  : Agent * option Response :=
  match AuthorizeToken auth (Token req) with
  | Err _ => denyConnection st peer (Operation req) (RequestID req) "token_rejected"
  | Ok _ =>
      let req := clear_token req in
      let '(st', resp) := Dispatch reg env req st in
      let resp := if timed_out env
                  then NewError (RequestID req) CodeTimeout "Operation timed out" else resp in
      (write_audit st' {| a_operation := Operation req; a_request_id := RequestID req;
                          a_status := auditStatus (resp_status resp); a_peer := Some peer;
                          a_error_code := match resp_error resp with
                                          | Some e => Code e | None => "" end;
                          a_detail := ("mode", effectiveMode req) :: job_id_detail resp |},
       Some resp)
  end.

Definition handleConn (env : conn_env) (peer : option PeerCredentials) (input : string)
    (st : Agent) : Agent * option Response :=
  match peer with
  | None =>
      (write_audit st {| a_operation := ""; a_request_id := ""; a_status := AuditDenied;
                         a_peer := None; a_error_code := CodeUnauthorized;
                         a_detail := [("reason", "peer_unavailable")] |},
       Some (denial ""))
  | Some p =>
      match AuthorizePeer auth p with
      | Err _ => denyConnection st p "" "" "peer_denied"
      | Ok _ =>
          if negb (slot env) then (st, None)
          else if negb (deadline_set env) then (st, None)
          else
            let '(line, failed) := read_line maxRequestBytes input in
            if failed && (line =? "") then (st, Some malformed)
            else match decode line with
                 | None => (st, Some malformed)
                 | Some req => serve_request env p req st
                 end
      end
  end.
End Agent.

Arguments Handler : clear implicits.
Arguments Registry : clear implicits.
Arguments Agent : clear implicits.

(** ** The registry *)

Lemma mustRegister_spec {W} op (h : Handler W) r :
  In op allowedOperations -> handlers r !! op = None ->
  mustRegister op h r = Some {| handlers := <[op := h]> (handlers r) |}.
Proof.
  intros Ha Hn. unfold mustRegister. apply IsAllowed_In in Ha. by rewrite Ha, Hn.
Qed.

Lemma register_all_spec {W} (h : string -> Handler W) ops r :
  NoDup ops -> Forall (fun op => In op allowedOperations) ops ->
  (forall op, op ∈ ops -> handlers r !! op = None) ->
  exists r', register_all h ops r = Some r' /\
    forall op, handlers r' !! op =
      if decide (op ∈ ops) then Some (h op) else handlers r !! op.
Proof.
  intros Hd. revert r. induction Hd as [|op ops Hop Hd IH]; intros r Ha Hn.
  - exists r. split; [done|]. intros op. by rewrite decide_False by (apply not_elem_of_nil).
  - inversion_clear Ha as [|? ? Ha1 Ha2]. simpl.
    rewrite mustRegister_spec by (auto || (apply Hn; left)). simpl.
    destruct (IH {| handlers := <[op := h op]> (handlers r) |}) as (r' & Hr & Hl).
    { done. } { intros k Hk. simpl. rewrite lookup_insert_ne by set_solver. apply Hn. by right. }
    exists r'. split; [done|]. intros k. rewrite Hl. simpl.
    destruct (decide (k = op)) as [->|Hne].
    + rewrite decide_False by done. rewrite decide_True by left. by rewrite lookup_insert_eq.
    + rewrite lookup_insert_ne by done.
      destruct (decide (k ∈ ops)) as [Hk|Hk];
        [rewrite decide_True by (by right)|rewrite decide_False by set_solver]; done.
Qed.

Lemma registered_permutation : registeredOperations ≡ₚ allowedOperations.
Proof. apply (bool_decide_unpack _). vm_compute. exact I. Qed.

Lemma NewRegistry_lookup {W} (h : string -> Handler W) :
  exists reg, NewRegistry h = Some reg /\
    forall op, handlers reg !! op = if IsAllowed op then Some (h op) else None.
Proof.
  destruct (register_all_spec h registeredOperations {| handlers := ∅ |}) as (reg & Hr & Hl).
  - rewrite registered_permutation. apply allowedOperations_NoDup.
  - apply Forall_forall. intros op Hop. rewrite registered_permutation in Hop.
    first [exact Hop | by apply list_elem_of_In].
  - intros op _. apply lookup_empty.
  - exists reg. split; [exact Hr|]. intros op. rewrite Hl. simpl.
    destruct (IsAllowed op) eqn:E.
    + rewrite decide_True; [done|]. rewrite registered_permutation.
      by apply list_elem_of_In, IsAllowed_In.
    + rewrite decide_False; [by apply lookup_empty|]. rewrite registered_permutation.
      intros H. apply list_elem_of_In, IsAllowed_In in H. congruence.
Qed.

(** Start-up never panics and leaves no gap: [NewRegistry] succeeds and
    afterwards an operation has a handler exactly when it is on the allowlist
    - every allowlisted operation is implemented, and nothing else is
    callable. *)
Theorem NewRegistry_complete (W : Type) (h : string -> Handler W) :
  exists reg, NewRegistry h = Some reg /\
    forall op, handlers reg !! op = if IsAllowed op then Some (h op) else None.
Proof. apply NewRegistry_lookup. Qed.

(** ** What a connection can reach *)
Section Reach.
Context {W : Type} (auth : Authenticator) (reg : Registry W) (decode : string -> option Request).

(** The caller and the request were both accepted. *)
Definition authorised (peer : option PeerCredentials) (input : string) (req : Request) : Prop :=
  exists p line failed, peer = Some p /\ AuthorizePeer auth p = Ok tt /\
    read_line maxRequestBytes input = (line, failed) /\ decode line = Some req /\
    AuthorizeToken auth (Token req) = Ok tt.

Lemma ok_tt {E} (r : result E unit) a : r = Ok a -> r = Ok tt.
Proof. by destruct a. Qed.

(** A dispatch that changes the host or the runner ran an allowlisted
    operation of a well-formed request. *)
Lemma Dispatch_gate env req st st' resp :
  Dispatch reg env req st = (st', resp) ->
  audit st' = audit st /\
  (st' = st \/ (well_formed req /\ is_Some (handlers reg !! Operation req))).
Proof.
  unfold Dispatch, dispatchAsync. intros H.
  destruct (Validate req) as [u|e] eqn:E.
  - apply ok_tt, Validate_spec in E.
    destruct (handlers reg !! Operation req) as [h|] eqn:Eh; [|naive_solver].
    repeat case_match; simplify_eq/=; split; eauto.
  - destruct e; naive_solver.
Qed.

Lemma handleConn_cases env peer input st st' resp :
  handleConn auth reg decode env peer input st = (st', resp) ->
  (exists req, authorised peer input req /\ slot env = true /\ deadline_set env = true /\
     exists p, peer = Some p /\ serve_request auth reg env p req st = (st', resp)) \/
  (host st' = host st /\ runner st' = runner st /\
   (resp = None \/ resp = Some malformed \/ exists rid, resp = Some (denial rid)) /\
   (audit st' = audit st \/
    exists rec, audit st' = (audit st ++ [rec])%list /\ a_status rec = AuditDenied)).
Proof.
  unfold handleConn. intros H. destruct peer as [p|]; [|right; simplify_eq/=; naive_solver].
  destruct (AuthorizePeer auth p) as [u|] eqn:Ep; [|right; unfold denyConnection in H; simplify_eq/=; naive_solver].
  destruct (slot env) eqn:Es; [|right; simplify_eq/=; naive_solver].
  destruct (deadline_set env) eqn:Ed; [|right; simplify_eq/=; naive_solver]. simpl in H.
  destruct (read_line maxRequestBytes input) as [line failed] eqn:El.
  destruct (failed && _); [right; simplify_eq/=; naive_solver|].
  destruct (decode line) as [req|] eqn:Er; [|right; simplify_eq/=; naive_solver].
  destruct (AuthorizeToken auth (Token req)) as [u2|] eqn:Et.
  - left. exists req. split; [|eauto]. exists p, line, failed.
    apply ok_tt in Ep, Et. eauto.
  - right. unfold serve_request, denyConnection in H. rewrite Et in H.
    simplify_eq/=. naive_solver.
Qed.

(** C1: the privileged host is only ever touched for an authorised, allowlisted
    request: if serving a connection changes the host or the job table, then
    the kernel's peer check passed, the token check passed, the request was
    decoded from at most 1 MiB and its envelope is well formed (allowlisted
    operation, bounded request id, known mode). *)
Theorem host_touched_only_when_authorised env peer input st st' resp :
  handleConn auth reg decode env peer input st = (st', resp) ->
  (host st' = host st /\ runner st' = runner st) \/
  exists req, authorised peer input req /\ well_formed (clear_token req).
Proof.
  intros H. apply handleConn_cases in H as [(req & Ha & _ & _ & p & -> & H)|(? & ? & _)]; [|auto].
  unfold serve_request in H. destruct Ha as (p' & line & failed & Hp & Ha). simplify_eq.
  destruct Ha as (Hp & Hl & Hd & Ht). rewrite Ht in H.
  destruct (Dispatch reg env (clear_token req) st) as [st1 resp1] eqn:Ed.
  apply Dispatch_gate in Ed as [_ [->|[Hw _]]].
  - left. by simplify_eq/=.
  - right. exists req. split; [|done]. exists p', line, failed. auto.
Qed.

(** C40: every connection leaves at most one audit record, and a caller who was
    refused can tell nothing apart: the answer carries the same code and
    message whether the peer or the token was wrong, the refusal is recorded
    as DENIED, and neither the host nor the job table moved. *)
Theorem refusals_uniform_and_audited env peer input st st' resp :
  handleConn auth reg decode env peer input st = (st', Some resp) ->
  (forall req, ~ authorised peer input req) ->
  host st' = host st /\ runner st' = runner st /\
  (resp = malformed /\ audit st' = audit st \/
   exists rid rec, resp = denial rid /\ audit st' = (audit st ++ [rec])%list /\
     a_status rec = AuditDenied /\ a_error_code rec = CodeUnauthorized).
Proof.
  intros H Hna. unfold handleConn, denyConnection in H.
  destruct peer as [p|]; [|simplify_eq/=; naive_solver].
  destruct (AuthorizePeer auth p) as [u|] eqn:Ep; [|simplify_eq/=; naive_solver].
  destruct (slot env); simplify_eq/=. destruct (deadline_set env); simplify_eq/=.
  destruct (read_line maxRequestBytes input) as [line failed] eqn:El.
  destruct (failed && _); [simplify_eq/=; naive_solver|].
  destruct (decode line) as [req|] eqn:Er; [|simplify_eq/=; naive_solver].
  unfold serve_request, denyConnection in H.
  destruct (AuthorizeToken auth (Token req)) as [u2|] eqn:Et; [|simplify_eq/=; naive_solver].
  exfalso. apply (Hna req). exists p, line, failed. apply ok_tt in Ep, Et. auto.
Qed.

(** Two registries whose handlers agree on requests without a token. *)
Definition agree_without_token (reg' : Registry W) : Prop :=
  forall op, match handlers reg !! op, handlers reg' !! op with
             | Some h, Some h' => forall w req, Token req = "" -> h w req = h' w req
             | None, None => True
             | _, _ => False
             end.

(** The shared secret stops at the socket: no handler can depend on it.
    Replacing the handlers by any others that agree on token-less requests
    changes neither the answer nor the host, the job table or the audit trail
    of any connection. *)
Theorem token_never_reaches_handlers reg' env peer input st :
  agree_without_token reg' ->
  handleConn auth reg decode env peer input st = handleConn auth reg' decode env peer input st.
Proof.
  intros Hag. unfold handleConn. destruct peer as [p|]; [|done].
  destruct (AuthorizePeer auth p); [|done].
  destruct (slot env), (deadline_set env); try done. simpl.
  destruct (read_line maxRequestBytes input) as [line failed].
  destruct (failed && _); [done|]. destruct (decode line) as [req|]; [|done].
  unfold serve_request. destruct (AuthorizeToken auth (Token req)); [|done].
  assert (Dispatch reg env (clear_token req) st = Dispatch reg' env (clear_token req) st) as ->; [|done].
  unfold Dispatch. destruct (Validate _); [|done]. specialize (Hag (Operation req)). simpl.
  destruct (handlers reg !! _) as [h|], (handlers reg' !! _) as [h'|]; try done.
  destruct (Async _); [done|]. unfold invoke. by rewrite Hag.
Qed.
End Reach.

(** ** A concrete agent: the host is a counter of calls. *)
Module Sample.
Definition handler (op : string) : Handler nat :=
  fun w req => (S w, if op =? OperationPing then Returned ∅ else Panicked).
Definition reg : Registry nat := default {| handlers := ∅ |} (NewRegistry handler).
Definition auth : Authenticator := NewAuthenticator [1000%Z] "s3cret".
Definition req (op token mode : string) : Request :=
  {| Operation := op; RequestID := "req-1"; Token := token; Mode := mode; Payload := ∅ |}.
Definition decode (line : string) : option Request :=
  if has_prefix "ping" line then Some (req OperationPing "s3cret" "")
  else if has_prefix "create" line then Some (req OperationWebsiteCreate "s3cret" "async")
  else if has_prefix "steal" line then Some (req OperationWebsiteCreate "guess" "")
  else None.
Definition env : conn_env :=
  {| slot := true; deadline_set := true; timed_out := false; now := 5; fresh_id := "job_1" |}.
Definition st0 : Agent nat :=
  {| host := 0; runner := NewRunner sample_options; audit := [] |}.
Definition api : option PeerCredentials := Some {| UID := 1000; GID := 1000; PID := 7 |}.
Definition line (s : string) : string := s ++ String "010" "".
Definition serve (peer : option PeerCredentials) (s : string) :=
  handleConn auth reg decode env peer (line s) st0.
End Sample.

(** The ping ran (the host moved), the asynchronous create queued a job, the
    guessed token was refused with the same answer a foreign uid gets. *)
Example Sample_runs :
  host (Sample.serve Sample.api "ping").1 = 1%nat /\
  size (jobs (runner (Sample.serve Sample.api "create").1)) = 1%nat /\
  host (Sample.serve Sample.api "steal").1 = 0%nat /\
  resp_error <$> (Sample.serve Sample.api "steal").2 =
  resp_error <$> (Sample.serve (Some {| UID := 33; GID := 33; PID := 8 |}) "ping").2.
Proof. vm_compute. auto. Qed.

Lemma host_touched_only_when_authorised_witness :
  (host (Sample.serve Sample.api "ping").1 = 0%nat /\
   runner (Sample.serve Sample.api "ping").1 = runner Sample.st0) \/
  exists req, authorised Sample.auth Sample.decode Sample.api (Sample.line "ping") req /\
    well_formed (clear_token req).
Proof.
  apply (host_touched_only_when_authorised Sample.auth Sample.reg Sample.decode Sample.env
           Sample.api (Sample.line "ping") Sample.st0 (Sample.serve Sample.api "ping").1
           (Sample.serve Sample.api "ping").2).
  exact (surjective_pairing _).
Defined.

Lemma refusals_uniform_and_audited_witness :
  let r := Sample.serve Sample.api "steal" in
  host r.1 = 0%nat.
Proof.
  apply (refusals_uniform_and_audited Sample.auth Sample.reg Sample.decode Sample.env
           Sample.api (Sample.line "steal") Sample.st0 (Sample.serve Sample.api "steal").1
           (default malformed (Sample.serve Sample.api "steal").2)).
  - vm_compute. reflexivity.
  - intros req (p & l & failed & _ & _ & Hl & Hd & Ht).
    vm_compute in Hl. injection Hl as <- _. vm_compute in Hd. injection Hd as <-.
    vm_compute in Ht. discriminate Ht.
Defined.

(** Handlers that misbehave when they see a token agree with the sample ones. *)
Definition nosy (op : string) : Handler nat :=
  fun w req => if Token req =? "" then Sample.handler op w req else (100 + w, Panicked)%nat.
Definition nosy_reg : Registry nat := default {| handlers := ∅ |} (NewRegistry nosy).

Lemma token_never_reaches_handlers_witness :
  handleConn Sample.auth Sample.reg Sample.decode Sample.env Sample.api (Sample.line "ping") Sample.st0 =
  handleConn Sample.auth nosy_reg Sample.decode Sample.env Sample.api (Sample.line "ping") Sample.st0.
Proof.
  apply token_never_reaches_handlers. intros op. unfold Sample.reg, nosy_reg.
  destruct (NewRegistry_lookup Sample.handler) as (r1 & -> & H1).
  destruct (NewRegistry_lookup nosy) as (r2 & -> & H2). simpl. rewrite H1, H2.
  destruct (IsAllowed op); [|done]. intros w req Ht. unfold nosy. by rewrite Ht.
Defined.
