(* ===== verification/PanelJobs.v ===== *)
(** * The panel's job table and its worker ([api/internal/jobs/])

    The rows of the [jobs] table with one definition per statement of the
    repository, and the worker that claims a row, submits it to the Agent and
    follows it to an outcome. The Agent's answers and the database's failures are
    arguments; the clock is the database's [now()]. *)

From S2P Require Import Prelude GoStr GoTime Protocol.

#[local] Open Scope Z_scope.

(** ** Rows ([jobs.go]) *)
Inductive State := StatePending | StateRunning | StateSuccess | StateFailed | StateCancelled.

#[global] Instance State_eq_dec : EqDecision State.
Proof. solve_decision. Defined.

Definition Terminal (s : State) : bool :=
  match s with StateSuccess | StateFailed | StateCancelled => true | _ => false end.

Record Job := {
  Type_ : string;
  Status : State;
  Payload : data;
  Result : data;
  JError : option string;
  Progress : Z;
  Message : option string;
  CreatedBy : option string;
  ResourceType : option string;
  ResourceID : option string;
  CreatedAt : Z;
  StartedAt : option Z;
  CompletedAt : option Z;
}.

Inductive repo_err := ErrNotFound | ErrTerminal (s : State) | ErrDatabase.

(** The table by identifier, the database's clock, and which of the coming
    statements fail. *)
Record DB := { rows : gmap string Job; now : Z; down : list bool }.

Definition nullif (s : string) : option string := if (s =? "")%string then None else Some s.

Definition set_rows (r : gmap string Job) (db : DB) : DB :=
  {| rows := r; now := now db; down := down db |}.

(** A statement: it fails as a whole or takes effect as a whole. *)
Definition statement {A} (db : DB) (f : DB -> result repo_err A * DB) : result repo_err A * DB :=
  match down db with
  | true :: fs => (Err ErrDatabase, {| rows := rows db; now := now db; down := fs |})
  | false :: fs => f {| rows := rows db; now := now db; down := fs |}
  | [] => f db
  end.

Record CreateParams := {
  c_Type : string; c_Payload : data; c_CreatedBy : string;
  c_ResourceType : string; c_ResourceID : string;
}.

(** [Create]; the identifier is the database's. *)
Definition new_row (p : CreateParams) (t : Z) : Job := {|
  Type_ := c_Type p; Status := StatePending; Payload := c_Payload p; Result := ∅;
  JError := None; Progress := 0; Message := None; CreatedBy := nullif (c_CreatedBy p);
  ResourceType := nullif (c_ResourceType p); ResourceID := nullif (c_ResourceID p);
  CreatedAt := t; StartedAt := None; CompletedAt := None |}.

Definition Create (id : string) (p : CreateParams) (db : DB) : result repo_err Job * DB :=
  statement db (fun db =>
    let job := new_row p (now db) in (Ok job, set_rows (<[id := job]> (rows db)) db)).

Definition Get (id : string) (db : DB) : result repo_err Job * DB :=
  statement db (fun db =>
    (match rows db !! id with Some j => Ok j | None => Err ErrNotFound end, db)).

(** [ORDER BY created_at LIMIT 1] among the pending rows; the table's order breaks a tie. *)
Definition older (x : string * Job) (best : option (string * Job)) : option (string * Job) :=
  if bool_decide (Status (snd x) = StatePending) then
    match best with
    | Some y => if CreatedAt (snd x) <=? CreatedAt (snd y) then Some x else best
    | None => Some x
    end
  else best.
Definition oldest_pending (r : gmap string Job) : option (string * Job) :=
  foldr older None (map_to_list r).

Definition claimed (t : Z) (j : Job) : Job := {|
  Type_ := Type_ j; Status := StateRunning; Payload := Payload j; Result := Result j;
  JError := JError j; Progress := Progress j; Message := Message j; CreatedBy := CreatedBy j;
  ResourceType := ResourceType j; ResourceID := ResourceID j; CreatedAt := CreatedAt j;
  StartedAt := Some t; CompletedAt := CompletedAt j |}.

Definition Claim (db : DB) : result repo_err (string * Job) * DB :=
  statement db (fun db =>
    match oldest_pending (rows db) with
    | None => (Err ErrNotFound, db)
    | Some (id, j) =>
        let j' := claimed (now db) j in (Ok (id, j'), set_rows (<[id := j']> (rows db)) db)
    end).

Definition requeued (m : option string) (j : Job) : Job := {|
  Type_ := Type_ j; Status := StatePending; Payload := Payload j; Result := Result j;
  JError := JError j; Progress := 0; Message := m; CreatedBy := CreatedBy j;
  ResourceType := ResourceType j; ResourceID := ResourceID j; CreatedAt := CreatedAt j;
  StartedAt := None; CompletedAt := CompletedAt j |}.

Definition Requeue (id : string) (db : DB) : result repo_err unit * DB :=
  statement db (fun db =>
    match rows db !! id with
    | Some j => if bool_decide (Status j = StateRunning)
                then (Ok tt, set_rows (<[id := requeued None j]> (rows db)) db)
                else (Err ErrNotFound, db)
    | None => (Err ErrNotFound, db)
    end).

Definition progressed (percent : Z) (m : option string) (j : Job) : Job := {|
  Type_ := Type_ j; Status := Status j; Payload := Payload j; Result := Result j;
  JError := JError j; Progress := percent; Message := m; CreatedBy := CreatedBy j;
  ResourceType := ResourceType j; ResourceID := ResourceID j; CreatedAt := CreatedAt j;
  StartedAt := StartedAt j; CompletedAt := CompletedAt j |}.

Definition clamp_percent (percent : Z) : Z :=
  let percent := if percent <? 0 then 0 else percent in
  if 100 <? percent then 100 else percent.

(** [Repository.Progress]. *)
Definition set_progress (id : string) (percent : Z) (message : string) (db : DB)
  : result repo_err unit * DB :=
  statement db (fun db =>
    match rows db !! id with
    | Some j => if bool_decide (Status j = StateRunning)
                then (Ok tt, set_rows (<[id := progressed (clamp_percent percent) (nullif message) j]>
                                         (rows db)) db)
                else (Ok tt, db)
    | None => (Ok tt, db)
    end).

Definition finished (s : State) (percent : Z) (res : data) (err : option string) (t : Z) (j : Job)
  : Job := {|
  Type_ := Type_ j; Status := s; Payload := Payload j; Result := res; JError := err;
  Progress := percent; Message := Message j; CreatedBy := CreatedBy j;
  ResourceType := ResourceType j; ResourceID := ResourceID j; CreatedAt := CreatedAt j;
  StartedAt := StartedAt j; CompletedAt := Some t |}.

Definition Complete (id : string) (res : data) (db : DB) : result repo_err unit * DB :=
  statement db (fun db =>
    match rows db !! id with
    | Some j => (Ok tt, set_rows (<[id := finished StateSuccess 100 res (JError j) (now db) j]>
                                    (rows db)) db)
    | None => (Ok tt, db)
    end).

Definition Fail_ (id reason : string) (db : DB) : result repo_err unit * DB :=
  statement db (fun db =>
    match rows db !! id with
    | Some j => (Ok tt, set_rows (<[id := finished StateFailed (Progress j) (Result j) (Some reason)
                                            (now db) j]> (rows db)) db)
    | None => (Ok tt, db)
    end).

Definition cancelled (t : Z) (j : Job) : Job :=
  finished StateCancelled (Progress j) (Result j) (JError j) t j.

(** The UPDATE of [Cancel]: whether a pending row was there. *)
Definition cancel_pending (id : string) (db : DB) : result repo_err bool * DB :=
  statement db (fun db =>
    match rows db !! id with
    | Some j => if bool_decide (Status j = StatePending)
                then (Ok true, set_rows (<[id := cancelled (now db) j]> (rows db)) db)
                else (Ok false, db)
    | None => (Ok false, db)
    end).

Definition Cancel (id : string) (db : DB) : result repo_err unit * DB :=
  let '(r, db) := cancel_pending id db in
  match r with
  | Err e => (Err e, db)
  | Ok true => (Ok tt, db)
  | Ok false =>
      let '(g, db) := Get id db in
      match g with Ok j => (Err (ErrTerminal (Status j)), db) | Err e => (Err e, db) end
  end.

Definition restart_message := "Restarted after an interrupted run"%string.

Definition is_stale (t olderThan : Z) (j : Job) : bool :=
  bool_decide (Status j = StateRunning) &&
  match StartedAt j with Some s => s <? t - olderThan | None => false end.

Definition RequeueStale (olderThan : Z) (db : DB) : result repo_err Z * DB :=
  statement db (fun db =>
    (Ok (Z.of_nat (List.length (List.filter (is_stale (now db) olderThan) (map_to_list (rows db)).*2))),
     set_rows ((fun j => if is_stale (now db) olderThan j
                         then requeued (Some restart_message) j else j) <$> rows db) db)).

(** ** The worker ([worker.go]) *)
Definition DefaultPollInterval : Z := 1 * Second.
Definition DefaultAgentPollInterval : Z := Second / 2.
Definition DefaultJobTimeout : Z := 10 * Minute.
Definition DefaultStaleAfter : Z := 15 * Minute.

(** What the Agent's client can fail with. *)
Inductive client_err :=
| OperationFailed (e : Error) | Unavailable | TimedOut | OtherFailure.

Definition IsBusy (e : client_err) : bool :=
  match e with OperationFailed f => (Code f =? CodeBusy)%string | _ => false end.

Record AgentJob := {
  a_State : JobState; a_Progress : Z; a_Message : string; a_Result : data; a_Error : option Error;
}.

(** The states [dispatch] returns: the stored ones and "deferred". *)
Inductive Outcome := Deferred | Reached (s : State).

Definition describeFailure (e : client_err) : string :=
  match e with
  | OperationFailed f => Protocol.Message f
  | Unavailable => "The host agent is unavailable."
  | TimedOut => "The operation timed out."
  | OtherFailure => "The operation could not be completed."
  end.

Definition describeAgentError (e : option Error) : string :=
  match e with
  | None => "The operation failed on the host."
  | Some f =>
      let message := trim_space (Protocol.Message f) in
      if (message =? "")%string
      then ("The operation failed on the host (" ++ Code f ++ ").")%string
      else message
  end.

Definition timeout_message :=
  "The operation did not finish in time. It may still be running on the host."%string.
Definition cancelled_message := "The operation was cancelled on the host."%string.

(** The Agent's progress squeezed into 10..95. *)
Definition scaled (progress : Z) : Z := wrap64 (10 + Z.quot (wrap64 (progress * 85)) 100).

(** [follow]: the answers of the Agent to one poll after another, until the job's
    deadline, which ends the list. *)
Fixpoint follow (id : string) (lastProgress : Z) (polls : list (result client_err AgentJob)) (db : DB)
  : (Outcome * data * string) * DB :=
  match polls with
  | [] => ((Reached StateFailed, ∅, timeout_message), db)
  | Err _ :: polls => follow id lastProgress polls db
  | Ok j :: polls =>
      let report := negb (a_Progress j =? lastProgress) || negb (a_Message j =? "")%string in
      let db := if report then snd (set_progress id (scaled (a_Progress j)) (a_Message j) db) else db in
      let lastProgress := if report then a_Progress j else lastProgress in
      match a_State j with
      | JobSuccess => ((Reached StateSuccess, a_Result j, ""%string), db)
      | JobFailed => ((Reached StateFailed, a_Result j, describeAgentError (a_Error j)), db)
      | JobCancelled => ((Reached StateCancelled, ∅, cancelled_message), db)
      | _ => follow id lastProgress polls db
      end
  end.

(** What the world answers while one job is run. *)
Record Answers := {
  resolve_payload : result client_err (option data);
  submit : string -> string -> data -> result client_err string;
  polls : list (result client_err AgentJob);
}.

Definition dispatch (ans : Answers) (id : string) (job : Job) (db : DB)
  : (Outcome * data * string) * DB :=
  match resolve_payload ans with
  | Err e => ((Reached StateFailed, ∅, describeFailure e), db)
  | Ok resolved =>
      let payload := default (Payload job) resolved in
      match submit ans ("job_" ++ id) (Type_ job) payload with
      | Err e => if IsBusy e then ((Deferred, ∅, describeFailure e), db)
                 else ((Reached StateFailed, ∅, describeFailure e), db)
      | Ok _ =>
          let db := snd (set_progress id 5 "Dispatched to the host agent" db) in
          follow id (-1) (polls ans) db
      end
  end.

(** The worker's own memory: the back-off flag and what its observers were told. *)
Record Worker := { deferred : bool; told : list (string * State * data * string) }.

Definition execute (ans : Answers) (id : string) (job : Job) (w : Worker) (db : DB) : Worker * DB :=
  let '((outcome, res, failure), db) := dispatch ans id job db in
  match outcome with
  | Deferred =>
      let w := {| deferred := true; told := told w |} in
      let '(r, db) := Requeue id db in
      if is_ok r then (w, db) else (w, snd (Fail_ id failure db))
  | Reached s =>
      let db := match s with
                | StateSuccess => snd (Complete id res db)
                | _ => snd (Fail_ id failure db)
                end in
      ({| deferred := deferred w; told := (told w ++ [(id, s, res, failure)])%list |}, db)
  end.

Definition claimOne (ans : Answers) (w : Worker) (db : DB) : bool * Worker * DB :=
  match Claim db with
  | (Err _, db) => (false, w, db)
  | (Ok (id, job), db) => let '(w, db) := execute ans id job w db in (true, w, db)
  end.

(** The drain loop of [Run] between two ticks: one [Answers] per job taken. *)
Fixpoint drain (answers : list Answers) (w : Worker) (db : DB) : Worker * DB :=
  match answers with
  | [] => (w, db)
  | ans :: more =>
      let '(took, w, db) := claimOne ans w db in
      if negb took then (w, db)
      else if deferred w then ({| deferred := false; told := told w |}, db)
      else drain more w db
  end.

(** The durations a worker is built with: an option that is not positive takes its default. *)
Record Options := {
  PollInterval : Z; AgentPollInterval : Z; JobTimeout : Z; StaleAfter : Z;
}.

Definition or_default (v d : Z) : Z := if v <=? 0 then d else v.

Definition NewWorker (o : Options) : Options := {|
  PollInterval := or_default (PollInterval o) DefaultPollInterval;
  AgentPollInterval := or_default (AgentPollInterval o) DefaultAgentPollInterval;
  JobTimeout := or_default (JobTimeout o) DefaultJobTimeout;
  StaleAfter := or_default (StaleAfter o) DefaultStaleAfter |}.

(** [Run] up to its first wait: rows left running by a dead process are queued again,
    whatever the database says, and the queue is drained. *)
Definition start (o : Options) (answers : list Answers) (w : Worker) (db : DB) : Worker * DB :=
  drain answers w (snd (RequeueStale (StaleAfter o) db)).

(** ** Claiming *)

Lemma oldest_pending_some r id j :
  oldest_pending r = Some (id, j) ->
  r !! id = Some j /\ Status j = StatePending /\
  forall id' j', r !! id' = Some j' -> Status j' = StatePending -> CreatedAt j <= CreatedAt j'.
Proof.
  unfold oldest_pending. intros H.
  assert (Hl : forall l, match foldr older None l with
    | Some x => x ∈ l /\ Status (snd x) = StatePending /\
        forall y, y ∈ l -> Status (snd y) = StatePending -> CreatedAt (snd x) <= CreatedAt (snd y)
    | None => forall y, y ∈ l -> Status (snd y) <> StatePending
    end).
  { clear. induction l as [|x l IH]; simpl; [intros y Hy; by apply elem_of_nil in Hy|].
    unfold older at 1. case_bool_decide as Hx; destruct (foldr older None l) as [b|].
    - destruct IH as (Hb & Hp & Hmin). destruct (Z.leb_spec (CreatedAt (snd x)) (CreatedAt (snd b))).
      + split; [by left|]. split; [done|]. intros y [->|Hy]%elem_of_cons Hyp; [lia|].
        specialize (Hmin y Hy Hyp). lia.
      + split; [by right|]. split; [done|]. intros y [->|Hy]%elem_of_cons Hyp; [lia|by apply Hmin].
    - split; [by left|]. split; [done|]. intros y [->|Hy]%elem_of_cons Hyp; [lia|].
      by apply IH in Hy.
    - destruct IH as (Hb & Hp & Hmin). split; [by right|]. split; [done|].
      intros y [->|Hy]%elem_of_cons Hyp; [done|by apply Hmin].
    - intros y [->|Hy]%elem_of_cons; [done|by apply IH]. }
  specialize (Hl (map_to_list r)). rewrite H in Hl. destruct Hl as (Hin & Hp & Hmin).
  apply elem_of_map_to_list in Hin. split; [done|]. split; [done|].
  intros id' j' Hj' Hp'. apply (Hmin (id', j')); [by apply elem_of_map_to_list|done].
Qed.

Lemma oldest_pending_none r :
  oldest_pending r = None -> forall id j, r !! id = Some j -> Status j <> StatePending.
Proof.
  unfold oldest_pending. intros H.
  assert (Hl : forall l, foldr older None l = None ->
    forall y, y ∈ l -> Status (snd y) <> StatePending).
  { clear. induction l as [|x l IH]; simpl; intros H y Hy; [by apply elem_of_nil in Hy|].
    unfold older at 1 in H. case_bool_decide as Hx.
    - destruct (foldr older None l); [|done]. by case_match.
    - apply elem_of_cons in Hy as [->|Hy]; [done|by apply IH]. }
  intros id j Hj. apply (Hl (map_to_list r) H (id, j)). by apply elem_of_map_to_list.
Qed.

(** Claiming is first come, first served and exclusive. With the database up, [Claim] fails
    exactly when no job is pending; otherwise it takes a pending job none of the others is
    older than, marks it running from now, and leaves every other row alone, so that no
    later claim returns it before it has been requeued. *)
Theorem Claim_spec db :
  down db = [] ->
  match Claim db with
  | (Err e, db') => e = ErrNotFound /\ db' = db /\
      forall id j, rows db !! id = Some j -> Status j <> StatePending
  | (Ok (id, j'), db') => exists j, rows db !! id = Some j /\ Status j = StatePending /\
      (forall id2 j2, rows db !! id2 = Some j2 -> Status j2 = StatePending ->
         CreatedAt j <= CreatedAt j2) /\
      j' = claimed (now db) j /\ rows db' = <[id := j']> (rows db) /\
      (forall id2 j2 db2, Claim db' = (Ok (id2, j2), db2) -> id2 <> id)
  end.
Proof.
  intros Hd. unfold Claim at 1, statement. rewrite Hd.
  destruct (oldest_pending (rows db)) as [[id j]|] eqn:E.
  - apply oldest_pending_some in E as (Hj & Hp & Hmin). exists j. split_and!; try done.
    intros id2 j2 db2. unfold Claim, statement. simpl. rewrite Hd.
    destruct (oldest_pending _) as [[id3 j3]|] eqn:E3; [|done]. intros [= <- <- <-] ->.
    apply oldest_pending_some in E3 as (Hj3 & Hp3 & _). simpl in Hj3.
    rewrite lookup_insert_eq in Hj3. by simplify_eq.
  - split_and!; try done. by apply oldest_pending_none.
Qed.

Lemma Claim_spec_witness :
  let job t := new_row {| c_Type := "website.create"; c_Payload := ∅; c_CreatedBy := "";
                          c_ResourceType := ""; c_ResourceID := "" |} t in
  let db := {| rows := <["a" := job 5]> (<["b" := job 3]> ∅); now := 9; down := [] |} in
  exists j, fst (Claim db) = Ok ("b"%string, j) /\ rows db !! "b"%string = Some (job 3).
Proof.
  intros job db. pose proof (Claim_spec db eq_refl) as H.
  assert (E : fst (Claim db) = Ok ("b"%string, claimed 9 (job 3))) by (vm_compute; reflexivity).
  destruct (Claim db) as [r db']. simpl in E. subst r. destruct H as (j & Hj & _).
  exists (claimed 9 (job 3)). split; [reflexivity|]. vm_compute. reflexivity.
Defined.

(** ** The table's invariant *)

(** A row tells when it started and ended exactly as its status says. *)
Definition row_ok (j : Job) : Prop :=
  0 <= Progress j <= 100 /\
  match Status j with
  | StatePending => StartedAt j = None /\ CompletedAt j = None
  | StateRunning => is_Some (StartedAt j) /\ CompletedAt j = None
  | _ => is_Some (CompletedAt j)
  end.

Definition rows_ok (r : gmap string Job) : Prop := forall id j, r !! id = Some j -> row_ok j.
Definition table_ok (db : DB) : Prop := rows_ok (rows db).

(** One statement, by anybody, at any time; time passes and the database fails as it will. *)
Inductive db_step : DB -> unit -> DB -> Prop :=
| st_create id p db : rows db !! id = None -> db_step db tt (snd (Create id p db))
| st_claim db : db_step db tt (snd (Claim db))
| st_requeue id db : db_step db tt (snd (Requeue id db))
| st_progress id n m db : db_step db tt (snd (set_progress id n m db))
| st_complete id res db : db_step db tt (snd (Complete id res db))
| st_fail id reason db : db_step db tt (snd (Fail_ id reason db))
| st_cancel id db : db_step db tt (snd (Cancel id db))
| st_stale d db : db_step db tt (snd (RequeueStale d db))
| st_world t fs db : db_step db tt {| rows := rows db; now := t; down := fs |}.

Lemma statement_ind {A} (P : DB -> Prop) db (f : DB -> result repo_err A * DB) :
  (forall fs, P {| rows := rows db; now := now db; down := fs |}) ->
  (forall fs, P (snd (f {| rows := rows db; now := now db; down := fs |}))) ->
  P (snd (statement db f)).
Proof.
  intros Hp Hf. unfold statement. destruct db as [r t [|[] fs]]; simpl in *; [apply Hf|done|apply Hf].
Qed.

Lemma rows_ok_insert r id j : rows_ok r -> row_ok j -> rows_ok (<[id := j]> r).
Proof.
  intros Ht Hj id' j'. rewrite lookup_insert. case_decide; [by intros [= <-]|apply Ht].
Qed.

Lemma clamp_percent_range n : 0 <= clamp_percent n <= 100.
Proof.
  unfold clamp_percent. destruct (Z.ltb_spec n 0); cbv zeta.
  - by destruct (Z.ltb_spec 100 0); lia.
  - destruct (Z.ltb_spec 100 n); lia.
Qed.

Lemma finished_ok s p res err t j : Terminal s = true -> 0 <= p <= 100 ->
  row_ok (finished s p res err t j).
Proof. intros Hs Hp. split; [done|]. destruct s; try done; by eexists. Qed.

Lemma step_table_ok db u db' : table_ok db -> db_step db u db' -> table_ok db'.
Proof.
  unfold table_ok. intros Ht Hs. destruct Hs;
    unfold Create, Claim, Requeue, set_progress, Complete, Fail_, RequeueStale.
  - apply (statement_ind (fun db => rows_ok (rows db))); intros fs; [done|]. cbn. apply rows_ok_insert; [done|].
    split; [done|]. done.
  - apply (statement_ind (fun db => rows_ok (rows db))); intros fs; [done|]. cbn.
    destruct (oldest_pending (rows db)) as [[id j]|] eqn:E; [|done].
    apply oldest_pending_some in E as (Hj & Hp & _). apply rows_ok_insert; [done|].
    pose proof (Ht id j Hj) as [Hr Hst]. rewrite Hp in Hst. split; [done|]. simpl.
    split; [by eexists|tauto].
  - apply (statement_ind (fun db => rows_ok (rows db))); intros fs; [done|]. cbn. destruct (rows db !! id) as [j|] eqn:Ej; [|done].
    case_bool_decide as Hr; [|done]. apply rows_ok_insert; [done|].
    pose proof (Ht id j Ej) as [_ Hst]. rewrite Hr in Hst. split; [done|]. simpl. tauto.
  - apply (statement_ind (fun db => rows_ok (rows db))); intros fs; [done|]. cbn. destruct (rows db !! id) as [j|] eqn:Ej; [|done].
    case_bool_decide as Hr; [|done]. apply rows_ok_insert; [done|].
    pose proof (Ht id j Ej) as [_ Hst]. split; [apply clamp_percent_range|done].
  - apply (statement_ind (fun db => rows_ok (rows db))); intros fs; [done|]. cbn. destruct (rows db !! id) as [j|] eqn:Ej; [|done].
    apply rows_ok_insert; [done|]. by apply finished_ok.
  - apply (statement_ind (fun db => rows_ok (rows db))); intros fs; [done|]. cbn. destruct (rows db !! id) as [j|] eqn:Ej; [|done].
    apply rows_ok_insert; [done|]. apply finished_ok; [done|]. by apply (Ht id j Ej).
  - assert (Ht1 : rows_ok (rows (snd (cancel_pending id db)))).
    { unfold cancel_pending. apply (statement_ind (fun db => rows_ok (rows db))); intros fs; [done|]. cbn.
      destruct (rows db !! id) as [j|] eqn:Ej; [|done]. case_bool_decide; [|done].
      apply rows_ok_insert; [done|]. apply finished_ok; [done|]. by apply (Ht id j Ej). }
    unfold Cancel. destruct (cancel_pending id db) as [[[]|e] db1]; [done| |done].
    assert (Hg : rows_ok (rows (snd (Get id db1)))) by (unfold Get; apply (statement_ind (fun db => rows_ok (rows db))); intros fs; done).
    by destruct (Get id db1) as [[g|e] db2].
  - apply (statement_ind (fun db => rows_ok (rows db))); intros fs; [done|]. cbn. intros id j. simpl.
    rewrite lookup_fmap. intros (j0 & Hj0 & ->)%fmap_Some. destruct (is_stale _ _ j0) eqn:Es; [|by eapply Ht].
    unfold is_stale in Es. apply andb_true_iff in Es as [Es _]. bool_hyps.
    pose proof (Ht id j0 Hj0) as [_ Hst]. rewrite Es in Hst. split; [done|]. simpl. tauto.
  - done.
Qed.

(** No row ever contradicts itself. Whatever statements workers, requests and restarts
    interleave on the table, through any failures of the database, every job's progress is
    in 0..100, a pending job has neither started nor finished, a running one has started and
    not finished, and a finished one says when. *)
Theorem table_invariant db ls db' :
  table_ok db -> run db_step db ls db' -> table_ok db'.
Proof. intros Ht Hr. eapply run_invariant; [|exact Ht|exact Hr]. intros s l s'. apply step_table_ok. Qed.

Definition sample_params : CreateParams :=
  {| c_Type := "ssl.issue"; c_Payload := ∅; c_CreatedBy := "";
     c_ResourceType := "website"; c_ResourceID := "" |}.
Definition empty_db : DB := {| rows := ∅; now := 1; down := [] |}.

Lemma table_invariant_witness :
  let db := snd (Complete "j" ∅ (snd (set_progress "j" 250 "" (snd (Claim
              (snd (Create "j" sample_params empty_db))))))) in
  table_ok db /\ (Progress <$> rows db !! "j"%string) = Some 100.
Proof.
  intros db. split; [|vm_compute; reflexivity].
  apply (table_invariant empty_db [tt; tt; tt; tt]).
  - intros id j Hj. discriminate Hj.
  - eapply run_cons; [apply (st_create "j" sample_params); reflexivity|].
    eapply run_cons; [apply st_claim|]. eapply run_cons; [apply (st_progress "j" 250 "")|].
    eapply run_cons; [apply (st_complete "j" ∅)|]. apply run_nil.
Defined.

(** ** Running a job *)

(** What a worker's reports do: the row of [id], running, may have new progress. *)
Definition reported (id : string) (j : Job) (db db' : DB) : Prop :=
  now db' = now db /\ down db' = [] /\
  exists p m, rows db' = <[id := progressed p m j]> (rows db) /\ 0 <= p <= 100.

Lemma progressed_twice p m p' m' j : progressed p m (progressed p' m' j) = progressed p m j.
Proof. done. Qed.

Lemma set_progress_reported id j n m db0 db :
  reported id j db0 db -> Status j = StateRunning ->
  reported id j db0 (snd (set_progress id n m db)).
Proof.
  intros (Hn & Hd & p & m' & Hr & Hp) Hs. unfold set_progress, statement. rewrite Hd.
  rewrite Hr at 1. rewrite lookup_insert_eq. rewrite bool_decide_true by done. simpl.
  split; [done|]. split; [done|]. exists (clamp_percent n), (nullif m).
  rewrite Hr. rewrite progressed_twice. split; [apply insert_insert_eq|apply clamp_percent_range].
Qed.

Lemma follow_reported id j last polls db0 db :
  reported id j db0 db -> Status j = StateRunning ->
  exists s res failure db', follow id last polls db = ((Reached s, res, failure), db') /\
    Terminal s = true /\ reported id j db0 db'.
Proof.
  intros Hr Hs. revert last db Hr. induction polls as [|[a|e] polls IH]; intros last db Hr.
  - by do 4 eexists.
  - cbn [follow]. set (rep := negb _ || negb _).
    assert (Hr' : reported id j db0
      (if rep then snd (set_progress id (scaled (a_Progress a)) (a_Message a) db) else db)).
    { destruct rep; [by apply set_progress_reported|done]. }
    destruct (a_State a); try (by apply IH); by do 4 eexists.
  - apply IH. done.
Qed.

Definition stored (s : State) : State :=
  match s with StateSuccess => StateSuccess | _ => StateFailed end.

(** What one turn of the worker did to the row it claimed. *)
Inductive turn (id : string) (j j' : Job) (t : Z) (w w' : Worker) : Prop :=
| turn_deferred :
    Status j' = StatePending -> CreatedAt j' = CreatedAt j -> deferred w' = true ->
    told w' = told w -> turn id j j' t w w'
| turn_finished s res failure :
    Terminal s = true -> Status j' = stored s -> CompletedAt j' = Some t ->
    (s = StateSuccess -> Progress j' = 100 /\ Result j' = res) ->
    (s <> StateSuccess -> JError j' = Some failure) ->
    deferred w' = deferred w -> told w' = (told w ++ [(id, s, res, failure)])%list ->
    turn id j j' t w w'.

Lemma execute_turn ans id j w db :
  down db = [] -> Status j = StateRunning -> rows db !! id = Some j -> 0 <= Progress j <= 100 ->
  exists w' db' j', execute ans id j w db = (w', db') /\ down db' = [] /\ now db' = now db /\
    rows db' = <[id := j']> (rows db) /\ turn id j j' (now db) w w'.
Proof.
  intros Hd Hs Hj Hp.
  assert (H0 : reported id j db db).
  { split; [done|]. split; [done|]. exists (Progress j), (Message j). split; [|done].
    rewrite insert_id; [done|]. rewrite Hj. by destruct j. }
  assert (Hdisp : exists out res failure db', dispatch ans id j db = ((out, res, failure), db') /\
    reported id j db db' /\ (out = Deferred \/ exists s, out = Reached s /\ Terminal s = true)).
  { unfold dispatch. destruct (resolve_payload ans) as [resolved|e].
    2:{ do 4 eexists. split; [done|]. split; [done|]. right. by eexists. }
    destruct (submit ans _ _ _) as [aid|e].
    - destruct (follow_reported id j (-1) (polls ans) db
        (snd (set_progress id 5 "Dispatched to the host agent" db)))
        as (s & res & failure & db' & -> & Ht & Hr); [by apply set_progress_reported|done|].
      do 4 eexists. split; [done|]. split; [done|]. right. by eexists.
    - destruct (IsBusy e); do 4 eexists; (split; [done|]); (split; [done|]); [by left|right; by eexists]. }
  destruct Hdisp as (out & res & failure & db1 & Hdisp & (Hn & Hd1 & p & m & Hr & Hpr) & Hout).
  unfold execute. rewrite Hdisp. destruct Hout as [->|(s & -> & Ht)].
  - unfold Requeue, statement. rewrite Hd1, Hr, lookup_insert_eq.
    rewrite bool_decide_true by done. cbn [is_ok].
    do 3 eexists. split; [done|]. split; [done|]. split; [done|].
    split; [simpl; apply insert_insert_eq|]. by apply turn_deferred.
  - assert (Hfin : exists j', turn id j j' (now db) w
        {| deferred := deferred w; told := (told w ++ [(id, s, res, failure)])%list |} /\
      exists db', match s with
                  | StateSuccess => snd (Complete id res db1)
                  | _ => snd (Fail_ id failure db1) end = db' /\
        down db' = [] /\ now db' = now db /\ rows db' = <[id := j']> (rows db)).
    { unfold Complete, Fail_, statement. rewrite Hd1, Hr, lookup_insert_eq, Hn.
      destruct (decide (s = StateSuccess)) as [->|Hne].
      - eexists. split.
        2:{ eexists. split; [reflexivity|]. simpl. split; [done|]. split; [done|].
            apply insert_insert_eq. }
        by eapply turn_finished.
      - eexists. split.
        2:{ eexists. split; [by destruct s|]. simpl. split; [done|]. split; [done|].
            apply insert_insert_eq. }
        eapply turn_finished; try done. by destruct s. }
    destruct Hfin as (j' & Hturn & db' & -> & Hd' & Hn' & Hr').
    by exists {| deferred := deferred w; told := (told w ++ [(id, s, res, failure)])%list |}, db', j'.
Qed.

Lemma claimOne_turn ans w db :
  down db = [] -> table_ok db ->
  match oldest_pending (rows db) with
  | None => claimOne ans w db = (false, w, db)
  | Some (id, j) => exists w' db' j', claimOne ans w db = (true, w', db') /\
      down db' = [] /\ rows db' = <[id := j']> (rows db) /\ turn id j j' (now db) w w'
  end.
Proof.
  intros Hd Hok. unfold claimOne, Claim, statement. rewrite Hd.
  destruct (oldest_pending (rows db)) as [[id j]|] eqn:E; [|done].
  apply oldest_pending_some in E as (Hj & Hp & _).
  destruct (execute_turn ans id (claimed (now db) j) w
              (set_rows (<[id := claimed (now db) j]> (rows db)) db))
    as (w' & db' & j' & Hx & Hd' & Hn' & Hr' & Ht).
  - done.
  - done.
  - apply lookup_insert_eq.
  - apply (Hok id j Hj).
  - rewrite Hx. exists w', db', j'. split; [done|]. split; [done|].
    split; [rewrite Hr'; simpl; apply insert_insert_eq|].
    destruct Ht; [by apply turn_deferred|by eapply turn_finished].
Qed.

(** C30: the worker always brings the job it takes to an end. With the database up, one turn
    takes the oldest pending job whatever the Agent answers (nothing, errors, any
    sequence of states until the deadline) and leaves its row either pending again in
    its old place, because the Agent said it was busy, with the back-off flag set and no observer
    told; or finished as of now, successful with the Agent's result at 100 percent or
    failed with the reason the observers were told, once. No other row changes, and
    without a pending job nothing does. *)
Theorem claimOne_settles ans w db :
  down db = [] -> table_ok db ->
  match oldest_pending (rows db) with
  | None => claimOne ans w db = (false, w, db)
  | Some (id, j) => exists w' db' j', claimOne ans w db = (true, w', db') /\
      down db' = [] /\ rows db' = <[id := j']> (rows db) /\ turn id j j' (now db) w w'
  end.
Proof. apply claimOne_turn. Qed.

Definition ok_answers (final : JobState) : Answers := {|
  resolve_payload := Ok None;
  submit _ _ _ := Ok "a1"%string;
  polls := [Err OtherFailure;
            Ok {| a_State := JobRunning; a_Progress := 40; a_Message := ""; a_Result := ∅; a_Error := None |};
            Ok {| a_State := final; a_Progress := 40; a_Message := ""; a_Result := ∅; a_Error := None |}];
|}.
Definition idle : Worker := {| deferred := false; told := [] |}.
Definition one_job : DB := snd (Create "j" sample_params empty_db).

Lemma one_job_ok : table_ok one_job.
Proof.
  intros id j Hj. change (rows one_job) with (<["j"%string := new_row sample_params 1]> (∅ : gmap string Job)) in Hj.
  apply lookup_insert_Some in Hj as [[_ <-]|[_ Hj]]; [by split|discriminate Hj].
Qed.

Lemma claimOne_settles_witness :
  exists w' db', claimOne (ok_answers JobSuccess) idle one_job = (true, w', db') /\ down db' = [].
Proof.
  pose proof (claimOne_settles (ok_answers JobSuccess) idle one_job eq_refl one_job_ok) as H.
  change (oldest_pending (rows one_job)) with (Some ("j"%string, new_row sample_params 1)) in H.
  destruct H as (w' & db' & j' & Hc & Hd & _). exists w', db'. split; [exact Hc|exact Hd].
Defined.

(** ** Draining *)

Lemma turn_row_ok id j j' t w w' : turn id j j' t w w' -> Status j' <> StateRunning.
Proof. intros [Hs _ _ _|s ? ? ? Hs _ _ _ _ _]; rewrite Hs; [done|by destruct s]. Qed.

Lemma claimOne_table_ok ans w db : table_ok db -> table_ok (snd (claimOne ans w db)).
Proof.
  assert (Hprog : forall id n m db, table_ok db -> table_ok (snd (set_progress id n m db)))
    by (intros; eapply step_table_ok; [done|constructor]).
  assert (Hfol : forall id polls last db, table_ok db -> table_ok (snd (follow id last polls db))).
  { intros id polls. induction polls as [|[a|e] polls IH]; intros last d Hd; [done| |by apply IH].
    cbn [follow]. set (rep := negb _ || negb _).
    assert (table_ok (if rep then snd (set_progress id (scaled (a_Progress a)) (a_Message a) d) else d))
      by (destruct rep; auto).
    destruct (a_State a); try done; by apply IH. }
  intros Hok. unfold claimOne.
  assert (Hc : table_ok (snd (Claim db))) by (eapply step_table_ok; [done|constructor]).
  destruct (Claim db) as [[[id j]|e] db1]; [|done]. simpl in Hc.
  assert (Hd : table_ok (snd (dispatch ans id j db1))).
  { unfold dispatch. destruct (resolve_payload ans); [|done].
    destruct (submit ans _ _ _) as [x|e]; [apply Hfol; auto|by destruct (IsBusy e)]. }
  unfold execute. destruct (dispatch ans id j db1) as [[[out res] failure] db2]. simpl in Hd.
  destruct out as [|s].
  - assert (Hq : table_ok (snd (Requeue id db2))) by (eapply step_table_ok; [done|constructor]).
    destruct (Requeue id db2) as [r db3]. simpl in Hq. destruct (is_ok r); [done|].
    simpl. eapply step_table_ok; [done|constructor].
  - simpl. destruct s; eapply step_table_ok; try done; constructor.
Qed.

Definition pending_count (r : gmap string Job) : nat :=
  size (filter (fun '(_, j) => Status j = StatePending) r).

Lemma pending_count_finish r id j j' :
  r !! id = Some j -> Status j = StatePending -> Status j' <> StatePending ->
  pending_count r = S (pending_count (<[id := j']> r)).
Proof.
  intros Hj Hp Hn. unfold pending_count.
  rewrite (map_filter_insert_False _ r id j') by done.
  rewrite map_filter_delete.
  rewrite map_size_delete_Some.
  - destruct (size _) eqn:E; [|done]. apply map_size_empty_inv in E. exfalso.
    assert (Hx : filter (fun '(_, j) => Status j = StatePending) r !! id = Some j)
      by (apply map_lookup_filter_Some; done).
    by rewrite E in Hx.
  - exists j. by apply map_lookup_filter_Some.
Qed.

(** Answers under which the Agent never says it is busy. *)
Definition not_busy (ans : Answers) : Prop :=
  forall rid op payload e, submit ans rid op payload = Err e -> IsBusy e = false.

Lemma not_busy_finishes ans id j db :
  not_busy ans -> fst (fst (fst (dispatch ans id j db))) <> Deferred.
Proof.
  intros Hn. unfold dispatch. destruct (resolve_payload ans); [|done].
  destruct (submit ans _ _ _) as [x|e] eqn:E; [|by rewrite (Hn _ _ _ _ E)].
  generalize (snd (set_progress id 5 "Dispatched to the host agent" db)), (-1).
  induction (polls ans) as [|[aj|er] ps IH]; intros d l; [done| |apply IH].
  cbn [follow]. destruct (a_State aj); try done; apply IH.
Qed.

Lemma drain_core answers w db :
  down db = [] -> table_ok db -> deferred w = false -> Forall not_busy answers ->
  (pending_count (rows db) <= List.length answers)%nat ->
  oldest_pending (rows (snd (drain answers w db))) = None /\
  (List.length (told (fst (drain answers w db))) = List.length (told w) + pending_count (rows db))%nat.
Proof.
  revert w db. induction answers as [|ans answers IH]; intros w db Hd Hok Hw Hb Hl.
  - simpl in Hl. cbn [drain fst snd]. destruct (oldest_pending (rows db)) as [[id j]|] eqn:E.
    + exfalso. apply oldest_pending_some in E as (Hj & Hp & _).
      assert (Hz : pending_count (rows db) = 0%nat) by lia.
      apply map_size_empty_inv in Hz.
      assert (Hx : filter (fun '(_, j) => Status j = StatePending) (rows db) !! id = Some j)
        by (apply map_lookup_filter_Some; done).
      by rewrite Hz in Hx.
    + split; [done|]. lia.
  - cbn [drain]. pose proof (claimOne_turn ans w db Hd Hok) as Hc.
    pose proof (claimOne_table_ok ans w db Hok) as Hok'.
    apply list.Forall_cons in Hb as [Hb1 Hb].
    destruct (oldest_pending (rows db)) as [[id j]|] eqn:E.
    + destruct Hc as (w' & db' & j' & Hc & Hd' & Hr & Ht).
      assert (Hfin : deferred w' = false /\ Status j' <> StatePending /\
                     List.length (told w') = S (List.length (told w))).
      { destruct Ht as [_ _ Hdef Htold|s res f Hs Hst _ _ _ Hdef Htold].
        - exfalso. unfold claimOne, Claim, statement in Hc. rewrite Hd, E in Hc.
          unfold execute in Hc.
          pose proof (not_busy_finishes ans id (claimed (now db) j)
            (set_rows (<[id := claimed (now db) j]> (rows db)) db) Hb1) as Hnd.
          destruct (dispatch ans id _ _) as [[[out res] failure] db2]. simpl in Hnd.
          destruct out as [|s]; [done|]. simplify_eq. simpl in Htold.
          apply (f_equal List.length) in Htold. rewrite length_app in Htold. simpl in Htold. lia.
        - split_and!; [congruence|rewrite Hst; by destruct s|].
          rewrite Htold, length_app. simpl. lia. }
      destruct Hfin as (Hdef & Hst & Hlen). rewrite Hc in Hok' |- *. cbn [negb snd] in *.
      rewrite Hdef. apply oldest_pending_some in E as (Hj & Hp & _).
      pose proof (pending_count_finish (rows db) id j j' Hj Hp Hst) as Hcount.
      rewrite <- Hr in Hcount. destruct (IH w' db' Hd' Hok' Hdef Hb) as [Hn Htold];
        [simpl in Hl; lia|]. split; [done|]. rewrite Htold, Hlen. lia.
    + rewrite Hc. cbn [negb fst snd]. split; [done|].
      destruct (pending_count (rows db)) eqn:Ec; [lia|]. exfalso.
      unfold pending_count in Ec.
      assert (Hne : filter (fun '(_, j) => Status j = StatePending) (rows db) <> ∅).
      { intros He. rewrite He, map_size_empty in Ec. done. }
      apply map_choose in Hne as (i & x & Hx). apply map_lookup_filter_Some in Hx as [Hx Hp].
      by apply (oldest_pending_none _ E i x).
Qed.

(** The queue is emptied. With the database up and an Agent that never says it is
    busy, one drain with a turn for each pending job leaves none pending, and the observers
    have been told of exactly one outcome per job that was. *)
Theorem drain_empties answers w db :
  down db = [] -> table_ok db -> deferred w = false -> Forall not_busy answers ->
  (pending_count (rows db) <= List.length answers)%nat ->
  oldest_pending (rows (snd (drain answers w db))) = None /\
  (List.length (told (fst (drain answers w db))) = List.length (told w) + pending_count (rows db))%nat.
Proof. apply drain_core. Qed.

Lemma drain_empties_witness :
  oldest_pending (rows (snd (drain [ok_answers JobSuccess] idle one_job))) = None.
Proof.
  apply (drain_empties [ok_answers JobSuccess] idle one_job eq_refl one_job_ok eq_refl).
  - apply Forall_cons; [|constructor]. intros ? ? ? ? H. discriminate H.
  - vm_compute. constructor.
Defined.

(** ** What a restart does to interrupted work *)

Lemma requeue_stale_table_ok d db : table_ok db -> table_ok (snd (RequeueStale d db)).
Proof. intros Ht. eapply step_table_ok; [exact Ht|constructor]. Qed.

Lemma drain_keeps_running answers w db id j :
  down db = [] -> table_ok db -> rows db !! id = Some j -> Status j = StateRunning ->
  rows (snd (drain answers w db)) !! id = Some j.
Proof.
  revert w db. induction answers as [|ans answers IH]; intros w db Hd Hok Hj Hs; [done|].
  cbn [drain]. pose proof (claimOne_turn ans w db Hd Hok) as Hc.
  pose proof (claimOne_table_ok ans w db Hok) as Hok'.
  destruct (oldest_pending (rows db)) as [[id2 j2]|] eqn:E; [|by rewrite Hc].
  destruct Hc as (w' & db' & j' & Hc & Hd' & Hr & _). rewrite Hc in Hok' |- *.
  cbn [negb snd] in *. apply oldest_pending_some in E as (Hj2 & Hp & _).
  assert (Hne : id2 <> id) by (intros ->; simplify_eq; congruence).
  assert (Hj' : rows db' !! id = Some j) by (rewrite Hr, lookup_insert_ne by done; exact Hj).
  destruct (deferred w'); [exact Hj'|by apply IH].
Qed.

(** The rows of a process that died are requeued only if they started long enough ago:
    a younger one is not touched at all by the next process. *)
Lemma interrupted_job_stuck o answers w db id j s :
  down db = [] -> table_ok db -> rows db !! id = Some j -> Status j = StateRunning ->
  StartedAt j = Some s -> now db - StaleAfter o <= s ->
  rows (snd (start o answers w db)) !! id = Some j.
Proof.
  intros Hd Hok Hj Hs Hst Hle. unfold start.
  apply drain_keeps_running; [..|done].
  - unfold RequeueStale, statement. by rewrite Hd.
  - by apply requeue_stale_table_ok.
  - unfold RequeueStale, statement. rewrite Hd. simpl. rewrite lookup_fmap, Hj. simpl.
    unfold is_stale. rewrite Hst. destruct (Z.ltb_spec s (now db - StaleAfter o)); [lia|].
    by rewrite andb_false_r.
Qed.

Lemma requeue_stale_requeues d db id j s :
  down db = [] -> rows db !! id = Some j -> Status j = StateRunning ->
  StartedAt j = Some s -> s < now db - d ->
  rows (snd (RequeueStale d db)) !! id = Some (requeued (Some restart_message) j).
Proof.
  intros Hd Hj Hs Hst Hlt. unfold RequeueStale, statement. rewrite Hd. simpl.
  rewrite lookup_fmap, Hj. simpl. unfold is_stale. rewrite Hst.
  rewrite bool_decide_true by done. destruct (Z.ltb_spec s (now db - d)); [done|lia].
Qed.

Lemma small_in_int z : 0 <= z <= 10000 -> in_int z = true.
Proof.
  intros Hz. unfold in_int, int_min, int_max.
  apply andb_true_iff. split; apply Z.leb_le; lia.
Qed.

Lemma scaled_range p : 0 <= p <= 100 -> 10 <= scaled p <= 95.
Proof.
  intros Hp. assert (Hq : 0 <= Z.quot (p * 85) 100 <= 85).
  { rewrite Z.quot_div_nonneg by lia. split; [apply Z.div_pos; lia|].
    apply Z.div_le_upper_bound; lia. }
  unfold scaled. rewrite (wrap64_id (p * 85)) by (apply small_in_int; lia).
  rewrite wrap64_id by (apply small_in_int; lia). lia.
Qed.

(** A job the Agent cancelled is stored as failed, while the observers are told it was
    cancelled. *)
Lemma agent_cancelled_is_stored_failed :
  let '(_, w, db) := claimOne (ok_answers JobCancelled) idle one_job in
  (Status <$> rows db !! "j"%string) = Some StateFailed /\ told w = [("j"%string, StateCancelled, ∅, cancelled_message)].
Proof. vm_compute. split; reflexivity. Qed.
