(* ===== verification/RateLimit.v ===== *)
(** * The fixed-window limiter ([api/internal/ratelimit/ratelimit.go])

    Counters in Redis, each with the instant it expires, and the two operations of
    the limiter. Redis's commands are atomic and may fail before or after they take effect;
    instants are its milliseconds. *)

From S2P Require Import Prelude Store GoStr GoTime.

#[local] Open Scope Z_scope.

Record Counter := { count : Z; expiry : option Z }.
Record Redis := { counters : gmap string Counter; faults : list fault }.

Definition live (t : Z) (c : Counter) : bool :=
  match expiry c with Some e => t <? e | None => true end.

(** The key as Redis sees it at [t]. *)
Definition find (t : Z) (key : string) (r : Redis) : option Counter :=
  match counters r !! key with
  | Some c => if live t c then Some c else None
  | None => None
  end.

Definition set_counters (m : gmap string Counter) (r : Redis) : Redis :=
  {| counters := m; faults := faults r |}.

Definition command {A} (f : Redis -> option A * Redis) (r : Redis) : option A * Redis :=
  match faults r with
  | [] => f r
  | Fine :: fs => f {| counters := counters r; faults := fs |}
  | NotSent :: fs => (None, {| counters := counters r; faults := fs |})
  | NoReply :: fs => (None, snd (f {| counters := counters r; faults := fs |}))
  end.

(** The script: INCR, then PEXPIRE when the key has no expiry (which deletes it if the time
    is not positive). INCR fails on the largest integer. *)
Definition consume (key : string) (window : Z) (t : Z) : Redis -> option Z * Redis :=
  command (fun r =>
    let old := default {| count := 0; expiry := None |} (find t key r) in
    if count old =? int_max then (None, r)
    else
      let n := count old + 1 in
      (Some n,
       match expiry old with
       | Some _ => set_counters (<[key := {| count := n; expiry := expiry old |}]> (counters r)) r
       | None => if window <=? 0 then set_counters (delete key (counters r)) r
                 else set_counters (<[key := {| count := n; expiry := Some (t + window) |}]>
                                      (counters r)) r
       end)).

(** TTL, in seconds rounded to the nearest; negative when there is nothing to tell. *)
Definition ttl (key : string) (t : Z) : Redis -> option Z * Redis :=
  command (fun r =>
    (Some match find t key r with
          | None => -2
          | Some c => match expiry c with
                      | None => -1
                      | Some e => Second * Z.quot (e - t + 500) 1000
                      end
          end, r)).

Record Limiter := { prefix : string; limit : Z; window : Z }.

Record Result := { Allowed : bool; Remaining : Z; RetryAfter : Z }.

Definition Millisecond : Z := 10 ^ 6.
Definition Milliseconds (d : Z) : Z := Z.quot d Millisecond.

Definition Allow (l : Limiter) (key : string) (t : Z) (r : Redis) : option Result * Redis :=
  let redisKey := (prefix l ++ key)%string in
  let '(counted, r) := consume redisKey (Milliseconds (window l)) t r in
  match counted with
  | None => (None, r)
  | Some n =>
      if limit l <? n then
        let '(remains, r) := ttl redisKey t r in
        let retry := match remains with
                     | Some d => if d <? 0 then window l else d
                     | None => window l
                     end in
        (Some {| Allowed := false; Remaining := 0; RetryAfter := retry |}, r)
      else (Some {| Allowed := true; Remaining := wrap64 (limit l - n); RetryAfter := 0 |}, r)
  end.

Definition Reset (l : Limiter) (key : string) (r : Redis) : option unit * Redis :=
  command (fun r => (Some tt, set_counters (delete (prefix l ++ key)%string (counters r)) r)) r.

(** ** A history of calls *)
Inductive call := CallAllow (key : string) | CallReset (key : string).

(** Making calls at the given instants; each [Allow] that was granted is listed. *)
Fixpoint history (l : Limiter) (calls : list (Z * call)) (r : Redis) : list (Z * string) * Redis :=
  match calls with
  | [] => ([], r)
  | (t, CallAllow key) :: calls =>
      let '(res, r) := Allow l key t r in
      let '(granted, r) := history l calls r in
      (match res with
       | Some a => if Allowed a then (t, key) :: granted else granted
       | None => granted
       end, r)
  | (_, CallReset key) :: calls => history l calls (snd (Reset l key r))
  end.

Definition granted_to (key : string) (g : list (Z * string)) : Z :=
  Z.of_nat (length (filter (fun x => snd x = key) g)).

(** ** How many attempts a window lets through *)

Lemma granted_to_cons key t k g :
  granted_to key ((t, k) :: g) = (if decide (k = key) then 1 else 0) + granted_to key g.
Proof. unfold granted_to. rewrite filter_cons. simpl. destruct (decide _); simpl; lia. Qed.

(** What [Allow] does to a key, and when it grants. *)
Definition bumped (l : Limiter) (k : string) (t : Z) (r r' : Redis) : Prop :=
  let old := default {| count := 0; expiry := None |} (find t k r) in
  counters r' = <[k := {| count := count old + 1;
                          expiry := Some (default (t + Milliseconds (window l)) (expiry old)) |}]> (counters r).

Lemma consume_cases l k t r :
  0 < Milliseconds (window l) ->
  match consume k (Milliseconds (window l)) t r with
  | (Some n, r') => bumped l k t r r' /\
      n = count (default {| count := 0; expiry := None |} (find t k r)) + 1
  | (None, r') => counters r' = counters r \/ bumped l k t r r'
  end.
Proof.
  intros Hw. unfold consume, command, bumped.
  assert (Hf : forall fs, find t k {| counters := counters r; faults := fs |} = find t k r) by done.
  destruct (faults r) as [|[] fs]; try (by left); rewrite ?Hf;
    set (old := default _ _); destruct (Z.eqb_spec (count old) int_max); cbn; try (by left);
    destruct (expiry old) eqn:He; cbn; try (destruct (Z.leb_spec (Milliseconds (window l)) 0); [lia|]); cbn;
    rewrite ?He; try (by split); by right.
Qed.

Lemma Allow_cases l key t r :
  0 < Milliseconds (window l) ->
  let k := (prefix l ++ key)%string in
  let n := count (default {| count := 0; expiry := None |} (find t k r)) + 1 in
  match Allow l key t r with
  | (Some a, r') => bumped l k t r r' /\ Allowed a = (n <=? limit l)
  | (None, r') => counters r' = counters r \/ bumped l k t r r'
  end.
Proof.
  intros Hw k n. unfold Allow. pose proof (consume_cases l k t r Hw) as Hc. fold k.
  destruct (consume _ _ _ _) as [[m|] r']; [|done]. destruct Hc as [Hb ->]. fold n.
  destruct (Z.ltb_spec (limit l) n); [|by destruct (Z.leb_spec n (limit l)); [|lia]].
  destruct (ttl _ _ r') as [d r2] eqn:Ht.
  assert (counters r2 = counters r').
  { unfold ttl, command in Ht. by destruct (faults r') as [|[] fs]; simplify_eq. }
  split; [unfold bumped in *; congruence|]. by destruct (Z.leb_spec n (limit l)); [lia|].
Qed.

Lemma Reset_cases l key r r' o :
  Reset l key r = (o, r') ->
  counters r' = counters r \/ counters r' = delete (prefix l ++ key)%string (counters r).
Proof.
  unfold Reset, command. intros H. destruct (faults r) as [|[] fs]; simplify_eq; auto.
Qed.

(** What a key may still be granted before [deadline], if no call comes before [from]. *)
Definition worth (l : Limiter) (key : string) (from deadline : Z) (r : Redis) : Z :=
  let whole := Z.max 0 (limit l) in
  match counters r !! (prefix l ++ key)%string with
  | None => whole
  | Some c =>
      let rest := Z.max 0 (whole - count c) in
      match expiry c with
      | None => rest
      | Some e => if deadline <=? e then rest else if e <=? from then whole else rest + whole
      end
  end.

Definition within (from deadline : Z) (calls : list (Z * call)) : Prop :=
  Forall (fun x => from <= fst x < deadline) calls.
Definition no_reset (key : string) (calls : list (Z * call)) : Prop :=
  Forall (fun x => snd x <> CallReset key) calls.

Lemma prefix_inj p a b : (p ++ a = p ++ b)%string -> a = b.
Proof. induction p as [|c p IH]; [done|]. simpl. intros [= H]. by apply IH. Qed.

Lemma worth_same l key from deadline r r' :
  counters r' !! (prefix l ++ key)%string = counters r !! (prefix l ++ key)%string ->
  worth l key from deadline r' = worth l key from deadline r.
Proof. unfold worth. by intros ->. Qed.

Lemma worth_bumped l key from deadline t r r' :
  from <= t < deadline -> deadline <= from + Milliseconds (window l) ->
  bumped l (prefix l ++ key) t r r' ->
  worth l key from deadline r' +
    (if count (default {| count := 0; expiry := None |} (find t (prefix l ++ key) r)) + 1 <=? limit l
     then 1 else 0) <= worth l key from deadline r.
Proof.
  intros Ht Hd Hb. unfold bumped, find in *. unfold worth at 1. rewrite Hb, lookup_insert_eq. clear Hb r'.
  unfold worth. destruct (counters r !! _) as [[n [e|]]|]; cbn; unfold live; cbn.
  - destruct (Z.ltb_spec t e); cbn; repeat case_match; bool_hyps; lia.
  - repeat case_match; bool_hyps; lia.
  - repeat case_match; bool_hyps; lia.
Qed.

Lemma granted_worth l key from deadline calls r :
  0 < Milliseconds (window l) -> deadline <= from + Milliseconds (window l) ->
  within from deadline calls -> no_reset key calls ->
  granted_to key (fst (history l calls r)) <= worth l key from deadline r.
Proof.
  intros Hw Hd. revert r. induction calls as [|[t [k|k]] calls IH]; intros r Hin Hno.
  - unfold granted_to, worth. simpl. repeat case_match; lia.
  - apply list.Forall_cons in Hin as [Ht Hin]. apply list.Forall_cons in Hno as [_ Hno]. simpl in Ht.
    cbn [history]. pose proof (Allow_cases l k t r Hw) as Ha. cbv zeta in Ha.
    destruct (Allow l k t r) as [res r']. pose proof (IH r' Hin Hno) as IH'.
    destruct (history l calls r') as [g r'']. cbn [fst] in *.
    assert (Hother : k <> key -> bumped l (prefix l ++ k) t r r' ->
      worth l key from deadline r' = worth l key from deadline r).
    { intros Hne Hb. apply worth_same. rewrite Hb, lookup_insert_ne; [done|].
      intros Heq%prefix_inj. congruence. }
    destruct res as [a|].
    + destruct Ha as [Hb Hal]. rewrite Hal. destruct (decide (k = key)) as [->|Hne].
      * pose proof (worth_bumped l key from deadline t r r' Ht Hd Hb) as Hwb.
        destruct (_ <=? limit l); rewrite ?granted_to_cons, ?decide_True by done; lia.
      * rewrite <- (Hother Hne Hb). destruct (_ <=? limit l); [|done].
        rewrite granted_to_cons, decide_False by done. lia.
    + destruct Ha as [Hs|Hb]; [rewrite <- (worth_same l key from deadline r r') by (by rewrite Hs); done|].
      destruct (decide (k = key)) as [->|Hne]; [|by rewrite <- (Hother Hne Hb)].
      pose proof (worth_bumped l key from deadline t r r' Ht Hd Hb) as Hwb.
      destruct (_ <=? limit l); lia.
  - apply list.Forall_cons in Hin as [Ht Hin]. apply list.Forall_cons in Hno as [Hk Hno]. simpl in Hk.
    cbn [history]. destruct (Reset l k r) as [o r'] eqn:Hr. simpl.
    rewrite <- (worth_same l key from deadline r r'); [by apply IH|].
    apply Reset_cases in Hr as [->| ->]; [done|]. rewrite lookup_delete_ne; [done|].
    intros Heq%prefix_inj. congruence.
Qed.

(** Counts are never negative. *)
Definition counts_ok (r : Redis) : Prop := forall k c, counters r !! k = Some c -> 0 <= count c.

Lemma bumped_ok l k t r r' : counts_ok r -> bumped l k t r r' -> counts_ok r'.
Proof.
  intros Hok Hb k' c. rewrite Hb, lookup_insert. case_decide; [|apply Hok].
  intros [= <-]. simpl. unfold find. destruct (counters r !! k) as [c0|] eqn:E; cbn; [|lia].
  pose proof (Hok k c0 E). destruct (live t c0); cbn; lia.
Qed.

Lemma history_ok l calls r : 0 < Milliseconds (window l) -> counts_ok r -> counts_ok (snd (history l calls r)).
Proof.
  intros Hw. revert r. induction calls as [|[t [k|k]] calls IH]; intros r Hok; [done| |]; cbn [history].
  - pose proof (Allow_cases l k t r Hw) as Ha. cbv zeta in Ha. destruct (Allow l k t r) as [[a|] r'].
    + pose proof (IH r' (bumped_ok _ _ _ _ _ Hok (proj1 Ha))) as IH'.
      by destruct (history l calls r').
    + assert (Hok' : counts_ok r')
        by (destruct Ha as [Hs|Hb]; [unfold counts_ok; by rewrite Hs|by eapply bumped_ok]).
      pose proof (IH r' Hok') as IH'. by destruct (history l calls r').
  - destruct (Reset l k r) as [o r'] eqn:Hr. apply IH. intros k' c Hc. simpl in Hc.
    apply Reset_cases in Hr as [Hr|Hr]; rewrite Hr in Hc; [by eapply Hok|].
    apply lookup_delete_Some in Hc as [_ Hc]. by eapply Hok.
Qed.

(** C38: the limiter limits. However attempts are spread over any stretch of time as
    long as the window, on however many keys, and whatever Redis loses or repeats, a key that is
    not reset in it is granted at most twice the limit, whatever happened before. *)
Theorem limiter_limits l key fs before during from :
  0 < Milliseconds (window l) -> 0 <= limit l ->
  within from (from + Milliseconds (window l)) during -> no_reset key during ->
  granted_to key
    (fst (history l during (snd (history l before {| counters := ∅; faults := fs |})))) <= 2 * limit l.
Proof.
  intros Hw Hl Hin Hno. set (r := snd _).
  assert (Hok : counts_ok r) by (apply history_ok; [done|]; intros ? ? H; discriminate H).
  pose proof (granted_worth l key from _ during r Hw (Z.le_refl _) Hin Hno) as Hg.
  enough (worth l key from (from + Milliseconds (window l)) r <= 2 * limit l) by lia.
  unfold worth. cbv zeta. destruct (counters r !! _) as [c|] eqn:E; [|lia].
  pose proof (Hok _ _ E). repeat case_match; lia.
Qed.

Lemma limiter_limits_witness :
  let l := {| prefix := "login:user:"; limit := 2; window := Minute |} in
  let calls := [(59000, CallAllow "bob"); (59500, CallAllow "bob"); (59700, CallAllow "bob");
                (60100, CallAllow "bob"); (60200, CallAllow "bob"); (60300, CallAllow "bob")] in
  let first := [(0, CallAllow "eve")] in
  granted_to "bob" (fst (history l calls (snd (history l first {| counters := ∅; faults := [] |})))) <= 2 * 2.
Proof.
  intros l calls first. apply (limiter_limits l "bob" [] first calls 59000).
  - vm_compute. reflexivity.
  - simpl. lia.
  - change (Milliseconds (window l)) with 60000. unfold calls, within.
    repeat (constructor; [simpl; lia|]). constructor.
  - unfold calls, no_reset. repeat (constructor; [discriminate|]). constructor.
Defined.
