(* ===== verification/Auth.v ===== *)
(** * Sessions and tokens ([api/internal/sessions/sessions.go],
    [api/internal/auth/tokenstore.go], [service.go], [impersonation.go])

    A login is a row in PostgreSQL with the hash of its current refresh token; its
    access tokens are entries in Redis. One definition per statement and per use case; every
    call to either store may fail before or after it took effect. Addresses and user agents,
    which are only recorded, are left out. *)

From stdpp Require Import gmap.
From S2P Require Import Prelude Store GoStr GoTime RateLimit.

#[local] Open Scope Z_scope.

(** ** State *)
Inductive auth_err :=
| ErrInvalidCredentials | ErrAccountInactive | ErrRateLimited | ErrInvalidToken
| ErrInvalidTOTP | ErrInvalidRecoveryCode | ErrCannotImpersonate
| ErrNotFound | ErrTokenNotFound | ErrBackend.

#[global] Instance auth_err_eq_dec : EqDecision auth_err.
Proof. solve_decision. Defined.

Record User := { u_ID : string; u_Username : string; PasswordHash : string; u_Status : string }.
Definition IsActive (u : User) : bool := (u_Status u =? "active")%string.

Record Session := {
  UserID : string; TokenHash : string; ExpiresAt : Z; CreatedAt : Z; RevokedAt : option Z;
}.
Definition IsUsable (s : Session) (now : Z) : bool :=
  match RevokedAt s with Some _ => false | None => now <? ExpiresAt s end.

Record AccessClaims := {
  c_UserID : string; c_Username : string; SessionID : string; Permissions : list string;
  Roles : list string; IssuedAt : Z; ImpersonatorUserID : string;
}.
Definition Impersonated (c : AccessClaims) : bool := negb (ImpersonatorUserID c =? "")%string.

Record MFAChallenge := { m_UserID : string; m_Username : string }.

Record Event := { e_UserID : string; e_Action : string; e_ResourceID : string; e_Status : string }.

(** PostgreSQL: accounts and what they may do, sessions by identifier, and for every retired
    refresh token the session it belonged to. *)
Record Database := {
  users : gmap string User;
  roles_of : gmap string (list string);
  permissions_of : gmap string (list string);
  two_factor : gmap string bool;
  sess : gmap string Session;
  retired : gmap string string;
}.

(** Redis: entries with the instant they expire; the limiter's counters are [RateLimit]'s. *)
Record Cache := {
  access : gmap string (AccessClaims * option Z);
  index_of : gmap string (gset string * option Z);
  mfa : gmap string (MFAChallenge * option Z);
  limits : Redis;
}.

(** Both stores, the audit trail, the clock, the random tokens and identifiers to come, and
    what the coming calls to the stores meet. *)
Record World := {
  db : Database;
  cache : Cache;
  audit : list Event;
  now : Z;
  random : list string;
  uuids : list string;
  faults : list fault;
}.

Definition set_db (d : Database) (w : World) : World := {|
  db := d; cache := cache w; audit := audit w; now := now w; random := random w; uuids := uuids w;
  faults := faults w |}.
Definition set_cache (c : Cache) (w : World) : World := {|
  db := db w; cache := c; audit := audit w; now := now w; random := random w; uuids := uuids w;
  faults := faults w |}.
Definition set_audit (l : list Event) (w : World) : World := {|
  db := db w; cache := cache w; audit := l; now := now w; random := random w; uuids := uuids w;
  faults := faults w |}.
Definition set_chance (r u : list string) (f : list fault) (w : World) : World := {|
  db := db w; cache := cache w; audit := audit w; now := now w; random := r; uuids := u; faults := f |}.

Definition set_sessions (m : gmap string Session) (h : gmap string string) (w : World) : World :=
  set_db {| users := users (db w); roles_of := roles_of (db w); permissions_of := permissions_of (db w);
            two_factor := two_factor (db w); sess := m; retired := h |} w.
Definition set_users (m : gmap string User) (w : World) : World :=
  set_db {| users := m; roles_of := roles_of (db w); permissions_of := permissions_of (db w);
            two_factor := two_factor (db w); sess := sess (db w); retired := retired (db w) |} w.
Definition set_tokens (a : gmap string (AccessClaims * option Z))
    (i : gmap string (gset string * option Z)) (w : World) : World :=
  set_cache {| access := a; index_of := i; mfa := mfa (cache w); limits := limits (cache w) |} w.
Definition set_mfa (m : gmap string (MFAChallenge * option Z)) (w : World) : World :=
  set_cache {| access := access (cache w); index_of := index_of (cache w); mfa := m;
               limits := limits (cache w) |} w.
Definition set_limits (l : Redis) (w : World) : World :=
  set_cache {| access := access (cache w); index_of := index_of (cache w); mfa := mfa (cache w);
               limits := l |} w.

(** ** Effects *)
#[local] Open Scope store_scope.

#[global] Instance World_faulty : Faulty World := {
  faults_of := faults; with_faults fs w := set_chance (random w) (uuids w) fs w }.

Local Abbreviation M := (Store.M World auth_err).
Local Abbreviation call := (Store.call ErrBackend).
Local Abbreviation query := (Store.query ErrBackend).

(** [secrets.NewToken]. *)
Definition NewToken : M string :=
  fun w => match random w with
           | [] => (Err ErrBackend, w)
           | t :: ts => (Ok t, set_chance ts (uuids w) (faults w) w)
           end.

Definition record (user action resource status : string) : M unit :=
  fun w => (Ok tt, set_audit (audit w ++ [{| e_UserID := user; e_Action := action;
                                             e_ResourceID := resource; e_Status := status |}])%list w).

Definition found {A} (o : option A) : result auth_err A :=
  match o with Some a => Ok a | None => Err ErrNotFound end.

(** ** Sessions *)
Definition with_hash (h : string) (m : gmap string Session) : option (string * Session) :=
  map_find (fun s => TokenHash s =? h)%string m.

(** [Create]; the index on the hash is unique. *)
Definition Create (user hash : string) (expires : Z) : M string :=
  call (fun w =>
    match uuids w with
    | [] => (Err ErrBackend, w)
    | id :: ids =>
        match with_hash hash (sess (db w)) with
        | Some _ => (Err ErrBackend, w)
        | None =>
            let s := {| UserID := user; TokenHash := hash; ExpiresAt := expires; CreatedAt := now w;
                        RevokedAt := None |} in
            (Ok id, set_chance (random w) ids (faults w)
                      (set_sessions (<[id := s]> (sess (db w))) (retired (db w)) w))
        end
    end).

Definition GetByTokenHash (hash : string) : M (string * Session) :=
  query (fun w => found (with_hash hash (sess (db w)))).
Definition GetByID (id : string) : M Session := query (fun w => found (sess (db w) !! id)).

Definition rotated (newHash : string) (expires : Z) (s : Session) : Session := {|
  UserID := UserID s; TokenHash := newHash; ExpiresAt := expires; CreatedAt := CreatedAt s;
  RevokedAt := RevokedAt s |}.

(** The transaction of [Rotate]. *)
Definition Rotate (oldHash newHash : string) (expires : Z) : M (string * Session) :=
  call (fun w =>
    match with_hash oldHash (sess (db w)) with
    | Some (id, s) =>
        if IsUsable s (now w) then
          let taken := match with_hash newHash (sess (db w)) with
                       | Some (id', _) => negb (id' =? id)%string
                       | None => false
                       end in
          if taken then (Err ErrBackend, w)
          else
            let s' := rotated newHash expires s in
            (Ok (id, s'),
             set_sessions (<[id := s']> (sess (db w)))
               (match retired (db w) !! oldHash with
                | Some _ => retired (db w)
                | None => <[oldHash := id]> (retired (db w))
                end) w)
        else (Err ErrNotFound, w)
    | None => (Err ErrNotFound, w)
    end).

Definition FindRetiredToken (hash : string) : M string :=
  query (fun w => found (retired (db w) !! hash)).

Definition revoke_at (t : Z) (s : Session) : Session :=
  match RevokedAt s with
  | Some _ => s
  | None => {| UserID := UserID s; TokenHash := TokenHash s; ExpiresAt := ExpiresAt s;
               CreatedAt := CreatedAt s; RevokedAt := Some t |}
  end.

Definition Revoke (id : string) : M unit :=
  call (fun w => (Ok tt, set_sessions (alter (revoke_at (now w)) id (sess (db w))) (retired (db w)) w)).

Definition live_of (user : string) (s : Session) : bool :=
  (UserID s =? user)%string && match RevokedAt s with None => true | Some _ => false end.

Definition RevokeAllForUser (user : string) : M (list string) :=
  call (fun w =>
    (Ok (map fst (List.filter (fun x => live_of user (snd x)) (map_to_list (sess (db w))))),
     set_sessions ((fun s => if live_of user s then revoke_at (now w) s else s) <$> sess (db w))
       (retired (db w)) w)).

(** [DeleteExpired]; the history of a deleted session goes with it. *)
Definition DeleteExpired (cutoff : Z) : M unit :=
  call (fun w =>
    let kept := filter (fun x => cutoff <= ExpiresAt (snd x)) (sess (db w)) in
    (Ok tt, set_sessions kept (filter (fun x => is_Some (kept !! snd x)) (retired (db w))) w)).

(** ** The token store *)
Definition ttl_from (t d : Z) : option Z := if 0 <? d then Some (t + d) else None.
Definition alive {A} (t : Z) (x : A * option Z) : bool :=
  match snd x with Some e => t <? e | None => true end.
Definition read {A} (t : Z) (k : string) (m : gmap string (A * option Z)) : option A :=
  match m !! k with Some x => if alive t x then Some (fst x) else None | None => None end.
(** EXPIRE counts whole seconds; a shorter positive time is one. *)
Definition expire_after (t d : Z) : option Z :=
  if (0 <? d) && (d <? Second) then Some (t + Second) else Some (t + Second * Z.quot d Second).

Record Config := {
  AccessTokenTTL : Z; RefreshTokenTTL : Z; MFAChallengeTTL : Z;
  userLimit : Limiter; ipLimit : Limiter;
}.

(** The [secrets] package: the hash of a token, and the password functions. *)
Class AuthEnv := {
  HashToken : string -> string;
  VerifyPassword : string -> string -> option bool;
  NeedsRehash : string -> bool;
  HashPassword : string -> option string;
}.

Section Service.
Context `{AuthEnv} (cfg : Config).

(** [Issue]: SET, SADD and EXPIRE in one transaction. *)
Definition Issue (claims : AccessClaims) : M string :=
  let! token := NewToken in
  call (fun w =>
    let key := HashToken token in
    let d := AccessTokenTTL cfg in
    let members := default ∅ (read (now w) (SessionID claims) (index_of (cache w))) in
    (Ok token,
     set_tokens (<[key := (claims, ttl_from (now w) d)]> (access (cache w)))
       (<[SessionID claims := ({[key]} ∪ members, expire_after (now w) (d + Minute))]>
          (index_of (cache w))) w)).

Definition token_found {A} (o : option A) : result auth_err A :=
  match o with Some a => Ok a | None => Err ErrTokenNotFound end.

Definition Lookup (token : string) : M AccessClaims :=
  if (token =? "")%string then fail ErrTokenNotFound
  else query (fun w => token_found (read (now w) (HashToken token) (access (cache w)))).

Definition RevokeToken (token : string) : M unit :=
  call (fun w => (Ok tt, set_tokens (delete (HashToken token) (access (cache w))) (index_of (cache w)) w)).

(** The token store's [RevokeSession]: SMEMBERS, then DEL of the members and the index. *)
Definition RevokeTokens (id : string) : M unit :=
  let! members := query (fun w => Ok (default ∅ (read (now w) id (index_of (cache w))))) in
  call (fun w =>
    (Ok tt, set_tokens (filter (fun x => fst x ∉ members) (access (cache w)))
              (delete id (index_of (cache w))) w)).

Fixpoint RevokeSessions (ids : list string) : M unit :=
  match ids with
  | [] => ret tt
  | id :: ids => RevokeTokens id ;! RevokeSessions ids
  end.

Definition IssueMFAChallenge (challenge : MFAChallenge) (d : Z) : M string :=
  let! token := NewToken in
  call (fun w =>
    (Ok token, set_mfa (<[HashToken token := (challenge, ttl_from (now w) d)]> (mfa (cache w))) w)).

Definition PeekMFAChallenge (token : string) : M MFAChallenge :=
  if (token =? "")%string then fail ErrTokenNotFound
  else query (fun w => token_found (read (now w) (HashToken token) (mfa (cache w)))).

Definition ConsumeMFAChallenge (token : string) : M unit :=
  call (fun w => (Ok tt, set_mfa (delete (HashToken token) (mfa (cache w))) w)).

(** ** Accounts *)
Definition NormalizeUsername (s : string) : string := to_lower (trim_space s).

Definition GetByUsername (username : string) : M User :=
  query (fun w =>
    found (snd <$> map_find (fun u => u_Username u =? NormalizeUsername username)%string (users (db w)))).
Definition UserByID (id : string) : M User := query (fun w => found (users (db w) !! id)).
Definition IsEnabled (user : string) : M bool :=
  query (fun w => Ok (default false (two_factor (db w) !! user))).
Definition PermissionsForUser (user : string) : M (list string) :=
  query (fun w => Ok (default [] (permissions_of (db w) !! user))).
Definition RolesForUser (user : string) : M (list string) :=
  query (fun w => Ok (default [] (roles_of (db w) !! user))).

Definition UpdatePasswordHash (id hash : string) : M unit :=
  call (fun w =>
    match users (db w) !! id with
    | Some u => (Ok tt, set_users (<[id := {| u_ID := u_ID u; u_Username := u_Username u;
                                              PasswordHash := hash; u_Status := u_Status u |}]>
                                     (users (db w))) w)
    | None => (Err ErrNotFound, w)
    end).

(** Only logged when it fails. *)
Definition rehashPassword (id password : string) : M unit :=
  match HashPassword password with
  | None => ret tt
  | Some hash => let! _ := attempt (UpdatePasswordHash id hash) in ret tt
  end.

Definition limiter {A} (f : Redis -> option A * Redis) : M A :=
  fun w => let '(o, r) := f (limits (cache w)) in
           (match o with Some a => Ok a | None => Err ErrBackend end, set_limits r w).

Definition redis_clock (w : World) : Z := now w / Millisecond.

(** ** The use cases ([service.go]) *)
Record TokenPair := { AccessToken : string; RefreshToken : string; ExpiresIn : Z }.
Inductive LoginResult := Tokens (p : TokenPair) | MFARequired (token : string).

Definition tokenPair (a r : string) : TokenPair :=
  {| AccessToken := a; RefreshToken := r; ExpiresIn := Z.quot (AccessTokenTTL cfg) Second |}.

Definition failure := "FAILURE"%string.
Definition success := "SUCCESS"%string.

Definition checkRateLimits (username ip : string) : M unit :=
  let! t := get redis_clock in
  let! userResult := limiter (Allow (userLimit cfg) username t) in
  if negb (Allowed userResult)
  then record "" "auth.login_rate_limited" "" failure ;! fail ErrRateLimited
  else if (ip =? "")%string then ret tt
  else
    let! ipResult := limiter (Allow (ipLimit cfg) ip t) in
    if negb (Allowed ipResult)
    then record "" "auth.login_rate_limited" "" failure ;! fail ErrRateLimited
    else ret tt.

Definition issueAccessToken (user : User) (session : string) : M string :=
  let! permissions := PermissionsForUser (u_ID user) in
  let! roles := RolesForUser (u_ID user) in
  let! t := get now in
  Issue {| c_UserID := u_ID user; c_Username := u_Username user; SessionID := session;
           Permissions := permissions; Roles := roles; IssuedAt := t; ImpersonatorUserID := "" |}.

Definition completeLogin (user : User) : M TokenPair :=
  let! refreshToken := NewToken in
  let! t := get now in
  let! session := Create (u_ID user) (HashToken refreshToken) (t + RefreshTokenTTL cfg) in
  let! accessToken := issueAccessToken user session in
  let! _ := attempt (query (fun _ => Ok tt)) in
  let! _ := attempt (limiter (Reset (userLimit cfg) (u_Username user))) in
  record (u_ID user) "auth.login" session success ;!
  ret (tokenPair accessToken refreshToken).

Definition Login (username password ip : string) : M LoginResult :=
  let normalized := NormalizeUsername username in
  checkRateLimits normalized ip ;!
  let! found := attempt (GetByUsername normalized) in
  match found with
  | Err ErrNotFound => record "" "auth.login_failed" "" failure ;! fail ErrInvalidCredentials
  | Err e => fail e
  | Ok user =>
      match VerifyPassword password (PasswordHash user) with
      | None => fail ErrBackend
      | Some false =>
          record (u_ID user) "auth.login_failed" "" failure ;! fail ErrInvalidCredentials
      | Some true =>
          if negb (IsActive user)
          then record (u_ID user) "auth.login_failed" "" failure ;! fail ErrAccountInactive
          else
            (if NeedsRehash (PasswordHash user) then rehashPassword (u_ID user) password else ret tt) ;!
            let! twoFactorEnabled := IsEnabled (u_ID user) in
            if twoFactorEnabled then
              let! mfaToken := IssueMFAChallenge
                {| m_UserID := u_ID user; m_Username := u_Username user |} (MFAChallengeTTL cfg) in
              ret (MFARequired mfaToken)
            else let! tokens := completeLogin user in ret (Tokens tokens)
      end
  end.

Definition completeChallenge (mfaToken ip : string) (check : MFAChallenge -> M unit) : M TokenPair :=
  let! peeked := attempt (PeekMFAChallenge mfaToken) in
  match peeked with
  | Err ErrTokenNotFound => fail ErrInvalidToken
  | Err e => fail e
  | Ok challenge =>
      checkRateLimits (m_Username challenge) ip ;!
      check challenge ;!
      ConsumeMFAChallenge mfaToken ;!
      let! user := UserByID (m_UserID challenge) in
      if negb (IsActive user) then fail ErrAccountInactive else completeLogin user
  end.

Definition revokeSession (id : string) : M unit := Revoke id ;! RevokeTokens id.

(** Whose session a rejected refresh token belongs to, if anybody's. *)
Definition locateLeakedToken (hash : string) : M (option (string * string)) :=
  let! current := attempt (GetByTokenHash hash) in
  match current with
  | Ok (id, s) => ret (Some (id, UserID s))
  | Err _ =>
      let! r := attempt (FindRetiredToken hash) in
      match r with
      | Err _ => ret None
      | Ok id =>
          let! s := attempt (GetByID id) in
          match s with Ok s => ret (Some (id, UserID s)) | Err _ => ret None end
      end
  end.

Definition handleRefreshFailure (hash : string) : M unit :=
  let! leaked := locateLeakedToken hash in
  match leaked with
  | None => ret tt
  | Some (id, user) =>
      let! revoked := attempt (RevokeAllForUser user) in
      match revoked with
      | Err _ => ret tt
      | Ok ids =>
          let! _ := attempt (RevokeSessions (ids ++ [id])%list) in
          record user "auth.refresh_reuse_detected" id failure
      end
  end.

Definition Refresh (refreshToken : string) : M TokenPair :=
  if (refreshToken =? "")%string then fail ErrInvalidToken
  else
    let oldHash := HashToken refreshToken in
    let! newToken := NewToken in
    let! t := get now in
    let! rotation := attempt (Rotate oldHash (HashToken newToken) (t + RefreshTokenTTL cfg)) in
    match rotation with
    | Err ErrNotFound => handleRefreshFailure oldHash ;! fail ErrInvalidToken
    | Err e => fail e
    | Ok (id, s) =>
        let! user := UserByID (UserID s) in
        if negb (IsActive user)
        then let! _ := attempt (revokeSession id) in fail ErrAccountInactive
        else
          RevokeTokens id ;!
          let! accessToken := issueAccessToken user id in
          record (u_ID user) "auth.refresh" id success ;!
          ret (tokenPair accessToken newToken)
    end.

Definition Logout (claims : AccessClaims) : M unit :=
  revokeSession (SessionID claims) ;!
  record (c_UserID claims) "auth.logout" (SessionID claims) success.

Definition Authenticate (token : string) : M AccessClaims :=
  let! looked := attempt (Lookup token) in
  match looked with
  | Err ErrTokenNotFound => fail ErrInvalidToken
  | Err e => fail e
  | Ok claims =>
      let! got := attempt (GetByID (SessionID claims)) in
      match got with
      | Err ErrNotFound => fail ErrInvalidToken
      | Err e => fail e
      | Ok session =>
          let! t := get now in
          if negb (IsUsable session t)
          then let! _ := attempt (RevokeTokens (SessionID claims)) in fail ErrInvalidToken
          else ret claims
      end
  end.

(** ** Impersonation ([impersonation.go]) *)
Definition forbiddenWhileImpersonating : list string :=
  ["tenant.view"; "tenant.manage"; "tenant.impersonate"; "user.manage"].
Definition impersonationTTL : Z := 60 * Minute.

Definition stripForbidden (permissions : list string) : list string :=
  List.filter (fun p => negb (existsb (String.eqb p) forbiddenWhileImpersonating)) permissions.

Definition issueImpersonatedAccessToken (subject : User) (session actor : string) : M string :=
  let! permissions := PermissionsForUser (u_ID subject) in
  let! roles := RolesForUser (u_ID subject) in
  let! t := get now in
  Issue {| c_UserID := u_ID subject; c_Username := u_Username subject; SessionID := session;
           Permissions := stripForbidden permissions; Roles := roles; IssuedAt := t;
           ImpersonatorUserID := actor |}.

Definition Impersonate (actor : string) (subject : User) : M (TokenPair * string) :=
  if negb (IsActive subject) then fail ErrAccountInactive
  else if (actor =? u_ID subject)%string then fail ErrCannotImpersonate
  else
    let! refreshToken := NewToken in
    let ttl := Z.min impersonationTTL (RefreshTokenTTL cfg) in
    let! t := get now in
    let! session := Create (u_ID subject) (HashToken refreshToken) (t + ttl) in
    let! accessToken := issueImpersonatedAccessToken subject session actor in
    record actor "tenant.impersonate.session" session success ;!
    let tokens := tokenPair accessToken refreshToken in
    ret (if Z.quot ttl Second <? ExpiresIn tokens
         then {| AccessToken := accessToken; RefreshToken := refreshToken; ExpiresIn := Z.quot ttl Second |}
         else tokens, session).

Definition EndImpersonation (id : string) : M unit :=
  if (trim_space id =? "")%string then fail ErrInvalidToken
  else revokeSession id.

End Service.

(** ** Reasoning about calls *)

Lemma call_cases {A} (f : World -> result auth_err A * World) w :
  (exists fs, call f w = (Err ErrBackend, set_chance (random w) (uuids w) fs w)) \/
  (exists fs, call f w = f (set_chance (random w) (uuids w) fs w)) \/
  (exists fs, call f w = (Err ErrBackend, snd (f (set_chance (random w) (uuids w) fs w)))).
Proof.
  unfold Store.call. destruct w as [d c a n r u [|[] fs]]; cbn.
  - right. left. by exists [].
  - right. left. by exists fs.
  - left. by exists fs.
  - right. right. by exists fs.
Qed.

Lemma call_ran {A} (f : World -> result auth_err A * World) w a w' :
  call f w = (Ok a, w') -> exists fs, f (set_chance (random w) (uuids w) fs w) = (Ok a, w').
Proof.
  destruct (call_cases f w) as [[fs ->]|[[fs ->]|[fs ->]]]; [done| |done]. by exists fs.
Qed.

Lemma query_state {A} (f : World -> result auth_err A) w :
  exists fs, snd (query f w) = set_chance (random w) (uuids w) fs w.
Proof. unfold query. destruct (call_cases (fun w => (f w, w)) w) as [[fs ->]|[[fs ->]|[fs ->]]]; by exists fs. Qed.

Lemma query_ok {A} (f : World -> result auth_err A) w a w' :
  (forall fs, f (set_chance (random w) (uuids w) fs w) = f w) ->
  query f w = (Ok a, w') -> f w = Ok a /\ exists fs, w' = set_chance (random w) (uuids w) fs w.
Proof.
  intros Hf Hq. pose proof (query_state f w) as [fs' Hs]. rewrite Hq in Hs. simpl in Hs.
  apply call_ran in Hq as (fs & Hq). rewrite Hf in Hq. simplify_eq. split; [done|]. by eexists.
Qed.

Lemma with_hash_some h m id s : with_hash h m = Some (id, s) -> m !! id = Some s /\ TokenHash s = h.
Proof. intros [Hs Heq]%map_find_some. by apply String.eqb_eq in Heq. Qed.

Lemma with_hash_none h m id s : with_hash h m = None -> m !! id = Some s -> TokenHash s <> h.
Proof. intros Hf Hs. by apply String.eqb_neq, (map_find_none _ _ _ _ Hf Hs). Qed.

(** The unique index on the hash. *)
Definition hashes_unique (m : gmap string Session) : Prop :=
  forall i j s t, m !! i = Some s -> m !! j = Some t -> TokenHash s = TokenHash t -> i = j.

Lemma with_hash_unique h m id s : hashes_unique m -> m !! id = Some s -> TokenHash s = h ->
  with_hash h m = Some (id, s).
Proof.
  intros Hu Hs Heq. apply map_find_unique; [|done|by apply String.eqb_eq].
  intros i j t u Hi Hj Ht%String.eqb_eq Hv%String.eqb_eq. eapply Hu; [done..|congruence].
Qed.

(** ** The stores as a transition system

    One statement or one transaction at a time, by any request, with any arguments; the label
    names the session identifier and the refresh-token hash it brings into the world, which for
    the code are always fresh. Claims put on access tokens are arbitrary. *)
Definition label := (option string * option string)%type.
Definition old : label := (None, None).

Section Steps.
Context `{AuthEnv} (cfg : Config).

Inductive auth_step : World -> label -> World -> Prop :=
| step_create u h e w id : head (uuids w) = Some id ->
    auth_step w (Some id, Some h) (snd (Create u h e w))
| step_rotate o h e w : auth_step w (None, Some h) (snd (Rotate o h e w))
| step_revoke id w : auth_step w old (snd (Revoke id w))
| step_revoke_all u w : auth_step w old (snd (RevokeAllForUser u w))
| step_delete t w : auth_step w old (snd (DeleteExpired t w))
| step_issue c w : auth_step w old (snd (Issue cfg c w))
| step_drop_token t w : auth_step w old (snd (RevokeToken t w))
| step_drop_tokens id w : auth_step w old (snd (RevokeTokens id w))
| step_world w c a n r u fs : auth_step w old
    {| db := db w; cache := c; audit := a; now := n; random := r; uuids := u; faults := fs |}
| step_accounts w us ro pe tf : auth_step w old
    (set_db {| users := us; roles_of := ro; permissions_of := pe; two_factor := tf;
               sess := sess (db w); retired := retired (db w) |} w).
End Steps.

(** What a step can do to the sessions and the retired tokens. *)
Inductive moves (m : gmap string Session) (r : gmap string string) :
    label -> gmap string Session -> gmap string string -> Prop :=
| mv_same l : moves m r l m r
| mv_create id h s : with_hash h m = None -> TokenHash s = h -> RevokedAt s = None ->
    moves m r (Some id, Some h) (<[id := s]> m) r
| mv_rotate id s h e :
    m !! id = Some s -> RevokedAt s = None ->
    (forall j t, m !! j = Some t -> TokenHash t = h -> hashes_unique m -> j = id) ->
    moves m r (None, Some h) (<[id := rotated h e s]> m)
      (match r !! TokenHash s with Some _ => r | None => <[TokenHash s := id]> r end)
| mv_revoke m' :
    (forall id, m' !! id = m !! id \/ exists s t, m !! id = Some s /\ m' !! id = Some (revoke_at t s)) ->
    moves m r old m' r
| mv_delete m' r' :
    (forall id s, m' !! id = Some s -> m !! id = Some s) ->
    (forall h id, r !! h = Some id -> is_Some (m' !! id) -> r' !! h = Some id) ->
    moves m r old m' r'.

Definition moved (w : World) (l : label) (w' : World) : Prop :=
  moves (sess (db w)) (retired (db w)) l (sess (db w')) (retired (db w')).

Lemma call_moved {A} (f : World -> result auth_err A * World) l w :
  (forall fs, let w0 := set_chance (random w) (uuids w) fs w in moved w0 l (snd (f w0))) ->
  moved w l (snd (call f w)).
Proof.
  intros Hf. destruct (call_cases f w) as [[fs ->]|[[fs ->]|[fs ->]]].
  - apply mv_same.
  - apply Hf.
  - apply Hf.
Qed.

Lemma taken_unique h m id : (match with_hash h m with Some (i, _) => negb (i =? id)%string | None => false end) = false ->
  forall j t, m !! j = Some t -> TokenHash t = h -> hashes_unique m -> j = id.
Proof.
  intros Ht j t Hj Hh Hu. rewrite (with_hash_unique h m j t Hu Hj Hh) in Ht.
  apply negb_false_iff, String.eqb_eq in Ht. done.
Qed.

Lemma Rotate_moved o h e w : moved w (None, Some h) (snd (Rotate o h e w)).
Proof.
  apply call_moved. intros fs w0. subst w0. cbn -[with_hash].
  destruct (with_hash o (sess (db w))) as [[id s]|] eqn:Eo; [|apply mv_same].
  destruct (IsUsable s _) eqn:Eu; [|apply mv_same].
  match goal with |- context [if ?b then _ else _] => destruct b eqn:Et end; [apply mv_same|].
  apply with_hash_some in Eo as [Hs <-]. unfold moved. cbn. apply mv_rotate; [done| |].
  - unfold IsUsable in Eu. by destruct (RevokedAt s).
  - by apply taken_unique.
Qed.

Lemma Create_moved u h e w id : head (uuids w) = Some id ->
  moved w (Some id, Some h) (snd (Create u h e w)).
Proof.
  intros Hid. apply call_moved. intros fs w0. subst w0. cbn -[with_hash].
  destruct (uuids w) as [|i ids]; [done|]. injection Hid as ->.
  destruct (with_hash h _) eqn:Eh; [apply mv_same|]. by apply mv_create.
Qed.

Lemma revoke_at_cases t s : revoke_at t s = s \/ RevokedAt (revoke_at t s) = Some t.
Proof. unfold revoke_at. destruct (RevokedAt s) eqn:E; [left|right]; done. Qed.

Lemma Revoke_moved id w : moved w old (snd (Revoke id w)).
Proof.
  apply call_moved. intros fs w0. subst w0. unfold moved. cbn -[alter fmap filter]. apply mv_revoke. intros j.
  destruct (decide (j = id)) as [->|Hne]; [|left; by apply lookup_alter_ne].
  rewrite lookup_alter_eq. destruct (sess (db w) !! id) as [s|]; [|by left]. right. by exists s, (now w).
Qed.

Lemma RevokeAllForUser_moved u w : moved w old (snd (RevokeAllForUser u w)).
Proof.
  apply call_moved. intros fs w0. subst w0. unfold moved. cbn -[alter fmap filter]. apply mv_revoke. intros j. rewrite lookup_fmap.
  destruct (sess (db w) !! j) as [s|] eqn:E; cbn; [|by left]. destruct (live_of u s); [|by left].
  right. by exists s, (now w).
Qed.

Lemma DeleteExpired_moved t w : moved w old (snd (DeleteExpired t w)).
Proof.
  apply call_moved. intros fs w0. subst w0. unfold moved. cbn -[alter fmap filter]. apply mv_delete.
  - intros id s. by intros [? _]%map_lookup_filter_Some.
  - intros h id Hr Hs. by apply map_lookup_filter_Some.
Qed.

(** Calls that leave the sessions alone. *)
Definition same_sessions (w w' : World) : Prop :=
  sess (db w') = sess (db w) /\ retired (db w') = retired (db w).

Lemma same_moved w l w' : same_sessions w w' -> moved w l w'.
Proof. unfold moved. intros [-> ->]. apply mv_same. Qed.

Lemma call_same {A} (f : World -> result auth_err A * World) w :
  (forall w, same_sessions w (snd (f w))) -> same_sessions w (snd (call f w)).
Proof.
  intros Hf. destruct (call_cases f w) as [[fs ->]|[[fs ->]|[fs ->]]]; [done| |];
    exact (Hf (set_chance (random w) (uuids w) fs w)).
Qed.

Lemma query_same {A} (f : World -> result auth_err A) w : same_sessions w (snd (query f w)).
Proof. by apply call_same. Qed.

Lemma same_trans w1 w2 w3 : same_sessions w1 w2 -> same_sessions w2 w3 -> same_sessions w1 w3.
Proof. unfold same_sessions. intuition congruence. Qed.

Lemma bind_same {A B} (m : M A) (k : A -> M B) w :
  same_sessions w (snd (m w)) -> (forall a w, same_sessions w (snd (k a w))) ->
  same_sessions w (snd (bind m k w)).
Proof.
  intros Hm Hk. unfold bind. destruct (m w) as [[a|e] w1]; [|done].
  eapply same_trans; [exact Hm|apply Hk].
Qed.

Lemma attempt_same {A} (m : M A) w : same_sessions w (snd (m w)) -> same_sessions w (snd (attempt m w)).
Proof. unfold attempt. by destruct (m w). Qed.

Section Same.
Context `{AuthEnv} (cfg : Config).

Lemma NewToken_same w : same_sessions w (snd (NewToken w)).
Proof. unfold NewToken. by destruct (random w). Qed.

Lemma Issue_same c w : same_sessions w (snd (Issue cfg c w)).
Proof. apply bind_same; [apply NewToken_same|]. intros t w'. by apply call_same. Qed.

Lemma RevokeTokens_same id w : same_sessions w (snd (RevokeTokens id w)).
Proof. apply bind_same; [apply query_same|]. intros t w'. by apply call_same. Qed.

Lemma RevokeSessions_same ids w : same_sessions w (snd (RevokeSessions ids w)).
Proof.
  revert w. induction ids as [|id ids IH]; intros w; [done|].
  apply bind_same; [apply RevokeTokens_same|]. intros _ w'. apply IH.
Qed.

Lemma step_moved w l w' : auth_step cfg w l w' -> moved w l w'.
Proof.
  intros []; [by apply Create_moved|apply Rotate_moved|apply Revoke_moved|apply RevokeAllForUser_moved|
    apply DeleteExpired_moved|apply same_moved, Issue_same|apply same_moved; by apply call_same|
    apply same_moved, RevokeTokens_same|apply mv_same|apply mv_same].
Qed.
End Same.

(** ** What steps keep *)

Lemma revoke_at_fields t s :
  TokenHash (revoke_at t s) = TokenHash s /\ UserID (revoke_at t s) = UserID s /\
  RevokedAt (revoke_at t s) <> None.
Proof. unfold revoke_at. destruct (RevokedAt s) eqn:E; cbn; split_and!; congruence. Qed.

Lemma moves_unique m r l m' r' : moves m r l m' r' -> hashes_unique m -> hashes_unique m'.
Proof.
  intros Hm Hu. assert (Hmv := Hm). destruct Hm as [l|id h s Hw Hh Hr|id s h e Hs Hr Hone|m' Hm|m' r' Hm Hr]; [done| | | |].
  - assert (Hno : forall k c, m !! k = Some c -> TokenHash c <> TokenHash s)
      by (intros k c Hc; rewrite Hh; by eapply with_hash_none).
    intros i j a b Ha Hb Hab.
    destruct (decide (id = i)) as [<-|Hi], (decide (id = j)) as [<-|Hj];
      rewrite ?lookup_insert_eq, ?lookup_insert_ne in Ha by done;
      rewrite ?lookup_insert_eq, ?lookup_insert_ne in Hb by done; [done| | |by eapply Hu].
    + injection Ha as <-. by destruct (Hno _ _ Hb).
    + injection Hb as <-. by destruct (Hno _ _ Ha).
  - intros i j a b Ha Hb Hab.
    destruct (decide (id = i)) as [<-|Hi], (decide (id = j)) as [<-|Hj];
      rewrite ?lookup_insert_eq, ?lookup_insert_ne in Ha by done;
      rewrite ?lookup_insert_eq, ?lookup_insert_ne in Hb by done; [done| | |by eapply Hu].
    + injection Ha as <-. symmetry. by eapply Hone.
    + injection Hb as <-. by eapply Hone.
  - intros i j a b Ha Hb Hab.
    assert (Hpre : forall k c, m' !! k = Some c -> exists c0, m !! k = Some c0 /\ TokenHash c0 = TokenHash c).
    { intros k c Hc. destruct (Hm k) as [Hk|(c0 & t & Hk & Hk')].
      - exists c. by rewrite <- Hk.
      - exists c0. split; [done|]. rewrite Hk' in Hc. injection Hc as <-. symmetry. apply revoke_at_fields. }
    destruct (Hpre _ _ Ha) as (a0 & Ha0 & Ea), (Hpre _ _ Hb) as (b0 & Hb0 & Eb).
    eapply Hu; [exact Ha0|exact Hb0|congruence].
  - intros i j a b Ha Hb. eapply Hu; by apply Hm.
Qed.

(** The refresh token with hash [h0], once of session [id0], has been replaced. *)
Definition spent (h0 id0 : string) (m : gmap string Session) (r : gmap string string) : Prop :=
  (forall id s, m !! id = Some s -> TokenHash s <> h0) /\ (is_Some (m !! id0) -> r !! h0 = Some id0).

Lemma moves_spent h0 id0 m r l m' r' : moves m r l m' r' -> fst l <> Some id0 -> snd l <> Some h0 ->
  spent h0 id0 m r -> spent h0 id0 m' r'.
Proof.
  intros Hmv Hid Hh0 [Hcur Hret]. destruct Hmv as [l|id h s Hw Hh Hr|id s h e Hs Hr Hone|m' Hm|m' r' Hm Hr];
    cbn [fst snd] in *; [done| | | |].
  - split.
    + intros i a. rewrite lookup_insert. case_decide; [intros [= <-]; congruence|apply Hcur].
    + rewrite lookup_insert_ne by congruence. done.
  - split.
    + intros i a. rewrite lookup_insert. case_decide; [intros [= <-]; simpl; congruence|apply Hcur].
    + intros Hi. assert (Hi' : is_Some (m !! id0)).
      { rewrite lookup_insert in Hi. case_decide; [subst; by eexists|done]. }
      destruct (r !! TokenHash s); [by apply Hret|].
      rewrite lookup_insert_ne by (by eapply Hcur). by apply Hret.
  - split.
    + intros i a Ha. destruct (Hm i) as [Hi|(s & t & Hi & Hi')]; [rewrite Hi in Ha; by eapply Hcur|].
      rewrite Hi' in Ha. injection Ha as <-. rewrite (proj1 (revoke_at_fields t s)). by eapply Hcur.
    + intros [a Ha]. apply Hret. destruct (Hm id0) as [Hi|(s & t & Hi & Hi')]; [rewrite <- Hi|rewrite Hi]; by eexists.
  - split.
    + intros i a Ha. by eapply Hcur, Hm.
    + intros [a Ha]. apply Hr; [apply Hret; eexists; by apply Hm|by eexists].
Qed.

Definition ended (id0 : string) (m : gmap string Session) : Prop :=
  forall s, m !! id0 = Some s -> RevokedAt s <> None.

Lemma moves_ended id0 m r l m' r' : moves m r l m' r' -> fst l <> Some id0 -> ended id0 m -> ended id0 m'.
Proof.
  intros Hmv Hid He. destruct Hmv as [l|id h s Hw Hh Hr|id s h e Hs Hr Hone|m' Hm|m' r' Hm Hr];
    cbn [fst snd] in *; intros a Ha; [by eapply He| | | |].
  - rewrite lookup_insert_ne in Ha by congruence. by eapply He.
  - rewrite lookup_insert in Ha. case_decide; [subst|by eapply He]. by destruct (He s Hs).
  - destruct (Hm id0) as [Hi|(s & t & Hi & Hi')]; [rewrite Hi in Ha; by eapply He|].
    rewrite Hi' in Ha. injection Ha as <-. apply revoke_at_fields.
  - by eapply He, Hm.
Qed.

Section Kept.
Context `{AuthEnv} (cfg : Config).

Lemma run_kept (I : gmap string Session -> gmap string string -> Prop) (fine : label -> Prop) :
  (forall m r l m' r', moves m r l m' r' -> fine l -> I m r -> I m' r') ->
  forall w ls w', run (auth_step cfg) w ls w' -> Forall fine ls ->
  I (sess (db w)) (retired (db w)) -> I (sess (db w')) (retired (db w')).
Proof.
  intros Hk w ls w' Hr. induction Hr as [w|w l w1 ls w2 Hs Hr IH]; intros Hf HI; [done|].
  apply list.Forall_cons in Hf as [Hl Hf]. apply IH; [done|].
  eapply Hk; [by eapply step_moved|done|done].
Qed.

(** Authenticating needs the session. *)
Lemma Authenticate_session token c w w' :
  Authenticate token w = (Ok c, w') ->
  exists s, sess (db w) !! SessionID c = Some s /\ IsUsable s (now w) = true.
Proof.
  unfold Authenticate, bind at 1, attempt at 1.
  destruct (Lookup token w) as [[c0|e] w1] eqn:El; [|destruct e; intros Hx; discriminate Hx].
  assert (Hw1 : db w1 = db w /\ now w1 = now w).
  { unfold Lookup in El. destruct (token =? "")%string; [discriminate El|].
    pose proof (query_state (fun w => token_found (read (now w) (HashToken token) (access (cache w)))) w) as [fs Hs].
    rewrite El in Hs. simpl in Hs. by rewrite Hs. }
  destruct Hw1 as [Hd1 Hn1]. unfold bind at 1, attempt at 1.
  destruct (GetByID (SessionID c0) w1) as [[s|e] w2] eqn:Eg; [|destruct e; intros Hx; discriminate Hx].
  apply query_ok in Eg as [Eg [fs ->]]; [|done]. unfold bind, get. cbn [now set_chance].
  destruct (IsUsable s (now w1)) eqn:Eu; cbn [negb].
  - intros [= <- _]. exists s. rewrite <- Hd1, <- Hn1. split; [|done].
    unfold found in Eg. by destruct (sess (db w1) !! SessionID c0); simplify_eq.
  - unfold attempt. destruct (RevokeTokens _ _). intros Hx. discriminate Hx.
Qed.

Lemma Rotate_ok o h e w id s w' : Rotate o h e w = (Ok (id, s), w') ->
  exists s0, sess (db w) !! id = Some s0 /\ TokenHash s0 = o /\ RevokedAt s0 = None /\ s = rotated h e s0 /\
    now w < ExpiresAt s0 /\
    (forall j t, sess (db w) !! j = Some t -> TokenHash t = h -> hashes_unique (sess (db w)) -> j = id) /\
    sess (db w') = <[id := s]> (sess (db w)) /\
    retired (db w') = match retired (db w) !! o with
                      | Some _ => retired (db w)
                      | None => <[o := id]> (retired (db w)) end.
Proof.
  intros Hr. apply call_ran in Hr as (fs & Hr). cbn -[with_hash] in Hr.
  destruct (with_hash o (sess (db w))) as [[id0 s0]|] eqn:Eo; [|done].
  destruct (IsUsable s0 (now w)) eqn:Eu; [|done].
  match goal with H : context [if ?b then _ else _] |- _ => destruct b eqn:Et end; [done|].
  apply with_hash_some in Eo as [Hs Ho]. injection Hr as <- <- <-. exists s0.
  unfold IsUsable in Eu. destruct (RevokedAt s0) eqn:Ev; [done|].
  pose proof (taken_unique _ _ _ Et). split_and!; try done. by apply Z.ltb_lt in Eu.
Qed.
End Kept.

(** ** A refresh token that should not exist any more *)
Section Replay.
Context `{AuthEnv} (cfg : Config).

(** The hash is the current one of a session that is over, or a retired one of a session that
    is still there. *)
Definition leaked (h : string) (w : World) (id : string) (s : Session) : Prop :=
  (with_hash h (sess (db w)) = Some (id, s) /\ IsUsable s (now w) = false) \/
  (with_hash h (sess (db w)) = None /\ retired (db w) !! h = Some id /\ sess (db w) !! id = Some s).

Lemma Rotate_refused h h' e w id s : faults w = [] -> leaked h w id s ->
  Rotate h h' e w = (Err ErrNotFound, w).
Proof.
  intros Hf Hl. unfold Rotate. rewrite call_fine by done.
  destruct Hl as [[-> ->]|[-> _]]; done.
Qed.

Lemma locate_leaked h w id s : faults w = [] -> leaked h w id s ->
  locateLeakedToken h w = (Ok (Some (id, UserID s)), w).
Proof.
  intros Hf Hl. unfold locateLeakedToken, bind, attempt, GetByTokenHash, FindRetiredToken, GetByID, query.
  rewrite call_fine by done. destruct Hl as [[-> _]|(-> & Hr & Hs)]; [done|].
  cbn [found]. rewrite call_fine, Hr by done. cbn [found]. by rewrite call_fine, Hs by done.
Qed.

(** Whatever the stores answer, the failure itself is handled. *)
Lemma handleRefreshFailure_ok h w : fst (handleRefreshFailure h w) = Ok tt.
Proof.
  unfold handleRefreshFailure, locateLeakedToken, bind, attempt, ret, record.
  destruct (GetByTokenHash h w) as [[[id s]|e] w1].
  - destruct (RevokeAllForUser _ w1) as [[ids|e2] w2]; [|done]. by destruct (RevokeSessions _ w2).
  - destruct (FindRetiredToken h w1) as [[id|e1] w2]; [|done].
    destruct (GetByID id w2) as [[s|e2] w3]; [|done].
    destruct (RevokeAllForUser _ w3) as [[ids|e3] w4]; [|done]. by destruct (RevokeSessions _ w4).
Qed.

(** Every session of the account is over. *)
Definition all_over (user : string) (w : World) : Prop :=
  forall id s, sess (db w) !! id = Some s -> UserID s = user -> RevokedAt s <> None.

Definition reuse_event (user id : string) : Event := {|
  e_UserID := user; e_Action := "auth.refresh_reuse_detected"; e_ResourceID := id;
  e_Status := "FAILURE" |}.

Lemma revoked_everywhere user m t id s :
  ((fun s => if live_of user s then revoke_at t s else s) <$> m : gmap string Session) !! id = Some s ->
  UserID s = user -> RevokedAt s <> None.
Proof.
  rewrite lookup_fmap. intros (s0 & _ & ->)%fmap_Some Hu. unfold live_of in *.
  destruct (UserID s0 =? user)%string eqn:E; cbn [andb] in *.
  - destruct (RevokedAt s0) eqn:Er; [by rewrite Er|apply revoke_at_fields].
  - apply String.eqb_neq in E. done.
Qed.

Lemma handle_leaked h w id s : faults w = [] -> leaked h w id s ->
  exists w', handleRefreshFailure h w = (Ok tt, w') /\ all_over (UserID s) w' /\
    exists l, audit w' = (l ++ [reuse_event (UserID s) id])%list.
Proof.
  intros Hf Hl. unfold handleRefreshFailure, bind at 1. rewrite (locate_leaked h w id s) by done.
  unfold bind at 1, attempt at 1, RevokeAllForUser. rewrite call_fine by done.
  set (w2 := set_sessions _ _ w). set (ids := map fst _).
  unfold bind, attempt. pose proof (RevokeSessions_same (ids ++ [id]) w2) as [Hs _].
  destruct (RevokeSessions (ids ++ [id]) w2) as [r w3]. simpl in Hs.
  eexists. split; [reflexivity|]. split; [|by exists (audit w3)].
  intros i a Ha Hu. cbn in Ha. rewrite Hs in Ha. subst w2. cbn -[fmap] in Ha.
  by eapply revoked_everywhere.
Qed.

Lemma Refresh_leaked token w id s : faults w = [] -> token <> "" -> random w <> [] ->
  leaked (HashToken token) w id s ->
  exists w', Refresh cfg token w = (Err ErrInvalidToken, w') /\ all_over (UserID s) w' /\
    exists l, audit w' = (l ++ [reuse_event (UserID s) id])%list.
Proof.
  intros Hf Ht Hr Hl. unfold Refresh. apply String.eqb_neq in Ht. rewrite Ht.
  unfold bind at 1, NewToken. destruct (random w) as [|nt ts]; [done|].
  set (w1 := set_chance _ _ _ w). assert (Hf1 : faults w1 = []) by done.
  assert (Hl1 : leaked (HashToken token) w1 id s) by done.
  unfold bind at 1, get, bind at 1, attempt. rewrite (Rotate_refused _ _ _ _ id s Hf1 Hl1).
  destruct (handle_leaked _ _ _ _ Hf1 Hl1) as (w' & Hh & Ha & Hev).
  exists w'. unfold bind. rewrite Hh. done.
Qed.

Lemma all_over_Authenticate user token c w w' : all_over user w ->
  Authenticate token w = (Ok c, w') -> exists s, sess (db w) !! SessionID c = Some s /\ UserID s <> user.
Proof.
  intros Ha Hau. destruct (Authenticate_session _ _ _ _ Hau) as (s & Hs & Hu). exists s. split; [done|].
  intros He. unfold IsUsable in Hu. destruct (RevokedAt s) eqn:E; [done|]. by eapply Ha.
Qed.

(** A refresh token that leaked is worth nothing, and gives itself away. With the stores up,
    presenting the token of a session that is over, or one a session has already
    replaced, is answered like any invalid token; and then every session of that account has
    been revoked, no access token of any of them is accepted, and the audit trail ends with
    the detection. *)
Theorem leaked_token_ends_all_sessions token w id s :
  faults w = [] -> token <> "" -> random w <> [] -> leaked (HashToken token) w id s ->
  exists w', Refresh cfg token w = (Err ErrInvalidToken, w') /\
    (forall i t, sess (db w') !! i = Some t -> UserID t = UserID s -> RevokedAt t <> None) /\
    (forall a c w'', Authenticate a w' = (Ok c, w'') ->
       exists t, sess (db w') !! SessionID c = Some t /\ UserID t <> UserID s) /\
    exists l, audit w' = (l ++ [reuse_event (UserID s) id])%list.
Proof.
  intros Hf Ht Hr Hl. destruct (Refresh_leaked token w id s Hf Ht Hr Hl) as (w' & Hw & Ha & Hev).
  exists w'. split_and!; [done|done| |done]. intros a c w''. by apply all_over_Authenticate.
Qed.

Lemma Rotate_spent o h e w id s w' :
  Rotate o h e w = (Ok (id, s), w') -> o <> h -> hashes_unique (sess (db w)) ->
  retired (db w) !! o = None ->
  hashes_unique (sess (db w')) /\ spent o id (sess (db w')) (retired (db w')).
Proof.
  intros Hr Hne Hu Hret. pose proof (Rotate_moved o h e w) as Hm. rewrite Hr in Hm. simpl in Hm.
  split; [by eapply moves_unique|].
  apply Rotate_ok in Hr as (s0 & Hs & Ho & Hv & -> & _ & _ & Hs' & Hr'). rewrite Hret in Hr'.
  unfold spent. rewrite Hs', Hr'. split.
  - intros i a. rewrite lookup_insert. case_decide as Hi; [intros [= <-]; simpl; congruence|].
    intros Ha Hah. apply Hi. symmetry. eapply Hu; [exact Ha|exact Hs|congruence].
  - intros _. apply lookup_insert_eq.
Qed.

(** C7: a refresh token works once. Once a rotation with it has committed, whatever statements
    any requests run in any order, through any failures, as long as the tokens and session
    identifiers they draw are new: presenting it again is refused as invalid, and if its session
    still exists, every session of that account is revoked by that. *)
Theorem refresh_token_works_once token h e w id s w1 ls w2 :
  hashes_unique (sess (db w)) -> retired (db w) !! HashToken token = None ->
  HashToken token <> h -> token <> "" ->
  Rotate (HashToken token) h e w = (Ok (id, s), w1) ->
  run (auth_step cfg) w1 ls w2 ->
  Forall (fun l => fst l <> Some id /\ snd l <> Some (HashToken token)) ls ->
  faults w2 = [] -> random w2 <> [] ->
  exists w3, Refresh cfg token w2 = (Err ErrInvalidToken, w3) /\
    forall s2, sess (db w2) !! id = Some s2 ->
    forall i t, sess (db w3) !! i = Some t -> UserID t = UserID s2 -> RevokedAt t <> None.
Proof.
  intros Hu Hret Hne Ht Hrot Hrun Hfresh Hf Hr.
  destruct (Rotate_spent _ _ _ _ _ _ _ Hrot Hne Hu Hret) as [Hu1 Hsp].
  assert (Hs2 : hashes_unique (sess (db w2)) /\ spent (HashToken token) id (sess (db w2)) (retired (db w2))).
  { eapply (run_kept cfg (fun m r => hashes_unique m /\ spent (HashToken token) id m r)); [|done|done|done].
    intros m r l m' r' Hm [Hl1 Hl2] [Hx Hy]. split; [by eapply moves_unique|by eapply moves_spent]. }
  destruct Hs2 as [Hu2 [Hcur Hre]].
  assert (Hnone : with_hash (HashToken token) (sess (db w2)) = None).
  { destruct (with_hash _ _) as [[j t]|] eqn:E; [|done]. apply with_hash_some in E as [Hj Hh].
    by destruct (Hcur j t Hj). }
  destruct (sess (db w2) !! id) as [s2|] eqn:Es.
  - destruct (Refresh_leaked token w2 id s2 Hf Ht Hr) as (w3 & Hw3 & Ha & _).
    { right. split_and!; [done| |done]. apply Hre. by eexists. }
    exists w3. split; [done|]. by intros s3 [= <-].
  - unfold Refresh. apply String.eqb_neq in Ht. rewrite Ht. unfold bind at 1, NewToken.
    destruct (random w2) as [|nt ts]; [done|]. set (w2' := set_chance _ _ _ w2).
    assert (Hf' : faults w2' = []) by done.
    unfold bind at 1, get, bind at 1, attempt, Rotate. rewrite call_fine by done.
    change (sess (db w2')) with (sess (db w2)). rewrite Hnone.
    destruct (handleRefreshFailure (HashToken token) w2') as [r w3] eqn:Eh. exists w3.
    pose proof (handleRefreshFailure_ok (HashToken token) w2') as Hok. rewrite Eh in Hok.
    simpl in Hok. subst r. unfold bind. by rewrite Eh.
Qed.

(** C35: logging out is final. Once [Logout] has succeeded, nothing that happens later (any
    statements of any requests in any order, through any failures, drawing new session
    identifiers) brings the session back: no access token of it is accepted and no refresh token
    of it is exchanged. *)
Theorem logout_is_final claims w w1 ls w2 :
  Logout claims w = (Ok tt, w1) ->
  run (auth_step cfg) w1 ls w2 ->
  Forall (fun l => fst l <> Some (SessionID claims)) ls ->
  (forall token c w3, Authenticate token w2 = (Ok c, w3) -> SessionID c <> SessionID claims) /\
  (forall o h e id s w3, Rotate o h e w2 = (Ok (id, s), w3) -> id <> SessionID claims).
Proof.
  intros Hl Hrun Hfresh.
  assert (He1 : ended (SessionID claims) (sess (db w1))).
  { unfold Logout, revokeSession, bind in Hl.
    destruct (Revoke (SessionID claims) w) as [[u|e] wa] eqn:Er; [|done].
    pose proof (RevokeTokens_same (SessionID claims) wa) as [Hs _].
    destruct (RevokeTokens (SessionID claims) wa) as [[u'|e'] wb]; [|done]. injection Hl as <-.
    simpl in Hs |- *. rewrite Hs. apply call_ran in Er as (fs & Er). injection Er as _ <-.
    intros s. cbn -[alter]. rewrite lookup_alter_eq. intros (s0 & _ & ->)%fmap_Some.
    apply revoke_at_fields. }
  assert (He2 : ended (SessionID claims) (sess (db w2))).
  { eapply (run_kept cfg (fun m _ => ended (SessionID claims) m)); [|done|done|done].
    intros m r l m' r' Hm Hl1 Hx. by eapply moves_ended. }
  split.
  - intros token c w3 Ha Hc. destruct (Authenticate_session _ _ _ _ Ha) as (s & Hs & Hus).
    rewrite Hc in Hs. apply He2 in Hs. unfold IsUsable in Hus. destruct (RevokedAt s); [discriminate Hus|by apply Hs].
  - intros o h e id s w3 Hr ->. apply Rotate_ok in Hr as (s0 & Hs & _ & Hv & _). by apply He2 in Hs.
Qed.
End Replay.

(** ** A small installation *)
#[local] Instance toy_auth : AuthEnv := {
  HashToken t := ("sha256:" ++ t)%string;
  VerifyPassword p h := Some (p =? h)%string;
  NeedsRehash _ := false;
  HashPassword p := Some p;
}.
Definition toy_cfg : Config := {|
  AccessTokenTTL := 15 * Minute; RefreshTokenTTL := 14 * 24 * Hour; MFAChallengeTTL := 5 * Minute;
  userLimit := {| prefix := "u:"; limit := 5; window := Minute |};
  ipLimit := {| prefix := "i:"; limit := 20; window := Minute |} |}.
Definition alice : User := {|
  u_ID := "u1"; u_Username := "alice"; PasswordHash := "secret"; u_Status := "active" |}.
Definition day0 : World := {|
  db := {| users := {[ "u1"%string := alice ]}; roles_of := ∅;
           permissions_of := {[ "u1"%string := ["website.view"; "user.manage"]%string ]};
           two_factor := ∅; sess := ∅; retired := ∅ |};
  cache := {| access := ∅; index_of := ∅; mfa := ∅;
              limits := {| counters := ∅; RateLimit.faults := [] |} |};
  audit := []; now := 0; random := ["r1"; "a1"; "r2"; "a2"; "r3"; "a3"]%string;
  uuids := ["s1"; "s2"]%string; faults := [] |}.

(** Signed in, and signed in and refreshed. *)
Definition day1 : World := snd (Login toy_cfg "Alice " "secret" "" day0).
Definition day2 : World := snd (Refresh toy_cfg "r1" day1).
Definition session1 (hash : string) : Session := {|
  UserID := "u1"; TokenHash := hash; ExpiresAt := 14 * 24 * Hour; CreatedAt := 0; RevokedAt := None |}.
Definition claims1 : AccessClaims := {|
  c_UserID := "u1"; c_Username := "alice"; SessionID := "s1";
  Permissions := ["website.view"; "user.manage"]%string; Roles := []; IssuedAt := 0; ImpersonatorUserID := "" |}.

Example login_then_authenticate :
  fst (Login toy_cfg "Alice " "secret" "" day0) =
    Ok (Tokens {| AccessToken := "a1"; RefreshToken := "r1"; ExpiresIn := 900 |}) /\
  fst (Authenticate "a1" day1) = Ok claims1 /\
  fst (Refresh toy_cfg "r1" day1) = Ok {| AccessToken := "a2"; RefreshToken := "r2"; ExpiresIn := 900 |} /\
  fst (Authenticate "a1" day2) = Err ErrInvalidToken.
Proof. vm_compute. split_and!; reflexivity. Qed.

Lemma day2_leaked : leaked (HashToken "r1") day2 "s1" (session1 "sha256:r2").
Proof. right. vm_compute. split_and!; reflexivity. Qed.

Lemma leaked_token_ends_all_sessions_witness :
  exists w', Refresh toy_cfg "r1" day2 = (Err ErrInvalidToken, w') /\
    forall t, sess (db w') !! "s1"%string = Some t -> UserID t = "u1"%string -> RevokedAt t <> None.
Proof.
  destruct (leaked_token_ends_all_sessions toy_cfg "r1" day2 "s1" (session1 "sha256:r2"))
    as (w' & Hw & Ha & _).
  - vm_compute. reflexivity.
  - discriminate.
  - vm_compute. discriminate.
  - exact day2_leaked.
  - exists w'. split; [exact Hw|]. intros t. exact (Ha "s1"%string t).
Defined.

Lemma day1_unique : hashes_unique (sess (db day1)).
Proof.
  intros i j s t. change (sess (db day1)) with ({[ "s1"%string := session1 "sha256:r1" ]} : gmap string Session).
  intros [<- _]%lookup_singleton_Some [<- _]%lookup_singleton_Some _. reflexivity.
Qed.

Definition rotated1 : World := snd (Rotate (HashToken "r1") "sha256:r2" (14 * 24 * Hour) day1).
Lemma day1_rotates :
  Rotate (HashToken "r1") "sha256:r2" (14 * 24 * Hour) day1 = (Ok ("s1"%string, session1 "sha256:r2"), rotated1).
Proof. vm_compute. reflexivity. Qed.

Lemma refresh_token_works_once_witness :
  let later := snd (Issue toy_cfg claims1 rotated1) in
  exists w3, Refresh toy_cfg "r1" later = (Err ErrInvalidToken, w3) /\
    forall t, sess (db w3) !! "s1"%string = Some t -> UserID t = "u1"%string -> RevokedAt t <> None.
Proof.
  intros later.
  destruct (refresh_token_works_once toy_cfg "r1" "sha256:r2" (14 * 24 * Hour) day1 "s1"
    (session1 "sha256:r2") rotated1 [old] later day1_unique) as (w3 & Hw & Ha).
  - vm_compute. reflexivity.
  - discriminate.
  - discriminate.
  - exact day1_rotates.
  - exact (run_cons _ _ _ _ [] _ (step_issue toy_cfg claims1 rotated1) (run_nil _ later)).
  - constructor; [split; discriminate|constructor].
  - vm_compute. reflexivity.
  - vm_compute. discriminate.
  - exists w3. split; [exact Hw|]. intros t.
    assert (Hs : sess (db later) !! "s1"%string = Some (session1 "sha256:r2")) by (vm_compute; reflexivity).
    exact (Ha (session1 "sha256:r2") Hs "s1"%string t).
Defined.

Definition logged_out : World := snd (Logout claims1 day1).
Lemma day1_logs_out : Logout claims1 day1 = (Ok tt, logged_out).
Proof. vm_compute. reflexivity. Qed.

Lemma logout_is_final_witness :
  let later := snd (Issue toy_cfg claims1 logged_out) in
  run (auth_step toy_cfg) logged_out [old] later /\
  forall token c w3, Authenticate token later = (Ok c, w3) -> SessionID c <> "s1"%string.
Proof.
  intros later.
  assert (Hrun : run (auth_step toy_cfg) logged_out [old] later)
    by exact (run_cons _ _ _ _ [] _ (step_issue toy_cfg claims1 logged_out) (run_nil _ later)).
  split; [exact Hrun|]. apply (logout_is_final toy_cfg claims1 day1 logged_out [old] later day1_logs_out).
  - exact Hrun.
  - constructor; [discriminate|constructor].
Defined.

(** An impersonated session that is refreshed is impersonated no longer: the new access token
    names nobody but the subject, carries the permissions the impersonation withheld, and the
    session now lasts as long as the subject's own. *)
Lemma refreshing_ends_the_impersonation :
  let '(opened, w1) := Impersonate toy_cfg "admin" alice day0 in
  let '(tokens, w2) := Refresh toy_cfg "r1" w1 in
  opened = Ok ({| AccessToken := "a1"; RefreshToken := "r1"; ExpiresIn := 900 |}, "s1"%string) /\
  (ExpiresAt <$> sess (db w1) !! "s1"%string) = Some impersonationTTL /\
  (ImpersonatorUserID <$> match fst (Authenticate "a1" w1) with Ok c => Some c | _ => None end) = Some "admin"%string /\
  (Permissions <$> match fst (Authenticate "a1" w1) with Ok c => Some c | _ => None end) = Some ["website.view"%string] /\
  tokens = Ok {| AccessToken := "a2"; RefreshToken := "r2"; ExpiresIn := 900 |} /\
  fst (Authenticate "a2" w2) = Ok claims1 /\
  (ExpiresAt <$> sess (db w2) !! "s1"%string) = Some (RefreshTokenTTL toy_cfg).
Proof. vm_compute. split_and!; reflexivity. Qed.
