(* ===== verification/Metrics.v ===== *)
(** * Metric history ([api/internal/metrics/metrics.go], [rollup.go], [sampler.go])

    The samples taken of each host and their hourly summaries, the two tables of the
    repository with one definition per statement, the sampler's rounds, and the question the
    monitor asks of them: since when a threshold has been breached. *)

From stdpp Require Import gmap list sorting.
From S2P Require Import Prelude Store GoStr GoTime GoFloat.

#[local] Open Scope Z_scope.
#[local] Open Scope store_scope.

(** ** State *)
Inductive db_err := ErrBackend | ErrNotFound.

(** A reading as the sampler took it; absent means it could not be taken. *)
Record Sample := {
  Timestamp : Z;
  CPUPercent : option float; MemoryPercent : option float; DiskPercent : option float;
  Load1 : option float; Load5 : option float; Load15 : option float;
  NetworkRx : option Z; NetworkTx : option Z;
}.

Definition is_none {A} (o : option A) : bool := match o with None => true | Some _ => false end.

Definition Empty (s : Sample) : bool :=
  is_none (CPUPercent s) && is_none (MemoryPercent s) && is_none (DiskPercent s) &&
  is_none (Load1 s) && is_none (Load5 s) && is_none (Load15 s) &&
  is_none (NetworkRx s) && is_none (NetworkTx s).

(** A row of [system_metrics]; numbers are hundredths. *)
Record Row := {
  server : string; at_ : Z;
  cpu : option Z; memory : option Z; disk : option Z;
  load_1 : option Z; load_5 : option Z; load_15 : option Z;
  rx : option Z; tx : option Z;
}.

(** A row of [metric_rollups] but for its key, the server and the start of the hour. *)
Record Rollup := {
  cpu_avg : option Z; cpu_max : option Z; memory_avg : option Z; memory_max : option Z;
  disk_avg : option Z; disk_max : option Z; load_1_avg : option Z; load_1_max : option Z;
  rx_per_second : option Z; tx_per_second : option Z;
  sample_count : nat;
}.

Record Metrics := {
  rows : list Row;
  rollups : gmap (string * Z) Rollup;
  status : gmap string string;
  faults : list fault;
}.

#[global] Instance Metrics_faulty : Faulty Metrics := {
  faults_of := faults;
  with_faults fs w := {| rows := rows w; rollups := rollups w; status := status w; faults := fs |};
}.
Definition set_rows (l : list Row) (w : Metrics) : Metrics :=
  {| rows := l; rollups := rollups w; status := status w; faults := faults w |}.
Definition set_rollups (m : gmap (string * Z) Rollup) (w : Metrics) : Metrics :=
  {| rows := rows w; rollups := m; status := status w; faults := faults w |}.
Definition set_status (m : gmap string string) (w : Metrics) : Metrics :=
  {| rows := rows w; rollups := rollups w; status := m; faults := faults w |}.

Local Abbreviation M := (Store.M Metrics db_err).
Local Abbreviation call := (Store.call ErrBackend).
Local Abbreviation query := (Store.query ErrBackend).

(** ** Samples *)
Section repository.
Context `{Numeric}.

(** The row a sample becomes, if every number fits its column. *)
Definition row_of (srv : string) (s : Sample) : option Row :=
  cpu ← to_nullable 5 (CPUPercent s);
  memory ← to_nullable 5 (MemoryPercent s);
  disk ← to_nullable 5 (DiskPercent s);
  l1 ← to_nullable 8 (Load1 s);
  l5 ← to_nullable 8 (Load5 s);
  l15 ← to_nullable 8 (Load15 s);
  Some {| server := srv; at_ := Timestamp s; cpu := cpu; memory := memory; disk := disk;
          load_1 := l1; load_5 := l5; load_15 := l15; rx := NetworkRx s; tx := NetworkTx s |}.

(** [Insert]; [now] is read when the sample carries no time of its own. *)
Definition Insert (srv : string) (s : Sample) (now : Z) : M unit :=
  if Empty s then ret tt
  else
    let s := if IsZero (Timestamp s)
             then {| Timestamp := now; CPUPercent := CPUPercent s; MemoryPercent := MemoryPercent s;
                     DiskPercent := DiskPercent s; Load1 := Load1 s; Load5 := Load5 s;
                     Load15 := Load15 s; NetworkRx := NetworkRx s; NetworkTx := NetworkTx s |}
             else s in
    call (fun w => match row_of srv s with
                   | Some r => (Ok tt, set_rows (rows w ++ [r])%list w)
                   | None => (Err ErrBackend, w)
                   end).

(** [Prune] deletes samples across all servers. *)
Definition Prune (cutoff : Z) : M Z :=
  call (fun w => let kept := filter (fun r => cutoff <= at_ r) (rows w) in
                 (Ok (Z.of_nat (length (rows w) - length kept)), set_rows kept w)).

(** ** Aggregation *)
Definition values (f : Row -> option Z) (l : list Row) : list Z := omap f l.

Definition sum (l : list Z) : Z := foldr Z.add 0 l.
Definition min_of (l : list Z) : option Z :=
  match l with [] => None | x :: l => Some (foldr Z.min x l) end.
Definition max_of (l : list Z) : option Z :=
  match l with [] => None | x :: l => Some (foldr Z.max x l) end.

(** [avg] as a NUMERIC(_, 2) column rounds it, halves away from zero. *)
Definition avg_of (l : list Z) : option Z :=
  let n := Z.of_nat (length l) in
  match l with
  | [] => None
  | _ => Some (if 0 <=? sum l then div_half_up (sum l) n else - div_half_up (- sum l) n)
  end.

(** The counter's growth over the seconds between the first sample and the last. *)
Definition rate (f : Row -> option Z) (l : list Row) : option Z :=
  let times := map at_ l in
  match min_of times, max_of times, min_of (values f l), max_of (values f l) with
  | Some t0, Some t1, Some lo, Some hi =>
      if (0 <? t1 - t0) && (lo <=? hi) then Some (div_half_up ((hi - lo) * 100 * Second) (t1 - t0))
      else None
  | _, _, _, _ => None
  end.

(** One group of the statement's inner query. *)
Definition summarise (l : list Row) : Rollup := {|
  cpu_avg := avg_of (values cpu l); cpu_max := max_of (values cpu l);
  memory_avg := avg_of (values memory l); memory_max := max_of (values memory l);
  disk_avg := avg_of (values disk l); disk_max := max_of (values disk l);
  load_1_avg := avg_of (values load_1 l); load_1_max := max_of (values load_1 l);
  rx_per_second := rate rx l; tx_per_second := rate tx l;
  sample_count := length l;
|}.

Definition RollupBucket : Z := Hour.

(** [date_bin('1 hour', t, epoch)], and [Truncate(RollupBucket)] for the hour of [now]. *)
Definition bucket (t : Z) : Z := t - t mod RollupBucket.

Definition in_bucket (srv : string) (b : Z) (l : list Row) : list Row :=
  filter (fun r => server r = srv /\ bucket (at_ r) = b) l.

(** The groups of one server: its samples before [limit], by hour. *)
Definition fresh (srv : string) (limit : Z) (l : list Row) : gmap (string * Z) Rollup :=
  let mine := filter (fun r => server r = srv /\ at_ r < limit) l in
  list_to_map (map (fun b => ((srv, b), summarise (in_bucket srv b mine)))
                 (remove_dups (map (fun r => bucket (at_ r)) mine))).

(** A rate that does not fit NUMERIC(16, 2) fails the whole statement. *)
Definition rates_fit (r : Rollup) : bool :=
  let fits o := match o with Some z => z <? 10 ^ 16 | None => true end in
  fits (rx_per_second r) && fits (tx_per_second r).

(** The row kept on a conflict. *)
Definition better (new old : Rollup) : option Rollup :=
  Some (if (sample_count old <=? sample_count new)%nat then new else old).

(** The conflicts on which nothing is written. *)
Definition outdone (old : gmap (string * Z) Rollup) (x : string * Z * Rollup) : bool :=
  match old !! fst x with
  | Some r => (sample_count (snd x) <? sample_count r)%nat
  | None => false
  end.

(** [Rollup]: INSERT ... ON CONFLICT DO UPDATE ... WHERE the count has not gone down. *)
Definition RollUp (srv : string) (now : Z) : M Z :=
  call (fun w =>
    let new := fresh srv (bucket now) (rows w) in
    if map_fold (fun _ r ok => rates_fit r && ok) true new then
      let worse := filter (fun x => outdone (rollups w) x = true) new in
      (Ok (Z.of_nat (size new - size worse)), set_rollups (union_with better new (rollups w)) w)
    else (Err ErrBackend, w)).

Definition PruneRollups (cutoff : Z) : M Z :=
  call (fun w => let kept := filter (fun x => cutoff <= snd (fst x)) (rollups w) in
                 (Ok (Z.of_nat (size (rollups w) - size kept)), set_rollups kept w)).

(** ** Since when a threshold has been breached *)
Definition breachColumns (metric : string) : option (Row -> option Z) :=
  if (metric =? "cpu")%string then Some cpu
  else if (metric =? "memory")%string then Some memory
  else if (metric =? "load")%string then Some load_1
  else None.

(** The comparison of the statement, [>] or [<]. *)
Definition breaches (threshold : float) (above : bool) (z : Z) : bool :=
  match num_compare z threshold, above with
  | Gt, true | Lt, false => true
  | _, _ => false
  end.

(** The instants of the samples in the window whose value satisfies [p]. *)
Definition instants (srv : string) (from : Z) (col : Row -> option Z) (p : Z -> bool) (l : list Row)
  : list Z :=
  map at_ (filter (fun r => server r = srv /\ from <= at_ r /\ (p <$> col r) = Some true) l).

Definition BreachedSince (srv metric : string) (threshold : float) (above : bool) (now : Z)
  : M (option Z) :=
  match breachColumns metric with
  | None => ret None
  | Some col =>
      let from := now - 24 * Hour in
      query (fun w =>
        let p := breaches threshold above in
        let last := default from (max_of (instants srv from col (fun z => negb (p z)) (rows w))) in
        Ok (min_of (filter (fun t => last < t) (instants srv from col p (rows w)))))
  end.

(** ** The sampler *)

(** What the Agent answered to each probe of a round: the usage and its window, the share of
    memory used, the three load averages, used and total bytes of the disks, and bytes
    received and sent. *)
Record Probes := {
  p_cpu : option (float * string);
  p_memory : option float;
  p_load : option (float * float * float);
  p_disk : option (Z * Z);
  p_network : option (Z * Z);
}.

Definition round2 (x : float) : float :=
  f_div (f_int (f_trunc (f_add (f_mul x (f_int 100)) (f_make 1 (-1))))) (f_int 100).

Definition sample_of (p : Probes) (now : Z) : Sample := {|
  Timestamp := now;
  CPUPercent :=
    match p_cpu p with
    | Some (usage, window) =>
        if (window =? "")%string || (window =? "0s")%string then None else Some usage
    | None => None
    end;
  MemoryPercent := p_memory p;
  DiskPercent :=
    match p_disk p with
    | Some (used, total) =>
        if 0 <? total then Some (round2 (f_mul (f_div (f_int used) (f_int total)) (f_int 100)))
        else None
    | None => None
    end;
  Load1 := (fun l => fst (fst l)) <$> p_load p;
  Load5 := (fun l => snd (fst l)) <$> p_load p;
  Load15 := snd <$> p_load p;
  NetworkRx := (fun n => wrap64 (fst n)) <$> p_network p;
  NetworkTx := (fun n => wrap64 (snd n)) <$> p_network p;
|}.

Definition reachable (p : Probes) : bool :=
  negb (is_none (p_cpu p) && is_none (p_memory p) && is_none (p_load p) &&
        is_none (p_disk p) && is_none (p_network p)).

(** [servers.SetStatus]. *)
Definition SetStatus (srv st : string) : M unit :=
  call (fun w => match status w !! srv with
                 | Some _ => (Ok tt, set_status (<[srv := st]> (status w)) w)
                 | None => (Err ErrNotFound, w)
                 end).

(** Failures of the two writes are only logged. *)
Definition sampleOnce (srv : string) (p : Probes) (now : Z) : M unit :=
  let s := sample_of p now in
  let! _ := attempt (SetStatus srv (if reachable p then "online" else "offline")) in
  if Empty s then ret tt
  else let! _ := attempt (Insert srv s now) in ret tt.

Definition rollup (srv : string) (rollupRetention t1 t2 : Z) : M unit :=
  let! written := attempt (RollUp srv t1) in
  match written with
  | Err _ => ret tt
  | Ok _ => let! _ := attempt (PruneRollups (t2 - rollupRetention)) in ret tt
  end.

Definition prune (retention t : Z) : M unit :=
  let! _ := attempt (Prune (t - retention)) in ret tt.

(** A round of the slow ticker; the clock is read for each statement. *)
Definition slow_tick (srv : string) (retention rollupRetention t1 t2 t3 : Z) : M unit :=
  rollup srv rollupRetention t1 t2 ;! prune retention t3.
End repository.

(** ** Lemmas on the aggregates *)
Lemma min_of_spec l m : min_of l = Some m <-> m ∈ l /\ forall x, x ∈ l -> m <= x.
Proof.
  destruct l as [|y l]; simpl.
  { split; [done|]. intros [Hin _]. by apply not_elem_of_nil in Hin. }
  assert (Hg : foldr Z.min y l ∈ y :: l /\ forall x, x ∈ y :: l -> foldr Z.min y l <= x).
  { induction l as [|z l [IH1 IH2]]; simpl.
    - split; [left|]. intros x Hx. apply list_elem_of_singleton in Hx. lia.
    - split.
      + destruct (Z.min_spec z (foldr Z.min y l)) as [[_ ->]|[_ ->]]; [set_solver|].
        apply elem_of_cons in IH1 as [->|IH1]; set_solver.
      + intros x Hx. apply elem_of_cons in Hx as [->|Hx].
        * specialize (IH2 y ltac:(left)). lia.
        * apply elem_of_cons in Hx as [->|Hx]; [lia|].
          specialize (IH2 x ltac:(by right)). lia. }
  split; [by intros [= <-]|]. intros [Hin Hle]. f_equal.
  destruct Hg as [Hg1 Hg2]. specialize (Hg2 m Hin). specialize (Hle _ Hg1). lia.
Qed.

Lemma min_of_none l : min_of l = None <-> l = [].
Proof. by destruct l. Qed.

Lemma max_of_none l : max_of l = None <-> l = [].
Proof. by destruct l. Qed.

Lemma foldr_max_min y l : foldr Z.max y l = - foldr Z.min (- y) (map Z.opp l).
Proof. induction l as [|x l IH]; simpl; lia. Qed.

Lemma max_of_spec l m : max_of l = Some m <-> m ∈ l /\ forall x, x ∈ l -> x <= m.
Proof.
  assert (Hm : max_of l = Z.opp <$> min_of (map Z.opp l)).
  { destruct l; simpl; [done|]. by rewrite foldr_max_min. }
  assert (He : forall x, x ∈ map Z.opp l <-> - x ∈ l).
  { intros x. rewrite list_elem_of_fmap. split.
    - intros (y & -> & Hy). by rewrite Z.opp_involutive.
    - intros Hy. exists (- x). by rewrite Z.opp_involutive. }
  rewrite Hm, fmap_Some. split.
  - intros (n & [Hn1 Hn2]%min_of_spec & ->). apply He in Hn1. split; [done|].
    intros x Hx. specialize (Hn2 (- x)). rewrite He, Z.opp_involutive in Hn2. specialize (Hn2 Hx). lia.
  - intros [H1 H2]. exists (- m). rewrite Z.opp_involutive. split; [|done]. apply min_of_spec.
    rewrite He, Z.opp_involutive. split; [done|]. intros x Hx%He. specialize (H2 _ Hx). lia.
Qed.

Lemma elem_of_instants srv from col p l t :
  t ∈ instants srv from col p l <->
  exists r z, r ∈ l /\ server r = srv /\ from <= at_ r /\ at_ r = t /\ col r = Some z /\ p z = true.
Proof.
  unfold instants. rewrite list_elem_of_fmap. setoid_rewrite list_elem_of_filter.
  setoid_rewrite fmap_Some. naive_solver.
Qed.

(** ** Since when a threshold has been breached *)
Section breached.
Context `{Numeric}.

(** A stored sample that has the metric, and whether it breaches the threshold. *)
Definition reading (w : Metrics) (srv : string) (col : Row -> option Z) (threshold : float)
    (above : bool) (t : Z) (b : bool) : Prop :=
  exists r z, r ∈ rows w /\ server r = srv /\ at_ r = t /\ col r = Some z /\
    breaches threshold above z = b.

Lemma BreachedSince_ok srv metric col threshold above now w o w' :
  breachColumns metric = Some col ->
  BreachedSince srv metric threshold above now w = (Ok o, w') ->
  let from := now - 24 * Hour in
  let last := default from (max_of (instants srv from col (fun z => negb (breaches threshold above z)) (rows w))) in
  o = min_of (filter (fun t => last < t) (instants srv from col (breaches threshold above) (rows w))).
Proof.
  intros Hc Hr. unfold BreachedSince in Hr. rewrite Hc in Hr. unfold query in Hr.
  apply call_ok in Hr as [Hr|[fs Hr]]; by injection Hr.
Qed.

(** Everything from [since] on breaches, and nothing before it in the window continues the run. *)
Definition run_began (w : Metrics) srv col threshold above (from since : Z) : Prop :=
  from < since /\ reading w srv col threshold above since true /\
  (forall t, since <= t -> ~ reading w srv col threshold above t false) /\
  (forall t, from < t < since -> reading w srv col threshold above t true ->
     exists u, t <= u < since /\ reading w srv col threshold above u false).

Lemma BreachedSince_some srv metric col threshold above now w since w' :
  breachColumns metric = Some col ->
  BreachedSince srv metric threshold above now w = (Ok (Some since), w') ->
  run_began w srv col threshold above (now - 24 * Hour) since.
Proof.
  intros Hc Hr. pose proof (BreachedSince_ok _ _ _ _ _ _ _ _ _ Hc Hr) as Ho. cbn zeta in Ho.
  set (from := now - 24 * Hour) in *.
  set (bad := instants srv from col (fun z => negb (breaches threshold above z)) (rows w)) in *.
  symmetry in Ho. apply min_of_spec in Ho as [Hin Hmin]. apply list_elem_of_filter in Hin as [Hlast Hin].
  apply elem_of_instants in Hin as (r & z & Hr1 & Hr2 & Hr3 & Hr4 & Hr5 & Hr6).
  assert (Hmax : from <= default from (max_of bad) /\ forall t, t ∈ bad -> t <= default from (max_of bad)).
  { destruct (max_of bad) as [m|] eqn:E; simpl.
    - apply max_of_spec in E as [Hm1 Hm2]. split; [|done].
      apply elem_of_instants in Hm1 as (? & ? & _ & _ & ? & <- & _). done.
    - apply max_of_none in E. rewrite E. split; [lia|]. intros t Ht. by apply not_elem_of_nil in Ht. }
  destruct Hmax as [Hmax1 Hmax2]. split_and!.
  - lia.
  - exists r, z. auto.
  - intros t Ht (r' & z' & H1 & H2 & H3 & H4 & H5).
    assert (t ∈ bad) as Hb%Hmax2; [|lia].
    apply elem_of_instants. exists r', z'. rewrite H5. split_and!; try done. lia.
  - intros t Ht (r' & z' & H1 & H2 & H3 & H4 & H5).
    destruct (decide (default from (max_of bad) < t)) as [Hd|Hd].
    { exfalso. assert (t ∈ filter (fun t => default from (max_of bad) < t)
                              (instants srv from col (breaches threshold above) (rows w))) as Hx%Hmin; [|lia].
      apply list_elem_of_filter. split; [done|]. apply elem_of_instants.
      exists r', z'. split_and!; try done. lia. }
    destruct (max_of bad) as [m|] eqn:E; simpl in Hd, Hlast; [|lia].
    exists m. split; [lia|]. apply max_of_spec in E as [Hm _].
    apply elem_of_instants in Hm as (r2 & z2 & G1 & G2 & _ & G3 & G4 & G5%negb_true_iff).
    exists r2, z2. auto.
Qed.

Lemma BreachedSince_none srv metric col threshold above now w w' t :
  breachColumns metric = Some col ->
  BreachedSince srv metric threshold above now w = (Ok None, w') ->
  now - 24 * Hour < t -> reading w srv col threshold above t true ->
  exists u, t <= u /\ reading w srv col threshold above u false.
Proof.
  intros Hc Hr Hf (r & z & H1 & H2 & H3 & H4 & H5).
  pose proof (BreachedSince_ok _ _ _ _ _ _ _ _ _ Hc Hr) as Ho. cbn zeta in Ho.
  symmetry in Ho. apply min_of_none in Ho. set (from := now - 24 * Hour) in *.
  set (bad := instants srv from col (fun z => negb (breaches threshold above z)) (rows w)) in *.
  assert (Hle : ~ default from (max_of bad) < t).
  { intros Hd. eapply (not_elem_of_nil t). rewrite <- Ho. apply list_elem_of_filter. split; [done|].
    apply elem_of_instants. exists r, z. split_and!; try done. lia. }
  destruct (max_of bad) as [m|] eqn:E; simpl in Hle; [|lia].
  exists m. split; [lia|]. apply max_of_spec in E as [Hm _].
  apply elem_of_instants in Hm as (r2 & z2 & G1 & G2 & _ & G3 & G4 & G5%negb_true_iff).
  exists r2, z2. auto.
Qed.
End breached.

(** Whatever samples are stored, an answer to the question since when a threshold has been
    breached names the start of the present run: a breaching sample inside the last day, after
    which no sample fails to breach and before which the run does not reach back; and with no
    answer every breaching sample of the day was followed by one that did not breach. *)
Theorem BreachedSince_spec `{Numeric} srv metric col threshold above now w o w'
  (Hc : breachColumns metric = Some col)
  (Hr : BreachedSince srv metric threshold above now w = (Ok o, w')) :
  match o with
  | Some since => run_began w srv col threshold above (now - 24 * Hour) since
  | None => forall t, now - 24 * Hour < t -> reading w srv col threshold above t true ->
              exists u, t <= u /\ reading w srv col threshold above u false
  end.
Proof.
  destruct o as [since|].
  - by eapply BreachedSince_some.
  - intros t. by eapply BreachedSince_none.
Qed.

(** ** The summaries *)
Lemma bucket_le t u : t < bucket u <-> bucket t < bucket u.
Proof.
  unfold bucket, RollupBucket, Hour, Minute, Second.
  pose proof (Z.div_mod t (60 * (60 * 10 ^ 9)) ltac:(lia)).
  pose proof (Z.div_mod u (60 * (60 * 10 ^ 9)) ltac:(lia)).
  pose proof (Z.mod_pos_bound t (60 * (60 * 10 ^ 9)) ltac:(lia)).
  pose proof (Z.mod_pos_bound u (60 * (60 * 10 ^ 9)) ltac:(lia)). split; nia.
Qed.

(** The group of an hour before the limit is that of all the samples. *)
Lemma in_bucket_before srv b u l :
  b < bucket u -> in_bucket srv b (filter (fun r => server r = srv /\ at_ r < bucket u) l) = in_bucket srv b l.
Proof.
  intros Hb. unfold in_bucket. rewrite list_filter_filter. apply list_filter_iff. intros r.
  split; [naive_solver|]. intros [H1 H2]. split_and!; try done. apply bucket_le. lia.
Qed.

Lemma fresh_lookup srv u l srv' b :
  fresh srv (bucket u) l !! (srv', b) =
  if decide (srv' = srv /\ b < bucket u /\ in_bucket srv b l <> []) then Some (summarise (in_bucket srv b l))
  else None.
Proof.
  unfold fresh. set (mine := filter _ l). set (bs := remove_dups _).
  assert (Hbs : forall b, b ∈ bs <-> b < bucket u /\ in_bucket srv b l <> []).
  { intros c. unfold bs. rewrite elem_of_remove_dups, list_elem_of_fmap. split.
    - intros (r & -> & [[Hs Ha] Hr]%list_elem_of_filter). split; [by rewrite <- bucket_le|].
      apply (elem_of_not_nil r). by apply list_elem_of_filter.
    - intros [Hc He]. destruct (in_bucket srv c l) as [|r l1] eqn:Hi; [done|].
      assert (Hr : r ∈ in_bucket srv c l) by (rewrite Hi; left).
      apply list_elem_of_filter in Hr as [[Hs <-] Hr]. exists r. split; [done|].
      apply list_elem_of_filter. split; [|done]. split; [done|]. by rewrite bucket_le. }
  destruct (decide _) as [(-> & Hb & He)|Hn].
  - apply elem_of_list_to_map_1.
    + rewrite <- list_fmap_compose. apply NoDup_fmap_2; [|apply NoDup_remove_dups].
      intros x y [= ->]. done.
    + apply list_elem_of_fmap. exists b. rewrite Hbs. unfold mine. by rewrite in_bucket_before.
  - apply not_elem_of_list_to_map_1. rewrite <- list_fmap_compose, list_elem_of_fmap.
    intros (c & [= -> ->] & Hc%Hbs). apply Hn. tauto.
Qed.

Section summaries.
Context `{Numeric}.

(** No summary claims more samples than its hour has, and none is of an hour without any. *)
Definition summaries_fit (w : Metrics) : Prop :=
  forall srv b s, rollups w !! (srv, b) = Some s ->
    (0 < sample_count s <= length (in_bucket srv b (rows w)))%nat.

Inductive label := inserted | summed.

(** Samples come in and hours are summed up, in any order; every statement may fail. *)
Inductive history_step : Metrics -> label -> Metrics -> Prop :=
| step_insert srv s t w : history_step w inserted (snd (Insert srv s t w))
| step_rollup srv t w : history_step w summed (snd (RollUp srv t w)).

Lemma RollUp_rows srv t w : rows (snd (RollUp srv t w)) = rows w.
Proof.
  apply (respects_call ErrBackend (fun u v => rows v = rows u)); [done|done|congruence|].
  intros v. cbv beta zeta. by case_match.
Qed.

Lemma RollUp_effect srv t w :
  rollups (snd (RollUp srv t w)) = rollups w \/
  rollups (snd (RollUp srv t w)) = union_with better (fresh srv (bucket t) (rows w)) (rollups w).
Proof.
  unfold RollUp, Store.call.
  destruct (faults_of w) as [|[] fs]; cbv beta zeta; try case_match; simpl; auto.
Qed.

Lemma RollUp_ok srv t w n w' :
  RollUp srv t w = (Ok n, w') ->
  rollups w' = union_with better (fresh srv (bucket t) (rows w)) (rollups w).
Proof.
  intros Hr. apply call_ok in Hr as [Hr|[fs Hr]]; cbv beta zeta in Hr; case_match; by simplify_eq.
Qed.

Lemma better_lookup srv t w srv' b :
  union_with better (fresh srv (bucket t) (rows w)) (rollups w) !! (srv', b) =
  if decide (srv' = srv /\ b < bucket t /\ in_bucket srv b (rows w) <> []) then
    match rollups w !! (srv, b) with
    | Some old => better (summarise (in_bucket srv b (rows w))) old
    | None => Some (summarise (in_bucket srv b (rows w)))
    end
  else rollups w !! (srv', b).
Proof.
  rewrite lookup_union_with, fresh_lookup.
  destruct (decide _) as [(-> & ? & ?)|Hn]; simpl; [|by destruct (rollups w !! (srv', b))].
  by destruct (rollups w !! (srv, b)).
Qed.

Lemma in_bucket_app srv b l l' : in_bucket srv b (l ++ l')%list = (in_bucket srv b l ++ in_bucket srv b l')%list.
Proof. apply list.filter_app. Qed.

Lemma Insert_effect srv s t w :
  rollups (snd (Insert srv s t w)) = rollups w /\
  exists l, rows (snd (Insert srv s t w)) = (rows w ++ l)%list.
Proof.
  unfold Insert. destruct (Empty s); [split; [done|]; exists []; by rewrite app_nil_r|].
  apply (respects_call ErrBackend (fun u v => rollups v = rollups u /\ exists l, rows v = (rows u ++ l)%list)).
  - intros v. split; [done|]. exists []. by rewrite app_nil_r.
  - intros fs v. split; [done|]. exists []. by rewrite app_nil_r.
  - intros u v x [H1 [l1 H2]] [H3 [l2 H4]]. split; [congruence|]. exists (l1 ++ l2)%list.
    by rewrite H4, H2, app_assoc.
  - intros v. destruct (row_of _ _) as [r|]; simpl; (split; [done|]); eexists; [done|].
    by rewrite app_nil_r.
Qed.

Lemma history_fits w l w' : summaries_fit w -> history_step w l w' -> summaries_fit w'.
Proof.
  intros Hf Hs srv b s Hl. destruct Hs as [srv' x t w|srv' t w].
  - destruct (Insert_effect srv' x t w) as [Hr [l Hrows]]. rewrite Hr in Hl.
    rewrite Hrows, in_bucket_app, length_app. specialize (Hf _ _ _ Hl). lia.
  - rewrite RollUp_rows. destruct (RollUp_effect srv' t w) as [Hr|Hr]; rewrite Hr in Hl; [by apply Hf|].
    rewrite better_lookup in Hl. destruct (decide _) as [(-> & Hb & He)|Hn]; [|by apply Hf].
    assert (0 < length (in_bucket srv' b (rows w)))%nat.
    { destruct (in_bucket srv' b (rows w)); [done|]. simpl. lia. }
    destruct (rollups w !! (srv', b)) as [old|] eqn:E; [|simplify_eq; simpl; lia].
    unfold better in Hl. simpl in Hl. destruct (_ <=? _)%nat; simplify_eq; [simpl; lia|].
    by apply Hf.
Qed.

(** What a summary of an hour is by definition: nothing if it has no sample. *)
Definition summary (srv : string) (b : Z) (l : list Row) : option Rollup :=
  match in_bucket srv b l with [] => None | l => Some (summarise l) end.

Lemma RollUp_exact srv t w n w' b :
  summaries_fit w -> RollUp srv t w = (Ok n, w') -> b < bucket t ->
  rollups w' !! (srv, b) = summary srv b (rows w').
Proof.
  intros Hf Hr Hb. pose proof (RollUp_rows srv t w) as Hrows. rewrite Hr in Hrows. simpl in Hrows.
  rewrite (RollUp_ok _ _ _ _ _ Hr), better_lookup, Hrows. unfold summary.
  destruct (decide _) as [(_ & _ & He)|Hn].
  - destruct (rollups w !! (srv, b)) as [old|] eqn:E.
    + apply Hf in E. unfold better. simpl.
      destruct (_ <=? _)%nat eqn:Hle; [|apply Nat.leb_gt in Hle; lia].
      by destruct (in_bucket srv b (rows w)).
    + by destruct (in_bucket srv b (rows w)).
  - destruct (in_bucket srv b (rows w)) as [|r l] eqn:Ei; [|naive_solver].
    destruct (rollups w !! (srv, b)) as [old|] eqn:E; [|done].
    apply Hf in E. rewrite Ei in E. simpl in E. lia.
Qed.

(** Whatever the counts were, an hour before the limit is represented by its best evidence. *)
Lemma RollUp_best srv t w n w' b :
  RollUp srv t w = (Ok n, w') -> b < bucket t -> in_bucket srv b (rows w) <> [] ->
  exists s, rollups w' !! (srv, b) = Some s /\
    (length (in_bucket srv b (rows w)) <= sample_count s)%nat /\
    (forall old, rollups w !! (srv, b) = Some old -> sample_count old <= sample_count s)%nat.
Proof.
  intros Hr Hb He. rewrite (RollUp_ok _ _ _ _ _ Hr), better_lookup, decide_True by done.
  destruct (rollups w !! (srv, b)) as [old|]; [|by eexists].
  unfold better. simpl. destruct (_ <=? _)%nat eqn:Hle.
  - apply Nat.leb_le in Hle. eexists. split; [done|]. simpl. split; [lia|]. by intros ? [= <-].
  - apply Nat.leb_gt in Hle. eexists. split; [done|]. split; [lia|]. by intros ? [= <-].
Qed.
End summaries.

(** C36: summing hours up as samples come in gives what summing everything up at the end would:
    after any sequence of inserted samples (late ones too) and rounds of summing up, some of
    them failed or with their answer lost, one that succeeds leaves for every hour that is over
    exactly the summary of all its samples, and none for an hour without samples. *)
Theorem rollup_from_scratch `{Numeric} w0 ls w srv t n w' b
  (H0 : rollups w0 = ∅) (Hrun : run history_step w0 ls w)
  (Hr : RollUp srv t w = (Ok n, w')) (Hb : b < bucket t) :
  rollups w' !! (srv, b) = summary srv b (rows w').
Proof.
  eapply RollUp_exact; [|done|done]. eapply run_invariant; [exact history_fits| |exact Hrun].
  intros s c x Hx. rewrite H0, lookup_empty in Hx. done.
Qed.

(** The slow ticker sums up before it prunes: whatever the prune removes is in a summary with at
    least as many samples, as long as the prune reaches no further than the hour that was
    summed up. *)
Lemma slow_tick_keeps_the_evidence `{Numeric} srv retention rollupRetention t1 t2 t3 w n r :
  faults w = [] -> fst (RollUp srv t1 w) = Ok n -> t3 - retention <= bucket t1 ->
  let w' := snd (slow_tick srv retention rollupRetention t1 t2 t3 w) in
  r ∈ rows w -> server r = srv -> r ∉ rows w' -> t2 - rollupRetention <= bucket (at_ r) ->
  exists s, rollups w' !! (srv, bucket (at_ r)) = Some s /\
    (length (in_bucket srv (bucket (at_ r)) (rows w)) <= sample_count s)%nat.
Proof.
  intros Hf Hok Hlim w' Hin Hsrv Hout Hkept.
  destruct (RollUp srv t1 w) as [o w1] eqn:E. simpl in Hok. subst o.
  assert (Hf1 : faults w1 = []).
  { revert E. unfold RollUp. rewrite call_fine by done. cbv beta zeta.
    case_match; intros E; by simplify_eq. }
  assert (Hw' : rows w' = filter (fun r => t3 - retention <= at_ r) (rows w1) /\
                rollups w' = filter (fun x => t2 - rollupRetention <= snd (fst x)) (rollups w1)).
  { unfold w', slow_tick, bind, rollup, prune, attempt, bind, PruneRollups, Prune, ret.
    rewrite E. cbv beta iota zeta. rewrite call_fine by done. cbv beta iota zeta.
    rewrite call_fine by done. done. }
  destruct Hw' as [Hrows Hroll].
  pose proof (RollUp_rows srv t1 w) as Hr1. rewrite E in Hr1. simpl in Hr1.
  assert (Hold : at_ r < t3 - retention).
  { apply Znot_ge_lt. intros Hge. apply Hout. rewrite Hrows, Hr1. apply list_elem_of_filter.
    split; [lia|done]. }
  assert (Hb : bucket (at_ r) < bucket t1) by (rewrite <- bucket_le; lia).
  assert (Hne : in_bucket srv (bucket (at_ r)) (rows w) <> []).
  { apply (elem_of_not_nil r). by apply list_elem_of_filter. }
  destruct (RollUp_best _ _ _ _ _ _ E Hb Hne) as (s & Hs & Hc & _).
  exists s. split; [|done]. rewrite Hroll. by apply map_lookup_filter_Some.
Qed.

(** ** Examples *)
Module Samples.
#[local] Existing Instance toy_numeric.

Definition row (t c l r : Z) : Row := {|
  server := "s"; at_ := t; cpu := Some c; memory := None; disk := None; load_1 := Some l;
  load_5 := None; load_15 := None; rx := Some r; tx := None |}.

Definition noon : Z := 12 * Hour.
Definition empty : Metrics := {| rows := []; rollups := ∅; status := ∅; faults := [] |}.

Definition taken (t : Z) (c : float) : Sample := {|
  Timestamp := t; CPUPercent := Some c; MemoryPercent := None; DiskPercent := None;
  Load1 := None; Load5 := None; Load15 := None; NetworkRx := None; NetworkTx := None |}.

Definition one : Metrics := snd (Insert "s" (taken (noon + Minute) (f_int 40)) 0 empty).
Definition summed_up : Metrics := snd (RollUp "s" (noon + Hour) one).
(** A sample of the summed-up hour comes in late. *)
Definition late : Metrics := snd (Insert "s" (taken (noon + 2 * Minute) (f_int 61)) 0 summed_up).

Lemma rollup_from_scratch_witness :
  let w' := snd (RollUp "s" (noon + 3 * Hour) late) in
  rollups w' !! ("s"%string, noon) = summary "s" noon (rows w') /\
  (cpu_avg <$> summary "s" noon (rows w')) = Some (Some 5050) /\
  (cpu_avg <$> rollups summed_up !! ("s"%string, noon)) = Some (Some 4000).
Proof.
  intros w'. split.
  - assert (Hr : RollUp "s" (noon + 3 * Hour) late = (Ok 1, w')) by (vm_compute; reflexivity).
    refine (rollup_from_scratch empty [inserted; summed; inserted] late "s" (noon + 3 * Hour) 1 w' noon
              eq_refl _ Hr _).
    + exact (run_cons _ _ _ _ _ _ (step_insert "s" (taken (noon + Minute) (f_int 40)) 0 empty)
               (run_cons _ _ _ _ _ _ (step_rollup "s" (noon + Hour) one)
                  (run_cons _ _ _ _ _ _ (step_insert "s" (taken (noon + 2 * Minute) (f_int 61)) 0 summed_up)
                     (run_nil _ late)))).
    + vm_compute. reflexivity.
  - vm_compute. split; reflexivity.
Defined.

(** An interface counter that starts again from nothing shows as a rate nobody measured: the
    largest value is never below the smallest, so the test that should drop the bucket passes. *)
Lemma counter_reset_is_a_spike :
  rx_per_second (summarise [row noon 0 0 (10 ^ 12); row (noon + 1000 * Second) 0 0 5000]) =
    Some (100 * (10 ^ 12 - 5000) / 1000).
Proof. vm_compute. reflexivity. Qed.

Definition afternoon : Metrics := {|
  rows := [row noon 9500 0 0; row (noon + Minute) 2000 0 0; row (noon + 2 * Minute) 9100 0 0;
           row (noon + 3 * Minute) 9900 0 0];
  rollups := ∅; status := ∅; faults := [] |}.

Lemma BreachedSince_spec_witness :
  BreachedSince "s" "cpu" (f_int 90) true (noon + 4 * Minute) afternoon =
    (Ok (Some (noon + 2 * Minute)), afternoon) /\
  run_began afternoon "s" cpu (f_int 90) true (noon + 4 * Minute - 24 * Hour) (noon + 2 * Minute).
Proof.
  assert (Hr : BreachedSince "s" "cpu" (f_int 90) true (noon + 4 * Minute) afternoon =
    (Ok (Some (noon + 2 * Minute)), afternoon)) by (vm_compute; reflexivity).
  split; [exact Hr|].
  exact (BreachedSince_spec "s" "cpu" cpu (f_int 90) true (noon + 4 * Minute) afternoon _ _ eq_refl Hr).
Defined.
End Samples.
