(* ===== verification/AlertRules.v ===== *)
(** * Alert rules ([shared/validate/monitoring.go], [api/internal/monitoring/evaluator.go],
    [service.go])

    What a rule may say, how the service builds one from a request, and how one reading is
    judged against one rule. *)

From S2P Require Import Prelude GoStr GoTime GoFloat.

#[local] Open Scope Z_scope.

(** ** The vocabulary *)
Inductive mon_err :=
| ErrInvalidMetric | ErrInvalidComparison | ErrInvalidThreshold | ErrInvalidSeverity
| ErrInvalidRuleName | ErrInvalidAlertDuration
| ErrRuleNotFound | ErrAlertNotFound | ErrDuplicateRule | ErrMetricImmutable | ErrBackend.

#[global] Instance mon_err_eq_dec : EqDecision mon_err.
Proof. solve_decision. Defined.

Definition MetricCPU := "cpu"%string.
Definition MetricMemory := "memory"%string.
Definition MetricDisk := "disk"%string.
Definition MetricLoad := "load"%string.
Definition MetricSwap := "swap"%string.
Definition MetricNetworkRx := "network_rx"%string.
Definition MetricNetworkTx := "network_tx"%string.
Definition MetricService := "service"%string.

Definition AlertMetrics : list string :=
  [MetricCPU; MetricMemory; MetricDisk; MetricSwap; MetricLoad;
   MetricNetworkRx; MetricNetworkTx; MetricService].

Definition ComparisonAbove := "above"%string.
Definition ComparisonBelow := "below"%string.
Definition SeverityWarning := "warning"%string.
Definition SeverityCritical := "critical"%string.

Definition MaxRuleNameLength : nat := 100.
Definition MaxAlertDuration : Z := 86400.
Definition MaxTargetLength : nat := 255.

Definition one_of (l : list string) (s : string) : bool := existsb (String.eqb s) l.

Definition AlertMetric (metric : string) : result mon_err unit :=
  guard (negb (one_of AlertMetrics metric)) ErrInvalidMetric.

Definition IsPercentMetric (metric : string) : bool :=
  one_of [MetricCPU; MetricMemory; MetricDisk; MetricSwap] metric.

Definition AlertComparison (comparison : string) : result mon_err unit :=
  guard (negb (one_of [ComparisonAbove; ComparisonBelow] comparison)) ErrInvalidComparison.

Definition AlertSeverity (severity : string) : result mon_err unit :=
  guard (negb (one_of [SeverityWarning; SeverityCritical] severity)) ErrInvalidSeverity.

Definition AlertThreshold (metric : string) (threshold : float) : result mon_err unit :=
  guard (f_lt threshold f_zero) ErrInvalidThreshold ;?
  guard (IsPercentMetric metric && f_lt (f_int 100) threshold) ErrInvalidThreshold.

Definition AlertDuration (seconds : Z) : result mon_err unit :=
  guard (seconds <? 0) ErrInvalidAlertDuration ;?
  guard (MaxAlertDuration <? seconds) ErrInvalidAlertDuration.

Definition AlertRuleName (name : string) : result mon_err unit :=
  let trimmed := trim_space name in
  guard (trimmed =? "")%string ErrInvalidRuleName ;?
  guard (MaxRuleNameLength <? String.length trimmed)%nat ErrInvalidRuleName.

(** [char < 0x20 || char == 0x7f]; neither is part of a longer UTF-8 sequence. *)
Definition is_control (a : ascii) : bool := (char_code a <? 32)%nat || (char_code a =? 127)%nat.

Definition AlertTarget (metric target : string) : result mon_err unit :=
  let trimmed := trim_space target in
  if (trimmed =? "")%string then guard (metric =? MetricService)%string ErrInvalidMetric
  else
    guard (MaxTargetLength <? String.length trimmed)%nat ErrInvalidMetric ;?
    guard (str_exists is_control trimmed) ErrInvalidMetric.

(** ** Rules *)
Record Rule := {
  ID : string; ServerID : string; Name : string; Metric : string; Target : string;
  Comparison : string; Threshold : float; ForSeconds : Z; Severity : string; Enabled : bool;
}.

Record RuleRequest := {
  q_Name : string; q_Metric : string; q_Target : string; q_Comparison : string;
  q_Threshold : float; q_ForSeconds : option Z; q_Severity : string; q_Enabled : option bool;
}.

(** [build]: what the request leaves out stays as it is in [base]. *)
Definition build (serverID : string) (req : RuleRequest) (base : Rule) : result mon_err Rule :=
  let name := if (q_Name req =? "")%string then Name base else trim_space (q_Name req) in
  AlertRuleName name ;?
  let metric := if (q_Metric req =? "")%string then Metric base else q_Metric req in
  AlertMetric metric ;?
  let target := if (q_Target req =? "")%string && negb (Target base =? "")%string
                then Target base else trim_space (q_Target req) in
  AlertTarget metric target ;?
  let asked := if (q_Comparison req =? "")%string then Comparison base else q_Comparison req in
  let comparison := if (asked =? "")%string then ComparisonAbove else asked in
  AlertComparison comparison ;?
  let threshold := if negb (f_eq (q_Threshold req) f_zero) || f_eq (Threshold base) f_zero
                   then q_Threshold req else Threshold base in
  AlertThreshold metric threshold ;?
  let seconds := default (ForSeconds base) (q_ForSeconds req) in
  AlertDuration seconds ;?
  let graded := if (q_Severity req =? "")%string then Severity base else q_Severity req in
  let severity := if (graded =? "")%string then SeverityWarning else graded in
  AlertSeverity severity ;?
  Ok {| ID := ID base; ServerID := serverID; Name := name; Metric := metric; Target := target;
        Comparison := comparison; Threshold := threshold; ForSeconds := seconds;
        Severity := severity; Enabled := default (Enabled base) (q_Enabled req) |}.

(** ** Readings *)
Record Reading := {
  r_Metric : string; r_Target : string; Value : float; Since : Z; Available : bool; Detail : string;
}.

Record Decision := { d_Reading : Reading; Breached : bool; Sustained : bool }.

Definition Evaluate (rule : Rule) (reading : Reading) (now : Z) : Decision :=
  let none := {| d_Reading := reading; Breached := false; Sustained := false |} in
  if negb (Available reading) then none
  else
    let breached := if (Comparison rule =? ComparisonBelow)%string
                    then f_lt (Value reading) (Threshold rule)
                    else f_lt (Threshold rule) (Value reading) in
    if negb breached then none
    else if ForSeconds rule <=? 0
    then {| d_Reading := reading; Breached := true; Sustained := true |}
    else if IsZero (Since reading)
    then {| d_Reading := reading; Breached := true; Sustained := false |}
    else {| d_Reading := reading; Breached := true;
            Sustained := ForSeconds rule * Second <=? t_Sub now (Since reading) |}.

(** ** What an alert says *)
Definition formatDuration (d : Z) : string :=
  if d <? Hour then itoa (Z.quot d Minute) ++ " minutes"
  else if d <? 48 * Hour then
    let hours := Z.quot d Hour in
    if hours =? 1 then "1 hour" else itoa hours ++ " hours"
  else itoa (Z.quot d (24 * Hour)) ++ " days".

Definition formatValue (value : float) : string :=
  if is_whole value then fixed 0 value else fixed 1 value.

Definition heldFor (reading : Reading) (now : Z) : string :=
  if IsZero (Since reading) then ""
  else let held := t_Sub now (Since reading) in
       if held <? Minute then "" else " for " ++ formatDuration held.

Definition Message (rule : Rule) (reading : Reading) (now : Z) : string :=
  (if (Metric rule =? MetricService)%string
   then r_Target reading ++ " is not running" ++ heldFor reading now
   else
     let subject := if (r_Target reading =? "")%string then Name rule
                    else Name rule ++ " (" ++ r_Target reading ++ ")" in
     let comparison := if (Comparison rule =? ComparisonBelow)%string then "below" else "above" in
     let unit := if IsPercentMetric (Metric rule) then "%" else "" in
     subject ++ ": " ++ formatValue (Value reading) ++ unit ++ " is " ++ comparison ++ " " ++
     formatValue (Threshold rule) ++ unit ++
     (if (Detail reading =? "")%string then "" else " (" ++ Detail reading ++ ")") ++
     heldFor reading now)%string.

(** ** The rules a host starts with *)
Definition DefaultRules (serverID : string) : list Rule :=
  let rule name metric threshold seconds severity := {|
    ID := ""; ServerID := serverID; Name := name; Metric := metric; Target := "";
    Comparison := ComparisonAbove; Threshold := threshold; ForSeconds := seconds;
    Severity := severity; Enabled := true |} in
  [ rule "Disk nearly full" MetricDisk (f_int 80) 300 SeverityWarning;
    rule "Disk critically full" MetricDisk (f_int 90) 300 SeverityCritical;
    rule "Memory high" MetricMemory (f_int 85) 600 SeverityWarning;
    rule "Memory critical" MetricMemory (f_int 95) 600 SeverityCritical;
    rule "Swap in use" MetricSwap (f_int 50) 900 SeverityWarning;
    rule "Load high" MetricLoad (f_make 3 (-1)) 600 SeverityWarning;
    rule "Load critical" MetricLoad (f_int 3) 600 SeverityCritical;
    rule "CPU saturated" MetricCPU (f_int 90) 1800 SeverityWarning ].

Example messages :
  let full := {| r_Metric := MetricDisk; r_Target := "/var"; Value := f_make 183 (-1);
                 Since := 0; Available := true; Detail := "2.0 GiB free" |} in
  (fun r => Message r full (49 * Hour)) <$> head (DefaultRules "s") =
    Some "Disk nearly full (/var): 91.5% is above 80% (2.0 GiB free) for 2 days"%string.
Proof. vm_compute. reflexivity. Qed.

(** ** Judging *)

(** The condition of a rule on a value. *)
Definition crosses (rule : Rule) (v : float) : bool :=
  if (Comparison rule =? ComparisonBelow)%string then f_lt v (Threshold rule)
  else f_lt (Threshold rule) v.

Lemma Breached_spec rule r now :
  Breached (Evaluate rule r now) = Available r && crosses rule (Value r).
Proof.
  unfold Evaluate. fold (crosses rule (Value r)).
  destruct (Available r), (crosses rule (Value r)); simpl; [|done..].
  by destruct (ForSeconds rule <=? 0), (IsZero (Since r)).
Qed.

Lemma Sustained_spec rule r now :
  Sustained (Evaluate rule r now) = true <->
  Breached (Evaluate rule r now) = true /\
  (ForSeconds rule <= 0 \/
   IsZero (Since r) = false /\ ForSeconds rule * Second <= t_Sub now (Since r)).
Proof.
  rewrite Breached_spec. unfold Evaluate. fold (crosses rule (Value r)).
  destruct (Available r), (crosses rule (Value r)); simpl; try (split; [done|by intros [? _]]).
  rewrite <- Z.leb_le. destruct (ForSeconds rule <=? 0) eqn:Ef; simpl; [by split; auto|].
  rewrite <- Z.leb_le.
  destruct (IsZero (Since r)); simpl; intuition congruence.
Qed.

(** ** What the checks let through *)
Lemma AlertRuleName_ok name u : AlertRuleName name = Ok u -> trim_space name <> ""%string.
Proof. unfold AlertRuleName. intros Ha. go_inv Ha. by bool_hyps. Qed.

Lemma AlertMetric_ok m u : AlertMetric m = Ok u -> one_of AlertMetrics m = true.
Proof. unfold AlertMetric. intros Ha%guard_ok. by bool_hyps. Qed.

Lemma AlertComparison_ok c u :
  AlertComparison c = Ok u -> one_of [ComparisonAbove; ComparisonBelow] c = true.
Proof. unfold AlertComparison. intros Ha%guard_ok. by bool_hyps. Qed.

Lemma AlertSeverity_ok c u :
  AlertSeverity c = Ok u -> one_of [SeverityWarning; SeverityCritical] c = true.
Proof. unfold AlertSeverity. intros Ha%guard_ok. by bool_hyps. Qed.

Lemma AlertThreshold_ok m t u : AlertThreshold m t = Ok u ->
  f_lt t f_zero = false /\ (IsPercentMetric m = true -> f_lt (f_int 100) t = false).
Proof.
  unfold AlertThreshold. intros Ha. go_inv Ha. apply guard_ok in Ha. split; [done|].
  intros Hm. by rewrite Hm in Ha.
Qed.

Lemma AlertDuration_ok s u : AlertDuration s = Ok u -> 0 <= s <= MaxAlertDuration.
Proof. unfold AlertDuration. intros Ha. go_inv Ha. apply guard_ok in Ha. bool_hyps. lia. Qed.

Lemma AlertTarget_ok m t u : AlertTarget m t = Ok u -> m = MetricService -> trim_space t <> ""%string.
Proof.
  unfold AlertTarget. intros Ha ->. destruct (trim_space t =? "")%string eqn:E; [done|].
  by apply String.eqb_neq.
Qed.
