(* ===== verification/Monitoring.v ===== *)
(** * Alerts ([api/internal/monitoring/repository.go], [monitor.go], [service.go],
    [evaluator.go])

    The tables of rules, alerts and service states with one definition per statement; the
    monitor's round, which reads the host once and judges every rule; and the service's
    operations on rules and alerts. The history of samples and the receiver of notifications
    are interfaces, as they are in the code. *)

From stdpp Require Import gmap list sorting.
From S2P Require Import Prelude Store GoStr GoTime GoFloat Metrics AlertRules.

#[local] Open Scope Z_scope.
#[local] Open Scope store_scope.

(** ** Interfaces *)

(** Since when a stored metric has breached a threshold, for a server at an instant. *)
Class MetricSource (S : Type) :=
  breached_since : string -> string -> float -> bool -> Z -> S -> result unit (option Z) * S.

#[global] Instance Metrics_source `{Numeric} : MetricSource Metrics :=
  fun srv metric threshold above now s =>
    let '(r, s') := BreachedSince srv metric threshold above now s in
    (match r with Ok o => Ok o | Err _ => Err tt end, s').

(** Told that an alert started or cleared: its identifier, severity, message and target, and
    how long it was open. *)
Class Notifier (N : Type) := {
  AlertOpened : string -> string -> string -> string -> N -> N;
  AlertResolved : string -> string -> string -> string -> Z -> N -> N;
}.

(** No notifier is configured. *)
#[global] Instance no_notifier : Notifier unit := {
  AlertOpened _ _ _ _ n := n; AlertResolved _ _ _ _ _ n := n }.

(** The order ORDER BY puts rules in, which depends on the server's collation. *)
Class Collation := {
  sort_rules : list Rule -> list Rule;
  sort_rules_perm : forall l, sort_rules l ≡ₚ l;
}.

(** ** State *)
Definition StatusOpen := "open"%string.
Definition StatusResolved := "resolved"%string.

(** A row of [alerts] but for its key; numbers are hundredths. *)
Record Alert := {
  a_ServerID : string; RuleID : option string; a_Metric : string; a_Target : string;
  a_Severity : string; a_Threshold : option Z; Status : string; a_Message : string;
  a_Value : option Z; Worst : option Z; LastValue : option Z;
  OpenedAt : Z; LastSeenAt : Z; ResolvedAt : option Z;
  AcknowledgedAt : option Z; AcknowledgedBy : option string;
}.
Definition is_open (a : Alert) : bool := (Status a =? StatusOpen)%string.

Record ServiceState := {
  s_ServerID : string; Service : string; Running : bool; s_Status : string;
  StartedAt : Z; EndedAt : option Z;
}.

Record World (S N : Type) := {
  rules : gmap string Rule;
  alerts : gmap string Alert;
  states : list ServiceState;
  metrics : option S;
  notifier : N;
  clock : Z;
  uuids : list string;
  faults : list fault;
}.
Arguments rules {S N}. Arguments alerts {S N}. Arguments states {S N}. Arguments metrics {S N}.
Arguments notifier {S N}. Arguments clock {S N}. Arguments uuids {S N}. Arguments faults {S N}.

Section monitoring.
Context {S N : Type}.
Local Abbreviation world := (World S N).

Definition set_rules m (w : world) : world := {|
  rules := m; alerts := alerts w; states := states w; metrics := metrics w;
  notifier := notifier w; clock := clock w; uuids := uuids w; faults := faults w |}.
Definition set_alerts m (w : world) : world := {|
  rules := rules w; alerts := m; states := states w; metrics := metrics w;
  notifier := notifier w; clock := clock w; uuids := uuids w; faults := faults w |}.
Definition set_states l (w : world) : world := {|
  rules := rules w; alerts := alerts w; states := l; metrics := metrics w;
  notifier := notifier w; clock := clock w; uuids := uuids w; faults := faults w |}.
Definition set_metrics s (w : world) : world := {|
  rules := rules w; alerts := alerts w; states := states w; metrics := s;
  notifier := notifier w; clock := clock w; uuids := uuids w; faults := faults w |}.
Definition set_notifier n (w : world) : world := {|
  rules := rules w; alerts := alerts w; states := states w; metrics := metrics w;
  notifier := n; clock := clock w; uuids := uuids w; faults := faults w |}.
Definition set_chance u f (w : world) : world := {|
  rules := rules w; alerts := alerts w; states := states w; metrics := metrics w;
  notifier := notifier w; clock := clock w; uuids := u; faults := f |}.

#[global] Instance World_faulty : Faulty world := {
  faults_of := faults; with_faults fs w := set_chance (uuids w) fs w }.

Local Abbreviation M := (Store.M world mon_err).
Local Abbreviation call := (Store.call ErrBackend).
Local Abbreviation query := (Store.query ErrBackend).

Definition found {A} (e : mon_err) (o : option A) : result mon_err A :=
  match o with Some a => Ok a | None => Err e end.

Context `{Numeric} `{Collation}.

(** ** Rules *)

(** The unique index on what a rule watches. *)
Definition same_watch (r r' : Rule) : bool :=
  (ServerID r =? ServerID r')%string && (Metric r =? Metric r')%string &&
  (Target r =? Target r')%string && (Severity r =? Severity r')%string.

(** The table's checks, and the threshold as the column keeps it. *)
Definition checked (r : Rule) : option Rule :=
  z ← to_column 12 (Threshold r);
  if one_of AlertMetrics (Metric r) && one_of [ComparisonAbove; ComparisonBelow] (Comparison r) &&
     one_of [SeverityWarning; SeverityCritical] (Severity r) &&
     (0 <=? ForSeconds r) && (ForSeconds r <=? MaxAlertDuration) &&
     negb (trim_space (Name r) =? "")%string
  then Some {| ID := ID r; ServerID := ServerID r; Name := Name r; Metric := Metric r;
               Target := Target r; Comparison := Comparison r; Threshold := float8 z;
               ForSeconds := ForSeconds r; Severity := Severity r; Enabled := Enabled r |}
  else None.

Definition with_id (id : string) (r : Rule) : Rule := {|
  ID := id; ServerID := ServerID r; Name := Name r; Metric := Metric r; Target := Target r;
  Comparison := Comparison r; Threshold := Threshold r; ForSeconds := ForSeconds r;
  Severity := Severity r; Enabled := Enabled r |}.

Definition CreateRule (rule : Rule) : M Rule :=
  call (fun w =>
    match uuids w, checked rule with
    | id :: ids, Some rule =>
        match map_find (same_watch rule) (rules w) with
        | Some _ => (Err ErrDuplicateRule, w)
        | None => (Ok (with_id id rule),
                   set_chance ids (faults w) (set_rules (<[id := with_id id rule]> (rules w)) w))
        end
    | _, _ => (Err ErrBackend, w)
    end).

(** The metric and the target stay as they are. *)
Definition updated (rule old : Rule) : Rule := {|
  ID := ID old; ServerID := ServerID old; Name := Name rule; Metric := Metric old;
  Target := Target old; Comparison := Comparison rule; Threshold := Threshold rule;
  ForSeconds := ForSeconds rule; Severity := Severity rule; Enabled := Enabled rule |}.

Definition UpdateRule (id : string) (rule : Rule) : M Rule :=
  call (fun w =>
    match rules w !! id with
    | None => (Err ErrRuleNotFound, w)
    | Some old =>
        match checked (updated rule old) with
        | None => (Err ErrBackend, w)
        | Some new =>
            match map_find (same_watch new) (delete id (rules w)) with
            | Some _ => (Err ErrDuplicateRule, w)
            | None => (Ok new, set_rules (<[id := new]> (rules w)) w)
            end
        end
    end).

Definition GetRule (id : string) : M Rule := query (fun w => found ErrRuleNotFound (rules w !! id)).

Definition ListRules (srv : string) : M (list Rule) :=
  query (fun w => Ok (sort_rules (filter (fun r => ServerID r = srv) (map snd (map_to_list (rules w)))))).

(** Resolved at [t], last seen at [seen]. *)
Definition resolved (t seen : Z) (a : Alert) : Alert := {|
  a_ServerID := a_ServerID a; RuleID := RuleID a; a_Metric := a_Metric a; a_Target := a_Target a;
  a_Severity := a_Severity a; a_Threshold := a_Threshold a; Status := StatusResolved;
  a_Message := a_Message a; a_Value := a_Value a; Worst := Worst a; LastValue := LastValue a;
  OpenedAt := OpenedAt a; LastSeenAt := seen; ResolvedAt := Some t;
  AcknowledgedAt := AcknowledgedAt a; AcknowledgedBy := AcknowledgedBy a |}.

Definition orphan (a : Alert) : Alert := {|
  a_ServerID := a_ServerID a; RuleID := None; a_Metric := a_Metric a; a_Target := a_Target a;
  a_Severity := a_Severity a; a_Threshold := a_Threshold a; Status := Status a;
  a_Message := a_Message a; a_Value := a_Value a; Worst := Worst a; LastValue := LastValue a;
  OpenedAt := OpenedAt a; LastSeenAt := LastSeenAt a; ResolvedAt := ResolvedAt a;
  AcknowledgedAt := AcknowledgedAt a; AcknowledgedBy := AcknowledgedBy a |}.

Definition of_rule (id : string) (a : Alert) : bool := bool_decide (RuleID a = Some id).

(** [UPDATE alerts ... WHERE p]. *)
Definition update_where (p : Alert -> bool) (f : Alert -> Alert) (m : gmap string Alert) : gmap string Alert :=
  (fun a => if p a then f a else a) <$> m.

(** The two statements of [DeleteRule], which are not one transaction. *)
Definition resolve_alerts_of (id : string) : M unit :=
  call (fun w => (Ok tt, set_alerts (update_where (fun a => of_rule id a && is_open a)
                                       (fun a => resolved (clock w) (LastSeenAt a) a) (alerts w)) w)).
Definition delete_rule_row (id : string) : M unit :=
  call (fun w =>
    match rules w !! id with
    | None => (Err ErrRuleNotFound, w)
    | Some _ => (Ok tt, set_alerts (update_where (of_rule id) orphan (alerts w))
                          (set_rules (delete id (rules w)) w))
    end).
Definition DeleteRule (id : string) : M unit := resolve_alerts_of id ;! delete_rule_row id.

(** ** Alerts *)

(** What [OpenAlert] is given. *)
Record AlertParams := {
  p_ServerID : string; p_RuleID : option string; p_Metric : string; p_Target : string;
  p_Severity : string; p_Threshold : option float; p_Message : string; p_Value : option float;
  p_OpenedAt : Z;
}.

(** The partial unique index: one open alert per server, rule and target; NULL never conflicts. *)
Definition same_alert (srv : string) (rule : option string) (target : string) (a : Alert) : bool :=
  is_open a && (a_ServerID a =? srv)%string && (a_Target a =? target)%string &&
  match rule with Some id => of_rule id a | None => false end.

(** [GREATEST], which ignores NULL. *)
Definition greatest (x y : option Z) : option Z := union_with (fun a b => Some (Z.max a b)) x y.

Definition seen_again (p : AlertParams) (v : option Z) (a : Alert) : Alert := {|
  a_ServerID := a_ServerID a; RuleID := RuleID a; a_Metric := a_Metric a; a_Target := a_Target a;
  a_Severity := a_Severity a; a_Threshold := a_Threshold a; Status := Status a;
  a_Message := p_Message p; a_Value := a_Value a; Worst := greatest (Worst a) v; LastValue := v;
  OpenedAt := OpenedAt a; LastSeenAt := p_OpenedAt p; ResolvedAt := ResolvedAt a;
  AcknowledgedAt := AcknowledgedAt a; AcknowledgedBy := AcknowledgedBy a |}.

Definition new_alert (p : AlertParams) (t v : option Z) : Alert := {|
  a_ServerID := p_ServerID p; RuleID := p_RuleID p; a_Metric := p_Metric p; a_Target := p_Target p;
  a_Severity := p_Severity p; a_Threshold := t; Status := StatusOpen;
  a_Message := p_Message p; a_Value := v; Worst := v; LastValue := v;
  OpenedAt := p_OpenedAt p; LastSeenAt := p_OpenedAt p; ResolvedAt := None;
  AcknowledgedAt := None; AcknowledgedBy := None |}.

(** The foreign key on the rule. *)
Definition rule_exists (w : world) (rule : option string) : bool :=
  match rule with Some id => bool_decide (is_Some (rules w !! id)) | None => true end.

Definition OpenAlert (p : AlertParams) : M (string * Alert) :=
  call (fun w =>
    match to_nullable 12 (p_Threshold p), to_nullable 12 (p_Value p), rule_exists w (p_RuleID p) with
    | Some t, Some v, true =>
        match map_find (same_alert (p_ServerID p) (p_RuleID p) (p_Target p)) (alerts w) with
        | Some (id, a) =>
            (Ok (id, seen_again p v a), set_alerts (<[id := seen_again p v a]> (alerts w)) w)
        | None =>
            match uuids w with
            | id :: ids =>
                (Ok (id, new_alert p t v),
                 set_chance ids (faults w) (set_alerts (<[id := new_alert p t v]> (alerts w)) w))
            | [] => (Err ErrBackend, w)
            end
        end
    | _, _, _ => (Err ErrBackend, w)
    end).

(** The condition is the unique index's key, so there is one row at most. *)
Definition ResolveAlert (srv rule target : string) (t : Z) : M (option (string * Alert)) :=
  call (fun w =>
    match map_find (same_alert srv (Some rule) target) (alerts w) with
    | Some (id, a) =>
        (Ok (Some (id, resolved t t a)), set_alerts (<[id := resolved t t a]> (alerts w)) w)
    | None => (Ok None, w)
    end).

Definition acknowledged (user : string) (t : Z) (a : Alert) : Alert := {|
  a_ServerID := a_ServerID a; RuleID := RuleID a; a_Metric := a_Metric a; a_Target := a_Target a;
  a_Severity := a_Severity a; a_Threshold := a_Threshold a; Status := Status a;
  a_Message := a_Message a; a_Value := a_Value a; Worst := Worst a; LastValue := LastValue a;
  OpenedAt := OpenedAt a; LastSeenAt := LastSeenAt a; ResolvedAt := ResolvedAt a;
  AcknowledgedAt := Some t; AcknowledgedBy := if (user =? "")%string then None else Some user |}.

Definition AcknowledgeAlert (id user : string) (t : Z) : M Alert :=
  call (fun w =>
    match alerts w !! id with
    | Some a => (Ok (acknowledged user t a), set_alerts (<[id := acknowledged user t a]> (alerts w)) w)
    | None => (Err ErrAlertNotFound, w)
    end).

Definition prunable (cutoff : Z) (a : Alert) : bool :=
  negb (is_open a) && match ResolvedAt a with Some t => t <? cutoff | None => false end.

Definition PruneAlerts (cutoff : Z) : M Z :=
  call (fun w =>
    let kept := filter (fun x => prunable cutoff (snd x) = false) (alerts w) in
    (Ok (Z.of_nat (size (alerts w) - size kept)), set_alerts kept w)).

(** ** Service states, newest first *)
Definition current_of (srv service : string) (s : ServiceState) : bool :=
  (s_ServerID s =? srv)%string && (Service s =? service)%string &&
  match EndedAt s with None => true | Some _ => false end.

Definition ended (t : Z) (s : ServiceState) : ServiceState := {|
  s_ServerID := s_ServerID s; Service := Service s; Running := Running s; s_Status := s_Status s;
  StartedAt := StartedAt s; EndedAt := Some t |}.

(** [UPDATE ... WHERE id = current.ID], for the row [List.find] answers. *)
Fixpoint end_current (p : ServiceState -> bool) (t : Z) (l : list ServiceState) : list ServiceState :=
  match l with
  | [] => []
  | s :: l => if p s then ended t s :: l else s :: end_current p t l
  end.

(** The transaction of [RecordServiceState]. *)
Definition RecordServiceState (srv service : string) (running : bool) (status : string) (t : Z)
  : M (ServiceState * bool) :=
  call (fun w =>
    let opened := {| s_ServerID := srv; Service := service; Running := running; s_Status := status;
                     StartedAt := t; EndedAt := None |} in
    match List.find (current_of srv service) (states w) with
    | Some current =>
        if Bool.eqb (Running current) running && (s_Status current =? status)%string
        then (Ok (current, false), w)
        else (Ok (opened, true),
              set_states (opened :: end_current (current_of srv service) t (states w)) w)
    | None => (Ok (opened, true), set_states (opened :: states w) w)
    end).

Definition PruneServiceStates (cutoff : Z) : M Z :=
  call (fun w =>
    let stale s := match EndedAt s with Some t => t <? cutoff | None => false end in
    let kept := filter (fun s => stale s = false) (states w) in
    (Ok (Z.of_nat (length (states w) - length kept)), set_states kept w)).

(** ** The monitor *)
Context `{MetricSource S} `{Notifier N}.

(** What the Agent answered in a round: CPU usage; memory used, total swap, swap used; load per
    core; filesystems with their mount point, usage and free bytes; services with their key,
    whether installed, whether running, and the state the service manager names. *)
Record DetectedService := { Key : string; Installed : bool; v_Running : bool; ActiveState : string }.
Record Probes := {
  p_cpu : option float;
  p_memory : option (float * Z * float);
  p_load : option float;
  p_disk : option (list (string * float * Z));
  p_services : option (list DetectedService);
}.

(** [humanBytes]: divided by 1024 while at least that remains, four times at most more. *)
Fixpoint scale_bytes (fuel : nat) (n div : Z) (units : string) : Z * string :=
  match fuel, units with
  | Datatypes.S fuel, String _ (String u us) =>
      if 1024 <=? n then scale_bytes fuel (n / 1024) (div * 1024) (String u us) else (div, units)
  | _, _ => (div, units)
  end.

Definition humanBytes (bytes : Z) : string :=
  if bytes <? 1024 then itoa bytes ++ " B"
  else
    let '(div, units) := scale_bytes 4 (bytes / 1024) 1024 "KMGTP" in
    (fixed 1 (f_div (f_int bytes) (f_int div)) ++ " " ++ String.substring 0 1 units ++ "iB")%string.

Definition serviceStatus (s : DetectedService) : string :=
  if negb (Installed s) then "not installed"
  else if v_Running s then "running"
  else if (ActiveState s =? "failed")%string then "failed"
  else if (ActiveState s =? "activating")%string then "starting"
  else "stopped".

Definition taken (metric target : string) (v : float) (detail : string) : Reading := {|
  r_Metric := metric; r_Target := target; Value := v; Since := t_zero; Available := true;
  Detail := detail |}.
Definition missing (metric : string) : Reading := {|
  r_Metric := metric; r_Target := ""; Value := f_zero; Since := t_zero; Available := false;
  Detail := "" |}.

(** The loop of [serviceReadings]. *)
Fixpoint serviceReadings (srv : string) (services : list DetectedService) (now : Z) : M (list Reading) :=
  match services with
  | [] => ret []
  | service :: services =>
      let status := serviceStatus service in
      let! recorded := attempt (RecordServiceState srv (Key service) (v_Running service) status now) in
      let! rest := serviceReadings srv services now in
      match recorded with
      | Err _ => ret rest
      | Ok (state, _) =>
          if negb (Installed service) then ret rest
          else ret ({| r_Metric := MetricService; r_Target := Key service;
                       Value := if v_Running service then f_int 1 else f_zero;
                       Since := StartedAt state; Available := true; Detail := status |} :: rest)
      end
  end.

(** The readings of everything but the services. *)
Definition host_readings (p : Probes) : list Reading :=
  [match p_cpu p with Some v => taken MetricCPU "" v "" | None => missing MetricCPU end] ++
  match p_memory p with
  | Some (used, swap_total, swap_used) =>
      taken MetricMemory "" used "" ::
      (if 0 <? swap_total then [taken MetricSwap "" swap_used ""] else [])
  | None => [missing MetricMemory]
  end ++
  [match p_load p with Some v => taken MetricLoad "" v "" | None => missing MetricLoad end] ++
  match p_disk p with
  | Some filesystems =>
      map (fun fs => let '(mount, used, free) := fs in
                     taken MetricDisk mount used (humanBytes free ++ " free")) filesystems
  | None => [missing MetricDisk]
  end.

Definition takeReadings (srv : string) (p : Probes) (now : Z) : M (list Reading) :=
  match p_services p with
  | Some services =>
      let! rs := serviceReadings srv services now in ret (host_readings p ++ rs)%list
  | None => ret (host_readings p)
  end.

Definition isStoredMetric (metric : string) : bool := one_of [MetricCPU; MetricMemory; MetricLoad] metric.

Definition with_since (t : Z) (r : Reading) : Reading := {|
  r_Metric := r_Metric r; r_Target := r_Target r; Value := Value r; Since := t;
  Available := Available r; Detail := Detail r |}.

(** The history has failures of its own; an answer that did not come leaves the reading as it is. *)
Definition withDuration (srv : string) (rule : Rule) (reading : Reading) (now : Z) : M Reading :=
  fun w =>
    if negb (Available reading) || (ForSeconds rule <=? 0) || negb (IsZero (Since reading))
    then (Ok reading, w)
    else
      match metrics w with
      | None => (Ok reading, w)
      | Some history =>
          if negb (isStoredMetric (Metric rule)) then (Ok reading, w)
          else
            let '(r, history) := breached_since srv (Metric rule) (Threshold rule)
                                   (negb (Comparison rule =? ComparisonBelow)%string) now history in
            (Ok (match r with Ok (Some since) => with_since since reading | _ => reading end),
             set_metrics (Some history) w)
      end.

Definition notify (f : N -> N) : M unit := update (fun w => set_notifier (f (notifier w)) w).

Definition open_params (srv : string) (rule : Rule) (reading : Reading) (now : Z) : AlertParams := {|
  p_ServerID := srv; p_RuleID := Some (ID rule); p_Metric := Metric rule; p_Target := r_Target reading;
  p_Severity := Severity rule; p_Threshold := Some (Threshold rule);
  p_Message := Message rule reading now; p_Value := Some (Value reading); p_OpenedAt := now |}.

Definition open (srv : string) (rule : Rule) (reading : Reading) (now : Z) : M unit :=
  let! opened := attempt (OpenAlert (open_params srv rule reading now)) in
  match opened with
  | Err _ => ret tt
  | Ok (id, a) => notify (AlertOpened id (a_Severity a) (a_Message a) (a_Target a))
  end.

Definition resolve (srv : string) (rule : Rule) (target : string) (now : Z) : M unit :=
  let! r := attempt (ResolveAlert srv (ID rule) target now) in
  match r with
  | Ok (Some (id, a)) =>
      notify (AlertResolved id (a_Severity a) (a_Message a) (a_Target a) (t_Sub now (OpenedAt a)))
  | _ => ret tt
  end.

(** The readings a rule is interested in. *)
Definition interested (rule : Rule) (reading : Reading) : bool :=
  (r_Metric reading =? Metric rule)%string &&
  ((Target rule =? "")%string || (Target rule =? r_Target reading)%string).

Definition judge (srv : string) (rule : Rule) (reading : Reading) (now : Z) : M unit :=
  let! reading := withDuration srv rule reading now in
  let decision := Evaluate rule reading now in
  if Sustained decision then open srv rule reading now
  else if Breached decision then ret tt
  else if Available reading then resolve srv rule (r_Target reading) now
  else ret tt.

(** The loop over the readings; the answer is whether one matched. *)
Fixpoint judge_all (srv : string) (rule : Rule) (readings : list Reading) (now : Z) : M bool :=
  match readings with
  | [] => ret false
  | reading :: readings =>
      if interested rule reading
      then judge srv rule reading now ;! (judge_all srv rule readings now ;! ret true)
      else judge_all srv rule readings now
  end.

Definition applyRule (srv : string) (rule : Rule) (readings : list Reading) (now : Z) : M unit :=
  let! matched := judge_all srv rule readings now in
  if negb matched && negb (Target rule =? "")%string then resolve srv rule (Target rule) now
  else ret tt.

Fixpoint apply_rules (srv : string) (rs : list Rule) (readings : list Reading) (now : Z) : M unit :=
  match rs with
  | [] => ret tt
  | rule :: rs =>
      (if Enabled rule then applyRule srv rule readings now
       else resolve srv rule (Target rule) now) ;!
      apply_rules srv rs readings now
  end.

Definition Once (srv : string) (p : Probes) (now : Z) : M unit :=
  let! listed := attempt (ListRules srv) in
  match listed with
  | Err _ => ret tt
  | Ok rs =>
      let! readings := takeReadings srv p now in
      apply_rules srv rs readings now
  end.

Definition prune (retention now : Z) : M unit :=
  let! _ := attempt (PruneAlerts (now - retention)) in
  let! _ := attempt (PruneServiceStates (now - retention)) in
  ret tt.

(** The rules written before the first failure. *)
Fixpoint create_all (rs : list Rule) : M nat :=
  match rs with
  | [] => ret 0%nat
  | r :: rs => let! _ := CreateRule r in let! n := create_all rs in ret (Datatypes.S n)
  end.

Definition EnsureDefaults (srv : string) : M nat :=
  let! existing := ListRules srv in
  match existing with
  | [] => create_all (DefaultRules srv)
  | _ => ret 0%nat
  end.

(** ** The service *)
Definition service_CreateRule (srv : string) (req : RuleRequest) : M Rule :=
  let blank := {| ID := ""; ServerID := srv; Name := ""; Metric := ""; Target := ""; Comparison := "";
                  Threshold := f_zero; ForSeconds := 0; Severity := ""; Enabled := false |} in
  let! rule := answer (build srv req blank) in CreateRule rule.

Definition with_watch (metric target : string) (req : RuleRequest) : RuleRequest := {|
  q_Name := q_Name req; q_Metric := metric; q_Target := target; q_Comparison := q_Comparison req;
  q_Threshold := q_Threshold req; q_ForSeconds := q_ForSeconds req; q_Severity := q_Severity req;
  q_Enabled := q_Enabled req |}.

Definition service_UpdateRule (srv id : string) (req : RuleRequest) : M Rule :=
  let! existing := GetRule id in
  if negb (q_Metric req =? "")%string && negb (q_Metric req =? Metric existing)%string
  then fail ErrMetricImmutable
  else if negb (q_Target req =? "")%string && negb (q_Target req =? Target existing)%string
  then fail ErrMetricImmutable
  else
    let! rule := answer (build srv (with_watch (Metric existing) (Target existing) req) existing) in
    UpdateRule id rule.

Definition service_DeleteRule (id : string) : M unit := let! _ := GetRule id in DeleteRule id.

Definition Acknowledge (user id : string) (now : Z) : M Alert := AcknowledgeAlert id user now.

(** The numbers the dashboard judges its own reading by. *)
Definition Thresholds (srv : string) (fallback : gmap string float) : M (gmap string float) :=
  let! listed := attempt (ListRules srv) in
  match listed with
  | Err _ => ret fallback
  | Ok rs =>
      ret (foldl (fun m r => if negb (Enabled r) || negb (Target r =? "")%string then m
                             else <[(Metric r ++ "." ++ Severity r)%string := Threshold r]> m)
             fallback rs)
  end.
End monitoring.

(** ** Invariants of the tables *)
Section invariants.
Context {S N : Type} `{Numeric} `{Collation} `{MetricSource S} `{Notifier N}.
Local Abbreviation world := (World S N).
Local Abbreviation M := (Store.M world mon_err).

(** Number [x], when there is one, is at most [y]. *)
Definition at_most (x y : option Z) : Prop :=
  forall a, x = Some a -> exists b, y = Some b /\ a <= b.

Record alert_ok (w : world) (a : Alert) : Prop := {
  ok_status : (is_open a = true /\ ResolvedAt a = None) \/ (is_open a = false /\ is_Some (ResolvedAt a));
  ok_worst : at_most (a_Value a) (Worst a) /\ at_most (LastValue a) (Worst a);
  ok_rule : forall id, RuleID a = Some id -> is_Some (rules w !! id);
}.

(** What every rule in the table satisfies. *)
Definition rule_ok (r : Rule) : Prop :=
  one_of AlertMetrics (Metric r) = true /\
  one_of [ComparisonAbove; ComparisonBelow] (Comparison r) = true /\
  one_of [SeverityWarning; SeverityCritical] (Severity r) = true /\
  0 <= ForSeconds r <= MaxAlertDuration /\ trim_space (Name r) <> ""%string.

(** How many stretches of a service have no end. *)
Definition current_count (srv service : string) (l : list ServiceState) : nat :=
  length (List.filter (current_of srv service) l).

Record tables_ok (w : world) : Prop := {
  ok_ids : forall id r, rules w !! id = Some r -> ID r = id /\ rule_ok r;
  ok_watch : forall i j r s, rules w !! i = Some r -> rules w !! j = Some s -> same_watch r s = true -> i = j;
  ok_alerts : map_Forall (fun _ a => alert_ok w a) (alerts w);
  ok_one_open : forall i j a b id, alerts w !! i = Some a -> alerts w !! j = Some b ->
    is_open a = true -> is_open b = true -> a_ServerID a = a_ServerID b -> a_Target a = a_Target b ->
    RuleID a = Some id -> RuleID b = Some id -> i = j;
  ok_states : forall srv service, (current_count srv service (states w) <= 1)%nat;
  ok_uuids : NoDup (uuids w) /\
    forall id, id ∈ uuids w -> rules w !! id = None /\ alerts w !! id = None;
}.

(** One statement, or one transaction, of the repository; an answer of the history; a call of
    the notifier. The arguments are any a caller may pass. *)
Inductive mon_step : world -> unit -> world -> Prop :=
| step_create r w : mon_step w tt (snd (CreateRule r w))
| step_update id r w : mon_step w tt (snd (UpdateRule id r w))
| step_get id w : mon_step w tt (snd (GetRule id w))
| step_list srv w : mon_step w tt (snd (ListRules srv w))
| step_resolve_all id w : mon_step w tt (snd (resolve_alerts_of id w))
| step_delete id w : mon_step w tt (snd (delete_rule_row id w))
| step_open p w : mon_step w tt (snd (OpenAlert p w))
| step_resolve srv r t d w : mon_step w tt (snd (ResolveAlert srv r t d w))
| step_ack id u t w : mon_step w tt (snd (AcknowledgeAlert id u t w))
| step_prune c w : mon_step w tt (snd (PruneAlerts c w))
| step_state srv s r st t w : mon_step w tt (snd (RecordServiceState srv s r st t w))
| step_prune_states c w : mon_step w tt (snd (PruneServiceStates c w))
| step_history h w : mon_step w tt (set_metrics h w)
| step_notify n w : mon_step w tt (set_notifier n w).

(** The invariant does not look at the rest of the world. *)
Lemma tables_ok_rest (w w' : world) :
  rules w' = rules w -> alerts w' = alerts w -> states w' = states w -> uuids w' = uuids w ->
  tables_ok w -> tables_ok w'.
Proof.
  intros Hr Ha Hs Hu [H1' H2' H3' H4' H5' H6']. split; rewrite ?Hr, ?Ha, ?Hs, ?Hu; try done.
  intros id a Hl. destruct (H3' id a Hl). split; try done. by rewrite Hr.
Qed.

(** A statement keeps the invariant if it does when it works. *)
Lemma call_keeps {A} (f : world -> result mon_err A * world) w :
  (forall w, tables_ok w -> tables_ok (snd (f w))) ->
  tables_ok w -> tables_ok (snd (Store.call ErrBackend f w)).
Proof.
  intros Hf. revert w.
  apply (respects_call ErrBackend (fun u v => tables_ok u -> tables_ok v)); try (intros; tauto).
  intros fs w. by apply tables_ok_rest.
Qed.

Lemma same_alert_true srv rule target a :
  same_alert srv rule target a = true <->
  is_open a = true /\ a_ServerID a = srv /\ a_Target a = target /\
  exists id, rule = Some id /\ RuleID a = Some id.
Proof.
  unfold same_alert, of_rule. rewrite !andb_true_iff, !String.eqb_eq.
  destruct rule as [id|]; [rewrite bool_decide_eq_true|]; naive_solver.
Qed.

(** ** Changing one table *)
Lemma alert_ok_rules (w w' : world) a :
  (forall id, is_Some (rules w !! id) -> is_Some (rules w' !! id)) -> alert_ok w a -> alert_ok w' a.
Proof. intros Hr [H1' H2' H3']. split; eauto. Qed.

(** A row of [alerts] changed without opening it or moving it to another rule or target. *)
Definition same_place (a b : Alert) : Prop :=
  a_ServerID b = a_ServerID a /\ a_Target b = a_Target a /\ RuleID b = RuleID a /\
  (is_open b = true -> is_open a = true).

Lemma tables_ok_alerts (w : world) m :
  tables_ok w ->
  (forall i b, m !! i = Some b -> exists a, alerts w !! i = Some a /\ same_place a b /\ alert_ok w b) ->
  tables_ok (set_alerts m w).
Proof.
  intros [H1' H2' H3' H4' H5' [H6' H7']] Hm. split; try done; cbn.
  - intros i b Hl. destruct (Hm i b Hl) as (a & _ & _ & Hb). apply (alert_ok_rules w); [done|exact Hb].
  - intros i j a b id Hi Hj Hoa Hob Hs Ht Hra Hrb.
    destruct (Hm i a Hi) as (a' & Ha' & (E1 & E2 & E3 & E4) & _).
    destruct (Hm j b Hj) as (b' & Hb' & (F1 & F2 & F3 & F4) & _).
    eapply (H4' i j a' b' id); eauto; congruence.
  - split; [done|]. intros id Hin. destruct (H7' id Hin) as [? Hn]. split; [done|].
    destruct (m !! id) as [b|] eqn:E; [|done]. destruct (Hm id b E) as (a & Ha & _). congruence.
Qed.

Lemma tables_ok_alter (w : world) i a b :
  tables_ok w -> alerts w !! i = Some a -> same_place a b -> alert_ok w b ->
  tables_ok (set_alerts (<[i := b]> (alerts w)) w).
Proof.
  intros Hok Ha Hp Hb. apply tables_ok_alerts; [done|]. intros j c Hl.
  destruct (decide (i = j)) as [<-|Hn].
  - rewrite lookup_insert_eq in Hl. injection Hl as <-. eauto.
  - rewrite lookup_insert_ne in Hl by done. exists c. split; [done|]. split; [done|].
    by apply (ok_alerts _ Hok) in Hl.
Qed.

Lemma tables_ok_shrink (w : world) (P : string * Alert -> Prop) `{!forall x, base.Decision (P x)} :
  tables_ok w -> tables_ok (set_alerts (filter P (alerts w)) w).
Proof.
  intros Hok. apply tables_ok_alerts; [done|]. intros i b [Hl _]%map_lookup_filter_Some.
  exists b. split; [done|]. split; [done|]. by apply (ok_alerts _ Hok) in Hl.
Qed.

Lemma update_where_lookup p f (m : gmap string Alert) i b :
  update_where p f m !! i = Some b ->
  exists a, m !! i = Some a /\ b = (if p a then f a else a).
Proof. unfold update_where. rewrite lookup_fmap, fmap_Some. naive_solver. Qed.

Lemma resolved_place t seen a : same_place a (resolved t seen a).
Proof. by split_and!. Qed.

Lemma resolved_ok (w : world) t seen a : alert_ok w a -> alert_ok w (resolved t seen a).
Proof. intros [H1' H2' H3']. split; try done. right. split; [done|]. by eexists. Qed.

Lemma acknowledged_ok (w : world) u t a : alert_ok w a -> alert_ok w (acknowledged u t a).
Proof. intros [H1' H2' H3']. by split. Qed.

(** ** Statements on alerts *)
Lemma greatest_left x y : at_most x (greatest x y).
Proof.
  intros a ->. destruct y as [b|]; simpl; eexists; (split; [reflexivity|]); simpl; lia.
Qed.

Lemma greatest_right x y : at_most y (greatest x y).
Proof.
  intros a ->. destruct x as [b|]; simpl; eexists; (split; [reflexivity|]); simpl; lia.
Qed.

Lemma at_most_refl x : at_most x x.
Proof. intros a ->. eexists. split; [done|lia]. Qed.

Lemma at_most_trans x y z : at_most x y -> at_most y z -> at_most x z.
Proof. intros Hx Hy a Ha. destruct (Hx a Ha) as (b & Hb & ?). destruct (Hy b Hb) as (c & ? & ?).
  exists c. split; [done|lia]. Qed.

Lemma seen_again_ok (w : world) p v a : alert_ok w a -> alert_ok w (seen_again p v a).
Proof.
  intros [H1' [H2' H2''] H3']. split; [done| |done]. cbn. split; [|apply greatest_right].
  eapply at_most_trans; [done|apply greatest_left].
Qed.

Lemma new_alert_ok (w : world) p t v : rule_exists w (p_RuleID p) = true -> alert_ok w (new_alert p t v).
Proof.
  intros Hr. split; cbn.
  - by left.
  - split; apply at_most_refl.
  - intros id Hid. rewrite Hid in Hr. by apply bool_decide_eq_true in Hr.
Qed.

(** A new open alert for a rule and a target that have none. *)
Lemma tables_ok_insert_alert (w : world) p t v id ids :
  tables_ok w -> uuids w = id :: ids -> rule_exists w (p_RuleID p) = true ->
  map_find (same_alert (p_ServerID p) (p_RuleID p) (p_Target p)) (alerts w) = None ->
  tables_ok (set_chance ids (faults w) (set_alerts (<[id := new_alert p t v]> (alerts w)) w)).
Proof.
  intros [H1' H2' H3' H4' H5' [H6' H7']] Hu Hr Hn. rewrite Hu in *.
  assert (Hfree : forall a i r, alerts w !! i = Some a -> is_open a = true ->
            a_ServerID a = p_ServerID p -> a_Target a = p_Target p -> RuleID a = Some r ->
            p_RuleID p = Some r -> False).
  { intros a i r Hl Ho Hs Ht Hi Hp. pose proof (map_find_none _ _ _ _ Hn Hl) as Hf.
    enough (same_alert (p_ServerID p) (p_RuleID p) (p_Target p) a = true) by congruence.
    apply same_alert_true. eauto 6. }
  split; try done; cbn.
  - intros i a Hl. destruct (decide (id = i)) as [<-|Hne].
    + rewrite lookup_insert_eq in Hl. injection Hl as <-. apply (alert_ok_rules w); [done|by apply new_alert_ok].
    + rewrite lookup_insert_ne in Hl by done. apply (alert_ok_rules w); [done|]. by eapply H3'.
  - intros i j a b r Hi Hj Hoa Hob Hs Ht Hra Hrb.
    destruct (decide (id = i)) as [<-|Hni]; destruct (decide (id = j)) as [<-|Hnj];
      rewrite ?lookup_insert_eq, ?lookup_insert_ne in Hi by done;
      rewrite ?lookup_insert_eq, ?lookup_insert_ne in Hj by done; [done| | |by eapply H4'].
    + injection Hi as <-. exfalso. by eapply (Hfree b j r).
    + injection Hj as <-. exfalso. by eapply (Hfree a i r).
  - apply list.NoDup_cons in H6' as [Hid Hnd]. split; [done|]. intros i Hi.
    destruct (H7' i ltac:(by right)) as [? Hn']. split; [done|].
    rewrite lookup_insert_ne; [done|]. intros ->. done.
Qed.

Lemma OpenAlert_ok p (w : world) : tables_ok w -> tables_ok (snd (OpenAlert p w)).
Proof.
  apply call_keeps. clear w. intros w Hok.
  destruct (to_nullable 12 (p_Threshold p)) as [t|]; [|done].
  destruct (to_nullable 12 (p_Value p)) as [v|]; [|done].
  destruct (rule_exists w (p_RuleID p)) eqn:Hr; [|done].
  destruct (map_find _ (alerts w)) as [[id a]|] eqn:E.
  - apply map_find_some in E as [Hl _]. cbn. apply (tables_ok_alter w id a); try done.
    apply seen_again_ok. by apply (ok_alerts _ Hok) in Hl.
  - destruct (uuids w) as [|id ids] eqn:Hu; [done|]. by apply tables_ok_insert_alert.
Qed.

Lemma ResolveAlert_ok srv r tgt t (w : world) : tables_ok w -> tables_ok (snd (ResolveAlert srv r tgt t w)).
Proof.
  apply call_keeps. clear w. intros w Hok. destruct (map_find _ (alerts w)) as [[id a]|] eqn:E; [|done].
  apply map_find_some in E as [Hl _]. cbn. apply (tables_ok_alter w id a); try done.
  apply resolved_ok. by apply (ok_alerts _ Hok) in Hl.
Qed.

Lemma AcknowledgeAlert_ok id u t (w : world) : tables_ok w -> tables_ok (snd (AcknowledgeAlert id u t w)).
Proof.
  apply call_keeps. clear w. intros w Hok. destruct (alerts w !! id) as [a|] eqn:Hl; [|done].
  apply (tables_ok_alter w id a); try done. apply acknowledged_ok. by apply (ok_alerts _ Hok) in Hl.
Qed.

Lemma resolve_alerts_of_ok id (w : world) : tables_ok w -> tables_ok (snd (resolve_alerts_of id w)).
Proof.
  apply call_keeps. clear w. intros w Hok. apply tables_ok_alerts; [done|].
  intros i b (a & Hl & ->)%update_where_lookup. exists a. split; [done|].
  pose proof (ok_alerts _ Hok i a Hl). destruct (_ && _); [|done].
  split; [apply resolved_place|by apply resolved_ok].
Qed.

(** ** Statements on rules *)
Lemma checked_ok r s : checked r = Some s ->
  rule_ok s /\ ID s = ID r /\ ServerID s = ServerID r /\ Metric s = Metric r /\ Target s = Target r /\
  Severity s = Severity r.
Proof.
  unfold checked. intros (z & _ & Hs)%bind_Some. revert Hs. case_match eqn:E; [|done].
  intros [= <-]. bool_hyps. unfold rule_ok. cbn. split_and!; auto.
Qed.

Lemma same_watch_true r s : same_watch r s = true <->
  ServerID r = ServerID s /\ Metric r = Metric s /\ Target r = Target s /\ Severity r = Severity s.
Proof. unfold same_watch. rewrite !andb_true_iff, !String.eqb_eq. tauto. Qed.

(** A row of [alert_rules] written under its key, when no other row watches the same. *)
Lemma tables_ok_insert_rule (w : world) us id r :
  tables_ok w -> ID r = id -> rule_ok r ->
  (forall j s, j <> id -> rules w !! j = Some s -> same_watch r s = false) ->
  NoDup us /\ (forall i, i ∈ us -> i <> id /\ i ∈ uuids w) ->
  tables_ok (set_chance us (faults w) (set_rules (<[id := r]> (rules w)) w)).
Proof.
  intros [H1' H2' H3' H4' H5' [H6' H7']] Hid Hr Hw [Hnd Hus]. split; try done; cbn.
  - intros i s Hl. destruct (decide (id = i)) as [<-|Hne];
      rewrite ?lookup_insert_eq, ?lookup_insert_ne in Hl by done; [by simplify_eq|by apply H1'].
  - intros i j s t Hi Hj Hst.
    destruct (decide (id = i)) as [<-|Hni]; destruct (decide (id = j)) as [<-|Hnj];
      rewrite ?lookup_insert_eq, ?lookup_insert_ne in Hi by done;
      rewrite ?lookup_insert_eq, ?lookup_insert_ne in Hj by done; [done| | |by eapply H2'].
    + injection Hi as <-. apply Hw in Hj; [congruence|done].
    + injection Hj as <-. apply Hw in Hi; [|done].
      apply same_watch_true in Hst. enough (same_watch r s = true) by congruence.
      apply same_watch_true. naive_solver.
  - intros i a Hl. apply (alert_ok_rules w); [|by eapply H3']. cbn. intros j [s Hs].
    destruct (decide (id = j)) as [<-|Hne]; rewrite ?lookup_insert_eq, ?lookup_insert_ne by done; eauto.
  - split; [done|]. intros i Hi. destruct (Hus i Hi) as [Hne Hin]. destruct (H7' i Hin).
    by rewrite lookup_insert_ne.
Qed.

Lemma CreateRule_ok r (w : world) : tables_ok w -> tables_ok (snd (CreateRule r w)).
Proof.
  apply call_keeps. clear w. intros w Hok. destruct (uuids w) as [|id ids] eqn:Hu; [done|].
  destruct (checked r) as [s|] eqn:Hc; [|done].
  destruct (map_find _ (rules w)) as [?|] eqn:E; [done|]. cbn.
  apply checked_ok in Hc as (Hs & _). destruct (ok_uuids _ Hok) as [Hnd Hfresh]. rewrite Hu in *.
  apply list.NoDup_cons in Hnd as [Hid Hnd]. apply (tables_ok_insert_rule w); [done..| |].
  - intros j t _ Hl. exact (map_find_none _ _ _ _ E Hl).
  - split; [done|]. intros i Hi. rewrite Hu. split; [by intros ->|by right].
Qed.

Lemma UpdateRule_ok id r (w : world) : tables_ok w -> tables_ok (snd (UpdateRule id r w)).
Proof.
  apply call_keeps. clear w. intros w Hok. destruct (rules w !! id) as [old|] eqn:Hl; [|done].
  destruct (checked (updated r old)) as [s|] eqn:Hc; [|done].
  destruct (map_find _ (delete id (rules w))) as [?|] eqn:E; [done|]. cbn.
  apply checked_ok in Hc as (Hs & Hid & _). cbn in Hid. destruct (ok_ids _ Hok id old Hl) as [Hold _].
  apply (tables_ok_rest (set_chance (uuids w) (faults w) (set_rules (<[id := s]> (rules w)) w))); [done..|].
  destruct (ok_uuids _ Hok) as [Hnd Hfresh].
  apply (tables_ok_insert_rule w); [done|congruence|done| |].
  - intros j t Hne Hj. refine (map_find_none _ _ j _ E _). by rewrite lookup_delete_ne.
  - split; [done|]. intros i Hi. split; [|done]. intros ->. apply Hfresh in Hi. destruct Hi. congruence.
Qed.

Lemma delete_rule_row_ok id (w : world) : tables_ok w -> tables_ok (snd (delete_rule_row id w)).
Proof.
  apply call_keeps. clear w. intros w [H1' H2' H3' H4' H5' [H6' H7']].
  destruct (rules w !! id) as [r|] eqn:Hl; [|done]. split; try done; cbn.
  - intros i s [_ Hi]%lookup_delete_Some. by apply H1'.
  - intros i j s t [_ Hi]%lookup_delete_Some [_ Hj]%lookup_delete_Some. by apply H2'.
  - intros i b (a & Ha & ->)%update_where_lookup. destruct (H3' i a Ha) as [G1 G2 G3].
    unfold of_rule. case_bool_decide as Hd; (split; [done|done|]); cbn; [done|].
    intros j Hj. destruct (G3 j Hj) as [s Hs]. exists s. rewrite lookup_delete_ne; [done|]. congruence.
  - intros i j a b k (a' & Ha & ->)%update_where_lookup (b' & Hb & ->)%update_where_lookup.
    unfold of_rule. case_bool_decide; [done|]. case_bool_decide; [done|]. by eapply H4'.
  - split; [done|]. intros i Hi. destruct (H7' i Hi) as [Hr Ha]. unfold update_where.
    rewrite lookup_fmap, Ha. split; [|done]. by apply lookup_delete_None; right.
Qed.

(** ** Statements on service states *)
Lemma ended_not_current srv service t s : current_of srv service (ended t s) = false.
Proof. unfold current_of. cbn. by rewrite andb_false_r. Qed.

Lemma end_current_self srv service t l :
  current_count srv service (end_current (current_of srv service) t l) =
  Nat.pred (current_count srv service l).
Proof.
  unfold current_count. induction l as [|s l IH]; [done|]. simpl.
  destruct (current_of srv service s) eqn:E; simpl.
  - by rewrite ended_not_current.
  - by rewrite E, IH.
Qed.

Lemma current_of_key srv service srv' service' s :
  current_of srv service s = true -> current_of srv' service' s = true -> srv = srv' /\ service = service'.
Proof. unfold current_of. rewrite !andb_true_iff, !String.eqb_eq. intuition congruence. Qed.

Lemma end_current_other srv service srv' service' t l :
  (srv, service) <> (srv', service') ->
  current_count srv' service' (end_current (current_of srv service) t l) = current_count srv' service' l.
Proof.
  intros Hne. unfold current_count. induction l as [|s l IH]; [done|]. simpl.
  destruct (current_of srv service s) eqn:E; simpl.
  - rewrite ended_not_current. destruct (current_of srv' service' s) eqn:E'; [|done].
    destruct (current_of_key _ _ _ _ _ E E'). congruence.
  - destruct (current_of srv' service' s); simpl; by rewrite IH.
Qed.

Lemma tables_ok_states (w : world) l :
  (forall srv service, (current_count srv service l <= 1)%nat) ->
  tables_ok w -> tables_ok (set_states l w).
Proof. intros Hl [H1' H2' H3' H4' H5' H6']. split; try done. intros id a Ha.
  apply (alert_ok_rules w); [done|by eapply H3']. Qed.

Lemma RecordServiceState_ok srv service r st t (w : world) :
  tables_ok w -> tables_ok (snd (RecordServiceState srv service r st t w)).
Proof.
  apply call_keeps. clear w. intros w Hok. pose proof (ok_states _ Hok) as Hs. cbv beta zeta.
  destruct (List.find _ (states w)) as [c|] eqn:E.
  - destruct (_ && _); [done|]. cbn [snd]. apply tables_ok_states; [|done]. intros srv' service'.
    unfold current_count. simpl. destruct (current_of srv' service' _) eqn:Ec; simpl; fold (current_count srv' service').
    + unfold current_of in Ec. simpl in Ec.
      rewrite !andb_true_iff, !String.eqb_eq in Ec. destruct Ec as [[<- <-] _].
      pose proof (end_current_self srv service t (states w)) as He. unfold current_count in *.
      rewrite He. specialize (Hs srv service). lia.
    + assert (Hne : (srv, service) <> (srv', service')).
      { intros [= <- <-]. unfold current_of in Ec. simpl in Ec. by rewrite !String.eqb_refl in Ec. }
      pose proof (end_current_other srv service srv' service' t (states w) Hne) as He.
      unfold current_count in *. rewrite He. apply Hs.
  - cbn [snd]. apply tables_ok_states; [|done]. intros srv' service'. unfold current_count. simpl.
    destruct (current_of srv' service' _) eqn:Ec; simpl; [|apply Hs].
    unfold current_of in Ec. simpl in Ec. rewrite !andb_true_iff, !String.eqb_eq in Ec.
    destruct Ec as [[<- <-] _].
    assert (Hn : List.filter (current_of srv service) (states w) = []); [|by rewrite Hn].
    pose proof (List.find_none _ _ E) as Hf. clear - Hf. induction (states w) as [|s l IH]; [done|].
    simpl. rewrite (Hf s) by (by left). apply IH. intros x Hx. apply Hf. by right.
Qed.

Lemma filter_count_le srv service (P : ServiceState -> Prop) `{!forall x, base.Decision (P x)} l :
  (current_count srv service (filter P l) <= current_count srv service l)%nat.
Proof.
  unfold current_count. induction l as [|s l IH]; [done|]. rewrite filter_cons.
  destruct (decide (P s)); simpl; destruct (current_of srv service s); simpl; lia.
Qed.

Lemma PruneServiceStates_ok c (w : world) : tables_ok w -> tables_ok (snd (PruneServiceStates c w)).
Proof.
  apply call_keeps. clear w. intros w Hok. cbn [snd]. apply tables_ok_states; [|done].
  intros srv service. etrans; [apply filter_count_le|apply (ok_states _ Hok)].
Qed.

Lemma mon_step_ok (w : world) l w' : tables_ok w -> mon_step w l w' -> tables_ok w'.
Proof.
  intros Hok Hs. destruct Hs.
  - by apply CreateRule_ok.
  - by apply UpdateRule_ok.
  - by apply call_keeps.
  - by apply call_keeps.
  - by apply resolve_alerts_of_ok.
  - by apply delete_rule_row_ok.
  - by apply OpenAlert_ok.
  - by apply ResolveAlert_ok.
  - by apply AcknowledgeAlert_ok.
  - apply call_keeps; [|done]. intros v Hv. by apply tables_ok_shrink.
  - by apply RecordServiceState_ok.
  - by apply PruneServiceStates_ok.
  - by apply (tables_ok_rest w).
  - by apply (tables_ok_rest w).
Qed.

(** ** The monitor and the service move by these steps *)
Lemma reaches_ok (w w' : world) : tables_ok w -> reaches mon_step w w' -> tables_ok w'.
Proof. apply reaches_invariant, mon_step_ok. Qed.

Lemma moves_notify f : moves mon_step (notify f : M unit).
Proof. intros w. apply reaches_step, step_notify. Qed.
Lemma moves_withDuration srv rule r now : moves mon_step (withDuration srv rule r now : M Reading).
Proof.
  intros w. unfold withDuration.
  destruct (_ || _ || _); [apply reaches_refl|]. destruct (metrics w) as [h|]; [|apply reaches_refl].
  destruct (negb _); [apply reaches_refl|]. destruct (breached_since _ _ _ _ _ _) as [r' h'].
  apply reaches_step, step_history.
Qed.
End invariants.

#[export] Hint Constructors mon_step : moves.
#[export] Hint Resolve moves_notify moves_withDuration : moves.

Section programs.
Context {S N : Type} `{Numeric} `{Collation} `{MetricSource S} `{Notifier N}.
Local Abbreviation world := (World S N).
Local Abbreviation M := (Store.M world mon_err).

Lemma moves_resolve srv rule tgt now : moves mon_step (resolve srv rule tgt now : M unit).
Proof. unfold resolve. moves_tac. Qed.
#[local] Hint Resolve moves_resolve : moves.
Lemma moves_judge srv rule r now : moves mon_step (judge srv rule r now : M unit).
Proof. unfold judge, open. moves_tac. Qed.
#[local] Hint Resolve moves_judge : moves.
Lemma moves_judge_all srv rule rs now : moves mon_step (judge_all srv rule rs now : M bool).
Proof. induction rs as [|r rs IH]; cbn [judge_all]; moves_tac. Qed.
#[local] Hint Resolve moves_judge_all : moves.
Lemma moves_applyRule srv rule rs now : moves mon_step (applyRule srv rule rs now : M unit).
Proof. unfold applyRule. moves_tac. Qed.
#[local] Hint Resolve moves_applyRule : moves.
Lemma moves_apply_rules srv l rs now : moves mon_step (apply_rules srv l rs now : M unit).
Proof. induction l as [|r l IH]; cbn [apply_rules]; moves_tac. Qed.
#[local] Hint Resolve moves_apply_rules : moves.
Lemma moves_serviceReadings srv l now : moves mon_step (serviceReadings srv l now : M (list Reading)).
Proof. induction l as [|r l IH]; cbn [serviceReadings]; moves_tac. Qed.
#[local] Hint Resolve moves_serviceReadings : moves.
Lemma moves_takeReadings srv p now : moves mon_step (takeReadings srv p now : M (list Reading)).
Proof. unfold takeReadings. moves_tac. Qed.
#[local] Hint Resolve moves_takeReadings : moves.
Lemma moves_Once srv p now : moves mon_step (Once srv p now : M unit).
Proof. unfold Once. moves_tac. Qed.
#[local] Hint Resolve moves_Once : moves.
Lemma moves_prune retention now : moves mon_step (prune retention now : M unit).
Proof. unfold prune. moves_tac. Qed.
#[local] Hint Resolve moves_prune : moves.
Lemma moves_create_all l : moves mon_step (create_all l : M nat).
Proof. induction l; cbn [create_all]; moves_tac. Qed.
#[local] Hint Resolve moves_create_all : moves.
Lemma moves_EnsureDefaults srv : moves mon_step (EnsureDefaults srv : M nat).
Proof. unfold EnsureDefaults. moves_tac. Qed.
#[local] Hint Resolve moves_EnsureDefaults : moves.
Lemma moves_service_CreateRule srv req : moves mon_step (service_CreateRule srv req : M Rule).
Proof. unfold service_CreateRule. moves_tac. Qed.
#[local] Hint Resolve moves_service_CreateRule : moves.
Lemma moves_service_UpdateRule srv id req : moves mon_step (service_UpdateRule srv id req : M Rule).
Proof. unfold service_UpdateRule. moves_tac. Qed.
#[local] Hint Resolve moves_service_UpdateRule : moves.
Lemma moves_service_DeleteRule id : moves mon_step (service_DeleteRule id : M unit).
Proof. unfold service_DeleteRule, DeleteRule. moves_tac. Qed.
#[local] Hint Resolve moves_service_DeleteRule : moves.
End programs.

(** ** What opens an alert *)
Section opening.
Context {N : Type} `{Numeric} `{Collation} `{Notifier N}.
Local Abbreviation world := (World Metrics N).
Local Abbreviation M := (Store.M world mon_err).

Definition above (rule : Rule) : bool := negb (Comparison rule =? ComparisonBelow)%string.

(** A stored sample at least [ForSeconds] old breaches, and so does every one since; and the rule
    asks for less than a day. *)
Definition history_held (srv : string) (rule : Rule) (now : Z) (h : option Metrics) : Prop :=
  exists hist col since, h = Some hist /\ breachColumns (Metric rule) = Some col /\
    ForSeconds rule < MaxAlertDuration /\ since <= now - ForSeconds rule * Second /\
    Metrics.reading hist srv col (Threshold rule) (above rule) since true /\
    forall t, since <= t -> ~ Metrics.reading hist srv col (Threshold rule) (above rule) t false.

(** The condition of [rule] on [r] has held for the rule's whole duration. *)
Definition held (srv : string) (rule : Rule) (now : Z) (h : option Metrics) (r : Reading) : Prop :=
  ForSeconds rule <= 0 \/
  (IsZero (Since r) = false /\ Since r <= now - ForSeconds rule * Second) \/
  history_held srv rule now h.

Definition samples_of (w : world) : option (list Row) := rows <$> metrics w.

Lemma history_held_rows srv rule now (h h' : option Metrics) :
  rows <$> h = rows <$> h' -> history_held srv rule now h -> history_held srv rule now h'.
Proof.
  intros Hr (hist & col & since & -> & Hc & Hf & Hs & Hb & Ht). destruct h' as [hist'|]; [|done]. injection Hr as Hr.
  exists hist', col, since. unfold Metrics.reading in *. rewrite <- Hr. by split_and!.
Qed.

Lemma BreachedSince_rows srv metric thr ab now h :
  rows (snd (Metrics.BreachedSince srv metric thr ab now h)) = rows h.
Proof.
  unfold Metrics.BreachedSince. destruct (breachColumns metric); [|done].
  apply (respects_call Metrics.ErrBackend (fun u v => rows v = rows u)); done || congruence.
Qed.

Lemma t_Sub_ge t u d : 0 < d -> d <= t_Sub t u -> u <= t - d.
Proof. unfold t_Sub, int_min. lia. Qed.

(** The samples stay, and a reading that ends up sustained was held. *)
Lemma withDuration_held srv rule r now (w : world) r' w' :
  withDuration srv rule r now w = (Ok r', w') ->
  samples_of w' = samples_of w /\ (alerts w' = alerts w /\ states w' = states w) /\
  r_Target r' = r_Target r /\
  Breached (Evaluate rule r' now) = Breached (Evaluate rule r now) /\
  (Sustained (Evaluate rule r' now) = true -> held srv rule now (metrics w) r).
Proof.
  intros Hw.
  assert (Hsame : r' = r -> Sustained (Evaluate rule r' now) = true -> held srv rule now (metrics w) r).
  { intros -> [_ [Hs|[Hz Hs]]]%Sustained_spec; [by left|].
    destruct (Z.le_gt_cases (ForSeconds rule) 0); [by left|]. right. left. split; [done|].
    apply t_Sub_ge; [|done]. unfold Second. lia. }
  unfold withDuration in Hw.
  destruct (_ || _ || _) eqn:Eskip; [injection Hw as <- <-; split_and!; auto|].
  destruct (metrics w) as [h|] eqn:Eh; [|injection Hw as <- <-; split_and!; auto].
  destruct (negb (isStoredMetric _)) eqn:Est; [injection Hw as <- <-; split_and!; auto|].
  destruct (breached_since _ _ _ _ _ h) as [ans h'] eqn:Eb. injection Hw as <- <-.
  cbn [breached_since Metrics_source] in Eb.
  destruct (Metrics.BreachedSince srv (Metric rule) (Threshold rule) (above rule) now h) as [ans0 h0] eqn:E0.
  unfold breached_since, Metrics_source in Eb. fold (above rule) in Eb. rewrite E0 in Eb. injection Eb as <- <-.
  pose proof (BreachedSince_rows srv (Metric rule) (Threshold rule) (above rule) now h) as Hrows.
  rewrite E0 in Hrows. cbn in Hrows.
  split_and!.
  - unfold samples_of. cbn. rewrite Eh. cbn. by rewrite Hrows.
  - done.
  - done.
  - by destruct ans0 as [[]|].
  - rewrite !Breached_spec. by destruct ans0 as [[since|]|].
  - destruct ans0 as [[since|]|]; [|auto|auto].
    intros [_ [Hs|[_ Hs]]]%Sustained_spec; [by left|].
    destruct (Z.le_gt_cases (ForSeconds rule) 0) as [Hle|Hgt]; [by left|]. right. right.
    destruct (breachColumns (Metric rule)) as [col|] eqn:Ec;
      [|unfold Metrics.BreachedSince in E0; by rewrite Ec in E0].
    destruct (BreachedSince_some _ _ _ _ _ _ _ _ _ Ec E0) as (Hfrom & Hat & Hafter & _).
    apply t_Sub_ge in Hs; [cbn in Hs|unfold Second; lia].
    exists h, col, since. split_and!; [done|done| |done|done|done].
    unfold MaxAlertDuration, Hour, Minute, Second in *. lia.
Qed.

(** Where an alert belongs and when it opened: what no statement changes while it has a rule. *)
Definition place (a : Alert) : string * option string * string * Z :=
  (a_ServerID a, RuleID a, a_Target a, OpenedAt a).

Section round.
Variables (srv : string) (now : Z) (rs : list Rule) (readings : list Reading) (h : option Metrics).

Definition justified (pl : string * option string * string * Z) : Prop :=
  exists rule r, rule ∈ rs /\ Enabled rule = true /\ r ∈ readings /\ interested rule r = true /\
    Breached (Evaluate rule r now) = true /\ held srv rule now h r /\
    pl = (srv, Some (ID rule), r_Target r, now).

(** The service states and the samples, those of [h], stay as they are, and every new alert
    is justified. *)
Definition sound (w w' : world) : Prop :=
  samples_of w = rows <$> h ->
  states w' = states w /\ samples_of w' = rows <$> h /\
  forall id b, alerts w' !! id = Some b ->
    (exists a, alerts w !! id = Some a /\ place a = place b) \/ justified (place b).

Lemma sound_refl w : sound w w.
Proof. intros Hs. split_and!; eauto. Qed.

Lemma sound_trans u v w : sound u v -> sound v w -> sound u w.
Proof.
  intros H1' H2' Hs. destruct (H1' Hs) as (Ht1 & Hs1 & Ha1). destruct (H2' Hs1) as (Ht2 & Hs2 & Ha2).
  split_and!; [congruence|done|]. intros id c Hc. destruct (Ha2 id c Hc) as [(b & Hb & <-)|]; [|by right].
  by apply Ha1.
Qed.

Lemma sound_rest (w w' : world) :
  alerts w' = alerts w -> states w' = states w -> samples_of w' = samples_of w -> sound w w'.
Proof. intros Ha Ht Hs Hx. rewrite Ha, Hs, Ht. split_and!; [done..|]. intros id b Hl. left. by exists b. Qed.

Lemma sound_alter (w : world) i a b :
  alerts w !! i = Some a -> place a = place b -> sound w (set_alerts (<[i := b]> (alerts w)) w).
Proof.
  intros Ha Hp Hs. split_and!; [done..|]. intros j c Hl. cbn in Hl.
  left. destruct (decide (i = j)) as [<-|]; [|rewrite lookup_insert_ne in Hl by done; by exists c].
  rewrite lookup_insert_eq in Hl. injection Hl as <-. by exists a.
Qed.

Lemma sound_call {A} (f : world -> result mon_err A * world) :
  respects sound f -> respects sound (Store.call ErrBackend f).
Proof.
  apply respects_call; [apply sound_refl| |apply sound_trans]. intros fs w. by apply sound_rest.
Qed.

Lemma sound_notify f : respects sound (notify f : M unit).
Proof. intros w. by apply sound_rest. Qed.

Lemma sound_resolve rule tgt : respects sound (resolve srv rule tgt now : M unit).
Proof.
  apply respects_bind; [apply sound_trans| |].
  - apply respects_attempt, sound_call. intros w.
    destruct (map_find _ (alerts w)) as [[id a]|] eqn:E; [|apply sound_refl].
    apply map_find_some in E as [Hl _]. by apply (sound_alter w id a).
  - intros [[[id a]|]|e]; [apply sound_notify|by intros w; apply sound_refl..].
Qed.

Lemma sound_open rule r :
  justified (srv, Some (ID rule), r_Target r, now) -> respects sound (open srv rule r now : M unit).
Proof.
  intros Hj. apply respects_bind; [apply sound_trans| |].
  - apply respects_attempt, sound_call. intros w.
    destruct (to_nullable 12 (p_Threshold _)) as [t|]; [|apply sound_refl].
    destruct (to_nullable 12 (p_Value _)) as [v|]; [|apply sound_refl].
    destruct (rule_exists w _); [|apply sound_refl].
    destruct (map_find _ (alerts w)) as [[id a]|] eqn:E.
    + apply map_find_some in E as [Hl _]. by apply (sound_alter w id a).
    + destruct (uuids w) as [|id ids]; [apply sound_refl|]. intros Hs. split_and!; [done..|]. cbn.
      intros i b Hl. destruct (decide (id = i)) as [<-|];
        [|rewrite lookup_insert_ne in Hl by done; left; by exists b].
      rewrite lookup_insert_eq in Hl. injection Hl as <-. by right.
  - intros [[id a]|e]; [apply sound_notify|intros w; apply sound_refl].
Qed.

Lemma sound_judge rule r :
  rule ∈ rs -> Enabled rule = true -> r ∈ readings -> interested rule r = true ->
  respects sound (judge srv rule r now : M unit).
Proof.
  intros Hrule Hen Hr Hi w Hs. unfold judge, bind.
  destruct (withDuration srv rule r now w) as [[r'|e] w1] eqn:Ed.
  2: { exfalso. revert Ed. unfold withDuration. repeat case_match; discriminate. }
  destruct (withDuration_held _ _ _ _ _ _ _ Ed) as (Hs1 & [Ha1 Hst1] & Ht & Hb & Hheld).
  assert (Hrest : sound w w1) by by apply sound_rest.
  cbv zeta. destruct (Sustained (Evaluate rule r' now)) eqn:Es.
  - refine (sound_trans _ _ _ Hrest _ Hs). apply sound_open.
    exists rule, r. rewrite Ht. split_and!; try done.
    + rewrite <- Hb. by apply Sustained_spec in Es as [? _].
    + assert (Hx : samples_of w = rows <$> h) by done. unfold samples_of in Hx.
      destruct (Hheld eq_refl) as [?|[?|Hh]]; [by left|by right; left|].
      right. right. by eapply history_held_rows.
  - destruct (Breached (Evaluate rule r' now)); [by apply Hrest|].
    destruct (Available r'); [|by apply Hrest].
    refine (sound_trans _ _ _ Hrest _ Hs). apply sound_resolve.
Qed.

Lemma sound_judge_all rule l :
  rule ∈ rs -> Enabled rule = true -> l ⊆ readings -> respects sound (judge_all srv rule l now : M bool).
Proof.
  intros Hrule Hen. induction l as [|r l IH]; intros Hsub; cbn [judge_all].
  { intros w. apply sound_refl. }
  assert (Hl : l ⊆ readings) by set_solver. assert (Hr : r ∈ readings) by set_solver.
  destruct (interested rule r) eqn:Ei; [|by apply IH].
  apply respects_bind; [apply sound_trans|by apply sound_judge|]. intros _.
  apply respects_bind; [apply sound_trans|by apply IH|]. intros _ w. apply sound_refl.
Qed.

Lemma sound_apply_rules l :
  l ⊆ rs -> respects sound (apply_rules srv l readings now : M unit).
Proof.
  induction l as [|rule l IH]; intros Hsub; cbn [apply_rules].
  { intros w. apply sound_refl. }
  assert (Hl : l ⊆ rs) by set_solver. assert (Hr : rule ∈ rs) by set_solver.
  apply respects_bind; [apply sound_trans| |intros _; by apply IH].
  destruct (Enabled rule) eqn:Ee; [|apply sound_resolve].
  apply respects_bind; [apply sound_trans|by apply sound_judge_all|]. intros matched.
  destruct (negb matched && _); [apply sound_resolve|intros w; apply sound_refl].
Qed.
End round.

(** ** The readings of a round *)
Definition stretch (s : ServiceState) : string * string * bool * Z :=
  (s_ServerID s, Service s, Running s, StartedAt s).

Lemma end_current_stretch p t l : map stretch (end_current p t l) = map stretch l.
Proof. induction l as [|s l IH]; [done|]. simpl. destruct (p s); simpl; by rewrite ?IH. Qed.

(** The tables the readings come from: alerts and samples stay, stretches are only added. *)
Definition observed (w w' : world) : Prop :=
  alerts w' = alerts w /\ metrics w' = metrics w /\ map stretch (states w) ⊆ map stretch (states w').

Lemma observed_trans u v w : observed u v -> observed v w -> observed u w.
Proof. intros (? & ? & ?) (? & ? & ?). split_and!; [congruence..|set_solver]. Qed.

Lemma observed_state srv service r st now :
  respects observed (RecordServiceState srv service r st now : M _).
Proof.
  apply respects_call; [by intros w; split_and!|by intros fs w; split_and!|apply observed_trans|].
  intros w. cbv beta zeta. destruct (List.find _ _) as [c|]; [destruct (_ && _)|];
    (split_and!; [done..|cbn]); rewrite ?end_current_stretch; set_solver.
Qed.

Lemma recorded_state srv service r st now (w : world) s b w' :
  RecordServiceState srv service r st now w = (Ok (s, b), w') ->
  (srv, service, r, StartedAt s) ∈ map stretch (states w').
Proof.
  intros Hr. apply call_ok in Hr as [Hr|[fs Hr]]; revert Hr; cbv beta zeta;
    (destruct (List.find _ _) as [c|] eqn:E; [destruct (_ && _) eqn:Eq|]); intros [= <- <- <-]; cbn;
    try (by left);
    apply List.find_some in E as [Hin Hc]; unfold current_of in Hc; bool_hyps; subst;
    apply Bool.eqb_prop in H2; subst; apply list_elem_of_fmap; exists c; (split; [done|by apply list_elem_of_In]).
Qed.

Lemma serviceReadings_spec srv l now (w : world) :
  exists rs w', serviceReadings srv l now w = (Ok rs, w') /\ observed w w' /\
    forall r, r ∈ rs -> r_Metric r = MetricService /\
      exists b : bool, (srv, r_Target r, b, Since r) ∈ map stretch (states w') /\
        Value r = if b then f_int 1 else f_zero.
Proof.
  revert w. induction l as [|v l IH]; intros w; cbn [serviceReadings].
  { exists [], w. split_and!; [done..|]. intros r Hr. by apply not_elem_of_nil in Hr. }
  unfold bind, attempt, ret. cbv zeta.
  pose proof (observed_state srv (Key v) (v_Running v) (serviceStatus v) now w) as Ho.
  destruct (RecordServiceState _ _ _ _ _ w) as [res w1] eqn:E. cbn [snd] in Ho.
  destruct (IH w1) as (rs & w2 & -> & Ho2 & Hrs).
  pose proof (observed_trans _ _ _ Ho Ho2) as Ho3.
  destruct res as [[s b]|e]; [|by exists rs, w2].
  destruct (negb (Installed v)); [by exists rs, w2|].
  eexists _, w2. split; [done|]. split; [done|].
  intros r [->|Hr]%elem_of_cons; [|by apply Hrs]. split; [done|]. exists (v_Running v). split; [|done].
  cbn. apply recorded_state in E. destruct Ho2 as (_ & _ & Hsub). by apply Hsub.
Qed.

Lemma host_readings_now p r : r ∈ host_readings p -> IsZero (Since r) = true.
Proof.
  unfold host_readings. rewrite !elem_of_app. intros Hr.
  repeat match goal with
  | H : _ \/ _ |- _ => destruct H
  | H : _ ∈ [] |- _ => by apply not_elem_of_nil in H
  | H : _ ∈ [_] |- _ => apply list_elem_of_singleton in H as ->
  | H : _ ∈ _ :: _ |- _ => apply elem_of_cons in H
  | H : _ ∈ match ?x with _ => _ end |- _ => destruct x
  | H : _ ∈ (let '(_, _) := ?x in _) |- _ => destruct x
  | |- context [Since (match ?x with _ => _ end)] => destruct x
  | Hx : r = _ |- _ => subst r
  end; try done.
  match goal with Hx : _ ∈ map _ _ |- _ => apply list_elem_of_fmap in Hx as ([[? ?] ?] & -> & _) end. done.
Qed.

Lemma takeReadings_spec srv p now (w : world) :
  exists rs w', takeReadings srv p now w = (Ok rs, w') /\ observed w w' /\
    forall r, r ∈ rs -> IsZero (Since r) = false -> r_Metric r = MetricService /\
      exists b : bool, (srv, r_Target r, b, Since r) ∈ map stretch (states w') /\
        Value r = if b then f_int 1 else f_zero.
Proof.
  unfold takeReadings. destruct (p_services p) as [l|].
  - destruct (serviceReadings_spec srv l now w) as (rs & w' & Hs & Ho & Hr). unfold bind. rewrite Hs.
    exists (host_readings p ++ rs)%list, w'. split_and!; [done|apply Ho..|].
    intros r [Hin|Hin]%elem_of_app Hz; [|by apply Hr]. apply host_readings_now in Hin. congruence.
  - exists (host_readings p), w. split_and!; [done..|].
    intros r Hin Hz. apply host_readings_now in Hin. congruence.
Qed.

Lemma ListRules_spec srv (w : world) r w' :
  ListRules srv w = (r, w') ->
  alerts w' = alerts w /\ metrics w' = metrics w /\ states w' = states w /\ rules w' = rules w /\
  forall l, r = Ok l -> forall rule, rule ∈ l <-> ServerID rule = srv /\ exists id, rules w !! id = Some rule.
Proof.
  intros Hr.
  assert (Hl : forall v : world, rules v = rules w ->
    forall l, Ok (E := mon_err) (sort_rules (filter (fun r => ServerID r = srv) (map snd (map_to_list (rules v))))) = Ok l ->
    forall rule, rule ∈ l <-> ServerID rule = srv /\ exists id, rules w !! id = Some rule).
  { intros v -> l [= <-] rule. rewrite sort_rules_perm, list_elem_of_filter, list_elem_of_fmap.
    split; (intros [Hs Hx]; split; [done|]).
    - destruct Hx as ([id rl] & -> & Hin). exists id. by apply elem_of_map_to_list in Hin.
    - destruct Hx as [id Hin]. exists (id, rule). by rewrite elem_of_map_to_list. }
  unfold ListRules, query, Store.call in Hr.
  destruct (faults_of w) as [|[] fs]; injection Hr as <- <-; split_and!; try done;
    try (by apply Hl); intros; done.
Qed.

End opening.

(** A new alert after a round, and why it was opened: an enabled rule of the host, one of the
    readings of the round that the rule is about and that crosses its threshold, and for a rule
    with a duration the stored figures, or the stretch of the service's present state. *)
Record opened_by `{Numeric} (srv : string) (now : Z) (rs : gmap string Rule) (readings : list Reading) (h : option Metrics)
    (stretches : list (string * string * bool * Z)) (a : Alert) (rule : Rule) : Prop := {
  ob_rule : exists id, rs !! id = Some rule;
  ob_host : ServerID rule = srv;
  ob_enabled : Enabled rule = true;
  ob_place : place a = (srv, Some (ID rule), a_Target a, now);
  ob_reading : exists r, r ∈ readings /\ r_Metric r = Metric rule /\ r_Target r = a_Target a /\
    Available r = true /\ crosses rule (Value r) = true;
  ob_target : Target rule = ""%string \/ Target rule = a_Target a;
  ob_duration : 0 < ForSeconds rule ->
    history_held srv rule now h \/
    (Metric rule = MetricService /\
     exists (running : bool) (since : Z), (srv, a_Target a, running, since) ∈ stretches /\
       since <= now - ForSeconds rule * Second /\
       crosses rule (if running then f_int 1 else f_zero) = true);
}.

(** The reason behind any alert that a round adds. *)
Lemma new_alert_opened_by {N} `{Numeric} `{Collation} `{Notifier N} srv p now
  (w w' : World Metrics N) u id a
  (Hr : Once srv p now w = (u, w')) (Hold : alerts w !! id = None) (Hnew : alerts w' !! id = Some a) :
  exists rs readings w1 w2 rule, ListRules srv w = (Ok rs, w1) /\ takeReadings srv p now w1 = (Ok readings, w2) /\
    opened_by srv now (rules w) readings (metrics w) (map stretch (states w')) a rule.
Proof.
  unfold Once, bind, attempt in Hr.
  destruct (ListRules srv w) as [listed w1] eqn:El.
  destruct (ListRules_spec _ _ _ _ El) as (Ha1 & Hm1 & Hs1 & _ & Hl).
  destruct listed as [rs|e]; [|injection Hr as _ <-; congruence].
  destruct (takeReadings_spec srv p now w1) as (readings & w2 & Ht & (Ha2 & Hm2 & Hs2) & Hst).
  rewrite Ht in Hr.
  pose proof (sound_apply_rules srv now rs readings (metrics w) rs ltac:(done) w2) as Hsound.
  rewrite Hr in Hsound. cbn [snd] in Hsound.
  destruct Hsound as (Hs' & _ & Hj); [unfold samples_of; congruence|].
  destruct (Hj id a Hnew) as [(b & Hb & _)|(rule & r & Hrule & Hen & Hin & Hi & Hb & Hheld & Hpl)];
    [congruence|].
  apply (Hl rs eq_refl) in Hrule as [Hsrv Hid]. exists rs, readings, w1, w2, rule. split; [done|]. split; [done|].
  pose proof Hpl as Hpl2. unfold place in Hpl2. injection Hpl2 as _ _ Htg _.
  unfold interested in Hi. bool_hyps. rewrite Breached_spec in Hb. bool_hyps.
  split; try done.
  - by rewrite Htg.
  - exists r. by split_and!.
  - rewrite Htg. apply orb_true_iff in H3 as [E|E]; apply String.eqb_eq in E; auto.
  - intros Hpos. destruct Hheld as [?|[[Hz Hle]|?]]; [lia| |by left].
    right. destruct (Hst r Hin Hz) as (Hmet & b & Hb' & Hv). split; [congruence|].
    exists b, (Since r). rewrite Htg, Hs'. split_and!; [done..|]. by rewrite <- Hv.
Qed.

(** C31: every alert has its reason. In any round of the monitor, whatever fails, an alert that was
    not there before belongs to an enabled rule of the host, and one of the readings the round
    took, of the rule's metric and a target it watches, crosses the rule's threshold. If the rule
    asks for a duration, then either the history stores its metric, a sample stored at least that
    long ago crosses the threshold and so does every one stored since, or it is a service whose
    recorded state crosses the threshold and began at least that long ago. The stored load is the
    machine's and the reading is per core, so for the load the samples say less. *)
Theorem alert_has_its_reason {N} `{Numeric} `{Collation} `{Notifier N} srv p now
  (w w' : World Metrics N) u id a
  (Hr : Once srv p now w = (u, w')) (Hold : alerts w !! id = None) (Hnew : alerts w' !! id = Some a) :
  exists rs readings w1 w2 rule, ListRules srv w = (Ok rs, w1) /\ takeReadings srv p now w1 = (Ok readings, w2) /\
    opened_by srv now (rules w) readings (metrics w) (map stretch (states w')) a rule.
Proof. by eapply new_alert_opened_by. Qed.

(** A rule with a duration can only open an alert when it watches a service, or one of the
    three stored metrics for less than a day. The rules of a fresh host about disks and swap,
    which ask for five and fifteen minutes, are not among these: they never open an alert. *)
Definition can_fire (rule : Rule) : bool :=
  (ForSeconds rule <=? 0) || (Metric rule =? MetricService)%string ||
  (isStoredMetric (Metric rule) && (ForSeconds rule <? MaxAlertDuration)).

Lemma only_some_rules_fire {N} `{Numeric} `{Collation} `{Notifier N} srv p now
  (w w' : World Metrics N) u id a rid rule :
  tables_ok w -> Once srv p now w = (u, w') -> rules w !! rid = Some rule -> can_fire rule = false ->
  alerts w !! id = None -> alerts w' !! id = Some a -> RuleID a <> Some rid.
Proof.
  intros Hok Hr Hrule Hcan Hold Hnew Hid.
  destruct (new_alert_opened_by srv p now w w' u id a Hr Hold Hnew) as (rs & readings & w1 & w2 & rule' & _ & _ & [[k Hk] _ _ Hpl _ _ Hdur]).
  destruct (ok_ids _ Hok _ _ Hk) as [Hk' _]. unfold place in Hpl. injection Hpl as _ Hrid _.
  assert (rule' = rule) as -> by congruence.
  unfold can_fire in Hcan. bool_hyps. destruct (Hdur ltac:(lia)) as [(hist & col & since & _ & Hc & Hday & _)|[Hs _]].
  - assert (Hst : isStoredMetric (Metric rule) = true).
    { apply existsb_elem. exists (Metric rule). split; [|apply String.eqb_refl].
      unfold breachColumns in Hc.
      destruct (Metric rule =? "cpu")%string eqn:E1; [apply String.eqb_eq in E1 as ->; by left|].
      destruct (Metric rule =? "memory")%string eqn:E2; [apply String.eqb_eq in E2 as ->; by right; left|].
      destruct (Metric rule =? "load")%string eqn:E3; [|done].
      apply String.eqb_eq in E3 as ->. by right; right; left. }
    rewrite Hst in *. cbn in *. bool_hyps. lia.
  - congruence.
Qed.

Example default_rules_that_never_fire :
  map Name (List.filter (fun r => negb (can_fire r)) (DefaultRules "s")) =
    ["Disk nearly full"; "Disk critically full"; "Swap in use"]%string.
Proof. reflexivity. Qed.

(** The tables stay in order. Whatever statements of the monitor and the service follow
    one another, failing before or after they took effect, there is at most one open alert per
    rule and target and at most one current state per service, an alert is resolved exactly
    when it has a time of resolution, its worst value is no less than any it reports, its rule
    exists, rules are valid and no two of one host watch the same at one severity; and every
    program of the monitor and the service is a sequence of such statements. *)
Theorem alert_tables_stay_in_order {S N} `{Numeric} `{Collation} `{MetricSource S} `{Notifier N}
  (w0 w : World S N) ls (Hok : tables_ok w0) (Hrun : run mon_step w0 ls w) :
  tables_ok w /\
  (forall srv p now, reaches mon_step w (snd (Once srv p now w))) /\
  (forall srv req, reaches mon_step w (snd (service_CreateRule srv req w))) /\
  (forall srv id req, reaches mon_step w (snd (service_UpdateRule srv id req w))) /\
  (forall id, reaches mon_step w (snd (service_DeleteRule id w))) /\
  (forall srv, reaches mon_step w (snd (EnsureDefaults srv w))) /\
  (forall retention now, reaches mon_step w (snd (prune retention now w))).
Proof.
  split; [by apply (reaches_ok w0); [|exists ls]|]. split_and!; intros.
  - apply moves_Once.
  - apply moves_service_CreateRule.
  - apply moves_service_UpdateRule.
  - apply moves_service_DeleteRule.
  - apply moves_EnsureDefaults.
  - apply moves_prune.
Qed.

Lemma checked_some `{Numeric} r z :
  rule_ok r -> to_column 12 (Threshold r) = Some z -> exists s, checked r = Some s /\ rule_ok s.
Proof.
  intros Hr Hz. destruct (checked r) as [s|] eqn:Hc; [exists s; by apply checked_ok in Hc as [? _]|].
  exfalso. unfold checked in Hc. rewrite Hz in Hc. cbv [mbind option_bind] in Hc.
  destruct Hr as (Hm & Hcmp & Hs & [Hf1 Hf2] & Hn). rewrite Hm, Hcmp, Hs in Hc.
  apply Z.leb_le in Hf1, Hf2. rewrite Hf1, Hf2 in Hc. apply String.eqb_neq in Hn. by rewrite Hn in Hc.
Qed.

(** What the service builds from a request and a rule of any kind fits the table: every
    check of the table passes, the threshold is not negative and at most 100 for a percentage,
    the duration is at most a day, and a rule on a service names one. *)
Theorem built_rules_are_valid `{Numeric} srv req base r z
  (Hb : build srv req base = Ok r) (Hz : to_column 12 (Threshold r) = Some z) :
  (exists s, checked r = Some s /\ rule_ok s) /\ rule_ok r /\
  f_lt (Threshold r) f_zero = false /\
  (IsPercentMetric (Metric r) = true -> f_lt (f_int 100) (Threshold r) = false) /\
  (Metric r = MetricService -> Target r <> ""%string) /\ ServerID r = srv.
Proof.
  enough (Hr : rule_ok r /\ f_lt (Threshold r) f_zero = false /\
    (IsPercentMetric (Metric r) = true -> f_lt (f_int 100) (Threshold r) = false) /\
    (Metric r = MetricService -> Target r <> ""%string) /\ ServerID r = srv).
  { destruct Hr as [Hr Hrest]. split; [by eapply checked_some|]. by split. }
  clear Hz. unfold build in Hb. cbv zeta in Hb. go_inv Hb. injection Hb as <-. cbn in *.
  repeat match goal with
  | Hx : AlertRuleName _ = Ok _ |- _ => apply AlertRuleName_ok in Hx
  | Hx : AlertMetric _ = Ok _ |- _ => apply AlertMetric_ok in Hx
  | Hx : AlertComparison _ = Ok _ |- _ => apply AlertComparison_ok in Hx
  | Hx : AlertSeverity _ = Ok _ |- _ => apply AlertSeverity_ok in Hx
  | Hx : AlertThreshold _ _ = Ok _ |- _ => apply AlertThreshold_ok in Hx as [? ?]
  | Hx : AlertDuration _ = Ok _ |- _ => apply AlertDuration_ok in Hx
  | Hx : AlertTarget _ _ = Ok _ |- _ => pose proof (AlertTarget_ok _ _ _ Hx); clear Hx
  end.
  split; [split_and!; cbn; try done; lia|]. split_and!; try done.
  intros Hm Ht. rewrite Ht in *. naive_solver.
Qed.
