(* ===== verification/AlertRound.v ===== *)
(** * What a round of the monitor does ([api/internal/monitoring/monitor.go])

    The specification of a round over which alerts are open, a function of the rules and the
    readings, and the proof that [Once] implements it when nothing fails; then concrete rounds,
    with the cases where what happens is not what the comments promise. *)

From stdpp Require Import gmap list sorting.
From S2P Require Import Prelude Store GoStr GoTime GoFloat Metrics AlertRules Monitoring.

#[local] Open Scope Z_scope.
#[local] Open Scope store_scope.

(** ** The specification *)

(** A reading with what the history answers about it. *)
Definition asked (answer : Rule -> option Z) (history : bool) (rule : Rule) (r : Reading) : Reading :=
  if negb (Available r) || (ForSeconds rule <=? 0) || negb (IsZero (Since r)) then r
  else if negb history || negb (isStoredMetric (Metric rule)) then r
  else match answer rule with Some since => with_since since r | None => r end.

(** Whether an alert is open after a decision, given whether it was before. *)
Definition decided (d : Decision) (available before : bool) : bool :=
  if Sustained d then true
  else if Breached d then before
  else if available then false
  else before.

(** Whether [rule] has an alert open for [tgt] after the round, given whether it had before. *)
Definition verdict (answer : Rule -> option Z) (history : bool) (rule : Rule) (readings : list Reading)
    (now : Z) (tgt : string) (before : bool) : bool :=
  if negb (Enabled rule) then (if (tgt =? Target rule)%string then false else before)
  else
    match List.find (fun r => interested rule r && (r_Target r =? tgt)%string) readings with
    | Some r => decided (Evaluate rule (asked answer history rule r) now) (Available r) before
    | None =>
        if negb (existsb (interested rule) readings) && negb (Target rule =? "")%string &&
           (tgt =? Target rule)%string
        then false else before
    end.

(** ** One statement at a time *)
Section refinement.
Context {S N : Type} `{Numeric} `{Collation} `{MetricSource S} `{Notifier N}.
Local Abbreviation world := (World S N).
Local Abbreviation M := (Store.M world mon_err).
Variables (srv : string) (now : Z) (R : gmap string Rule) (h : option S) (answer : Rule -> option Z).

Definition opened (w : world) (rid tgt : string) : bool :=
  match map_find (same_alert srv (Some rid) tgt) (alerts w) with Some _ => true | None => false end.

(** What the history answers does not change during a round. *)
Definition steady : Prop :=
  forall s rule, h = Some s ->
    breached_since srv (Metric rule) (Threshold rule) (negb (Comparison rule =? ComparisonBelow)%string)
      now s = (Ok (answer rule), s).

(** Nothing fails, and the database still has identifiers for [k] rows. *)
Record quiet (k : nat) (w : world) : Prop := {
  q_ok : tables_ok w;
  q_faults : faults w = [];
  q_metrics : metrics w = h;
  q_rules : rules w = R;
  q_uuids : (k <= length (uuids w))%nat;
}.

Lemma quiet_le k k' w : (k' <= k)%nat -> quiet k w -> quiet k' w.
Proof. intros Hle []. split; try done. lia. Qed.

Definition answers {A} (m : M A) (k k' : nat) (r : A) (f : string -> string -> bool -> bool) : Prop :=
  forall w, quiet k w -> exists w', m w = (Ok r, w') /\ quiet k' w' /\
    forall rid tgt, opened w' rid tgt = f rid tgt (opened w rid tgt).

Lemma answers_ret {A} (a : A) k : answers (ret a) k k a (fun _ _ b => b).
Proof. intros w Hq. by exists w. Qed.

Lemma answers_bind {A B} (m : M A) (g : A -> M B) k1 k2 k3 a b f1 f2 f :
  answers m k1 k2 a f1 -> answers (g a) k2 k3 b f2 ->
  (forall rid tgt x, f rid tgt x = f2 rid tgt (f1 rid tgt x)) ->
  answers (bind m g) k1 k3 b f.
Proof.
  intros Hm Hg Hf w Hq. destruct (Hm w Hq) as (w1 & H1' & Hq1 & Ho1).
  destruct (Hg w1 Hq1) as (w2 & H2' & Hq2 & Ho2). exists w2. unfold bind. rewrite H1', H2'.
  split_and!; [done..|]. intros rid tgt. by rewrite Ho2, Ho1, Hf.
Qed.

Lemma answers_weaken {A} (m : M A) k k' j j' a f :
  answers m k k' a f -> (k <= j)%nat -> (j' <= k')%nat -> answers m j j' a f.
Proof.
  intros Hm Hj Hj' w Hq. destruct (Hm w (quiet_le _ _ _ Hj Hq)) as (w' & ? & ? & ?).
  exists w'. split_and!; [done| |done]. by eapply quiet_le.
Qed.

(** The effect on one rule and one target only. *)
Definition at_place (rid tgt : string) (b : bool) : string -> string -> bool -> bool :=
  fun rid' tgt' before => if decide (rid' = rid /\ tgt' = tgt) then b else before.

Lemma opened_true w rid tgt :
  opened w rid tgt = true <-> exists id a, alerts w !! id = Some a /\ same_alert srv (Some rid) tgt a = true.
Proof.
  unfold opened. split.
  - destruct (map_find _ _) as [[id a]|] eqn:E; [|done]. intros _.
    apply map_find_some in E as [? ?]. eauto.
  - intros (id & a & Hl & Hs). destruct (map_find _ _) as [?|] eqn:E; [done|].
    by rewrite (map_find_none _ _ _ _ E Hl) in Hs.
Qed.

Lemma same_alert_place rid tgt rid' tgt' a :
  same_alert srv (Some rid) tgt a = true -> same_alert srv (Some rid') tgt' a = true ->
  rid' = rid /\ tgt' = tgt.
Proof. rewrite !same_alert_true. naive_solver. Qed.

Lemma opened_eq w w' rid tgt :
  (opened w' rid tgt = true <-> opened w rid tgt = true) -> opened w' rid tgt = opened w rid tgt.
Proof. destruct (opened w' rid tgt), (opened w rid tgt); naive_solver. Qed.

(** A row replaced by one that the index keys alike. *)
Lemma opened_alter w id a b rid tgt :
  alerts w !! id = Some a ->
  same_alert srv (Some rid) tgt b = same_alert srv (Some rid) tgt a ->
  opened (set_alerts (<[id := b]> (alerts w)) w) rid tgt = opened w rid tgt.
Proof.
  intros Ha Hs. apply opened_eq. rewrite !opened_true. cbn. split; intros (i & c & Hl & Hc).
  - destruct (decide (id = i)) as [<-|]; rewrite ?lookup_insert_eq, ?lookup_insert_ne in Hl by done;
      [simplify_eq; exists id, a; by rewrite <- Hs|by exists i, c].
  - destruct (decide (id = i)) as [<-|].
    + exists id, b. rewrite lookup_insert_eq, Hs. split; [done|]. congruence.
    + exists i, c. by rewrite lookup_insert_ne.
Qed.

Lemma notify_answers f k : answers (notify f : M unit) k k tt (fun _ _ b => b).
Proof.
  intros w [? ? ? ? ?]. eexists. split; [done|]. split; [|done].
  split; try done. by apply (tables_ok_rest w).
Qed.

(** ** Opening and resolving *)
Lemma OpenAlert_answers p k (w : world) rid :
  quiet (Datatypes.S k) w -> p_ServerID p = srv -> p_RuleID p = Some rid -> is_Some (R !! rid) ->
  is_Some (to_nullable 12 (p_Threshold p)) -> is_Some (to_nullable 12 (p_Value p)) ->
  exists r w', OpenAlert p w = (Ok r, w') /\ quiet k w' /\
    forall rid' tgt', opened w' rid' tgt' = at_place rid (p_Target p) true rid' tgt' (opened w rid' tgt').
Proof.
  intros Hq Hsrv Hrid Hrule [t Ht] [v Hv]. pose proof (OpenAlert_ok p w (q_ok _ _ Hq)) as Hok.
  destruct Hq as [Hok0 Hf Hm Hr Hu].
  assert (Hex : rule_exists w (p_RuleID p) = true).
  { rewrite Hrid. simpl. rewrite Hr. by apply bool_decide_eq_true. }
  revert Hok. unfold OpenAlert. rewrite call_fine by done. rewrite Ht, Hv, Hex, Hrid, Hsrv.
  destruct (map_find (same_alert srv (Some rid) (p_Target p)) (alerts w)) as [[id a]|] eqn:E.
  - intros Hok. eexists _, _. split; [done|]. split; [split; try done; simpl; lia|].
    apply map_find_some in E as [Hl Hs]. intros rid' tgt'. rewrite (opened_alter w id a); [|done..].
    unfold at_place. destruct (decide _) as [[-> ->]|]; [|done]. apply opened_true. eauto.
  - destruct (uuids w) as [|id ids] eqn:Eu; [simpl in Hu; lia|].
    intros Hok. eexists _, _. split; [done|]. split; [split; try done; simpl in *; lia|].
    intros rid' tgt'. unfold at_place.
    assert (Hid : alerts w !! id = None).
    { apply (ok_uuids _ Hok0). rewrite Eu. by left. }
    destruct (decide _) as [[-> ->]|Hn].
    + apply opened_true. exists id, (new_alert p t v). cbn. rewrite lookup_insert_eq.
      split; [done|]. apply same_alert_true. cbn. eauto 6.
    + apply opened_eq. rewrite !opened_true. cbn. split; intros (i & c & Hl & Hc).
      * destruct (decide (id = i)) as [<-|]; rewrite ?lookup_insert_eq, ?lookup_insert_ne in Hl by done;
          [|by exists i, c].
        injection Hl as <-. exfalso. apply Hn. apply same_alert_true in Hc. cbn in Hc. naive_solver.
      * exists i, c. rewrite lookup_insert_ne; [done|congruence].
Qed.

Lemma ResolveAlert_answers rid tgt k (w : world) :
  quiet k w ->
  exists r w', ResolveAlert srv rid tgt now w = (Ok r, w') /\ quiet k w' /\
    forall rid' tgt', opened w' rid' tgt' = at_place rid tgt false rid' tgt' (opened w rid' tgt').
Proof.
  intros Hq. pose proof (ResolveAlert_ok srv rid tgt now w (q_ok _ _ Hq)) as Hok.
  destruct Hq as [Hok0 Hf Hm Hr Hu]. revert Hok. unfold ResolveAlert. rewrite call_fine by done.
  destruct (map_find _ (alerts w)) as [[id a]|] eqn:E; intros Hok; eexists _, _;
    (split; [done|]); (split; [by split|]); intros rid' tgt'; unfold at_place.
  - apply map_find_some in E as [Hl Hs]. destruct (decide _) as [[-> ->]|Hn].
    + apply not_true_is_false. rewrite opened_true. cbn. intros (i & c & Hc & Hs').
      destruct (decide (id = i)) as [<-|Hne]; rewrite ?lookup_insert_eq, ?lookup_insert_ne in Hc by done.
      * injection Hc as <-. by apply same_alert_true in Hs' as [? _].
      * apply Hne. apply same_alert_true in Hs as (Ho & Hsrv & Ht & r & [= <-] & Hr1).
        apply same_alert_true in Hs' as (Ho' & Hsrv' & Ht' & r' & [= <-] & Hr2).
        eapply (ok_one_open _ Hok0); eauto; congruence.
    + apply (opened_alter w id a); [done|].
      destruct (same_alert srv (Some rid') tgt' a) eqn:E.
      * exfalso. apply Hn. by eapply same_alert_place.
      * apply not_true_is_false. intros [? _]%same_alert_true. done.
  - destruct (decide _) as [[-> ->]|]; [|done]. unfold opened. by rewrite E.
Qed.

(** ** Judging *)
Definition has_history : bool := match h with Some _ => true | None => false end.

Definition judged (rule : Rule) (r : Reading) : bool -> bool :=
  decided (Evaluate rule (asked answer has_history rule r) now) (Available r).

Definition wanted (rule : Rule) (tgt : string) (r : Reading) : bool :=
  interested rule r && (r_Target r =? tgt)%string.

(** The numbers of the rule and of the readings fit their columns, and the rule is stored. *)
Definition storable (rule : Rule) (readings : list Reading) : Prop :=
  is_Some (R !! ID rule) /\ is_Some (to_column 12 (Threshold rule)) /\
  forall r, r ∈ readings -> is_Some (to_column 12 (Value r)).

Lemma withDuration_answers rule r k w :
  steady -> quiet k w -> withDuration srv rule r now w = (Ok (asked answer has_history rule r), w).
Proof.
  intros Hst Hq. unfold withDuration, asked, has_history. rewrite (q_metrics _ _ Hq).
  destruct (_ || _ || _); [done|]. destruct h as [s|] eqn:Eh; [|done].
  destruct (isStoredMetric _); [|done]. cbn [negb orb]. rewrite (Hst s rule Eh).
  pose proof (q_metrics _ _ Hq) as Hm. rewrite Eh in Hm. destruct w. simpl in Hm. subst.
  by destruct (answer rule).
Qed.

Lemma asked_same rule r :
  Available (asked answer has_history rule r) = Available r /\
  r_Target (asked answer has_history rule r) = r_Target r /\
  Value (asked answer has_history rule r) = Value r.
Proof. unfold asked. destruct (_ || _ || _); [done|]. destruct (_ || _); [done|]. by destruct (answer rule). Qed.

Lemma attempt_answers {A B} (m : M A) (g : result mon_err A -> M B) w a w1 :
  m w = (Ok a, w1) -> bind (attempt m) g w = g (Ok a) w1.
Proof. intros Hm. unfold bind, attempt. by rewrite Hm. Qed.

Lemma open_answers rule r k :
  storable rule [r] ->
  answers (open srv rule r now : M unit) (Datatypes.S k) k tt (at_place (ID rule) (r_Target r) true).
Proof.
  intros (Hr & Ht & Hv) w Hq.
  destruct (OpenAlert_answers (open_params srv rule r now) k w (ID rule) Hq eq_refl eq_refl Hr)
    as ([id a] & w1 & Ho & Hq1 & Hop).
  { destruct Ht as [z Hz]. exists (Some z). cbn. by rewrite Hz. }
  { destruct (Hv r ltac:(by left)) as [z Hz]. exists (Some z). cbn. by rewrite Hz. }
  unfold open. rewrite (attempt_answers _ _ _ _ _ Ho).
  destruct (notify_answers (AlertOpened id (a_Severity a) (a_Message a) (a_Target a)) k w1 Hq1)
    as (w2 & Hn & Hq2 & Hop2).
  exists w2. split_and!; [done..|]. intros rid tgt. by rewrite Hop2, Hop.
Qed.

Lemma resolve_answers rule tgt k :
  answers (resolve srv rule tgt now : M unit) k k tt (at_place (ID rule) tgt false).
Proof.
  intros w Hq. destruct (ResolveAlert_answers (ID rule) tgt k w Hq) as (o & w1 & Ho & Hq1 & Hop).
  unfold resolve. rewrite (attempt_answers _ _ _ _ _ Ho). destruct o as [[id a]|].
  - destruct (notify_answers (AlertResolved id (a_Severity a) (a_Message a) (a_Target a)
                                (t_Sub now (OpenedAt a))) k w1 Hq1) as (w2 & Hn & Hq2 & Hop2).
    exists w2. split_and!; [done..|]. intros rid' tgt'. by rewrite Hop2, Hop.
  - exists w1. by split_and!.
Qed.

Lemma judge_answers rule r k :
  steady -> storable rule [r] ->
  answers (judge srv rule r now : M unit) (Datatypes.S k) k tt
    (fun rid tgt b => if decide (rid = ID rule /\ tgt = r_Target r) then judged rule r b else b).
Proof.
  intros Hst Hfit w Hq. unfold judge, bind. rewrite (withDuration_answers rule r _ w Hst Hq).
  destruct (asked_same rule r) as (Hav & Htg & Hval). unfold judged, decided. cbv zeta.
  assert (Hstay : exists w', (Ok (E := mon_err) tt, w) = (Ok tt, w') /\ quiet k w' /\
            forall rid tgt, opened w' rid tgt = if decide (rid = ID rule /\ tgt = r_Target r)
                                                then opened w rid tgt else opened w rid tgt).
  { exists w. split_and!; [done|by apply (quiet_le (Datatypes.S k) k); [lia|]|]. intros. by case_decide. }
  destruct (Sustained _) eqn:Es; [|destruct (Breached _) eqn:Eb; [done|]].
  - rewrite <- Htg. apply open_answers; [|done]. destruct Hfit as (? & ? & Hf). split_and!; [done..|].
    intros r' ->%list_elem_of_singleton. rewrite Hval. apply Hf. by left.
  - rewrite Hav. destruct (Available r); [|done]. rewrite Htg.
    by apply (answers_weaken _ k k (Datatypes.S k) k _ _ (resolve_answers rule (r_Target r) k)); [lia..|].
Qed.

Lemma judge_all_answers rule l k :
  steady -> storable rule l -> NoDup (map r_Target (List.filter (interested rule) l)) ->
  answers (judge_all srv rule l now : M bool) (length l + k) k (existsb (interested rule) l)
    (fun rid tgt b => if decide (rid = ID rule)
                      then match List.find (wanted rule tgt) l with Some r => judged rule r b | None => b end
                      else b).
Proof.
  intros Hst Hfit. induction l as [|r l IH]; intros Hnd; cbn [judge_all].
  { intros w Hq. exists w. split_and!; [done..|]. intros. by case_decide. }
  assert (Hl : storable rule l).
  { destruct Hfit as (? & ? & Hf). split_and!; [done..|]. intros x Hx. apply Hf. by right. }
  assert (Hr : storable rule [r]).
  { destruct Hfit as (? & ? & Hf). split_and!; [done..|]. intros x ->%list_elem_of_singleton. apply Hf. by left. }
  cbn [length existsb List.find]. unfold wanted at 1.
  cbn [List.filter] in Hnd. destruct (interested rule r) eqn:Ei; cbn [andb orb].
  2: { eapply answers_weaken; [by apply IH|lia|done]. }
  cbn [map] in Hnd. apply list.NoDup_cons in Hnd as [Hni Hnd].
  eapply answers_bind; [by apply (judge_answers rule r (length l + k))| |].
  - eapply answers_bind; [by apply IH|apply answers_ret|]. intros. reflexivity.
  - intros rid tgt b. cbn beta. destruct (decide (rid = ID rule)) as [->|Hn].
    2: { rewrite decide_False by naive_solver. done. }
    destruct (decide (tgt = r_Target r)) as [->|Hnt].
    + rewrite String.eqb_refl. rewrite decide_True by done.
      destruct (List.find (wanted rule (r_Target r)) l) as [x|] eqn:E; [|done].
      exfalso. apply Hni. apply List.find_some in E as [Hin [Hx Hxt]%andb_true_iff].
      apply String.eqb_eq in Hxt. rewrite <- Hxt. apply list_elem_of_fmap. exists x. split; [done|].
      apply list_elem_of_In, List.filter_In. auto.
    + rewrite decide_False by naive_solver. apply not_eq_sym, String.eqb_neq in Hnt. by rewrite Hnt.
Qed.

Lemma applyRule_answers rule l k :
  steady -> storable rule l -> Enabled rule = true ->
  NoDup (map r_Target (List.filter (interested rule) l)) ->
  answers (applyRule srv rule l now : M unit) (length l + k) k tt
    (fun rid tgt b => if decide (rid = ID rule) then verdict answer has_history rule l now tgt b else b).
Proof.
  intros Hst Hfit Hen Hnd. unfold applyRule.
  eapply answers_bind with (f2 := fun rid tgt b =>
    if negb (existsb (interested rule) l) && negb (Target rule =? "")%string
    then at_place (ID rule) (Target rule) false rid tgt b else b); [by apply judge_all_answers| |].
  - destruct (_ && _); [apply resolve_answers|apply answers_ret].
  - intros rid tgt b. cbn beta. unfold verdict, at_place. rewrite Hen. cbn [negb].
    fold (wanted rule tgt). destruct (decide (rid = ID rule)) as [->|Hn].
    2: { destruct (_ && _); [|done]. rewrite decide_False; [done|naive_solver]. }
    destruct (List.find (wanted rule tgt) l) as [r|] eqn:E.
    + apply List.find_some in E as [Hin [Hx _]%andb_true_iff].
      assert (He : existsb (interested rule) l = true) by (apply existsb_exists; eauto).
      rewrite He. done.
    + destruct (negb (existsb (interested rule) l) && negb (Target rule =? "")%string); cbn [andb]; [|done].
      destruct (tgt =? Target rule)%string eqn:E2.
      * apply String.eqb_eq in E2 as ->. by rewrite decide_True.
      * apply String.eqb_neq in E2. rewrite decide_False; [done|naive_solver].
Qed.

Lemma apply_rules_answers rs l k :
  steady -> (forall rule, rule ∈ rs -> storable rule l) ->
  (forall rule, rule ∈ rs -> NoDup (map r_Target (List.filter (interested rule) l))) ->
  NoDup (map ID rs) ->
  answers (apply_rules srv rs l now : M unit) (length rs * length l + k) k tt
    (fun rid tgt b => match List.find (fun rule => ID rule =? rid)%string rs with
                      | Some rule => verdict answer has_history rule l now tgt b
                      | None => b
                      end).
Proof.
  intros Hst. induction rs as [|rule rs IH]; intros Hfit Hnd Hids; cbn [apply_rules].
  { apply answers_ret. }
  cbn [map] in Hids. apply list.NoDup_cons in Hids as [Hni Hids].
  eapply answers_bind with (k2 := (length rs * length l + k)%nat) (f1 := fun rid tgt b =>
    if decide (rid = ID rule) then verdict answer has_history rule l now tgt b else b).
  - destruct (Enabled rule) eqn:Ee.
    + eapply answers_weaken; [apply (applyRule_answers rule l (length rs * length l + k)); auto|simpl; lia|done].
      * apply Hfit. by left.
      * apply Hnd. by left.
    + intros w Hq. assert (Hq0 : quiet (length rs * length l + k) w)
        by (eapply quiet_le; [|exact Hq]; simpl; lia).
      destruct (resolve_answers rule (Target rule) _ w Hq0) as (w' & Hw & Hq' & Ho). exists w'. split_and!; [done..|]. intros rid tgt. rewrite Ho.
      unfold at_place, verdict. rewrite Ee. cbn [negb].
      destruct (decide (rid = ID rule)) as [->|Hn]; [|by rewrite decide_False by naive_solver].
      destruct (tgt =? Target rule)%string eqn:E.
      * apply String.eqb_eq in E as ->. by rewrite decide_True.
      * apply String.eqb_neq in E. by rewrite decide_False by naive_solver.
  - apply IH; [..|done]; intros r Hr; [apply Hfit|apply Hnd]; by right.
  - intros rid tgt b. cbn [List.find]. cbn beta. destruct (decide (rid = ID rule)) as [->|Hn].
    + rewrite String.eqb_refl. destruct (List.find _ rs) as [x|] eqn:E; [|done].
      exfalso. apply Hni. apply List.find_some in E as [Hin Hx%String.eqb_eq]. rewrite <- Hx.
      apply list_elem_of_fmap. exists x. split; [done|by apply list_elem_of_In].
    + apply not_eq_sym, String.eqb_neq in Hn. by rewrite Hn.
Qed.
End refinement.

(** ** The round *)
Section round.
Context {S N : Type} `{Numeric} `{Collation} `{MetricSource S} `{Notifier N}.
Local Abbreviation world := (World S N).
Local Abbreviation M := (Store.M world mon_err).

(** A metric and a target are read once. *)
Definition read_once (readings : list Reading) : Prop :=
  NoDup (map (fun r => (r_Metric r, r_Target r)) readings).

Lemma read_once_targets rule l :
  read_once l -> NoDup (map r_Target (List.filter (interested rule) l)).
Proof.
  unfold read_once. induction l as [|r l IH]; intros Hnd; [constructor|].
  cbn [map] in Hnd. apply list.NoDup_cons in Hnd as [Hni Hnd]. cbn [List.filter].
  destruct (interested rule r) eqn:Ei; [|by apply IH]. cbn [map]. apply list.NoDup_cons.
  split; [|by apply IH]. intros (x & Hx & Hin)%list_elem_of_fmap. apply Hni.
  apply list_elem_of_In, List.filter_In in Hin as [Hin Hix]. apply list_elem_of_fmap. exists x.
  split; [|by apply list_elem_of_In]. unfold interested in *. bool_hyps. congruence.
Qed.

Lemma ListRules_quiet srv R (h : option S) k (w : world) :
  quiet R h k w -> exists rs, ListRules srv w = (Ok rs, w) /\ NoDup (map ID rs) /\
    forall rule, rule ∈ rs -> R !! ID rule = Some rule.
Proof.
  intros Hq. unfold ListRules, query. rewrite call_fine by apply Hq. rewrite (q_rules _ _ _ _ Hq).
  eexists. split; [done|].
  assert (Hid : forall id r, R !! id = Some r -> ID r = id).
  { rewrite <- (q_rules _ _ _ _ Hq). intros id r Hl. by apply (ok_ids _ (q_ok _ _ _ _ Hq)) in Hl as [? _]. }
  split.
  - rewrite sort_rules_perm. change (map ID) with (fmap (M := list) ID).
    eapply sublist_NoDup; cycle 1; [apply fmap_sublist, sublist_filter|].
    rewrite <- list_fmap_compose.
    enough (He : (ID ∘ snd) <$> map_to_list R = fst <$> map_to_list R).
    { rewrite He. apply NoDup_fst_map_to_list. }
    apply list_fmap_ext. intros i [id r] Hl. simpl. apply Hid, elem_of_map_to_list.
    by eapply list_elem_of_lookup_2.
  - intros rule. rewrite sort_rules_perm, list_elem_of_filter. intros [_ Hin].
    apply list_elem_of_fmap in Hin as ([id r] & -> & Hin%elem_of_map_to_list). simpl.
    by rewrite (Hid id r Hin).
Qed.

(** Reading the host leaves the alerts as they are. *)
Definition reads R (h : option S) k (w w' : world) : Prop :=
  quiet R h k w -> quiet R h k w' /\ alerts w' = alerts w.

Lemma reads_trans R (h : option S) k u v w : reads R h k u v -> reads R h k v w -> reads R h k u w.
Proof. intros H1' H2' Hq. destruct (H1' Hq) as [Hq1 <-]. by apply H2'. Qed.

Lemma reads_state R (h : option S) k srv service r st now :
  respects (reads R h k) (RecordServiceState srv service r st now : M _).
Proof.
  intros w Hq. pose proof (RecordServiceState_ok srv service r st now w (q_ok _ _ _ _ Hq)) as Hok.
  destruct Hq as [Hok0 Hf Hm Hr Hu]. revert Hok. unfold RecordServiceState. rewrite call_fine by done.
  cbv beta zeta. destruct (List.find _ _) as [c|]; [destruct (_ && _)|]; intros Hok; split; done || by split.
Qed.

Lemma takeReadings_quiet srv p now R (h : option S) k (w : world) :
  quiet R h k w -> exists rs w', takeReadings srv p now w = (Ok rs, w') /\ quiet R h k w' /\
    alerts w' = alerts w.
Proof.
  assert (Hs : forall l (w : world), quiet R h k w -> exists rs w',
    serviceReadings srv l now w = (Ok rs, w') /\ quiet R h k w' /\ alerts w' = alerts w).
  { clear w. induction l as [|v l IH]; intros w Hq; cbn [serviceReadings].
    { by exists [], w. }
    unfold bind, attempt, ret. cbv zeta.
    destruct (reads_state R h k srv (Key v) (v_Running v) (serviceStatus v) now w Hq) as [Hq1 Ha1].
    destruct (RecordServiceState _ _ _ _ _ w) as [res w1]. cbn [snd] in *.
    destruct (IH w1 Hq1) as (rs & w2 & -> & Hq2 & Ha2). rewrite <- Ha1, <- Ha2.
    destruct res as [[s b]|e]; [destruct (negb (Installed v))|]; by eexists _, w2. }
  intros Hq. unfold takeReadings. destruct (p_services p) as [l|]; [|by eexists _, w].
  destruct (Hs l w Hq) as (rs & w' & He & Hq' & Ha). unfold bind. rewrite He. by eexists _, w'.
Qed.

Lemma Once_answers srv p now R (h : option S) answer k (w : world) rs readings w1 :
  steady srv now h answer -> quiet R h k w ->
  ListRules srv w = (Ok rs, w) -> takeReadings srv p now w = (Ok readings, w1) ->
  read_once readings -> (length rs * length readings <= k)%nat ->
  (forall rule, rule ∈ rs -> is_Some (to_column 12 (Threshold rule))) ->
  (forall r, r ∈ readings -> is_Some (to_column 12 (Value r))) ->
  exists w', Once srv p now w = (Ok tt, w') /\ tables_ok w' /\ forall rid tgt,
    opened srv w' rid tgt =
    match List.find (fun rule => ID rule =? rid)%string rs with
    | Some rule => verdict answer (has_history h) rule readings now tgt (opened srv w rid tgt)
    | None => opened srv w rid tgt
    end.
Proof.
  intros Hst Hq Hl Ht Hro Hk Hth Hv.
  destruct (ListRules_quiet srv R h k w Hq) as (rs' & Hl' & Hids & Hrs).
  rewrite Hl in Hl'. injection Hl' as <-.
  destruct (takeReadings_quiet srv p now R h k w Hq) as (readings' & w1' & Ht' & Hq1 & Ha1).
  rewrite Ht in Ht'. injection Ht' as <- <-.
  destruct (apply_rules_answers srv now R h answer rs readings 0 Hst) with (w := w1)
    as (w' & Hw' & Hq' & Ho); [..|].
  - intros rule Hin. split_and!; [|by apply Hth|done]. exists rule. by apply Hrs.
  - intros rule _. by apply read_once_targets.
  - done.
  - eapply quiet_le; [|exact Hq1]. lia.
  - exists w'. split; [|split; [apply Hq'|]].
    + unfold Once. rewrite (attempt_answers _ _ _ _ _ Hl). unfold bind. by rewrite Ht.
    + intros rid tgt. rewrite Ho. unfold opened. by rewrite Ha1.
Qed.
End round.

(** What a round is to make of an alert, where the monitor's comments and its code say the same:
    closed for the target of a rule that is off, decided by the reading of its target, and closed
    when the one target a rule names is no longer reported. Other places, the alerts that a rule
    on every target has for one that is gone or that it had when it was switched off, are left
    out: they stay as they are ([Rounds.disabled_rule_leaves_its_alert_open]). *)
Definition due (answer : Rule -> option Z) (history : bool) (rule : Rule) (readings : list Reading)
    (now : Z) (tgt : string) (before : bool) : option bool :=
  if negb (Enabled rule) then (if (tgt =? Target rule)%string then Some false else None)
  else
    match List.find (fun r => interested rule r && (r_Target r =? tgt)%string) readings with
    | Some r => Some (decided (Evaluate rule (asked answer history rule r) now) (Available r) before)
    | None => if (tgt =? Target rule)%string && negb (Target rule =? "")%string then Some false else None
    end.

Lemma due_verdict answer history rule readings now tgt before b :
  due answer history rule readings now tgt before = Some b -> verdict answer history rule readings now tgt before = b.
Proof.
  unfold due, verdict. destruct (negb (Enabled rule)); [by destruct (tgt =? Target rule)%string; [intros [= <-]|]|].
  destruct (List.find _ readings) as [r|] eqn:E; [by intros [= <-]|].
  destruct (String.eqb_spec tgt (Target rule)) as [->|]; [|done].
  destruct (String.eqb_spec (Target rule) "") as [|Hne]; [done|]. cbn [negb andb]. intros [= <-].
  destruct (existsb (interested rule) readings) eqn:Ei; [|done]. exfalso.
  apply existsb_exists in Ei as (r & Hin & Hi). pose proof (List.find_none _ _ E r Hin) as Hf. cbn beta in Hf.
  rewrite Hi in Hf. unfold interested in Hi. apply andb_true_iff in Hi as [_ Hi].
  apply orb_true_iff in Hi as [Hi|Hi]; apply String.eqb_eq in Hi; [done|]. by rewrite Hi, String.eqb_refl in Hf.
Qed.

(** C10: a round of the monitor implements its specification. On tables in order, when no
    statement fails and the history answers steadily, [Once] returns, keeps the tables in
    order, and opens and resolves what is due: a rule's alert for a target the round has a reading
    of is open afterwards if the condition is sustained, is as it was if it is breached but not
    yet sustained or the reading is not available, and is closed if the condition has cleared;
    the alert for the target a rule names is closed when the rule is off or the target is not
    reported any more; and alerts of other rules are untouched. *)
Theorem round_meets_the_verdicts {S N} `{Numeric} `{Collation} `{MetricSource S} `{Notifier N}
  srv p now answer (w w1 : World S N) rs readings
  (Hok : tables_ok w) (Hf : faults w = []) (Hst : steady srv now (metrics w) answer)
  (Hl : ListRules srv w = (Ok rs, w)) (Ht : takeReadings srv p now w = (Ok readings, w1))
  (Hro : read_once readings) (Hk : (length rs * length readings <= length (uuids w))%nat)
  (Hth : forall rule, rule ∈ rs -> is_Some (to_column 12 (Threshold rule)))
  (Hv : forall r, r ∈ readings -> is_Some (to_column 12 (Value r))) :
  exists w', Once srv p now w = (Ok tt, w') /\ tables_ok w' /\
    (forall rule tgt b, rule ∈ rs ->
       due answer (has_history (metrics w)) rule readings now tgt (opened srv w (ID rule) tgt) = Some b ->
       opened srv w' (ID rule) tgt = b) /\
    (forall rid tgt, (forall rule, rule ∈ rs -> ID rule <> rid) ->
       opened srv w' rid tgt = opened srv w rid tgt).
Proof.
  assert (Hq : quiet (rules w) (metrics w) (length (uuids w)) w) by by split.
  destruct (Once_answers srv p now _ _ answer _ w rs readings w1 Hst Hq Hl Ht Hro Hk Hth Hv)
    as (w' & Ho & Hok' & Hop).
  destruct (ListRules_quiet srv _ _ _ w Hq) as (rs' & Hl' & Hids & Hrs).
  rewrite Hl in Hl'. injection Hl' as <-.
  exists w'. split_and!; [done..| |].
  - intros rule tgt b Hin Hdue. apply due_verdict in Hdue as <-. rewrite Hop. destruct (List.find _ rs) as [x|] eqn:E.
    + apply List.find_some in E as [Hx He%String.eqb_eq]. apply list_elem_of_In in Hx.
      apply Hrs in Hx, Hin. rewrite He in Hx. congruence.
    + apply list_elem_of_In in Hin. pose proof (List.find_none _ _ E rule Hin) as Hn.
      cbv beta in Hn. by rewrite String.eqb_refl in Hn.
  - intros rid tgt Hn. rewrite Hop. destruct (List.find _ rs) as [x|] eqn:E; [|done].
    apply List.find_some in E as [Hx He%String.eqb_eq]. apply list_elem_of_In in Hx.
    by destruct (Hn x Hx).
Qed.

(** The stored history is steady as long as the database answers. *)
Definition stored_answer `{Numeric} (srv : string) (now : Z) (h : Metrics) (rule : Rule) : option Z :=
  match fst (breached_since srv (Metric rule) (Threshold rule)
               (negb (Comparison rule =? ComparisonBelow)%string) now h) with
  | Ok o => o
  | Err _ => None
  end.

Lemma Metrics_steady `{Numeric} srv now (h : Metrics) :
  Metrics.faults h = [] -> steady srv now (Some h) (stored_answer srv now h).
Proof.
  intros Hf s rule [= <-]. unfold stored_answer, breached_since, Metrics_source, BreachedSince.
  destruct (breachColumns (Metric rule)); [|done]. unfold query. by rewrite call_fine.
Qed.

(** ** An alert without its rule *)
Section orphans.
Context {S N : Type} `{Numeric} `{Collation} `{MetricSource S} `{Notifier N}.
Local Abbreviation world := (World S N).

(** Open, and of no rule. *)
Definition orphaned (id : string) (w : world) : Prop :=
  exists a, alerts w !! id = Some a /\ is_open a = true /\ RuleID a = None.

Lemma orphaned_alter id (w : world) i a b :
  alerts w !! i = Some a -> (is_open a = true -> RuleID a = None -> is_open b = true /\ RuleID b = None) ->
  orphaned id w -> orphaned id (set_alerts (<[i := b]> (alerts w)) w).
Proof.
  intros Ha Hb (c & Hc & Ho & Hr). unfold orphaned. cbn.
  destruct (decide (i = id)) as [->|Hn].
  - rewrite lookup_insert_eq. simplify_eq. destruct (Hb Ho Hr). eauto.
  - rewrite lookup_insert_ne by done. eauto.
Qed.

Lemma orphaned_update id (w : world) p f :
  (forall a, p a = true -> RuleID a <> None) ->
  orphaned id w -> orphaned id (set_alerts (update_where p f (alerts w)) w).
Proof.
  intros Hp (c & Hc & Ho & Hr). exists c. split; [|done]. cbn. unfold update_where.
  rewrite lookup_fmap, Hc. cbn. destruct (p c) eqn:E; [|done]. by apply Hp in E.
Qed.

Lemma of_rule_some rid a : of_rule rid a = true -> RuleID a <> None.
Proof. unfold of_rule. intros Hb%bool_decide_eq_true. by rewrite Hb. Qed.

Lemma orphaned_call {A} id (f : world -> result mon_err A * world) w :
  (forall w, orphaned id w -> tables_ok w -> orphaned id (snd (f w))) ->
  orphaned id w -> tables_ok w -> orphaned id (snd (Store.call ErrBackend f w)).
Proof.
  intros Hf Ho Hok. unfold Store.call.
  destruct (faults_of w) as [|[] fs]; simpl; try done; try (by apply Hf);
    apply Hf; try done; by apply (tables_ok_rest w).
Qed.

(** An open alert whose rule is gone stays open whatever the monitor and the service do: no
    statement resolves it and no pruning removes it. *)
Lemma orphan_stays id (w : world) l w' :
  tables_ok w -> orphaned id w -> mon_step w l w' -> orphaned id w'.
Proof.
  intros Hok Ho Hs. destruct Hs; try done; revert Ho Hok; apply orphaned_call; clear; intros w Ho Hok.
  - destruct (uuids w); [done|]. destruct (checked r); [|done]. by destruct (map_find _ _).
  - destruct (rules w !! _); [|done]. destruct (checked _); [|done]. by destruct (map_find _ _).
  - done.
  - done.
  - apply orphaned_update; [|done]. intros a [Ha _]%andb_true_iff. by eapply of_rule_some.
  - destruct (rules w !! _); [|done]. apply (orphaned_update id w (of_rule id0) orphan); [|done].
    apply of_rule_some.
  - destruct (to_nullable 12 (p_Threshold p)); [|done]. destruct (to_nullable 12 (p_Value p)); [|done].
    destruct (rule_exists w _); [|done]. destruct (map_find _ _) as [[i a]|] eqn:E.
    + apply map_find_some in E as [Hl _]. by apply (orphaned_alter id w i a).
    + destruct (uuids w) as [|i ids] eqn:Eu; [done|]. destruct Ho as (c & Hc & Hrest). exists c.
      split; [|done]. cbn. rewrite lookup_insert_ne; [done|]. intros ->.
      destruct (proj2 (ok_uuids _ Hok) id) as [_ Hn]; [rewrite Eu; by left|]. congruence.
  - destruct (map_find _ _) as [[i a]|] eqn:E; [|done]. apply map_find_some in E as [Hl Hsame].
    apply (orphaned_alter id w i a); [done| |done].
    apply same_alert_true in Hsame as (_ & _ & _ & k & _ & Hk). by rewrite Hk.
  - destruct (alerts w !! id0) as [a|] eqn:Hl; [|done]. by apply (orphaned_alter id w id0 a).
  - destruct Ho as (x & Hc & Hopen & Hr). exists x. split; [|done]. cbn.
    apply map_lookup_filter_Some. split; [done|]. cbn. unfold prunable. by rewrite Hopen.
  - cbv zeta. by destruct (List.find _ _); [destruct (_ && _)|].
  - done.
Qed.
End orphans.

(** No reading is ever taken of the network metrics that a rule may name. *)
Lemma network_is_never_read {N} `{Numeric} srv p now (w w' : World Metrics N) rs r :
  takeReadings srv p now w = (Ok rs, w') -> r ∈ rs ->
  r_Metric r <> MetricNetworkRx /\ r_Metric r <> MetricNetworkTx.
Proof.
  intros Ht Hin.
  assert (Hhost : forall r, r ∈ host_readings p ->
    r_Metric r ∈ [MetricCPU; MetricMemory; MetricSwap; MetricLoad; MetricDisk]).
  { intros x. unfold host_readings. rewrite !elem_of_app. destruct (p_cpu p), (p_memory p) as [[[? z] ?]|],
      (p_load p), (p_disk p) as [fs|]; try destruct (0 <? z); intros Hx; try (set_solver).
    all: destruct Hx as [Hx|[Hx|[Hx|Hx]]]; try set_solver;
      apply list_elem_of_fmap in Hx as ([[? ?] ?] & -> & _); set_solver. }
  assert (Hser : forall l (v v' : World Metrics N) rs, serviceReadings srv l now v = (Ok rs, v') ->
    forall x, x ∈ rs -> r_Metric x = MetricService).
  { intros l v v' rs' Hs x Hx. destruct (serviceReadings_spec srv l now v) as (rs2 & w2 & He & _ & Hr).
    rewrite He in Hs. injection Hs as -> ->. by apply Hr. }
  assert (Hall : r_Metric r ∈ [MetricCPU; MetricMemory; MetricSwap; MetricLoad; MetricDisk; MetricService]).
  { unfold takeReadings in Ht. destruct (p_services p) as [l|].
    - unfold bind in Ht. destruct (serviceReadings srv l now w) as [[rs'|] v'] eqn:E; [|done].
      assert (rs = (host_readings p ++ rs')%list) as -> by (unfold ret in Ht; congruence).
      apply elem_of_app in Hin as [Hin|Hin]; [apply Hhost in Hin; set_solver|].
      apply (Hser _ _ _ _ E) in Hin. rewrite Hin. set_solver.
    - assert (rs = host_readings p) as -> by (unfold ret in Ht; congruence).
      apply Hhost in Hin. set_solver. }
  split; intros He; rewrite He in Hall; repeat (apply elem_of_cons in Hall as [Hall|Hall]; [done|]);
    by apply not_elem_of_nil in Hall.
Qed.

(** ** Concrete rounds *)
Module Rounds.
#[local] Existing Instance toy_numeric.
#[local] Instance insertion_order : Collation := { sort_rules l := l; sort_rules_perm l := reflexivity l }.

#[local] Abbreviation world := (World Metrics unit).

Definition empty (us : list string) (hist : option Metrics) : world := {|
  rules := ∅; alerts := ∅; states := []; metrics := hist; notifier := tt; clock := 0;
  uuids := us; faults := [] |}.

Lemma empty_ok us hist : NoDup us -> tables_ok (empty us hist).
Proof. intros Hnd. split; cbn; try done. intros srv service. unfold current_count. simpl. lia. Qed.

Definition rule (metric tgt : string) (threshold seconds : Z) (enabled : bool) : Rule := {|
  ID := ""; ServerID := "s"; Name := "watch"; Metric := metric; Target := tgt;
  Comparison := ComparisonAbove; Threshold := f_int threshold; ForSeconds := seconds;
  Severity := SeverityWarning; Enabled := enabled |}.

Definition quiet_host : Probes := {|
  p_cpu := Some (f_int 5); p_memory := Some (f_int 40, 0, f_zero); p_load := Some (f_make 1 (-2));
  p_disk := Some []; p_services := None |}.

Definition load_is (v : float) : Probes := {|
  p_cpu := Some (f_int 5); p_memory := Some (f_int 40, 0, f_zero); p_load := Some v;
  p_disk := Some []; p_services := None |}.

Definition disks (l : list (string * float * Z)) (c : float) : Probes := {|
  p_cpu := Some c; p_memory := Some (f_int 40, 0, f_zero); p_load := Some f_zero;
  p_disk := Some l; p_services := None |}.

(** A rule on every disk, one on the CPU with a duration, and the CPU's recorded history. *)
Definition t0 : Z := Samples.noon + 4 * Minute.
Definition ids : list string :=
  ["disk-rule"; "cpu-rule"; "alert-1"; "alert-2"; "alert-3"; "alert-4"; "alert-5"; "alert-6";
   "alert-7"; "alert-8"; "alert-9"; "alert-10"; "alert-11"; "alert-12"]%string.
Definition watched : world :=
  snd (CreateRule (rule MetricCPU "" 90 60 true)
         (snd (CreateRule (rule MetricDisk "" 80 0 true) (empty ids (Some Samples.afternoon))))).

Lemma watched_ok : tables_ok watched.
Proof. apply CreateRule_ok, CreateRule_ok, empty_ok. repeat (constructor; [set_solver|]). constructor. Qed.

Definition full_var : Probes := disks [("/var", f_int 95, 0)] (f_int 99).
Definition full_home : Probes := disks [("/var", f_int 20, 0); ("/home", f_int 85, 0)] (f_int 10).
Definition after_one : world := snd (Once "s" full_var t0 watched).
Definition after_two : world := snd (Once "s" full_home (t0 + Minute) after_one).

(** The first round opens an alert for [/var] and one for the CPU; the second clears both and
    opens one for [/home]. *)
Example two_rounds :
  (opened "s" after_one "disk-rule" "/var", opened "s" after_one "cpu-rule" "") = (true, true) /\
  (opened "s" after_two "disk-rule" "/var", opened "s" after_two "disk-rule" "/home",
   opened "s" after_two "cpu-rule" "") = (false, true, false).
Proof. vm_compute. split; reflexivity. Qed.

Lemma after_one_var : opened "s" after_one "disk-rule" "/var" = true.
Proof. vm_compute. reflexivity. Qed.
Lemma after_one_cpu : opened "s" after_one "cpu-rule" "" = true.
Proof. vm_compute. reflexivity. Qed.

Lemma all_fit {A} (f : A -> float) l :
  forallb (fun x => bool_decide (is_Some (to_column 12 (f x)))) l = true ->
  forall x, x ∈ l -> is_Some (to_column 12 (f x)).
Proof. intros Hl x Hx. by apply (proj1 (forallb_elem _ l) Hl), bool_decide_eq_true in Hx. Qed.

Lemma round_meets_the_verdicts_witness :
  exists w', Once "s" full_var t0 watched = (Ok tt, w') /\ tables_ok w' /\
    opened "s" w' "disk-rule" "/var" = true /\ opened "s" w' "cpu-rule" "" = true.
Proof.
  pose (rs := match fst (ListRules "s" watched) with Ok l => l | Err _ => [] end).
  pose (readings := match fst (takeReadings "s" full_var t0 watched) with Ok l => l | Err _ => [] end).
  assert (Hl : ListRules "s" watched = (Ok rs, watched)) by (vm_compute; reflexivity).
  assert (Ht : takeReadings "s" full_var t0 watched = (Ok readings, watched)) by (vm_compute; reflexivity).
  assert (Hro : read_once readings) by (apply (bool_decide_unpack _); vm_compute; exact I).
  assert (Hth : forall rule, rule ∈ rs -> is_Some (to_column 12 (Threshold rule)))
    by (apply (all_fit Threshold); vm_compute; reflexivity).
  assert (Hv : forall r, r ∈ readings -> is_Some (to_column 12 (Value r)))
    by (apply (all_fit Value); vm_compute; reflexivity).
  destruct (round_meets_the_verdicts "s" full_var t0 (stored_answer "s" t0 Samples.afternoon)
              watched watched rs readings watched_ok eq_refl
              (Metrics_steady "s" t0 Samples.afternoon eq_refl) Hl Ht Hro ltac:(vm_compute; lia) Hth Hv)
    as (w' & Hw & Hok & Ho & _).
  assert (E : after_one = w') by exact (f_equal snd Hw). subst w'.
  exists after_one. split; [exact Hw|]. split; [exact Hok|]. exact (conj after_one_var after_one_cpu).
Defined.

Lemma alert_has_its_reason_witness :
  exists a, alerts after_one !! "alert-1"%string = Some a /\
    exists rs readings w1 w2 r, ListRules "s" watched = (Ok rs, w1) /\ takeReadings "s" full_var t0 w1 = (Ok readings, w2) /\
      opened_by "s" t0 (rules watched) readings (metrics watched) (map stretch (states after_one)) a r.
Proof.
  destruct (alerts after_one !! "alert-1"%string) as [a|] eqn:Ea; [|vm_compute in Ea; discriminate].
  exists a. split; [reflexivity|].
  assert (Hold : alerts watched !! "alert-1"%string = None) by (vm_compute; reflexivity).
  exact (alert_has_its_reason "s" full_var t0 watched after_one _ "alert-1" a
           (surjective_pairing _) Hold Ea).
Defined.

Lemma alert_tables_stay_in_order_witness :
  tables_ok (empty ids (Some Samples.afternoon)) /\ tables_ok watched.
Proof.
  assert (Hok : tables_ok (empty ids (Some Samples.afternoon)))
    by (apply empty_ok, (bool_decide_unpack _); vm_compute; exact I).
  split; [exact Hok|].
  exact (proj1 (alert_tables_stay_in_order (empty ids (Some Samples.afternoon)) watched _ Hok
    (run_cons _ _ _ _ _ _ (step_create (rule MetricDisk "" 80 0 true) (empty ids (Some Samples.afternoon)))
       (run_cons _ _ _ _ _ _ (step_create (rule MetricCPU "" 90 60 true) _) (run_nil _ watched))))).
Defined.

(** A request for a rule on a service. *)
Definition nginx_down : RuleRequest := {|
  q_Name := " nginx "; q_Metric := MetricService; q_Target := "nginx"; q_Comparison := ComparisonBelow;
  q_Threshold := f_int 1; q_ForSeconds := Some 0; q_Severity := SeverityCritical; q_Enabled := Some true |}.

Lemma built_rules_are_valid_witness :
  exists r, build "s" nginx_down (rule "" "" 0 0 false) = Ok r /\ Name r = "nginx"%string /\ rule_ok r.
Proof.
  destruct (build "s" nginx_down (rule "" "" 0 0 false)) as [r|e] eqn:E; [|vm_compute in E; discriminate].
  exists r. split; [reflexivity|].
  assert (Hn : Name r = "nginx"%string /\ to_column 12 (Threshold r) = Some 100)
    by (vm_compute in E; injection E as <-; vm_compute; split; reflexivity).
  split; [exact (proj1 Hn)|].
  exact (proj1 (proj2 (built_rules_are_valid "s" nginx_down _ r 100 E (proj2 Hn)))).
Defined.

(** ** What is not as the comments say *)

(** The reading of the load is per core and the stored one is not. On a machine of eight cores
    whose load has stood at 3 for four minutes, 0.375 per core, the first reading of 2 per core
    opens the alert of a rule that asks for a minute above 1. *)
Definition busy : Metrics := {|
  Metrics.rows := map (fun k => Samples.row (Samples.noon + k * Minute) 0 300 0) [0; 1; 2; 3];
  Metrics.rollups := ∅; Metrics.status := ∅; Metrics.faults := [] |}.
Definition load_watched : world :=
  snd (CreateRule (rule MetricLoad "" 1 60 true) (empty ids (Some busy))).

Lemma a_load_blip_opens_an_alert :
  let blip := snd (Once "s" (load_is (f_int 2)) t0 load_watched) in
  opened "s" blip "disk-rule" "" = true.
Proof. vm_compute. reflexivity. Qed.

(** Switching off a rule on every disk, and a disk that goes away under one, leave the alerts
    open that it raised for a mount point. *)
Definition switched_off : world :=
  snd (UpdateRule "disk-rule" (rule MetricDisk "" 80 0 false) after_one).

Lemma disabled_rule_leaves_its_alert_open :
  opened "s" (snd (Once "s" full_home (t0 + Minute) switched_off)) "disk-rule" "/var" = true.
Proof. vm_compute. reflexivity. Qed.

Lemma unmounted_disk_leaves_its_alert_open :
  opened "s" (snd (Once "s" quiet_host (t0 + Minute) after_one)) "disk-rule" "/var" = true.
Proof. vm_compute. reflexivity. Qed.

(** A round between the two statements of [DeleteRule] opens the alert again, and the second
    statement leaves it open without its rule. *)
Definition raced : world :=
  snd (delete_rule_row "disk-rule"
         (snd (Once "s" full_var (t0 + Minute) (snd (resolve_alerts_of "disk-rule" after_one))))).

Lemma deleting_a_rule_can_orphan_its_alert : exists id, orphaned id raced.
Proof.
  exists "alert-3"%string. unfold orphaned.
  destruct (alerts raced !! "alert-3"%string) as [a|] eqn:E; [|vm_compute in E; discriminate].
  exists a. split; [done|]. vm_compute in E. injection E as <-. done.
Qed.
End Rounds.
