(* ===== verification/Notifications.v ===== *)
(** * Notifications ([api/internal/notifications/emit.go], [service.go], [repository.go],
    [dispatcher.go], [shared/validate/notifications.go])

    What the rest of the panel raises becomes an event, an event becomes a delivery for every
    channel that wants it, and the dispatcher works the deliveries off. One definition per
    statement and per handler; every statement may fail before or after it took effect, and
    what the senders answer is a script. *)

From stdpp Require Import gmap list sorting.
From S2P Require Import Prelude Store GoStr GoTime.

#[local] Open Scope Z_scope.
#[local] Open Scope store_scope.

(** ** The vocabulary *)
Inductive ntf_err := ErrInvalidSeverity | ErrInvalidEventKind | ErrNotFound | ErrNameTaken
  | ErrDuplicateEvent | ErrBackend.

#[global] Instance ntf_err_eq_dec : EqDecision ntf_err.
Proof. solve_decision. Defined.

Definition NotifyCritical := "critical"%string.
Definition NotifyHigh := "high"%string.
Definition NotifyWarning := "warning"%string.
Definition NotifyInfo := "info"%string.
Definition NotifySeverities : list string := [NotifyCritical; NotifyHigh; NotifyWarning; NotifyInfo].

Definition NotifySeverity (s : string) : result ntf_err unit :=
  guard (negb (existsb (String.eqb s) NotifySeverities)) ErrInvalidSeverity.

(** The position in a list, worst first; an unknown severity is worse than all. *)
Fixpoint rank_in (s : string) (i : Z) (l : list string) : Z :=
  match l with [] => -1 | k :: l => if (s =? k)%string then i else rank_in s (i + 1) l end.
Definition NotifyRank (s : string) : Z := rank_in s 0 NotifySeverities.
Definition NotifyAtLeast (severity floor : string) : bool := NotifyRank severity <=? NotifyRank floor.

Definition EventAlertOpened := "alert.opened"%string.
Definition EventAlertResolved := "alert.resolved"%string.
Definition EventBackupFailed := "backup.failed"%string.
Definition EventSSLExpiring := "ssl.expiring"%string.
Definition EventSecurityFinding := "security.finding"%string.

Definition MaxDedupeKeyLength : nat := 200.
Definition key_char (a : ascii) : bool :=
  is_lower a || is_upper a || is_digit a || contains_char a ".-_:/".

Definition DedupeKey (key : string) : result ntf_err unit :=
  guard (key =? "")%string ErrInvalidEventKind ;?
  guard (MaxDedupeKeyLength <? String.length key)%nat ErrInvalidEventKind ;?
  guard (negb (str_forall key_char key)) ErrInvalidEventKind.

(** ** State *)
Record Channel := {
  c_ServerID : string; c_Name : string; Enabled : bool; MinSeverity : string; Kinds : list string;
  LastSuccessAt : option Z; LastFailureAt : option Z; c_LastError : option string;
  FailureStreak : Z; c_CreatedAt : Z;
}.

Definition Healthy (c : Channel) : bool :=
  match LastSuccessAt c with Some _ => FailureStreak c =? 0 | None => false end.

Record Event := {
  e_ServerID : string; Source : string; Kind : string; Severity : string; Title : string;
  Body : string; Link : string; Key : string; e_CreatedAt : Z;
}.

Inductive Status := Pending | Sent | Failed.

#[global] Instance Status_eq_dec : EqDecision Status.
Proof. solve_decision. Defined.

Record Delivery := {
  EventID : string; ChannelID : string; d_Status : Status; Attempts : Z; NextAttemptAt : Z;
  d_LastError : option string; SentAt : option Z;
}.

(** What a sender says: delivered, or refused for a reason, for good or not. The script of the
    world says how long each attempt took, too. *)
Inductive SendResult := Delivered | Refused (permanent : bool) (reason : string).

(** A message that left the panel: through which channel, for which event. *)
Record Wire := { w_Channel : string; w_Event : string }.

Record World := {
  channels : gmap string Channel;
  events : gmap string Event;
  deliveries : gmap string Delivery;
  wire : list Wire;
  senders : list (SendResult * Z);
  clock : Z;
  uuids : list string;
  faults : list fault;
}.

Definition set_channels m (w : World) : World := {|
  channels := m; events := events w; deliveries := deliveries w; wire := wire w;
  senders := senders w; clock := clock w; uuids := uuids w; faults := faults w |}.
Definition set_events m (w : World) : World := {|
  channels := channels w; events := m; deliveries := deliveries w; wire := wire w;
  senders := senders w; clock := clock w; uuids := uuids w; faults := faults w |}.
Definition set_deliveries m (w : World) : World := {|
  channels := channels w; events := events w; deliveries := m; wire := wire w;
  senders := senders w; clock := clock w; uuids := uuids w; faults := faults w |}.
Definition set_wire l s t (w : World) : World := {|
  channels := channels w; events := events w; deliveries := deliveries w; wire := l;
  senders := s; clock := t; uuids := uuids w; faults := faults w |}.
Definition set_chance u f (w : World) : World := {|
  channels := channels w; events := events w; deliveries := deliveries w; wire := wire w;
  senders := senders w; clock := clock w; uuids := u; faults := f |}.

#[global] Instance World_faulty : Faulty World := {
  faults_of := faults; with_faults fs w := set_chance (uuids w) fs w }.

Local Abbreviation M := (Store.M World ntf_err).
Local Abbreviation call := (Store.call ErrBackend).
Local Abbreviation query := (Store.query ErrBackend).

(** ** Channels *)
Record ChannelParams := {
  n_Name : string; n_MinSeverity : string; n_Kinds : list string; n_Enabled : bool }.

Definition same_name (srv name : string) (c : Channel) : bool :=
  (c_ServerID c =? srv)%string && (to_lower (c_Name c) =? to_lower name)%string.

Definition CreateChannel (srv : string) (p : ChannelParams) : M (string * Channel) :=
  call (fun w =>
    match map_find (same_name srv (n_Name p)) (channels w), uuids w with
    | Some _, _ => (Err ErrNameTaken, w)
    | None, [] => (Err ErrBackend, w)
    | None, id :: ids =>
        let c := {| c_ServerID := srv; c_Name := n_Name p; Enabled := n_Enabled p;
                    MinSeverity := n_MinSeverity p; Kinds := n_Kinds p; LastSuccessAt := None;
                    LastFailureAt := None; c_LastError := None; FailureStreak := 0;
                    c_CreatedAt := clock w |} in
        (Ok (id, c), set_chance ids (faults w) (set_channels (<[id := c]> (channels w)) w))
    end).

(** Oldest first. *)
Definition older (x y : string * Channel) : Prop := c_CreatedAt (snd x) <= c_CreatedAt (snd y).
#[global] Instance older_dec : RelDecision older :=
  fun x y => decide (c_CreatedAt (snd x) <= c_CreatedAt (snd y)).

Definition ListChannels (srv : string) : M (list (string * Channel)) :=
  query (fun w =>
    Ok (merge_sort older (filter (fun x => c_ServerID (snd x) = srv) (map_to_list (channels w))))).

(** The deliveries of a deleted channel go with it. *)
Definition DeleteChannel (id : string) : M unit :=
  call (fun w =>
    match channels w !! id with
    | None => (Err ErrNotFound, w)
    | Some _ => (Ok tt, set_deliveries (filter (fun x => ChannelID (snd x) <> id) (deliveries w))
                          (set_channels (delete id (channels w)) w))
    end).

Definition nonempty (s : string) : option string := if (s =? "")%string then None else Some s.

Definition used (ok : bool) (detail : string) (now : Z) (c : Channel) : Channel := {|
  c_ServerID := c_ServerID c; c_Name := c_Name c; Enabled := Enabled c; MinSeverity := MinSeverity c;
  Kinds := Kinds c;
  LastSuccessAt := if ok then Some now else LastSuccessAt c;
  LastFailureAt := if ok then LastFailureAt c else Some now;
  c_LastError := if ok then None else nonempty detail;
  FailureStreak := if ok then 0 else FailureStreak c + 1;
  c_CreatedAt := c_CreatedAt c |}.

Definition RecordChannelResult (id : string) (ok : bool) (detail : string) (now : Z) : M unit :=
  call (fun w => (Ok tt, set_channels (alter (used ok detail now) id (channels w)) w)).

Definition ResetStreak (id : string) : M unit :=
  call (fun w => (Ok tt, set_channels (alter (fun c => {|
    c_ServerID := c_ServerID c; c_Name := c_Name c; Enabled := Enabled c; MinSeverity := MinSeverity c;
    Kinds := Kinds c; LastSuccessAt := LastSuccessAt c; LastFailureAt := LastFailureAt c;
    c_LastError := c_LastError c; FailureStreak := 0; c_CreatedAt := c_CreatedAt c |}) id (channels w)) w)).

(** ** Events and deliveries *)
Definition same_event (srv key : string) (e : Event) : bool :=
  (e_ServerID e =? srv)%string && (Key e =? key)%string.

(** INSERT ... ON CONFLICT DO NOTHING: no row is a duplicate. *)
Definition RecordEvent (e : Event) : M (string * Event) :=
  call (fun w =>
    match map_find (same_event (e_ServerID e) (Key e)) (events w), uuids w with
    | Some _, _ => (Err ErrDuplicateEvent, w)
    | None, [] => (Err ErrBackend, w)
    | None, id :: ids =>
        let e := {| e_ServerID := e_ServerID e; Source := Source e; Kind := Kind e;
                    Severity := Severity e; Title := Title e; Body := Body e; Link := Link e;
                    Key := Key e; e_CreatedAt := clock w |} in
        (Ok (id, e), set_chance ids (faults w) (set_events (<[id := e]> (events w)) w))
    end).

Definition same_delivery (event channel : string) (d : Delivery) : bool :=
  (EventID d =? event)%string && (ChannelID d =? channel)%string.

(** The unique index and both foreign keys. *)
Definition QueueDelivery (event channel : string) : M unit :=
  call (fun w =>
    match events w !! event, channels w !! channel, uuids w with
    | Some _, Some _, id :: ids =>
        match map_find (same_delivery event channel) (deliveries w) with
        | Some _ => (Ok tt, w)
        | None =>
            let d := {| EventID := event; ChannelID := channel; d_Status := Pending; Attempts := 0;
                        NextAttemptAt := clock w; d_LastError := None; SentAt := None |} in
            (Ok tt, set_chance ids (faults w) (set_deliveries (<[id := d]> (deliveries w)) w))
        end
    | _, _, _ => (Err ErrBackend, w)
    end).

(** Pending, due, and to an enabled channel. *)
Definition due (w : World) (now : Z) (d : Delivery) : bool :=
  bool_decide (d_Status d = Pending) && (NextAttemptAt d <=? now) &&
  match channels w !! ChannelID d with Some c => Enabled c | None => false end.

Definition attempted (d : Delivery) : Delivery := {|
  EventID := EventID d; ChannelID := ChannelID d; d_Status := d_Status d; Attempts := Attempts d + 1;
  NextAttemptAt := NextAttemptAt d; d_LastError := d_LastError d; SentAt := SentAt d |}.

Definition sooner (x y : string * Delivery) : Prop := NextAttemptAt (snd x) <= NextAttemptAt (snd y).
#[global] Instance sooner_dec : RelDecision sooner :=
  fun x y => decide (NextAttemptAt (snd x) <= NextAttemptAt (snd y)).

(** The rows the inner query picks: the first [limit], by when they are due. *)
Definition picked (w : World) (now : Z) (limit : nat) : list (string * Delivery) :=
  take limit (merge_sort sooner
                (filter (fun x => due w now (snd x) = true) (map_to_list (deliveries w)))).

Record Due := { i_ID : string; i_Delivery : Delivery; i_Event : Event; i_Channel : Channel }.

(** The joins of the outer query. *)
Definition joined (w : World) (x : string * Delivery) : option Due :=
  e ← events w !! EventID (snd x);
  c ← channels w !! ChannelID (snd x);
  Some {| i_ID := fst x; i_Delivery := attempted (snd x); i_Event := e; i_Channel := c |}.

Definition ClaimDue (now : Z) (limit : nat) : M (list Due) :=
  call (fun w =>
    let rows := picked w now limit in
    (Ok (omap (joined w) rows),
     set_deliveries (list_to_map (map (fun x => (fst x, attempted (snd x))) rows) ∪ deliveries w) w)).

Definition marked (st : Status) (err : option string) (sent : option Z) (next : Z) (d : Delivery) : Delivery := {|
  EventID := EventID d; ChannelID := ChannelID d; d_Status := st; Attempts := Attempts d;
  NextAttemptAt := next; d_LastError := err; SentAt := sent |}.

Definition MarkSent (id : string) (now : Z) : M unit :=
  call (fun w => (Ok tt, set_deliveries
    (alter (fun d => marked Sent (d_LastError d) (Some now) (NextAttemptAt d) d) id (deliveries w)) w)).

Definition Reschedule (id reason : string) (next : Z) : M unit :=
  call (fun w => (Ok tt, set_deliveries
    (alter (fun d => marked (d_Status d) (Some reason) (SentAt d) next d) id (deliveries w)) w)).

Definition MarkFailed (id reason : string) : M unit :=
  let reason := if (reason =? "")%string then "the notification could not be delivered"%string else reason in
  call (fun w => (Ok tt, set_deliveries
    (alter (fun d => marked Failed (Some reason) (SentAt d) (NextAttemptAt d) d) id (deliveries w)) w)).

(** The deliveries of a deleted event go with it. *)
Definition PruneEvents (cutoff : Z) : M Z :=
  call (fun w =>
    let kept := filter (fun x => cutoff <= e_CreatedAt (snd x)) (events w) in
    (Ok (Z.of_nat (size (events w) - size kept)),
     set_deliveries (filter (fun x => is_Some (kept !! EventID (snd x))) (deliveries w))
       (set_events kept w))).

(** ** Raising events *)
Definition wants (c : Channel) (e : Event) : bool :=
  Enabled c && NotifyAtLeast (Severity e) (MinSeverity c) &&
  match Kinds c with [] => true | ks => existsb (fun k => k =? Kind e)%string ks end.

(** The loop over the channels; a failed insert is only logged. *)
Fixpoint queue_all (id : string) (e : Event) (cs : list (string * Channel)) : M unit :=
  match cs with
  | [] => ret tt
  | (cid, c) :: cs =>
      if wants c e
      then let! _ := attempt (QueueDelivery id cid) in queue_all id e cs
      else queue_all id e cs
  end.

Definition with_server (srv : string) (e : Event) : Event := {|
  e_ServerID := srv; Source := Source e; Kind := Kind e; Severity := Severity e; Title := Title e;
  Body := Body e; Link := Link e; Key := Key e; e_CreatedAt := e_CreatedAt e |}.

Definition Emit (srv : string) (e : Event) : M unit :=
  let e := with_server srv e in
  match DedupeKey (Key e), NotifySeverity (Severity e) with
  | Ok _, Ok _ =>
      let! stored := attempt (RecordEvent e) in
      match stored with
      | Err _ => ret tt
      | Ok (id, e) =>
          let! listed := attempt (ListChannels srv) in
          match listed with
          | Err _ => ret tt
          | Ok cs => queue_all id e cs
          end
      end
  | _, _ => ret tt
  end.

(** [safeKey] on ASCII text, which identifiers and domain names are. *)
Definition safe_char (a : ascii) : ascii :=
  if is_lower a || is_digit a || contains_char a ".-_/" then a else "-"%char.

Definition safeKey (value : string) : string :=
  let trimmed := trim_set "-" (str_map safe_char (to_lower value)) in
  if (trimmed =? "")%string then "unnamed"%string
  else if (150 <? String.length trimmed)%nat then trim_set "-" (String.substring 0 150 trimmed)
  else trimmed.

Definition plural (n : Z) : string := if n =? 1 then "" else "s".

Definition formatDuration (d : Z) : string :=
  let some n unit := (itoa n ++ unit ++ plural n)%string in
  if d <? Minute then "less than a minute"
  else if d <? Hour then some (Z.quot d Minute) " minute"%string
  else if d <? 24 * Hour then some (Z.quot d Hour) " hour"%string
  else some (Z.quot d (24 * Hour)) " day"%string.

Definition alertBody (target : string) (opened : bool) : string :=
  let verb := if opened then "The condition has held long enough to be worth telling you about."%string
              else "The condition has cleared on its own."%string in
  if (target =? "")%string then verb else (verb ++ " It concerns " ++ target ++ ".")%string.

Definition mapAlertSeverity (severity : string) : string :=
  let s := to_lower severity in
  if (s =? "critical")%string then NotifyCritical
  else if (s =? "warning")%string || (s =? "warn")%string then NotifyWarning
  else if (s =? "info")%string then NotifyInfo
  else NotifyWarning.

Definition event (source kind severity title body link key : string) : Event := {|
  e_ServerID := ""; Source := source; Kind := kind; Severity := severity; Title := title;
  Body := body; Link := link; Key := key; e_CreatedAt := t_zero |}.

Definition AlertOpened (srv id severity message target : string) : M unit :=
  Emit srv (event "monitoring" EventAlertOpened (mapAlertSeverity severity) message
              (alertBody target true) "/monitoring" ("alert.opened:" ++ safeKey id)%string).

Definition AlertResolved (srv id severity message target : string) (openFor : Z) : M unit :=
  let body := (alertBody target false ++
               (if (0 <? openFor)%Z then " It was open for " ++ formatDuration openFor ++ "." else ""))%string in
  Emit srv (event "monitoring" EventAlertResolved NotifyInfo ("Resolved: " ++ message)%string body
              "/monitoring" ("alert.resolved:" ++ safeKey id)%string).

Definition BackupFailed (srv id subject reason : string) : M unit :=
  let body := ("The backup did not complete." ++
               (if (reason =? "")%string then "" else " " ++ reason) ++
               " Nothing was lost by this on its own — what it means is that there " ++
               "is one less copy than there should be.")%string in
  Emit srv (event "backup" EventBackupFailed NotifyCritical ("Backup failed: " ++ subject)%string body
              "/backups" ("backup.failed:" ++ safeKey id)%string).

Definition BackupUnverifiable (srv id subject detail : string) : M unit :=
  let body := ("A backup that verified when it was taken failed a later check." ++
               (if (detail =? "")%string then "" else " " ++ detail) ++
               " It will not restore. Take a new backup of " ++ subject ++
               ", and look at what happened to the destination it was stored on.")%string in
  Emit srv (event "backup" EventBackupFailed NotifyCritical ("Backup no longer verifies: " ++ subject)%string
              body "/backups" ("backup.unverifiable:" ++ safeKey id)%string).

(** The bucket, the severity and the title, or nothing yet. *)
Definition expiryBucket (domain : string) (days : Z) : option (string * string * string) :=
  let expires := ("The certificate for " ++ domain ++ " expires in " ++ itoa days ++ " days")%string in
  if days <? 0
  then Some ("expired", NotifyCritical, "The certificate for " ++ domain ++ " has expired")%string
  else if days <=? 7 then Some ("urgent"%string, NotifyCritical, expires)
  else if days <=? 30 then Some ("expiring"%string, NotifyWarning, expires)
  else None.

Definition SSLExpiring (srv domain : string) (daysRemaining : Z) : M unit :=
  match expiryBucket domain daysRemaining with
  | None => ret tt
  | Some (bucket, severity, title) =>
      let body := if daysRemaining <? 0
                  then "Every visitor to this site is now being shown a certificate warning."%string
                  else ("Renewal has not happened yet. If this certificate is set to renew " ++
                        "automatically, something is stopping it; if it is not, it needs doing by hand.")%string in
      Emit srv (event "ssl" EventSSLExpiring severity title body "/ssl"
                  ("ssl." ++ bucket ++ ":" ++ safeKey domain)%string)
  end.

(** Only critical and high findings are worth an interruption. *)
Definition mapFindingSeverity (severity : string) : option string :=
  if (severity =? "critical")%string then Some NotifyCritical
  else if (severity =? "high")%string then Some NotifyHigh
  else None.

Definition SecurityFinding (srv id severity title description : string) : M unit :=
  match mapFindingSeverity severity with
  | None => ret tt
  | Some notify =>
      let body := if (description =? "")%string then "A security scan found this on the host."%string
                  else description in
      Emit srv (event "security" EventSecurityFinding notify title body "/security-center"
                  ("security.finding:" ++ safeKey id)%string)
  end.

(** ** The dispatcher *)
Record Dispatcher := { batch : nat; maxAttempts : Z; retention : Z }.
Definition DefaultDispatcher : Dispatcher :=
  {| batch := 20; maxAttempts := 4; retention := 30 * 24 * Hour |}.

(** [send]: what the far end answers, and the message on its way if it took it. *)
Definition send (channel event : string) : M SendResult :=
  fun w =>
    match senders w with
    | (r, elapsed) :: ss =>
        let sent := match r with Delivered => [{| w_Channel := channel; w_Event := event |}] | _ => [] end in
        (Ok r, set_wire (wire w ++ sent)%list ss (clock w + elapsed) w)
    | [] => (Ok (Refused false "no answer"), w)
    end.

Definition time_Now : M Z := get clock.

Definition backoff (attempts : Z) : Z :=
  if attempts <=? 1 then Minute else if attempts =? 2 then 4 * Minute else 16 * Minute.

Section dispatcher.
Variable d : Dispatcher.

(** Failures to record what happened are only logged. *)
Definition deliver (item : Due) : M unit :=
  let channel := ChannelID (i_Delivery item) in
  let! sent := send channel (EventID (i_Delivery item)) in
  let! now := time_Now in
  match sent with
  | Delivered =>
      let! _ := attempt (MarkSent (i_ID item) now) in
      let! _ := attempt (RecordChannelResult channel true "" now) in
      ret tt
  | Refused permanent reason =>
      let! _ := attempt (RecordChannelResult channel false reason now) in
      if permanent || (maxAttempts d <=? Attempts (i_Delivery item))
      then let! _ := attempt (MarkFailed (i_ID item) reason) in ret tt
      else let! _ := attempt (Reschedule (i_ID item) reason (now + backoff (Attempts (i_Delivery item)))) in
           ret tt
  end.

Fixpoint deliver_all (items : list Due) : M unit :=
  match items with
  | [] => ret tt
  | item :: items => deliver item ;! deliver_all items
  end.

Definition Once : M unit :=
  let! now := time_Now in
  let! claimed := attempt (ClaimDue now (batch d)) in
  match claimed with
  | Err _ => ret tt
  | Ok items => deliver_all items
  end.

Definition prune : M unit :=
  let! now := time_Now in
  let! _ := attempt (PruneEvents (now - retention d)) in ret tt.
End dispatcher.

(** ** Invariants of the tables *)
Record delivery_ok (w : World) (d : Delivery) : Prop := {
  ok_event : is_Some (events w !! EventID d);
  ok_channel : is_Some (channels w !! ChannelID d);
  ok_sent : d_Status d = Sent -> is_Some (SentAt d);
  ok_failed : d_Status d = Failed -> is_Some (d_LastError d);
  ok_attempts : 0 <= Attempts d;
}.

Record outbox_ok (w : World) : Prop := {
  ok_key : forall i j e f, events w !! i = Some e -> events w !! j = Some f ->
    e_ServerID e = e_ServerID f -> Key e = Key f -> i = j;
  ok_once : forall i j d e, deliveries w !! i = Some d -> deliveries w !! j = Some e ->
    EventID d = EventID e -> ChannelID d = ChannelID e -> i = j;
  ok_deliveries : map_Forall (fun _ d => delivery_ok w d) (deliveries w);
  ok_fresh : NoDup (uuids w) /\ forall id, id ∈ uuids w ->
    channels w !! id = None /\ events w !! id = None /\ deliveries w !! id = None;
}.

(** One statement, a message sent, or time passing. *)
Inductive out_step : World -> unit -> World -> Prop :=
| step_create srv p w : out_step w tt (snd (CreateChannel srv p w))
| step_list srv w : out_step w tt (snd (ListChannels srv w))
| step_delete id w : out_step w tt (snd (DeleteChannel id w))
| step_result id ok detail t w : out_step w tt (snd (RecordChannelResult id ok detail t w))
| step_streak id w : out_step w tt (snd (ResetStreak id w))
| step_event e w : out_step w tt (snd (RecordEvent e w))
| step_queue e c w : out_step w tt (snd (QueueDelivery e c w))
| step_claim t n w : out_step w tt (snd (ClaimDue t n w))
| step_sent id t w : out_step w tt (snd (MarkSent id t w))
| step_again id r t w : out_step w tt (snd (Reschedule id r t w))
| step_failed id r w : out_step w tt (snd (MarkFailed id r w))
| step_prune t w : out_step w tt (snd (PruneEvents t w))
| step_send c e w : out_step w tt (snd (send c e w))
| step_time t w : out_step w tt (set_wire (wire w) (senders w) t w).

Lemma outbox_ok_rest (w w' : World) :
  channels w' = channels w -> events w' = events w -> deliveries w' = deliveries w -> uuids w' = uuids w ->
  outbox_ok w -> outbox_ok w'.
Proof.
  intros Hc He Hd Hu [H1 H2 H3 H4]. split; rewrite ?Hc, ?He, ?Hd, ?Hu; try done.
  intros i d Hl. destruct (H3 i d Hl). split; rewrite ?He, ?Hc; done.
Qed.

Lemma outbox_call {A} (f : World -> result ntf_err A * World) w :
  (forall w, outbox_ok w -> outbox_ok (snd (f w))) ->
  outbox_ok w -> outbox_ok (snd (call f w)).
Proof.
  intros Hf. revert w.
  apply (respects_call ErrBackend (fun u v => outbox_ok u -> outbox_ok v)); try (intros; tauto).
  intros fs w. by apply outbox_ok_rest.
Qed.

(** Channels changed without a key appearing but the given ones. *)
Lemma outbox_ok_channels (w : World) m us :
  outbox_ok w ->
  (forall i, is_Some (channels w !! i) -> is_Some (m !! i)) ->
  NoDup us -> (forall i, i ∈ us -> i ∈ uuids w /\ m !! i = None) ->
  outbox_ok (set_chance us (faults w) (set_channels m w)).
Proof.
  intros [H1 H2 H3 [H4 H5]] Hm Hnd Hus. split; try done; cbn.
  - intros i d Hl. destruct (H3 i d Hl). split; auto.
  - split; [done|]. intros i Hi. destruct (Hus i Hi) as [Hin Hn]. destruct (H5 i Hin) as (_ & ? & ?). done.
Qed.

(** A delivery rewritten in place. *)
Definition same_row (d e : Delivery) : Prop := EventID e = EventID d /\ ChannelID e = ChannelID d.

Lemma outbox_ok_rows (w : World) m :
  outbox_ok w ->
  (forall i e, m !! i = Some e -> exists d, deliveries w !! i = Some d /\ same_row d e /\ delivery_ok w e) ->
  outbox_ok (set_deliveries m w).
Proof.
  intros [H1 H2 H3 [H4 H5]] Hm. split; try done; cbn.
  - intros i j d e Hi Hj Hev Hch. destruct (Hm i d Hi) as (d' & Hd' & [E1 E2] & _).
    destruct (Hm j e Hj) as (e' & He' & [F1 F2] & _). eapply H2; eauto; congruence.
  - intros i e Hl. destruct (Hm i e Hl) as (_ & _ & _ & []). by split.
  - split; [done|]. intros i Hi. destruct (H5 i Hi) as (? & ? & Hn). split_and!; try done.
    destruct (m !! i) as [e|] eqn:E; [|done]. destruct (Hm i e E) as (d & Hd & _). congruence.
Qed.

Lemma outbox_ok_alter (w : World) id f :
  outbox_ok w -> (forall d, same_row d (f d)) -> (forall d, delivery_ok w d -> delivery_ok w (f d)) ->
  outbox_ok (set_deliveries (alter f id (deliveries w)) w).
Proof.
  intros Hok Hs Hf. apply outbox_ok_rows; [done|]. intros i e Hl.
  destruct (decide (id = i)) as [<-|Hn].
  - rewrite lookup_alter_eq in Hl. apply fmap_Some in Hl as (d & Hd & ->).
    exists d. split_and!; [done|apply Hs..|]. apply Hf. by apply (ok_deliveries _ Hok) in Hd.
  - rewrite lookup_alter_ne in Hl by done. exists e. split_and!; try done.
    by apply (ok_deliveries _ Hok) in Hl.
Qed.

Lemma fresh_tail (w : World) id ids :
  outbox_ok w -> uuids w = id :: ids ->
  (id ∉ ids) /\ NoDup ids /\ channels w !! id = None /\ events w !! id = None /\ deliveries w !! id = None.
Proof.
  intros [_ _ _ [Hnd Hf]] Hu. rewrite Hu in *. apply list.NoDup_cons in Hnd as [? ?].
  destruct (Hf id) as (? & ? & ?); [by left|]. done.
Qed.

Lemma CreateChannel_ok srv p (w : World) : outbox_ok w -> outbox_ok (snd (CreateChannel srv p w)).
Proof.
  apply outbox_call. clear w. intros w Hok. destruct (map_find _ (channels w)); [done|].
  destruct (uuids w) as [|id ids] eqn:Hu; [done|]. cbn [snd].
  destruct (fresh_tail _ _ _ Hok Hu) as (Hni & Hnd & Hc & _).
  apply outbox_ok_channels; [done| |done|].
  - intros i Hi. destruct (decide (id = i)) as [<-|]; [rewrite lookup_insert_eq; eauto|by rewrite lookup_insert_ne].
  - intros i Hi. rewrite Hu. split; [by right|].
    destruct (proj2 (ok_fresh _ Hok) i) as [? _]; [rewrite Hu; by right|].
    rewrite lookup_insert_ne; [done|]. intros ->. done.
Qed.

Lemma channels_altered_ok f id (w : World) :
  outbox_ok w -> outbox_ok (set_channels (alter f id (channels w)) w).
Proof.
  intros Hok. destruct (ok_fresh _ Hok) as [Hnd Hf].
  apply (outbox_ok_rest (set_chance (uuids w) (faults w) (set_channels (alter f id (channels w)) w))); [done..|].
  apply outbox_ok_channels; try done.
  - intros i Hi. destruct (decide (id = i)) as [<-|]; [|by rewrite lookup_alter_ne].
    rewrite lookup_alter_eq. by apply fmap_is_Some.
  - intros i Hi. split; [done|]. apply Hf in Hi as [Hi _].
    destruct (decide (id = i)) as [<-|]; [|by rewrite lookup_alter_ne]. by rewrite lookup_alter_eq, Hi.
Qed.

Lemma filter_rows_ok (w : World) P `{!forall x : string * Delivery, Decision (P x)} :
  outbox_ok w -> outbox_ok (set_deliveries (filter P (deliveries w)) w).
Proof.
  intros Hok. apply outbox_ok_rows; [done|]. intros i e [Hl _]%map_lookup_filter_Some.
  exists e. split_and!; try done. by apply (ok_deliveries _ Hok) in Hl.
Qed.

Lemma DeleteChannel_ok id (w : World) : outbox_ok w -> outbox_ok (snd (DeleteChannel id w)).
Proof.
  apply outbox_call. clear w. intros w Hok. destruct (channels w !! id); [|done]. cbn [snd].
  destruct (filter_rows_ok w (fun x => ChannelID (snd x) <> id) Hok) as [H1 H2 H3 [H4 H5]].
  split; try done; cbn in *.
  - intros i d Hl. pose proof (H3 i d Hl) as []. apply map_lookup_filter_Some in Hl as [_ Hne].
    split; try done. cbn. by rewrite lookup_delete_ne.
  - split; [done|]. intros i Hi. destruct (H5 i Hi) as (? & ? & ?). split_and!; try done.
    by apply lookup_delete_None; right.
Qed.

Lemma RecordEvent_ok e (w : World) : outbox_ok w -> outbox_ok (snd (RecordEvent e w)).
Proof.
  apply outbox_call. clear w. intros w Hok. destruct (map_find _ (events w)) eqn:E; [done|].
  destruct (uuids w) as [|id ids] eqn:Hu; [done|]. cbn [snd].
  destruct (fresh_tail _ _ _ Hok Hu) as (Hni & Hnd & _ & He & Hd). destruct Hok as [H1 H2 H3 [H4 H5]].
  assert (Hfree : forall i f, events w !! i = Some f -> e_ServerID f = e_ServerID e -> Key f = Key e -> False).
  { intros i f Hf Hs Hk. pose proof (map_find_none _ _ _ _ E Hf) as Hn. unfold same_event in Hn.
    by rewrite Hs, Hk, !String.eqb_refl in Hn. }
  split; cbn; try done.
  - intros i j f g Hi Hj Hs Hk.
    destruct (decide (id = i)) as [<-|Hni']; destruct (decide (id = j)) as [<-|Hnj'];
      rewrite ?lookup_insert_eq, ?lookup_insert_ne in Hi by done;
      rewrite ?lookup_insert_eq, ?lookup_insert_ne in Hj by done; [done| | |by eapply H1].
    + injection Hi as <-. exfalso. by eapply (Hfree j g).
    + injection Hj as <-. exfalso. by eapply (Hfree i f).
  - intros i d Hl. destruct (H3 i d Hl) as [[f Hf] ? ? ? ?]. split; try done. cbn.
    exists f. rewrite lookup_insert_ne; [done|congruence].
  - split; [done|]. intros i Hi. rewrite Hu in H5. destruct (H5 i ltac:(by right)) as (? & ? & ?).
    split_and!; try done. rewrite lookup_insert_ne; [done|]. intros ->. done.
Qed.

Lemma QueueDelivery_ok ev ch (w : World) : outbox_ok w -> outbox_ok (snd (QueueDelivery ev ch w)).
Proof.
  apply outbox_call. clear w. intros w Hok. destruct (events w !! ev) as [e|] eqn:Ee; [|done].
  destruct (channels w !! ch) as [c|] eqn:Ec; [|done].
  destruct (uuids w) as [|id ids] eqn:Hu; [done|].
  destruct (map_find _ (deliveries w)) eqn:E; [done|]. cbn [snd].
  destruct (fresh_tail _ _ _ Hok Hu) as (Hni & Hnd & _ & He & Hd). destruct Hok as [H1 H2 H3 [H4 H5]].
  assert (Hfree : forall i d, deliveries w !! i = Some d -> EventID d = ev -> ChannelID d = ch -> False).
  { intros i d Hl Hev Hch. pose proof (map_find_none _ _ _ _ E Hl) as Hn. unfold same_delivery in Hn.
    by rewrite Hev, Hch, !String.eqb_refl in Hn. }
  split; cbn; try done.
  - intros i j f g Hi Hj Hs Hk.
    destruct (decide (id = i)) as [<-|Hni']; destruct (decide (id = j)) as [<-|Hnj'];
      rewrite ?lookup_insert_eq, ?lookup_insert_ne in Hi by done;
      rewrite ?lookup_insert_eq, ?lookup_insert_ne in Hj by done; [done| | |by eapply H2].
    + injection Hi as <-. exfalso. by eapply (Hfree j g).
    + injection Hj as <-. exfalso. by eapply (Hfree i f).
  - intros i d Hl. destruct (decide (id = i)) as [<-|Hn].
    + rewrite lookup_insert_eq in Hl. injection Hl as <-. split; cbn; try done; by eexists.
    + rewrite lookup_insert_ne in Hl by done. destruct (H3 i d Hl). by split.
  - split; [done|]. intros i Hi. rewrite Hu in H5. destruct (H5 i ltac:(by right)) as (? & ? & ?).
    split_and!; try done. rewrite lookup_insert_ne; [done|]. intros ->. done.
Qed.

Lemma picked_elem w now limit i d :
  (i, d) ∈ picked w now limit -> deliveries w !! i = Some d /\ due w now d = true.
Proof.
  intros Hin%elem_of_take. destruct Hin as (k & Hk & _).
  apply list_elem_of_lookup_2 in Hk. rewrite merge_sort_Permutation in Hk.
  apply list_elem_of_filter in Hk as [Hd Hin]. by apply elem_of_map_to_list in Hin.
Qed.

Lemma picked_NoDup w now limit : NoDup (map fst (picked w now limit)).
Proof.
  unfold picked. change (map fst) with (fmap (M := list) (@fst string Delivery)).
  rewrite fmap_take. eapply sublist_NoDup; cycle 1; [apply sublist_take|].
  rewrite merge_sort_Permutation. eapply sublist_NoDup; cycle 1; [apply fmap_sublist, sublist_filter|].
  apply NoDup_fst_map_to_list.
Qed.

(** What a claim leaves of the table. *)
Lemma claimed_lookup w now limit i :
  (list_to_map (map (fun x => (fst x, attempted (snd x))) (picked w now limit)) ∪ deliveries w
     : gmap string Delivery) !! i =
  if decide (i ∈ map fst (picked w now limit)) then attempted <$> deliveries w !! i else deliveries w !! i.
Proof.
  set (l := map _ (picked w now limit)).
  assert (Hl : l.*1 = map fst (picked w now limit)).
  { unfold l. change (map fst) with (fmap (M := list) (@fst string Delivery)).
    rewrite <- list_fmap_compose. apply list_fmap_ext. by intros ? []. }
  destruct (decide _) as [Hin|Hn].
  - apply list_elem_of_fmap in Hin as ([j d] & -> & Hin). simpl.
    destruct (picked_elem _ _ _ _ _ Hin) as [Hd _]. rewrite Hd. simpl.
    apply lookup_union_Some_l, elem_of_list_to_map_1; [rewrite Hl; apply picked_NoDup|].
    apply list_elem_of_fmap. by exists (j, d).
  - rewrite lookup_union_r; [done|]. apply not_elem_of_list_to_map_1. by rewrite Hl.
Qed.

Lemma ClaimDue_ok t n (w : World) : outbox_ok w -> outbox_ok (snd (ClaimDue t n w)).
Proof.
  apply outbox_call. clear w. intros w Hok. cbn [snd]. apply outbox_ok_rows; [done|].
  intros i e Hl. rewrite claimed_lookup in Hl. destruct (decide _) as [_|_].
  - apply fmap_Some in Hl as (d & Hd & ->). exists d. split_and!; try done.
    destruct (ok_deliveries _ Hok i d Hd). split; try done. cbn. lia.
  - exists e. split_and!; try done. by apply (ok_deliveries _ Hok) in Hl.
Qed.

Lemma PruneEvents_ok t (w : World) : outbox_ok w -> outbox_ok (snd (PruneEvents t w)).
Proof.
  apply outbox_call. clear w. intros w Hok. cbn [snd].
  set (kept := filter _ (events w)).
  destruct (filter_rows_ok w (fun x => is_Some (kept !! EventID (snd x))) Hok) as [H1 H2 H3 [H4 H5]].
  split; try done; cbn in *.
  - intros i j e f [Hi _]%map_lookup_filter_Some [Hj _]%map_lookup_filter_Some. by eapply H1.
  - intros i d Hl. destruct (H3 i d Hl). apply map_lookup_filter_Some in Hl as [_ Hk]. by split.
  - split; [done|]. intros i Hi. destruct (H5 i Hi) as (? & ? & ?). split_and!; try done.
    apply map_lookup_filter_None. by left.
Qed.

Lemma out_step_ok w l w' : outbox_ok w -> out_step w l w' -> outbox_ok w'.
Proof.
  intros Hok Hs. destruct Hs.
  - by apply CreateChannel_ok.
  - by apply outbox_call.
  - by apply DeleteChannel_ok.
  - apply outbox_call; [|done]. intros v. apply channels_altered_ok.
  - apply outbox_call; [|done]. intros v. apply channels_altered_ok.
  - by apply RecordEvent_ok.
  - by apply QueueDelivery_ok.
  - by apply ClaimDue_ok.
  - apply outbox_call; [|done]. intros v Hv. apply outbox_ok_alter; [done..|].
    intros d []. by split.
  - apply outbox_call; [|done]. intros v Hv. apply outbox_ok_alter; [done..|].
    intros d []. by split.
  - apply outbox_call; [|done]. intros v Hv. apply outbox_ok_alter; [done..|].
    intros d []. by split.
  - by apply PruneEvents_ok.
  - unfold send. destruct (senders w) as [|[r t] ss]; [done|]. by apply (outbox_ok_rest w).
  - by apply (outbox_ok_rest w).
Qed.

(** ** Every program moves by these steps *)
#[export] Hint Constructors out_step : moves.

Lemma moves_queue_all id e cs : moves out_step (queue_all id e cs).
Proof. induction cs as [|[cid c] cs IH]; cbn [queue_all]; moves_tac. Qed.
#[export] Hint Resolve moves_queue_all : moves.

Lemma moves_Emit srv e : moves out_step (Emit srv e).
Proof. unfold Emit. moves_tac. Qed.
#[export] Hint Resolve moves_Emit : moves.

Lemma moves_deliver d item : moves out_step (deliver d item).
Proof. unfold deliver, time_Now. moves_tac. Qed.
#[export] Hint Resolve moves_deliver : moves.

Lemma moves_deliver_all d items : moves out_step (deliver_all d items).
Proof. induction items as [|i items IH]; cbn [deliver_all]; moves_tac. Qed.
#[export] Hint Resolve moves_deliver_all : moves.

Lemma moves_dispatch d : moves out_step (Once d).
Proof. unfold Once, time_Now. moves_tac. Qed.

Lemma moves_out_prune d : moves out_step (prune d).
Proof. unfold prune, time_Now. moves_tac. Qed.

Lemma outbox_reaches w w' : outbox_ok w -> reaches out_step w w' -> outbox_ok w'.
Proof. apply reaches_invariant, out_step_ok. Qed.

(** ** Raising an event when nothing fails *)
Section emit.
Variable srv : string.

(** A delivery as it is queued. *)
Definition queued (now : Z) (event channel : string) : Delivery := {|
  EventID := event; ChannelID := channel; d_Status := Pending; Attempts := 0; NextAttemptAt := now;
  d_LastError := None; SentAt := None |}.

(** The new rows [m'] has are the deliveries of [id] to the channels in [cids], one each. *)
Definition adds (w w' : World) (id : string) (cids : list string) : Prop :=
  (forall i d, deliveries w !! i = Some d -> deliveries w' !! i = Some d) /\
  (forall i d, deliveries w' !! i = Some d -> deliveries w !! i = Some d \/
     exists cid, cid ∈ cids /\ d = queued (clock w) id cid) /\
  (forall cid, cid ∈ cids -> exists i, deliveries w' !! i = Some (queued (clock w) id cid)).

Record calm (w w' : World) : Prop := {
  calm_channels : channels w' = channels w; calm_events : events w' = events w;
  calm_wire : wire w' = wire w; calm_clock : clock w' = clock w; calm_faults : faults w' = faults w;
}.

Lemma QueueDelivery_new (w : World) id cid :
  outbox_ok w -> faults w = [] -> is_Some (events w !! id) -> is_Some (channels w !! cid) ->
  (forall i d, deliveries w !! i = Some d -> EventID d = id -> ChannelID d <> cid) ->
  (0 < length (uuids w))%nat ->
  exists w', QueueDelivery id cid w = (Ok tt, w') /\ calm w w' /\ adds w w' id [cid] /\
    (length (uuids w) <= S (length (uuids w')))%nat.
Proof.
  intros Hok Hf [e He] [c Hc] Hnew Hu. unfold QueueDelivery. rewrite call_fine by done. rewrite He, Hc.
  destruct (uuids w) as [|i ids] eqn:Eu; [simpl in Hu; lia|].
  destruct (map_find _ (deliveries w)) as [[j d]|] eqn:E.
  { apply map_find_some in E as [Hl Hs]. unfold same_delivery in Hs. bool_hyps.
    exfalso. by eapply (Hnew j d). }
  destruct (fresh_tail _ _ _ Hok Eu) as (_ & _ & _ & _ & Hd).
  eexists. split; [done|]. split; [by split|]. split; [|simpl; lia]. split_and!; cbn.
  - intros k d Hl. rewrite lookup_insert_ne; [done|congruence].
  - intros k d Hl. destruct (decide (i = k)) as [<-|Hn].
    + rewrite lookup_insert_eq in Hl. injection Hl as <-. right. exists cid. split; [by left|done].
    + rewrite lookup_insert_ne in Hl by done. by left.
  - intros cid' ->%list_elem_of_singleton. exists i. by rewrite lookup_insert_eq.
Qed.

Lemma calm_refl w : calm w w.
Proof. by split. Qed.
Lemma calm_trans u v w : calm u v -> calm v w -> calm u w.
Proof. intros [] []. split; congruence. Qed.

Definition wanting (e : Event) (cs : list (string * Channel)) : list string :=
  map fst (List.filter (fun x => wants (snd x) e) cs).

Lemma queue_all_adds id e cs (w : World) :
  outbox_ok w -> faults w = [] -> is_Some (events w !! id) ->
  (forall x, x ∈ cs -> is_Some (channels w !! fst x)) -> NoDup (map fst cs) ->
  (forall i d, deliveries w !! i = Some d -> EventID d = id -> ChannelID d ∉ map fst cs) ->
  (length cs <= length (uuids w))%nat ->
  exists w', queue_all id e cs w = (Ok tt, w') /\ calm w w' /\ adds w w' id (wanting e cs).
Proof.
  revert w. induction cs as [|[cid c] cs IH]; intros w Hok Hf He Hcs Hnd Hnew Hu; cbn [queue_all].
  { exists w. split; [done|]. split; [apply calm_refl|]. split_and!; [done|auto|]. intros cid Hin.
    by apply not_elem_of_nil in Hin. }
  cbn [map fst] in Hnd, Hnew. apply list.NoDup_cons in Hnd as [Hni Hnd]. cbn [length] in Hu.
  unfold wanting. cbn [List.filter snd]. destruct (wants c e) eqn:Ew; cbn [map fst].
  2: { apply IH; try done; [| |lia].
       - intros x Hx. apply Hcs. by right.
       - intros i d Hl Hd Hin. apply (Hnew i d Hl Hd). by right. }
  destruct (QueueDelivery_new w id cid) as (w1 & Hq & Hcalm & (Ha1 & Ha2 & Ha3) & Hlen); try done.
  { apply (Hcs (cid, c)). by left. }
  { intros i d Hl Hd Hc. apply (Hnew i d Hl Hd). rewrite Hc. by left. }
  { lia. }
  pose proof (QueueDelivery_ok id cid w Hok) as Hok1. rewrite Hq in Hok1. cbn [snd] in Hok1.
  pose proof Hcalm as [Hc1 He1 Hw1 Ht1 Hf1].
  destruct (IH w1) as (w2 & Hr & Hcalm2 & (Hb1 & Hb2 & Hb3)); try done.
  - by rewrite Hf1.
  - by rewrite He1.
  - intros x Hx. rewrite Hc1. apply Hcs. by right.
  - intros i d Hl Hd. apply Ha2 in Hl as [Hl|(x & ->%list_elem_of_singleton & ->)].
    + intros Hin. apply (Hnew i d Hl Hd). by right.
    + exact Hni.
  - lia.
  - exists w2. unfold bind, attempt. rewrite Hq. split; [done|]. split; [by eapply calm_trans|].
    split_and!.
    + intros i d Hl. by apply Hb1, Ha1.
    + intros i d Hl. apply Hb2 in Hl as [Hl|(x & Hx & ->)].
      * apply Ha2 in Hl as [Hl|(x & ->%list_elem_of_singleton & ->)]; [by left|].
        right. exists cid. split; [by left|done].
      * right. exists x. rewrite Ht1. split; [by right|done].
    + intros x [->|Hx]%elem_of_cons.
      * destruct (Ha3 cid ltac:(by left)) as [i Hi]. exists i. by apply Hb1.
      * rewrite <- Ht1. by apply Hb3.
Qed.

Lemma ListChannels_fine (w : World) :
  faults w = [] -> exists cs, ListChannels srv w = (Ok cs, w) /\ NoDup (map fst cs) /\
    forall x, x ∈ cs <-> channels w !! fst x = Some (snd x) /\ c_ServerID (snd x) = srv.
Proof.
  intros Hf. unfold ListChannels, query. rewrite call_fine by done. eexists. split; [done|]. split.
  - change (map fst) with (fmap (M := list) (@fst string Channel)). rewrite merge_sort_Permutation.
    eapply sublist_NoDup; cycle 1; [apply fmap_sublist, sublist_filter|]. apply NoDup_fst_map_to_list.
  - intros [i c]. rewrite merge_sort_Permutation, list_elem_of_filter, elem_of_map_to_list. cbn. tauto.
Qed.

Lemma Emit_known e (w : World) i f :
  outbox_ok w -> faults w = [] -> events w !! i = Some f -> same_event srv (Key e) f = true ->
  snd (Emit srv e w) = w.
Proof.
  intros Hok Hf Hl Hs. unfold Emit. cbv zeta. destruct (DedupeKey _); [|done].
  destruct (NotifySeverity _); [|done]. unfold bind, attempt, RecordEvent.
  rewrite call_fine by done. cbn [e_ServerID Key with_server].
  destruct (map_find (same_event srv (Key e)) (events w)) as [[]|] eqn:E; [done|].
  by rewrite (map_find_none _ _ _ _ E Hl) in Hs.
Qed.

(** The row an event becomes. *)
Definition stored (now : Z) (e : Event) : Event := {|
  e_ServerID := srv; Source := Source e; Kind := Kind e; Severity := Severity e; Title := Title e;
  Body := Body e; Link := Link e; Key := Key e; e_CreatedAt := now |}.

Lemma Emit_new e (w : World) :
  outbox_ok w -> faults w = [] -> is_ok (DedupeKey (Key e)) = true ->
  is_ok (NotifySeverity (Severity e)) = true ->
  (forall i f, events w !! i = Some f -> same_event srv (Key e) f = false) ->
  (size (channels w) < length (uuids w))%nat ->
  exists id w', Emit srv e w = (Ok tt, w') /\ events w !! id = None /\
    events w' = <[id := stored (clock w) e]> (events w) /\ channels w' = channels w /\ wire w' = wire w /\
    exists cids, adds w w' id cids /\ NoDup cids /\
      forall cid, cid ∈ cids <-> exists c, channels w !! cid = Some c /\ c_ServerID c = srv /\
                                      wants c (stored (clock w) e) = true.
Proof.
  intros Hok Hf Hk Hs Hnew Hu. unfold Emit. cbv zeta.
  destruct (DedupeKey (Key (with_server srv e))) eqn:Ek; [|by cbn in Ek; rewrite Ek in Hk].
  destruct (NotifySeverity (Severity (with_server srv e))) eqn:Es; [|by cbn in Es; rewrite Es in Hs].
  assert (Hn : map_find (same_event srv (Key e)) (events w) = None).
  { destruct (map_find _ _) as [[i f]|] eqn:E; [|done]. apply map_find_some in E as [Hl Hx].
    by rewrite (Hnew i f Hl) in Hx. }
  destruct (uuids w) as [|id ids] eqn:Eu; [simpl in Hu; lia|].
  set (e' := stored (clock w) e).
  set (w1 := set_chance ids (faults w) (set_events (<[id := e']> (events w)) w)).
  assert (Hr : RecordEvent (with_server srv e) w = (Ok (id, e'), w1)).
  { unfold RecordEvent. rewrite call_fine by done. cbn [e_ServerID Key with_server]. by rewrite Hn, Eu. }
  destruct (fresh_tail _ _ _ Hok Eu) as (_ & _ & _ & Hid & _).
  pose proof (RecordEvent_ok (with_server srv e) w Hok) as Hok1. rewrite Hr in Hok1. cbn [snd] in Hok1.
  assert (Hf1 : faults w1 = []) by done.
  destruct (ListChannels_fine w1 Hf1) as (cs & Hl & Hnd & Hcs).
  destruct (queue_all_adds id e' cs w1) as (w2 & Hq & [Hc2 He2 Hw2 _ _] & Ha); try done.
  - cbn. rewrite lookup_insert_eq. by eexists.
  - intros x Hx. apply Hcs in Hx as [Hx _]. by eexists.
  - intros i d Hd Hev. exfalso. cbn in Hd. apply (ok_deliveries _ Hok) in Hd as [[f Hfl] _ _ _ _].
    rewrite Hev in Hfl. congruence.
  - cbn. assert (Hlen : (length cs <= size (channels w))%nat); [|simpl in Hu; lia].
    rewrite <- length_map_to_list, <- (length_map fst cs), <- (length_fmap fst).
    apply submseteq_length, NoDup_submseteq; [done|]. intros k (x & -> & Hx)%list_elem_of_fmap.
    apply Hcs in Hx as [Hx _]. apply list_elem_of_fmap. exists (fst x, snd x).
    split; [done|by apply elem_of_map_to_list].
  - exists id, w2. unfold bind, attempt. rewrite Hr, Hl. split_and!; [done|done|by rewrite He2|done|done|].
    exists (wanting e' cs). split; [exact Ha|]. split.
    + unfold wanting. change (map fst) with (fmap (M := list) (@fst string Channel)).
      clear -Hnd. induction cs as [|x cs IH]; [constructor|]. cbn [map] in Hnd.
      apply list.NoDup_cons in Hnd as [Hni Hnd]. cbn [List.filter].
      destruct (wants (snd x) e'); [|by apply IH]. rewrite fmap_cons. apply list.NoDup_cons.
      split; [|by apply IH]. intros (y & Hy & Hin)%list_elem_of_fmap. apply Hni.
      apply list_elem_of_In, List.filter_In in Hin as [Hin _]. apply list_elem_of_fmap.
      exists y. split; [done|by apply list_elem_of_In].
    + intros cid. unfold wanting. split.
      * intros (x & -> & Hin)%list_elem_of_fmap. apply list_elem_of_In, List.filter_In in Hin as [Hin Hw].
        apply list_elem_of_In, Hcs in Hin as [? ?]. eauto.
      * intros (c & Hc & Hsrv & Hw). apply list_elem_of_fmap. exists (cid, c). split; [done|].
        apply list_elem_of_In, List.filter_In. split; [|done]. by apply list_elem_of_In, Hcs.
Qed.
End emit.

(** Whatever is raised, claimed, delivered and pruned, in any order and with any statement
    failing before or after it took effect, there is at most one event per server and dedupe
    key and at most one delivery per event and channel, every delivery has its event and its
    channel, a sent one has its time and a failed one its reason; and raising an event and a
    round of the dispatcher are sequences of such statements. *)
Theorem outbox_stays_in_order (w0 w : World) ls
  (Hok : outbox_ok w0) (Hrun : run out_step w0 ls w) :
  outbox_ok w /\ (forall srv e, reaches out_step w (snd (Emit srv e w))) /\
  (forall d, reaches out_step w (snd (Once d w))) /\ (forall d, reaches out_step w (snd (prune d w))).
Proof.
  split; [by apply (outbox_reaches w0); [|exists ls]|]. split_and!; intros.
  - apply moves_Emit.
  - apply moves_dispatch.
  - apply moves_out_prune.
Qed.

(** Raising an event when nothing fails. If its key is known, nothing changes at all; if
    it is new, the event is stored and exactly the channels of the host that want it get one
    delivery each, due at once, beside the deliveries there were; no message leaves. *)
Theorem Emit_spec srv e (w : World)
  (Hok : outbox_ok w) (Hf : faults w = []) (Hk : is_ok (DedupeKey (Key e)) = true)
  (Hs : is_ok (NotifySeverity (Severity e)) = true) (Hu : (size (channels w) < length (uuids w))%nat) :
  let w' := snd (Emit srv e w) in
  (forall i f, events w !! i = Some f -> same_event srv (Key e) f = true -> w' = w) /\
  ((forall i f, events w !! i = Some f -> same_event srv (Key e) f = false) ->
   exists id cids, events w !! id = None /\ events w' = <[id := stored srv (clock w) e]> (events w) /\
     adds w w' id cids /\ NoDup cids /\ wire w' = wire w /\
     forall cid, cid ∈ cids <-> exists c, channels w !! cid = Some c /\ c_ServerID c = srv /\
                                     wants c (stored srv (clock w) e) = true).
Proof.
  intros w'. split.
  - intros i f Hl Hx. by eapply Emit_known.
  - intros Hnew. destruct (Emit_new srv e w Hok Hf Hk Hs Hnew Hu)
      as (id & w2 & He & Hid & Hev & Hc & Hw & cids & Ha & Hnd & Hcids).
    unfold w'. rewrite He. cbn [snd]. exists id, cids. by split_and!.
Qed.

(** ** The dispatcher when nothing fails *)
Section dispatching.
Variable cfg : Dispatcher.

(** What becomes of a claimed delivery. *)
Definition outcome (r : SendResult) (now : Z) (d : Delivery) : Delivery :=
  match r with
  | Delivered => marked Sent (d_LastError d) (Some now) (NextAttemptAt d) d
  | Refused permanent reason =>
      if permanent || (maxAttempts cfg <=? Attempts d)
      then marked Failed (Some (if (reason =? "")%string
                                then "the notification could not be delivered"%string else reason))
             (SentAt d) (NextAttemptAt d) d
      else marked (d_Status d) (Some reason) (SentAt d) (now + backoff (Attempts d)) d
  end.

Definition settled (d : Delivery) : bool := bool_decide (d_Status d <> Pending).

(** No attempt takes less than no time. *)
Definition timely (w : World) : Prop := Forall (fun x => 0 <= snd x) (senders w).

(** Nothing but the row, the channel's record, the wire and the clock moves. *)
Record steady (w w' : World) : Prop := {
  st_faults : faults w' = faults w;
  st_events : events w' = events w;
  st_enabled : forall c, (Enabled <$> channels w' !! c) = (Enabled <$> channels w !! c);
  st_uuids : uuids w' = uuids w;
  st_time : timely w -> timely w' /\ clock w <= clock w';
}.

Lemma steady_refl w : steady w w.
Proof. by split. Qed.
Lemma steady_trans u v w : steady u v -> steady v w -> steady u w.
Proof.
  intros [] []. split; [congruence..| |congruence|]; [intros c; by rewrite st_enabled1|].
  intros Ht. destruct (st_time0 Ht) as [Ht1 ?]. destruct (st_time1 Ht1). split; [done|lia].
Qed.

Lemma enabled_used ok detail now id c (m : gmap string Channel) :
  (Enabled <$> alter (used ok detail now) id m !! c) = (Enabled <$> m !! c).
Proof.
  destruct (decide (id = c)) as [<-|]; [|by rewrite lookup_alter_ne].
  rewrite lookup_alter_eq. by destruct (m !! id).
Qed.

(** After a send, with the channel's record and one row rewritten. *)
Lemma steady_sent (w w' : World) r t ss ok detail now id :
  senders w = (r, t) :: ss -> faults w' = faults w -> events w' = events w -> uuids w' = uuids w ->
  senders w' = ss -> clock w' = clock w + t ->
  channels w' = alter (used ok detail now) id (channels w) -> steady w w'.
Proof.
  intros Hs Hf He Hu Hs' Hc Hch. split; try done; [intros c; rewrite Hch; apply enabled_used|].
  unfold timely. rewrite Hs, Hs', Hc. intros [? ?]%list.Forall_cons. split; [done|]. cbn in *. lia.
Qed.

Lemma steady_used (w : World) m ok detail now id :
  steady w (set_deliveries m (set_channels (alter (used ok detail now) id (channels w)) w)).
Proof. split; try done. intros c. apply enabled_used. Qed.

Lemma deliver_fine item (w : World) :
  faults w = [] -> deliveries w !! i_ID item = Some (i_Delivery item) ->
  exists r now w', deliver cfg item w = (Ok tt, w') /\ steady w w' /\ (timely w -> now <= clock w') /\
    deliveries w' = <[i_ID item := outcome r now (i_Delivery item)]> (deliveries w).
Proof.
  intros Hf Hl. unfold deliver, bind, send, time_Now, get, attempt.
  assert (Ha : forall f (m : gmap string Delivery), m !! i_ID item = Some (i_Delivery item) ->
    alter f (i_ID item) m = <[i_ID item := f (i_Delivery item)]> m).
  { intros f m Hm. apply map_eq. intros j. destruct (decide (i_ID item = j)) as [<-|].
    - by rewrite lookup_alter_eq, lookup_insert_eq, Hm.
    - by rewrite lookup_alter_ne, lookup_insert_ne. }
  destruct (senders w) as [|[[|permanent reason] t] ss] eqn:Es.
  - exists (Refused false "no answer"), (clock w). cbn [outcome orb]. unfold RecordChannelResult.
    rewrite call_fine by done. cbn [snd].
    destruct (maxAttempts cfg <=? Attempts (i_Delivery item)); [unfold MarkFailed|unfold Reschedule];
      rewrite call_fine by done; (eexists; split; [done|]);
      (split; [by apply steady_used|]); (split; [done|]); cbn; by rewrite Ha.
  - exists Delivered, (clock w + t). cbn [outcome]. unfold MarkSent. rewrite call_fine by done.
    cbn [snd]. unfold RecordChannelResult. rewrite call_fine by done.
    eexists. split; [done|]. split; [by eapply steady_sent|]. split; [done|]. cbn. by rewrite Ha.
  - exists (Refused permanent reason), (clock w + t). cbn [outcome orb]. unfold RecordChannelResult.
    rewrite call_fine by done. cbn [snd].
    destruct (permanent || (maxAttempts cfg <=? Attempts (i_Delivery item))); [unfold MarkFailed|unfold Reschedule];
      rewrite call_fine by done; (eexists; split; [done|]);
      (split; [by eapply steady_sent|]); (split; [done|]); cbn; by rewrite Ha.
Qed.

Lemma deliver_all_fine items (w : World) :
  faults w = [] -> NoDup (map i_ID items) ->
  (forall item, item ∈ items -> deliveries w !! i_ID item = Some (i_Delivery item)) ->
  exists w', deliver_all cfg items w = (Ok tt, w') /\ steady w w' /\
    (forall i, i ∉ map i_ID items -> deliveries w' !! i = deliveries w !! i) /\
    (forall item, item ∈ items -> exists r now, (timely w -> now <= clock w') /\
       deliveries w' !! i_ID item = Some (outcome r now (i_Delivery item))).
Proof.
  revert w. induction items as [|item items IH]; intros w Hf Hnd Hin; cbn [deliver_all].
  { exists w. split_and!; [done|apply steady_refl|done|]. intros x Hx. by apply not_elem_of_nil in Hx. }
  cbn [map] in Hnd. apply list.NoDup_cons in Hnd as [Hni Hnd].
  destruct (deliver_fine item w Hf (Hin item ltac:(by left))) as (r & now & w1 & Hd & Hst & Hnow & Hrow).
  destruct (IH w1) as (w2 & Hall & Hst2 & Hout & Hins).
  - by rewrite (st_faults _ _ Hst).
  - done.
  - intros x Hx. rewrite Hrow, lookup_insert_ne; [apply Hin; by right|].
    intros He. apply Hni. apply list_elem_of_fmap. by exists x.
  - exists w2. unfold bind. rewrite Hd. split_and!; [done|by eapply steady_trans| |].
    + intros i Hi. cbn [map] in Hi. apply not_elem_of_cons in Hi as [Hne Hi].
      rewrite (Hout i Hi), Hrow. by rewrite lookup_insert_ne.
    + intros x [->|Hx]%elem_of_cons.
      * exists r, now. rewrite (Hout _ Hni), Hrow, lookup_insert_eq. split; [|done].
        intros Ht. destruct (st_time _ _ Hst Ht) as [Ht1 _]. destruct (st_time _ _ Hst2 Ht1). specialize (Hnow Ht). lia.
      * destruct (Hins x Hx) as (r' & now' & Hn' & Hl). exists r', now'. split; [|done].
        intros Ht. by apply Hn', (st_time _ _ Hst Ht).
Qed.

(** A round: what it picked is delivered, given up or put off; the rest stays. *)
Lemma Once_fine (w : World) :
  outbox_ok w -> faults w = [] ->
  exists w', Once cfg w = (Ok tt, w') /\ steady w w' /\ forall i,
    match deliveries w !! i with
    | Some d =>
        if decide (i ∈ map fst (picked w (clock w) (batch cfg)))
        then exists r now, (timely w -> now <= clock w') /\
               deliveries w' !! i = Some (outcome r now (attempted d))
        else deliveries w' !! i = Some d
    | None => deliveries w' !! i = None
    end.
Proof.
  intros Hok Hf. unfold Once, time_Now, get. unfold bind at 1. unfold bind at 1. unfold attempt.
  unfold ClaimDue. rewrite call_fine by done. cbv zeta beta.
  set (rows := picked w (clock w) (batch cfg)).
  set (w1 := set_deliveries _ w).
  assert (Hj : forall x, x ∈ rows -> exists it, joined w x = Some it /\ i_ID it = fst x /\
            i_Delivery it = attempted (snd x)).
  { intros [i d] Hx. destruct (picked_elem _ _ _ _ _ Hx) as [Hd _].
    destruct (ok_deliveries _ Hok i d Hd) as [[e He] [c Hc] _ _ _]. unfold joined. cbn [snd].
    rewrite He, Hc. cbn. by eexists. }
  assert (Hids : map i_ID (omap (joined w) rows) = map fst rows).
  { clear -Hj. induction rows as [|x l IH]; [done|]. cbn.
    destruct (Hj x ltac:(by left)) as (it & -> & Hi & _). cbn. rewrite Hi. f_equal. apply IH.
    intros y Hy. apply Hj. by right. }
  assert (Hw1 : forall i, deliveries w1 !! i =
            if decide (i ∈ map fst rows) then attempted <$> deliveries w !! i else deliveries w !! i).
  { intros i. apply claimed_lookup. }
  destruct (deliver_all_fine (omap (joined w) rows) w1) as (w2 & Ho & Hst & Hout & Hin).
  - done.
  - rewrite Hids. apply picked_NoDup.
  - intros item (x & Hx & Hjx)%list_elem_of_omap. destruct (Hj x Hx) as (it & He & Hi & Hd).
    rewrite He in Hjx. injection Hjx as <-. rewrite Hi, Hd, Hw1, decide_True.
    + destruct x as [i d]. destruct (picked_elem _ _ _ _ _ Hx) as [Hl _]. cbn. by rewrite Hl.
    + apply list_elem_of_fmap. by exists x.
  - exists w2. split; [exact Ho|]. split; [eapply steady_trans; [|exact Hst]; by split|].
    rewrite Hids in Hout. intros i. specialize (Hw1 i). destruct (decide (i ∈ map fst rows)) as [Hi|Hi].
    + apply list_elem_of_fmap in Hi as ([j d] & -> & Hx). cbn [fst] in *.
      destruct (picked_elem _ _ _ _ _ Hx) as [Hl _]. rewrite Hl.
      destruct (Hj _ Hx) as (it & He & Hi & Hd). cbn in Hi, Hd.
      destruct (Hin it) as (r & now & Hn & Hr); [apply list_elem_of_omap; by exists (j, d)|].
      exists r, now. split; [exact Hn|]. by rewrite <- Hi, <- Hd.
    + rewrite <- (Hout i Hi) in Hw1. by destruct (deliveries w !! i).
Qed.
End dispatching.

(** ** The queue drains *)
Section draining.
Variable cfg : Dispatcher.

Definition wait (t : Z) (w : World) : World := set_wire (wire w) (senders w) (clock w + t) w.

(** A round after the longest pause between two attempts. *)
Definition spaced_round (w : World) : World := snd (Once cfg (wait (16 * Minute) w)).

Definition open_channel (w : World) (d : Delivery) : Prop := (Enabled <$> channels w !! ChannelID d) = Some true.

(** Nothing fails, the whole queue fits a batch, and after [k] rounds what is still pending was
    attempted [k] times, fewer than the limit, and is due within the longest pause. *)
Record draining (k : Z) (w : World) : Prop := {
  dr_ok : outbox_ok w;
  dr_faults : faults w = [];
  dr_timely : timely w;
  dr_batch : (size (deliveries w) <= batch cfg)%nat;
  dr_rows : forall i d, deliveries w !! i = Some d -> Attempts d <= maxAttempts cfg /\
    (d_Status d = Pending -> Attempts d < maxAttempts cfg /\
       NextAttemptAt d <= clock w + 16 * Minute /\ (open_channel w d -> k <= Attempts d));
}.

Lemma picked_all (w : World) now i d :
  (size (deliveries w) <= batch cfg)%nat -> deliveries w !! i = Some d -> due w now d = true ->
  i ∈ map fst (picked w now (batch cfg)).
Proof.
  intros Hs Hl Hd. apply list_elem_of_fmap. exists (i, d). split; [done|]. unfold picked.
  rewrite take_ge.
  - rewrite merge_sort_Permutation. apply list_elem_of_filter. split; [done|]. by apply elem_of_map_to_list.
  - rewrite merge_sort_Permutation. etrans; [apply length_filter|]. by rewrite length_map_to_list.
Qed.

Lemma backoff_most a : backoff a <= 16 * Minute.
Proof. unfold backoff, Minute, Second. repeat case_match; lia. Qed.

Lemma outcome_row r now d :
  same_row d (outcome cfg r now d) /\ Attempts (outcome cfg r now d) = Attempts d /\
  (d_Status (outcome cfg r now d) = Pending ->
     Attempts d < maxAttempts cfg /\ NextAttemptAt (outcome cfg r now d) <= now + 16 * Minute).
Proof.
  unfold outcome. destruct r as [|permanent reason]; [by split_and!|].
  destruct (permanent || _) eqn:E; [by split_and!|]. split_and!; try done. intros _.
  apply orb_false_iff in E as [_ E]. apply Z.leb_gt in E. split; [done|].
  cbn. pose proof (backoff_most (Attempts d)). lia.
Qed.

Lemma draining_round k (w : World) : draining k w -> draining (k + 1) (spaced_round w).
Proof.
  intros [Hok Hf Ht Hb Hr]. set (w0 := wait (16 * Minute) w).
  assert (Hok0 : outbox_ok w0) by by apply (outbox_ok_rest w).
  destruct (Once_fine cfg w0 Hok0 Hf) as (w' & Ho & Hst & Hrows).
  unfold spaced_round. fold w0. rewrite Ho. cbn [snd].
  destruct (st_time _ _ Hst Ht) as [Ht' Hclock].
  pose proof (moves_dispatch cfg w0) as Hm. rewrite Ho in Hm. cbn [snd] in Hm.
  assert (Hpos : 0 < 16 * Minute) by (unfold Minute, Second; lia).
  split.
  - by eapply outbox_reaches.
  - by rewrite (st_faults _ _ Hst).
  - done.
  - assert (Hdom : dom (deliveries w') ⊆ dom (deliveries w)).
    { intros i [d Hd]%elem_of_dom. specialize (Hrows i). change (deliveries w0) with (deliveries w) in Hrows.
      apply elem_of_dom. destruct (deliveries w !! i); [by eexists|congruence]. }
    apply subseteq_size in Hdom. rewrite !size_dom in Hdom. lia.
  - intros i d' Hd'. specialize (Hrows i). change (deliveries w0) with (deliveries w) in Hrows.
    destruct (deliveries w !! i) as [d|] eqn:Hd; [|congruence].
    destruct (Hr i d Hd) as [Hmax Hpend]. destruct (decide (i ∈ _)) as [Hin|Hin].
    + destruct Hrows as (r & now & Hnow & Hrow). rewrite Hd' in Hrow. injection Hrow as ->.
      apply list_elem_of_fmap in Hin as ([j d2] & Hj & Hin). cbn in Hj. subst j.
      destruct (picked_elem _ _ _ _ _ Hin) as [Hd2 Hdue].
      change (deliveries w0) with (deliveries w) in Hd2. rewrite Hd in Hd2. injection Hd2 as <-.
      unfold due in Hdue. bool_hyps. destruct (Hpend ltac:(done)) as (Hlt & _ & Hk).
      destruct (outcome_row r now (attempted d)) as ([_ Hch] & Ha & Hout). rewrite Ha. cbn [attempted Attempts] in *.
      split; [lia|]. intros Hp. destruct (Hout Hp). split_and!; [done| |].
      * specialize (Hnow Ht). lia.
      * intros Hopen. enough (open_channel w d) by (specialize (Hk ltac:(done)); lia).
        unfold open_channel in *. rewrite (st_enabled _ _ Hst) in Hopen. cbn in Hch. by rewrite <- Hch.
    + rewrite Hd' in Hrows. injection Hrows as ->. split; [done|]. intros Hp.
      destruct (Hpend Hp) as (? & ? & Hk). split_and!; [done|cbn in *; lia|].
      intros Hopen. exfalso. apply Hin. apply (picked_all w0 _ i d); [done..|].
      unfold due. rewrite Hp. unfold open_channel in Hopen. rewrite (st_enabled _ _ Hst) in Hopen.
      change (channels w0) with (channels w) in *. change (clock w0) with (clock w + 16 * Minute).
      destruct (channels w !! ChannelID d) as [c|]; [|done]. injection Hopen as ->.
      apply andb_true_iff. split; [|done]. apply Z.leb_le. lia.
Qed.
End draining.

(** C37: the queue drains. When nothing fails and the queue fits one batch, as many rounds as a
    delivery may be attempted, spaced by the longest pause between attempts, settle every
    delivery to an enabled channel, whatever the senders answer; and no delivery is ever
    attempted more often than that. *)
Theorem queue_drains cfg (w : World) (Hd : draining cfg 0 w) (Hmax : 0 < maxAttempts cfg) :
  let w' := Nat.iter (Z.to_nat (maxAttempts cfg)) (spaced_round cfg) w in
  forall i d, deliveries w' !! i = Some d ->
    Attempts d <= maxAttempts cfg /\ (open_channel w' d -> d_Status d <> Pending).
Proof.
  assert (Hk : forall k, draining cfg (Z.of_nat k) (Nat.iter k (spaced_round cfg) w)).
  { induction k as [|k IH]; [done|]. rewrite Nat2Z.inj_succ. by apply draining_round. }
  intros w' i d Hl. destruct (dr_rows _ _ _ (Hk (Z.to_nat (maxAttempts cfg))) i d Hl) as [Ha Hp].
  split; [done|]. intros Ho Hpend. destruct (Hp Hpend) as (Hlt & _ & Hge). specialize (Hge Ho). lia.
Qed.

(** ** Examples *)
Module Outbox.
Definition ids : list string :=
  ["ops"; "e1"; "d1"; "e2"; "d2"; "e3"; "d3"]%string.

Definition nothing (answers : list (SendResult * Z)) : World := {|
  channels := ∅; events := ∅; deliveries := ∅; wire := []; senders := answers; clock := Hour;
  uuids := ids; faults := [] |}.

Lemma nothing_ok answers : outbox_ok (nothing answers).
Proof. split; try done. split; [apply (bool_decide_unpack _); vm_compute; exact I|done]. Qed.

Definition ops : ChannelParams := {|
  n_Name := "ops"; n_MinSeverity := NotifyWarning; n_Kinds := []; n_Enabled := true |}.
Definition with_channel (answers : list (SendResult * Z)) : World :=
  snd (CreateChannel "s" ops (nothing answers)).

Lemma with_channel_ok answers : outbox_ok (with_channel answers).
Proof. apply CreateChannel_ok, nothing_ok. Qed.

Definition full : Event := event "monitoring" EventAlertOpened NotifyCritical "disk full" "" "/monitoring" "alert.opened:a1".
Definition raised (answers : list (SendResult * Z)) : World := snd (Emit "s" full (with_channel answers)).

Definition no_answer : SendResult := Refused false "no route to host".

Lemma outbox_stays_in_order_witness :
  outbox_ok (nothing []) /\ outbox_ok (with_channel []).
Proof.
  split; [exact (nothing_ok [])|].
  exact (proj1 (outbox_stays_in_order (nothing []) (with_channel []) _ (nothing_ok [])
    (run_cons _ _ _ _ _ _ (step_create "s" ops (nothing [])) (run_nil _ (with_channel []))))).
Defined.

Lemma Emit_spec_witness :
  exists id cids, events (raised []) = <[id := stored "s" Hour full]> ∅ /\ NoDup cids /\
    (forall cid, cid ∈ cids -> exists i, deliveries (raised []) !! i = Some (queued Hour id cid)) /\
    "ops"%string ∈ cids.
Proof.
  assert (Hnew : forall i f, events (with_channel []) !! i = Some f -> same_event "s" (Key full) f = false)
    by (intros i f Hi; discriminate).
  assert (Hu : (size (channels (with_channel [])) < length (uuids (with_channel [])))%nat)
    by (vm_compute; lia).
  destruct (proj2 (Emit_spec "s" full (with_channel []) (with_channel_ok []) eq_refl eq_refl eq_refl Hu) Hnew)
    as (id & cids & _ & Hev & (_ & _ & Ha) & Hnd & _ & Hc).
  exists id, cids. split; [exact Hev|]. split; [exact Hnd|]. split; [exact Ha|].
  apply Hc. eexists. split; [vm_compute; reflexivity|]. split; reflexivity.
Defined.

(** Three refusals, then delivered; an attempt takes a second. *)
Definition bad_hour : World :=
  raised [(no_answer, Second); (no_answer, Second); (no_answer, Second); (Delivered, Second)].

Lemma bad_hour_rows : deliveries bad_hour = {[ "d1"%string := queued Hour "e1" "ops" ]}.
Proof. vm_compute. reflexivity. Qed.

Lemma queue_drains_witness :
  let w' := Nat.iter 4 (spaced_round DefaultDispatcher) bad_hour in
  (d_Status <$> deliveries w' !! "d1"%string) = Some Sent /\
  forall i d, deliveries w' !! i = Some d ->
    Attempts d <= 4 /\ (open_channel w' d -> d_Status d <> Pending).
Proof.
  intros w'. split; [vm_compute; reflexivity|].
  refine (queue_drains DefaultDispatcher bad_hour _ eq_refl). split.
  - refine (outbox_reaches _ _ (with_channel_ok _) (moves_Emit "s" full _)).
  - reflexivity.
  - apply (bool_decide_unpack _). vm_compute. exact I.
  - vm_compute. lia.
  - intros i d Hl. rewrite bad_hour_rows in Hl. apply lookup_singleton_Some in Hl as [_ <-].
    split; [vm_compute; discriminate|]. intros _. split_and!; vm_compute; try discriminate; reflexivity.
Defined.

(** ** What is not as the comments say *)

(** A claim moves neither the status nor the time of the next attempt, so a second process that
    asks before the first has recorded an answer is given the same deliveries: both send. *)
Lemma two_processes_send_twice :
  let '(first, w1) := ClaimDue Hour 20 (raised []) in
  let '(second, w2) := ClaimDue Hour 20 w1 in
  (i_ID <$> default [] (match first with Ok l => Some l | _ => None end)) = ["d1"%string] /\
  (i_ID <$> default [] (match second with Ok l => Some l | _ => None end)) = ["d1"%string].
Proof. vm_compute. split; reflexivity. Qed.

(** The attempt counter bounds failures only. When the record of a success is lost each time,
    the delivery stays pending and is sent again in every round, past the limit of four. *)
Definition unrecorded : World :=
  let answers := repeat (Delivered, Second) 6 in
  set_chance ["e2"; "d2"]%string (concat (repeat [Fine; NotSent; Fine] 6)) (raised answers).

Lemma delivered_again_and_again :
  let w' := Nat.iter 6 (spaced_round DefaultDispatcher) unrecorded in
  length (wire w') = 6%nat /\ (Attempts <$> deliveries w' !! "d1"%string) = Some 6 /\
  (d_Status <$> deliveries w' !! "d1"%string) = Some Pending.
Proof. vm_compute. split_and!; reflexivity. Qed.
End Outbox.
