(* ===== verification/AlertNotices.v ===== *)
(** * The monitor wired to the notifications

    The panel gives the monitor the notification service as its notifier. Here the outbox of
    [Notifications] is the notifier of [Monitoring], and a round of the monitor is followed
    through to the events and deliveries it leaves: every alert it opens, sees again or
    resolves is announced, and announced once. *)

From S2P Require Import Prelude Store GoStr GoTime GoFloat Notifications Metrics AlertRules Monitoring AlertRound.

#[local] Open Scope Z_scope.
#[local] Open Scope store_scope.

Local Abbreviation outbox := Notifications.World.

(** ** Keys *)

Lemma str_forall_map p f s : (forall a, p (f a) = true) -> str_forall p (str_map f s) = true.
Proof. intros Hf. induction s as [|a s IH]; [done|]. cbn. by rewrite Hf, IH. Qed.

Lemma str_forall_substring p m s : str_forall p s = true -> str_forall p (String.substring 0 m s) = true.
Proof.
  revert s. induction m as [|m IH]; intros [|a s]; try done. cbn. intros [-> Hs]%andb_true_iff.
  by apply IH.
Qed.

Lemma length_substring m s : (String.length (String.substring 0 m s) <= m)%nat.
Proof. revert s. induction m as [|m IH]; intros [|a s]; cbn; [lia..|]. specialize (IH s). lia. Qed.

Lemma trim_left_set_sub cs s :
  (forall p, str_forall p s = true -> str_forall p (trim_left_set cs s) = true) /\
  (String.length (trim_left_set cs s) <= String.length s)%nat.
Proof.
  induction s as [|a s [IH1 IH2]]; [done|]. cbn. destruct (contains_char a cs); [|by auto].
  split; [|lia]. intros p [_ Hs]%andb_true_iff. by apply IH1.
Qed.

Lemma trim_right_set_sub cs s :
  (forall p, str_forall p s = true -> str_forall p (trim_right_set cs s) = true) /\
  (String.length (trim_right_set cs s) <= String.length s)%nat.
Proof.
  induction s as [|a s [IH1 IH2]]; [done|]. cbn. destruct (_ && str_forall _ s); [by cbn; split; [|lia]|].
  cbn. split; [|lia]. intros p [-> Hs]%andb_true_iff. by apply IH1.
Qed.

Lemma trim_set_sub cs s :
  (forall p, str_forall p s = true -> str_forall p (trim_set cs s) = true) /\
  (String.length (trim_set cs s) <= String.length s)%nat.
Proof.
  unfold trim_set. destruct (trim_left_set_sub cs s) as [Hl1 Hl2].
  destruct (trim_right_set_sub cs (trim_left_set cs s)) as [Hr1 Hr2]. split; [by auto|lia].
Qed.

Lemma safe_char_key a : key_char (safe_char a) = true.
Proof. by destruct a as [[] [] [] [] [] [] [] []]. Qed.

(** Whatever it is given, [safeKey] answers a short text that may stand in a key. *)
Lemma safeKey_fits v : str_forall key_char (safeKey v) = true /\ (String.length (safeKey v) <= 150)%nat.
Proof.
  unfold safeKey. cbv zeta. set (t := str_map _ _).
  assert (Ht : str_forall key_char t = true) by apply str_forall_map, safe_char_key.
  destruct (trim_set_sub "-" t) as [H1 _].
  destruct (_ =? _)%string; [by split; [|cbn; lia]|].
  destruct (Nat.ltb_spec 150 (String.length (trim_set "-" t))) as [Hlt|Hle]; [|by auto].
  destruct (trim_set_sub "-" (String.substring 0 150 (trim_set "-" t))) as [H2 H3]. split.
  - by apply H2, str_forall_substring, H1.
  - pose proof (length_substring 150 (trim_set "-" t)). lia.
Qed.

(** So every key the panel builds is one that [Emit] takes. *)
Lemma built_key_ok prefix v :
  str_forall key_char prefix = true -> prefix <> ""%string -> (String.length prefix <= 50)%nat ->
  is_ok (DedupeKey (prefix ++ safeKey v)) = true.
Proof.
  intros Hp Hne Hlen. destruct (safeKey_fits v) as [Hk Hl]. unfold DedupeKey, guard.
  replace (prefix ++ safeKey v =? "")%string with false by by destruct prefix.
  rewrite str_forall_app, Hp, Hk. cbn [andb negb].
  destruct (Nat.ltb_spec MaxDedupeKeyLength (String.length (prefix ++ safeKey v))) as [Hgt|]; [|done].
  rewrite length_app_str in Hgt. unfold MaxDedupeKeyLength in Hgt. lia.
Qed.

(** An identifier as the database makes them: lower-case hexadecimal digits and dashes, none
    of them at an end. *)
Definition uuid_char (a : ascii) : bool := in_range "a" "f" a || is_digit a || Ascii.eqb a "-".
Definition is_uuid (id : string) : bool :=
  str_forall uuid_char id && negb (id =? "")%string && (String.length id <=? 150)%nat &&
  (trim_set "-" id =? id)%string.

Lemma uuid_char_same a : uuid_char a = true -> safe_char (lower_char a) = a.
Proof. by destruct a as [[] [] [] [] [] [] [] []]. Qed.

(** Keys of different alerts differ: an identifier stands in its key as it is. *)
Lemma safeKey_uuid id : is_uuid id = true -> safeKey id = id.
Proof.
  unfold is_uuid. intros [[[Hc Hne]%andb_true_iff Hlen]%andb_true_iff Ht]%andb_true_iff.
  apply Nat.leb_le in Hlen. apply String.eqb_eq in Ht. apply negb_true_iff in Hne.
  assert (Hsame : str_map safe_char (to_lower id) = id).
  { clear -Hc. unfold to_lower. induction id as [|a s IH]; [done|]. cbn in Hc. bool_hyps. cbn.
    rewrite uuid_char_same by done. by rewrite IH. }
  unfold safeKey. cbv zeta. rewrite Hsame, Ht, Hne.
  by destruct (Nat.ltb_spec 150 (String.length id)); [lia|].
Qed.

(** ** What raising an event does to the outbox *)

(** The outbox may gain rows and use identifiers; its channels stay. *)
Record shrinks (n n' : outbox) : Prop := {
  sh_channels : channels n' = channels n;
  sh_uuids : (length (Notifications.uuids n') <= length (Notifications.uuids n))%nat;
  sh_faults : Notifications.faults n = [] -> Notifications.faults n' = [];
}.

Lemma shrinks_refl n : shrinks n n.
Proof. by split. Qed.
Lemma shrinks_trans u v w : shrinks u v -> shrinks v w -> shrinks u w.
Proof. intros [] []. split; [congruence|lia|auto]. Qed.

Lemma shrinks_call {A} (f : outbox -> result ntf_err A * outbox) :
  respects shrinks f -> respects shrinks (Store.call Notifications.ErrBackend f).
Proof.
  intros Hf n. unfold call. destruct (faults_of n) as [|x fs] eqn:E; [apply Hf|].
  assert (Hne : Notifications.faults n <> []) by (cbn in E; congruence).
  destruct (Hf (with_faults fs n)) as [Hc Hu _].
  destruct x; (split; [done|done|by intros]).
Qed.

Lemma shrinks_query {A} (f : outbox -> result ntf_err A) :
  respects shrinks (Store.query Notifications.ErrBackend f).
Proof. apply shrinks_call. intros n. apply shrinks_refl. Qed.

Lemma QueueDelivery_shrinks ev ch : respects shrinks (QueueDelivery ev ch).
Proof.
  apply shrinks_call. intros n. repeat case_match; try apply shrinks_refl. split; [done| |done].
  cbn. match goal with H : Notifications.uuids n = _ |- _ => rewrite H end. cbn. lia.
Qed.

Lemma RecordEvent_shrinks e : respects shrinks (RecordEvent e).
Proof.
  apply shrinks_call. intros n. repeat case_match; try apply shrinks_refl. split; [done| |done].
  cbn. match goal with H : Notifications.uuids n = _ |- _ => rewrite H end. cbn. lia.
Qed.

Lemma queue_all_shrinks id e cs : respects shrinks (queue_all id e cs).
Proof.
  induction cs as [|[cid c] cs IH]; cbn [queue_all]; [intros n; apply shrinks_refl|].
  destruct (wants c e); [|done].
  apply respects_bind; [apply shrinks_trans|apply respects_attempt, QueueDelivery_shrinks|done].
Qed.

Lemma Emit_shrinks srv e : respects shrinks (Emit srv e).
Proof.
  unfold Emit. cbv zeta. destruct (DedupeKey _); [destruct (NotifySeverity _)|]; try (intros n; apply shrinks_refl).
  apply respects_bind; [apply shrinks_trans|apply respects_attempt, RecordEvent_shrinks|].
  intros [[id s]|]; [|intros n; apply shrinks_refl].
  apply respects_bind; [apply shrinks_trans|apply respects_attempt, shrinks_query|].
  intros [cs|]; [apply queue_all_shrinks|intros n; apply shrinks_refl].
Qed.

Section told.
Variable srv : string.

(** What the outbox gained: events of the host, each with a delivery to every channel of the
    host that wants it, waiting for its first attempt; nothing else changed and nothing left. *)
Record news (n n' : outbox) : Prop := {
  nw_ok : outbox_ok n';
  nw_wire : wire n' = wire n;
  nw_events : events n ⊆ events n';
  nw_deliveries : deliveries n ⊆ deliveries n';
  nw_new : forall i e, events n' !! i = Some e -> events n !! i = None ->
    e_ServerID e = srv /\
    forall cid c, channels n !! cid = Some c -> c_ServerID c = srv -> wants c e = true ->
      exists j t, deliveries n' !! j = Some (queued t i cid);
}.

Lemma news_refl n : outbox_ok n -> news n n.
Proof. intros Hok. split; try done. congruence. Qed.

Lemma news_trans u v w : shrinks u v -> news u v -> news v w -> news u w.
Proof.
  intros [Hc _ _] [Hok1 Hw1 He1 Hd1 Hn1] [Hok2 Hw2 He2 Hd2 Hn2].
  split; [done|congruence|by transitivity (events v)|by transitivity (deliveries v)|].
  intros i e Hi Hu. destruct (events v !! i) as [f|] eqn:Ev.
  - assert (f = e) as ->.
    { apply (lookup_weaken _ _ _ _ Ev) in He2. congruence. }
    destruct (Hn1 i e Ev Hu) as [Hs Hq]. split; [done|]. intros cid c Hl Hcs Hwt.
    destruct (Hq cid c Hl Hcs Hwt) as (j & t & Hj). exists j, t. by eapply lookup_weaken.
  - destruct (Hn2 i e Hi Ev) as [Hs Hq]. split; [done|]. rewrite <- Hc. exact Hq.
Qed.

(** Event [key] of the host is in the outbox. *)
Definition announced (n : outbox) (key : string) : Prop :=
  exists i e, events n !! i = Some e /\ same_event srv key e = true.

Lemma announced_news n n' key : news n n' -> announced n key -> announced n' key.
Proof. intros Hn (i & e & Hi & Hs). exists i, e. split; [|done]. by eapply lookup_weaken, nw_events. Qed.

Lemma Emit_told (e : Event) n :
  outbox_ok n -> Notifications.faults n = [] -> is_ok (DedupeKey (Notifications.Key e)) = true ->
  is_ok (NotifySeverity (Notifications.Severity e)) = true ->
  (size (channels n) < length (Notifications.uuids n))%nat ->
  let n' := snd (Emit srv e n) in
  news n n' /\ announced n' (Notifications.Key e) /\
  forall i f, events n' !! i = Some f -> events n !! i = None -> Notifications.Key f = Notifications.Key e.
Proof.
  intros Hok Hf Hk Hs Hu n'.
  assert (Hok' : outbox_ok n') by by eapply outbox_reaches, moves_Emit.
  destruct (map_find (same_event srv (Notifications.Key e)) (events n)) as [[i f]|] eqn:E.
  - apply map_find_some in E as [Hl Hse]. unfold n'. rewrite (Emit_known srv e n i f) by done.
    split; [by apply news_refl|]. split; [by exists i, f|]. congruence.
  - assert (Hnew : forall i f, events n !! i = Some f -> same_event srv (Notifications.Key e) f = false).
    { intros i f Hl. by eapply map_find_none. }
    destruct (Emit_new srv e n Hok Hf Hk Hs Hnew Hu)
      as (id & w2 & He & Hid & Hev & Hc & Hw & cids & (Ha1 & Ha2 & Ha3) & Hnd & Hcids).
    unfold n' in *. rewrite He in *. cbn [snd] in *.
    assert (Hone : forall i f, events w2 !! i = Some f -> events n !! i = None ->
              i = id /\ f = stored srv (Notifications.clock n) e).
    { intros i f Hi Hno. rewrite Hev in Hi. destruct (decide (id = i)) as [<-|Hne].
      - rewrite lookup_insert_eq in Hi. by injection Hi as <-.
      - rewrite lookup_insert_ne in Hi by done. congruence. }
    split; [split|]; [done|done| | | |split].
    + rewrite Hev. by apply insert_subseteq.
    + apply map_subseteq_spec. exact Ha1.
    + intros i f Hi Hno. destruct (Hone i f Hi Hno) as [-> ->]. split; [done|].
      intros cid c Hl Hcs Hwt. destruct (Ha3 cid) as [j Hj]; [apply Hcids; by exists c|].
      by exists j, (Notifications.clock n).
    + exists id, (stored srv (Notifications.clock n) e). split; [by rewrite Hev, lookup_insert_eq|].
      unfold same_event, stored. cbn. by rewrite !String.eqb_refl.
    + intros i f Hi Hno. by destruct (Hone i f Hi Hno) as [_ ->].
Qed.

Lemma AlertSeverity_graded s : is_ok (NotifySeverity (mapAlertSeverity s)) = true.
Proof. unfold mapAlertSeverity. cbv zeta. by repeat case_match. Qed.
End told.

(** ** The monitor's notifier *)

(** The service's [AlertOpened] and [AlertResolved], as the monitor calls them. *)
Definition outbox_notifier (srv : string) : Notifier outbox := {|
  Monitoring.AlertOpened id severity message target n :=
    snd (Notifications.AlertOpened srv id severity message target n);
  Monitoring.AlertResolved id severity message target openFor n :=
    snd (Notifications.AlertResolved srv id severity message target openFor n);
|}.

Definition opened_key (id : string) : string := "alert.opened:" ++ safeKey id.
Definition resolved_key (id : string) : string := "alert.resolved:" ++ safeKey id.

#[local] Instance Alert_eq_dec : EqDecision Alert.
Proof. solve_decision. Defined.

Section round.
Context {S : Type} `{Numeric} `{Collation} `{MetricSource S}.
Variables (srv : string) (now : Z).
#[local] Instance the_outbox : Notifier outbox := outbox_notifier srv.
Local Abbreviation world := (World S outbox).
Local Abbreviation M := (Store.M world mon_err).

(** The news that an alert with this row is due. *)
Definition news_of (id : string) (a : Alert) : string := if is_open a then opened_key id else resolved_key id.

(** Every row a program wrote is announced, in a world whose outbox works and had identifiers
    enough; and nothing else is. *)
Record reported (w w' : world) : Prop := {
  rp_news : news srv (notifier w) (notifier w');
  rp_rows : forall id a, alerts w !! id = Some a ->
    exists b, alerts w' !! id = Some b /\ (b = a \/ LastSeenAt b = now);
  rp_told : forall id a, alerts w' !! id = Some a -> alerts w !! id <> Some a ->
    LastSeenAt a = now /\ announced srv (notifier w') (news_of id a);
  rp_only : forall i e, events (notifier w') !! i = Some e -> events (notifier w) !! i = None ->
    exists id a, alerts w' !! id = Some a /\ LastSeenAt a = now /\
      (Notifications.Key e = opened_key id \/ Notifications.Key e = resolved_key id);
}.

Definition told (w w' : world) : Prop :=
  faults w = [] ->
  faults w' = [] /\ shrinks (notifier w) (notifier w') /\
  (outbox_ok (notifier w) -> Notifications.faults (notifier w) = [] ->
   (size (channels (notifier w')) < length (Notifications.uuids (notifier w')))%nat -> reported w w').

Lemma reported_rest (w w' : world) :
  alerts w' = alerts w -> notifier w' = notifier w -> outbox_ok (notifier w) -> reported w w'.
Proof.
  intros Ha Hn Hok. split; rewrite ?Ha, ?Hn; [by apply news_refl|eauto|congruence|congruence].
Qed.

Lemma told_rest (w w' : world) :
  alerts w' = alerts w -> notifier w' = notifier w -> (faults w = [] -> faults w' = []) -> told w w'.
Proof.
  intros Ha Hn Hf Hw. split; [by apply Hf|]. split; [rewrite Hn; apply shrinks_refl|].
  intros Hok _ _. by apply reported_rest.
Qed.

Lemma told_refl w : told w w.
Proof. by apply told_rest. Qed.

Lemma reported_trans (u v w : world) :
  shrinks (notifier u) (notifier v) -> reported u v -> reported v w -> reported u w.
Proof.
  intros Hsh [Hn1 Hr1 Ht1 Ho1] [Hn2 Hr2 Ht2 Ho2]. split.
  - by eapply news_trans.
  - intros id a Ha. destruct (Hr1 id a Ha) as (b & Hb & Hba). destruct (Hr2 id b Hb) as (c & Hc & Hcb).
    exists c. split; [done|]. destruct Hcb as [->|?]; auto.
  - intros id a Ha Hno. destruct (decide (alerts v !! id = Some a)) as [Hv|Hv].
    + destruct (Ht1 id a Hv Hno) as [? Han]. split; [done|]. by eapply announced_news.
    + by apply Ht2.
  - intros i e Hi Hno. destruct (events (notifier v) !! i) as [f|] eqn:Ev; [|by eauto].
    pose proof (lookup_weaken _ _ _ _ Ev (nw_events _ _ _ Hn2)) as Hfe.
    assert (f = e) as -> by congruence.
    destruct (Ho1 i e Ev Hno) as (id & a & Ha & Hseen & Hkey).
    destruct (Hr2 id a Ha) as (b & Hb & Hba). exists id, b. split_and!; [done| |done].
    by destruct Hba as [->|?].
Qed.

Lemma told_trans u v w : told u v -> told v w -> told u w.
Proof.
  intros Huv Hvw Hf. destruct (Huv Hf) as (Hf1 & Hs1 & Hr1). destruct (Hvw Hf1) as (Hf2 & Hs2 & Hr2).
  split; [done|]. split; [by eapply shrinks_trans|]. intros Hok Hnf Hu.
  pose proof Hs1 as [Hc1 Hu1 Hn1]. destruct Hs2 as [Hc2 Hu2 _].
  assert (Hruv : reported u v) by (apply Hr1; [done..|rewrite <- Hc2; lia]).
  eapply reported_trans; [done|done|]. apply Hr2; [apply Hruv|by auto|done].
Qed.

(** A statement that writes the row of one alert, and the news of it. *)
Lemma told_written (w w1 : world) id a (e : Event) :
  notifier w1 = notifier w -> (faults w = [] -> faults w1 = []) ->
  (forall i, alerts w1 !! i = alerts w !! i \/ i = id) -> alerts w1 !! id = Some a -> LastSeenAt a = now ->
  Notifications.Key e = news_of id a -> is_ok (NotifySeverity (Notifications.Severity e)) = true ->
  told w (set_notifier (snd (Emit srv e (notifier w1))) w1).
Proof.
  intros Hn Hf Hrows Ha Hseen Hkey Hsev Hw. cbn. rewrite Hn.
  pose proof (Emit_shrinks srv e (notifier w)) as Hsh. split; [by apply Hf|]. split; [done|].
  intros Hok Hnf Hu. destruct Hsh as [Hc Hlen _]. rewrite Hc in Hu.
  assert (Hk : is_ok (DedupeKey (Notifications.Key e)) = true).
  { rewrite Hkey. unfold news_of. destruct (is_open a); apply built_key_ok; try done; cbn; lia. }
  destruct (Emit_told srv e (notifier w) Hok Hnf Hk Hsev ltac:(lia)) as (Hnews & Han & Honly).
  split; cbn.
  - done.
  - intros i b Hi. destruct (Hrows i) as [E| ->]; [exists b; split; [congruence|by left]|].
    exists a. split; [done|by right].
  - intros i b Hi Hno. destruct (Hrows i) as [E| ->]; [congruence|].
    assert (b = a) as -> by congruence. split; [done|]. by rewrite <- Hkey.
  - intros i f Hi Hno. exists id, a. split_and!; [done..|].
    rewrite (Honly i f Hi Hno), Hkey. unfold news_of. destruct (is_open a); auto.
Qed.

Lemma rows_insert (w : world) id a i : (<[id := a]> (alerts w)) !! i = alerts w !! i \/ i = id.
Proof. destruct (decide (id = i)) as [->|]; [by right|left]. by rewrite lookup_insert_ne. Qed.

Lemma told_open rule r : respects told (open srv rule r now : M unit).
Proof.
  intros w Hf. unfold open, bind, attempt, OpenAlert. rewrite call_fine by done.
  destruct (to_nullable 12 (p_Threshold _)) as [t|]; [|by apply told_refl].
  destruct (to_nullable 12 (p_Value _)) as [v|]; [|by apply told_refl].
  destruct (rule_exists w _); [|by apply told_refl].
  destruct (map_find _ (alerts w)) as [[id a]|] eqn:E; [|destruct (uuids w) as [|id us]; [by apply told_refl|]].
  - apply map_find_some in E as [_ Hsame]. unfold same_alert in Hsame. bool_hyps.
    revert Hf. apply (told_written _ _ id (seen_again (open_params srv rule r now) v a)).
    + done.
    + done.
    + apply rows_insert.
    + apply lookup_insert_eq.
    + done.
    + unfold news_of. by replace (is_open _) with true.
    + apply AlertSeverity_graded.
  - revert Hf. apply (told_written _ _ id (new_alert (open_params srv rule r now) t v)).
    + done.
    + done.
    + apply rows_insert.
    + apply lookup_insert_eq.
    + done.
    + done.
    + apply AlertSeverity_graded.
Qed.

Lemma told_resolve rule tgt : respects told (resolve srv rule tgt now : M unit).
Proof.
  intros w Hf. unfold resolve, bind, attempt, ResolveAlert. rewrite call_fine by done.
  destruct (map_find _ (alerts w)) as [[id a]|]; [|by apply told_refl].
  revert Hf. apply (told_written _ _ id (resolved now now a)).
  - done.
  - done.
  - apply rows_insert.
  - apply lookup_insert_eq.
  - done.
  - done.
  - done.
Qed.

Lemma told_withDuration rule r : respects told (withDuration srv rule r now : M Reading).
Proof.
  intros w. unfold withDuration. destruct (_ || _ || _); [by apply told_rest|].
  destruct (metrics w) as [h|]; [|by apply told_rest]. destruct (negb _); [by apply told_rest|].
  destruct (breached_since _ _ _ _ _ h) as [x h']. by apply told_rest.
Qed.

Lemma told_judge rule r : respects told (judge srv rule r now : M unit).
Proof.
  apply respects_bind; [apply told_trans|apply told_withDuration|]. intros r'. cbv zeta.
  destruct (Sustained _); [apply told_open|]. destruct (Breached _); [intros w; apply told_refl|].
  destruct (Available r'); [apply told_resolve|intros w; apply told_refl].
Qed.

Lemma told_judge_all rule l : respects told (judge_all srv rule l now : M bool).
Proof.
  induction l as [|r l IH]; cbn [judge_all]; [intros w; apply told_refl|].
  destruct (interested rule r); [|done].
  apply respects_bind; [apply told_trans|apply told_judge|]. intros _.
  apply respects_bind; [apply told_trans|done|]. intros _ w. apply told_refl.
Qed.

Lemma told_apply_rules rs l : respects told (apply_rules srv rs l now : M unit).
Proof.
  induction rs as [|rule rs IH]; cbn [apply_rules]; [intros w; apply told_refl|].
  apply respects_bind; [apply told_trans| |done]. destruct (AlertRules.Enabled rule); [|apply told_resolve].
  apply respects_bind; [apply told_trans|apply told_judge_all|]. intros matched.
  destruct (negb matched && _); [apply told_resolve|intros w; apply told_refl].
Qed.

Lemma told_call {A} (f : world -> result mon_err A * world) :
  respects told f -> respects told (Store.call ErrBackend f).
Proof. intros Hf w Hw. rewrite call_fine by done. by apply Hf. Qed.

Lemma told_serviceReadings l : respects told (serviceReadings srv l now : M (list Reading)).
Proof.
  induction l as [|s l IH]; cbn [serviceReadings]; [intros w; apply told_refl|]. cbv zeta.
  apply respects_bind; [apply told_trans| |].
  - apply respects_attempt, told_call. intros w. repeat case_match; by apply told_rest.
  - intros recorded. apply respects_bind; [apply told_trans|done|].
    intros rest. repeat case_match; intros w; apply told_refl.
Qed.

Lemma told_takeReadings p : respects told (takeReadings srv p now : M (list Reading)).
Proof.
  unfold takeReadings. destruct (p_services p) as [l|]; [|intros w; apply told_refl].
  apply respects_bind; [apply told_trans|apply told_serviceReadings|]. intros rs w. apply told_refl.
Qed.

Lemma told_Once p : respects told (Once srv p now : M unit).
Proof.
  apply respects_bind; [apply told_trans| |].
  - apply respects_attempt, told_call. intros w. apply told_refl.
  - intros [rs|]; [|intros w; apply told_refl].
    apply respects_bind; [apply told_trans|apply told_takeReadings|]. intros l. apply told_apply_rules.
Qed.
End round.

(** C32: whatever a round changes is announced, once. When its statements and the outbox's
    succeed, for every alert whose row the round wrote, whether it opened it, saw it again or
    resolved it, the outbox holds exactly one event of the host under that alert's key, and if
    the round raised it, every channel of the host that wants it has its delivery waiting; an
    alert seen again however often adds nothing more, no event is about anything but an alert
    the round wrote, and nothing is sent yet. *)
Theorem every_alert_is_announced_once {S} `{Numeric} `{Collation} `{MetricSource S} srv now p
  (w w' : World S outbox) u
  (Hf : faults w = []) (Hok : outbox_ok (notifier w)) (Hn : Notifications.faults (notifier w) = [])
  (Hr : @Once S outbox _ _ _ (outbox_notifier srv) srv p now w = (u, w'))
  (Hids : (size (channels (notifier w')) < length (Notifications.uuids (notifier w')))%nat) :
  (forall id a, alerts w' !! id = Some a -> alerts w !! id <> Some a ->
     exists i e, events (notifier w') !! i = Some e /\ e_ServerID e = srv /\
       Notifications.Key e = ((if is_open a then "alert.opened:" else "alert.resolved:") ++ safeKey id)%string /\
       (forall j f, events (notifier w') !! j = Some f -> e_ServerID f = srv ->
          Notifications.Key f = Notifications.Key e -> j = i) /\
       (events (notifier w) !! i = None -> forall cid c, channels (notifier w) !! cid = Some c ->
          c_ServerID c = srv -> wants c e = true ->
          exists j t, deliveries (notifier w') !! j = Some (queued t i cid))) /\
  (forall i e, events (notifier w) !! i = Some e -> events (notifier w') !! i = Some e) /\
  (forall i e, events (notifier w') !! i = Some e -> events (notifier w) !! i = None ->
     exists id a, alerts w' !! id = Some a /\ LastSeenAt a = now /\
       (Notifications.Key e = ("alert.opened:" ++ safeKey id)%string \/
        Notifications.Key e = ("alert.resolved:" ++ safeKey id)%string)) /\
  wire (notifier w') = wire (notifier w).
Proof.
  pose proof (told_Once srv now p w Hf) as Ht. unfold the_outbox in Ht. rewrite Hr in Ht. cbn [snd] in Ht.
  destruct Ht as (_ & _ & Ht). destruct (Ht Hok Hn Hids) as [Hnews _ Htold Honly].
  split_and!; [|intros i e Hi; by eapply lookup_weaken, nw_events|exact Honly|apply Hnews].
  intros id a Ha Hno. destruct (Htold id a Ha Hno) as (_ & i & e & Hi & Hse).
  unfold same_event in Hse. bool_hyps.
  match goal with H : e_ServerID e = srv |- _ => rename H into Hsrv end.
  match goal with H : Notifications.Key e = _ |- _ => rename H into Hkey end.
  exists i, e. split_and!; [done|done|by rewrite Hkey; unfold news_of; destruct (is_open a)| |].
  - intros j f Hj Hfs Hfk. eapply (ok_key _ (nw_ok _ _ _ Hnews)); [done|done|congruence|done].
  - intros Hnew. exact (proj2 (nw_new _ _ _ Hnews i e Hi Hnew)).
Qed.

(** A resolution is raised as an information, so a channel with the default floor never wants it. *)
Lemma resolutions_stay_below_the_default_floor (c : Channel) srv id severity message target openFor n i e :
  MinSeverity c = NotifyWarning ->
  events (snd (Notifications.AlertResolved srv id severity message target openFor n)) !! i = Some e ->
  events n !! i = None -> outbox_ok n -> Notifications.faults n = [] ->
  (size (channels n) < length (Notifications.uuids n))%nat -> wants c e = false.
Proof.
  intros Hm Hi Hno Hok Hf Hu. unfold Notifications.AlertResolved in Hi. cbv zeta in Hi.
  set (ev := event _ _ _ _ _ _ _) in Hi.
  assert (Hk : is_ok (DedupeKey (Notifications.Key ev)) = true) by (apply built_key_ok; [done|done|cbn; lia]).
  destruct (map_find (same_event srv (Notifications.Key ev)) (events n)) as [[j f]|] eqn:E.
  - apply map_find_some in E as [Hl Hs]. rewrite (Emit_known srv ev n j f) in Hi by done. congruence.
  - destruct (Emit_new srv ev n Hok Hf Hk eq_refl (fun j f Hl => map_find_none _ _ _ _ E Hl) Hu)
      as (id' & w2 & He & _ & Hev & _). rewrite He in Hi. cbn [snd] in Hi. rewrite Hev in Hi.
    apply lookup_insert_Some in Hi as [[_ <-]|[_ Hi]]; [|congruence].
    unfold wants. rewrite Hm. by destruct (Notifications.Enabled c).
Qed.

(** ** A full disk, seen twice, then emptied *)
Module Notices.
#[local] Existing Instances toy_numeric Rounds.insertion_order.
#[local] Instance wired : Notifier outbox := outbox_notifier "s".

Local Abbreviation world := (World Metrics outbox).

Definition watched : world :=
  snd (CreateRule (Rounds.rule MetricDisk "" 80 0 true)
    {| rules := ∅; alerts := ∅; states := []; metrics := None; notifier := Outbox.with_channel [];
       clock := 0; uuids := ["disk-rule"; "ab-01"; "ab-02"]%string; faults := [] |}).

Definition full_var : Probes := Rounds.disks [("/var", f_int 95, 0)] (f_int 10).
Definition empty_var : Probes := Rounds.disks [("/var", f_int 20, 0)] (f_int 10).
Definition first : world := snd (Once "s" full_var Rounds.t0 watched).
Definition again : world := snd (Once "s" full_var (Rounds.t0 + Minute) first).
Definition cleared : world := snd (Once "s" empty_var (Rounds.t0 + 2 * Minute) again).

(** One event when the disk is full, none when it still is, one when it no longer is. That last
    one is only an information, whatever the alert's severity was, and the channel, whose floor
    is the default one, does not get it: who was woken is never told that it is over. *)
Example three_rounds :
  map (fun w => (size (events (notifier w)), size (deliveries (notifier w)))) [first; again; cleared] =
  [(1, 1); (1, 1); (2, 1)]%nat /\
  (Notifications.Key <$> events (notifier cleared) !! "e2"%string) = Some "alert.resolved:ab-01"%string.
Proof. vm_compute. split; reflexivity. Qed.

Lemma every_alert_is_announced_once_witness :
  exists i e, events (notifier first) !! i = Some e /\
    Notifications.Key e = "alert.opened:ab-01"%string /\
    exists j t, deliveries (notifier first) !! j = Some (queued t i "ops").
Proof.
  destruct (alerts first !! "ab-01"%string) as [a|] eqn:Ea; [|vm_compute in Ea; discriminate].
  assert (Hold : alerts watched !! "ab-01"%string <> Some a) by (vm_compute; discriminate).
  assert (Hu : (size (channels (notifier first)) < length (Notifications.uuids (notifier first)))%nat)
    by (vm_compute; lia).
  assert (Ho : is_open a = true) by (vm_compute in Ea; injection Ea as <-; reflexivity).
  destruct (proj1 (every_alert_is_announced_once "s" Rounds.t0 full_var watched first _ eq_refl
              (Outbox.with_channel_ok []) eq_refl (surjective_pairing _) Hu) "ab-01"%string a Ea Hold)
    as (i & e & Hi & _ & Hk & _ & Hd).
  rewrite Ho in Hk. exists i, e. split; [exact Hi|]. split; [exact Hk|].
  destruct (channels (notifier watched) !! "ops"%string) as [c|] eqn:Ec; [|vm_compute in Ec; discriminate].
  assert (Hn : events (notifier watched) !! i = None) by reflexivity.
  apply (Hd Hn "ops"%string c Ec); vm_compute in Ec; injection Ec as <-; [reflexivity|].
  assert (Hall : forallb (fun x => wants {| c_ServerID := "s"; c_Name := "ops"; Notifications.Enabled := true;
      MinSeverity := NotifyWarning; Kinds := []; LastSuccessAt := None; LastFailureAt := None;
      c_LastError := None; FailureStreak := 0; c_CreatedAt := Hour |} (snd x))
      (map_to_list (events (notifier first))) = true) by (vm_compute; reflexivity).
  apply elem_of_map_to_list in Hi. exact (proj1 (forallb_elem _ _) Hall (i, e) Hi).
Defined.
End Notices.
