(* ===== verification/Seal.v ===== *)
(** * Sealed streams ([shared/seal/seal.go])

    The writer that encrypts a stream chunk by chunk and the reader that opens it
    again. The key derivation and the cipher are parameters; the framing, the
    buffering, the nonces and every error path are the code's. *)

From S2P Require Import Prelude GoStr.

#[local] Open Scope Z_scope.

(** ** Bytes *)
Definition bytes := list ascii.

Definition byte_of (z : Z) : ascii := ascii_of_N (Z.to_N (z mod 256)).
Definition byte_val (c : ascii) : Z := Z.of_N (N_of_ascii c).

(** [binary.BigEndian.PutUint32] and [PutUint64], [Uint32]. *)
Fixpoint put_be (width : nat) (z : Z) : bytes :=
  match width with
  | O => []
  | S width => (put_be width (z / 256) ++ [byte_of z])%list
  end.
Definition get_be (b : bytes) : Z := fold_left (fun acc c => acc * 256 + byte_val c) b 0.

Definition wrap_u64 (z : Z) : Z := z mod 2 ^ 64.

(** ** The format *)
Definition magic : bytes := String.list_ascii_of_string ("JHSEAL1" ++ String "010" "").
Definition KeySize : nat := 32.
Definition saltSize : nat := 32.
Definition headerSize : nat := (length magic + saltSize + 4)%nat.
Definition tagSize : nat := 16.
Definition nonceSize : nat := 12.
Definition DefaultChunkSize : Z := Z.shiftl 1 20.
Definition maxChunkSize : Z := Z.shiftl 16 20.
Definition label := "jothost panel backup v1"%string.
Definition MagicSize : nat := length magic.

Inductive seal_err :=
| ErrKey | ErrFormat | ErrOpen | ErrTruncated | ErrTrailing | ErrClosed
| ErrChunkSize | ErrSalt | ErrDerive | ErrIO.

Definition HasMagic (prefix : bytes) : bool :=
  (MagicSize <=? length prefix)%nat && bool_decide (take MagicSize prefix = magic).

Definition panelBackupLabel := "jothost panel backup master v1"%string.

(** Go's [crypto/hkdf] over SHA-256 and AES-GCM with twelve-byte nonces. *)
Class Crypto := {
  hkdf_key : bytes -> bytes -> string -> nat -> option bytes;
  gcm_seal : bytes -> bytes -> bytes -> bytes -> bytes;
  gcm_open : bytes -> bytes -> bytes -> bytes -> option bytes;
}.

(** What is documented of them: a key of the length asked for, a tag of sixteen bytes,
    and opening as the inverse of sealing. *)
Class CryptoLaws `{Crypto} := {
  hkdf_key_length secret salt info n :
    exists k, hkdf_key secret salt info n = Some k /\ length k = n;
  gcm_seal_length k n p ad : length (gcm_seal k n p ad) = (length p + tagSize)%nat;
  gcm_open_seal k n p ad : gcm_open k n (gcm_seal k n p ad) ad = Some p;
}.

Definition chunkNonce (counter : Z) (final : bool) : bytes :=
  (put_be 8 counter ++ byte_of 0 :: byte_of 0 :: byte_of 0 :: [byte_of (if final then 1 else 0)])%list.

(** Reading 64 hexadecimal characters ([hex.DecodeString]). *)
Definition hex_val (c : ascii) : option Z :=
  let n := byte_val c in
  if (48 <=? n) && (n <=? 57) then Some (n - 48)
  else if (97 <=? n) && (n <=? 102) then Some (n - 87)
  else if (65 <=? n) && (n <=? 70) then Some (n - 55)
  else None.
Fixpoint hex_decode (s : bytes) : option bytes :=
  match s with
  | [] => Some []
  | hi :: lo :: rest =>
      match hex_val hi, hex_val lo, hex_decode rest with
      | Some h, Some l, Some r => Some (byte_of (h * 16 + l) :: r)
      | _, _, _ => None
      end
  | [_] => None
  end.
Definition ParseHexKey (s : string) : result seal_err bytes :=
  match hex_decode (String.list_ascii_of_string s) with
  | Some key => if (length key =? KeySize)%nat then Ok key else Err ErrKey
  | None => Err ErrKey
  end.

Section Seal.
Context `{Crypto}.

Definition PanelBackupKey (encryptionKey : bytes) : result seal_err bytes :=
  guard (negb (length encryptionKey =? KeySize)%nat) ErrKey ;?
  match hkdf_key encryptionKey [] panelBackupLabel KeySize with
  | Some key => Ok key
  | None => Err ErrDerive
  end.

(** The key of a stream; [aes.NewCipher] takes 16, 24 or 32 bytes. *)
Definition streamAEAD (masterKey salt : bytes) : result seal_err bytes :=
  match hkdf_key masterKey salt label KeySize with
  | Some key => if existsb (Nat.eqb (length key)) [16; 24; 32]%nat then Ok key else Err ErrDerive
  | None => Err ErrDerive
  end.

(** ** Writing *)

(** Where the stream goes: [faults] says of each coming write whether it fails, and after
    how many bytes. *)
Record Sink := { written : bytes; faults : list (option nat) }.

Definition sink_write (b : bytes) (s : Sink) : bool * Sink :=
  match faults s with
  | Some k :: fs => (false, {| written := (written s ++ take k b)%list; faults := fs |})
  | None :: fs => (true, {| written := (written s ++ b)%list; faults := fs |})
  | [] => (true, {| written := (written s ++ b)%list; faults := [] |})
  end.

Record writer := {
  out : Sink; w_aead : bytes; w_header : bytes; chunkSize : Z; buf : bytes;
  w_counter : Z; closed : bool; w_err : option seal_err;
}.

(** [random] is what the random source gives for the salt. *)
Definition newWriter (w : Sink) (masterKey : bytes) (chunkSize : Z) (random : option bytes)
  : result seal_err writer * Sink :=
  if negb (length masterKey =? KeySize)%nat then (Err ErrKey, w)
  else if (chunkSize <=? 0) || (maxChunkSize <? chunkSize) then (Err ErrChunkSize, w)
  else match random with
  | None => (Err ErrSalt, w)
  | Some salt =>
      let header := (magic ++ salt ++ put_be 4 chunkSize)%list in
      match streamAEAD masterKey salt with
      | Err e => (Err e, w)
      | Ok aead =>
          let '(ok, w) := sink_write header w in
          if negb ok then (Err ErrIO, w)
          else (Ok {| out := w; w_aead := aead; w_header := header; chunkSize := chunkSize; buf := [];
                      w_counter := 0; closed := false; w_err := None |}, w)
      end
  end.

Definition NewWriter (w : Sink) (masterKey : bytes) (random : option bytes) :=
  newWriter w masterKey DefaultChunkSize random.

Definition set_buf (b : bytes) (s : writer) : writer := {|
  out := out s; w_aead := w_aead s; w_header := w_header s; chunkSize := chunkSize s; buf := b;
  w_counter := w_counter s; closed := closed s; w_err := w_err s |}.

Definition seal (final : bool) (s : writer) : option seal_err * writer :=
  let sealed := gcm_seal (w_aead s) (chunkNonce (w_counter s) final) (buf s) (w_header s) in
  let '(ok, o) := sink_write sealed (out s) in
  if negb ok then
    (Some ErrIO, {| out := o; w_aead := w_aead s; w_header := w_header s; chunkSize := chunkSize s;
                    buf := buf s; w_counter := w_counter s; closed := closed s; w_err := Some ErrIO |})
  else
    (None, {| out := o; w_aead := w_aead s; w_header := w_header s; chunkSize := chunkSize s;
              buf := []; w_counter := wrap_u64 (w_counter s + 1); closed := closed s;
              w_err := w_err s |}).

(** The loop of [Write]; each turn takes at least a byte of [p], whose length is the fuel. *)
Fixpoint write_loop (fuel : nat) (p : bytes) (n : nat) (s : writer)
  : (nat * option seal_err) * writer :=
  match p, fuel with
  | [], _ | _, O => ((n, None), s)
  | _, S fuel =>
      let '(e, s) := if Z.of_nat (length (buf s)) =? chunkSize s then seal false s else (None, s) in
      match e with
      | Some e => ((n, Some e), s)
      | None =>
          let k := (Z.to_nat (chunkSize s) - length (buf s))%nat in
          let m := Nat.min k (length p) in
          write_loop fuel (drop m p) (n + m) (set_buf (buf s ++ take m p)%list s)
      end
  end.

Definition Write (p : bytes) (s : writer) : (nat * option seal_err) * writer :=
  if closed s then ((0%nat, Some ErrClosed), s)
  else match w_err s with
  | Some e => ((0%nat, Some e), s)
  | None => write_loop (length p) p 0 s
  end.

Definition set_closed (s : writer) : writer := {|
  out := out s; w_aead := w_aead s; w_header := w_header s; chunkSize := chunkSize s; buf := buf s;
  w_counter := w_counter s; closed := true; w_err := w_err s |}.

Definition Close (s : writer) : option seal_err * writer :=
  if closed s then (w_err s, s)
  else let s := set_closed s in
  match w_err s with
  | Some e => (Some e, s)
  | None => seal true s
  end.

(** ** Reading *)

(** Where a stream comes from: the bytes there, and after each end or failure it reports
    the bytes that turned up since (a file still being written has some). The end is
    reported by a read of its own. *)
Inductive src_end := SrcEOF | SrcBroken.
Record Source := { avail : bytes; later : list (src_end * bytes) }.

Definition source_end (s : Source) : src_end * Source :=
  match later s with
  | [] => (SrcEOF, {| avail := []; later := [] |})
  | (e, b) :: l => (e, {| avail := b; later := l |})
  end.

Inductive full := Full | AtEOF | UnexpectedEOF | Broken.

(** [io.ReadFull] for [n] bytes. *)
Definition read_full (n : nat) (s : Source) : (bytes * full) * Source :=
  if (n <=? length (avail s))%nat
  then ((take n (avail s), Full), {| avail := drop n (avail s); later := later s |})
  else
    let '(e, s') := source_end s in
    ((avail s, match e with
               | SrcEOF => match avail s with [] => AtEOF | _ => UnexpectedEOF end
               | SrcBroken => Broken
               end), s').

(** [Peek(1)]: [None] when a byte is there. *)
Definition peek (s : Source) : option src_end * Source :=
  match avail s with
  | _ :: _ => (None, s)
  | [] => let '(e, s) := source_end s in (Some e, s)
  end.

Record reader := {
  r_in : Source; r_aead : bytes; r_header : bytes; r_cipher : nat; plain : bytes;
  r_counter : Z; done : bool; r_err : option seal_err;
}.

Definition set_in (s : Source) (r : reader) : reader := {|
  r_in := s; r_aead := r_aead r; r_header := r_header r; r_cipher := r_cipher r; plain := plain r;
  r_counter := r_counter r; done := done r; r_err := r_err r |}.
Definition set_plain (p : bytes) (r : reader) : reader := {|
  r_in := r_in r; r_aead := r_aead r; r_header := r_header r; r_cipher := r_cipher r; plain := p;
  r_counter := r_counter r; done := done r; r_err := r_err r |}.
Definition set_err (e : option seal_err) (r : reader) : reader := {|
  r_in := r_in r; r_aead := r_aead r; r_header := r_header r; r_cipher := r_cipher r; plain := plain r;
  r_counter := r_counter r; done := done r; r_err := e |}.

Definition NewReader (r : Source) (masterKey : bytes) : result seal_err reader :=
  guard (negb (length masterKey =? KeySize)%nat) ErrKey ;?
  let '((header, got), src) := read_full headerSize r in
  match got with
  | Full =>
      guard (negb (bool_decide (take MagicSize header = magic))) ErrFormat ;?
      let chunkSize := get_be (drop (MagicSize + saltSize) header) in
      guard ((chunkSize <=? 0) || (maxChunkSize <? chunkSize)) ErrFormat ;?
      let? aead := streamAEAD masterKey (take saltSize (drop MagicSize header)) in
      Ok {| r_in := src; r_aead := aead; r_header := header;
            r_cipher := (Z.to_nat chunkSize + tagSize)%nat; plain := []; r_counter := 0;
            done := false; r_err := None |}
  | _ => Err ErrFormat
  end.

Definition open (chunk : bytes) (last : bool) (r : reader) : option seal_err * reader :=
  match gcm_open (r_aead r) (chunkNonce (r_counter r) last) chunk (r_header r) with
  | None =>
      if last then
        match gcm_open (r_aead r) (chunkNonce (r_counter r) false) chunk (r_header r) with
        | Some _ => (Some ErrTruncated, r)
        | None => (Some ErrOpen, r)
        end
      else (Some ErrOpen, r)
  | Some p =>
      let r := {| r_in := r_in r; r_aead := r_aead r; r_header := r_header r; r_cipher := r_cipher r;
                  plain := p; r_counter := wrap_u64 (r_counter r + 1); done := done r;
                  r_err := r_err r |} in
      if last then
        let '(e, src) := peek (r_in r) in
        let r := set_in src r in
        match e with
        | None => (Some ErrTrailing, r)
        | Some _ => (None, {| r_in := r_in r; r_aead := r_aead r; r_header := r_header r;
                              r_cipher := r_cipher r; plain := plain r; r_counter := r_counter r;
                              done := true; r_err := r_err r |})
        end
      else (None, r)
  end.

Definition next (r : reader) : option seal_err * reader :=
  let '((chunk, got), src) := read_full (r_cipher r) (r_in r) in
  let r := set_in src r in
  match got with
  | AtEOF => (Some ErrTruncated, r)
  | UnexpectedEOF => open chunk true r
  | Broken => (Some ErrIO, r)
  | Full =>
      let '(e, src) := peek (r_in r) in
      let r := set_in src r in
      match e with
      | Some SrcEOF => open chunk true r
      | Some SrcBroken => (Some ErrIO, r)
      | None => open chunk false r
      end
  end.

Inductive read_end := EOF | Failed (e : seal_err).

(** The loop of [Read] until there is plaintext or nothing more to come; [None] is out of
    fuel. *)
Fixpoint read_loop (fuel : nat) (r : reader) : option (option read_end * reader) :=
  match plain r with
  | _ :: _ => Some (None, r)
  | [] =>
      match r_err r with
      | Some e => Some (Some (Failed e), r)
      | None =>
          if done r then Some (Some EOF, r)
          else match fuel with
          | O => None
          | S fuel => let '(e, r) := next r in read_loop fuel (set_err e r)
          end
      end
  end.

(** [Read] into a buffer of [n] bytes. *)
Definition Read (n : nat) (r : reader) : option ((bytes * option read_end) * reader) :=
  match read_loop (S (S (length (avail (r_in r))))) r with
  | None => None
  | Some (Some e, r) => Some (([], Some e), r)
  | Some (None, r) => Some ((take n (plain r), None), set_plain (drop n (plain r)) r)
  end.

(** A caller reading with buffers of the given sizes until it is told to stop. *)
Fixpoint read_all (sizes : list nat) (r : reader) : option (bytes * option read_end) :=
  match sizes with
  | [] => Some ([], None)
  | n :: sizes =>
      match Read n r with
      | None => None
      | Some ((b, Some e), _) => Some (b, Some e)
      | Some ((b, None), r) =>
          match read_all sizes r with
          | Some (more, e) => Some ((b ++ more)%list, e)
          | None => None
          end
      end
  end.

(** A caller writing pieces and closing; the first error ends it. *)
Fixpoint write_all (pieces : list bytes) (s : writer) : option seal_err * writer :=
  match pieces with
  | [] => Close s
  | p :: pieces =>
      let '((_, e), s) := Write p s in
      match e with
      | Some e => (Some e, snd (Close s))
      | None => write_all pieces s
      end
  end.

End Seal.

(** ** What a sealed stream is *)
Section Spec.
Context `{Crypto}.

(** The plaintext in chunks of [n] bytes; only the last one may be shorter, and it is empty only
    when there is nothing at all. *)
Fixpoint chunks_go (fuel n : nat) (data : bytes) : list bytes :=
  match fuel with
  | O => [data]
  | S fuel => if (length data <=? n)%nat then [data]
              else take n data :: chunks_go fuel n (drop n data)
  end.
Definition chunks (n : nat) (data : bytes) : list bytes := chunks_go (length data) n data.

(** Each chunk with its nonce: the last one is marked final. *)
Fixpoint seal_list (key header : bytes) (i : Z) (l : list bytes) : list (bytes * bytes) :=
  match l with
  | [] => []
  | c :: l =>
      let nonce := chunkNonce i (match l with [] => true | _ => false end) in
      (nonce, gcm_seal key nonce c header) :: seal_list key header (wrap_u64 (i + 1)) l
  end.
Definition body (key header : bytes) (i : Z) (l : list bytes) : bytes :=
  concat (seal_list key header i l).*2.

Definition header_of (salt : bytes) (chunkSize : Z) : bytes :=
  (magic ++ salt ++ put_be 4 chunkSize)%list.

Definition sealed_stream (key salt : bytes) (chunkSize : Z) (data : bytes) : bytes :=
  let header := header_of salt chunkSize in
  (header ++ body key header 0 (chunks (Z.to_nat chunkSize) data))%list.

Lemma chunks_go_fuel n data f1 f2 : (0 < n)%nat ->
  (length data <= f1)%nat -> (length data <= f2)%nat -> chunks_go f1 n data = chunks_go f2 n data.
Proof.
  intros Hn. revert f2 data. induction f1 as [|f1 IH]; intros [|f2] data H1 H2; cbn [chunks_go];
    try done; try (destruct (Nat.leb_spec (length data) n); [done|lia]).
  destruct (Nat.leb_spec (length data) n); [done|]. f_equal. apply IH; rewrite length_drop; lia.
Qed.

Lemma chunks_short n data : (length data <= n)%nat -> chunks n data = [data].
Proof.
  intros Hl. unfold chunks. destruct (length data) eqn:E; [done|]. cbn [chunks_go].
  destruct (Nat.leb_spec (length data) n); [done|lia].
Qed.

Lemma chunks_long n data : (0 < n)%nat -> (n < length data)%nat ->
  chunks n data = take n data :: chunks n (drop n data).
Proof.
  intros Hn Hl. unfold chunks. destruct (length data) as [|l] eqn:E; [lia|].
  cbn [chunks_go]. destruct (Nat.leb_spec (length data) n); [lia|]. f_equal.
  apply chunks_go_fuel; [done| |done]. rewrite length_drop. lia.
Qed.

Lemma chunks_full n b data : (0 < n)%nat -> length b = n -> data <> [] ->
  chunks n (b ++ data) = b :: chunks n data.
Proof.
  intros Hn Hb Hd. rewrite chunks_long; [|done|].
  - rewrite take_app_length', drop_app_length' by done. done.
  - rewrite length_app. destruct data; [done|]. simpl. lia.
Qed.

Lemma chunks_not_nil n data : chunks n data <> [].
Proof. unfold chunks. destruct (length data); [done|]. cbn [chunks_go]. by case_match. Qed.

Lemma concat_chunks n data : concat (chunks n data) = data.
Proof.
  unfold chunks. generalize (length data). intros f. revert data. induction f as [|f IH]; intros data;
    cbn [chunks_go]; [by rewrite concat_cons, app_nil_r|].
  case_match; rewrite concat_cons; [by rewrite app_nil_r|]. by rewrite IH, take_drop.
Qed.

Lemma length_chunks n data : (0 < n)%nat -> (length (chunks n data) <= S (length data))%nat.
Proof.
  intros Hn. unfold chunks. enough (Hf : forall f d, (length (chunks_go f n d) <= S f)%nat) by apply Hf.
  induction f as [|f IH]; intros d; cbn [chunks_go]; [done|]. case_match; simpl; [lia|].
  specialize (IH (drop n d)). lia.
Qed.

Lemma body_cons_more key header i c l : l <> [] ->
  body key header i (c :: l) =
  (gcm_seal key (chunkNonce i false) c header ++ body key header (wrap_u64 (i + 1)) l)%list.
Proof. intros Hl. by destruct l. Qed.

Lemma body_single key header i c :
  body key header i [c] = gcm_seal key (chunkNonce i true) c header.
Proof. apply app_nil_r. Qed.
End Spec.

(** ** Writing *)
Section Writing.
Context `{Crypto}.

(** The whole stream if [data] is still to be written before closing. *)
Definition finish (s : writer) (data : bytes) : bytes :=
  (written (out s) ++
   body (w_aead s) (w_header s) (w_counter s) (chunks (Z.to_nat (chunkSize s)) (buf s ++ data)))%list.

Definition writer_ok (s : writer) : Prop :=
  0 < chunkSize s /\ (length (buf s) <= Z.to_nat (chunkSize s))%nat /\
  closed s = false /\ w_err s = None.

(** [s'] is [s] after writing [p]. *)
Definition wrote (p : bytes) (s s' : writer) : Prop :=
  writer_ok s' /\ forall data, finish s' data = finish s (p ++ data).

Lemma wrote_trans p q s s1 s2 : wrote p s s1 -> wrote q s1 s2 -> wrote (p ++ q) s s2.
Proof.
  intros [_ H1] [Hok H2]. split; [done|]. intros data. by rewrite H2, H1, app_assoc.
Qed.

Lemma sink_write_ok b s s' : sink_write b s = (true, s') -> written s' = (written s ++ b)%list.
Proof. unfold sink_write. intros Hw. by repeat case_match; simplify_eq. Qed.

Lemma seal_wrote s s' p :
  writer_ok s -> length (buf s) = Z.to_nat (chunkSize s) -> seal false s = (None, s') ->
  writer_ok s' /\ buf s' = [] /\ chunkSize s' = chunkSize s /\
  forall data, p ++ data <> [] -> finish s' (p ++ data) = finish s (p ++ data).
Proof.
  intros (Hc & _ & Hcl & He) Hfull. unfold seal.
  destruct (sink_write _ _) as [[] o] eqn:Hw; [|done]. intros [= <-]. simpl.
  split; [split_and!; simpl; [done|lia|done|done]|]. split; [done|]. split; [done|].
  intros data Hd. unfold finish. simpl. rewrite (sink_write_ok _ _ _ Hw).
  rewrite (chunks_full _ (buf s)) by (done || lia).
  rewrite body_cons_more by apply chunks_not_nil. by rewrite <- app_assoc.
Qed.

Lemma fill_wrote s m p :
  writer_ok s -> (length (buf s) + m <= Z.to_nat (chunkSize s))%nat -> (m <= length p)%nat ->
  wrote (take m p) s (set_buf (buf s ++ take m p)%list s).
Proof.
  intros (Hc & Hb & Hcl & He) Hm Hp. split.
  - split_and!; simpl; [done| |done|done]. rewrite length_app, length_take. lia.
  - intros data. unfold finish. simpl. by rewrite app_assoc.
Qed.

Lemma write_loop_wrote fuel p k s :
  writer_ok s -> (length p <= fuel)%nat ->
  match write_loop fuel p k s with
  | ((k', None), s') => k' = (k + length p)%nat /\ wrote p s s'
  | ((_, Some e), s') => w_err s' = Some e /\ closed s' = false
  end.
Proof.
  revert p k s. induction fuel as [|fuel IH]; intros p k s Hok Hl.
  - destruct p; [|simpl in Hl; lia]. simpl. split; [lia|]. split; [done|]. done.
  - destruct p as [|a p]; [simpl; split; [lia|]; split; done|]. cbn [write_loop].
    set (t := a :: p) in *. assert (Ht : t <> []) by done.
    assert (Hstep : match (if Z.of_nat (length (buf s)) =? chunkSize s then seal false s else (None, s)) with
      | (None, s1) => writer_ok s1 /\ chunkSize s1 = chunkSize s /\
          (length (buf s1) < Z.to_nat (chunkSize s))%nat /\
          (forall data, finish s1 (t ++ data) = finish s (t ++ data))
      | (Some e, s1) => w_err s1 = Some e /\ closed s1 = false
      end).
    { pose proof Hok as (Hc & Hb & Hcl & He). destruct (Z.eqb_spec (Z.of_nat (length (buf s))) (chunkSize s)) as [E|E].
      - destruct (seal false s) as [[e|] s1] eqn:Es.
        + unfold seal in Es. destruct (sink_write _ _) as [[] o]; [done|]. cbn [negb] in Es. injection Es as <- <-. done.
        + destruct (seal_wrote s s1 t Hok ltac:(lia) Es) as (Hok1 & Hb1 & Hc1 & Hf).
          split; [done|]. split; [done|]. rewrite Hb1. split; [simpl; lia|].
          intros data. apply Hf. done.
      - split; [done|]. split; [done|]. split; [lia|done]. }
    destruct (if _ =? _ then _ else _) as [[e|] s1]; [done|].
    destruct Hstep as (Hok1 & Hc1 & Hb1 & Hf).
    set (m := Nat.min _ _).
    assert (Hm : (0 < m)%nat /\ (m <= length t)%nat /\ (length (buf s1) + m <= Z.to_nat (chunkSize s1))%nat).
    { subst m. simpl (length t). rewrite Hc1. lia. }
    destruct Hm as (Hm0 & Hm1 & Hm2).
    pose proof (fill_wrote s1 m t Hok1 Hm2 Hm1) as Hw.
    specialize (IH (drop m t) (k + m)%nat _ (proj1 Hw)).
    rewrite length_drop in IH. specialize (IH ltac:(lia)).
    destruct (write_loop _ _ _ _) as [[k' [e|]] s']; [done|]. destruct IH as [-> Hw2].
    split; [lia|]. pose proof (wrote_trans _ _ _ _ _ Hw Hw2) as [Hok' Hd].
    rewrite take_drop in Hd. split; [done|]. intros data. by rewrite Hd, Hf.
Qed.

Lemma Write_wrote p s :
  writer_ok s ->
  match Write p s with
  | ((k, None), s') => k = length p /\ wrote p s s'
  | ((_, Some e), s') => w_err s' = Some e /\ closed s' = false
  end.
Proof.
  intros Hok. unfold Write. pose proof Hok as (Hc & Hb & Hcl & He). rewrite Hcl, He.
  pose proof (write_loop_wrote (length p) p 0 s Hok) as Hl. by apply Hl.
Qed.

Lemma Close_finish s s' : writer_ok s -> Close s = (None, s') -> written (out s') = finish s [].
Proof.
  intros (Hc & Hb & Hcl & He). unfold Close. rewrite Hcl. simpl. rewrite He.
  unfold seal. destruct (sink_write _ _) as [[] o] eqn:Hw; [|done]. intros [= <-]. simpl.
  rewrite (sink_write_ok _ _ _ Hw). unfold finish. simpl.
  rewrite app_nil_r, chunks_short by done. by rewrite body_single.
Qed.

Lemma write_all_finish pieces s s' :
  writer_ok s -> write_all pieces s = (None, s') -> written (out s') = finish s (concat pieces).
Proof.
  revert s. induction pieces as [|p pieces IH]; intros s Hok; [by apply Close_finish|].
  cbn [write_all]. pose proof (Write_wrote p s Hok) as Hw.
  destruct (Write p s) as [[k [e|]] s1]; [done|]. destruct Hw as (_ & Hok1 & Hf).
  intros Hall. by rewrite (IH s1 Hok1 Hall), Hf.
Qed.

(** Without faults nothing fails. *)
Lemma seal_faultless b s : faults (out s) = [] ->
  fst (seal b s) = None /\ faults (out (snd (seal b s))) = [].
Proof. intros Hf. unfold seal, sink_write. by rewrite Hf. Qed.

Lemma write_loop_faultless fuel p k s : faults (out s) = [] ->
  snd (fst (write_loop fuel p k s)) = None /\ faults (out (snd (write_loop fuel p k s))) = [].
Proof.
  revert p k s. induction fuel as [|fuel IH]; intros [|a p] k s Hf; [done..|]. cbn [write_loop].
  destruct (_ =? _).
  - destruct (seal_faultless false s Hf) as [H1 H2]. destruct (seal false s) as [e s1].
    simpl in H1, H2. subst e. by apply IH.
  - by apply IH.
Qed.

Lemma write_all_faultless pieces s : writer_ok s -> faults (out s) = [] ->
  fst (write_all pieces s) = None.
Proof.
  revert s. induction pieces as [|p pieces IH]; intros s Hok Hf; cbn [write_all].
  - destruct Hok as (_ & _ & Hcl & He). unfold Close. rewrite Hcl. simpl. rewrite He.
    apply (seal_faultless true (set_closed s)). done.
  - pose proof (Write_wrote p s Hok) as Hw. pose proof Hok as (_ & _ & Hcl & He).
    assert (Hn : snd (fst (Write p s)) = None /\ faults (out (snd (Write p s))) = [])
      by (unfold Write; rewrite Hcl, He; by apply write_loop_faultless).
    destruct (Write p s) as [[k e] s1]. simpl in Hn. destruct Hn as [-> Hf1].
    apply IH; [apply Hw|done].
Qed.

Lemma newWriter_ok sink master cs random w sink' :
  newWriter sink master cs random = (Ok w, sink') ->
  exists salt key, random = Some salt /\ streamAEAD master salt = Ok key /\
    length master = KeySize /\ 0 < cs <= maxChunkSize /\ writer_ok w /\ out w = sink' /\
    (faults sink = [] -> faults sink' = []) /\
    forall data, finish w data = (written sink ++ sealed_stream key salt cs data)%list.
Proof.
  unfold newWriter. destruct (Nat.eqb_spec (length master) KeySize) as [Hm|]; [|done]. cbn [negb].
  destruct ((cs <=? 0) || (maxChunkSize <? cs)) eqn:Hcs; [done|].
  apply orb_false_iff in Hcs as [H1%Z.leb_gt H2%Z.ltb_ge].
  destruct random as [salt|]; [|done]. destruct (streamAEAD master salt) as [key|] eqn:Ek; [|done].
  destruct (sink_write _ sink) as [[] sk] eqn:Hw; [|done]. cbn [negb]. intros [= <- <-].
  exists salt, key. do 3 (split; [done|]). split; [done|].
  split; [split_and!; simpl; (done || lia)|]. split; [done|]. split.
  - intros Hf. unfold sink_write in Hw. rewrite Hf in Hw. by simplify_eq.
  - intros data. unfold finish. simpl. rewrite (sink_write_ok _ _ _ Hw).
    by rewrite <- app_assoc.
Qed.

End Writing.

(** ** Reading *)
Section Reading.
Context `{Crypto}.

(** Everything a reader has still to give, and how it ends. *)
Inductive yields : reader -> bytes -> read_end -> Prop :=
| yields_err r e : r_err r = Some e -> yields r (plain r) (Failed e)
| yields_done r : r_err r = None -> done r = true -> yields r (plain r) EOF
| yields_next r e r' b z :
    r_err r = None -> done r = false -> next (set_plain [] r) = (e, r') ->
    yields (set_err e r') b z -> yields r (plain r ++ b)%list z.

Lemma set_plain_id r : plain r = [] -> set_plain [] r = r.
Proof. destruct r. simpl. by intros ->. Qed.

Lemma yields_plain r b z : yields r b z ->
  exists b', b = (plain r ++ b')%list /\ forall p, yields (set_plain p r) (p ++ b')%list z.
Proof.
  intros Hy. destruct Hy as [r e He|r He Hd|r e r' b z He Hd Hn Hy].
  - exists []. rewrite app_nil_r. split; [done|]. intros p. rewrite app_nil_r.
    by apply (yields_err (set_plain p r)).
  - exists []. rewrite app_nil_r. split; [done|]. intros p. rewrite app_nil_r.
    by apply (yields_done (set_plain p r)).
  - exists b. split; [done|]. intros p. by eapply (yields_next (set_plain p r)).
Qed.

Lemma read_loop_yields fuel r b z x r' :
  yields r b z -> read_loop fuel r = Some (x, r') ->
  match x with
  | Some z' => z' = z /\ b = []
  | None => plain r' <> [] /\ yields r' b z
  end.
Proof.
  revert r b. induction fuel as [|fuel IH]; intros r b Hy; cbn [read_loop];
    (destruct (plain r) as [|a p] eqn:Ep; [|intros [= <- <-]; rewrite Ep; done]);
    inversion Hy as [? e He|? He Hd|? e r1 b1 ? He Hd Hn Hy1]; subst; rewrite He;
    try rewrite Hd; rewrite ?Ep; try (by intros [= <- <-]); try done.
  rewrite set_plain_id in Hn by done. rewrite Hn. by apply IH.
Qed.

Lemma peek_next_source s e s' : peek s = (e, s') -> e = None -> s' = s.
Proof. unfold peek. destruct (avail s); [|by intros [= <- <-]]. destruct (source_end s). by intros [= <- <-]. Qed.

Lemma open_ends chunk last r r' : open chunk last r = (None, r') ->
  if last then done r' = true else r_in r' = r_in r.
Proof.
  unfold open. destruct (gcm_open _ _ _ _).
  - destruct last; [|by intros [= <-]]. destruct (peek _) as [[]]; [|done]. by intros [= <-].
  - by destruct last; [destruct (gcm_open _ _ _ _)|].
Qed.

Lemma next_progress r r' : (0 < r_cipher r)%nat -> next r = (None, r') ->
  done r' = true \/ (length (avail (r_in r')) < length (avail (r_in r)))%nat.
Proof.
  intros Hc. unfold next, read_full. destruct (Nat.leb_spec (r_cipher r) (length (avail (r_in r)))) as [Hle|Hle].
  - destruct (peek _) as [[[]|] s] eqn:Ep; [|done|].
    + intros Ho%open_ends. by left.
    + intros Ho%open_ends. right. rewrite Ho. simpl.
      apply peek_next_source in Ep as ->; [|done]. simpl. rewrite length_drop. lia.
  - destruct (source_end _) as [[] s]; [|done].
    destruct (avail (r_in r)); [done|]. intros Ho%open_ends. by left.
Qed.

Lemma open_cipher chunk last r : r_cipher (snd (open chunk last r)) = r_cipher r.
Proof.
  unfold open. destruct (gcm_open _ _ _ _); [|by destruct last; [destruct (gcm_open _ _ _ _)|]].
  destruct last; [|done]. by destruct (peek _) as [[]].
Qed.

Lemma next_cipher r : r_cipher (snd (next r)) = r_cipher r.
Proof.
  unfold next. destruct (read_full _ _) as [[c []] s]; try done.
  - cbv zeta. destruct (peek (r_in (set_in s r))) as [[[]|] s']; [by rewrite open_cipher|done|by rewrite open_cipher].
  - cbv zeta. by rewrite open_cipher.
Qed.

(** A read never spins. *)
Lemma read_loop_total fuel r : (0 < r_cipher r)%nat ->
  (S (length (avail (r_in r))) < fuel)%nat -> is_Some (read_loop fuel r).
Proof.
  revert r. induction fuel as [|fuel IH]; intros r Hc Hl; [lia|]. cbn [read_loop].
  destruct (plain r); [|by eexists]. destruct (r_err r); [by eexists|].
  destruct (done r); [by eexists|]. pose proof (next_progress r) as Hp. pose proof (next_cipher r) as Hnc.
  destruct (next r) as [[e|] r']; simpl in Hnc.
  - destruct fuel; [lia|]. cbn [read_loop set_err plain r_err]. destruct (plain r'); by eexists.
  - destruct (Hp r' Hc eq_refl) as [Hd|Hd].
    + destruct fuel; [lia|]. cbn [read_loop set_err plain r_err done]. rewrite Hd.
      destruct (plain r'); by eexists.
    + apply IH; simpl; [by rewrite Hnc|lia].
Qed.

Lemma read_loop_cipher fuel r x r' : read_loop fuel r = Some (x, r') -> r_cipher r' = r_cipher r.
Proof.
  revert r. induction fuel as [|fuel IH]; intros r; cbn [read_loop];
    (destruct (plain r); [|by intros [= <- <-]]); (destruct (r_err r); [by intros [= <- <-]|]);
    (destruct (done r); [by intros [= <- <-]|done || idtac]).
  pose proof (next_cipher r) as Hn. destruct (next r) as [e r1]. intros Hl. by rewrite (IH _ Hl).
Qed.

Lemma Read_yields n r b z :
  (0 < n)%nat -> (0 < r_cipher r)%nat -> yields r b z ->
  match Read n r with
  | None => False
  | Some ((o, Some z'), _) => o = [] /\ z' = z /\ b = []
  | Some ((o, None), r') => o <> [] /\ (0 < r_cipher r')%nat /\
      exists b', b = (o ++ b')%list /\ yields r' b' z
  end.
Proof.
  intros Hn Hc Hy. unfold Read.
  destruct (read_loop_total (S (S (length (avail (r_in r))))) r Hc) as [[x r'] Hl]; [lia|].
  rewrite Hl. pose proof (read_loop_yields _ _ _ _ _ _ Hy Hl) as Hx.
  destruct x as [z'|]; [by destruct Hx as [-> ->]|]. destruct Hx as [Hp Hy'].
  split; [destruct (plain r'); [done|by destruct n; [lia|]]|].
  split; [simpl; by rewrite (read_loop_cipher _ _ _ _ Hl)|].
  apply yields_plain in Hy' as (b' & -> & Hall).
  exists (drop n (plain r') ++ b')%list. split; [by rewrite app_assoc, take_drop|apply Hall].
Qed.

Lemma yields_det r b z b' z' : yields r b z -> yields r b' z' -> b = b' /\ z = z'.
Proof.
  intros Hy. revert b' z'. induction Hy as [r e He|r He Hd|r e r1 b z He Hd Hn Hy IH]; intros b' z' Hy';
    inversion Hy'; subst; simplify_eq; try congruence; try done.
  match goal with Hn' : next _ = (?e2, ?r2) |- _ => rewrite Hn in Hn'; simplify_eq end.
  match goal with Hy2 : yields (set_err _ _) _ _ |- _ => destruct (IH _ _ Hy2) as [-> ->] end. done.
Qed.

(** A caller with enough buffers, of any sizes, gets everything and the end. *)
Lemma read_all_yields sizes r b z :
  Forall (fun n => 0 < n)%nat sizes -> (length b < length sizes)%nat -> (0 < r_cipher r)%nat ->
  yields r b z -> read_all sizes r = Some (b, Some z).
Proof.
  revert r b. induction sizes as [|n sizes IH]; intros r b Hf Hl Hc Hy; [simpl in Hl; lia|].
  apply list.Forall_cons in Hf as [Hn Hf]. cbn [read_all].
  pose proof (Read_yields n r b z Hn Hc Hy) as Hr.
  destruct (Read n r) as [[[o [z'|]] r']|]; [|destruct Hr as (Ho & Hc' & b' & -> & Hy')|done].
  - by destruct Hr as (-> & -> & ->).
  - rewrite (IH r' b' Hf); [done| |done|done].
    rewrite length_app in Hl. destruct o; [done|]. simpl in Hl. lia.
Qed.
End Reading.

(** ** Numbers on the wire *)

Lemma byte_val_of z : byte_val (byte_of z) = z mod 256.
Proof.
  unfold byte_val, byte_of. pose proof (Z.mod_pos_bound z 256 ltac:(lia)).
  rewrite N_ascii_embedding; [rewrite Z2N.id; lia|lia].
Qed.

Lemma length_put_be w z : length (put_be w z) = w.
Proof. revert z. induction w as [|w IH]; intros z; [done|]. cbn [put_be]. rewrite length_app, IH. simpl. lia. Qed.

Lemma get_put_be w z : 0 <= z < 256 ^ Z.of_nat w -> get_be (put_be w z) = z.
Proof.
  unfold get_be. revert z. induction w as [|w IH]; intros z Hz; [simpl in *; lia|].
  cbn [put_be]. rewrite fold_left_app. simpl. rewrite byte_val_of, IH.
  - pose proof (Z.div_mod z 256). lia.
  - rewrite Nat2Z.inj_succ, Z.pow_succ_r in Hz by lia.
    split; [apply Z.div_pos; lia|apply Z.div_lt_upper_bound; lia].
Qed.

Lemma chunkNonce_inj i j f g :
  0 <= i < 2 ^ 64 -> 0 <= j < 2 ^ 64 -> chunkNonce i f = chunkNonce j g -> i = j /\ f = g.
Proof.
  intros Hi Hj Heq. apply app_inj_1 in Heq as [Hn Ht]; [|by rewrite !length_put_be].
  split.
  - rewrite <- (get_put_be 8 i), <- (get_put_be 8 j) by (simpl; lia). by rewrite Hn.
  - destruct f, g; try done; discriminate Ht.
Qed.

Lemma wrap_u64_id z : 0 <= z < 2 ^ 64 -> wrap_u64 z = z.
Proof. apply Z.mod_small. Qed.

(** ** Opening what was sealed *)
Section Opening.
Context `{CryptoLaws}.

Lemma streamAEAD_ok master salt : exists key, streamAEAD master salt = Ok key.
Proof.
  unfold streamAEAD. destruct (hkdf_key_length master salt label KeySize) as (key & -> & Hl).
  rewrite Hl. by exists key.
Qed.

Lemma length_header salt cs : length salt = saltSize -> length (header_of salt cs) = headerSize.
Proof. intros Hs. unfold header_of. rewrite !length_app, Hs, length_put_be. done. Qed.

Lemma header_salt salt cs : length salt = saltSize ->
  take saltSize (drop MagicSize (header_of salt cs)) = salt.
Proof.
  intros Hs. unfold header_of. rewrite drop_app_length' by done. by apply take_app_length'.
Qed.

Lemma body_long key header i l : l <> [] -> (tagSize <= length (body key header i l))%nat.
Proof.
  destruct l as [|c [|d l]]; intros Hl; [done| |].
  - rewrite body_single, gcm_seal_length. lia.
  - rewrite body_cons_more by done. rewrite length_app, gcm_seal_length. lia.
Qed.

Lemma body_not_nil key header i l : l <> [] -> body key header i l <> [].
Proof. intros Hl Hb. pose proof (body_long key header i l Hl) as Hlen. rewrite Hb in Hlen. simpl in Hlen. unfold tagSize in Hlen. lia. Qed.

(** What [NewReader] makes of the stream's header. *)
Lemma NewReader_header master salt cs key rest :
  length master = KeySize -> length salt = saltSize -> 0 < cs <= maxChunkSize ->
  streamAEAD master salt = Ok key ->
  NewReader {| avail := header_of salt cs ++ rest; later := [] |} master =
  Ok {| r_in := {| avail := rest; later := [] |}; r_aead := key; r_header := header_of salt cs;
        r_cipher := (Z.to_nat cs + tagSize)%nat; plain := []; r_counter := 0; done := false;
        r_err := None |}.
Proof.
  intros Hm Hs Hcs Hk. pose proof (length_header salt cs Hs) as Hlen. unfold NewReader.
  rewrite Hm. cbn [negb Nat.eqb KeySize guard rbind]. unfold read_full. cbn [avail later].
  destruct (Nat.leb_spec headerSize (length (header_of salt cs ++ rest)));
    [|rewrite length_app in *; lia].
  rewrite take_app_length' by done. rewrite drop_app_length' by done.
  change (guard (negb (KeySize =? KeySize)%nat) ErrKey) with (@Ok seal_err unit tt). cbn [rbind].
  assert (Hmag : take MagicSize (header_of salt cs) = magic)
    by (unfold header_of; by apply take_app_length').
  assert (Hrest : drop MagicSize (header_of salt cs) = (salt ++ put_be 4 cs)%list)
    by (unfold header_of; by apply drop_app_length').
  rewrite Hmag, bool_decide_true by done. cbn [negb guard rbind].
  assert (Hcs' : drop (MagicSize + saltSize) (header_of salt cs) = put_be 4 cs).
  { rewrite <- drop_drop, Hrest. by apply drop_app_length'. }
  rewrite Hcs', get_put_be.
  2:{ change (256 ^ Z.of_nat 4) with 4294967296. change maxChunkSize with 16777216 in Hcs. lia. }
  destruct (Z.leb_spec cs 0); [lia|]. destruct (Z.ltb_spec maxChunkSize cs); [lia|].
  cbn [orb guard rbind]. rewrite Hrest, take_app_length', Hk by done. done.
Qed.

Definition reader_at (a key header : bytes) (n : nat) (i : Z) : reader := {|
  r_in := {| avail := a; later := [] |}; r_aead := key; r_header := header;
  r_cipher := (n + tagSize)%nat; plain := []; r_counter := i; done := false; r_err := None |}.

(** Each way a chunk is met. *)
Lemma next_last a key header n i :
  a <> [] -> (length a <= n + tagSize)%nat ->
  next (reader_at a key header n i) =
  open a true (reader_at [] key header n i).
Proof.
  intros Ha Hl. unfold next, read_full. cbn [r_cipher reader_at r_in avail].
  destruct (Nat.leb_spec (n + tagSize) (length a)).
  - rewrite take_ge, drop_ge by lia. done.
  - by destruct a.
Qed.

Lemma next_empty key header n i :
  next (reader_at [] key header n i) = (Some ErrTruncated, reader_at [] key header n i).
Proof.
  unfold next, read_full. cbn [r_cipher reader_at r_in avail length].
  destruct (Nat.leb_spec (n + tagSize) 0); [unfold tagSize in *; lia|done].
Qed.

Lemma next_more c rest key header n i :
  length c = (n + tagSize)%nat -> rest <> [] ->
  next (reader_at (c ++ rest) key header n i) = open c false (reader_at rest key header n i).
Proof.
  intros Hl Hr. unfold next, read_full. cbn [r_cipher reader_at r_in avail].
  destruct (Nat.leb_spec (n + tagSize) (length (c ++ rest))); [|rewrite length_app in *; lia].
  rewrite take_app_length', drop_app_length' by done. by destruct rest.
Qed.

Lemma yields_step r e r' b z :
  r_err r = None -> done r = false -> plain r = [] -> next r = (e, r') ->
  yields (set_err e r') b z -> yields r b z.
Proof.
  intros He Hd Hp Hn Hy. change b with ([] ++ b)%list. rewrite <- Hp.
  eapply yields_next; [done|done|rewrite set_plain_id by done; exact Hn|exact Hy].
Qed.

Lemma yields_open_last a key header n i p :
  a <> [] -> (length a <= n + tagSize)%nat ->
  gcm_open key (chunkNonce i true) a header = Some p ->
  yields (reader_at a key header n i) p EOF.
Proof.
  intros Ha Hl Ho. eapply yields_step; [done|done|done| |].
  - rewrite next_last by done. unfold open.
    cbn [reader_at r_aead r_counter r_header]. rewrite Ho. reflexivity.
  - match goal with |- yields ?r _ _ => by apply (yields_done r) end.
Qed.

Lemma yields_open_more c rest key header n i p b z :
  length c = (n + tagSize)%nat -> rest <> [] ->
  gcm_open key (chunkNonce i false) c header = Some p ->
  yields (reader_at rest key header n (wrap_u64 (i + 1))) b z ->
  yields (reader_at (c ++ rest) key header n i) (p ++ b)%list z.
Proof.
  intros Hl Hr Ho Hy. apply yields_plain in Hy as (b' & Hb & Hall). simpl in Hb. subst b'.
  eapply yields_step; [done|done|done| |].
  - rewrite next_more by done. unfold open.
    cbn [reader_at r_aead r_counter r_header]. rewrite Ho. reflexivity.
  - apply (Hall p).
Qed.

Lemma yields_refused r e r' : r_err r = None -> done r = false -> plain r = [] ->
  next r = (Some e, r') -> plain r' = [] -> yields r [] (Failed e).
Proof.
  intros He Hd Hp Hn Hp'. eapply yields_step; [done|done|done|exact Hn|].
  rewrite <- Hp'. by apply (yields_err (set_err (Some e) r')).
Qed.

Lemma yields_sealed key header n i data : (0 < n)%nat ->
  yields (reader_at (body key header i (chunks n data)) key header n i) data EOF.
Proof.
  intros Hn. revert i. induction data as [data IH] using (induction_ltof1 _ (@length ascii)); intros i.
  destruct (Nat.le_gt_cases (length data) n) as [Hl|Hl].
  - rewrite chunks_short, body_single by done. apply yields_open_last.
    + intros He. pose proof (gcm_seal_length key (chunkNonce i true) data header) as Hlen.
      rewrite He in Hlen. unfold tagSize in Hlen. simpl in Hlen. lia.
    + rewrite gcm_seal_length. lia.
    + apply gcm_open_seal.
  - rewrite chunks_long by done. rewrite body_cons_more by apply chunks_not_nil.
    assert (Ht : length (take n data) = n) by (rewrite length_take; lia).
    assert (Hd : (length (drop n data) < length data)%nat) by (rewrite length_drop; lia).
    pose proof (take_drop n data) as Htd. revert Ht Hd Htd.
    generalize (take n data) (drop n data). intros t d Ht Hd <-. apply yields_open_more.
    + rewrite gcm_seal_length. lia.
    + apply body_not_nil, chunks_not_nil.
    + apply gcm_open_seal.
    + apply IH. exact Hd.
Qed.

(** ** Reading what was not sealed *)

(** No forgeries: every piece of [s'] that opens under the key [s'] names, with [s']'s own header
    as the authenticated data, is a chunk the writer sealed into the stream of [data], under that
    nonce and that header. *)
Definition unforged (master header key : bytes) (l : list bytes) (s' : bytes) : Prop :=
  forall a c b j f p key',
    s' = (a ++ c ++ b)%list ->
    streamAEAD master (take saltSize (drop MagicSize s')) = Ok key' ->
    gcm_open key' (chunkNonce j f) c (take headerSize s') = Some p ->
    take headerSize s' = header /\ (chunkNonce j f, c) ∈ seal_list key header 0 l.

Lemma seal_list_in key header i l j f c :
  0 <= i <= j -> i + Z.of_nat (length l) <= 2 ^ 64 -> j < 2 ^ 64 ->
  (chunkNonce j f, c) ∈ seal_list key header i l ->
  exists p l', drop (Z.to_nat (j - i)) l = p :: l' /\
    (f = true <-> l' = []) /\ c = gcm_seal key (chunkNonce j f) p header.
Proof.
  revert i. induction l as [|p l IH]; intros i Hij Hb Hj; [by intros ?%elem_of_nil|].
  cbn [seal_list length] in *. intros [Heq|Hin]%elem_of_cons.
  - apply pair_equal_spec in Heq as [Hn ->]. apply chunkNonce_inj in Hn as [-> ->]; [|lia|lia].
    exists p, l. rewrite Z.sub_diag. split; [done|]. split; [|done]. by destruct l.
  - destruct (Z.eqb_spec (i + 1) (2 ^ 64)) as [He|He].
    + destruct l; [by apply elem_of_nil in Hin|simpl in Hb; lia].
    + rewrite wrap_u64_id in Hin by lia.
      destruct (Z.eq_dec i j) as [->|Hne].
      * exfalso. clear -Hin Hb Hij Hj He. revert Hin.
        assert (Hgen : forall l k, j < k -> 0 <= k -> k + Z.of_nat (length l) <= 2 ^ 64 ->
          (chunkNonce j f, c) ∈ seal_list key header k l -> False); [|apply Hgen; lia].
        clear -Hij Hj. induction l as [|p l IH]; intros k Hk Hk0 Hb; [by intros ?%elem_of_nil|].
        cbn [seal_list length] in *. intros [Heq|Hin]%elem_of_cons.
        -- apply pair_equal_spec in Heq as [Hn _]. apply chunkNonce_inj in Hn as [-> _]; lia.
        -- destruct l; [by apply elem_of_nil in Hin|]. simpl in Hb.
           rewrite wrap_u64_id in Hin by lia. apply (IH (k + 1)); simpl; try lia. done.
      * destruct (IH (i + 1)) as (p' & l' & Hd & Hf & Hc); [lia|lia|done|done|].
        exists p', l'. split; [|done]. replace (j - i) with (Z.succ (j - (i + 1))) by lia.
        rewrite Z2Nat.inj_succ by lia. exact Hd.
Qed.

Lemma unforged_open master header key l s' pre a c b key' j f p :
  unforged master header key l s' -> Z.of_nat (length l) <= 2 ^ 64 -> 0 <= j < 2 ^ 64 ->
  streamAEAD master (take saltSize (drop MagicSize header)) = Ok key ->
  (headerSize <= length s')%nat ->
  streamAEAD master (take saltSize (drop MagicSize s')) = Ok key' ->
  s' = (pre ++ a ++ c ++ b)%list ->
  gcm_open key' (chunkNonce j f) c (take headerSize s') = Some p ->
  take headerSize s' = header /\ exists l', drop (Z.to_nat j) l = p :: l' /\ (f = true <-> l' = []) /\
    c = gcm_seal key (chunkNonce j f) p header.
Proof.
  intros Hu Hl Hj Hk Hlen Hk' Hs Ho.
  destruct (Hu (pre ++ a)%list c b j f p key') as [Hh Hin]; [by rewrite <- app_assoc|done|done|].
  apply seal_list_in in Hin as (p' & l' & Hd & Hf & Hc); [|lia|lia|lia].
  rewrite Z.sub_0_r in Hd. split; [done|]. exists l'. rewrite Hd.
  assert (key' = key) as ->.
  { rewrite <- Hh in Hk. rewrite take_drop_commute, take_take in Hk.
    rewrite take_drop_commute in Hk'. change (Nat.min _ _) with (MagicSize + saltSize)%nat in Hk.
    congruence. }
  rewrite Hc, Hh, gcm_open_seal in Ho. by simplify_eq.
Qed.

Lemma open_refused c last r : gcm_open (r_aead r) (chunkNonce (r_counter r) last) c (r_header r) = None ->
  exists e, open c last r = (Some e, r).
Proof.
  intros Ho. unfold open. rewrite Ho.
  destruct last; [destruct (gcm_open (r_aead r) (chunkNonce (r_counter r) false) c (r_header r))|];
    by eexists.
Qed.

Section Tampered.
Context (master header key : bytes) (l : list bytes) (s' key' : bytes) (n : nat).
Context (Hu : unforged master header key l s') (Hcount : Z.of_nat (length l) <= 2 ^ 64).
Context (Hkey : streamAEAD master (take saltSize (drop MagicSize header)) = Ok key).
Context (Hlen : (headerSize <= length s')%nat).
Context (Hkey' : streamAEAD master (take saltSize (drop MagicSize s')) = Ok key').

(** What is left to read is worth: a prefix of the chunks left, and all of them only
    if it is their sealing. *)
Definition worth (a : bytes) (j : Z) : Prop :=
  exists o e, yields (reader_at a key' (take headerSize s') n j) o e /\
    o `prefix_of` concat (drop (Z.to_nat j) l) /\
    (e = EOF -> take headerSize s' = header /\ a = body key header j (drop (Z.to_nat j) l)).

Lemma worth_refused a j e r' :
  next (reader_at a key' (take headerSize s') n j) = (Some e, r') -> plain r' = [] -> worth a j.
Proof.
  intros Hn Hp. exists [], (Failed e). split; [by eapply yields_refused|].
  split; [apply prefix_nil|done].
Qed.

Lemma worth_last pre a j : 0 <= j < 2 ^ 64 -> s' = (pre ++ a)%list ->
  a <> [] -> (length a <= n + tagSize)%nat -> worth a j.
Proof.
  intros Hj Hs Ha Hl.
  destruct (gcm_open key' (chunkNonce j true) a (take headerSize s')) as [p|] eqn:Ho.
  - destruct (unforged_open master header key l s' pre [] a [] key' j true p) as (Hh & l' & Hd & Hf & Hc);
      try done; [by rewrite app_nil_r|].
    exists p, EOF. split; [by apply yields_open_last|]. rewrite Hd.
    assert (l' = []) as -> by by apply Hf. simpl. rewrite app_nil_r. split; [done|].
    intros _. split; [done|]. by rewrite body_single.
  - destruct (open_refused a true (reader_at [] key' (take headerSize s') n j) Ho) as [e He].
    eapply worth_refused; [rewrite next_last by done; exact He|done].
Qed.

Lemma worth_all pre a j : 0 <= j < 2 ^ 64 -> s' = (pre ++ a)%list -> worth a j.
Proof.
  revert pre j. induction a as [a IH] using (induction_ltof1 _ (@length ascii)); intros pre j Hj Hs.
  destruct (decide (a = [])) as [->|Ha]; [by eapply worth_refused; [apply next_empty|]|].
  destruct (Nat.le_gt_cases (length a) (n + tagSize)) as [Hl|Hl]; [by eapply worth_last|].
  assert (Hc : exists c b, a = (c ++ b)%list /\ length c = (n + tagSize)%nat /\ b <> []).
  { exists (take (n + tagSize) a), (drop (n + tagSize) a). rewrite take_drop, length_take.
    split; [done|]. split; [lia|]. intros Hb. apply (f_equal length) in Hb.
    rewrite length_drop in Hb. simpl in Hb. lia. }
  destruct Hc as (c & b & -> & Hc & Hb).
  destruct (gcm_open key' (chunkNonce j false) c (take headerSize s')) as [p|] eqn:Ho.
  - destruct (unforged_open master header key l s' pre [] c b key' j false p) as (Hh & l' & Hd & Hf & Hcp);
      try done.
    assert (Hl' : l' <> []) by (intros E; pose proof (proj2 Hf E) as Hx; discriminate Hx).
    assert (Hj1 : j + 1 < 2 ^ 64).
    { apply (f_equal length) in Hd. rewrite length_drop in Hd. simpl in Hd.
      destruct l'; [done|]. simpl in Hd. lia. }
    assert (Hd1 : drop (Z.to_nat (j + 1)) l = l').
    { rewrite Z.add_1_r, Z2Nat.inj_succ by lia. rewrite <- Nat.add_1_r, <- drop_drop, Hd. done. }
    destruct (IH b) with (pre := (pre ++ c)%list) (j := j + 1) as (o & e & Hy & Hp & He).
    + unfold ltof. rewrite length_app, Hc. unfold tagSize. lia.
    + lia.
    + by rewrite <- app_assoc.
    + exists (p ++ o)%list, e. rewrite Hd. split; [|split].
      * apply yields_open_more; [done|done|done|]. by rewrite wrap_u64_id by lia.
      * simpl. rewrite Hd1 in Hp. by apply prefix_app.
      * intros ->. destruct (He eq_refl) as [_ Hbody]. split; [done|].
        rewrite body_cons_more by done. rewrite wrap_u64_id by lia. by rewrite Hcp, Hbody, Hd1.
  - destruct (open_refused c false (reader_at b key' (take headerSize s') n j) Ho) as [e He].
    eapply worth_refused; [rewrite next_more by done; exact He|done].
Qed.
End Tampered.

Lemma NewReader_inv s master r :
  NewReader {| avail := s; later := [] |} master = Ok r ->
  exists key n, (headerSize <= length s)%nat /\ streamAEAD master (take saltSize (drop MagicSize s)) = Ok key /\
    r = reader_at (drop headerSize s) key (take headerSize s) n 0.
Proof.
  unfold NewReader. destruct (negb _); [done|]. cbn [guard rbind]. unfold read_full. cbn [avail later].
  destruct (Nat.leb_spec headerSize (length s)) as [Hl|Hl]; [|by destruct s].
  destruct (negb _); [done|]. cbn [guard rbind]. destruct (_ || _); [done|]. cbn [guard rbind].
  rewrite take_drop_commute, take_take. change (Nat.min _ _) with (MagicSize + saltSize)%nat.
  rewrite <- take_drop_commute. destruct (streamAEAD _ _) as [key|e] eqn:Ek; [|done].
  cbn [rbind]. intros [= <-]. eexists _, _. done.
Qed.

Lemma writer_stream sink master cs salt w sink' pieces w' :
  written sink = [] -> newWriter sink master cs (Some salt) = (Ok w, sink') ->
  write_all pieces w = (None, w') ->
  exists key, streamAEAD master salt = Ok key /\ length master = KeySize /\ 0 < cs <= maxChunkSize /\
    written (out w') = sealed_stream key salt cs (concat pieces).
Proof.
  intros Hs Hw Ha. apply newWriter_ok in Hw as (salt' & key & [= <-] & Hk & Hm & Hcs & Hok & _ & _ & Hf).
  exists key. do 3 (split; [done|]). by rewrite (write_all_finish _ _ _ Hok Ha), Hf, Hs.
Qed.

(** C29: what is sealed opens, whole. For every key, chunk size, and way of cutting the data into
    writes: with a sink that works, sealing succeeds; and whenever [Close] reports success,
    through any failures of the sink, a reader with the same key gets exactly the data
    written and then the end of file, whatever buffer sizes it reads with. *)
Theorem sealed_streams_open sink master cs salt w sink' pieces sizes :
  length salt = saltSize -> written sink = [] ->
  newWriter sink master cs (Some salt) = (Ok w, sink') ->
  Forall (fun n => 0 < n)%nat sizes -> (length (concat pieces) < length sizes)%nat ->
  (faults sink = [] -> fst (write_all pieces w) = None) /\
  (fst (write_all pieces w) = None ->
   exists r, NewReader {| avail := written (out (snd (write_all pieces w))); later := [] |} master = Ok r /\
     read_all sizes r = Some (concat pieces, Some EOF)).
Proof.
  intros Hsalt Hs Hw Hpos Hlen. split.
  - apply newWriter_ok in Hw as (salt' & key & [= <-] & _ & _ & _ & Hok & <- & Hf & _).
    intros Hnf. by apply write_all_faultless; [|apply Hf].
  - destruct (write_all pieces w) as [e w'] eqn:Ha. cbn [fst snd]. intros ->.
    destruct (writer_stream _ _ _ _ _ _ _ _ Hs Hw Ha) as (key & Hk & Hm & Hcs & ->).
    unfold sealed_stream. eexists. split; [by apply NewReader_header|].
    apply read_all_yields; [done|done|simpl; unfold tagSize; lia|].
    apply yields_sealed. lia.
Qed.

Lemma sealed_stream_header key salt cs data : length salt = saltSize ->
  take headerSize (sealed_stream key salt cs data) = header_of salt cs /\
  drop headerSize (sealed_stream key salt cs data) =
    body key (header_of salt cs) 0 (chunks (Z.to_nat cs) data).
Proof.
  intros Hs. unfold sealed_stream.
  pose proof (length_header salt cs Hs) as Hl.
  by rewrite take_app_length', drop_app_length' by done.
Qed.

(** C33: any other stream is refused. Take a stream sealed by this writer and any stream [s']
    none of whose parts is a forgery. Whatever is done with [s'] (chunks altered, reordered,
    repeated, dropped, the end cut off, bytes appended, the header changed), a reader
    either refuses its header, or gives a prefix of the data and then fails, unless [s']
    is the sealed stream itself. *)
Theorem tampering_is_refused sink master cs salt w sink' pieces w' key s' :
  length salt = saltSize -> written sink = [] ->
  newWriter sink master cs (Some salt) = (Ok w, sink') ->
  write_all pieces w = (None, w') ->
  Z.of_nat (length (concat pieces)) < 2 ^ 64 - 1 ->
  streamAEAD master salt = Ok key ->
  unforged master (header_of salt cs) key (chunks (Z.to_nat cs) (concat pieces)) s' ->
  match NewReader {| avail := s'; later := [] |} master with
  | Err _ => s' <> written (out w')
  | Ok r => exists o e,
      (forall sizes, Forall (fun n => 0 < n)%nat sizes -> (length o < length sizes)%nat ->
         read_all sizes r = Some (o, Some e)) /\
      o `prefix_of` concat pieces /\
      (e = EOF <-> s' = written (out w')) /\ (e = EOF -> o = concat pieces)
  end.
Proof.
  intros Hsalt Hs Hw Ha Hbound Hk Hu.
  destruct (writer_stream _ _ _ _ _ _ _ _ Hs Hw Ha) as (key2 & Hk2 & Hm & Hcs & Hout).
  assert (key2 = key) as -> by congruence. rewrite Hout. clear Hw Ha Hout.
  destruct (sealed_stream_header key salt cs (concat pieces) Hsalt) as [Hth Hdh].
  assert (Hopen : forall rest, NewReader {| avail := header_of salt cs ++ rest; later := [] |} master =
    Ok (reader_at rest key (header_of salt cs) (Z.to_nat cs) 0)) by (intros rest; by apply NewReader_header).
  destruct (NewReader _ master) as [r|e] eqn:Hr.
  - pose proof (NewReader_inv _ _ _ Hr) as (key' & n & Hl & Hk' & ->).
    destruct (worth_all master (header_of salt cs) key (chunks (Z.to_nat cs) (concat pieces)) s' key' n
      Hu) with (pre := take headerSize s') (a := drop headerSize s') (j := 0)
      as (o & e & Hy & Hp & He); try done.
    + pose proof (length_chunks (Z.to_nat cs) (concat pieces)). lia.
    + by rewrite header_salt.
    + by rewrite take_drop.
    + assert (Hgen : s' = sealed_stream key salt cs (concat pieces) -> o = concat pieces /\ e = EOF).
      { intros Es. rewrite Es in Hr at 1. unfold sealed_stream in Hr. rewrite Hopen in Hr.
        assert (Hr2 : forall r1 r2 : reader, @Ok seal_err reader r1 = Ok r2 -> r1 = r2) by congruence.
        apply Hr2 in Hr. rewrite <- Hr in Hy. eapply yields_det; [exact Hy|].
        apply yields_sealed. lia. }
      rewrite drop_0, concat_chunks in Hp. rewrite drop_0 in He.
      assert (Hst : e = EOF -> s' = sealed_stream key salt cs (concat pieces)).
      { intros ->. destruct (He eq_refl) as [H1 H2].
        by rewrite <- (take_drop headerSize s'), H1, H2. }
      exists o, e. split_and!; [|done| |].
      * intros sizes Hpos Hsz. apply read_all_yields; [done|done|simpl; unfold tagSize; lia|done].
      * split; [done|]. by intros []%Hgen.
      * intros Ee. by destruct (Hgen (Hst Ee)).
  - intros ->. unfold sealed_stream in Hr. by rewrite Hopen in Hr.
Qed.
End Opening.

(** ** A cipher to try the theorems on

    The tag names the nonce and the length of the plaintext; nothing is hidden, and every
    law of the interface holds. *)
Definition toy_tag (nonce p : bytes) : bytes :=
  take tagSize (nonce ++ put_be 4 (Z.of_nat (length p) + 19088743) ++ repeat zero tagSize)%list.
Definition toy_open (c nonce : bytes) : option bytes :=
  let p := take (length c - tagSize) c in
  if (tagSize <=? length c)%nat && bool_decide (drop (length c - tagSize) c = toy_tag nonce p)
  then Some p else None.

#[global] Instance toy_crypto : Crypto := {
  hkdf_key _ _ _ n := Some (repeat zero n);
  gcm_seal _ nonce p _ := (p ++ toy_tag nonce p)%list;
  gcm_open _ nonce c _ := toy_open c nonce;
}.

Lemma length_toy_tag nonce p : length (toy_tag nonce p) = tagSize.
Proof. unfold toy_tag. rewrite length_take, !length_app, repeat_length. lia. Qed.

#[global] Instance toy_laws : CryptoLaws.
Proof.
  split.
  - intros secret salt info n. exists (repeat zero n). split; [done|apply repeat_length].
  - intros k n p ad. change (length (p ++ toy_tag n p) = (length p + tagSize)%nat).
    by rewrite length_app, length_toy_tag.
  - intros k n p ad. change (toy_open (p ++ toy_tag n p) n = Some p). unfold toy_open. rewrite length_app, length_toy_tag.
    replace (length p + tagSize - tagSize)%nat with (length p) by lia.
    rewrite take_app_length, drop_app_length.
    rewrite bool_decide_true by done. by destruct (Nat.leb_spec tagSize (length p + tagSize)); [|lia].
Defined.

Definition toy_master : bytes := repeat zero KeySize.
Definition toy_salt : bytes := repeat zero saltSize.
Definition empty_sink : Sink := {| written := []; faults := [] |}.
Definition toy_pieces : list bytes := [["a"%char]; []; ["b"%char; "c"%char]].
Definition toy_writer : writer := {|
  out := {| written := header_of toy_salt 1; faults := [] |}; w_aead := repeat zero KeySize;
  w_header := header_of toy_salt 1; chunkSize := 1; buf := []; w_counter := 0; closed := false;
  w_err := None |}.
Definition toy_sink : Sink := out toy_writer.

Lemma toy_new : newWriter empty_sink toy_master 1 (Some toy_salt) = (Ok toy_writer, toy_sink).
Proof. vm_compute. reflexivity. Qed.

Lemma toy_writes : fst (write_all toy_pieces toy_writer) = None.
Proof. vm_compute. reflexivity. Qed.

Lemma toy_sizes : Forall (fun n => 0 < n)%nat (repeat 2%nat 4).
Proof. repeat constructor. Qed.

Lemma sealed_streams_open_witness :
  exists r, NewReader {| avail := written (out (snd (write_all toy_pieces toy_writer))); later := [] |}
              toy_master = Ok r /\
    read_all (repeat 2%nat 4) r = Some (["a"; "b"; "c"]%char, Some EOF).
Proof.
  apply (sealed_streams_open empty_sink toy_master 1 toy_salt toy_writer toy_sink toy_pieces (repeat 2%nat 4));
    [reflexivity|reflexivity|apply toy_new|apply toy_sizes|simpl; lia|apply toy_writes].
Defined.

(** The stream cut off after its first chunk. *)
Definition toy_cut : bytes := take 61 (written (out (snd (write_all toy_pieces toy_writer)))).

(** Which pieces of a stream open, and are not the first chunk. *)
Definition opens_elsewhere (s : bytes) (i n : nat) : bool :=
  let c := take n (drop i s) in
  let tag := drop (length c - tagSize) c in
  let p := take (length c - tagSize) c in
  (tagSize <=? length c)%nat && bool_decide (tag = toy_tag (take nonceSize tag) p) &&
  negb (bool_decide (take nonceSize tag = chunkNonce 0 false /\
                     c = gcm_seal [] (chunkNonce 0 false) ["a"%char] [])).

Lemma toy_cut_pieces :
  forallb (fun i => forallb (fun n => negb (opens_elsewhere toy_cut i n)) (seq 0 62)) (seq 0 62) = true.
Proof. vm_compute. reflexivity. Qed.

Lemma take_toy_tag nonce p : length nonce = nonceSize -> take nonceSize (toy_tag nonce p) = nonce.
Proof.
  intros Hn. unfold toy_tag. rewrite take_take. change (Nat.min _ _) with nonceSize.
  by apply take_app_length'.
Qed.

Lemma toy_cut_unforged :
  unforged toy_master (header_of toy_salt 1) (repeat zero KeySize)
    (chunks (Z.to_nat 1) (concat toy_pieces)) toy_cut.
Proof.
  intros a c b j f p key' Hs Hk Ho. split; [vm_compute; reflexivity|].
  assert (Hlen : length toy_cut = 61%nat) by (vm_compute; reflexivity).
  change (toy_open c (chunkNonce j f) = Some p) in Ho. unfold toy_open in Ho.
  destruct (_ && _) eqn:E; [|done]. apply andb_true_iff in E as [Hl Ht%bool_decide_eq_true].
  pose proof toy_cut_pieces as Hall. rewrite Hs in Hlen. rewrite !length_app in Hlen.
  rewrite forallb_forall in Hall. specialize (Hall (length a)). cbv beta in Hall.
  rewrite in_seq in Hall. specialize (Hall ltac:(lia)). rewrite forallb_forall in Hall.
  specialize (Hall (length c)). cbv beta in Hall. rewrite in_seq in Hall. specialize (Hall ltac:(lia)).
  unfold opens_elsewhere in Hall. rewrite Hs, drop_app_length, take_app_length in Hall.
  rewrite Hl, Ht in Hall. rewrite take_toy_tag in Hall by (unfold chunkNonce; rewrite length_app, length_put_be; done).
  rewrite bool_decide_true in Hall by done. cbn [andb] in Hall. rewrite negb_involutive in Hall.
  apply bool_decide_eq_true in Hall as [-> ->].
  change (chunks (Z.to_nat 1) (concat toy_pieces)) with (["a"%char] :: chunks 1 ["b"; "c"]%char).
  left.
Qed.

Lemma tampering_is_refused_witness :
  exists r o e, NewReader {| avail := toy_cut; later := [] |} toy_master = Ok r /\
    read_all (repeat 5%nat 9) r = Some (o, Some e) /\ o `prefix_of` ["a"; "b"; "c"]%char /\ e <> EOF.
Proof.
  assert (Ha : write_all toy_pieces toy_writer = (None, snd (write_all toy_pieces toy_writer)))
    by (vm_compute; reflexivity).
  pose proof (tampering_is_refused empty_sink toy_master 1 toy_salt toy_writer toy_sink toy_pieces _
    (repeat zero KeySize) toy_cut eq_refl eq_refl toy_new Ha ltac:(simpl; lia) eq_refl toy_cut_unforged) as Ht.
  assert (Hr : is_ok (NewReader {| avail := toy_cut; later := [] |} toy_master) = true)
    by (vm_compute; reflexivity).
  destruct (NewReader _ toy_master) as [r|]; [|discriminate Hr].
  destruct Ht as (o & e & Hread & Hp & He & _). exists r, o, e. split; [reflexivity|].
  assert (Hne : e <> EOF).
  { intros ->. pose proof (proj1 He eq_refl) as Hx. apply (f_equal length) in Hx. vm_compute in Hx. discriminate Hx. }
  split; [|split; [exact Hp|exact Hne]]. apply Hread.
  - repeat constructor.
  - apply prefix_length in Hp. simpl in Hp |- *. lia.
Defined.

(** The cut is told apart from other damage, and data appended after the end was reported is
    refused too. *)
Lemma toy_cut_truncated :
  match NewReader {| avail := toy_cut; later := [] |} toy_master with
  | Ok r => read_all (repeat 5%nat 9) r = Some ([], Some (Failed ErrTruncated))
  | Err _ => False
  end.
Proof. vm_compute. reflexivity. Qed.

Lemma toy_appended :
  match NewReader {| avail := written (out (snd (write_all toy_pieces toy_writer)));
                     later := [(SrcEOF, ["x"%char])] |} toy_master with
  | Ok r => read_all (repeat 5%nat 9) r = Some (["a"; "b"; "c"]%char, Some (Failed ErrTrailing))
  | Err _ => False
  end.
Proof. vm_compute. reflexivity. Qed.
