(* ===== verification/Secrets.v ===== *)
(** * Secrets at rest ([api/internal/secrets/encrypt.go], [rotate.go])

    The encrypter of values stored in the database, and the rotation of its key: one pass over
    every column that holds a ciphertext, in one transaction. The cipher is [Seal]'s; the
    random nonces to come and what the coming calls meet are part of the world. *)

From stdpp Require Import gmap sorting.
From S2P Require Import Prelude Store GoStr GoCodec Seal.

#[local] Open Scope Z_scope.

Inductive sec_err :=
| ErrInvalidKey | ErrDecryptFailed | ErrCiphertextForm | ErrUnknownEncryptedColumn | ErrRandom | ErrBackend.
#[global] Instance sec_err_eq_dec : EqDecision sec_err.
Proof. solve_decision. Defined.

(** ** The encrypter *)
Record Encrypter := { aead_key : bytes; panelBackupKey : bytes }.

Definition KeyLength : nat := 32.

Section encrypter.
Context `{Crypto}.

Definition NewEncrypter (hexKey : string) : result sec_err Encrypter :=
  match hex_decode (String.list_ascii_of_string hexKey) with
  | Some key =>
      guard (negb (length key =? KeyLength)%nat) ErrInvalidKey ;?
      match PanelBackupKey key with
      | Ok backupKey => Ok {| aead_key := key; panelBackupKey := backupKey |}
      | Err _ => Err ErrInvalidKey
      end
  | None => Err ErrInvalidKey
  end.

(** The nonce is the one [rand.Read] drew. *)
Definition Encrypt (e : Encrypter) (nonce plaintext : bytes) (context : string) : string :=
  let sealed := (nonce ++ gcm_seal (aead_key e) nonce plaintext (String.list_ascii_of_string context))%list in
  base64_encode (map byte_val sealed).

Definition Decrypt (e : Encrypter) (encoded context : string) : result sec_err bytes :=
  match base64_decode encoded with
  | None => Err ErrCiphertextForm
  | Some raw =>
      let raw := map byte_of raw in
      if (length raw <? nonceSize + tagSize)%nat then Err ErrCiphertextForm
      else
        match gcm_open (aead_key e) (take nonceSize raw) (drop nonceSize raw)
                (String.list_ascii_of_string context) with
        | Some plaintext => Ok plaintext
        | None => Err ErrDecryptFailed
        end
  end.
End encrypter.

(** ** Key rotation *)
Record encryptedColumn := { table : string; keyColumn : string; column : string; contextPrefix : string }.

Definition context (c : encryptedColumn) (id : string) : string :=
  if (contextPrefix c =? "")%string then id else (contextPrefix c ++ ":" ++ id)%string.

Definition place (c : encryptedColumn) : string * string := (table c, column c).

Definition col (t k c p : string) : encryptedColumn :=
  {| table := t; keyColumn := k; column := c; contextPrefix := p |}.
Definition encryptedColumns : list encryptedColumn := [
  col "two_factor_auth" "user_id" "secret_encrypted" "two_factor_auth";
  col "database_users" "id" "password_encrypted" "database_user";
  col "node_environment" "id" "value_encrypted" "node_environment";
  col "dns_providers" "id" "api_token_encrypted" "dns_provider";
  col "backup_destinations" "id" "credentials_encrypted" "backup_destination";
  col "notification_channels" "id" "credentials_encrypted" "notification_channel";
  col "git_repositories" "id" "webhook_secret_encrypted" ""].

(** The columns of the schema, each from a row's key to its value, which may be NULL. *)
Local Abbreviation columns := (gmap (string * string) (gmap string (option string))).

Record World := { db : columns; random : list bytes; faults : list fault }.
Definition set_db (d : columns) (r : list bytes) (w : World) : World :=
  {| db := d; random := r; faults := faults w |}.

#[global] Instance World_faulty : Faulty World := {
  faults_of := faults; with_faults fs w := {| db := db w; random := random w; faults := fs |} }.

Local Abbreviation M := (Store.M World sec_err).

Record RotationResult := {
  Reencrypted : gmap (string * string) nat;
  SkippedEmpty : list (string * string);
}.

Definition filled (rows : gmap string (option string)) : list (string * string) :=
  omap (fun x => match snd x with Some s => Some (fst x, s) | None => None end) (map_to_list rows).

(** The columns the schema has, by the naming convention, that the list does not. *)
Definition unknown_columns (d : columns) : list (string * string) :=
  filter (fun p => has_suffix "_encrypted" (snd p) = true /\ p ∉ map place encryptedColumns)
    (map fst (map_to_list d)).

(** The order of [sort.Strings] on table and column joined by a dot. *)
Definition before (p q : string * string) : Prop :=
  String.leb (fst p ++ "." ++ snd p) (fst q ++ "." ++ snd q) = true.
#[global] Instance before_dec : RelDecision before := fun p q => bool_eq_dec _ _.

(** The counts of the columns nobody knows; the first that is not empty stops it. *)
Fixpoint count_unknown (ps : list (string * string)) : M (list (string * string)) :=
  match ps with
  | [] => ret []
  | p :: ps =>
      let! n := query ErrBackend (fun w => Ok (length (filled (default ∅ (db w !! p))))) in
      if (0 <? n)%nat then fail ErrUnknownEncryptedColumn
      else let! rest := count_unknown ps in ret (p :: rest)
  end%store.

Definition checkSchemaCovered : M (list (string * string)) :=
  (let! unknown := query ErrBackend (fun w => Ok (unknown_columns (db w))) in
   let! skipped := count_unknown unknown in
   ret (merge_sort before skipped))%store.

Section rotation.
Context `{Crypto} (oldEnc newEnc : Encrypter).

(** The loop over the rows of one column: each is opened with the old key and sealed with the
    new one. *)
Fixpoint reencrypt_rows (c : encryptedColumn) (items : list (string * string))
    (rows : gmap string (option string)) (rs : list bytes)
  : result sec_err (gmap string (option string) * list bytes) :=
  match items with
  | [] => Ok (rows, rs)
  | (id, cipher) :: items =>
      match Decrypt oldEnc cipher (context c id) with
      | Err e => Err e
      | Ok plaintext =>
          match rs with
          | [] => Err ErrRandom
          | nonce :: rs =>
              reencrypt_rows c items (<[id := Some (Encrypt newEnc nonce plaintext (context c id))]> rows) rs
          end
      end
  end.

Definition reencryptColumn (c : encryptedColumn) (d : columns) (rs : list bytes)
  : result sec_err (columns * list bytes * nat) :=
  match d !! place c with
  | None => Err ErrBackend
  | Some rows =>
      match reencrypt_rows c (filled rows) rows rs with
      | Err e => Err e
      | Ok (rows', rs) => Ok (<[place c := rows']> d, rs, length (filled rows))
      end
  end.

Fixpoint reencrypt_all (cs : list encryptedColumn) (d : columns) (rs : list bytes)
    (counts : gmap (string * string) nat)
  : result sec_err (columns * list bytes * gmap (string * string) nat) :=
  match cs with
  | [] => Ok (d, rs, counts)
  | c :: cs =>
      match reencryptColumn c d rs with
      | Err e => Err e
      | Ok (d, rs, n) => reencrypt_all cs d rs (<[place c := n]> counts)
      end
  end.

(** The transaction: any error rolls it back. *)
Definition reencrypt : M (gmap (string * string) nat) :=
  call ErrBackend (fun w =>
    match reencrypt_all encryptedColumns (db w) (random w) ∅ with
    | Err e => (Err e, w)
    | Ok (d, rs, counts) => (Ok counts, set_db d rs w)
    end).
End rotation.

Definition RotateEncryptionKey `{Crypto} (oldHexKey newHexKey : string) : M RotationResult :=
  (let! oldEnc := answer (NewEncrypter oldHexKey) in
   let! newEnc := answer (NewEncrypter newHexKey) in
   let! skipped := checkSchemaCovered in
   let! counts := reencrypt oldEnc newEnc in
   ret {| Reencrypted := counts; SkippedEmpty := skipped |})%store.

(** ** What a rotation promises *)

(** The value of a row's column: no row, NULL, or a text. *)
Definition value (d : columns) (c : encryptedColumn) (id : string) : option (option string) :=
  rows ← d !! place c; rows !! id.

Section promise.
Context `{Crypto} (oldEnc newEnc : Encrypter).

(** Every secret is the same secret under the new key, and nothing else changed. *)
Record rotated (d d' : columns) : Prop := {
  ro_other : forall p, p ∉ map place encryptedColumns -> d' !! p = d !! p;
  ro_value : forall c id, c ∈ encryptedColumns ->
    match value d c id with
    | Some (Some s) => exists plaintext s', Decrypt oldEnc s (context c id) = Ok plaintext /\
        value d' c id = Some (Some s') /\ Decrypt newEnc s' (context c id) = Ok plaintext
    | o => value d' c id = o
    end;
}.

(** Whatever holds a secret is in the list. *)
Definition covered (d : columns) : Prop :=
  forall p rows, d !! p = Some rows -> has_suffix "_encrypted" (snd p) = true ->
    p ∉ map place encryptedColumns -> filled rows = [].

(** Every listed column is there, and the old key opens what it holds. *)
Definition readable (d : columns) : Prop :=
  forall c, c ∈ encryptedColumns -> is_Some (d !! place c) /\
    forall id s, value d c id = Some (Some s) -> is_ok (Decrypt oldEnc s (context c id)) = true.
End promise.

Lemma places_distinct : NoDup (map place encryptedColumns).
Proof. apply (bool_decide_unpack _). vm_compute. exact I. Qed.

Lemma filled_spec rows id s : (id, s) ∈ filled rows <-> rows !! id = Some (Some s).
Proof.
  unfold filled. rewrite list_elem_of_omap. split.
  - intros ([i o] & Hin%elem_of_map_to_list & Hs). cbn in Hs. destruct o as [t|]; [|done].
    injection Hs as <- <-. exact Hin.
  - intros Hl. exists (id, Some s). split; [by apply elem_of_map_to_list|done].
Qed.

Lemma filled_NoDup rows : NoDup (map fst (filled rows)).
Proof.
  unfold filled. pose proof (NoDup_fst_map_to_list rows) as Hnd. revert Hnd.
  generalize (map_to_list rows) as l. induction l as [|[i o] l IH]; intros Hnd; [constructor|].
  cbn in Hnd. apply list.NoDup_cons in Hnd as [Hni Hnd]. cbn. destruct o as [s|]; [|by apply IH].
  cbn. apply list.NoDup_cons. split; [|by apply IH]. intros ([j t] & -> & Hin)%list_elem_of_fmap.
  apply Hni. apply list_elem_of_omap in Hin as ([k o] & Hk & Ho). cbn in Ho. destruct o; [|done].
  injection Ho as -> ->. cbn. apply list_elem_of_fmap. by exists (j, Some t).
Qed.

(** ** The encrypter's law *)
Section laws.
Context `{CryptoLaws}.

Lemma byte_val_is_byte l : Forall is_byte (map byte_val l).
Proof.
  induction l as [|c l IH]; [constructor|]. constructor; [|done]. unfold is_byte, byte_val.
  pose proof (N_ascii_bounded c). lia.
Qed.

Lemma byte_of_val l : map byte_of (map byte_val l) = l.
Proof.
  induction l as [|c l IH]; [done|]. cbn. rewrite IH. f_equal. unfold byte_of, byte_val.
  pose proof (N_ascii_bounded c). rewrite Z.mod_small, N2Z.id by lia. apply ascii_N_embedding.
Qed.

(** What was encrypted for a context is decrypted for it. *)
Lemma Decrypt_Encrypt e nonce p ctx :
  length nonce = nonceSize -> Decrypt e (Encrypt e nonce p ctx) ctx = Ok p.
Proof.
  intros Hn. unfold Decrypt, Encrypt. cbv zeta.
  rewrite base64_round_trip by apply byte_val_is_byte. rewrite byte_of_val.
  rewrite length_app, gcm_seal_length, Hn.
  replace (nonceSize + (length p + tagSize) <? nonceSize + tagSize)%nat with false
    by (symmetry; apply Nat.ltb_ge; lia).
  rewrite <- Hn, take_app_length, drop_app_length. by rewrite gcm_open_seal.
Qed.

Context (oldEnc newEnc : Encrypter).
Local Abbreviation nonces := (Forall (fun n : bytes => length n = nonceSize)).

Lemma reencrypt_rows_spec c items rows rs rows' rs' :
  reencrypt_rows oldEnc newEnc c items rows rs = Ok (rows', rs') ->
  NoDup (map fst items) -> nonces rs ->
  (forall id, id ∉ map fst items -> rows' !! id = rows !! id) /\
  (forall id s, (id, s) ∈ items -> exists p s', Decrypt oldEnc s (context c id) = Ok p /\
     rows' !! id = Some (Some s') /\ Decrypt newEnc s' (context c id) = Ok p) /\ nonces rs'.
Proof.
  revert rows rs. induction items as [|[i x] items IH]; intros rows rs Hr Hnd Hrs.
  { injection Hr as <- <-. split_and!; [done| |done]. intros id s Hin. by apply not_elem_of_nil in Hin. }
  cbn [reencrypt_rows] in Hr. destruct (Decrypt oldEnc x (context c i)) as [p|] eqn:Ed; [|done].
  destruct rs as [|nonce rs]; [done|]. apply Forall_cons_1 in Hrs as [Hn Hrs].
  cbn [map fst] in *. apply list.NoDup_cons in Hnd as [Hni Hnd].
  destruct (IH _ _ Hr Hnd Hrs) as (Hother & Hitems & Hrs'). split_and!; [| |done].
  - intros id Hid. apply not_elem_of_cons in Hid as [Hne Hid]. rewrite Hother by done.
    by rewrite lookup_insert_ne.
  - intros id s [E|Hin]%elem_of_cons; [|by apply Hitems]. injection E as -> ->. exists p.
    rewrite (Hother i Hni), lookup_insert_eq. eexists. split; [done|]. split; [done|].
    by apply Decrypt_Encrypt.
Qed.

Definition column_rotated (c : encryptedColumn) (d d' : columns) : Prop :=
  forall id, match value d c id with
    | Some (Some s) => exists p s', Decrypt oldEnc s (context c id) = Ok p /\
        value d' c id = Some (Some s') /\ Decrypt newEnc s' (context c id) = Ok p
    | o => value d' c id = o
    end.

Lemma reencryptColumn_spec c d rs d' rs' n :
  reencryptColumn oldEnc newEnc c d rs = Ok (d', rs', n) -> nonces rs ->
  (forall p, p <> place c -> d' !! p = d !! p) /\ column_rotated c d d' /\ nonces rs'.
Proof.
  unfold reencryptColumn. intros Hr Hrs. destruct (d !! place c) as [rows|] eqn:El; [|done].
  destruct (reencrypt_rows _ _ c _ rows rs) as [[rows' rs1]|] eqn:Er; [|done]. injection Hr as <- <- <-.
  destruct (reencrypt_rows_spec _ _ _ _ _ _ Er (filled_NoDup rows) Hrs) as (Hother & Hitems & Hrs').
  split_and!; [|intros id|done].
  - intros p Hp. by rewrite lookup_insert_ne.
  - unfold value. rewrite lookup_insert_eq, El. cbn.
    assert (Hno : (forall s, rows !! id <> Some (Some s)) -> rows' !! id = rows !! id).
    { intros Hn. apply Hother. intros ([j s] & -> & Hin)%list_elem_of_fmap. apply (Hn s).
      by apply filled_spec in Hin. }
    destruct (rows !! id) as [[s|]|] eqn:Ei.
    + by apply Hitems, filled_spec.
    + by apply Hno.
    + by apply Hno.
Qed.

Lemma column_rotated_other c d1 d2 d3 :
  d2 !! place c = d1 !! place c -> column_rotated c d2 d3 -> column_rotated c d1 d3.
Proof. intros E Hc id. specialize (Hc id). unfold value in *. by rewrite E in Hc. Qed.
Lemma column_rotated_later c d1 d2 d3 :
  d3 !! place c = d2 !! place c -> column_rotated c d1 d2 -> column_rotated c d1 d3.
Proof. intros E Hc id. specialize (Hc id). unfold value in *. by rewrite E. Qed.

Lemma reencrypt_all_spec cs d rs counts d' rs' counts' :
  reencrypt_all oldEnc newEnc cs d rs counts = Ok (d', rs', counts') ->
  NoDup (map place cs) -> nonces rs ->
  (forall p, p ∉ map place cs -> d' !! p = d !! p) /\ forall c, c ∈ cs -> column_rotated c d d'.
Proof.
  revert d rs counts. induction cs as [|c cs IH]; intros d rs counts Hr Hnd Hrs.
  { injection Hr as <- <- <-. split; [done|]. intros c Hin. by apply not_elem_of_nil in Hin. }
  cbn [reencrypt_all] in Hr. destruct (reencryptColumn _ _ c d rs) as [[[d1 rs1] n]|] eqn:Ec; [|done].
  cbn [map] in Hnd. apply list.NoDup_cons in Hnd as [Hni Hnd].
  destruct (reencryptColumn_spec _ _ _ _ _ _ Ec Hrs) as (Hother1 & Hcol & Hrs1).
  destruct (IH _ _ _ Hr Hnd Hrs1) as (Hother & Hcols). split.
  - intros p Hp. cbn [map] in Hp. apply not_elem_of_cons in Hp as [Hne Hp]. rewrite Hother by done. by apply Hother1.
  - intros x [->|Hx]%elem_of_cons.
    + by eapply column_rotated_later, Hcol; apply Hother.
    + eapply column_rotated_other; [|by apply Hcols]. apply Hother1. intros E. apply Hni.
      rewrite <- E. by apply list_elem_of_fmap_2.
Qed.
End laws.

(** ** The check of the schema *)
#[local] Open Scope store_scope.

Definition same_data (w w' : World) : Prop := db w' = db w /\ random w' = random w.
Lemma same_data_refl w : same_data w w.
Proof. by split. Qed.
Lemma same_data_trans u v w : same_data u v -> same_data v w -> same_data u w.
Proof. intros [] []. split; congruence. Qed.

Lemma same_data_query {A} (f : World -> result sec_err A) : respects same_data (query ErrBackend f).
Proof. apply respects_call; try done; try apply same_data_trans. Qed.

Lemma count_unknown_same ps : respects same_data (count_unknown ps).
Proof.
  induction ps as [|p ps IH]; cbn [count_unknown]; [intros w; apply same_data_refl|].
  apply respects_bind; [apply same_data_trans|apply same_data_query|]. intros n.
  destruct (0 <? n)%nat; [intros w; apply same_data_refl|].
  apply respects_bind; [apply same_data_trans|done|]. intros rest w. apply same_data_refl.
Qed.

Lemma checkSchemaCovered_same : respects same_data checkSchemaCovered.
Proof.
  apply respects_bind; [apply same_data_trans|apply same_data_query|]. intros unknown.
  apply respects_bind; [apply same_data_trans|apply count_unknown_same|]. intros l w. apply same_data_refl.
Qed.

Lemma query_answered {A} (f : World -> result sec_err A) w a w' :
  query ErrBackend f w = (Ok a, w') -> exists w1, same_data w w1 /\ f w1 = Ok a /\ w' = w1.
Proof.
  intros [Hq|[fs Hq]]%call_ok; injection Hq as Hf <-.
  - by exists w.
  - by exists (with_faults fs w).
Qed.

Lemma count_unknown_ok ps w l w' :
  count_unknown ps w = (Ok l, w') -> forall p, p ∈ ps -> filled (default ∅ (db w !! p)) = [].
Proof.
  revert w l w'. induction ps as [|q ps IH]; intros w l w' Hc p Hin; [by apply not_elem_of_nil in Hin|].
  cbn [count_unknown] in Hc. apply bind_ok in Hc as (n & w1 & Hq & Hc).
  apply query_answered in Hq as (w2 & [Hd _] & Hn & ->). injection Hn as <-.
  destruct (Nat.ltb_spec 0 (length (filled (default ∅ (db w2 !! q))))) as [|Hz]; [done|].
  apply bind_ok in Hc as (rest & w3 & Hc & _). apply elem_of_cons in Hin as [->|Hin].
  - rewrite <- Hd. apply nil_length_inv. lia.
  - rewrite <- Hd. by eapply IH.
Qed.

Lemma unknown_columns_spec d p :
  p ∈ unknown_columns d <->
  is_Some (d !! p) /\ has_suffix "_encrypted" (snd p) = true /\ p ∉ map place encryptedColumns.
Proof.
  unfold unknown_columns. rewrite list_elem_of_filter. split.
  - intros [[Hs Hn] ([q rows] & -> & Hin%elem_of_map_to_list)%list_elem_of_fmap]. cbn in *. by eauto.
  - intros ([rows Hl] & Hs & Hn). split; [done|]. apply list_elem_of_fmap. exists (p, rows).
    split; [done|by apply elem_of_map_to_list].
Qed.

Lemma checkSchemaCovered_ok w l w' : checkSchemaCovered w = (Ok l, w') -> covered (db w).
Proof.
  intros Hc. apply bind_ok in Hc as (unknown & w1 & Hq & Hc).
  apply query_answered in Hq as (w2 & [Hd _] & Hn & ->). injection Hn as <-.
  apply bind_ok in Hc as (skipped & w3 & Hc & _).
  intros p rows Hl Hs Hn. pose proof (count_unknown_ok _ _ _ _ Hc p) as Hf. rewrite Hd, Hl in Hf.
  apply Hf, unknown_columns_spec. eauto.
Qed.

(** ** The whole rotation *)
Section theorems.
Context `{CryptoLaws}.
Local Abbreviation nonces := (Forall (fun n : bytes => length n = nonceSize)).

Lemma reencrypt_rotates oe ne w r w' :
  nonces (random w) -> reencrypt oe ne w = (r, w') ->
  (is_ok r = false /\ same_data w w') \/ rotated oe ne (db w) (db w').
Proof.
  intros Hn Hr.
  assert (Hbody : forall u, same_data w u ->
    let x := match reencrypt_all oe ne encryptedColumns (db u) (random u) ∅ with
             | Err e => (Err e, u)
             | Ok (d, rs, counts) => (Ok counts, set_db d rs u)
             end in
    (is_ok (fst x) = false /\ same_data w (snd x)) \/ rotated oe ne (db w) (db (snd x))).
  { intros u [Hd Hrs]. rewrite Hd, Hrs.
    destruct (reencrypt_all _ _ _ _ _ _) as [[[d rs] counts]|e] eqn:E; [right|left; by repeat split].
    destruct (reencrypt_all_spec _ _ _ _ _ _ _ _ _ E places_distinct Hn) as (Hother & Hcols).
    split; [exact Hother|]. intros c id Hc. exact (Hcols c Hc id). }
  unfold reencrypt, call in Hr. destruct (faults_of w) as [|[] fs].
  - specialize (Hbody w (same_data_refl w)). rewrite Hr in Hbody. exact Hbody.
  - specialize (Hbody (with_faults fs w) ltac:(by split)). cbv zeta in Hbody. rewrite Hr in Hbody. exact Hbody.
  - injection Hr as <- <-. left. by repeat split.
  - injection Hr as <- <-. specialize (Hbody (with_faults fs w) ltac:(by split)).
    destruct Hbody as [[_ Hs]|Hs]; [by left|by right].
Qed.
End theorems.

(** C28: rotating the key is all or nothing. Whatever fails, either nothing changed and the caller
    is told of an error, or both keys were valid, no column outside the list held a secret, and
    every secret of the database, and nothing else of it, was written anew: what opened with the
    old key opens with the new one, to the same plaintext and under the same context, and what
    was NULL is NULL. A success is never reported of anything else. *)
Theorem rotation_is_all_or_nothing `{CryptoLaws} oldHex newHex w r w'
  (Hn : Forall (fun n : bytes => length n = nonceSize) (random w))
  (Hr : RotateEncryptionKey oldHex newHex w = (r, w')) :
  (is_ok r = false /\ db w' = db w) \/
  exists oe ne, NewEncrypter oldHex = Ok oe /\ NewEncrypter newHex = Ok ne /\ covered (db w) /\
    rotated oe ne (db w) (db w') /\
    forall c id p, c ∈ encryptedColumns ->
      (exists s, value (db w) c id = Some (Some s) /\ Decrypt oe s (context c id) = Ok p) <->
      (exists s, value (db w') c id = Some (Some s) /\ Decrypt ne s (context c id) = Ok p).
Proof.
  unfold RotateEncryptionKey, bind, answer in Hr.
  destruct (NewEncrypter oldHex) as [oe|e] eqn:Eo; [|injection Hr as <- <-; by left].
  destruct (NewEncrypter newHex) as [ne|e] eqn:En; [|injection Hr as <- <-; by left].
  pose proof (checkSchemaCovered_same w) as [Hd Hrs].
  destruct (checkSchemaCovered w) as [[l|e] w1] eqn:Ec; cbn [snd] in Hd, Hrs.
  2: { injection Hr as <- <-. by left. }
  apply checkSchemaCovered_ok in Ec. rewrite <- Hrs in Hn.
  destruct (reencrypt oe ne w1) as [rr w2] eqn:Er.
  pose proof (reencrypt_rotates oe ne w1 rr w2 Hn Er) as Hrot.
  assert (Hw : w' = w2 /\ is_ok r = is_ok rr) by (by destruct rr; injection Hr as <- <-).
  destruct Hw as [-> Hok]. rewrite Hd in Hrot. unfold same_data in Hrot. rewrite Hd in Hrot.
  destruct Hrot as [[Hf [Hs _]]|Hrot]; [left; split; [congruence|done]|].
  right. exists oe, ne. split_and!; [done..|]. intros c id p Hc.
  pose proof (ro_value _ _ _ _ Hrot c id Hc) as Hv. split.
  - intros (s & Hs & Hp). rewrite Hs in Hv. destruct Hv as (q & s' & Hq & Hs' & Hd'). exists s'.
    split; [done|]. congruence.
  - intros (s' & Hs' & Hp). destruct (value (db w) c id) as [[s|]|]; [|congruence..].
    destruct Hv as (q & s2 & Hq & Hs2 & Hd'). exists s. split; [done|]. congruence.
Qed.

(** ** When it succeeds *)
Definition secrets_in (d : columns) (cs : list encryptedColumn) : nat :=
  sum_list_with (fun c => length (filled (default ∅ (d !! place c)))) cs.

Section success.
Context `{CryptoLaws} (oe ne : Encrypter).

Lemma reencrypt_rows_succeeds c items rows rs :
  (forall id s, (id, s) ∈ items -> is_ok (Decrypt oe s (context c id)) = true) ->
  (length items <= length rs)%nat ->
  exists rows' rs', reencrypt_rows oe ne c items rows rs = Ok (rows', rs') /\
    length rs = (length items + length rs')%nat.
Proof.
  revert rows rs. induction items as [|[id s] items IH]; intros rows rs Hop Hlen; [by exists rows, rs|].
  cbn [reencrypt_rows]. pose proof (Hop id s ltac:(by left)) as Hd.
  destruct (Decrypt oe s (context c id)) as [p|]; [|done].
  destruct rs as [|nonce rs]; [simpl in Hlen; lia|]. simpl in Hlen.
  destruct (IH (<[id := Some (Encrypt ne nonce p (context c id))]> rows) rs) as (rows' & rs' & Hr & Hl).
  - intros id' s' Hin. apply Hop. by right.
  - lia.
  - exists rows', rs'. split; [done|]. simpl. lia.
Qed.

Lemma reencrypt_all_succeeds cs d rs counts :
  NoDup (map place cs) ->
  (forall c, c ∈ cs -> is_Some (d !! place c) /\
     forall id s, value d c id = Some (Some s) -> is_ok (Decrypt oe s (context c id)) = true) ->
  (secrets_in d cs <= length rs)%nat ->
  exists x, reencrypt_all oe ne cs d rs counts = Ok x.
Proof.
  revert d rs counts. induction cs as [|c cs IH]; intros d rs counts Hnd Hop Hlen; [by eexists|].
  cbn [map] in Hnd. apply list.NoDup_cons in Hnd as [Hni Hnd].
  cbn [reencrypt_all]. unfold reencryptColumn. destruct (Hop c ltac:(by left)) as [[rows Hl] Hrows].
  unfold secrets_in in Hlen. cbn [sum_list_with] in Hlen. rewrite Hl in *. cbn [default from_option id] in Hlen.
  destruct (reencrypt_rows_succeeds c (filled rows) rows rs) as (rows' & rs' & Hr & Hlen').
  { intros id s Hin%filled_spec. apply Hrows. unfold value. by rewrite Hl. }
  { lia. }
  rewrite Hr. assert (Hsame : forall x, x ∈ cs -> <[place c := rows']> d !! place x = d !! place x).
  { intros x Hx. rewrite lookup_insert_ne; [done|]. intros E. apply Hni. rewrite E.
    by apply list_elem_of_fmap_2. }
  apply IH; [done| |].
  - intros x Hx. unfold value. rewrite (Hsame x Hx). apply Hop. by right.
  - assert (Heq : secrets_in (<[place c := rows']> d) cs = secrets_in d cs); [|unfold secrets_in in *; lia].
    unfold secrets_in. clear -Hsame. induction cs as [|x cs IH]; [done|]. cbn.
    rewrite (Hsame x) by (by left). f_equal. apply IH. intros y Hy. apply Hsame. by right.
Qed.

Lemma reencrypt_all_readable cs d rs counts x :
  reencrypt_all oe ne cs d rs counts = Ok x -> NoDup (map place cs) ->
  Forall (fun n : bytes => length n = nonceSize) rs ->
  forall c, c ∈ cs -> is_Some (d !! place c) /\
    forall id s, value d c id = Some (Some s) -> is_ok (Decrypt oe s (context c id)) = true.
Proof.
  destruct x as [[d' rs'] counts']. intros Hr Hnd Hrs c Hc. split.
  - revert d rs counts Hr Hnd Hrs Hc. induction cs as [|y cs IH]; intros d rs counts Hr Hnd Hrs Hc;
      [by apply not_elem_of_nil in Hc|].
    cbn [reencrypt_all] in Hr. destruct (reencryptColumn oe ne y d rs) as [[[d1 rs1] n]|] eqn:Ec; [|done].
    cbn [map] in Hnd. apply list.NoDup_cons in Hnd as [Hni Hnd].
    destruct (reencryptColumn_spec _ _ _ _ _ _ _ _ Ec Hrs) as (Hother & _ & Hrs1).
    apply elem_of_cons in Hc as [->|Hc].
    + unfold reencryptColumn in Ec. by destruct (d !! place y).
    + rewrite <- Hother; [by eapply IH|]. intros E. apply Hni. rewrite <- E. by apply list_elem_of_fmap_2.
  - intros id s Hs. destruct (reencrypt_all_spec _ _ _ _ _ _ _ _ _ Hr Hnd Hrs) as [_ Hcols].
    specialize (Hcols c Hc id). rewrite Hs in Hcols. by destruct Hcols as (p & s' & -> & _).
Qed.

Lemma count_unknown_empty ps (w : World) :
  faults w = [] -> (forall p, p ∈ ps -> filled (default ∅ (db w !! p)) = []) ->
  count_unknown ps w = (Ok ps, w).
Proof.
  intros Hf. induction ps as [|p ps IH]; intros Hps; [done|]. cbn [count_unknown]. unfold bind, query.
  rewrite call_fine by done. rewrite (Hps p) by (by left). cbn [length Nat.ltb Nat.leb].
  rewrite IH; [done|]. intros q Hq. apply Hps. by right.
Qed.
End success.

(** A rotation that succeeded ran over everything. *)
Lemma rotation_ran `{CryptoLaws} oldHex newHex w res w' :
  RotateEncryptionKey oldHex newHex w = (Ok res, w') ->
  exists oe ne x, NewEncrypter oldHex = Ok oe /\ NewEncrypter newHex = Ok ne /\ covered (db w) /\
    reencrypt_all oe ne encryptedColumns (db w) (random w) ∅ = Ok x.
Proof.
  unfold RotateEncryptionKey, bind, answer. intros E.
  destruct (NewEncrypter oldHex) as [oe|]; [|done]. destruct (NewEncrypter newHex) as [ne|]; [|done].
  pose proof (checkSchemaCovered_same w) as [Hd Hrs].
  destruct (checkSchemaCovered w) as [[l|] w1] eqn:Ec; [|done]. cbn [snd] in Hd, Hrs.
  destruct (reencrypt oe ne w1) as [[counts|] w2] eqn:Er; [|done].
  assert (Hb : exists u, same_data w1 u /\
    is_ok (reencrypt_all oe ne encryptedColumns (db u) (random u) ∅) = true).
  { unfold reencrypt in Er. apply call_ok in Er as [Er|[fs Er]].
    - exists w1. split; [by split|]. by destruct (reencrypt_all _ _ _ _ _ _).
    - exists (with_faults fs w1). split; [by split|]. by destruct (reencrypt_all _ _ _ _ _ _). }
  destruct Hb as (u & [Hdu Hru] & Hx). rewrite Hdu, Hru, Hd, Hrs in Hx.
  destruct (reencrypt_all _ _ _ _ _ _) as [x|] eqn:Ex in Hx; [|done]. exists oe, ne, x.
  split; [done|]. split; [done|]. split; [|done]. by eapply checkSchemaCovered_ok.
Qed.

(** When a rotation succeeds. With both keys valid, nothing failing and randomness enough, it
    succeeds exactly if every listed column exists, the old key opens every value in it, and
    no other column holds a secret: a single value the old key does not open stops it. *)
Theorem rotation_succeeds_iff `{CryptoLaws} oldHex newHex oe ne w
  (Ho : NewEncrypter oldHex = Ok oe) (Hn : NewEncrypter newHex = Ok ne) (Hf : faults w = [])
  (Hr : Forall (fun n : bytes => length n = nonceSize) (random w))
  (Hlen : (secrets_in (db w) encryptedColumns <= length (random w))%nat) :
  is_ok (fst (RotateEncryptionKey oldHex newHex w)) = true <-> covered (db w) /\ readable oe (db w).
Proof.
  split.
  - intros Hok. destruct (RotateEncryptionKey oldHex newHex w) as [[res|e] w'] eqn:E; [|done].
    destruct (rotation_ran _ _ _ _ _ E) as (oe' & ne' & x & Ho' & Hn' & Hcov & Hx).
    split; [done|]. assert (oe' = oe) as -> by congruence.
    intros c Hc. by eapply (reencrypt_all_readable oe ne' _ _ _ _ _ Hx places_distinct Hr).
  - intros [Hcov Hread]. unfold RotateEncryptionKey, bind, answer. rewrite Ho, Hn.
    unfold checkSchemaCovered, bind. unfold query at 1. rewrite call_fine by done. rewrite count_unknown_empty.
    + cbn [fst ret]. unfold ret, reencrypt. rewrite call_fine by done.
      destruct (reencrypt_all_succeeds oe ne encryptedColumns (db w) (random w) ∅ places_distinct Hread Hlen)
        as [[[d rs] counts] E]. by rewrite E.
    + done.
    + intros p ([rows Hl] & Hs & Hp)%unknown_columns_spec. rewrite Hl. cbn. by eapply Hcov.
Qed.

(** A row whose value was never filled in, as [SetEnv] of the Node applications leaves one when
    its second statement fails, stops every rotation. *)
Lemma an_empty_value_stops_rotation `{CryptoLaws} oldHex newHex w id :
  value (db w) (col "node_environment" "id" "value_encrypted" "node_environment") id = Some (Some ""%string) ->
  Forall (fun n : bytes => length n = nonceSize) (random w) ->
  is_ok (fst (RotateEncryptionKey oldHex newHex w)) = false.
Proof.
  intros Hv Hn. destruct (RotateEncryptionKey oldHex newHex w) as [[res|e] w'] eqn:E; [exfalso|done].
  destruct (rotation_ran _ _ _ _ _ E) as (oe & ne & x & _ & _ & _ & Hx).
  set (c := col _ _ _ _) in Hv.
  assert (Hc : c ∈ encryptedColumns) by (unfold encryptedColumns; set_solver).
  destruct (reencrypt_all_readable oe ne _ _ _ _ _ Hx places_distinct Hn c Hc) as [_ Hop].
  by specialize (Hop id ""%string Hv).
Qed.

Module Rotation.
(** A cipher of the right shape whose tag depends on the key and on the context. *)
Definition tag (k ad : bytes) : bytes := (take 8 (k ++ repeat zero 8) ++ take 8 (ad ++ repeat zero 8))%list.
#[local] Instance keyed_crypto : Crypto := {
  hkdf_key _ _ _ n := Some (repeat zero n);
  gcm_seal k _ p ad := (p ++ tag (rev k) (rev ad))%list;
  gcm_open k _ c ad :=
    let n := (length c - tagSize)%nat in
    if (tagSize <=? length c)%nat && bool_decide (drop n c = tag (rev k) (rev ad))
    then Some (take n c) else None;
}.

Lemma length_tag k ad : length (tag k ad) = tagSize.
Proof. unfold tag. rewrite length_app, !length_take, !length_app, !repeat_length. unfold tagSize. lia. Qed.

#[local] Instance keyed_laws : CryptoLaws.
Proof.
  split.
  - intros secret salt info n. exists (repeat zero n). split; [done|apply repeat_length].
  - intros k n p ad. change (length (p ++ tag (rev k) (rev ad)) = (length p + tagSize)%nat).
    by rewrite length_app, length_tag.
  - intros k n p ad. cbn [gcm_open gcm_seal keyed_crypto]. cbv zeta. rewrite length_app, length_tag.
    replace (length p + tagSize - tagSize)%nat with (length p) by lia.
    rewrite take_app_length, drop_app_length, bool_decide_true by done.
    by destruct (Nat.leb_spec tagSize (length p + tagSize)); [|lia].
Qed.

Fixpoint hex_of (pair : string) (n : nat) : string :=
  match n with O => "" | S n => pair ++ hex_of pair n end.
Definition key_a : string := hex_of "a1" 32.
Definition key_b : string := hex_of "b2" 32.
Definition enc (hex : string) : Encrypter :=
  match NewEncrypter hex with Ok e => e | Err _ => {| aead_key := []; panelBackupKey := [] |} end.
Definition nonce : bytes := repeat zero nonceSize.
Definition sealed (e : Encrypter) (text ctx : string) : string := Encrypt e nonce (String.list_ascii_of_string text) ctx.

(** A panel with one second factor, one channel, and a table laid down ahead of its code. *)
Definition empty_tables : columns := list_to_map (map (fun c => (place c, ∅)) encryptedColumns).
Definition panel (ctx : string) : World := {|
  db := <[("dns_cloudflare", "api_token_encrypted")%string := ∅]>
        (<[("notification_channels", "credentials_encrypted")%string :=
             {[ "c1"%string := Some (sealed (enc key_a) "bot token" ctx) ]}]>
        (<[("two_factor_auth", "secret_encrypted")%string :=
             {[ "u1"%string := Some (sealed (enc key_a) "AEBAG" "two_factor_auth:u1") ]}]> empty_tables));
  random := [nonce; nonce; nonce]; faults := [] |}.
Definition whole : World := panel "notification_channel:c1".

Lemma nonces_fit : Forall (fun n : bytes => length n = nonceSize) (random whole).
Proof. repeat (apply Forall_cons; [vm_compute; reflexivity|]). apply Forall_nil. Qed.

Lemma rotation_is_all_or_nothing_witness :
  exists w', RotateEncryptionKey key_a key_b whole = w' /\ is_ok (fst w') = true /\
    rotated (enc key_a) (enc key_b) (db whole) (db (snd w')).
Proof.
  exists (RotateEncryptionKey key_a key_b whole). split; [reflexivity|].
  assert (Hok : is_ok (fst (RotateEncryptionKey key_a key_b whole)) = true) by (vm_compute; reflexivity).
  split; [exact Hok|].
  destruct (rotation_is_all_or_nothing key_a key_b whole _ _ nonces_fit
              (surjective_pairing (RotateEncryptionKey key_a key_b whole)))
    as [[Hf _]|(oe & ne & Ho & Hn & _ & Hrot & _)]; [congruence|].
  unfold enc. rewrite Ho, Hn. exact Hrot.
Defined.

Lemma rotation_succeeds_iff_witness : covered (db whole) /\ readable (enc key_a) (db whole).
Proof.
  assert (Ho : NewEncrypter key_a = Ok (enc key_a)) by (vm_compute; reflexivity).
  assert (Hn : NewEncrypter key_b = Ok (enc key_b)) by (vm_compute; reflexivity).
  assert (Hl : (secrets_in (db whole) encryptedColumns <= length (random whole))%nat) by (vm_compute; lia).
  apply (proj1 (rotation_succeeds_iff key_a key_b _ _ whole Ho Hn eq_refl nonces_fit Hl)).
  vm_compute. reflexivity.
Defined.

(** A channel whose creation stopped before its credentials were sealed again for its row stops
    the rotation of everything. *)
Definition half_created : World := panel "notification_channel:pending".
Lemma a_half_created_channel_stops_rotation :
  fst (RotateEncryptionKey key_a key_b half_created) = Err ErrDecryptFailed.
Proof. vm_compute. reflexivity. Qed.

(** The answer to the commit lost: everything changed, and the caller says nothing did. *)
Lemma a_lost_answer_is_not_nothing :
  let '(r, w') := RotateEncryptionKey key_a key_b
    {| db := db whole; random := random whole; faults := [Fine; Fine; NoReply] |} in
  r = Err ErrBackend /\ bool_decide (db w' !! ("two_factor_auth", "secret_encrypted")%string
    = db whole !! ("two_factor_auth", "secret_encrypted")%string) = false.
Proof. vm_compute. split; reflexivity. Qed.
End Rotation.
