(* ===== verification/TwoFactor.v ===== *)
(** * The second factor ([api/internal/twofactor/twofactor.go], [recovery.go],
    [api/internal/auth/service.go])

    Enrolments and one-time recovery codes in PostgreSQL, one definition per statement or
    transaction, and the use cases over them. Every call may fail before or after it took
    effect; the secrets, nonces and letters to be drawn are part of the world. *)

From stdpp Require Import gmap.
From S2P Require Import Prelude Store GoStr GoTime Totp Seal Secrets.

#[local] Open Scope Z_scope.

Inductive tf_err :=
| ErrNotEnrolled | ErrNotEnabled | ErrAlreadyEnabled | ErrTwoFactorEnabled | ErrInvalidTOTP
| ErrInvalidCredentials | ErrUserNotFound | ErrMalformedCode | ErrSecret | ErrRandom | ErrBackend.
#[global] Instance tf_err_eq_dec : EqDecision tf_err.
Proof. solve_decision. Defined.

(** ** Recovery codes as text ([recovery.go]) *)
Definition RecoveryCodeCount : nat := 10.
Definition recoveryCodeLength : nat := 16.
Definition recoveryAlphabet : string := "23456789abcdefghjkmnpqrstuvwxyz".
Definition recoveryHashLabel : string := "jothost two-factor recovery code v1".

Definition alphabet_char (n : Z) : ascii := default "2"%char (String.get (Z.to_nat n) recoveryAlphabet).

(** The loop over the characters; [i] is the index in the code. *)
Fixpoint format_go (i : nat) (raw : string) : string :=
  match raw with
  | "" => ""
  | String r raw =>
      let rest := String r (format_go (S i) raw) in
      if (0 <? i)%nat && (i mod 4 =? 0)%nat then String "-" rest else rest
  end%string.
Definition formatRecoveryCode (raw : string) : string := format_go 0 raw.

Fixpoint draw_raw (n : nat) (letters : list Z) : option (string * list Z) :=
  match n with
  | O => Some (""%string, letters)
  | S n =>
      match letters with
      | [] => None
      | l :: letters =>
          '(raw, rest) ← draw_raw n letters; Some (String (alphabet_char l) raw, rest)
      end
  end.

Fixpoint draw_codes (k : nat) (letters : list Z) : option (list string * list Z) :=
  match k with
  | O => Some ([], letters)
  | S k =>
      '(raw, letters) ← draw_raw recoveryCodeLength letters;
      '(codes, rest) ← draw_codes k letters; Some (formatRecoveryCode raw :: codes, rest)
  end.

Definition separator (r : ascii) : bool :=
  Ascii.eqb r "-" || Ascii.eqb r " " || Ascii.eqb r "009".

(** The loop of [NormalizeRecoveryCode], over the bytes of the input: the Kelvin sign, whose
    lower case is the letter k, is the one character outside ASCII that is accepted. *)
Fixpoint normalize_go (input : string) : option string :=
  match input with
  | "" => Some ""
  | String "226" (String "132" (String "170" input)) => String "k" <$> normalize_go input
  | String r input =>
      let r := lower_char r in
      if separator r then normalize_go input
      else if contains_char r recoveryAlphabet then String r <$> normalize_go input
      else None
  end%string.

Definition NormalizeRecoveryCode (input : string) : option string :=
  match normalize_go input with
  | Some out => if (String.length out =? recoveryCodeLength)%nat then Some out else None
  | None => None
  end.

(** SHA-256 in hexadecimal. *)
Class RecoveryHash := { sha256_hex : string -> string }.

Definition nul : string := String "000" "".
Definition hashRecoveryCode `{RecoveryHash} (userID normalized : string) : string :=
  sha256_hex (recoveryHashLabel ++ nul ++ userID ++ nul ++ normalized).

(** ** State *)
Record Enrolment := { Enabled : bool; CreatedAt : Z; UpdatedAt : Z; secretEncrypted : string }.

(** Enrolments by user; codes by user and hash, which are unique together, with when they were
    used. *)
Record Database := {
  enrolments : gmap string Enrolment;
  recovery_codes : gmap (string * string) (option Z);
}.

Record Event := { e_UserID : string; e_Action : string; e_Success : bool }.

Record World := {
  db : Database;
  users : gmap string string;  (** the password hash of each account *)
  audit : list Event;
  now : Z;
  seeds : list (list Z);       (** the bytes of the secrets to come *)
  nonces : list bytes;
  letters : list Z;
  faults : list fault;
}.

Definition set_db (d : Database) (w : World) : World := {|
  db := d; users := users w; audit := audit w; now := now w; seeds := seeds w; nonces := nonces w;
  letters := letters w; faults := faults w |}.
Definition set_audit (l : list Event) (w : World) : World := {|
  db := db w; users := users w; audit := l; now := now w; seeds := seeds w; nonces := nonces w;
  letters := letters w; faults := faults w |}.
Definition set_chance (s : list (list Z)) (n : list bytes) (l : list Z) (w : World) : World := {|
  db := db w; users := users w; audit := audit w; now := now w; seeds := s; nonces := n;
  letters := l; faults := faults w |}.

#[global] Instance World_faulty : Faulty World := {
  faults_of := faults;
  with_faults fs w := {|
    db := db w; users := users w; audit := audit w; now := now w; seeds := seeds w;
    nonces := nonces w; letters := letters w; faults := fs |} }.

Local Abbreviation M := (Store.M World tf_err).
Local Abbreviation call := (Store.call ErrBackend).
Local Abbreviation query := (Store.query ErrBackend).
#[local] Open Scope store_scope.

Definition record (user action : string) (ok : bool) : M unit :=
  update (fun w => set_audit (audit w ++ [{| e_UserID := user; e_Action := action; e_Success := ok |}])%list w).

(** ** Statements and transactions *)

(** The upsert of [StartEnrolment]. *)
Definition store_secret (user ciphertext : string) (t : Z) (d : Database) : Database :=
  let e := {| Enabled := false; secretEncrypted := ciphertext; UpdatedAt := t;
              CreatedAt := match enrolments d !! user with Some e => CreatedAt e | None => t end |} in
  {| enrolments := <[user := e]> (enrolments d); recovery_codes := recovery_codes d |}.

(** A deleted enrolment takes its codes with it, by the foreign key. *)
Definition delete_enrolment (user : string) (d : Database) : Database :=
  {| enrolments := delete user (enrolments d);
     recovery_codes := filter (fun x => fst (fst x) <> user) (recovery_codes d) |}.

Definition switched_on (t : Z) (e : Enrolment) : Enrolment :=
  {| Enabled := true; CreatedAt := CreatedAt e; UpdatedAt := t; secretEncrypted := secretEncrypted e |}.

Section codes.
Context `{RecoveryHash}.

Fixpoint insert_codes (user : string) (codes : list string) (m : gmap (string * string) (option Z))
  : result tf_err (gmap (string * string) (option Z)) :=
  match codes with
  | [] => Ok m
  | code :: codes =>
      match NormalizeRecoveryCode code with
      | None => Err ErrMalformedCode
      | Some normalized =>
          let k := (user, hashRecoveryCode user normalized) in
          match m !! k with
          | Some _ => Err ErrBackend
          | None => insert_codes user codes (<[k := None]> m)
          end
      end
  end.

Definition replaceRecoveryCodes (user : string) (codes : list string) (d : Database)
  : result tf_err Database :=
  match insert_codes user codes (filter (fun x => fst (fst x) <> user) (recovery_codes d)) with
  | Err e => Err e
  | Ok m => Ok {| enrolments := enrolments d; recovery_codes := m |}
  end.

(** The transaction of [EnableWithRecoveryCodes]. *)
Definition enable (user : string) (codes : list string) (t : Z) (d : Database) : result tf_err Database :=
  match enrolments d !! user with
  | None => Err ErrNotEnrolled
  | Some e =>
      replaceRecoveryCodes user codes
        {| enrolments := <[user := switched_on t e]> (enrolments d); recovery_codes := recovery_codes d |}
  end.

(** The transaction of [RegenerateRecoveryCodes]. *)
Definition regenerate (user : string) (codes : list string) (d : Database) : result tf_err Database :=
  match enrolments d !! user with
  | Some e => if Enabled e then replaceRecoveryCodes user codes d else Err ErrNotEnabled
  | None => Err ErrNotEnabled
  end.
End codes.

Definition enabled_in (d : Database) (user : string) : bool :=
  match enrolments d !! user with Some e => Enabled e | None => false end.

(** The one UPDATE of [UseRecoveryCode]: whether it found a row. *)
Definition spend (user hash : string) (t : Z) (d : Database) : bool * Database :=
  match recovery_codes d !! (user, hash) with
  | Some None =>
      if enabled_in d user
      then (true, {| enrolments := enrolments d;
                     recovery_codes := <[(user, hash) := Some t]> (recovery_codes d) |})
      else (false, d)
  | _ => (false, d)
  end.

Definition codes_of (user : string) (m : gmap (string * string) (option Z)) :=
  filter (fun x => fst (fst x) = user) m.
Definition unused (user : string) (d : Database) : nat :=
  size (filter (fun x => snd x = None) (codes_of user (recovery_codes d))).

(** ** The repository ([twofactor.go], [recovery.go]) *)
Section repository.
Context `{Crypto} `{Hmac} `{RecoveryHash} (encrypter : Encrypter).

Definition encryptionContext (userID : string) : string := "two_factor_auth:" ++ userID.

Definition Get (user : string) : M Enrolment :=
  query (fun w => match enrolments (db w) !! user with Some e => Ok e | None => Err ErrNotEnrolled end).

Definition IsEnabled (user : string) : M bool := query (fun w => Ok (enabled_in (db w) user)).

(** [secrets.NewTOTPSecret]. *)
Definition NewTOTPSecret : M string :=
  fun w => match seeds w with
           | [] => (Err ErrRandom, w)
           | b :: rest => (Ok (GoCodec.base32_encode (take totpSecretSize b)),
                           set_chance rest (nonces w) (letters w) w)
           end.

(** [Encrypt] with the nonce it draws. *)
Definition encrypt (plaintext context : string) : M string :=
  fun w => match nonces w with
           | [] => (Err ErrRandom, w)
           | n :: rest => (Ok (Encrypt encrypter n (String.list_ascii_of_string plaintext) context),
                           set_chance (seeds w) rest (letters w) w)
           end.

(** What [StartEnrolment] does once it has seen no enabled enrolment. *)
Definition replace_secret (user : string) : M string :=
  let! secret := NewTOTPSecret in
  let! ciphertext := encrypt secret (encryptionContext user) in
  call (fun w => (Ok tt, set_db (store_secret user ciphertext (now w) (db w)) w)) ;!
  ret secret.

Definition StartEnrolment (user : string) : M string :=
  let! enabled := IsEnabled user in
  if enabled then fail ErrAlreadyEnabled else replace_secret user.

Definition VerifyCode (user code : string) (t : Z) : M bool :=
  let! enrolment := Get user in
  match Decrypt encrypter (secretEncrypted enrolment) (encryptionContext user) with
  | Err _ => fail ErrSecret
  | Ok secret =>
      match VerifyTOTP (String.string_of_list_ascii secret) code t with
      | Err _ => fail ErrSecret
      | Ok valid => ret valid
      end
  end.

Definition Disable (user : string) : M unit :=
  call (fun w => (Ok tt, set_db (delete_enrolment user (db w)) w)).

Definition GenerateRecoveryCodes : M (list string) :=
  fun w => match draw_codes RecoveryCodeCount (letters w) with
           | None => (Err ErrRandom, w)
           | Some (codes, rest) => (Ok codes, set_chance (seeds w) (nonces w) rest w)
           end.

Definition transaction (f : World -> result tf_err Database) : M unit :=
  call (fun w => match f w with Ok d => (Ok tt, set_db d w) | Err e => (Err e, w) end).

Definition EnableWithRecoveryCodes (user : string) : M (list string) :=
  let! codes := GenerateRecoveryCodes in
  transaction (fun w => enable user codes (now w) (db w)) ;!
  ret codes.

Definition RegenerateCodes (user : string) : M (list string) :=
  let! codes := GenerateRecoveryCodes in
  transaction (fun w => regenerate user codes (db w)) ;!
  ret codes.

Definition RecoveryCodesRemaining (user : string) : M nat := query (fun w => Ok (unused user (db w))).

Definition UseRecoveryCode (user input : string) : M (bool * nat) :=
  match NormalizeRecoveryCode input with
  | None => ret (false, O)
  | Some normalized =>
      let! found := call (fun w =>
        let '(found, d) := spend user (hashRecoveryCode user normalized) (now w) (db w) in
        (Ok found, set_db d w)) in
      if found then
        let! remaining := RecoveryCodesRemaining user in
        ret (true, remaining)
      else ret (false, O)
  end.
End repository.

(** ** The use cases ([auth/service.go]) *)

(** [secrets.VerifyPassword]: an error, or whether the password matches the hash. *)
Class Passwords := { VerifyPassword : string -> string -> option bool }.

Section service.
Context `{Crypto} `{Hmac} `{RecoveryHash} `{Passwords} (encrypter : Encrypter).

Definition GetByID (user : string) : M string :=
  query (fun w => match users w !! user with Some h => Ok h | None => Err ErrUserNotFound end).

(** The secret is returned with its provisioning address. *)
Definition SetupTwoFactor (user : string) : M string :=
  let! _ := GetByID user in
  let! enabled := IsEnabled user in
  if enabled then fail ErrTwoFactorEnabled
  else
    let! secret := StartEnrolment encrypter user in
    record user "user.2fa_setup" true ;!
    ret secret.

Definition EnableTwoFactor (user code : string) : M (list string) :=
  let! t := get now in
  let! valid := VerifyCode encrypter user code t in
  if negb valid then record user "user.2fa_failed" false ;! fail ErrInvalidTOTP
  else
    let! codes := EnableWithRecoveryCodes user in
    record user "user.2fa_enabled" true ;!
    ret codes.

Definition password_checked {A} (user password action : string) (k : M A) : M A :=
  let! hash := GetByID user in
  match VerifyPassword password hash with
  | None => fail ErrBackend
  | Some matched =>
      if negb matched then record user action false ;! fail ErrInvalidCredentials else k
  end.

Definition RegenerateRecoveryCodes (user password : string) : M (list string) :=
  password_checked user password "user.2fa_recovery_codes_regenerated"
    (let! codes := RegenerateCodes user in
     record user "user.2fa_recovery_codes_regenerated" true ;!
     ret codes).

Definition DisableTwoFactor (user password : string) : M unit :=
  password_checked user password "user.2fa_disabled"
    (Disable user ;! record user "user.2fa_disabled" true).
End service.

(** ** Codes as they are typed *)

(** [typed raw s]: [s] is the code [raw] as somebody may copy it, with dashes and blanks
    anywhere and in either case. *)
Inductive typed : string -> string -> Prop :=
| typed_nil : typed "" ""
| typed_separator r raw s : separator r = true -> typed raw s -> typed raw (String r s)
| typed_letter r raw s : typed raw s -> typed (String (lower_char r) raw) (String r s).

Definition in_alphabet (a : ascii) : bool := contains_char a recoveryAlphabet.

Lemma normalize_go_cons r s : r <> "226"%char ->
  normalize_go (String r s) =
    let r := lower_char r in
    if separator r then normalize_go s
    else if contains_char r recoveryAlphabet then String r <$> normalize_go s else None.
Proof. intros Hr. destruct r as [[] [] [] [] [] [] [] []]; done. Qed.

Lemma alphabet_facts a : in_alphabet a = true -> separator a = false /\ lower_char a = a.
Proof. destruct a as [[] [] [] [] [] [] [] []]; cbv; (done || auto). Qed.

Lemma separator_facts r : separator r = true -> separator (lower_char r) = true /\ r <> "226"%char.
Proof. destruct r as [[] [] [] [] [] [] [] []]; cbv; (done || (split; congruence)). Qed.

Lemma normalize_typed raw s : typed raw s -> str_forall in_alphabet raw = true -> normalize_go s = Some raw.
Proof.
  induction 1 as [|r raw s Hs _ IH|r raw s _ IH]; intros Hraw; [done| |].
  - destruct (separator_facts r Hs) as [Hl Hne]. rewrite normalize_go_cons by done. cbv zeta.
    rewrite Hl. by apply IH.
  - cbn [str_forall] in Hraw. apply andb_true_iff in Hraw as [Ha Hraw]. rewrite normalize_go_cons.
    + cbv zeta. destruct (alphabet_facts _ Ha) as [-> _]. unfold in_alphabet in Ha. rewrite Ha.
      by rewrite IH.
    + intros ->. discriminate Ha.
Qed.

Lemma format_typed i raw : str_forall in_alphabet raw = true -> typed raw (format_go i raw).
Proof.
  revert i. induction raw as [|r raw IH]; intros i Hraw; [constructor|]. cbn [str_forall] in Hraw.
  apply andb_true_iff in Hraw as [Ha Hraw]. specialize (IH (S i) Hraw).
  assert (Hl : typed (String r raw) (String r (format_go (S i) raw))).
  { destruct (alphabet_facts r Ha) as [_ Hr]. rewrite <- Hr at 1. by constructor. }
  cbn [format_go]. destruct (_ && _); [|done]. by constructor.
Qed.

(** A code of the alphabet and of the right length. *)
Definition well_formed (raw : string) : Prop :=
  str_forall in_alphabet raw = true /\ String.length raw = recoveryCodeLength.

Lemma Normalize_typed raw s : well_formed raw -> typed raw s -> NormalizeRecoveryCode s = Some raw.
Proof.
  intros [Ha Hl] Ht. unfold NormalizeRecoveryCode. by rewrite (normalize_typed raw s), Hl.
Qed.

Lemma get_contains n s a : String.get n s = Some a -> contains_char a s = true.
Proof.
  revert n. induction s as [|b s IH]; intros n Hn; [by destruct n|].
  unfold contains_char in *. cbn. destruct n as [|n]; cbn in Hn.
  - injection Hn as ->. by rewrite Ascii.eqb_refl.
  - rewrite (IH n Hn). apply orb_true_r.
Qed.

Lemma alphabet_char_in n : in_alphabet (alphabet_char n) = true.
Proof.
  unfold in_alphabet, alphabet_char. destruct (String.get _ _) as [a|] eqn:E; [|done].
  by eapply get_contains.
Qed.

Lemma draw_raw_spec n ls raw rest : draw_raw n ls = Some (raw, rest) ->
  str_forall in_alphabet raw = true /\ String.length raw = n.
Proof.
  revert ls raw rest. induction n as [|n IH]; intros ls raw rest Hd; [by injection Hd as <- <-|].
  destruct ls as [|l ls]; [done|]. cbn [draw_raw] in Hd. destruct (draw_raw n ls) as [[raw' rest']|] eqn:E; [|done].
  assert (raw = String (alphabet_char l) raw') as -> by (unfold mbind, option_bind in Hd; congruence).
  destruct (IH _ _ _ E) as [Ha Hl]. cbn [str_forall String.length]. by rewrite alphabet_char_in, Ha, Hl.
Qed.

(** What is shown: codes that are well formed, as many as asked for. *)
Definition shown (code : string) : Prop := exists raw, well_formed raw /\ code = formatRecoveryCode raw.

Lemma draw_codes_spec k ls codes rest : draw_codes k ls = Some (codes, rest) ->
  Forall shown codes /\ length codes = k.
Proof.
  revert ls codes rest. induction k as [|k IH]; intros ls codes rest Hd.
  { injection Hd as <- <-. split; [constructor|done]. }
  cbn [draw_codes] in Hd. destruct (draw_raw _ ls) as [[raw ls']|] eqn:Er; [|done]. cbn in Hd.
  destruct (draw_codes k ls') as [[codes' rest']|] eqn:Ec; [|done]. injection Hd as <- <-.
  destruct (IH _ _ _ Ec) as [Hs Hl]. split; [|cbn; lia]. constructor; [|done].
  exists raw. split; [|done]. by apply draw_raw_spec in Er.
Qed.

Lemma shown_typed code : shown code -> exists raw, well_formed raw /\ typed raw code /\
  NormalizeRecoveryCode code = Some raw.
Proof.
  intros (raw & Hw & ->). assert (Ht : typed raw (formatRecoveryCode raw)) by apply format_typed, Hw.
  exists raw. split; [done|]. split; [done|]. by apply Normalize_typed.
Qed.

(** ** The tables *)
Section tables.
Context `{RecoveryHash}.

(** The hash a code is stored under. *)
Definition hash_of (user code : string) : string :=
  match NormalizeRecoveryCode code with Some n => hashRecoveryCode user n | None => "" end.

Lemma codes_of_ext u m m' : (forall h, m !! (u, h) = m' !! (u, h)) -> codes_of u m = codes_of u m'.
Proof.
  intros He. apply map_eq. intros [v h]. unfold codes_of. rewrite !map_lookup_filter.
  destruct (decide (v = u)) as [->|Hv]; [by rewrite He|].
  by destruct (m !! (v, h)), (m' !! (v, h)); cbn; rewrite ?option_guard_False by done.
Qed.

Lemma codes_of_insert u h o m : codes_of u (<[(u, h) := o]> m) = <[(u, h) := o]> (codes_of u m).
Proof. unfold codes_of. by rewrite map_filter_insert_True. Qed.

Lemma codes_of_lookup u h m : codes_of u m !! (u, h) = m !! (u, h).
Proof. unfold codes_of. rewrite map_lookup_filter. destruct (m !! (u, h)); [|done]. cbn. by rewrite option_guard_True. Qed.

Lemma others_lookup (u v h : string) (m : gmap (string * string) (option Z)) :
  filter (fun x => fst (fst x) <> u) m !! (v, h) = if decide (v = u) then None else m !! (v, h).
Proof.
  rewrite map_lookup_filter. destruct (m !! (v, h)) as [o|]; cbn; destruct (decide (v = u)) as [->|Hv]; try done.
  - by rewrite option_guard_False by auto.
  - by rewrite option_guard_True.
Qed.

(** What the insertions leave: every code unused, and as many more. *)
Lemma insert_codes_spec u codes m m' : insert_codes u codes m = Ok m' ->
  (forall v h, m' !! (v, h) = if decide (v = u /\ h ∈ map (hash_of u) codes) then Some None else m !! (v, h)) /\
  size (codes_of u m') = (size (codes_of u m) + length codes)%nat.
Proof.
  revert m. induction codes as [|code codes IH]; intros m Hi.
  { injection Hi as ->. split; [|cbn; lia]. intros v h. rewrite decide_False; [done|].
    intros [_ Hh]. by apply not_elem_of_nil in Hh. }
  cbn [insert_codes] in Hi. destruct (NormalizeRecoveryCode code) as [n|] eqn:En; [|done].
  assert (Hh : hash_of u code = hashRecoveryCode u n) by (unfold hash_of; by rewrite En).
  cbv zeta in Hi. rewrite <- Hh in Hi. destruct (m !! (u, hash_of u code)) as [o|] eqn:El; [done|].
  destruct (IH _ Hi) as [Hl Hs]. split.
  - intros v h. rewrite Hl. cbn [map]. destruct (decide (v = u /\ h ∈ map (hash_of u) codes)) as [[-> Hin]|Hno].
    + rewrite decide_True; [done|]. split; [done|by right].
    + destruct (decide (v = u /\ h = hash_of u code)) as [[-> ->]|Hne].
      * rewrite lookup_insert_eq, decide_True; [done|]. split; [done|by left].
      * rewrite lookup_insert_ne by (intros E; apply Hne; split; congruence).
        rewrite decide_False; [done|]. intros [-> [->|Hin]%elem_of_cons]; [by apply Hne|by apply Hno].
  - rewrite Hs, codes_of_insert, map_size_insert_None by (by rewrite codes_of_lookup). cbn. lia.
Qed.

Lemma replace_spec u codes d d' : replaceRecoveryCodes u codes d = Ok d' ->
  enrolments d' = enrolments d /\
  (forall v h, recovery_codes d' !! (v, h) =
     if decide (v = u) then if decide (h ∈ map (hash_of u) codes) then Some None else None
     else recovery_codes d !! (v, h)) /\
  size (codes_of u (recovery_codes d')) = length codes.
Proof.
  unfold replaceRecoveryCodes. intros Hr. destruct (insert_codes _ _ _) as [m|] eqn:Ei; [|done].
  injection Hr as <-. destruct (insert_codes_spec _ _ _ _ Ei) as [Hl Hs]. cbn. split; [done|]. split.
  - intros v h. rewrite Hl, others_lookup. repeat case_decide; naive_solver.
  - rewrite Hs. replace (codes_of u _) with (∅ : gmap (string * string) (option Z)); [done|].
    symmetry. apply map_empty. intros [v h]. unfold codes_of. rewrite map_lookup_filter, others_lookup.
    destruct (decide (v = u)); [done|]. destruct (_ !! _); [|done]. cbn. by rewrite option_guard_False.
Qed.
End tables.

(** ** Statements as steps

    What any number of requests do to the tables, in any order: a set issued to a user, a code
    spent, or neither. *)
Inductive label := Issued (user : string) (hashes : list string) | Spent (user hash : string) | Other.

Section steps.
Context `{RecoveryHash}.

Inductive step : Database -> label -> Database -> Prop :=
| step_secret u ct t d : step d Other (store_secret u ct t d)
| step_delete u d : step d Other (delete_enrolment u d)
| step_enable u codes t d d' : length codes = RecoveryCodeCount -> enable u codes t d = Ok d' ->
    step d (Issued u (map (hash_of u) codes)) d'
| step_regenerate u codes d d' : length codes = RecoveryCodeCount -> regenerate u codes d = Ok d' ->
    step d (Issued u (map (hash_of u) codes)) d'
| step_spend u h t d d' : spend u h t d = (true, d') -> step d (Spent u h) d'.

(** The tables belong together: codes are of an enrolment, and an enabled one has its ten. *)
Record whole (d : Database) : Prop := {
  wh_owned : forall u h o, recovery_codes d !! (u, h) = Some o -> is_Some (enrolments d !! u);
  wh_full : forall u, enabled_in d u = true -> size (codes_of u (recovery_codes d)) = RecoveryCodeCount;
}.

Lemma spend_true u h t d d' : spend u h t d = (true, d') ->
  recovery_codes d !! (u, h) = Some None /\ enabled_in d u = true /\
  d' = {| enrolments := enrolments d; recovery_codes := <[(u, h) := Some t]> (recovery_codes d) |}.
Proof.
  unfold spend. intros Hs. destruct (recovery_codes d !! (u, h)) as [[t'|]|]; [done| |done].
  destruct (enabled_in d u); [|done]. by injection Hs as <-.
Qed.

Lemma replace_whole u codes d d' :
  (forall v h o, recovery_codes d !! (v, h) = Some o -> is_Some (enrolments d !! v)) ->
  is_Some (enrolments d !! u) ->
  length codes = RecoveryCodeCount -> replaceRecoveryCodes u codes d = Ok d' ->
  (forall v, v <> u -> enabled_in d v = true -> size (codes_of v (recovery_codes d)) = RecoveryCodeCount) ->
  whole d'.
Proof.
  intros Ho Hu Hlen Hr Hothers. destruct (replace_spec _ _ _ _ Hr) as (He & Hl & Hs). split.
  - intros v h o Hv. rewrite He. rewrite Hl in Hv. destruct (decide (v = u)) as [->|_]; [done|].
    by eapply Ho.
  - intros v Hv. destruct (decide (v = u)) as [->|Hvu]; [congruence|].
    unfold enabled_in in Hv. rewrite He in Hv. rewrite <- (Hothers v Hvu Hv). f_equal.
    apply codes_of_ext. intros h. by rewrite Hl, decide_False.
Qed.

Lemma step_whole d l d' : whole d -> step d l d' -> whole d'.
Proof.
  intros [Ho Hf] Hs. destruct Hs as [u ct t d|u d|u codes t d d' Hlen He|u codes d d' Hlen He|u h t d d' Hs].
  - split; cbn.
    + intros v h o Hv%Ho. destruct (decide (v = u)) as [->|Hne];
        [by rewrite lookup_insert_eq|by rewrite lookup_insert_ne].
    + intros v Hv. apply Hf. unfold enabled_in in *. cbn in Hv.
      destruct (decide (v = u)) as [->|Hne]; [by rewrite lookup_insert_eq in Hv|by rewrite lookup_insert_ne in Hv].
  - split; cbn.
    + intros v h o. rewrite others_lookup. destruct (decide (v = u)) as [->|Hne]; [done|].
      intros Hv%Ho. by rewrite lookup_delete_ne by done.
    + intros v Hv. unfold enabled_in in Hv. cbn in Hv.
      destruct (decide (v = u)) as [->|Hne]; [by rewrite lookup_delete_eq in Hv|].
      rewrite lookup_delete_ne in Hv by done. rewrite <- (Hf v Hv). f_equal. apply codes_of_ext.
      intros h. by rewrite others_lookup, decide_False.
  - unfold enable in He. destruct (enrolments d !! u) as [e|] eqn:Eu; [|done].
    refine (replace_whole u codes _ d' _ _ Hlen He _); cbn.
    + intros v h o Hv. destruct (decide (v = u)) as [->|Hne]; [by rewrite lookup_insert_eq|].
      rewrite lookup_insert_ne by done. by eapply Ho.
    + by rewrite lookup_insert_eq.
    + intros v Hne Hv. apply Hf. unfold enabled_in in *. cbn in Hv. by rewrite lookup_insert_ne in Hv.
  - unfold regenerate in He. destruct (enrolments d !! u) as [e|] eqn:Eu; [|done].
    destruct (Enabled e); [|done]. eapply (replace_whole u codes d); eauto.
  - apply spend_true in Hs as (Hc & Hen & ->). split; cbn.
    + intros v g o Hv. destruct (decide ((u, h) = (v, g))) as [[= <- <-]|Hne]; [by eapply Ho|].
      rewrite lookup_insert_ne in Hv by done. by eapply Ho.
    + intros v Hv. rewrite <- (Hf v Hv). destruct (decide (v = u)) as [->|Hne].
      * rewrite codes_of_insert. eapply map_size_insert_Some. by rewrite codes_of_lookup.
      * f_equal. apply codes_of_ext. intros g. rewrite lookup_insert_ne by congruence. done.
Qed.

(** A code that cannot be spent stays so until it is issued again. *)
Lemma step_dead u h d l d' : step d l d' -> recovery_codes d !! (u, h) <> Some None ->
  (forall hs, l = Issued u hs -> h ∉ hs) -> recovery_codes d' !! (u, h) <> Some None.
Proof.
  intros Hs Hd Hl. destruct Hs as [v ct t d|v d|v codes t d d' _ He|v codes d d' _ He|v g t d d' Hs]; cbn.
  - done.
  - rewrite others_lookup. by destruct (decide _).
  - unfold enable in He. destruct (enrolments d !! v) as [e|]; [|done].
    destruct (replace_spec _ _ _ _ He) as (_ & Hr & _). cbn in Hr. rewrite Hr.
    destruct (decide (u = v)) as [->|]; [|done]. rewrite decide_False; [done|]. by apply Hl.
  - unfold regenerate in He. destruct (enrolments d !! v) as [e|]; [|done]. destruct (Enabled e); [|done].
    destruct (replace_spec _ _ _ _ He) as (_ & Hr & _). rewrite Hr.
    destruct (decide (u = v)) as [->|]; [|done]. rewrite decide_False; [done|]. by apply Hl.
  - apply spend_true in Hs as (_ & _ & ->). cbn. destruct (decide ((v, g) = (u, h))) as [E|E];
      [by rewrite E, lookup_insert_eq|by rewrite lookup_insert_ne].
Qed.

Lemma run_dead u h d ls d' : run step d ls d' -> recovery_codes d !! (u, h) <> Some None ->
  (forall hs, Issued u hs ∈ ls -> h ∉ hs) -> recovery_codes d' !! (u, h) <> Some None.
Proof.
  induction 1 as [|d l d1 ls d2 Hs _ IH]; intros Hd Hl; [done|]. apply IH.
  - eapply step_dead; [done..|]. intros hs ->. apply Hl. by left.
  - intros hs Hin. apply Hl. by right.
Qed.
End steps.

(** ** Requests *)
Section requests.
Context `{Crypto} `{Hmac} `{RecoveryHash} `{Passwords} (encrypter : Encrypter).

(** What a request may ask for. *)
Inductive request :=
| Setup (user : string) | EnableIt (user code : string) | NewCodes (user password : string)
| TurnOff (user password : string) | SignIn (user code : string) | SignInRecovery (user code : string).

Definition serve (r : request) : M unit :=
  match r with
  | Setup u => let! _ := SetupTwoFactor encrypter u in ret tt
  | EnableIt u c => let! _ := EnableTwoFactor encrypter u c in ret tt
  | NewCodes u p => let! _ := RegenerateRecoveryCodes u p in ret tt
  | TurnOff u p => DisableTwoFactor u p
  | SignIn u c => let! t := get now in let! _ := VerifyCode encrypter u c t in ret tt
  | SignInRecovery u c => let! _ := UseRecoveryCode u c in ret tt
  end.

End requests.

(** ** The one effect of a request *)
Section effects.
Context `{Crypto} `{Hmac} `{RecoveryHash} `{Passwords} (encrypter : Encrypter).

(** The tables, the accounts and the clock are the same. *)
Definition same (w w' : World) : Prop := db w' = db w /\ users w' = users w /\ now w' = now w.

Lemma same_here w : same w w.
Proof. done. Qed.
Lemma same_then u v w : same u v -> same v w -> same u w.
Proof. intros (E1 & E2 & E3) (G1 & G2 & G3). split; [congruence|split; congruence]. Qed.
Lemma same_faults fs w : same w (with_faults fs w).
Proof. done. Qed.
#[local] Hint Resolve same_here same_faults : core.

Section outcomes.
Context (Q : Database -> Prop).

Lemma after_quiet {A B} (m : M A) (k : A -> M B) w :
  same w (snd (m w)) -> Q (db w) ->
  (forall a w1, m w = (Ok a, w1) -> same w w1 -> Q (db (snd (k a w1)))) -> Q (db (snd (bind m k w))).
Proof.
  intros Hs Hq Hk. unfold bind. destruct (m w) as [[a|e] w1] eqn:E; cbn in *; [by apply Hk|].
  by destruct Hs as [-> _].
Qed.

Lemma then_quiet {A B} (m : M A) (k : A -> M B) w :
  (forall a w, db (snd (k a w)) = db w) -> Q (db (snd (m w))) -> Q (db (snd (bind m k w))).
Proof. intros Hk Hq. unfold bind. destruct (m w) as [[a|e] w1]; cbn in *; [by rewrite Hk|done]. Qed.

Lemma call_effect {A} (f : World -> result tf_err A * World) w :
  Q (db w) -> (forall w1, same w w1 -> Q (db (snd (f w1)))) -> Q (db (snd (call f w))).
Proof.
  intros Hq Hf. unfold Store.call. destruct (faults_of w) as [|[] fs]; cbn; try (by apply Hf); done.
Qed.
End outcomes.

Lemma quiet_query {A} (f : World -> result tf_err A) w : same w (snd (query f w)).
Proof. unfold Store.query, Store.call. by destruct (faults_of w) as [|[] fs]. Qed.

Lemma query_said {A} (f : World -> result tf_err A) w a w1 :
  query f w = (Ok a, w1) -> exists w0, same w w0 /\ f w0 = Ok a.
Proof.
  intros Hq. apply call_ok in Hq as [Hq|[fs Hq]]; injection Hq as Ha <-; [by exists w|].
  by exists (with_faults fs w).
Qed.

Lemma VerifyCode_same u c t w : same w (snd (VerifyCode encrypter u c t w)).
Proof.
  unfold VerifyCode, bind. pose proof (quiet_query (fun w => match enrolments (db w) !! u with
    | Some e => Ok e | None => Err ErrNotEnrolled end) w) as Hq. unfold Get.
  destruct (Store.query _ _ w) as [[e|err] w1]; cbn in *; [|done].
  repeat case_match; done.
Qed.

(** The code is one the stored secret gives now. *)
Definition accepted (d : Database) (user code : string) (t : Z) : Prop :=
  exists e secret, enrolments d !! user = Some e /\
    Decrypt encrypter (secretEncrypted e) (encryptionContext user) = Ok secret /\
    VerifyTOTP (String.string_of_list_ascii secret) code t = Ok true.

Lemma VerifyCode_accepted u c t w w1 :
  VerifyCode encrypter u c t w = (Ok true, w1) -> accepted (db w) u c t.
Proof.
  unfold VerifyCode. intros (e & w2 & Hg & Hv)%bind_ok. apply query_said in Hg as (w0 & (Hd & _) & He).
  rewrite Hd in He. destruct (enrolments (db w) !! u) as [e'|] eqn:Eu; [|done]. injection He as ->.
  destruct (Decrypt _ _ _) as [secret|] eqn:Ed; [|done].
  destruct (VerifyTOTP _ _ _) as [b|] eqn:Ev; [|done]. injection Hv as -> _. by exists e, secret.
Qed.

Definition knows (w : World) (user password : string) : Prop :=
  exists hash, users w !! user = Some hash /\ VerifyPassword password hash = Some true.

(** What a request may do to the tables. *)
Definition effect (r : request) (w : World) (d : Database) : Prop :=
  d = db w \/
  match r with
  | Setup u => enabled_in (db w) u = false /\ exists ct, d = store_secret u ct (now w) (db w)
  | EnableIt u c => accepted (db w) u c (now w) /\
      exists codes, length codes = RecoveryCodeCount /\ enable u codes (now w) (db w) = Ok d
  | NewCodes u p => knows w u p /\
      exists codes, length codes = RecoveryCodeCount /\ regenerate u codes (db w) = Ok d
  | TurnOff u p => knows w u p /\ d = delete_enrolment u (db w)
  | SignIn _ _ => False
  | SignInRecovery u c => exists raw, NormalizeRecoveryCode c = Some raw /\
      spend u (hashRecoveryCode u raw) (now w) (db w) = (true, d)
  end.

Lemma password_effect {A} (Q : Database -> Prop) u p action (k : M A) w : Q (db w) ->
  (forall w1, same w w1 -> knows w u p -> Q (db (snd (k w1)))) ->
  Q (db (snd (password_checked u p action k w))).
Proof.
  intros Hq Hk. unfold password_checked. apply after_quiet; [apply quiet_query|done|].
  intros hash w1 Hg Hs. apply query_said in Hg as (w0 & (_ & Hu & _) & Hh). rewrite Hu in Hh.
  destruct (users w !! u) as [h|] eqn:Eu; [|done]. injection Hh as ->.
  destruct (VerifyPassword p hash) as [[]|] eqn:Ev; cbn.
  - apply Hk; [done|]. by exists hash.
  - by destruct Hs as [-> _].
  - by destruct Hs as [-> _].
Qed.

Lemma issue_effect (Q : Database -> Prop) (tx : list string -> World -> result tf_err Database) w :
  Q (db w) ->
  (forall codes w1 d, same w w1 -> length codes = RecoveryCodeCount -> tx codes w1 = Ok d -> Q d) ->
  Q (db (snd ((let! codes := GenerateRecoveryCodes in transaction (tx codes) ;! ret codes) w))).
Proof.
  intros Hq Hk. apply after_quiet; [|done|].
  { unfold GenerateRecoveryCodes. by destruct (draw_codes _ _) as [[]|]. }
  intros codes w1 Hg Hs. unfold GenerateRecoveryCodes in Hg.
  destruct (draw_codes _ _) as [[codes' rest]|] eqn:E; [|done]. injection Hg as -> _.
  apply draw_codes_spec in E as [_ Hlen].
  apply then_quiet; [done|]. unfold transaction. apply call_effect; [by destruct Hs as [-> _]|].
  intros w2 Hs2. assert (Hs3 : same w w2) by by eapply same_then.
  destruct (tx codes w2) as [d|] eqn:Et; cbn; [by eapply Hk|by destruct Hs3 as [-> _]].
Qed.

Lemma same_enabled w w1 u : same w w1 -> enabled_in (db w1) u = enabled_in (db w) u.
Proof. by intros [-> _]. Qed.

Lemma nothing_yet r w w1 : same w w1 -> effect r w (db w1).
Proof. intros [-> _]. by left. Qed.
#[local] Hint Resolve nothing_yet same_then : core.

Lemma setup_effect u w : effect (Setup u) w (db (snd (serve encrypter (Setup u) w))).
Proof.
  cbn [serve]. apply then_quiet; [done|]. unfold SetupTwoFactor, StartEnrolment, replace_secret.
  apply after_quiet; [apply quiet_query|by left|]. intros _ w1 _ Hs1.
  apply after_quiet; [apply quiet_query|eauto|]. intros en w2 Hen Hs2%(same_then _ _ _ Hs1).
  apply query_said in Hen as (w0 & Hs0 & [= <-]).
  rewrite (same_enabled w w0) by eauto. destruct (enabled_in (db w) u) eqn:Eu; [eauto|].
  apply then_quiet; [done|]. apply after_quiet; [apply quiet_query|eauto|]. intros en w3 _ Hs3%(same_then _ _ _ Hs2).
  destruct en; [eauto|].
  apply after_quiet; [unfold NewTOTPSecret; by destruct (seeds w3)|eauto|]. intros secret w4 _ Hs4%(same_then _ _ _ Hs3).
  apply after_quiet; [unfold encrypt; by destruct (nonces w4)|eauto|]. intros ct w5 _ Hs5%(same_then _ _ _ Hs4).
  apply then_quiet; [done|]. apply call_effect; [eauto|]. intros w6 Hs6%(same_then _ _ _ Hs5). right. split; [done|].
  exists ct. destruct Hs6 as [Hd [_ Hn]]. cbn. by rewrite Hd, Hn.
Qed.

Lemma enable_effect u c w : effect (EnableIt u c) w (db (snd (serve encrypter (EnableIt u c) w))).
Proof.
  cbn [serve]. apply then_quiet; [done|]. unfold EnableTwoFactor.
  apply after_quiet; [done|by left|]. intros t w1 [= <- <-] _.
  apply after_quiet; [apply VerifyCode_same|by left|]. intros valid w2 Hv Hs2.
  destruct valid; [|eauto]. apply VerifyCode_accepted in Hv. cbn [negb].
  apply then_quiet; [done|].
  apply (issue_effect _ (fun codes w => enable u codes (now w) (db w))); [eauto|]. intros codes w3 d Hs3 Hlen He. right.
  split; [done|]. exists codes. split; [done|]. assert (Hs : same w w3) by eauto.
  destruct Hs as (Hd & _ & Hn). by rewrite <- Hd, <- Hn.
Qed.

Lemma recovery_effect u c w : effect (SignInRecovery u c) w (db (snd (serve encrypter (SignInRecovery u c) w))).
Proof.
  cbn [serve]. apply then_quiet; [done|]. unfold UseRecoveryCode.
  destruct (NormalizeRecoveryCode c) as [raw|] eqn:En; [|by left].
  apply then_quiet.
  { intros [] w1; [|done]. unfold RecoveryCodesRemaining, bind, Store.query, Store.call.
    by destruct (faults_of w1) as [|[] fs]. }
  apply call_effect; [by left|]. intros w1 (Hd & _ & Hn). rewrite Hd, Hn.
  destruct (spend _ _ _ _) as [[] d] eqn:Es; [right; by exists raw|].
  left. unfold spend in Es. cbn. repeat case_match; congruence.
Qed.

Lemma serve_effect r w : effect r w (db (snd (serve encrypter r w))).
Proof.
  destruct r as [u|u c|u p|u p|u c|u c]; [apply setup_effect|apply enable_effect| | | |apply recovery_effect].
  - cbn [serve]. apply then_quiet; [done|]. unfold RegenerateRecoveryCodes. apply password_effect; [by left|]. intros w1 Hs1 Hk.
    apply then_quiet; [done|].
    apply (issue_effect _ (fun codes w => regenerate u codes (db w))); [eauto|]. intros codes w2 d Hs2 Hlen He. right.
    split; [done|]. exists codes. split; [done|]. assert (Hs : same w w2) by eauto.
    destruct Hs as (Hd & _). by rewrite <- Hd.
  - cbn [serve]. unfold DisableTwoFactor. apply password_effect; [by left|]. intros w1 Hs1 Hk. apply then_quiet; [done|].
    unfold Disable. apply call_effect; [eauto|]. intros w2 Hs2. right. split; [done|].
    assert (Hs : same w w2) by eauto. by destruct Hs as (-> & _).
  - cbn [serve]. apply after_quiet; [done|by left|]. intros t w1 [= _ <-] _.
    apply then_quiet; [done|]. pose proof (VerifyCode_same u c t w) as Hs. eauto.
Qed.
(** A code that was accepted was there unused, and is not any more. *)
Lemma UseRecoveryCode_true u input w n w' : UseRecoveryCode u input w = (Ok (true, n), w') ->
  exists raw, NormalizeRecoveryCode input = Some raw /\
    recovery_codes (db w) !! (u, hashRecoveryCode u raw) = Some None /\ enabled_in (db w) u = true /\
    recovery_codes (db w') !! (u, hashRecoveryCode u raw) <> Some None.
Proof.
  unfold UseRecoveryCode. intros E. destruct (NormalizeRecoveryCode input) as [raw|]; [|done].
  exists raw. split; [done|]. apply bind_ok in E as (found & w1 & Ec & E). destruct found; [|done].
  apply bind_ok in E as (k & w2 & Eq & E). injection E as _ <-.
  assert (Hs : exists u', db u' = db w /\ spend u (hashRecoveryCode u raw) (now u') (db w) = (true, db w1)).
  { apply call_ok in Ec as [Ec|[fs Ec]].
    - exists w. destruct (spend _ _ _ _) as [f d] eqn:Es. injection Ec as -> <-. done.
    - exists (with_faults fs w). cbn [db now with_faults World_faulty] in *.
      destruct (spend _ _ _ _) as [f d] eqn:Es. injection Ec as -> <-. done. }
  destruct Hs as (u' & _ & (Hc & He & Hd)%spend_true). split; [done|]. split; [done|].
  assert (Hw : db w2 = db w1).
  { unfold RecoveryCodesRemaining, Store.query in Eq.
    apply call_ok in Eq as [Eq|[fs Eq]]; by injection Eq as _ <-. }
  rewrite Hw, Hd. cbn. by rewrite lookup_insert_eq.
Qed.


(** An effect is one step at most. *)
Lemma effect_steps r w d : effect r w d -> d = db w \/ exists l, step (db w) l d.
Proof.
  intros [->|He]; [by left|right]. destruct r as [u|u c|u p|u p|u c|u c].
  - destruct He as (_ & ct & ->). eexists. apply step_secret.
  - destruct He as (_ & codes & Hl & He). eexists. by eapply step_enable.
  - destruct He as (_ & codes & Hl & He). eexists. by eapply step_regenerate.
  - destruct He as (_ & ->). eexists. apply step_delete.
  - done.
  - destruct He as (raw & _ & He). eexists. by eapply step_spend.
Qed.
End effects.

(** ** Properties *)
Section properties.
Context `{Crypto} `{Hmac} `{RecoveryHash} `{Passwords} (encrypter : Encrypter).

(** A set that was just stored. *)
Definition fresh_set (user : string) (codes : list string) (d : Database) : Prop :=
  enabled_in d user = true /\ size (codes_of user (recovery_codes d)) = length codes /\
  forall h, recovery_codes d !! (user, h) = if decide (h ∈ map (hash_of user) codes) then Some None else None.

Lemma enable_fresh u codes t d d' : enable u codes t d = Ok d' -> fresh_set u codes d'.
Proof.
  unfold enable. intros He. destruct (enrolments d !! u) as [e|]; [|done].
  destruct (replace_spec _ _ _ _ He) as (Hen & Hl & Hs). split.
  - unfold enabled_in. rewrite Hen. cbn. by rewrite lookup_insert_eq.
  - split; [done|]. intros h. by rewrite Hl, decide_True.
Qed.

Lemma regenerate_fresh u codes d d' : regenerate u codes d = Ok d' -> fresh_set u codes d'.
Proof.
  unfold regenerate. intros He. destruct (enrolments d !! u) as [e|] eqn:Eu; [|done].
  destruct (Enabled e) eqn:Ee; [|done]. destruct (replace_spec _ _ _ _ He) as (Hen & Hl & Hs). split.
  - unfold enabled_in. by rewrite Hen, Eu.
  - split; [done|]. intros h. by rewrite Hl, decide_True.
Qed.

(** One of them spent leaves the others. *)
Lemma fresh_unused u codes d h t : fresh_set u codes d -> h ∈ map (hash_of u) codes ->
  size (filter (fun x => snd x = None) (codes_of u (<[(u, h) := Some t]> (recovery_codes d)))) =
    pred (length codes).
Proof.
  intros (_ & Hs & Hl) Hh. rewrite codes_of_insert, map_filter_insert_False by done.
  rewrite map_filter_id.
  - rewrite map_size_delete_Some, Hs; [done|]. by rewrite codes_of_lookup, Hl, decide_True.
  - intros [v g] o Ho%lookup_delete_Some. destruct Ho as [_ Ho]. unfold codes_of in Ho.
    apply map_lookup_filter_Some in Ho as [Ho Hv]. cbn in Hv. subst v. rewrite Hl in Ho.
    destruct (decide (g ∈ _)); [|done]. by injection Ho as <-.
Qed.

Lemma issued (tx : list string -> World -> result tf_err Database) w codes w' :
  (let! codes := GenerateRecoveryCodes in transaction (tx codes) ;! ret codes) w = (Ok codes, w') ->
  Forall shown codes /\ length codes = RecoveryCodeCount /\
  exists w0, same w w0 /\ tx codes w0 = Ok (db w').
Proof.
  intros (codes' & w1 & Hg & Hr)%bind_ok. apply bind_ok in Hr as ([] & w2 & Ht & [= -> <-]).
  unfold GenerateRecoveryCodes in Hg. destruct (draw_codes _ _) as [[cs rest]|] eqn:Ed; [|done].
  injection Hg as -> <-. destruct (draw_codes_spec _ _ _ _ Ed) as [Hs Hl]. split; [done|]. split; [done|].
  apply call_ok in Ht as [Ht|[fs Ht]].
  - destruct (tx codes _) as [d|] eqn:Et; [|done]. injection Ht as <-. eexists. by split; [|exact Et].
  - destruct (tx codes _) as [d|] eqn:Et; [|done]. injection Ht as <-. eexists. by split; [|exact Et].
Qed.

Lemma EnableTwoFactor_fresh u c w codes w' : EnableTwoFactor encrypter u c w = (Ok codes, w') ->
  Forall shown codes /\ length codes = RecoveryCodeCount /\ fresh_set u codes (db w').
Proof.
  intros (t & w1 & _ & Hr)%bind_ok. apply bind_ok in Hr as (valid & w2 & _ & Hr).
  destruct valid; [|done]. apply bind_ok in Hr as (cs & w3 & Hi & Hr).
  apply bind_ok in Hr as ([] & w4 & [= <-] & [= -> <-]).
  apply (issued (fun codes w => enable u codes (now w) (db w))) in Hi as (Hs & Hl & w0 & _ & He).
  split; [done|]. split; [done|]. by eapply enable_fresh.
Qed.

Lemma RegenerateRecoveryCodes_fresh u p w codes w' : RegenerateRecoveryCodes u p w = (Ok codes, w') ->
  Forall shown codes /\ length codes = RecoveryCodeCount /\ fresh_set u codes (db w').
Proof.
  intros (hash & w1 & _ & Hr)%bind_ok. destruct (VerifyPassword p hash) as [[]|]; [|done..].
  apply bind_ok in Hr as (cs & w3 & Hi & Hr). apply bind_ok in Hr as ([] & w4 & [= <-] & [= -> <-]).
  apply (issued (fun codes w => regenerate u codes (db w))) in Hi as (Hs & Hl & w0 & _ & He).
  split; [done|]. split; [done|]. by eapply regenerate_fresh.
Qed.

Lemma fresh_code_works u codes code raw s w : faults w = [] -> fresh_set u codes (db w) -> code ∈ codes ->
  NormalizeRecoveryCode code = Some raw -> NormalizeRecoveryCode s = Some raw ->
  fst (UseRecoveryCode u s w) = Ok (true, pred (length codes)).
Proof.
  intros Hf Hfresh Hin Hn Hs. assert (Hh : hashRecoveryCode u raw ∈ map (hash_of u) codes).
  { apply list_elem_of_fmap. exists code. split; [|done]. unfold hash_of. by rewrite Hn. }
  destruct Hfresh as (He & Hsz & Hl) eqn:E. clear E. unfold UseRecoveryCode. rewrite Hs. unfold bind.
  rewrite call_fine by done. unfold spend. rewrite Hl, decide_True, He by done.
  unfold RecoveryCodesRemaining, Store.query. rewrite call_fine by done. cbn. do 3 f_equal.
  by apply fresh_unused.
Qed.

(** What a request does to the second factor. However its calls fail, a request changes
    nothing or has its one effect as a whole. Setting up stores a new secret, and only where
    none is enabled; enabling takes a code of the stored secret and stores ten codes with it;
    a new set of codes and switching off take the password; a sign-in with a code of the
    authenticator writes nothing, and one with a recovery code spends that code. *)
Theorem request_has_one_effect r w : effect encrypter r w (db (snd (serve encrypter r w))).
Proof. apply serve_effect. Qed.

(** The tables belong together. In whatever order the statements of any number of requests
    run, a code belongs to an enrolment and an enabled enrolment has ten codes, used or not; a
    request served alone is such a run. *)
Theorem second_factor_stays_whole w ls d (Hw : whole (db w)) (Hr : run step (db w) ls d) :
  whole d /\ forall r w', db w' = d -> whole (db (snd (serve encrypter r w'))).
Proof.
  assert (Hd : whole d) by (eapply (run_invariant step whole step_whole); eauto).
  split; [done|]. intros r w' Hw'. pose proof (serve_effect encrypter r w') as He.
  apply effect_steps in He as [->|[l Hl]]; [congruence|]. eapply step_whole; [|done]. congruence.
Qed.

(** C8: a recovery code works once. Once a code was accepted, and whatever runs in between, it
    is not accepted again however it is typed, unless a new set was issued that has it. *)
Theorem recovery_code_works_once u input n w w1 ls w2 input'
  (Hu : UseRecoveryCode u input w = (Ok (true, n), w1))
  (Hr : run step (db w1) ls (db w2))
  (Hi : forall hs, Issued u hs ∈ ls -> hash_of u input ∉ hs)
  (Hs : NormalizeRecoveryCode input' = NormalizeRecoveryCode input) :
  forall n', fst (UseRecoveryCode u input' w2) <> Ok (true, n').
Proof.
  intros n' E. destruct (UseRecoveryCode u input' w2) as [r w3] eqn:E2. cbn in E. subst r.
  apply UseRecoveryCode_true in Hu as (raw & Hn & _ & _ & Hd).
  apply UseRecoveryCode_true in E2 as (raw' & Hn' & Hc & _). assert (raw' = raw) as -> by congruence.
  revert Hc. eapply run_dead; [done..|]. intros hs Hin. specialize (Hi hs Hin).
  unfold hash_of in Hi. by rewrite Hn in Hi.
Qed.

(** The codes that are shown work. When enabling, or asking for a new set, succeeds, ten
    codes are shown; each of them, typed with or without its dashes, with blanks, in either
    case, is accepted, and leaves nine. *)
Theorem shown_codes_work u w codes w'
  (Hi : (exists c, EnableTwoFactor encrypter u c w = (Ok codes, w')) \/
        (exists p, RegenerateRecoveryCodes u p w = (Ok codes, w')))
  (Hf : faults w' = []) :
  length codes = 10%nat /\
  forall code, code ∈ codes -> exists raw, well_formed raw /\ typed raw code /\
    forall s, typed raw s -> fst (UseRecoveryCode u s w') = Ok (true, 9%nat).
Proof.
  assert (Hc : Forall shown codes /\ length codes = RecoveryCodeCount /\ fresh_set u codes (db w')).
  { destruct Hi as [[c Hi]|[p Hi]];
      [by eapply EnableTwoFactor_fresh|by eapply RegenerateRecoveryCodes_fresh]. }
  destruct Hc as (Hs & Hl & Hfr). split; [done|]. intros code Hin.
  rewrite list.Forall_forall in Hs. destruct (shown_typed code (Hs _ Hin)) as (raw & Hw & Ht & Hn).
  exists raw. split; [done|]. split; [done|]. intros s Hts.
  rewrite (fresh_code_works u codes code raw s w') by (done || by apply Normalize_typed). by rewrite Hl.
Qed.
End properties.

Module Factor.
#[local] Existing Instance Rotation.keyed_crypto.
#[local] Existing Instance Codes.toy_hmac.
#[local] Instance plain_hash : RecoveryHash := { sha256_hex s := s }.
#[local] Instance plain_passwords : Passwords := { VerifyPassword p h := Some (p =? h)%string }.

Definition enc : Encrypter := Rotation.enc Rotation.key_a.
Definition start : World := {|
  db := {| enrolments := ∅; recovery_codes := ∅ |};
  users := {[ "u" := "secret" ]}; audit := []; now := 1000 * Second;
  seeds := [repeat 7 20; repeat 9 20]; nonces := repeat Rotation.nonce 4;
  letters := map (fun n => Z.of_nat (n mod 31)) (seq 0 400); faults := [] |}.

(** One request after the other, with the code of the moment. *)
Definition pending : World := snd (SetupTwoFactor enc "u" start).
Definition right_code : string :=
  match TOTPCode (GoCodec.base32_encode (repeat 7 20)) (1000 * Second) with Ok c => c | Err _ => "" end.
Definition on : World := snd (EnableTwoFactor enc "u" right_code pending).
Definition codes : list string :=
  match fst (EnableTwoFactor enc "u" right_code pending) with Ok cs => cs | Err _ => [] end.

Example enrolled :
  fst (SetupTwoFactor enc "u" start) = Ok (GoCodec.base32_encode (repeat 7 20)) /\
  length codes = 10%nat /\ head codes = Some "2345-6789-abcd-efgh"%string /\
  fst (SetupTwoFactor enc "u" on) = Err ErrTwoFactorEnabled /\
  fst (RegenerateRecoveryCodes "u" "guess" on) = Err ErrInvalidCredentials /\
  fst (EnableTwoFactor enc "u" "12345" pending) = Err ErrInvalidTOTP.
Proof. vm_compute. repeat split. Qed.

Example as_typed :
  NormalizeRecoveryCode "2345-6789-ABCD-EFGH" = Some "23456789abcdefgh"%string /\
  NormalizeRecoveryCode "2345 6789 abcd efg" = None /\ NormalizeRecoveryCode "2345-6789-abcd-efg0" = None.
Proof. vm_compute. repeat split. Qed.

Lemma enable_succeeds : EnableTwoFactor enc "u" right_code pending = (Ok codes, on).
Proof. unfold codes, on. destruct (EnableTwoFactor _ _ _ pending) as [[cs|e] w] eqn:E; [done|].
  assert (H : is_ok (fst (EnableTwoFactor enc "u" right_code pending)) = true) by (vm_compute; reflexivity).
  by rewrite E in H.
Qed.

Lemma shown_codes_work_witness : length codes = 10%nat /\
  exists raw, forall s, typed raw s -> fst (UseRecoveryCode "u" s on) = Ok (true, 9%nat).
Proof.
  destruct (shown_codes_work enc "u" pending codes on
              (or_introl (ex_intro _ right_code enable_succeeds)) eq_refl) as [Hl Hc].
  split; [exact Hl|].
  destruct (Hc "2345-6789-abcd-efgh"%string ltac:(apply list_elem_of_In; vm_compute; left; reflexivity))
    as (raw & _ & _ & Hw).
  exists raw. exact Hw.
Defined.

Definition spent : World := snd (UseRecoveryCode "u" "2345-6789-abcd-efgh" on).
Lemma code_used : UseRecoveryCode "u" "2345-6789-abcd-efgh" on = (Ok (true, 9%nat), spent).
Proof. unfold spent. destruct (UseRecoveryCode "u" _ on) as [r w] eqn:E.
  assert (H : fst (UseRecoveryCode "u" "2345-6789-abcd-efgh" on) = Ok (true, 9%nat)) by (vm_compute; reflexivity).
  rewrite E in H. cbn in H. by rewrite H.
Qed.

Lemma recovery_code_works_once_witness :
  fst (UseRecoveryCode "u" "2345-6789-abcd-efgh" on) = Ok (true, 9%nat) /\
  forall n, fst (UseRecoveryCode "u" "2345 6789 ABCD EFGH" spent) <> Ok (true, n).
Proof.
  split; [rewrite code_used; reflexivity|].
  apply (recovery_code_works_once "u" "2345-6789-abcd-efgh" 9 on spent [] spent "2345 6789 ABCD EFGH"
           code_used (run_nil step _)).
  - intros hs Hin. destruct (not_elem_of_nil _ Hin).
  - vm_compute. reflexivity.
Defined.

Lemma start_whole : whole (db start).
Proof.
  split; intros u; [intros h o Ho|intros Hu; discriminate Hu].
  exfalso. exact (lookup_empty_Some (M := gmap (string * string)) _ _ Ho).
Qed.

Lemma second_factor_stays_whole_witness :
  whole (store_secret "u" "s" 5 (db start)) /\
  exists w', db w' = store_secret "u" "s" 5 (db start) /\ whole (db (snd (serve enc (Setup "u") w'))).
Proof.
  destruct (second_factor_stays_whole enc start [Other] _ start_whole
              (run_cons step _ _ _ _ _ (step_secret "u" "s" 5 (db start)) (run_nil step _))) as [Hd Hw].
  split; [exact Hd|]. exists (set_db (store_secret "u" "s" 5 (db start)) start).
  split; [reflexivity|]. apply Hw. reflexivity.
Defined.

(** ** What the statements allow between requests *)

(** A setup that looked before the factor was enabled and stores after it switches the factor
    off, and its codes stay. *)
Lemma a_late_setup_switches_the_factor_off :
  fst (IsEnabled "u" pending) = Ok false /\ enabled_in (db on) "u" = true /\
  let late := snd (replace_secret enc "u" on) in
  enabled_in (db late) "u" = false /\ unused "u" (db late) = 10%nat.
Proof. vm_compute. repeat split. Qed.

(** A code checked against one secret enables another, stored in between. *)
Lemma a_checked_code_enables_another_secret :
  fst (VerifyCode enc "u" right_code (now pending) pending) = Ok true /\
  let other := snd (replace_secret enc "u" pending) in
  let late := snd (EnableWithRecoveryCodes "u" other) in
  enabled_in (db late) "u" = true /\
  fst (VerifyCode enc "u" right_code (now late) late) = Ok false.
Proof. vm_compute. repeat split. Qed.

(** A code of the authenticator is not spent. *)
Lemma a_code_is_accepted_again :
  fst (VerifyCode enc "u" right_code (now on) on) = Ok true /\
  fst (VerifyCode enc "u" right_code (now on) (snd (VerifyCode enc "u" right_code (now on) on))) = Ok true.
Proof. vm_compute. repeat split. Qed.
End Factor.
