(* ===== verification/TenancyRules.v ===== *)
(** * What a tenancy may look like ([shared/validate/tenancy.go])

    Account tiers and their order, quota dimensions, limits, names and slice names. *)

From stdpp Require Import gmap.
From S2P Require Import Prelude GoStr.

#[local] Open Scope Z_scope.

Inductive tenancy_rule_err :=
| ErrInvalidTier | ErrInvalidPlanName | ErrInvalidLimit | ErrInvalidEnforcement
| ErrInvalidDimension | ErrInvalidSlice.
#[global] Instance tenancy_rule_err_eq_dec : EqDecision tenancy_rule_err.
Proof. solve_decision. Defined.

Definition TierAdmin : string := "admin".
Definition TierReseller : string := "reseller".
Definition TierCustomer : string := "customer".

Definition PlanKindPlan : string := "plan".
Definition PlanKindAddon : string := "addon".

Definition EnforcementHard : string := "hard".
Definition EnforcementSoft : string := "soft".

Definition DimensionWebsites : string := "websites".
Definition DimensionDatabases : string := "databases".
Definition DimensionMailboxes : string := "mailboxes".
Definition DimensionFTPUsers : string := "ftp_users".
Definition DimensionCronJobs : string := "cron_jobs".
Definition DimensionSubdomains : string := "subdomains".
Definition DimensionDisk : string := "disk".
Definition DimensionBandwidth : string := "bandwidth".

Definition MaxPlanNameLength : nat := 120.
Definition MaxSubscriptionNameLength : nat := 255.
Definition MaxPersonNameLength : nat := 255.
Definition MaxReasonLength : nat := 500.
Definition MaxAddonQuantity : Z := 1000.
Definition MaxLimitValue : Z := 10000000.
Definition MinMemoryMB : Z := 16.
Definition MaxCPUPercent : Z := 10000.
Definition MinIOWeight : Z := 1.
Definition MaxIOWeight : Z := 10000.

Definition one_of (l : list string) (s : string) : bool := existsb (String.eqb s) l.

Definition AccountTier (tier : string) : result tenancy_rule_err unit :=
  if one_of [TierAdmin; TierReseller; TierCustomer] tier then Ok tt else Err ErrInvalidTier.

Definition TierRank (tier : string) : Z :=
  if (tier =? TierAdmin)%string then 0
  else if (tier =? TierReseller)%string then 1
  else if (tier =? TierCustomer)%string then 2
  else 99.

Definition TierMayOwn (parent child : string) : bool :=
  if is_ok (AccountTier parent) && is_ok (AccountTier child)
  then TierRank parent <? TierRank child else false.

Definition PlanKind (kind : string) : result tenancy_rule_err unit :=
  if one_of [PlanKindPlan; PlanKindAddon] kind then Ok tt else Err ErrInvalidDimension.

Definition Enforcement (policy : string) : result tenancy_rule_err unit :=
  if one_of [EnforcementHard; EnforcementSoft] policy then Ok tt else Err ErrInvalidEnforcement.

Definition counted : list string :=
  [DimensionWebsites; DimensionDatabases; DimensionMailboxes; DimensionFTPUsers; DimensionCronJobs;
   DimensionSubdomains].
Definition measured : list string := [DimensionDisk; DimensionBandwidth].

Definition QuotaDimension (dimension : string) : result tenancy_rule_err unit :=
  if one_of (counted ++ measured) dimension then Ok tt else Err ErrInvalidDimension.

(** [r < 0x20 || r == 0x7f], byte by byte: no byte of a longer character is below 0x80. *)
Definition control (r : ascii) : bool := (nat_of_ascii r <? 32)%nat || (nat_of_ascii r =? 127)%nat.

Definition boundedName (name : string) (max : nat) : result tenancy_rule_err unit :=
  let trimmed := trim_space name in
  if (trimmed =? "")%string then Err ErrInvalidPlanName
  else if (max <? String.length trimmed)%nat then Err ErrInvalidPlanName
  else if str_exists control trimmed then Err ErrInvalidPlanName
  else Ok tt.

Definition PlanName (name : string) : result tenancy_rule_err unit := boundedName name MaxPlanNameLength.
Definition SubscriptionName (name : string) : result tenancy_rule_err unit :=
  boundedName name MaxSubscriptionNameLength.
Definition PersonName (name : string) : result tenancy_rule_err unit :=
  if (trim_space name =? "")%string then Ok tt else boundedName name MaxPersonNameLength.

Definition reason_char (r : ascii) : bool :=
  negb (nat_of_ascii r <? 32)%nat || Ascii.eqb r "010" || Ascii.eqb r "009".
Definition Reason (reason : string) : result tenancy_rule_err unit :=
  if (MaxReasonLength <? String.length reason)%nat then Err ErrInvalidPlanName
  else if negb (str_forall reason_char reason) then Err ErrInvalidPlanName
  else Ok tt.

Definition QuotaLimit (dimension : string) (value : option Z) : result tenancy_rule_err unit :=
  match QuotaDimension dimension with
  | Err e => Err e
  | Ok _ =>
      match value with
      | None => Ok tt
      | Some v => if v <? 0 then Err ErrInvalidLimit
                  else if MaxLimitValue <? v then Err ErrInvalidLimit else Ok tt
      end
  end.

Definition AddonQuantity (quantity : Z) : result tenancy_rule_err unit :=
  if (quantity <? 1) || (MaxAddonQuantity <? quantity) then Err ErrInvalidLimit else Ok tt.

Definition holds_some (p : Z -> bool) (o : option Z) : bool :=
  match o with Some v => p v | None => false end.

Definition Isolation (cpuPercent memoryMB ioWeight : option Z) : result tenancy_rule_err unit :=
  if holds_some (fun v => (v <? 1) || (MaxCPUPercent <? v)) cpuPercent then Err ErrInvalidLimit
  else if holds_some (fun v => v <? MinMemoryMB) memoryMB then Err ErrInvalidLimit
  else if holds_some (fun v => MaxLimitValue <? v) memoryMB then Err ErrInvalidLimit
  else if holds_some (fun v => (v <? MinIOWeight) || (MaxIOWeight <? v)) ioWeight then Err ErrInvalidLimit
  else Ok tt.

Definition slice_char (c : ascii) : bool := is_lower c || is_digit c || Ascii.eqb c "-".

Definition SliceName (name : string) : result tenancy_rule_err unit :=
  match trim_suffix_opt ".slice" name with
  | None => Err ErrInvalidSlice
  | Some stem =>
      if (stem =? "")%string || (120 <? String.length name)%nat then Err ErrInvalidSlice
      else if has_prefix "-" stem || has_suffix "-" stem then Err ErrInvalidSlice
      else if negb (str_forall slice_char stem) then Err ErrInvalidSlice
      else Ok tt
  end.

(** ** Facts *)
Lemma one_of_spec l s : one_of l s = true <-> s ∈ l.
Proof.
  unfold one_of. rewrite existsb_exists. setoid_rewrite String.eqb_eq. setoid_rewrite <- list_elem_of_In.
  naive_solver.
Qed.

Lemma AccountTier_ok tier : is_ok (AccountTier tier) = true <-> tier ∈ [TierAdmin; TierReseller; TierCustomer].
Proof. unfold AccountTier. rewrite <- one_of_spec. by destruct (one_of _ _). Qed.

(** Owning goes strictly down, and there are three tiers. *)
Lemma TierMayOwn_rank p c : TierMayOwn p c = true -> 0 <= TierRank p /\ TierRank p < TierRank c <= 2.
Proof.
  unfold TierMayOwn. destruct (is_ok (AccountTier p) && is_ok (AccountTier c)) eqn:E; [|done].
  apply andb_true_iff in E as [Hp Hc]. apply AccountTier_ok in Hp, Hc. rewrite Z.ltb_lt.
  set_unfold in Hp. set_unfold in Hc. destruct Hp as [->|[->|[->|[]]]], Hc as [->|[->|[->|[]]]];
    vm_compute; intuition congruence.
Qed.

Lemma TierMayOwn_trans a b c : TierMayOwn a b = true -> TierMayOwn b c = true -> TierMayOwn a c = true.
Proof.
  unfold TierMayOwn. destruct (is_ok (AccountTier a)), (is_ok (AccountTier b)), (is_ok (AccountTier c)); try done.
  cbn. rewrite !Z.ltb_lt. lia.
Qed.

Lemma TierMayOwn_valid p c : TierMayOwn p c = true -> c <> TierAdmin /\ is_ok (AccountTier c) = true.
Proof.
  unfold TierMayOwn. destruct (is_ok (AccountTier p)) eqn:Ep, (is_ok (AccountTier c)) eqn:E; try done. cbn. intros Hlt. split; [|done].
  intros ->. apply Z.ltb_lt in Hlt. apply AccountTier_ok in Ep. set_unfold in Ep.
  destruct Ep as [->|[->|[->|[]]]]; vm_compute in Hlt; discriminate.
Qed.

Lemma QuotaLimit_ok dimension value : is_ok (QuotaLimit dimension value) = true ->
  forall v, value = Some v -> 0 <= v <= MaxLimitValue.
Proof.
  unfold QuotaLimit. intros Hok v ->. destruct (QuotaDimension dimension); [|done].
  destruct (Z.ltb_spec v 0); [done|]. destruct (Z.ltb_spec MaxLimitValue v); [done|]. lia.
Qed.
