(* ===== verification/Quota.v ===== *)
(** * Quota arithmetic ([api/internal/tenancy/tenancy.go], [quota.go])

    Limits and usage, the folding of add-ons into a plan, and the answer to "may this
    subscription have one more". A limit of [None] is no limit. *)

From stdpp Require Import gmap.
From S2P Require Import Prelude GoStr TenancyRules.

#[local] Open Scope Z_scope.

Record Limits := {
  DiskMB : option Z; BandwidthMB : option Z; MaxWebsites : option Z; MaxDatabases : option Z;
  MaxMailboxes : option Z; MaxFTPUsers : option Z; MaxCronJobs : option Z; MaxSubdomains : option Z;
}.

Record Addon := { AddonPlanID : string; Quantity : Z; AddonLimits : Limits }.

(** The counted dimensions. *)
Record Usage := {
  Websites : Z; Databases : Z; Mailboxes : Z; FTPUsers : Z; CronJobs : Z; Subdomains : Z;
}.

Definition StatusActive : string := "active".
Definition StatusSuspended : string := "suspended".

Definition addLimit (base increment : option Z) (quantity : Z) : option Z :=
  match base, increment with
  | Some b, Some i =>
      if quantity <=? 0 then base
      else
        let total := wrap64 (b + wrap64 (i * quantity)) in
        Some (if MaxLimitValue <? total then MaxLimitValue else total)
  | _, _ => base
  end.

(** The body of the loop of [EffectiveLimits]. *)
Definition fold_addon (out : Limits) (addon : Addon) : Limits :=
  let l := AddonLimits addon in
  let q := Quantity addon in {|
    DiskMB := addLimit (DiskMB out) (DiskMB l) q;
    BandwidthMB := addLimit (BandwidthMB out) (BandwidthMB l) q;
    MaxWebsites := addLimit (MaxWebsites out) (MaxWebsites l) q;
    MaxDatabases := addLimit (MaxDatabases out) (MaxDatabases l) q;
    MaxMailboxes := addLimit (MaxMailboxes out) (MaxMailboxes l) q;
    MaxFTPUsers := addLimit (MaxFTPUsers out) (MaxFTPUsers l) q;
    MaxCronJobs := addLimit (MaxCronJobs out) (MaxCronJobs l) q;
    MaxSubdomains := addLimit (MaxSubdomains out) (MaxSubdomains l) q |}.

Definition EffectiveLimits (plan : Limits) (addons : list Addon) : Limits :=
  fold_left fold_addon addons plan.

Definition Used (u : Usage) (dimension : string) : Z :=
  if (dimension =? DimensionWebsites)%string then Websites u
  else if (dimension =? DimensionDatabases)%string then Databases u
  else if (dimension =? DimensionMailboxes)%string then Mailboxes u
  else if (dimension =? DimensionFTPUsers)%string then FTPUsers u
  else if (dimension =? DimensionCronJobs)%string then CronJobs u
  else if (dimension =? DimensionSubdomains)%string then Subdomains u
  else 0.

Definition Limit (l : Limits) (dimension : string) : option Z :=
  if (dimension =? DimensionWebsites)%string then MaxWebsites l
  else if (dimension =? DimensionDatabases)%string then MaxDatabases l
  else if (dimension =? DimensionMailboxes)%string then MaxMailboxes l
  else if (dimension =? DimensionFTPUsers)%string then MaxFTPUsers l
  else if (dimension =? DimensionCronJobs)%string then MaxCronJobs l
  else if (dimension =? DimensionSubdomains)%string then MaxSubdomains l
  else if (dimension =? DimensionDisk)%string then DiskMB l
  else if (dimension =? DimensionBandwidth)%string then BandwidthMB l
  else None.

(** The answer; its [Limit] is called [d_Limit] here. *)
Record Decision := {
  Allowed : bool; Dimension : string; d_Used : Z; d_Limit : option Z; OverSoftLimit : bool;
  d_Reason : string;
}.

Definition underscores_to_spaces : string -> string :=
  str_map (fun c => if Ascii.eqb c "_" then " "%char else c).

(** [CheckQuota] once it has read the subscription, its plan, its add-ons and its usage. *)
Definition decide_quota (status suspendedReason : string) (plan : Limits) (enforcement : string)
    (addons : list Addon) (usage : Usage) (dimension : string) : Decision :=
  let limits := EffectiveLimits plan addons in
  let used := Used usage dimension in
  let limit := Limit limits dimension in
  let answer allowed over reason := {|
    Allowed := allowed; Dimension := dimension; d_Used := used; d_Limit := limit;
    OverSoftLimit := over; d_Reason := reason |} in
  if (status =? StatusSuspended)%string
  then answer false false ("this subscription is suspended: " ++ suspendedReason)%string
  else
    match limit with
    | None => answer true false ""%string
    | Some l =>
        if used <? l then answer true false ""%string
        else if (enforcement =? EnforcementSoft)%string
        then answer true true
          ("this subscription is over its " ++ dimension ++ " limit (" ++ itoa used ++ " of " ++
           itoa l ++ ") and its plan allows it")%string
        else answer false false
          ("this subscription's plan allows " ++ itoa l ++ " " ++ underscores_to_spaces dimension ++
           " and " ++ itoa used ++ " are in use")%string
    end.

(** ** What the arithmetic comes to *)

(** A limit the validators let through. *)
Definition limit_ok (o : option Z) : Prop := forall v, o = Some v -> 0 <= v <= MaxLimitValue.
Definition limits_ok (l : Limits) : Prop := forall dimension, limit_ok (Limit l dimension).
Definition addon_ok (a : Addon) : Prop :=
  1 <= Quantity a <= MaxAddonQuantity /\ limits_ok (AddonLimits a).

Lemma Limit_fold out a dimension :
  Limit (fold_addon out a) dimension =
    addLimit (Limit out dimension) (Limit (AddonLimits a) dimension) (Quantity a).
Proof. unfold Limit. repeat case_match; done. Qed.

(** What one add-on contributes to a dimension. *)
Definition contribution (dimension : string) (a : Addon) : Z :=
  default 0 (Limit (AddonLimits a) dimension) * Quantity a.

Definition total (dimension : string) (addons : list Addon) : Z :=
  fold_right (fun a acc => contribution dimension a + acc) 0 addons.

Lemma contribution_bound dimension a : addon_ok a ->
  0 <= contribution dimension a <= MaxLimitValue * MaxAddonQuantity.
Proof.
  intros [Hq Hl]. unfold contribution. destruct (Limit (AddonLimits a) dimension) as [v|] eqn:E; cbn [default from_option id].
  - destruct (Hl dimension v E) as [Hv0 Hv]. split; [apply Z.mul_nonneg_nonneg; lia|].
    by apply Z.mul_le_mono_nonneg; lia.
  - unfold MaxLimitValue, MaxAddonQuantity. lia.
Qed.

Lemma total_nonneg dimension addons : Forall addon_ok addons -> 0 <= total dimension addons.
Proof.
  induction 1 as [|a addons Ha _ IH]; [done|]. cbn [total fold_right]. fold (total dimension addons).
  pose proof (contribution_bound dimension a Ha). lia.
Qed.

Lemma addLimit_exact b a dimension : addon_ok a -> 0 <= b <= MaxLimitValue ->
  addLimit (Some b) (Limit (AddonLimits a) dimension) (Quantity a) =
    Some (Z.min MaxLimitValue (b + contribution dimension a)).
Proof.
  intros Ha Hb. pose proof (contribution_bound dimension a Ha) as Hc. destruct Ha as [Hq Hl].
  unfold addLimit, contribution in *. destruct (Limit (AddonLimits a) dimension) as [v|] eqn:E;
    cbn [default from_option id] in *.
  - destruct (Z.leb_spec (Quantity a) 0); [lia|].
    assert (Hin : forall z, 0 <= z <= 2 * (MaxLimitValue * MaxAddonQuantity) -> wrap64 z = z).
    { intros z Hz. apply wrap64_id. unfold in_int, int_min, int_max, MaxLimitValue, MaxAddonQuantity in *. lia. }
    rewrite (Hin (v * Quantity a)) by lia. rewrite Hin by (unfold MaxLimitValue, MaxAddonQuantity in *; lia).
    f_equal. destruct (Z.ltb_spec MaxLimitValue (b + v * Quantity a)); lia.
  - f_equal. lia.
Qed.

Lemma fold_limit addons : forall plan dimension, Forall addon_ok addons -> limit_ok (Limit plan dimension) ->
  Limit (EffectiveLimits plan addons) dimension =
    match Limit plan dimension with
    | None => None
    | Some b => Some (Z.min MaxLimitValue (b + total dimension addons))
    end.
Proof.
  induction addons as [|a addons IH]; intros plan dimension Ha Hp.
  - cbn [EffectiveLimits fold_left total fold_right]. destruct (Limit plan dimension) as [b|]; [|done].
    specialize (Hp b eq_refl). f_equal. lia.
  - apply list.Forall_cons in Ha as [Ha Has]. cbn [EffectiveLimits fold_left].
    change (Limit (EffectiveLimits (fold_addon plan a) addons) dimension =
      match Limit plan dimension with
      | None => None | Some b => Some (Z.min MaxLimitValue (b + total dimension (a :: addons))) end).
    pose proof (contribution_bound dimension a Ha) as Hc. pose proof (total_nonneg dimension addons Has) as Ht.
    destruct (Limit plan dimension) as [b|] eqn:E.
    + specialize (Hp b eq_refl). assert (Hl : Limit (fold_addon plan a) dimension =
        Some (Z.min MaxLimitValue (b + contribution dimension a))) by
        (rewrite Limit_fold, E; by apply addLimit_exact).
      rewrite IH; [|done|].
      * rewrite Hl. cbn [total fold_right]. f_equal. fold (total dimension addons). lia.
      * rewrite Hl. intros v [= <-]. unfold MaxLimitValue in *. lia.
    + rewrite IH; [|done|]; rewrite Limit_fold, E; by destruct (Limit (AddonLimits a) dimension).
Qed.

Lemma total_perm dimension k l : Permutation k l -> total dimension k = total dimension l.
Proof. unfold total. induction 1; cbn [fold_right]; [done|lia|lia|congruence]. Qed.

Lemma limits_ext k l : (forall dimension, Limit k dimension = Limit l dimension) -> k = l.
Proof.
  intros He. destruct k, l.
  pose proof (He DimensionWebsites) as E1. pose proof (He DimensionDatabases) as E2.
  pose proof (He DimensionMailboxes) as E3. pose proof (He DimensionFTPUsers) as E4.
  pose proof (He DimensionCronJobs) as E5. pose proof (He DimensionSubdomains) as E6.
  pose proof (He DimensionDisk) as E7. pose proof (He DimensionBandwidth) as E8.
  vm_compute in E1, E2, E3, E4, E5, E6, E7, E8. congruence.
Qed.

(** What a subscription may use. Whatever the validators let through, each of its limits is
    the plan's plus what its add-ons contribute, capped at ten million, and no limit stays no
    limit; so the arithmetic never overflows, and the order in which add-ons are folded in does
    not matter. *)
Theorem EffectiveLimits_spec plan addons (Hp : limits_ok plan) (Ha : Forall addon_ok addons) :
  (forall dimension, Limit (EffectiveLimits plan addons) dimension =
     match Limit plan dimension with
     | None => None
     | Some b => Some (Z.min MaxLimitValue (b + total dimension addons))
     end) /\
  limits_ok (EffectiveLimits plan addons) /\
  forall addons', Permutation addons addons' -> EffectiveLimits plan addons' = EffectiveLimits plan addons.
Proof.
  assert (Hf : forall dimension, Limit (EffectiveLimits plan addons) dimension =
    match Limit plan dimension with
    | None => None | Some b => Some (Z.min MaxLimitValue (b + total dimension addons)) end)
    by (intros dimension; by apply fold_limit).
  split; [done|]. split.
  - intros dimension v. rewrite Hf. destruct (Limit plan dimension) as [b|] eqn:E; [|done].
    specialize (Hp dimension b E). pose proof (total_nonneg dimension addons Ha). intros [= <-].
    unfold MaxLimitValue in *. lia.
  - intros addons' HP. apply limits_ext. intros dimension.
    rewrite fold_limit, Hf, (total_perm _ _ _ HP); [done|by rewrite <- HP|apply Hp].
Qed.

Lemma decide_quota_allowed status why plan enf addons usage dimension :
  Allowed (decide_quota status why plan enf addons usage dimension) = true <->
    status <> StatusSuspended /\
    (Limit (EffectiveLimits plan addons) dimension = None \/
     (exists l, Limit (EffectiveLimits plan addons) dimension = Some l /\ Used usage dimension < l) \/
     enf = EnforcementSoft).
Proof.
  unfold decide_quota. cbv zeta. destruct (String.eqb_spec status StatusSuspended) as [->|Hs].
  - cbn. split; [done|]. by intros [? _].
  - destruct (Limit _ _) as [l|]; [|cbn; tauto].
    destruct (Z.ltb_spec (Used usage dimension) l); [cbn; split; eauto 6|].
    destruct (String.eqb_spec enf EnforcementSoft) as [->|He]; cbn; [tauto|].
    split; [done|]. intros [_ [Hn|[(l' & [= <-] & Hlt)|Hn]]]; [done|lia|done].
Qed.

Module Limits.
Definition none : Limits := {|
  DiskMB := None; BandwidthMB := None; MaxWebsites := None; MaxDatabases := None; MaxMailboxes := None;
  MaxFTPUsers := None; MaxCronJobs := None; MaxSubdomains := None |}.
Definition sites (n : Z) : Limits := {|
  DiskMB := None; BandwidthMB := None; MaxWebsites := Some n; MaxDatabases := None; MaxMailboxes := None;
  MaxFTPUsers := None; MaxCronJobs := None; MaxSubdomains := None |}.
Definition pack : Addon := {| AddonPlanID := "p"; Quantity := 3; AddonLimits := sites 5 |}.

Lemma sites_ok n : 0 <= n <= MaxLimitValue -> limits_ok (sites n).
Proof. intros Hn dimension v. unfold Limit. repeat case_match; cbn; intros E; simplify_eq; done. Qed.

Lemma EffectiveLimits_spec_witness :
  MaxWebsites (EffectiveLimits (sites 2) [pack; pack]) = Some 32 /\
  MaxMailboxes (EffectiveLimits (sites 2) [pack]) = None.
Proof.
  assert (Hb : 0 <= 2 <= MaxLimitValue) by (vm_compute; split; discriminate).
  assert (H5 : 0 <= 5 <= MaxLimitValue) by (vm_compute; split; discriminate).
  assert (Hp : addon_ok pack) by (split; [vm_compute; split; discriminate|exact (sites_ok 5 H5)]).
  destruct (EffectiveLimits_spec (sites 2) [pack; pack] (sites_ok 2 Hb)
              (Forall_cons _ _ _ Hp (Forall_cons _ _ _ Hp (Forall_nil _)))) as [Hl _].
  split; [exact (Hl DimensionWebsites)|reflexivity].
Defined.

Example decisions :
  let used n := {| Websites := n; Databases := 0; Mailboxes := 0; FTPUsers := 0; CronJobs := 0; Subdomains := 0 |} in
  Allowed (decide_quota StatusActive "" (sites 2) EnforcementHard [] (used 1) DimensionWebsites) = true /\
  d_Reason (decide_quota StatusActive "" (sites 2) EnforcementHard [] (used 2) DimensionWebsites) =
    "this subscription's plan allows 2 websites and 2 are in use"%string /\
  OverSoftLimit (decide_quota StatusActive "" (sites 2) EnforcementSoft [] (used 2) DimensionWebsites) = true /\
  Allowed (decide_quota StatusSuspended "late" none EnforcementSoft [] (used 0) DimensionWebsites) = false.
Proof. vm_compute. repeat split. Qed.
End Limits.
