(* ===== verification/Tenants.v ===== *)
(** * The tenancy tables ([api/internal/tenancy/tenancy.go], [repository.go])

    Accounts in their hierarchy, plans and add-ons, subscriptions and what belongs to them, one
    definition per statement, with the keys and constraints of the schema. *)

From stdpp Require Import gmap sorting.
From S2P Require Import Prelude Store GoStr TenancyRules Quota.

#[local] Open Scope Z_scope.

Inductive tenancy_err :=
| ErrNotFound | ErrForbidden | ErrNameTaken | ErrPlanInUse | ErrSubscriptionInUse | ErrHasChildren
| ErrNotAnAddon | ErrNotAPlan | ErrCannotImpersonate | ErrAlreadyImpersonating
| ErrRule (e : tenancy_rule_err) | ErrInvalidUsername | ErrInvalidEmail | ErrInvalidUserState
| ErrInvalidStatus | ErrMeasured | ErrHash | ErrBackend.
#[global] Instance tenancy_err_eq_dec : EqDecision tenancy_err.
Proof. solve_decision. Defined.

Definition IsolationNone : string := "none".
Definition IsolationApplied : string := "applied".
Definition IsolationDeclared : string := "declared".
Definition IsolationFailed : string := "failed".

(** ** Rows *)
Record Account := {
  Username : string; Email : option string; PasswordHash : string; Tier : string;
  ParentID : option string; FullName : option string; Company : option string; AccountStatus : string;
}.

Record Caps := { CPUPercent : option Z; MemoryMB : option Z; IOWeight : option Z }.

Record Plan := {
  OwnerUserID : option string; PlanTitle : string; Description : string; Kind : string;
  PlanLimits : Limits; PlanEnforcement : string; PlanIsolation : Caps;
}.

Record Subscription := {
  SubscriberID : string; PlanID : string; SubscriptionTitle : string; SubscriptionStatus : string;
  SuspendedReason : string; SuspendedAt : option Z;
  Slice : string; IsolationState : string; IsolationDetail : string; IsolationAppliedAt : option Z;
  CreatedAt : Z;
}.

Record Website := {
  SubscriptionID : option string; ParentWebsiteID : option string;
  PrimaryDomain : string; DocumentRoot : string;
}.

(** The tables by their keys; of what hangs on a website, the column that says so. *)
Record Database := {
  accounts : gmap string Account;
  roles : gmap string (gset string);
  plans : gmap string Plan;
  subscriptions : gmap string Subscription;
  addons : gmap (string * string) Z;
  websites : gmap string Website;
  databases : gmap string (option string);
  cron_jobs : gmap string (option string);
  ftp_users : gmap string (option string);
  mail_domains : gmap string (option string);
  mailboxes : gmap string string;
}.

Definition with_accounts (m : gmap string Account) (d : Database) : Database := {|
  accounts := m; roles := roles d; plans := plans d; subscriptions := subscriptions d; addons := addons d;
  websites := websites d; databases := databases d; cron_jobs := cron_jobs d; ftp_users := ftp_users d;
  mail_domains := mail_domains d; mailboxes := mailboxes d |}.
Definition with_roles (m : gmap string (gset string)) (d : Database) : Database := {|
  accounts := accounts d; roles := m; plans := plans d; subscriptions := subscriptions d; addons := addons d;
  websites := websites d; databases := databases d; cron_jobs := cron_jobs d; ftp_users := ftp_users d;
  mail_domains := mail_domains d; mailboxes := mailboxes d |}.
Definition with_plans (m : gmap string Plan) (d : Database) : Database := {|
  accounts := accounts d; roles := roles d; plans := m; subscriptions := subscriptions d; addons := addons d;
  websites := websites d; databases := databases d; cron_jobs := cron_jobs d; ftp_users := ftp_users d;
  mail_domains := mail_domains d; mailboxes := mailboxes d |}.
Definition with_subscriptions (m : gmap string Subscription) (d : Database) : Database := {|
  accounts := accounts d; roles := roles d; plans := plans d; subscriptions := m; addons := addons d;
  websites := websites d; databases := databases d; cron_jobs := cron_jobs d; ftp_users := ftp_users d;
  mail_domains := mail_domains d; mailboxes := mailboxes d |}.
Definition with_addons (m : gmap (string * string) Z) (d : Database) : Database := {|
  accounts := accounts d; roles := roles d; plans := plans d; subscriptions := subscriptions d; addons := m;
  websites := websites d; databases := databases d; cron_jobs := cron_jobs d; ftp_users := ftp_users d;
  mail_domains := mail_domains d; mailboxes := mailboxes d |}.
Definition with_websites (m : gmap string Website) (d : Database) : Database := {|
  accounts := accounts d; roles := roles d; plans := plans d; subscriptions := subscriptions d;
  addons := addons d; websites := m; databases := databases d; cron_jobs := cron_jobs d;
  ftp_users := ftp_users d; mail_domains := mail_domains d; mailboxes := mailboxes d |}.

(** A statement: an answer and the tables after it, or an error and nothing changed. *)
Definition statement (A : Type) : Type := Database -> result tenancy_err (A * Database).

Definition has {A} (p : A -> bool) (m : gmap string A) : bool :=
  existsb (fun x => p (snd x)) (map_to_list m).
Definition count {A} (p : A -> bool) (m : gmap string A) : nat :=
  length (List.filter (fun x => p (snd x)) (map_to_list m)).
Definition names (o : option string) (s : string) : bool :=
  match o with Some x => (x =? s)%string | None => false end.

(** [nullable]. *)
Definition nullable (value : string) : option string :=
  let trimmed := trim_space value in if (trimmed =? "")%string then None else Some trimmed.

(** ** The hierarchy *)
Definition children (d : Database) (ids : list string) : list string :=
  omap (fun x => match ParentID (snd x) with
                 | Some p => if bool_decide (p ∈ ids) then Some (fst x) else None
                 | None => None
                 end) (map_to_list (accounts d)).

(** The rounds of the recursive query, which ends with a round that finds nothing. *)
Fixpoint rounds (fuel : nat) (d : Database) (working : list string) : option (list string) :=
  match working with
  | [] => Some []
  | _ =>
      match fuel with
      | O => None
      | S fuel => rest ← rounds fuel d (children d working); Some (working ++ rest)%list
      end
  end.

(** [descendantsCTE]; the fuel is more than the accounts there are. *)
Definition descendants (d : Database) (actor : string) : option (list string) :=
  match accounts d !! actor with
  | Some _ => rounds (S (S (size (accounts d)))) d [actor]
  | None => Some []
  end.

(** A query that does not end is one that fails. *)
Definition is_descendant (actor subject : string) (d : Database) : result tenancy_err bool :=
  match descendants d actor with
  | Some ids => Ok (bool_decide (subject ∈ ids))
  | None => Err ErrBackend
  end.

(** ** Accounts *)
Record CreateAccountParams := {
  np_Username : string; np_Email : string; np_PasswordHash : string; np_Tier : string;
  np_ParentID : string; np_FullName : string; np_Company : string;
}.

Definition insert_account (id : string) (p : CreateAccountParams) : statement unit := fun d =>
  let email := nullable (np_Email p) in
  if has (fun a => Username a =? np_Username p)%string (accounts d) then Err ErrNameTaken
  else if has (fun a => match email, Email a with Some x, Some y => (x =? y)%string | _, _ => false end)
            (accounts d) then Err ErrNameTaken
  else
    match accounts d !! id, accounts d !! np_ParentID p with
    | None, Some _ =>
        if (np_Tier p =? TierAdmin)%string || negb (is_ok (AccountTier (np_Tier p))) then Err ErrBackend
        else
          let a := {| Username := np_Username p; Email := email; PasswordHash := np_PasswordHash p;
                      Tier := np_Tier p; ParentID := Some (np_ParentID p);
                      FullName := nullable (np_FullName p); Company := nullable (np_Company p);
                      AccountStatus := "active" |} in
          Ok (tt, with_accounts (<[id := a]> (accounts d)) d)
    | _, _ => Err ErrBackend
    end.

Record UpdateAccountParams := {
  up_FullName : option string; up_Company : option string; up_Status : option string;
}.
Definition coalesce {A} (new old : option A) : option A :=
  match new with Some _ => new | None => old end.

Definition update_account (id : string) (p : UpdateAccountParams) : statement unit := fun d =>
  match accounts d !! id with
  | None => Err ErrNotFound
  | Some a =>
      let a' := {| Username := Username a; Email := Email a; PasswordHash := PasswordHash a;
                   Tier := Tier a; ParentID := ParentID a;
                   FullName := coalesce (up_FullName p) (FullName a);
                   Company := coalesce (up_Company p) (Company a);
                   AccountStatus := default (AccountStatus a) (up_Status p) |} in
      Ok (tt, with_accounts (<[id := a']> (accounts d)) d)
  end.

Definition children_of (id : string) (d : Database) : nat := count (fun a => names (ParentID a) id) (accounts d).
Definition owned_subscriptions (id : string) (d : Database) : nat :=
  count (fun s => SubscriberID s =? id)%string (subscriptions d).

Definition plan_in_use (d : Database) (plan : string) : bool :=
  has (fun s => PlanID s =? plan)%string (subscriptions d) ||
  existsb (fun x => snd (fst x) =? plan)%string (map_to_list (addons d)).

(** Deleting an account: other accounts and subscriptions stand in its way, its roles go with
    it, and so do its plans unless one is in use. *)
Definition delete_account (id : string) : statement unit := fun d =>
  match accounts d !! id with
  | None => Err ErrNotFound
  | Some _ =>
      if (0 <? children_of id d)%nat || (0 <? owned_subscriptions id d)%nat then Err ErrBackend
      else if existsb (fun x => names (OwnerUserID (snd x)) id && plan_in_use d (fst x))
                (map_to_list (plans d)) then Err ErrBackend
      else
        Ok (tt, with_plans (filter (fun x => OwnerUserID (snd x) <> Some id) (plans d))
             (with_roles (delete id (roles d)) (with_accounts (delete id (accounts d)) d)))
  end.

Definition assign_role (id role : string) : statement unit := fun d =>
  match accounts d !! id with
  | None => Err ErrBackend
  | Some _ => Ok (tt, with_roles (<[id := {[role]} ∪ default ∅ (roles d !! id)]> (roles d)) d)
  end.

(** ** Plans *)
Record PlanInput := {
  in_OwnerUserID : option string; in_Name : string; in_Description : string; in_Kind : string;
  in_Limits : Limits; in_Enforcement : string; in_Isolation : Caps;
}.

(** The two unique indexes on names: one per catalogue. *)
Definition plan_name_taken (owner : option string) (name : string) (but : option string) (d : Database) : bool :=
  existsb (fun x => bool_decide (OwnerUserID (snd x) = owner) &&
                    (to_lower (PlanTitle (snd x)) =? to_lower name)%string && negb (names but (fst x)))
    (map_to_list (plans d)).

Definition insert_plan (id : string) (p : PlanInput) : statement unit := fun d =>
  let name := trim_space (in_Name p) in
  if plan_name_taken (in_OwnerUserID p) name None d then Err ErrNameTaken
  else
    match plans d !! id, match in_OwnerUserID p with Some u => accounts d !! u | None => None end with
    | None, o =>
        if bool_decide (in_OwnerUserID p <> None /\ o = None) then Err ErrBackend
        else
          let row := {| OwnerUserID := in_OwnerUserID p; PlanTitle := name;
                        Description := in_Description p; Kind := in_Kind p; PlanLimits := in_Limits p;
                        PlanEnforcement := in_Enforcement p; PlanIsolation := in_Isolation p |} in
          Ok (tt, with_plans (<[id := row]> (plans d)) d)
    | Some _, _ => Err ErrBackend
    end.

Definition update_plan (id : string) (p : PlanInput) : statement unit := fun d =>
  match plans d !! id with
  | None => Err ErrNotFound
  | Some old =>
      let name := trim_space (in_Name p) in
      if plan_name_taken (OwnerUserID old) name (Some id) d then Err ErrNameTaken
      else
        let row := {| OwnerUserID := OwnerUserID old; PlanTitle := name;
                      Description := in_Description p; Kind := Kind old; PlanLimits := in_Limits p;
                      PlanEnforcement := in_Enforcement p; PlanIsolation := in_Isolation p |} in
        Ok (tt, with_plans (<[id := row]> (plans d)) d)
  end.

Definition delete_plan (id : string) : statement unit := fun d =>
  match plans d !! id with
  | None => Err ErrNotFound
  | Some _ => if plan_in_use d id then Err ErrBackend else Ok (tt, with_plans (delete id (plans d)) d)
  end.

(** ** Subscriptions *)
Definition subscription_name_taken (owner name : string) (but : option string) (d : Database) : bool :=
  existsb (fun x => (SubscriberID (snd x) =? owner)%string &&
                    (to_lower (SubscriptionTitle (snd x)) =? to_lower name)%string && negb (names but (fst x)))
    (map_to_list (subscriptions d)).

Definition SliceNameFor (subscriptionID : string) : string :=
  ("jothost-sub-" ++ remove_char "-" subscriptionID ++ ".slice")%string.

Definition insert_subscription (id owner plan name : string) (t : Z) : statement unit := fun d =>
  let name := trim_space name in
  if subscription_name_taken owner name None d then Err ErrNameTaken
  else
    match subscriptions d !! id, accounts d !! owner, plans d !! plan with
    | None, Some _, Some _ =>
        let row := {| SubscriberID := owner; PlanID := plan; SubscriptionTitle := name;
                      SubscriptionStatus := StatusActive; SuspendedReason := ""; SuspendedAt := None;
                      Slice := ""; IsolationState := IsolationNone; IsolationDetail := "";
                      IsolationAppliedAt := None; CreatedAt := t |} in
        Ok (tt, with_subscriptions (<[id := row]> (subscriptions d)) d)
    | _, _, _ => Err ErrBackend
    end.

(** An UPDATE of one subscription that says whether it found the row. *)
Definition update_subscription (id : string) (f : Subscription -> Subscription) : statement bool := fun d =>
  match subscriptions d !! id with
  | None => Ok (false, d)
  | Some s => Ok (true, with_subscriptions (<[id := f s]> (subscriptions d)) d)
  end.

Definition set_slice (slice : string) (s : Subscription) : Subscription := {|
  SubscriberID := SubscriberID s; PlanID := PlanID s; SubscriptionTitle := SubscriptionTitle s;
  SubscriptionStatus := SubscriptionStatus s; SuspendedReason := SuspendedReason s;
  SuspendedAt := SuspendedAt s; Slice := slice; IsolationState := IsolationState s;
  IsolationDetail := IsolationDetail s; IsolationAppliedAt := IsolationAppliedAt s; CreatedAt := CreatedAt s |}.
Definition set_plan (plan : string) (s : Subscription) : Subscription := {|
  SubscriberID := SubscriberID s; PlanID := plan; SubscriptionTitle := SubscriptionTitle s;
  SubscriptionStatus := SubscriptionStatus s; SuspendedReason := SuspendedReason s;
  SuspendedAt := SuspendedAt s; Slice := Slice s; IsolationState := IsolationState s;
  IsolationDetail := IsolationDetail s; IsolationAppliedAt := IsolationAppliedAt s; CreatedAt := CreatedAt s |}.
Definition set_title (name : string) (s : Subscription) : Subscription := {|
  SubscriberID := SubscriberID s; PlanID := PlanID s; SubscriptionTitle := name;
  SubscriptionStatus := SubscriptionStatus s; SuspendedReason := SuspendedReason s;
  SuspendedAt := SuspendedAt s; Slice := Slice s; IsolationState := IsolationState s;
  IsolationDetail := IsolationDetail s; IsolationAppliedAt := IsolationAppliedAt s; CreatedAt := CreatedAt s |}.
Definition set_status (status reason : string) (at_ : option Z) (s : Subscription) : Subscription := {|
  SubscriberID := SubscriberID s; PlanID := PlanID s; SubscriptionTitle := SubscriptionTitle s;
  SubscriptionStatus := status; SuspendedReason := reason;
  SuspendedAt := at_; Slice := Slice s; IsolationState := IsolationState s;
  IsolationDetail := IsolationDetail s; IsolationAppliedAt := IsolationAppliedAt s; CreatedAt := CreatedAt s |}.
Definition set_isolation (state detail : string) (at_ : option Z) (s : Subscription) : Subscription := {|
  SubscriberID := SubscriberID s; PlanID := PlanID s; SubscriptionTitle := SubscriptionTitle s;
  SubscriptionStatus := SubscriptionStatus s; SuspendedReason := SuspendedReason s;
  SuspendedAt := SuspendedAt s; Slice := Slice s; IsolationState := state;
  IsolationDetail := detail; IsolationAppliedAt := at_; CreatedAt := CreatedAt s |}.

Definition owned_websites (id : string) (d : Database) : nat :=
  count (fun w => names (SubscriptionID w) id) (websites d).

(** Websites stand in the way of deleting a subscription; its add-ons go with it. *)
Definition delete_subscription (id : string) : statement unit := fun d =>
  match subscriptions d !! id with
  | None => Err ErrNotFound
  | Some _ =>
      if (0 <? owned_websites id d)%nat then Err ErrBackend
      else Ok (tt, with_addons (filter (fun x => fst (fst x) <> id) (addons d))
                     (with_subscriptions (delete id (subscriptions d)) d))
  end.

(** ** Add-ons *)
Definition list_addons (id : string) (d : Database) : list Addon :=
  omap (fun x => let '((s, p), q) := x in
                 if (s =? id)%string then
                   plan ← plans d !! p; Some {| AddonPlanID := p; Quantity := q; AddonLimits := PlanLimits plan |}
                 else None) (map_to_list (addons d)).

Definition put_addon (id plan : string) (quantity : Z) : statement unit := fun d =>
  match subscriptions d !! id, plans d !! plan with
  | Some _, Some _ =>
      if is_ok (AddonQuantity quantity) then Ok (tt, with_addons (<[(id, plan) := quantity]> (addons d)) d)
      else Err ErrBackend
  | _, _ => Err ErrBackend
  end.

Definition delete_addon (id plan : string) : statement unit := fun d =>
  match addons d !! (id, plan) with
  | None => Err ErrNotFound
  | Some _ => Ok (tt, with_addons (delete (id, plan) (addons d)) d)
  end.

(** ** Websites and what hangs on them *)
Definition put_website (id : string) (subscription : option string) : statement unit := fun d =>
  match websites d !! id with
  | None => Err ErrNotFound
  | Some w =>
      if match subscription with Some s => bool_decide (subscriptions d !! s = None) | None => false end
      then Err ErrBackend
      else
        let w' := {| SubscriptionID := subscription; ParentWebsiteID := ParentWebsiteID w;
                     PrimaryDomain := PrimaryDomain w; DocumentRoot := DocumentRoot w |} in
        Ok (tt, with_websites (<[id := w']> (websites d)) d)
  end.

(** The websites service's [Create], of the columns tenancy reads: the INSERT names no
    subscription, a subdomain names its parent, and the schema wants the parent to be no subdomain
    itself. *)
Definition insert_website (id parent domain root : string) : statement unit := fun d =>
  if has (fun w => PrimaryDomain w =? domain)%string (websites d) then Err ErrNameTaken
  else
    let row := {| SubscriptionID := None; ParentWebsiteID := if (parent =? "")%string then None else Some parent;
                  PrimaryDomain := domain; DocumentRoot := root |} in
    match websites d !! id with
    | Some _ => Err ErrBackend
    | None =>
        if (parent =? "")%string then Ok (tt, with_websites (<[id := row]> (websites d)) d)
        else
          match websites d !! parent with
          | Some p => if bool_decide (ParentWebsiteID p = None)
                      then Ok (tt, with_websites (<[id := row]> (websites d)) d) else Err ErrForbidden
          | None => Err ErrBackend
          end
    end.

(** Whether a website is one of a subscription's. *)
Definition owned (d : Database) (id : string) (website : option string) : bool :=
  match website with
  | Some w => match websites d !! w with Some x => names (SubscriptionID x) id | None => false end
  | None => false
  end.

(** [CountUsage]: everything is counted in one query. *)
Definition count_usage (id : string) (d : Database) : Usage := {|
  Websites := Z.of_nat (count (fun w => names (SubscriptionID w) id &&
                                         bool_decide (ParentWebsiteID w = None)) (websites d));
  Subdomains := Z.of_nat (count (fun w => names (SubscriptionID w) id &&
                                          bool_decide (ParentWebsiteID w <> None)) (websites d));
  Databases := Z.of_nat (count (owned d id) (databases d));
  CronJobs := Z.of_nat (count (owned d id) (cron_jobs d));
  FTPUsers := Z.of_nat (count (owned d id) (ftp_users d));
  Mailboxes := Z.of_nat (count (fun md => match mail_domains d !! md with
                                          | Some w => owned d id w | None => false end) (mailboxes d)) |}.

(** [SubscriptionsForOwner], oldest first. *)
Definition older (p q : string * Subscription) : Prop := CreatedAt (snd p) <= CreatedAt (snd q).
#[global] Instance older_dec : RelDecision older := fun p q => Z_le_dec _ _.
Definition subscriptions_for (owner : string) (d : Database) : list string :=
  map fst (merge_sort older
    (List.filter (fun x => SubscriberID (snd x) =? owner)%string (map_to_list (subscriptions d)))).

(** ** Counting *)
Lemma has_false {A} (p : A -> bool) m i x : has p m = false -> m !! i = Some x -> p x = false.
Proof.
  unfold has. intros Hh Hm. destruct (p x) eqn:E; [|done]. exfalso.
  assert (existsb (fun y => p (snd y)) (map_to_list m) = true); [|congruence].
  apply existsb_exists. exists (i, x). split; [|done]. by apply list_elem_of_In, elem_of_map_to_list.
Qed.

Lemma existsb_map_false {K A} `{Countable K} (p : K * A -> bool) (m : gmap K A) i x :
  existsb p (map_to_list m) = false -> m !! i = Some x -> p (i, x) = false.
Proof.
  intros Hh Hm. destruct (p (i, x)) eqn:E; [|done]. exfalso.
  assert (existsb p (map_to_list m) = true); [|congruence].
  apply existsb_exists. exists (i, x). split; [|done]. by apply list_elem_of_In, elem_of_map_to_list.
Qed.

Lemma count_none {A} (p : A -> bool) m i x : (0 <? count p m)%nat = false -> m !! i = Some x -> p x = false.
Proof.
  unfold count. intros Hc%Nat.ltb_ge Hm. destruct (p x) eqn:E; [|done]. exfalso.
  assert (Hin : In (i, x) (List.filter (fun y => p (snd y)) (map_to_list m))).
  { apply filter_In. split; [|done]. by apply list_elem_of_In, elem_of_map_to_list. }
  destruct (List.filter _ _); [done|cbn in Hc; lia].
Qed.

Lemma filter_length_permutation {A} (p : A -> bool) (l1 l2 : list A) : l1 ≡ₚ l2 ->
  length (List.filter p l1) = length (List.filter p l2).
Proof. induction 1; cbn; repeat case_match; cbn; congruence. Qed.

(** One row more, or one row for another. *)
Lemma count_insert {A} (p : A -> bool) (m : gmap string A) i x : m !! i = None ->
  count p (<[i := x]> m) = ((if p x then 1 else 0) + count p m)%nat.
Proof.
  intros Hm. unfold count. rewrite (filter_length_permutation _ _ _ (map_to_list_insert m i x Hm)).
  cbn. by destruct (p x).
Qed.

Lemma count_replace {A} (p : A -> bool) (m : gmap string A) i x y : m !! i = Some x ->
  ((if p x then 1 else 0) + count p (<[i := y]> m) = (if p y then 1 else 0) + count p m)%nat.
Proof.
  intros Hm. rewrite <- (insert_delete_id m i x Hm) at 2. rewrite <- (insert_delete_eq m i y).
  rewrite !count_insert by apply lookup_delete_eq. lia.
Qed.

Lemma count_ext {A} (p q : A -> bool) (m : gmap string A) :
  (forall i x, m !! i = Some x -> p x = q x) -> count p m = count q m.
Proof.
  intros Hpq. unfold count. f_equal. apply filter_ext_in. intros [i x] Hin. cbn.
  apply (Hpq i). by apply elem_of_map_to_list, list_elem_of_In.
Qed.

(** ** The hierarchy is a tree *)
Definition edge (d : Database) (p c : string) : Prop :=
  exists a, accounts d !! c = Some a /\ ParentID a = Some p.
(** At or below. *)
Definition below (d : Database) : string -> string -> Prop := rtc (edge d).

Definition tree (d : Database) : Prop :=
  forall u a, accounts d !! u = Some a ->
    match ParentID a with
    | None => Tier a = TierAdmin
    | Some p => exists b, accounts d !! p = Some b /\ TierMayOwn (Tier b) (Tier a) = true
    end.

Lemma tree_rank d u a : tree d -> accounts d !! u = Some a -> 0 <= TierRank (Tier a) <= 2.
Proof.
  intros Ht Ha. specialize (Ht u a Ha). destruct (ParentID a) as [p|].
  - destruct Ht as (b & _ & Ho). apply TierMayOwn_rank in Ho. lia.
  - rewrite Ht. by vm_compute.
Qed.

Lemma edge_rank d p c b a : tree d -> accounts d !! p = Some b -> accounts d !! c = Some a ->
  edge d p c -> TierRank (Tier b) < TierRank (Tier a).
Proof.
  intros Ht Hb Ha (a' & Ha' & Hp). simplify_eq. specialize (Ht c a Ha). rewrite Hp in Ht.
  destruct Ht as (b' & Hb' & Ho). simplify_eq. apply TierMayOwn_rank in Ho. lia.
Qed.

Lemma children_spec d ids c : c ∈ children d ids <-> exists p, p ∈ ids /\ edge d p c.
Proof.
  unfold children. rewrite list_elem_of_omap. split.
  - intros ([u a] & Hin%elem_of_map_to_list & Hp). cbn in Hp. destruct (ParentID a) as [p|] eqn:Ep; [|done].
    case_bool_decide; [|done]. injection Hp as ->. exists p. split; [done|]. by exists a.
  - intros (p & Hp & a & Ha & Hpa). exists (c, a). split; [by apply elem_of_map_to_list|]. cbn.
    by rewrite Hpa, bool_decide_true.
Qed.

(** Every round goes one tier down, and there are three. *)
Lemma rounds_end d : tree d -> forall fuel r working, 3 - r <= Z.of_nat fuel ->
  (forall u, u ∈ working -> exists a, accounts d !! u = Some a /\ r <= TierRank (Tier a)) ->
  is_Some (rounds fuel d working).
Proof.
  intros Ht. induction fuel as [|fuel IH]; intros r working Hr Hw.
  - destruct working as [|u working]; [by eexists|]. destruct (Hw u) as (a & Ha & Hra); [by left|].
    pose proof (tree_rank d u a Ht Ha). lia.
  - destruct working as [|u working]; [by eexists|]. cbn [rounds].
    destruct (IH (r + 1) (children d (u :: working))) as [rest ->]; [lia| |by eexists].
    intros c (p & Hp & He)%children_spec. destruct (Hw p Hp) as (b & Hb & Hrb).
    destruct He as (a & Ha & Hpa). exists a. split; [done|].
    pose proof (edge_rank d p c b a Ht Hb Ha ltac:(by exists a)). lia.
Qed.

Lemma rounds_spec d fuel : forall working ids, rounds fuel d working = Some ids ->
  forall x, x ∈ ids <-> exists u, u ∈ working /\ below d u x.
Proof.
  induction fuel as [|fuel IH]; intros working ids Hr x.
  - destruct working; [|done]. injection Hr as <-. set_solver.
  - destruct working as [|u working]; [injection Hr as <-; set_solver|].
    cbn [rounds] in Hr. destruct (rounds fuel d (children d (u :: working))) as [rest|] eqn:E; [|done].
    set (ws := u :: working) in *. injection Hr as <-. change (x ∈ ws ++ rest <-> exists u, u ∈ ws /\ below d u x).
    rewrite elem_of_app, (IH _ _ E). split.
    + intros [Hx|(c & (p & Hp & He)%children_spec & Hb)]; [exists x; split; [done|apply rtc_refl]|].
      exists p. split; [done|]. by eapply rtc_l.
    + intros (p & Hp & Hb). apply rtc_inv in Hb as [->|(c & He & Hb)]; [by left|].
      right. exists c. split; [|done]. apply children_spec. by exists p.
Qed.

Lemma size_pos {A} (m : gmap string A) i x : m !! i = Some x -> (0 < size m)%nat.
Proof. intros Hm. destruct (decide (size m = 0%nat)) as [Hs|]; [|lia]. apply map_size_empty_inv in Hs. by subst m. Qed.

Lemma descendants_spec d actor a : tree d -> accounts d !! actor = Some a ->
  exists ids, descendants d actor = Some ids /\ forall x, x ∈ ids <-> below d actor x.
Proof.
  intros Ht Ha. unfold descendants. rewrite Ha.
  destruct (rounds_end d Ht (S (S (size (accounts d)))) 0 [actor]) as [ids Hi].
  - pose proof (size_pos _ _ _ Ha). lia.
  - intros u Hu. apply list_elem_of_singleton in Hu as ->. exists a. split; [done|].
    by destruct (tree_rank d actor a Ht Ha).
  - exists ids. split; [done|]. intros x. rewrite (rounds_spec d _ _ _ Hi). set_solver.
Qed.

Lemma is_descendant_true d actor subject : is_descendant actor subject d = Ok true -> below d actor subject.
Proof.
  unfold is_descendant, descendants. destruct (accounts d !! actor) as [a|] eqn:Ea.
  - destruct (rounds _ _ _) as [ids|] eqn:E; [|done]. intros [= Hb]. apply bool_decide_eq_true in Hb.
    apply (rounds_spec d _ _ _ E) in Hb as (u & ->%list_elem_of_singleton & Hb). done.
  - by intros [=].
Qed.

Lemma below_exists d u x a : accounts d !! u = Some a -> below d u x -> is_Some (accounts d !! x).
Proof. intros Ha Hb. apply rtc_inv_r in Hb as [<-|(p & _ & c & Hc & _)]; eauto. Qed.

(** ** The tables hold together *)
Definition kind_of (d : Database) (p kind : string) : Prop :=
  exists q, plans d !! p = Some q /\ Kind q = kind.

Record consistent (d : Database) : Prop := {
  co_tree : tree d;
  co_plans : forall p q, plans d !! p = Some q ->
    limits_ok (PlanLimits q) /\ forall u, OwnerUserID q = Some u -> is_Some (accounts d !! u);
  co_subscriptions : forall s r, subscriptions d !! s = Some r ->
    is_Some (accounts d !! SubscriberID r) /\ kind_of d (PlanID r) PlanKindPlan;
  co_addons : forall s p q, addons d !! (s, p) = Some q ->
    is_Some (subscriptions d !! s) /\ kind_of d p PlanKindAddon /\ 1 <= q <= MaxAddonQuantity;
  co_websites : forall w x s, websites d !! w = Some x -> SubscriptionID x = Some s ->
    is_Some (subscriptions d !! s);
}.

(** Rows that are only added or replaced stay. *)
Lemma insert_some {K A} `{Countable K} (m : gmap K A) i j x : is_Some (m !! j) -> is_Some (<[i := x]> m !! j).
Proof.
  intros Hj. destruct (decide (i = j)) as [->|Hij]; [by rewrite lookup_insert_eq|by rewrite lookup_insert_ne].
Qed.

(** An account put in keeps the tree if it has its place in it and nobody's tier changes. *)
Lemma insert_tree d d' id a : accounts d' = <[id := a]> (accounts d) -> tree d ->
  match ParentID a with
  | None => Tier a = TierAdmin
  | Some p => p <> id /\ exists b, accounts d !! p = Some b /\ TierMayOwn (Tier b) (Tier a) = true
  end ->
  (forall b, accounts d !! id = Some b -> Tier a = Tier b) -> tree d'.
Proof.
  intros He Ht Ha Hsame u x Hu. rewrite He in *. destruct (decide (id = u)) as [<-|Hne].
  - rewrite lookup_insert_eq in Hu. injection Hu as <-. destruct (ParentID a) as [p|]; [|done].
    destruct Ha as (Hp & b & Hb & Ho). exists b. by rewrite lookup_insert_ne.
  - rewrite lookup_insert_ne in Hu by done. specialize (Ht u x Hu).
    destruct (ParentID x) as [p|]; [|done]. destruct Ht as (b & Hb & Ho).
    destruct (decide (id = p)) as [<-|Hp].
    + exists a. rewrite lookup_insert_eq. split; [done|]. by rewrite (Hsame b Hb).
    + exists b. by rewrite lookup_insert_ne.
Qed.

Lemma insert_account_consistent id p d d' b :
  insert_account id p d = Ok (tt, d') -> consistent d ->
  accounts d !! np_ParentID p = Some b -> TierMayOwn (Tier b) (np_Tier p) = true -> consistent d'.
Proof.
  unfold insert_account. cbv zeta. intros Hi [Ht Hp Hs Ha Hw] Hb Ho.
  destruct (has _ _); [done|]. destruct (has _ _); [done|].
  destruct (accounts d !! id) eqn:Eid; [done|]. rewrite Hb in Hi.
  destruct (_ || _); [done|]. injection Hi as <-. split; cbn.
  - eapply insert_tree; [reflexivity|done| |]; cbn; [|congruence].
    split; [congruence|]. by exists b.
  - intros q x Hq. destruct (Hp q x Hq) as [Hl Hu]. split; [done|]. intros u E. by apply insert_some, Hu.
  - intros s r Hr. destruct (Hs s r Hr) as [Hu Hk]. split; [by apply insert_some|done].
  - exact Ha.
  - exact Hw.
Qed.

Lemma update_account_consistent id p d d' :
  update_account id p d = Ok (tt, d') -> consistent d -> consistent d'.
Proof.
  unfold update_account. intros Hi [Ht Hp Hs Ha Hw]. destruct (accounts d !! id) as [a|] eqn:Eid; [|done].
  injection Hi as <-. split; cbn.
  - eapply insert_tree; [reflexivity|done| |]; cbn; [|congruence].
    specialize (Ht id a Eid) as Hpar. destruct (ParentID a) as [q|]; [|done]. split; [|done].
    intros ->. destruct Hpar as (b & Hb & Ho). simplify_eq. apply TierMayOwn_rank in Ho. lia.
  - intros q x Hq. destruct (Hp q x Hq) as [Hl Hu]. split; [done|]. intros u E. by apply insert_some, Hu.
  - intros s r Hr. destruct (Hs s r Hr) as [Hu Hk]. split; [by apply insert_some|done].
  - exact Ha.
  - exact Hw.
Qed.

Lemma names_spec o s : names o s = true <-> o = Some s.
Proof. destruct o as [x|]; cbn; [|split; congruence]. rewrite String.eqb_eq. split; congruence. Qed.

Lemma names_false o s : names o s = false -> o <> Some s.
Proof. intros Hn ->. by rewrite (proj2 (names_spec (Some s) s) eq_refl) in Hn. Qed.

Lemma plan_in_use_false d p : plan_in_use d p = false ->
  (forall s r, subscriptions d !! s = Some r -> PlanID r <> p) /\
  (forall s q, addons d !! (s, p) = Some q -> False).
Proof.
  unfold plan_in_use. intros [Hs Ha]%orb_false_iff. split.
  - intros s r Hr <-. pose proof (has_false _ _ _ _ Hs Hr) as E. cbn in E. by rewrite String.eqb_refl in E.
  - intros s q Hq. pose proof (existsb_map_false _ _ _ _ Ha Hq) as E. cbn in E. by rewrite String.eqb_refl in E.
Qed.

Lemma delete_account_consistent id d d' :
  delete_account id d = Ok (tt, d') -> consistent d -> consistent d'.
Proof.
  unfold delete_account, children_of, owned_subscriptions. intros Hi [Ht Hp Hs Ha Hw].
  destruct (accounts d !! id) as [a|] eqn:Eid; [|done]. destruct (_ || _) eqn:Ec; [done|].
  apply orb_false_iff in Ec as [Ec Eo]. destruct (existsb _ _) eqn:Ep; [done|]. injection Hi as <-.
  assert (Hkeep : forall p q, plans d !! p = Some q -> plan_in_use d p = true -> OwnerUserID q <> Some id).
  { intros p q Hq Hu Hown. pose proof (existsb_map_false _ _ _ _ Ep Hq) as E. cbn in E.
    apply names_spec in Hown. by rewrite Hown, Hu in E. }
  assert (Hkind : forall p k, kind_of d p k -> plan_in_use d p = true -> exists q,
    filter (fun x => OwnerUserID (snd x) <> Some id) (plans d) !! p = Some q /\ Kind q = k).
  { intros p k (q & Hq & Hk) Hu. exists q. split; [|done]. apply map_lookup_filter_Some.
    split; [done|]. by eapply Hkeep. }
  split; unfold kind_of; cbn.
  - intros u x Hu. cbn in *. apply lookup_delete_Some in Hu as [Hne Hu]. specialize (Ht u x Hu).
    pose proof (count_none _ _ _ _ Ec Hu) as Hnc. cbn in Hnc. apply names_false in Hnc.
    destruct (ParentID x) as [p|]; [|done]. destruct Ht as (b & Hb & Ho). exists b.
    rewrite lookup_delete_ne by congruence. done.
  - intros p q [Hq Hne]%map_lookup_filter_Some. cbn in Hne. destruct (Hp p q Hq) as [Hl Hu].
    split; [done|]. intros u E. rewrite lookup_delete_ne by congruence. by apply Hu.
  - intros s r Hr. destruct (Hs s r Hr) as [Hu Hk]. pose proof (count_none _ _ _ _ Eo Hr) as Hn. cbn in Hn.
    apply String.eqb_neq in Hn. split; [by rewrite lookup_delete_ne|]. apply Hkind; [done|].
    destruct (plan_in_use d (PlanID r)) eqn:E; [done|]. apply plan_in_use_false in E as [E _].
    by destruct (E s r Hr).
  - intros s p q Hq. destruct (Ha s p q Hq) as (H1 & Hk & H3). split; [done|]. split; [|done].
    apply Hkind; [done|]. destruct (plan_in_use d p) eqn:E; [done|]. apply plan_in_use_false in E as [_ E].
    by destruct (E s q Hq).
  - exact Hw.
Qed.

Lemma assign_role_consistent id role d d' : assign_role id role d = Ok (tt, d') -> consistent d -> consistent d'.
Proof.
  unfold assign_role. destruct (accounts d !! id); [|done]. intros [= <-] [Ht Hp Hs Ha Hw]. by split.
Qed.

(** Plans: those in use stay, with their kind. *)
Lemma plans_consistent d m : consistent d ->
  (forall p q, m !! p = Some q ->
     limits_ok (PlanLimits q) /\ forall u, OwnerUserID q = Some u -> is_Some (accounts d !! u)) ->
  (forall p k, kind_of d p k -> plan_in_use d p = true -> exists q, m !! p = Some q /\ Kind q = k) ->
  consistent (with_plans m d).
Proof.
  intros [Ht _ Hs Ha Hw] Hm Hk. split; unfold kind_of; cbn; [done|done| | |done].
  - intros s r Hr. destruct (Hs s r Hr) as [Hu Hkr]. split; [done|]. apply Hk; [done|].
    destruct (plan_in_use d (PlanID r)) eqn:E; [done|]. apply plan_in_use_false in E as [E _].
    by destruct (E s r Hr).
  - intros s p q Hq. destruct (Ha s p q Hq) as (H1 & Hkq & H3). split; [done|]. split; [|done].
    apply Hk; [done|]. destruct (plan_in_use d p) eqn:E; [done|]. apply plan_in_use_false in E as [_ E].
    by destruct (E s q Hq).
Qed.

Lemma insert_plan_consistent id p d d' :
  insert_plan id p d = Ok (tt, d') -> limits_ok (in_Limits p) -> consistent d -> consistent d'.
Proof.
  unfold insert_plan. cbv zeta. intros Hi Hl Hc. destruct (plan_name_taken _ _ _ _); [done|].
  destruct (plans d !! id) eqn:Eid; [done|]. case_bool_decide as Ho; [done|]. injection Hi as <-.
  apply plans_consistent; [done| |].
  - intros q x Hx. destruct (decide (id = q)) as [<-|Hne].
    + rewrite lookup_insert_eq in Hx. injection Hx as <-. cbn. split; [done|]. intros u E. rewrite E in Ho.
      destruct (accounts d !! u); [by eexists|]. exfalso. by apply Ho.
    + rewrite lookup_insert_ne in Hx by done. by eapply (co_plans d Hc).
  - intros q k (x & Hx & Hk) _. exists x. split; [|done]. rewrite lookup_insert_ne by congruence. done.
Qed.

Lemma update_plan_consistent id p d d' :
  update_plan id p d = Ok (tt, d') -> limits_ok (in_Limits p) -> consistent d -> consistent d'.
Proof.
  unfold update_plan. intros Hi Hl Hc. destruct (plans d !! id) as [old|] eqn:Eid; [|done].
  cbv zeta in Hi. destruct (plan_name_taken _ _ _ _); [done|]. injection Hi as <-.
  apply plans_consistent; [done| |].
  - intros q x Hx. destruct (decide (id = q)) as [<-|Hne].
    + rewrite lookup_insert_eq in Hx. injection Hx as <-. cbn. split; [done|].
      intros u E. by eapply (co_plans d Hc id old).
    + rewrite lookup_insert_ne in Hx by done. by eapply (co_plans d Hc).
  - intros q k (x & Hx & Hk) _. destruct (decide (id = q)) as [<-|Hne].
    + rewrite lookup_insert_eq. eexists. split; [done|]. cbn. congruence.
    + exists x. by rewrite lookup_insert_ne.
Qed.

Lemma delete_plan_consistent id d d' : delete_plan id d = Ok (tt, d') -> consistent d -> consistent d'.
Proof.
  unfold delete_plan. intros Hi Hc. destruct (plans d !! id) as [old|] eqn:Eid; [|done].
  destruct (plan_in_use d id) eqn:Eu; [done|]. injection Hi as <-. apply plans_consistent; [done| |].
  - intros q x [_ Hx]%lookup_delete_Some. by eapply (co_plans d Hc).
  - intros q k (x & Hx & Hk) Hu. exists x. split; [|done]. rewrite lookup_delete_ne by congruence. done.
Qed.

(** Subscriptions put in. *)
Lemma subscription_consistent d id s : consistent d ->
  is_Some (accounts d !! SubscriberID s) -> kind_of d (PlanID s) PlanKindPlan ->
  consistent (with_subscriptions (<[id := s]> (subscriptions d)) d).
Proof.
  intros [Ht Hp Hs Ha Hw] Hu Hk. split; unfold kind_of; cbn; [done|done| | |].
  - intros q r Hr. destruct (decide (id = q)) as [<-|Hne].
    + rewrite lookup_insert_eq in Hr. by injection Hr as <-.
    + rewrite lookup_insert_ne in Hr by done. by eapply Hs.
  - intros q p z Hz. destruct (Ha q p z Hz) as (H1 & H2 & H3). split; [by apply insert_some|done].
  - intros w x q Hx Hq. apply insert_some. by eapply Hw.
Qed.

Lemma insert_subscription_consistent id owner plan name t d d' :
  insert_subscription id owner plan name t d = Ok (tt, d') -> kind_of d plan PlanKindPlan ->
  consistent d -> consistent d'.
Proof.
  unfold insert_subscription. cbv zeta. intros Hi Hk Hc. destruct (subscription_name_taken _ _ _ _); [done|].
  destruct (subscriptions d !! id); [done|]. destruct (accounts d !! owner) eqn:Eo; [|done].
  destruct (plans d !! plan); [|done]. injection Hi as <-. by apply subscription_consistent.
Qed.

Lemma update_subscription_consistent id f d b d' :
  update_subscription id f d = Ok (b, d') -> consistent d ->
  (forall s, subscriptions d !! id = Some s -> SubscriberID (f s) = SubscriberID s /\
     kind_of d (PlanID (f s)) PlanKindPlan) -> consistent d'.
Proof.
  unfold update_subscription. intros Hi Hc Hf. destruct (subscriptions d !! id) as [s|] eqn:E;
    injection Hi as <- <-; [|done].
  destruct (Hf s eq_refl) as [Ho Hk]. apply subscription_consistent; [done| |done].
  rewrite Ho. by destruct (co_subscriptions d Hc id s E).
Qed.

Lemma delete_subscription_consistent id d d' :
  delete_subscription id d = Ok (tt, d') -> consistent d -> consistent d'.
Proof.
  unfold delete_subscription, owned_websites. intros Hi [Ht Hp Hs Ha Hw].
  destruct (subscriptions d !! id); [|done]. destruct (0 <? _)%nat eqn:Ec; [done|]. injection Hi as <-.
  split; unfold kind_of; cbn; [done|done| | |].
  - intros q r [_ Hr]%lookup_delete_Some. by eapply Hs.
  - intros q p z [Hz Hne]%map_lookup_filter_Some. cbn in Hne. rewrite lookup_delete_ne by congruence. by eapply Ha.
  - intros w x q Hx Hq. pose proof (count_none _ _ _ _ Ec Hx) as Hn. cbn in Hn. apply names_false in Hn.
    rewrite lookup_delete_ne by congruence. by eapply Hw.
Qed.

Lemma put_addon_consistent id plan q d d' :
  put_addon id plan q d = Ok (tt, d') -> kind_of d plan PlanKindAddon -> consistent d -> consistent d'.
Proof.
  unfold put_addon, AddonQuantity. intros Hi Hk [Ht Hp Hs Ha Hw].
  destruct (subscriptions d !! id) eqn:Eid; [|done]. destruct (plans d !! plan); [|done].
  destruct (Z.ltb_spec q 1); [done|]. destruct (Z.ltb_spec MaxAddonQuantity q); [done|]. cbn in Hi.
  injection Hi as <-. split; unfold kind_of; cbn; [done..| |done].
  intros s0 p0 z Hz. destruct (decide ((id, plan) = (s0, p0))) as [[= <- <-]|Hne].
  - rewrite lookup_insert_eq in Hz. injection Hz as <-. by rewrite Eid.
  - rewrite lookup_insert_ne in Hz by done. by eapply Ha.
Qed.

Lemma delete_addon_consistent id plan d d' :
  delete_addon id plan d = Ok (tt, d') -> consistent d -> consistent d'.
Proof.
  unfold delete_addon. intros Hi [Ht Hp Hs Ha Hw]. destruct (addons d !! _); [|done]. injection Hi as <-.
  split; unfold kind_of; cbn; [done..| |done]. intros s0 p0 z0 [_ Hz]%lookup_delete_Some. by eapply Ha.
Qed.

Lemma put_website_consistent id o d d' : put_website id o d = Ok (tt, d') -> consistent d -> consistent d'.
Proof.
  unfold put_website. intros Hi [Ht Hp Hs Ha Hw]. destruct (websites d !! id) as [w|] eqn:Eid; [|done].
  destruct (match o with Some s => _ | None => _ end) eqn:Eo; [done|]. injection Hi as <-.
  split; unfold kind_of; cbn; [done..|]. intros v x s Hx Hs'. destruct (decide (id = v)) as [<-|Hne].
  - rewrite lookup_insert_eq in Hx. injection Hx as <-. cbn in Hs'. subst o. cbn in Eo.
    apply bool_decide_eq_false in Eo. destruct (subscriptions d !! s); [by eexists|done].
  - rewrite lookup_insert_ne in Hx by done. by eapply Hw.
Qed.

(** The plan and the add-ons of a subscription are what the arithmetic of quotas asks for. *)
Lemma list_addons_ok d s : consistent d -> Forall addon_ok (list_addons s d).
Proof.
  intros Hc. apply list.Forall_forall. intros a Ha. unfold list_addons in Ha.
  apply list_elem_of_omap in Ha as ([[s' p] q] & Hin%elem_of_map_to_list & Ha). cbn in Ha.
  destruct (s' =? s)%string; [|done]. destruct (plans d !! p) as [x|] eqn:Ep; [|done]. injection Ha as <-.
  destruct (co_addons d Hc s' p q Hin) as (_ & _ & Hq). split; [done|]. cbn.
  by destruct (co_plans d Hc p x Ep).
Qed.
