(* ===== verification/Tenancy.v ===== *)
(** * The tenancy use cases ([api/internal/tenancy/service.go], [repository.go],
    [impersonation.go])

    What an administrator, a reseller or a customer may ask of the tenancy tables: every use
    case with the checks it makes first, over calls that may fail before or after they took
    effect. What the host answers about resource limits is a supply of the world. *)

From stdpp Require Import gmap sorting.
From S2P Require Import Prelude Store GoStr TenancyRules Quota Tenants.

#[local] Open Scope Z_scope.

(** ** The world *)
Record Event := { e_UserID : string; e_Action : string; e_ResourceID : string; e_Success : bool }.

Record World := {
  db : Database;
  audit : list Event;
  now : Z;
  uuids : list string;
  has_agent : bool;
  host : list (result string (string * string));  (** a state and a detail, or what went wrong *)
  sent : list (string * string * Caps);           (** slices and caps sent to the host *)
  removed : list string;                          (** slices asked to be removed *)
  faults : list fault;
}.

Definition set_db (d : Database) (w : World) : World := {|
  db := d; audit := audit w; now := now w; uuids := uuids w; has_agent := has_agent w; host := host w;
  sent := sent w; removed := removed w; faults := faults w |}.
Definition set_audit (l : list Event) (w : World) : World := {|
  db := db w; audit := l; now := now w; uuids := uuids w; has_agent := has_agent w; host := host w;
  sent := sent w; removed := removed w; faults := faults w |}.
Definition set_uuids (l : list string) (w : World) : World := {|
  db := db w; audit := audit w; now := now w; uuids := l; has_agent := has_agent w; host := host w;
  sent := sent w; removed := removed w; faults := faults w |}.
Definition set_host (h : list (result string (string * string))) (s : list (string * string * Caps))
    (r : list string) (w : World) : World := {|
  db := db w; audit := audit w; now := now w; uuids := uuids w; has_agent := has_agent w; host := h;
  sent := s; removed := r; faults := faults w |}.

#[global] Instance World_faulty : Faulty World := {
  faults_of := faults;
  with_faults fs w := {|
    db := db w; audit := audit w; now := now w; uuids := uuids w; has_agent := has_agent w;
    host := host w; sent := sent w; removed := removed w; faults := fs |} }.

Local Abbreviation M := (Store.M World tenancy_err).
Local Abbreviation call := (Store.call ErrBackend).
Local Abbreviation query := (Store.query ErrBackend).
#[local] Open Scope store_scope.

(** Who asks; the tier is read from the database for every request. *)
Record Actor := {
  UserID : string; ActorTier : string; Permissions : list string; ImpersonatorUserID : string;
}.

Definition record (actor : Actor) (action resource : string) : M unit :=
  update (fun w => set_audit (audit w ++ [{| e_UserID := UserID actor; e_Action := action;
                                             e_ResourceID := resource; e_Success := true |}])%list w).

(** A statement run as one call. *)
Definition exec {A} (s : statement A) : M A :=
  call (fun w => match s (db w) with Ok (a, d) => (Ok a, set_db d w) | Err e => (Err e, w) end).

(** An INSERT that draws the identifier of the row. *)
Definition insert (s : string -> Z -> statement unit) : M string :=
  call (fun w => match uuids w with
                 | [] => (Err ErrBackend, w)
                 | id :: rest =>
                     match s id (now w) (db w) with
                     | Ok (_, d) => (Ok id, set_uuids rest (set_db d w))
                     | Err e => (Err e, set_uuids rest w)
                     end
                 end).

Definition rule {A} (r : result tenancy_rule_err A) : M A :=
  answer (match r with Ok a => Ok a | Err e => Err (ErrRule e) end).

(** ** The repository *)
Definition found {A} (o : option A) : result tenancy_err A :=
  match o with Some a => Ok a | None => Err ErrNotFound end.

Definition GetAccount (id : string) : M Account := query (fun w => found (accounts (db w) !! id)).
Definition GetPlan (id : string) : M Plan := query (fun w => found (plans (db w) !! id)).
Definition GetSubscription (id : string) : M Subscription :=
  query (fun w => found (subscriptions (db w) !! id)).
Definition IsDescendant (actor subject : string) : M bool :=
  query (fun w => is_descendant actor subject (db w)).

Definition TierOf (id : string) : M string :=
  let! tier := query (fun w => found (Tier <$> accounts (db w) !! id)) in
  rule (AccountTier tier) ;! ret tier.

Definition ListAddons (id : string) : M (list Addon) := query (fun w => Ok (list_addons id (db w))).
Definition CountUsage (id : string) : M Usage := query (fun w => Ok (count_usage id (db w))).
Definition ListWebsites (id : string) : M (list (string * Website)) :=
  query (fun w => Ok (List.filter (fun x => names (SubscriptionID (snd x)) id) (map_to_list (websites (db w))))).

Definition CreateAccountRow (p : CreateAccountParams) : M (string * Account) :=
  let! id := insert (fun id _ => insert_account id p) in
  let! a := GetAccount id in ret (id, a).

Definition UpdateAccountRow (id : string) (p : UpdateAccountParams) : M Account :=
  exec (update_account id p) ;! GetAccount id.

Definition DeleteAccountRow (id : string) : M unit :=
  let! depend := query (fun w => Ok (children_of id (db w), owned_subscriptions id (db w))) in
  if (0 <? fst depend)%nat then fail ErrHasChildren
  else if (0 <? snd depend)%nat then fail ErrForbidden
  else exec (delete_account id).

Definition CreatePlanRow (p : PlanInput) : M (string * Plan) :=
  let! id := insert (fun id _ => insert_plan id p) in
  let! plan := GetPlan id in ret (id, plan).

Definition UpdatePlanRow (id : string) (p : PlanInput) : M Plan :=
  exec (update_plan id p) ;! GetPlan id.

Definition DeletePlanRow (id : string) : M unit :=
  let! inUse := query (fun w => Ok (plan_in_use (db w) id)) in
  if inUse : bool then fail ErrPlanInUse else exec (delete_plan id).

Definition touched (m : M bool) : M unit :=
  let! row := m in if row : bool then ret tt else fail ErrNotFound.

Definition CreateSubscriptionRow (owner plan name : string) : M (string * Subscription) :=
  let! id := insert (fun id t => insert_subscription id owner plan name t) in
  let! _ := exec (update_subscription id (set_slice (SliceNameFor id))) in
  let! s := GetSubscription id in ret (id, s).

(** The plan must exist, by the foreign key. *)
Definition SetSubscriptionPlan (id plan : string) : M unit :=
  touched (exec (fun d => match plans d !! plan with
                          | Some _ => update_subscription id (set_plan plan) d
                          | None => Err ErrBackend
                          end)).

Definition RenameSubscription (id name : string) : M unit :=
  let name := trim_space name in
  touched (exec (fun d =>
    match subscriptions d !! id with
    | Some s => if subscription_name_taken (SubscriberID s) name (Some id) d then Err ErrNameTaken
                else update_subscription id (set_title name) d
    | None => Ok (false, d)
    end)).

Definition SetStatusRow (id status reason : string) : M unit :=
  let! t := get now in
  let suspended := (status =? StatusSuspended)%string in
  touched (exec (update_subscription id
    (set_status status (if suspended then reason else ""%string) (if suspended then Some t else None)))).

Definition isolation_states : list string :=
  [IsolationNone; IsolationApplied; IsolationDeclared; IsolationFailed].

(** A state outside the four is refused by the schema. *)
Definition SetIsolationState (id state detail : string) : M unit :=
  let! t := get now in
  let at_ := if (state =? IsolationApplied)%string then Some t else None in
  let! _ := exec (fun d => if one_of isolation_states state
                           then update_subscription id (set_isolation state detail at_) d
                           else Err ErrBackend) in
  ret tt.

Definition DeleteSubscriptionRow (id : string) : M unit :=
  let! n := query (fun w => Ok (owned_websites id (db w))) in
  if (0 <? n)%nat then fail ErrSubscriptionInUse else exec (delete_subscription id).

Definition SetAddon (id plan : string) (quantity : Z) : M unit := exec (put_addon id plan quantity).
Definition RemoveAddonRow (id plan : string) : M unit := exec (delete_addon id plan).
Definition AssignWebsiteRow (id : string) (subscription : option string) : M unit :=
  exec (put_website id subscription).

(** An empty identifier names nothing. *)
Definition SubscriptionForWebsite (id : string) : M string :=
  if (trim_space id =? "")%string then fail ErrNotFound
  else query (fun w => found (x ← websites (db w) !! id; SubscriptionID x)).
Definition WebsiteForMailDomain (id : string) : M string :=
  if (trim_space id =? "")%string then fail ErrNotFound
  else query (fun w => found (mjoin (mail_domains (db w) !! id))).
Definition SubscriptionsForOwner (owner : string) : M (list string) :=
  query (fun w => Ok (subscriptions_for owner (db w))).

(** ** The hierarchy as a guard *)
Definition seesEverything (actor : Actor) : bool := (ActorTier actor =? TierAdmin)%string.

Definition requireDescendant (actor : Actor) (subject : string) : M unit :=
  if seesEverything actor then let! _ := GetAccount subject in ret tt
  else
    let! ok := IsDescendant (UserID actor) subject in
    if ok : bool then ret tt else fail ErrNotFound.

(** ** Accounts *)
Record CreateAccountRequest := {
  rq_Username : string; rq_Email : string; rq_Password : string; rq_Tier : string;
  rq_FullName : string; rq_Company : string; rq_ParentID : string;
}.

(** [users.ValidateUsername]: [^[a-z0-9][a-z0-9_.-]{2,99}$]. *)
Definition username_char (c : ascii) : bool :=
  is_lower c || is_digit c || Ascii.eqb c "_" || Ascii.eqb c "." || Ascii.eqb c "-".
Definition ValidateUsername (s : string) : bool :=
  match s with
  | String c rest => (is_lower c || is_digit c) && str_forall username_char rest &&
                     (2 <=? String.length rest)%nat && (String.length rest <=? 99)%nat
  | ""%string => false
  end.

(** [users.ValidateEmail]: [^[^@\s]+@[^@\s.]+\.[^@\s]+$], where no character but the listed ones
    matters. *)
Definition email_char (c : ascii) : bool :=
  negb (Ascii.eqb c "@" || Ascii.eqb c " " || Ascii.eqb c "009" || Ascii.eqb c "010" ||
        Ascii.eqb c "012" || Ascii.eqb c "013").
Definition email_part (s : string) : bool := negb (s =? "")%string && str_forall email_char s.
Definition ValidateEmail (s : string) : bool :=
  if (s =? "")%string then true
  else if (255 <? String.length s)%nat then false
  else
    let '(local, domain, at_) := cut "@" s in
    let '(host, rest, dot) := cut "." domain in
    at_ && dot && email_part local && email_part host && email_part rest.

Definition NormalizeUsername (s : string) : string := to_lower (trim_space s).

(** [secrets.HashPassword]. *)
Class Hashing := { HashPassword : string -> option string }.

Section accounts.
Context `{Hashing}.

Definition CreateAccount (actor : Actor) (req : CreateAccountRequest) : M (string * Account) :=
  rule (AccountTier (rq_Tier req)) ;!
  let username := NormalizeUsername (rq_Username req) in
  if negb (ValidateUsername username) then fail ErrInvalidUsername
  else if negb (ValidateEmail (rq_Email req)) then fail ErrInvalidEmail
  else
    rule (PersonName (rq_FullName req)) ;!
    rule (PersonName (rq_Company req)) ;!
    let parent := if (rq_ParentID req =? "")%string then UserID actor else rq_ParentID req in
    (if (parent =? UserID actor)%string then ret tt else requireDescendant actor parent) ;!
    let! parentTier := TierOf parent in
    if negb (TierMayOwn parentTier (rq_Tier req)) then fail ErrForbidden
    else
      match HashPassword (rq_Password req) with
      | None => fail ErrHash
      | Some hash =>
          let! account := CreateAccountRow {|
            np_Username := username; np_Email := rq_Email req; np_PasswordHash := hash;
            np_Tier := rq_Tier req; np_ParentID := parent; np_FullName := rq_FullName req;
            np_Company := rq_Company req |} in
          (if (rq_Tier req =? TierReseller)%string
           then exec (assign_role (fst account) "reseller") else ret tt) ;!
          record actor "tenant.account.create" (fst account) ;!
          ret account
      end.
End accounts.

Definition user_statuses : list string := ["active"; "disabled"; "locked"]%string.

Definition optional {A} (check : A -> result tenancy_rule_err unit) (o : option A) : M unit :=
  match o with Some a => rule (check a) | None => ret tt end.

Definition UpdateAccount (actor : Actor) (id : string) (p : UpdateAccountParams) : M Account :=
  requireDescendant actor id ;!
  let status := up_Status p in
  if (id =? UserID actor)%string && match status with Some s => negb (s =? "active")%string | None => false end
  then fail ErrForbidden
  else if match status with Some s => negb (one_of user_statuses s) | None => false end
  then fail ErrInvalidUserState
  else
    optional PersonName (up_FullName p) ;!
    optional PersonName (up_Company p) ;!
    let! account := UpdateAccountRow id p in
    record actor "tenant.account.update" id ;!
    ret account.

Definition DeleteAccount (actor : Actor) (id : string) : M unit :=
  if (id =? UserID actor)%string then fail ErrForbidden
  else
    requireDescendant actor id ;!
    let! _ := GetAccount id in
    DeleteAccountRow id ;!
    record actor "tenant.account.delete" id.

(** ** Plans *)
Definition mayUsePlan (actor : Actor) (plan : Plan) : bool :=
  if seesEverything actor then true
  else match OwnerUserID plan with None => true | Some o => (o =? UserID actor)%string end.

Definition mayEditPlan (actor : Actor) (plan : Plan) : bool :=
  if seesEverything actor then true
  else match OwnerUserID plan with None => false | Some o => (o =? UserID actor)%string end.

Record PlanRequest := {
  pr_Name : string; pr_Description : string; pr_Kind : string; pr_Limits : Limits;
  pr_Enforcement : string; pr_Isolation : Caps;
}.

(** The defaults are filled in, and every limit is checked (in an order Go leaves open; all
    failures are of one kind). *)
Definition validatePlan (req : PlanRequest) : result tenancy_rule_err PlanRequest :=
  let kind := if (pr_Kind req =? "")%string then PlanKindPlan else pr_Kind req in
  let enforcement := if (pr_Enforcement req =? "")%string then EnforcementHard else pr_Enforcement req in
  let? _ := PlanKind kind in
  let? _ := PlanName (pr_Name req) in
  let? _ := Enforcement enforcement in
  let? _ := if forallb (fun dimension => is_ok (QuotaLimit dimension (Limit (pr_Limits req) dimension)))
                 (counted ++ measured) then Ok tt else Err ErrInvalidLimit in
  let? _ := Isolation (CPUPercent (pr_Isolation req)) (MemoryMB (pr_Isolation req))
              (IOWeight (pr_Isolation req)) in
  Ok {| pr_Name := pr_Name req; pr_Description := pr_Description req; pr_Kind := kind;
        pr_Limits := pr_Limits req; pr_Enforcement := enforcement; pr_Isolation := pr_Isolation req |}.

Definition input_of (owner : option string) (req : PlanRequest) : PlanInput := {|
  in_OwnerUserID := owner; in_Name := pr_Name req; in_Description := pr_Description req;
  in_Kind := pr_Kind req; in_Limits := pr_Limits req; in_Enforcement := pr_Enforcement req;
  in_Isolation := pr_Isolation req |}.

Definition CreatePlan (actor : Actor) (req : PlanRequest) : M (string * Plan) :=
  let! req := rule (validatePlan req) in
  let owner := if seesEverything actor then None else Some (UserID actor) in
  let! plan := CreatePlanRow (input_of owner req) in
  record actor "tenant.plan.create" (fst plan) ;!
  ret plan.

(** ** Limits on the host *)

(** [TenantIsolationApply]: what the host is asked, and its next answer. *)
Definition agent_apply (slice description : string) (caps : Caps) : M (result string (string * string)) :=
  fun w =>
    let asked := (sent w ++ [(slice, description, caps)])%list in
    match host w with
    | [] => (Ok (Err "no answer"%string), set_host [] asked (removed w) w)
    | a :: rest => (Ok a, set_host rest asked (removed w) w)
    end.

(** What fails here is only logged. *)
Definition applyIsolation (actor : Actor) (id : string) : M unit :=
  let! agent := get has_agent in
  if negb agent then ret tt
  else
    let! s := attempt (GetSubscription id) in
    match s with
    | Err _ => ret tt
    | Ok s =>
        let! plan := attempt (GetPlan (PlanID s)) in
        match plan with
        | Err _ => ret tt
        | Ok plan =>
            let slice := if (Slice s =? "")%string then SliceNameFor id else Slice s in
            let! answer := agent_apply slice (SubscriptionTitle s) (PlanIsolation plan) in
            match answer with
            | Err message =>
                let! _ := attempt (SetIsolationState id IsolationFailed message) in ret tt
            | Ok (state, detail) =>
                let! _ := attempt (SetIsolationState id state detail) in
                record actor "tenant.isolation.apply" id
            end
        end
    end.

Fixpoint apply_all (actor : Actor) (ids : list string) : M unit :=
  match ids with
  | [] => ret tt
  | id :: ids => applyIsolation actor id ;! apply_all actor ids
  end.

Definition on_plan (plan : string) (d : Database) : list string :=
  map fst (List.filter (fun x => PlanID (snd x) =? plan)%string (map_to_list (subscriptions d))).

Definition reapplyIsolationForPlan (actor : Actor) (plan : string) : M unit :=
  let! agent := get has_agent in
  if negb agent then ret tt
  else
    let! ids := attempt (query (fun w => Ok (on_plan plan (db w)))) in
    match ids with Err _ => ret tt | Ok ids => apply_all actor ids end.

Definition UpdatePlan (actor : Actor) (id : string) (req : PlanRequest) : M Plan :=
  let! existing := GetPlan id in
  if negb (mayEditPlan actor existing)
  then fail (if mayUsePlan actor existing then ErrForbidden else ErrNotFound)
  else
    let req := {| pr_Name := pr_Name req; pr_Description := pr_Description req; pr_Kind := Kind existing;
                  pr_Limits := pr_Limits req; pr_Enforcement := pr_Enforcement req;
                  pr_Isolation := pr_Isolation req |} in
    let! req := rule (validatePlan req) in
    let! plan := UpdatePlanRow id (input_of None req) in
    record actor "tenant.plan.update" id ;!
    reapplyIsolationForPlan actor id ;!
    ret plan.

Definition DeletePlan (actor : Actor) (id : string) : M unit :=
  let! plan := GetPlan id in
  if negb (mayEditPlan actor plan) then fail ErrNotFound
  else DeletePlanRow id ;! record actor "tenant.plan.delete" id.

(** ** Subscriptions *)
Record View := {
  v_Row : Subscription; v_Addons : list Addon; v_Enforcement : string; v_Limits : Limits;
  v_Isolation : Caps; v_Usage : Usage; v_Websites : list (string * Website);
}.

Definition decorate (id : string) (s : Subscription) : M View :=
  let! plan := GetPlan (PlanID s) in
  let! addons := ListAddons id in
  let! usage := CountUsage id in
  ret {| v_Row := s; v_Addons := addons; v_Enforcement := PlanEnforcement plan;
         v_Limits := EffectiveLimits (PlanLimits plan) addons; v_Isolation := PlanIsolation plan;
         v_Usage := usage; v_Websites := [] |}.

Definition with_websites_listed (l : list (string * Website)) (v : View) : View := {|
  v_Row := v_Row v; v_Addons := v_Addons v; v_Enforcement := v_Enforcement v; v_Limits := v_Limits v;
  v_Isolation := v_Isolation v; v_Usage := v_Usage v; v_Websites := l |}.

(** The service's [Subscription]. *)
Definition ViewSubscription (actor : Actor) (id : string) : M View :=
  let! s := GetSubscription id in
  requireDescendant actor (SubscriberID s) ;!
  let! v := decorate id s in
  let! sites := ListWebsites id in
  ret (with_websites_listed sites v).

(** The subscription an actor may manage. *)
Definition mine (actor : Actor) (id : string) : M Subscription :=
  let! s := GetSubscription id in requireDescendant actor (SubscriberID s) ;! ret s.

Definition plan_for_sale (actor : Actor) (id kind : string) (wrong : tenancy_err) : M Plan :=
  let! plan := GetPlan id in
  if negb (mayUsePlan actor plan) then fail ErrNotFound
  else if negb (Kind plan =? kind)%string then fail wrong else ret plan.

Definition CreateSubscription (actor : Actor) (owner plan name : string) : M View :=
  rule (SubscriptionName name) ;!
  requireDescendant actor owner ;!
  let! _ := plan_for_sale actor plan PlanKindPlan ErrNotAPlan in
  let! s := CreateSubscriptionRow owner plan name in
  record actor "tenant.subscription.create" (fst s) ;!
  applyIsolation actor (fst s) ;!
  ViewSubscription actor (fst s).

Definition UpdateSubscription (actor : Actor) (id : string) (name plan : option string) : M View :=
  let! _ := mine actor id in
  match name with
  | None => ret tt
  | Some n => rule (SubscriptionName n) ;! RenameSubscription id n
  end ;!
  match plan with
  | None => ret tt
  | Some p => let! _ := plan_for_sale actor p PlanKindPlan ErrNotAPlan in SetSubscriptionPlan id p
  end ;!
  record actor "tenant.subscription.update" id ;!
  applyIsolation actor id ;!
  ViewSubscription actor id.

Definition SetSubscriptionStatus (actor : Actor) (id status reason : string) : M View :=
  if negb (one_of [StatusActive; StatusSuspended] status) then fail ErrInvalidStatus
  else
    rule (Reason reason) ;!
    let! _ := mine actor id in
    SetStatusRow id status reason ;!
    record actor (if (status =? StatusSuspended)%string then "tenant.subscription.suspend"
                  else "tenant.subscription.resume") id ;!
    ViewSubscription actor id.

(** [TenantIsolationRemove]; what it answers is only logged. *)
Definition agent_remove (slice : string) : M unit :=
  update (fun w => if has_agent w && negb (slice =? "")%string
                   then set_host (host w) (sent w) (removed w ++ [slice])%list w else w).

Definition DeleteSubscription (actor : Actor) (id : string) : M unit :=
  let! s := mine actor id in
  DeleteSubscriptionRow id ;!
  agent_remove (Slice s) ;!
  record actor "tenant.subscription.delete" id.

(** ** Add-ons and websites *)
Definition AddAddon (actor : Actor) (id plan : string) (quantity : Z) : M View :=
  rule (AddonQuantity quantity) ;!
  let! _ := mine actor id in
  let! _ := plan_for_sale actor plan PlanKindAddon ErrNotAnAddon in
  SetAddon id plan quantity ;!
  record actor "tenant.addon.add" id ;!
  ViewSubscription actor id.

Definition RemoveAddon (actor : Actor) (id plan : string) : M View :=
  let! _ := mine actor id in
  RemoveAddonRow id plan ;!
  record actor "tenant.addon.remove" id ;!
  ViewSubscription actor id.

Definition AssignWebsite (actor : Actor) (id website : string) : M View :=
  let! _ := mine actor id in
  AssignWebsiteRow website (Some id) ;!
  record actor "tenant.subscription.update" id ;!
  ViewSubscription actor id.

Definition ReleaseWebsite (actor : Actor) (id website : string) : M View :=
  let! _ := mine actor id in
  let! owner := attempt (SubscriptionForWebsite website) in
  if match owner with Ok o => negb (o =? id)%string | Err _ => true end then fail ErrNotFound
  else
    AssignWebsiteRow website None ;!
    record actor "tenant.subscription.update" id ;!
    ViewSubscription actor id.

(** Called for every new website, on behalf of its creator. *)
Definition AssignNewWebsite (owner subscription website : string) : M unit :=
  if negb (subscription =? "")%string
  then let! _ := GetSubscription subscription in AssignWebsiteRow website (Some subscription)
  else
    let! ids := SubscriptionsForOwner owner in
    match ids with
    | [] => ret tt
    | id :: _ => AssignWebsiteRow website (Some id)
    end.

Definition ApplyIsolation (actor : Actor) (id : string) : M View :=
  let! _ := mine actor id in
  applyIsolation actor id ;!
  ViewSubscription actor id.

(** ** Impersonation: the checks of [StartImpersonation] before a session is opened *)
Definition PermTenantImpersonate : string := "tenant.impersonate".
Definition Has (permissions : list string) (want : string) : bool := existsb (String.eqb want) permissions.

Definition may_impersonate (actor : Actor) (subject reason : string) : M Account :=
  if negb (ImpersonatorUserID actor =? "")%string then fail ErrAlreadyImpersonating
  else if negb (Has (Permissions actor) PermTenantImpersonate) then fail ErrForbidden
  else
    rule (Reason reason) ;!
    if (subject =? UserID actor)%string then fail ErrCannotImpersonate
    else
      requireDescendant actor subject ;!
      let! subjectTier := TierOf subject in
      if negb (TierMayOwn (ActorTier actor) subjectTier) then fail ErrCannotImpersonate
      else GetAccount subject.

(** ** [ActorFor] *)
Definition ActorFor (id : string) (permissions : list string) (impersonator : string) : M Actor :=
  let! tier := attempt (TierOf id) in
  match tier with
  | Err ErrNotFound => fail ErrForbidden
  | Err e => fail e
  | Ok tier => ret {| UserID := id; ActorTier := tier; Permissions := permissions;
                      ImpersonatorUserID := impersonator |}
  end.
