(* ===== verification/TenancyRights.v ===== *)
(** * Who may change what ([api/internal/tenancy/service.go])

    The statements an actor is entitled to, as a relation on the tables; every use case is shown
    to run as a sequence of them, whatever fails. What holds of each statement then holds of
    every use case: the tables stay together, and an account outside the actor's part of the
    hierarchy is left alone. *)

From stdpp Require Import gmap.
From S2P Require Import Prelude Store GoStr TenancyRules Quota Tenants Tenancy.

#[local] Open Scope Z_scope.
#[local] Open Scope store_scope.
Local Abbreviation M := (Store.M World tenancy_err).

(** At or below the actor, or anywhere for an administrator. *)
Definition reach (actor : Actor) (d : Database) (user : string) : Prop :=
  seesEverything actor = true \/ below d (UserID actor) user.

Definition manages (actor : Actor) (d : Database) (id : string) : Prop :=
  exists s, subscriptions d !! id = Some s /\ reach actor d (SubscriberID s).
Definition edits (actor : Actor) (d : Database) (id : string) : Prop :=
  exists p, plans d !! id = Some p /\ mayEditPlan actor p = true.
Definition sells (actor : Actor) (d : Database) (id kind : string) : Prop :=
  exists p, plans d !! id = Some p /\ mayUsePlan actor p = true /\ Kind p = kind.

#[global] Instance World_quiet : Quiet World.
Proof. refine {| same w w' := db w' = db w /\ has_agent w' = has_agent w |}; done. Defined.

Section actor.
Context (actor : Actor).

(** The statements the actor is entitled to. *)
Inductive entitled (d : Database) : Database -> Prop :=
| may_create_account id p b d' :
    accounts d !! np_ParentID p = Some b -> TierMayOwn (Tier b) (np_Tier p) = true ->
    reach actor d (np_ParentID p) -> insert_account id p d = Ok (tt, d') -> entitled d d'
| may_update_account id p d' :
    reach actor d id -> update_account id p d = Ok (tt, d') -> entitled d d'
| may_delete_account id d' :
    reach actor d id -> id <> UserID actor -> delete_account id d = Ok (tt, d') -> entitled d d'
| may_assign_role id role d' :
    reach actor d id -> assign_role id role d = Ok (tt, d') -> entitled d d'
| may_create_plan id p d' :
    in_OwnerUserID p = (if seesEverything actor then None else Some (UserID actor)) ->
    limits_ok (in_Limits p) -> insert_plan id p d = Ok (tt, d') -> entitled d d'
| may_update_plan id p d' :
    edits actor d id -> limits_ok (in_Limits p) -> update_plan id p d = Ok (tt, d') -> entitled d d'
| may_delete_plan id d' :
    edits actor d id -> delete_plan id d = Ok (tt, d') -> entitled d d'
| may_subscribe id owner plan name t d' :
    reach actor d owner -> sells actor d plan PlanKindPlan ->
    insert_subscription id owner plan name t d = Ok (tt, d') -> entitled d d'
| may_update_subscription id f b d' :
    manages actor d id ->
    (forall s, SubscriberID (f s) = SubscriberID s /\
       (PlanID (f s) = PlanID s \/ sells actor d (PlanID (f s)) PlanKindPlan)) ->
    update_subscription id f d = Ok (b, d') -> entitled d d'
| may_note_isolation id s state detail t b d' :
    subscriptions d !! id = Some s -> manages actor d id \/ edits actor d (PlanID s) ->
    update_subscription id (set_isolation state detail t) d = Ok (b, d') -> entitled d d'
| may_delete_subscription id d' :
    manages actor d id -> delete_subscription id d = Ok (tt, d') -> entitled d d'
| may_add_addon id plan q d' :
    manages actor d id -> sells actor d plan PlanKindAddon ->
    put_addon id plan q d = Ok (tt, d') -> entitled d d'
| may_remove_addon id plan d' :
    manages actor d id -> delete_addon id plan d = Ok (tt, d') -> entitled d d'
| may_take_website id website d' :
    manages actor d id -> put_website website (Some id) d = Ok (tt, d') -> entitled d d'
| may_release_website id website x d' :
    manages actor d id -> websites d !! website = Some x -> SubscriptionID x = Some id ->
    put_website website None d = Ok (tt, d') -> entitled d d'.

(** ** A small logic of what programs do to the tables *)
(** [m] changes no table, and what it answers is [P] of them. *)
Definition reads {A} (m : M A) (P : A -> Database -> Prop) : Prop :=
  forall w, wp m (fun a w' => db w' = db w /\ P a (db w)) (fun w' => db w' = db w) w.

(** From tables of [Pre], [m] only takes steps the actor is entitled to, and if it answers,
    [Post] holds of what it leaves. *)
Definition acts {A} (Pre : Database -> Prop) (m : M A) (Post : A -> Database -> Prop) : Prop :=
  forall w, Pre (db w) ->
    wp m (fun a w' => rtc entitled (db w) (db w') /\ Post a (db w')) (fun w' => rtc entitled (db w) (db w')) w.

Lemma reads_query {A} (f : World -> result tenancy_err A) (P : A -> Database -> Prop) :
  (forall w a, f w = Ok a -> P a (db w)) -> reads (query ErrBackend f) P.
Proof.
  intros Hf w. apply wp_query. intros w0 [Hs _]. split; [done|]. intros a Ha. split; [done|].
  rewrite <- Hs. by apply Hf.
Qed.

Lemma reads_ret {A} (a : A) P : (forall d, P a d) -> reads (ret a) P.
Proof. intros HP w. by apply wp_ret. Qed.
Lemma reads_fail {A} e (P : A -> Database -> Prop) : reads (fail e) P.
Proof. intros w. by apply wp_fail. Qed.

Lemma reads_bind {A B} (m : M A) (k : A -> M B) P Q :
  reads m P -> (forall a, reads (k a) (fun b d => P a d -> Q b d)) -> reads (bind m k) Q.
Proof.
  intros Hm Hk w. apply wp_bind. eapply wp_weaken; [apply Hm| |done].
  intros a w1 [Hd HP]. cbn. eapply wp_weaken; [apply Hk| |]; cbn.
  - intros b w2 [Hd2 HQ]. rewrite Hd in *. auto.
  - intros w2 Hd2. congruence.
Qed.

Lemma reads_weaken {A} (m : M A) (P Q : A -> Database -> Prop) :
  reads m P -> (forall a d, P a d -> Q a d) -> reads m Q.
Proof. intros Hm HPQ w. eapply wp_weaken; [apply Hm| |done]. intros a w' [Hd HP]. auto. Qed.

Lemma acts_reads_bind {A B} Pre (m : M A) (k : A -> M B) P Post :
  reads m P -> (forall a, acts (fun d => Pre d /\ P a d) (k a) Post) -> acts Pre (bind m k) Post.
Proof.
  intros Hm Hk w Hw. apply wp_bind. eapply wp_weaken; [apply Hm| |].
  - intros a w1 [Hd HP]. cbn. rewrite <- Hd. apply Hk. rewrite Hd. auto.
  - intros w1 ->. apply rtc_refl.
Qed.

Lemma acts_bind {A B} Pre (m : M A) Mid (k : A -> M B) Post :
  acts Pre m Mid -> (forall a, acts (Mid a) (k a) Post) -> acts Pre (bind m k) Post.
Proof.
  intros Hm Hk w Hw. apply wp_bind. eapply wp_weaken; [by apply Hm| |done].
  intros a w1 [Hr HM]. cbn. eapply wp_weaken; [by apply Hk| |]; cbn.
  - intros b w2 [Hr2 HP]. split; [by etrans|done].
  - intros w2 Hr2. by etrans.
Qed.

Lemma acts_ret {A} (Pre : Database -> Prop) (a : A) (Post : A -> Database -> Prop) :
  (forall d, Pre d -> Post a d) -> acts Pre (ret a) Post.
Proof. intros HP w Hw. apply wp_ret. split; [apply rtc_refl|auto]. Qed.
Lemma acts_fail {A} Pre e (Post : A -> Database -> Prop) : acts Pre (fail e) Post.
Proof. intros w Hw. apply wp_fail, rtc_refl. Qed.

Lemma acts_reads {A} Pre (m : M A) P : reads m P -> acts Pre m (fun a d => Pre d /\ P a d).
Proof.
  intros Hm w Hw. eapply wp_weaken; [apply Hm| |]; cbn.
  - intros a w' [-> HP]. split; [apply rtc_refl|done].
  - intros w' ->. apply rtc_refl.
Qed.

Lemma acts_weaken {A} (Pre Pre' : Database -> Prop) (m : M A) (Post Post' : A -> Database -> Prop) :
  acts Pre m Post -> (forall d, Pre' d -> Pre d) -> (forall a d, Post a d -> Post' a d) -> acts Pre' m Post'.
Proof.
  intros Hm HP HQ w Hw. eapply wp_weaken; [by apply Hm, HP| |done]. intros a w' [Hr Ha]. auto.
Qed.

Lemma acts_exec {A} (Pre : Database -> Prop) (s : statement A) (Post : A -> Database -> Prop) :
  (forall d a d', Pre d -> s d = Ok (a, d') -> (d' = d \/ entitled d d') /\ Post a d') ->
  acts Pre (exec s) Post.
Proof.
  intros Hs w Hw. apply wp_call. intros w0 [Hd _]. split; [rewrite Hd; apply rtc_refl|].
  rewrite Hd. destruct (s (db w)) as [[a d']|e] eqn:E; cbn; [|rewrite Hd; apply rtc_refl].
  destruct (Hs _ _ _ Hw E) as [Hr HP]. assert (rtc entitled (db w) d').
  { destruct Hr as [->|Hr]; [apply rtc_refl|by apply rtc_once]. }
  done.
Qed.

Lemma acts_insert (Pre : Database -> Prop) (s : string -> Z -> statement unit) (Post : string -> Database -> Prop) :
  (forall id t d d', Pre d -> s id t d = Ok (tt, d') -> entitled d d' /\ Post id d') ->
  acts Pre (insert s) Post.
Proof.
  intros Hs w Hw. apply wp_call. intros w0 [Hd _]. split; [rewrite Hd; apply rtc_refl|].
  destruct (uuids w0) as [|id rest]; cbn; [rewrite Hd; apply rtc_refl|]. rewrite Hd.
  destruct (s id (now w0) (db w)) as [[[] d']|e] eqn:E; cbn; [|rewrite Hd; apply rtc_refl].
  destruct (Hs _ _ _ _ Hw E) as [Hr HP]. split; [split; [by apply rtc_once|done]|by apply rtc_once].
Qed.

Lemma acts_attempt {A} Pre (m : M A) Post : acts Pre m Post -> acts Pre (attempt m) (fun _ _ => True).
Proof.
  intros Hm w Hw. apply wp_attempt. eapply wp_weaken; [by apply Hm| |]; cbn.
  - intros a w' [Hr _]. done.
  - done.
Qed.

Lemma reads_attempt {A} (m : M A) P :
  reads m P -> reads (attempt m) (fun r d => match r with Ok a => P a d | Err _ => True end).
Proof. intros Hm w. apply wp_attempt. eapply wp_weaken; [apply Hm| |]; done. Qed.

(** ** The checks *)
Lemma found_ok {A} (o : option A) a : found o = Ok a -> o = Some a.
Proof. by destruct o; intros [= <-]. Qed.

Lemma reads_GetAccount id : reads (GetAccount id) (fun a d => accounts d !! id = Some a).
Proof. apply reads_query. intros w a. apply found_ok. Qed.
Lemma reads_GetPlan id : reads (GetPlan id) (fun p d => plans d !! id = Some p).
Proof. apply reads_query. intros w a. apply found_ok. Qed.
Lemma reads_GetSubscription id : reads (GetSubscription id) (fun s d => subscriptions d !! id = Some s).
Proof. apply reads_query. intros w a. apply found_ok. Qed.

Lemma reads_anything {A} (f : World -> result tenancy_err A) : reads (query ErrBackend f) (fun _ _ => True).
Proof. by apply reads_query. Qed.

Lemma reads_rule {A} (r : result tenancy_rule_err A) : reads (rule r) (fun a _ => r = Ok a).
Proof. intros w. apply wp_answer; [done|]. intros a Ha. destruct r; [|done]. by injection Ha as ->. Qed.

Lemma reads_get {A} (f : World -> A) : reads (get f) (fun _ _ => True).
Proof. intros w. by apply wp_get. Qed.
Lemma reads_record a r : reads (record actor a r) (fun _ _ => True).
Proof. intros w. by apply wp_update. Qed.

Lemma reads_requireDescendant subject : reads (requireDescendant actor subject) (fun _ d => reach actor d subject).
Proof.
  unfold requireDescendant. destruct (seesEverything actor) eqn:E.
  - eapply reads_bind; [apply reads_GetAccount|]. intros a. apply reads_ret. intros d _. by left.
  - eapply (reads_bind _ _ (fun b d => b = true -> below d (UserID actor) subject)).
    + apply reads_query. intros w b Hb ->. by eapply is_descendant_true.
    + intros b. destruct b; [|apply reads_fail]. apply reads_ret. intros d Hb. right. by apply Hb.
Qed.

Lemma reads_TierOf id : reads (TierOf id) (fun t d => exists a, accounts d !! id = Some a /\ Tier a = t).
Proof.
  unfold TierOf. eapply (reads_bind _ _ (fun t d => exists a, accounts d !! id = Some a /\ Tier a = t)).
  - apply reads_query. intros w t Ht%found_ok. apply fmap_Some in Ht as (a & Ha & ->). by exists a.
  - intros t. eapply reads_bind; [apply reads_rule|]. intros []. apply reads_ret. auto.
Qed.

Lemma reads_mine id : reads (mine actor id) (fun s d => subscriptions d !! id = Some s /\ reach actor d (SubscriberID s)).
Proof.
  unfold mine. eapply reads_bind; [apply reads_GetSubscription|]. intros s.
  eapply reads_bind; [apply reads_requireDescendant|]. intros []. apply reads_ret. auto.
Qed.

Lemma reads_manages id : reads (mine actor id) (fun _ d => manages actor d id).
Proof. eapply reads_weaken; [apply reads_mine|]. intros s d [Hs Hr]. by exists s. Qed.

Lemma reads_plan_for_sale id kind wrong : reads (plan_for_sale actor id kind wrong) (fun _ d => sells actor d id kind).
Proof.
  unfold plan_for_sale. eapply reads_bind; [apply reads_GetPlan|]. intros p.
  destruct (mayUsePlan actor p) eqn:Eu; cbn [negb]; [|apply reads_fail].
  destruct (String.eqb_spec (Kind p) kind); cbn [negb]; [|apply reads_fail].
  apply reads_ret. intros d Hp. by exists p.
Qed.

(** A program that only reads and whose answer is of no interest. *)
Definition idle {A} (m : M A) : Prop := reads m (fun _ _ => True).

Lemma idle_bind {A B} (m : M A) (k : A -> M B) : idle m -> (forall a, idle (k a)) -> idle (bind m k).
Proof. intros Hm Hk. eapply reads_bind; [apply Hm|]. intros a. eapply reads_weaken; [apply Hk|done]. Qed.
Lemma idle_of {A} (m : M A) P : reads m P -> idle m.
Proof. intros Hm. by eapply reads_weaken. Qed.

Lemma idle_decorate id s : idle (decorate id s).
Proof.
  unfold decorate, ListAddons, CountUsage. apply idle_bind; [by eapply idle_of, reads_GetPlan|]. intros p.
  apply idle_bind; [apply reads_anything|]. intros addons. apply idle_bind; [apply reads_anything|].
  intros u. by apply reads_ret.
Qed.

Lemma idle_ViewSubscription id : idle (ViewSubscription actor id).
Proof.
  unfold ViewSubscription, ListWebsites. apply idle_bind; [by eapply idle_of, reads_GetSubscription|]. intros s.
  apply idle_bind; [by eapply idle_of, reads_requireDescendant|]. intros [].
  apply idle_bind; [apply idle_decorate|]. intros v. apply idle_bind; [apply reads_anything|]. intros l.
  by apply reads_ret.
Qed.

Lemma idle_acts {A} Pre (m : M A) : idle m -> acts Pre m (fun _ _ => True).
Proof. intros Hm. eapply acts_weaken; [by apply acts_reads|done|done]. Qed.

(** ** The use cases *)
Lemma acts_touched Pre (m : M bool) : acts Pre m (fun _ _ => True) -> acts Pre (touched m) (fun _ _ => True).
Proof.
  intros Hm. eapply acts_bind; [apply Hm|]. intros b. destruct b; [by apply acts_ret|apply acts_fail].
Qed.

Lemma acts_then_idle {A B} Pre (m : M A) (k : A -> M B) Post :
  acts Pre m Post -> (forall a, idle (k a)) -> acts Pre (bind m k) (fun _ _ => True).
Proof. intros Hm Hk. eapply acts_bind; [apply Hm|]. intros a. by apply idle_acts. Qed.

Lemma idle_record_ret {A} a r (x : A) : idle (record actor a r ;! ret x).
Proof. apply idle_bind; [apply reads_record|]. intros []. by apply reads_ret. Qed.

(** What a note about a subscription's limits leaves as it was. *)
Definition stable (id : string) (I : Database -> Prop) : Prop :=
  forall d state detail t b d', I d -> update_subscription id (set_isolation state detail t) d = Ok (b, d') -> I d'.

Definition noted (id : string) (s : Subscription) (I : Database -> Prop) (d : Database) : Prop :=
  subscriptions d !! id = Some s /\ (manages actor d id \/ edits actor d (PlanID s)) /\ I d.

Lemma acts_SetIsolationState I id s state detail : stable id I ->
  acts (noted id s I) (attempt (SetIsolationState id state detail)) (fun _ => I).
Proof.
  intros HI w (Hs & Hr & Hi). apply wp_attempt. unfold SetIsolationState. apply wp_bind, wp_get. cbv zeta.
  apply wp_bind, wp_call. intros w0 [Hd _]. rewrite Hd.
  assert (Hsame : forall e : tenancy_err, rtc entitled (db w) (db w0) /\ I (db w0)) by
    (intros _; rewrite Hd; split; [apply rtc_refl|done]).
  split; [done|]. destruct (one_of _ _); [|done].
  destruct (update_subscription id _ (db w)) as [[b d']|] eqn:E; [|done].
  assert (Hgo : rtc entitled (db w) d' /\ I d').
  { split; [apply rtc_once; by eapply may_note_isolation|by eapply HI]. }
  split; [by apply wp_ret|by intros _].
Qed.

Lemma acts_applyIsolation I id s : stable id I -> acts (noted id s I) (applyIsolation actor id) (fun _ => I).
Proof.
  intros HI. unfold applyIsolation. eapply acts_reads_bind; [apply reads_get|]. intros agent.
  destruct agent; cbn [negb]; [|apply acts_ret; by intros d [(_ & _ & Hi) _]].
  eapply acts_reads_bind; [apply reads_attempt, reads_GetSubscription|]. intros r.
  destruct r as [s'|e]; [|apply acts_ret; by intros d [[(_ & _ & Hi) _] _]].
  eapply acts_reads_bind; [apply reads_attempt, reads_GetPlan|]. intros r.
  destruct r as [plan|e]; [|apply acts_ret; by intros d [[[(_ & _ & Hi) _] _] _]]. cbv zeta.
  eapply (acts_reads_bind _ _ _ (fun _ _ => True)).
  { intros w. unfold agent_apply, wp. by destruct (host w). }
  intros answer.
  assert (Hset : forall st dt, acts (fun d => (((noted id s I d /\ True) /\ subscriptions d !! id = Some s') /\
      plans d !! PlanID s' = Some plan) /\ True) (attempt (SetIsolationState id st dt)) (fun _ => I)).
  { intros st dt. eapply acts_weaken; [by apply (acts_SetIsolationState I id s)| |done].
    by intros d ((((Hn & _) & _) & _) & _). }
  destruct answer as [[state detail]|message]; (eapply acts_bind; [apply Hset|]); intros r.
  - eapply acts_weaken; [apply acts_reads, reads_record|done|]. by intros [] d [Hi _].
  - by apply acts_ret.
Qed.

(** When the subscription is theirs to manage. *)
Lemma acts_apply_managed id : acts (fun d => manages actor d id) (applyIsolation actor id) (fun _ _ => True).
Proof.
  intros w Hm. destruct (Hm) as (s & Hs & Hr). apply (acts_applyIsolation (fun _ => True) id s); [done|].
  split; [done|]. split; [by left|done].
Qed.

(** When the plan is theirs to edit: every subscription on it. *)
Definition all_on (plan : string) (ids : list string) (d : Database) : Prop :=
  edits actor d plan /\ forall i, i ∈ ids -> exists s, subscriptions d !! i = Some s /\ PlanID s = plan.

Lemma all_on_stable plan ids id : stable id (all_on plan ids).
Proof.
  intros d state detail t b d' [He Hi]. unfold update_subscription.
  destruct (subscriptions d !! id) as [x|] eqn:E; intros [= <- <-]; [|done]. split; [done|]. cbn.
  intros i Hin. destruct (Hi i Hin) as (s & Hs & Hp). destruct (decide (id = i)) as [<-|Hne].
  - rewrite lookup_insert_eq. simplify_eq. eexists. split; [done|]. done.
  - rewrite lookup_insert_ne by done. eauto.
Qed.

Lemma acts_apply_all plan ids : acts (all_on plan ids) (apply_all actor ids) (fun _ _ => True).
Proof.
  induction ids as [|id ids IH]; [by apply acts_ret|]. cbn [apply_all].
  assert (Hone : acts (all_on plan (id :: ids)) (applyIsolation actor id) (fun _ => all_on plan (id :: ids))).
  { intros w Hw. destruct (Hw) as [He Hi]. destruct (Hi id) as (s & Hs & Hp); [by left|].
    apply (acts_applyIsolation _ id s); [apply all_on_stable|]. split; [done|]. split; [right; by rewrite Hp|done]. }
  eapply acts_bind; [apply Hone|]. intros []. eapply acts_weaken; [apply IH| |done].
  intros d [He Hi]. split; [done|]. intros i Hin. apply Hi. by right.
Qed.

Lemma acts_reapply plan : acts (fun d => edits actor d plan) (reapplyIsolationForPlan actor plan) (fun _ _ => True).
Proof.
  unfold reapplyIsolationForPlan. eapply acts_reads_bind; [apply reads_get|]. intros agent.
  destruct agent; cbn [negb]; [|by apply acts_ret].
  eapply (acts_reads_bind _ _ _ (fun r d => match r with Ok ids => ids = on_plan plan d | Err _ => True end)).
  { apply (reads_attempt _ (fun ids d => ids = on_plan plan d)). apply reads_query. by intros w a [= <-]. }
  intros r. destruct r as [ids|e]; [|by apply acts_ret].
  eapply acts_weaken; [apply (acts_apply_all plan)| |done]. intros d [[He _] ->]. split; [done|].
  intros i Hin. unfold on_plan in Hin. apply list_elem_of_fmap in Hin as ([k s] & -> & Hin).
  apply list_elem_of_In, filter_In in Hin as [Hin Hp]. apply String.eqb_eq in Hp. cbn in *.
  exists s. split; [|done]. by apply elem_of_map_to_list, list_elem_of_In.
Qed.

(** ** The use cases, one by one *)
Lemma insert_account_reach id p d d' :
  insert_account id p d = Ok (tt, d') -> reach actor d (np_ParentID p) -> reach actor d' id.
Proof.
  unfold insert_account. cbv zeta. intros Hi [Hr|Hr]; [by left|right].
  destruct (has _ _); [done|]. destruct (has _ _); [done|].
  destruct (accounts d !! id) eqn:Eid; [done|]. destruct (accounts d !! np_ParentID p); [|done].
  destruct (_ || _); [done|]. injection Hi as <-. eapply rtc_r.
  - eapply rtc_subrel; [|exact Hr]. intros x y (z & Hz & Hp). exists z. split; [|done]. cbn.
    rewrite lookup_insert_ne by congruence. done.
  - exists {| Username := np_Username p; Email := nullable (np_Email p); PasswordHash := np_PasswordHash p;
              Tier := np_Tier p; ParentID := Some (np_ParentID p);
              FullName := nullable (np_FullName p); Company := nullable (np_Company p);
              AccountStatus := "active" |}. cbn. by rewrite lookup_insert_eq.
Qed.

Lemma acts_CreateAccount `{Hashing} req : acts (fun _ => True) (CreateAccount actor req) (fun _ _ => True).
Proof.
  unfold CreateAccount. eapply acts_reads_bind; [apply reads_rule|]. intros ?. cbv zeta.
  destruct (negb (ValidateUsername _)); [apply acts_fail|].
  destruct (negb (ValidateEmail _)); [apply acts_fail|].
  eapply acts_reads_bind; [apply reads_rule|]. intros ?. eapply acts_reads_bind; [apply reads_rule|]. intros ?.
  set (parent := if (rq_ParentID req =? "")%string then UserID actor else rq_ParentID req).
  eapply (acts_reads_bind _ _ _ (fun _ d => reach actor d parent)).
  { destruct (String.eqb_spec parent (UserID actor)) as [->|Hne]; [|apply reads_requireDescendant].
    apply reads_ret. intros d. right. apply rtc_refl. }
  intros []. eapply acts_reads_bind; [apply reads_TierOf|]. intros tier.
  destruct (TierMayOwn tier (rq_Tier req)) eqn:Et; cbn [negb]; [|apply acts_fail].
  destruct (HashPassword _) as [hash|]; [|apply acts_fail].
  set (p := {| np_Username := _ |}).
  eapply (acts_bind _ _ (fun x d => reach actor d (fst x))).
  - unfold CreateAccountRow. eapply (acts_bind _ _ (fun id d => reach actor d id)).
    + apply acts_insert. intros id t d d' [[_ Hreach] (b & Hb & Hbt)] Hi. split.
      * eapply (may_create_account d id p b); [done| |done|done]. by rewrite Hbt.
      * by eapply insert_account_reach.
    + intros id. eapply (acts_reads_bind _ _ _ (fun _ _ => True)); [by eapply idle_of, reads_GetAccount|].
      intros acc. apply acts_ret. by intros d [Hr _].
  - intros x. eapply (acts_bind _ _ (fun _ _ => True)); [|intros []; apply idle_acts, idle_record_ret].
    destruct (rq_Tier req =? TierReseller)%string; [|by apply acts_ret].
    apply (acts_exec _ _ (fun _ _ => True)). intros d [] d' Hr Ha. split; [|done]. right.
    by eapply may_assign_role.
Qed.

Lemma acts_UpdateAccount id p : acts (fun _ => True) (UpdateAccount actor id p) (fun _ _ => True).
Proof.
  unfold UpdateAccount. eapply acts_reads_bind; [apply reads_requireDescendant|]. intros []. cbv zeta.
  destruct (_ && _); [apply acts_fail|]. destruct (match up_Status p with Some _ => _ | None => _ end); [apply acts_fail|].
  eapply (acts_reads_bind _ _ _ (fun _ _ => True)).
  { destruct (up_FullName p); [by eapply reads_weaken; [apply reads_rule|]|by apply reads_ret]. }
  intros []. eapply (acts_reads_bind _ _ _ (fun _ _ => True)).
  { destruct (up_Company p); [by eapply reads_weaken; [apply reads_rule|]|by apply reads_ret]. }
  intros []. eapply acts_then_idle; [|intros a; apply idle_record_ret].
  unfold UpdateAccountRow. eapply acts_then_idle; [|intros []; by eapply idle_of, reads_GetAccount].
  apply (acts_exec _ _ (fun _ _ => True)). intros d [] d' Hp Hu. split; [|done]. right.
  eapply may_update_account; [|done]. tauto.
Qed.

Lemma acts_DeleteAccount id : acts (fun _ => True) (DeleteAccount actor id) (fun _ _ => True).
Proof.
  unfold DeleteAccount. destruct (String.eqb_spec id (UserID actor)) as [|Hne]; [apply acts_fail|].
  eapply acts_reads_bind; [apply reads_requireDescendant|]. intros [].
  eapply acts_reads_bind; [apply reads_GetAccount|]. intros a.
  eapply acts_then_idle; [|intros []; apply reads_record].
  unfold DeleteAccountRow. eapply acts_reads_bind; [apply reads_anything|]. intros n.
  destruct (0 <? fst n)%nat; [apply acts_fail|]. destruct (0 <? snd n)%nat; [apply acts_fail|].
  apply (acts_exec _ _ (fun _ _ => True)). intros d [] d' Hp Hu. split; [|done]. right.
  eapply may_delete_account; [|done|done]. tauto.
Qed.

Lemma Limit_unknown l dimension : dimension ∉ counted ++ measured -> Limit l dimension = None.
Proof.
  unfold Limit, counted, measured. intros Hni.
  repeat match goal with |- context [String.eqb dimension ?x] =>
    destruct (String.eqb_spec dimension x); [subst; exfalso; apply Hni; cbn [app]; set_solver|] end.
  done.
Qed.

Lemma validatePlan_limits req req' : validatePlan req = Ok req' -> limits_ok (pr_Limits req').
Proof.
  unfold validatePlan. cbv zeta. intros Hv. apply rbind_ok in Hv as ([] & _ & Hv).
  apply rbind_ok in Hv as ([] & _ & Hv). apply rbind_ok in Hv as ([] & _ & Hv).
  apply rbind_ok in Hv as ([] & Ef & Hv). apply rbind_ok in Hv as ([] & _ & Hv).
  injection Hv as <-. cbn [pr_Limits]. destruct (forallb _ _) eqn:Ea in Ef; [clear Ef|done].
  intros dimension v E. rewrite forallb_elem in Ea.
  destruct (decide (dimension ∈ counted ++ measured)) as [Hin|Hni].
  - by apply (QuotaLimit_ok dimension (Limit (pr_Limits req) dimension)); [apply Ea|].
  - exfalso. by rewrite (Limit_unknown _ _ Hni) in E.
Qed.

Lemma acts_CreatePlan req : acts (fun _ => True) (CreatePlan actor req) (fun _ _ => True).
Proof.
  unfold CreatePlan. eapply acts_reads_bind; [apply reads_rule|]. intros req'. cbv zeta.
  eapply acts_then_idle; [|intros p; apply idle_record_ret]. unfold CreatePlanRow.
  eapply (acts_then_idle _ _ _ (fun _ _ => True)).
  - apply acts_insert. intros id t d d' [_ Hv] Hi. split; [|done].
    eapply may_create_plan; [| |done]; [done|]. by eapply validatePlan_limits.
  - intros id. apply idle_bind; [by eapply idle_of, reads_GetPlan|]. intros p. by apply reads_ret.
Qed.

Lemma update_plan_edits id p d d' : update_plan id p d = Ok (tt, d') -> edits actor d id -> edits actor d' id.
Proof.
  unfold update_plan. intros Hu (q & Hq & He). rewrite Hq in Hu. cbv zeta in Hu.
  destruct (plan_name_taken _ _ _ _); [done|]. injection Hu as <-. unfold edits. cbn.
  rewrite lookup_insert_eq. by eexists.
Qed.

Lemma acts_UpdatePlan id req : acts (fun _ => True) (UpdatePlan actor id req) (fun _ _ => True).
Proof.
  unfold UpdatePlan. eapply acts_reads_bind; [apply reads_GetPlan|]. intros old.
  destruct (mayEditPlan actor old) eqn:Ee; cbn [negb]; [|apply acts_fail]. cbv zeta.
  eapply acts_reads_bind; [apply reads_rule|]. intros req'.
  eapply (acts_bind _ _ (fun _ d => edits actor d id)).
  - unfold UpdatePlanRow. eapply (acts_bind _ _ (fun _ d => edits actor d id)).
    + apply acts_exec. intros d [] d' [[_ Hold] Hv] Hu. assert (edits actor d id) by by exists old.
      split; [|by eapply update_plan_edits]. right. eapply may_update_plan; [done| |done].
      by eapply validatePlan_limits.
    + intros []. eapply (acts_weaken (fun d => edits actor d id)); [apply acts_reads, reads_GetPlan|done|]. by intros p d [He _].
  - intros plan. eapply acts_reads_bind; [apply reads_record|]. intros [].
    eapply acts_then_idle; [|intros []; by apply reads_ret].
    eapply (acts_weaken (fun d => edits actor d id)); [apply acts_reapply| |done]. by intros d [He _].
Qed.

Lemma acts_DeletePlan id : acts (fun _ => True) (DeletePlan actor id) (fun _ _ => True).
Proof.
  unfold DeletePlan. eapply acts_reads_bind; [apply reads_GetPlan|]. intros old.
  destruct (mayEditPlan actor old) eqn:Ee; cbn [negb]; [|apply acts_fail].
  eapply acts_then_idle; [|intros []; apply reads_record].
  unfold DeletePlanRow. eapply acts_reads_bind; [apply reads_anything|]. intros n.
  destruct n; [apply acts_fail|]. apply (acts_exec _ _ (fun _ _ => True)). intros d [] d' [[_ Hp] _] Hu.
  split; [|done]. right. eapply may_delete_plan; [|done]. by exists old.
Qed.

(** Subscriptions. *)
Lemma acts_query {A} (Pre : Database -> Prop) (f : World -> result tenancy_err A) :
  acts Pre (query ErrBackend f) (fun _ => Pre).
Proof.
  eapply (acts_weaken Pre); [apply acts_reads, (reads_query f (fun _ _ => True)); done|done|].
  by intros a d [Hp _].
Qed.

Lemma acts_kept {A B} (Pre : Database -> Prop) (m : M A) P (k : A -> M B) Post :
  reads m P -> (forall a, acts Pre (k a) Post) -> acts Pre (bind m k) Post.
Proof.
  intros Hm Hk. eapply acts_reads_bind; [apply Hm|]. intros a.
  eapply (acts_weaken Pre); [apply Hk| |done]. by intros d [Hp _].
Qed.

(** An update of a subscription they manage, which stays theirs. *)
Lemma acts_exec_update id f (Pre : Database -> Prop) :
  (forall d, Pre d -> manages actor d id /\ forall s, SubscriberID (f s) = SubscriberID s /\
     (PlanID (f s) = PlanID s \/ sells actor d (PlanID (f s)) PlanKindPlan)) ->
  acts Pre (exec (update_subscription id f)) (fun _ d => manages actor d id).
Proof.
  intros Hp. apply acts_exec. intros d b d' Hd Hu. destruct (Hp d Hd) as [Hm Hf].
  split; [right; by eapply may_update_subscription|].
  destruct Hm as (s & Hs & Hr). unfold update_subscription in Hu. rewrite Hs in Hu. injection Hu as _ <-.
  exists (f s). cbn. rewrite lookup_insert_eq. split; [done|]. by rewrite (proj1 (Hf s)).
Qed.

Lemma acts_keeping_update id f : (forall s, SubscriberID (f s) = SubscriberID s /\ PlanID (f s) = PlanID s) ->
  acts (fun d => manages actor d id) (exec (update_subscription id f)) (fun _ d => manages actor d id).
Proof. intros Hf. apply acts_exec_update. intros d Hm. split; [done|]. intros s. destruct (Hf s). auto. Qed.

Lemma acts_touched_managed id Pre (m : M bool) :
  acts Pre m (fun _ d => manages actor d id) -> acts Pre (touched m) (fun _ d => manages actor d id).
Proof.
  intros Hm. eapply acts_bind; [apply Hm|]. intros b. destruct b; [by apply acts_ret|apply acts_fail].
Qed.

(** What every change ends with: the trail, the host, and the subscription as it now is. *)
Lemma acts_applied_and_viewed action id :
  acts (fun d => manages actor d id)
    (record actor action id ;! applyIsolation actor id ;! ViewSubscription actor id) (fun _ _ => True).
Proof.
  eapply acts_kept; [apply reads_record|]. intros []. eapply acts_then_idle; [apply acts_apply_managed|].
  intros []. apply idle_ViewSubscription.
Qed.

Lemma idle_viewed action id : idle (record actor action id ;! ViewSubscription actor id).
Proof. apply idle_bind; [apply reads_record|]. intros []. apply idle_ViewSubscription. Qed.

Lemma acts_CreateSubscription owner plan name :
  acts (fun _ => True) (CreateSubscription actor owner plan name) (fun _ _ => True).
Proof.
  unfold CreateSubscription. eapply acts_kept; [apply reads_rule|]. intros [].
  eapply acts_reads_bind; [apply reads_requireDescendant|]. intros [].
  eapply acts_reads_bind; [apply reads_plan_for_sale|]. intros p.
  eapply (acts_bind _ _ (fun x d => manages actor d (fst x))).
  2:{ intros s. apply acts_applied_and_viewed. }
  unfold CreateSubscriptionRow. eapply (acts_bind _ _ (fun id d => manages actor d id)).
  - apply acts_insert. intros id t d d' [[_ Hr] Hs] Hi. split; [by eapply may_subscribe|].
    unfold insert_subscription in Hi. cbv zeta in Hi. destruct (subscription_name_taken _ _ _ _); [done|].
    destruct (subscriptions d !! id); [done|]. destruct (accounts d !! owner); [|done].
    destruct (plans d !! plan); [|done]. injection Hi as <-. unfold manages. cbn. rewrite lookup_insert_eq.
    by eexists.
  - intros id. eapply acts_bind; [by apply acts_keeping_update|]. intros b.
    eapply acts_kept; [apply reads_GetSubscription|]. intros s. by apply acts_ret.
Qed.

Lemma acts_RenameSubscription id name :
  acts (fun d => manages actor d id) (RenameSubscription id name) (fun _ d => manages actor d id).
Proof.
  unfold RenameSubscription. cbv zeta. apply acts_touched_managed, acts_exec. intros d b d' Hm Hu.
  destruct (subscriptions d !! id) as [s|] eqn:Es; [|injection Hu as <- <-; auto].
  destruct (subscription_name_taken _ _ _ _); [done|]. split.
  - right. eapply may_update_subscription; [done| |done]. intros s0. auto.
  - destruct Hm as (s0 & Hs0 & Hr). unfold update_subscription in Hu. rewrite Es in Hu. injection Hu as _ <-.
    eexists. cbn. rewrite lookup_insert_eq. split; [done|]. cbn. by simplify_eq.
Qed.

Lemma acts_SetSubscriptionPlan id plan :
  acts (fun d => manages actor d id /\ sells actor d plan PlanKindPlan) (SetSubscriptionPlan id plan)
    (fun _ d => manages actor d id).
Proof.
  unfold SetSubscriptionPlan. apply acts_touched_managed, acts_exec. intros d b d' [Hm Hs] Hu.
  destruct (plans d !! plan); [|done]. split.
  - right. eapply may_update_subscription; [done| |done]. intros s0. auto.
  - destruct Hm as (s & Es & Hr). unfold update_subscription in Hu. rewrite Es in Hu. injection Hu as _ <-.
    eexists. cbn. rewrite lookup_insert_eq. by split.
Qed.

Lemma acts_UpdateSubscription id name plan :
  acts (fun _ => True) (UpdateSubscription actor id name plan) (fun _ _ => True).
Proof.
  unfold UpdateSubscription. eapply acts_reads_bind; [apply reads_manages|]. intros s.
  eapply (acts_bind _ _ (fun _ d => manages actor d id)).
  { destruct name as [n|]; [|apply acts_ret; tauto]. eapply acts_kept; [apply reads_rule|]. intros [].
    eapply acts_weaken; [apply acts_RenameSubscription| |done]. tauto. }
  intros []. eapply (acts_bind _ _ (fun _ d => manages actor d id)).
  { destruct plan as [p|]; [|by apply acts_ret]. eapply acts_reads_bind; [apply reads_plan_for_sale|].
    intros q. apply acts_SetSubscriptionPlan. }
  intros []. apply acts_applied_and_viewed.
Qed.

Lemma acts_SetSubscriptionStatus id status reason :
  acts (fun _ => True) (SetSubscriptionStatus actor id status reason) (fun _ _ => True).
Proof.
  unfold SetSubscriptionStatus. destruct (one_of _ _); cbn [negb]; [|apply acts_fail].
  eapply acts_kept; [apply reads_rule|]. intros []. eapply acts_reads_bind; [apply reads_manages|]. intros s.
  eapply acts_then_idle; [|intros []; apply idle_viewed]. unfold SetStatusRow.
  eapply acts_kept; [apply reads_get|]. intros t. cbv zeta.
  apply (acts_touched_managed id).
  eapply (acts_weaken (fun d => manages actor d id)); [by apply acts_keeping_update|tauto|done].
Qed.

Lemma acts_DeleteSubscription id : acts (fun _ => True) (DeleteSubscription actor id) (fun _ _ => True).
Proof.
  unfold DeleteSubscription. eapply acts_reads_bind; [apply reads_manages|]. intros s.
  eapply acts_then_idle.
  2:{ intros []. apply idle_bind; [intros w; apply wp_update; by destruct (_ && _)|].
      intros []. apply reads_record. }
  unfold DeleteSubscriptionRow. eapply acts_kept; [apply reads_anything|]. intros n.
  destruct (0 <? n)%nat; [apply acts_fail|]. apply (acts_exec _ _ (fun _ _ => True)). intros d [] d' [_ Hm] Hu.
  split; [|done]. right. by eapply may_delete_subscription.
Qed.

(** Add-ons and websites. *)
Lemma acts_AddAddon id plan q : acts (fun _ => True) (AddAddon actor id plan q) (fun _ _ => True).
Proof.
  unfold AddAddon. eapply acts_kept; [apply reads_rule|]. intros [].
  eapply acts_reads_bind; [apply reads_manages|]. intros s.
  eapply acts_reads_bind; [apply reads_plan_for_sale|]. intros p.
  eapply acts_then_idle; [|intros []; apply idle_viewed]. apply (acts_exec _ _ (fun _ _ => True)).
  intros d [] d' [[_ Hm] Hs] Hu. split; [|done]. right. by eapply may_add_addon.
Qed.

Lemma acts_RemoveAddon id plan : acts (fun _ => True) (RemoveAddon actor id plan) (fun _ _ => True).
Proof.
  unfold RemoveAddon. eapply acts_reads_bind; [apply reads_manages|]. intros s.
  eapply acts_then_idle; [|intros []; apply idle_viewed]. apply (acts_exec _ _ (fun _ _ => True)).
  intros d [] d' [_ Hm] Hu. split; [|done]. right. by eapply may_remove_addon.
Qed.

Lemma acts_AssignWebsite id website : acts (fun _ => True) (AssignWebsite actor id website) (fun _ _ => True).
Proof.
  unfold AssignWebsite. eapply acts_reads_bind; [apply reads_manages|]. intros s.
  eapply acts_then_idle; [|intros []; apply idle_viewed]. apply (acts_exec _ _ (fun _ _ => True)).
  intros d [] d' [_ Hm] Hu. split; [|done]. right. by eapply may_take_website.
Qed.

Lemma reads_SubscriptionForWebsite id :
  reads (SubscriptionForWebsite id) (fun o d => exists x, websites d !! id = Some x /\ SubscriptionID x = Some o).
Proof.
  unfold SubscriptionForWebsite. destruct (_ =? _)%string; [apply reads_fail|]. apply reads_query.
  intros w o Ho%found_ok. destruct (websites (db w) !! id) as [x|]; [|done]. by exists x.
Qed.

Lemma acts_ReleaseWebsite id website : acts (fun _ => True) (ReleaseWebsite actor id website) (fun _ _ => True).
Proof.
  unfold ReleaseWebsite. eapply acts_reads_bind; [apply reads_manages|]. intros s.
  eapply acts_reads_bind; [apply reads_attempt, reads_SubscriptionForWebsite|]. intros [o|e]; [|apply acts_fail].
  destruct (String.eqb_spec o id) as [->|]; cbn [negb]; [|apply acts_fail].
  eapply acts_then_idle; [|intros []; apply idle_viewed]. apply (acts_exec _ _ (fun _ _ => True)).
  intros d [] d' [[_ Hm] (x & Hx & Hs)] Hu. split; [|done]. right. by eapply may_release_website.
Qed.

Lemma acts_ApplyIsolation id : acts (fun _ => True) (ApplyIsolation actor id) (fun _ _ => True).
Proof.
  unfold ApplyIsolation. eapply acts_reads_bind; [apply reads_manages|]. intros s.
  eapply acts_then_idle; [|intros []; apply idle_ViewSubscription].
  eapply acts_weaken; [apply acts_apply_managed| |done]. tauto.
Qed.
End actor.
