(* ===== verification/TenancyServer.v ===== *)
(** * The tenancy endpoints, and what holds across them ([api/internal/tenancy/handlers.go])

    Every request that changes something, from the caller's token to the use case, and what no
    sequence of them can do, whichever calls fail. *)

From stdpp Require Import gmap.
From S2P Require Import Prelude Store GoStr TenancyRules Quota Tenants Tenancy TenancyRights.

#[local] Open Scope Z_scope.
#[local] Open Scope store_scope.
Local Abbreviation M := (Store.M World tenancy_err).

(** What the caller's token says. *)
Record Claims := { c_UserID : string; c_Permissions : list string; c_ImpersonatorUserID : string }.

Definition PermTenantManage : string := "tenant.manage".

(** The decoded request; path values are strings of the caller's choosing. *)
Inductive Request :=
| RqCreateAccount (req : CreateAccountRequest)
| RqUpdateAccount (id : string) (p : UpdateAccountParams)
| RqDeleteAccount (id : string)
| RqCreatePlan (req : PlanRequest)
| RqUpdatePlan (id : string) (req : PlanRequest)
| RqDeletePlan (id : string)
| RqCreateSubscription (owner plan name : string)
| RqUpdateSubscription (id : string) (name plan : option string)
| RqDeleteSubscription (id : string)
| RqSetStatus (id status reason : string)
| RqAddAddon (id plan : string) (quantity : Z)
| RqRemoveAddon (id plan : string)
| RqAssignWebsite (id website : string)
| RqReleaseWebsite (id website : string)
| RqApplyIsolation (id : string).

Definition ignore {A} (m : M A) : M unit := let! _ := m in ret tt.

Section server.
Context `{Hashing}.

(** The route's permission, then who is asking, then the use case. *)
Definition endpoint (claims : Claims) (use : Actor -> M unit) : M unit :=
  if negb (Has (c_Permissions claims) PermTenantManage) then fail ErrForbidden
  else
    let! actor := ActorFor (c_UserID claims) (c_Permissions claims) (c_ImpersonatorUserID claims) in
    use actor.

Definition createAccount claims req : M unit := endpoint claims (fun actor => ignore (CreateAccount actor req)).
Definition updateAccount claims id p : M unit := endpoint claims (fun actor => ignore (UpdateAccount actor id p)).
Definition deleteAccount claims id : M unit := endpoint claims (fun actor => DeleteAccount actor id).
Definition createPlan claims req : M unit := endpoint claims (fun actor => ignore (CreatePlan actor req)).
Definition updatePlan claims id req : M unit := endpoint claims (fun actor => ignore (UpdatePlan actor id req)).
Definition deletePlan claims id : M unit := endpoint claims (fun actor => DeletePlan actor id).
Definition createSubscription claims owner plan name : M unit :=
  endpoint claims (fun actor => ignore (CreateSubscription actor owner plan name)).
Definition updateSubscription claims id name plan : M unit :=
  endpoint claims (fun actor => ignore (UpdateSubscription actor id name plan)).
Definition deleteSubscription claims id : M unit := endpoint claims (fun actor => DeleteSubscription actor id).
Definition setStatus claims id status reason : M unit :=
  endpoint claims (fun actor => ignore (SetSubscriptionStatus actor id status reason)).
(** An omitted quantity is one. *)
Definition addAddon claims id plan (quantity : Z) : M unit :=
  endpoint claims (fun actor => ignore (AddAddon actor id plan (if quantity =? 0 then 1 else quantity))).
Definition removeAddon claims id plan : M unit := endpoint claims (fun actor => ignore (RemoveAddon actor id plan)).
Definition assignWebsite claims id website : M unit :=
  endpoint claims (fun actor => ignore (AssignWebsite actor id website)).
Definition releaseWebsite claims id website : M unit :=
  endpoint claims (fun actor => ignore (ReleaseWebsite actor id website)).
Definition applyIsolationNow claims id : M unit := endpoint claims (fun actor => ignore (ApplyIsolation actor id)).

(** The routes. *)
Definition handle (claims : Claims) (req : Request) : M unit :=
  match req with
  | RqCreateAccount r => createAccount claims r
  | RqUpdateAccount id p => updateAccount claims id p
  | RqDeleteAccount id => deleteAccount claims id
  | RqCreatePlan r => createPlan claims r
  | RqUpdatePlan id r => updatePlan claims id r
  | RqDeletePlan id => deletePlan claims id
  | RqCreateSubscription owner plan name => createSubscription claims owner plan name
  | RqUpdateSubscription id name plan => updateSubscription claims id name plan
  | RqDeleteSubscription id => deleteSubscription claims id
  | RqSetStatus id status reason => setStatus claims id status reason
  | RqAddAddon id plan q => addAddon claims id plan q
  | RqRemoveAddon id plan => removeAddon claims id plan
  | RqAssignWebsite id website => assignWebsite claims id website
  | RqReleaseWebsite id website => releaseWebsite claims id website
  | RqApplyIsolation id => applyIsolationNow claims id
  end.

(** Requests one after another, each to its end. *)
Fixpoint handle_all (l : list (Claims * Request)) (w : World) : World :=
  match l with
  | [] => w
  | (claims, req) :: l => handle_all l (snd (handle claims req w))
  end.

(** [translate], as a status. *)
Definition translate (e : tenancy_err) : Z :=
  match e with
  | ErrNotFound => 404
  | ErrForbidden | ErrCannotImpersonate | ErrAlreadyImpersonating => 403
  | ErrNameTaken | ErrPlanInUse | ErrSubscriptionInUse | ErrHasChildren => 409
  | ErrNotAnAddon | ErrNotAPlan | ErrRule _ => 422
  | _ => 500
  end.

(** ** Every request is steps its actor is entitled to *)
Definition actor_for (claims : Claims) (a : Account) : Actor := {|
  UserID := c_UserID claims; ActorTier := Tier a; Permissions := c_Permissions claims;
  ImpersonatorUserID := c_ImpersonatorUserID claims |}.

Lemma acts_ignore {A} actor Pre (m : M A) : acts actor Pre m (fun _ _ => True) -> acts actor Pre (ignore m) (fun _ _ => True).
Proof. intros Hm. eapply acts_bind; [apply Hm|]. intros a. by apply acts_ret. Qed.

Lemma reads_ActorFor id permissions impersonator :
  reads (ActorFor id permissions impersonator) (fun actor d => exists a, accounts d !! id = Some a /\
    actor = {| UserID := id; ActorTier := Tier a; Permissions := permissions;
               ImpersonatorUserID := impersonator |}).
Proof.
  unfold ActorFor. eapply reads_bind; [apply reads_attempt, reads_TierOf|]. intros [tier|e].
  - apply reads_ret. intros d (a & Ha & <-). by exists a.
  - destruct e; apply reads_fail.
Qed.

(** Steps of the account as it is when the request comes in. *)
Definition steps (claims : Claims) (d d' : Database) : Prop :=
  d' = d \/ exists a, accounts d !! c_UserID claims = Some a /\ rtc (entitled (actor_for claims a)) d d'.

Lemma endpoint_steps claims (use : Actor -> M unit) w :
  (forall actor, acts actor (fun _ => True) (use actor) (fun _ _ => True)) ->
  steps claims (db w) (db (snd (endpoint claims use w))).
Proof.
  intros Huse. unfold endpoint. destruct (Has _ _); cbn [negb]; [|by left]. unfold bind.
  pose proof (reads_ActorFor (c_UserID claims) (c_Permissions claims) (c_ImpersonatorUserID claims) w) as Hr.
  unfold wp in Hr. destruct (ActorFor _ _ _ w) as [[actor|e] w1].
  - destruct Hr as (Hd & a & Ha & ->). right. exists a. split; [done|]. rewrite <- Hd.
    pose proof (Huse (actor_for claims a) w1 I) as Hs. unfold wp in Hs.
    change {| UserID := c_UserID claims; ActorTier := Tier a; Permissions := c_Permissions claims;
              ImpersonatorUserID := c_ImpersonatorUserID claims |} with (actor_for claims a).
    destruct (use _ w1) as [[x|e] w2]; cbn; [by destruct Hs|done].
  - left. exact Hr.
Qed.

Lemma handle_steps claims req w : steps claims (db w) (db (snd (handle claims req w))).
Proof.
  destruct req; apply endpoint_steps; intros actor; try apply acts_ignore;
    [ apply acts_CreateAccount | apply acts_UpdateAccount | apply acts_DeleteAccount | apply acts_CreatePlan
    | apply acts_UpdatePlan | apply acts_DeletePlan | apply acts_CreateSubscription
    | apply acts_UpdateSubscription | apply acts_DeleteSubscription | apply acts_SetSubscriptionStatus
    | apply acts_AddAddon | apply acts_RemoveAddon | apply acts_AssignWebsite | apply acts_ReleaseWebsite
    | apply acts_ApplyIsolation ].
Qed.

(** ** The tables stay together *)
Lemma entitled_consistent actor d d' : entitled actor d d' -> consistent d -> consistent d'.
Proof.
  intros He Hc. destruct He.
  - by eapply insert_account_consistent.
  - by eapply update_account_consistent.
  - by eapply delete_account_consistent.
  - by eapply assign_role_consistent.
  - by eapply insert_plan_consistent.
  - by eapply update_plan_consistent.
  - by eapply delete_plan_consistent.
  - match goal with Hs : sells _ _ _ _ |- _ => destruct Hs as (p & Hp & _ & Hk) end.
    eapply insert_subscription_consistent; [done| |done]. by exists p.
  - match goal with Hf : forall s, _ /\ (_ \/ sells _ _ _ _) |- _ => rename Hf into Hkeep end.
    eapply update_subscription_consistent; [done|done|]. intros s Es. destruct (Hkeep s) as [Ho Hp].
    split; [done|]. destruct Hp as [->|(p & Hp & _ & Hk)]; [by eapply (co_subscriptions d Hc)|by exists p].
  - eapply update_subscription_consistent; [done|done|]. intros s0 Es. cbn. split; [done|].
    by eapply (co_subscriptions d Hc).
  - by eapply delete_subscription_consistent.
  - match goal with Hs : sells _ _ _ _ |- _ => destruct Hs as (p & Hp & _ & Hk) end.
    eapply put_addon_consistent; [done| |done]. by exists p.
  - by eapply delete_addon_consistent.
  - by eapply put_website_consistent.
  - by eapply put_website_consistent.
Qed.

Lemma rtc_consistent actor d d' : rtc (entitled actor) d d' -> consistent d -> consistent d'.
Proof. induction 1; eauto using entitled_consistent. Qed.

Lemma handle_consistent claims req w : consistent (db w) -> consistent (db (snd (handle claims req w))).
Proof.
  intros Hc. destruct (handle_steps claims req w) as [->|(a & _ & Hr)]; [done|by eapply rtc_consistent].
Qed.

Lemma handle_all_consistent l : forall w, consistent (db w) -> consistent (db (handle_all l w)).
Proof.
  induction l as [|[claims req] l IH]; intros w Hc; [done|]. by apply IH, handle_consistent.
Qed.
End server.
