(* ===== verification/TenancyScope.v ===== *)
(** * Whose tables a reseller can reach ([api/internal/tenancy/service.go])

    What the steps of an actor who is not an administrator leave alone: accounts that are not at
    or below their own, the subscriptions and add-ons of those accounts, and the plans of anyone
    else. *)

From stdpp Require Import gmap.
From S2P Require Import Prelude Store GoStr TenancyRules Quota Tenants Tenancy TenancyRights TenancyServer.

#[local] Open Scope Z_scope.

(** An account that exists and is not [me] or below. *)
Definition foreign (me : string) (d : Database) (x : string) : Prop :=
  is_Some (accounts d !! x) /\ ~ below d me x.

(** A plan of the panel's, or of a foreign account. *)
Definition foreign_plan (me : string) (d : Database) (q : Plan) : Prop :=
  forall u, OwnerUserID q = Some u -> foreign me d u.

(** All of a row but the note about its limits on the host. *)
Definition noted_alike (r r' : Subscription) : Prop :=
  exists state detail t, r' = set_isolation state detail t r.

Record spared (me : string) (d d' : Database) : Prop := {
  sp_accounts : forall x, foreign me d x ->
    foreign me d' x /\ accounts d' !! x = accounts d !! x /\ roles d' !! x = roles d !! x;
  sp_subscriptions : forall s r, subscriptions d !! s = Some r -> foreign me d (SubscriberID r) ->
    exists r', subscriptions d' !! s = Some r' /\ noted_alike r r' /\
      (forall q, plans d !! PlanID r = Some q -> foreign_plan me d q -> r' = r) /\
      forall p, addons d' !! (s, p) = addons d !! (s, p);
  sp_plans : forall p q, plans d !! p = Some q -> foreign_plan me d q -> plans d' !! p = Some q;
}.

Lemma noted_alike_refl r : noted_alike r r.
Proof. exists (IsolationState r), (IsolationDetail r), (IsolationAppliedAt r). by destruct r. Qed.

Lemma noted_alike_trans r1 r2 r3 : noted_alike r1 r2 -> noted_alike r2 r3 -> noted_alike r1 r3.
Proof. intros (s1 & d1 & t1 & ->) (s2 & d2 & t2 & ->). by exists s2, d2, t2. Qed.

Lemma foreign_plan_kept me d d' q : spared me d d' -> foreign_plan me d q -> foreign_plan me d' q.
Proof. intros Hs Hq u Hu. by apply (sp_accounts _ _ _ Hs), Hq. Qed.

#[global] Instance spared_preorder me : PreOrder (spared me).
Proof.
  split.
  - intros d. split; [done| |done]. intros s r Hs _. exists r. split; [done|]. split; [apply noted_alike_refl|done].
  - intros d1 d2 d3 H12 H23. split.
    + intros x Hx. destruct (sp_accounts _ _ _ H12 x Hx) as (Hx2 & Ha1 & Hr1).
      destruct (sp_accounts _ _ _ H23 x Hx2) as (Hx3 & Ha & Hr). by rewrite Ha, Hr.
    + intros s r Hs Hf. destruct (sp_subscriptions _ _ _ H12 s r Hs Hf) as (r2 & Hs2 & Hn2 & Hp2 & Ha2).
      assert (Ho : SubscriberID r2 = SubscriberID r /\ PlanID r2 = PlanID r)
        by (destruct Hn2 as (? & ? & ? & ->); done). destruct Ho as [Ho Hpl].
      destruct (sp_subscriptions _ _ _ H23 s r2 Hs2) as (r3 & Hs3 & Hn3 & Hp3 & Ha3).
      { rewrite Ho. by apply (sp_accounts _ _ _ H12). }
      exists r3. split; [done|]. split; [by eapply noted_alike_trans|]. split.
      * intros q Hq Hfq. rewrite <- (Hp2 q Hq Hfq). apply (Hp3 q); [|by eapply foreign_plan_kept].
        rewrite Hpl. by apply (sp_plans _ _ _ H12).
      * intros p. by rewrite Ha3.
    + intros p q Hq Hf. apply (sp_plans _ _ _ H23); [by apply (sp_plans _ _ _ H12)|by eapply foreign_plan_kept].
Qed.

(** ** What keeps an account foreign *)
Lemma below_back d d' me x : tree d ->
  (forall c a', accounts d' !! c = Some a' -> is_Some (accounts d !! c) ->
     exists a, accounts d !! c = Some a /\ ParentID a' = ParentID a) ->
  is_Some (accounts d !! x) -> below d' me x -> below d me x.
Proof.
  intros Ht Hk Hx Hb. revert x Hb Hx.
  apply (rtc_ind_r (R := edge d') (fun x => is_Some (accounts d !! x) -> below d me x) me); [by intros; apply rtc_refl|].
  intros p c _ (a' & Ha' & Hp) IH Hc. destruct (Hk c a' Ha' Hc) as (a & Ha & Hpa). rewrite Hp in Hpa.
  pose proof (Ht c a Ha) as Htc. rewrite <- Hpa in Htc. destruct Htc as (b & Hb' & _).
  eapply rtc_r; [by apply IH; eexists|]. by exists a.
Qed.

Lemma foreign_kept d d' me x : tree d ->
  (forall c a', accounts d' !! c = Some a' -> is_Some (accounts d !! c) ->
     exists a, accounts d !! c = Some a /\ ParentID a' = ParentID a) ->
  accounts d' !! x = accounts d !! x -> foreign me d x -> foreign me d' x.
Proof.
  intros Ht Hk Hx [He Hn]. split; [by rewrite Hx|]. intros Hb. apply Hn. by eapply below_back.
Qed.

(** A step in the tables of accounts and roles only. *)
Lemma spared_accounts d d' me : tree d ->
  (forall c a', accounts d' !! c = Some a' -> is_Some (accounts d !! c) ->
     exists a, accounts d !! c = Some a /\ ParentID a' = ParentID a) ->
  (forall x, foreign me d x -> accounts d' !! x = accounts d !! x /\ roles d' !! x = roles d !! x) ->
  subscriptions d' = subscriptions d -> addons d' = addons d ->
  (forall p q, plans d !! p = Some q -> foreign_plan me d q -> plans d' !! p = Some q) ->
  spared me d d'.
Proof.
  intros Ht Hk Hx Hs Ha Hp. split; [| |done].
  - intros x Hf. destruct (Hx x Hf) as [Hax Hrx]. split; [by eapply foreign_kept|done].
  - intros s r Hr _. exists r. rewrite Hs, Ha. split; [done|]. split; [apply noted_alike_refl|done].
Qed.

(** A step that leaves accounts and roles alone. *)
Lemma spared_rest d d' me : accounts d' = accounts d -> roles d' = roles d ->
  (forall s r, subscriptions d !! s = Some r -> foreign me d (SubscriberID r) ->
    exists r', subscriptions d' !! s = Some r' /\ noted_alike r r' /\
      (forall q, plans d !! PlanID r = Some q -> foreign_plan me d q -> r' = r) /\
      forall p, addons d' !! (s, p) = addons d !! (s, p)) ->
  (forall p q, plans d !! p = Some q -> foreign_plan me d q -> plans d' !! p = Some q) ->
  spared me d d'.
Proof.
  intros Ha Hr Hs Hp. split; [|done|done]. intros x [Hx Hn]. unfold foreign, below, edge. by rewrite Ha, Hr.
Qed.

(** Only plans change. *)
Lemma spared_with_plans d m me :
  (forall p q, plans d !! p = Some q -> foreign_plan me d q -> m !! p = Some q) ->
  spared me d (with_plans m d).
Proof.
  intros Hp. apply spared_rest; [done|done| |done]. intros s r Hs _. exists r.
  split; [done|]. split; [apply noted_alike_refl|done].
Qed.

(** Only the subscription [id] and its add-ons change. *)
Lemma spared_one_subscription d d' me id : accounts d' = accounts d -> roles d' = roles d -> plans d' = plans d ->
  (forall s, s <> id -> subscriptions d' !! s = subscriptions d !! s) ->
  (forall s p, s <> id -> addons d' !! (s, p) = addons d !! (s, p)) ->
  (forall r, subscriptions d !! id = Some r -> ~ foreign me d (SubscriberID r)) ->
  spared me d d'.
Proof.
  intros Ha Hr Hp Hs Had Hmine. apply spared_rest; [done|done| |by rewrite Hp].
  intros s r Hsr Hf. destruct (decide (s = id)) as [->|Hne]; [by destruct (Hmine r Hsr)|].
  exists r. rewrite Hs by done. split; [done|]. split; [apply noted_alike_refl|]. split; [done|].
  intros p. by apply Had.
Qed.

Lemma spared_nothing d d' me : accounts d' = accounts d -> roles d' = roles d -> plans d' = plans d ->
  subscriptions d' = subscriptions d -> addons d' = addons d -> spared me d d'.
Proof.
  intros Ha Hr Hp Hs Had. apply spared_rest; [done|done| |by rewrite Hp].
  intros s r Hsr _. exists r. rewrite Hs, Had. split; [done|]. split; [apply noted_alike_refl|done].
Qed.

(** ** Each step *)
Section scoped.
Context (actor : Actor) (Hscope : seesEverything actor = false).
Local Abbreviation me := (UserID actor).

Lemma reach_below d x : reach actor d x -> below d me x.
Proof. intros [Ht|Hb]; [congruence|done]. Qed.

Lemma reach_not_foreign d x : reach actor d x -> ~ foreign me d x.
Proof. intros Hr [_ Hn]. by apply Hn, reach_below. Qed.

Lemma edits_own d id q : edits actor d id -> plans d !! id = Some q -> OwnerUserID q = Some me.
Proof.
  intros (q' & Hq & He) Hq'. assert (q' = q) as -> by congruence. unfold mayEditPlan in He. rewrite Hscope in He.
  destruct (OwnerUserID q) as [o|]; [|done]. by apply String.eqb_eq in He as ->.
Qed.

Lemma own_not_foreign d q : OwnerUserID q = Some me -> ~ foreign_plan me d q.
Proof. intros Ho Hf. destruct (Hf me Ho) as [_ Hn]. apply Hn, rtc_refl. Qed.

Lemma edits_not_foreign d id q : edits actor d id -> plans d !! id = Some q -> ~ foreign_plan me d q.
Proof. intros He Hq. eapply own_not_foreign, edits_own; eauto. Qed.

Lemma manages_not_foreign d id r : manages actor d id -> subscriptions d !! id = Some r ->
  ~ foreign me d (SubscriberID r).
Proof. intros (s & Hs & Hr) Hs'. simplify_eq. by apply reach_not_foreign. Qed.

Lemma foreign_other d x y : foreign me d x -> reach actor d y -> x <> y.
Proof. intros Hf Hr ->. by eapply reach_not_foreign. Qed.

Lemma insert_account_spares id p d d' :
  insert_account id p d = Ok (tt, d') -> tree d -> spared me d d'.
Proof.
  unfold insert_account. cbv zeta. intros Hi Ht. destruct (has _ _); [done|]. destruct (has _ _); [done|].
  destruct (accounts d !! id) eqn:Eid; [done|]. destruct (accounts d !! np_ParentID p) as [pa|]; [|done].
  destruct (_ || _); [done|]. injection Hi as <-. apply spared_accounts; [done| | |done|done|done]; cbn.
  - intros c a' Hc [b Hb]. exists b. rewrite lookup_insert_ne in Hc by congruence. split; congruence.
  - intros x [[b Hb] _]. by rewrite lookup_insert_ne by congruence.
Qed.

Lemma update_account_spares id p d d' :
  update_account id p d = Ok (tt, d') -> reach actor d id -> tree d -> spared me d d'.
Proof.
  unfold update_account. intros Hi Hr Ht. destruct (accounts d !! id) as [a|] eqn:Eid; [|done].
  injection Hi as <-. apply spared_accounts; [done| | |done|done|done]; cbn.
  - intros c a' Hc [b Hb]. exists b. split; [done|]. destruct (decide (id = c)) as [<-|Hne].
    + rewrite lookup_insert_eq in Hc. injection Hc as <-. cbn. congruence.
    + rewrite lookup_insert_ne in Hc by done. congruence.
  - intros x Hf. split; [|done]. rewrite lookup_insert_ne; [done|]. intros <-. by eapply foreign_other.
Qed.

Lemma delete_account_spares id d d' :
  delete_account id d = Ok (tt, d') -> reach actor d id -> tree d -> spared me d d'.
Proof.
  unfold delete_account. intros Hi Hr Ht. destruct (accounts d !! id) as [a|] eqn:Eid; [|done].
  destruct (_ || _); [done|]. destruct (existsb _ _); [done|]. injection Hi as <-.
  apply spared_accounts; [done| | |done|done|]; cbn.
  - intros c a' [_ Hc]%lookup_delete_Some _. by exists a'.
  - intros x Hf. pose proof (foreign_other _ _ _ Hf Hr). by rewrite !lookup_delete_ne by congruence.
  - intros p q Hq Hf. apply map_lookup_filter_Some. split; [done|]. cbn. intros Ho.
    by eapply foreign_other; [apply (Hf id Ho)| |].
Qed.

Lemma assign_role_spares id role d d' :
  assign_role id role d = Ok (tt, d') -> reach actor d id -> tree d -> spared me d d'.
Proof.
  unfold assign_role. intros Hi Hr Ht. destruct (accounts d !! id); [|done]. injection Hi as <-.
  apply spared_accounts; [done| | |done|done|done]; cbn.
  - intros c a' Hc _. by exists a'.
  - intros x Hf. split; [done|]. rewrite lookup_insert_ne; [done|]. intros <-. by eapply foreign_other.
Qed.

Lemma insert_plan_spares id p d d' : insert_plan id p d = Ok (tt, d') -> spared me d d'.
Proof.
  unfold insert_plan. cbv zeta. intros Hi. destruct (plan_name_taken _ _ _ _); [done|].
  destruct (plans d !! id) eqn:Eid; [done|]. case_bool_decide; [done|]. injection Hi as <-.
  apply spared_with_plans. intros q x Hx _. by rewrite lookup_insert_ne by congruence.
Qed.

Lemma update_plan_spares id p d d' :
  update_plan id p d = Ok (tt, d') -> edits actor d id -> spared me d d'.
Proof.
  unfold update_plan. intros Hi He. destruct (plans d !! id) as [old|] eqn:Eid; [|done]. cbv zeta in Hi.
  destruct (plan_name_taken _ _ _ _); [done|]. injection Hi as <-. apply spared_with_plans.
  intros q x Hx Hf. rewrite lookup_insert_ne; [done|]. intros <-. by eapply edits_not_foreign.
Qed.

Lemma delete_plan_spares id d d' : delete_plan id d = Ok (tt, d') -> edits actor d id -> spared me d d'.
Proof.
  unfold delete_plan. intros Hi He. destruct (plans d !! id) as [old|] eqn:Eid; [|done].
  destruct (plan_in_use d id); [done|]. injection Hi as <-. apply spared_with_plans.
  intros q x Hx Hf. rewrite lookup_delete_ne; [done|]. intros <-. by eapply edits_not_foreign.
Qed.

Lemma insert_subscription_spares id owner plan name t d d' :
  insert_subscription id owner plan name t d = Ok (tt, d') -> spared me d d'.
Proof.
  unfold insert_subscription. cbv zeta. intros Hi. destruct (subscription_name_taken _ _ _ _); [done|].
  destruct (subscriptions d !! id) eqn:Eid; [done|]. destruct (accounts d !! owner); [|done].
  destruct (plans d !! plan); [|done]. injection Hi as <-.
  apply (spared_one_subscription _ _ _ id); try done; cbn.
  - intros k Hne. by rewrite lookup_insert_ne.
  - intros r Hr. congruence.
Qed.

Lemma update_subscription_spares id f d b d' :
  update_subscription id f d = Ok (b, d') -> manages actor d id -> spared me d d'.
Proof.
  unfold update_subscription. intros Hi Hm. destruct (subscriptions d !! id) as [s|] eqn:E; injection Hi as _ <-;
    [|done]. apply (spared_one_subscription _ _ _ id); try done; cbn.
  - intros s0 Hne. by rewrite lookup_insert_ne.
  - intros r Hr. by eapply manages_not_foreign.
Qed.

(** On a plan of their own, a foreign subscription gets its note. *)
Lemma note_spares id s state detail t d b d' :
  update_subscription id (set_isolation state detail t) d = Ok (b, d') ->
  subscriptions d !! id = Some s -> edits actor d (PlanID s) -> spared me d d'.
Proof.
  unfold update_subscription. intros Hi Es He. rewrite Es in Hi. injection Hi as _ <-.
  apply spared_rest; [done|done| |done]; cbn. intros s0 r Hr Hf.
  destruct (decide (id = s0)) as [<-|Hne].
  - simplify_eq. rewrite lookup_insert_eq. eexists. split; [done|]. split; [by eexists _, _, _|].
    split; [|done]. intros q Hq Hfq. exfalso. by eapply edits_not_foreign.
  - rewrite lookup_insert_ne by done. exists r. split; [done|]. split; [apply noted_alike_refl|done].
Qed.

Lemma delete_subscription_spares id d d' :
  delete_subscription id d = Ok (tt, d') -> manages actor d id -> spared me d d'.
Proof.
  unfold delete_subscription. intros Hi Hm. destruct (subscriptions d !! id) eqn:E; [|done].
  destruct (0 <? _)%nat; [done|]. injection Hi as <-. apply (spared_one_subscription _ _ _ id); try done; cbn.
  - intros k Hne. by rewrite lookup_delete_ne.
  - intros k p0 Hne. apply option_eq. intros q. rewrite map_lookup_filter_Some. cbn. naive_solver.
  - intros r Hr. eapply manages_not_foreign; [done|]. congruence.
Qed.

Lemma put_addon_spares id plan q d d' :
  put_addon id plan q d = Ok (tt, d') -> manages actor d id -> spared me d d'.
Proof.
  unfold put_addon. intros Hi Hm. destruct (subscriptions d !! id) eqn:E; [|done].
  destruct (plans d !! plan); [|done]. destruct (is_ok _); [|done]. injection Hi as <-.
  apply (spared_one_subscription _ _ _ id); try done; cbn.
  - intros k p0 Hne. by rewrite lookup_insert_ne by congruence.
  - intros r Hr. by eapply manages_not_foreign.
Qed.

Lemma delete_addon_spares id plan d d' :
  delete_addon id plan d = Ok (tt, d') -> manages actor d id -> spared me d d'.
Proof.
  unfold delete_addon. intros Hi Hm. destruct (addons d !! _); [|done]. injection Hi as <-.
  apply (spared_one_subscription _ _ _ id); try done; cbn.
  - intros k p0 Hne. by rewrite lookup_delete_ne by congruence.
  - intros r Hr. by eapply manages_not_foreign.
Qed.

Lemma put_website_spares id o d d' : put_website id o d = Ok (tt, d') -> spared me d d'.
Proof.
  unfold put_website. intros Hi. destruct (websites d !! id); [|done]. destruct (match o with Some s => _ | None => _ end);
    [done|]. injection Hi as <-. by apply spared_nothing.
Qed.

Lemma entitled_spares d d' : entitled actor d d' -> tree d -> spared me d d'.
Proof.
  intros He Ht. destruct He;
    eauto using insert_account_spares, update_account_spares, delete_account_spares, assign_role_spares,
      insert_plan_spares, update_plan_spares, delete_plan_spares, insert_subscription_spares,
      update_subscription_spares, delete_subscription_spares, put_addon_spares, delete_addon_spares,
      put_website_spares.
  match goal with Hm : manages _ _ _ \/ edits _ _ _ |- _ => destruct Hm end;
    eauto using update_subscription_spares, note_spares.
Qed.

Lemma steps_spare d d' : rtc (entitled actor) d d' -> consistent d -> spared me d d'.
Proof.
  induction 1 as [|d1 d2 d3 He _ IH]; intros Hc; [reflexivity|]. transitivity d2.
  - apply entitled_spares; [done|apply Hc].
  - apply IH. by eapply entitled_consistent.
Qed.
End scoped.

(** ** What holds of the endpoints *)
Section endpoints.
Context `{Hashing}.

(** C24: requests keep the tables together, whoever sends them, in whatever order and whatever calls
    fail: the accounts stay a tree of strictly falling tiers rooted at administrators, limits stay
    in their range, plans belong to accounts that exist, subscriptions to accounts that exist and to
    plans that are plans, add-ons to subscriptions that exist and to plans that are add-ons in a
    sound quantity, and websites to subscriptions that exist. *)
Theorem endpoints_keep_tables l w : consistent (db w) -> consistent (db (handle_all l w)).
Proof. apply handle_all_consistent. Qed.

(** C26: after any requests, the recursive query for an account's descendants ends, and it finds
    exactly the accounts at or below it in the hierarchy. *)
Theorem hierarchy_query_ends l w u a :
  consistent (db w) -> let d := db (handle_all l w) in accounts d !! u = Some a ->
  exists ids, descendants d u = Some ids /\ forall x, x ∈ ids <-> below d u x.
Proof.
  intros Hc d Ha. eapply descendants_spec; [|done]. apply co_tree. by apply handle_all_consistent.
Qed.

(** C9: a request by an account that is not an administrator leaves alone every account that is not
    at or below it, with its roles; the subscriptions of such accounts, but for the note about their
    limits on the host when they are on a plan of the caller's own; their add-ons; and every plan
    of the panel's or of such accounts. *)
Theorem request_stays_in_scope claims req w a :
  consistent (db w) -> accounts (db w) !! c_UserID claims = Some a -> Tier a <> TierAdmin ->
  spared (c_UserID claims) (db w) (db (snd (handle claims req w))).
Proof.
  intros Hc Ha Ht. destruct (handle_steps claims req w) as [->|(a' & Ha' & Hr)]; [reflexivity|].
  assert (a' = a) as -> by congruence. apply (steps_spare (actor_for claims a)); [|done|done].
  unfold seesEverything. cbn. by apply String.eqb_neq.
Qed.
End endpoints.

(** A session as another account is opened only downwards: by a caller who has the permission
    and is not impersonating, for an account other than their own, of a tier strictly below theirs,
    and, unless they are an administrator, below them in the hierarchy. The checks change nothing. *)
Theorem impersonation_goes_down actor subject reason w account w' :
  may_impersonate actor subject reason w = (Ok account, w') ->
  db w' = db w /\ ImpersonatorUserID actor = ""%string /\ PermTenantImpersonate ∈ Permissions actor /\
  subject <> UserID actor /\ accounts (db w) !! subject = Some account /\
  TierRank (ActorTier actor) < TierRank (Tier account) /\
  (ActorTier actor <> TierAdmin -> below (db w) (UserID actor) subject).
Proof.
  intros Hm.
  assert (Hr : reads (may_impersonate actor subject reason) (fun account d =>
    ImpersonatorUserID actor = ""%string /\ PermTenantImpersonate ∈ Permissions actor /\
    subject <> UserID actor /\ accounts d !! subject = Some account /\
    TierRank (ActorTier actor) < TierRank (Tier account) /\
    (ActorTier actor <> TierAdmin -> below d (UserID actor) subject))).
  { unfold may_impersonate. destruct (String.eqb_spec (ImpersonatorUserID actor) "") as [Hi|]; cbn [negb];
      [|apply reads_fail].
    destruct (Has _ _) eqn:Eh; cbn [negb]; [|apply reads_fail].
    eapply reads_bind; [apply reads_rule|]. intros [].
    destruct (String.eqb_spec subject (UserID actor)) as [|Hne]; [apply reads_fail|].
    eapply reads_bind; [apply reads_requireDescendant|]. intros [].
    eapply reads_bind; [apply reads_TierOf|]. intros tier.
    destruct (TierMayOwn _ _) eqn:Et; cbn [negb]; [|apply reads_fail].
    eapply reads_weaken; [apply reads_GetAccount|]. intros a d Ha (b & Hb & Hbt) Hreach _.
    assert (b = a) as -> by congruence. split; [done|]. split; [by apply (one_of_spec (Permissions actor))|].
    split; [done|]. split; [done|]. split; [apply TierMayOwn_rank; by rewrite Hbt|].
    intros Hna. apply (reach_below actor); [|done]. by apply String.eqb_neq. }
  specialize (Hr w). unfold wp in Hr. rewrite Hm in Hr. destruct Hr as [Hd Hr]. by split.
Qed.

(** ** Examples *)
Module Shop.
#[local] Instance plainly : Hashing := {| HashPassword p := Some p |}.

Definition unlimited : Limits := {|
  DiskMB := None; BandwidthMB := None; MaxWebsites := Some 2; MaxDatabases := None; MaxMailboxes := None;
  MaxFTPUsers := None; MaxCronJobs := None; MaxSubdomains := None |}.
Definition no_caps : Caps := {| CPUPercent := None; MemoryMB := None; IOWeight := None |}.

Definition root : Account := {|
  Username := "root"; Email := None; PasswordHash := ""; Tier := TierAdmin; ParentID := None;
  FullName := None; Company := None; AccountStatus := "active" |}.
Definition site : Website := {|
  SubscriptionID := None; ParentWebsiteID := None; PrimaryDomain := "shop.example"; DocumentRoot := "" |}.

(** A new panel with one website on it. *)
Definition fresh : World := {|
  db := {| accounts := {["root" := root]}; roles := ∅; plans := ∅; subscriptions := ∅; addons := ∅;
           websites := {["w" := site]}; databases := ∅; cron_jobs := ∅; ftp_users := ∅;
           mail_domains := ∅; mailboxes := ∅ |};
  audit := []; now := 100; uuids := ["r1"; "r2"; "c2"; "p"; "s2"; "s1"]%string; has_agent := false;
  host := []; sent := []; removed := []; faults := [] |}.

Lemma fresh_consistent : consistent (db fresh).
Proof.
  split; cbn.
  - intros u a Hu. cbn in Hu. apply lookup_singleton_Some in Hu as [<- <-]. done.
  - intros p q Hp. by rewrite lookup_empty in Hp.
  - intros s r Hr. by rewrite lookup_empty in Hr.
  - intros s p q Hq. by rewrite lookup_empty in Hq.
  - intros w x s [<- <-]%lookup_singleton_Some. done.
Qed.

Definition as_ (user : string) : Claims := {|
  c_UserID := user; c_Permissions := [PermTenantManage]; c_ImpersonatorUserID := "" |}.
Definition account (name tier : string) : Request := RqCreateAccount {|
  rq_Username := name; rq_Email := ""; rq_Password := "long enough"; rq_Tier := tier;
  rq_FullName := ""; rq_Company := ""; rq_ParentID := "" |}.
Definition basic : PlanRequest := {|
  pr_Name := "Basic"; pr_Description := ""; pr_Kind := ""; pr_Limits := unlimited; pr_Enforcement := "";
  pr_Isolation := no_caps |}.

(** Two resellers, the second with a customer whose subscription has the website. *)
Definition history : list (Claims * Request) := [
  (as_ "root", account "alpha" TierReseller); (as_ "root", account "bravo" TierReseller);
  (as_ "r2", account "carol" TierCustomer); (as_ "root", RqCreatePlan basic);
  (as_ "r2", RqCreateSubscription "c2" "p" "shop"); (as_ "r1", RqCreateSubscription "r1" "p" "own");
  (as_ "r2", RqAssignWebsite "s2" "w") ]%string.
Definition shop : World := handle_all history fresh.

Lemma shop_consistent : consistent (db shop).
Proof. apply handle_all_consistent, fresh_consistent. Qed.

Example the_customer : accounts (db shop) !! "c2"%string = Some {|
  Username := "carol"; Email := None; PasswordHash := "long enough"; Tier := TierCustomer;
  ParentID := Some "r2"%string; FullName := None; Company := None; AccountStatus := "active" |}.
Proof. by vm_compute. Qed.

(** The first reseller cannot suspend, rename or delete what the second one's customer has; to the
    caller it is as if it were not there. *)
Example not_there :
  map (fun req => fst (handle (as_ "r1") req shop))
    [RqSetStatus "s2" StatusSuspended "because"; RqUpdateSubscription "s2" (Some "mine") None;
     RqDeleteSubscription "s2"; RqUpdateAccount "c2" {| up_FullName := None; up_Company := None; up_Status := Some "locked" |};
     RqDeleteAccount "c2"]%string
    = [Err ErrNotFound; Err ErrNotFound; Err ErrNotFound; Err ErrNotFound; Err ErrNotFound].
Proof. by vm_compute. Qed.

(** A website is not guarded: the first reseller takes the customer's website into a subscription
    of his own. *)
Example website_taken :
  SubscriptionID <$> websites (db shop) !! "w"%string = Some (Some "s2"%string) /\
  let w' := snd (handle (as_ "r1") (RqAssignWebsite "s1" "w") shop) in
  SubscriptionID <$> websites (db w') !! "w"%string = Some (Some "s1"%string).
Proof. by vm_compute. Qed.

(** A username the rules refuse is answered as a fault of the server. *)
Example bad_username :
  match fst (handle (as_ "root") (account "A" TierReseller) shop) with
  | Ok _ => 0 | Err e => translate e end = 500.
Proof. by vm_compute. Qed.

Lemma endpoints_keep_tables_witness :
  consistent (db (handle_all history fresh)) /\ 
  SubscriberID <$> subscriptions (db (handle_all history fresh)) !! "s1"%string = Some "r1"%string.
Proof.
  split; [apply endpoints_keep_tables, fresh_consistent|by vm_compute].
Defined.

Lemma hierarchy_query_ends_witness :
  exists a ids, accounts (db (handle_all history fresh)) !! "r2"%string = Some a /\
    descendants (db (handle_all history fresh)) "r2" = Some ids /\
    forall x, x ∈ ids <-> below (db (handle_all history fresh)) "r2" x.
Proof.
  destruct (accounts (db (handle_all history fresh)) !! "r2"%string) as [a|] eqn:Ea; [|by vm_compute in Ea].
  destruct (hierarchy_query_ends history fresh "r2" a fresh_consistent Ea) as (ids & Hi & Hs).
  exists a, ids. exact (conj eq_refl (conj Hi Hs)).
Defined.

Lemma request_stays_in_scope_witness :
  exists a, accounts (db shop) !! "r1"%string = Some a /\ Tier a = TierReseller /\
    spared "r1" (db shop) (db (snd (handle (as_ "r1") (RqDeleteSubscription "s2") shop))).
Proof.
  destruct (accounts (db shop) !! "r1"%string) as [a|] eqn:Ea; [|by vm_compute in Ea].
  assert (Ht : Tier a = TierReseller).
  { assert (Hsome : Tier <$> accounts (db shop) !! "r1"%string = Some TierReseller) by by vm_compute.
    rewrite Ea in Hsome. cbn in Hsome. congruence. }
  exists a. split; [reflexivity|]. split; [exact Ht|].
  apply (request_stays_in_scope (as_ "r1") _ shop a shop_consistent Ea). by rewrite Ht.
Defined.

Definition bravo : Actor := {|
  UserID := "r2"; ActorTier := TierReseller; Permissions := [PermTenantImpersonate]; ImpersonatorUserID := "" |}.

Lemma impersonation_goes_down_witness :
  exists account, may_impersonate bravo "c2" "support call" shop = (Ok account, shop) /\
    TierRank TierReseller < TierRank (Tier account).
Proof.
  destruct (may_impersonate bravo "c2" "support call" shop) as [[account|e] w'] eqn:E.
  - exists account. assert (w' = shop) as ->.
    { by vm_compute in E; injection E as _ <-; vm_compute. }
    split; [done|]. by destruct (impersonation_goes_down _ _ _ _ _ _ E) as (_ & _ & _ & _ & _ & Hr & _).
  - by vm_compute in E.
Defined.
End Shop.
