(* ===== verification/QuotaGuard.v ===== *)
(** * The quota guard ([api/internal/tenancy/quota.go])

    The check in front of every route that creates something a plan sells: which rule a request
    falls under, which subscription it charges, and whether that one has room. The parse of a JSON
    body into a map is a parameter. *)

From stdpp Require Import gmap.
From S2P Require Import Prelude Store GoStr TenancyRules Quota Tenants Tenancy TenancyRights.

#[local] Open Scope Z_scope.
#[local] Open Scope store_scope.
Local Abbreviation M := (Store.M World tenancy_err).
Local Abbreviation query := (Store.query ErrBackend).

Definition is_measured (dimension : string) : bool :=
  (dimension =? DimensionDisk)%string || (dimension =? DimensionBandwidth)%string.

Definition CheckQuota (id dimension : string) : M Decision :=
  rule (QuotaDimension dimension) ;!
  if is_measured dimension then fail ErrMeasured
  else
    let! s := GetSubscription id in
    let! plan := GetPlan (PlanID s) in
    let! addons := ListAddons id in
    let! usage := CountUsage id in
    ret (decide_quota (SubscriptionStatus s) (SuspendedReason s) (PlanLimits plan) (PlanEnforcement plan)
           addons usage dimension).

(** ** Rules *)
Inductive Subject :=
| SubjectCaller | SubjectBodySubscription | SubjectPathWebsite | SubjectBodyWebsite
| SubjectPathMailDomain | SubjectOther (name : string).

Record Rule := { r_Dimension : string; r_Subject : Subject }.

(** What [NewGuard] asks of a rule before it is wired. *)
Definition wired (rule : Rule) : bool :=
  is_ok (QuotaDimension (r_Dimension rule)) && negb (is_measured (r_Dimension rule)) &&
  match r_Subject rule with SubjectOther _ => false | _ => true end.

Definition NewGuard (rules : list (string * Rule)) : option (list (string * Rule)) :=
  if forallb (fun x => wired (snd x)) rules then Some rules else None.

(** The routes the server guards. *)
Definition quota_rules : list (string * Rule) := [
  ("POST /api/v1/websites", {| r_Dimension := DimensionWebsites; r_Subject := SubjectBodySubscription |});
  ("POST /api/v1/websites/{id}/subdomains",
    {| r_Dimension := DimensionSubdomains; r_Subject := SubjectPathWebsite |});
  ("POST /api/v1/databases", {| r_Dimension := DimensionDatabases; r_Subject := SubjectBodyWebsite |});
  ("POST /api/v1/mail/domains/{id}/mailboxes",
    {| r_Dimension := DimensionMailboxes; r_Subject := SubjectPathMailDomain |});
  ("POST /api/v1/ftp/users", {| r_Dimension := DimensionFTPUsers; r_Subject := SubjectBodyWebsite |});
  ("POST /api/v1/cron", {| r_Dimension := DimensionCronJobs; r_Subject := SubjectBodyWebsite |}) ]%string.

(** ** Requests *)
Inductive field := FString (s : string) | FOther.

(** [json.Unmarshal] into a [map[string]any]; [None] is an error. *)
Class BodyParser := { unmarshal : string -> option (gmap string field) }.

Definition maxGuardBody : Z := 65536.

(** A routed request: its rule, its [{id}], who a token the service accepts says is asking, and the
    body. *)
Record GuardedRequest := {
  q_rule : option Rule; q_id : string; q_caller : option string; q_body : option string;
}.

(** [errors.Is(err, ErrNotFound)] told apart from other failures. *)
Definition unless_missing {A B} (m : M A) (missing : M B) (k : A -> M B) : M B :=
  let! r := attempt m in
  match r with Ok a => k a | Err ErrNotFound => missing | Err e => fail e end.

Section guard.
Context `{BodyParser}.

Definition readBody (body : option string) : option (gmap string field) :=
  match body with
  | None => None
  | Some buffered => if maxGuardBody <? Z.of_nat (String.length buffered) then None else unmarshal buffered
  end.

Definition stringField (body : option (gmap string field)) (name : string) : string :=
  match body with
  | None => ""
  | Some fields => match fields !! name with Some (FString value) => trim_space value | _ => "" end
  end.

(** ** The subscription a request charges *)
Definition callerSubscription (caller : string) : M string :=
  let! ids := SubscriptionsForOwner caller in
  ret (match ids with [] => ""%string | id :: _ => id end).

Definition fromWebsite (website caller : string) : M string :=
  if (website =? "")%string then callerSubscription caller
  else unless_missing (SubscriptionForWebsite website) (ret ""%string) ret.

Definition subjectFor (rule : Rule) (id : string) (body : option (gmap string field)) (caller : string) : M string :=
  match r_Subject rule with
  | SubjectCaller => callerSubscription caller
  | SubjectBodySubscription =>
      let named := stringField body "subscription_id" in
      if negb (named =? "")%string then ret named else callerSubscription caller
  | SubjectPathWebsite => fromWebsite id caller
  | SubjectBodyWebsite => fromWebsite (stringField body "website_id") caller
  | SubjectPathMailDomain =>
      unless_missing (WebsiteForMailDomain id) (ret ""%string) (fun website => fromWebsite website caller)
  | SubjectOther _ => fail ErrBackend
  end.

(** ** The middleware *)
Inductive verdict := Passed (warning : option string) | Refused (reason : string) | Failed.

Definition recordRefusal (user subscription : string) : M unit :=
  update (fun w => set_audit (audit w ++ [{| e_UserID := user; e_Action := "tenant.quota.refused";
                                             e_ResourceID := subscription; e_Success := false |}])%list w).

Definition Middleware (r : GuardedRequest) : M verdict :=
  match q_rule r, q_caller r with
  | Some rule, Some caller =>
      let! subject := attempt (subjectFor rule (q_id r) (readBody (q_body r)) caller) in
      match subject with
      | Err _ => ret Failed
      | Ok subject =>
          if (subject =? "")%string then ret (Passed None)
          else
            let! decision := attempt (CheckQuota subject (r_Dimension rule)) in
            match decision with
            | Err ErrNotFound => ret (Passed None)
            | Err _ => ret Failed
            | Ok decision =>
                if negb (Allowed decision)
                then recordRefusal caller subject ;! ret (Refused (d_Reason decision))
                else ret (Passed (if OverSoftLimit decision then Some (d_Reason decision) else None))
            end
      end
  | _, _ => ret (Passed None)
  end.

(** The middleware around the handler of a route. *)
Definition guarded {A} (r : GuardedRequest) (next : M A) : M (verdict * option A) :=
  let! v := Middleware r in
  match v with
  | Passed _ => let! a := next in ret (v, Some a)
  | _ => ret (v, None)
  end.

(** ** What it comes to *)

(** The first subscription of an account. *)
Definition first_of (caller : string) (d : Database) : string :=
  match subscriptions_for caller d with [] => ""%string | id :: _ => id end.

Definition subscription_of (website : string) (d : Database) : option string :=
  if (trim_space website =? "")%string then None else x ← websites d !! website; SubscriptionID x.
Definition site_of (mail_domain : string) (d : Database) : option string :=
  if (trim_space mail_domain =? "")%string then None else mjoin (mail_domains d !! mail_domain).

Definition of_website (website caller : string) (d : Database) : string :=
  if (website =? "")%string then first_of caller d else default ""%string (subscription_of website d).

(** Who pays, in given tables. *)
Definition payer (rule : Rule) (id : string) (body : option (gmap string field)) (caller : string)
    (d : Database) : string :=
  match r_Subject rule with
  | SubjectCaller => first_of caller d
  | SubjectBodySubscription =>
      let named := stringField body "subscription_id" in
      if negb (named =? "")%string then named else first_of caller d
  | SubjectPathWebsite => of_website id caller d
  | SubjectBodyWebsite => of_website (stringField body "website_id") caller d
  | SubjectPathMailDomain =>
      match site_of id d with Some website => of_website website caller d | None => ""%string end
  | SubjectOther _ => ""%string
  end.

Definition decision_for (s dimension : string) (d : Database) : option Decision :=
  sub ← subscriptions d !! s;
  plan ← plans d !! PlanID sub;
  Some (decide_quota (SubscriptionStatus sub) (SuspendedReason sub) (PlanLimits plan) (PlanEnforcement plan)
          (list_addons s d) (count_usage s d) dimension).

Definition verdict_of (r : GuardedRequest) (d : Database) : verdict :=
  match q_rule r, q_caller r with
  | Some rule, Some caller =>
      let s := payer rule (q_id r) (readBody (q_body r)) caller d in
      if (s =? "")%string then Passed None
      else
        match decision_for s (r_Dimension rule) d with
        | None => Passed None
        | Some decision =>
            if Allowed decision
            then Passed (if OverSoftLimit decision then Some (d_Reason decision) else None)
            else Refused (d_Reason decision)
        end
  | _, _ => Passed None
  end.

(** What a program answers, whatever it may fail with otherwise: [P] of the answer or of the error,
    or the panel's database did not. *)
Definition answers {A} (m : M A) (P : result tenancy_err A -> Database -> Prop) : Prop :=
  forall w, match m w with (r, w') => db w' = db w /\ (r = Err ErrBackend \/ P r (db w)) end.

Lemma replies_ret {A} (a : A) P : (forall d, P (Ok a) d) -> answers (ret a) P.
Proof. intros HP w. cbn. auto. Qed.
Lemma replies_fail {A} e (P : result tenancy_err A -> Database -> Prop) : (forall d, P (Err e) d) -> answers (fail e) P.
Proof. intros HP w. cbn. auto. Qed.

Lemma replies_query {A} (f : World -> result tenancy_err A) P :
  (forall w, P (f w) (db w)) -> answers (query f) P.
Proof.
  intros HP w. unfold query, call. destruct (faults_of w) as [|[] fs]; cbn; [auto| |auto|auto].
  split; [done|]. right. exact (HP (with_faults fs w)).
Qed.

Lemma replies_bind {A B} (m : M A) (k : A -> M B) P Q : answers m P ->
  (forall a, answers (k a) (fun r d => P (Ok a) d -> Q r d)) ->
  (forall e d, P (Err e) d -> Q (Err e) d) -> answers (bind m k) Q.
Proof.
  intros Hm Hk He w. unfold bind. specialize (Hm w). destruct (m w) as [[a|e] w1]; destruct Hm as [Hd HP].
  - destruct HP as [|HP]; [done|]. specialize (Hk a w1). destruct (k a w1) as [r w2].
    destruct Hk as [Hd2 HQ]. rewrite <- Hd. split; [done|]. destruct HQ as [|HQ]; [by left|right].
    apply HQ. by rewrite Hd.
  - split; [done|]. destruct HP as [[= ->]|HP]; [by left|right]. by apply He.
Qed.

Lemma replies_attempt {A} (m : M A) P : answers m P ->
  answers (attempt m) (fun r d => exists r0, r = Ok r0 /\ (r0 = Err ErrBackend \/ P r0 d)).
Proof.
  intros Hm w. unfold attempt. specialize (Hm w). destruct (m w) as [r w1]. destruct Hm as [Hd HP].
  split; [done|]. right. by exists r.
Qed.

Lemma replies_weaken {A} (m : M A) P Q : answers m P -> (forall r d, P r d -> Q r d) -> answers m Q.
Proof.
  intros Hm HPQ w. specialize (Hm w). destruct (m w) as [r w1]. destruct Hm as [Hd [|HP]]; auto.
Qed.

(** What is looked for and may not be there. *)
Lemma replies_unless {A B} (m : M A) (o : Database -> option A) (missing : M B) (k : A -> M B) Q :
  answers m (fun r d => r = found (o d)) -> answers missing (fun r d => o d = None -> Q r d) ->
  (forall a, answers (k a) (fun r d => o d = Some a -> Q r d)) -> answers (unless_missing m missing k) Q.
Proof.
  intros Hm H0 Hk. unfold unless_missing.
  eapply replies_bind; [apply replies_attempt, Hm| |by intros e d (r0 & [=] & _)]. intros [a|e].
  - eapply replies_weaken; [apply Hk|]. cbn. intros r d HQ (r0 & [= <-] & [|Hr]); [done|]. apply HQ.
    unfold found in Hr. destruct (o d); congruence.
  - assert (Hother : e <> ErrNotFound -> answers (fail (A := B) e) (fun r d =>
      (exists r0, Ok (E := tenancy_err) (Err (A := A) e) = Ok r0 /\ (r0 = Err ErrBackend \/ r0 = found (o d))) -> Q r d)).
    { intros Hne. destruct (decide (e = ErrBackend)) as [->|Hnb]; [intros w; cbn; auto|].
      apply replies_fail. intros d (r0 & [= <-] & [[=]|Hr]); [done|]. unfold found in Hr.
      destruct (o d); congruence. }
    destruct e; try by apply Hother. eapply replies_weaken; [exact H0|]. cbn.
    intros r d HQ (r0 & [= <-] & [|Hr]); [done|]. apply HQ. unfold found in Hr. by destruct (o d).
Qed.

Lemma replies_found {A} (f : World -> option A) (o : Database -> option A) :
  (forall w, f w = o (db w)) -> answers (query (fun w => found (f w))) (fun r d => r = found (o d)).
Proof. intros Hf. apply replies_query. intros w. by rewrite Hf. Qed.

Lemma callerSubscription_answers caller :
  answers (callerSubscription caller) (fun r d => r = Ok (first_of caller d)).
Proof.
  eapply (replies_bind _ _ (fun r d => r = Ok (subscriptions_for caller d))).
  - by apply replies_query.
  - intros ids. apply replies_ret. intros d [= ->]. done.
  - done.
Qed.

Lemma fromWebsite_answers website caller :
  answers (fromWebsite website caller) (fun r d => r = Ok (of_website website caller d)).
Proof.
  unfold fromWebsite, of_website. destruct (website =? "")%string; [apply callerSubscription_answers|].
  apply (replies_unless _ (subscription_of website)).
  - unfold SubscriptionForWebsite, subscription_of.
    destruct (trim_space website =? "")%string; [by apply replies_fail|by apply replies_found].
  - apply replies_ret. by intros d ->.
  - intros a. apply replies_ret. by intros d ->.
Qed.

Lemma subjectFor_answers rule id body caller :
  answers (subjectFor rule id body caller) (fun r d => r = Ok (payer rule id body caller d)).
Proof.
  unfold subjectFor, payer. destruct (r_Subject rule); [apply callerSubscription_answers| |
    apply fromWebsite_answers|apply fromWebsite_answers| |intros w; cbn; auto].
  - destruct (stringField body "subscription_id" =? "")%string; [apply callerSubscription_answers|by apply replies_ret].
  - apply (replies_unless _ (site_of id)).
    + unfold WebsiteForMailDomain, site_of.
      destruct (trim_space id =? "")%string; [by apply replies_fail|by apply replies_found].
    + apply replies_ret. by intros d ->.
    + intros website. eapply replies_weaken; [apply fromWebsite_answers|]. by intros r d -> ->.
Qed.

Lemma CheckQuota_answers s rule : wired rule = true ->
  answers (CheckQuota s (r_Dimension rule)) (fun r d => r = found (decision_for s (r_Dimension rule) d)).
Proof.
  unfold wired. intros [[Hd Hm]%andb_true_iff _]%andb_true_iff. unfold CheckQuota, decision_for.
  apply negb_true_iff in Hm. rewrite Hm. destruct (QuotaDimension _) as [[]|] eqn:E; [|done].
  eapply (replies_bind _ _ (fun r _ => r = Ok tt)); [intros w; cbn; auto| |done]. intros [].
  eapply replies_weaken; [|intros r d Hr _; exact Hr].
  eapply replies_bind; [by apply (replies_found _ (fun d => subscriptions d !! s))| |].
  - intros sub. eapply replies_bind; [by apply (replies_found _ (fun d => plans d !! PlanID sub))| |].
    + intros plan. eapply replies_bind; [by apply (replies_query _ (fun r d => r = Ok (list_addons s d)))| |done].
      intros addons. eapply replies_bind; [by apply (replies_query _ (fun r d => r = Ok (count_usage s d)))| |done].
      intros usage. apply replies_ret. unfold found. intros d [= ->] [= ->] Hp Hs.
      destruct (subscriptions d !! s); [|done]. injection Hs as <-. cbn. destruct (plans d !! _); [|done].
      by injection Hp as <-.
    + intros e d Hp Hs. unfold found in *. destruct (subscriptions d !! s); [|done]. injection Hs as <-. cbn.
      destruct (plans d !! _); [done|]. by injection Hp as ->.
  - intros e d Hs. unfold found in *. destruct (subscriptions d !! s); [done|]. by injection Hs as ->.
Qed.

(** The middleware says what the tables say, unless a call failed. *)
Lemma Middleware_answers r : (forall rule, q_rule r = Some rule -> wired rule = true) ->
  answers (Middleware r) (fun v d => v = Ok Failed \/ v = Ok (verdict_of r d)).
Proof.
  intros Hw. unfold Middleware, verdict_of. destruct (q_rule r) as [rule|] eqn:Er; [|apply replies_ret; auto].
  destruct (q_caller r) as [caller|]; [|apply replies_ret; auto].
  eapply replies_bind; [apply replies_attempt, subjectFor_answers| |by intros e d (r0 & [=] & _)].
  intros [s|e]; [|apply replies_ret; auto]. destruct (String.eqb_spec s "") as [->|Hs].
  - apply replies_ret. intros d (r0 & [= <-] & [|[= <-]]); [done|]. cbn. auto.
  - eapply replies_bind; [by apply replies_attempt, CheckQuota_answers, Hw| |by intros e d (r0 & [=] & _)].
    assert (Hsame : forall d, (exists r0, Ok (E := tenancy_err) (Ok (E := tenancy_err) s) = Ok r0 /\ (r0 = Err ErrBackend \/
      r0 = Ok (payer rule (q_id r) (readBody (q_body r)) caller d))) ->
      payer rule (q_id r) (readBody (q_body r)) caller d = s).
    { intros d (r0 & [= <-] & [|Hr]); [done|]. by injection Hr. }
    apply String.eqb_neq in Hs. intros [decision|e].
    + destruct (Allowed decision) eqn:Ea; cbn [negb].
      * apply replies_ret. intros d (r0 & [= <-] & [|Hr]) Hp%Hsame; [done|]. right.
        rewrite Hp, Hs. unfold found in Hr. destruct (decision_for _ _ _); [|done]. injection Hr as <-. by rewrite Ea.
      * intros w. cbn. split; [done|]. right. intros (r0 & [= <-] & [|Hr]) Hp%Hsame; [done|]. right.
        rewrite Hp, Hs. unfold found in Hr. destruct (decision_for _ _ _); [|done]. injection Hr as <-. by rewrite Ea.
    + assert (Hnone : forall v d, v = Ok (E := tenancy_err) (Passed None) -> e = ErrNotFound ->
        (exists r0, Ok (E := tenancy_err) (Err (A := Decision) e) = Ok r0 /\ (r0 = Err ErrBackend \/
           r0 = found (decision_for s (r_Dimension rule) d))) ->
        payer rule (q_id r) (readBody (q_body r)) caller d = s ->
        v = Ok (match decision_for s (r_Dimension rule) d with
                | None => Passed None
                | Some decision => if Allowed decision
                    then Passed (if OverSoftLimit decision then Some (d_Reason decision) else None)
                    else Refused (d_Reason decision) end)).
      { intros v d -> -> (r0 & [= <-] & [|Hr]) _; [done|]. unfold found in Hr.
        by destruct (decision_for _ _ _). }
      destruct e; apply replies_ret; intros d Hr Hp%Hsame; auto.
      right. rewrite Hp, Hs. by eapply Hnone.
Qed.
End guard.
