(* ===== verification/QuotaLimits.v ===== *)
(** * What the quota guard keeps, and what slips past it ([api/internal/tenancy/quota.go],
    [service.go], [api/internal/websites])

    A hard limit against any handler that adds at most one; whether what is charged is what is
    counted; and the two kinds of website that belong to no plan. *)

From stdpp Require Import gmap.
From S2P Require Import Prelude Store GoStr TenancyRules Quota Tenants Tenancy TenancyRights.
From S2P Require Import TenancyServer TenancyScope QuotaGuard.

#[local] Open Scope Z_scope.
#[local] Open Scope store_scope.
Local Abbreviation M := (Store.M World tenancy_err).

(** How many of a dimension a subscription uses, its limit when its plan is a hard one, and whether
    it is suspended. *)
Definition used (s dimension : string) (d : Database) : Z := Used (count_usage s d) dimension.

Definition hard_limit (s dimension : string) (d : Database) : option Z :=
  sub ← subscriptions d !! s;
  plan ← plans d !! PlanID sub;
  if (PlanEnforcement plan =? EnforcementSoft)%string then None
  else Limit (EffectiveLimits (PlanLimits plan) (list_addons s d)) dimension.

Definition suspended (s : string) (d : Database) : Prop :=
  exists sub plan, subscriptions d !! s = Some sub /\ plans d !! PlanID sub = Some plan /\
    SubscriptionStatus sub = StatusSuspended.

(** What other services put in: a row that hangs on a website, or on a mail domain that does. *)
Inductive creation :=
| NewDatabase (website : string) | NewCronJob (website : string) | NewFTPUser (website : string)
| NewMailbox (mail_domain : string).

Definition dimension_of (c : creation) : string :=
  match c with
  | NewDatabase _ => DimensionDatabases | NewCronJob _ => DimensionCronJobs
  | NewFTPUser _ => DimensionFTPUsers | NewMailbox _ => DimensionMailboxes
  end.

(** The rule of the route, by the table of the server. *)
Definition rule_for (c : creation) : Rule := {|
  r_Dimension := dimension_of c;
  r_Subject := match c with NewMailbox _ => SubjectPathMailDomain | _ => SubjectBodyWebsite end |}.

Definition put (id : string) (c : creation) (d : Database) : Database := {|
  accounts := accounts d; roles := roles d; plans := plans d; subscriptions := subscriptions d;
  addons := addons d; websites := websites d;
  databases := match c with NewDatabase w => <[id := Some w]> (databases d) | _ => databases d end;
  cron_jobs := match c with NewCronJob w => <[id := Some w]> (cron_jobs d) | _ => cron_jobs d end;
  ftp_users := match c with NewFTPUser w => <[id := Some w]> (ftp_users d) | _ => ftp_users d end;
  mail_domains := mail_domains d;
  mailboxes := match c with NewMailbox md => <[id := md]> (mailboxes d) | _ => mailboxes d end |}.

Definition taken (id : string) (c : creation) (d : Database) : Prop :=
  match c with
  | NewDatabase _ => is_Some (databases d !! id) | NewCronJob _ => is_Some (cron_jobs d !! id)
  | NewFTPUser _ => is_Some (ftp_users d !! id) | NewMailbox _ => is_Some (mailboxes d !! id)
  end.

(** An identifier as the panel makes them. *)
Definition identifier (w : string) : Prop := w <> ""%string /\ trim_space w = w.

(** What the request says it is about. *)
Definition about (c : creation) (id : string) (body : option (gmap string field)) (d : Database) : Prop :=
  match c with
  | NewDatabase w | NewCronJob w | NewFTPUser w => stringField body "website_id" = w /\ identifier w
  | NewMailbox md => id = md /\ identifier md /\ forall w, mail_domains d !! md = Some (Some w) -> identifier w
  end.

Lemma wired_rule_for c : wired (rule_for c) = true.
Proof. by destruct c. Qed.

Example quota_rules_wired : NewGuard quota_rules = Some quota_rules.
Proof. reflexivity. Qed.

(** ** The guard *)
Lemma refusal s dimension d l : hard_limit s dimension d = Some l -> l <= used s dimension d ->
  exists decision, decision_for s dimension d = Some decision /\ Allowed decision = false.
Proof.
  unfold hard_limit, used, decision_for. intros Hl Hu. destruct (subscriptions d !! s) as [sub|]; [|done].
  cbn in *. destruct (plans d !! PlanID sub) as [plan|]; [|done]. cbn in *. eexists. split; [done|].
  unfold decide_quota. destruct (_ =? StatusSuspended)%string; [done|].
  destruct (PlanEnforcement plan =? EnforcementSoft)%string eqn:Ee; [done|]. cbn [id] in *. rewrite Hl.
  by destruct (Z.ltb_spec (Used (count_usage s d) dimension) l); [lia|].
Qed.

Lemma suspended_refusal s dimension d : suspended s d ->
  exists decision, decision_for s dimension d = Some decision /\ Allowed decision = false.
Proof.
  intros (sub & plan & Hs & Hp & He). unfold decision_for. rewrite Hs. cbn. rewrite Hp. cbn.
  eexists. split; [done|]. unfold decide_quota. by rewrite He.
Qed.

Section guarded.
Context `{BodyParser}.

Lemma guarded_spec {A} r (next : M A) w : (forall rule, q_rule r = Some rule -> wired rule = true) ->
  db (snd (guarded r next w)) = db w \/
  exists w1 warning, db w1 = db w /\ verdict_of r (db w) = Passed warning /\
    db (snd (guarded r next w)) = db (snd (next w1)).
Proof.
  intros Hw. pose proof (Middleware_answers r Hw w) as Hm. unfold guarded, bind.
  destruct (Middleware r w) as [[v|e] w1]; destruct Hm as [Hd Hm]; [|by left].
  destruct v as [warning|reason|]; [|by left..]. right. exists w1, warning. split; [done|].
  split; [by destruct Hm as [|[|[= <-]]]|]. destruct (next w1) as [[a|e] w2]; done.
Qed.

(** A request the guard lets through and charges to a subscription found room in it, and one that
    charges a suspended subscription is not let through. *)
Lemma passed_room r rule caller w warning w1 :
  q_rule r = Some rule -> wired rule = true -> q_caller r = Some caller ->
  let s := payer rule (q_id r) (readBody (q_body r)) caller (db w) in
  s <> ""%string -> Middleware r w = (Ok (Passed warning), w1) ->
  (forall l, hard_limit s (r_Dimension rule) (db w) = Some l -> used s (r_Dimension rule) (db w) < l) /\
  ~ suspended s (db w).
Proof.
  intros Hr Hwired Hc s Hs Hm.
  pose proof (Middleware_answers r ltac:(intros ? E; congruence) w) as Ha. rewrite Hm in Ha. destruct Ha as [_ Hv].
  assert (E : Passed warning = verdict_of r (db w)) by (destruct Hv as [|[|[= E]]]; done). clear Hv.
  assert (Hallowed : forall decision, decision_for s (r_Dimension rule) (db w) = Some decision -> Allowed decision = true).
  { unfold verdict_of in E. rewrite Hr, Hc in E. cbv zeta in E. fold s in E. apply String.eqb_neq in Hs. rewrite Hs in E.
    intros decision Hd. rewrite Hd in E. by destruct (Allowed decision). }
  split.
  - intros l Hl. destruct (Z.lt_ge_cases (used s (r_Dimension rule) (db w)) l) as [|Hge]; [done|].
    destruct (refusal _ _ _ _ Hl Hge) as (decision & Hd & Hn). by rewrite (Hallowed _ Hd) in Hn.
  - intros Hsus. destruct (suspended_refusal s (r_Dimension rule) (db w) Hsus) as (decision & Hd & Hn).
    by rewrite (Hallowed _ Hd) in Hn.
Qed.

Lemma Middleware_reads r rule w : q_rule r = Some rule -> wired rule = true -> db (snd (Middleware r w)) = db w.
Proof.
  intros Hr Hw. pose proof (Middleware_answers r ltac:(intros ? E; congruence) w) as Ha.
  by destruct (Middleware r w) as [v w1]; destruct Ha.
Qed.

(** *** Requests at once

    The requests that the guard has let through and whose handlers have not run yet: nothing
    holds the room they were shown. At most [most] of them are under way at a time, and whatever
    else happens adds nothing to the subscription and leaves its limit as it is. *)
Section traffic.
Context (s dimension : string) (most : nat).

Definition charged (r : GuardedRequest) (d : Database) : Prop :=
  exists rule caller, q_rule r = Some rule /\ wired rule = true /\ r_Dimension rule = dimension /\
    q_caller r = Some caller /\ payer rule (q_id r) (readBody (q_body r)) caller d = s.
Definition adds_one (next : World -> World) : Prop := forall w,
  used s dimension (db (next w)) <= used s dimension (db w) + 1 /\
  hard_limit s dimension (db (next w)) = hard_limit s dimension (db w).

Inductive traffic : World * list (World -> World) -> unit -> World * list (World -> World) -> Prop :=
| let_in r next w w' warning under_way : charged r (db w) -> adds_one next -> (length under_way < most)%nat ->
    Middleware r w = (Ok (Passed warning), w') -> traffic (w, under_way) tt (w', next :: under_way)
| turned_away r v w w' under_way : charged r (db w) ->
    Middleware r w = (v, w') -> traffic (w, under_way) tt (w', under_way)
| handled next w before after : traffic (w, before ++ next :: after)%list tt (next w, before ++ after)%list
| elsewhere w w' under_way : used s dimension (db w') <= used s dimension (db w) ->
    hard_limit s dimension (db w') = hard_limit s dimension (db w) -> traffic (w, under_way) tt (w', under_way).

(** C13: requests charged to a subscription take it past the hard limit of its plan and add-ons by
    at most as many as there are under way at a time less one, in whatever order the guard lets
    them through and their handlers run, each of which adds at most one, and whichever calls fail:
    one after another they never take it past. And none is let through while the subscription is
    suspended. *)
Theorem guard_holds_the_limit l w ls w' under_way :
  s <> ""%string -> (0 < most)%nat -> hard_limit s dimension (db w) = Some l ->
  run traffic (w, []) ls (w', under_way) ->
  used s dimension (db w') <= Z.max (l + Z.of_nat most - 1) (used s dimension (db w)) /\
  (forall r warning w2, charged r (db w') -> suspended s (db w') -> Middleware r w' <> (Ok (Passed warning), w2)).
Proof.
  intros Hs Hmost Hl Hrun. split.
  2: { intros r warning w2 (rule & caller & Hr & Hw & Hdim & Hc & Hp) Hsus Hm. 
       destruct (passed_room r rule caller w' warning w2 Hr Hw Hc ltac:(by rewrite Hp) Hm) as [_ Hn]. by rewrite Hp in Hn. }
  set (top := Z.max (l + Z.of_nat most - 1) (used s dimension (db w))).
  assert (Hinv : forall x ls x', run traffic x ls x' ->
    Forall adds_one x.2 /\ (length x.2 <= most)%nat /\ hard_limit s dimension (db x.1) = Some l /\
      used s dimension (db x.1) + Z.of_nat (length x.2) <= top ->
    used s dimension (db x'.1) + Z.of_nat (length x'.2) <= top).
  { induction 1 as [|x [] x1 ls' x' Hstep _ IH]; [tauto|]. intros (Hf & Hlen & Hlim & Hu). apply IH. clear IH.
    destruct Hstep as [r next w0 w1 warning fl (rule & caller & Hr & Hw & Hdim & Hc & Hp) Hn Hfl Hm
      |r v w0 w1 fl (rule & caller & Hr & Hw & Hdim & Hc & Hp) Hm|next w0 before after|w0 w1 fl Hu1 Hl1]; cbn [fst snd] in *.
    - pose proof (Middleware_reads r rule w0 Hr Hw) as Hd. rewrite Hm in Hd. cbn [snd] in Hd. rewrite Hd.
      destruct (passed_room r rule caller w0 warning w1 Hr Hw Hc ltac:(by rewrite Hp) Hm) as [Hroom _].
      rewrite Hp, Hdim in Hroom. specialize (Hroom l Hlim). split_and!; [by constructor|cbn [length]; lia|done|].
      cbn [length]. unfold top. lia.
    - pose proof (Middleware_reads r rule w0 Hr Hw) as Hd. rewrite Hm in Hd. cbn [snd] in Hd. by rewrite Hd.
    - apply Forall_app in Hf as [Hb [Hn Ha]%list.Forall_cons]. rewrite length_app in *. cbn [length] in *.
      destruct (Hn w0) as [Hn1 Hn2]. split_and!; [by apply Forall_app|lia|congruence|lia].
    - split_and!; [done|done|congruence|lia]. }
  specialize (Hinv _ _ _ Hrun). cbn [fst snd length] in Hinv.
  assert (used s dimension (db w') + Z.of_nat (length under_way) <= top); [|lia].
  apply Hinv. split_and!; [constructor|lia|done|unfold top; lia].
Qed.
End traffic.

(** ** What is charged is what is counted *)
Lemma of_website_owned d w caller s : identifier w -> s <> ""%string ->
  bool_decide (of_website w caller d = s) = owned d s (Some w).
Proof.
  intros [Hw Ht] Hs. unfold of_website, subscription_of, owned. apply String.eqb_neq in Hw. rewrite Ht, Hw.
  destruct (websites d !! w) as [x|]; cbn; [|by rewrite bool_decide_false by congruence].
  destruct (SubscriptionID x) as [o|]; cbn; [|by rewrite bool_decide_false by congruence].
  destruct (String.eqb_spec o s); [by rewrite bool_decide_true|by rewrite bool_decide_false].
Qed.

Lemma one_more {A} (p : A -> bool) m i x : ~ is_Some (m !! i) ->
  Z.of_nat (count p (<[i := x]> m)) = Z.of_nat (count p m) + if p x then 1 else 0.
Proof. intros Hm%eq_None_not_Some. rewrite count_insert by done. destruct (p x); lia. Qed.

(** A database, scheduled job, FTP account or mailbox put into a website counts for the
    subscription its request was charged to, and for no other. *)
Theorem charged_where_counted c id qid body caller s d :
  about c qid body d -> ~ taken id c d -> s <> ""%string ->
  used s (dimension_of c) (put id c d) =
    used s (dimension_of c) d +
    if bool_decide (payer (rule_for c) qid body caller d = s) then 1 else 0.
Proof.
  intros Ha Ht Hs. unfold used, payer. destruct c as [w|w|w|md]; cbn in Ha, Ht |- *;
    unfold Used; cbn [dimension_of String.eqb Ascii.eqb Bool.eqb DimensionDatabases].
  1-3: destruct Ha as (-> & Hw); rewrite (of_website_owned d w caller s Hw Hs); by apply (one_more (owned d s)).
  destruct Ha as (-> & [Hmd Htrim] & Hsite). unfold site_of. rewrite Htrim. apply String.eqb_neq in Hmd. rewrite Hmd.
  etrans; [by apply (one_more (fun m => match mail_domains d !! m with Some w => owned d s w | None => false end))|].
  f_equal. destruct (mail_domains d !! md) as [[w|]|] eqn:E; cbn.
  - by rewrite (of_website_owned d w caller s (Hsite w eq_refl) Hs).
  - by rewrite bool_decide_false by congruence.
  - by rewrite bool_decide_false by congruence.
Qed.
End guarded.

(** ** New websites *)
Lemma put_website_used site o s dimension d d' : put_website site o d = Ok (tt, d') ->
  dimension = DimensionWebsites -> used s dimension d' <= used s dimension d + 1.
Proof.
  unfold put_website. intros Hp ->. destruct (websites d !! site) as [x|] eqn:Ex; [|done].
  destruct (match o with Some s => _ | None => _ end); [done|]. injection Hp as <-.
  change (Websites (count_usage s (with_websites (<[site := {| SubscriptionID := o; ParentWebsiteID := ParentWebsiteID x;
    PrimaryDomain := PrimaryDomain x; DocumentRoot := DocumentRoot x |}]> (websites d)) d))
    <= Websites (count_usage s d) + 1). cbn.
  match goal with |- context [count ?p (<[site := ?y]> _)] =>
    pose proof (count_replace p _ site x y Ex); destruct (p x), (p y); lia end.
Qed.

Lemma AssignNewWebsite_puts caller named site w :
  let d' := db (snd (AssignNewWebsite caller named site w)) in
  d' = db w \/ exists o, put_website site o (db w) = Ok (tt, d').
Proof.
  cbv zeta.
  assert (Hput : forall o w1, db w1 = db w -> wp (AssignWebsiteRow site o)
    (fun _ w' => db w' = db w \/ exists o, put_website site o (db w) = Ok (tt, db w'))
    (fun w' => db w' = db w \/ exists o, put_website site o (db w) = Ok (tt, db w')) w1).
  { intros o w1 Hd. unfold AssignWebsiteRow, exec. apply wp_call. intros w0 [Hd0 _]. split; [left; congruence|].
    destruct (put_website site o (db w0)) as [[[] d']|e] eqn:E; cbn; [|left; congruence].
    assert (put_website site o (db w) = Ok (tt, d')) by congruence. split; right; eauto. }
  apply (wp_sound _ (fun w' => db w' = db w \/ exists o, put_website site o (db w) = Ok (tt, db w'))).
  unfold AssignNewWebsite. destruct (negb (named =? "")%string).
  - apply wp_bind, wp_query. intros w0 [Hd _]. split; [by left|]. intros a _. by apply Hput.
  - apply wp_bind, wp_query. intros w0 [Hd _]. split; [by left|]. intros ids _.
    destruct ids; [apply wp_ret; by left|by apply Hput].
Qed.

(** Recording a new website in a subscription adds at most one to anybody's websites. *)
Lemma AssignNewWebsite_adds_one caller named site s w :
  used s DimensionWebsites (db (snd (AssignNewWebsite caller named site w))) <= used s DimensionWebsites (db w) + 1.
Proof.
  destruct (AssignNewWebsite_puts caller named site w) as [->|[o Ho]]; [lia|by eapply put_website_used].
Qed.

Lemma AssignNewWebsite_limit caller named site s dimension w :
  hard_limit s dimension (db (snd (AssignNewWebsite caller named site w))) = hard_limit s dimension (db w).
Proof.
  destruct (AssignNewWebsite_puts caller named site w) as [->|[o Ho]]; [done|]. unfold put_website in Ho.
  destruct (websites (db w) !! site); [|done]. destruct (match o with Some s => _ | None => _ end); [done|].
  by injection Ho as <-.
Qed.

(** A site no subscription is told of. *)
Lemma insert_website_usage id parent domain root s d d' :
  insert_website id parent domain root d = Ok (tt, d') ->
  count_usage s d' = count_usage s d /\ websites d !! id = None /\
  exists row, websites d' = <[id := row]> (websites d) /\ SubscriptionID row = None.
Proof.
  unfold insert_website. destruct (has _ _); [done|]. cbv zeta. set (row := {| SubscriptionID := None |}).
  destruct (websites d !! id) eqn:Eid; [done|]. intros Hi.
  assert (d' = with_websites (<[id := row]> (websites d)) d) as ->.
  { destruct (parent =? "")%string; [congruence|]. destruct (websites d !! parent) as [p|]; [|done].
    case_bool_decide; congruence. }
  split; [|split; [done|by exists row]].
  assert (Hown : forall o, owned (with_websites (<[id := row]> (websites d)) d) s o = owned d s o).
  { intros [w|]; [|done]. unfold owned. cbn. destruct (decide (id = w)) as [<-|Hne].
    - by rewrite lookup_insert_eq, Eid.
    - by rewrite lookup_insert_ne. }
  unfold count_usage. cbn. rewrite !count_insert by done. cbn. f_equal; f_equal; apply count_ext; intros i x _;
    first [apply Hown | destruct (mail_domains d !! x); [apply Hown|done]].
Qed.

Section escapes.
Context `{BodyParser}.

(** The statement that creates a website names no subscription, and for a subdomain nothing
    else does: a subdomain adds to no subscription's count, so the limit on subdomains that the
    guard checks is never reached by creating them, and what is then put into it is charged to
    nobody, so that the guard lets it pass whatever the limits are. *)
Theorem subdomain_outside_every_plan id parent domain root d d' :
  insert_website id parent domain root d = Ok (tt, d') -> identifier id ->
  (forall s dimension, used s dimension d' = used s dimension d) /\
  (forall r rule, q_rule r = Some rule ->
     r_Subject rule = SubjectPathWebsite /\ q_id r = id \/
     r_Subject rule = SubjectBodyWebsite /\ stringField (readBody (q_body r)) "website_id" = id ->
     verdict_of r d' = Passed None).
Proof.
  intros Hi [Hne Ht]. split.
  - intros s dimension. unfold used. by destruct (insert_website_usage _ _ _ _ s _ _ Hi) as [-> _].
  - intros r rule Hr Hsub. destruct (insert_website_usage _ _ _ _ "" _ _ Hi) as (_ & _ & row & Hw & Hrow).
    assert (Hnobody : forall caller, of_website id caller d' = ""%string).
    { intros caller. unfold of_website, subscription_of. apply String.eqb_neq in Hne. rewrite Ht, Hne, Hw.
      rewrite lookup_insert_eq. cbn. by rewrite Hrow. }
    unfold verdict_of, payer. rewrite Hr. destruct (q_caller r) as [caller|]; [|done].
    by destruct Hsub as [[-> ->]|[-> ->]]; rewrite Hnobody.
Qed.

(** A request to create a website that names a subscription that does not exist passes the
    guard unchecked, and the website is then put in no subscription at all: the creation succeeds,
    and it counts for nobody. *)
Theorem unknown_subscription_costs_nothing r caller site w :
  faults w = [] -> q_rule r = Some {| r_Dimension := DimensionWebsites; r_Subject := SubjectBodySubscription |} ->
  q_caller r = Some caller ->
  let named := stringField (readBody (q_body r)) "subscription_id" in
  named <> ""%string -> subscriptions (db w) !! named = None ->
  Middleware r w = (Ok (Passed None), w) /\ AssignNewWebsite caller named site w = (Err ErrNotFound, w).
Proof.
  intros Hf Hr Hc named Hn Hs. apply String.eqb_neq in Hn.
  assert (Hget : GetSubscription named w = (Err ErrNotFound, w)).
  { unfold GetSubscription, query, call. cbn. rewrite Hf. by rewrite Hs. }
  assert (Hcheck : CheckQuota named DimensionWebsites w = (Err ErrNotFound, w)).
  { unfold CheckQuota, bind, rule, answer.
    replace (QuotaDimension DimensionWebsites) with (Ok (E := tenancy_rule_err) tt) by reflexivity.
    replace (is_measured DimensionWebsites) with false by reflexivity. cbv beta iota. by rewrite Hget. }
  split.
  - unfold Middleware, subjectFor. rewrite Hr, Hc. fold named. cbn [r_Subject r_Dimension]. rewrite Hn. cbn [negb].
    unfold bind, attempt, ret. rewrite Hn. by rewrite Hcheck.
  - unfold AssignNewWebsite, bind. rewrite Hn. cbn [negb]. by rewrite Hget.
Qed.
End escapes.

(** ** Examples *)
Module Room.
Import Shop.

(** A parser for bodies of one field. *)
#[local] Instance one_field : BodyParser := {|
  unmarshal s := let '(name, value, found) := cut ":" s in
                 if found then Some {[name := FString value]} else None |}.

Definition request (rule : Rule) (id body : string) : GuardedRequest := {|
  q_rule := Some rule; q_id := id; q_caller := Some "r2"%string; q_body := Some body |}.
Definition site_rule : Rule := {| r_Dimension := DimensionWebsites; r_Subject := SubjectBodySubscription |}.

(** The customer's plan allows two websites, and one is there. Two requests at once for two more
    both find room, and there are three. *)
Definition new_site (domain : string) : Website := {|
  SubscriptionID := None; ParentWebsiteID := None; PrimaryDomain := domain; DocumentRoot := "" |}.
Definition two_made : World :=
  set_db (with_websites (<["x"%string := new_site "x.example"]> (<["y"%string := new_site "y.example"]> (websites (db shop)))) (db shop)) shop.
Definition add_site (site : string) (w : World) : World := snd (AssignNewWebsite "r2" "s2" site w).
Definition two_done : World := add_site "x" (add_site "y" two_made).

Lemma guard_holds_the_limit_witness :
  hard_limit "s2" DimensionWebsites (db two_made) = Some 2 /\ used "s2" DimensionWebsites (db two_made) = 1 /\
  used "s2" DimensionWebsites (db two_done) = 3 /\
  used "s2" DimensionWebsites (db two_done) <= Z.max (2 + 2 - 1) (used "s2" DimensionWebsites (db two_made)).
Proof.
  assert (Hlimit : hard_limit "s2" DimensionWebsites (db two_made) = Some 2) by by vm_compute.
  split; [exact Hlimit|]. split; [by vm_compute|]. split; [by vm_compute|].
  assert (Hadds : forall site, adds_one "s2" DimensionWebsites (add_site site)).
  { intros site w. split; [apply AssignNewWebsite_adds_one|apply AssignNewWebsite_limit]. }
  assert (Hcharged : charged "s2" DimensionWebsites (request site_rule "" "subscription_id:s2") (db two_made)).
  { exists site_rule, "r2"%string. split_and!; [reflexivity..|by vm_compute]. }
  assert (Hpass : Middleware (request site_rule "" "subscription_id:s2") two_made = (Ok (Passed None), two_made)) by by vm_compute.
  set (x := add_site "x"). set (y := add_site "y"). set (r := request site_rule "" "subscription_id:s2") in *.
  pose (T := traffic "s2" DimensionWebsites 2).
  assert (H1 : T (two_made, []) tt (two_made, [x]))
    by exact (let_in _ _ 2 r x two_made two_made None [] Hcharged (Hadds "x"%string) ltac:(cbn; lia) Hpass).
  assert (H2 : T (two_made, [x]) tt (two_made, [y; x]))
    by exact (let_in _ _ 2 r y two_made two_made None [x] Hcharged (Hadds "y"%string) ltac:(cbn; lia) Hpass).
  assert (H3 : T (two_made, [y; x]) tt (y two_made, [x])) by exact (handled _ _ 2 y two_made [] [x]).
  assert (H4 : T (y two_made, [x]) tt (two_done, [])) by exact (handled _ _ 2 x (y two_made) [] []).
  exact (proj1 (guard_holds_the_limit "s2" DimensionWebsites 2 2 two_made [tt; tt; tt; tt] two_done []
    ltac:(discriminate) ltac:(lia) Hlimit
    (run_cons T _ _ _ _ _ H1 (run_cons T _ _ _ _ _ H2 (run_cons T _ _ _ _ _ H3 (run_cons T _ _ _ _ _ H4 (run_nil T _))))))).
Defined.

Lemma charged_where_counted_witness :
  let d := db shop in
  used "s2" DimensionDatabases (put "db1" (NewDatabase "w") d) = used "s2" DimensionDatabases d + 1.
Proof.
  intros d.
  etrans; [apply (charged_where_counted (NewDatabase "w") "db1" ""
    (readBody (Some "website_id:w"%string)) "r2" "s2" d)|].
  - split; [by vm_compute|]. by split.
  - cbn. intros [x Hx]. by vm_compute in Hx.
  - done.
  - by vm_compute.
Defined.

(** A subdomain of the customer's website. *)
Lemma subdomain_outside_every_plan_witness :
  exists d', insert_website "sub" "w" "blog.shop.example" "/srv/blog" (db shop) = Ok (tt, d') /\
    used "s2" DimensionSubdomains d' = 0 /\
    verdict_of (request (rule_for (NewDatabase "sub")) "" "website_id:sub") d' = Passed None.
Proof.
  destruct (insert_website "sub" "w" "blog.shop.example" "/srv/blog" (db shop)) as [[[] d']|e] eqn:E;
    [|by vm_compute in E].
  exists d'. split; [reflexivity|].
  assert (Hid : identifier "sub") by (split; [discriminate|reflexivity]).
  destruct (subdomain_outside_every_plan _ _ _ _ _ _ E Hid) as [Hused Hpass].
  split; [rewrite Hused; by vm_compute|]. eapply Hpass; [reflexivity|]. right. by split.
Defined.

Lemma unknown_subscription_costs_nothing_witness :
  let r := request site_rule "" "subscription_id:nobody" in
  let named := stringField (readBody (q_body r)) "subscription_id" in
  named = "nobody"%string /\
  Middleware r shop = (Ok (Passed None), shop) /\ AssignNewWebsite "r2" named "w" shop = (Err ErrNotFound, shop).
Proof.
  intros r named. assert (Hnamed : named = "nobody"%string) by by vm_compute. split; [exact Hnamed|].
  apply (unknown_subscription_costs_nothing r "r2" "w" shop); fold named; [reflexivity..| |].
  - by rewrite Hnamed.
  - rewrite Hnamed. by vm_compute.
Defined.

(** Past the limit: with two websites in it, a third is refused, and its name is said. *)
Example third_refused :
  let d := with_websites (<["v" := {| SubscriptionID := Some "s2"%string; ParentWebsiteID := None;
    PrimaryDomain := "second.example"; DocumentRoot := "" |}]> (websites (db shop))) (db shop) in
  verdict_of (request site_rule "" "subscription_id:s2") d
    = Refused "this subscription's plan allows 2 websites and 2 are in use".
Proof. by vm_compute. Qed.
End Room.
