(* ===== verification/UsageMeter.v ===== *)
(** * Measured usage ([api/internal/tenancy/sampler.go], [repository.go])

    What the sampler writes down about a subscription's disk and traffic: one measurement after
    another accumulates into a monthly total, across rotations of the access log. *)

From stdpp Require Import gmap.
From S2P Require Import Prelude Store GoStr.

#[local] Open Scope Z_scope.

(** ** The month a measurement belongs to *)
Definition leap (year : Z) : bool :=
  (year mod 4 =? 0) && (negb (year mod 100 =? 0) || (year mod 400 =? 0)).
Definition month_lengths (year : Z) : list Z :=
  [31; if leap year then 29 else 28; 31; 30; 31; 30; 31; 31; 30; 31; 30; 31].

(** The months of the four hundred years after which the calendar repeats. *)
Definition cycle : list Z := concat (map (fun n => month_lengths (Z.of_nat n)) (seq 1 400)).
Definition cycle_days : Z := 146097.
Definition day_seconds : Z := 86400.
(** 1 January 1970, in days after 1 January of the year 1. *)
Definition epoch_day : Z := 719162.

(** How far into its month a day is. *)
Fixpoint day_in_month (months : list Z) (day : Z) : Z :=
  match months with
  | [] => 0
  | l :: months => if day <? l then day else day_in_month months (day - l)
  end.

(** Seconds since 1970, in UTC. *)
Definition periodStart (now : Z) : Z :=
  let day := now / day_seconds + epoch_day in
  (day - day_in_month cycle (day mod cycle_days) - epoch_day) * day_seconds.

(** ** Rows and measurements *)
Record UsageRow := {
  PeriodStart : Z; DiskBytes : option Z; BandwidthBytes : option Z; BandwidthRawBytes : option Z;
  MeasuredAt : Z; MeasureError : string;
}.

Record RecordUsageParams := {
  ru_PeriodStart : Z; ru_DiskBytes : option Z; ru_RawBandwidth : option Z; ru_Error : string;
}.

(** The upsert of [RecordUsage] on the row that is there. *)
Definition record_usage (p : RecordUsageParams) (now : Z) (row : option UsageRow) : UsageRow :=
  match row with
  | None => {|
      PeriodStart := ru_PeriodStart p; DiskBytes := ru_DiskBytes p;
      BandwidthBytes := Some (default 0 (ru_RawBandwidth p)); BandwidthRawBytes := ru_RawBandwidth p;
      MeasuredAt := now; MeasureError := ru_Error p |}
  | Some r =>
      let bandwidth :=
        if PeriodStart r <? ru_PeriodStart p then Some (default 0 (ru_RawBandwidth p))
        else
          match ru_RawBandwidth p, BandwidthRawBytes r with
          | None, _ => BandwidthBytes r
          | Some raw, None => Some raw
          | Some raw, Some last =>
              if last <=? raw then Some (default 0 (BandwidthBytes r) + raw - last)
              else Some (default 0 (BandwidthBytes r) + raw)
          end in {|
      PeriodStart := ru_PeriodStart p; DiskBytes := ru_DiskBytes p; BandwidthBytes := bandwidth;
      BandwidthRawBytes := match ru_RawBandwidth p with Some _ => ru_RawBandwidth p | None => BandwidthRawBytes r end;
      MeasuredAt := now; MeasureError := ru_Error p |}
  end.

(** What the host answers about the document roots of a subscription. *)
Record TenantUsage := { tu_DiskBytes : option Z; tu_BandwidthBytes : option Z; tu_Partial : bool }.

Definition floor_message : string :=
  "some of this subscription's websites could not be measured, so these figures are a floor".

(** What [sampleOne] writes down; [answer] is what the host would say if asked. *)
Definition sample (roots : list string) (answer : result string TenantUsage) (period : Z) : RecordUsageParams :=
  match roots, answer with
  | [], _ => {| ru_PeriodStart := period; ru_DiskBytes := Some 0; ru_RawBandwidth := Some 0; ru_Error := "" |}
  | _, Err message => {|
      ru_PeriodStart := period; ru_DiskBytes := None; ru_RawBandwidth := None; ru_Error := message |}
  | _, Ok usage => {|
      ru_PeriodStart := period; ru_DiskBytes := tu_DiskBytes usage; ru_RawBandwidth := tu_BandwidthBytes usage;
      ru_Error := if tu_Partial usage then floor_message else "" |}
  end.

(** ** The sampler *)
Inductive sample_err := ErrBackend.
Record World := {
  usages : gmap string UsageRow;
  roots_of : list (string * list string);     (** every subscription, with its document roots *)
  has_agent : bool;
  host : list (result string TenantUsage);    (** the answers to come *)
  now : Z;
  faults : list fault;
}.
Definition set_usages (m : gmap string UsageRow) (w : World) : World := {|
  usages := m; roots_of := roots_of w; has_agent := has_agent w; host := host w; now := now w;
  faults := faults w |}.
Definition set_host (h : list (result string TenantUsage)) (w : World) : World := {|
  usages := usages w; roots_of := roots_of w; has_agent := has_agent w; host := h; now := now w;
  faults := faults w |}.
#[global] Instance World_faulty : Faulty World := {
  faults_of := faults;
  with_faults fs w := {|
    usages := usages w; roots_of := roots_of w; has_agent := has_agent w; host := host w; now := now w;
    faults := fs |} }.

Local Abbreviation M := (Store.M World sample_err).
#[local] Open Scope store_scope.

Definition RecordUsage (id : string) (p : RecordUsageParams) : M unit :=
  call ErrBackend (fun w =>
    (Ok tt, set_usages (<[id := record_usage p (now w) (usages w !! id)]> (usages w)) w)).

(** [TenantUsageOf]. *)
Definition TenantUsageOf (roots : list string) : M (result string TenantUsage) :=
  fun w => match host w with
           | [] => (Ok (Err "no answer"%string), w)
           | a :: rest => (Ok a, set_host rest w)
           end.

(** What cannot be recorded is only logged. *)
Definition sampleOne (id : string) (roots : list string) (period : Z) : M unit :=
  match roots with
  | [] => let! _ := attempt (RecordUsage id (sample [] (Err ""%string) period)) in ret tt
  | _ =>
      let! answer := TenantUsageOf roots in
      let! _ := attempt (RecordUsage id (sample roots answer period)) in ret tt
  end.

Fixpoint sample_each (l : list (string * list string)) (period : Z) : M unit :=
  match l with
  | [] => ret tt
  | (id, roots) :: l => sampleOne id roots period ;! sample_each l period
  end.

Definition SampleAll : M unit :=
  let! agent := get has_agent in
  if negb agent then ret tt
  else
    let! l := query ErrBackend (fun w => Ok (roots_of w)) in
    let! t := get now in
    sample_each l (periodStart t).

(** ** The calendar *)
Example feb_29 : periodStart 1709208000 = 1706745600.  (* 2024-02-29 12:00 -> 2024-02-01 *)
Proof. by vm_compute. Qed.
Example year_1969 : periodStart (-1) = -2678400.       (* 1969-12-31 -> 1969-12-01 *)
Proof. by vm_compute. Qed.

Lemma day_in_month_bounds months : Forall (fun l => 0 < l <= 31) months -> forall day,
  0 <= day < foldr Z.add 0 months ->
  0 <= day_in_month months day <= day /\ day_in_month months day < 31 /\
  day_in_month months (day - day_in_month months day) = 0.
Proof.
  induction 1 as [|l months Hl _ IH]; intros day Hd; cbn [foldr day_in_month] in *; [lia|].
  destruct (Z.ltb_spec day l) as [Hlt|Hge].
  - rewrite Z.sub_diag. destruct (Z.ltb_spec 0 l); lia.
  - destruct (IH (day - l)) as (H0 & H31 & Hz); [lia|].
    destruct (Z.ltb_spec (day - day_in_month months (day - l)) l); [lia|].
    replace (day - day_in_month months (day - l) - l) with (day - l - day_in_month months (day - l)) by lia.
    lia.
Qed.

Lemma cycle_fits : Forall (fun l => 0 < l <= 31) cycle /\ foldr Z.add 0 cycle = cycle_days.
Proof.
  split; [|by vm_compute]. apply list.Forall_forall. intros l Hl.
  assert (Hb : forallb (fun l => (0 <? l) && (l <=? 31)) cycle = true) by by vm_compute.
  rewrite forallb_elem in Hb. specialize (Hb l Hl). bool_hyps. lia.
Qed.

(** A measurement's period is the start of a day at most thirty days back, and the start of a
    period is its own: a month has one period however often it is measured. *)
Theorem periodStart_settles now :
  periodStart now <= now < periodStart now + 31 * day_seconds /\ periodStart (periodStart now) = periodStart now.
Proof.
  unfold periodStart. set (day := now / day_seconds + epoch_day).
  destruct cycle_fits as [Hl Hsum].
  pose proof (Z.mod_pos_bound day cycle_days ltac:(done)) as Hm.
  destruct (day_in_month_bounds cycle Hl (day mod cycle_days)) as ([H0 Hle] & H31 & Hz); [by rewrite Hsum|].
  set (r := day_in_month cycle (day mod cycle_days)) in *.
  pose proof (Z.div_mod now day_seconds ltac:(done)) as Hn.
  pose proof (Z.mod_pos_bound now day_seconds ltac:(done)) as Hs.
  assert (Hday : (day - r - epoch_day) * day_seconds / day_seconds + epoch_day = day - r).
  { rewrite Z.div_mul by done. lia. }
  split.
  - unfold day, day_seconds in *. lia.
  - rewrite Hday. f_equal. f_equal.
    assert (Hmod : (day - r) mod cycle_days = day mod cycle_days - r).
    { symmetry. apply (Z.mod_unique_pos _ _ (day / cycle_days)); [lia|].
      pose proof (Z.div_mod day cycle_days ltac:(done)). lia. }
    rewrite Hmod, Hz. lia.
Qed.

(** ** One access log, from one measurement to the next *)
Inductive happening :=
| Served (bytes : Z)   (** a response, which the log says *)
| Rotated              (** the log starts over *)
| Measured             (** a measurement that reads the log *)
| Missed (why : string).  (** one that fails *)

Record Site := { log : Z; served : Z; row : option UsageRow }.

Definition note (period t : Z) (answer : result string TenantUsage) (s : Site) : Site := {|
  log := log s; served := served s; row := Some (record_usage (sample ["/srv/site"%string] answer period) t (row s)) |}.

Definition happen (period t : Z) (s : Site) (h : happening) : Site :=
  match h with
  | Served n => {| log := log s + n; served := served s + n; row := row s |}
  | Rotated => {| log := 0; served := served s; row := row s |}
  | Measured =>
      note period t (Ok {| tu_DiskBytes := None; tu_BandwidthBytes := Some (log s); tu_Partial := false |}) s
  | Missed why => note period t (Err why) s
  end.

(** What is counted, and what the log has grown by since. *)
Definition counting (period b0 served0 : Z) (rotated : Prop) (s : Site) : Prop :=
  exists r b raw since, row s = Some r /\ PeriodStart r = period /\ BandwidthBytes r = Some b /\
    BandwidthRawBytes r = Some raw /\ 0 <= log s /\ 0 <= raw /\ 0 <= since /\
    b0 <= b /\ b + since <= b0 + (served s - served0) /\ (log s <= since \/ log s = raw + since) /\
    (~ rotated -> log s = raw + since /\ b + since = b0 + (served s - served0)).

Ltac meter Hex := repeat split; try done; try lia; (destruct Hex; [tauto|lia]).

Lemma happen_counting period t b0 served0 rotated s h :
  counting period b0 served0 rotated s -> (forall n, h = Served n -> 0 <= n) ->
  counting period b0 served0 (rotated \/ h = Rotated) (happen period t s h).
Proof.
  intros (r & b & raw & since & Hr & Hp & Hb & Hraw & Hlog & Hraw0 & Hs & Hb0 & Hle & Hor & Hex) Hn.
  destruct h as [n| | |why]; unfold counting, note; cbn [happen log served row].
  - specialize (Hn n eq_refl). exists r, b, raw, (since + n). meter Hex.
  - exists r, b, raw, since. repeat split; try done; try lia; exfalso; naive_solver.
  - eexists _, (if raw <=? log s then b + log s - raw else b + log s), (log s), 0.
    split; [done|]. unfold record_usage. rewrite Hr. cbn. rewrite Hp, Hb, Hraw. cbn.
    destruct (Z.ltb_spec period period); [lia|]. destruct (Z.leb_spec raw (log s)); meter Hex.
  - eexists _, b, raw, since. split; [done|]. unfold record_usage. rewrite Hr. cbn. rewrite Hp, Hb, Hraw.
    destruct (Z.ltb_spec period period); [lia|]. meter Hex.
Qed.

Lemma happens_counting period t b0 served0 hs : forall rotated s,
  counting period b0 served0 rotated s -> (forall n, Served n ∈ hs -> 0 <= n) ->
  counting period b0 served0 (rotated \/ Rotated ∈ hs) (fold_left (happen period t) hs s).
Proof.
  induction hs as [|h hs IH]; intros rotated s Hc Hn.
  - destruct Hc as (r & b & raw & since & Hc). exists r, b, raw, since. cbn. set_solver.
  - cbn [fold_left]. assert (Hc' := happen_counting period t b0 served0 rotated s h Hc ltac:(intros n ->; apply Hn; by left)).
    destruct (IH _ _ Hc' ltac:(intros n Hin; apply Hn; by right)) as (r & b & raw & since & Hall).
    exists r, b, raw, since. destruct Hall as (? & ? & ? & ? & ? & ? & ? & ? & ? & ? & Hex). repeat split; try done; try lia.
    all: apply Hex; set_solver.
Qed.

(** Within a period, from a measurement of a website on, the traffic counted never falls and
    never exceeds what was counted then plus what the website has served since, however the log is
    rotated and whichever measurements fail; and without a rotation what the next measurement counts
    is exactly that. *)
Theorem meter_never_overcounts period t r b0 s hs :
  row s = Some r -> PeriodStart r = period -> BandwidthBytes r = Some b0 -> BandwidthRawBytes r = Some (log s) ->
  0 <= log s -> (forall n, Served n ∈ hs -> 0 <= n) ->
  let s' := fold_left (happen period t) hs s in
  exists r' b, row s' = Some r' /\ BandwidthBytes r' = Some b /\ b0 <= b <= b0 + (served s' - served s) /\
    (Rotated ∉ hs -> exists r'', row (happen period t s' Measured) = Some r'' /\
       BandwidthBytes r'' = Some (b0 + (served s' - served s))).
Proof.
  intros Hr Hp Hb Hraw Hlog Hn s'.
  assert (Hc : counting period b0 (served s) False s).
  { exists r, b0, (log s), 0. repeat split; try done; try lia. }
  pose proof (happens_counting period t b0 (served s) hs False s Hc Hn) as Hc'. fold s' in Hc'.
  destruct (Hc') as (r' & b & raw & since & Hr' & Hp' & Hb' & Hraw' & ? & ? & ? & ? & ? & ? & Hex).
  exists r', b. split; [done|]. split; [done|]. split; [lia|]. intros Hnot.
  eexists. split; [done|]. unfold record_usage. cbn. rewrite Hr'. cbn. rewrite Hp', Hb', Hraw'. cbn.
  destruct (Z.ltb_spec period period); [lia|]. destruct Hex as [Hl Hsum]; [tauto|].
  destruct (Z.leb_spec raw (log s')); [f_equal; lia|lia].
Qed.

(** ** Examples *)
Module January.
Definition first_row : UsageRow :=
  record_usage (sample ["/srv/site"%string]
    (Ok {| tu_DiskBytes := Some 4096; tu_BandwidthBytes := Some 1000; tu_Partial := false |}) 0) 10 None.
Definition site : Site := {| log := 1000; served := 1000; row := Some first_row |}.

Lemma meter_never_overcounts_witness :
  let hs := [Served 200; Measured; Missed "busy"; Rotated; Served 50; Measured] in
  let s' := fold_left (happen 0 20) hs site in
  exists r' b, row s' = Some r' /\ BandwidthBytes r' = Some b /\ 1000 <= b <= 1000 + 250.
Proof.
  intros hs s'. assert (Hpos : forall n, Served n ∈ hs -> 0 <= n).
  { intros n Hn. unfold hs in Hn. apply list_elem_of_In in Hn. cbn in Hn.
    repeat destruct Hn as [Hn|Hn]; first [done | by injection Hn as <-]. }
  destruct (meter_never_overcounts 0 20 first_row 1000 site hs) as (r' & b & Hr & Hb & Hle & _);
    try done; try (by vm_compute).
  exists r', b. done.
Defined.

(** A measurement that fails forgets the disk figure, and counts as the latest one. *)
Example failed_measurement :
  let r := record_usage (sample ["/srv/site"%string] (Err "no route"%string) 0) 20 (Some first_row) in
  DiskBytes r = None /\ MeasuredAt r = 20 /\ BandwidthBytes r = Some 1000.
Proof. by vm_compute. Qed.

(** The first measurement of a month counts what the log held before it. *)
Example february : row (happen 2678400 2678400 site Measured) <> None /\
  (r ← row (happen 2678400 2678400 site Measured); BandwidthBytes r) = Some 1000.
Proof. by vm_compute. Qed.

(** Of two websites of a subscription one log starts over, and the other's traffic is counted again. *)
Example counted_twice :
  let reading n := sample ["/srv/a"; "/srv/b"]%string
    (Ok {| tu_DiskBytes := None; tu_BandwidthBytes := Some n; tu_Partial := false |}) 0 in
  BandwidthBytes (record_usage (reading (1000 + 0)) 20 (Some (record_usage (reading (1000 + 500)) 10 None)))
    = Some (1500 + 1000).
Proof. by vm_compute. Qed.
End January.
