(* ===== verification/HostTenancy.v ===== *)
(** * Limits and measurements on the host ([agent/internal/tenancy])

    The systemd slice of a subscription, and what its websites use: the unit the Agent renders, what
    it does with it on a host with and without systemd, and how it reads [du] and an access log. *)

From stdpp Require Import gmap.
From S2P Require Import Prelude Store GoStr TenancyRules Quota Tenants.

#[local] Open Scope Z_scope.

(** ** The unit ([isolation.go]) *)
Definition StateNone : string := "none".
Definition StateApplied : string := "applied".
Definition StateDeclared : string := "declared".
Definition StateFailed : string := "failed".

Definition Empty (l : Caps) : bool :=
  match CPUPercent l, MemoryMB l, IOWeight l with None, None, None => true | _, _, _ => false end.

(** A directive with the comment the template puts over it. *)
Definition directive (comment : list string) (key : string) (value : option string) : list string :=
  match value with None => [] | Some v => (comment ++ [(key ++ "=" ++ v)%string])%list end.

(** [sliceTemplate]. *)
Definition slice_lines (description : string) (l : Caps) : list string := (([
    "# Managed by JotHost Panel. Manual edits are overwritten.";
    "[Unit]";
    ("Description=JotHost subscription " ++ description)%string;
    "Documentation=https://github.com/thetoui/jothost";
    "Before=slices.target";
    "";
    "[Slice]" ]%string : list string) ++
  directive [
    "# A percentage of one core. Above 100% means more than one core, which is a";
    "# meaningful setting rather than a mistake on a multi-core host." ]%string
    "CPUQuota" ((fun v => itoa v ++ "%")%string <$> CPUPercent l) ++
  directive [
    "# A ceiling, not a reservation. Processes in this slice are killed when they";
    "# exceed it, which is why the panel refuses a cap small enough to kill";
    "# everything that starts." ]%string
    "MemoryMax" ((fun v => itoa v ++ "M")%string <$> MemoryMB l) ++
  directive [
    "# A share of the disk under contention, not a cap. A subscription alone on an";
    "# idle host still gets all of it." ]%string
    "IOWeight" (itoa <$> IOWeight l))%list.

Definition RenderSlice (name description : string) (l : Caps) : result tenancy_rule_err string :=
  let? _ := SliceName name in
  let? _ := Isolation (CPUPercent l) (MemoryMB l) (IOWeight l) in
  let? _ := PlanName description in
  Ok (unlines (slice_lines description l)).

(** ** The host *)
Record Host := {
  files : gmap string string;
  systemd : bool;                   (** driven by systemd, and by nothing else *)
  reloads : list (option string);   (** what re-reading the units will say: nothing, or what is wrong *)
  reloaded : nat;
  h_faults : list fault;
}.
Definition set_files (m : gmap string string) (h : Host) : Host := {|
  files := m; systemd := systemd h; reloads := reloads h; reloaded := reloaded h; h_faults := h_faults h |}.
Definition set_reloads (l : list (option string)) (h : Host) : Host := {|
  files := files h; systemd := systemd h; reloads := l; reloaded := S (reloaded h); h_faults := h_faults h |}.
#[global] Instance Host_faulty : Faulty Host := {
  faults_of := h_faults;
  with_faults fs h := {| files := files h; systemd := systemd h; reloads := reloads h; reloaded := reloaded h;
                         h_faults := fs |} }.

Inductive host_err := RuleErr (e : tenancy_rule_err) | FileErr.
Local Abbreviation M := (Store.M Host host_err).
#[local] Open Scope store_scope.

Definition checked {A} (r : result tenancy_rule_err A) : M A :=
  answer (match r with Ok a => Ok a | Err e => Err (RuleErr e) end).

(** [os.Remove], which says whether there was a file. *)
Definition remove (path : string) : M bool :=
  call FileErr (fun h => match files h !! path with
                         | Some _ => (Ok true, set_files (delete path (files h)) h)
                         | None => (Ok false, h)
                         end).
Definition write_file (path content : string) : M unit :=
  call FileErr (fun h => (Ok tt, set_files (<[path := content]> (files h)) h)).

(** [DaemonReload]: nothing, or what went wrong. *)
Definition DaemonReload : M (option string) :=
  fun h => match reloads h with
           | [] => (Ok None, set_reloads [] h)
           | o :: rest => (Ok o, set_reloads rest h)
           end.

Record IsolationResult := { i_Slice : string; i_State : string; i_Detail : string; i_UnitPath : string }.

Definition ErrNoSystemd : string := "this host does not run systemd, so a resource limit cannot be applied".

(** A reload that fails after the file is gone is only logged. *)
Definition removeUnit (path : string) : M unit :=
  let! was := remove path in
  if negb was then ret tt
  else
    let! s := get systemd in
    if s : bool then let! _ := DaemonReload in ret tt else ret tt.

Section provider.
Context (unitDir : string).

Definition ApplyIsolation (name description : string) (l : Caps) : M IsolationResult :=
  checked (SliceName name) ;!
  let path := fp_join [unitDir; name] in
  let answer state detail := {| i_Slice := name; i_State := state; i_Detail := detail; i_UnitPath := path |} in
  if Empty l
  then
    removeUnit path ;!
    ret (answer StateNone "this subscription has no resource limits, so it has no slice"%string)
  else
    let! unit := checked (RenderSlice name description l) in
    write_file path unit ;!
    let! s := get systemd in
    if negb s
    then ret (answer StateDeclared (ErrNoSystemd ++
           "; the limits are recorded and will apply if this host gains systemd")%string)
    else
      let! wrong := DaemonReload in
      match wrong with
      | Some e => ret (answer StateFailed ("systemd would not re-read its units: " ++ e)%string)
      | None => ret (answer StateApplied "the slice is installed and systemd has read it"%string)
      end.

Definition RemoveIsolation (name : string) : M IsolationResult :=
  checked (SliceName name) ;!
  let path := fp_join [unitDir; name] in
  removeUnit path ;!
  ret {| i_Slice := name; i_State := StateNone; i_Detail := "the slice has been removed"; i_UnitPath := path |}.

Definition IsolationStatus : M (bool * string) :=
  let! s := get systemd in
  ret (if s : bool then (true, ""%string) else (false, ErrNoSystemd)).
End provider.

(** ** Usage ([usage.go]) *)

(** The first line with something on it, over all candidates. *)
Fixpoint first_said (lines : list string) : option string :=
  match lines with
  | [] => None
  | line :: lines => let trimmed := trim_space line in
                     if (trimmed =? "")%string then first_said lines else Some trimmed
  end.
Definition firstLine (candidates : list string) : string :=
  default ""%string (first_said (concat (map (split LF) candidates))).

(** The first run of characters that are neither space nor tab. *)
Definition first_field (s : string) : option string :=
  let t := trim_left_set (String " " (String "009" "")) s in
  if (t =? "")%string then None
  else let '(a, _, _) := cut " " t in let '(b, _, _) := cut "009" a in Some b.

Definition parseDu (out : string) : option Z :=
  let line := firstLine [out] in
  if (line =? "")%string then None
  else
    field ← first_field line;
    kb ← atoi field;
    if kb <? 0 then None else Some kb.

Definition quote : ascii := "034".

(** The size of one response, [None] for a line that is skipped. *)
Definition bodyBytes (line : string) : option Z :=
  let '(_, after, opened) := cut quote line in
  if negb opened then None
  else
    let '(_, rest, closed) := cut quote after in
    if negb closed then None
    else
      match fields rest with
      | _ :: size :: _ =>
          if (size =? "-")%string then Some 0
          else v ← atoi size; if v <? 0 then None else Some v
      | _ => None
      end.

(** [logBytes] over the lines of a log that is read whole. *)
Definition logBytes (lines : list string) : Z :=
  fold_left (fun total line => total + default 0 (bodyBytes line)) lines 0.

(** One website, as it was measured. *)
Record SiteUsage := {
  s_DiskBytes : option Z; s_BandwidthBytes : option Z; s_LogTruncated : bool; s_Error : string;
}.
Record UsageResult := { r_DiskBytes : option Z; r_BandwidthBytes : option Z; r_Partial : bool }.

Definition plus (total : option Z) (o : option Z) : option Z :=
  match o with Some v => Some (default 0 total + v) | None => total end.

(** The totals of [Usage] over the sites it measured. *)
Definition totals (sites : list SiteUsage) : UsageResult :=
  fold_left (fun r s => {|
    r_DiskBytes := plus (r_DiskBytes r) (s_DiskBytes s);
    r_BandwidthBytes := plus (r_BandwidthBytes r) (s_BandwidthBytes s);
    r_Partial := r_Partial r || negb (s_Error s =? "")%string ||
                 bool_decide (s_DiskBytes s = None) || bool_decide (s_BandwidthBytes s = None) |})
    sites {| r_DiskBytes := None; r_BandwidthBytes := None; r_Partial := false |}.

(** ** Requests ([agent/internal/operations/tenancy.go]) *)
Inductive handled := Answered (r : IsolationResult) | InvalidPayload | Internal.

Definition handleTenantIsolationApply (unitDir : string) (slice description : string) (l : Caps) : M handled :=
  if negb (is_ok (SliceName slice)) then ret InvalidPayload
  else if negb (is_ok (Isolation (CPUPercent l) (MemoryMB l) (IOWeight l))) then ret InvalidPayload
  else if negb (is_ok (PlanName description)) then ret InvalidPayload
  else
    let! r := attempt (ApplyIsolation unitDir slice description l) in
    ret (match r with Ok r => Answered r | Err _ => Internal end).

Definition handleTenantIsolationRemove (unitDir slice : string) : M handled :=
  if negb (is_ok (SliceName slice)) then ret InvalidPayload
  else
    let! r := attempt (RemoveIsolation unitDir slice) in
    ret (match r with Ok r => Answered r | Err _ => Internal end).

Definition maxUsageSites : nat := 500.
(** What [handleTenantUsage] accepts. *)
Definition usage_payload_ok (roots : list string) : bool :=
  (length roots <=? maxUsageSites)%nat && forallb (has_prefix "/") roots.

(** ** What systemd reads

    A line that ends in a backslash goes on with the next one; comments and blank lines are
    skipped; a line in brackets opens a section. *)
Definition backslash : string := "\".

Fixpoint continued (cur : string) (lines : list string) : list string :=
  match lines with
  | [] => if (cur =? "")%string then [] else [cur]
  | l :: lines =>
      match trim_suffix_opt backslash l with
      | Some l => continued (cur ++ l ++ " ")%string lines
      | None => (cur ++ l)%string :: continued "" lines
      end
  end.

Fixpoint in_sections (section : string) (lines : list string) : list (string * string) :=
  match lines with
  | [] => []
  | l :: lines =>
      if (l =? "")%string || has_prefix "#" l || has_prefix ";" l then in_sections section lines
      else if has_prefix "[" l then in_sections l lines
      else (section, l) :: in_sections section lines
  end.

Definition directives (unit : string) : list (string * string) :=
  in_sections "" (continued "" (split LF unit)).

(** What limits come to as directives. *)
Definition limit_directives (l : Caps) : list (string * string) :=
  let put key value := match value with Some v => [("[Slice]"%string, (key ++ "=" ++ v)%string)] | None => [] end in
  (put "CPUQuota"%string ((fun v => itoa v ++ "%")%string <$> CPUPercent l) ++
   put "MemoryMax"%string ((fun v => itoa v ++ "M")%string <$> MemoryMB l) ++
   put "IOWeight"%string (itoa <$> IOWeight l))%list.

Lemma no_suffix p s : str_forall (fun a => negb (Ascii.eqb a p)) s = true -> trim_suffix_opt (String p "") s = None.
Proof.
  induction s as [|a s IH]; [done|]. cbn [str_forall trim_suffix_opt]. intros [Ha Hs]%andb_true_iff.
  rewrite IH by done. destruct (String.eqb_spec (String p "") (String a s)) as [E|]; [|done].
  injection E as -> _. by rewrite Ascii.eqb_refl in Ha.
Qed.

Lemma no_suffix_app p s t : t <> ""%string -> trim_suffix_opt (String p "") t = None ->
  trim_suffix_opt (String p "") (s ++ t) = None.
Proof.
  intros Ht Hn. induction s as [|a s IH]; [done|]. cbn [trim_suffix_opt String.append]. rewrite IH.
  destruct (String.eqb_spec (String p "") (String a (s ++ t))) as [E|]; [|done].
  injection E as _ E. by destruct s; cbn in E; [destruct t|].
Qed.

(** A plain line is one line. *)
Lemma continued_plain l lines : trim_suffix_opt backslash l = None -> continued "" (l :: lines) = l :: continued "" lines.
Proof. intros Hl. cbn. by rewrite Hl. Qed.

Definition plain (l : string) : Prop := one_line l /\ trim_suffix_opt backslash l = None.

Lemma directives_unlines l : Forall plain l -> directives (unlines l) = in_sections "" l.
Proof.
  intros Hl. unfold directives. rewrite split_unlines.
  2:{ eapply list.Forall_impl; [exact Hl|]. by intros x [Hx _]. }
  assert (Hc : continued "" (l ++ [""])%list = (l ++ [""])%list).
  { induction Hl as [|x l [_ Hx] Hl IH]; [done|]. cbn [app]. by rewrite continued_plain, IH. }
  rewrite Hc. clear. generalize ""%string at 1 3 as section. induction l as [|x l IH]; intros section; [done|].
  cbn [app in_sections]. by rewrite !IH.
Qed.

(** The line of a directive whose value is made of plain characters. *)
Definition word_char (a : ascii) : bool := negb (Ascii.eqb a "\") && negb (Ascii.eqb a LF).

Lemma plain_word s : str_forall word_char s = true -> plain s.
Proof.
  intros Hs. split.
  - by apply (contains_char_forall LF word_char).
  - apply no_suffix. eapply str_forall_impl; [|exact Hs]. by intros a [Ha _]%andb_true_iff.
Qed.

Lemma itoa_word z : str_forall word_char (itoa z) = true.
Proof.
  apply itoa_forall; [|done]. intros a Ha. unfold word_char. destruct (Ascii.eqb_spec a "\") as [->|]; [done|].
  by destruct (Ascii.eqb_spec a LF) as [->|].
Qed.

Ltac plain_lines :=
  repeat (apply list.Forall_cons; split); first [by apply plain_word | by apply list.Forall_nil | idtac].

Lemma plain_directive comment key value : Forall plain comment ->
  (forall v, value = Some v -> str_forall word_char (key ++ "=" ++ v)%string = true) ->
  Forall plain (directive comment key value).
Proof.
  intros Hc Hv. destruct value as [v|]; [|constructor]. apply Forall_app. split; [done|].
  apply list.Forall_singleton. by apply plain_word, Hv.
Qed.

Lemma plain_description description : PlanName description = Ok tt -> trim_space description = description ->
  has_suffix backslash description = false ->
  plain ("Description=JotHost subscription " ++ description)%string.
Proof.
  unfold PlanName, boundedName. intros Hn Ht Hb. rewrite Ht in Hn.
  destruct (String.eqb_spec description ""); [done|]. destruct (_ <? _)%nat; [done|].
  destruct (str_exists control description) eqn:Ec; [done|]. split.
  - unfold one_line. rewrite contains_char_app. apply orb_false_iff. split; [done|].
    rewrite str_exists_negb in Ec. apply negb_false_iff in Ec. by eapply contains_char_forall.
  - apply no_suffix_app; [done|]. clear -Hb. unfold backslash in *.
    induction description as [|a description IH]; [done|]. cbn [has_suffix trim_suffix_opt] in *.
    apply orb_false_iff in Hb as [Ha Hb]. by rewrite Ha, IH.
Qed.

Lemma slice_lines_plain description l : PlanName description = Ok tt -> trim_space description = description ->
  has_suffix backslash description = false -> Forall plain (slice_lines description l).
Proof.
  intros Hn Ht Hb. unfold slice_lines. rewrite !Forall_app. split; [|split; [|split]].
  - plain_lines. by apply plain_description.
  - apply plain_directive; [plain_lines|]. intros v.
    destruct (CPUPercent l); intros [= <-]. by rewrite !str_forall_app, itoa_word.
  - apply plain_directive; [plain_lines|]. intros v.
    destruct (MemoryMB l); intros [= <-]. by rewrite !str_forall_app, itoa_word.
  - apply plain_directive; [plain_lines|]. intros v.
    destruct (IOWeight l); intros [= <-]. by rewrite !str_forall_app, itoa_word.
Qed.

(** The unit rendered for a subscription says to systemd what its limits are, and nothing else:
    besides the description, the documentation and the ordering, one directive per limit that is
    set, with its number, in the [Slice] section; as long as the name of the subscription has no
    blanks around it, as the panel stores it, and does not end in a backslash. *)
Theorem RenderSlice_directives name description l unit :
  RenderSlice name description l = Ok unit -> trim_space description = description ->
  has_suffix backslash description = false ->
  directives unit = ([("[Unit]", "Description=JotHost subscription " ++ description);
                      ("[Unit]", "Documentation=https://github.com/thetoui/jothost");
                      ("[Unit]", "Before=slices.target")]%string ++ limit_directives l)%list.
Proof.
  unfold RenderSlice. intros Hr Ht Hb. apply rbind_ok in Hr as ([] & _ & Hr).
  apply rbind_ok in Hr as ([] & _ & Hr). apply rbind_ok in Hr as ([] & Hn & Hr).
  assert (unit = unlines (slice_lines description l)) as -> by congruence.
  rewrite directives_unlines by (by apply slice_lines_plain). unfold slice_lines, limit_directives, directive.
  destruct (CPUPercent l) as [c|], (MemoryMB l) as [m|], (IOWeight l) as [i|]; cbn [fmap option_fmap option_map];
    repeat match goal with |- context [itoa ?z] => generalize (itoa z); intros end; reflexivity.
Qed.

(** ** What a unit on disk means *)
#[global] Instance Host_quiet : Quiet Host.
Proof.
  refine {| same h h' := files h' = files h /\ systemd h' = systemd h /\ reloads h' = reloads h |}; done.
Defined.

(** An answer about a subscription's limits tells what is on the host: without limits there is no
    unit and the state says so; with limits the unit is there, as rendered, and the state is applied
    exactly when systemd runs and read it, declared when there is no systemd, and failed when it
    would not; and no other file was touched. *)
Theorem ApplyIsolation_tells unitDir name description l h r h' :
  ApplyIsolation unitDir name description l h = (Ok r, h') ->
  let path := fp_join [unitDir; name] in
  (forall p, p <> path -> files h' !! p = files h !! p) /\
  if Empty l then i_State r = StateNone /\ files h' !! path = None
  else exists unit, RenderSlice name description l = Ok unit /\ files h' !! path = Some unit /\
    i_State r = if negb (systemd h) then StateDeclared
                else match reloads h with Some _ :: _ => StateFailed | _ => StateApplied end.
Proof.
  intros Hrun path.
  assert (Hwp : wp (ApplyIsolation unitDir name description l) (fun r h' =>
    (forall p, p <> path -> files h' !! p = files h !! p) /\
    if Empty l then i_State r = StateNone /\ files h' !! path = None
    else exists unit, RenderSlice name description l = Ok unit /\ files h' !! path = Some unit /\
      i_State r = if negb (systemd h) then StateDeclared
                  else match reloads h with Some _ :: _ => StateFailed | _ => StateApplied end)
    (fun _ => True) h); [|by eapply wp_ok in Hwp].
  clear Hrun r h'. unfold ApplyIsolation. apply wp_bind, wp_answer; [done|]. intros [] _. cbv zeta. fold path.
  destruct (Empty l).
  - unfold removeUnit. apply wp_bind, wp_bind, wp_call. intros h0 (Hf & Hs & Hr). split; [done|].
    destruct (files h0 !! path) eqn:E; (split; [|done]); cbn [negb].
    + apply wp_bind, wp_get. assert (Hgone : (forall p, p <> path -> delete path (files h0) !! p = files h !! p) /\
        delete path (files h0) !! path = None).
      { split; [intros p Hp; rewrite lookup_delete_ne by done; by rewrite Hf|apply lookup_delete_eq]. }
      destruct Hgone as [Hothers Hgone]. cbn. destruct (systemd h0); [|cbv [wp ret]; auto].
      unfold wp, bind, DaemonReload, ret. cbn. destruct (reloads h0); auto.
    + cbv [wp ret]. rewrite Hf in *. cbn. auto.
  - apply wp_bind, wp_answer; [done|]. intros unit Hunit.
    assert (Hrender : RenderSlice name description l = Ok unit) by (destruct (RenderSlice _ _ _); congruence).
    unfold write_file. apply wp_bind, wp_call. intros h0 (Hf & Hs & Hr). split; [done|]. cbn. split; [|done].
    assert (Hthere : (forall p, p <> path -> <[path := unit]> (files h0) !! p = files h !! p) /\
      <[path := unit]> (files h0) !! path = Some unit).
    { split; [intros p Hp; rewrite lookup_insert_ne by done; by rewrite Hf|apply lookup_insert_eq]. }
    destruct Hthere as [Hothers Hthere]. apply wp_bind, wp_get. cbn. rewrite Hs.
    destruct (systemd h); cbn [negb]; [|apply wp_ret; cbn; eauto].
    unfold wp, bind, DaemonReload, ret. cbn. rewrite Hr.
    destruct (reloads h) as [|[e|] rest]; cbn; eauto 10.
Qed.

(** ** Reading an access log *)

(** From a line of the access log the Agent reads the size nginx put after the status, whatever
    the visitor asked for and whatever else the line holds, as long as the quotes inside the request
    are escaped, as nginx does. *)
Theorem bodyBytes_reads_size before request status size rest :
  contains_char quote before = false -> contains_char quote request = false -> token status ->
  0 <= size -> in_int size = true ->
  bodyBytes (before ++ String quote (request ++ String quote
    (String " " (status ++ String " " (itoa size ++ String " " rest)))))%string = Some size.
Proof.
  intros Hb Hq [Hn Hs] H0 Hi. unfold bodyBytes. rewrite cut_app by done. cbn [negb]. rewrite cut_app by done.
  cbn [negb]. unfold fields.
  change (fields_go None 0 (String " " ?t)) with (fields_go None 0 t).
  rewrite fields_go_token by done.
  assert (Hword : str_forall graph_char (itoa size) = true).
  { apply itoa_forall; [|done]. intros a. unfold is_digit, in_range, graph_char. intros Ha.
    apply andb_true_iff in Ha as [Ha1%Nat.leb_le Ha2%Nat.leb_le]. change (48 <= char_code a)%nat in Ha1. change (char_code a <= 57)%nat in Ha2.
    apply andb_true_iff. split; apply Nat.leb_le; unfold char_code in *; lia. }
  pose proof (atoi_itoa size H0 Hi) as Hread.
  rewrite fields_go_token; [|done|by intros E; rewrite E in Hread].
  cbn [default from_option String.append]. destruct (String.eqb_spec (itoa size) "-") as [E|_]; [by rewrite E in Hread|].
  change ((v ← atoi (itoa size); if v <? 0 then None else Some v) = Some size). rewrite Hread. cbn.
  by destruct (Z.ltb_spec size 0); [lia|].
Qed.

(** ** Examples *)
Module Small.
Definition caps : Caps := {| CPUPercent := Some 150; MemoryMB := Some 512; IOWeight := None |}.
Definition slice : string := "jothost-sub-1.slice".
Definition host (with_systemd : bool) : Host := {|
  files := ∅; systemd := with_systemd; reloads := []; reloaded := 0; h_faults := [] |}.

Lemma RenderSlice_directives_witness :
  exists unit, RenderSlice slice "Acme" caps = Ok unit /\
    directives unit = [("[Unit]", "Description=JotHost subscription Acme");
                       ("[Unit]", "Documentation=https://github.com/thetoui/jothost");
                       ("[Unit]", "Before=slices.target");
                       ("[Slice]", "CPUQuota=150%"); ("[Slice]", "MemoryMax=512M")]%string.
Proof.
  destruct (RenderSlice slice "Acme" caps) as [unit|e] eqn:E; [|by vm_compute in E].
  exists unit. split; [done|]. by apply (RenderSlice_directives slice "Acme" caps unit E).
Defined.

Lemma ApplyIsolation_tells_witness :
  exists r h', ApplyIsolation "/etc/systemd/system" slice "Acme" caps (host true) = (Ok r, h') /\
    exists unit, RenderSlice slice "Acme" caps = Ok unit /\
      files h' !! "/etc/systemd/system/jothost-sub-1.slice"%string = Some unit.
Proof.
  destruct (ApplyIsolation "/etc/systemd/system" slice "Acme" caps (host true)) as [[r|e] h'] eqn:E;
    [|by vm_compute in E].
  exists r, h'. split; [done|]. destruct (ApplyIsolation_tells _ _ _ _ _ _ _ E) as (_ & unit & Hr & Hf & _).
  by exists unit.
Defined.

Lemma bodyBytes_reads_size_witness :
  bodyBytes ("1.2.3.4 - - [09/Feb/2026:10:00:00 +0000] " ++ String quote ("GET /a b HTTP/1.1" ++ String quote
    (String " " ("200" ++ String " " (itoa 396 ++ String " " "-" )))))%string = Some 396.
Proof. apply bodyBytes_reads_size; try done. Defined.

(** Without systemd nothing is enforced, and the answer says so. *)
Example declared :
  match ApplyIsolation "/etc/systemd/system" slice "Acme" caps (host false) with
  | (Ok r, _) => i_State r | _ => "" end = StateDeclared.
Proof. by vm_compute. Qed.

(** A name with a line feed in front passes the rule on names, which looks at the trimmed name, and
    puts a directive of its own into the unit. *)
Example injected :
  match RenderSlice slice (String LF "Conflicts=ssh.service") caps with
  | Ok unit => bool_decide (("[Unit]", "Conflicts=ssh.service")%string ∈ directives unit) | Err _ => false end = true.
Proof. by vm_compute. Qed.

(** A name the panel accepts for a subscription, and the Agent refuses for its slice. *)
Definition long_name : string := str_map (fun _ => "a"%char) (utoa (2 ^ 402)).
Example long_name_refused :
  SubscriptionName long_name = Ok tt /\
  fst (handleTenantIsolationApply "/etc/systemd/system" slice long_name caps (host true)) = Ok InvalidPayload.
Proof. by vm_compute. Qed.
End Small.
