(* ===== verification/Netip.v ===== *)
(** * IP addresses ([net/netip])

    [netip.ParseAddr] and [netip.ParsePrefix] of Go's standard library, which
    the validators rely on, as executable definitions: what they accept, the
    address they answer, and the characters an accepted text is made of. *)

From S2P Require Import Prelude GoStr.

#[local] Open Scope string_scope.

(** An IPv4 address is four bytes, an IPv6 address eight 16-bit groups and a
    zone. *)
Inductive Addr :=
| Addr4 (bytes : list Z)
| Addr6 (groups : list Z) (zone : string).

#[global] Instance Addr_eq_dec : EqDecision Addr.
Proof. solve_decision. Defined.

Definition Zone (a : Addr) : string := match a with Addr4 _ => "" | Addr6 _ z => z end.
Definition Is6 (a : Addr) : bool := match a with Addr4 _ => false | Addr6 _ _ => true end.

(** One decimal field: digits, no leading zero, at most 255. *)
Definition ipv4_field (s : string) : option Z :=
  match s with
  | String "0" (String _ _) => None
  | _ => match udigits s with
         | Some v => if (v <=? 255)%Z then Some v else None
         | None => None
         end
  end.

Definition parse_ipv4 (s : string) : option (list Z) :=
  match split "." s with
  | [a; b; c; d] =>
      match ipv4_field a, ipv4_field b, ipv4_field c, ipv4_field d with
      | Some x, Some y, Some z, Some w => Some [x; y; z; w]
      | _, _, _, _ => None
      end
  | _ => None
  end.

Definition hex_val (a : ascii) : option Z :=
  let n := Z.of_nat (nat_of_ascii a) in
  if is_digit a then Some (n - 48)%Z
  else if in_range "a" "f" a then Some (n - 87)%Z
  else if in_range "A" "F" a then Some (n - 55)%Z
  else None.

(** The longest run of hexadecimal digits: their number, their value, the rest. *)
Fixpoint hex_run (s : string) (n : nat) (acc : Z) : nat * Z * string :=
  match s with
  | "" => (n, acc, "")
  | String a s' =>
      match hex_val a with
      | Some v => hex_run s' (S n) (acc * 16 + v)%Z
      | None => (n, acc, s)
      end
  end.

(** The loop of [parseIPv6] over the groups read so far (last first), the
    position of the ellipsis, and the text left.  Every iteration reads at
    least one byte; [fuel] is its length. *)
Fixpoint ipv6_loop (fuel : nat) (groups : list Z) (ellipsis : option nat) (s : string)
  : option (list Z * option nat) :=
  match fuel with
  | O => None
  | S f =>
      if (8 <=? length groups)%nat then
        if s =? "" then Some (groups, ellipsis) else None
      else
        let '(n, acc, rest) := hex_run s 0 0 in
        if (n =? 0)%nat || (4 <? n)%nat then None
        else if has_prefix "." rest then
          if (negb (bool_decide (is_Some ellipsis)) && negb (length groups =? 6)%nat)
             || (6 <? length groups)%nat then None
          else match parse_ipv4 s with
               | Some [a; b; c; d] => Some ((c * 256 + d) :: (a * 256 + b) :: groups, ellipsis)%Z
               | _ => None
               end
        else
          let groups := acc :: groups in
          match rest with
          | "" => Some (groups, ellipsis)
          | String ":" s1 =>
              match s1 with
              | "" => None
              | String ":" s2 =>
                  if bool_decide (is_Some ellipsis) then None
                  else if s2 =? "" then Some (groups, Some (length groups))
                  else ipv6_loop f groups (Some (length groups)) s2
              | _ => ipv6_loop f groups ellipsis s1
              end
          | _ => None
          end
  end.

(** Filling the ellipsis with the missing zero groups. *)
Definition expand (groups : list Z) (ellipsis : option nat) : option (list Z) :=
  let n := length groups in
  match ellipsis with
  | None => if (n =? 8)%nat then Some groups else None
  | Some e => if (n <? 8)%nat
              then Some (take e groups ++ replicate (8 - n) 0%Z ++ drop e groups)%list
              else None
  end.

Definition parse_ipv6 (input : string) : option Addr :=
  let '(s, zone, has_zone) := cut "%" input in
  if has_zone && (zone =? "") then None
  else
    let '(s, e) := match trim_prefix_opt "::" s with
                   | Some s' => (s', Some 0%nat)
                   | None => (s, None)
                   end in
    if bool_decide (is_Some e) && (s =? "") then Some (Addr6 (replicate 8 0%Z) zone)
    else
      match ipv6_loop (S (String.length s)) [] e s with
      | Some (groups, e') => (fun g => Addr6 g zone) <$> expand (rev groups) e'
      | None => None
      end.

(** [netip.ParseAddr]: the first dot, colon or percent sign decides. *)
Fixpoint addr_kind (s : string) : option ascii :=
  match s with
  | "" => None
  | String a s' =>
      if Ascii.eqb a "." || Ascii.eqb a ":" || Ascii.eqb a "%" then Some a else addr_kind s'
  end.

Definition ParseAddr (s : string) : option Addr :=
  match addr_kind s with
  | Some "."%char => Addr4 <$> parse_ipv4 s
  | Some ":"%char => parse_ipv6 s
  | _ => None
  end.

(** The text before and after the last slash. *)
Fixpoint cut_last (c : ascii) (s : string) : option (string * string) :=
  match s with
  | "" => None
  | String a s' =>
      match cut_last c s' with
      | Some (x, y) => Some (String a x, y)
      | None => if Ascii.eqb a c then Some ("", s') else None
      end
  end.

(** [netip.ParsePrefix]. *)
Definition ParsePrefix (s : string) : option (Addr * Z) :=
  match cut_last slash s with
  | None => None
  | Some (addr_text, bits_text) =>
      match ParseAddr addr_text with
      | None => None
      | Some a =>
          if Is6 a && negb (Zone a =? "") then None
          else if (1 <? String.length bits_text)%nat &&
                  negb (match bits_text with String b _ => in_range "1" "9" b | "" => false end)
          then None
          else match atoi bits_text with
               | Some bits =>
                   if ((bits <? 0) || ((if Is6 a then 128 else 32) <? bits))%Z then None
                   else Some (a, bits)
               | None => None
               end
      end
  end.

Example ParseAddr_examples :
  ParseAddr "10.0.0.1" = Some (Addr4 [10; 0; 0; 1]%Z) /\
  ParseAddr "999.1.1.1" = None /\ ParseAddr "1.2.3.04" = None /\
  ParseAddr "2001:db8::7" = Some (Addr6 [8193; 3512; 0; 0; 0; 0; 0; 7]%Z "") /\
  ParseAddr "::" = Some (Addr6 (replicate 8 0%Z) "") /\
  ParseAddr "::ffff:10.0.0.1" = Some (Addr6 [0; 0; 0; 0; 0; 65535; 2560; 1]%Z "") /\
  ParseAddr "fe80::1%eth0" = Some (Addr6 [65152; 0; 0; 0; 0; 0; 0; 1]%Z "eth0") /\
  ParseAddr "1::2::3" = None /\ ParseAddr "1:2:3:4:5:6:7:8:9" = None /\
  ParsePrefix "10.0.0.0/33" = None /\
  is_Some (ParsePrefix "10.0.0.0/8") /\ ParsePrefix "10.0.0.0/+8" = None.
Proof. vm_compute. repeat split; eauto. Qed.

(** ** The characters of an accepted address *)
Definition addr_char (a : ascii) : bool :=
  is_hex a || Ascii.eqb a ":" || Ascii.eqb a ".".

Lemma digit_addr_char a : is_digit a = true -> addr_char a = true.
Proof. unfold addr_char, is_hex. by intros ->. Qed.

Lemma digits_val_digits s acc v : digits_val acc s = Some v -> str_forall is_digit s = true.
Proof.
  revert acc. induction s as [|a s IH]; simpl; intros acc H; [done|].
  destruct (is_digit a); [eauto|done].
Qed.

Lemma udigits_digits s v : udigits s = Some v -> s <> "" /\ str_forall is_digit s = true.
Proof. destruct s as [|a s]; [done|]. intros H. split; [done|]. by eapply digits_val_digits. Qed.

Lemma ipv4_field_digits s v : ipv4_field s = Some v -> str_forall is_digit s = true.
Proof.
  intros H. assert (Hu : is_Some (udigits s)).
  { destruct (udigits s) eqn:E; [eauto|]. exfalso. unfold ipv4_field in H. rewrite E in H.
    repeat case_match; done. }
  destruct Hu as [u Hu]. by apply udigits_digits in Hu as [_ ?].
Qed.

Lemma parse_ipv4_chars s l : parse_ipv4 s = Some l -> str_forall addr_char s = true /\ s <> "".
Proof.
  unfold parse_ipv4. intros H. pose proof (join_split "." s) as Hj.
  destruct (split "." s) as [|a [|b [|c [|d [|]]]]]; try done.
  destruct (ipv4_field a) eqn:Ea; [|done]. destruct (ipv4_field b) eqn:Eb; [|done].
  destruct (ipv4_field c) eqn:Ec; [|done]. destruct (ipv4_field d) eqn:Ed; [|done].
  split; [|by intros ->; destruct a].
  rewrite <- Hj. apply join_forall; [done|].
  repeat (constructor; [eapply str_forall_impl; [apply digit_addr_char|eapply ipv4_field_digits; eauto]|]).
  constructor.
Qed.

Lemma hex_run_chars s n acc n' acc' rest :
  hex_run s n acc = (n', acc', rest) ->
  exists t, s = t ++ rest /\ str_forall addr_char t = true /\ n' = (n + String.length t)%nat.
Proof.
  revert n acc. induction s as [|a s IH]; simpl; intros n acc H.
  - simplify_eq. exists "". auto.
  - destruct (hex_val a) as [v|] eqn:E.
    + apply IH in H as (t & -> & Ht & ->). exists (String a t). simpl. split_and!; [done| |lia].
      rewrite Ht, andb_true_r. unfold addr_char, is_hex, hex_val in *.
      destruct (is_digit a), (in_range "a" "f" a), (in_range "A" "F" a); done.
    + simplify_eq. exists "". split_and!; [done..|]. simpl. lia.
Qed.

Lemma ipv6_loop_chars fuel groups e s r :
  ipv6_loop fuel groups e s = Some r -> str_forall addr_char s = true.
Proof.
  revert groups e s. induction fuel as [|f IH]; intros groups e s H; [done|]; cbn [ipv6_loop] in H.
  destruct (8 <=? length groups)%nat.
  { destruct (s =? "") eqn:E; [|done]. by bool_hyps; subst. }
  destruct (hex_run s 0 0) as [[n acc] rest] eqn:Eh.
  destruct (_ || _); [done|].
  destruct (has_prefix "." rest).
  { destruct (_ || _); [done|]. destruct (parse_ipv4 s) eqn:E; [|done].
    by apply parse_ipv4_chars in E as [? _]. }
  apply hex_run_chars in Eh as (t & -> & Ht & _). rewrite str_forall_app, Ht. simpl.
  destruct rest as [|a rest]; [done|]. simpl.
  destruct (decide (a = ":"%char)) as [->|Hne].
  - destruct rest as [|b rest]; [done|]. destruct (decide (b = ":"%char)) as [->|Hne].
    + simpl. destruct (bool_decide (is_Some e)); [done|].
      destruct (rest =? "") eqn:E; [by bool_hyps; subst|]. by eapply IH.
    + eapply IH. revert H. repeat (match goal with |- context[match ?b with _ => _ end] => destruct b end; try done).
  - exfalso. revert H. repeat (match goal with |- context[match ?b with _ => _ end] => destruct b end; try done).
Qed.

Lemma parse_ipv6_chars input a :
  parse_ipv6 input = Some a -> Zone a = "" -> str_forall addr_char input = true.
Proof.
  unfold parse_ipv6. intros H Hz.
  destruct (cut "%" input) as [[s zone] has_zone] eqn:Ec. apply cut_spec in Ec as [_ Ec].
  destruct (has_zone && (zone =? "")) eqn:Ez; [done|].
  assert (Hs : Zone a = zone /\ str_forall addr_char s = true).
  { destruct (trim_prefix_opt "::" s) as [t|] eqn:Et; cbv beta iota zeta in H.
    - apply trim_prefix_opt_spec in Et as ->. rewrite str_forall_app. simpl.
      destruct (bool_decide _ && _) eqn:Eb.
      + bool_hyps. subst. by simplify_eq.
      + destruct (ipv6_loop _ _ _ t) as [[g e]|] eqn:El; [|done].
        apply ipv6_loop_chars in El. destruct (expand _ _); simplify_eq/=. done.
    - rewrite bool_decide_eq_false_2 in H by (by intros [? ?]). cbn [andb] in H.
      destruct (ipv6_loop _ _ _ s) as [[g e]|] eqn:El; [|done].
      apply ipv6_loop_chars in El. destruct (expand _ _); simplify_eq/=. done. }
  destruct Hs as [Hs1 Hs2]. rewrite Hz in Hs1. subst zone.
  destruct has_zone; simpl in *; [done|]. by destruct Ec as [-> _].
Qed.

Lemma ParseAddr_chars s a :
  ParseAddr s = Some a -> Zone a = "" -> s <> "" /\ str_forall addr_char s = true.
Proof.
  unfold ParseAddr. intros H Hz. split; [by intros ->|].
  destruct (addr_kind s) as [c|]; [|done].
  destruct (decide (c = "."%char)) as [->|H1].
  { destruct (parse_ipv4 s) eqn:E; [|done]. by apply parse_ipv4_chars in E as [? _]. }
  destruct (decide (c = ":"%char)) as [->|H2].
  { eapply parse_ipv6_chars; eauto. }
  exfalso. revert H. by repeat case_match.
Qed.

Lemma cut_last_spec c s x y : cut_last c s = Some (x, y) -> s = x ++ String c y.
Proof.
  revert x y. induction s as [|a s IH]; simpl; intros x y H; [done|].
  destruct (cut_last c s) as [[x' y']|].
  - simplify_eq. simpl. by rewrite (IH x' y).
  - destruct (Ascii.eqb_spec a c); simplify_eq. done.
Qed.

Definition prefix_char (a : ascii) : bool := addr_char a || Ascii.eqb a "/" || Ascii.eqb a "+" || Ascii.eqb a "-".

Lemma atoi_chars s v : atoi s = Some v -> str_forall prefix_char s = true.
Proof.
  assert (Hd : forall t u, udigits t = Some u -> str_forall prefix_char t = true).
  { intros t u H. apply udigits_digits in H as [_ H]. eapply str_forall_impl; [|exact H].
    intros b Hb. unfold prefix_char. by rewrite digit_addr_char. }
  unfold atoi. intros H. destruct s as [|a s]; [done|].
  destruct (Ascii.eqb_spec a "-") as [->|H1]; [|destruct (Ascii.eqb_spec a "+") as [->|H2]].
  - destruct (udigits s) eqn:E; [|done]. simpl. by eapply Hd.
  - destruct (udigits s) eqn:E; [|done]. simpl. by eapply Hd.
  - destruct (udigits (String a s)) eqn:E; [|done]. by eapply Hd.
Qed.

Lemma ParsePrefix_chars s a b :
  ParsePrefix s = Some (a, b) -> Zone a = "" -> s <> "" /\ str_forall prefix_char s = true.
Proof.
  unfold ParsePrefix. intros H Hz. split; [by intros ->|].
  destruct (cut_last slash s) as [[x y]|] eqn:Ec; [|done].
  apply cut_last_spec in Ec as ->.
  destruct (ParseAddr x) as [a'|] eqn:Ea; [|done].
  destruct (Is6 a' && _); [done|]. destruct (_ && _); [done|].
  destruct (atoi y) as [v|] eqn:Ey; [|done]. destruct (_ || _); simplify_eq.
  apply ParseAddr_chars in Ea as [_ Ea]; [|done]. apply atoi_chars in Ey.
  rewrite str_forall_app. simpl. rewrite Ey. rewrite andb_true_r.
  eapply str_forall_impl; [|exact Ea]. unfold prefix_char. by intros ? ->.
Qed.

(** ** Addresses and networks of package [net] *)

(** A [net.IP] is sixteen bytes; an IPv4 address follows [v4InV6Prefix]. *)
Definition v4InV6Prefix : list Z := (replicate 10 0 ++ [255; 255])%Z%list.
Definition As16 (a : Addr) : list Z :=
  match a with
  | Addr4 bytes => v4InV6Prefix ++ bytes
  | Addr6 groups _ => groups ≫= fun g => [(g / 256)%Z; (g mod 256)%Z]
  end%list.

(** [net.ParseIP]. *)
Definition ParseIP (s : string) : option (list Z) :=
  match ParseAddr s with
  | Some a => if Zone a =? "" then Some (As16 a) else None
  | None => None
  end.

(** [IP.To4]. *)
Definition To4 (ip : list Z) : option (list Z) :=
  if bool_decide (take 12 ip = v4InV6Prefix) then Some (drop 12 ip) else None.

(** A [net.IPNet]: the masked address, the bits the mask sets and those it has. *)
Record IPNet := { n_IP : list Z; n_ones : nat; n_bits : nat }.

(** The byte of a mask with [ones] bits set, [i] bytes in. *)
Definition mask_byte (ones i : nat) : Z :=
  let k := min 8 (ones - 8 * i) in (256 - 2 ^ (8 - Z.of_nat k))%Z.
(** An address under the mask. *)
Definition masked (ones : nat) (ip : list Z) : list Z := imap (fun i b => Z.land b (mask_byte ones i)) ip.

(** [net.ParseCIDR]: the network. *)
Definition ParseCIDR (s : string) : option IPNet :=
  let '(addr, mask, found) := cut slash s in
  if negb found then None
  else match ParseAddr addr with
       | None => None
       | Some a =>
           if negb (Zone a =? "") then None
           else
             let bits := if Is6 a then 128%nat else 32%nat in
             match udigits mask with
             | None => None
             | Some n =>
                 if (Z.of_nat bits <? n)%Z then None
                 else
                   let ones := Z.to_nat n in
                   Some {| n_IP := if Is6 a then masked ones (As16 a)
                                   else v4InV6Prefix ++ masked ones (drop 12 (As16 a));
                           n_ones := ones; n_bits := bits |}
             end
       end.

(** [IPNet.Contains].  A network of mapped addresses is one of IPv4 addresses, under the
    last four bytes of its mask. *)
Definition Contains (n : IPNet) (ip : list Z) : bool :=
  let x := default ip (To4 ip) in
  let '(nn, ones) := match To4 (n_IP n) with
                     | Some v4 => (v4, if (n_bits n =? 128)%nat then (n_ones n - 96)%nat else n_ones n)
                     | None => (n_IP n, n_ones n)
                     end in
  (length x =? length nn)%nat && bool_decide (masked ones nn = masked ones x).
