(* ===== verification/GoSort.v ===== *)
(** * Go's stable sort ([sort.SliceStable])

    Sorting by a comparison, the orders a comparison may be built from field by field, and
    that the result depends on what was sorted and not on how it was given. *)

From stdpp Require Import sorting.
From S2P Require Import Prelude GoStr.

(** ** The sort *)
Section slice_stable.
Context {A : Type} (before : A -> A -> bool).

(** [x] goes before the first element it need not follow. *)
Fixpoint insert_stable (x : A) (l : list A) : list A :=
  match l with
  | [] => [x]
  | y :: rest => if before y x then y :: insert_stable x rest else x :: l
  end.
Definition slice_stable : list A -> list A := foldr insert_stable [].

Lemma insert_stable_perm x l : insert_stable x l ≡ₚ x :: l.
Proof.
  induction l as [|y l IH]; [done|]. cbn. destruct (before y x); [|done].
  rewrite IH. constructor.
Qed.
Lemma slice_stable_perm l : slice_stable l ≡ₚ l.
Proof. induction l as [|x l IH]; [done|]. cbn. by rewrite insert_stable_perm, IH. Qed.

(** A strict weak order: what [sort] asks of a comparison. *)
Record weak_order : Prop := {
  before_asym x y : before x y = true -> before y x = false;
  before_trans x y z : before y x = false -> before z y = false -> before z x = false;
}.

Definition not_after (x y : A) : Prop := before y x = false.

Lemma insert_stable_sorted x l : weak_order ->
  StronglySorted not_after l -> StronglySorted not_after (insert_stable x l).
Proof.
  intros Hw. induction 1 as [|y l Hs IH Hy]; [repeat constructor|]. cbn. destruct (before y x) eqn:E.
  - constructor; [done|]. rewrite insert_stable_perm. constructor; [by apply before_asym|done].
  - constructor; [by constructor|]. constructor; [done|]. eapply list.Forall_impl; [exact Hy|].
    intros z Hz. by eapply before_trans.
Qed.
Lemma slice_stable_sorted l : weak_order -> StronglySorted not_after (slice_stable l).
Proof. intros Hw. induction l as [|x l IH]; [constructor|]. by apply insert_stable_sorted. Qed.

(** The same elements give the same list, whatever order they came in, when those that tie
    are the same. *)
Lemma slice_stable_unique l k : weak_order -> l ≡ₚ k ->
  (forall x y, x ∈ l -> y ∈ l -> before x y = false -> before y x = false -> x = y) ->
  slice_stable l = slice_stable k.
Proof.
  intros Hw Hp Ht. eapply (StronglySorted_unique_strong not_after); [|by apply slice_stable_sorted..|].
  - intros x y Hx Hy H1 H2. rewrite slice_stable_perm in Hx. rewrite slice_stable_perm, <- Hp in Hy.
    by apply Ht.
  - by rewrite !slice_stable_perm.
Qed.
End slice_stable.

(** ** Comparing field by field *)
Record total_order {K} (lt : K -> K -> bool) : Prop := {
  lt_total x y : x <> y -> lt x y = negb (lt y x);
  lt_trans x y z : lt x y = true -> lt y z = true -> lt x z = true;
  lt_irrefl x : lt x x = false;
}.

(** By one field, and by [next] when it ties. *)
Definition by_field {A K} `{EqDecision K} (f : A -> K) (lt : K -> K -> bool) (next : A -> A -> bool) (l r : A) : bool :=
  if decide (f l = f r) then next l r else lt (f l) (f r).

Lemma by_field_weak {A K} `{EqDecision K} (f : A -> K) lt next :
  total_order lt -> weak_order next -> weak_order (by_field f lt next).
Proof.
  intros [Ht Hr Hi] [Ha Hn]. unfold by_field. split.
  - intros x y. destruct (decide (f x = f y)) as [E|E].
    + rewrite decide_True by done. apply Ha.
    + rewrite decide_False by done. intros Hl. rewrite (Ht (f y) (f x)), Hl by done. done.
  - intros x y z. destruct (decide (f y = f x)) as [E1|E1], (decide (f z = f y)) as [E2|E2].
    + rewrite decide_True by congruence. apply Hn.
    + rewrite decide_False by congruence. by rewrite E1.
    + rewrite decide_False by congruence. by rewrite <- E2.
    + intros H1 H2.
      assert (lt (f x) (f y) = true) as H3 by (by rewrite Ht, H1 by done).
      assert (lt (f y) (f z) = true) as H4 by (by rewrite Ht, H2 by congruence).
      pose proof (Hr _ _ _ H3 H4) as H5. destruct (decide (f z = f x)) as [E|E].
      { by rewrite E, Hi in H5. }
      by rewrite Ht, H5 by done.
Qed.

(** The order in which everything ties. *)
Lemma ties_weak {A} : weak_order (fun _ _ : A => false).
Proof. done. Qed.
Lemma weak_order_ext {A} (b c : A -> A -> bool) : (forall x y, b x y = c x y) -> weak_order c -> weak_order b.
Proof. intros He [Ha Ht]. split; intros *; rewrite !He; eauto. Qed.

Lemma Z_total : total_order Z.ltb.
Proof.
  split; [intros x y Hne; destruct (Z.ltb_spec x y), (Z.ltb_spec y x); lia|
          intros x y z; rewrite !Z.ltb_lt; lia|apply Z.ltb_irrefl].
Qed.

(** [<] on strings, byte by byte. *)
Definition str_lt (s t : string) : bool := String.ltb s t.

Lemma str_lt_leb s t : str_lt s t = negb (String.leb t s).
Proof.
  unfold str_lt, String.ltb, String.leb. rewrite (String.compare_antisym s t).
  by destruct (String.compare t s).
Qed.
Lemma str_total : total_order str_lt.
Proof.
  assert (Hle : forall s t, String.leb s t = true <-> String.le s t).
  { intros s t. unfold String.le. by destruct (String.leb s t). }
  assert (Hnot : forall s t, str_lt s t = true <-> ~ String.le t s).
  { intros s t. rewrite str_lt_leb, negb_true_iff, <- Hle. by destruct (String.leb t s). }
  split.
  - intros x y Hne.
    destruct (str_lt x y) eqn:E1, (str_lt y x) eqn:E2; try done; exfalso.
    + apply Hnot in E1, E2. by destruct (total String.le x y).
    + rewrite str_lt_leb in E1, E2. apply negb_false_iff, Hle in E1, E2. by apply Hne, (anti_symm String.le).
  - intros x y z Hxy Hyz. rewrite Hnot in *. intros Hzx. apply Hyz.
    etrans; [exact Hzx|]. by destruct (total String.le x y).
  - intros x. destruct (str_lt x x) eqn:E; [|done]. apply Hnot in E. by destruct E.
Qed.
