(* ===== verification/DnsRules.v ===== *)
(** * DNS rules ([shared/validate/dns.go], [Domain] of [validate.go])

    What a zone, a record, an address list and an SOA may say, as both the panel and the
    host check it, the names of reverse zones, and the characters an accepted value is
    made of.  An error is the sentinel the code wraps. *)

From S2P Require Import Prelude GoStr TenancyRules Netip.

#[local] Open Scope string_scope.
#[local] Arguments Nat.ltb : simpl never.

Inductive dns_rule_err :=
| ErrInvalidDomain | ErrInvalidZone | ErrInvalidRecordType | ErrInvalidRecordName | ErrInvalidRecordValue
| ErrInvalidTTL | ErrInvalidSOA | ErrInvalidNetwork.

#[global] Instance dns_rule_err_eq_dec : EqDecision dns_rule_err.
Proof. solve_decision. Defined.

(** ** Domain names *)
Definition MaxDomainLength : nat := 253.
Definition MaxLabelLength : nat := 63.

Definition NormalizeDomain (domain : string) : string := trim_suffix "." (to_lower (trim_space domain)).

Definition alnum (a : ascii) : bool := is_lower a || is_digit a.

(** A label of [domainPattern]: letters, digits and inner dashes. *)
Fixpoint domain_label_go (first : bool) (s : string) : bool :=
  match s with
  | "" => negb first
  | String a rest =>
      (alnum a || (Ascii.eqb a "-" && negb first && negb (rest =? ""))) && domain_label_go false rest
  end.
Definition domainPattern (labels : list string) : bool :=
  (2 <=? length labels)%nat && forallb (domain_label_go true) labels.

Definition isNumeric (value : string) : bool := negb (value =? "") && str_forall is_digit value.

Definition last_label (labels : list string) : string := default "" (list.last labels).

Definition Domain (domain : string) : result dns_rule_err unit :=
  guard (domain =? "") ErrInvalidDomain ;?
  guard (MaxDomainLength <? String.length domain)%nat ErrInvalidDomain ;?
  let labels := split "." domain in
  guard (existsb (fun label => (label =? "") || (MaxLabelLength <? String.length label)%nat) labels)
    ErrInvalidDomain ;?
  guard (negb (domainPattern labels)) ErrInvalidDomain ;?
  guard (isNumeric (last_label labels)) ErrInvalidDomain.

Definition WildcardPrefix : string := "*.".
Definition IsWildcard (name : string) : bool := has_prefix WildcardPrefix name.

(** ** Zones *)
Definition RecordA : string := "A".
Definition RecordAAAA : string := "AAAA".
Definition RecordCNAME : string := "CNAME".
Definition RecordMX : string := "MX".
Definition RecordTXT : string := "TXT".
Definition RecordNS : string := "NS".
Definition RecordCAA : string := "CAA".
Definition RecordSRV : string := "SRV".
Definition RecordPTR : string := "PTR".
Definition RecordTypes : list string :=
  [RecordA; RecordAAAA; RecordCNAME; RecordMX; RecordTXT; RecordNS; RecordCAA; RecordSRV; RecordPTR].

Definition ZoneMaster : string := "master".
Definition ZoneSlave : string := "slave".

Definition MinTTL : Z := 60.
Definition MaxTTL : Z := 604800.
Definition DefaultTTL : Z := 3600.
Definition MinRefresh : Z := 300.
Definition MaxRefresh : Z := 86400.
Definition MinRetry : Z := 60.
Definition MaxRetry : Z := 28800.
Definition MinExpire : Z := 604800.
Definition MaxExpire : Z := 31536000.
Definition MinMinimum : Z := 60.
Definition MaxMinimum : Z := 86400.
Definition MaxTXTString : nat := 255.
Definition MaxTXTValue : nat := 4096.
Definition caaTags : list string := ["issue"; "issuewild"; "iodef"].

Definition ZoneName (name : string) : result dns_rule_err unit :=
  guard (name =? "") ErrInvalidZone ;?
  guard (negb (is_ok (Domain name))) ErrInvalidZone ;?
  guard (IsWildcard name) ErrInvalidZone.

Definition ZoneKind (kind : string) : result dns_rule_err unit :=
  guard (negb (one_of [ZoneMaster; ZoneSlave] kind)) ErrInvalidZone.

Definition RecordType (recordType : string) : result dns_rule_err unit :=
  guard (negb (one_of RecordTypes recordType)) ErrInvalidRecordType.

(** ** Names *)
Definition NormalizeRecordName (name zone : string) : string :=
  let trimmed := trim_suffix "." (to_lower (trim_space name)) in
  if (trimmed =? "") || (trimmed =? "@") then "@"
  else if zone =? "" then trimmed
  else
    let zone := NormalizeDomain zone in
    if trimmed =? zone then "@"
    else if has_suffix ("." ++ zone) trimmed then trim_suffix ("." ++ zone) trimmed
    else trimmed.

(** The loop of [recordLabel]; [first] holds at index 0. *)
Fixpoint label_go (first : bool) (s : string) : bool :=
  match s with
  | "" => true
  | String a rest =>
      (alnum a || (Ascii.eqb a "_" && first) || (Ascii.eqb a "-" && negb first && negb (rest =? "")))
      && label_go false rest
  end.

Definition recordLabel (label : string) : result dns_rule_err unit :=
  guard (label =? "") ErrInvalidRecordName ;?
  guard (MaxLabelLength <? String.length label)%nat ErrInvalidRecordName ;?
  guard (negb (label_go true label)) ErrInvalidRecordName.

(** The loop of [RecordName] over the labels from an index on. *)
Fixpoint record_labels (index : nat) (labels : list string) : result dns_rule_err unit :=
  match labels with
  | [] => Ok tt
  | label :: more =>
      (if label =? "*" then guard (negb (index =? 0)%nat) ErrInvalidRecordName else recordLabel label) ;?
      record_labels (S index) more
  end.

Definition RecordName (name : string) : result dns_rule_err unit :=
  guard (name =? "") ErrInvalidRecordName ;?
  if name =? "@" then Ok tt
  else
    guard (MaxDomainLength <? String.length name)%nat ErrInvalidRecordName ;?
    guard (has_suffix "." name) ErrInvalidRecordName ;?
    record_labels 0 (split "." name).

Fixpoint host_labels (labels : list string) : result dns_rule_err unit :=
  match labels with
  | [] => Ok tt
  | label :: more =>
      guard (label =? "*") ErrInvalidRecordValue ;?
      guard (negb (is_ok (recordLabel label))) ErrInvalidRecordValue ;?
      host_labels more
  end.

Definition Hostname (name : string) : result dns_rule_err unit :=
  guard (name =? "") ErrInvalidRecordValue ;?
  guard (MaxDomainLength <? String.length name)%nat ErrInvalidRecordValue ;?
  let trimmed := trim_suffix "." name in
  if trimmed =? "" then Ok tt else host_labels (split "." trimmed).

(** ** Records *)
Definition outside_of (lo hi z : Z) : bool := ((z <? lo) || (hi <? z))%Z.

Definition TTL (ttl : Z) : result dns_rule_err unit :=
  if (ttl =? 0)%Z then Ok tt else guard (outside_of MinTTL MaxTTL ttl) ErrInvalidTTL.

Record RecordValue := {
  v_Type : string; v_Value : string;
  v_Priority : Z; v_Weight : Z; v_Port : Z; v_Flags : Z; v_Tag : string }.

Definition ipValue (value : string) (wantV6 : bool) : result dns_rule_err unit :=
  match ParseIP (trim_space value) with
  | None => Err ErrInvalidRecordValue
  | Some address =>
      let isV4 := bool_decide (is_Some (To4 address)) in
      guard (wantV6 && isV4) ErrInvalidRecordValue ;?
      guard (negb wantV6 && negb isV4) ErrInvalidRecordValue
  end.

Definition txtValue (value : string) : result dns_rule_err unit :=
  guard (value =? "") ErrInvalidRecordValue ;?
  guard (MaxTXTValue <? String.length value)%nat ErrInvalidRecordValue ;?
  guard (str_exists control value) ErrInvalidRecordValue.

Definition caaValue (value : RecordValue) : result dns_rule_err unit :=
  guard (outside_of 0 255 (v_Flags value)) ErrInvalidRecordValue ;?
  guard (negb (one_of caaTags (v_Tag value))) ErrInvalidRecordValue ;?
  guard (v_Value value =? "") ErrInvalidRecordValue ;?
  txtValue (v_Value value).

Definition port16 (number : Z) : result dns_rule_err unit :=
  guard (outside_of 0 65535 number) ErrInvalidRecordValue.

Definition srvValue (value : RecordValue) : result dns_rule_err unit :=
  port16 (v_Priority value) ;?
  port16 (v_Weight value) ;?
  guard (outside_of 1 65535 (v_Port value)) ErrInvalidRecordValue ;?
  Hostname (v_Value value).

(** The [switch] of [Record]. *)
Definition record_value (value : RecordValue) : result dns_rule_err unit :=
  let type := v_Type value in
  if type =? RecordA then ipValue (v_Value value) false
  else if type =? RecordAAAA then ipValue (v_Value value) true
  else if one_of [RecordCNAME; RecordNS; RecordPTR] type then Hostname (v_Value value)
  else if type =? RecordMX then port16 (v_Priority value) ;? Hostname (v_Value value)
  else if type =? RecordTXT then txtValue (v_Value value)
  else if type =? RecordCAA then caaValue value
  else if type =? RecordSRV then srvValue value
  else Err ErrInvalidRecordType.

Definition RecordOf (value : RecordValue) : result dns_rule_err unit :=
  RecordType (v_Type value) ;? record_value value.

(** ** The SOA *)
Definition hostmaster_char (c : ascii) : bool :=
  alnum c || Ascii.eqb c "." || Ascii.eqb c "-" || Ascii.eqb c "_" || Ascii.eqb c "+".

Definition Hostmaster (email : string) : result dns_rule_err unit :=
  guard (email =? "") ErrInvalidSOA ;?
  let '(local, domain, found) := cut "@" email in
  guard (negb found || (local =? "") || contains_char "@" domain) ErrInvalidSOA ;?
  guard (MaxDomainLength <? String.length email)%nat ErrInvalidSOA ;?
  guard (negb (str_forall hostmaster_char local)) ErrInvalidSOA ;?
  Domain domain.

Definition SOATimers (refresh retry expire minimum : Z) : result dns_rule_err unit :=
  guard (outside_of MinRefresh MaxRefresh refresh) ErrInvalidSOA ;?
  guard (outside_of MinRetry MaxRetry retry) ErrInvalidSOA ;?
  guard (refresh <=? retry)%Z ErrInvalidSOA ;?
  guard (outside_of MinExpire MaxExpire expire) ErrInvalidSOA ;?
  guard (expire <=? refresh)%Z ErrInvalidSOA ;?
  guard (outside_of MinMinimum MaxMinimum minimum) ErrInvalidSOA.

(** ** Reverse zones *)
Definition hex_digit (z : Z) : string :=
  String (if (z <? 10)%Z then digit_char z else ascii_of_nat (87 + Z.to_nat z)) "".
Definition high_nibble (octet : Z) : Z := Z.shiftr octet 4.
Definition low_nibble (octet : Z) : Z := Z.land octet 15.
Definition nibbles (octets : list Z) : list Z := octets ≫= fun o => [high_nibble o; low_nibble o].

Definition ReverseZone (network : string) : result dns_rule_err string :=
  match ParseCIDR (trim_space network) with
  | None => Err ErrInvalidNetwork
  | Some prefix =>
      let ones := n_ones prefix in
      if (n_bits prefix =? 32)%nat then
        guard (negb (bool_decide (ones ∈ [8; 16; 24]%nat))) ErrInvalidNetwork ;?
        let address := default [] (To4 (n_IP prefix)) in
        Ok (join "." (itoa <$> rev (take (ones / 8) address)) ++ ".in-addr.arpa")
      else
        guard (negb (ones mod 4 =? 0)%nat || (ones =? 0)%nat) ErrInvalidNetwork ;?
        Ok (join "." (hex_digit <$> rev (take (ones / 4) (nibbles (n_IP prefix)))) ++ ".ip6.arpa")
  end.

Definition reverseName (address : list Z) : string :=
  match To4 address with
  | Some v4 => join "." (itoa <$> rev v4) ++ ".in-addr.arpa"
  | None => join "." (hex_digit <$> rev (nibbles address)) ++ ".ip6.arpa"
  end.

Definition ReversePointerName (address network : string) : result dns_rule_err string :=
  match ParseIP (trim_space address) with
  | None => Err ErrInvalidRecordValue
  | Some parsed =>
      match ParseCIDR (trim_space network) with
      | None => Err ErrInvalidNetwork
      | Some prefix =>
          guard (negb (Contains prefix parsed)) ErrInvalidRecordValue ;?
          let? zone := ReverseZone network in
          let full := reverseName parsed in
          let suffix := "." ++ zone in
          guard (negb (has_suffix suffix full)) ErrInvalidRecordValue ;?
          Ok (trim_suffix suffix full)
      end
  end.

(** ** Address match lists *)
Definition matchKeywords : list string := ["any"; "none"; "localhost"; "localnets"].

Definition MatchAddress (value : string) : result dns_rule_err unit :=
  let trimmed := to_lower (trim_space value) in
  guard (trimmed =? "") ErrInvalidRecordValue ;?
  if one_of matchKeywords trimmed then Ok tt
  else if contains_char "/" trimmed then
    guard (negb (bool_decide (is_Some (ParseCIDR trimmed)))) ErrInvalidNetwork
  else guard (negb (bool_decide (is_Some (ParseIP trimmed)))) ErrInvalidRecordValue.

Example dns_rules_examples :
  ReverseZone "203.0.113.0/24" = Ok "113.0.203.in-addr.arpa" /\
  ReverseZone "2001:db8::/32" = Ok "8.b.d.0.1.0.0.2.ip6.arpa" /\
  ReverseZone "203.0.113.0/25" = Err ErrInvalidNetwork /\
  ReversePointerName "203.0.113.7" "203.0.113.0/24" = Ok "7" /\
  ReversePointerName "198.51.100.7" "203.0.113.0/24" = Err ErrInvalidRecordValue /\
  Domain "a-b.example.com" = Ok tt /\ Domain "a-.example.com" = Err ErrInvalidDomain /\
  Domain "1.2.3.4" = Err ErrInvalidDomain /\ Domain "localhost" = Err ErrInvalidDomain /\
  RecordName "*.dev" = Ok tt /\ RecordName "a.*" = Err ErrInvalidRecordName /\
  RecordName "_dmarc" = Ok tt /\ Hostname "." = Ok tt /\ Hostname "*.example.com" = Err ErrInvalidRecordValue /\
  NormalizeRecordName "WWW.Example.com." "example.com" = "www" /\
  NormalizeRecordName "example.com" "example.com" = "@" /\
  MatchAddress " 10.0.0.0/8" = Ok tt /\ MatchAddress "10.0.0.1; any" = Err ErrInvalidRecordValue.
Proof. vm_compute. repeat split. Qed.

(** ** The characters of what is accepted

    Nothing in them ends a name, a line, a statement or a quoted string. *)
Definition safe_char (a : ascii) : bool :=
  alnum a || is_upper a || contains_char a "-_.*@:/".
Definition safe (s : string) : Prop := str_forall safe_char s = true.


(** Facts about one character, by evaluation. *)
Ltac each_char a := destruct a as [[] [] [] [] [] [] [] []]; vm_compute; solve [done | congruence | intuition congruence].

(** Splits the boolean tests and puts in the characters they name. *)
Ltac char_hyps :=
  repeat first [ progress bool_hyps
               | match goal with H : Ascii.eqb _ _ = true |- _ => apply Ascii.eqb_eq in H end ]; subst.

Lemma safe_graph a : safe_char a = true -> graph_char a = true.
Proof. each_char a. Qed.
Lemma alnum_safe a : alnum a = true -> safe_char a = true.
Proof. unfold safe_char. by intros ->. Qed.
Lemma addr_safe a : addr_char a = true -> safe_char a = true.
Proof. each_char a. Qed.
Lemma digit_safe a : is_digit a = true -> safe_char a = true.
Proof. each_char a. Qed.
Lemma hostmaster_safe a : hostmaster_char a = true -> safe_char a || Ascii.eqb a "+" = true.
Proof. each_char a. Qed.
Lemma lower_safe a : safe_char (lower_char a) = true -> safe_char a = true.
Proof. each_char a. Qed.

Lemma safe_app s t : safe (s ++ t) <-> safe s /\ safe t.
Proof. unfold safe. by rewrite str_forall_app, andb_true_iff. Qed.
Lemma safe_to_lower s : safe (to_lower s) -> safe s.
Proof.
  unfold safe, to_lower. induction s as [|a s IH]; [done|]. cbn. intros Hs. bool_hyps.
  by rewrite (lower_safe a), IH.
Qed.
Lemma safe_impl (p : ascii -> bool) s : (forall a, p a = true -> safe_char a = true) -> str_forall p s = true -> safe s.
Proof. intros Hp. by apply str_forall_impl. Qed.
Lemma safe_without c s : safe_char c = false -> safe s -> contains_char c s = false.
Proof. intros Hc Hs. by apply (contains_char_forall c safe_char). Qed.
Lemma safe_split c s : safe_char c = true -> Forall safe (split c s) -> safe s.
Proof.
  intros Hc Hl. unfold safe. rewrite <- (join_split c s). apply join_forall; [by cbn; rewrite Hc|done].
Qed.

(** A safe text is a field: no space around it or in it. *)
Lemma safe_trim s : safe s -> trim_space s = s.
Proof.
  intros Hs. destruct (decide (s = "")) as [->|Hne]; [done|].
  apply (trim_space_tokens [s]); [done|]. constructor; [|done]. split; [done|].
  eapply str_forall_impl; [apply safe_graph|done].
Qed.

Lemma domain_label_safe s : forall first, domain_label_go first s = true -> safe s.
Proof.
  induction s as [|a s IH]; intros first Hl; [done|]. cbn in Hl. apply andb_true_iff in Hl as [Ha Hs].
  unfold safe. cbn. rewrite (IH _ Hs : str_forall safe_char s = true), andb_true_r.
  apply orb_true_iff in Ha as [Ha|Ha]; [by apply alnum_safe|]. by char_hyps.
Qed.

Lemma Domain_safe name : Domain name = Ok tt -> safe name /\ name <> "" /\ IsWildcard name = false.
Proof.
  unfold Domain. intros H. destruct (name =? "") eqn:E0; [done|]. cbn in H.
  destruct (_ <? _)%nat; [done|]. cbn in H. destruct (existsb _ _); [done|]. cbn in H.
  destruct (domainPattern (split "." name)) eqn:Hp; [|done].
  unfold domainPattern in Hp. apply andb_true_iff in Hp as [_ Hp].
  assert (Hs : safe name).
  { apply (safe_split "."); [done|]. rewrite list.Forall_forall. intros x Hx. apply (domain_label_safe _ true).
    rewrite forallb_forall in Hp. apply Hp. by apply list_elem_of_In. }
  split_and!; [done|by intros ->|].
  destruct name as [|a name]; [done|]. unfold IsWildcard, WildcardPrefix.
  destruct (decide (a = "*"%char)) as [->|Hne]; [|by cbn; rewrite (proj2 (Ascii.eqb_neq "*" a)) by congruence].
  exfalso. revert Hp. cbn [split]. destruct (Ascii.eqb "*" ".") eqn:E; [by vm_compute in E|].
  by destruct (split "." name).
Qed.

(** A domain name is letters, digits, dashes and dots, and starts with one of the first two. *)
Definition domain_char (a : ascii) : bool := alnum a || Ascii.eqb a "-" || Ascii.eqb a ".".

Lemma domain_label_chars s : forall first, domain_label_go first s = true -> str_forall domain_char s = true.
Proof.
  induction s as [|a s IH]; intros first Hl; [done|]. cbn in Hl. apply andb_true_iff in Hl as [Ha Hs].
  cbn. rewrite (IH _ Hs), andb_true_r. unfold domain_char.
  apply orb_true_iff in Ha as [->|Ha]; [done|]. by char_hyps.
Qed.
Lemma ZoneName_chars name : ZoneName name = Ok tt ->
  str_forall domain_char name = true /\ exists a rest, name = String a rest /\ alnum a = true.
Proof.
  unfold ZoneName. intros H. destruct (name =? ""); [done|]. cbn [guard rbind] in H.
  destruct (Domain name) as [[]|] eqn:Ed; [|done]. clear H. revert Ed. unfold Domain. intros H.
  destruct (String.eqb_spec name "") as [|Hne]; [done|]. cbn [guard rbind] in H.
  destruct (_ <? _)%nat; [done|]. cbn [guard rbind] in H. destruct (existsb _ _); [done|].
  cbn [guard rbind] in H. destruct (domainPattern (split "." name)) eqn:Hp; [|done].
  unfold domainPattern in Hp. apply andb_true_iff in Hp as [_ Hp]. rewrite forallb_forall in Hp. split.
  - rewrite <- (join_split "." name). apply join_forall; [done|]. rewrite list.Forall_forall. intros x Hx.
    apply (domain_label_chars _ true), Hp. by apply list_elem_of_In.
  - destruct name as [|a name]; [done|]. exists a, name. split; [done|]. cbn [split] in Hp.
    destruct (Ascii.eqb a "."); [by specialize (Hp "" (or_introl eq_refl))|].
    destruct (split "." name) as [|x xs]; specialize (Hp _ (or_introl eq_refl)); cbn in Hp;
      apply andb_true_iff in Hp as [Ha _]; by rewrite andb_false_r, orb_false_r in Ha.
Qed.

Lemma ZoneName_safe name : ZoneName name = Ok tt -> safe name /\ name <> "".
Proof.
  unfold ZoneName. intros H. destruct (name =? ""); [done|]. cbn in H.
  destruct (Domain name) as [[]|] eqn:Ed; [|done]. by destruct (Domain_safe _ Ed) as (? & ? & _).
Qed.

Lemma label_go_safe s : forall first, label_go first s = true -> safe s.
Proof.
  induction s as [|a s IH]; intros first Hl; [done|]. cbn in Hl. apply andb_true_iff in Hl as [Ha Hs].
  unfold safe. cbn. rewrite (IH _ Hs : str_forall safe_char s = true), andb_true_r.
  apply orb_true_iff in Ha as [Ha|Ha]; [apply orb_true_iff in Ha as [Ha|Ha]; [by apply alnum_safe|]|];
    by char_hyps.
Qed.

Lemma recordLabel_safe label : is_ok (recordLabel label) = true -> safe label.
Proof.
  unfold recordLabel. destruct (label =? ""); [done|]. cbn. destruct (_ <? _)%nat; [done|]. cbn.
  destruct (label_go true label) eqn:E; [|done]. intros _. by eapply label_go_safe.
Qed.

Lemma record_labels_safe labels : forall index, record_labels index labels = Ok tt -> Forall safe labels.
Proof.
  induction labels as [|x labels IH]; intros index H; [constructor|]. cbn in H.
  destruct (String.eqb_spec x "*") as [->|Hne].
  - destruct (negb _); [done|]. cbn in H. constructor; [reflexivity|by eapply IH].
  - destruct (recordLabel x) as [[]|] eqn:Ex; [|done]. constructor; [|by eapply IH].
    apply recordLabel_safe. by rewrite Ex.
Qed.

Lemma RecordName_safe name : RecordName name = Ok tt -> safe name /\ name <> "".
Proof.
  unfold RecordName. intros H. destruct (name =? "") eqn:E0; [done|]. cbn in H.
  apply String.eqb_neq in E0. split; [|done]. destruct (name =? "@") eqn:E1; [by apply String.eqb_eq in E1 as ->|].
  destruct (_ <? _)%nat; [done|]. cbn in H. destruct (has_suffix "." name); [done|]. cbn in H.
  apply (safe_split "."); [done|]. by eapply record_labels_safe.
Qed.

Lemma host_labels_safe labels : host_labels labels = Ok tt -> Forall safe labels.
Proof.
  induction labels as [|x labels IH]; intros H; [constructor|]. cbn in H.
  destruct (x =? "*"); [done|]. cbn in H. destruct (is_ok (recordLabel x)) eqn:Ex; [|done].
  constructor; [by apply recordLabel_safe|by apply IH].
Qed.

Lemma trim_suffix_opt_app p s t : trim_suffix_opt p s = Some t -> s = t ++ p.
Proof.
  revert t. induction s as [|a s IH]; intros t; cbn.
  - destruct (String.eqb_spec p ""); [|done]. intros [= <-]. by subst.
  - destruct (String.eqb_spec p (String a s)) as [->|_]; [by intros [= <-]|].
    destruct (trim_suffix_opt p s) as [u|]; [|done]. intros [= <-]. cbn. by rewrite (IH u).
Qed.

Lemma Hostname_safe name : Hostname name = Ok tt -> safe name /\ name <> "".
Proof.
  unfold Hostname. intros H. destruct (String.eqb_spec name "") as [|Hne]; [done|]. cbn in H.
  destruct (_ <? _)%nat; [done|]. cbn in H. split; [|done].
  assert (Hl : safe (trim_suffix "." name)).
  { destruct (String.eqb_spec (trim_suffix "." name) "") as [->|_]; [done|].
    apply (safe_split "."); [done|]. by apply host_labels_safe. }
  unfold trim_suffix in Hl. destruct (trim_suffix_opt "." name) as [t|] eqn:Et; [|done].
  apply trim_suffix_opt_app in Et as ->. cbn in Hl. by apply safe_app.
Qed.

Lemma ParseIP_safe s a : ParseIP s = Some a -> safe s /\ s <> "".
Proof.
  unfold ParseIP. destruct (ParseAddr s) as [b|] eqn:Ea; [|done].
  destruct (String.eqb_spec (Netip.Zone b) "") as [Hz|]; [|done]. intros _.
  destruct (ParseAddr_chars s b Ea Hz) as [? Hc]. split; [|done]. eapply safe_impl; [apply addr_safe|exact Hc].
Qed.

Lemma ParseCIDR_safe s n : ParseCIDR s = Some n -> safe s /\ s <> "".
Proof.
  unfold ParseCIDR. destruct (cut slash s) as [[x y] found] eqn:Ec. destruct found; [|done]. cbn.
  apply cut_spec in Ec as [_ ->]. destruct (ParseAddr x) as [a|] eqn:Ea; [|done].
  destruct (String.eqb_spec (Netip.Zone a) "") as [Hz|]; [|done]. cbn.
  destruct (udigits y) as [v|] eqn:Ey; [|done]. intros _.
  destruct (ParseAddr_chars x a Ea Hz) as [Hx Hc]. apply udigits_digits in Ey as [_ Hd].
  split; [|by destruct x]. rewrite safe_app. split; [by eapply safe_impl; [apply addr_safe|]|].
  unfold safe. cbn. rewrite andb_true_r || idtac. by eapply safe_impl in Hd; [|apply digit_safe].
Qed.

Lemma MatchAddress_safe value : MatchAddress value = Ok tt -> safe (trim_space value) /\ trim_space value <> "".
Proof.
  unfold MatchAddress. intros H. destruct (String.eqb_spec (to_lower (trim_space value)) "") as [|Hne]; [done|].
  cbn [guard rbind] in H. assert (trim_space value <> "") as Hn by (by intros He; rewrite He in Hne).
  split; [|done]. apply safe_to_lower. destruct (one_of matchKeywords _) eqn:Ek.
  - apply one_of_spec in Ek. revert Ek. generalize (to_lower (trim_space value)). intros t Ht.
    repeat (apply elem_of_cons in Ht as [->|Ht]; [done|]). by apply not_elem_of_nil in Ht.
  - destruct (contains_char "/" _).
    + destruct (ParseCIDR _) eqn:Ep; [|done]. by destruct (ParseCIDR_safe _ _ Ep).
    + destruct (ParseIP _) eqn:Ep; [|done]. by destruct (ParseIP_safe _ _ Ep).
Qed.

Lemma ipValue_safe value wantV6 : ipValue value wantV6 = Ok tt -> safe (trim_space value) /\ trim_space value <> "".
Proof. unfold ipValue. destruct (ParseIP _) eqn:Ep; [|done]. intros _. by apply ParseIP_safe in Ep. Qed.

Lemma txtValue_plain value : txtValue value = Ok tt ->
  value <> "" /\ (String.length value <= MaxTXTValue)%nat /\ str_exists control value = false.
Proof.
  unfold txtValue. intros H. destruct (String.eqb_spec value "") as [|Hne]; [done|]. cbn in H.
  destruct (_ <? _)%nat eqn:El; [done|]. cbn in H. destruct (str_exists control value); [done|].
  apply Nat.ltb_ge in El. done.
Qed.

Lemma outside_of_false lo hi z : outside_of lo hi z = false <-> (lo <= z <= hi)%Z.
Proof. unfold outside_of. rewrite orb_false_iff, !Z.ltb_ge. lia. Qed.
