(* ===== verification/ZoneFile.v ===== *)
(** * Zone files ([agent/internal/dns/zone.go])

    Rendering a zone, the order its records are written in, and the proof that what is
    written is what a reader of master files (RFC 1035, section 5) finds in it: one line to a
    record, whose fields, numbers and quoted strings come back as they were given. *)

From S2P Require Import Prelude GoStr GoSort TenancyRules Netip DnsRules.

#[local] Open Scope string_scope.

(** ** Data *)
Record ZRecord := {
  z_Name : string; z_Type : string; z_TTL : Z; z_Value : string;
  z_Priority : Z; z_Weight : Z; z_Port : Z; z_Flags : Z; z_Tag : string }.

#[global] Instance ZRecord_eq_dec : EqDecision ZRecord.
Proof. solve_decision. Defined.

Record Zone := {
  Name : string; Kind : string; PrimaryNS : string; z_Hostmaster : string;
  Serial : Z; Refresh : Z; Retry : Z; Expire : Z; Minimum : Z; ZTTL : Z;
  Nameservers : list string; Records : list ZRecord;
  DNSSEC : bool; AllowTransfer : list string; AlsoNotify : list string; Masters : list string }.

Definition tab : string := String "009" "".
Definition marker : string := "; Managed by JotHost Panel".

Definition value_of (r : ZRecord) : RecordValue := {|
  v_Type := z_Type r; v_Value := z_Value r; v_Priority := z_Priority r; v_Weight := z_Weight r;
  v_Port := z_Port r; v_Flags := z_Flags r; v_Tag := z_Tag r |}.

(** ** Pieces of a line *)
Definition absolute (name : string) : string :=
  let trimmed := trim_space name in if trimmed =? "" then "." else trimmed.

Fixpoint escape (c : ascii) (s : string) : string :=
  match s with
  | "" => ""
  | String a s' => if Ascii.eqb a c then String "\" (String a (escape c s')) else String a (escape c s')
  end.

Definition dquote : ascii := "034".
Definition quote (value : string) : string :=
  String dquote (escape dquote (escape "\" value) ++ String dquote "").

Definition soaMailbox (email : string) : string :=
  let '(local, domain, found) := cut "@" email in
  if negb found then absolute email
  else escape "." local ++ "." ++ trim_suffix "." domain ++ ".".

(** [s[:n]] and [s[n:]], [n] taken as the length when it is past it. *)
Fixpoint str_take (n : nat) (s : string) : string :=
  match n, s with
  | O, _ | _, "" => ""
  | S n', String a s' => String a (str_take n' s')
  end.
Fixpoint str_drop (n : nat) (s : string) : string :=
  match n, s with
  | O, _ | _, "" => s
  | S n', String _ s' => str_drop n' s'
  end.

(** The value in pieces of [MaxTXTString] bytes; [fuel] bounds their number. *)
Fixpoint chunks (fuel : nat) (value : string) : list string :=
  match fuel with
  | O => []
  | S f => if value =? "" then [] else str_take MaxTXTString value :: chunks f (str_drop MaxTXTString value)
  end.

Definition txtStrings (value : string) : string :=
  if (String.length value <=? MaxTXTString)%nat then quote value
  else "(" ++ join " " (quote <$> chunks (String.length value) value) ++ ")".

(** ** One record *)
Definition rdata (r : ZRecord) : result dns_rule_err string :=
  let type := z_Type r in
  if one_of [RecordA; RecordAAAA] type then Ok (trim_space (z_Value r))
  else if one_of [RecordCNAME; RecordNS; RecordPTR] type then Ok (absolute (z_Value r))
  else if type =? RecordMX then Ok (itoa (z_Priority r) ++ " " ++ absolute (z_Value r))
  else if type =? RecordSRV then
    Ok (itoa (z_Priority r) ++ " " ++ itoa (z_Weight r) ++ " " ++ itoa (z_Port r) ++ " " ++
        absolute (z_Value r))
  else if type =? RecordCAA then Ok (itoa (z_Flags r) ++ " " ++ z_Tag r ++ " " ++ quote (z_Value r))
  else if type =? RecordTXT then Ok (txtStrings (z_Value r))
  else Err ErrInvalidRecordType.

Definition line_of (r : ZRecord) (data : string) : string :=
  let ttl := if (0 <? z_TTL r)%Z then itoa (z_TTL r) else "" in
  z_Name r ++ tab ++ ttl ++ tab ++ "IN" ++ tab ++ z_Type r ++ tab ++ data.

Definition renderRecord (r : ZRecord) : result dns_rule_err string :=
  RecordName (z_Name r) ;?
  TTL (z_TTL r) ;?
  RecordOf (value_of r) ;?
  let? data := rdata r in
  Ok (line_of r data ++ nl).

(** ** The order of the file *)
(** The comparison [sortRecords] hands to [sort.SliceStable]. *)
Definition record_before (l r : ZRecord) : bool :=
  if negb (z_Name l =? z_Name r) then
    if z_Name l =? "@" then true
    else if z_Name r =? "@" then false
    else str_lt (z_Name l) (z_Name r)
  else if negb (z_Type l =? z_Type r) then str_lt (z_Type l) (z_Type r)
  else if negb (z_Priority l =? z_Priority r)%Z then (z_Priority l <? z_Priority r)%Z
  else str_lt (z_Value l) (z_Value r).

Definition sortRecords : list ZRecord -> list ZRecord := slice_stable record_before.

Fixpoint render_all (records : list ZRecord) : result dns_rule_err string :=
  match records with
  | [] => Ok ""
  | r :: more => let? line := renderRecord r in let? rest := render_all more in Ok (line ++ rest)
  end.

(** ** The zone *)
Definition soa_lines (zone : Zone) : list string := [
  "@" ++ tab ++ "IN" ++ tab ++ "SOA" ++ tab ++ absolute (PrimaryNS zone) ++ " " ++
    soaMailbox (z_Hostmaster zone) ++ " (";
  tab ++ tab ++ tab ++ itoa (Serial zone) ++ tab ++ "; serial";
  tab ++ tab ++ tab ++ itoa (Refresh zone) ++ tab ++ "; refresh";
  tab ++ tab ++ tab ++ itoa (Retry zone) ++ tab ++ "; retry";
  tab ++ tab ++ tab ++ itoa (Expire zone) ++ tab ++ "; expire";
  tab ++ tab ++ tab ++ itoa (Minimum zone) ++ " )" ++ tab ++ "; negative cache TTL"].

Definition ns_line (server : string) : string := "@" ++ tab ++ "IN" ++ tab ++ "NS" ++ tab ++ absolute server.

Definition top_lines (zone : Zone) : list string := [
  marker ++ ". Do not edit: it is rewritten whenever a record changes.";
  "; zone: " ++ Name zone;
  "$ORIGIN " ++ Name zone ++ ".";
  "$TTL " ++ itoa (ZTTL zone);
  ""].
Definition zone_header (zone : Zone) : list string :=
  (top_lines zone ++ soa_lines zone ++ [""] ++ (ns_line <$> Nameservers zone) ++ [""])%list.

Definition RenderZone (zone : Zone) : result dns_rule_err string :=
  ZoneName (Name zone) ;?
  guard (bool_decide (Nameservers zone = [])) ErrInvalidZone ;?
  let? records := render_all (sortRecords (Records zone)) in
  Ok (unlines (zone_header zone) ++ records).

(** ** What the operation checks before ([agent/internal/operations/dns.go])

    The fields are copied as they are; every refusal answers [CodeInvalidPayload]. *)
Fixpoint all_ok {A} (check : A -> result dns_rule_err unit) (l : list A) : result dns_rule_err unit :=
  match l with [] => Ok tt | x :: more => check x ;? all_ok check more end.

Definition checkMatchList : list string -> result dns_rule_err unit := all_ok MatchAddress.

Definition check_record (r : ZRecord) : result dns_rule_err unit :=
  RecordName (z_Name r) ;? TTL (z_TTL r) ;? RecordOf (value_of r).

Definition payload_zone (z : Zone) : result dns_rule_err Zone :=
  ZoneName (Name z) ;?
  ZoneKind (Kind z) ;?
  (if Kind z =? ZoneMaster then
     Hostmaster (z_Hostmaster z) ;?
     Hostname (PrimaryNS z) ;?
     SOATimers (Refresh z) (Retry z) (Expire z) (Minimum z) ;?
     guard (outside_of MinTTL MaxTTL (ZTTL z)) ErrInvalidTTL ;?
     all_ok Hostname (Nameservers z)
   else Ok tt) ;?
  all_ok checkMatchList [AllowTransfer z; AlsoNotify z; Masters z] ;?
  all_ok check_record (Records z) ;?
  Ok z.

(** ** Reading a zone file

    What a reader of the format finds: fields between tabs, strings between quotes with a
    backslash before what would end them (or before three digits), several strings between
    parentheses. *)
Fixpoint read_quoted (s : string) : option (string * string) :=
  match s with
  | "" => None
  | String a rest =>
      if Ascii.eqb a dquote then Some ("", rest)
      else if Ascii.eqb a "\" then
        match rest with
        | "" => None
        | String b after =>
            if is_digit b then
              match after with
              | String c (String d after') =>
                  if is_digit c && is_digit d then
                    let byte := (digit_val b * 100 + digit_val c * 10 + digit_val d)%Z in
                    (fun '(x, r) => (String (ascii_of_nat (Z.to_nat byte)) x, r)) <$> read_quoted after'
                  else None
              | _ => None
              end
            else (fun '(x, r) => (String b x, r)) <$> read_quoted after
        end
      else (fun '(x, r) => (String a x, r)) <$> read_quoted rest
  end.

(** Quoted strings with a space between them. *)
Fixpoint read_strings (fuel : nat) (s : string) : option (list string) :=
  match fuel, s with
  | S f, String a rest =>
      if negb (Ascii.eqb a dquote) then None
      else match read_quoted rest with
           | Some (x, "") => Some [x]
           | Some (x, String b more) => if Ascii.eqb b " " then cons x <$> read_strings f more else None
           | None => None
           end
  | _, _ => None
  end.

(** A TXT record's text: its strings, none longer than the wire format holds, put together. *)
Definition read_txt (s : string) : option string :=
  let body := match trim_prefix_opt "(" s with Some t => trim_suffix_opt ")" t | None => Some s end in
  strings ← body ≫= (fun b => read_strings (String.length b) b);
  if forallb (fun x => String.length x <=? MaxTXTString)%nat strings then Some (join "" strings) else None.

Definition record0 : ZRecord := {|
  z_Name := ""; z_Type := ""; z_TTL := 0; z_Value := ""; z_Priority := 0; z_Weight := 0; z_Port := 0;
  z_Flags := 0; z_Tag := "" |}.

Definition read_rdata (name : string) (ttl : Z) (type data : string) : option ZRecord :=
  let plain value p w port := Some {|
    z_Name := name; z_Type := type; z_TTL := ttl; z_Value := value; z_Priority := p; z_Weight := w;
    z_Port := port; z_Flags := 0; z_Tag := "" |} in
  if one_of [RecordA; RecordAAAA; RecordCNAME; RecordNS; RecordPTR] type then plain data 0%Z 0%Z 0%Z
  else if type =? RecordMX then
    match split " " data with [p; v] => n ← atoi p; plain v n 0%Z 0%Z | _ => None end
  else if type =? RecordSRV then
    match split " " data with
    | [p; w; q; v] => n ← atoi p; m ← atoi w; k ← atoi q; plain v n m k
    | _ => None
    end
  else if type =? RecordTXT then v ← read_txt data; plain v 0%Z 0%Z 0%Z
  else if type =? RecordCAA then
    let '(flags, rest, _) := cut " " data in
    let '(tag, quoted, _) := cut " " rest in
    n ← atoi flags;
    match quoted with
    | String a q => if Ascii.eqb a dquote then
        match read_quoted q with
        | Some (v, "") => Some {|
            z_Name := name; z_Type := type; z_TTL := ttl; z_Value := v; z_Priority := 0; z_Weight := 0;
            z_Port := 0; z_Flags := n; z_Tag := tag |}
        | _ => None
        end else None
    | "" => None
    end
  else None.

Definition read_fields (fields : list string) : option ZRecord :=
  match fields with
  | [name; ttl; cls; type; data] =>
      if cls =? "IN" then
        t ← (if ttl =? "" then Some 0%Z else atoi ttl); read_rdata name t type data
      else None
  | _ => None
  end.

Definition read_line (line : string) : option ZRecord := read_fields (split "009" line).

(** A name server of the zone. *)
Definition read_ns (fields : list string) : option string :=
  match fields with
  | [name; cls; type; target] =>
      if (name =? "@") && (cls =? "IN") && (type =? RecordNS) then Some target else None
  | _ => None
  end.

(** The timer of a line of the SOA record. *)
Definition read_timer (fields : list string) : option Z :=
  match fields with
  | [""; ""; ""; n; _] => atoi (fst (fst (cut " " n)))
  | _ => None
  end.

(** What a record means: the fields its type has, an address without space around it. *)
Definition normal (r : ZRecord) : ZRecord :=
  let type := z_Type r in
  let when (b : bool) (z : Z) := if b then z else 0%Z in {|
  z_Name := z_Name r; z_Type := type; z_TTL := z_TTL r;
  z_Value := if one_of [RecordA; RecordAAAA] type then trim_space (z_Value r) else z_Value r;
  z_Priority := when (one_of [RecordMX; RecordSRV] type) (z_Priority r);
  z_Weight := when (type =? RecordSRV) (z_Weight r);
  z_Port := when (type =? RecordSRV) (z_Port r);
  z_Flags := when (type =? RecordCAA) (z_Flags r);
  z_Tag := if type =? RecordCAA then z_Tag r else "" |}.

(** ** The order *)
Definition name_lt (x y : string) : bool :=
  if x =? y then false else if x =? "@" then true else if y =? "@" then false else str_lt x y.

Lemma name_lt_total : total_order name_lt.
Proof.
  pose proof str_total as [Ht Hr Hi]. split.
  - intros x y Hne. unfold name_lt. rewrite (String.eqb_sym y x).
    destruct (String.eqb_spec x y), (String.eqb_spec x "@"), (String.eqb_spec y "@"); naive_solver.
  - intros x y z. unfold name_lt.
    destruct (String.eqb_spec x y) as [|N1], (String.eqb_spec y z) as [|N2]; try done.
    destruct (String.eqb_spec x z) as [<-|N3].
    + destruct (String.eqb_spec x "@"), (String.eqb_spec y "@"); try done; [congruence|]. intros H1 H2. pose proof (Hr _ _ _ H1 H2) as H3. by rewrite Hi in H3.
    + destruct (String.eqb_spec x "@"); [done|]. destruct (String.eqb_spec y "@"); [done|].
      destruct (String.eqb_spec z "@"); [done|]. apply Hr.
  - intros x. unfold name_lt. by rewrite String.eqb_refl.
Qed.

Lemma record_before_weak : weak_order record_before.
Proof.
  eapply weak_order_ext; cycle 1.
  - apply (by_field_weak z_Name name_lt), (by_field_weak z_Type str_lt),
      (by_field_weak z_Priority Z.ltb), (by_field_weak z_Value str_lt), ties_weak;
      auto using name_lt_total, str_total, Z_total.
  - intros x y. unfold record_before, by_field, name_lt.
    destruct (String.eqb_spec (z_Name x) (z_Name y)) as [E|E]; cbn [negb].
    + rewrite decide_True by done. destruct (String.eqb_spec (z_Type x) (z_Type y)) as [E1|E1]; cbn [negb].
      * rewrite decide_True by done. destruct (Z.eqb_spec (z_Priority x) (z_Priority y)) as [E2|E2]; cbn [negb].
        -- rewrite decide_True by done. case_decide as E3; [|done]. rewrite E3. apply str_total.
        -- by rewrite decide_False.
      * by rewrite decide_False.
    + rewrite decide_False by done. done.
Qed.

Lemma str_ties x y : str_lt x y = false -> str_lt y x = false -> x = y.
Proof.
  intros H1 H2. destruct (decide (x = y)) as [|Hne]; [done|].
  pose proof (lt_total _ str_total x y Hne) as H. by rewrite H1, H2 in H.
Qed.
(** Records that tie agree in what the order looks at. *)
Lemma ties x y : record_before x y = false -> record_before y x = false ->
  z_Name x = z_Name y /\ z_Type x = z_Type y /\ z_Priority x = z_Priority y /\ z_Value x = z_Value y.
Proof.
  unfold record_before. rewrite (String.eqb_sym (z_Name y) (z_Name x)), (String.eqb_sym (z_Type y) (z_Type x)),
    (Z.eqb_sym (z_Priority y) (z_Priority x)).
  destruct (String.eqb_spec (z_Name x) (z_Name y)) as [E|E]; cbn [negb].
  - destruct (String.eqb_spec (z_Type x) (z_Type y)) as [E1|E1]; cbn [negb].
    + destruct (Z.eqb_spec (z_Priority x) (z_Priority y)) as [E2|E2]; cbn [negb].
      * intros H1 H2. split_and!; auto using str_ties.
      * rewrite !Z.ltb_ge. lia.
    + intros H1 H2. by destruct E1; apply str_ties.
  - destruct (z_Name x =? "@"), (z_Name y =? "@"); try done. intros H1 H2. by destruct E; apply str_ties.
Qed.

Lemma render_all_spec records file : render_all records = Ok file ->
  exists datas, file = unlines (zip_with line_of records datas) /\
    Forall2 (fun r d => check_record r = Ok tt /\ rdata r = Ok d) records datas.
Proof.
  revert file. induction records as [|r records IH]; intros file H; [exists []; cbn in *; split; [congruence|done]|].
  cbn in H. apply rbind_ok in H as (line & Hl & H). apply rbind_ok in H as (rest & Hr & [= <-]).
  destruct (IH _ Hr) as (datas & -> & Hf). unfold renderRecord in Hl.
  apply rbind_ok in Hl as ([] & Hn & Hl). apply rbind_ok in Hl as ([] & Ht & Hl).
  apply rbind_ok in Hl as ([] & Hv & Hl). apply rbind_ok in Hl as (data & Hd & [= <-]).
  exists (data :: datas). split; [|constructor; [|done]].
  - cbn. by rewrite app_assoc_str.
  - split; [|done]. unfold check_record. by rewrite Hn, Ht, Hv.
Qed.

Lemma render_all_ok records : (forall r, r ∈ records -> is_ok (renderRecord r) = true) -> is_ok (render_all records) = true.
Proof.
  induction records as [|r records IH]; [done|]. intros Hr. cbn.
  pose proof (Hr r (list_elem_of_here _ _)) as H1. destruct (renderRecord r); [|done]. cbn.
  assert (is_ok (render_all records) = true) as H2 by (apply IH; intros x Hx; apply Hr; by apply list_elem_of_further).
  by destruct (render_all records).
Qed.

(** ** What a line is made of *)
Create HintDb plain discriminated.
Definition plain_char (a : ascii) : bool := negb (control a).
Definition plain (s : string) : Prop := str_forall plain_char s = true.

Lemma plain_app s t : plain (s ++ t) <-> plain s /\ plain t.
Proof. unfold plain. by rewrite str_forall_app, andb_true_iff. Qed.
Lemma safe_plain s : safe s -> plain s.
Proof. apply str_forall_impl. intros a. each_char a. Qed.
Lemma plain_no c s : plain_char c = false -> plain s -> contains_char c s = false.
Proof. intros Hc Hs. by apply (contains_char_forall c plain_char). Qed.
Lemma itoa_plain z : plain (itoa z).
Proof. apply itoa_forall; [|reflexivity]. intros a. each_char a. Qed.
Lemma itoa_no_space z : contains_char " " (itoa z) = false.
Proof.
  apply (contains_char_forall _ (fun a => negb (Ascii.eqb a " "))); [|reflexivity].
  apply itoa_forall; [|reflexivity]. intros a. each_char a.
Qed.
Lemma not_control_plain s : str_exists control s = false -> plain s.
Proof. rewrite str_exists_negb, negb_false_iff. intros H. exact H. Qed.
#[local] Hint Resolve safe_plain itoa_plain not_control_plain : plain.

Lemma escape_plain c s : plain s -> plain (escape c s).
Proof.
  unfold plain. induction s as [|a s IH]; [done|]. cbn [str_forall]. intros H. bool_hyps.
  cbn [escape]. destruct (Ascii.eqb a c); cbn [str_forall]; rewrite IH by done; by rewrite H.
Qed.
Lemma quote_plain s : plain s -> plain (quote s).
Proof.
  intros Hs. unfold quote. change (plain (String dquote "" ++ (escape dquote (escape "\" s) ++ String dquote ""))).
  rewrite !plain_app. split; [done|]. split; [by do 2 apply escape_plain|done].
Qed.

Lemma str_take_drop n s : str_take n s ++ str_drop n s = s.
Proof. revert s. induction n as [|n IH]; intros [|a s]; try done. cbn. by rewrite IH. Qed.
Lemma str_take_length n s : (String.length (str_take n s) <= n)%nat.
Proof. revert s. induction n as [|n IH]; intros [|a s]; cbn; try lia. specialize (IH s). lia. Qed.
Lemma str_drop_length n s : String.length (str_drop n s) = (String.length s - n)%nat.
Proof. revert s. induction n as [|n IH]; intros [|a s]; by cbn. Qed.

Lemma chunks_spec fuel s : (String.length s <= fuel)%nat ->
  join "" (chunks fuel s) = s /\ Forall (fun x => String.length x <= MaxTXTString)%nat (chunks fuel s) /\
  (plain s -> Forall plain (chunks fuel s)) /\ (s <> "" -> chunks fuel s <> []).
Proof.
  revert s. induction fuel as [|f IH]; intros s Hl.
  - destruct s; [|cbn in Hl; lia]. split_and!; done.
  - cbn [chunks]. destruct (String.eqb_spec s "") as [->|Hne]; [split_and!; done|].
    destruct (IH (str_drop MaxTXTString s)) as (H1 & H2 & H3 & _).
    { rewrite str_drop_length. destruct s; [done|]. cbn in *. unfold MaxTXTString. lia. }
    split_and!.
    + assert (Hj : forall x l, join "" (x :: l) = x ++ join "" l).
      { intros x [|y l]; [by cbn; rewrite app_nil_r_str|done]. }
      by rewrite Hj, H1, str_take_drop.
    + constructor; [apply str_take_length|done].
    + intros Hp. rewrite <- (str_take_drop MaxTXTString s), plain_app in Hp. destruct Hp.
      constructor; auto.
    + done.
Qed.

Lemma read_escaped a t : is_digit a = false ->
  read_quoted (String "\" (String a t)) = (fun '(x, r) => (String a x, r)) <$> read_quoted t.
Proof.
  intros H. cbn [read_quoted]. change (Ascii.eqb "\" dquote) with false. rewrite eqb_refl_char, H. done.
Qed.
Lemma read_plain a t : a <> dquote -> a <> "\"%char ->
  read_quoted (String a t) = (fun '(x, r) => (String a x, r)) <$> read_quoted t.
Proof. intros H1 H2. cbn [read_quoted]. by rewrite (proj2 (Ascii.eqb_neq a dquote) H1), (proj2 (Ascii.eqb_neq a "\") H2). Qed.
Lemma escape_hit c s : escape c (String c s) = String "\" (String c (escape c s)).
Proof. cbn [escape]. by rewrite eqb_refl_char. Qed.
Lemma escape_miss c a s : a <> c -> escape c (String a s) = String a (escape c s).
Proof. intros Hne. cbn [escape]. by rewrite (proj2 (Ascii.eqb_neq a c) Hne). Qed.

Lemma read_quoted_escape s t : read_quoted (escape dquote (escape "\" s) ++ String dquote t) = Some (s, t).
Proof.
  induction s as [|a s IH]; [done|].
  destruct (decide (a = "\"%char)) as [->|H1]; [|destruct (decide (a = dquote)) as [->|H2]].
  - rewrite escape_hit, !escape_miss, !app_string_cons, read_escaped, IH by done. done.
  - rewrite escape_miss, escape_hit, !app_string_cons, read_escaped, IH by done. done.
  - rewrite !escape_miss, !app_string_cons, read_plain, IH by done. done.
Qed.

Lemma read_strings_quotes l fuel : l <> [] -> (length l <= fuel)%nat ->
  read_strings fuel (join " " (quote <$> l)) = Some l.
Proof.
  revert l. induction fuel as [|f IH]; intros [|x l] Hne Hl; try done; [cbn in Hl; lia|].
  destruct l as [|y l].
  - cbn. rewrite read_quoted_escape. done.
  - change (join " " (quote <$> x :: y :: l)) with (quote x ++ (" " ++ join " " (quote <$> y :: l))).
    unfold quote at 1. cbn [String.append read_strings negb]. rewrite eqb_refl_char. cbn [negb].
    rewrite app_assoc_str. change (String dquote "" ++ ?t) with (String dquote t).
    rewrite read_quoted_escape. cbn [String.append]. rewrite eqb_refl_char, IH; [done|done|cbn in *; lia].
Qed.

Lemma trim_suffix_opt_snoc p t : p <> "" -> trim_suffix_opt p (t ++ p) = Some t.
Proof.
  intros Hp. induction t as [|a t IH]; cbn [String.append trim_suffix_opt].
  - destruct p; [done|]. cbn [trim_suffix_opt]. by rewrite String.eqb_refl.
  - rewrite (proj2 (String.eqb_neq p (String a (t ++ p)))); [by rewrite IH|].
    intros He. apply (f_equal String.length) in He. cbn in He. rewrite length_app_str in He. lia.
Qed.

Lemma chunks_count fuel s : (length (chunks fuel s) <= String.length s)%nat.
Proof.
  revert s. induction fuel as [|f IH]; intros s; [cbn; lia|]. cbn [chunks].
  destruct (String.eqb_spec s "") as [|Hne]; [cbn; lia|]. cbn [length].
  specialize (IH (str_drop MaxTXTString s)). rewrite str_drop_length in IH.
  destruct s; [done|]. cbn in *. unfold MaxTXTString in *. lia.
Qed.
Lemma join_quotes_length l : (length l <= String.length (join " " (quote <$> l)))%nat.
Proof.
  induction l as [|x [|y l] IH]; [done|cbn; lia|].
  change (join " " (quote <$> x :: y :: l)) with (quote x ++ (" " ++ join " " (quote <$> y :: l))).
  rewrite !length_app_str. cbn [length String.length] in *. lia.
Qed.

Lemma read_txt_strings v : plain v -> read_txt (txtStrings v) = Some v.
Proof.
  intros Hp. unfold txtStrings. destruct (Nat.leb_spec (String.length v) MaxTXTString) as [Hl|Hl].
  - unfold read_txt. change (trim_prefix_opt "(" (quote v)) with (@None string). cbn [mbind option_bind].
    rewrite (read_strings_quotes [v]); [|done|cbn; lia]. cbn -[MaxTXTString].
    by rewrite (proj2 (Nat.leb_le _ _) Hl).
  - destruct (chunks_spec (String.length v) v) as (Hj & Hs & _ & Hne); [lia|].
    unfold read_txt. set (l := chunks _ v) in *.
    rewrite (proj2 (trim_prefix_opt_spec "(" _ _) eq_refl). rewrite trim_suffix_opt_snoc by done. cbn [mbind option_bind].
    rewrite read_strings_quotes; [|apply Hne; intros ->; unfold MaxTXTString in *; cbn in Hl; lia|apply join_quotes_length].
    cbn [mbind option_bind]. rewrite (proj2 (forallb_forall _ _)); [by rewrite Hj|]. intros x Hx.
    rewrite list.Forall_forall in Hs. apply Nat.leb_le, Hs. by apply list_elem_of_In.
Qed.

Lemma txtStrings_plain v : plain v -> plain (txtStrings v).
Proof.
  intros Hp. unfold txtStrings. destruct (_ <=? _)%nat; [by apply quote_plain|].
  rewrite !plain_app. split_and!; [done| |done].
  apply join_forall; [done|]. destruct (chunks_spec (String.length v) v) as (_ & _ & Hc & _); [lia|].
  apply Forall_fmap. eapply list.Forall_impl; [by apply Hc|]. apply quote_plain.
Qed.

(** ** A record comes back *)
Lemma absolute_safe v : safe v -> v <> "" -> absolute v = v.
Proof. intros Hs Hne. unfold absolute. rewrite safe_trim by done. by rewrite (proj2 (String.eqb_neq v "")). Qed.

Lemma split_one c s : contains_char c s = false -> split c s = [s].
Proof. apply split_none. Qed.
Lemma port_itoa n : port16 n = Ok tt -> atoi (itoa n) = Some n.
Proof.
  unfold port16. rewrite guard_ok, outside_of_false. intros H. apply atoi_itoa; [lia|].
  unfold in_int, int_min, int_max. apply andb_true_iff. split; apply Z.leb_le; lia.
Qed.
Lemma small_itoa n hi : (0 <= n <= hi)%Z -> (hi < 2 ^ 63)%Z -> atoi (itoa n) = Some n.
Proof.
  intros H Hh. apply atoi_itoa; [lia|]. unfold in_int, int_min, int_max.
  apply andb_true_iff. split; apply Z.leb_le; lia.
Qed.

(** Decides the comparisons of a type that is known. *)
Ltac known_type :=
  let decided b k := (let v := eval vm_compute in b in match v with true => k v | false => k v end) in
  repeat match goal with
  | |- context [one_of ?l ?t] => decided (one_of l t) ltac:(fun v => change (one_of l t) with v)
  | |- context [String.eqb ?a ?b] => decided (String.eqb a b) ltac:(fun v => change (String.eqb a b) with v)
  | H : context [one_of ?l ?t] |- _ => decided (one_of l t) ltac:(fun v => change (one_of l t) with v in H)
  | H : context [String.eqb ?a ?b] |- _ =>
      decided (String.eqb a b) ltac:(fun v => change (String.eqb a b) with v in H)
  end; cbv beta iota in *.

Lemma safe_no_space v : safe v -> contains_char " " v = false.
Proof. by apply safe_without. Qed.

(** The text after the type: nothing in it ends a line or a field, and it reads back. *)
Lemma rdata_reads r data : RecordOf (value_of r) = Ok tt -> rdata r = Ok data ->
  plain data /\ read_rdata (z_Name r) (z_TTL r) (z_Type r) data = Some (normal r).
Proof.
  destruct r as [name type ttl v p w q f g]. unfold RecordOf, value_of, rdata, read_rdata, normal.
  cbn [v_Type z_Name z_Type z_TTL z_Value z_Priority z_Weight z_Port z_Flags z_Tag].
  intros H Hd. apply rbind_ok in H as ([] & Ht & Hv). unfold RecordType in Ht.
  apply guard_ok, negb_false_iff, one_of_spec in Ht. unfold record_value in Hv. cbn [v_Type] in Hv.
  assert (Hhost : forall x, Hostname v = Ok tt -> plain x -> (plain v /\ plain (x ++ absolute v)) /\ absolute v = v /\ contains_char " " v = false).
  { intros x Hh Hx. destruct (Hostname_safe _ Hh) as [Hs Hne]. rewrite absolute_safe by done.
    split_and!; [by apply safe_plain| |done|by apply safe_no_space]. rewrite plain_app. eauto with plain. }
  unfold RecordTypes in Ht. repeat (apply elem_of_cons in Ht as [->|Ht]); [..|by apply not_elem_of_nil in Ht];
    known_type; simplify_eq.
  - destruct (ipValue_safe _ _ Hv). eauto with plain.
  - destruct (ipValue_safe _ _ Hv). eauto with plain.
  - destruct (Hhost "" Hv) as ((Hpl & _) & -> & _); done.
  - apply rbind_ok in Hv as ([] & Hp & Hv). destruct (Hhost (itoa p ++ " ") Hv) as ((_ & Hpl) & Ea & Hsp).
    { rewrite plain_app. eauto with plain. }
    rewrite app_assoc_str in Hpl. split; [done|]. rewrite Ea. cbn [String.append]. rewrite split_app by apply itoa_no_space.
    rewrite split_one by done. by rewrite (port_itoa p Hp).
  - destruct (txtValue_plain _ Hv) as (_ & _ & Hpl). apply not_control_plain in Hpl.
    split; [by apply txtStrings_plain|]. by rewrite read_txt_strings.
  - destruct (Hhost "" Hv) as ((Hpl & _) & -> & _); done.
  - unfold caaValue in Hv. cbn [v_Flags v_Tag v_Value] in Hv.
    apply rbind_ok in Hv as ([] & Hf & Hv). apply rbind_ok in Hv as ([] & Hg & Hv).
    apply rbind_ok in Hv as ([] & _ & Hv). destruct (txtValue_plain _ Hv) as (_ & _ & Hpl).
    apply not_control_plain in Hpl. apply guard_ok, outside_of_false in Hf.
    apply guard_ok, negb_false_iff, one_of_spec in Hg.
    assert (Htag : plain g /\ contains_char " " g = false).
    { repeat (apply elem_of_cons in Hg as [->|Hg]; [by split|]). by apply not_elem_of_nil in Hg. }
    destruct Htag as [Hg1 Hg2]. split.
    { change (plain (itoa f ++ " " ++ g ++ " " ++ quote v)). rewrite !plain_app.
      split_and!; first [reflexivity | by eauto using quote_plain with plain]. }
    cbn [String.append]. rewrite cut_app by apply itoa_no_space. rewrite cut_app by done.
    rewrite (small_itoa f 255) by lia. unfold quote. cbn [mbind option_bind]. rewrite eqb_refl_char, read_quoted_escape. done.
  - unfold srvValue in Hv. cbn [v_Priority v_Weight v_Port v_Value] in Hv.
    apply rbind_ok in Hv as ([] & Hp & Hv). apply rbind_ok in Hv as ([] & Hw & Hv).
    apply rbind_ok in Hv as ([] & Hq & Hv). apply guard_ok, outside_of_false in Hq.
    destruct (Hhost (itoa p ++ " " ++ itoa w ++ " " ++ itoa q ++ " ") Hv) as ((_ & Hpl) & Ea & Hsp).
    { rewrite !plain_app. split_and!; first [reflexivity | by eauto with plain]. }
    rewrite !app_assoc_str in Hpl. split; [done|]. rewrite Ea. cbn [String.append].
    rewrite !split_app by apply itoa_no_space. rewrite split_one by done.
    by rewrite (port_itoa p Hp), (port_itoa w Hw), (small_itoa q 65535) by lia.
  - destruct (Hhost "" Hv) as ((Hpl & _) & -> & _); done.
Qed.

(** A line with a tab between its fields, and nothing else in the way. *)
Definition fields_of (line : string) (l : list string) : Prop := line = join tab l /\ Forall plain l /\ l <> [].

Lemma fields_split line l : fields_of line l -> split "009" line = l /\ one_line line.
Proof.
  intros (-> & Hp & Hne). split.
  - apply split_join; [done|]. eapply list.Forall_impl; [exact Hp|]. intros x. by apply plain_no.
  - unfold one_line. apply (contains_char_forall _ (fun a => negb (Ascii.eqb a LF))); [|reflexivity].
    apply join_forall; [reflexivity|]. eapply list.Forall_impl; [exact Hp|].
    intros x. apply str_forall_impl. intros a. each_char a.
Qed.

Lemma read_line_of r data : check_record r = Ok tt -> rdata r = Ok data ->
  exists ttl, fields_of (line_of r data) [z_Name r; ttl; "IN"; z_Type r; data] /\
    read_fields [z_Name r; ttl; "IN"; z_Type r; data] = Some (normal r).
Proof.
  intros Hc Hd. unfold check_record in Hc. apply rbind_ok in Hc as ([] & Hn & Hc).
  apply rbind_ok in Hc as ([] & Ht & Hv). destruct (rdata_reads r data Hv Hd) as [Hp Hr].
  destruct (RecordName_safe _ Hn) as [Hns _].
  assert (Hty : safe (z_Type r)).
  { unfold RecordOf in Hv. apply rbind_ok in Hv as ([] & Hy & _). unfold RecordType in Hy.
    apply guard_ok, negb_false_iff, one_of_spec in Hy. cbn [v_Type value_of] in Hy. revert Hy.
    generalize (z_Type r). intros t Ht'. repeat (apply elem_of_cons in Ht' as [->|Ht']; [reflexivity|]).
    by apply not_elem_of_nil in Ht'. }
  set (ttl := if (0 <? z_TTL r)%Z then itoa (z_TTL r) else "").
  assert (Httl : plain ttl) by (unfold ttl; destruct (_ <? _)%Z; [by eauto with plain|reflexivity]).
  exists ttl. split.
  - split_and!; [done| |done]. repeat constructor; first [reflexivity | by eauto with plain].
  - unfold read_fields. change ("IN" =? "IN") with true. cbv beta iota.
    assert (Htt : (if ttl =? "" then Some 0%Z else atoi ttl) = Some (z_TTL r)).
    { unfold TTL in Ht. unfold ttl. destruct (Z.eqb_spec (z_TTL r) 0) as [->|Hz]; [done|].
      apply guard_ok, outside_of_false in Ht. unfold MinTTL, MaxTTL in Ht.
      rewrite (proj2 (Z.ltb_lt 0 (z_TTL r))) by lia.
      rewrite (small_itoa (z_TTL r) 604800) by lia. destruct (itoa (z_TTL r)) eqn:E; [|done].
      pose proof (small_itoa (z_TTL r) 604800) as He. rewrite E in He. by discriminate He; lia. }
    rewrite Htt. cbn [mbind option_bind]. exact Hr.
Qed.

(** ** The whole file *)
Lemma all_ok_Forall {A} (check : A -> result dns_rule_err unit) l :
  all_ok check l = Ok tt <-> Forall (fun x => check x = Ok tt) l.
Proof.
  induction l as [|x l IH]; [by cbn|]. cbn. rewrite list.Forall_cons, <- IH.
  destruct (check x) as [[]|]; cbn; naive_solver.
Qed.

Lemma soaMailbox_plain email : Hostmaster email = Ok tt -> plain (soaMailbox email).
Proof.
  unfold Hostmaster, soaMailbox. intros H. apply rbind_ok in H as ([] & _ & H).
  destruct (cut "@" email) as [[local domain] found]. apply rbind_ok in H as ([] & Hf & H).
  apply guard_ok, orb_false_iff in Hf as [Hf _]. apply orb_false_iff in Hf as [Hf _].
  apply rbind_ok in H as ([] & _ & H). apply rbind_ok in H as ([] & Hl & Hd).
  apply guard_ok, negb_false_iff in Hl. apply negb_false_iff in Hf as ->. cbn [negb].
  destruct (Domain_safe _ Hd) as (Hs & _).
  rewrite !plain_app. split_and!; [|reflexivity| |reflexivity].
  - apply escape_plain. unfold plain. eapply str_forall_impl; [|exact Hl]. intros a. each_char a.
  - unfold trim_suffix. destruct (trim_suffix_opt "." domain) as [t|] eqn:E; [|by apply safe_plain].
    apply trim_suffix_opt_app in E as ->. apply safe_app in Hs as [Hs _]. by apply safe_plain.
Qed.

Lemma header_lines zone : ZoneName (Name zone) = Ok tt ->
  Hostmaster (z_Hostmaster zone) = Ok tt -> Hostname (PrimaryNS zone) = Ok tt ->
  Forall2 fields_of (top_lines zone ++ soa_lines zone ++ [""])%list ([
    [marker ++ ". Do not edit: it is rewritten whenever a record changes."];
    ["; zone: " ++ Name zone]; ["$ORIGIN " ++ Name zone ++ "."]; ["$TTL " ++ itoa (ZTTL zone)]; [""];
    ["@"; "IN"; "SOA"; PrimaryNS zone ++ " " ++ soaMailbox (z_Hostmaster zone) ++ " ("];
    [""; ""; ""; itoa (Serial zone); "; serial"]; [""; ""; ""; itoa (Refresh zone); "; refresh"];
    [""; ""; ""; itoa (Retry zone); "; retry"]; [""; ""; ""; itoa (Expire zone); "; expire"];
    [""; ""; ""; itoa (Minimum zone) ++ " )"; "; negative cache TTL"]; [""]]).
Proof.
  intros Hz Hm Hp. destruct (ZoneName_safe _ Hz) as [Hs _]. destruct (Hostname_safe _ Hp) as [Hq Hne].
  apply soaMailbox_plain in Hm. apply safe_plain in Hs.
  unfold top_lines, soa_lines. rewrite (absolute_safe _ Hq Hne). apply safe_plain in Hq.
  assert (Hall : forall line l, line = join tab l -> Forall plain l -> l <> [] -> fields_of line l) by (by split).
  cbn [app].
  repeat (constructor; [apply Hall; [cbn [join]; by rewrite ?app_assoc_str| |done]; repeat constructor;
    rewrite ?plain_app; split_and?; first [reflexivity | by eauto with plain]|]). constructor.
Qed.

Lemma payload_zone_master zone : is_ok (payload_zone zone) = true -> Kind zone = ZoneMaster ->
  ZoneName (Name zone) = Ok tt /\ Hostmaster (z_Hostmaster zone) = Ok tt /\ Hostname (PrimaryNS zone) = Ok tt /\
  SOATimers (Refresh zone) (Retry zone) (Expire zone) (Minimum zone) = Ok tt /\
  Forall (fun s => Hostname s = Ok tt) (Nameservers zone) /\ Forall (fun r => check_record r = Ok tt) (Records zone).
Proof.
  intros H Hk. unfold payload_zone in H. rewrite Hk in H. change (ZoneMaster =? ZoneMaster) with true in H.
  cbv beta iota in H. destruct (ZoneName _) as [[]|]; [|done]. cbn [rbind] in H.
  destruct (ZoneKind _) as [[]|]; [|done]. cbn [rbind] in H.
  destruct (Hostmaster _) as [[]|]; [|done]. cbn [rbind] in H.
  destruct (Hostname _) as [[]|]; [|done]. cbn [rbind] in H.
  destruct (SOATimers _ _ _ _) as [[]|]; [|done]. cbn [rbind] in H.
  destruct (guard _ _) as [[]|]; [|done]. cbn [rbind] in H.
  destruct (all_ok Hostname _) as [[]|] eqn:En; [|done]. cbn [rbind] in H.
  destruct (all_ok checkMatchList _) as [[]|]; [|done]. cbn [rbind] in H.
  destruct (all_ok check_record _) as [[]|] eqn:Er; [|done].
  apply all_ok_Forall in En, Er. done.
Qed.

Lemma timer_itoa n hi : (0 <= n <= hi)%Z -> (hi < 2 ^ 63)%Z -> atoi (fst (fst (cut " " (itoa n)))) = Some n.
Proof. intros Hn Hh. rewrite cut_none by apply itoa_no_space. by apply (small_itoa n hi). Qed.


(** The fields of every line of a file. *)
Lemma omap_split {A} (f : list string -> option A) (lines : list string) :
  omap f (split "009" <$> lines) = omap (fun line => f (split "009" line)) lines.
Proof. induction lines as [|x l IH]; [done|]. csimpl. by rewrite IH. Qed.
Lemma omap_fields {A} (f : list string -> option A) lines ls : Forall2 fields_of lines ls ->
  omap (fun line => f (split "009" line)) lines = omap f ls.
Proof.
  induction 1 as [|line l lines ls Hl Hf IH]; [done|]. csimpl. rewrite IH.
  by destruct (fields_split _ _ Hl) as [-> _].
Qed.
Lemma fields_lines lines ls : Forall2 fields_of lines ls -> Forall one_line lines.
Proof. induction 1; constructor; [|done]. by eapply fields_split. Qed.

Definition ns_fields (server : string) : list string := ["@"; "IN"; "NS"; server].
Definition no_fields : list string := [""].

Lemma ns_lines servers : Forall (fun s => Hostname s = Ok tt) servers ->
  Forall2 fields_of (ns_line <$> servers) (ns_fields <$> servers).
Proof.
  induction 1 as [|s l Hs Hl IH]; [constructor|]. csimpl. constructor; [|done].
  destruct (Hostname_safe _ Hs) as [Hq Hne]. unfold ns_line. rewrite absolute_safe by done.
  split_and!; [done| |done]. repeat constructor. by apply safe_plain.
Qed.

Lemma record_lines records datas :
  Forall2 (fun r d => check_record r = Ok tt /\ rdata r = Ok d) records datas ->
  exists ls, Forall2 fields_of (zip_with line_of records datas) ls /\
    Forall2 (fun r l => read_fields l = Some (normal r) /\ read_ns l = None /\ read_timer l = None) records ls.
Proof.
  induction 1 as [|r d records datas [Hc Hd] Hf (ls & H1 & H2)]; [exists []; by split; constructor|].
  destruct (read_line_of r d Hc Hd) as (ttl & Hl & Hr). eexists (_ :: ls). split; [by constructor|].
  constructor; [|done]. split_and!; [done|done|].
  apply rbind_ok in Hc as ([] & Hn & _). destruct (RecordName_safe _ Hn) as [_ Hne].
  cbn. by destruct (z_Name r).
Qed.

Lemma omap_through {A B} (f : A -> option B) (g : ZRecord -> B) records ls :
  Forall2 (fun r l => f l = Some (g r)) records ls -> omap f ls = g <$> records.
Proof. induction 1 as [|r l records ls Hl Hf IH]; [done|]. csimpl. by rewrite Hl, IH. Qed.
Lemma omap_nothing {A B C} (f : A -> option B) (records : list C) ls :
  Forall2 (fun _ l => f l = None) records ls -> omap f ls = [].
Proof. induction 1 as [|r l records ls Hl Hf IH]; [done|]. csimpl. by rewrite Hl, IH. Qed.

Lemma read_header zone : Hostmaster (z_Hostmaster zone) = Ok tt -> Hostname (PrimaryNS zone) = Ok tt ->
  ZoneName (Name zone) = Ok tt -> Forall (fun s => Hostname s = Ok tt) (Nameservers zone) ->
  SOATimers (Refresh zone) (Retry zone) (Expire zone) (Minimum zone) = Ok tt ->
  (0 <= Serial zone)%Z -> in_int (Serial zone) = true ->
  exists ls, Forall2 fields_of (zone_header zone) ls /\
    omap read_fields ls = [] /\ omap read_ns ls = Nameservers zone /\
    omap read_timer ls = [Serial zone; Refresh zone; Retry zone; Expire zone; Minimum zone].
Proof.
  intros Hm Hp Hz Hns Ht Hs Hi. pose proof (header_lines zone Hz Hm Hp) as Hh.
  match type of Hh with Forall2 _ _ ?l => set (top := l) in Hh end.
  exists (top ++ (ns_fields <$> Nameservers zone) ++ [no_fields])%list.
  assert (Hn : forall {B} (f : list string -> option B) (g : string -> option B),
    (forall s, f (ns_fields s) = g s) -> omap f (ns_fields <$> Nameservers zone) = omap g (Nameservers zone)).
  { intros B f g He. induction (Nameservers zone) as [|s l IH]; [done|]. csimpl. rewrite He, IH; [done|].
    by inversion Hns. }
  assert (Hnone : forall {B}, omap (fun _ : string => @None B) (Nameservers zone) = []).
  { intros B. clear. by induction (Nameservers zone). }
  split; [|rewrite !omap_app; split_and!].
  - unfold zone_header. rewrite (app_assoc (soa_lines zone)), (app_assoc (top_lines zone)).
    apply Forall2_app; [by rewrite <- ?app_assoc|]. apply Forall2_app; [by apply ns_lines|].
    repeat constructor; done.
  - rewrite (Hn _ read_fields (fun _ => None)) by done. by rewrite Hnone.
  - rewrite (Hn _ read_ns Some) by done. change (omap read_ns top) with (@nil string).
    change (omap read_ns [no_fields]) with (@nil string). rewrite app_nil_r, app_nil_l. clear. induction (Nameservers zone) as [|s l IH]; [done|]. csimpl. by rewrite IH.
  - rewrite (Hn _ read_timer (fun _ => None)) by done. rewrite Hnone, app_nil_r.
    unfold SOATimers in Ht. go_inv Ht. rewrite outside_of_false in *. apply guard_ok, outside_of_false in Ht.
    unfold MinRefresh, MaxRefresh, MinRetry, MaxRetry, MinExpire, MaxExpire, MinMinimum, MaxMinimum in *.
    unfold top. cbn [omap list_omap read_timer].
    rewrite (timer_itoa (Refresh zone) 31536000), (timer_itoa (Retry zone) 31536000),
      (timer_itoa (Expire zone) 31536000) by lia.
    cbn [String.append]. rewrite cut_app by apply itoa_no_space. cbn [fst].
    rewrite (small_itoa (Minimum zone) 31536000) by lia.
    rewrite cut_none by apply itoa_no_space. cbn [fst]. by rewrite atoi_itoa.
Qed.

(** C18: A zone the operation accepts and the writer writes is, to a reader of the file, the
    zone it was: its records in the writer's order, each on a line of its own with the name,
    lifetime, type, numbers and text it was given (a text of any length, quotes and
    backslashes included, comes back whole, in strings no longer than the format allows), its
    name servers, its serial and its timers; and nothing else is in the file. *)
Theorem RenderZone_reads_back zone file :
  is_ok (payload_zone zone) = true -> Kind zone = ZoneMaster ->
  (0 <= Serial zone)%Z -> in_int (Serial zone) = true ->
  RenderZone zone = Ok file ->
  let lines := split "009" <$> split LF file in
  omap read_fields lines = normal <$> sortRecords (Records zone) /\
  omap read_ns lines = Nameservers zone /\
  omap read_timer lines = [Serial zone; Refresh zone; Retry zone; Expire zone; Minimum zone] /\
  sortRecords (Records zone) ≡ₚ Records zone.
Proof.
  intros Hok Hk Hs Hi Hr. destruct (payload_zone_master _ Hok Hk) as (Hz & Hm & Hp & Ht & Hns & _).
  destruct (read_header zone Hm Hp Hz Hns Ht Hs Hi) as (hl & Hh & Hh1 & Hh2 & Hh3).
  unfold RenderZone in Hr. apply rbind_ok in Hr as ([] & _ & Hr). apply rbind_ok in Hr as ([] & _ & Hr).
  apply rbind_ok in Hr as (text & Ha & Hr). apply render_all_spec in Ha as (datas & -> & Hd). apply record_lines in Hd as (rl & Hrl & Hrr).
  rewrite <- unlines_app in Hr.
  assert (file = unlines (zone_header zone ++ zip_with line_of (sortRecords (Records zone)) datas)) as -> by congruence.
  assert (Hall : Forall2 fields_of (zone_header zone ++ zip_with line_of (sortRecords (Records zone)) datas)%list (hl ++ rl)) by (by apply Forall2_app).
  rewrite split_unlines by (by eapply fields_lines). cbn zeta.
  assert (Hsplit : forall {B} (f : list string -> option B), f [""] = None ->
    omap f (split "009" <$> (zone_header zone ++ zip_with line_of (sortRecords (Records zone)) datas) ++ [""])%list
    = (omap f hl ++ omap f rl)%list).
  { intros B f Hf. rewrite fmap_app, omap_app. cbn [fmap list_fmap].
    change (omap f [split "009" ""]) with (omap f [[""]]). cbn [omap list_omap]. rewrite Hf, app_nil_r.
    rewrite <- omap_app, omap_split. by apply omap_fields. }
  rewrite !Hsplit by done. rewrite Hh1, Hh2, Hh3.
  rewrite (omap_through read_fields normal (sortRecords (Records zone))), (omap_nothing read_ns (sortRecords (Records zone))), (omap_nothing read_timer (sortRecords (Records zone)))
    by (eapply Forall2_impl; [|exact Hrr]; naive_solver).
  rewrite !app_nil_r. split_and!; try done. apply slice_stable_perm.
Qed.

(** The file of a zone depends on what its records are, not on the order the panel sends
    them in, whenever records that tie in name, type, priority and value are the same record:
    an unchanged zone is never written again. *)
Theorem RenderZone_order_independent zone records :
  let zone' := {|
    Name := Name zone; Kind := Kind zone; PrimaryNS := PrimaryNS zone; z_Hostmaster := z_Hostmaster zone;
    Serial := Serial zone; Refresh := Refresh zone; Retry := Retry zone; Expire := Expire zone;
    Minimum := Minimum zone; ZTTL := ZTTL zone; Nameservers := Nameservers zone; Records := records;
    DNSSEC := DNSSEC zone; AllowTransfer := AllowTransfer zone; AlsoNotify := AlsoNotify zone;
    Masters := Masters zone |} in
  records ≡ₚ Records zone ->
  (forall x y, x ∈ records -> y ∈ records -> z_Name x = z_Name y -> z_Type x = z_Type y ->
    z_Priority x = z_Priority y -> z_Value x = z_Value y -> x = y) ->
  RenderZone zone' = RenderZone zone.
Proof.
  intros zone' Hp Ht. unfold RenderZone, zone', sortRecords. cbn [Records].
  rewrite (slice_stable_unique record_before records (Records zone)); [done|apply record_before_weak|done|].
  intros x y Hx Hy H1 H2. apply Ht; try done; destruct (ties x y H1 H2) as (? & ? & ? & ?); done.
Qed.

(** ** A concrete zone *)
Module Example_zone.
Definition long_text : string := str_map (fun _ => "k"%char) (utoa (2 ^ 1200)) ++ String dquote " \ end".
Definition record (name type value : string) (priority : Z) : ZRecord := {|
  z_Name := name; z_Type := type; z_TTL := 0; z_Value := value; z_Priority := priority; z_Weight := 0; z_Port := 0;
  z_Flags := 0; z_Tag := "" |}.
Definition www : ZRecord := record "www" "A" " 192.0.2.7" 0.
Definition key : ZRecord := record "_dkim" "TXT" long_text 0.
Definition mail : ZRecord := record "@" "MX" "mail" 10.
Definition zone (records : list ZRecord) : Zone := {|
  Name := "shop.example"; Kind := "master"; PrimaryNS := "ns1.example.net."; z_Hostmaster := "host.master@example.net";
  Serial := 2026090301; Refresh := 7200; Retry := 3600; Expire := 1209600; Minimum := 3600; ZTTL := 3600;
  Nameservers := ["ns1.example.net."; "ns2"]; Records := records;
  DNSSEC := false; AllowTransfer := []; AlsoNotify := []; Masters := [] |}.
Definition file : string := match RenderZone (zone [www; key; mail]) with Ok f => f | Err _ => "" end.

Example file_text : (255 < String.length long_text)%nat /\
  take 4 (split LF file) = ["; Managed by JotHost Panel. Do not edit: it is rewritten whenever a record changes.";
    "; zone: shop.example"; "$ORIGIN shop.example."; "$TTL 3600"].
Proof. vm_compute. split; [lia|reflexivity]. Qed.

Lemma RenderZone_reads_back_witness :
  omap read_fields (split "009" <$> split LF file) = [mail; key; normal www] /\
  z_Value (normal www) = "192.0.2.7".
Proof.
  assert (H : is_ok (payload_zone (zone [www; key; mail])) = true /\ RenderZone (zone [www; key; mail]) = Ok file /\
              normal <$> sortRecords [www; key; mail] = [mail; key; normal www]) by (split_and!; vm_compute; reflexivity).
  destruct H as (H1 & H2 & H3). split; [|vm_compute; reflexivity]. rewrite <- H3.
  exact (proj1 (RenderZone_reads_back (zone [www; key; mail]) file H1 eq_refl ltac:(cbn; lia) eq_refl H2)).
Defined.

Lemma RenderZone_order_independent_witness :
  [www; mail] <> [mail; www] /\ RenderZone (zone [www; mail]) = RenderZone (zone [mail; www]).
Proof.
  split; [done|]. apply (RenderZone_order_independent (zone [mail; www]) [www; mail]).
  - constructor.
  - intros x y Hx Hy Hn _ _ _.
    repeat (apply elem_of_cons in Hx as [->|Hx]); [..|by apply not_elem_of_nil in Hx];
      repeat (apply elem_of_cons in Hy as [->|Hy]); [..|by apply not_elem_of_nil in Hy| | |by apply not_elem_of_nil in Hy];
      first [reflexivity | discriminate Hn].
Defined.
End Example_zone.
