(* ===== verification/NamedConf.v ===== *)
(** * BIND's configuration ([agent/internal/dns/config.go], [dns.go])

    Where the panel keeps its files, the file of zone statements it owns, the [named.conf] it
    writes or extends, and the proof that the zones a reader finds in the file are the zones
    the panel asked for, whatever its settings and address lists say.

    [%q] writes a text in quotes; it is [ZoneFile.quote] on the printable ASCII texts written
    here: zone names and policy names that were checked, and the paths of the host. *)

From S2P Require Import Prelude GoStr GoSort TenancyRules Netip DnsRules ZoneFile.

#[local] Open Scope string_scope.

(** ** Paths *)
Definition DefaultConfigDir : string := "/etc/bind".
Definition DefaultStateDir : string := "/var/bind/jothost".
Definition mainConfName : string := "named.conf".
Definition includeName : string := "jothost.conf".
Definition keyDirName : string := "keys".
Definition zoneSuffix : string := ".zone".
Definition confMarker : string := "// Managed by JotHost Panel".

Record Paths := { ConfigDir : string; StateDir : string }.
Definition with_defaults (p : Paths) : Paths := {|
  ConfigDir := if ConfigDir p =? "" then DefaultConfigDir else ConfigDir p;
  StateDir := if StateDir p =? "" then DefaultStateDir else StateDir p |}.

Definition MainConf (p : Paths) : string := fp_join [ConfigDir (with_defaults p); mainConfName].
Definition Include (p : Paths) : string := fp_join [ConfigDir (with_defaults p); includeName].
Definition KeyDir (p : Paths) : string := fp_join [StateDir (with_defaults p); keyDirName].
Definition ZoneFile (p : Paths) (zone : string) : string := fp_join [StateDir (with_defaults p); zone ++ zoneSuffix].

(** ** Settings *)
Record Settings := { ListenOn : list string; s_AllowTransfer : list string; DNSSECPolicy : string }.
Definition DefaultDNSSECPolicy : string := "default".
Definition policy_of (s : Settings) : string :=
  if DNSSECPolicy s =? "" then DefaultDNSSECPolicy else DNSSECPolicy s.

Definition addressList (addresses : list string) : string :=
  match omap (fun a => if trim_space a =? "" then None else Some (trim_space a ++ ";")) addresses with
  | [] => "none;"
  | parts => join " " parts
  end.

(** ** The file of zone statements *)
Definition is_nil {A} (l : list A) : bool := match l with [] => true | _ => false end.

Definition transfer_of (s : Settings) (zone : Zone) : list string :=
  if is_nil (AllowTransfer zone) then s_AllowTransfer s else AllowTransfer zone.

Definition block_lines (p : Paths) (s : Settings) (zone : Zone) : list string := mjoin [
  ["zone " ++ quote (Name zone) ++ " IN {"];
  if Kind zone =? ZoneSlave then
    [tab ++ "type slave;"; tab ++ "file " ++ quote (ZoneFile p (Name zone)) ++ ";";
     tab ++ "primaries { " ++ addressList (Masters zone) ++ " };"]
  else [tab ++ "type master;"; tab ++ "file " ++ quote (ZoneFile p (Name zone)) ++ ";"];
  if is_nil (transfer_of s zone) then [tab ++ "allow-transfer { none; };"]
  else [tab ++ "allow-transfer { " ++ addressList (transfer_of s zone) ++ " };"];
  if is_nil (AlsoNotify zone) then []
  else [tab ++ "also-notify { " ++ addressList (AlsoNotify zone) ++ " };"];
  if DNSSEC zone && negb (Kind zone =? ZoneSlave)
  then [tab ++ "dnssec-policy " ++ quote (policy_of s) ++ ";"; tab ++ "inline-signing yes;";
        tab ++ "key-directory " ++ quote (KeyDir p) ++ ";"]
  else [];
  ["};"; ""]].

(** A secondary zone must name a primary. *)
Definition no_primary (zone : Zone) : bool := (Kind zone =? ZoneSlave) && is_nil (Masters zone).

Inductive conf_err := ErrInvalidConfig.

Definition renderZoneBlock (p : Paths) (s : Settings) (zone : Zone) : result conf_err string :=
  guard (no_primary zone) ErrInvalidConfig ;? Ok (unlines (block_lines p s zone)).

Fixpoint render_blocks (p : Paths) (s : Settings) (zones : list Zone) : result conf_err string :=
  match zones with
  | [] => Ok ""
  | z :: more => let? block := renderZoneBlock p s z in let? rest := render_blocks p s more in Ok (block ++ rest)
  end.

Definition include_header : list string := [
  confMarker ++ ". Do not edit: it is rewritten whenever a zone changes.";
  "//";
  "// Every zone the panel serves is here. A zone removed from the panel is";
  "// removed from this file, which is what makes a delete take effect.";
  ""].

Definition zone_before (l r : Zone) : bool := str_lt (Name l) (Name r).

Definition RenderInclude (p : Paths) (s : Settings) (zones : list Zone) : result conf_err string :=
  let? blocks := render_blocks p s (slice_stable zone_before zones) in
  Ok (unlines include_header ++ blocks).

(** [Provider.ServedZones], on what the file of zone statements holds. *)
Definition served_line (line : string) : option string :=
  match trim_prefix_opt ("zone " ++ String dquote "") (trim_space line) with
  | None => None
  | Some rest => let '(name, _, found) := cut dquote rest in
                 if found && negb (name =? "") then Some name else None
  end.
Definition zones_in (content : string) : list string := omap served_line (split LF content).

(** ** [named.conf] *)
Definition RenderMainConf (p : Paths) (s : Settings) : string :=
  let listen := if is_nil (ListenOn s) then "any;" else addressList (ListenOn s) in
  unlines [
    confMarker ++ ".";
    "//";
    "// This host had no named.conf, so the panel wrote one. It is an";
    "// authoritative server: it answers for the zones it is given and";
    "// resolves nothing on anybody's behalf.";
    "";
    "options {";
    tab ++ "directory " ++ quote (StateDir (with_defaults p)) ++ ";";
    tab ++ "listen-on { " ++ listen ++ " };";
    tab ++ "listen-on-v6 { any; };";
    tab ++ "pid-file " ++ quote "/var/run/named/named.pid" ++ ";";
    "";
    tab ++ "// An authoritative server answers for its own zones and nothing";
    tab ++ "// else. A recursive server open to the internet is an amplifier.";
    tab ++ "recursion no;";
    tab ++ "allow-recursion { none; };";
    "";
    tab ++ "// BIND's default is to allow a transfer to anyone, which hands";
    tab ++ "// every name in every zone to whoever asks. Zones override this";
    tab ++ "// individually.";
    tab ++ "allow-transfer { none; };";
    "};";
    "";
    "// rndc is how the panel tells a running server to re-read what it";
    "// wrote. The key is BIND's own, generated at install time.";
    "include " ++ quote (ConfigDir (with_defaults p) ++ "/rndc.key") ++ ";";
    "controls {";
    tab ++ "inet 127.0.0.1 port 953 allow { 127.0.0.1; } keys { " ++ quote "rndc-key" ++ "; };";
    "};";
    "";
    "include " ++ quote (Include p) ++ ";"].

Definition includeLine (p : Paths) : string := "include " ++ quote (Include p) ++ ";".
Definition HasInclude (content : string) (p : Paths) : bool := str_contains (Include p) content.

Definition AddInclude (content : string) (p : Paths) : string :=
  trim_right_set nl content ++ nl ++ nl ++
  unlines [
    "// Added by JotHost Panel: the zones it serves are defined in this file.";
    "// Removing this line stops the panel's zones being served; it does not";
    "// delete them.";
    includeLine p].

(** ** What the operation checks ([agent/internal/operations/dns.go]) *)
Definition policy_char (c : ascii) : bool :=
  is_lower c || is_upper c || is_digit c || Ascii.eqb c "-" || Ascii.eqb c "_".
Definition checkPolicyName (name : string) : result dns_rule_err unit :=
  guard (negb (str_forall policy_char name)) ErrInvalidRecordValue.

Record Desired := { d_Settings : Settings; d_Zones : list Zone }.

Definition desired (settings : Settings) (zones : list Zone) : result dns_rule_err Desired :=
  all_ok (fun z => let? _ := payload_zone z in Ok tt) zones ;?
  all_ok checkMatchList [ListenOn settings; s_AllowTransfer settings] ;?
  checkPolicyName (DNSSECPolicy settings) ;?
  Ok {| d_Settings := settings; d_Zones := zones |}.

(** ** Reading the file back *)
Lemma escape_none c s : contains_char c s = false -> escape c s = s.
Proof.
  unfold contains_char. induction s as [|a s IH]; [done|]. cbn [str_exists]. intros H.
  apply orb_false_iff in H as [Ha H]. rewrite escape_miss, IH; [done|done|].
  by apply Ascii.eqb_neq in Ha.
Qed.
Lemma quote_safe s : safe s -> quote s = String dquote (s ++ String dquote "").
Proof. intros Hs. unfold quote. by rewrite (escape_none "\"), escape_none by (by apply safe_without). Qed.

Lemma trim_right_head a s : graph_char a = true -> exists t, trim_right (String a s) = String a t.
Proof.
  intros Ha. cbn [trim_right]. destruct (String.eqb_spec (trim_left (String a s)) "") as [E|]; [|eauto].
  exfalso. revert E. unfold trim_left. cbn [trim_left_go]. by rewrite graph_not_space.
Qed.

(** A line that starts, past its tab, with another letter is no zone. *)
Lemma not_served a s : graph_char a = true -> a <> "z"%char ->
  served_line (tab ++ String a s) = None /\ served_line (String a s) = None.
Proof.
  intros Ha Hz. unfold served_line.
  assert (Hl : trim_left (tab ++ String a s) = String a s /\ trim_left (String a s) = String a s).
  { unfold trim_left, tab. cbn [String.append trim_left_go]. rewrite (graph_not_space a) by done. by split. }
  unfold trim_space. destruct Hl as [-> ->]. destruct (trim_right_head a s Ha) as [t ->].
  change ("zone " ++ String dquote "") with (String "z" ("one " ++ String dquote "")). cbn [trim_prefix_opt].
  by rewrite (proj2 (Ascii.eqb_neq "z" a)) by congruence.
Qed.

Lemma served_zone name : safe name -> name <> "" ->
  served_line ("zone " ++ quote name ++ " IN {") = Some name.
Proof.
  intros Hs Hne. unfold served_line. rewrite quote_safe by done.
  replace ("zone " ++ String dquote (name ++ String dquote "") ++ " IN {")
    with (String "z" (("one " ++ String dquote (name ++ String dquote "") ++ " IN ") ++ String "{" ""))
    by (cbn; by rewrite !app_assoc_str).
  destruct (trim_space_id "z" ("one " ++ String dquote (name ++ String dquote "") ++ " IN ") "{") as [-> _]; [done..|].
  rewrite (proj2 (trim_prefix_opt_spec ("zone " ++ String dquote "") _ (name ++ String dquote " IN {")));
    [|cbn; by rewrite !app_assoc_str].
  rewrite cut_app by (by apply safe_without). by rewrite (proj2 (String.eqb_neq name "")).
Qed.

(** ** What the lines are made of *)
Lemma split_forall c p s : str_forall p s = true -> Forall (fun x => str_forall p x = true) (split c s).
Proof.
  induction s as [|a s IH]; [by constructor|]. cbn. intros H. apply andb_true_iff in H as [Ha Hs].
  specialize (IH Hs). destruct (Ascii.eqb a c); [by constructor|].
  destruct (split c s) as [|x xs]; [constructor; [by cbn; rewrite Ha|done]|].
  inversion_clear IH. constructor; [|done]. cbn. by rewrite Ha.
Qed.
Lemma clean_go_forall (P : string -> Prop) r acc segs : P ".." -> Forall P acc -> Forall P segs ->
  Forall P (clean_go r acc segs).
Proof.
  intros Hd. revert acc. induction segs as [|x segs IH]; intros acc Ha Hs; cbn; [by apply Forall_rev|].
  inversion_clear Hs. destruct (_ || _); [by apply IH|]. destruct (x =? ".."); [|by apply IH; [constructor|]].
  destruct acc as [|y acc]; [destruct r; apply IH; try done; by constructor|].
  inversion_clear Ha. destruct (y =? ".."); apply IH; try done. by repeat constructor.
Qed.
Lemma fp_clean_plain s : plain s -> plain (fp_clean s).
Proof.
  intros Hs. unfold fp_clean. destruct (s =? ""); [done|].
  assert (Hj : plain (join "/" (clean_go (is_abs s) [] (split slash s)))).
  { apply join_forall; [done|]. by apply clean_go_forall; [|constructor|apply split_forall]. }
  destruct (is_abs s); [by rewrite plain_app|]. by destruct (_ =? "").
Qed.
Lemma fp_join_plain l : Forall plain l -> plain (fp_join l).
Proof.
  induction 1 as [|x l Hx Hl IH]; [done|]. unfold fp_join; fold fp_join. destruct (x =? ""); [done|].
  apply fp_clean_plain, join_forall; [done|by constructor].
Qed.

Lemma addressList_plain l : Forall (fun a => MatchAddress a = Ok tt) l -> plain (addressList l).
Proof.
  intros Hl. unfold addressList.
  assert (Hp : Forall plain (omap (fun a => if trim_space a =? "" then None else Some (trim_space a ++ ";")) l)).
  { induction Hl as [|a l Ha Hl IH]; [constructor|]. csimpl. destruct (trim_space a =? ""); [done|].
    constructor; [|done]. rewrite plain_app. split; [|done]. by apply safe_plain, MatchAddress_safe. }
  destruct (omap _ l); [done|]. by apply join_forall.
Qed.

Lemma payload_zone_lists zone : is_ok (payload_zone zone) = true ->
  ZoneName (Name zone) = Ok tt /\
  Forall (Forall (fun a => MatchAddress a = Ok tt)) [AllowTransfer zone; AlsoNotify zone; Masters zone].
Proof.
  intros H. unfold payload_zone in H. destruct (ZoneName _) as [[]|]; [|done]. cbn [rbind] in H.
  destruct (ZoneKind _) as [[]|]; [|done]. cbn [rbind] in H.
  match type of H with is_ok (rbind ?x _) = true => destruct x as [[]|]; [|done] end. cbn [rbind] in H.
  destruct (all_ok checkMatchList _) as [[]|] eqn:E; [|done]. split; [done|].
  apply all_ok_Forall in E. eapply list.Forall_impl; [exact E|]. intros l. apply all_ok_Forall.
Qed.

(** A line that is none of the statements' first lines. *)
Definition inner (line : string) : Prop :=
  exists (a : ascii) (s : string), (line = tab ++ String a s \/ line = String a s) /\ graph_char a = true /\ a <> "z"%char /\ plain s.

Lemma inner_tab (a : ascii) (s : string) : graph_char a = true -> a <> "z"%char -> plain s -> inner (tab ++ String a s).
Proof. intros. exists a, s. auto. Qed.
Lemma inner_spec line : inner line -> served_line line = None /\ one_line line.
Proof.
  intros (a & s & He & Ha & Hz & Hs). destruct (not_served a s Ha Hz) as [H1 H2].
  assert (Hl : one_line (String a s)).
  { unfold one_line. pose proof (plain_no LF s eq_refl Hs) as Hn. unfold contains_char in *. cbn [str_exists].
    rewrite Hn. destruct (Ascii.eqb_spec LF a) as [<-|]; [by vm_compute in Ha|done]. }
  destruct He as [-> | ->]; split; done.
Qed.

Lemma plain_cons a t : plain_char a = true -> plain t -> plain (String a t).
Proof. unfold plain. cbn. by intros -> ->. Qed.
Lemma plain_join x y : plain x -> plain y -> plain (x ++ y).
Proof. rewrite plain_app. auto. Qed.

(** Written text between texts that are plain. *)
Ltac plain_text :=
  repeat first [ assumption | reflexivity | apply plain_cons; [reflexivity|] | apply plain_join ].

Section served.
Context (p : Paths) (s : Settings).
Context (Hdir : plain (StateDir (with_defaults p))) (Hs : Forall (fun a => MatchAddress a = Ok tt) (s_AllowTransfer s)).
Context (Hpol : checkPolicyName (DNSSECPolicy s) = Ok tt).

Lemma policy_plain : plain (policy_of s).
Proof using Hpol.
  unfold policy_of. destruct (DNSSECPolicy s =? ""); [done|]. unfold checkPolicyName in Hpol.
  apply guard_ok, negb_false_iff in Hpol. unfold plain. eapply str_forall_impl; [|exact Hpol].
  intros a. each_char a.
Qed.

Lemma block_inner zone : is_ok (payload_zone zone) = true ->
  exists rest, block_lines p s zone = ("zone " ++ quote (Name zone) ++ " IN {") :: rest /\
    Forall (fun l => served_line l = None /\ one_line l) rest.
Proof using All.
  intros Hok. destruct (payload_zone_lists _ Hok) as (Hz & Hl).
  inversion_clear Hl as [|? ? H1 Hl']. inversion_clear Hl' as [|? ? H2 Hl]. inversion_clear Hl as [|? ? H3 _].
  destruct (ZoneName_safe _ Hz) as [Hsafe _].
  assert (Hfile : plain (quote (ZoneFile p (Name zone)))).
  { apply quote_plain, fp_join_plain. repeat constructor; [done|]. rewrite plain_app. by split; [apply safe_plain|]. }
  assert (Hkey : plain (quote (KeyDir p))) by (apply quote_plain, fp_join_plain; by repeat constructor).
  assert (Htr : plain (addressList (transfer_of s zone))).
  { apply addressList_plain. unfold transfer_of. by destruct (is_nil _). }
  apply addressList_plain in H2, H3. pose proof policy_plain as Hpo. apply quote_plain in Hpo.
  assert (Hin : forall a t, graph_char a = true -> a <> "z"%char -> plain t ->
    served_line (tab ++ String a t) = None /\ one_line (tab ++ String a t)).
  { intros a t Ha Hne Ht. by apply inner_spec, inner_tab. }
  unfold block_lines. cbn [mjoin list_join app]. eexists. split; [reflexivity|].
  repeat case_match; repeat (apply Forall_app; split); repeat constructor;
    first [by apply inner_spec; exists "}"%char, ";"; auto | apply Hin; [done|done|plain_text] ].
Qed.
End served.

Lemma render_blocks_spec p s zones text : render_blocks p s zones = Ok text ->
  text = unlines (mjoin (block_lines p s <$> zones)).
Proof.
  revert text. induction zones as [|z zones IH]; intros text H; [by injection H as <-|].
  cbn [render_blocks] in H. apply rbind_ok in H as (block & Hb & H). apply rbind_ok in H as (rest & Hr & H).
  unfold renderZoneBlock in Hb. apply rbind_ok in Hb as ([] & _ & Hb). apply IH in Hr as ->.
  change (mjoin (block_lines p s <$> z :: zones)) with (block_lines p s z ++ mjoin (block_lines p s <$> zones))%list.
  rewrite unlines_app. congruence.
Qed.

Lemma desired_ok settings zones d : desired settings zones = Ok d ->
  d = {| d_Settings := settings; d_Zones := zones |} /\ Forall (fun z => is_ok (payload_zone z) = true) zones /\
  Forall (fun a => MatchAddress a = Ok tt) (ListenOn settings) /\
  Forall (fun a => MatchAddress a = Ok tt) (s_AllowTransfer settings) /\
  checkPolicyName (DNSSECPolicy settings) = Ok tt.
Proof.
  unfold desired. intros H. apply rbind_ok in H as ([] & Hz & H). apply rbind_ok in H as ([] & Hl & H).
  apply rbind_ok in H as ([] & Hp & [= <-]). apply all_ok_Forall in Hz, Hl.
  inversion_clear Hl as [|? ? H1 Hl']. inversion_clear Hl' as [|? ? H2 _].
  apply all_ok_Forall in H1, H2. split_and!; try done.
  eapply list.Forall_impl; [exact Hz|]. intros z. cbn. by destruct (payload_zone z).
Qed.

(** The zones a reader finds in the file of zone statements are exactly the zones the
    panel asked for, in order of their names: no address list, policy name or setting a
    request carries adds a statement to the file or hides one. *)
Theorem include_names_the_zones p settings zones d text :
  plain (StateDir (with_defaults p)) ->
  desired settings zones = Ok d -> RenderInclude p (d_Settings d) (d_Zones d) = Ok text ->
  zones_in text = Name <$> slice_stable zone_before zones /\ zones_in text ≡ₚ Name <$> zones.
Proof.
  intros Hdir Hd Ht. apply desired_ok in Hd as (-> & Hz & _ & Ha & Hp). cbn [d_Settings d_Zones] in Ht.
  unfold RenderInclude in Ht. apply rbind_ok in Ht as (blocks & Hb & Ht). apply render_blocks_spec in Hb.
  set (sorted := slice_stable zone_before zones) in *.
  assert (Hs : Forall (fun z => is_ok (payload_zone z) = true) sorted) by (unfold sorted; by rewrite slice_stable_perm).
  assert (Hall : forall l, Forall (fun z => is_ok (payload_zone z) = true) l ->
    Forall one_line (mjoin (block_lines p settings <$> l)) /\
    omap served_line (mjoin (block_lines p settings <$> l)) = Name <$> l).
  { induction 1 as [|z l Hzo Hl [IH1 IH2]]; [by split; constructor|].
    destruct (block_inner p settings Hdir Ha Hp z Hzo) as (rest & Hbl & Hrest).
    destruct (payload_zone_lists _ Hzo) as [Hname _]. destruct (ZoneName_safe _ Hname) as [Hsafe Hne].
    change (mjoin (block_lines p settings <$> z :: l)) with
      (block_lines p settings z ++ mjoin (block_lines p settings <$> l))%list.
    rewrite Hbl, omap_app. split.
    - apply Forall_app. split; [|done]. constructor; [|eapply list.Forall_impl; [exact Hrest|by intros ? []]].
      unfold one_line. apply plain_no; [done|]. assert (plain (quote (Name z))) by by apply quote_plain, safe_plain.
      plain_text.
    - cbn [omap list_omap]. rewrite served_zone by done. rewrite IH2.
      replace (omap served_line rest) with (@nil string); [done|].
      symmetry. clear -Hrest. induction Hrest as [|x l [Hx _] Hl IH]; [done|]. csimpl. by rewrite Hx. }
  destruct (Hall _ Hs) as [H1 H2]. subst blocks.
  assert (zones_in text = Name <$> sorted) as ->.
  { rewrite <- unlines_app in Ht. unfold zones_in.
    assert (text = unlines (include_header ++ mjoin (block_lines p settings <$> sorted))%list) as -> by congruence.
    rewrite split_unlines by (apply Forall_app; split; [by repeat constructor|done]).
    rewrite !omap_app, H2. change (omap served_line include_header) with (@nil string). cbn. by rewrite app_nil_r. }
  split; [done|]. unfold sorted. by rewrite slice_stable_perm.
Qed.

(** ** Including the file *)
Lemma str_contains_app x y s : str_contains s (x ++ s ++ y) = true.
Proof.
  induction x as [|a x IH].
  - cbn [String.append]. destruct (has_prefix s (s ++ y)) eqn:E.
    + destruct (s ++ y); cbn [str_contains]; by rewrite E.
    + exfalso. assert (has_prefix s (s ++ y) = true) by (apply has_prefix_spec; eauto). congruence.
  - cbn [String.append str_contains]. by rewrite IH, orb_true_r.
Qed.

Lemma str_contains_spec s t : str_contains s t = true <-> exists x y, t = x ++ s ++ y.
Proof.
  split; [|intros (x & y & ->); apply str_contains_app].
  induction t as [|a t IH]; cbn [str_contains]; intros H; apply orb_true_iff in H as [H|H]; try done.
  - apply has_prefix_spec in H as [y ->]. by exists "", y.
  - apply has_prefix_spec in H as [y ->]. by exists "", y.
  - destruct (IH H) as (x & y & ->). by exists (String a x), y.
Qed.
Lemma contains_inside s x t y : str_contains s t = true -> str_contains s (x ++ t ++ y) = true.
Proof.
  rewrite !str_contains_spec. intros (u & v & ->). exists (x ++ u), (v ++ y). by rewrite !app_assoc_str.
Qed.
Lemma unlines_contains s x l : x ∈ l -> str_contains s x = true -> str_contains s (unlines l) = true.
Proof.
  intros Hx Hs. induction Hx as [x l|x y l Hx IH]; cbn [unlines foldr].
  - by apply (contains_inside s "" x).
  - apply str_contains_spec in IH as (u & v & He); [|done]. fold (unlines l). rewrite He.
    apply str_contains_spec. exists (y ++ nl ++ u), v. by rewrite !app_assoc_str.
Qed.
Lemma include_line_contains p : safe (Include p) -> str_contains (Include p) (includeLine p) = true.
Proof.
  intros Hs. unfold includeLine. rewrite quote_safe by done. apply str_contains_spec.
  exists ("include " ++ String dquote ""), (String dquote "" ++ ";"). cbn. by rewrite !app_assoc_str.
Qed.

(** What the panel writes itself, and what it leaves of a file it does not own, include its
    zones, when the path holds nothing a quoted text escapes. *)
Lemma RenderMainConf_includes p s : safe (Include p) -> HasInclude (RenderMainConf p s) p = true.
Proof.
  intros Hs. unfold HasInclude, RenderMainConf. cbv zeta. eapply unlines_contains; [|by apply include_line_contains].
  repeat (apply list_elem_of_here || apply list_elem_of_further).
Qed.
Lemma AddInclude_includes content p : safe (Include p) -> HasInclude (AddInclude content p) p = true.
Proof.
  intros Hs. unfold HasInclude, AddInclude. apply str_contains_spec.
  assert (Hc : str_contains (Include p) (unlines [
    "// Added by JotHost Panel: the zones it serves are defined in this file.";
    "// Removing this line stops the panel's zones being served; it does not";
    "// delete them."; includeLine p]) = true).
  { eapply unlines_contains; [|by apply include_line_contains].
    repeat (apply list_elem_of_here || apply list_elem_of_further). }
  apply str_contains_spec in Hc as (u & v & ->). exists (trim_right_set nl content ++ nl ++ nl ++ u), v.
  by rewrite !app_assoc_str.
Qed.

(** ** A concrete file *)
Module Two_zones.
Definition zone (name kind : string) (masters : list string) : Zone := {|
  Name := name; Kind := kind; PrimaryNS := "ns1.example.net."; z_Hostmaster := "host@example.net";
  Serial := 1; Refresh := 7200; Retry := 3600; Expire := 1209600; Minimum := 3600; ZTTL := 3600;
  Nameservers := ["ns1.example.net."]; Records := [];
  DNSSEC := true; AllowTransfer := ["192.0.2.0/24"; "localhost"]; AlsoNotify := []; Masters := masters |}.
Definition zones : list Zone := [zone "shop.example" "master" []; zone "blog.example" "slave" ["192.0.2.53"]].
Definition paths : Paths := {| ConfigDir := ""; StateDir := "" |}.
Definition settings : Settings := {| ListenOn := ["any"]; s_AllowTransfer := []; DNSSECPolicy := "standard" |}.
Definition text : string := match RenderInclude paths settings zones with Ok s => s | Err _ => "" end.

Example a_statement_in_an_address :
  desired {| ListenOn := ["any; }; zone evil"]; s_AllowTransfer := []; DNSSECPolicy := "" |} zones = Err ErrInvalidRecordValue /\
  renderZoneBlock paths settings (zone "blog.example" "slave" []) = Err ErrInvalidConfig.
Proof. vm_compute. by split. Qed.

Lemma include_names_the_zones_witness :
  desired settings zones = Ok {| d_Settings := settings; d_Zones := zones |} /\ zones_in text ≡ₚ ["shop.example"; "blog.example"].
Proof.
  assert (H : desired settings zones = Ok {| d_Settings := settings; d_Zones := zones |} /\
              RenderInclude paths settings zones = Ok text) by (split; vm_compute; reflexivity).
  destruct H as [H1 H2]. split; [exact H1|].
  exact (proj2 (include_names_the_zones paths settings zones _ text eq_refl H1 H2)).
Defined.
End Two_zones.
