(* ===== verification/NamedHost.v ===== *)
(** * Making a host serve its zones ([agent/internal/dns/apply.go], [provider.go])

    Every step of a reconcile on the files of a host: the zones rendered and checked, their
    files installed, the file of zone statements and [named.conf] written, the whole
    configuration checked, the server reloaded, the files of zones that left removed, and what
    is undone when one of these fails.

    A world is a host: its files, those the name server's account may read, whether the server
    runs, and the faults still to come.  A fault is an operation that fails and does nothing
    (a file is installed by a rename).  What BIND's programs answer are parameters
    ([Tools]). *)

From S2P Require Import Prelude Store GoStr GoTime GoSort TenancyRules Netip DnsRules ZoneFile NamedConf.

#[local] Open Scope string_scope.

(** ** The host *)
Record Host := {
  files : gmap string string;
  owned : gset string;
  running : bool;
  h_faults : list fault;
}.
Definition set_files (m : gmap string string) (o : gset string) (h : Host) : Host := {|
  files := m; owned := o; running := running h; h_faults := h_faults h |}.
Definition set_running (b : bool) (h : Host) : Host := {|
  files := files h; owned := owned h; running := b; h_faults := h_faults h |}.
#[global] Instance Host_faulty : Faulty Host := {
  faults_of := h_faults;
  with_faults fs h := {| files := files h; owned := owned h; running := running h; h_faults := fs |} }.

Inductive dns_err :=
| RuleErr (e : dns_rule_err) | ErrUnavailable | ErrNoDNSSEC | ErrInvalidConfig | ErrInvalidZone | ErrForeignConfig
| IOErr.

#[global] Instance dns_err_eq_dec : EqDecision dns_err.
Proof. solve_decision. Defined.

Local Abbreviation M := (Store.M Host dns_err).
#[local] Open Scope store_scope.

(** The programs and accounts of the host. *)
Record Tools := {
  installed : string -> bool;                          (** is a command there *)
  account : bool;                                      (** is there an account BIND runs as *)
  version_output : string;                             (** [named -v] *)
  checkzone : string -> string -> bool;                (** [named-checkzone]: a zone, a file's content *)
  checkconf : gmap string string -> bool;              (** [named-checkconf]: every file it may read *)
  has_service : bool;                                  (** is there a service manager *)
  starts : bool;                                       (** does the server come up when started *)
  rndc : list string -> bool;                          (** [rndc] with these arguments *)
  shuffle : list (string * string) -> list (string * string);   (** the order of a map's range *)
  now : Z;                                             (** [timeNow] *)
}.

(** [Format("20060102T150405Z")] in UTC. *)
Definition backup_stamp (t : Z) : string :=
  pad 4 (t_Year t) "" ++ pad 2 (t_Month t) "" ++ pad 2 (t_Day t) "" ++ "T" ++
  pad 2 (t_Hour t) "" ++ pad 2 (t_Minute t) "" ++ pad 2 (t_Second t) "" ++ "Z".

(** ** Operations of the system *)
Definition io {A} (f : Host -> result dns_err A * Host) : M A :=
  fun h => match h_faults h with
           | [] => f h
           | Fine :: fs => f (with_faults fs h)
           | _ :: fs => (Err IOErr, with_faults fs h)
           end.

Definition logged {A} (m : M A) : M unit := let! _ := attempt m in ret tt.
(** [m], with [cleanup] done before its error is answered. *)
Definition or_else {A} (m : M A) (cleanup : M unit) : M A :=
  let! r := attempt m in
  match r with Ok a => ret a | Err e => cleanup ;! fail e end.
Fixpoint each {A} (f : A -> M unit) (l : list A) : M unit :=
  match l with [] => ret tt | x :: more => f x ;! each f more end.

Definition ReadFile (path : string) : M (option string) := io (fun h => (Ok (files h !! path), h)).
Definition writeFile (path content : string) : M unit :=
  io (fun h => (Ok tt, set_files (<[path := content]> (files h)) (owned h ∖ {[path]}) h)).
(** [os.Remove], a file that is not there being no error. *)
Definition remove (path : string) : M unit :=
  io (fun h => (Ok tt, set_files (delete path (files h)) (owned h ∖ {[path]}) h)).
Definition nothing : M unit := io (fun h => (Ok tt, h)).

(** ** Versions *)
Definition CommandNamed : string := "named".
Definition CommandNamedCheckconf : string := "named-checkconf".
Definition CommandNamedCheckzone : string := "named-checkzone".
Definition CommandRndc : string := "rndc".

Definition firstLine (candidates : list string) : string :=
  default "" (head (filter (fun l => l <> "") (trim_space <$> (candidates ≫= split LF)))).

Definition parseVersion (version : string) : option (Z * Z) :=
  match split "." version with
  | a :: b :: _ => major ← atoi a; minor ← atoi b; Some (major, minor)
  | _ => None
  end.

Section provider.
Context (p : Paths) (t : Tools).

Definition Available : bool :=
  installed t CommandNamed && installed t CommandNamedCheckconf && installed t CommandNamedCheckzone.

Definition Version : M string :=
  if negb Available then ret ""
  else
    let! r := attempt nothing in
    ret (match r with
         | Err _ => ""
         | Ok _ => match fields (firstLine [version_output t]) with _ :: v :: _ => v | _ => "" end
         end).

Definition SupportsDNSSEC : M bool :=
  let! version := Version in
  ret (match parseVersion version with
       | None => false
       | Some (major, minor) => (9 <? major)%Z || ((major =? 9)%Z && (16 <=? minor)%Z)
       end).

Definition chownNamed (path : string) : M unit :=
  if negb (account t) then ret tt
  else io (fun h => (Ok tt, set_files (files h) (owned h ∪ {[path]}) h)).

(** The two directories, made and given away. *)
Definition ensureDirs : M unit :=
  each (fun _ => nothing ;! (if account t then nothing else ret tt)) [StateDir (with_defaults p); KeyDir p].

(** ** Checking *)
Definition Validate : M unit :=
  io (fun h => (if checkconf t (files h) then Ok tt else Err ErrInvalidConfig, h)).

Definition ValidateZone (zone path : string) : M unit :=
  io (fun h => (if checkzone t zone (default "" (files h !! path)) then Ok tt else Err ErrInvalidZone, h)).

Definition candidate (zone : string) : string :=
  fp_join [StateDir (with_defaults p); ".candidate-" ++ zone ++ zoneSuffix].

Definition checkCandidate (zone content : string) : M unit :=
  writeFile (candidate zone) content ;!
  let! r := attempt (ValidateZone zone (candidate zone)) in
  logged (remove (candidate zone)) ;!
  answer r.

Definition rule {A} (r : result dns_rule_err A) : M A :=
  answer (match r with Ok a => Ok a | Err e => Err (RuleErr e) end).
Definition conf {A} (r : result conf_err A) : M A :=
  answer (match r with Ok a => Ok a | Err _ => Err ErrInvalidConfig end).

(** The zones the host serves a file of, rendered and checked. *)
Fixpoint render_zones (zones : list Zone) (rendered : gmap string string) : M (gmap string string) :=
  match zones with
  | [] => ret rendered
  | z :: more =>
      if Kind z =? ZoneSlave then render_zones more rendered
      else
        let! content := rule (RenderZone z) in
        checkCandidate (Name z) content ;!
        render_zones more (<[Name z := content]> rendered)
  end.

Definition ServedZones : M (list string) :=
  let! r := attempt (ReadFile (Include p)) in
  ret (match r with Ok (Some data) => zones_in data | _ => [] end).

(** ** Files *)
Definition zoneArtifacts (path : string) : list string :=
  [path; path ++ ".jnl"; path ++ ".jbk"; path ++ ".signed"; path ++ ".signed.jnl"].

Definition installZone (path content : string) : M unit :=
  each remove (tail (zoneArtifacts path)) ;!
  writeFile path content ;!
  chownNamed path.

Definition removeZoneFiles (path : string) : M unit := each remove (zoneArtifacts path).

Definition rollbackZones (names : list string) : M unit :=
  each (fun name => logged (remove (ZoneFile p name))) names.

Definition fileHas (path content : string) : M bool :=
  let! current := ReadFile path in
  ret (match current with Some c => c =? content | None => false end).

(** The path of the copy; the empty text when there was nothing to copy. *)
Definition backupFile (path : string) : M string :=
  let! current := ReadFile path in
  match current with
  | None => ret ""
  | Some c => let backup := path ++ ".bak." ++ backup_stamp (now t) in writeFile backup c ;! ret backup
  end.

Definition restoreFile (path backup : string) : M unit :=
  if backup =? "" then logged (remove path)
  else
    let! r := attempt (ReadFile backup) in
    match r with
    | Ok (Some previous) => logged (writeFile path previous)
    | _ => ret tt
    end.

(** The loop over the rendered zones: the names of those that were written. *)
Fixpoint install (todo : list (string * string)) (written : list string) : M (list string) :=
  match todo with
  | [] => ret written
  | (name, content) :: more =>
      let path := ZoneFile p name in
      let! same := or_else (fileHas path content) (rollbackZones written) in
      if same then install more written
      else
        or_else (installZone path content) (rollbackZones written) ;!
        install more (written ++ [name])%list
  end.

(** The backup, whether the file was created, whether it gained the line. *)
Definition ensureMainConf (settings : Settings) : M (string * bool * bool) :=
  let path := MainConf p in
  let! r := attempt (ReadFile path) in
  match r with
  | Err _ => fail ErrForeignConfig
  | Ok None =>
      writeFile path (RenderMainConf p settings) ;!
      logged (chownNamed path) ;!
      ret ("", true, false)
  | Ok (Some current) =>
      if str_contains confMarker current then
        let rendered := RenderMainConf p settings in
        if current =? rendered then ret ("", false, false)
        else
          let! backup := backupFile path in
          writeFile path rendered ;!
          logged (chownNamed path) ;!
          ret (backup, false, false)
      else if HasInclude current p then ret ("", false, false)
      else
        let! backup := backupFile path in
        writeFile path (AddInclude current p) ;!
        logged (chownNamed path) ;!
        ret (backup, false, true)
  end.

(** ** Reloading *)
Inductive warning :=
| NoServiceManager | WouldNotStart | CouldNotReload | ZoneListRefused | ZoneNotReloaded (zone : string)
| NotServing (zone : string) | FilesNotDeleted (zone : string).

Definition Start : M unit :=
  io (fun h => if starts t then (Ok tt, set_running true h) else (Err IOErr, h)).

Definition run_rndc (args : list string) : M bool :=
  let! r := attempt nothing in
  ret (match r with Ok _ => rndc t args | Err _ => false end).

Fixpoint reload_zones (zones : list string) : M (bool * option warning) :=
  match zones with
  | [] => ret (true, None)
  | z :: more =>
      let! ok := run_rndc ["reload"; z] in
      if negb ok then ret (false, Some (ZoneNotReloaded z)) else reload_zones more
  end.

Definition reload (changed : list string) : M (bool * option warning) :=
  if negb (has_service t) then ret (false, Some NoServiceManager)
  else
    let! up := get running in
    if negb up then
      let! r := attempt Start in
      match r with
      | Err _ => ret (false, Some WouldNotStart)
      | Ok _ => let! up := get running in ret (up, None)
      end
    else if negb (installed t CommandRndc) then
      let! r := attempt Start in
      ret (match r with Err _ => (false, Some CouldNotReload) | Ok _ => (true, None) end)
    else
      let! ok := run_rndc ["reconfig"] in
      if negb ok then ret (false, Some ZoneListRefused) else reload_zones changed.

(** A question that could not be asked warns of nothing. *)
Fixpoint verifyLoaded (changed : list string) : M (list warning) :=
  match changed with
  | [] => ret []
  | z :: more =>
      if negb (installed t CommandRndc) then ret []
      else
        let! r := attempt nothing in
        let! rest := verifyLoaded more in
        ret (match r with
             | Ok _ => if rndc t ["zonestatus"; z] then rest else NotServing z :: rest
             | Err _ => rest
             end)
  end.

Definition hasZone (zones : list Zone) (name : string) : bool := existsb (fun z => Name z =? name) zones.

(** The names removed, and what could not be. *)
Fixpoint clear_zones (rendered : gmap string string) (zones : list Zone) (previous : list string)
  : M (list string * list warning) :=
  match previous with
  | [] => ret ([], [])
  | name :: more =>
      if bool_decide (is_Some (rendered !! name)) || hasZone zones name then clear_zones rendered zones more
      else
        let! r := attempt (removeZoneFiles (ZoneFile p name)) in
        let! (removed, warnings) := clear_zones rendered zones more in
        ret (match r with
             | Ok _ => (name :: removed, warnings)
             | Err _ => (removed, FilesNotDeleted name :: warnings)
             end)
  end.

Record ReconcileResult := {
  CreatedConfig : bool; AddedInclude : bool;
  Changed : list string; Removed : list string; Signed : list string;
  Reloaded : bool; Warnings : list warning }.

(** ** Reconcile *)
Definition sorted_names (l : list string) : list string := slice_stable str_lt l.

(** Everything that is only looked at: the rendered zones, what is served now, the new file
    of zone statements. *)
Definition prepare (d : Desired) : M (gmap string string * list string * string) :=
  if negb Available then fail ErrUnavailable
  else
    let! signs := SupportsDNSSEC in
    if negb signs && existsb DNSSEC (d_Zones d) then fail ErrNoDNSSEC
    else
      ensureDirs ;!
      let! rendered := render_zones (d_Zones d) ∅ in
      let! previous := ServedZones in
      let! include := conf (RenderInclude p (d_Settings d) (d_Zones d)) in
      ret (rendered, previous, include).

(** The new configuration put in place and accepted: the names written, and whether
    [named.conf] was made or extended. *)
Definition commit (settings : Settings) (rendered : gmap string string) (include : string)
  : M (list string * bool * bool) :=
  let! written := install (shuffle t (map_to_list rendered)) [] in
  let! includeBackup := or_else (backupFile (Include p)) (rollbackZones written) in
  or_else (writeFile (Include p) include) (rollbackZones written) ;!
  logged (chownNamed (Include p)) ;!
  let! (mainBackup, created, added) :=
    or_else (ensureMainConf settings) (restoreFile (Include p) includeBackup ;! rollbackZones written) in
  or_else Validate
    ((if created : bool then logged (remove (MainConf p)) else restoreFile (MainConf p) mainBackup) ;!
     restoreFile (Include p) includeBackup ;!
     rollbackZones written) ;!
  ret (written, created, added).

Definition Reconcile (d : Desired) : M ReconcileResult :=
  let! (rendered, previous, include) := prepare d in
  let! (written, created, added) := commit (d_Settings d) rendered include in
  let changed := sorted_names written in
  let! (reloaded, warning) := reload changed in
  let! unserved := if reloaded : bool then verifyLoaded changed else ret [] in
  let! (removed, undeleted) := clear_zones rendered (d_Zones d) previous in
  ret {| CreatedConfig := created; AddedInclude := added;
         Changed := changed; Removed := sorted_names removed;
         Signed := Name <$> filter (fun z => DNSSEC z = true) (d_Zones d);
         Reloaded := reloaded; Warnings := (option_list warning ++ unserved ++ undeleted)%list |}.

End provider.

(** ** Concrete hosts *)
Module Nameserver.
Definition paths : Paths := {| ConfigDir := ""; StateDir := "" |}.
(** Programs that accept everything but a configuration some file of which holds [bad]. *)
Definition tools (bad : string) : Tools := {|
  installed := fun _ => true; account := true; version_output := "BIND 9.18.49 (Extended Support Version)";
  checkzone := fun _ content => negb (str_contains "192.0.2.66" content);
  checkconf := fun m => bool_decide (map_Forall (fun _ c => bad = "" \/ str_contains bad c = false) m);
  has_service := true; starts := true; rndc := fun _ => true; shuffle := fun l => l; now := t_of 2026 9 3 12 0 |}.

Definition record (name type value : string) : ZRecord := {|
  z_Name := name; z_Type := type; z_TTL := 0; z_Value := value; z_Priority := 0; z_Weight := 0; z_Port := 0;
  z_Flags := 0; z_Tag := "" |}.
Definition zone (name address : string) : Zone := {|
  Name := name; Kind := "master"; PrimaryNS := "ns1.example.net."; z_Hostmaster := "host.master@example.net";
  Serial := 2026090301; Refresh := 7200; Retry := 3600; Expire := 1209600; Minimum := 3600; ZTTL := 3600;
  Nameservers := ["ns1.example.net."]; Records := [record "www" "A" address; record "@" "TXT" "v=spf1 -all"];
  DNSSEC := false; AllowTransfer := []; AlsoNotify := []; Masters := [] |}.
Definition settings : Settings := {| ListenOn := []; s_AllowTransfer := []; DNSSECPolicy := "" |}.
Definition want (address : string) : Desired := {|
  d_Settings := settings; d_Zones := [zone "shop.example" address; zone "blog.example" "192.0.2.9"] |}.

(** A host whose operator wrote its [named.conf] and let the panel's zones in. *)
Definition foreign : string := "options { recursion no; };" ++ nl ++ "include " ++ quote "/etc/bind/jothost.conf" ++ ";" ++ nl.
Definition before : Host := {| files := {[ "/etc/bind/named.conf" := foreign ]}; owned := ∅; running := true; h_faults := [] |}.
Definition served : Host := snd (Reconcile paths (tools "") (want "192.0.2.7") before).

Example first_reconcile :
  (Changed <$> ok_value (fst (Reconcile paths (tools "") (want "192.0.2.7") before))) = Some ["blog.example"; "shop.example"] /\
  files served !! "/etc/bind/named.conf" = Some foreign /\
  zones_in (default "" (files served !! "/etc/bind/jothost.conf")) = ["blog.example"; "shop.example"] /\
  (Changed <$> ok_value (fst (Reconcile paths (tools "") (want "192.0.2.7") served))) = Some [].
Proof. vm_compute. repeat split. Qed.

(** The next change is one the server's configuration check refuses. *)
Definition refused : Host := snd (Reconcile paths (tools "master") (want "192.0.2.8") served).
Example refused_change :
  fst (Reconcile paths (tools "master") (want "192.0.2.8") served) = Err ErrInvalidConfig /\
  files refused !! "/etc/bind/named.conf" = None /\
  files refused !! "/var/bind/jothost/shop.example.zone" = None /\
  zones_in (default "" (files refused !! "/etc/bind/jothost.conf")) = ["blog.example"; "shop.example"] /\
  ("/etc/bind/jothost.conf" ∈ owned served) /\ ("/etc/bind/jothost.conf" ∉ owned refused).
Proof. vm_compute. repeat split; try set_solver. Qed.
End Nameserver.
