(* ===== verification/NamedChange.v ===== *)
(** * What a reconcile leaves ([agent/internal/dns/apply.go])

    The outcomes of [NamedHost.Reconcile]: what an accepted one has put in place, what a zone
    that was refused has left alone, and what a refused configuration does to the host. *)

From S2P Require Import Prelude Store GoStr GoTime GoSort TenancyRules Netip DnsRules ZoneFile NamedConf NamedHost.

#[local] Open Scope string_scope.
#[local] Open Scope store_scope.
#[local] Arguments Nat.ltb : simpl never.

(** ** Paths *)
Fixpoint last_char (s : string) : option ascii :=
  match s with "" => None | String a "" => Some a | String _ rest => last_char rest end.
Lemma last_char_app s x : x <> "" -> last_char (s ++ x) = last_char x.
Proof.
  intros Hx. induction s as [|a s IH]; [done|]. cbn [String.append last_char].
  rewrite IH. destruct (s ++ x) eqn:E; [|done]. destruct s; [by cbn in E|done].
Qed.

(** The directories of the configuration and of the zones are absolute paths. *)
Definition dirs_ok (p : Paths) : Prop := exists cs ss, Forall good_seg cs /\ Forall good_seg ss /\
  ConfigDir (with_defaults p) = abs_path cs /\ StateDir (with_defaults p) = abs_path ss.

Lemma place segs x : Forall good_seg segs -> good_seg x ->
  fp_join [abs_path segs; x] = (if decide (segs = []) then "" else abs_path segs) ++ "/" ++ x.
Proof.
  intros Hs Hx. rewrite <- abs_path_snoc. apply (fp_join_abs segs [x]); [done|by constructor|done].
Qed.

(** A name of a zone file. *)
Lemma zone_seg pre name : ZoneName name = Ok tt -> contains_char slash pre = false ->
  good_seg (pre ++ name ++ zoneSuffix).
Proof.
  intros Hz Hp. destruct (ZoneName_chars _ Hz) as [Hc _].
  assert (Hl : (5 <= String.length (pre ++ name ++ zoneSuffix))%nat) by (rewrite !length_app_str; cbn; lia).
  split_and!; try (intros He; rewrite He in Hl; cbn in Hl; lia).
  rewrite !contains_char_app, Hp. rewrite (contains_char_forall slash domain_char) by done. done.
Qed.

(** Where the files are, up to the directories they share. *)
Lemma dirs_spec p : dirs_ok p -> exists c s,
  MainConf p = c ++ "named.conf" /\ Include p = c ++ "jothost.conf" /\
  (forall name, ZoneName name = Ok tt -> ZoneFile p name = s ++ name ++ zoneSuffix) /\
  (forall name, ZoneName name = Ok tt -> candidate p name = s ++ ".candidate-" ++ name ++ zoneSuffix).
Proof.
  intros (cs & ss & Hc & Hs & Ec & Es).
  exists ((if decide (cs = []) then "" else abs_path cs) ++ "/"), ((if decide (ss = []) then "" else abs_path ss) ++ "/").
  unfold MainConf, Include, ZoneFile, candidate. rewrite Ec, Es. split_and!.
  - by rewrite place, app_assoc_str.
  - by rewrite place, app_assoc_str.
  - intros name Hn. rewrite place, app_assoc_str; [done|done|by apply (zone_seg "")].
  - intros name Hn. rewrite place, app_assoc_str; [done|done|by apply zone_seg].
Qed.

Definition other_than_zones (p : Paths) (path : string) : Prop :=
  forall name, ZoneName name = Ok tt -> (path ∉ zoneArtifacts (ZoneFile p name)) /\ path <> candidate p name.

Lemma conf_other p path : dirs_ok p -> last_char path = Some "f"%char \/ last_char path = Some "Z"%char ->
  other_than_zones p path.
Proof.
  intros Hd Hl. destruct (dirs_spec p Hd) as (c & s & _ & _ & Hz & Hc). intros name Hn.
  rewrite Hc, Hz by done. split.
  - unfold zoneArtifacts. rewrite !elem_of_cons, elem_of_nil. intros He.
    repeat destruct He as [He|He]; try done; subst path; rewrite ?last_char_app in Hl by (done || by destruct name); by destruct Hl.
  - intros ->. rewrite !last_char_app in Hl by (by destruct name). by destruct Hl.
Qed.

Lemma MainConf_other p : dirs_ok p -> other_than_zones p (MainConf p).
Proof.
  intros Hd. apply conf_other; [done|]. destruct (dirs_spec p Hd) as (c & s & -> & _).
  left. by rewrite last_char_app.
Qed.
Lemma Include_other p : dirs_ok p -> other_than_zones p (Include p).
Proof.
  intros Hd. apply conf_other; [done|]. destruct (dirs_spec p Hd) as (c & s & _ & -> & _).
  left. by rewrite last_char_app.
Qed.
Lemma backup_other p t path : dirs_ok p -> other_than_zones p (path ++ ".bak." ++ backup_stamp t).
Proof.
  intros Hd. apply conf_other; [done|]. right. unfold backup_stamp. rewrite !app_assoc_str || idtac.
  rewrite last_char_app by done. rewrite last_char_app.
  - by rewrite <- !app_assoc_str, last_char_app.
  - intros He. apply (f_equal String.length) in He. rewrite !length_app_str in He. cbn in He. lia.
Qed.

Lemma conf_apart p t : dirs_ok p -> MainConf p <> Include p /\
  (forall x, x = MainConf p \/ x = Include p -> x ++ ".bak." ++ backup_stamp t <> MainConf p /\
                                               x ++ ".bak." ++ backup_stamp t <> Include p).
Proof.
  intros Hd. destruct (dirs_spec p Hd) as (c & s & -> & -> & _). split.
  - intros He. by apply app_inv_head_str in He.
  - intros x [-> | ->]; split; rewrite !app_assoc_str; intros He; by apply app_inv_head_str in He.
Qed.

Lemma ZoneFile_inj p n m : dirs_ok p -> ZoneName n = Ok tt -> ZoneName m = Ok tt ->
  ZoneFile p n = ZoneFile p m -> n = m.
Proof.
  intros Hd Hn Hm. destruct (dirs_spec p Hd) as (c & s & _ & _ & Hz & _). rewrite !Hz by done.
  intros He. apply app_inv_head_str in He. apply (f_equal (trim_suffix_opt zoneSuffix)) in He.
  rewrite !trim_suffix_opt_snoc in He by done. congruence.
Qed.
Lemma ZoneFile_artifact p n m path : dirs_ok p -> ZoneName n = Ok tt -> ZoneName m = Ok tt ->
  path ∈ tail (zoneArtifacts (ZoneFile p n)) -> path <> ZoneFile p m.
Proof.
  intros Hd Hn Hm. destruct (dirs_spec p Hd) as (c & s & _ & _ & Hz & _). rewrite !Hz by done.
  cbn [zoneArtifacts tail]. rewrite !elem_of_cons, elem_of_nil. intros Hp He. subst path.
  repeat destruct Hp as [He|Hp]; try done; apply (f_equal last_char) in He; by rewrite !last_char_app in He by (done || by destruct m).
Qed.
Lemma ZoneFile_candidate p n m : dirs_ok p -> ZoneName n = Ok tt -> ZoneName m = Ok tt -> candidate p n <> ZoneFile p m.
Proof.
  intros Hd Hn Hm. destruct (dirs_spec p Hd) as (c & s & _ & _ & Hz & Hc). rewrite Hz, Hc by done.
  intros He. apply app_inv_head_str in He. destruct (ZoneName_chars _ Hm) as (_ & a & rest & -> & Ha).
  cbn in He. by simplify_eq.
Qed.

(** ** Outcomes

    [ends m Q h]: what [m] answers from [h] and the host it leaves satisfy [Q]. *)
Local Abbreviation M := (Store.M Host dns_err).
Definition ends {A} (m : M A) (Q : result dns_err A -> Host -> Prop) (h : Host) : Prop :=
  Q (fst (m h)) (snd (m h)).

(** A host whose operations all work. *)
Definition calm (h : Host) : Prop := h_faults h = [].
(** The host as it is when an operation gets to run. *)
Definition reached (h h0 : Host) : Prop :=
  files h0 = files h /\ owned h0 = owned h /\ running h0 = running h /\ (calm h -> calm h0).

Lemma ends_ret {A} (a : A) (Q : result dns_err A -> Host -> Prop) h : Q (Ok a) h -> ends (ret a) Q h.
Proof. done. Qed.
Lemma ends_fail {A} e (Q : result dns_err A -> Host -> Prop) h : Q (Err e) h -> ends (fail e) Q h.
Proof. done. Qed.
Lemma ends_answer {A} r (Q : result dns_err A -> Host -> Prop) h : Q r h -> ends (answer r) Q h.
Proof. done. Qed.
Lemma ends_get {A} (f : Host -> A) (Q : result dns_err A -> Host -> Prop) h : Q (Ok (f h)) h -> ends (get f) Q h.
Proof. done. Qed.
Lemma ends_bind {A B} (m : M A) (k : A -> M B) Q h :
  ends m (fun r h' => match r with Ok a => ends (k a) Q h' | Err e => Q (Err e) h' end) h -> ends (bind m k) Q h.
Proof. unfold ends, bind. by destruct (m h) as [[a|e] h']. Qed.
Lemma ends_attempt {A} (m : M A) Q h : ends m (fun r => Q (Ok r)) h -> ends (attempt m) Q h.
Proof. unfold ends, attempt. by destruct (m h). Qed.
Lemma ends_weaken {A} (m : M A) (Q Q' : result dns_err A -> Host -> Prop) h :
  ends m Q h -> (forall r h', Q r h' -> Q' r h') -> ends m Q' h.
Proof. unfold ends. auto. Qed.
Lemma ends_io {A} (f : Host -> result dns_err A * Host) Q h :
  (forall h0, reached h h0 -> Q (fst (f h0)) (snd (f h0)) /\ (~ calm h -> Q (Err IOErr) h0)) -> ends (io f) Q h.
Proof.
  intros Hf. unfold ends, io. unfold reached, calm in Hf. destruct (h_faults h) as [|[] fs] eqn:E.
  - apply Hf. done.
  - apply Hf. by cbn.
  - apply Hf; done.
  - apply Hf; done.
Qed.
Lemma ends_logged {A} (m : M A) Q h : ends m (fun _ => Q (Ok tt)) h -> ends (logged m) Q h.
Proof. intros Hm. unfold logged. apply ends_bind, ends_attempt. eapply ends_weaken; [exact Hm|]. by intros [] h'. Qed.
Lemma ends_or_else {A} (m : M A) c Q h :
  ends m (fun r h' => match r with
                      | Ok a => Q (Ok a) h'
                      | Err e => ends c (fun r' h2 => match r' with Ok _ => Q (Err e) h2 | Err e' => Q (Err e') h2 end) h'
                      end) h -> ends (or_else m c) Q h.
Proof.
  intros Hm. unfold or_else. apply ends_bind, ends_attempt. eapply ends_weaken; [exact Hm|].
  intros [a|e] h' H; [done|]. by apply ends_bind.
Qed.
Lemma ends_each {A} (f : A -> M unit) (I : Host -> Prop) (F : dns_err -> Prop) l h : I h ->
  (forall x h, x ∈ l -> I h -> ends (f x) (fun r h' => I h' /\ match r with Ok _ => True | Err e => F e end) h) ->
  ends (each f l) (fun r h' => I h' /\ match r with Ok _ => True | Err e => F e end) h.
Proof.
  revert h. induction l as [|x l IH]; intros h Hi Hf; [by apply ends_ret|]. cbn [each]. apply ends_bind.
  eapply ends_weaken; [apply Hf; [apply list_elem_of_here|done]|].
  intros [[]|e] h' [Hi' He]; [|done]. apply IH; [done|]. intros y h2 Hy. apply Hf. by apply list_elem_of_further.
Qed.

(** ** Files *)
Section files.
Context (p : Paths) (t : Tools).

Lemma ends_write path c Q h :
  (forall h0, reached h h0 -> Q (Ok tt) (set_files (<[path := c]> (files h)) (owned h ∖ {[path]}) h0) /\
                              (~ calm h -> Q (Err IOErr) h0)) -> ends (writeFile path c) Q h.
Proof. intros HQ. apply ends_io. intros h0 Hr. destruct (HQ h0 Hr). by destruct Hr as (-> & -> & _). Qed.
Lemma ends_remove path Q h :
  (forall h0, reached h h0 -> Q (Ok tt) (set_files (delete path (files h)) (owned h ∖ {[path]}) h0) /\
                              (~ calm h -> Q (Err IOErr) h0)) -> ends (remove path) Q h.
Proof. intros HQ. apply ends_io. intros h0 Hr. destruct (HQ h0 Hr). by destruct Hr as (-> & -> & _). Qed.
Lemma ends_read path Q h :
  (forall h0, reached h h0 -> Q (Ok (files h !! path)) h0 /\ (~ calm h -> Q (Err IOErr) h0)) ->
  ends (ReadFile path) Q h.
Proof. intros HQ. apply ends_io. intros h0 Hr. destruct (HQ h0 Hr). by destruct Hr as (-> & _). Qed.

(** Two hosts that hold the same files but for those of [apart]; calm stays calm. *)
Definition alike (apart : string -> Prop) (h h' : Host) : Prop :=
  (forall path, ~ apart path -> files h' !! path = files h !! path) /\ (calm h -> calm h').

Lemma alike_refl apart h : alike apart h h.
Proof. done. Qed.
Lemma alike_trans apart h1 h2 h3 : alike apart h1 h2 -> alike apart h2 h3 -> alike apart h1 h3.
Proof. intros [H1 C1] [H2 C2]. split; [|auto]. intros path Hp. by rewrite H2, H1. Qed.
Lemma alike_reached apart h h0 : reached h h0 -> alike apart h h0.
Proof. intros (Hf & _ & _ & Hc). split; [|done]. intros path _. by rewrite Hf. Qed.
Lemma alike_weaken (a b : string -> Prop) h h' : (forall path, a path -> b path) -> alike a h h' -> alike b h h'.
Proof. intros Hab [H C]. split; [|done]. intros path Hp. apply H. auto. Qed.

(** Programs that touch nothing but some files, and fail as an operation does. *)
Definition touches {A} (apart : string -> Prop) (m : M A) : Prop :=
  forall h, ends m (fun r h' => alike apart h h' /\ match r with Ok _ => True | Err e => ~ calm h /\ e = IOErr end) h.

Lemma write_touches path c : touches (eq path) (writeFile path c).
Proof.
  intros h. apply ends_write. intros h0 Hr. split; [|by split; [apply alike_reached|]].
  split; [|done]. split; [|destruct Hr as (_ & _ & _ & Hc); exact Hc].
  intros q Hq. cbn. by rewrite lookup_insert_ne.
Qed.
Lemma remove_touches path : touches (eq path) (remove path).
Proof.
  intros h. apply ends_remove. intros h0 Hr. split; [|by split; [apply alike_reached|]].
  split; [|done]. split; [|destruct Hr as (_ & _ & _ & Hc); exact Hc].
  intros q Hq. cbn. by rewrite lookup_delete_ne.
Qed.
Lemma chown_touches path : touches (fun _ => False) (chownNamed t path).
Proof.
  intros h. unfold chownNamed. destruct (account t); cbn [negb]; [|by apply ends_ret].
  apply ends_io. intros h0 Hr. split; [|by split; [apply alike_reached|]].
  split; [|done]. destruct Hr as (Hf & _ & _ & Hc). split; [|exact Hc]. intros q _. cbn. by rewrite Hf.
Qed.
Lemma nothing_touches : touches (fun _ => False) nothing.
Proof. intros h. apply ends_io. intros h0 Hr. split; (split; [by apply alike_reached|done]). Qed.
Lemma read_touches path : touches (fun _ => False) (ReadFile path).
Proof. intros h. apply ends_read. intros h0 Hr. split; (split; [by apply alike_reached|done]). Qed.

Lemma touches_weaken {A} (a b : string -> Prop) (m : M A) : (forall path, a path -> b path) -> touches a m -> touches b m.
Proof.
  intros Hab Hm h. eapply ends_weaken; [apply Hm|]. intros r h' [H1 H2]. split; [by eapply alike_weaken|done].
Qed.
Lemma ret_touches {A} (a : A) apart : touches apart (ret a).
Proof. by intros h. Qed.
Lemma bind_touches {A B} apart (m : M A) (k : A -> M B) :
  touches apart m -> (forall a, touches apart (k a)) -> touches apart (bind m k).
Proof.
  intros Hm Hk h. apply ends_bind. eapply ends_weaken; [apply Hm|]. intros [a|e] h' [Ha He]; [|done].
  eapply ends_weaken; [apply Hk|]. intros r h2 [Hb Hr]. split; [by eapply alike_trans|].
  destruct r; [done|]. destruct Hr as [Hc ->]. split; [|done]. intros Hh. by apply Hc, Ha.
Qed.
Lemma logged_touches {A} apart (m : M A) : touches apart m -> touches apart (logged m).
Proof. intros Hm h. apply ends_logged. eapply ends_weaken; [apply Hm|]. by intros r h' [Ha _]. Qed.
Lemma attempt_touches {A} apart (m : M A) : touches apart m -> touches apart (attempt m).
Proof. intros Hm h. apply ends_attempt. eapply ends_weaken; [apply Hm|]. by intros r h' [Ha _]. Qed.
Lemma each_touches {A} apart (f : A -> M unit) l :
  (forall x, x ∈ l -> touches apart (f x)) -> touches apart (each f l).
Proof.
  induction l as [|x l IH]; intros Hf; [apply ret_touches|]. cbn [each]. apply bind_touches.
  - apply Hf, list_elem_of_here.
  - intros _. apply IH. intros y Hy. by apply Hf, list_elem_of_further.
Qed.
End files.

(** ** Looking before installing *)
Definition is_candidate (p : Paths) (path : string) : Prop :=
  exists name, ZoneName name = Ok tt /\ path = candidate p name.

(** The file every zone gets, a later zone of a name taking over. *)
Fixpoint renderings (zones : list Zone) (rendered : gmap string string) : gmap string string :=
  match zones with
  | [] => rendered
  | z :: more =>
      renderings more (match RenderZone z with
                       | Ok c => if Kind z =? ZoneSlave then rendered else <[Name z := c]> rendered
                       | Err _ => rendered
                       end)
  end.
Definition primary (z : Zone) : Prop := (Kind z =? ZoneSlave) = false.

Lemma renderings_from zones : forall rendered n c, renderings zones rendered !! n = Some c ->
  rendered !! n = Some c \/ exists z, z ∈ zones /\ primary z /\ Name z = n /\ RenderZone z = Ok c.
Proof.
  induction zones as [|z zones IH]; intros rendered n c H; [by left|]. cbn in H. apply IH in H as [H|(z' & Hz & H)].
  - unfold primary. destruct (RenderZone z) as [c'|] eqn:E; [|by left].
    destruct (Kind z =? ZoneSlave) eqn:Ek; [by left|].
    apply lookup_insert_Some in H as [[<- <-]|[_ H]]; [|by left].
    right. exists z. split; [apply list_elem_of_here|done].
  - right. exists z'. split; [by apply list_elem_of_further|done].
Qed.
Lemma renderings_keep zones : forall rendered n c, n ∉ (Name <$> zones) -> rendered !! n = Some c ->
  renderings zones rendered !! n = Some c.
Proof.
  induction zones as [|z zones IH]; intros rendered n c Hn Hr; [done|]. csimpl in Hn.
  apply not_elem_of_cons in Hn as [Hne Hn]. cbn. apply IH; [done|].
  destruct (RenderZone z); [|done]. destruct (Kind z =? ZoneSlave); [done|]. by rewrite lookup_insert_ne.
Qed.
Lemma renderings_of zones : forall rendered z c, NoDup (Name <$> zones) -> z ∈ zones -> primary z ->
  RenderZone z = Ok c -> renderings zones rendered !! Name z = Some c.
Proof.
  induction zones as [|y zones IH]; intros rendered z c Hd Hz Hp Hr; [by apply not_elem_of_nil in Hz|].
  csimpl in Hd. apply list.NoDup_cons in Hd as [Hn Hd]. cbn. apply elem_of_cons in Hz as [->|Hz].
  - rewrite Hr. unfold primary in Hp. rewrite Hp. apply renderings_keep; [done|]. by rewrite lookup_insert_eq.
  - by apply IH.
Qed.

Lemma RenderZone_name zone c : RenderZone zone = Ok c -> ZoneName (Name zone) = Ok tt.
Proof. intros H. unfold RenderZone in H. by apply rbind_ok in H as ([] & H & _). Qed.

Section prepare.
Context (p : Paths) (t : Tools) (Hdirs : dirs_ok p).

Lemma candidate_touches name : ZoneName name = Ok tt -> forall path, candidate p name = path -> is_candidate p path.
Proof. intros Hn path <-. by exists name. Qed.

Lemma checkCandidate_ends name content h : ZoneName name = Ok tt ->
  ends (checkCandidate p t name content) (fun r h' => alike (is_candidate p) h h' /\
    match r with
    | Ok _ => checkzone t name content = true
    | Err e => (~ calm h /\ e = IOErr) \/ (e = ErrInvalidZone /\ checkzone t name content = false)
    end) h.
Proof.
  intros Hn. pose proof (candidate_touches name Hn) as Hc. unfold checkCandidate. apply ends_bind, ends_write.
  intros h0 Hr.
  assert (Ha : alike (is_candidate p) h (set_files (<[candidate p name:=content]> (files h)) (owned h ∖ {[candidate p name]}) h0)).
  { split; [|destruct Hr as (_ & _ & _ & Hq); exact Hq]. intros q Hq. cbn. rewrite lookup_insert_ne; [done|]. intros <-. by apply Hq, Hc. }
  split; [|intros Hnc; split; [by apply alike_reached|by left]].
  apply ends_bind, ends_attempt, ends_io. intros h1 Hr1.
  assert (Ha1 : alike (is_candidate p) h h1) by (eapply alike_trans; [exact Ha|by apply alike_reached]).
  assert (Hrm : forall h2 (Q : Host -> Prop), alike (is_candidate p) h h2 -> (forall h', alike (is_candidate p) h h' -> Q h') ->
    ends (logged (remove (candidate p name))) (fun r h' => match r with Ok _ => Q h' | Err _ => False end) h2).
  { intros h2 Q Ha2 HQ. apply ends_logged. eapply ends_weaken; [apply remove_touches|].
    intros r h' [H _]. apply HQ. eapply alike_trans; [exact Ha2|]. by eapply alike_weaken; [|exact H]. }
  assert (Hf : files h1 !! candidate p name = Some content).
  { destruct Hr1 as (-> & _). cbn. by rewrite lookup_insert_eq. }
  split.
  - rewrite Hf. cbn [fst snd default]. apply ends_bind. eapply ends_weaken.
    + apply (Hrm h1 (fun h' => alike (is_candidate p) h h')); auto.
    + intros [[]|] h' H; [|done]. apply ends_answer. split; [done|]. cbn.
      destruct (checkzone t name content); auto.
  - intros Hnc. apply ends_bind. eapply ends_weaken.
    + apply (Hrm h1 (fun h' => alike (is_candidate p) h h')); auto.
    + intros [[]|] h' H; [|done]. apply ends_answer. split; [done|]. left. split; [|done].
      intros Hcalm. apply Hnc. by apply Ha.
Qed.

Lemma render_zones_ends zones : forall rendered h,
  ends (render_zones p t zones rendered) (fun r h' => alike (is_candidate p) h h' /\
    match r with
    | Ok out => out = renderings zones rendered /\
                (forall z, z ∈ zones -> primary z -> exists c, RenderZone z = Ok c /\ checkzone t (Name z) c = true)
    | Err e => e <> ErrInvalidConfig
    end) h.
Proof.
  induction zones as [|z zones IH]; intros rendered h; cbn [render_zones].
  { apply ends_ret. split; [done|]. split; [done|]. intros z Hz. by apply not_elem_of_nil in Hz. }
  cbn [renderings]. destruct (Kind z =? ZoneSlave) eqn:Ek.
  - eapply ends_weaken; [apply IH|]. intros [out|e] h' [Ha H]; [|done]. split; [done|]. destruct H as [-> H]. split.
    + by destruct (RenderZone z).
    + intros y Hy Hp. apply elem_of_cons in Hy as [->|Hy]; [unfold primary in Hp; congruence|auto].
  - apply ends_bind, ends_answer. destruct (RenderZone z) as [c|e] eqn:Er; [|done].
    apply ends_bind. eapply ends_weaken; [apply checkCandidate_ends; by eapply RenderZone_name|].
    intros [[]|e] h' [Ha H]; [|split; [done|]; destruct H as [[_ ->]|[-> _]]; done].
    eapply ends_weaken; [apply IH|]. intros [out|e] h2 [Hb H2]; (split; [by eapply alike_trans|]); [|done].
    destruct H2 as [-> H2]. split; [done|]. intros y Hy Hp. apply elem_of_cons in Hy as [->|Hy]; [eauto|auto].
Qed.

Lemma Version_touches : touches (fun _ => False) (Version t).
Proof.
  unfold Version. destruct (negb _); [apply ret_touches|]. apply bind_touches; [apply attempt_touches, nothing_touches|].
  intros r. apply ret_touches.
Qed.
Lemma ensureDirs_touches : touches (fun _ => False) (ensureDirs p t).
Proof.
  apply each_touches. intros x _. apply bind_touches; [apply nothing_touches|]. intros _.
  destruct (account t); [apply nothing_touches|apply ret_touches].
Qed.

(** What looking finds, as [renderings] says it. *)
Definition prepared (d : Desired) (h : Host) (out : gmap string string * list string * string) : Prop :=
  let '(rendered, previous, include) := out in
  rendered = renderings (d_Zones d) ∅ /\ RenderInclude p (d_Settings d) (d_Zones d) = Ok include /\
  (forall z, z ∈ d_Zones d -> primary z -> exists c, RenderZone z = Ok c /\ checkzone t (Name z) c = true) /\
  (previous = [] \/ previous = zones_in (default "" (files h !! Include p))).

(** Looking leaves every file but candidates as it was. *)
Lemma prepare_ends d h :
  ends (prepare p t d) (fun r h' => alike (is_candidate p) h h' /\
    match r with
    | Ok out => prepared d h out
    | Err e => e = ErrInvalidConfig -> is_ok (RenderInclude p (d_Settings d) (d_Zones d)) = false
    end) h.
Proof.
  assert (Hnone : forall h h', alike (fun _ => False) h h' -> alike (is_candidate p) h h').
  { intros h1 h2. by apply alike_weaken. }
  unfold prepare. destruct (negb _); [by apply ends_fail|]. apply ends_bind. unfold SupportsDNSSEC. apply ends_bind.
  eapply ends_weaken; [apply Version_touches|]. intros [v|e] h1 [H1 He]; [|split; [by apply Hnone|by destruct He as [_ ->]]].
  apply ends_ret. destruct (negb _ && _); [apply ends_fail; split; [by apply Hnone|done]|].
  apply ends_bind. eapply ends_weaken; [apply ensureDirs_touches|].
  intros [[]|e] h2 [H2 He2]; [|split; [apply Hnone; by eapply alike_trans|by destruct He2 as [_ ->]]].
  apply ends_bind. eapply ends_weaken; [apply render_zones_ends|]. intros [rendered|e] h3 [H3 He3].
  2: { split; [|done]. eapply alike_trans; [|exact H3]. apply Hnone. by eapply alike_trans. }
  destruct He3 as [-> Hz]. assert (Hall : alike (is_candidate p) h h3).
  { eapply alike_trans; [|exact H3]. apply Hnone. by eapply alike_trans. }
  assert (Hinc : files h3 !! Include p = files h !! Include p).
  { apply Hall. intros (n & Hn & Hpath). by destruct (Include_other p Hdirs n Hn) as [_ Hc]. }
  apply ends_bind. unfold ServedZones. apply ends_bind, ends_attempt, ends_read. intros h4 H4.
  assert (Hall4 : alike (is_candidate p) h h4) by (eapply alike_trans; [exact Hall|by apply alike_reached]).
  assert (Hend : forall previous, previous = [] \/ previous = zones_in (default "" (files h !! Include p)) ->
    ends (let! include := conf (RenderInclude p (d_Settings d) (d_Zones d)) in
          ret (renderings (d_Zones d) ∅, previous, include)) (fun r h' => alike (is_candidate p) h h' /\
    match r with
    | Ok out => prepared d h out
    | Err e => e = ErrInvalidConfig -> is_ok (RenderInclude p (d_Settings d) (d_Zones d)) = false
    end) h4).
  { intros previous Hp. apply ends_bind, ends_answer. destruct (RenderInclude p (d_Settings d) (d_Zones d)) as [include|e] eqn:Ei; [|done].
    apply ends_ret. split; [done|]. split_and!; auto. }
  split.
  - apply ends_ret, Hend. right. rewrite Hinc. by destruct (files h !! Include p).
  - intros _. apply ends_ret, Hend. by left.
Qed.
End prepare.

(** ** Installing *)
Section commit.
Context (p : Paths) (t : Tools) (Hdirs : dirs_ok p).

(** The files of some zones. *)
Definition area (names : list string) (path : string) : Prop :=
  exists n, n ∈ names /\ ZoneName n = Ok tt /\ path ∈ zoneArtifacts (ZoneFile p n).

Lemma area_mono names names' path : names ⊆ names' -> area names path -> area names' path.
Proof. intros Hs (n & Hn & H). exists n. split; [by apply Hs|done]. Qed.
Lemma other_area names path : other_than_zones p path -> ~ area names path.
Proof. intros Ho (n & _ & Hn & Hp). by destruct (Ho n Hn). Qed.
Lemma zone_area names m : ZoneName m = Ok tt -> m ∉ names -> ~ area names (ZoneFile p m).
Proof.
  intros Hm Hn (n & Hin & Hok & Hp). cbn [zoneArtifacts] in Hp. apply elem_of_cons in Hp as [He|Hp].
  - apply ZoneFile_inj in He; [|done..]. by subst.
  - by apply (ZoneFile_artifact p n m (ZoneFile p m)) in Hp.
Qed.
Lemma alike_zone names h h' m : alike (area names) h h' -> ZoneName m = Ok tt -> m ∉ names ->
  files h' !! ZoneFile p m = files h !! ZoneFile p m.
Proof. intros [H _] Hm Hn. by apply H, zone_area. Qed.

Lemma artifact_touches n path : ZoneName n = Ok tt -> path ∈ zoneArtifacts (ZoneFile p n) ->
  forall q, path = q -> area [n] q.
Proof. intros Hn Hp q <-. exists n. split; [apply list_elem_of_here|done]. Qed.

Definition works {A} (h : Host) (Q : A -> Prop) (r : result dns_err A) : Prop :=
  match r with Ok a => Q a | Err e => ~ calm h /\ e = IOErr end.

Lemma installZone_ends n c h : ZoneName n = Ok tt ->
  ends (installZone t (ZoneFile p n) c) (fun r h' => alike (area [n]) h h' /\
    works h (fun _ => files h' !! ZoneFile p n = Some c) r) h.
Proof.
  intros Hn. unfold installZone. apply ends_bind. eapply ends_weaken.
  { apply (each_touches (area [n])). intros path Hp. eapply touches_weaken; [|apply remove_touches].
    apply artifact_touches; [done|]. by apply list_elem_of_further. }
  intros [[]|e] h1 [H1 He]; [|done]. apply ends_bind, ends_write. intros h2 H2.
  assert (Ha : alike (area [n]) h h2) by (eapply alike_trans; [exact H1|by apply alike_reached]).
  split; [|intros Hc; split; [done|]; split; [intros Hcalm; by apply Hc, H1|done]].
  eapply ends_weaken; [apply chown_touches|]. intros r h3 [H3 Hr].
  assert (Hz : area [n] (ZoneFile p n)) by (by eapply artifact_touches; [|apply list_elem_of_here|]).
  split.
  - split; [|intros Hcalm; apply H3; exact (proj2 Ha Hcalm)]. intros q Hq. destruct H3 as [H3 _].
    rewrite H3 by (by intros []). cbn. rewrite lookup_insert_ne; [|intros <-; by apply Hq]. by apply H1.
  - destruct r as [[]|e]; cbn.
    + destruct H3 as [-> _]; [|auto]. cbn. by rewrite lookup_insert_eq.
    + destruct Hr as [Hr ->]. split; [|done]. intros Hcalm. apply Hr. exact (proj2 Ha Hcalm).
Qed.

Lemma removeZoneFiles_ends n h : ZoneName n = Ok tt ->
  ends (removeZoneFiles (ZoneFile p n)) (fun r h' => alike (area [n]) h h' /\
    works h (fun _ => files h' !! ZoneFile p n = None) r) h.
Proof.
  intros Hn.
  change (removeZoneFiles (ZoneFile p n)) with
    (remove (ZoneFile p n) ;! each remove (tail (zoneArtifacts (ZoneFile p n)))). apply ends_bind, ends_remove. intros h1 H1.
  assert (Hz : area [n] (ZoneFile p n)) by (by eapply artifact_touches; [|apply list_elem_of_here|]).
  assert (Ha : alike (area [n]) h h1) by by apply alike_reached.
  split; [|intros Hc; split; [done|]; by split].
  eapply ends_weaken.
  { apply (each_touches (fun q => q ∈ tail (zoneArtifacts (ZoneFile p n)))). intros path Hp.
    eapply touches_weaken; [|apply remove_touches]. by intros q <-. }
  intros r h2 [H2 Hr]. split.
  - split; [|intros Hcalm; apply H2; exact (proj2 Ha Hcalm)]. intros q Hq. destruct H2 as [H2 _]. rewrite H2.
    + cbn. rewrite lookup_delete_ne; [done|]. by intros <-.
    + intros Hin. apply Hq. exists n. split_and!; [apply list_elem_of_here|done|]. by apply list_elem_of_further.
  - destruct r as [[]|e]; cbn.
    + destruct H2 as [-> _]; [cbn; by rewrite lookup_delete_eq|]. intros Hin.
      by apply (ZoneFile_artifact p n n (ZoneFile p n)) in Hin.
    + destruct Hr as [Hr ->]. split; [|done]. intros Hcalm. apply Hr. exact (proj2 Ha Hcalm).
Qed.

(** Taking back what was written: every one of the files goes, whatever it held before. *)
Lemma rollbackZones_ends names h : Forall (fun n => ZoneName n = Ok tt) names ->
  ends (rollbackZones p names) (fun r h' => r = Ok tt /\ alike (area names) h h' /\
    (calm h -> forall n, n ∈ names -> files h' !! ZoneFile p n = None)) h.
Proof.
  revert h. unfold rollbackZones. induction names as [|n names IH]; intros h Hn.
  { apply ends_ret. split_and!; try done. intros _ n Hin. by apply not_elem_of_nil in Hin. }
  inversion_clear Hn as [|? ? Hok Hoks]. cbn [each]. apply ends_bind, ends_logged, ends_remove. intros h1 H1.
  assert (Hz : area (n :: names) (ZoneFile p n)).
  { exists n. split_and!; [apply list_elem_of_here|done|apply list_elem_of_here]. }
  assert (Hmono : forall q, area names q -> area (n :: names) q).
  { intros q. apply area_mono. intros x Hx. by apply list_elem_of_further. }
  assert (Ha : alike (area (n :: names)) h h1) by by apply alike_reached.
  split.
  - eapply ends_weaken; [by apply IH|]. intros r h2 (-> & H2 & Hd). split_and!; [done| |].
    + split; [|intros Hcalm; apply H2; exact (proj2 Ha Hcalm)]. intros q Hq.
      destruct H2 as [H2 _]. rewrite H2 by auto. cbn. rewrite lookup_delete_ne; [done|]. by intros <-.
    + intros Hcalm m Hm. destruct (decide (m ∈ names)) as [Hin|Hin]; [apply Hd; [exact (proj2 Ha Hcalm)|done]|].
      apply elem_of_cons in Hm as [->|Hm]; [|done]. destruct H2 as [H2 _].
      rewrite H2 by (by apply zone_area). cbn. by rewrite lookup_delete_eq.
  - intros Hc. eapply ends_weaken; [by apply IH|]. intros r h2 (-> & H2 & Hd). split_and!; [done| |done].
    eapply alike_trans; [exact Ha|]. by eapply alike_weaken.
Qed.
Definition zone_ok (n : string) : Prop := ZoneName n = Ok tt.

(** What the loop over the zones has done: every file is the zone's, and the names it gives
    are those of the files that were not. *)
Definition installed_all (todo : list (string * string)) (new : list string) (h h' : Host) : Prop :=
  Forall zone_ok new /\ alike (area new) h h' /\ new ⊆ todo.*1 /\
  forall n c, (n, c) ∈ todo -> files h' !! ZoneFile p n = Some c /\ (n ∈ new <-> files h !! ZoneFile p n <> Some c).

Lemma install_ends todo : forall written h,
  Forall (fun x => zone_ok x.1) todo -> NoDup todo.*1 -> Forall zone_ok written ->
  ends (install p t todo written) (fun r h' =>
    works h (fun w => exists new, w = (written ++ new)%list /\ installed_all todo new h h') r) h.
Proof.
  induction todo as [|[n c] todo IH]; intros written h Hok Hd Hw; cbn [install].
  { apply ends_ret. exists []. rewrite app_nil_r. split; [done|]. split_and!; try done.
    intros n c Hin. by apply not_elem_of_nil in Hin. }
  inversion_clear Hok as [|? ? Hn Hoks]. cbn in Hn. csimpl in Hd. apply list.NoDup_cons in Hd as [Hnin Hd].
  assert (Hfail : forall h1, ~ calm h -> ends (rollbackZones p written) (fun r' h2 =>
    match r' with
    | Ok _ => works h (fun w => exists new, w = (written ++ new)%list /\ installed_all ((n, c) :: todo) new h h2) (Err IOErr)
    | Err e => works h (fun w => exists new, w = (written ++ new)%list /\ installed_all ((n, c) :: todo) new h h2) (Err e)
    end) h1).
  { intros h1 Hc. eapply ends_weaken; [by apply rollbackZones_ends|]. intros r h2 (-> & _). done. }
  apply ends_bind, ends_or_else. unfold fileHas. apply ends_bind, ends_read. intros h1 H1. split; [|intros Hc; by apply Hfail].
  assert (Hmem : files h1 = files h) by apply H1. assert (Hc1 : calm h -> calm h1) by apply H1.
  apply ends_ret. set (same := match files h !! ZoneFile p n with Some c' => c' =? c | None => false end).
  assert (Hsame : same = true <-> files h !! ZoneFile p n = Some c).
  { unfold same. destruct (files h !! ZoneFile p n) as [c'|]; [|done]. rewrite String.eqb_eq. naive_solver. }
  destruct same.
  - eapply ends_weaken; [by apply IH|]. intros r h2 Hr. destruct r as [w|e]; cbn in *; [|naive_solver].
    destruct Hr as (new & -> & (Hnew & Ha & Hsub & Hall)). exists new. split; [done|]. unfold installed_all.
    rewrite Hmem in Hall. assert (Hn' : n ∉ new) by (intros Hin; by apply Hnin, Hsub).
    split_and!; [done|by eapply alike_trans; [apply alike_reached|]| |].
    + etrans; [exact Hsub|]. intros x Hx. by apply list_elem_of_further.
    + intros m d Hin. apply elem_of_cons in Hin as [[= -> ->]|Hin]; [|by apply Hall].
      rewrite (alike_zone new h1 h2 n) by done. rewrite Hmem. naive_solver.
  - apply ends_bind, ends_or_else. eapply ends_weaken; [by apply installZone_ends|].
    intros [[]|e] h2 [H2 He]; [|destruct He as [Hc ->]; apply Hfail; auto].
    cbn in He. eapply ends_weaken; [apply IH; [done|done|by apply Forall_app; split; [|constructor]]|].
    intros r h3 Hr. assert (Hc2 : calm h -> calm h2) by (intros Hc; by apply H2, Hc1).
    destruct r as [w|e]; cbn in *; [|naive_solver].
    destruct Hr as (new & -> & (Hnew & Ha & Hsub & Hall)). exists (n :: new). rewrite <- app_assoc. split; [done|].
    assert (Hn' : n ∉ new) by (intros Hin; by apply Hnin, Hsub). unfold installed_all. split_and!.
    + by constructor.
    + eapply alike_trans; [by apply alike_reached|]. eapply alike_trans; [|eapply alike_weaken; [|exact Ha]].
      * eapply alike_weaken; [|exact H2]. intros q. apply area_mono. intros x Hx.
        apply list_elem_of_singleton in Hx as ->. apply list_elem_of_here.
      * intros q. apply area_mono. intros x Hx. by apply list_elem_of_further.
    + intros x Hx. csimpl. apply elem_of_cons in Hx as [->|Hx]; [apply list_elem_of_here|].
      by apply list_elem_of_further, Hsub.
    + intros m d Hin. apply elem_of_cons in Hin as [[= -> ->]|Hin].
      * rewrite (alike_zone new h2 h3 n) by done. split; [done|]. split; [|intros _; apply list_elem_of_here].
        intros _ Heq. by apply Hsame in Heq.
      * assert (Hmn : m <> n) by (intros ->; apply Hnin; apply list_elem_of_fmap; by exists (n, d)).
        assert (Hmok : ZoneName m = Ok tt) by (rewrite list.Forall_forall in Hoks; by apply (Hoks (m, d))).
        destruct (Hall m d Hin) as [H3 H4]. split; [done|]. rewrite elem_of_cons, H4.
        rewrite (alike_zone [n] h1 h2 m), Hmem; [naive_solver|done|done|]. by rewrite list_elem_of_singleton.
Qed.
End commit.

(** ** A configuration that is refused *)
Section refused.
Context (p : Paths) (t : Tools) (Hdirs : dirs_ok p).

(** From here every operation works. *)
Definition next (m : gmap string string) (h : Host) : Prop := files h = m /\ calm h.

Lemma calm_write path c Q h m : next m h -> (forall h', next (<[path := c]> m) h' -> Q (Ok tt) h') -> ends (writeFile path c) Q h.
Proof.
  intros [Hm Hc] HQ. apply ends_write. intros h0 Hr. split; [|by intros []]. apply HQ. split; [cbn; by rewrite Hm|].
  destruct Hr as (_ & _ & _ & H). exact (H Hc).
Qed.
Lemma calm_remove path Q h m : next m h -> (forall h', next (delete path m) h' -> Q (Ok tt) h') -> ends (remove path) Q h.
Proof.
  intros [Hm Hc] HQ. apply ends_remove. intros h0 Hr. split; [|by intros []]. apply HQ. split; [cbn; by rewrite Hm|].
  destruct Hr as (_ & _ & _ & H). exact (H Hc).
Qed.
Lemma calm_read path Q h m : next m h -> (forall h', next m h' -> Q (Ok (m !! path)) h') -> ends (ReadFile path) Q h.
Proof.
  intros [<- Hc] HQ. apply ends_read. intros h0 Hr. split; [|by intros []]. apply HQ.
  destruct Hr as (Hf & _ & _ & H). by split; [|apply H].
Qed.
Lemma calm_chown path Q h m : next m h -> (forall h', next m h' -> Q (Ok tt) h') -> ends (logged (chownNamed t path)) Q h.
Proof.
  intros [Hm Hc] HQ. apply ends_logged. eapply ends_weaken; [apply chown_touches|]. intros r h' [[Hf Hc'] _].
  apply HQ. split; [|by apply Hc']. rewrite <- Hm. apply map_eq. intros q. apply Hf. by intros [].
Qed.

(** [named.conf] is as the panel would leave it. *)
Definition settled (settings : Settings) (conf : string) : Prop :=
  if str_contains confMarker conf then conf = RenderMainConf p settings else HasInclude conf p = true.

Lemma settled_ends settings conf Q h m : next m h -> m !! MainConf p = Some conf -> settled settings conf ->
  (forall h', next m h' -> Q (Ok (""%string, false, false)) h') -> ends (ensureMainConf p t settings) Q h.
Proof.
  intros Hn Hm Hs HQ. unfold ensureMainConf. apply ends_bind, ends_attempt. eapply calm_read; [exact Hn|].
  intros h' Hn'. rewrite Hm. unfold settled in Hs. destruct (str_contains confMarker conf).
  - rewrite (proj2 (String.eqb_eq _ _) Hs). by apply ends_ret, HQ.
  - rewrite Hs. by apply ends_ret, HQ.
Qed.

Definition backup_path : string := Include p ++ ".bak." ++ backup_stamp (now t).
(** The files with the old file of zone statements put aside. *)
Definition put_aside (m : gmap string string) : gmap string string :=
  match m !! Include p with Some c => <[backup_path := c]> m | None => m end.
Definition backup_name (m : gmap string string) : string :=
  match m !! Include p with Some _ => backup_path | None => "" end.

Lemma backup_ends Q h m : next m h -> (forall h', next (put_aside m) h' -> Q (Ok (backup_name m)) h') ->
  ends (backupFile t (Include p)) Q h.
Proof.
  intros Hn HQ. unfold backupFile. apply ends_bind. eapply calm_read; [exact Hn|]. intros h1 H1.
  unfold put_aside, backup_name in *. destruct (m !! Include p) as [c|]; [|by apply ends_ret, HQ].
  apply ends_bind. eapply calm_write; [exact H1|]. intros h2 H2. by apply ends_ret, HQ.
Qed.

(** The file of zone statements as it was: its copy read back, or the new one removed. *)
Lemma restore_ends Q h m (k : gmap string string) : next m h ->
  (forall c, k !! Include p = Some c -> m !! backup_path = Some c) ->
  (forall h' m', next m' h' -> (forall q, q <> Include p -> m' !! q = m !! q) -> m' !! Include p = k !! Include p -> Q (Ok tt) h') ->
  ends (restoreFile (Include p) (backup_name k)) Q h.
Proof.
  intros Hn Hb HQ. unfold restoreFile, backup_name. destruct (k !! Include p) as [c|] eqn:Ek.
  - assert ((backup_path =? "") = false) as ->.
    { apply String.eqb_neq. unfold backup_path. intros He. apply (f_equal String.length) in He.
      rewrite !length_app_str in He. cbn in He. lia. }
    apply ends_bind, ends_attempt. eapply calm_read; [exact Hn|]. intros h1 H1. rewrite (Hb c eq_refl).
    apply ends_logged. eapply calm_write; [exact H1|]. intros h2 H2. eapply HQ; [exact H2| |].
    + intros q Hq. by rewrite lookup_insert_ne.
    + by rewrite lookup_insert_eq.
  - apply ends_logged. eapply calm_remove; [exact Hn|]. intros h2 H2. eapply HQ; [exact H2| |].
    + intros q Hq. by rewrite lookup_delete_ne.
    + by rewrite lookup_delete_eq.
Qed.

Definition broken (rendered : gmap string string) (h h' : Host) : Prop :=
  files h' !! MainConf p = None /\ files h' !! Include p = files h !! Include p /\
  forall n c, rendered !! n = Some c ->
    files h' !! ZoneFile p n = if decide (files h !! ZoneFile p n = Some c) then Some c else None.

Lemma cleanup_ends rendered new h0 h1 h m (include : string) :
  Forall zone_ok new -> (forall n c, rendered !! n = Some c -> zone_ok n) ->
  installed_all p (map_to_list rendered) new h0 h1 ->
  next m h -> (forall q, q <> Include p -> q <> backup_path -> m !! q = files h1 !! q) ->
  (forall c, files h1 !! Include p = Some c -> m !! backup_path = Some c) ->
  files h1 !! Include p = files h0 !! Include p ->
  ends (restoreFile (MainConf p) "" ;! restoreFile (Include p) (backup_name (files h1)) ;! rollbackZones p new)
    (fun r h' => r = Ok tt /\ broken rendered h0 h') h.
Proof.
  intros Hnew Hz (_ & Halike & _ & Hall) Hn Hm Hb Hinc.
  destruct (conf_apart p (now t) Hdirs) as [Happ Hbak].
  destruct (Hbak (Include p) (or_intror eq_refl)) as [Hbm Hbi].
  apply ends_bind. apply ends_logged. eapply calm_remove; [exact Hn|]. intros h2 H2.
  apply ends_bind. eapply restore_ends; [exact H2| |].
  { intros c Hc. rewrite lookup_delete_ne by (intros He; by apply Hbm). auto. }
  intros h3 m3 H3 Hq Hi. eapply ends_weaken; [by apply rollbackZones_ends|]. intros r h' (-> & Hr & Hgone).
  destruct H3 as [<- Hcalm]. split; [done|]. unfold broken. split_and!.
  - destruct Hr as [Hr _]. rewrite Hr by (by apply other_area, MainConf_other). rewrite Hq by done.
    by rewrite lookup_delete_eq.
  - destruct Hr as [Hr _]. rewrite Hr by (by apply other_area, Include_other). by rewrite Hi.
  - intros n c Hnc. destruct (Hall n c) as [H4 H5]; [by apply elem_of_map_to_list|].
    assert (Hzn : ZoneName n = Ok tt) by by apply (Hz n c).
    case_decide as Hd.
    + assert (n ∉ new) as Hni by naive_solver. rewrite (alike_zone p Hdirs new h3 h' n) by done.
      assert (Hzf : forall q, other_than_zones p q -> ZoneFile p n <> q).
      { intros q Ho He. destruct (Ho n Hzn) as [Ho' _]. apply Ho'. rewrite <- He. apply list_elem_of_here. }
      rewrite Hq by (by apply Hzf, Include_other).
      rewrite lookup_delete_ne by (intros He; by apply (Hzf (MainConf p)); [apply MainConf_other|]).
      rewrite Hm; [done|by apply Hzf, Include_other|]. apply Hzf. by apply backup_other.
    + apply Hgone; [done|]. by apply H5.
Qed.

Lemma commit_refused settings rendered include conf h :
  (forall l, shuffle t l ≡ₚ l) -> (forall n c, rendered !! n = Some c -> zone_ok n) ->
  calm h -> files h !! MainConf p = Some conf -> settled settings conf ->
  ends (commit p t settings rendered include) (fun r h' => forall e, r = Err e -> e = ErrInvalidConfig /\ broken rendered h h') h.
Proof.
  intros Hsh Hz Hc Hconf Hset. unfold commit. apply ends_bind.
  assert (Hp : forall x, x ∈ shuffle t (map_to_list rendered) <-> x ∈ map_to_list rendered) by (intros x; by rewrite Hsh).
  eapply ends_weaken; [apply install_ends; [done|..]|].
  { rewrite list.Forall_forall. intros [n c] Hin%Hp. apply elem_of_map_to_list in Hin. by apply (Hz n c). }
  { rewrite Hsh. apply NoDup_fst_map_to_list. }
  { constructor. }
  intros [w|e] h1 Hr; [|by destruct Hr as [Hr _]]. cbn in Hr. destruct Hr as (new & -> & Hall). cbn [app].
  assert (Hin : installed_all p (map_to_list rendered) new h h1).
  { destruct Hall as (H1 & H2 & H3 & H4). split_and!; [done|done| |].
    - intros x Hx. apply H3 in Hx. by rewrite Hsh in Hx.
    - intros n c Hnc. apply H4. by apply Hp. }
  destruct Hin as (Hok & Ha & Hsub & Hzs) eqn:E. clear E.
  assert (Hinc : files h1 !! Include p = files h !! Include p) by (apply Ha, other_area; by apply Include_other).
  assert (Hmain : files h1 !! MainConf p = Some conf) by (rewrite <- Hconf; apply Ha, other_area; by apply MainConf_other).
  assert (Hn1 : next (files h1) h1) by (split; [done|by apply Ha]).
  destruct (conf_apart p (now t) Hdirs) as [Happ Hbak].
  destruct (Hbak (Include p) (or_intror eq_refl)) as [Hbm Hbi].
  apply ends_bind, ends_or_else. eapply backup_ends; [exact Hn1|]. intros h2 H2.
  apply ends_bind, ends_or_else. eapply calm_write; [exact H2|]. intros h3 H3.
  apply ends_bind. eapply calm_chown; [exact H3|]. intros h4 H4.
  assert (Hother : forall q, q <> Include p -> q <> backup_path ->
    (<[Include p := include]> (put_aside (files h1))) !! q = files h1 !! q).
  { intros q Hq1 Hq2. rewrite lookup_insert_ne by done. unfold put_aside.
    destruct (files h1 !! Include p); [|done]. by rewrite lookup_insert_ne. }
  assert (Hkept : forall c, files h1 !! Include p = Some c ->
    (<[Include p := include]> (put_aside (files h1))) !! backup_path = Some c).
  { intros c Hi. rewrite lookup_insert_ne by (intros He; by apply Hbi). unfold put_aside. rewrite Hi.
    by rewrite lookup_insert_eq. }
  apply ends_bind, ends_or_else. eapply settled_ends; [exact H4| |done|].
  { rewrite Hother; [exact Hmain|done|]. intros He. by apply Hbm. }
  intros h5 H5. apply ends_bind, ends_or_else. unfold Validate. apply ends_io. intros h6 H6. cbn [fst snd].
  assert (Hn6 : next (<[Include p := include]> (put_aside (files h1))) h6).
  { destruct H5 as [Hf5 Hc5]. destruct H6 as (Hf & _ & _ & Hc6). split; [by rewrite Hf|by apply Hc6]. }
  split; [|intros Hnc; by destruct Hnc, H5].
  destruct (checkconf t (files h6)); [by apply ends_ret|]. eapply ends_weaken.
  - eapply (cleanup_ends rendered new h h1); try done; done.
  - intros r h' [-> Hbr] e [= <-]. done.
Qed.
End refused.

(** ** What can fail, and what an answer means *)
Definition fails {A} (F : dns_err -> Prop) (m : M A) : Prop :=
  forall h, ends m (fun r _ => match r with Ok _ => True | Err e => F e end) h.

Lemma ret_fails {A} F (a : A) : fails F (ret a).
Proof. done. Qed.
Lemma bind_fails {A B} F (m : M A) (k : A -> M B) : fails F m -> (forall a, fails F (k a)) -> fails F (bind m k).
Proof. intros Hm Hk h. apply ends_bind. eapply ends_weaken; [apply Hm|]. intros [a|e] h' H; [apply Hk|done]. Qed.
Lemma attempt_fails {A} F (m : M A) : fails F (attempt m).
Proof. intros h. apply ends_attempt. unfold ends. by destruct (m h) as [[]]. Qed.
Lemma logged_fails {A} F (m : M A) : fails F (logged m).
Proof. apply bind_fails; [apply attempt_fails|]. intros r. apply ret_fails. Qed.
Lemma get_fails {A} F (f : Host -> A) : fails F (get f).
Proof. done. Qed.
Lemma touches_fails {A} (F : dns_err -> Prop) a (m : M A) : F IOErr -> touches a m -> fails F m.
Proof. intros HF Hm h. eapply ends_weaken; [apply Hm|]. intros [x|e] h' [_ H]; [done|]. by destruct H as [_ ->]. Qed.
Lemma or_else_fails {A} F (m : M A) c : fails F m -> fails F c -> fails F (or_else m c).
Proof.
  intros Hm Hc h. apply ends_or_else. eapply ends_weaken; [apply Hm|]. intros [a|e] h' H; [done|].
  eapply ends_weaken; [apply Hc|]. by intros [[]|e'] h2 H2.
Qed.
Lemma each_fails {A} F (f : A -> M unit) l : (forall x, fails F (f x)) -> fails F (each f l).
Proof. intros Hf. induction l as [|x l IH]; [apply ret_fails|]. cbn [each]. by apply bind_fails. Qed.

Create HintDb fails discriminated.
#[local] Hint Resolve ret_fails bind_fails attempt_fails logged_fails get_fails or_else_fails each_fails : fails.
#[local] Hint Extern 1 (fails _ (match ?x with _ => _ end)) => destruct x : fails.
#[local] Hint Extern 2 (fails _ (writeFile _ _)) => eapply touches_fails; [|apply write_touches] : fails.
#[local] Hint Extern 2 (fails _ (remove _)) => eapply touches_fails; [|apply remove_touches] : fails.
#[local] Hint Extern 2 (fails _ (ReadFile _)) => eapply touches_fails; [|apply read_touches] : fails.
#[local] Hint Extern 2 (fails _ (chownNamed _ _)) => eapply touches_fails; [|apply chown_touches] : fails.

(** Follows the code. *)
Ltac fails_tac :=
  repeat first
    [ match goal with |- forall _, _ => intro end
    | apply or_else_fails | apply each_fails | apply logged_fails | apply attempt_fails | apply bind_fails
    | solve [eauto with fails]
    | match goal with |- fails _ (match ?x with _ => _ end) => destruct x end ].

(** The errors that come once the zones were checked. *)
Definition late (e : dns_err) : Prop := e ∈ [IOErr; ErrForeignConfig; ErrInvalidConfig].
Lemma late_io : late IOErr.
Proof. apply list_elem_of_here. Qed.
Lemma late_foreign : late ErrForeignConfig.
Proof. apply list_elem_of_further, list_elem_of_here. Qed.
Lemma late_conf : late ErrInvalidConfig.
Proof. do 2 apply list_elem_of_further. apply list_elem_of_here. Qed.
#[local] Hint Resolve late_io late_foreign late_conf : fails.

Section errors.
Context (p : Paths) (t : Tools).

Lemma rollback_fails F names : fails F (rollbackZones p names).
Proof. unfold rollbackZones. fails_tac. Qed.
Lemma restore_fails F path backup : fails F (restoreFile path backup).
Proof. unfold restoreFile. fails_tac. Qed.
#[local] Hint Resolve rollback_fails restore_fails : fails.

Lemma install_fails todo : forall written, fails late (install p t todo written).
Proof.
  induction todo as [|[n c] todo IH]; intros written; cbn [install]; [apply ret_fails|].
  unfold fileHas, installZone. fails_tac; apply IH.
Qed.
Lemma backup_fails path : fails late (backupFile t path).
Proof. unfold backupFile. fails_tac. Qed.
Lemma ensure_fails settings : fails late (ensureMainConf p t settings).
Proof.
  unfold ensureMainConf. fails_tac; try apply backup_fails. intros h. apply ends_fail, late_foreign.
Qed.
Lemma validate_fails : fails late (Validate t).
Proof. intros h. apply ends_io. intros h0 _. cbn. destruct (checkconf t (files h0)); auto with fails. Qed.

Lemma commit_fails settings rendered include : fails late (commit p t settings rendered include).
Proof.
  unfold commit. apply bind_fails; [apply install_fails|]. intros written.
  apply bind_fails; [apply or_else_fails; [apply backup_fails|apply rollback_fails]|]. intros backup.
  apply bind_fails; [fails_tac|]. intros _. apply bind_fails; [fails_tac|]. intros _.
  apply bind_fails; [apply or_else_fails; [apply ensure_fails|fails_tac]|]. intros [[m created] added].
  apply bind_fails; [|intros; apply ret_fails]. apply or_else_fails; [apply validate_fails|]. fails_tac.
Qed.

(** Past the commit nothing fails: what goes wrong is a warning. *)
Lemma run_rndc_fails F args : fails F (run_rndc t args).
Proof. unfold run_rndc. fails_tac. Qed.
Lemma reload_fails F changed : fails F (reload t changed).
Proof.
  unfold reload. assert (Hz : forall zones, fails F (reload_zones t zones)).
  { induction zones as [|z zones IH]; cbn [reload_zones]; [apply ret_fails|].
    apply bind_fails; [apply run_rndc_fails|]. intros ok. by destruct (negb ok); [apply ret_fails|]. }
  repeat first [ match goal with |- forall _, _ => intro end | apply Hz | apply run_rndc_fails | apply bind_fails | solve [eauto with fails]
               | match goal with |- fails _ (match ?x with _ => _ end) => destruct x end ].
Qed.
Lemma verify_fails F changed : fails F (verifyLoaded t changed).
Proof.
  induction changed as [|z changed IH]; cbn [verifyLoaded]; [apply ret_fails|]. destruct (negb _); [apply ret_fails|].
  apply bind_fails; [apply attempt_fails|]. intros r. apply bind_fails; [apply IH|]. intros rest. apply ret_fails.
Qed.
Lemma clear_fails F rendered zones previous : fails F (clear_zones p rendered zones previous).
Proof.
  induction previous as [|n previous IH]; cbn [clear_zones]; [apply ret_fails|]. destruct (_ || _); [apply IH|].
  apply bind_fails; [apply attempt_fails|]. intros r. apply bind_fails; [apply IH|]. intros [x y]. apply ret_fails.
Qed.
End errors.

(** C20: A zone the writer or the server's own checker refuses, or one that asks for signing
    this server cannot do, leaves every file of the host as it was, but for the copy that was
    checked: nothing is installed before every zone was accepted, whatever faults the host
    has. *)
Theorem refused_zone_installs_nothing p t d h e h' :
  dirs_ok p -> Reconcile p t d h = (Err e, h') -> ~ late e ->
  forall path, ~ is_candidate p path -> files h' !! path = files h !! path.
Proof.
  intros Hd Hr He. assert (Hends : ends (Reconcile p t d) (fun r h' =>
    match r with Ok _ => True | Err e => late e \/ alike (is_candidate p) h h' end) h).
  { unfold Reconcile. apply ends_bind. eapply ends_weaken; [by apply prepare_ends|].
    intros [[[rendered previous] include]|e'] h1 [H1 _]; [|by right].
    assert (Hrest : forall A (m : M A) Q, fails late m -> (forall r h', Q r h' <-> match r with Ok _ => True | Err e => late e \/ alike (is_candidate p) h h' end) -> ends m Q h1).
    { intros A m Q Hm HQ. eapply ends_weaken; [apply Hm|]. intros r h2 Hf. apply HQ. destruct r; auto. }
    apply Hrest; [|done]. apply bind_fails; [apply commit_fails|]. intros [[w created] added].
    apply bind_fails; [apply reload_fails|]. intros [reloaded warning].
    apply bind_fails; [destruct reloaded; [apply verify_fails|apply ret_fails]|]. intros unserved.
    apply bind_fails; [apply clear_fails|]. intros [removed undeleted]. apply ret_fails. }
  unfold ends in Hends. rewrite Hr in Hends. cbn in Hends. destruct Hends as [|[Ha _]]; [done|]. exact Ha.
Qed.

Lemma rendered_names zones n c : renderings zones ∅ !! n = Some c -> zone_ok n.
Proof.
  intros H. apply renderings_from in H as [H|(z & _ & _ & <- & Hr)]; [by rewrite lookup_empty in H|].
  by eapply RenderZone_name.
Qed.

(** On a host whose [named.conf] needs no change (it has been configured once), a
    reconcile whose configuration the server's checker refuses is not undone: [named.conf] is
    deleted, and so is the file of every zone the change would have rewritten, while the file
    of zone statements that names them is put back. *)
Theorem refused_configuration_breaks_the_host p t d h conf h' :
  dirs_ok p -> (forall l, shuffle t l ≡ₚ l) -> NoDup (Name <$> d_Zones d) -> calm h ->
  files h !! MainConf p = Some conf -> settled p (d_Settings d) conf ->
  is_ok (RenderInclude p (d_Settings d) (d_Zones d)) = true ->
  Reconcile p t d h = (Err ErrInvalidConfig, h') ->
  files h' !! MainConf p = None /\ files h' !! Include p = files h !! Include p /\
  forall z c, z ∈ d_Zones d -> primary z -> RenderZone z = Ok c ->
    files h' !! ZoneFile p (Name z) = if decide (files h !! ZoneFile p (Name z) = Some c) then Some c else None.
Proof.
  intros Hd Hsh Hnd Hc Hconf Hset Hi Hr.
  assert (Hends : ends (Reconcile p t d) (fun r h' => r = Err ErrInvalidConfig ->
    exists h1, alike (is_candidate p) h h1 /\ broken p (renderings (d_Zones d) ∅) h1 h') h).
  { unfold Reconcile. apply ends_bind. eapply ends_weaken; [by apply prepare_ends|].
    intros [[[rendered previous] include]|e] h1 [H1 Hp].
    2: { intros [= ->]. rewrite Hp in Hi by done. done. }
    destruct Hp as (-> & _). apply ends_bind.
    eapply ends_weaken; [eapply (commit_refused p t Hd _ _ _ conf)|]; try done.
    - intros n c. apply rendered_names.
    - by apply H1.
    - rewrite <- Hconf. apply H1. intros (n & Hn & He). by destruct (MainConf_other p Hd n Hn).
    - intros [[[w created] added]|e] h2 H2; [|intros [= ->]; exists h1; split; [done|by apply (H2 ErrInvalidConfig)]].
      eapply ends_weaken; [|intros r h3 H3; exact H3].
      assert (Hrest : forall A (m : M A), fails (fun _ => False) m -> ends m (fun r _ => r = Err ErrInvalidConfig -> False) h2).
      { intros A m Hm. eapply ends_weaken; [apply Hm|]. by intros [a|e] h3 H3 [= ->]. }
      eapply ends_weaken; [apply Hrest|by intros r h3 Hf Hx; destruct (Hf Hx)].
      apply bind_fails; [apply reload_fails|]. intros [reloaded warning].
      apply bind_fails; [destruct reloaded; [apply verify_fails|apply ret_fails]|]. intros unserved.
      apply bind_fails; [apply clear_fails|]. intros [removed undeleted]. apply ret_fails. }
  unfold ends in Hends. rewrite Hr in Hends. destruct (Hends eq_refl) as (h1 & H1 & Hm & Hinc & Hz).
  assert (Hsame : forall path, other_than_zones p path -> files h1 !! path = files h !! path).
  { intros path Ho. apply H1. intros (n & Hn & He). by destruct (Ho n Hn). }
  cbn [snd] in *. split_and!; [done|by rewrite Hinc; apply Hsame, Include_other|].
  intros z c Hzin Hpr Hrz. rewrite (Hz (Name z) c) by (by apply renderings_of).
  replace (files h1 !! ZoneFile p (Name z)) with (files h !! ZoneFile p (Name z)); [done|].
  symmetry. apply H1. intros (n & Hn & He). apply RenderZone_name in Hrz.
  by apply (ZoneFile_candidate p n (Name z)).
Qed.

(** ** A configuration that is accepted *)
Definition gives {A} (m : M A) (Q : A -> Host -> Prop) (h : Host) : Prop :=
  ends m (fun r h' => match r with Ok a => Q a h' | Err _ => True end) h.

Lemma ret_gives {A} (a : A) (Q : A -> Host -> Prop) h : Q a h -> gives (ret a) Q h.
Proof. done. Qed.
Lemma bind_gives {A B} (m : M A) (k : A -> M B) Q h :
  gives m (fun a h' => gives (k a) Q h') h -> gives (bind m k) Q h.
Proof. unfold gives. intros Hm. apply ends_bind. eapply ends_weaken; [exact Hm|]. by intros [a|e]. Qed.
Lemma or_else_gives {A} (m : M A) c Q h : gives m Q h -> gives (or_else m c) Q h.
Proof.
  unfold gives. intros Hm. apply ends_or_else. eapply ends_weaken; [exact Hm|]. intros [a|e] h' H; [done|].
  unfold ends. by destruct (c h') as [[]].
Qed.
Lemma gives_weaken {A} (m : M A) (Q Q' : A -> Host -> Prop) h :
  gives m Q h -> (forall a h', Q a h' -> Q' a h') -> gives m Q' h.
Proof. unfold gives. intros Hm HQ. eapply ends_weaken; [exact Hm|]. intros [a|e]; auto. Qed.
Lemma touches_gives {A} a (m : M A) (Q : A -> Host -> Prop) h :
  touches a m -> (forall x h', alike a h h' -> Q x h') -> gives m Q h.
Proof. intros Hm HQ. eapply ends_weaken; [apply Hm|]. intros [x|e] h' [Ha _]; auto. Qed.
Lemma write_gives path c (Q : unit -> Host -> Prop) h :
  (forall h', files h' = <[path := c]> (files h) -> Q tt h') -> gives (writeFile path c) Q h.
Proof. intros HQ. apply ends_write. intros h0 Hr. split; [|done]. by apply HQ. Qed.
Lemma read_gives path (Q : option string -> Host -> Prop) h :
  (forall h', files h' = files h -> Q (files h !! path) h') -> gives (ReadFile path) Q h.
Proof. intros HQ. apply ends_read. intros h0 Hr. split; [|done]. apply HQ, Hr. Qed.
Lemma same_gives {A} (m : M A) (Q : A -> Host -> Prop) h :
  touches (fun _ => False) m -> (forall x h', files h' = files h -> Q x h') -> gives m Q h.
Proof.
  intros Hm HQ. eapply touches_gives; [exact Hm|]. intros x h' [Hf _]. apply HQ. apply map_eq. intros q.
  apply Hf. by intros [].
Qed.
Lemma chown_gives t path (Q : unit -> Host -> Prop) h :
  (forall h', files h' = files h -> Q tt h') -> gives (logged (chownNamed t path)) Q h.
Proof. intros HQ. apply same_gives; [apply logged_touches, chown_touches|]. intros []. apply HQ. Qed.

Lemma read_attempt_gives path (Q : result dns_err (option string) -> Host -> Prop) h :
  (forall h', files h' = files h -> Q (Ok (files h !! path)) h' /\ Q (Err IOErr) h') -> gives (attempt (ReadFile path)) Q h.
Proof. intros HQ. apply ends_attempt, ends_read. intros h0 (Hf & _). by destruct (HQ h0 Hf). Qed.

Section accepted.
Context (p : Paths) (t : Tools) (Hdirs : dirs_ok p) (Hsafe : safe (Include p)).

Definition bak (path : string) : string := path ++ ".bak." ++ backup_stamp (now t).

Lemma backup_gives path (Q : string -> Host -> Prop) h :
  (forall b h', (forall q, q <> bak path -> files h' !! q = files h !! q) -> Q b h') -> gives (backupFile t path) Q h.
Proof.
  intros HQ. unfold backupFile. apply bind_gives, read_gives. intros h1 H1.
  destruct (files h !! path) as [c|]; [|apply ret_gives, HQ; intros q _; by rewrite H1].
  apply bind_gives, write_gives. intros h2 H2. apply ret_gives, HQ. intros q Hq.
  rewrite H2, H1. by rewrite lookup_insert_ne.
Qed.

(** Whatever [named.conf] was, it lets the panel's zones in afterwards. *)
Lemma ensure_gives settings (Q : string * bool * bool -> Host -> Prop) h :
  (forall x h' c, (forall q, q <> bak (MainConf p) -> q <> MainConf p -> files h' !! q = files h !! q) ->
    files h' !! MainConf p = Some c -> HasInclude c p = true -> Q x h') -> gives (ensureMainConf p t settings) Q h.
Proof.
  intros HQ. unfold ensureMainConf. pose proof (RenderMainConf_includes p settings Hsafe) as Hrc.
  destruct (conf_apart p (now t) Hdirs) as [_ Hb]. destruct (Hb (MainConf p) (or_introl eq_refl)) as [Hbm _].
  assert (Hput : forall c b h1, HasInclude c p = true ->
    (forall q, q <> bak (MainConf p) -> files h1 !! q = files h !! q) ->
    gives (writeFile (MainConf p) c ;! logged (chownNamed t (MainConf p)) ;! ret b) Q h1).
  { intros c b h1 Hc H1. apply bind_gives, write_gives. intros h2 H2. apply bind_gives, chown_gives. intros h3 H3.
    apply ret_gives, (HQ b h3 c); [|by rewrite H3, H2, lookup_insert_eq|done]. intros q Hq1 Hq2.
    rewrite H3, H2, lookup_insert_ne by done. by apply H1. }
  apply bind_gives, read_attempt_gives. intros h1 H1. split; [|done].
  assert (Hsame : forall q, q <> bak (MainConf p) -> files h1 !! q = files h !! q) by (intros q _; by rewrite H1).
  destruct (files h !! MainConf p) as [cur|] eqn:Ecur; [|by apply Hput].
  destruct (str_contains confMarker cur).
  - destruct (String.eqb_spec cur (RenderMainConf p settings)) as [->|Hne].
    + apply ret_gives, (HQ _ h1 (RenderMainConf p settings)); [|by rewrite H1|done]. intros q Hq _. by apply Hsame.
    + apply bind_gives, backup_gives. intros b h2 H2. apply Hput; [done|]. intros q Hq. by rewrite H2, H1.
  - destruct (HasInclude cur p) eqn:Ehas.
    + apply ret_gives, (HQ _ h1 cur); [|by rewrite H1|done]. intros q Hq _. by apply Hsame.
    + apply bind_gives, backup_gives. intros b h2 H2.
      apply Hput; [by apply AddInclude_includes|]. intros q Hq. by rewrite H2, H1.
Qed.

Lemma commit_gives settings rendered include (Q : list string * bool * bool -> Host -> Prop) h :
  (forall l, shuffle t l ≡ₚ l) -> (forall n c, rendered !! n = Some c -> zone_ok n) ->
  (forall x h' c, files h' !! Include p = Some include -> files h' !! MainConf p = Some c -> HasInclude c p = true ->
    (forall n c', rendered !! n = Some c' -> files h' !! ZoneFile p n = Some c') ->
    checkconf t (files h') = true -> Q x h') ->
  gives (commit p t settings rendered include) Q h.
Proof.
  intros Hsh Hz HQ. unfold commit.
  assert (Hp : forall x, x ∈ shuffle t (map_to_list rendered) <-> x ∈ map_to_list rendered) by (intros x; by rewrite Hsh).
  destruct (conf_apart p (now t) Hdirs) as [Happ Hb].
  destruct (Hb (Include p) (or_intror eq_refl)) as [_ Hbi]. destruct (Hb (MainConf p) (or_introl eq_refl)) as [_ Hbmi].
  assert (Hzf : forall n c q, rendered !! n = Some c -> other_than_zones p q -> ZoneFile p n <> q).
  { intros n c q Hn Ho He. destruct (Ho n (Hz n c Hn)) as [Ho' _]. apply Ho'. rewrite <- He. apply list_elem_of_here. }
  apply bind_gives. eapply ends_weaken; [apply install_ends; [done|..]|].
  { rewrite list.Forall_forall. intros [n c] Hin%Hp. apply elem_of_map_to_list in Hin. by apply (Hz n c). }
  { rewrite Hsh. apply NoDup_fst_map_to_list. }
  { constructor. }
  intros [w|e] h1 Hr; [|done]. destruct Hr as (new & -> & _ & _ & _ & Hall).
  assert (Hz1 : forall n c, rendered !! n = Some c -> files h1 !! ZoneFile p n = Some c).
  { intros n c Hn. apply Hall. by apply Hp, elem_of_map_to_list. }
  apply bind_gives, or_else_gives, backup_gives. intros b h2 H2.
  apply bind_gives, or_else_gives, write_gives. intros h3 H3. apply bind_gives, chown_gives. intros h4 H4.
  apply bind_gives, or_else_gives, ensure_gives. intros [[mb created] added] h5 c H5 Hc5 Hinc5.
  apply bind_gives, or_else_gives, ends_io. intros h6 (H6 & _). cbn [fst snd]. split; [|done].
  destruct (checkconf t (files h6)) eqn:Ecc; [|done]. apply ret_gives, (HQ _ h6 c); [..|done].
  - rewrite H6, H5 by (intros He; by (apply Hbmi || apply Happ)). by rewrite H4, H3, lookup_insert_eq.
  - by rewrite H6.
  - done.
  - intros n c' Hn.
    assert (Hmain : ZoneFile p n <> MainConf p) by by apply (Hzf n c'), MainConf_other.
    assert (Hincl : ZoneFile p n <> Include p) by by apply (Hzf n c'), Include_other.
    assert (Hbak : forall path, ZoneFile p n <> bak path) by (intros path; by apply (Hzf n c'), backup_other).
    rewrite H6, H5 by done. rewrite H4, H3, lookup_insert_ne by congruence. rewrite H2 by done. by apply Hz1.
Qed.
End accepted.

(** ** Past the commit *)
Section tail.
Context (p : Paths) (t : Tools) (Hdirs : dirs_ok p).

Lemma run_rndc_touches args : touches (fun _ => False) (run_rndc t args).
Proof. apply bind_touches; [apply attempt_touches, nothing_touches|]. intros r. apply ret_touches. Qed.
Lemma start_fine (Q : result dns_err unit -> Host -> Prop) h :
  (forall r h', files h' = files h -> Q r h') -> ends (Start t) Q h.
Proof.
  intros HQ. apply ends_io. intros h0 (Hf & _). split; [|intros _; by apply HQ].
  by destruct (starts t); apply HQ.
Qed.
Lemma reload_gives changed (Q : bool * option warning -> Host -> Prop) h :
  (forall x h', files h' = files h -> Q x h') -> gives (reload t changed) Q h.
Proof.
  intros HQ. unfold reload.
  assert (Hz : forall zones, touches (fun _ => False) (reload_zones t zones)).
  { induction zones as [|z zones IH]; cbn [reload_zones]; [apply ret_touches|].
    apply bind_touches; [apply run_rndc_touches|]. intros ok. by destruct (negb ok); [apply ret_touches|]. }
  destruct (negb (has_service t)); [by apply ret_gives, HQ|]. apply bind_gives, ends_get.
  destruct (negb (running h)).
  - apply bind_gives, ends_attempt, start_fine. intros [[]|e] h1 H1; [|by apply ret_gives, HQ].
    by apply bind_gives, ends_get, ret_gives, HQ.
  - destruct (negb (installed t CommandRndc)).
    + apply bind_gives, ends_attempt, start_fine. intros r h1 H1. by apply ret_gives, HQ.
    + apply bind_gives, same_gives; [apply run_rndc_touches|]. intros ok h1 H1.
      destruct (negb ok); [by apply ret_gives, HQ|]. apply same_gives; [apply Hz|]. intros x h2 H2. apply HQ. by rewrite H2.
Qed.
Lemma verify_touches changed : touches (fun _ => False) (verifyLoaded t changed).
Proof.
  induction changed as [|z changed IH]; cbn [verifyLoaded]; [apply ret_touches|]. destruct (negb _); [apply ret_touches|].
  apply bind_touches; [apply attempt_touches, nothing_touches|]. intros r.
  apply bind_touches; [apply IH|]. intros rest. apply ret_touches.
Qed.

Lemma clear_gives rendered zones previous (Q : list string * list warning -> Host -> Prop) : forall h,
  Forall zone_ok previous -> NoDup previous ->
  (forall removed warnings h', removed ⊆ previous -> (forall n, n ∈ removed -> rendered !! n = None /\ hasZone zones n = false) ->
    alike (area p (filter (fun n => rendered !! n = None /\ hasZone zones n = false) previous)) h h' ->
    (forall n, n ∈ removed -> files h' !! ZoneFile p n = None) -> Q (removed, warnings) h') ->
  gives (clear_zones p rendered zones previous) Q h.
Proof.
  revert Q. induction previous as [|n previous IH]; intros Q h Hok Hd HQ; cbn [clear_zones].
  { apply ret_gives, HQ; try done; intros n Hn; by apply not_elem_of_nil in Hn. }
  inversion_clear Hok as [|? ? Hn Hoks]. apply list.NoDup_cons in Hd as [Hnin Hd]. destruct (_ || _) eqn:E.
  - apply IH; [done|done|]. intros removed warnings h' Hs Hr Ha Hg. apply HQ; try done; [set_solver|].
    rewrite filter_cons_False; [done|]. intros [H1 H2]. rewrite H1, H2 in E. done.
  - apply orb_false_iff in E as [E1 E2]. apply bool_decide_eq_false_1, eq_None_not_Some in E1.
    rewrite filter_cons_True in HQ by done. set (rest := filter _ previous) in *.
    assert (Hmono : forall q, area p rest q -> area p (n :: rest) q).
    { intros q. apply area_mono. intros x Hx. by apply list_elem_of_further. }
    assert (Hone : forall q, area p [n] q -> area p (n :: rest) q).
    { intros q. apply area_mono. intros x Hx. apply list_elem_of_singleton in Hx as ->. apply list_elem_of_here. }
    apply bind_gives, ends_attempt. eapply ends_weaken; [by apply removeZoneFiles_ends|].
    intros r h1 [H1 H2]. apply bind_gives, IH; [done|done|]. intros removed warnings h2 Hs Hr Ha Hg.
    assert (Hall : alike (area p (n :: rest)) h h2).
    { eapply alike_trans; eapply alike_weaken; [apply Hone|exact H1|apply Hmono|exact Ha]. }
    apply ret_gives. destruct r as [[]|e].
    + apply HQ; [set_solver|..|done|].
      * intros m Hm. apply elem_of_cons in Hm as [->|Hm]; [done|auto].
      * intros m Hm. destruct (decide (m ∈ removed)) as [Hin|Hin]; [auto|].
        apply elem_of_cons in Hm as [->|Hm]; [|done].
        rewrite (alike_zone p Hdirs rest h1 h2 n); [exact H2|done|done|]. unfold rest. rewrite list_elem_of_filter. tauto.
    + apply HQ; [set_solver|done..].
Qed.
End tail.

Lemma accepted_in_place p t d h r h' :
  dirs_ok p -> safe (Include p) -> (forall l, shuffle t l ≡ₚ l) -> NoDup (Name <$> d_Zones d) ->
  Forall zone_ok (zones_in (default "" (files h !! Include p))) ->
  NoDup (zones_in (default "" (files h !! Include p))) ->
  Reconcile p t d h = (Ok r, h') ->
  (forall z, z ∈ d_Zones d -> primary z -> exists c, RenderZone z = Ok c /\ checkzone t (Name z) c = true /\
     files h' !! ZoneFile p (Name z) = Some c) /\
  (exists include, RenderInclude p (d_Settings d) (d_Zones d) = Ok include /\ files h' !! Include p = Some include) /\
  (exists conf, files h' !! MainConf p = Some conf /\ HasInclude conf p = true) /\
  (exists checked, checkconf t checked = true /\ checked !! MainConf p = files h' !! MainConf p /\
     checked !! Include p = files h' !! Include p) /\
  (forall n, n ∈ Removed r -> files h' !! ZoneFile p n = None).
Proof.
  intros Hd Hs Hsh Hnd Hold Holdn Hr.
  match goal with |- ?G => assert (Hends : gives (Reconcile p t d) (fun r' h2 => r' = r -> h2 = h' -> G) h) end.
  2: { unfold gives, ends in Hends. rewrite Hr in Hends. by apply Hends. }
  unfold Reconcile. apply bind_gives. eapply ends_weaken; [by apply prepare_ends|].
  intros [[[rendered previous] include]|e] h1 [H1 Hp]; [|done]. destruct Hp as (-> & Hinc & Hz & Hprev).
  assert (Hpok : Forall zone_ok previous /\ NoDup previous) by (by destruct Hprev as [-> | ->]; split; try constructor).
  apply bind_gives, commit_gives; [done..|intros n c; apply rendered_names|].
  intros [[w created] added] h2 conf Hi2 Hm2 Hc2 Hf2 Hcc. apply bind_gives, reload_gives. intros [reloaded warning] h3 H3.
  assert (Hv : touches (fun _ => False) (if reloaded then verifyLoaded t (sorted_names w) else ret [])).
  { destruct reloaded; [apply verify_touches|apply ret_touches]. }
  apply bind_gives, same_gives; [exact Hv|]. intros unserved h4 H4.
  apply bind_gives, clear_gives; [done|by destruct Hpok..|].
  intros removed warnings h5 Hsub Hrem Ha Hgone. apply ret_gives. intros <- <-. cbn [Removed].
  assert (Hother : forall q, other_than_zones p q -> files h5 !! q = files h2 !! q).
  { intros q Hq. rewrite <- H3, <- H4. apply Ha. by apply other_area. }
  split_and!.
  - intros z Hzin Hpr. destruct (Hz z Hzin Hpr) as (c & Hrc & Hck). exists c. split_and!; [done|done|].
    pose proof (renderings_of (d_Zones d) ∅ z c Hnd Hzin Hpr Hrc) as Hrn.
    rewrite <- (Hf2 (Name z) c Hrn), <- H3, <- H4. apply (alike_zone p Hd _ _ _ _ Ha); [by eapply RenderZone_name|].
    rewrite list_elem_of_filter. intros [[Hno _] _]. congruence.
  - exists include. split; [done|]. rewrite Hother; [done|]. by apply Include_other.
  - exists conf. split; [|done]. rewrite Hother; [done|]. by apply MainConf_other.
  - exists (files h2). split_and!; [done|..]; symmetry; apply Hother; [by apply MainConf_other|by apply Include_other].
  - intros n Hn. apply Hgone. unfold sorted_names in Hn. by rewrite slice_stable_perm in Hn.
Qed.

(** A reconcile that answers has put in place what it was asked for, whatever faults it
    met: the file of every zone this host is the primary of holds that zone, which the
    server's checker accepted; the file of zone statements holds every zone; [named.conf] is
    there and lets it in; the server's checker accepted the files; and of a zone it says it
    removed there is no file. *)
Theorem accepted_configuration_is_in_place p t d h r h' :
  dirs_ok p -> safe (Include p) -> (forall l, shuffle t l ≡ₚ l) -> NoDup (Name <$> d_Zones d) ->
  Forall zone_ok (zones_in (default "" (files h !! Include p))) ->
  NoDup (zones_in (default "" (files h !! Include p))) ->
  Reconcile p t d h = (Ok r, h') ->
  (forall z, z ∈ d_Zones d -> primary z -> exists c, RenderZone z = Ok c /\ checkzone t (Name z) c = true /\
     files h' !! ZoneFile p (Name z) = Some c) /\
  (exists include, RenderInclude p (d_Settings d) (d_Zones d) = Ok include /\ files h' !! Include p = Some include) /\
  (exists conf, files h' !! MainConf p = Some conf /\ HasInclude conf p = true) /\
  (exists checked, checkconf t checked = true /\ checked !! MainConf p = files h' !! MainConf p /\
     checked !! Include p = files h' !! Include p) /\
  (forall n, n ∈ Removed r -> files h' !! ZoneFile p n = None).
Proof. apply accepted_in_place. Qed.

(** ** On concrete hosts *)
Module Operator.
Import NamedHost.Nameserver.

Lemma paths_ok : dirs_ok paths.
Proof.
  exists ["etc"; "bind"]%string, ["var"; "bind"; "jothost"]%string. split_and!; try done;
    repeat constructor; done.
Qed.

Lemma refused_zone_installs_nothing_witness :
  fst (Reconcile paths (tools "") (want "192.0.2.66") served) = Err ErrInvalidZone /\
  files (snd (Reconcile paths (tools "") (want "192.0.2.66") served)) !! "/var/bind/jothost/shop.example.zone"%string
    = files served !! "/var/bind/jothost/shop.example.zone"%string.
Proof.
  assert (H : fst (Reconcile paths (tools "") (want "192.0.2.66") served) = Err ErrInvalidZone) by (vm_compute; reflexivity).
  split; [exact H|].
  apply (refused_zone_installs_nothing paths (tools "") (want "192.0.2.66") served ErrInvalidZone
           (snd (Reconcile paths (tools "") (want "192.0.2.66") served)) paths_ok).
  - rewrite <- H. apply surjective_pairing.
  - unfold late. intros Hl. repeat (apply elem_of_cons in Hl as [[=]|Hl]). by apply not_elem_of_nil in Hl.
  - intros (name & Hn & He). apply (ZoneFile_candidate paths name "shop.example" paths_ok Hn); [by vm_compute|].
    rewrite <- He. by vm_compute.
Defined.

Lemma refused_configuration_breaks_the_host_witness :
  fst (Reconcile paths (tools "master") (want "192.0.2.8") served) = Err ErrInvalidConfig /\
  files refused !! MainConf paths = None.
Proof.
  assert (H : fst (Reconcile paths (tools "master") (want "192.0.2.8") served) = Err ErrInvalidConfig /\
    files served !! MainConf paths = Some foreign /\ str_contains confMarker foreign = false /\
    HasInclude foreign paths = true /\ calm served /\
    is_ok (RenderInclude paths (d_Settings (want "192.0.2.8")) (d_Zones (want "192.0.2.8"))) = true)
    by (split_and!; vm_compute; reflexivity).
  destruct H as (H & Hf & Hm & Hi & Hc & Hr). split; [exact H|].
  refine (proj1 (refused_configuration_breaks_the_host paths (tools "master") (want "192.0.2.8") served foreign refused
    paths_ok (fun l => reflexivity l) _ Hc Hf _ Hr _)).
  - apply (bool_decide_unpack _). vm_compute. exact I.
  - unfold settled. rewrite Hm. exact Hi.
  - unfold refused. rewrite <- H. exact (surjective_pairing _).
Defined.

Lemma accepted_configuration_is_in_place_witness :
  is_ok (fst (Reconcile paths (tools "") (want "192.0.2.7") before)) = true /\
  exists include, files served !! Include paths = Some include.
Proof.
  destruct (Reconcile paths (tools "") (want "192.0.2.7") before) as [r h'] eqn:E.
  assert (Hok : is_ok r = true) by (change r with (fst (r, h')); rewrite <- E; vm_compute; reflexivity).
  split; [exact Hok|]. destruct r as [r|e]; [|done].
  destruct (accepted_configuration_is_in_place paths (tools "") (want "192.0.2.7") before r h' paths_ok)
    as (_ & (include & _ & Hf) & _); [by vm_compute|by intros l|apply (bool_decide_unpack _); vm_compute; exact I|..].
  - vm_compute. constructor.
  - vm_compute. constructor.
  - exact E.
  - exists include. unfold served. rewrite E. exact Hf.
Defined.
End Operator.
