(* ===== verification/NamedStatus.v ===== *)
(** * Reading what BIND's programs say ([agent/internal/dns/status.go], [dnssec.go])

    The states of a zone and of its keys, the settings of a foreign [named.conf] and the
    warnings about them, read from the programs' output, and the protocol codes of errors. *)

From S2P Require Import Prelude Store GoStr TenancyRules DnsRules ZoneFile NamedConf NamedHost.

#[local] Open Scope string_scope.

(** ** One zone *)
Record ZoneState := {
  st_Zone : string; st_Type : string; st_Serial : Z; SignedSerial : Z; Secure : bool;
  LastLoaded : string; LastTransfer : string; Loaded : bool; st_Reason : string }.

Definition state0 (zone : string) : ZoneState := {|
  st_Zone := zone; st_Type := ""; st_Serial := 0; SignedSerial := 0; Secure := false;
  LastLoaded := ""; LastTransfer := ""; Loaded := false; st_Reason := "" |}.

(** The first field of the text; [None] is the panic of an index out of range. *)
Definition parseSerial (value : string) : option Z :=
  match fields (value ++ " ") with
  | [] => None
  | x :: _ => Some (default 0%Z (atoi x))
  end.

(** The [switch] on a line's key. *)
Definition state_line (s : ZoneState) (key value : string) : option ZoneState :=
  let set type serial signed secure loaded transfer := {|
    st_Zone := st_Zone s; st_Type := type; st_Serial := serial; SignedSerial := signed; Secure := secure;
    LastLoaded := loaded; LastTransfer := transfer; Loaded := Loaded s; st_Reason := st_Reason s |} in
  let keep serial signed := set (st_Type s) serial signed (Secure s) (LastLoaded s) (LastTransfer s) in
  if key =? "type" then Some (set value (st_Serial s) (SignedSerial s) (Secure s) (LastLoaded s) (LastTransfer s))
  else if key =? "serial" then (fun n => keep n (SignedSerial s)) <$> parseSerial value
  else if key =? "signed serial" then (fun n => keep (st_Serial s) n) <$> parseSerial value
  else if key =? "secure" then
    Some (set (st_Type s) (st_Serial s) (SignedSerial s) (value =? "yes") (LastLoaded s) (LastTransfer s))
  else if key =? "last loaded" then
    Some (set (st_Type s) (st_Serial s) (SignedSerial s) (Secure s) value (LastTransfer s))
  else if one_of ["xfer status"; "transfer status"] key then
    Some (set (st_Type s) (st_Serial s) (SignedSerial s) (Secure s) (LastLoaded s) value)
  else Some s.

Fixpoint state_lines (s : ZoneState) (lines : list string) : option ZoneState :=
  match lines with
  | [] => Some s
  | raw :: more =>
      let '(key, value, found) := cut ":" (trim_space raw) in
      if negb found then state_lines s more
      else s' ← state_line s key (trim_space value); state_lines s' more
  end.

(** What a run of a program answers. *)
Record Ran := { Succeeded : bool; Stdout : string; Stderr : string }.

(** [Provider.ZoneStatus]; [None] for [rndc] is a host without it, [None] for the answer the
    panic of [parseSerial]. *)
Definition ZoneStatus (zone : string) (rndc : option Ran) : option ZoneState :=
  match rndc with
  | None => Some {|
      st_Zone := zone; st_Type := ""; st_Serial := 0; SignedSerial := 0; Secure := false; LastLoaded := "";
      LastTransfer := ""; Loaded := false;
      st_Reason := "this host has no rndc, so the running server cannot be asked" |}
  | Some r =>
      if negb (Succeeded r) then Some {|
        st_Zone := zone; st_Type := ""; st_Serial := 0; SignedSerial := 0; Secure := false; LastLoaded := "";
        LastTransfer := ""; Loaded := false; st_Reason := firstLine [Stderr r; Stdout r] |}
      else
        state_lines {|
          st_Zone := zone; st_Type := ""; st_Serial := 0; SignedSerial := 0; Secure := false; LastLoaded := "";
          LastTransfer := ""; Loaded := true; st_Reason := "" |} (split LF (Stdout r))
  end.

(** ** A [named.conf] of somebody else's *)
Fixpoint option_lines (recursion inListen : bool) (listen lines : list string) : bool * list string :=
  match lines with
  | [] => (recursion, listen)
  | raw :: more =>
      let line := trim_space raw in
      if has_prefix "recursion " line then
        option_lines (has_prefix "yes" (trim_prefix "recursion " line)) inListen listen more
      else if has_prefix "listen-on" line then option_lines recursion true listen more
      else if inListen && (line =? "};") then option_lines recursion false listen more
      else if inListen then
        let address := trim_set (String dquote "") (trim_suffix ";" line) in
        option_lines recursion inListen
          (if negb (address =? "") && negb (address =? "{") then listen ++ [address] else listen)%list more
      else option_lines recursion inListen listen more
  end.

Definition globalOptions (checkconf : option Ran) : bool * list string :=
  match checkconf with
  | Some r => if Succeeded r then option_lines false false [] (split LF (Stdout r)) else (false, [])
  | None => (false, [])
  end.

Inductive status_warning := NotIncluded | OpenRecursion | OnlyLoopback.

Definition loopback (address : string) : bool := one_of ["127.0.0.1"; "::1"; "localhost"] address.

Definition warnings (configIncluded recursion : bool) (zones listenOn : list string) : list status_warning :=
  ((if negb configIncluded && negb (is_nil zones) then [NotIncluded] else []) ++
   (if recursion then [OpenRecursion] else []) ++
   (if existsb loopback listenOn then [OnlyLoopback] else []))%list.

(** ** Keys *)
Record Key := {
  k_ID : Z; Algorithm : string; k_Role : string; Published : bool; KeySigning : bool; ZoneSigning : bool;
  RolloverText : string }.
Definition key0 : Key := {|
  k_ID := 0; Algorithm := ""; k_Role := ""; Published := false; KeySigning := false; ZoneSigning := false;
  RolloverText := "" |}.

Definition key_field (key : Key) (field : string) : Key :=
  let trimmed := trim_set "()," field in
  if one_of ["CSK"; "KSK"; "ZSK"] trimmed then {|
    k_ID := k_ID key; Algorithm := Algorithm key; k_Role := trimmed; Published := false; KeySigning := false;
    ZoneSigning := false; RolloverText := "" |}
  else if (Algorithm key =? "") && negb (trimmed =? "") then {|
    k_ID := k_ID key; Algorithm := trimmed; k_Role := k_Role key; Published := false; KeySigning := false;
    ZoneSigning := false; RolloverText := "" |}
  else key.

Definition parseKeyLine (rest : string) : Key :=
  match fields (trim_space rest) with
  | [] => key0
  | id :: more =>
      fold_left key_field more {|
        k_ID := default 0%Z (atoi id); Algorithm := ""; k_Role := ""; Published := false; KeySigning := false;
        ZoneSigning := false; RolloverText := "" |}
  end.

Definition yesNo (line : string) : bool :=
  let '(_, after, found) := cut ":" line in found && has_prefix "yes" (trim_space after).

(** A line about the key read last. *)
Definition key_line (line : string) (k : Key) : Key :=
  let set pub ksk zsk text := {|
    k_ID := k_ID k; Algorithm := Algorithm k; k_Role := k_Role k; Published := pub; KeySigning := ksk;
    ZoneSigning := zsk; RolloverText := text |} in
  if has_prefix "published:" line then set (yesNo line) (KeySigning k) (ZoneSigning k) (RolloverText k)
  else if has_prefix "key signing:" line then set (Published k) (yesNo line) (ZoneSigning k) (RolloverText k)
  else if has_prefix "zone signing:" line then set (Published k) (KeySigning k) (yesNo line) (RolloverText k)
  else if has_prefix "No rollover scheduled" line || has_prefix "Next rollover scheduled" line
  then set (Published k) (KeySigning k) (ZoneSigning k) line
  else k.

(** The loop of [parseSigningStatus]; the keys read so far, last first. *)
Fixpoint signing_lines (policy : string) (keys : list Key) (lines : list string) : string * list Key :=
  match lines with
  | [] => (policy, rev keys)
  | raw :: more =>
      let line := trim_space raw in
      if line =? "" then signing_lines policy keys more
      else match trim_prefix_opt "dnssec-policy:" line with
           | Some rest => signing_lines (trim_space rest) keys more
           | None =>
               match trim_prefix_opt "key:" line with
               | Some rest => signing_lines policy (parseKeyLine rest :: keys) more
               | None =>
                   match keys with
                   | [] => signing_lines policy keys more
                   | k :: ks => signing_lines policy (key_line line k :: ks) more
                   end
               end
           end
  end.
Definition parseSigningStatus (output : string) : string * list Key := signing_lines "" [] (split LF output).

Record DS := { KeyTag : Z; ds_Algorithm : Z; DigestType : Z; Digest : string; ds_Record : string }.

Definition parseDS (line : string) : option DS :=
  match fields line with
  | _ :: _ :: kind :: tag :: algorithm :: digestType :: digest :: more =>
      if negb (kind =? "DS") then None
      else
        n ← atoi tag; a ← atoi algorithm; d ← atoi digestType;
        Some {| KeyTag := n; ds_Algorithm := a; DigestType := d; Digest := join "" (digest :: more); ds_Record := line |}
  | _ => None
  end.

(** The key files of a zone. *)
Definition is_key_file (zone name : string) : bool :=
  has_prefix ("K" ++ zone ++ ".") name && has_suffix ".key" name.

Definition dsRecords (zone : string) (fromkey : option (string -> option Ran)) (entries : option (list (string * bool)))
  : list DS :=
  match fromkey, entries with
  | Some run, Some entries =>
      omap (fun e : string * bool =>
              let '(name, dir) := e in
              if dir || negb (is_key_file zone name) then None
              else r ← run name; if Succeeded r then parseDS (firstLine [Stdout r]) else None) entries
  | _, _ => []
  end.

(** ** Protocol codes ([dnsError] of [agent/internal/operations/dns.go]) *)
Inductive code := CodeUnsupported | CodeInvalidRequest | CodeInvalidPayload | CodeInternal.

Definition dnsError (e : dns_err) : code :=
  match e with
  | ErrUnavailable | ErrNoDNSSEC => CodeUnsupported
  | ErrInvalidConfig | NamedHost.ErrInvalidZone | ErrForeignConfig => CodeInvalidRequest
  | RuleErr (DnsRules.ErrInvalidZone | ErrInvalidRecordValue | ErrInvalidRecordName | ErrInvalidRecordType |
             ErrInvalidSOA | ErrInvalidTTL) => CodeInvalidPayload
  | RuleErr _ | IOErr => CodeInternal
  end.

(** ** Samples *)
Definition sample_status : string := unlines [
  "dnssec-policy: default"; "current time:  Thu Sep  3 12:00:00 2026"; "";
  "key: 4079 (ECDSAP256SHA256), CSK"; "  published:      yes - since Thu Sep  3 11:00:00 2026";
  "  key signing:    yes - since Thu Sep  3 11:00:00 2026"; "  zone signing:   no"; "";
  "  No rollover scheduled."].

Example samples :
  parseSigningStatus sample_status = ("default", [{|
    k_ID := 4079; Algorithm := "ECDSAP256SHA256"; k_Role := "CSK"; Published := true; KeySigning := true;
    ZoneSigning := false; RolloverText := "No rollover scheduled." |}]) /\
  (Digest <$> parseDS "example.test. IN DS 4079 13 2 814CBB08 AA") = Some "814CBB08AA" /\
  globalOptions (Some {| Succeeded := true; Stderr := "";
    Stdout := unlines ["options {"; "recursion yes;"; "listen-on  {"; "127.0.0.1/32;"; "};"; "};"] |})
    = (true, ["127.0.0.1/32"]) /\
  (st_Serial <$> ZoneStatus "a.example" (Some {| Succeeded := true; Stderr := "";
    Stdout := unlines ["name: a.example"; "type: primary"; "serial: 2026090301"] |})) = Some 2026090301%Z /\
  ZoneStatus "a.example" (Some {| Succeeded := true; Stderr := ""; Stdout := unlines ["serial:"] |}) = None /\
  warnings false false ["a.example"] ["127.0.0.1/32"] = [NotIncluded].
Proof. vm_compute. repeat split. Qed.

(** A delegation signer line, its digest in as many groups as it comes in, reads back. *)
Theorem parseDS_reads_back owner n a d digest groups :
  token owner -> (0 <= n < 2 ^ 16)%Z -> (0 <= a < 2 ^ 8)%Z -> (0 <= d < 2 ^ 8)%Z -> Forall token (digest :: groups) ->
  let line := join " " (owner :: "IN" :: "DS" :: itoa n :: itoa a :: itoa d :: digest :: groups) in
  parseDS line = Some {| KeyTag := n; ds_Algorithm := a; DigestType := d; Digest := join "" (digest :: groups); ds_Record := line |}.
Proof.
  intros Ho Hn Ha Hd Hg line. unfold parseDS, line.
  assert (Hi : forall z, (0 <= z < 2 ^ 16)%Z -> token (itoa z) /\ atoi (itoa z) = Some z).
  { intros z Hz. assert (He : atoi (itoa z) = Some z) by (apply (small_itoa z 65535); lia).
    split; [|done]. split; [by intros E; rewrite E in He|].
    apply itoa_forall; [|done]. intros c. each_char c. }
  destruct (Hi n Hn) as [Tn En]. destruct (Hi a) as [Ta Ea]; [lia|]. destruct (Hi d) as [Td Ed]; [lia|].
  rewrite fields_join by (repeat (constructor; [done|]); inversion_clear Hg; by constructor).
  change (negb ("DS" =? "DS")) with false. cbv iota. by rewrite En, Ea, Ed.
Qed.
