(* ===== verification/DnsTemplates.v ===== *)
(** * Templates of new zones ([api/internal/dns/template.go])

    Records with two placeholders, which a new zone starts with: what they render to, and the
    check of a template by the records it gives for a sample. *)

From S2P Require Import Prelude GoStr TenancyRules Netip DnsRules.

#[local] Open Scope string_scope.
#[local] Arguments Nat.ltb : simpl never.

(** [strings.ToUpper]. *)
Definition upper_char (a : ascii) : ascii :=
  if is_lower a then ascii_of_nat (nat_of_ascii a - 32) else a.
Definition to_upper : string -> string := str_map upper_char.

Inductive template_err := ErrTemplateInvalid | ErrUnknownPlaceholder.
#[global] Instance template_err_eq_dec : EqDecision template_err.
Proof. solve_decision. Defined.

Definition PlaceholderDomain : string := "{domain}".
Definition PlaceholderIP : string := "{ip}".

(** A line of a template; its position is its place in the list. *)
Record TemplateRecord := {
  t_Name : string; t_Type : string; t_TTL : Z; t_Value : string;
  t_Priority : Z; t_Weight : Z; t_Port : Z }.

Definition substitute (text domain address : string) : string :=
  let text := replace_all (String.length text) PlaceholderDomain domain text in
  replace_all (String.length text) PlaceholderIP address text.

Definition Render (r : TemplateRecord) (domain address : string) : TemplateRecord := {|
  t_Name := substitute (t_Name r) domain address; t_Type := t_Type r; t_TTL := t_TTL r;
  t_Value := substitute (t_Value r) domain address;
  t_Priority := t_Priority r; t_Weight := t_Weight r; t_Port := t_Port r |}.

(** The loop, which goes on behind the brace it has found closed. *)
Fixpoint unknown_go (fuel : nat) (rest : string) (unknown : list string) : list string :=
  match fuel with
  | O => unknown
  | S f =>
      match cut_opt "{" rest with
      | None => unknown
      | Some (_, after) =>
          match cut_opt "}" ("{" ++ after) with
          | None => unknown
          | Some (inner, rest) =>
              let token := inner ++ "}" in
              unknown_go f rest
                (if one_of [PlaceholderDomain; PlaceholderIP] token then unknown else (unknown ++ [token])%list)
          end
      end
  end.
Definition UnknownPlaceholders (text : string) : list string := unknown_go (S (String.length text)) text [].

Definition sampleDomain : string := "example.test".
Definition sampleAddress : string := "192.0.2.1".

Definition invalid {A} (r : result dns_rule_err A) : result template_err A :=
  match r with Ok a => Ok a | Err _ => Err ErrTemplateInvalid end.

Definition template_value (r : TemplateRecord) : RecordValue := {|
  v_Type := t_Type r; v_Value := t_Value r; v_Priority := t_Priority r; v_Weight := t_Weight r;
  v_Port := t_Port r; v_Flags := 0; v_Tag := "" |}.

Definition ValidateTemplateRecord (record : TemplateRecord) : result template_err unit :=
  guard (negb (bool_decide (UnknownPlaceholders (t_Name record) = []))) ErrUnknownPlaceholder ;?
  guard (negb (bool_decide (UnknownPlaceholders (t_Value record) = []))) ErrUnknownPlaceholder ;?
  let rendered := Render record sampleDomain sampleAddress in
  invalid (RecordType (t_Type rendered)) ;?
  invalid (RecordName (t_Name rendered)) ;?
  invalid (RecordOf (template_value rendered)) ;?
  if (t_TTL rendered =? 0)%Z then Ok tt else invalid (TTL (t_TTL rendered)).

Record TemplateInput := {
  ti_Name : string; ti_Description : string; ti_IsDefault : bool; ti_Records : list TemplateRecord }.

Fixpoint validate_records (records : list TemplateRecord) : result template_err unit :=
  match records with
  | [] => Ok tt
  | r :: more => ValidateTemplateRecord r ;? validate_records more
  end.

Definition ValidateTemplate (input : TemplateInput) : result template_err unit :=
  let name := trim_space (ti_Name input) in
  guard (name =? "") ErrTemplateInvalid ;?
  guard (80 <? String.length name)%nat ErrTemplateInvalid ;?
  guard (100 <? length (ti_Records input))%nat ErrTemplateInvalid ;?
  validate_records (ti_Records input).

(** [templateBody.input] ([template_handlers.go]). *)
Definition template_input (name description : string) (isDefault : bool) (records : list TemplateRecord)
  : TemplateInput := {|
  ti_Name := trim_space name; ti_Description := trim_space description; ti_IsDefault := isDefault;
  ti_Records := (fun r => {|
    t_Name := trim_space (t_Name r); t_Type := to_upper (trim_space (t_Type r)); t_TTL := t_TTL r;
    t_Value := trim_space (t_Value r); t_Priority := t_Priority r; t_Weight := t_Weight r;
    t_Port := t_Port r |}) <$> records |}.

(** ** What an accepted text renders to *)

(** Every brace that is opened and closed, as [UnknownPlaceholders] finds them. *)
Fixpoint tokens_go (fuel : nat) (rest : string) : list string :=
  match fuel with
  | O => []
  | S f =>
      match cut_opt "{" rest with
      | None => []
      | Some (_, after) =>
          match cut_opt "}" ("{" ++ after) with
          | None => []
          | Some (inner, rest) => (inner ++ "}") :: tokens_go f rest
          end
      end
  end.
Definition tokens (text : string) : list string := tokens_go (S (String.length text)) text.
Definition known : list string := [PlaceholderDomain; PlaceholderIP].
Definition no_open (s : string) : Prop := contains_char "{" s = false.

Lemma cut_opt_some sep s x y : cut_opt sep s = Some (x, y) -> s = x ++ sep ++ y.
Proof.
  unfold cut_opt. revert x y. induction s as [|a s IH]; intros x y; cbn [cut_str].
  - destruct (trim_prefix_opt sep "") eqn:E; [|done]. intros [= <- <-]. by apply trim_prefix_opt_spec in E.
  - destruct (trim_prefix_opt sep (String a s)) eqn:E.
    + intros [= <- <-]. by apply trim_prefix_opt_spec in E.
    + destruct (cut_str sep s) as [[x' y'] [|]]; [|done]. intros [= <- <-]. cbn. f_equal. by apply IH.
Qed.

(** Past a text in which no separator starts, the search goes on. *)
Definition skips (sep x : string) : Prop := forall rest,
  cut_opt sep (x ++ rest) = (fun '(a, b) => (x ++ a, b)) <$> cut_opt sep rest.

Lemma skips_app sep x y : skips sep x -> skips sep y -> skips sep (x ++ y).
Proof.
  intros Hx Hy rest. rewrite app_assoc_str, Hx, Hy. destruct (cut_opt sep rest) as [[a b]|]; [|done].
  cbn. by rewrite app_assoc_str.
Qed.
Lemma skips_char c sep a : a <> c -> skips (String c sep) (String a "").
Proof.
  intros Ha rest. unfold cut_opt. cbn [String.append cut_str trim_prefix_opt].
  rewrite (proj2 (Ascii.eqb_neq c a)) by congruence.
  by destruct (cut_str (String c sep) rest) as [[x y] [|]].
Qed.
Lemma skips_free c sep x : contains_char c x = false -> skips (String c sep) x.
Proof.
  unfold contains_char. induction x as [|a x IH]; cbn [str_exists]; intros H.
  - intros rest. cbn [String.append]. by destruct (cut_opt _ rest) as [[a b]|].
  - apply orb_false_iff in H as [Ha H]. apply (skips_app _ (String a "") x); [|by apply IH].
    apply skips_char. intros ->. by rewrite Ascii.eqb_refl in Ha.
Qed.
Lemma cut_opt_at sep rest : sep <> "" -> cut_opt sep (sep ++ rest) = Some ("", rest).
Proof.
  intros Hs. unfold cut_opt. assert (Hp : trim_prefix_opt sep (sep ++ rest) = Some rest) by by apply trim_prefix_opt_spec.
  destruct sep; [done|]. cbn [String.append cut_str] in *. by rewrite Hp.
Qed.

(** A text made of pieces without an opening brace, tokens of [toks], and an end in which no
    brace is closed. *)
Inductive made_of (toks : list string) : string -> Prop :=
| made_end s : tokens s = [] -> made_of toks s
| made_token pre tok rest :
    no_open pre -> tok ∈ toks -> made_of toks rest -> made_of toks (pre ++ tok ++ rest).

Lemma token_shorter s pre after inner rest :
  cut_opt "{" s = Some (pre, after) -> cut_opt "}" ("{" ++ after) = Some (inner, rest) ->
  (String.length rest < String.length s)%nat.
Proof.
  intros E%cut_opt_some E2%cut_opt_some.
  assert (H : String.length ("{" ++ after) = (String.length inner + (1 + String.length rest))%nat)
    by (rewrite E2, !length_app_str; done).
  rewrite E, length_app_str, H. lia.
Qed.

Lemma tokens_fuel f : forall s, (String.length s < f)%nat -> tokens_go f s = tokens s.
Proof.
  unfold tokens. induction (lt_wf f) as [f _ IH]. intros s Hf. destruct f as [|f]; [lia|]. cbn [tokens_go].
  destruct (cut_opt "{" s) as [[pre after]|] eqn:E; [|done].
  destruct (cut_opt "}" ("{" ++ after)) as [[inner rest]|] eqn:E2; [|done].
  pose proof (token_shorter _ _ _ _ _ E E2) as Hl.
  f_equal. rewrite (IH f) by lia. by rewrite (IH (String.length s)) by lia.
Qed.

Lemma tokens_cons s pre after inner rest :
  cut_opt "{" s = Some (pre, after) -> cut_opt "}" ("{" ++ after) = Some (inner, rest) ->
  tokens s = (inner ++ "}") :: tokens rest.
Proof.
  intros E E2. unfold tokens at 1. cbn [tokens_go]. rewrite E, E2. f_equal. apply tokens_fuel.
  by eapply token_shorter.
Qed.

Lemma unknown_go_spec f s acc :
  unknown_go f s acc = (acc ++ filter (fun t => t ∉ known) (tokens_go f s))%list.
Proof.
  revert s acc. induction f as [|f IH]; intros s acc; cbn [unknown_go tokens_go]; [by rewrite app_nil_r|].
  destruct (cut_opt "{" s) as [[pre after]|]; [|by rewrite app_nil_r].
  destruct (cut_opt "}" ("{" ++ after)) as [[inner rest]|]; [|by rewrite app_nil_r].
  rewrite IH. destruct (one_of [PlaceholderDomain; PlaceholderIP] (inner ++ "}")) eqn:E.
  - apply one_of_spec in E. by rewrite filter_cons_False by tauto.
  - rewrite filter_cons_True, <- app_assoc; [done|]. intros He. apply one_of_spec in He.
    unfold known in He. congruence.
Qed.

(** What [UnknownPlaceholders] reports. *)
Lemma UnknownPlaceholders_spec text :
  UnknownPlaceholders text = filter (fun t => t ∉ known) (tokens text).
Proof. unfold UnknownPlaceholders. by rewrite unknown_go_spec. Qed.

Lemma cut_char c s :
  match cut_opt (String c "") s with
  | Some (x, y) => contains_char c x = false
  | None => contains_char c s = false
  end.
Proof.
  unfold cut_opt, contains_char. induction s as [|a s IH]; [done|].
  cbn [cut_str trim_prefix_opt str_exists]. destruct (Ascii.eqb c a) eqn:E; [done|].
  destruct (cut_str (String c "") s) as [[x y] [|]]; cbn [str_exists]; by rewrite ?E.
Qed.

Lemma known_made n : forall s, (String.length s < n)%nat ->
  (forall t, t ∈ tokens s -> t ∈ known) -> made_of known s.
Proof.
  induction n as [|n IH]; intros s Hn Hk; [lia|].
  destruct (cut_opt "{" s) as [[pre after]|] eqn:E.
  2: { apply made_end. unfold tokens. cbn [tokens_go]. by rewrite E. }
  destruct (cut_opt "}" ("{" ++ after)) as [[inner rest]|] eqn:E2.
  2: { apply made_end. unfold tokens. cbn [tokens_go]. by rewrite E, E2. }
  pose proof (token_shorter _ _ _ _ _ E E2) as Hl. pose proof (tokens_cons _ _ _ _ _ E E2) as Ht.
  assert (Hs : s = pre ++ (inner ++ "}") ++ rest).
  { pose proof (cut_opt_some _ _ _ _ E) as ->. pose proof (cut_opt_some _ _ _ _ E2) as ->. by rewrite app_assoc_str. }
  rewrite Hs. apply made_token.
  - pose proof (cut_char "{" s) as Hc. by rewrite E in Hc.
  - apply Hk. rewrite Ht. apply list_elem_of_here.
  - apply IH; [lia|]. intros t Hin. apply Hk. rewrite Ht. by apply list_elem_of_further.
Qed.

Lemma closed_after pre after x w : no_open pre -> pre ++ String "{" after = x ++ String "{" w ->
  contains_char "}" w = true -> contains_char "}" after = true.
Proof.
  revert x. unfold no_open. induction pre as [|a pre IH]; intros x Hp He Hw; destruct x as [|b x].
  - by injection He as ->.
  - injection He as _ ->. rewrite contains_char_app. apply orb_true_iff. by right.
  - injection He as -> _. done.
  - injection He as _ He. apply orb_false_iff in Hp as [_ Hp]. by apply (IH x).
Qed.

(** A token in a text is found. *)
Lemma tokens_found x w : contains_char "}" w = true -> tokens (x ++ String "{" w) <> [].
Proof.
  intros Hw Ht. pose proof (cut_char "{" (x ++ String "{" w)) as Hc.
  destruct (cut_opt "{" (x ++ String "{" w)) as [[pre after]|] eqn:E.
  2: { by rewrite contains_char_app in Hc; cbn in Hc; rewrite orb_true_r in Hc. }
  pose proof (cut_opt_some _ _ _ _ E) as He. pose proof (cut_char "}" ("{" ++ after)) as Hc2.
  destruct (cut_opt "}" ("{" ++ after)) as [[inner rest]|] eqn:E2.
  - by rewrite (tokens_cons _ _ _ _ _ E E2) in Ht.
  - pose proof (closed_after _ _ _ _ Hc (eq_sym He) Hw) as H. by rewrite contains_char_app, H, orb_true_r in Hc2.
Qed.

Lemma tokens_prefix p s : no_open p -> tokens (p ++ s) = tokens s.
Proof.
  intros Hp. pose proof (skips_free "{" "" p Hp s) as E.
  destruct (cut_opt "{" s) as [[pre after]|] eqn:E1; cbn in E.
  - destruct (cut_opt "}" ("{" ++ after)) as [[inner rest]|] eqn:E2.
    + by rewrite (tokens_cons _ _ _ _ _ E E2), (tokens_cons _ _ _ _ _ E1 E2).
    + unfold tokens. cbn [tokens_go]. by rewrite E, E1, E2.
  - unfold tokens. cbn [tokens_go]. by rewrite E, E1.
Qed.

Lemma made_prefix toks p s : no_open p -> made_of toks s -> made_of toks (p ++ s).
Proof.
  intros Hp [s' Ht|pre tok rest Hpre Hin Hr]; [apply made_end; by rewrite tokens_prefix|].
  rewrite <- app_assoc_str. apply made_token; [|done..]. unfold no_open in *. by rewrite contains_char_app, Hp.
Qed.

Lemma known_skips old tok : old ∈ known -> tok ∈ known -> tok <> old -> skips old tok.
Proof.
  intros Ho Ht Hne. unfold known in *. rewrite !list_elem_of_In in Ho, Ht. cbn [In] in Ho, Ht.
  destruct Ho as [<-|[<-|[]]], Ht as [<-|[<-|[]]]; try done; intros rest; unfold cut_opt;
    cbn [PlaceholderDomain PlaceholderIP String.append cut_str trim_prefix_opt Ascii.eqb Bool.eqb];
    match goal with |- context [cut_str ?s rest] => by destruct (cut_str s rest) as [[x y] [|]] end.
Qed.

(** Replacing one of the tokens leaves a text made of the others. *)
Lemma replace_made old new toks s : old ∈ known -> toks ⊆ known -> no_open new -> made_of toks s ->
  forall f, (String.length s <= f)%nat -> made_of (filter (fun t => t <> old) toks) (replace_all f old new s).
Proof.
  intros Ho Hks Hn. induction 1 as [s Ht|pre tok rest Hpre Hin Hr IH]; intros f Hf.
  - assert (Hnone : cut_opt old s = None).
    { destruct (cut_opt old s) as [[x y]|] eqn:E; [|done]. apply cut_opt_some in E as ->. exfalso. revert Ht.
      unfold known in Ho. rewrite !list_elem_of_In in Ho. destruct Ho as [<-|[<-|[]]]; by apply tokens_found. }
    destruct f as [|f]; cbn [replace_all]; rewrite ?Hnone; by apply made_end.
  - rewrite !length_app_str in Hf.
    assert (Hl : exists f', f = S f' /\ (String.length rest <= f')%nat).
    { assert (1 <= String.length tok)%nat by (specialize (Hks _ Hin); unfold known in Hks;
        rewrite !list_elem_of_In in Hks; destruct Hks as [<-|[<-|[]]]; cbn; lia).
      destruct f as [|f]; [lia|]. exists f. split; [done|lia]. }
    destruct Hl as (f' & -> & Hf'). cbn [replace_all].
    assert (Hp : skips old pre).
    { unfold known in Ho. rewrite !list_elem_of_In in Ho. destruct Ho as [<-|[<-|[]]]; by apply skips_free. }
    rewrite Hp. destruct (decide (tok = old)) as [->|Hne].
    + rewrite cut_opt_at by (unfold known in Ho; rewrite !list_elem_of_In in Ho; by destruct Ho as [<-|[<-|[]]]).
      cbn. rewrite <- !app_assoc_str, app_nil_r_str. apply made_prefix; [unfold no_open in *; by rewrite contains_char_app, Hpre|by apply IH].
    + rewrite known_skips by auto. specialize (IH (S f') ltac:(lia)). cbn [replace_all] in IH.
      destruct (cut_opt old rest) as [[x y]|]; cbn; rewrite ?app_assoc_str; apply made_token; try done;
        rewrite list_elem_of_filter; auto.
Qed.

(** A text with no unknown placeholder renders to one in which nothing is left between braces,
    for a zone and an address that have no brace of their own. *)
Lemma substitute_complete text domain address :
  UnknownPlaceholders text = [] -> no_open domain -> no_open address -> tokens (substitute text domain address) = [].
Proof.
  intros Hu Hd Ha. rewrite UnknownPlaceholders_spec in Hu.
  assert (H : made_of known text).
  { apply (known_made (S (String.length text))); [lia|]. intros t Ht. destruct (decide (t ∈ known)) as [|Hn]; [done|].
    assert (Hf : t ∈ filter (fun t => t ∉ known) (tokens text)) by by rewrite list_elem_of_filter.
    rewrite Hu in Hf. by apply not_elem_of_nil in Hf. }
  apply (replace_made PlaceholderDomain domain) with (f := String.length text) in H; [|set_solver|done..|lia].
  apply (replace_made PlaceholderIP address) with (f := String.length (replace_all (String.length text) PlaceholderDomain domain text))
    in H; [|set_solver|set_solver|done|lia].
  fold (substitute text domain address) in H. destruct H as [s Ht|pre tok rest _ Hin _]; [done|].
  exfalso. unfold known in Hin. rewrite !list_elem_of_filter, !list_elem_of_In in Hin.
  destruct Hin as (? & ? & [<-|[<-|[]]]); done.
Qed.
