(* ===== verification/DnsTables.v ===== *)
(** * The tables of DNS zones ([api/internal/dns/repository.go], [template_repository.go],
    [builtin.go])

    Zones, their records, the name server's settings and the templates, one definition per
    statement or transaction, with the keys and checks of [migrations/0014_dns.up.sql] and
    [0028_dns_templates.up.sql].  Columns only shown to a user (creation and update times,
    joined domains, counts) are left out. *)

From stdpp Require Import gmap.
From S2P Require Import Prelude Store GoStr GoSort TenancyRules Netip DnsRules DnsTemplates Protocol.

#[local] Open Scope string_scope.
#[local] Arguments Nat.ltb : simpl never.

#[global] Instance request_err_eq_dec : EqDecision request_err.
Proof. solve_decision. Defined.

(** The sentinel errors of the package, the ones it passes on, and [ErrTable] for a row that
    breaks a check of the schema. *)
Inductive panel_err :=
| ErrZoneNotFound | ErrRecordNotFound | ErrDuplicateZone | ErrDuplicateRecord | ErrProviderNotFound
| ErrSlaveRecords | ErrManagedRecord | ErrCNAMEConflict | ErrNoNameservers | ErrDNSSECUnsupported
| ErrUnknownProvider | ErrTemplateNotFound | ErrTemplateNameTaken | ErrTemplateBuiltin
| ErrRule (e : dns_rule_err) | ErrTemplate (e : template_err) | ErrTable | ErrNoMasters | ErrNoToken | ErrNoZone
| ErrNoWebsite | ErrRequest (e : request_err) | ErrAgent (code : string) | ErrRemote | ErrNoKey | ErrBackend.
#[global] Instance panel_err_eq_dec : EqDecision panel_err.
Proof. solve_decision. Defined.

(** What PostgreSQL does by its configuration: the order of texts, and [cidr] input as the
    text it is given back as. *)
Class Postgres := {
  text_before : string -> string -> bool;
  as_cidr : string -> option string;
}.

(** ** Rows *)
Record Zone := {
  zn_ServerID : string; zn_WebsiteID : option string; zn_Name : string; zn_Kind : string;
  zn_ReverseNetwork : option string; zn_PrimaryNS : string; zn_Hostmaster : string; zn_Serial : Z;
  zn_Refresh : Z; zn_Retry : Z; zn_Expire : Z; zn_Minimum : Z; zn_TTL : Z;
  zn_Nameservers : list string; zn_DNSSEC : bool; zn_AllowTransfer : list string;
  zn_AlsoNotify : list string; zn_Masters : list string }.

Record DnsRecord := {
  rr_ZoneID : string; rr_Name : string; rr_Type : string; rr_TTL : Z; rr_Value : string;
  rr_Priority : Z; rr_Weight : Z; rr_Port : Z; rr_Flags : Z; rr_Tag : string; rr_Managed : bool }.

Record Settings := {
  st_ListenOn : list string; st_AllowTransfer : list string; st_DNSSECPolicy : string;
  st_DefaultNS : list string; st_DefaultTTL : Z; st_Hostmaster : string }.

Definition DefaultSettings : Settings := {|
  st_ListenOn := []; st_AllowTransfer := []; st_DNSSECPolicy := "default"; st_DefaultNS := [];
  st_DefaultTTL := 3600; st_Hostmaster := "" |}.

Record Template := {
  tm_ServerID : string; tm_Name : string; tm_Description : string; tm_IsDefault : bool; tm_Builtin : bool;
  tm_Records : list TemplateRecord }.

Record Provider := {
  pv_ServerID : string; pv_Kind : string; pv_Label : string; pv_Token : string; pv_AccountID : string;
  pv_SyncStatus : string }.

#[global] Instance Zone_eq_dec : EqDecision Zone.
Proof. solve_decision. Defined.
#[global] Instance DnsRecord_eq_dec : EqDecision DnsRecord.
Proof. solve_decision. Defined.

Record Database := {
  zones : gmap string Zone;
  records : gmap string DnsRecord;
  settings : gmap string Settings;
  templates : gmap string Template;
  providers : gmap string Provider;
  websites : gset string;                   (** the keys [website_id] refers to *)
}.
Definition with_zones (m : gmap string Zone) (d : Database) : Database := {|
  zones := m; records := records d; settings := settings d; templates := templates d;
  providers := providers d; websites := websites d |}.
Definition with_records (m : gmap string DnsRecord) (d : Database) : Database := {|
  zones := zones d; records := m; settings := settings d; templates := templates d;
  providers := providers d; websites := websites d |}.
Definition with_settings (m : gmap string Settings) (d : Database) : Database := {|
  zones := zones d; records := records d; settings := m; templates := templates d;
  providers := providers d; websites := websites d |}.
Definition with_templates (m : gmap string Template) (d : Database) : Database := {|
  zones := zones d; records := records d; settings := settings d; templates := m;
  providers := providers d; websites := websites d |}.
Definition with_providers (m : gmap string Provider) (d : Database) : Database := {|
  zones := zones d; records := records d; settings := settings d; templates := templates d;
  providers := m; websites := websites d |}.

(** An answer and the tables after it, or an error and nothing changed. *)
Definition statement (A : Type) : Type := Database -> result panel_err (A * Database).

(** ** The checks of the schema *)
Definition between (lo hi z : Z) : bool := ((lo <=? z) && (z <=? hi))%Z.

Definition timers_sane (z : Zone) : bool :=
  between 300 86400 (zn_Refresh z) && between 60 28800 (zn_Retry z) && (zn_Retry z <? zn_Refresh z)%Z &&
  between 604800 31536000 (zn_Expire z) && (zn_Refresh z <? zn_Expire z)%Z &&
  between 60 86400 (zn_Minimum z) && between 60 604800 (zn_TTL z).

Definition zone_check (z : Zone) : bool :=
  one_of [ZoneMaster; ZoneSlave] (zn_Kind z) && domainPattern (split "." (zn_Name z)) && timers_sane z &&
  negb ((zn_Kind z =? ZoneSlave) && bool_decide (zn_Masters z = [])) &&
  forallb (fun s => String.length s <=? 253)%nat [zn_Name z; zn_PrimaryNS z; zn_Hostmaster z].

(** A label after an optional underscore. *)
Definition column_label (label : string) : bool := domain_label_go true (trim_prefix "_" label).
Definition column_name (name : string) : bool :=
  (name =? "@") ||
  match split "." name with
  | label :: more => ((label =? "*") || column_label label) && forallb column_label more
  | [] => false
  end.

Definition record_check (r : DnsRecord) : bool :=
  one_of RecordTypes (rr_Type r) && column_name (rr_Name r) && (String.length (rr_Name r) <=? 253)%nat &&
  ((rr_TTL r =? 0)%Z || between 60 604800 (rr_TTL r)) &&
  between 0 65535 (rr_Priority r) && between 0 65535 (rr_Weight r) && between 0 65535 (rr_Port r) &&
  between 0 255 (rr_Flags r) && negb ((rr_Type r =? RecordSRV) && (rr_Port r <=? 0)%Z) &&
  (String.length (rr_Tag r) <=? 20)%nat && negb ((rr_Type r =? RecordCAA) && negb (one_of caaTags (rr_Tag r))).

(** The unique index on records. *)
Definition same_record (r r' : DnsRecord) : bool :=
  (rr_ZoneID r =? rr_ZoneID r') && (rr_Name r =? rr_Name r') && (rr_Type r =? rr_Type r') &&
  (rr_Value r =? rr_Value r') && (rr_Priority r =? rr_Priority r')%Z && (rr_Weight r =? rr_Weight r')%Z &&
  (rr_Port r =? rr_Port r')%Z && (rr_Tag r =? rr_Tag r').

Definition has {A} (p : string -> A -> bool) (m : gmap string A) : bool :=
  existsb (fun x => p (fst x) (snd x)) (map_to_list m).
Definition holds_record (but : option string) (r : DnsRecord) (d : Database) : bool :=
  has (fun id r' => negb (bool_decide (but = Some id)) && same_record r r') (records d).

(** [nextSerial]. *)
Definition nextSerial (serial now : Z) : Z := Z.max (serial + 1) now.

Section statements.
Context `{Postgres}.

(** A website is named by its identifier; the empty text is NULL. *)
Definition reference (id : string) : option string := if id =? "" then None else Some id.
Definition referenced (id : option string) (d : Database) : bool :=
  match id with None => true | Some id => bool_decide (id ∈ websites d) end.

(** ** Zones *)
Record CreateZoneParams := {
  zp_ServerID : string; zp_WebsiteID : string; zp_Name : string; zp_Kind : string; zp_ReverseNetwork : string;
  zp_PrimaryNS : string; zp_Hostmaster : string; zp_Refresh : Z; zp_Retry : Z; zp_Expire : Z; zp_Minimum : Z;
  zp_TTL : Z; zp_Nameservers : list string; zp_DNSSEC : bool; zp_AllowTransfer : list string;
  zp_AlsoNotify : list string; zp_Masters : list string }.

Definition zone_row (p : CreateZoneParams) (network : option string) (serial : Z) : Zone := {|
  zn_ServerID := zp_ServerID p; zn_WebsiteID := reference (zp_WebsiteID p); zn_Name := zp_Name p;
  zn_Kind := zp_Kind p; zn_ReverseNetwork := network; zn_PrimaryNS := zp_PrimaryNS p;
  zn_Hostmaster := zp_Hostmaster p; zn_Serial := serial; zn_Refresh := zp_Refresh p; zn_Retry := zp_Retry p;
  zn_Expire := zp_Expire p; zn_Minimum := zp_Minimum p; zn_TTL := zp_TTL p;
  zn_Nameservers := zp_Nameservers p; zn_DNSSEC := zp_DNSSEC p; zn_AllowTransfer := zp_AllowTransfer p;
  zn_AlsoNotify := zp_AlsoNotify p; zn_Masters := zp_Masters p |}.

Definition zone_named (server name : string) (d : Database) : option (string * Zone) :=
  List.find (fun x => (zn_ServerID (snd x) =? server) && (zn_Name (snd x) =? name)) (map_to_list (zones d)).

Definition insert_zone (id : string) (p : CreateZoneParams) (now : Z) : statement unit := fun d =>
  match (if zp_ReverseNetwork p =? "" then Some None else Some <$> as_cidr (zp_ReverseNetwork p)) with
  | None => Err ErrBackend
  | Some network =>
      let z := zone_row p network now in
      if negb (zone_check z) then Err ErrTable
      else if bool_decide (is_Some (zone_named (zp_ServerID p) (zp_Name p) d)) then Err ErrDuplicateZone
      else if negb (referenced (zn_WebsiteID z) d) || bool_decide (is_Some (zones d !! id)) then Err ErrBackend
      else Ok (tt, with_zones (<[id := z]> (zones d)) d)
  end.

Record UpdateZoneParams := {
  zu_PrimaryNS : option string; zu_Hostmaster : option string; zu_Refresh : option Z; zu_Retry : option Z;
  zu_Expire : option Z; zu_Minimum : option Z; zu_TTL : option Z; zu_Nameservers : option (list string);
  zu_DNSSEC : option bool; zu_AllowTransfer : option (list string); zu_AlsoNotify : option (list string);
  zu_Masters : option (list string); zu_WebsiteID : option string }.

Definition updated_zone (p : UpdateZoneParams) (now : Z) (z : Zone) : Zone := {|
  zn_ServerID := zn_ServerID z;
  zn_WebsiteID := match zu_WebsiteID p with None => zn_WebsiteID z | Some id => reference id end;
  zn_Name := zn_Name z; zn_Kind := zn_Kind z; zn_ReverseNetwork := zn_ReverseNetwork z;
  zn_PrimaryNS := default (zn_PrimaryNS z) (zu_PrimaryNS p);
  zn_Hostmaster := default (zn_Hostmaster z) (zu_Hostmaster p);
  zn_Serial := nextSerial (zn_Serial z) now;
  zn_Refresh := default (zn_Refresh z) (zu_Refresh p); zn_Retry := default (zn_Retry z) (zu_Retry p);
  zn_Expire := default (zn_Expire z) (zu_Expire p); zn_Minimum := default (zn_Minimum z) (zu_Minimum p);
  zn_TTL := default (zn_TTL z) (zu_TTL p);
  zn_Nameservers := default (zn_Nameservers z) (zu_Nameservers p);
  zn_DNSSEC := default (zn_DNSSEC z) (zu_DNSSEC p);
  zn_AllowTransfer := default (zn_AllowTransfer z) (zu_AllowTransfer p);
  zn_AlsoNotify := default (zn_AlsoNotify z) (zu_AlsoNotify p);
  zn_Masters := default (zn_Masters z) (zu_Masters p) |}.

Definition update_zone (id : string) (p : UpdateZoneParams) (now : Z) : statement Zone := fun d =>
  match zones d !! id with
  | None => Err ErrZoneNotFound
  | Some z =>
      let z' := updated_zone p now z in
      if negb (zone_check z') then Err ErrTable
      else if negb (referenced (zn_WebsiteID z') d) then Err ErrBackend
      else Ok (z', with_zones (<[id := z']> (zones d)) d)
  end.

Definition bumped (now : Z) : Zone -> Zone := updated_zone {|
  zu_PrimaryNS := None; zu_Hostmaster := None; zu_Refresh := None; zu_Retry := None; zu_Expire := None;
  zu_Minimum := None; zu_TTL := None; zu_Nameservers := None; zu_DNSSEC := None; zu_AllowTransfer := None;
  zu_AlsoNotify := None; zu_Masters := None; zu_WebsiteID := None |} now.
Definition bump_serial (id : string) (now : Z) : statement unit := fun d =>
  match zones d !! id with
  | None => Err ErrZoneNotFound
  | Some z => Ok (tt, with_zones (<[id := bumped now z]> (zones d)) d)
  end.

(** A zone goes with its records. *)
Definition delete_zone (id : string) : statement unit := fun d =>
  match zones d !! id with
  | None => Err ErrZoneNotFound
  | Some _ => Ok (tt, with_records (filter (fun x => rr_ZoneID (snd x) <> id) (records d))
                        (with_zones (delete id (zones d)) d))
  end.

Definition get_zone (id : string) (d : Database) : result panel_err Zone :=
  match zones d !! id with Some z => Ok z | None => Err ErrZoneNotFound end.
Definition zone_by_name (server name : string) (d : Database) : result panel_err (string * Zone) :=
  match zone_named server name d with Some x => Ok x | None => Err ErrZoneNotFound end.
Definition list_zones (server : string) (d : Database) : list (string * Zone) :=
  slice_stable (fun x y => text_before (zn_Name (snd x)) (zn_Name (snd y)))
    (List.filter (fun x => zn_ServerID (snd x) =? server) (map_to_list (zones d))).

(** ** Records *)
Record RecordParams := {
  rp_ZoneID : string; rp_Name : string; rp_Type : string; rp_TTL : Z; rp_Value : string;
  rp_Priority : Z; rp_Weight : Z; rp_Port : Z; rp_Flags : Z; rp_Tag : string; rp_Managed : bool }.

Definition record_row (p : RecordParams) : DnsRecord := {|
  rr_ZoneID := rp_ZoneID p; rr_Name := rp_Name p; rr_Type := rp_Type p; rr_TTL := rp_TTL p;
  rr_Value := rp_Value p; rr_Priority := rp_Priority p; rr_Weight := rp_Weight p; rr_Port := rp_Port p;
  rr_Flags := rp_Flags p; rr_Tag := rp_Tag p; rr_Managed := rp_Managed p |}.

Definition insert_record (id : string) (p : RecordParams) : statement unit := fun d =>
  let r := record_row p in
  if negb (record_check r) then Err ErrTable
  else if holds_record None r d then Err ErrDuplicateRecord
  else if bool_decide (zones d !! rr_ZoneID r = None) || bool_decide (is_Some (records d !! id)) then Err ErrBackend
  else Ok (tt, with_records (<[id := r]> (records d)) d).

(** The zone, and whether the panel maintains the record, stay. *)
Definition updated_record (p : RecordParams) (r : DnsRecord) : DnsRecord := {|
  rr_ZoneID := rr_ZoneID r; rr_Name := rp_Name p; rr_Type := rp_Type p; rr_TTL := rp_TTL p;
  rr_Value := rp_Value p; rr_Priority := rp_Priority p; rr_Weight := rp_Weight p; rr_Port := rp_Port p;
  rr_Flags := rp_Flags p; rr_Tag := rp_Tag p; rr_Managed := rr_Managed r |}.

Definition update_record (id : string) (p : RecordParams) : statement DnsRecord := fun d =>
  match records d !! id with
  | None => Err ErrRecordNotFound
  | Some r =>
      let r' := updated_record p r in
      if negb (record_check r') then Err ErrTable
      else if holds_record (Some id) r' d then Err ErrDuplicateRecord
      else Ok (r', with_records (<[id := r']> (records d)) d)
  end.

Definition delete_record (id : string) : statement unit := fun d =>
  match records d !! id with
  | None => Err ErrRecordNotFound
  | Some _ => Ok (tt, with_records (delete id (records d)) d)
  end.

(** The rows a DELETE takes, and how many they are. *)
Definition delete_records (p : DnsRecord -> bool) : statement nat := fun d =>
  Ok (length (List.filter (fun x => p (snd x)) (map_to_list (records d))),
      with_records (filter (fun x => p (snd x) = false) (records d)) d).
Definition delete_managed (zone name : string) : statement nat :=
  delete_records (fun r => (rr_ZoneID r =? zone) && (rr_Name r =? name) && rr_Managed r).
Definition delete_unmanaged (zone : string) : statement nat :=
  delete_records (fun r => (rr_ZoneID r =? zone) && negb (rr_Managed r)).

Definition get_record (id : string) (d : Database) : result panel_err DnsRecord :=
  match records d !! id with Some r => Ok r | None => Err ErrRecordNotFound end.

(** [ORDER BY name, type, priority, value]. *)
Definition record_order (x y : string * DnsRecord) : bool :=
  let l := snd x in let r := snd y in
  if negb (rr_Name l =? rr_Name r) then text_before (rr_Name l) (rr_Name r)
  else if negb (rr_Type l =? rr_Type r) then text_before (rr_Type l) (rr_Type r)
  else if negb (rr_Priority l =? rr_Priority r)%Z then (rr_Priority l <? rr_Priority r)%Z
  else text_before (rr_Value l) (rr_Value r).
Definition list_records (zone : string) (d : Database) : list (string * DnsRecord) :=
  slice_stable record_order (List.filter (fun x => rr_ZoneID (snd x) =? zone) (map_to_list (records d))).

(** ** Settings *)
Definition policy_name (s : string) : bool :=
  between 1 64 (Z.of_nat (String.length s)) &&
  str_forall (fun c => is_lower c || is_upper c || is_digit c || Ascii.eqb c "_" || Ascii.eqb c "-") s.

Definition get_settings (server : string) (d : Database) : Settings := default DefaultSettings (settings d !! server).
Definition save_settings (server : string) (s : Settings) : statement Settings := fun d =>
  if negb (policy_name (st_DNSSECPolicy s) && between 60 604800 (st_DefaultTTL s) &&
           (String.length (st_Hostmaster s) <=? 253)%nat) then Err ErrTable
  else Ok (s, with_settings (<[server := s]> (settings d)) d).

(** ** Templates *)
Definition template_named (server name : string) (but : option string) (d : Database) : bool :=
  has (fun id t => (tm_ServerID t =? server) && (to_lower (tm_Name t) =? to_lower name) &&
                   negb (bool_decide (but = Some id))) (templates d).

(** The row of a template, [None] when one of its columns cannot hold what is given. *)
Definition template_row (server : string) (builtin : bool) (input : TemplateInput) : option Template :=
  let name := trim_space (ti_Name input) in
  let fits r := (String.length (t_Name r) <=? 253)%nat && (String.length (t_Type r) <=? 10)%nat in
  let rows := (fun r => {|
    t_Name := trim_space (t_Name r); t_Type := to_upper (trim_space (t_Type r)); t_TTL := t_TTL r;
    t_Value := trim_space (t_Value r); t_Priority := t_Priority r; t_Weight := t_Weight r;
    t_Port := t_Port r |}) <$> ti_Records input in
  if negb (name =? "") && (String.length name <=? 80)%nat && forallb fits rows then
    Some {| tm_ServerID := server; tm_Name := name; tm_Description := ti_Description input;
            tm_IsDefault := ti_IsDefault input; tm_Builtin := builtin; tm_Records := rows |}
  else None.

Definition set_default (b : bool) (t : Template) : Template := {|
  tm_ServerID := tm_ServerID t; tm_Name := tm_Name t; tm_Description := tm_Description t;
  tm_IsDefault := b; tm_Builtin := tm_Builtin t; tm_Records := tm_Records t |}.

(** The default of a server, other than one template, is one no longer. *)
Definition clear_default (server : string) (but : option string) (d : Database) : Database :=
  with_templates (map_imap (fun id t =>
    Some (if (tm_ServerID t =? server) && negb (bool_decide (but = Some id)) then set_default false t else t))
    (templates d)) d.

(** The transaction of [SaveTemplate]: an [id] replaces that template, otherwise the new one is
    [fresh]. *)
Definition save_template (server : string) (id : option string) (fresh : string) (input : TemplateInput)
  : statement string := fun d =>
  let d1 := if ti_IsDefault input then clear_default server id d else d in
  match id with
  | None =>
      if template_named server (trim_space (ti_Name input)) None d1 then Err ErrTemplateNameTaken
      else match template_row server false input, templates d1 !! fresh with
           | Some t, None => Ok (fresh, with_templates (<[fresh := t]> (templates d1)) d1)
           | _, _ => Err ErrBackend
           end
  | Some id =>
      match templates d1 !! id with
      | Some old =>
          if negb (tm_ServerID old =? server) then Err ErrTemplateNotFound
          else if template_named server (trim_space (ti_Name input)) (Some id) d1 then Err ErrTemplateNameTaken
          else match template_row server (tm_Builtin old) input with
               | Some t => Ok (id, with_templates (<[id := t]> (templates d1)) d1)
               | None => Err ErrBackend
               end
      | None => Err ErrTemplateNotFound
      end
  end.

Definition get_template (server id : string) (d : Database) : result panel_err Template :=
  match templates d !! id with
  | Some t => if tm_ServerID t =? server then Ok t else Err ErrTemplateNotFound
  | None => Err ErrTemplateNotFound
  end.
Definition default_template (server : string) (d : Database) : result panel_err Template :=
  match List.find (fun x => (tm_ServerID (snd x) =? server) && tm_IsDefault (snd x)) (map_to_list (templates d)) with
  | Some x => Ok (snd x)
  | None => Err ErrTemplateNotFound
  end.
(** [ORDER BY is_default DESC, lower(name)]. *)
Definition list_templates (server : string) (d : Database) : list (string * Template) :=
  slice_stable (fun x y =>
      if negb (Bool.eqb (tm_IsDefault (snd x)) (tm_IsDefault (snd y))) then tm_IsDefault (snd x)
      else text_before (to_lower (tm_Name (snd x))) (to_lower (tm_Name (snd y))))
    (List.filter (fun x => tm_ServerID (snd x) =? server) (map_to_list (templates d))).
Definition delete_template (server id : string) : statement unit := fun d =>
  Ok (tt, with_templates (filter (fun x => ~ (fst x = id /\ tm_ServerID (snd x) = server)) (templates d)) d).

(** [EnsureBuiltinTemplate]: whether a template was written. *)
Definition builtin_records : list TemplateRecord :=
  (fun name => {| t_Name := name; t_Type := RecordA; t_TTL := 0; t_Value := PlaceholderIP;
                  t_Priority := 0; t_Weight := 0; t_Port := 0 |}) <$> ["@"; "www"].
Definition builtinTemplateDescription : string :=
  "The records a new domain starts with: the apex and www, both pointing at this host.".
Definition ensure_builtin (server fresh : string) : statement bool := fun d =>
  if has (fun _ t => tm_ServerID t =? server) (templates d) || bool_decide (is_Some (templates d !! fresh))
  then Ok (false, d)
  else Ok (true, with_templates (<[fresh := {|
         tm_ServerID := server; tm_Name := "Default"; tm_Description := builtinTemplateDescription;
         tm_IsDefault := true; tm_Builtin := true; tm_Records := builtin_records |}]> (templates d)) d).

(** ** Providers *)
(** [Encrypter]: a secret sealed for one row. *)
Definition tokenContext (providerID : string) : string := "dns_provider:" ++ providerID.

Definition insert_provider (encrypt : string -> string -> option string) (fresh server kind label token account : string)
  : statement unit := fun d =>
  if negb ((kind =? "cloudflare") && (String.length label <=? 100)%nat && (String.length account <=? 100)%nat)
  then Err ErrBackend
  else match encrypt token (tokenContext fresh), providers d !! fresh with
       | Some sealed, None =>
           let row := {| pv_ServerID := server; pv_Kind := kind; pv_Label := label; pv_Token := sealed;
                         pv_AccountID := account; pv_SyncStatus := "" |} in
           Ok (tt, with_providers (<[fresh := row]> (providers d)) d)
       | _, _ => Err ErrBackend
       end.
Definition delete_provider (id : string) : statement unit := fun d =>
  match providers d !! id with
  | None => Err ErrProviderNotFound
  | Some _ => Ok (tt, with_providers (delete id (providers d)) d)
  end.
Definition get_provider (id : string) (d : Database) : result panel_err Provider :=
  match providers d !! id with Some p => Ok p | None => Err ErrProviderNotFound end.
Definition list_providers (server : string) (d : Database) : list (string * Provider) :=
  List.filter (fun x => pv_ServerID (snd x) =? server) (map_to_list (providers d)).
Definition record_sync (id status : string) : statement unit := fun d =>
  Ok (tt, with_providers (alter (fun p => {|
    pv_ServerID := pv_ServerID p; pv_Kind := pv_Kind p; pv_Label := pv_Label p; pv_Token := pv_Token p;
    pv_AccountID := pv_AccountID p; pv_SyncStatus := status |}) id (providers d)) d).
End statements.
