(* ===== verification/DnsService.v ===== *)
(** * The panel's DNS use cases ([api/internal/dns/service.go], [managed.go], [sync.go],
    [certificate.go])

    Zones, records and settings as an operator changes them, over the tables of [DnsTables] and
    a name server that is handed the complete set of zones after every change.  The server is
    behind the class [NameServer]; calls to it and to PostgreSQL may fail before or after they
    took effect. *)

From stdpp Require Import gmap.
From S2P Require Import Prelude Store GoStr GoSort TenancyRules Netip DnsRules ZoneFile NamedConf DnsTemplates Protocol DnsTables.

#[local] Open Scope string_scope.
#[local] Arguments Nat.ltb : simpl never.

(** What the Agent answers: [dns.reconcile] and [dns.status]. An error is its code. *)
Class NameServer (N : Type) := {
  take_zones : NamedConf.Desired -> N -> result string unit * N;
  signs : N -> result string bool;
}.

(** ** The world *)
Record World (N : Type) := {
  db : Database;
  server : N;
  clock : list Z;                        (** what [now()] is at the coming statements that ask, then 0 *)
  uuids : list string;
  audit : list (string * string);        (** actions and the resources they were on *)
  addresses : list string;               (** this host's address each time it is asked for; empty: not known *)
  faults : list fault;
}.
Arguments db {N}. Arguments server {N}. Arguments clock {N}. Arguments uuids {N}. Arguments audit {N}.
Arguments addresses {N}. Arguments faults {N}.

Section world.
Context {N : Type}.
Definition set_db (d : Database) (w : World N) : World N := {|
  db := d; server := server w; clock := clock w; uuids := uuids w; audit := audit w;
  addresses := addresses w; faults := faults w |}.
Definition set_server (n : N) (w : World N) : World N := {|
  db := db w; server := n; clock := clock w; uuids := uuids w; audit := audit w;
  addresses := addresses w; faults := faults w |}.
Definition set_supplies (c : list Z) (u a : list string) (w : World N) : World N := {|
  db := db w; server := server w; clock := c; uuids := u; audit := audit w; addresses := a; faults := faults w |}.
Definition set_audit (l : list (string * string)) (w : World N) : World N := {|
  db := db w; server := server w; clock := clock w; uuids := uuids w; audit := l;
  addresses := addresses w; faults := faults w |}.
#[global] Instance World_faulty : Faulty (World N) := {
  faults_of := faults;
  with_faults fs w := {|
    db := db w; server := server w; clock := clock w; uuids := uuids w; audit := audit w;
    addresses := addresses w; faults := fs |} }.
End world.

Section service.
Context `{Postgres} {N : Type} `{NameServer N} (serverID : string).
Local Abbreviation M := (Store.M (World N) panel_err).
Local Abbreviation call := (Store.call ErrBackend).
Local Abbreviation query := (Store.query ErrBackend).
#[local] Open Scope store_scope.

(** ** Statements as calls *)
Definition exec {A} (s : Z -> statement A) : M A :=
  call (fun w => let w' := set_supplies (tail (clock w)) (uuids w) (addresses w) w in
                 match s (hd 0%Z (clock w)) (db w) with
                 | Ok (a, d) => (Ok a, set_db d w')
                 | Err e => (Err e, w')
                 end).
(** An INSERT draws the identifier of its row. *)
Definition insert (s : string -> Z -> statement unit) : M string :=
  call (fun w => match uuids w with
                 | [] => (Err ErrBackend, w)
                 | id :: rest =>
                     let w' := set_supplies (tail (clock w)) rest (addresses w) w in
                     match s id (hd 0%Z (clock w)) (db w) with
                     | Ok (_, d) => (Ok id, set_db d w')
                     | Err e => (Err e, w')
                     end
                 end).
Definition record (action resource : string) : M unit :=
  update (fun w => set_audit (audit w ++ [(action, resource)])%list w).
Definition rule {A} (r : result dns_rule_err A) : M A :=
  answer (match r with Ok a => Ok a | Err e => Err (ErrRule e) end).
Fixpoint rules {A} (check : A -> result dns_rule_err unit) (l : list A) : M unit :=
  match l with [] => ret tt | x :: more => rule (check x) ;! rules check more end.
Definition logged {A} (m : M A) : M unit := let! _ := attempt m in ret tt.

Definition GetZone (id : string) : M DnsTables.Zone := query (fun w => get_zone id (db w)).
Definition GetRecord (id : string) : M DnsRecord := query (fun w => get_record id (db w)).
Definition ZoneByName (name : string) : M (string * DnsTables.Zone) :=
  query (fun w => zone_by_name serverID name (db w)).
Definition ListZones : M (list (string * DnsTables.Zone)) := query (fun w => Ok (list_zones serverID (db w))).
Definition ListRecords (zone : string) : M (list (string * DnsRecord)) :=
  query (fun w => Ok (list_records zone (db w))).
Definition ReadSettings : M DnsTables.Settings := query (fun w => Ok (get_settings serverID (db w))).
Definition DefaultTemplate : M Template := query (fun w => default_template serverID (db w)).

Definition CreateRecordRow (p : RecordParams) : M string := insert (fun id _ => insert_record id p).
Definition UpdateRecordRow (id : string) (p : RecordParams) : M DnsRecord := exec (fun _ => update_record id p).
Definition DeleteRecordRow (id : string) : M unit := exec (fun _ => delete_record id).
Definition DeleteZoneRow (id : string) : M unit := exec (fun _ => delete_zone id).
Definition DeleteManagedRecords (zone name : string) : M nat := exec (fun _ => delete_managed zone name).
Definition BumpSerial (id : string) : M unit := exec (fun now => bump_serial id now).

(** [s.address]: asked anew each time. *)
Definition address : M string := fun w =>
  (Ok (hd "" (addresses w)), set_supplies (clock w) (uuids w) (tail (addresses w)) w).

(** ** Calls to the Agent ([api/internal/agentclient/client.go]): a request that does not pass
    [Validate] is not sent. *)
Definition request (requestID operation : string) : Request := {|
  Operation := operation; RequestID := requestID; Token := ""; Mode := ""; Payload := ∅ |}.
Definition Do {A} (requestID operation : string) (f : N -> result string A * N) : M A :=
  match Validate (request requestID operation) with
  | Err e => fail (ErrRequest e)
  | Ok _ =>
      call (fun w => match f (server w) with
                     | (Ok a, n) => (Ok a, set_server n w)
                     | (Err code, n) => (Err (ErrAgent code), set_server n w)
                     end)
  end.

(** ** Handing the zones over *)
Definition wire_record (r : DnsRecord) : ZRecord := {|
  z_Name := rr_Name r; z_Type := rr_Type r; z_TTL := rr_TTL r; z_Value := rr_Value r;
  z_Priority := rr_Priority r; z_Weight := rr_Weight r; z_Port := rr_Port r; z_Flags := rr_Flags r;
  z_Tag := rr_Tag r |}.
Definition wire_zone (z : DnsTables.Zone) (rs : list DnsRecord) : ZoneFile.Zone := {|
  Name := zn_Name z; Kind := zn_Kind z; PrimaryNS := zn_PrimaryNS z; z_Hostmaster := zn_Hostmaster z;
  Serial := zn_Serial z; Refresh := zn_Refresh z; Retry := zn_Retry z; Expire := zn_Expire z;
  Minimum := zn_Minimum z; ZTTL := zn_TTL z; Nameservers := zn_Nameservers z;
  Records := wire_record <$> rs; DNSSEC := zn_DNSSEC z; AllowTransfer := zn_AllowTransfer z;
  AlsoNotify := zn_AlsoNotify z; Masters := zn_Masters z |}.
Definition wire_settings (s : DnsTables.Settings) : NamedConf.Settings := {|
  ListenOn := st_ListenOn s; s_AllowTransfer := st_AllowTransfer s; DNSSECPolicy := st_DNSSECPolicy s |}.

Fixpoint wire_zones (zs : list (string * DnsTables.Zone)) : M (list ZoneFile.Zone) :=
  match zs with
  | [] => ret []
  | (id, z) :: more =>
      let! rs := ListRecords id in
      let! rest := wire_zones more in
      ret (wire_zone z (snd <$> rs) :: rest)
  end.

Definition reconcile (requestID : string) : M unit :=
  let! zs := ListZones in
  let! s := ReadSettings in
  let! wire := wire_zones zs in
  Do requestID OperationDNSReconcile (take_zones {| d_Settings := wire_settings s; d_Zones := wire |}).

Definition publish (requestID zoneID : string) : M unit := BumpSerial zoneID ;! reconcile requestID.

(** What the tables hold, as [reconcile] hands it over. *)
Definition held (d : Database) : NamedConf.Desired := {|
  d_Settings := wire_settings (get_settings serverID d);
  d_Zones := (fun x => wire_zone (snd x) (snd <$> list_records (fst x) d)) <$> list_zones serverID d |}.

(** ** Helpers *)
Fixpoint first_filled (l : list string) : string :=
  match l with [] => "" | x :: more => if negb (trim_space x =? "") then trim_space x else first_filled more end.
Definition firstNonEmpty (first : string) (rest : list string) : string := first_filled (first :: rest).

Definition requireDNSSEC (requestID : string) : M unit :=
  let! supported := Do requestID OperationDNSStatus (fun n => (signs n, n)) in
  if supported : bool then ret tt else fail ErrDNSSECUnsupported.

Definition address_type (a : string) : string := if str_contains ":" a then RecordAAAA else RecordA.
Definition plain_record (zone name type value : string) (managed : bool) : RecordParams := {|
  rp_ZoneID := zone; rp_Name := name; rp_Type := type; rp_TTL := 0; rp_Value := value; rp_Priority := 0;
  rp_Weight := 0; rp_Port := 0; rp_Flags := 0; rp_Tag := ""; rp_Managed := managed |}.

(** [m], an error of which is no error when it is [e]. *)
Definition unless {A} (e : panel_err) (m : M A) : M unit :=
  let! r := attempt m in
  match r with
  | Ok _ => ret tt
  | Err e' => if bool_decide (e' = e) then ret tt else fail e'
  end.

(** ** New zones *)
Record CreateZoneRequest := {
  cq_Name : string; cq_Kind : string; cq_WebsiteID : string; cq_ReverseNetwork : string; cq_PrimaryNS : string;
  cq_Hostmaster : string; cq_Nameservers : list string; cq_DNSSEC : bool; cq_AllowTransfer : list string;
  cq_AlsoNotify : list string; cq_Masters : list string; cq_SeedRecords : bool }.

(** The labels of the zone's name servers that are inside it. *)
Fixpoint inside (zone : string) (servers seen : list string) : list string :=
  match servers with
  | [] => seen
  | s :: more =>
      let name := NormalizeDomain s in
      inside zone more
        (if has_suffix ("." ++ zone) name then
           let label := trim_suffix ("." ++ zone) name in
           if negb (label =? "") && negb (bool_decide (label ∈ seen)) then (seen ++ [label])%list else seen
         else seen)
  end.

Fixpoint write_glue (zone type addr : string) (labels : list string) : M unit :=
  match labels with
  | [] => ret tt
  | label :: more =>
      unless ErrDuplicateRecord (CreateRecordRow (plain_record zone label type addr false)) ;!
      write_glue zone type addr more
  end.

Definition seedGlue (id : string) (z : DnsTables.Zone) : M unit :=
  let labels := inside (zn_Name z) (zn_PrimaryNS z :: zn_Nameservers z) [] in
  if bool_decide (labels = []) then ret tt
  else
    let! addr := address in
    if addr =? "" then fail ErrNoNameservers
    else write_glue id (address_type addr) addr labels.

Fixpoint write_template (id zone addr : string) (rs : list TemplateRecord) : M unit :=
  match rs with
  | [] => ret tt
  | r :: more =>
      (if (addr =? "") && str_contains PlaceholderIP (t_Value r) then ret tt
       else
         let r' := Render r zone addr in
         let! _ := CreateRecordRow {|
           rp_ZoneID := id; rp_Name := t_Name r'; rp_Type := t_Type r'; rp_TTL := t_TTL r';
           rp_Value := t_Value r'; rp_Priority := t_Priority r'; rp_Weight := t_Weight r';
           rp_Port := t_Port r'; rp_Flags := 0; rp_Tag := ""; rp_Managed := false |} in
         ret tt) ;!
      write_template id zone addr more
  end.

Definition seedRecords (id : string) (z : DnsTables.Zone) : M unit :=
  let! addr := address in
  let! t := attempt DefaultTemplate in
  match t with
  | Err ErrTemplateNotFound => ret tt
  | Err e => fail e
  | Ok t => write_template id (zn_Name z) addr (tm_Records t)
  end.

Definition finishZone (requestID id : string) (z : DnsTables.Zone) (req : CreateZoneRequest) : M unit :=
  (if (zn_Kind z =? ZoneMaster) && (cq_ReverseNetwork req =? "") then
     seedGlue id z ;! if cq_SeedRecords req then seedRecords id z else ret tt
   else ret tt) ;!
  reconcile requestID.

(** The part of [CreateZone] that looks at the request and the settings. *)
Definition new_zone (s : DnsTables.Settings) (req : CreateZoneRequest) : result panel_err CreateZoneParams :=
  let lift {A} (r : result dns_rule_err A) : result panel_err A :=
    match r with Ok a => Ok a | Err e => Err (ErrRule e) end in
  let kind := if cq_Kind req =? "" then ZoneMaster else cq_Kind req in
  lift (ZoneKind kind) ;?
  let? name := lift (if cq_ReverseNetwork req =? "" then Ok (NormalizeDomain (cq_Name req))
                     else ReverseZone (cq_ReverseNetwork req)) in
  lift (ZoneName name) ;?
  let ttl := if (st_DefaultTTL s =? 0)%Z then DefaultTTL else st_DefaultTTL s in
  let params primary mailbox servers := {|
    zp_ServerID := serverID; zp_WebsiteID := cq_WebsiteID req; zp_Name := name; zp_Kind := kind;
    zp_ReverseNetwork := cq_ReverseNetwork req; zp_PrimaryNS := primary; zp_Hostmaster := mailbox;
    zp_Refresh := 3600; zp_Retry := 900; zp_Expire := 1209600; zp_Minimum := 3600; zp_TTL := ttl;
    zp_Nameservers := servers; zp_DNSSEC := cq_DNSSEC req; zp_AllowTransfer := cq_AllowTransfer req;
    zp_AlsoNotify := cq_AlsoNotify req; zp_Masters := cq_Masters req |} in
  let? p := (
    if kind =? ZoneMaster then
      let servers := if bool_decide (cq_Nameservers req = []) then st_DefaultNS s else cq_Nameservers req in
      match servers with
      | [] => Err ErrNoNameservers
      | first :: _ =>
          let primary := firstNonEmpty (cq_PrimaryNS req) (st_DefaultNS s) in
          let primary := if primary =? "" then first else primary in
          let mailbox := firstNonEmpty (cq_Hostmaster req) [st_Hostmaster s] in
          let mailbox := if mailbox =? "" then "hostmaster@" ++ name else mailbox in
          lift (Hostmaster mailbox) ;?
          lift (all_ok Hostname (primary :: servers)) ;?
          Ok (params primary mailbox servers)
      end
    else guard (bool_decide (cq_Masters req = [])) ErrNoMasters ;? Ok (params "" "" (cq_Nameservers req))) in
  lift (all_ok checkMatchList [cq_AllowTransfer req; cq_AlsoNotify req; cq_Masters req]) ;?
  Ok p.

Definition ActionZoneCreate : string := "dns.zone.create".
Definition ActionZoneUpdate : string := "dns.zone.update".
Definition ActionZoneDelete : string := "dns.zone.delete".
Definition ActionRecordCreate : string := "dns.record.create".
Definition ActionRecordUpdate : string := "dns.record.update".
Definition ActionRecordDelete : string := "dns.record.delete".
Definition ActionConfigure : string := "dns.configure".
Definition ActionRepair : string := "dns.repair".
Definition ActionSync : string := "dns.sync".
Definition ActionImport : string := "dns.import".
Definition ActionCertificateAlign : string := "dns.certificate.align".

(** [LookupForDNS]. *)
Definition find_website (id : string) (d : Database) : result panel_err string :=
  if bool_decide (id ∈ websites d) then Ok id else Err ErrNoWebsite.
Definition lookup_website (id : string) : M string := query (fun w => find_website id (db w)).

Definition CreateZone (requestID : string) (req : CreateZoneRequest) : M (string * DnsTables.Zone) :=
  let! s := ReadSettings in
  let! params := answer (new_zone s req) in
  (if cq_DNSSEC req then requireDNSSEC requestID else ret tt) ;!
  (if cq_WebsiteID req =? "" then ret tt else let! _ := lookup_website (cq_WebsiteID req) in ret tt) ;!
  let! (id, z) := (let! id := insert (fun id now => insert_zone id params now) in
                   let! z := get (fun w => zones (db w) !! id) in
                   match z with Some z => ret (id, z) | None => fail ErrBackend end) in
  let! r := attempt (finishZone requestID id z req) in
  match r with
  | Err e => logged (DeleteZoneRow id) ;! fail e
  | Ok _ =>
      record ActionZoneCreate id ;!
      let! z := GetZone id in ret (id, z)
  end.

(** ** Changes of a zone *)
Definition given (check : string -> result dns_rule_err unit) (v : option string) : M unit :=
  match v with None => ret tt | Some x => rule (check x) end.
Definition given_list (v : option (list string)) : M unit :=
  match v with None => ret tt | Some l => rules MatchAddress l end.

Definition UpdateZone (requestID id : string) (req : UpdateZoneParams) : M DnsTables.Zone :=
  let! existing := GetZone id in
  given Hostmaster (zu_Hostmaster req) ;!
  given Hostname (zu_PrimaryNS req) ;!
  match zu_Nameservers req with
  | None => ret tt
  | Some l => if bool_decide (l = []) && (zn_Kind existing =? ZoneMaster) then fail ErrNoNameservers
              else rules Hostname l
  end ;!
  given_list (zu_AllowTransfer req) ;!
  given_list (zu_AlsoNotify req) ;!
  given_list (zu_Masters req) ;!
  (if bool_decide (zu_DNSSEC req = Some true) && negb (zn_DNSSEC existing) then requireDNSSEC requestID else ret tt) ;!
  let! z := exec (fun now => update_zone id req now) in
  reconcile requestID ;!
  record ActionZoneUpdate id ;!
  ret z.

Definition DeleteZone (requestID id : string) : M unit :=
  let! _ := GetZone id in
  DeleteZoneRow id ;!
  reconcile requestID ;!
  record ActionZoneDelete id.

(** ** Records *)
Record RecordRequest := {
  rq_Name : string; rq_Type : string; rq_TTL : Z; rq_Value : string; rq_Priority : Z; rq_Weight : Z;
  rq_Port : Z; rq_Flags : Z; rq_Tag : string }.

(** The loop of [checkCNAME] over a zone's records. *)
Definition cname_clash (name type exclude : string) (rs : list (string * DnsRecord)) : bool :=
  existsb (fun x => negb ((fst x =? exclude) || negb (rr_Name (snd x) =? name)) &&
                    ((type =? RecordCNAME) || (rr_Type (snd x) =? RecordCNAME))) rs.

Definition checkCNAME (zone name type exclude : string) : M unit :=
  if (name =? "@") && (type =? RecordCNAME) then fail ErrCNAMEConflict
  else
    let! rs := ListRecords zone in
    if cname_clash name type exclude rs then fail ErrCNAMEConflict else ret tt.

(** The owner of a PTR given as the address it is for. *)
Definition owner_name (z : DnsTables.Zone) (req : RecordRequest) : string :=
  let name := NormalizeRecordName (rq_Name req) (zn_Name z) in
  match zn_ReverseNetwork z with
  | Some network =>
      if rq_Type req =? RecordPTR then
        match ReversePointerName (rq_Name req) network with Ok derived => derived | Err _ => name end
      else name
  | None => name
  end.

Definition checkRecord (id : string) (z : DnsTables.Zone) (req : RecordRequest) (exclude : string) : M RecordParams :=
  if zn_Kind z =? ZoneSlave then fail ErrSlaveRecords
  else
    rule (RecordType (rq_Type req)) ;!
    rule (RecordName (NormalizeRecordName (rq_Name req) (zn_Name z))) ;!
    rule (TTL (rq_TTL req)) ;!
    let value := trim_space (rq_Value req) in
    let name := owner_name z req in
    rule (RecordOf {| v_Type := rq_Type req; v_Value := value; v_Priority := rq_Priority req;
                      v_Weight := rq_Weight req; v_Port := rq_Port req; v_Flags := rq_Flags req;
                      v_Tag := rq_Tag req |}) ;!
    checkCNAME id name (rq_Type req) exclude ;!
    ret {| rp_ZoneID := id; rp_Name := name; rp_Type := rq_Type req; rp_TTL := rq_TTL req; rp_Value := value;
           rp_Priority := rq_Priority req; rp_Weight := rq_Weight req; rp_Port := rq_Port req;
           rp_Flags := rq_Flags req; rp_Tag := rq_Tag req; rp_Managed := false |}.

Definition CreateRecord (requestID zoneID : string) (req : RecordRequest) : M string :=
  let! z := GetZone zoneID in
  let! params := checkRecord zoneID z req "" in
  let! id := CreateRecordRow params in
  let! r := attempt (publish requestID zoneID) in
  match r with
  | Err e => logged (DeleteRecordRow id) ;! fail e
  | Ok _ => record ActionRecordCreate id ;! ret id
  end.

Definition as_params (r : DnsRecord) : RecordParams := {|
  rp_ZoneID := rr_ZoneID r; rp_Name := rr_Name r; rp_Type := rr_Type r; rp_TTL := rr_TTL r;
  rp_Value := rr_Value r; rp_Priority := rr_Priority r; rp_Weight := rr_Weight r; rp_Port := rr_Port r;
  rp_Flags := rr_Flags r; rp_Tag := rr_Tag r; rp_Managed := false |}.

Definition UpdateRecord (requestID id : string) (req : RecordRequest) : M DnsRecord :=
  let! existing := GetRecord id in
  if rr_Managed existing then fail ErrManagedRecord
  else
    let! z := GetZone (rr_ZoneID existing) in
    let! params := checkRecord (rr_ZoneID existing) z req id in
    let! row := UpdateRecordRow id params in
    let! r := attempt (publish requestID (rr_ZoneID existing)) in
    match r with
    | Err e => logged (UpdateRecordRow id (as_params existing)) ;! fail e
    | Ok _ => record ActionRecordUpdate id ;! ret row
    end.

Definition DeleteRecord (requestID id : string) : M unit :=
  let! existing := GetRecord id in
  if rr_Managed existing then fail ErrManagedRecord
  else
    let! _ := GetZone (rr_ZoneID existing) in
    DeleteRecordRow id ;!
    publish requestID (rr_ZoneID existing) ;!
    record ActionRecordDelete id.

(** ** The name server as a whole *)
Definition Configure (requestID : string) (s : DnsTables.Settings) : M DnsTables.Settings :=
  let s := {|
    st_ListenOn := st_ListenOn s; st_AllowTransfer := st_AllowTransfer s;
    st_DNSSECPolicy := if st_DNSSECPolicy s =? "" then "default" else st_DNSSECPolicy s;
    st_DefaultNS := st_DefaultNS s;
    st_DefaultTTL := if (st_DefaultTTL s =? 0)%Z then DefaultTTL else st_DefaultTTL s;
    st_Hostmaster := st_Hostmaster s |} in
  (if st_Hostmaster s =? "" then ret tt else rule (Hostmaster (st_Hostmaster s))) ;!
  rules Hostname (st_DefaultNS s) ;!
  rules MatchAddress (st_ListenOn s) ;!
  rules MatchAddress (st_AllowTransfer s) ;!
  let! saved := exec (fun _ => save_settings serverID s) in
  reconcile requestID ;!
  record ActionConfigure serverID ;!
  ret saved.

Definition Repair (requestID : string) : M unit := reconcile requestID ;! record ActionRepair serverID.

Definition ForWebsite (websiteID : string) : M (list (string * DnsTables.Zone)) :=
  let! zs := ListZones in
  ret (List.filter (fun x => default "" (zn_WebsiteID (snd x)) =? websiteID) zs).

(** ** Records the panel maintains *)
Record ManagedRecord := { mr_Type : string; mr_Value : string; mr_Priority : Z; mr_TTL : Z }.

Definition ZoneIDFor (domain : string) : M (option string) :=
  let! r := attempt (ZoneByName (NormalizeDomain domain)) in
  match r with
  | Ok (id, _) => ret (Some id)
  | Err ErrZoneNotFound => ret None
  | Err e => fail e
  end.

Fixpoint write_managed (zone name : string) (rs : list ManagedRecord) : M unit :=
  match rs with
  | [] => ret tt
  | r :: more =>
      rule (RecordType (mr_Type r)) ;!
      unless ErrDuplicateRecord (CreateRecordRow {|
        rp_ZoneID := zone; rp_Name := name; rp_Type := mr_Type r; rp_TTL := mr_TTL r; rp_Value := mr_Value r;
        rp_Priority := mr_Priority r; rp_Weight := 0; rp_Port := 0; rp_Flags := 0; rp_Tag := "";
        rp_Managed := true |}) ;!
      write_managed zone name more
  end.

Definition SetManagedRecords (requestID zone name : string) (rs : list ManagedRecord) : M unit :=
  if zone =? "" then fail ErrNoZone
  else
    let! _ := DeleteManagedRecords zone name in
    write_managed zone name rs ;!
    publish requestID zone.

Definition PublishedValues (zone name type : string) : M (list string) :=
  let! rs := ListRecords zone in
  ret (rr_Value <$> List.filter (fun r => (rr_Name r =? name) && (rr_Type r =? type)) (snd <$> rs)).

(** ** Subdomains *)
Definition EnsureSubdomainRecords (requestID parent name addr : string) : M unit :=
  let! r := attempt (ZoneByName (NormalizeDomain parent)) in
  match r with
  | Err ErrZoneNotFound => ret tt
  | Err e => fail e
  | Ok (id, z) =>
      if zn_Kind z =? ZoneSlave then ret tt
      else
        let label := NormalizeRecordName name (zn_Name z) in
        if label =? "@" then ret tt
        else
          let! addr := if addr =? "" then address else ret addr in
          if addr =? "" then ret tt
          else
            let! _ := DeleteManagedRecords id label in
            let! c := attempt (CreateRecordRow (plain_record id label (address_type addr) addr true)) in
            match c with
            | Err ErrDuplicateRecord => ret tt
            | Err e => fail e
            | Ok _ => publish requestID id
            end
  end.

Definition RemoveSubdomainRecords (requestID parent name : string) : M unit :=
  let! r := attempt (ZoneByName (NormalizeDomain parent)) in
  match r with
  | Err ErrZoneNotFound => ret tt
  | Err e => fail e
  | Ok (id, z) =>
      let! removed := DeleteManagedRecords id (NormalizeRecordName name (zn_Name z)) in
      if (removed =? 0)%nat then ret tt else publish requestID id
  end.

(** The calls of [websites/subdomain.go]: errors are logged. *)
Definition publishSubdomainDNS (parent domain : string) : M unit :=
  logged (EnsureSubdomainRecords "" parent domain "").
Definition withdrawSubdomainDNS (parent domain : string) : M unit :=
  logged (RemoveSubdomainRecords "" parent domain).

(** ** Names of a certificate *)
Inductive align_status := AlignReady | AlignAdded | AlignElsewhere | AlignAliased | AlignNotServed | AlignNoAddress.
#[global] Instance align_status_eq_dec : EqDecision align_status.
Proof. solve_decision. Defined.

Record NameOutcome := { o_Name : string; o_Status : align_status; o_Zone : string }.
Definition Blocking (o : NameOutcome) : bool := bool_decide (o_Status o ∈ [AlignElsewhere; AlignNoAddress]).
Record Alignment := { al_Address : string; al_Names : list NameOutcome; al_Added : nat; al_Blocked : nat }.

(** A zone's label for a name, if the name is in it. *)
Definition label_in (z : DnsTables.Zone) (name : string) : option string :=
  if negb (zn_Kind z =? ZoneMaster) || bool_decide (is_Some (zn_ReverseNetwork z)) then None
  else
    let zone := NormalizeDomain (zn_Name z) in
    if name =? zone then Some "@" else trim_suffix_opt ("." ++ zone) name.

Fixpoint zoneFor_go (zs : list (string * DnsTables.Zone)) (name : string)
    (best : option (string * DnsTables.Zone * string)) : option (string * DnsTables.Zone * string) :=
  match zs with
  | [] => best
  | (id, z) :: more =>
      zoneFor_go more name
        match label_in z name with
        | None => best
        | Some label =>
            let longer := match best with
                          | None => true
                          | Some (_, b, _) => (String.length (NormalizeDomain (zn_Name b)) <?
                                               String.length (NormalizeDomain (zn_Name z)))%nat
                          end in
            if longer then Some (id, z, label) else best
        end
  end.
Definition zoneFor (zs : list (string * DnsTables.Zone)) (name : string) := zoneFor_go zs name None.

(** The first record at the label that settles the matter. *)
Fixpoint settled_by (addr label : string) (rs : list DnsRecord) : option align_status :=
  match rs with
  | [] => None
  | r :: more =>
      if negb (equal_fold (rr_Name r) label) then settled_by addr label more
      else if rr_Type r =? RecordCNAME then Some AlignAliased
      else if one_of [RecordA; RecordAAAA] (rr_Type r) then
        Some (if negb (addr =? "") && (rr_Value r =? addr) then AlignReady else AlignElsewhere)
      else settled_by addr label more
  end.

Definition alignName (addr : string) (zs : list (string * DnsTables.Zone)) (name : string)
  : M (NameOutcome * option string) :=
  let outcome status zone := {| o_Name := name; o_Status := status; o_Zone := zone |} in
  match zoneFor zs name with
  | None => ret (outcome AlignNotServed "", None)
  | Some (id, z, label) =>
      let! rs := attempt (ListRecords id) in
      match rs with
      | Err _ => ret (outcome AlignNotServed (zn_Name z), None)
      | Ok rs =>
          match settled_by addr label (snd <$> rs) with
          | Some status => ret (outcome status (zn_Name z), None)
          | None =>
              if addr =? "" then ret (outcome AlignNoAddress (zn_Name z), None)
              else
                let! c := attempt (unless ErrDuplicateRecord
                                     (CreateRecordRow (plain_record id label (address_type addr) addr false))) in
                match c with
                | Ok _ => ret (outcome AlignAdded (zn_Name z), Some id)
                | Err _ => ret (outcome AlignNoAddress (zn_Name z), None)
                end
          end
      end
  end.

Fixpoint align_names (addr : string) (zs : list (string * DnsTables.Zone)) (names : list string)
  : M (list NameOutcome * list string) :=
  match names with
  | [] => ret ([], [])
  | raw :: more =>
      let name := NormalizeDomain raw in
      if name =? "" then align_names addr zs more
      else
        let! (o, changed) := alignName addr zs name in
        let! (os, touched) := align_names addr zs more in
        ret (o :: os, (option_list changed ++ touched)%list)
  end.

(** The touched zones, each once; [shuffle] is the order of a map's range. *)
Fixpoint publish_all (requestID : string) (ids : list string) : M unit :=
  match ids with [] => ret tt | id :: more => publish requestID id ;! publish_all requestID more end.

Definition AlignForCertificate (shuffle : list string -> list string) (requestID : string) (names : list string)
  : M Alignment :=
  let! addr := address in
  let! zs := ListZones in
  let! (os, touched) := align_names addr zs names in
  (if bool_decide (touched = []) then ret tt
   else publish_all requestID (shuffle (remove_dups touched)) ;! record ActionCertificateAlign "") ;!
  ret {| al_Address := addr; al_Names := os; al_Added := length touched;
         al_Blocked := length (List.filter Blocking os) |}.
End service.
