(* ===== verification/DnsPublish.v ===== *)
(** * What is published ([api/internal/dns/service.go])

    A request that answers without error has handed the name server what the tables hold; one
    that fails leaves them as they were; and serials move with every record that is published. *)

From stdpp Require Import gmap.
From S2P Require Import Prelude Store GoStr GoSort TenancyRules Netip DnsRules ZoneFile NamedConf DnsTemplates Protocol DnsTables DnsService DnsChange.

#[local] Open Scope string_scope.
#[local] Open Scope store_scope.
#[local] Arguments Nat.ltb : simpl never.

(** ** Rules for programs over the tables

    [leads calm m Q F d]: run where the tables are [d], [m] answers with what [Q] holds of or
    fails with what [F] holds of; [calm] says that no call fails of its own. *)
Section leads.
Context `{Postgres} {N : Type} `{NameServer N}.
Local Abbreviation M := (Store.M (World N) panel_err).

Definition still (calm : bool) (w : World N) : Prop := calm = true -> faults w = [].

Definition leads (calm : bool) {A} (m : M A) (Q : A -> Database -> Prop) (F : panel_err -> Database -> Prop)
  (d : Database) : Prop :=
  forall w, db w = d -> still calm w ->
  match m w with (Ok a, w') => Q a (db w') /\ still calm w' | (Err e, w') => F e (db w') /\ still calm w' end.

Context (calm : bool).
Implicit Types (F : panel_err -> Database -> Prop) (d : Database).

Lemma leads_ret {A} (a : A) (Q : A -> Database -> Prop) F d : Q a d -> leads calm (ret a) Q F d.
Proof. by intros Hq w <- Hs. Qed.
Lemma leads_fail {A} e (Q : A -> Database -> Prop) F d : F e d -> leads calm (fail e) Q F d.
Proof. by intros Hq w <- Hs. Qed.
Lemma leads_bind {A B} (m : M A) (k : A -> M B) (Q : B -> Database -> Prop) F d :
  leads calm m (fun a d' => leads calm (k a) Q F d') F d -> leads calm (bind m k) Q F d.
Proof.
  intros Hm w Hw Hs. specialize (Hm w Hw Hs). unfold bind. destruct (m w) as [[a|e] w']; [|done].
  destruct Hm as [Hk Hs']. by apply Hk.
Qed.
Lemma leads_attempt {A} (m : M A) (Q : result panel_err A -> Database -> Prop) F d :
  leads calm m (fun a => Q (Ok a)) (fun e => Q (Err e)) d -> leads calm (attempt m) Q F d.
Proof. intros Hm w Hw Hs. specialize (Hm w Hw Hs). unfold attempt. by destruct (m w) as [[a|e] w']. Qed.
Lemma leads_weaken {A} (m : M A) (Q Q' : A -> Database -> Prop) (F F' : panel_err -> Database -> Prop) d :
  leads calm m Q F d -> (forall a d', Q a d' -> Q' a d') -> (forall e d', F e d' -> F' e d') -> leads calm m Q' F' d.
Proof.
  intros Hm HQ HF w Hw Hs. specialize (Hm w Hw Hs). destruct (m w) as [[a|e] w']; destruct Hm; split; auto.
Qed.
Lemma leads_rule {A} (r : result dns_rule_err A) (Q : A -> Database -> Prop) F d :
  (forall a, r = Ok a -> Q a d) -> (forall e, F (ErrRule e) d) -> leads calm (rule r) Q F d.
Proof. intros HQ HF w <- Hs. unfold rule, answer. destruct r as [a|e]; split; auto. Qed.
Lemma leads_answer {A} (r : result panel_err A) (Q : A -> Database -> Prop) F d :
  match r with Ok a => Q a d | Err e => F e d end -> leads calm (answer r) Q F d.
Proof. intros HQ w <- Hs. unfold answer. by destruct r. Qed.
Lemma leads_query {A} (f : Database -> result panel_err A) (Q : A -> Database -> Prop) F d :
  match f d with Ok a => Q a d | Err e => F e d end -> (calm = false -> F ErrBackend d) ->
  leads calm (Store.query ErrBackend (fun w => f (db w))) Q F d.
Proof.
  intros HQ HF w <- Hs. unfold query, call. cbn [faults_of World_faulty].
  assert (Hb : faults w <> [] -> calm = false).
  { intros Hf. destruct calm; [|done]. by rewrite Hs in Hf. }
  destruct (faults w) as [|[] fs] eqn:Ef; cbn [db with_faults World_faulty].
  - by destruct (f (db w)).
  - assert (Hc : calm = false) by by apply Hb. destruct (f (db w)); split; try done; intros Hc'; congruence.
  - assert (Hc : calm = false) by by apply Hb. split; [by apply HF|]. intros Hc'; congruence.
  - assert (Hc : calm = false) by by apply Hb. split; [by apply HF|]. intros Hc'; congruence.
Qed.
Lemma leads_exec {A} (s : Z -> statement A) (Q : A -> Database -> Prop) F d :
  (forall now, match s now d with
               | Ok (a, d') => Q a d' /\ (calm = false -> F ErrBackend d')
               | Err e => F e d
               end) -> (calm = false -> F ErrBackend d) -> leads calm (exec s) Q F d.
Proof.
  intros HQ HF w <- Hs. unfold exec, call. cbn [faults_of World_faulty]. specialize (HQ (hd 0%Z (clock w))).
  assert (Hb : faults w <> [] -> calm = false).
  { intros Hf. destruct calm; [|done]. by rewrite Hs in Hf. }
  destruct (faults w) as [|[] fs] eqn:Ef; cbn [db clock uuids addresses with_faults World_faulty].
  - destruct (s _ (db w)) as [[a d']|e]; cbn; [|done]. by destruct HQ.
  - assert (Hc : calm = false) by by apply Hb.
    destruct (s _ (db w)) as [[a d']|e]; cbn; split; try done; try (by destruct HQ); intros Hc'; congruence.
  - assert (Hc : calm = false) by by apply Hb. split; [by apply HF|]. intros Hc'; congruence.
  - assert (Hc : calm = false) by by apply Hb.
    destruct (s _ (db w)) as [[a d']|e]; cbn; (split; [|intros Hc'; congruence]); [by apply HQ|by apply HF].
Qed.
Lemma leads_insert (s : string -> Z -> statement unit) (Q : string -> Database -> Prop) F d :
  (forall id now, match s id now d with
                  | Ok (_, d') => Q id d' /\ (calm = false -> F ErrBackend d')
                  | Err e => F e d
                  end) -> F ErrBackend d -> leads calm (insert s) Q F d.
Proof.
  intros HQ HF w <- Hs. unfold insert, call. cbn [faults_of World_faulty].
  assert (Hb : faults w <> [] -> calm = false).
  { intros Hf. destruct calm; [|done]. by rewrite Hs in Hf. }
  destruct (faults w) as [|[] fs] eqn:Ef; cbn [db clock uuids addresses with_faults World_faulty].
  - destruct (uuids w) as [|id us]; [done|]. specialize (HQ id (hd 0%Z (clock w))).
    destruct (s _ _ (db w)) as [[[] d']|e]; cbn; [|done]. by destruct HQ.
  - assert (Hc : calm = false) by by apply Hb. destruct (uuids w) as [|id us]; [split; [done|intros Hc'; congruence]|].
    specialize (HQ id (hd 0%Z (clock w))).
    destruct (s _ _ (db w)) as [[[] d']|e]; cbn; split; try done; try (by destruct HQ); intros Hc'; congruence.
  - assert (Hc : calm = false) by by apply Hb. split; [done|]. intros Hc'; congruence.
  - assert (Hc : calm = false) by by apply Hb. destruct (uuids w) as [|id us]; [split; [done|intros Hc'; congruence]|].
    specialize (HQ id (hd 0%Z (clock w))).
    destruct (s _ _ (db w)) as [[[] d']|e]; cbn; (split; [|intros Hc'; congruence]); [by apply HQ|done].
Qed.
Lemma leads_record action resource (Q : unit -> Database -> Prop) F d :
  Q tt d -> leads calm (record action resource) Q F d.
Proof. by intros HQ w <- Hs. Qed.
Lemma leads_get {A} (f : Database -> A) (Q : A -> Database -> Prop) F d :
  Q (f d) d -> leads calm (get (fun w : World N => f (db w))) Q F d.
Proof. by intros HQ w <- Hs. Qed.
Lemma leads_address (Q : string -> Database -> Prop) F d : (forall a, Q a d) -> leads calm address Q F d.
Proof. by intros HQ w <- Hs. Qed.
Lemma leads_Do {A} requestID op (f : N -> result string A * N) (Q : A -> Database -> Prop) F d :
  (forall a, Q a d) -> (forall e, F e d) -> leads calm (Do requestID op f) Q F d.
Proof.
  intros HQ HF w <- Hs. unfold Do. destruct (Validate _) as [[]|e0]; [|by split].
  unfold call. cbn [faults_of World_faulty].
  assert (Hb : faults w <> [] -> calm = false).
  { intros Hf. destruct calm; [|done]. by rewrite Hs in Hf. }
  destruct (faults w) as [|[] fs] eqn:Ef; cbn [server with_faults World_faulty];
    [|assert (Hc : calm = false) by by apply Hb..].
  - by destruct (f (server w)) as [[a|e] n].
  - destruct (f (server w)) as [[a|e] n]; (split; [auto|intros Hc'; congruence]).
  - split; [auto|intros Hc'; congruence].
  - destruct (f (server w)) as [[a|e] n]; (split; [auto|intros Hc'; congruence]).
Qed.
Lemma leads_logged {A} (m : M A) (Q : unit -> Database -> Prop) F d :
  leads calm m (fun _ => Q tt) (fun _ => Q tt) d -> leads calm (logged m) Q F d.
Proof.
  intros Hm. unfold logged. apply leads_bind, leads_attempt. eapply leads_weaken; [exact Hm|..];
    intros; cbn; by apply leads_ret.
Qed.
Lemma leads_unless {A} e (m : M A) (Q : unit -> Database -> Prop) F d :
  leads calm m (fun _ => Q tt) (fun e' d' => if bool_decide (e' = e) then Q tt d' else F e' d') d ->
  leads calm (unless e m) Q F d.
Proof.
  intros Hm. unfold unless. apply leads_bind, leads_attempt. eapply leads_weaken; [exact Hm|..].
  - intros; by apply leads_ret.
  - intros e' d'. cbn. destruct (bool_decide (e' = e)); intros He; [by apply leads_ret|by apply leads_fail].
Qed.
Lemma leads_rules {A} (check : A -> result dns_rule_err unit) l (Q : unit -> Database -> Prop) F d :
  (Forall (fun x => check x = Ok tt) l -> Q tt d) -> (forall e, F (ErrRule e) d) -> leads calm (rules check l) Q F d.
Proof.
  intros HQ HF. revert HQ. induction l as [|x l IH]; intros HQ; cbn [rules]; [by apply leads_ret, HQ|].
  apply leads_bind, leads_rule; [|done]. intros [] Hx. apply IH. intros Hl. apply HQ. by constructor.
Qed.
Lemma leads_ok {A} (m : M A) (Q : A -> Database -> Prop) F w a w' :
  leads calm m Q F (db w) -> still calm w -> m w = (Ok a, w') -> Q a (db w').
Proof. intros Hm Hs E. specialize (Hm w eq_refl Hs). rewrite E in Hm. apply Hm. Qed.
Lemma leads_err {A} (m : M A) (Q : A -> Database -> Prop) F w e w' :
  leads calm m Q F (db w) -> still calm w -> m w = (Err e, w') -> F e (db w').
Proof. intros Hm Hs E. specialize (Hm w eq_refl Hs). rewrite E in Hm. apply Hm. Qed.
Lemma leads_sound {A} (m : M A) (I : Database -> Prop) w :
  leads calm m (fun _ => I) (fun _ => I) (db w) -> still calm w -> I (db (snd (m w))).
Proof. intros Hm Hs. specialize (Hm w eq_refl Hs). destruct (m w) as [[a|e] w']; apply Hm. Qed.
End leads.

(** ** The requests on records *)
Definition bumped_in (d : Database) (zone : string) (z : DnsTables.Zone) (now : Z) : Database :=
  with_zones (<[zone := bumped now z]> (zones d)) d.

Section specs.
Context `{Postgres} {N : Type} `{NameServer N} (serverID : string) (calm : bool).
Local Abbreviation M := (Store.M (World N) panel_err).
Local Abbreviation leads := (leads calm).
Implicit Types (F : panel_err -> Database -> Prop) (d : Database).

Lemma leads_wire_zones zs (Q : list ZoneFile.Zone -> Database -> Prop) F d :
  (forall l, Q l d) -> (calm = false -> F ErrBackend d) -> leads (wire_zones zs : M _) Q F d.
Proof.
  intros HQ HF. revert Q HQ. induction zs as [|[id z] zs IH]; intros Q HQ; cbn [wire_zones]; [by apply leads_ret|].
  apply leads_bind, (leads_query calm (fun d => Ok (list_records id d))); [|done].
  apply leads_bind, IH. intros l. by apply leads_ret.
Qed.

Lemma leads_reconcile requestID (Q : unit -> Database -> Prop) F d :
  Q tt d -> (forall e, F e d) -> leads (reconcile serverID requestID : M unit) Q F d.
Proof.
  intros HQ HF. unfold reconcile. apply leads_bind, (leads_query calm (fun d => Ok (list_zones serverID d))); [|done].
  apply leads_bind, (leads_query calm (fun d => Ok (get_settings serverID d))); [|done].
  apply leads_bind, leads_wire_zones; [|done]. intros l. apply leads_Do; [by intros []|done].
Qed.

Lemma leads_publish requestID zone (Q : unit -> Database -> Prop) F d :
  (forall e, F e d) ->
  (forall z now, zones d !! zone = Some z -> Q tt (bumped_in d zone z now) /\ forall e, F e (bumped_in d zone z now)) ->
  leads (publish serverID requestID zone : M unit) Q F d.
Proof.
  intros HF Hb. unfold publish. apply leads_bind. unfold BumpSerial. apply leads_exec; [|done].
  intros now. unfold bump_serial. destruct (zones d !! zone) as [z|]; [|done].
  destruct (Hb z now eq_refl) as [HQ Hf]. split; [by apply leads_reconcile|by intros _].
Qed.

(** What [checkRecord] has found when it lets a record through. *)
Record checked (zone : string) (z : DnsTables.Zone) (req : RecordRequest) (exclude : string) (d : Database)
    (p : RecordParams) : Prop := {
  ck_kind : (zn_Kind z =? ZoneSlave) = false;
  ck_name : RecordName (NormalizeRecordName (rq_Name req) (zn_Name z)) = Ok tt;
  ck_ttl : TTL (rp_TTL p) = Ok tt;
  ck_value : RecordOf (value_of (wire_record (record_row p))) = Ok tt;
  ck_apex : (rp_Name p =? "@") && (rp_Type p =? RecordCNAME) = false;
  ck_alone : cname_clash (rp_Name p) (rp_Type p) exclude (list_records zone d) = false;
  ck_zone : rp_ZoneID p = zone;
  ck_managed : rp_Managed p = false;
  ck_owner : rp_Name p = owner_name z req;
  ck_type : rp_Type p = rq_Type req;
}.

Lemma leads_checkRecord zone z req exclude (Q : RecordParams -> Database -> Prop) F d :
  (forall e, F e d) -> (forall p, checked zone z req exclude d p -> Q p d) ->
  leads (checkRecord zone z req exclude : M _) Q F d.
Proof.
  intros HF HQ. unfold checkRecord. destruct (zn_Kind z =? ZoneSlave) eqn:Ek; [by apply leads_fail|].
  apply leads_bind, leads_rule; [|done]. intros [] _.
  apply leads_bind, leads_rule; [|done]. intros [] Hn.
  apply leads_bind, leads_rule; [|done]. intros [] Ht. cbv zeta.
  apply leads_bind, leads_rule; [|done]. intros [] Hv.
  apply leads_bind. unfold checkCNAME. destruct ((owner_name z req =? "@") && _) eqn:Ea; [by apply leads_fail|].
  apply leads_bind, (leads_query calm (fun d => Ok (list_records zone d))); [|done].
  destruct (cname_clash _ _ _ _) eqn:Ec; [by apply leads_fail|]. apply leads_ret, leads_ret, HQ. by constructor.
Qed.

Lemma leads_CreateRecord requestID zone req (Q : string -> Database -> Prop) F d :
  (forall e, F e d) ->
  (forall z now e, zones d !! zone = Some z -> F e (bumped_in d zone z now)) ->
  (forall z p id d1, zones d !! zone = Some z -> checked zone z req "" d p ->
     insert_record id p d = Ok (tt, d1) ->
     (forall now, Q id (bumped_in d1 zone z now)) /\
     (calm = false -> forall e, F e d1 /\ forall now, F e (bumped_in d1 zone z now))) ->
  leads (CreateRecord serverID requestID zone req : M string) Q F d.
Proof.
  intros Hf Hb Hi. unfold CreateRecord. apply leads_bind, (leads_query calm (get_zone zone)); [|done].
  unfold get_zone. destruct (zones d !! zone) as [z|] eqn:Ez; [|done].
  apply leads_bind, leads_checkRecord; [done|]. intros p Hp. apply leads_bind. unfold CreateRecordRow.
  apply leads_insert; [|done]. intros id now0. destruct (insert_record id p d) as [[[] d1]|e] eqn:Er; [|done].
  destruct (Hi z p id d1 eq_refl Hp Er) as [HQ HF]. split; [|intros Hc; by apply HF].
  apply insert_record_spec in Er as (_ & _ & Hid & _ & ->).
  apply leads_bind, leads_attempt, leads_publish.
  - intros e. apply leads_bind, leads_logged. unfold DeleteRecordRow. apply leads_exec.
    + intros now. unfold delete_record. cbn [records with_records]. rewrite lookup_insert_eq. split.
      * apply leads_fail. rewrite delete_insert_id by done. by destruct d.
      * intros Hc. apply leads_fail. rewrite delete_insert_id by done. by destruct d.
    + intros Hc. by apply leads_fail, HF.
  - intros z' now. cbn [zones with_records]. rewrite Ez. intros [= <-]. split.
    + apply leads_bind, leads_record, leads_ret, HQ.
    + intros e. apply leads_bind, leads_logged. unfold DeleteRecordRow. apply leads_exec.
      * intros now'. unfold delete_record. cbn [records with_records bumped_in with_zones]. rewrite lookup_insert_eq.
        assert (Hd : with_records (delete id (<[id := record_row p]> (records d)))
          (bumped_in (with_records (<[id := record_row p]> (records d)) d) zone z now) = bumped_in d zone z now).
        { rewrite delete_insert_id by done. by destruct d. }
        split; [|intros _]; apply leads_fail; rewrite Hd; by apply Hb.
      * intros Hc. by apply leads_fail, HF.
Qed.

Lemma holds_record_none but r d :
  (forall j s, but <> Some j -> records d !! j = Some s -> same_record r s = false) -> holds_record but r d = false.
Proof.
  intros Hn. unfold holds_record, has. apply not_true_iff_false. intros [[j s] [Hin Hs]]%existsb_exists.
  apply list_elem_of_In, elem_of_map_to_list in Hin. cbn in Hs. apply andb_true_iff in Hs as [Hj Hs].
  apply negb_true_iff, bool_decide_eq_false in Hj. by rewrite (Hn j s Hj Hin) in Hs.
Qed.

(** Writing back the row that was there. *)
Lemma update_record_back d id r p dd : tables_ok d -> records d !! id = Some r ->
  records dd = <[id := updated_record p r]> (records d) ->
  update_record id (as_params r) dd = Ok (r, with_records (records d) dd).
Proof.
  intros Hd Hr Hdd. unfold update_record. rewrite Hdd. rewrite lookup_insert_eq.
  assert (Heq : updated_record (as_params r) (updated_record p r) = r) by by destruct r. rewrite Heq.
  destruct (rows_record _ Hd id r Hr) as [Hc _]. rewrite Hc. cbn [negb]. rewrite holds_record_none.
  - by rewrite insert_insert_eq, insert_id.
  - intros j s Hj. rewrite Hdd, lookup_insert_ne by congruence. intros Hs.
    apply not_true_iff_false. intros Ht. apply Hj. f_equal. by eapply (records_once _ Hd id j).
Qed.

Lemma leads_UpdateRecord requestID id req (Q : DnsRecord -> Database -> Prop) F d :
  tables_ok d -> (forall e, F e d) ->
  (forall r z now e, records d !! id = Some r -> zones d !! rr_ZoneID r = Some z -> F e (bumped_in d (rr_ZoneID r) z now)) ->
  (forall r z p r' d1, records d !! id = Some r -> rr_Managed r = false -> zones d !! rr_ZoneID r = Some z ->
     checked (rr_ZoneID r) z req id d p -> update_record id p d = Ok (r', d1) ->
     (forall now, Q r' (bumped_in d1 (rr_ZoneID r) z now)) /\
     (calm = false -> forall e, F e d1 /\ forall now, F e (bumped_in d1 (rr_ZoneID r) z now))) ->
  leads (UpdateRecord serverID requestID id req : M _) Q F d.
Proof.
  intros Hd Hf Hb Hi. unfold UpdateRecord. apply leads_bind, (leads_query calm (get_record id)); [|done].
  unfold get_record. destruct (records d !! id) as [r|] eqn:Er; [|done].
  destruct (rr_Managed r) eqn:Em; [by apply leads_fail|].
  apply leads_bind, (leads_query calm (get_zone (rr_ZoneID r))); [|done].
  unfold get_zone. destruct (zones d !! rr_ZoneID r) as [z|] eqn:Ez; [|done].
  apply leads_bind, leads_checkRecord; [done|]. intros p Hp. apply leads_bind. unfold UpdateRecordRow.
  apply leads_exec; [|done]. intros _. destruct (update_record id p d) as [[r' d1]|e] eqn:Eu; [|done].
  destruct (Hi r z p r' d1 eq_refl Em Ez Hp Eu) as [HQ HF]. split; [|intros Hc; by apply HF].
  apply update_record_spec in Eu as (r0 & Hr0 & -> & _ & _ & ->). rewrite Er in Hr0. injection Hr0 as <-.
  assert (Hback := fun dd => update_record_back d id r p dd Hd Er).
  apply leads_bind, leads_attempt, leads_publish.
  - intros e. apply leads_bind, leads_logged. apply leads_exec; [|intros Hc; by apply leads_fail, HF].
    intros nw. rewrite Hback by done. split; [|intros Hc]; apply leads_fail; by destruct d.
  - intros z' now. cbn [zones with_records]. rewrite Ez. intros [= <-]. split; [apply leads_bind, leads_record, leads_ret, HQ|].
    intros e. apply leads_bind, leads_logged. apply leads_exec; [|intros Hc; by apply leads_fail, HF].
    intros nw. rewrite Hback by done. split; [|intros Hc]; apply leads_fail;
      apply (Hb r z now e eq_refl) in Ez; by destruct d.
Qed.

Lemma leads_DeleteRecord requestID id (Q : unit -> Database -> Prop) F d :
  (forall e, F e d) ->
  (forall r z d1, records d !! id = Some r -> rr_Managed r = false -> zones d !! rr_ZoneID r = Some z ->
     delete_record id d = Ok (tt, d1) ->
     (forall e, F e d1) /\ forall now, Q tt (bumped_in d1 (rr_ZoneID r) z now) /\
                                       forall e, F e (bumped_in d1 (rr_ZoneID r) z now)) ->
  leads (DeleteRecord serverID requestID id : M unit) Q F d.
Proof.
  intros Hf Hi. unfold DeleteRecord. apply leads_bind, (leads_query calm (get_record id)); [|done].
  unfold get_record. destruct (records d !! id) as [r|] eqn:Er; [|done].
  destruct (rr_Managed r) eqn:Em; [by apply leads_fail|].
  apply leads_bind, (leads_query calm (get_zone (rr_ZoneID r))); [|done].
  unfold get_zone. destruct (zones d !! rr_ZoneID r) as [z|] eqn:Ez; [|done].
  unfold DeleteRecordRow. apply leads_bind, leads_exec; [|done]. intros _.
  destruct (delete_record id d) as [[[] d1]|e] eqn:Ed; [|done].
  destruct (Hi r z d1 eq_refl Em Ez eq_refl) as [HF Hq]. split; [|by intros _].
  apply leads_bind, leads_publish; [done|]. intros z' now Hz'.
  assert (Hzz : zones d1 = zones d) by (unfold delete_record in Ed; rewrite Er in Ed; by injection Ed as <-).
  rewrite Hzz, Ez in Hz'. injection Hz' as <-. split; [apply leads_record|]; apply Hq.
Qed.
End specs.

(** ** New zones *)

(** The tables with one zone more, and records of that zone. *)
Record grown (d : Database) (id : string) (z : DnsTables.Zone) (dd : Database) : Prop := {
  gr_zones : zones dd = <[id := z]> (zones d);
  gr_records : filter (fun x => rr_ZoneID (snd x) <> id) (records dd) = records d;
  gr_rest : settings dd = settings d /\ templates dd = templates d /\ providers dd = providers d /\
            websites dd = websites d;
}.

Section zones.
Context `{Postgres} {N : Type} `{NameServer N} (serverID : string) (calm : bool).
Local Abbreviation M := (Store.M (World N) panel_err).
Local Abbreviation leads := (leads calm).
Implicit Types (F : panel_err -> Database -> Prop) (d : Database).

Lemma grown_insert d id z dd rid p dd' : rp_ZoneID p = id -> grown d id z dd ->
  insert_record rid p dd = Ok (tt, dd') -> grown d id z dd'.
Proof.
  intros Hp [Hz Hr Hrest] (_ & _ & Hnone & _ & ->)%insert_record_spec. split; [done| |done].
  cbn [records with_records]. rewrite <- Hr. apply map_filter_insert_not'; [cbn; tauto|].
  intros y Hy. by rewrite Hnone in Hy.
Qed.

Lemma grown_deleted d id z dd : zones d !! id = None -> grown d id z dd -> delete_zone id dd = Ok (tt, d).
Proof.
  intros Hid [Hz Hr (Hs & Ht & Hp & Hw)]. unfold delete_zone. rewrite Hz, lookup_insert_eq.
  rewrite Hr, delete_insert_id by done. destruct d, dd. cbn in *. by subst.
Qed.

(** Programs that only add records to the new zone. *)
Definition grows d id z {A} (m : M A) : Prop := forall dd, grown d id z dd ->
  leads m (fun _ => grown d id z) (fun _ => grown d id z) dd.

Lemma grows_ret d id z {A} (a : A) : grows d id z (ret a).
Proof. intros dd Hd. by apply leads_ret. Qed.
Lemma grows_fail d id z {A} e : grows d id z (fail e : M A).
Proof. intros dd Hd. by apply leads_fail. Qed.
Lemma grows_bind d id z {A B} (m : M A) (k : A -> M B) :
  grows d id z m -> (forall a, grows d id z (k a)) -> grows d id z (bind m k).
Proof. intros Hm Hk dd Hd. apply leads_bind. eapply leads_weaken; [by apply Hm| |done]. intros a d' Hd'. by apply Hk. Qed.
Lemma grows_attempt d id z {A} (m : M A) : grows d id z m -> grows d id z (attempt m).
Proof. intros Hm dd Hd. apply leads_attempt. eapply leads_weaken; [by apply Hm|done..]. Qed.
Lemma grows_unless d id z {A} e (m : M A) : grows d id z m -> grows d id z (unless e m).
Proof. intros Hm. unfold unless. apply grows_bind; [by apply grows_attempt|]. intros [a|e']; [apply grows_ret|]. case_bool_decide; [apply grows_ret|apply grows_fail]. Qed.
Lemma grows_record d id z p : rp_ZoneID p = id -> grows d id z (CreateRecordRow p : M string).
Proof.
  intros Hp dd Hd. unfold CreateRecordRow. apply leads_insert; [|done]. intros rid now.
  destruct (insert_record rid p dd) as [[[] d']|e] eqn:E; [|done]. by split; [|intros _]; eapply grown_insert.
Qed.
Lemma grows_address d id z : grows d id z (address : M string).
Proof. intros dd Hd. by apply leads_address. Qed.

Lemma grows_write_glue d id z type addr labels : grows d id z (write_glue id type addr labels : M unit).
Proof.
  induction labels as [|l ls IH]; cbn [write_glue]; [apply grows_ret|].
  apply grows_bind; [by apply grows_unless, grows_record|done].
Qed.
Lemma grows_write_template d id z zone addr rs : grows d id z (write_template id zone addr rs : M unit).
Proof.
  induction rs as [|r rs IH]; cbn [write_template]; [apply grows_ret|].
  apply grows_bind; [|done]. destruct (_ && _); [apply grows_ret|].
  apply grows_bind; [by apply grows_record|intros _; apply grows_ret].
Qed.

Lemma leads_finishZone requestID d id z req : grows d id z (finishZone serverID requestID id z req).
Proof.
  unfold finishZone. apply grows_bind.
  - destruct (_ && _); [|apply grows_ret]. apply grows_bind.
    + unfold seedGlue. case_bool_decide; [apply grows_ret|]. apply grows_bind; [apply grows_address|].
      intros a. destruct (a =? ""); [apply grows_fail|apply grows_write_glue].
    + intros _. destruct (cq_SeedRecords req); [|apply grows_ret]. unfold seedRecords.
      apply grows_bind; [apply grows_address|]. intros a. apply grows_bind.
      * apply grows_attempt. intros dd Hd. apply (leads_query calm (default_template serverID)); [|done].
        by destruct (default_template serverID dd).
      * intros [t|[]]; try apply grows_fail; [apply grows_write_template|apply grows_ret].
  - intros _ dd Hd. by apply leads_reconcile.
Qed.

Lemma leads_CreateZone requestID req (Q : string * DnsTables.Zone -> Database -> Prop) F d :
  tables_ok d -> (forall e, F e d) ->
  (forall id params z now dd, new_zone serverID (get_settings serverID d) req = Ok params ->
     insert_zone id params now d = Ok (tt, with_zones (<[id := z]> (zones d)) d) -> grown d id z dd ->
     Q (id, z) dd /\ (calm = false -> forall e, F e dd)) ->
  leads (CreateZone serverID requestID req : M _) Q F d.
Proof.
  intros Hok Hf Hi. unfold CreateZone. apply leads_bind, (leads_query calm (fun d => Ok (get_settings serverID d))); [|done].
  apply leads_bind, leads_answer. destruct (new_zone _ _ req) as [params|] eqn:En; [|done].
  apply leads_bind. eapply leads_weaken with (Q := fun _ d' => d' = d) (F := fun _ d' => d' = d); [|intros _ d' ->|by intros e d' ->].
  { destruct (cq_DNSSEC req); [|by apply leads_ret]. unfold requireDNSSEC. apply leads_bind, leads_Do; [|done].
    intros []; [by apply leads_ret|by apply leads_fail]. }
  apply leads_bind. eapply leads_weaken with (Q := fun _ d' => d' = d) (F := fun _ d' => d' = d); [|intros _ d' ->|by intros e d' ->].
  { destruct (_ =? _); [by apply leads_ret|]. apply leads_bind.
    apply (leads_query calm (find_website (cq_WebsiteID req))); [|done].
    unfold find_website. case_bool_decide; [by apply leads_ret|done]. }
  apply leads_bind, leads_bind, leads_insert; [|done]. intros id now.
  destruct (insert_zone id params now d) as [[[] d1]|e] eqn:Ei; [|done].
  pose proof (insert_zone_spec _ _ _ _ _ Ei) as (z & -> & Hzc & Hid & _ & _).
  assert (Hg : grown d id z (with_zones (<[id := z]> (zones d)) d)).
  { split; [done| |done]. cbn [records with_zones]. apply map_filter_id. intros rid r Hr Hz.
    destruct (rows_record _ Hok rid r Hr) as [_ [z' Hz']]. cbn in Hz. by rewrite Hz, Hid in Hz'. }
  split; [|intros Hc; by apply (Hi id params z now _ eq_refl Ei Hg)].
  apply leads_bind, (leads_get calm (fun d => zones d !! id)). cbn [zones with_zones]. rewrite lookup_insert_eq.
  apply leads_ret.
  apply leads_bind, leads_attempt. eapply leads_weaken; [by apply leads_finishZone|..].
  - intros ok dd Hdd. destruct (Hi id params z now dd eq_refl Ei Hdd) as [HQ HF].
    apply leads_bind, leads_record, leads_bind, (leads_query calm (get_zone id)); [|intros Hc; by apply HF].
    unfold get_zone. rewrite (gr_zones _ _ _ _ Hdd), lookup_insert_eq. by apply leads_ret.
  - intros e dd Hdd. destruct (Hi id params z now dd eq_refl Ei Hdd) as [HQ HF].
    apply leads_bind, leads_logged. unfold DeleteZoneRow. apply leads_exec; [|intros Hc; by apply leads_fail, HF].
    intros _. rewrite (grown_deleted d id z dd Hid Hdd). split; [|intros _]; by apply leads_fail.
Qed.
End zones.

(** ** A request that answers has published *)
Section published.
Context `{Postgres} {N : Type} `{NameServer N} (serverID : string).
Local Abbreviation M := (Store.M (World N) panel_err).

(** The name server is not touched. *)
Definition apart (w w' : World N) : Prop := server w' = server w.
Definition quiet {A} (m : M A) : Prop := respects apart m.

Lemma apart_refl w : apart w w.
Proof. done. Qed.
Lemma apart_trans u v w : apart u v -> apart v w -> apart u w.
Proof. unfold apart. congruence. Qed.
Lemma quiet_ret {A} (a : A) : quiet (ret a).
Proof. by intros w. Qed.
Lemma quiet_fail {A} e : quiet (fail e : M A).
Proof. by intros w. Qed.
Lemma quiet_rule {A} (r : result dns_rule_err A) : quiet (rule r : M A).
Proof. by intros w. Qed.
Lemma quiet_answer {A} (r : result panel_err A) : quiet (answer r : M A).
Proof. by intros w. Qed.
Lemma quiet_get {A} (f : World N -> A) : quiet (get f : M A).
Proof. by intros w. Qed.
Lemma quiet_record action resource : quiet (record action resource : M unit).
Proof. by intros w. Qed.
Lemma quiet_address : quiet (address : M string).
Proof. by intros w. Qed.
Lemma quiet_bind {A B} (m : M A) (k : A -> M B) : quiet m -> (forall a, quiet (k a)) -> quiet (bind m k).
Proof. apply respects_bind, apart_trans. Qed.
Lemma quiet_attempt {A} (m : M A) : quiet m -> quiet (attempt m).
Proof. apply respects_attempt. Qed.
Lemma quiet_call {A} (f : World N -> result panel_err A * World N) :
  (forall w, server (snd (f w)) = server w) -> quiet (Store.call ErrBackend f).
Proof. intros Hf. apply respects_call; [done..|apply apart_trans|exact Hf]. Qed.
Lemma quiet_asking {A} (f : World N -> result panel_err A) : quiet (Store.query ErrBackend f).
Proof. by apply quiet_call. Qed.
Lemma quiet_exec {A} (s : Z -> statement A) : quiet (exec s : M A).
Proof. apply quiet_call. intros w. cbn. by destruct (s _ _) as [[a d]|e]. Qed.
Lemma quiet_insert (s : string -> Z -> statement unit) : quiet (insert s : M string).
Proof. apply quiet_call. intros w. destruct (uuids w); [done|]. by destruct (s _ _ _) as [[a d]|e]. Qed.
Lemma quiet_status {A} requestID op (f : N -> result string A) : quiet (Do requestID op (fun n => (f n, n)) : M A).
Proof. unfold Do. destruct (Validate _); [|apply quiet_fail]. apply quiet_call. intros w. by destruct (f _). Qed.
End published.
Create HintDb quiet discriminated.
#[export] Hint Resolve quiet_ret quiet_fail quiet_rule quiet_answer quiet_get quiet_record quiet_address quiet_asking
  quiet_exec quiet_insert quiet_status : quiet.
Ltac quiet_tac :=
  repeat first
    [ match goal with |- forall _, _ => intros end
    | solve [eauto with quiet]
    | progress cbv zeta
    | apply quiet_bind | apply quiet_attempt
    | match goal with |- quiet (match ?x with _ => _ end) => destruct x end ].

Section publishing.
Context `{Postgres} {N : Type} `{NameServer N} (serverID : string).
Local Abbreviation M := (Store.M (World N) panel_err).

Lemma quiet_rules {A} (check : A -> result dns_rule_err unit) l : quiet (rules check l : M unit).
Proof. induction l as [|x l IH]; cbn [rules]; quiet_tac. Qed.
Lemma quiet_unless {A} e (m : M A) : quiet m -> quiet (unless e m).
Proof. intros Hm. unfold unless. quiet_tac. Qed.
#[local] Hint Resolve quiet_rules quiet_unless : quiet.
Lemma quiet_wire_zones zs : quiet (wire_zones zs : M _).
Proof. induction zs as [|[id z] zs IH]; cbn [wire_zones]; unfold ListRecords; quiet_tac. Qed.
Lemma quiet_write_glue id type addr labels : quiet (write_glue id type addr labels : M unit).
Proof. unfold CreateRecordRow. induction labels as [|l ls IH]; cbn [write_glue]; unfold CreateRecordRow; quiet_tac. Qed.
Lemma quiet_write_template id zone addr rs : quiet (write_template id zone addr rs : M unit).
Proof. induction rs as [|r rs IH]; cbn [write_template]; unfold CreateRecordRow; quiet_tac. Qed.
Lemma quiet_write_managed zone name rs : quiet (write_managed zone name rs : M unit).
Proof. induction rs as [|r rs IH]; cbn [write_managed]; unfold CreateRecordRow; quiet_tac. Qed.
Lemma quiet_requireDNSSEC requestID : quiet (requireDNSSEC requestID : M unit).
Proof. unfold requireDNSSEC. quiet_tac. Qed.
Lemma quiet_checkRecord id z req exclude : quiet (checkRecord id z req exclude : M _).
Proof. unfold checkRecord, checkCNAME, ListRecords. quiet_tac. Qed.
#[local] Hint Resolve quiet_wire_zones quiet_write_glue quiet_write_template quiet_write_managed quiet_requireDNSSEC
  quiet_checkRecord : quiet.

(** The last thing [m] did to the name server, if it answers, is to hand it the tables. *)
Definition hands_over {A} (m : M A) : Prop := forall w a w', m w = (Ok a, w') ->
  take_zones (held serverID (db w')) (server w) = (Ok tt, server w').
(** Neither the tables nor the name server are touched. *)
Definition idle {A} (m : M A) : Prop := forall w a w', m w = (Ok a, w') -> db w' = db w /\ server w' = server w.

Lemma hands_after {A B} (m : M A) (k : A -> M B) : quiet m -> (forall a, hands_over (k a)) -> hands_over (bind m k).
Proof.
  intros Hm Hk w b w' (a & w1 & E1 & E2)%bind_ok. specialize (Hm w). rewrite E1 in Hm. rewrite <- Hm. by eapply Hk.
Qed.
Lemma hands_before {A B} (m : M A) (k : A -> M B) : hands_over m -> (forall a, idle (k a)) -> hands_over (bind m k).
Proof.
  intros Hm Hk w b w' (a & w1 & E1 & E2)%bind_ok. specialize (Hm _ _ _ E1). destruct (Hk _ _ _ _ E2) as [-> ->]. done.
Qed.
Lemma hands_fail {A} e : hands_over (fail e : M A).
Proof. done. Qed.
Lemma hands_attempt {A B} (m : M A) (k : result panel_err A -> M B) :
  hands_over m -> (forall a, idle (k (Ok a))) -> (forall e w b w', k (Err e) w <> (Ok b, w')) -> hands_over (bind (attempt m) k).
Proof.
  intros Hm Hok Herr w b w' (r & w1 & E1 & E2)%bind_ok. unfold attempt in E1.
  destruct (m w) as [[a|e] w2] eqn:Em; injection E1 as <- <-; [|by apply Herr in E2].
  specialize (Hm _ _ _ Em). destruct (Hok _ _ _ _ E2) as [-> ->]. done.
Qed.
Lemma gives_up {A B} (m : M A) e w b w' : (m ;! fail e : M B) w <> (Ok b, w').
Proof. unfold bind. by destruct (m w) as [[a|e'] w1]. Qed.

Lemma idle_ret {A} (a : A) : idle (ret a).
Proof. intros w b w' [= <- <-]. done. Qed.
Lemma idle_record action resource : idle (record action resource).
Proof. intros w b w' [= <- <-]. done. Qed.
Lemma idle_then {A B} (m : M A) (k : A -> M B) : idle m -> (forall a, idle (k a)) -> idle (bind m k).
Proof.
  intros Hm Hk w b w' (a & w1 & E1 & E2)%bind_ok. destruct (Hm _ _ _ E1) as [<- <-]. by eapply Hk.
Qed.
Lemma query_answers {A} (f : World N -> result panel_err A) w a w' :
  (forall fs, f (with_faults fs w) = f w) -> Store.query ErrBackend f w = (Ok a, w') ->
  f w = Ok a /\ db w' = db w /\ server w' = server w.
Proof.
  intros Hf. unfold query, call. cbn [faults_of World_faulty]. destruct (faults w) as [|[] fs]; rewrite ?Hf; intros [= E1 <-]; done.
Qed.
Lemma idle_query {A} (f : Database -> result panel_err A) : idle (Store.query ErrBackend (fun w => f (db w))).
Proof. intros w a w' (_ & H1 & H2)%query_answers; [done|done]. Qed.

Lemma wire_zones_ok zs (w : World N) l (w' : World N) : wire_zones zs w = (Ok l, w') ->
  l = ((fun x => wire_zone (snd x) (snd <$> list_records (fst x) (db w))) <$> zs) /\ db w' = db w /\ server w' = server w.
Proof.
  revert w l w'. induction zs as [|[id z] zs IH]; intros w l w'; cbn [wire_zones]; [by intros [= <- <-]|].
  intros (rs & w1 & E1 & (rest & w2 & E2 & E3)%bind_ok)%bind_ok.
  apply query_answers in E1 as ([= <-] & H1 & H2); [|done]. apply IH in E2 as (-> & H3 & H4). injection E3 as <- <-.
  by rewrite H3, H4, H1, H2.
Qed.

Lemma Do_ok {A} requestID op (f : N -> result string A * N) w a w' : Do requestID op f w = (Ok a, w') ->
  f (server w) = (Ok a, server w') /\ db w' = db w.
Proof.
  unfold Do. destruct (Validate _); [|done]. unfold call. cbn [faults_of World_faulty].
  destruct (faults w) as [|[] fs]; try done; cbn [server with_faults World_faulty];
    destruct (f (server w)) as [[b|e] n]; try done; by intros [= <- <-].
Qed.

Lemma hands_reconcile requestID : hands_over (reconcile serverID requestID).
Proof.
  intros w a w' (zs & w1 & E1 & (s & w2 & E2 & (l & w3 & E3 & E4)%bind_ok)%bind_ok)%bind_ok.
  apply query_answers in E1 as ([= <-] & Hd1 & Hs1); [|done]. apply query_answers in E2 as ([= <-] & Hd2 & Hs2); [|done].
  apply wire_zones_ok in E3 as (-> & Hd3 & Hs3). apply Do_ok in E4 as [E4 Hd4].
  assert (Hd : db w' = db w) by congruence.
  rewrite Hs3, Hs2, Hs1 in E4. rewrite Hd2, Hd1 in E4. destruct a. by rewrite Hd.
Qed.
Lemma hands_publish requestID zone : hands_over (publish serverID requestID zone).
Proof. unfold publish, BumpSerial. apply hands_after; [quiet_tac|]. intros _. apply hands_reconcile. Qed.

(** The requests whose success means that the zones were handed over. *)
Definition publishing (q : request_kind) : bool :=
  match q with ensure_subdomain _ _ _ | remove_subdomain _ _ | align _ _ => false | _ => true end.

(** The tables and the name server after a request of these that answered. *)
Lemma request_hands_over requestID q : publishing q = true -> hands_over (run_request serverID requestID q).
Proof.
  assert (Hret : forall A (m : M A), hands_over m -> hands_over (let! _ := m in ret tt)).
  { intros A m Hm. by apply hands_before; [|intros _; apply idle_ret]. }
  destruct q; try done; intros _; cbn [run_request]; try apply Hret.
  - unfold CreateZone, ReadSettings, lookup_website. apply hands_after; [quiet_tac|]. intros s.
    apply hands_after; [quiet_tac|]. intros p. apply hands_after; [quiet_tac|]. intros _.
    apply hands_after; [quiet_tac|]. intros _. apply hands_after; [quiet_tac|]. intros [id z].
    apply hands_attempt; [|intros _|intros e w b w'; apply gives_up].
    + unfold finishZone, seedGlue, seedRecords, DefaultTemplate. apply hands_after; [quiet_tac|]. intros _. apply hands_reconcile.
    + apply idle_then; [apply idle_record|]. intros _. apply idle_then; [apply (idle_query (get_zone id))|]. intros z'. apply idle_ret.
  - unfold UpdateZone, GetZone, given, given_list. repeat (apply hands_after; [solve [quiet_tac]|intros ?]).
    apply hands_before; [apply hands_reconcile|]. intros _. apply idle_then; [apply idle_record|]. intros _. apply idle_ret.
  - unfold DeleteZone, GetZone, DeleteZoneRow. repeat (apply hands_after; [solve [quiet_tac]|intros ?]).
    apply hands_before; [apply hands_reconcile|]. intros _. apply idle_record.
  - unfold CreateRecord, GetZone, CreateRecordRow. repeat (apply hands_after; [solve [quiet_tac]|intros ?]).
    apply hands_attempt; [apply hands_publish| |intros e w b w'; apply gives_up].
    intros _. apply idle_then; [apply idle_record|]. intros _. apply idle_ret.
  - unfold UpdateRecord, GetRecord, GetZone, UpdateRecordRow. apply hands_after; [quiet_tac|]. intros r.
    destruct (rr_Managed r); [apply hands_fail|]. repeat (apply hands_after; [solve [quiet_tac]|intros ?]).
    apply hands_attempt; [apply hands_publish| |intros e w b w'; apply gives_up].
    intros _. apply idle_then; [apply idle_record|]. intros _. apply idle_ret.
  - unfold DeleteRecord, GetRecord, GetZone, DeleteRecordRow. apply hands_after; [quiet_tac|]. intros r.
    destruct (rr_Managed r); [apply hands_fail|]. do 2 (apply hands_after; [solve [quiet_tac]|intros ?]).
    apply hands_before; [apply hands_publish|]. intros _. apply idle_record.
  - unfold Configure. do 4 (apply hands_after; [quiet_tac|intros ?]). apply hands_after; [quiet_tac|intros ?].
    apply hands_before; [apply hands_reconcile|]. intros _. apply idle_then; [apply idle_record|]. intros _. apply idle_ret.
  - unfold Repair. apply hands_before; [apply hands_reconcile|]. intros _. apply idle_record.
  - unfold SetManagedRecords, DeleteManagedRecords. destruct (_ =? _); [apply hands_fail|].
    apply hands_after; [quiet_tac|intros ?]. apply hands_after; [quiet_tac|intros ?]. apply hands_publish.
Qed.
End publishing.

(** ** A request that fails *)
Section failed.
Context `{Postgres} {N : Type} `{NameServer N} (serverID : string).

(** The tables, but for a serial that may have moved. *)
Definition but_a_serial (d d' : Database) : Prop :=
  d' = d \/ exists zone z now, zones d !! zone = Some z /\ d' = bumped_in d zone z now.

(** C22: When only the host refuses, and no call to the database or the host is lost, a request
    to create a zone, create a record or change one that fails leaves the tables as they were
    before it: a zone that was not completed is gone with all its records, a record the host
    refused is gone, a changed one is back, and no more than the serial of its zone has
    moved. *)
Theorem failed_request_leaves_the_tables requestID (w : World N) e w' :
  tables_ok (db w) -> faults w = [] ->
  (forall req, CreateZone serverID requestID req w = (Err e, w') -> db w' = db w) /\
  (forall zone req, CreateRecord serverID requestID zone req w = (Err e, w') -> but_a_serial (db w) (db w')) /\
  (forall id req, UpdateRecord serverID requestID id req w = (Err e, w') -> but_a_serial (db w) (db w')).
Proof.
  intros Hd Hf. assert (Hs : still true w) by by intros _. split_and!.
  - intros req. refine (leads_err true _ (fun _ _ => True) (fun _ d' => d' = db w) w e w' _ Hs).
    by apply leads_CreateZone.
  - intros zone req. refine (leads_err true _ (fun _ _ => True) (fun _ d' => but_a_serial (db w) d') w e w' _ Hs).
    apply leads_CreateRecord; [by left|by right; eauto|]. intros; split; [done|intros [=]].
  - intros id req. refine (leads_err true _ (fun _ _ => True) (fun _ d' => but_a_serial (db w) d') w e w' _ Hs).
    apply leads_UpdateRecord; [done|by left|by right; eauto 6|]. intros; split; [done|intros [=]].
Qed.

(** ** Serials *)
Definition on_records (q : request_kind) : bool :=
  match q with create_record _ _ | update_record_of _ _ | delete_record_of _ => true | _ => false end.

(** One zone has a greater serial and other records; of the others nothing has changed. *)
Definition republished (d d' : Database) : Prop :=
  exists zone z now rs, zones d !! zone = Some z /\
    d' = with_zones (<[zone := bumped now z]> (zones d)) (with_records rs d) /\
    (zn_Serial z < zn_Serial (bumped now z))%Z /\
    forall id r, rr_ZoneID r <> zone -> rs !! id = Some r <-> records d !! id = Some r.

Lemma serial_moves now z : (zn_Serial z < zn_Serial (bumped now z))%Z.
Proof. unfold bumped, updated_zone, nextSerial. cbn. lia. Qed.

Lemma republished_put d zone z now rid r : zones d !! zone = Some z -> rr_ZoneID r = zone ->
  (forall r0, records d !! rid = Some r0 -> rr_ZoneID r0 = zone) ->
  republished d (bumped_in (with_records (<[rid := r]> (records d)) d) zone z now).
Proof.
  intros Hz Hr Hold. exists zone, z, now, (<[rid := r]> (records d)). split_and!; [done|done|apply serial_moves|].
  intros id s Hs. destruct (decide (id = rid)) as [->|Hne]; [|by rewrite lookup_insert_ne].
  rewrite lookup_insert_eq. split; [intros [= ->]; congruence|intros Hr0; by apply Hold in Hr0].
Qed.

(** C17: A record that is created, changed or deleted moves the serial of its zone to a greater
    one, whatever the clock says and whatever else failed, and changes nothing else about the
    zones, so that a secondary that compares serials sees that this zone changed; the records
    of every other zone are what they were. *)
Theorem published_record_moves_the_serial requestID q (w w' : World N) : on_records q = true -> tables_ok (db w) ->
  run_request serverID requestID q w = (Ok tt, w') -> republished (db w) (db w').
Proof.
  intros Hq Hd E. assert (Hs : still false w) by done.
  refine (leads_ok false _ (fun _ d' => republished (db w) d') (fun _ _ => True) w tt w' _ Hs E).
  destruct q as [| | |zone req|id req|id| | | | | |]; try done; cbn [run_request].
  - apply leads_bind, leads_CreateRecord; [done|done|]. intros z p id d1 Hz Hp Hi. split; [|done]. intros now. apply leads_ret.
    apply insert_record_spec in Hi as (_ & _ & Hnone & _ & ->).
    apply republished_put; [done|apply Hp|]. intros r0 Hr0. by rewrite Hnone in Hr0.
  - apply leads_bind, leads_UpdateRecord; [done..|]. intros r z p r' d1 Hr _ Hz Hp Hu. split; [|done]. intros now. apply leads_ret.
    apply update_record_spec in Hu as (r0 & Hr0 & -> & _ & _ & ->). rewrite Hr in Hr0. injection Hr0 as <-.
    apply republished_put; [done|done|]. intros r1 Hr1. congruence.
  - apply leads_DeleteRecord; [done|]. intros r z d1 Hr _ Hz Hdel. split; [done|]. intros now. split; [|done].
    unfold delete_record in Hdel. rewrite Hr in Hdel. injection Hdel as <-.
    exists (rr_ZoneID r), z, now, (delete id (records (db w))). split_and!; [done|done|apply serial_moves|].
    intros j s Hj. destruct (decide (j = id)) as [->|Hne]; [|by rewrite lookup_delete_ne].
    rewrite lookup_delete_eq. split; [done|]. intros Hs'. rewrite Hr in Hs'. congruence.
Qed.
End failed.
