(* ===== verification/DnsOnHost.v ===== *)
(** * From a row to the file of a name server

    The host of [NamedHost] as the name server of [DnsService], behind the checks of the
    operation [dns.reconcile] ([agent/internal/operations/dns.go]): what a request of the panel
    that answered has put into the files the name server reads. *)

From stdpp Require Import gmap.
From S2P Require Import Prelude Store GoStr GoTime GoSort TenancyRules Netip DnsRules ZoneFile NamedConf NamedHost NamedChange NamedStatus DnsTemplates Protocol DnsTables DnsService DnsChange DnsPublish.

#[local] Open Scope string_scope.
#[local] Open Scope store_scope.

Definition code_text (c : NamedStatus.code) : string :=
  match c with
  | NamedStatus.CodeUnsupported => Protocol.CodeUnsupported
  | NamedStatus.CodeInvalidRequest => Protocol.CodeInvalidRequest
  | NamedStatus.CodeInvalidPayload => Protocol.CodeInvalidPayload
  | NamedStatus.CodeInternal => Protocol.CodeInternal
  end.

Section host.
Context (p : Paths) (t : Tools).

(** The handlers of [dns.reconcile] and [dns.status]. *)
Definition handle_reconcile (d : Desired) (h : Host) : result string unit * Host :=
  match desired (d_Settings d) (d_Zones d) with
  | Err _ => (Err Protocol.CodeInvalidPayload, h)
  | Ok d' =>
      match Reconcile p t d' h with
      | (Ok _, h') => (Ok tt, h')
      | (Err e, h') => (Err (code_text (dnsError e)), h')
      end
  end.
Definition handle_signs (h : Host) : result string bool :=
  match fst (SupportsDNSSEC t h) with Ok b => Ok b | Err e => Err (code_text (dnsError e)) end.

#[local] Instance host_server : NameServer Host := { take_zones := handle_reconcile; signs := handle_signs }.

Context `{Postgres} (serverID : string).

Lemma held_zones d z : z ∈ d_Zones (held serverID d) <->
  exists id row, zones d !! id = Some row /\ zn_ServerID row = serverID /\ z = wire_zone row (snd <$> list_records id d).
Proof.
  unfold held. cbn [d_Zones]. rewrite list_elem_of_fmap. unfold list_zones. split.
  - intros ([id row] & -> & Hin). rewrite slice_stable_perm in Hin. apply list_elem_of_In, filter_In in Hin as [Hin Hs].
    apply list_elem_of_In, elem_of_map_to_list in Hin. exists id, row. cbn in Hs. by apply String.eqb_eq in Hs.
  - intros (id & row & Hz & Hs & ->). exists (id, row). split; [done|]. rewrite slice_stable_perm.
    apply list_elem_of_In, filter_In. split; [by apply list_elem_of_In, elem_of_map_to_list|]. by apply String.eqb_eq.
Qed.

Lemma names_nodup (l : list (string * DnsTables.Zone)) :
  NoDup (fst <$> l) -> (forall i j y z, (i, y) ∈ l -> (j, z) ∈ l -> zn_Name y = zn_Name z -> i = j) ->
  NoDup ((fun x => zn_Name (snd x)) <$> l).
Proof.
  induction l as [|[i y] l IH]; intros Hn Hu; [constructor|]. csimpl. apply list.NoDup_cons in Hn as [Hi Hn].
  apply list.NoDup_cons. split.
  - intros ([j z] & He & Hin)%list_elem_of_fmap. cbn in He. apply Hi. apply list_elem_of_fmap. exists (j, z). split; [|done].
    eapply (Hu i j y z); [apply list_elem_of_here|by apply list_elem_of_further|done].
  - apply IH; [done|]. intros i' j' y' z' H1 H2. apply Hu; by apply list_elem_of_further.
Qed.

Lemma filter_nodup {A} (q : A -> bool) (l : list (string * A)) :
  NoDup (fst <$> l) -> NoDup (fst <$> List.filter (fun x => q (snd x)) l).
Proof.
  induction l as [|[i x] l IH]; csimpl; [done|]. intros [Hi Hn]%list.NoDup_cons.
  destruct (q x); [|by apply IH]. csimpl. apply list.NoDup_cons. split; [|by apply IH].
  intros ([j y] & -> & Hin)%list_elem_of_fmap. apply Hi, list_elem_of_fmap. exists (j, y). split; [done|].
  by apply list_elem_of_In, filter_In, proj1, list_elem_of_In in Hin.
Qed.

Lemma held_names d : tables_ok d -> NoDup (Name <$> d_Zones (held serverID d)).
Proof.
  intros Hd. unfold held. cbn [d_Zones]. rewrite <- list_fmap_compose.
  change (NoDup ((fun x => zn_Name (snd x)) <$> list_zones serverID d)). unfold list_zones.
  rewrite slice_stable_perm. apply names_nodup.
  - apply (filter_nodup (fun z => zn_ServerID z =? serverID)), NoDup_fst_map_to_list.
  - intros i j y z Hy Hz Hn. apply list_elem_of_In, filter_In in Hy as [Hy Hys], Hz as [Hz Hzs].
    apply list_elem_of_In, elem_of_map_to_list in Hy, Hz. cbn in Hys, Hzs. apply String.eqb_eq in Hys, Hzs.
    eapply (names_once _ Hd i j); [done|done|congruence|done].
Qed.

(** C12: When a request to create, change or delete a zone or a record, to configure or to
    repair the name server answers without error, whatever failed on the way that it got over,
    the host's files say what the panel's tables say: the file of every zone this server is the
    primary of is the rendering of its row with the records the table has for it, the name
    server's own checker accepted it, and the file of zone statements lists all the zones and
    is let in by the main configuration. *)
Theorem answered_request_is_on_the_host requestID q (w w' : World Host) :
  dirs_ok p -> safe (Include p) -> (forall l, shuffle t l ≡ₚ l) -> tables_ok (db w) ->
  Forall zone_ok (zones_in (default "" (files (server w) !! Include p))) ->
  NoDup (zones_in (default "" (files (server w) !! Include p))) ->
  publishing q = true -> run_request serverID requestID q w = (Ok tt, w') ->
  (forall id z, zones (db w') !! id = Some z -> zn_ServerID z = serverID -> (zn_Kind z =? ZoneSlave) = false ->
     exists file, RenderZone (wire_zone z (snd <$> list_records id (db w'))) = Ok file /\
       checkzone t (zn_Name z) file = true /\ files (server w') !! ZoneFile p (zn_Name z) = Some file) /\
  (exists include conf, RenderInclude p (wire_settings (get_settings serverID (db w'))) (d_Zones (held serverID (db w'))) = Ok include /\
     files (server w') !! Include p = Some include /\
     files (server w') !! MainConf p = Some conf /\ HasInclude conf p = true).
Proof.
  intros Hdirs Hsafe Hsh Hd Hold Holdn Hq E.
  pose proof (request_keeps serverID requestID q w Hd) as Hd'. rewrite E in Hd'. cbn [snd] in Hd'.
  pose proof (request_hands_over serverID requestID q Hq w tt w' E) as Hh. cbn [take_zones host_server] in Hh.
  unfold handle_reconcile in Hh. destruct (desired _ _) as [d'|] eqn:Ed; [|done].
  apply desired_ok in Ed as (-> & _). destruct (Reconcile _ _ _ _) as [[r|e] h'] eqn:Er; [|done]. injection Hh as ->.
  destruct (accepted_in_place p t _ _ _ _ Hdirs Hsafe Hsh (held_names _ Hd') Hold Holdn Er)
    as (Hz & (include & Hi1 & Hi2) & (conf & Hc1 & Hc2) & _).
  split; [|by exists include, conf]. intros id z Hrow Hs Hk.
  apply (Hz (wire_zone z (snd <$> list_records id (db w')))); [|done]. apply held_zones. by exists id, z.
Qed.
End host.

(** ** On a concrete host *)
Module Panel.
Import NamedHost.Nameserver(paths, tools, before).
#[local] Instance postgres : Postgres := { text_before := str_lt; as_cidr := Some }.
#[local] Instance on_this_host : NameServer Host := host_server paths (tools "").

Definition no_tables : Database := {|
  zones := ∅; records := ∅; settings := ∅; templates := ∅; providers := ∅; websites := ∅ |}.
Definition start : World Host := {|
  db := no_tables; server := before; clock := [1788436800%Z]; uuids := ["z1"; "r1"]; audit := [];
  addresses := ["192.0.2.7"]; faults := [] |}.
Definition shop : CreateZoneRequest := {|
  cq_Name := "Shop.Example."; cq_Kind := ""; cq_WebsiteID := ""; cq_ReverseNetwork := ""; cq_PrimaryNS := "";
  cq_Hostmaster := ""; cq_Nameservers := ["ns1.shop.example"]; cq_DNSSEC := false; cq_AllowTransfer := [];
  cq_AlsoNotify := []; cq_Masters := []; cq_SeedRecords := true |}.
Definition created : World Host := snd (run_request "srv1" "req-00000001" (create_zone shop) start).

Lemma no_tables_ok : tables_ok no_tables.
Proof. split; cbn; intros *; by rewrite lookup_empty. Qed.

Example created_zone :
  (rr_Name <$> (snd <$> map_to_list (records (db created)))) = ["ns1"] /\
  (zn_Name <$> zones (db created) !! "z1") = Some "shop.example" /\
  (zn_PrimaryNS <$> zones (db created) !! "z1") = Some "ns1.shop.example" /\
  (zn_Hostmaster <$> zones (db created) !! "z1") = Some "hostmaster@shop.example" /\
  (zn_Serial <$> zones (db created) !! "z1") = Some 1788436800%Z /\
  audit created = [("dns.zone.create", "z1")].
Proof. vm_compute. repeat split. Qed.

Lemma answered_request_is_on_the_host_witness :
  fst (run_request "srv1" "req-00000001" (create_zone shop) start) = Ok tt /\
  exists file, files (server created) !! ZoneFile paths "shop.example" = Some file.
Proof.
  assert (H : fst (run_request "srv1" "req-00000001" (create_zone shop) start) = Ok tt) by (vm_compute; reflexivity).
  split; [exact H|].
  assert (E : run_request "srv1" "req-00000001" (create_zone shop) start = (Ok tt, created)).
  { rewrite <- H. unfold created. exact (surjective_pairing _). }
  assert (Hz : exists z, zones (db created) !! "z1" = Some z /\ zn_ServerID z = "srv1" /\
    (zn_Kind z =? ZoneSlave) = false /\ zn_Name z = "shop.example").
  { destruct (zones (db created) !! "z1") as [z|] eqn:Ez; [|vm_compute in Ez; discriminate Ez].
    exists z. split; [reflexivity|]. vm_compute in Ez. injection Ez as <-. repeat split. }
  destruct Hz as (z & Hz & Hs & Hk & Hn).
  destruct (answered_request_is_on_the_host paths (tools "") "srv1" "req-00000001" (create_zone shop) start created
    NamedChange.Operator.paths_ok) as [Hfiles _].
  - vm_compute. reflexivity.
  - intros l. reflexivity.
  - exact no_tables_ok.
  - vm_compute. constructor.
  - vm_compute. constructor.
  - reflexivity.
  - exact E.
  - destruct (Hfiles "z1" z Hz Hs Hk) as (file & _ & _ & Hf). rewrite Hn in Hf. exists file. exact Hf.
Defined.
End Panel.
