(* ===== verification/DnsRemote.v ===== *)
(** * A zone at another provider ([api/internal/dns/remote.go], [sync.go], [import.go])

    Pushing a zone's records to Cloudflare and reading them back: the shape a record takes
    there, the comparison with what the provider has, and the import into the panel's tables.
    The provider's interface is a parameter. *)

From stdpp Require Import gmap.
From S2P Require Import Prelude Store GoStr GoSort TenancyRules Netip DnsRules ZoneFile NamedConf NamedChange DnsTemplates Protocol DnsTables DnsService DnsChange DnsPublish.

#[local] Open Scope string_scope.
#[local] Open Scope store_scope.
#[local] Arguments Nat.ltb : simpl never.

(** ** Records there. [RemoteRecord] has the fields of a [ZRecord]. *)
Record cfData := {
  cd_Priority : option Z; cd_Weight : option Z; cd_Port : option Z; cd_Target : string;
  cd_Flags : option Z; cd_Tag : string; cd_Value : string }.
Record cfRecord := {
  cf_ID : string; cf_Type : string; cf_Name : string; cf_Content : string; cf_TTL : Z;
  cf_Priority : option Z; cf_Data : option cfData }.

Definition deref (value : option Z) : Z := default 0%Z value.

Definition contentOf (r : cfRecord) : string :=
  match cf_Data r with
  | None => cf_Content r
  | Some d =>
      if negb (cd_Tag d =? "") then itoa (deref (cd_Flags d)) ++ " " ++ cd_Tag d ++ " " ++ cd_Value d
      else itoa (deref (cd_Priority d)) ++ " " ++ itoa (deref (cd_Weight d)) ++ " " ++
           itoa (deref (cd_Port d)) ++ " " ++ trim_suffix "." (cd_Target d)
  end.

Definition remoteKey (type name content : string) : string :=
  to_lower (type ++ "|" ++ trim_suffix "." name ++ "|" ++ content).

Definition toCloudflare (r : ZRecord) : cfRecord :=
  let ttl := if (z_TTL r =? 0)%Z then 1%Z else z_TTL r in
  let out content priority data := {|
    cf_ID := ""; cf_Type := z_Type r; cf_Name := trim_suffix "." (z_Name r); cf_Content := content; cf_TTL := ttl;
    cf_Priority := priority; cf_Data := data |} in
  if z_Type r =? RecordMX then out (trim_suffix "." (z_Value r)) (Some (z_Priority r)) None
  else if z_Type r =? RecordSRV then
    out "" None (Some {| cd_Priority := Some (z_Priority r); cd_Weight := Some (z_Weight r); cd_Port := Some (z_Port r);
                         cd_Target := trim_suffix "." (z_Value r); cd_Flags := None; cd_Tag := ""; cd_Value := "" |})
  else if z_Type r =? RecordCAA then
    out "" None (Some {| cd_Priority := None; cd_Weight := None; cd_Port := None; cd_Target := "";
                         cd_Flags := Some (z_Flags r); cd_Tag := z_Tag r; cd_Value := z_Value r |})
  else if one_of [RecordCNAME; RecordNS; RecordPTR] (z_Type r) then out (trim_suffix "." (z_Value r)) None None
  else out (z_Value r) None None.

(** The loop of [FetchZone]: [None] for what belongs to whoever serves the zone. *)
Definition fetched (zone : string) (item : cfRecord) : option ZRecord :=
  if cf_Type item =? "SOA" then None
  else if (cf_Type item =? "NS") && equal_fold (trim_suffix "." (cf_Name item)) (trim_suffix "." zone) then None
  else
    let data f := match cf_Data item with Some d => deref (f d) | None => 0%Z end in
    Some {| z_Name := cf_Name item; z_Type := cf_Type item;
            z_TTL := if (cf_TTL item =? 1)%Z then 0%Z else cf_TTL item;
            z_Value := contentOf item; z_Priority := deref (cf_Priority item); z_Weight := data cd_Weight;
            z_Port := data cd_Port; z_Flags := data cd_Flags;
            z_Tag := match cf_Data item with Some d => cd_Tag d | None => "" end |}.

(** ** The provider's interface: one definition per request the client makes. *)
Class Provides (N : Type) := {
  find_zones : string -> N -> result unit (list (string * string));       (** identifiers and names *)
  list_page : string -> Z -> N -> result unit (list cfRecord);
  post_record : string -> cfRecord -> N -> result unit unit * N;
  put_record : string -> string -> cfRecord -> N -> result unit unit * N;
  drop_record : string -> string -> N -> result unit unit * N;
}.

Record SyncResult := {
  RemoteZoneID : string; Created : nat; Updated : nat; Deleted : nat; Unchanged : nat; Skipped : list string }.

Section cloudflare.
Context {N : Type} `{Provides N}.
Local Abbreviation C := (Store.M N unit).

Definition asked {A} (f : N -> result unit A) : C A := fun n => (f n, n).

Definition zoneID (zone : string) : C string :=
  let! zs := asked (find_zones zone) in
  match List.find (fun x => equal_fold (snd x) zone) zs with
  | Some x => ret (fst x)
  | None => fail tt
  end.

(** Pages from [page] on, at most [fuel] of them. *)
Fixpoint list_pages (id : string) (fuel : nat) (page : Z) : C (list cfRecord) :=
  match fuel with
  | O => ret []
  | S f =>
      let! batch := asked (list_page id page) in
      if (length batch <? 100)%nat then ret batch
      else let! rest := list_pages id f (page + 1) in ret (batch ++ rest)%list
  end.
Definition listRecords (id : string) : C (list cfRecord) := list_pages id 20 1.

Definition key_of (r : cfRecord) : string := remoteKey (cf_Type r) (cf_Name r) (contentOf r).
Definition index (existing : list cfRecord) : gmap string cfRecord :=
  foldl (fun m r => <[key_of r := r]> m) ∅ existing.

(** The loop over the panel's records: the counts, and what is left of the provider's. *)
Fixpoint push (id zone : string) (rs : list ZRecord) (remaining : gmap string cfRecord) (res : SyncResult)
  : C (gmap string cfRecord * SyncResult) :=
  match rs with
  | [] => ret (remaining, res)
  | r :: more =>
      if (z_Type r =? RecordNS) && equal_fold (z_Name r) zone then
        push id zone more remaining {|
          RemoteZoneID := RemoteZoneID res; Created := Created res; Updated := Updated res; Deleted := Deleted res;
          Unchanged := Unchanged res; Skipped := (Skipped res ++ [(z_Name r ++ " NS (Cloudflare maintains its own)")%string])%list |}
      else
        let payload := toCloudflare r in
        let key := key_of payload in
        match remaining !! key with
        | Some current =>
            let remaining := delete key remaining in
            if (cf_TTL current =? cf_TTL payload)%Z then
              push id zone more remaining {|
                RemoteZoneID := RemoteZoneID res; Created := Created res; Updated := Updated res; Deleted := Deleted res;
                Unchanged := S (Unchanged res); Skipped := Skipped res |}
            else
              (fun n => put_record id (cf_ID current) payload n) ;!
              push id zone more remaining {|
                RemoteZoneID := RemoteZoneID res; Created := Created res; Updated := S (Updated res);
                Deleted := Deleted res; Unchanged := Unchanged res; Skipped := Skipped res |}
        | None =>
            (fun n => post_record id payload n) ;!
            push id zone more remaining {|
              RemoteZoneID := RemoteZoneID res; Created := S (Created res); Updated := Updated res;
              Deleted := Deleted res; Unchanged := Unchanged res; Skipped := Skipped res |}
        end
  end.

Fixpoint prune_rest (id : string) (rest : list cfRecord) (res : SyncResult) : C SyncResult :=
  match rest with
  | [] => ret res
  | r :: more =>
      if one_of ["NS"; "SOA"] (cf_Type r) then
        prune_rest id more {|
          RemoteZoneID := RemoteZoneID res; Created := Created res; Updated := Updated res; Deleted := Deleted res;
          Unchanged := Unchanged res; Skipped := (Skipped res ++ [(cf_Name r ++ " " ++ cf_Type r)%string])%list |}
      else
        (fun n => drop_record id (cf_ID r) n) ;!
        prune_rest id more {|
          RemoteZoneID := RemoteZoneID res; Created := Created res; Updated := Updated res; Deleted := S (Deleted res);
          Unchanged := Unchanged res; Skipped := Skipped res |}
  end.

(** [shuffle] is the order of a map's range. *)
Definition PushZone (shuffle : list cfRecord -> list cfRecord) (zone : string) (rs : list ZRecord) (prune : bool)
  : C SyncResult :=
  let! id := zoneID zone in
  let! existing := listRecords id in
  let! (remaining, res) := push id zone rs (index existing) {|
    RemoteZoneID := id; Created := 0; Updated := 0; Deleted := 0; Unchanged := 0; Skipped := [] |} in
  if prune then prune_rest id (shuffle (snd <$> map_to_list remaining)) res else ret res.

Definition FetchZone (zone : string) : C (list ZRecord) :=
  let! id := zoneID zone in
  let! remote := listRecords id in
  ret (omap (fetched zone) remote).
End cloudflare.

(** ** Names *)
Definition qualify (name zone : string) : string := if name =? "@" then zone else name ++ "." ++ zone.

Definition relativeTo (name zone : string) : string :=
  let lower := trim_suffix "." (to_lower (trim_space name)) in
  let apex := trim_suffix "." (to_lower zone) in
  if (lower =? apex) || (lower =? "") then "@"
  else trim_suffix ("." ++ apex) lower.

(** What makes two records the same; the separator is a byte no value has. *)
Definition identity (name kind value : string) : string :=
  to_lower name ++ String "000" "" ++ to_upper kind ++ String "000" "" ++ to_lower (trim_suffix "." value).

Definition validateImported (r : ZRecord) : result dns_rule_err unit :=
  RecordType (z_Type r) ;?
  RecordName (z_Name r) ;?
  (if (z_TTL r =? 0)%Z then Ok tt else TTL (z_TTL r)) ;?
  RecordOf (value_of r).

(** ** The use cases *)
Section service.
Context `{Postgres} {N : Type} `{NameServer N} `{Provides N} (serverID : string).
(** [Encrypter]; [None] where no key is configured or a text does not open. *)
Context (has_key : bool) (Encrypt Decrypt : string -> string -> option string).
Local Abbreviation M := (Store.M (World N) panel_err).

Definition outside {A} (m : Store.M N unit A) : M A := fun w =>
  match m (server w) with
  | (Ok a, n) => (Ok a, set_server n w)
  | (Err _, n) => (Err ErrRemote, set_server n w)
  end.

Definition ActionProviderAdd : string := "dns.provider.add".
Definition ActionProviderRemove : string := "dns.provider.remove".

(** The providers the panel has a client for. *)
Definition buildRemote (kind : string) : result panel_err unit :=
  if kind =? "cloudflare" then Ok tt else Err ErrUnknownProvider.

Definition ProviderToken (id : string) : M (string * string) :=
  if negb has_key then fail ErrNoKey
  else
    let! row := Store.query ErrBackend (fun w => get_provider id (db w)) in
    match Decrypt (pv_Token row) (tokenContext id) with
    | Some token => ret (pv_Kind row, token)
    | None => fail ErrNoKey
    end.

Definition AddProvider (kind label token account : string) : M string :=
  if trim_space token =? "" then fail ErrNoToken
  else
    answer (buildRemote kind) ;!
    (if has_key then ret tt else fail ErrNoKey) ;!
    let! id := insert (fun fresh _ => insert_provider Encrypt fresh serverID kind label token account) in
    record ActionProviderAdd id ;!
    ret id.
Definition RemoveProvider (id : string) : M unit :=
  exec (fun _ => delete_provider id) ;! record ActionProviderRemove id.

Definition remoteFor (providerID : string) : M unit :=
  let! (kind, _) := ProviderToken providerID in
  let! _ := Store.query ErrBackend (fun w => Ok (list_providers serverID (db w))) in
  answer (buildRemote kind).

Definition RecordSync (providerID status : string) : M unit := exec (fun _ => record_sync providerID status).

Definition outbound (z : DnsTables.Zone) (rs : list DnsRecord) : list ZRecord :=
  (((fun r => {| z_Name := qualify (rr_Name r) (zn_Name z); z_Type := rr_Type r; z_TTL := rr_TTL r;
                 z_Value := rr_Value r; z_Priority := rr_Priority r; z_Weight := rr_Weight r; z_Port := rr_Port r;
                 z_Flags := rr_Flags r; z_Tag := rr_Tag r |}) <$> rs) ++
   ((fun s => {| z_Name := zn_Name z; z_Type := RecordNS; z_TTL := zn_TTL z; z_Value := s; z_Priority := 0;
                 z_Weight := 0; z_Port := 0; z_Flags := 0; z_Tag := "" |}) <$> zn_Nameservers z))%list.

Definition SyncZone (shuffle : list cfRecord -> list cfRecord) (zoneID providerID : string) (prune : bool)
  : M SyncResult :=
  let! z := GetZone zoneID in
  if zn_Kind z =? ZoneSlave then fail ErrSlaveRecords
  else
    remoteFor providerID ;!
    let! rs := ListRecords zoneID in
    let! r := attempt (outside (PushZone shuffle (zn_Name z) (outbound z (snd <$> rs)) prune)) in
    match r with
    | Err e => logged (RecordSync providerID "failed") ;! fail e
    | Ok res =>
        logged (RecordSync providerID "ok") ;!
        record ActionSync zoneID ;!
        ret res
    end.

Record ImportResult := { Imported : nat; Replaced : nat; SkippedRecords : list ZRecord }.

(** The records of a provider's copy as this panel would write them, and those it will not. *)
Definition incoming (zoneID zone : string) (items : list ZRecord) : list RecordParams * list ZRecord :=
  let converted := (fun i => {|
    z_Name := relativeTo (z_Name i) zone; z_Type := to_upper (z_Type i); z_TTL := z_TTL i; z_Value := z_Value i;
    z_Priority := z_Priority i; z_Weight := z_Weight i; z_Port := z_Port i; z_Flags := z_Flags i;
    z_Tag := z_Tag i |}) <$> items in
  ((fun i => {| rp_ZoneID := zoneID; rp_Name := z_Name i; rp_Type := z_Type i; rp_TTL := z_TTL i;
                rp_Value := z_Value i; rp_Priority := z_Priority i; rp_Weight := z_Weight i; rp_Port := z_Port i;
                rp_Flags := z_Flags i; rp_Tag := z_Tag i; rp_Managed := false |}) <$>
     List.filter (fun i => is_ok (validateImported i)) converted,
   List.filter (fun i => negb (is_ok (validateImported i))) converted).

(** The loop that writes what is not there: how many were written. *)
Fixpoint write_incoming (held : list string) (ps : list RecordParams) : M nat :=
  match ps with
  | [] => ret 0%nat
  | p :: more =>
      if bool_decide (identity (rp_Name p) (rp_Type p) (rp_Value p) ∈ held) then write_incoming held more
      else
        let! _ := CreateRecordRow p in
        let! n := write_incoming held more in
        ret (S n)
  end.

(** [publish] is called with the zone and the request in each other's place. *)
Definition ImportZone (requestID zoneID providerID : string) (replace : bool) : M ImportResult :=
  let! z := GetZone zoneID in
  if zn_Kind z =? ZoneSlave then fail ErrSlaveRecords
  else
    remoteFor providerID ;!
    let! items := (
      let! r := attempt (outside (FetchZone (zn_Name z))) in
      match r with
      | Ok items => ret items
      | Err e => logged (RecordSync providerID "failed") ;! fail e
      end) in
    let! existing := ListRecords zoneID in
    let '(wanted, skipped) := incoming zoneID (zn_Name z) items in
    let! removed := if replace then exec (fun _ => delete_unmanaged zoneID) else ret 0%nat in
    let held := if replace then []
                else (fun r => identity (rr_Name (snd r)) (rr_Type (snd r)) (rr_Value (snd r))) <$> existing in
    let! imported := write_incoming held wanted in
    record ActionImport zoneID ;!
    (if (0 <? imported)%nat || (0 <? removed)%nat then publish serverID zoneID requestID else ret tt) ;!
    ret {| Imported := imported; Replaced := removed; SkippedRecords := skipped |}.
End service.

(** ** There and back *)

(** The record that comes back from a record that was pushed: a CAA or an SRV record carries
    its numbers in its value. *)
Definition back (r : ZRecord) : ZRecord := {|
  z_Name := trim_suffix "." (z_Name r); z_Type := z_Type r; z_TTL := if (z_TTL r =? 1)%Z then 0 else z_TTL r;
  z_Value :=
    if z_Type r =? RecordSRV then
      itoa (z_Priority r) ++ " " ++ itoa (z_Weight r) ++ " " ++ itoa (z_Port r) ++ " " ++
      trim_suffix "." (trim_suffix "." (z_Value r))
    else if (z_Type r =? RecordCAA) && negb (z_Tag r =? "") then itoa (z_Flags r) ++ " " ++ z_Tag r ++ " " ++ z_Value r
    else if z_Type r =? RecordCAA then "0 0 0 "
    else if one_of [RecordMX; RecordCNAME; RecordNS; RecordPTR] (z_Type r) then trim_suffix "." (z_Value r)
    else z_Value r;
  z_Priority := if z_Type r =? RecordMX then z_Priority r else 0;
  z_Weight := if z_Type r =? RecordSRV then z_Weight r else 0;
  z_Port := if z_Type r =? RecordSRV then z_Port r else 0;
  z_Flags := if z_Type r =? RecordCAA then z_Flags r else 0;
  z_Tag := if z_Type r =? RecordCAA then z_Tag r else "" |}.

Lemma same_ttl ttl : (if ((if ttl =? 0 then 1 else ttl) =? 1)%Z then 0%Z else (if ttl =? 0 then 1 else ttl)%Z) =
  (if (ttl =? 1)%Z then 0%Z else ttl).
Proof. destruct (Z.eqb_spec ttl 0) as [->|]; [done|]. by destruct (ttl =? 1)%Z. Qed.

(** Decides the comparisons of constant strings. *)
Ltac eval_eqb :=
  repeat match goal with
  | |- context [String.eqb ?a ?b] =>
      let v := eval vm_compute in (String.eqb a b) in
      match v with true => change (String.eqb a b) with true | false => change (String.eqb a b) with false end; cbv iota
  | H : context [String.eqb ?a ?b] |- _ =>
      let v := eval vm_compute in (String.eqb a b) in
      match v with true => change (String.eqb a b) with true in H | false => change (String.eqb a b) with false in H end;
      cbv iota in H
  end.

(** A record that is pushed to the provider and fetched again comes back as itself, but
    for CAA and SRV records: these come back with their numbers and their tag written in front
    of their value, which for a CAA record the import then takes for the value. *)
Theorem fetched_after_push zone r : RecordType (z_Type r) = Ok tt ->
  ((z_Type r =? RecordNS) && equal_fold (trim_suffix "." (trim_suffix "." (z_Name r))) (trim_suffix "." zone)) = false ->
  fetched zone (toCloudflare r) = Some (back r).
Proof.
  intros Ht Hns. assert (Hin : z_Type r ∈ RecordTypes).
  { unfold RecordType in Ht. apply guard_ok in Ht. apply negb_false_iff in Ht. by apply one_of_spec. }
  destruct r as [name type ttl value prio weight port flags tag]. cbn [z_Name z_Type] in *.
  unfold RecordTypes in Hin. repeat (apply elem_of_cons in Hin as [->|Hin]); [..|by apply not_elem_of_nil in Hin];
    unfold fetched, toCloudflare, back in *; cbn [z_Name z_Type z_TTL z_Value z_Priority z_Weight z_Port z_Flags z_Tag] in *;
    unfold one_of in *; cbn [existsb] in *; eval_eqb; cbn [orb andb cf_Type cf_Name cf_TTL cf_Priority cf_Data] in *; eval_eqb;
    cbn [orb andb] in *; rewrite ?Hns; rewrite <- (same_ttl ttl); try done.
Qed.

(** *** Names *)
Definition lowercase (s : string) : Prop := to_lower s = s.

Lemma lowercase_app s t : lowercase (s ++ t) <-> lowercase s /\ lowercase t.
Proof.
  unfold lowercase, to_lower. induction s as [|a s IH]; cbn; [tauto|]. split.
  - intros [= Ha Hs]. apply IH in Hs as [-> ->]. by rewrite Ha.
  - intros [[= -> Hs] Ht]. f_equal. by apply IH.
Qed.
Lemma lower_alnum a : alnum a = true -> lower_char a = a.
Proof. each_char a. Qed.
Lemma lowercase_forall (q : ascii -> bool) s : (forall a, q a = true -> lower_char a = a) ->
  str_forall q s = true -> lowercase s.
Proof.
  intros Hq. unfold lowercase, to_lower. induction s as [|a s IH]; cbn; [done|].
  intros [Ha Hs]%andb_true_iff. by rewrite Hq, IH.
Qed.
Lemma lowercase_label s : forall first, label_go first s = true -> lowercase s.
Proof.
  induction s as [|a s IH]; intros first; cbn [label_go]; [done|]. intros [Ha Hs]%andb_true_iff.
  apply (lowercase_app (String a "") s). split; [|by eapply IH]. unfold lowercase. cbn. f_equal.
  apply orb_true_iff in Ha as [Ha|Ha]; [apply orb_true_iff in Ha as [Ha|Ha]|].
  - by apply lower_alnum.
  - by char_hyps.
  - by char_hyps.
Qed.
Lemma lowercase_split c s : Forall lowercase (split c s) -> lower_char c = c -> lowercase s.
Proof.
  intros Hl Hc. revert Hl. induction s as [|a s IH]; [done|]. cbn [split]. destruct (Ascii.eqb_spec a c) as [->|].
  - intros [_ Hl]%list.Forall_cons. apply (lowercase_app (String c "") s). split; [|by apply IH].
    unfold lowercase. cbn. by rewrite Hc.
  - destruct (split c s) as [|x xs] eqn:Es; [by destruct (split_not_nil c s)|]. intros [Hx Hl]%list.Forall_cons.
    apply (lowercase_app (String a "") x) in Hx as [Ha Hx]. apply (lowercase_app (String a "") s). split; [done|].
    apply IH. by constructor.
Qed.

Lemma RecordName_lower name : RecordName name = Ok tt -> lowercase name.
Proof.
  unfold RecordName. intros H. destruct (name =? "") eqn:E0; [done|]. cbn [guard rbind] in H.
  destruct (String.eqb_spec name "@") as [->|]; [done|].
  destruct (_ <? _)%nat; [done|]. cbn [guard rbind] in H. destruct (has_suffix "." name); [done|]. cbn [guard rbind] in H.
  apply (lowercase_split "."); [|done]. revert H. generalize 0%nat. induction (split "." name) as [|x l IH]; intros k H; [constructor|].
  cbn [record_labels] in H. destruct (String.eqb_spec x "*") as [->|Hne].
  - destruct (negb _); [done|]. constructor; [done|]. exact (IH _ H).
  - destruct (recordLabel x) as [[]|] eqn:Ex; [|done]. constructor; [|exact (IH _ H)].
    unfold recordLabel in Ex. destruct (x =? ""); [done|]. cbn [guard rbind] in Ex. destruct (_ <? _)%nat; [done|].
    cbn [guard rbind] in Ex. destruct (label_go true x) eqn:El; [|done]. by eapply lowercase_label.
Qed.

(** A zone's name has no upper-case letter and no dot at its end. *)
Lemma ZoneName_plain zone : ZoneName zone = Ok tt -> lowercase zone /\ trim_suffix "." zone = zone.
Proof.
  intros Hz. destruct (ZoneName_chars _ Hz) as [Hc _]. split.
  - eapply lowercase_forall; [|exact Hc]. intros a Ha. unfold domain_char in Ha.
    apply orb_true_iff in Ha as [Ha|Ha]; [apply orb_true_iff in Ha as [Ha|Ha]|]; [by apply lower_alnum|by char_hyps..].
  - unfold trim_suffix. destruct (trim_suffix_opt "." zone) as [t|] eqn:Et; [|done].
    apply trim_suffix_opt_app in Et as ->. exfalso. unfold ZoneName in Hz.
    destruct (_ =? ""); [done|]. cbn [guard rbind] in Hz. destruct (Domain _) as [[]|] eqn:Ed; [|done]. unfold Domain in Ed.
    destruct (_ =? ""); [done|]. cbn [guard rbind] in Ed. destruct (_ <? _)%nat; [done|]. cbn [guard rbind] in Ed.
    destruct (existsb _ _) eqn:Ex; [done|].
    assert (Hex : existsb (fun label => (label =? "") || (MaxLabelLength <? String.length label)%nat) (split "." (t ++ ".")) = true).
    { apply existsb_exists. exists "". split; [|done]. change "."%string with (String "." "")%string.
      rewrite <- (join_split "." t).
      rewrite split_join_app by (apply split_no_sep || apply split_not_nil). apply in_or_app. right. by left. }
    congruence.
Qed.

Lemma last_char_snoc s c : last_char s = Some c -> exists t, s = t ++ String c "".
Proof.
  induction s as [|a s IH]; [done|]. cbn [last_char]. destruct s as [|b s]; intros H.
  - injection H as ->. by exists "".
  - destruct (IH H) as [t Ht]. exists (String a t). by rewrite Ht.
Qed.

(** A record's name written out for the provider is read back as the name it had. *)
Theorem relativeTo_qualify name zone : RecordName name = Ok tt -> ZoneName zone = Ok tt ->
  relativeTo (qualify name zone) zone = name.
Proof.
  intros Hn Hz. destruct (ZoneName_plain zone Hz) as [Hl Ht], (ZoneName_safe zone Hz) as [Hs Hne].
  destruct (RecordName_safe name Hn) as [Hns Hnne]. pose proof (RecordName_lower name Hn) as Hnl.
  unfold relativeTo, qualify. unfold lowercase in Hl. rewrite Hl, Ht.
  destruct (String.eqb_spec name "@") as [->|Hat].
  { by rewrite safe_trim, Hl, Ht, String.eqb_refl. }
  rewrite safe_trim by (rewrite !safe_app; done).
  assert (Hfull : to_lower (name ++ "." ++ zone) = name ++ "." ++ zone).
  { apply lowercase_app. split; [done|]. by apply (lowercase_app "." zone). }
  rewrite Hfull.
  assert (Hdot : trim_suffix "." (name ++ "." ++ zone) = name ++ "." ++ zone).
  { unfold trim_suffix. destruct (trim_suffix_opt "." (name ++ "." ++ zone)) as [t|] eqn:Et; [|done].
    apply trim_suffix_opt_app in Et. exfalso.
    assert (Hlast : last_char zone = Some "."%char).
    { rewrite <- (last_char_app (name ++ ".") zone) by done. rewrite app_assoc_str, Et. by rewrite last_char_app. }
    destruct (last_char_snoc zone "." Hlast) as [u ->]. revert Ht. unfold trim_suffix. rewrite trim_suffix_opt_snoc by done.
    intros Hu. apply (f_equal String.length) in Hu. rewrite length_app_str in Hu. cbn in Hu. lia. }
  rewrite Hdot.
  assert (Hlen : (name ++ "." ++ zone =? zone) = false).
  { apply String.eqb_neq. intros He. apply (f_equal String.length) in He. rewrite !length_app_str in He. cbn in He. lia. }
  rewrite Hlen. destruct (String.eqb_spec (name ++ "." ++ zone) "") as [He|_]; [by destruct name|].
  cbn [orb]. unfold trim_suffix. by rewrite trim_suffix_opt_snoc.
Qed.
