(* ===== verification/DnsPanel.v ===== *)
(** * What is never published, and the panel on a small host

    Two paths of the panel's DNS that do not reach the name server whatever they do to the
    tables ([api/internal/dns/import.go], [api/internal/websites/subdomain.go]), and concrete
    runs of the requests of [DnsService] on a host that keeps what it was handed. *)

From stdpp Require Import gmap.
From S2P Require Import Prelude Store GoStr GoSort TenancyRules Netip DnsRules ZoneFile NamedConf NamedHost NamedChange DnsTemplates Protocol DnsTables DnsService DnsChange DnsPublish DnsOnHost DnsRemote.

#[local] Open Scope string_scope.
#[local] Open Scope store_scope.

Section never.
Context `{Postgres} {N : Type} `{NameServer N} (serverID : string).
Local Abbreviation M := (Store.M (World N) panel_err).

Lemma quiet_reconcile_unnamed : quiet (reconcile serverID "" : M unit).
Proof.
  unfold reconcile, ListZones, ReadSettings. apply quiet_bind; [quiet_tac|]. intros zs.
  apply quiet_bind; [quiet_tac|]. intros s. apply quiet_bind; [apply quiet_wire_zones|]. intros l.
  unfold Do. by intros w.
Qed.
Lemma quiet_publish_unnamed zone : quiet (publish serverID "" zone : M unit).
Proof. unfold publish, BumpSerial. apply quiet_bind; [quiet_tac|]. intros _. apply quiet_reconcile_unnamed. Qed.
Lemma quiet_logged {A} (m : M A) : quiet m -> quiet (logged m).
Proof. intros Hm. unfold logged. quiet_tac. Qed.
#[local] Hint Resolve quiet_reconcile_unnamed quiet_publish_unnamed quiet_logged : quiet.

(** The records a subdomain is given and those it leaves behind are written to and removed
    from the tables, but the name server is not told: the panel makes both calls under an empty
    request id, which the Agent's contract refuses before anything is sent. *)
Theorem subdomain_is_never_published parent domain (w : World N) :
  server (snd (publishSubdomainDNS serverID parent domain w)) = server w /\
  server (snd (withdrawSubdomainDNS serverID parent domain w)) = server w.
Proof.
  assert (Hq : quiet (publishSubdomainDNS serverID parent domain : M unit) /\
               quiet (withdrawSubdomainDNS serverID parent domain : M unit)).
  { unfold publishSubdomainDNS, withdrawSubdomainDNS, EnsureSubdomainRecords, RemoveSubdomainRecords, ZoneByName,
      DeleteManagedRecords, CreateRecordRow.
    split; apply quiet_logged; quiet_tac. }
  split; apply Hq.
Qed.

Context `{Provides N} (has_key : bool) (Decrypt : string -> string -> option string).

(** Neither the name server nor the zones are touched. *)
Definition beside (u v : World N) : Prop := server v = server u /\ zones (db v) = zones (db u).
Lemma beside_refl w : beside w w.
Proof. done. Qed.
Lemma beside_trans u v w : beside u v -> beside v w -> beside u w.
Proof. unfold beside. intros [-> ->] [-> ->]. done. Qed.

Lemma beside_exec {A} (s : Z -> statement A) :
  (forall now d a d', s now d = Ok (a, d') -> zones d' = zones d) -> respects beside (exec s : M A).
Proof.
  intros Hs. apply respects_call; [done..|apply beside_trans|]. intros w. cbn.
  destruct (s _ _) as [[a d]|e] eqn:E; [|done]. split; [done|]. by eapply Hs.
Qed.
Lemma beside_create p : respects beside (CreateRecordRow p : M string).
Proof.
  apply respects_call; [done..|apply beside_trans|]. intros w. destruct (uuids w) as [|id us]; [done|].
  destruct (insert_record id p (db w)) as [[[] d]|e] eqn:E; [|done].
  apply insert_record_spec in E as (_ & _ & _ & _ & ->). done.
Qed.
Lemma beside_query {A} (f : World N -> result panel_err A) : respects beside (Store.query ErrBackend f).
Proof. by apply respects_call; [..|apply beside_trans|]. Qed.
Lemma beside_asked {A} (f : Store.M N unit A) : (forall n, snd (f n) = n) -> respects beside (outside f : M A).
Proof. intros Hf w. unfold outside. specialize (Hf (server w)). destruct (f (server w)) as [[a|e] n]; cbn in Hf; by subst. Qed.

Lemma asks_bind {A B} (m : Store.M N unit A) (k : A -> Store.M N unit B) :
  (forall n, snd (m n) = n) -> (forall a n, snd (k a n) = n) -> forall n, snd (bind m k n) = n.
Proof. intros Hm Hk n. unfold bind. specialize (Hm n). destruct (m n) as [[a|e] n']; cbn in Hm; by subst. Qed.
Lemma fetch_asks zone : forall n, snd (FetchZone zone n) = n.
Proof.
  unfold FetchZone. apply asks_bind.
  { unfold zoneID. apply asks_bind; [done|]. intros zs n. by destruct (List.find _ _). }
  intros id. apply asks_bind; [|done]. unfold listRecords. generalize 1%Z. generalize 20%nat.
  induction n as [|f IH]; intros page; [done|]. cbn [list_pages]. apply asks_bind; [done|]. intros batch.
  destruct (_ <? _)%nat; [done|]. apply asks_bind; [apply IH|done].
Qed.

Lemma publish_of_no_zone requestID zone w : zones (db w) !! zone = None ->
  exists e w', (publish serverID requestID zone : M unit) w = (Err e, w') /\ beside w w'.
Proof.
  intros Hz. unfold publish, BumpSerial, bind, exec, call. cbn [faults_of World_faulty].
  unfold bump_serial. destruct (faults w) as [|[] fs]; cbn [db with_faults World_faulty]; rewrite ?Hz; by do 2 eexists.
Qed.

(** [beside], as long as there is no zone of the name [requestID]. *)
Definition astray (requestID : string) (u v : World N) : Prop := zones (db u) !! requestID = None -> beside u v.
Lemma astray_trans requestID u v w : astray requestID u v -> astray requestID v w -> astray requestID u w.
Proof.
  intros Huv' Hvw Hu. pose proof (Huv' Hu) as Huv. apply (beside_trans u v w); [done|]. apply Hvw. by destruct Huv as [_ ->].
Qed.
Lemma astray_beside {A} requestID (m : M A) : respects beside m -> respects (astray requestID) m.
Proof. intros Hm w _. apply Hm. Qed.
Lemma astray_bind {A B} requestID (m : M A) (k : A -> M B) :
  respects (astray requestID) m -> (forall a, respects (astray requestID) (k a)) -> respects (astray requestID) (bind m k).
Proof. apply respects_bind, astray_trans. Qed.
Lemma astray_pure {A} requestID (m : M A) : (forall w, snd (m w) = w) -> respects (astray requestID) m.
Proof. intros Hm w _. by rewrite Hm. Qed.
Lemma astray_sync requestID p status : respects (astray requestID) (RecordSync p status : M unit).
Proof. apply astray_beside, beside_exec. intros now d a d' [= _ <-]. done. Qed.
Lemma astray_publish requestID zone : respects (astray requestID) (publish serverID zone requestID : M unit).
Proof. intros w Hz. by destruct (publish_of_no_zone zone requestID w Hz) as (e & w' & -> & Hb). Qed.
Lemma astray_write requestID held ps : respects (astray requestID) (write_incoming held ps : M nat).
Proof.
  induction ps as [|p ps IH]; cbn [write_incoming]; [by apply astray_pure|]. case_bool_decide; [done|].
  apply astray_bind; [apply astray_beside, beside_create|]. intros _. apply astray_bind; [done|]. intros n. by apply astray_pure.
Qed.
Lemma astray_remoteFor requestID p : respects (astray requestID) (remoteFor serverID has_key Decrypt p : M unit).
Proof.
  unfold remoteFor, ProviderToken. apply astray_bind.
  - destruct (negb has_key); [by apply astray_pure|]. apply astray_bind; [apply astray_beside, beside_query|].
    intros row. destruct (Decrypt _ _); by apply astray_pure.
  - intros [kind token]. apply astray_bind; [apply astray_beside, beside_query|]. intros _. by apply astray_pure.
Qed.
Lemma astray_items requestID zone p : respects (astray requestID) (
  let! r := attempt (outside (FetchZone zone)) in
  match r with Ok items => ret items | Err e => logged (RecordSync p "failed") ;! fail e end : M (list ZRecord)).
Proof.
  apply astray_bind; [apply respects_attempt, astray_beside, beside_asked, fetch_asks|]. intros [items|e]; [by apply astray_pure|].
  apply astray_bind; [|intros _; by apply astray_pure]. unfold logged.
  apply astray_bind; [apply respects_attempt, astray_sync|]. intros _. by apply astray_pure.
Qed.

Lemma import_astray requestID zone p replace :
  respects (astray requestID) (ImportZone serverID has_key Decrypt requestID zone p replace : M ImportResult).
Proof.
  unfold ImportZone. apply astray_bind; [apply astray_beside, beside_query|]. intros z.
  destruct (zn_Kind z =? ZoneSlave); [by apply astray_pure|]. apply astray_bind; [apply astray_remoteFor|]. intros _.
  apply astray_bind; [apply astray_items|]. intros items. apply astray_bind; [apply astray_beside, beside_query|]. intros existing.
  destruct (incoming zone (zn_Name z) items) as [wanted skipped]. apply astray_bind.
  { destruct replace; [|by apply astray_pure]. apply astray_beside, beside_exec. by intros now d a d' [= _ <-]. }
  intros removed. cbv zeta. apply astray_bind; [apply astray_write|]. intros imported.
  apply astray_bind; [apply astray_beside; by intros w|]. intros _.
  apply astray_bind; [|intros _; by apply astray_pure]. destruct (_ || _); [apply astray_publish|by apply astray_pure].
Qed.

(** *** An import that answers *)
Lemma idle_fails {A} e : idle (fail e : M A).
Proof. by intros w a w'. Qed.
Lemma idle_remoteFor p : idle (remoteFor serverID has_key Decrypt p : M unit).
Proof.
  unfold remoteFor, ProviderToken. apply idle_then.
  - destruct (negb has_key); [apply idle_fails|]. apply idle_then; [apply (idle_query (get_provider p))|].
    intros row. destruct (Decrypt _ _); [apply idle_ret|apply idle_fails].
  - intros [kind token]. apply idle_then; [apply (idle_query (fun d => Ok (list_providers serverID d)))|]. intros _.
    unfold buildRemote. destruct (kind =? _); [apply idle_ret|apply idle_fails].
Qed.
Lemma idle_items zone p : idle (
  let! r := attempt (outside (FetchZone zone)) in
  match r with Ok items => ret items | Err e => logged (RecordSync p "failed") ;! fail e end : M (list ZRecord)).
Proof.
  intros w a w' (r & w1 & E1 & E2)%bind_ok. unfold attempt, outside in E1. pose proof (fetch_asks zone (server w)) as Hf.
  destruct (FetchZone zone (server w)) as [[items|e] n]; cbn in Hf; subst n; injection E1 as <- <-.
  - injection E2 as <- <-. done.
  - by apply gives_up in E2.
Qed.
Lemma write_incoming_none held ps w w' : (write_incoming held ps : M nat) w = (Ok 0%nat, w') -> db w' = db w.
Proof.
  induction ps as [|p ps IH]; cbn [write_incoming]; [by intros [= <-]|]. case_bool_decide; [done|].
  by intros (id & w1 & _ & (n & w2 & _ & E)%bind_ok)%bind_ok.
Qed.
Lemma deleted_none p d d' : delete_records p d = Ok (0%nat, d') -> records d' = records d.
Proof.
  intros [= Hl <-]. cbn [records with_records]. apply map_filter_id. intros id r Hr. apply not_true_iff_false. intros Hp.
  assert (Hin : In (id, r) (List.filter (fun x => p (snd x)) (map_to_list (records d)))).
  { apply filter_In. split; [by apply list_elem_of_In, elem_of_map_to_list|done]. }
  by destruct (List.filter _ _).
Qed.
Lemma exec_ok {A} (s : Z -> statement A) w a w' : (exec s : M A) w = (Ok a, w') ->
  exists now d', s now (db w) = Ok (a, d') /\ db w' = d' /\ server w' = server w.
Proof.
  unfold exec. intros [E|[fs E]]%call_ok; revert E; cbn; destruct (s _ _) as [[b d]|e] eqn:Es; try done;
    intros [= -> <-]; by do 2 eexists.
Qed.

(** An import from a provider is never published: whatever it wrote or removed, the name
    server is handed nothing, and one that answers without error has changed no record. The
    call that should publish names the request where the zone belongs. The hypothesis is that
    no zone has the identifier of the request, which two random UUIDs do not share. *)
Theorem import_is_never_published requestID zone p replace (w : World N) r w' :
  zones (db w) !! requestID = None ->
  ImportZone serverID has_key Decrypt requestID zone p replace w = (r, w') ->
  server w' = server w /\
  (forall res, r = Ok res -> Imported res = 0%nat /\ Replaced res = 0%nat /\ records (db w') = records (db w)).
Proof.
  intros Hz E. pose proof (import_astray requestID zone p replace w Hz) as Hb. rewrite E in Hb. cbn [snd] in Hb.
  split; [apply Hb|]. intros res ->. revert E.
  unfold ImportZone. intros (z & w1 & E1 & E)%bind_ok. apply (idle_query (get_zone zone)) in E1 as [Hd1 Hs1].
  destruct (zn_Kind z =? ZoneSlave); [done|]. apply bind_ok in E as ([] & w2 & E2 & E). apply idle_remoteFor in E2 as [Hd2 Hs2].
  apply bind_ok in E as (items & w3 & E3 & E). apply idle_items in E3 as [Hd3 Hs3].
  apply bind_ok in E as (existing & w4 & E4 & E). apply (idle_query (fun d => Ok (list_records zone d))) in E4 as [Hd4 Hs4].
  destruct (incoming zone (zn_Name z) items) as [wanted skipped]. apply bind_ok in E as (removed & w5 & E5 & E). cbv zeta in E.
  apply bind_ok in E as (imported & w6 & E6 & E). apply bind_ok in E as ([] & w7 & [= <-] & E).
  apply bind_ok in E as ([] & w8 & E8 & [= <- <-]). cbn [Imported Replaced].
  assert (Hd : db w4 = db w) by congruence.
  assert (H5 : zones (db w5) = zones (db w4) /\ (removed = 0%nat -> records (db w5) = records (db w4))).
  { destruct replace; [|by injection E5 as <- <-]. apply exec_ok in E5 as (now & d' & Ed & -> & _).
    split; [by injection Ed as _ <-|]. intros ->. by eapply deleted_none. }
  destruct ((0 <? imported)%nat || (0 <? removed)%nat) eqn:En.
  - destruct (publish_of_no_zone zone requestID (set_audit (audit w6 ++ [(ActionImport, zone)])%list w6))
      as (e' & w9' & Ep & _); [|congruence]. cbn [db set_audit].
    pose proof (astray_write requestID (if replace then [] else (fun r => identity (rr_Name (snd r)) (rr_Type (snd r)) (rr_Value (snd r))) <$> existing) wanted w5) as H6.
    rewrite E6 in H6. assert (H7 : zones (db w5) !! requestID = None) by by rewrite (proj1 H5), Hd.
    destruct (H6 H7) as [_ H8]. cbn [snd] in H8. by rewrite H8.
  - apply orb_false_iff in En as [Hi Hr]. apply Nat.ltb_ge in Hi, Hr. assert (imported = 0%nat) as -> by lia.
    assert (removed = 0%nat) as -> by lia. split_and!; [done|done|]. injection E8 as <-. cbn [db set_audit].
    apply write_incoming_none in E6. rewrite E6, (proj2 H5), Hd; done.
Qed.
End never.

(** ** On a small host: what it was handed, whether it takes what it is handed, and the records
    a provider has *)
Module Small.
Import DnsOnHost.Panel(postgres, no_tables, no_tables_ok, shop).
#[local] Existing Instance postgres.

Record Host := { taken : list NamedConf.Desired; refuses : bool; remote : list cfRecord }.
#[local] Instance host : NameServer Host := {
  take_zones d h := if refuses h then (Err Protocol.CodeInternal, h)
                    else (Ok tt, {| taken := taken h ++ [d]; refuses := false; remote := remote h |});
  signs _ := Ok true }.
#[local] Instance cloud : Provides Host := {
  find_zones name _ := Ok [("cf1", name)];
  list_page _ page h := Ok (if (page =? 1)%Z then remote h else []);
  post_record _ r h := (Ok tt, {| taken := taken h; refuses := refuses h; remote := remote h ++ [r] |});
  put_record _ _ _ h := (Ok tt, h);
  drop_record _ _ h := (Ok tt, h) }.

Definition empty : World Host := {|
  db := no_tables; server := {| taken := []; refuses := false; remote := [] |}; clock := [1788436800%Z];
  uuids := ["z1"; "r1"]; audit := []; addresses := ["192.0.2.7"]; faults := [] |}.
Definition request := "req-00000001".
Definition with_zone : World Host := snd (run_request "srv1" request (create_zone shop) empty).
(** The world of the next request. *)
Definition next (ids : list string) (fs : list fault) (no : bool) (w : World Host) : World Host := {|
  db := db w; server := {| taken := taken (server w); refuses := no; remote := remote (server w) |};
  clock := [1788436800%Z]; uuids := ids; audit := []; addresses := []; faults := fs |}.
Definition www : RecordRequest := {|
  rq_Name := "www"; rq_Type := "A"; rq_TTL := 0; rq_Value := "192.0.2.8"; rq_Priority := 0; rq_Weight := 0;
  rq_Port := 0; rq_Flags := 0; rq_Tag := "" |}.

Lemma with_zone_ok : tables_ok (db with_zone).
Proof. apply request_keeps, no_tables_ok. Qed.

Definition refused := CreateRecord "srv1" request "z1" www (next ["r2"] [] true with_zone).
Lemma failed_request_leaves_the_tables_witness :
  fst refused = Err (ErrAgent Protocol.CodeInternal) /\ but_a_serial (db with_zone) (db (snd refused)).
Proof.
  assert (E : fst refused = Err (ErrAgent Protocol.CodeInternal)) by (vm_compute; reflexivity). split; [exact E|].
  destruct (failed_request_leaves_the_tables "srv1" request (next ["r2"] [] true with_zone)
    (ErrAgent Protocol.CodeInternal) (snd refused)) as (_ & H & _); [exact with_zone_ok|reflexivity|].
  apply (H "z1" www). rewrite <- E. exact (surjective_pairing _).
Defined.

Definition added := run_request "srv1" request (create_record "z1" www) (next ["r2"] [] false with_zone).
Lemma published_record_moves_the_serial_witness :
  fst added = Ok tt /\ republished (db with_zone) (db (snd added)).
Proof.
  assert (E : fst added = Ok tt) by (vm_compute; reflexivity). split; [exact E|].
  apply (published_record_moves_the_serial "srv1" request (create_record "z1" www) (next ["r2"] [] false with_zone));
    [reflexivity|exact with_zone_ok|]. rewrite <- E. exact (surjective_pairing _).
Defined.

Lemma requests_keep_the_tables_witness : tables_ok (db (snd added)).
Proof.
  apply (requests_keep_the_tables "srv1" empty (snd added)); [|exact no_tables_ok].
  apply (requests_one "srv1" empty empty _ request (create_zone shop)); [reflexivity|].
  apply (requests_one "srv1" _ (next ["r2"] [] false with_zone) _ request (create_record "z1" www)); [reflexivity|].
  apply requests_none.
Defined.

(** The host took the record, the answer was lost, and the record is taken back. A repair then
    hands over a zone with the serial it already has and other records: a secondary that has
    seen the first keeps it. *)
Definition lost := CreateRecord "srv1" request "z1" www
  (next ["r2"] [Fine; Fine; Fine; Fine; Fine; Fine; Fine; NoReply] false with_zone).
Definition repaired := Repair "srv1" request (next [] [] false (snd lost)).
Definition serials_and_sizes (w : World Host) : list (list (Z * nat)) :=
  (fun d => (fun z => (Serial z, length (ZoneFile.Records z))) <$> d_Zones d) <$> taken (server w).
Example same_serial_other_records :
  fst lost = Err ErrBackend /\
  serials_and_sizes (snd repaired) = [[(1788436800%Z, 1)]; [(1788436801%Z, 2)]; [(1788436801%Z, 1)]].
Proof. vm_compute. split; reflexivity. Qed.

(** A deletion the host refuses is not taken back. *)
Example deleted_all_the_same :
  fst (DeleteRecord "srv1" request "r2" (next [] [] true (snd added))) = Err (ErrAgent Protocol.CodeInternal) /\
  records (db (snd (DeleteRecord "srv1" request "r2" (next [] [] true (snd added))))) !! "r2" = None.
Proof. vm_compute. split; reflexivity. Qed.

(** The template a host starts with writes an A record whatever its address is: with an IPv6
    address the row is written, the host's checks refuse it, and no zone can be created. *)
Example no_zone_on_ipv6 :
  let w := {|
    db := {| zones := ∅; records := ∅; settings := ∅;
             templates := {[ "t1" := {| tm_ServerID := "srv1"; tm_Name := "Default"; tm_Description := "";
                                        tm_IsDefault := true; tm_Builtin := true; tm_Records := builtin_records |} ]};
             providers := ∅; websites := ∅ |};
    server := DnsOnHost.Panel.created.(server); clock := []; uuids := ["z1"; "r1"; "r2"; "r3"]; audit := [];
    addresses := ["2001:db8::7"; "2001:db8::7"]; faults := [] |} in
  fst (@run_request _ _ DnsOnHost.Panel.on_this_host "srv1" request (create_zone shop) w) =
  Err (ErrAgent Protocol.CodeInvalidPayload).
Proof. vm_compute. reflexivity. Qed.

(** An import: the record is written, the answer is an error, and the host has not heard of it. *)
Definition with_provider : World Host := {|
  db := {| zones := zones (db with_zone); records := records (db with_zone); settings := ∅; templates := ∅;
           providers := {[ "p1" := {| pv_ServerID := "srv1"; pv_Kind := "cloudflare"; pv_Label := ""; pv_Token := "t";
                                      pv_AccountID := ""; pv_SyncStatus := "" |} ]};
           websites := ∅ |};
  server := {| taken := taken (server with_zone); refuses := false;
               remote := [{| cf_ID := "c1"; cf_Type := "A"; cf_Name := "www.shop.example"; cf_Content := "192.0.2.8";
                             cf_TTL := 1; cf_Priority := None; cf_Data := None |}] |};
  clock := []; uuids := ["r2"]; audit := []; addresses := []; faults := [] |}.
Definition imported := ImportZone "srv1" true (fun sealed _ => Some sealed) request "z1" "p1" false with_provider.
Lemma import_is_never_published_witness :
  fst imported = Err ErrZoneNotFound /\ (rr_Name <$> records (db (snd imported)) !! "r2") = Some "www" /\
  server (snd imported) = server with_provider.
Proof.
  split; [vm_compute; reflexivity|]. split; [vm_compute; reflexivity|].
  apply (import_is_never_published "srv1" true (fun sealed _ => Some sealed) request "z1" "p1" false with_provider (fst imported)).
  - vm_compute. reflexivity.
  - exact (surjective_pairing _).
Defined.

Definition mail : ZRecord := {|
  z_Name := "shop.example"; z_Type := "MX"; z_TTL := 0; z_Value := "mail.shop.example"; z_Priority := 10; z_Weight := 0;
  z_Port := 0; z_Flags := 0; z_Tag := "" |}.
Lemma fetched_after_push_witness : RecordType (z_Type mail) = Ok tt /\ fetched "shop.example" (toCloudflare mail) = Some mail.
Proof.
  assert (H : RecordType (z_Type mail) = Ok tt) by (vm_compute; reflexivity). split; [exact H|].
  exact (fetched_after_push "shop.example" mail H eq_refl).
Defined.

Lemma relativeTo_qualify_witness : relativeTo (qualify "mail.eu" "shop.example") "shop.example" = "mail.eu".
Proof. apply relativeTo_qualify; vm_compute; reflexivity. Defined.

(** What makes two records the same for a push leaves their priority out: a changed one is
    counted as unchanged and stays as it was there. *)
Example priority_is_not_pushed :
  let there := (toCloudflare mail) in
  let now := {| z_Name := "shop.example"; z_Type := "MX"; z_TTL := 0; z_Value := "mail.shop.example"; z_Priority := 20;
                z_Weight := 0; z_Port := 0; z_Flags := 0; z_Tag := "" |} in
  let '(r, h) := PushZone (fun l => l) "shop.example" [now] true {| taken := []; refuses := false; remote := [there] |} in
  r = Ok {| RemoteZoneID := "cf1"; Created := 0; Updated := 0; Deleted := 0; Unchanged := 1; Skipped := [] |} /\
  remote h = [there].
Proof. vm_compute. split; reflexivity. Qed.
End Small.
