(* ===== verification/FirewallRules.v ===== *)
(** * Firewall rules and the lockout guard
    ([shared/validate/firewall.go], [agent/internal/firewall/rule.go],
    [guard.go])

    A rule in the panel's shape, its validation, the ufw command line built from
    it, the two parsers that read ufw's own listings back, and the guard that
    refuses a change which would close the ports the host is administered
    through. *)

From S2P Require Import Prelude GoStr Netip.

#[local] Open Scope string_scope.

(** ** Validation ([validate/firewall.go]) *)
Inductive fw_err :=
| ErrInvalidFirewallRule | ErrInvalidPortSpec | ErrInvalidSource | ErrWouldLockOut.

Definition FirewallAllow := "allow".
Definition FirewallDeny := "deny".
Definition FirewallReject := "reject".
Definition FirewallLimit := "limit".
Definition FirewallIn := "in".
Definition FirewallOut := "out".
Definition ProtocolTCP := "tcp".
Definition ProtocolUDP := "udp".
Definition ProtocolAny := "any".
Definition SourceAny := "any".

Definition one_of (l : list string) (s : string) : bool := existsb (String.eqb s) l.

Definition FirewallAction (action : string) : result fw_err unit :=
  guard (negb (one_of [FirewallAllow; FirewallDeny; FirewallReject; FirewallLimit] action))
    ErrInvalidFirewallRule.

Definition FirewallDirection (direction : string) : result fw_err unit :=
  guard (negb (one_of [FirewallIn; FirewallOut] direction)) ErrInvalidFirewallRule.

Definition FirewallProtocol (protocol : string) : result fw_err unit :=
  guard (negb (one_of [ProtocolTCP; ProtocolUDP; ProtocolAny] protocol)) ErrInvalidFirewallRule.

(** One to five digits. *)
Definition short_digits (s : string) : bool :=
  ((1 <=? String.length s) && (String.length s <=? 5))%nat && str_forall is_digit s.

(** The groups 1 and 3 of [portPattern], [^([0-9]{1,5})(:([0-9]{1,5}))?$]. *)
Definition portPattern (s : string) : option (string * string) :=
  let '(low, high, ranged) := cut ":" s in
  if short_digits low && (negb ranged || short_digits high) then Some (low, high) else None.

(** [strconv.Atoi] of a group, then the bounds of a port. *)
Definition port_number (s : string) : result fw_err Z :=
  match atoi s with
  | Some n => guard ((n <? 1) || (65535 <? n))%Z ErrInvalidPortSpec ;? Ok n
  | None => Err ErrInvalidPortSpec
  end.

Definition FirewallPort (port : string) : result fw_err unit :=
  if port =? "" then Ok tt
  else match portPattern port with
       | None => Err ErrInvalidPortSpec
       | Some (g1, g3) =>
           let? low := port_number g1 in
           if g3 =? "" then Ok tt
           else let? high := port_number g3 in
                guard (high <=? low)%Z ErrInvalidPortSpec
       end.

Definition FirewallSource (source : string) : result fw_err unit :=
  if (source =? "") || (source =? SourceAny) then Ok tt
  else if contains_char "/" source then
    match ParsePrefix source with
    | None => Err ErrInvalidSource
    | Some (a, _) => guard (negb (Zone a =? "")) ErrInvalidSource
    end
  else
    match ParseAddr source with
    | None => Err ErrInvalidSource
    | Some a => guard (negb (Zone a =? "")) ErrInvalidSource
    end.

Definition MaxFirewallComment : nat := 120.

(** [commentPattern]: [^[a-zA-Z0-9 ._:/@()+-]*$]. *)
Definition comment_char (a : ascii) : bool :=
  is_lower a || is_upper a || is_digit a || contains_char a " ._:/@()+-".

Definition FirewallComment (comment : string) : result fw_err unit :=
  guard (MaxFirewallComment <? String.length comment)%nat ErrInvalidFirewallRule ;?
  guard (negb (str_forall comment_char comment)) ErrInvalidFirewallRule.

(** Whether a port specification covers a port. *)
Definition PortsOverlap (spec : string) (port : Z) : bool :=
  if spec =? "" then true
  else match portPattern spec with
       | None => false
       | Some (g1, g3) =>
           match atoi g1 with
           | None => false
           | Some low =>
               let high := if g3 =? "" then low else default low (atoi g3) in
               ((low <=? port) && (port <=? high))%Z
           end
       end.

(** ** Rules ([firewall/rule.go]) *)
Record Rule := {
  Action : string;
  Direction : string;
  Protocol : string;
  Port : string;
  Source : string;
  Comment : string;
  V6 : bool;
}.

#[global] Instance Rule_eq_dec : EqDecision Rule.
Proof. solve_decision. Defined.

Definition Validate (r : Rule) : result fw_err unit :=
  FirewallAction (Action r) ;?
  FirewallDirection (Direction r) ;?
  FirewallProtocol (Protocol r) ;?
  FirewallPort (Port r) ;?
  FirewallSource (Source r) ;?
  FirewallComment (Comment r) ;?
  guard ((Port r =? "") && negb (Protocol r =? ProtocolAny)) ErrInvalidFirewallRule.

Definition rule_ID (r : Rule) : string :=
  let source := if Source r =? "" then SourceAny else Source r in
  let port := if Port r =? "" then "any" else Port r in
  join "|" [Direction r; Action r; Protocol r; port; source].

(** [Args]: the ufw command line, one argv entry per element. *)
Definition Args (r : Rule) (verb : string) : list string :=
  let simple := ((Source r =? "") || (Source r =? SourceAny)) && negb (Port r =? "") in
  ((if verb =? "" then [] else [verb]) ++ [Action r] ++
   (if Direction r =? FirewallOut then ["out"] else []) ++
   (if simple then
      [if Protocol r =? ProtocolAny then Port r else (Port r ++ "/" ++ Protocol r)%string]
    else
      ["from"; if Source r =? "" then SourceAny else Source r] ++
      (if Port r =? "" then []
       else ["to"; "any"; "port"; Port r] ++
            (if Protocol r =? ProtocolAny then [] else ["proto"; Protocol r]))) ++
   (if Comment r =? "" then [] else ["comment"; Comment r]))%list.

(** [parseStatusLine]: one row of "ufw status numbered". *)
Definition parseStatusLine (line : string) : option Rule :=
  let line := trim_space line in
  if negb (has_prefix "[" line) then None
  else match cut_opt "]" line with
  | None => None
  | Some (_, rest) =>
      let line := trim_space rest in
      let '(comment, line) :=
        match cut_opt " # " line with
        | Some (before, after) => (trim_space after, trim_space before)
        | None => ("", line)
        end in
      let v6 := str_contains "(v6)" line in
      let line := if v6 then replace_all (String.length line) "(v6)" " " line else line in
      match fields line with
      | target :: action :: direction :: more =>
          let '(port, protocol) :=
            match cut "/" target with
            | (port, protocol, true) => (port, protocol)
            | (_, _, false) =>
                (if equal_fold target "Anywhere" then "" else target, ProtocolAny)
            end in
          let direction := to_lower direction in
          if negb (one_of [FirewallIn; FirewallOut] direction) then None
          else
            let source := trim_space (join " " more) in
            let source := if equal_fold source "Anywhere" || (source =? "")
                          then SourceAny else source in
            let rule := {| Action := to_lower action; Direction := direction;
                           Protocol := protocol; Port := port; Source := source;
                           Comment := comment; V6 := v6 |} in
            if is_ok (Validate rule) then Some rule else None
      | _ => None
      end
  end.

(** [indexOfField]: the fields before and after the first [want]. *)
Fixpoint cut_field (want : string) (l : list string) : option (list string * list string) :=
  match l with
  | [] => None
  | x :: r => if x =? want then Some ([], r)
              else match cut_field want r with
                   | Some (a, b) => Some (x :: a, b)
                   | None => None
                   end
  end.

(** The target of an added rule: its source, port and protocol. *)
Definition parse_target (fields : list string) : option (string * string * string) :=
  match fields with
  | [] => None
  | "from" :: rest =>
      match rest with
      | [] => None
      | source :: rest =>
          match rest with
          | "to" :: _ :: "port" :: more =>
              match more with
              | [] => None
              | port :: "proto" :: protocol :: _ => Some (source, port, protocol)
              | port :: _ => Some (source, port, ProtocolAny)
              end
          | _ => Some (source, "", ProtocolAny)
          end
      end
  | f :: _ =>
      let '(port, protocol, found) := cut "/" f in
      Some (SourceAny, port, if found then protocol else ProtocolAny)
  end.

Definition quotes : string := "'" ++ String "034" "".

(** [parseAddedLine]: one line of "ufw show added". *)
Definition parseAddedLine (line : string) : option Rule :=
  match fields (trim_space line) with
  | "ufw" :: action :: field :: more =>
      let rest := field :: more in
      let '(direction, rest) :=
        match rest with
        | "out" :: rest' => (FirewallOut, rest')
        | _ => (FirewallIn, rest)
        end in
      let '(comment, rest) :=
        match cut_field "comment" rest with
        | Some (before, after) => (trim_set quotes (join " " after), before)
        | None => ("", rest)
        end in
      match parse_target rest with
      | None => None
      | Some (source, port, protocol) =>
          let rule := {| Action := action; Direction := direction; Protocol := protocol;
                         Port := port; Source := source; Comment := comment; V6 := false |} in
          if is_ok (Validate rule) then Some rule else None
      end
  | _ => None
  end.

Definition mk action direction protocol port source comment v6 : Rule :=
  {| Action := action; Direction := direction; Protocol := protocol; Port := port;
     Source := source; Comment := comment; V6 := v6 |}.

Example parse_examples :
  parseStatusLine "[ 1] 22/tcp                     ALLOW IN    Anywhere                   # office"
    = Some (mk "allow" "in" "tcp" "22" "any" "office" false) /\
  parseStatusLine "[ 2] 7080:7090/tcp              ALLOW IN    10.0.0.0/8"
    = Some (mk "allow" "in" "tcp" "7080:7090" "10.0.0.0/8" "" false) /\
  parseStatusLine "[ 3] 8080/tcp (v6)              ALLOW IN    Anywhere (v6)"
    = Some (mk "allow" "in" "tcp" "8080" "any" "" true) /\
  parseAddedLine "ufw allow from 10.0.0.0/8 to any port 8080 proto tcp"
    = Some (mk "allow" "in" "tcp" "8080" "10.0.0.0/8" "" false) /\
  parseAddedLine "ufw deny out 25/tcp" = Some (mk "deny" "out" "tcp" "25" "any" "" false) /\
  parseAddedLine "ufw allow 443/tcp comment 'panel'"
    = Some (mk "allow" "in" "tcp" "443" "any" "panel" false) /\
  parseAddedLine "ufw deny from 203.0.113.7" = Some (mk "deny" "in" "any" "" "203.0.113.7" "" false).
Proof. vm_compute. repeat split. Qed.

(** ** Reading ufw's listings ([firewall/firewall.go], [Rules] and [Status]) *)

(** The loop of [Rules]: the IPv6 halves and repeated identifiers are dropped. *)
Fixpoint collect (parse : string -> option Rule) (seen : list string) (lines : list string)
  : list Rule :=
  match lines with
  | [] => []
  | line :: more =>
      match parse line with
      | None => collect parse seen more
      | Some rule =>
          if V6 rule then collect parse seen more
          else if existsb (String.eqb (rule_ID rule)) seen then collect parse seen more
          else rule :: collect parse (rule_ID rule :: seen) more
      end
  end.

Definition newline : ascii := "010".

(** What [Rules] makes of the output of "ufw status numbered" or "ufw show added". *)
Definition read_rules (enabled : bool) (stdout : string) : list Rule :=
  collect (if enabled then parseStatusLine else parseAddedLine) [] (split newline stdout).

Record Status := {
  Available : bool;
  Enabled : bool;
  DefaultIncoming : string;
  DefaultOutgoing : string;
  Rules : list Rule;
}.

(** [parseDefaults]: the last "incoming" and "outgoing" policies of the line. *)
Definition parseDefaults (line : string) : string * string :=
  fold_left
    (fun '(incoming, outgoing) part =>
       match cut " " (trim_space part) with
       | (_, _, false) => (incoming, outgoing)
       | (policy, scope, true) =>
           let scope := trim_set "()" scope in
           if scope =? "incoming" then (policy, outgoing)
           else if scope =? "outgoing" then (incoming, policy)
           else (incoming, outgoing)
       end)
    (split "," (trim_prefix "Default:" line)) ("", "").

(** The loop of [Status] over the output of "ufw status verbose". *)
Definition read_verbose (stdout : string) : Status :=
  fold_left
    (fun st line =>
       let trimmed := trim_space line in
       if has_prefix "Status:" trimmed then
         {| Available := Available st;
            Enabled := equal_fold (trim_space (trim_prefix "Status:" trimmed)) "active";
            DefaultIncoming := DefaultIncoming st; DefaultOutgoing := DefaultOutgoing st;
            Rules := Rules st |}
       else if has_prefix "Default:" trimmed then
         let '(incoming, outgoing) := parseDefaults trimmed in
         {| Available := Available st; Enabled := Enabled st;
            DefaultIncoming := incoming; DefaultOutgoing := outgoing; Rules := Rules st |}
       else st)
    (split newline stdout)
    {| Available := true; Enabled := false; DefaultIncoming := ""; DefaultOutgoing := "";
       Rules := [] |}.

Definition with_rules (st : Status) (rules : list Rule) : Status :=
  {| Available := Available st; Enabled := Enabled st; DefaultIncoming := DefaultIncoming st;
     DefaultOutgoing := DefaultOutgoing st; Rules := rules |}.

(** A firewall that cannot be reached: the zero [Status] with a reason. *)
Definition unavailable_status : Status :=
  {| Available := false; Enabled := false; DefaultIncoming := ""; DefaultOutgoing := "";
     Rules := [] |}.

(** ** The lockout guard ([firewall/guard.go]) *)
Definition DefaultGuardedPorts : list Z := [22; 80; 443]%Z.

Definition containsPort (ports : list Z) (port : Z) : bool := existsb (Z.eqb port) ports.

(** The body of the loop of [GuardedPortsFromEnv]. *)
Definition env_ports (ports : list Z) (field : string) : list Z :=
  let field := trim_space field in
  if field =? "" then ports
  else match atoi field with
       | None => ports
       | Some port => if ((port <? 1) || (65535 <? port))%Z then ports
                      else if containsPort ports port then ports else (ports ++ [port])%list
       end.

Definition GuardedPortsFromEnv (value : string) : list Z :=
  fold_left env_ports (split "," value) DefaultGuardedPorts.

(** [Options.GuardedPorts] as [NewProvider] takes it. *)
Definition provider_guarded (configured : list Z) : list Z :=
  match configured with [] => DefaultGuardedPorts | _ => configured end.

Definition ChangeAddRule := "rule.add".
Definition ChangeDeleteRule := "rule.delete".
Definition ChangeEnable := "enable".
Definition ChangeDisable := "disable".
Definition ChangeDefault := "default".

Record Change := {
  Kind : string;
  ch_Rule : Rule;
  Policy : string;
  ch_Direction : string;
}.

Definition guardRule (guarded : list Z) (rule : Rule) : result fw_err unit :=
  if Action rule =? FirewallAllow then Ok tt
  else if negb (Direction rule =? FirewallIn) then Ok tt
  else guard (existsb (fun port => PortsOverlap (Port rule) port &&
                                   negb (Protocol rule =? ProtocolUDP)) guarded)
         ErrWouldLockOut.

(** The body of the inner loop of [unprotected]: a rule that lets a port in. *)
Definition allows (port : Z) (rule : Rule) : bool :=
  ((Action rule =? FirewallAllow) || (Action rule =? FirewallLimit)) &&
  (Direction rule =? FirewallIn) &&
  negb (Protocol rule =? ProtocolUDP) &&
  PortsOverlap (Port rule) port.

Definition unprotected (guarded : list Z) (rules : list Rule) : list Z :=
  List.filter (fun port => negb (existsb (allows port) rules)) guarded.

Definition nothing_missing (guarded : list Z) (rules : list Rule) : result fw_err unit :=
  guard (match unprotected guarded rules with [] => false | _ => true end) ErrWouldLockOut.

Definition Guard (guarded : list Z) (change : Change) (current : Status) : result fw_err unit :=
  if Kind change =? ChangeAddRule then guardRule guarded (ch_Rule change)
  else if Kind change =? ChangeDefault then
    if (ch_Direction change =? FirewallIn) && negb (Policy change =? FirewallAllow)
    then nothing_missing guarded (Rules current) else Ok tt
  else if Kind change =? ChangeEnable then
    if negb (DefaultIncoming current =? FirewallAllow)
    then nothing_missing guarded (Rules current) else Ok tt
  else if Kind change =? ChangeDeleteRule then
    let remaining :=
      List.filter (fun rule => negb (rule_ID rule =? rule_ID (ch_Rule change)))
        (Rules current) in
    if Enabled current && negb (DefaultIncoming current =? FirewallAllow)
    then nothing_missing guarded remaining else Ok tt
  else if Kind change =? ChangeDisable then Ok tt
  else Err ErrInvalidFirewallRule.

(** [portList]: ports for a message an operator reads. *)
Definition portList (ports : list Z) : string :=
  match List.map itoa ports with
  | [] => ""
  | [x] => "port " ++ x
  | parts => "ports " ++ join ", " (removelast parts) ++ " and " ++ List.last parts ""
  end.

Example listing_examples :
  read_verbose (join (String newline "")
    ["Status: active"; "Logging: on (low)";
     "Default: deny (incoming), allow (outgoing), disabled (routed)"])
  = {| Available := true; Enabled := true; DefaultIncoming := "deny";
       DefaultOutgoing := "allow"; Rules := [] |} /\
  read_rules false (join (String newline "")
    ["Added user rules (see 'ufw status' for running firewall):"; "ufw allow 22/tcp";
     "ufw allow 22/tcp"; "ufw deny out 25/tcp"])
  = [mk "allow" "in" "tcp" "22" "any" "" false; mk "deny" "out" "tcp" "25" "any" "" false] /\
  GuardedPortsFromEnv "2222, x,22,70000" = [22; 80; 443; 2222]%Z /\
  portList [22; 80; 443]%Z = "ports 22, 80 and 443".
Proof. vm_compute. repeat split. Qed.

(** ** Port specifications *)

Lemma short_digits_spec s : short_digits s = true -> s <> "" /\ str_forall is_digit s = true.
Proof. unfold short_digits. intros H. bool_hyps. destruct s; [simpl in *; lia|done]. Qed.

Lemma portPattern_spec s low high :
  portPattern s = Some (low, high) ->
  low <> "" /\ str_forall is_digit low = true /\
  (s = low /\ high = "" \/
   s = low ++ ":" ++ high /\ high <> "" /\ str_forall is_digit high = true).
Proof.
  unfold portPattern. destruct (cut ":" s) as [[l h] b] eqn:E. apply cut_spec in E as [_ E].
  destruct (short_digits l && _) eqn:Ed; [|done]. intros [= <- <-].
  apply andb_true_iff in Ed as [Hl Hh]. apply short_digits_spec in Hl as [? ?].
  split; [done|split; [done|]]. destruct b.
  - apply short_digits_spec in Hh as [? ?]. right. naive_solver.
  - left. naive_solver.
Qed.

Lemma port_number_ok s v : port_number s = Ok v -> atoi s = Some v /\ (1 <= v <= 65535)%Z.
Proof.
  unfold port_number. destruct (atoi s) as [n|]; [|done]. intros H. go_inv H.
  simplify_eq. bool_hyps. split; [done|lia].
Qed.

(** A port specification the validator accepts: nothing, one port, or an
    ordered range, with every port in 1..65535. *)
Lemma FirewallPort_ok port :
  FirewallPort port = Ok tt ->
  port = "" \/
  exists low high lo hi, portPattern port = Some (low, high) /\ atoi low = Some lo /\
    (1 <= lo <= hi)%Z /\ (hi <= 65535)%Z /\
    (high = "" /\ hi = lo \/ high <> "" /\ atoi high = Some hi /\ (lo < hi)%Z).
Proof.
  unfold FirewallPort. destruct (String.eqb_spec port "") as [->|Hn]; [by left|].
  destruct (portPattern port) as [[low high]|] eqn:Ep; [|done]. intros H. right. go_inv H.
  apply port_number_ok in Hb as [Hlo ?].
  destruct (String.eqb_spec high "") as [->|Hh].
  - exists low, "", v, v. split_and!; try done; try lia. by left.
  - go_inv H. apply port_number_ok in Hb as [Hhi ?]. apply guard_ok in H.
    apply Z.leb_gt in H. exists low, high, v, v0. split_and!; try done; try lia. by right.
Qed.

Definition port_char (a : ascii) : bool := is_digit a || Ascii.eqb a ":".

Lemma FirewallPort_chars port :
  FirewallPort port = Ok tt -> str_forall port_char port = true.
Proof.
  intros H. apply FirewallPort_ok in H as [->|(low & high & lo & hi & Hp & _)]; [done|].
  assert (Hd : forall s, str_forall is_digit s = true -> str_forall port_char s = true).
  { intros s. apply str_forall_impl. unfold port_char. by intros ? ->. }
  apply portPattern_spec in Hp as (_ & Hl & [[-> ->]|(-> & _ & Hh)]); [by apply Hd|].
  rewrite !str_forall_app, (Hd low), (Hd high) by done. reflexivity.
Qed.

(** The port a specification covers, given what the validator accepted. *)
Lemma PortsOverlap_range port q :
  FirewallPort port = Ok tt ->
  PortsOverlap port q = true <->
  port = "" \/
  exists low high lo hi, portPattern port = Some (low, high) /\ atoi low = Some lo /\
    (high = "" /\ hi = lo \/ atoi high = Some hi) /\ (lo <= q <= hi)%Z.
Proof.
  intros H. unfold PortsOverlap.
  destruct (String.eqb_spec port "") as [->|Hn]; [naive_solver|].
  apply FirewallPort_ok in H as [?|(low & high & lo & hi & -> & Hlo & H1 & H2 & Hhi)]; [done|].
  rewrite Hlo. destruct Hhi as [[-> ->]|(Hh & Hhi & _)].
  - simpl. rewrite andb_true_iff, !Z.leb_le. split.
    + intros [? ?]. right. exists low, "", lo, lo. naive_solver.
    + intros [?|(? & ? & ? & ? & ? & ? & [[? ?]|Hs] & ?)]; simplify_eq/=;
        first [lia|done].
  - rewrite (proj2 (String.eqb_neq _ _) Hh), Hhi. simpl. rewrite andb_true_iff, !Z.leb_le. split.
    + intros [? ?]. right. exists low, high, lo, hi. naive_solver.
    + intros [?|(? & ? & ? & ? & ? & ? & [[? ?]|Hs] & ?)]; simplify_eq; lia.
Qed.

(** ** The guard keeps the host reachable *)

(** The rules ufw consults for an incoming TCP connection to a port. *)
Definition inbound_tcp (port : Z) (r : Rule) : bool :=
  (Direction r =? FirewallIn) && negb (Protocol r =? ProtocolUDP) && PortsOverlap (Port r) port.

Definition lets_in (action : string) : bool :=
  (action =? FirewallAllow) || (action =? FirewallLimit).

(** ufw's answer to a connection: the action of the first rule that matches its
    port and its source address ([from] says which rules' sources cover the
    address), and the default policy when none does. *)
Definition verdict (st : Status) (from : Rule -> bool) (port : Z) : string :=
  if negb (Enabled st) then FirewallAllow
  else match List.find (fun r => inbound_tcp port r && from r) (Rules st) with
       | Some r => Action r
       | None => DefaultIncoming st
       end.

(** No rule closes a guarded port, and when the policy closes what no rule
    opens, every guarded port has a rule that opens it. *)
Definition guarded_open (guarded : list Z) (st : Status) : Prop :=
  (forall r port, r ∈ Rules st -> port ∈ guarded -> inbound_tcp port r = true ->
     lets_in (Action r) = true) /\
  (Enabled st = true -> DefaultIncoming st <> FirewallAllow ->
     forall port, port ∈ guarded -> exists r, r ∈ Rules st /\ allows port r = true).

Lemma allows_inbound port r :
  allows port r = lets_in (Action r) && inbound_tcp port r.
Proof. unfold allows, lets_in, inbound_tcp. by rewrite !andb_assoc. Qed.

Lemma nothing_missing_ok guarded rules :
  nothing_missing guarded rules = Ok tt <->
  forall port, port ∈ guarded -> exists r, r ∈ rules /\ allows port r = true.
Proof.
  unfold nothing_missing, unprotected. rewrite guard_ok. split.
  - intros H port Hp. apply existsb_elem.
    destruct (existsb (allows port) rules) eqn:E; [done|].
    assert (Hin : In port (List.filter (fun p => negb (existsb (allows p) rules)) guarded)).
    { apply filter_In. rewrite E. by rewrite <- list_elem_of_In. }
    destruct (List.filter _ guarded); [inversion Hin|done].
  - intros H. destruct (List.filter _ guarded) as [|p l] eqn:E; [done|]. exfalso.
    assert (Hin : In p (p :: l)) by by left. rewrite <- E in Hin.
    apply filter_In in Hin as [Hp Hn]. apply list_elem_of_In in Hp.
    specialize (H p Hp) as Hx. apply existsb_elem in Hx. by rewrite Hx in Hn.
Qed.

(** A connection the operator can count on: with no closing rule, an address
    covered by a rule that opens the port is let in, and every address is when
    the policy allows. *)
Lemma guarded_open_verdict guarded st from port :
  guarded_open guarded st -> port ∈ guarded ->
  (DefaultIncoming st <> FirewallAllow ->
   exists r, r ∈ Rules st /\ allows port r = true /\ from r = true) ->
  lets_in (verdict st from port) = true.
Proof.
  intros [Hc _] Hp Hf. unfold verdict. destruct (Enabled st); simpl; [|done].
  destruct (List.find _ _) as [r|] eqn:E.
  - apply find_some in E as [Hin Hm]. apply andb_true_iff in Hm as [Hm _].
    eapply Hc; eauto. by apply list_elem_of_In.
  - destruct (String.eqb_spec (DefaultIncoming st) FirewallAllow) as [->|Hn]; [done|].
    destruct (Hf Hn) as (r & Hin & Ha & Hr). rewrite allows_inbound in Ha.
    apply list_elem_of_In in Hin. eapply find_none in E; [|exact Hin].
    bool_hyps. rewrite Hr, andb_true_r in E. congruence.
Qed.

(** ufw's effect on what it enforces, as its manual page documents it: adding a
    rule keeps every other one except a rule with the same match, which the
    new one replaces; deleting removes the rules of that specification;
    the rest changes one setting. *)
Definition same_match (r s : Rule) : Prop :=
  Direction r = Direction s /\ Protocol r = Protocol s /\ Port r = Port s.

Class UfwEffect := {
  after : Change -> Status -> Status;
  after_add ch st : Kind ch = ChangeAddRule ->
    Enabled (after ch st) = Enabled st /\
    DefaultIncoming (after ch st) = DefaultIncoming st /\
    ch_Rule ch ∈ Rules (after ch st) /\
    (forall r, r ∈ Rules (after ch st) -> r = ch_Rule ch \/ r ∈ Rules st) /\
    (forall r, r ∈ Rules st -> r ∈ Rules (after ch st) \/ same_match r (ch_Rule ch));
  after_delete ch st : Kind ch = ChangeDeleteRule ->
    Enabled (after ch st) = Enabled st /\
    DefaultIncoming (after ch st) = DefaultIncoming st /\
    (forall r, r ∈ Rules (after ch st) <->
       r ∈ Rules st /\ rule_ID r <> rule_ID (ch_Rule ch));
  after_enable ch st : Kind ch = ChangeEnable ->
    Enabled (after ch st) = true /\ DefaultIncoming (after ch st) = DefaultIncoming st /\
    Rules (after ch st) = Rules st;
  after_disable ch st : Kind ch = ChangeDisable ->
    Enabled (after ch st) = false /\ DefaultIncoming (after ch st) = DefaultIncoming st /\
    Rules (after ch st) = Rules st;
  after_default ch st : Kind ch = ChangeDefault ->
    Enabled (after ch st) = Enabled st /\
    DefaultIncoming (after ch st) =
      (if ch_Direction ch =? FirewallIn then Policy ch else DefaultIncoming st) /\
    Rules (after ch st) = Rules st;
}.

Lemma Guard_kinds guarded ch st :
  Guard guarded ch st = Ok tt ->
  Kind ch = ChangeAddRule \/ Kind ch = ChangeDefault \/ Kind ch = ChangeEnable \/
  Kind ch = ChangeDeleteRule \/ Kind ch = ChangeDisable.
Proof.
  unfold Guard. repeat (case_match; bool_hyps; [tauto|]). done.
Qed.

Section guard_effect.
Context `{UfwEffect} (guarded : list Z).

Lemma guardRule_open rule port :
  guardRule guarded rule = Ok tt -> port ∈ guarded -> inbound_tcp port rule = true ->
  Action rule = FirewallAllow.
Proof.
  unfold guardRule. intros Hg Hp Hi.
  destruct (String.eqb_spec (Action rule) FirewallAllow) as [|Hn]; [done|].
  unfold inbound_tcp in Hi. apply andb_true_iff in Hi as [Hi Ho].
  apply andb_true_iff in Hi as [Hd Hu]. rewrite Hd in Hg. simpl in Hg.
  apply guard_ok in Hg. exfalso. eapply eq_true_false_abs; [|exact Hg].
  apply existsb_elem. exists port. by rewrite Ho, Hu.
Qed.

Lemma same_match_inbound port r s : same_match r s -> inbound_tcp port r = inbound_tcp port s.
Proof. unfold same_match, inbound_tcp. by intros (-> & -> & ->). Qed.

Lemma Guard_add_open ch st :
  Kind ch = ChangeAddRule -> guardRule guarded (ch_Rule ch) = Ok tt ->
  guarded_open guarded st -> guarded_open guarded (after ch st).
Proof.
  intros Hk Hg [Hc Ho]. destruct (after_add ch st Hk) as (He & Hd & Hin & Hnew & Hold).
  split.
  - intros r port Hr Hp Hi. destruct (Hnew r Hr) as [->|Hr']; [|by eapply Hc].
    unfold lets_in. by rewrite (guardRule_open _ _ Hg Hp Hi).
  - intros E D port Hp. rewrite He in E. rewrite Hd in D.
    destruct (Ho E D port Hp) as (r & Hr & Ha). destruct (Hold r Hr) as [?|Hm]; [by exists r|].
    exists (ch_Rule ch). split; [done|]. rewrite allows_inbound in *. bool_hyps.
    rewrite (same_match_inbound port _ _ Hm) in *. apply andb_true_iff. split; [|done].
    unfold lets_in. by rewrite (guardRule_open _ _ Hg Hp).
Qed.

Lemma Guard_delete_open ch st :
  Kind ch = ChangeDeleteRule -> Guard guarded ch st = Ok tt ->
  guarded_open guarded st -> guarded_open guarded (after ch st).
Proof.
  intros Hk Hg [Hc _]. destruct (after_delete ch st Hk) as (He & Hd & Hr). split.
  - intros r port Hin. apply Hr in Hin as [Hin _]. by apply Hc.
  - intros E D port Hp. rewrite He in E. rewrite Hd in D.
    unfold Guard in Hg. rewrite Hk in Hg. cbn -[nothing_missing List.filter] in Hg.
    rewrite E, (proj2 (String.eqb_neq _ _) D) in Hg. simpl in Hg.
    destruct (proj1 (nothing_missing_ok _ _) Hg port Hp) as (r & Hin & Ha).
    exists r. split; [|done]. apply Hr. apply list_elem_of_In, filter_In in Hin as [Hin Hn].
    bool_hyps. split; [by apply list_elem_of_In|done].
Qed.

Lemma Guard_keeps_open_core ch st :
  Guard guarded ch st = Ok tt ->
  guarded_open guarded st -> guarded_open guarded (after ch st).
Proof.
  intros Hg Hs. pose proof Hg as Hk. apply Guard_kinds in Hk as [Hk|[Hk|[Hk|[Hk|Hk]]]].
  - apply Guard_add_open; [done| |done]. unfold Guard in Hg. by rewrite Hk in Hg.
  - destruct (after_default ch st Hk) as (He & Hd & Hr). destruct Hs as [Hc Ho].
    split; [by rewrite Hr|]. rewrite Hr, He, Hd. intros E D. unfold Guard in Hg.
    rewrite Hk in Hg. cbn -[nothing_missing] in Hg.
    destruct (ch_Direction ch =? FirewallIn); simpl in Hg; [|by apply Ho].
    rewrite (proj2 (String.eqb_neq _ _) D) in Hg. by apply nothing_missing_ok.
  - destruct (after_enable ch st Hk) as (He & Hd & Hr). destruct Hs as [Hc Ho].
    split; [by rewrite Hr|]. rewrite Hr, Hd. intros _ D. unfold Guard in Hg.
    rewrite Hk in Hg. cbn -[nothing_missing] in Hg.
    rewrite (proj2 (String.eqb_neq _ _) D) in Hg. by apply nothing_missing_ok.
  - by apply Guard_delete_open.
  - destruct (after_disable ch st Hk) as (He & Hd & Hr). destruct Hs as [Hc Ho].
    split; [by rewrite Hr|]. rewrite He. done.
Qed.

End guard_effect.

(** One accepted change. *)
Inductive guarded_step `{UfwEffect} (guarded : list Z) : Status -> Change -> Status -> Prop :=
| accepted ch st : Guard guarded ch st = Ok tt -> guarded_step guarded st ch (after ch st).

(** A direct ufw: rules are replaced by match and removed by identifier. *)
Definition ufw_after (ch : Change) (st : Status) : Status :=
  if Kind ch =? ChangeAddRule then
    with_rules st (ch_Rule ch ::
      List.filter (fun r => negb ((Direction r =? Direction (ch_Rule ch)) &&
                                  (Protocol r =? Protocol (ch_Rule ch)) &&
                                  (Port r =? Port (ch_Rule ch)))) (Rules st))
  else if Kind ch =? ChangeDeleteRule then
    with_rules st
      (List.filter (fun r => negb (rule_ID r =? rule_ID (ch_Rule ch))) (Rules st))
  else
    {| Available := Available st;
       Enabled := if Kind ch =? ChangeEnable then true
                  else if Kind ch =? ChangeDisable then false else Enabled st;
       DefaultIncoming := if (Kind ch =? ChangeDefault) && (ch_Direction ch =? FirewallIn)
                          then Policy ch else DefaultIncoming st;
       DefaultOutgoing := DefaultOutgoing st; Rules := Rules st |}.

#[export] Instance direct_ufw : UfwEffect.
Proof.
  refine {| after := ufw_after |}; intros ch st Hk; unfold ufw_after; rewrite Hk;
    repeat (split; [done|]); try done.
  - simpl. split; [by left|split].
    + intros r [->|Hr]%elem_of_cons; [by left|]. right.
      apply list_elem_of_In, filter_In in Hr as [Hr _]. by apply list_elem_of_In.
    + intros r Hr.
      destruct ((Direction r =? Direction (ch_Rule ch)) && (Protocol r =? Protocol (ch_Rule ch)) &&
                (Port r =? Port (ch_Rule ch))) eqn:E.
      * right. bool_hyps. done.
      * left. right. apply list_elem_of_In, filter_In. rewrite E.
        split; [by apply list_elem_of_In|done].
  - simpl. intros r. rewrite list_elem_of_In, filter_In, negb_true_iff, String.eqb_neq.
    by rewrite list_elem_of_In.
Defined.

(** C3: every change the lockout guard accepts leaves the guarded ports open.
    Starting from a ruleset in which no rule closes a guarded port and, when the
    default policy closes what no rule opens, every guarded port has a rule
    that opens it, any sequence of accepted changes (rules added and
    deleted, the policy changed, the firewall switched on and off, with ufw acting
    as documented) ends in such a ruleset, and there a connection to a
    guarded port from an address an opening rule covers (from any address under an
    allowing policy) is let in. *)
Theorem Guard_keeps_ports_open `{UfwEffect} guarded st chs st' from port :
  guarded_open guarded st ->
  run (guarded_step guarded) st chs st' ->
  port ∈ guarded ->
  guarded_open guarded st' /\
  ((DefaultIncoming st' <> FirewallAllow ->
    exists r, r ∈ Rules st' /\ allows port r = true /\ from r = true) ->
   lets_in (verdict st' from port) = true).
Proof.
  intros Hs Hr Hp. assert (Ho : guarded_open guarded st').
  { eapply run_invariant; [|exact Hs|exact Hr]. intros s l s' Hi Hst.
    destruct Hst. by apply Guard_keeps_open_core. }
  split; [done|]. by apply (guarded_open_verdict guarded).
Qed.

Definition ssh_rule := mk "allow" "in" "tcp" "22" "any" "" false.
Definition web_rule := mk "allow" "in" "tcp" "80:443" "any" "" false.
Definition off_host : Status :=
  {| Available := true; Enabled := false; DefaultIncoming := "deny";
     DefaultOutgoing := "allow"; Rules := [ssh_rule] |}.
Definition change kind rule := {| Kind := kind; ch_Rule := rule; Policy := ""; ch_Direction := "" |}.

Lemma Guard_keeps_ports_open_witness :
  let st' := ufw_after (change ChangeEnable ssh_rule)
               (ufw_after (change ChangeAddRule web_rule) off_host) in
  guarded_open [22; 80; 443]%Z st' /\
  lets_in (verdict st' (fun _ => true) 443) = true.
Proof.
  intros st'.
  destruct (Guard_keeps_ports_open (H := direct_ufw) [22; 80; 443]%Z off_host
              [change ChangeAddRule web_rule; change ChangeEnable ssh_rule] st'
              (fun _ => true) 443%Z) as [Ho Hv].
  - split; [|done]. intros r port Hr Hp Hi.
    change (Rules off_host) with [ssh_rule] in Hr.
    apply list_elem_of_singleton in Hr as ->. reflexivity.
  - eapply run_cons; [apply (accepted (H := direct_ufw)); reflexivity|].
    eapply run_cons; [apply (accepted (H := direct_ufw)); reflexivity|]. apply run_nil.
  - apply list_elem_of_In. simpl. tauto.
  - split; [exact Ho|]. apply Hv. intros _. exists web_rule.
    split; [apply list_elem_of_In; simpl; tauto|]. split; reflexivity.
Defined.

Lemma nothing_missing_err guarded rules e :
  nothing_missing guarded rules = Err e ->
  e = ErrWouldLockOut /\
  exists port, port ∈ guarded /\ forall r, r ∈ rules -> allows port r = false.
Proof.
  unfold nothing_missing, unprotected. intros [H <-]%guard_err. split; [done|].
  destruct (List.filter _ guarded) as [|p l] eqn:E; [done|].
  assert (Hin : In p (p :: l)) by by left. rewrite <- E in Hin.
  apply filter_In in Hin as [Hp Hn]. exists p. split; [by apply list_elem_of_In|].
  intros r Hr. destruct (allows p r) eqn:Ea; [|done].
  rewrite (proj2 (existsb_elem _ _)) in Hn; [done|]. by exists r.
Qed.

(** The guard refuses only what it means to refuse. A refused change is
    either of an unknown kind, or there is a guarded port which, once the change
    is made, is touched by a rule that restricts it or is opened by no rule. *)
Theorem Guard_refusals `{UfwEffect} guarded ch st e :
  Guard guarded ch st = Err e ->
  (e = ErrInvalidFirewallRule /\
   ~ (Kind ch ∈ [ChangeAddRule; ChangeDeleteRule; ChangeEnable; ChangeDisable; ChangeDefault])) \/
  (e = ErrWouldLockOut /\ exists port, port ∈ guarded /\
     ((exists r, r ∈ Rules (after ch st) /\ inbound_tcp port r = true /\
        Action r <> FirewallAllow) \/
      (forall r, r ∈ Rules (after ch st) -> allows port r = false))).
Proof.
  unfold Guard. intros Hg.
  destruct (String.eqb_spec (Kind ch) ChangeAddRule) as [Hk|H1].
  { right. destruct (after_add ch st Hk) as (_ & _ & Hin & _ & _). unfold guardRule in Hg.
    destruct (Action _ =? FirewallAllow) eqn:Ea; [done|].
    destruct (Direction _ =? FirewallIn) eqn:Ed; [|done]. simpl in Hg.
    apply guard_err in Hg as [Hx <-]. apply existsb_elem in Hx as (port & Hp & Hx).
    apply andb_true_iff in Hx as [Ho Hu]. split; [done|]. exists port. split; [done|]. left.
    exists (ch_Rule ch). split; [done|]. unfold inbound_tcp. rewrite Ed, Hu, Ho.
    bool_hyps. done. }
  destruct (String.eqb_spec (Kind ch) ChangeDefault) as [Hk|H2].
  { right. destruct (after_default ch st Hk) as (_ & _ & ->).
    destruct (_ && _); [|done]. apply nothing_missing_err in Hg as (-> & port & Hp & Hr).
    eauto 6. }
  destruct (String.eqb_spec (Kind ch) ChangeEnable) as [Hk|H3].
  { right. destruct (after_enable ch st Hk) as (_ & _ & ->).
    destruct (negb _); [|done]. apply nothing_missing_err in Hg as (-> & port & Hp & Hr).
    eauto 6. }
  destruct (String.eqb_spec (Kind ch) ChangeDeleteRule) as [Hk|H4].
  { right. destruct (after_delete ch st Hk) as (_ & _ & Ha).
    destruct (_ && _); [|done]. apply nothing_missing_err in Hg as (-> & port & Hp & Hr).
    split; [done|]. exists port. split; [done|]. right. intros r [Hin Hn]%Ha. apply Hr.
    apply list_elem_of_In, filter_In. split; [by apply list_elem_of_In|].
    by rewrite negb_true_iff, String.eqb_neq. }
  destruct (String.eqb_spec (Kind ch) ChangeDisable) as [Hk|H5]; [done|]. left.
  simplify_eq. split; [done|]. rewrite !elem_of_cons, elem_of_nil. tauto.
Qed.

Lemma Guard_refusals_witness :
  let ch := change ChangeAddRule (mk "deny" "in" "any" "" "any" "" false) in
  exists port, port ∈ [22]%Z /\
     ((exists r, r ∈ Rules (ufw_after ch off_host) /\ inbound_tcp port r = true /\
        Action r <> FirewallAllow) \/
      (forall r, r ∈ Rules (ufw_after ch off_host) -> allows port r = false)).
Proof.
  intros ch.
  destruct (Guard_refusals (H := direct_ufw) [22]%Z ch off_host ErrWouldLockOut eq_refl)
    as [[Hx _]|[_ Hx]]; [discriminate Hx|exact Hx].
Defined.

(** ** The configured guard list *)

Definition env_port (value : string) (port : Z) : Prop :=
  exists field, field ∈ split "," value /\ atoi (trim_space field) = Some port /\
    (1 <= port <= 65535)%Z.

Lemma containsPort_elem ports port : containsPort ports port = true <-> port ∈ ports.
Proof.
  unfold containsPort. rewrite existsb_elem. setoid_rewrite Z.eqb_eq. naive_solver.
Qed.

Lemma env_ports_spec ports field :
  NoDup ports ->
  NoDup (env_ports ports field) /\
  (exists more, env_ports ports field = ports ++ more)%list /\
  forall port, port ∈ env_ports ports field <->
    port ∈ ports \/ atoi (trim_space field) = Some port /\ (1 <= port <= 65535)%Z.
Proof.
  intros Hnd. unfold env_ports. cbn zeta.
  assert (Hsame : exists more, ports = (ports ++ more)%list) by (exists []; by rewrite app_nil_r).
  destruct (String.eqb_spec (trim_space field) "") as [->|Hn].
  { split_and!; [done|done|]. intros port. split; [by left|]. by intros [?|[? _]]. }
  destruct (atoi (trim_space field)) as [p|].
  2:{ split_and!; [done|done|]. intros port. split; [by left|]. by intros [?|[? _]]. }
  destruct (_ || _) eqn:Er.
  { split_and!; [done|done|]. intros port. split; [by left|]. intros [?|[? ?]]; [done|].
    simplify_eq. bool_cases; lia. }
  bool_hyps. destruct (containsPort ports p) eqn:Ec.
  - apply containsPort_elem in Ec. split_and!; [done|done|]. intros port.
    split; [by left|]. intros [?|[? _]]; by simplify_eq.
  - assert (Hni : p ∉ ports) by (rewrite <- containsPort_elem; congruence).
    split_and!; [|by exists [p]|].
    + apply list.NoDup_app. split_and!; [done| |apply NoDup_singleton].
      intros x Hx ->%list_elem_of_singleton. done.
    + intros port. rewrite elem_of_app, list_elem_of_singleton. split.
      * intros [?| ->]; [by left|]. right. split; [done|lia].
      * intros [?|[? _]]; [by left|]. simplify_eq. by right.
Qed.

(** The guard list never loses a default port and never holds a bad
    one. It starts with 22, 80 and 443, has no duplicates, and the other ports in it
    are exactly the comma-separated fields of the setting that read as a number in
    1..65535; malformed fields are skipped. *)
Theorem GuardedPortsFromEnv_spec value :
  NoDup (GuardedPortsFromEnv value) /\
  (exists more, GuardedPortsFromEnv value = DefaultGuardedPorts ++ more)%list /\
  forall port, port ∈ GuardedPortsFromEnv value <->
    port ∈ DefaultGuardedPorts \/ env_port value port.
Proof.
  assert (Hg : forall fs ports, NoDup ports ->
    NoDup (fold_left env_ports fs ports) /\
    (exists more, fold_left env_ports fs ports = ports ++ more)%list /\
    forall port, port ∈ fold_left env_ports fs ports <-> port ∈ ports \/
      exists f, f ∈ fs /\ atoi (trim_space f) = Some port /\ (1 <= port <= 65535)%Z).
  { induction fs as [|f fs IH]; intros ports Hnd; simpl.
    - split_and!; [done|exists []; by rewrite app_nil_r|]. intros port. split; [by left|].
      intros [?|(f & Hf & _)]; [done|]. by apply elem_of_nil in Hf.
    - destruct (env_ports_spec ports f Hnd) as (Hnd' & [m Hm] & Hel).
      destruct (IH _ Hnd') as (Hnd'' & [m' Hm'] & Hel'). split_and!; [done| |].
      + exists (m ++ m')%list. by rewrite Hm', Hm, app_assoc.
      + intros port. rewrite Hel', Hel. setoid_rewrite elem_of_cons. naive_solver. }
  apply (Hg (split "," value) DefaultGuardedPorts).
  by apply (bool_decide_eq_true_1 (NoDup DefaultGuardedPorts)).
Qed.

(** ** Added rules read back *)

Definition no_comment (r : Rule) : Rule :=
  mk (Action r) (Direction r) (Protocol r) (Port r) (Source r) "" (V6 r).

(** What [Rules] reports for a rule: the source is always named, and
    "show added" does not tell address families apart. *)
Definition normal (r : Rule) : Rule :=
  mk (Action r) (Direction r) (Protocol r) (Port r)
     (if Source r =? "" then SourceAny else Source r) (Comment r) false.

(** The part of the command line after the action and the direction. *)
Definition target_args (r : Rule) : list string :=
  if ((Source r =? "") || (Source r =? SourceAny)) && negb (Port r =? "") then
    [if Protocol r =? ProtocolAny then Port r else (Port r ++ "/" ++ Protocol r)%string]
  else
    ["from"; if Source r =? "" then SourceAny else Source r] ++
    (if Port r =? "" then []
     else ["to"; "any"; "port"; Port r] ++
          (if Protocol r =? ProtocolAny then [] else ["proto"; Protocol r])).

Lemma Args_no_comment r :
  Args (no_comment r) "" =
    (Action r :: (if Direction r =? FirewallOut then ["out"] else []) ++ target_args r)%list.
Proof. unfold Args, target_args. simpl. by rewrite app_nil_r. Qed.

Lemma Validate_ok r :
  Validate r = Ok tt ->
  Action r ∈ [FirewallAllow; FirewallDeny; FirewallReject; FirewallLimit] /\
  Direction r ∈ [FirewallIn; FirewallOut] /\
  Protocol r ∈ [ProtocolTCP; ProtocolUDP; ProtocolAny] /\
  FirewallPort (Port r) = Ok tt /\ FirewallSource (Source r) = Ok tt /\
  (Port r = "" -> Protocol r = ProtocolAny).
Proof.
  assert (Hone : forall l s, one_of l s = true -> s ∈ l).
  { intros l s H. apply existsb_elem in H as (x & Hx & He). by apply String.eqb_eq in He as ->. }
  unfold Validate. intros H. go_inv H.
  unfold FirewallAction, FirewallDirection, FirewallProtocol in *.
  repeat match goal with H : guard _ _ = Ok _ |- _ => apply guard_ok in H end.
  bool_hyps. destruct v2, v3. split_and!; try done; try (by apply Hone).
  intros Hp. rewrite Hp in H. simpl in H. bool_hyps. done.
Qed.

Lemma FirewallSource_chars s :
  FirewallSource s = Ok tt -> s <> "" -> s <> SourceAny ->
  str_forall prefix_char s = true.
Proof.
  unfold FirewallSource. intros H Hn Ha. rewrite (proj2 (String.eqb_neq _ _) Hn) in H.
  rewrite (proj2 (String.eqb_neq _ _) Ha) in H. simpl in H.
  destruct (contains_char "/" s).
  - destruct (ParsePrefix s) as [[a b]|] eqn:E; [|done]. apply guard_ok in H. bool_hyps.
    by apply ParsePrefix_chars in E as [_ E].
  - destruct (ParseAddr s) as [a|] eqn:E; [|done]. apply guard_ok in H. bool_hyps.
    apply ParseAddr_chars in E as [_ E]; [|done]. eapply str_forall_impl; [|exact E].
    unfold prefix_char. by intros ? ->.
Qed.

Lemma prefix_char_graph a : prefix_char a = true -> graph_char a = true.
Proof. destruct a as [[] [] [] [] [] [] [] []]; vm_compute; congruence. Qed.

Lemma port_char_graph a : port_char a = true -> graph_char a = true.
Proof. destruct a as [[] [] [] [] [] [] [] []]; vm_compute; congruence. Qed.

(** A word of ufw's command line: printable, and not one of the keywords the
    reader looks for. *)
Definition plain_word (s : string) : Prop :=
  token s /\ s <> "comment" /\ s <> "from" /\ s <> "out" /\ s <> "to".

Lemma plain_by (p : ascii -> bool) s :
  (forall a, p a = true -> graph_char a = true) -> p "o"%char = false -> p "f"%char = false \/ p "r"%char = false ->
  s <> "" -> str_forall p s = true -> plain_word s.
Proof.
  intros Hg Ho Hf Hn Hs. split_and!.
  - split; [done|]. by eapply str_forall_impl.
  - intros ->. simpl in Hs. rewrite Ho in Hs. bool_hyps. simpl in *. bool_hyps. done.
  - intros ->. simpl in Hs. destruct Hf as [Hf|Hf]; rewrite Hf in Hs; bool_hyps; simpl in *; bool_hyps; done.
  - intros ->. simpl in Hs. rewrite Ho in Hs. done.
  - intros ->. simpl in Hs. rewrite Ho in Hs. bool_hyps. done.
Qed.

Lemma port_plain port : FirewallPort port = Ok tt -> port <> "" ->
  plain_word port /\ contains_char slash port = false.
Proof.
  intros H Hn. apply FirewallPort_chars in H. split.
  - apply (plain_by port_char); [exact port_char_graph|done|by left|done|done].
  - by eapply contains_char_forall.
Qed.

Lemma port_proto_plain port proto :
  FirewallPort port = Ok tt -> port <> "" -> proto ∈ [ProtocolTCP; ProtocolUDP] ->
  plain_word (port ++ "/" ++ proto) /\ cut "/" (port ++ "/" ++ proto) = (port, proto, true).
Proof.
  intros H Hn Hp. destruct (port_plain port H Hn) as [[[_ Ht] _] Hs]. split.
  - apply FirewallPort_chars in H. destruct port as [|a port]; [done|].
    assert (Ha : port_char a = true) by (simpl in H; by bool_hyps).
    assert (Hc : a <> "c"%char /\ a <> "f"%char /\ a <> "o"%char /\ a <> "t"%char)
      by (split_and!; intros ->; done).
    split_and!; try (rewrite app_string_cons; intros ?; simplify_eq; naive_solver).
    split; [done|]. rewrite !str_forall_app, Ht.
    apply elem_of_cons in Hp as [->|Hp%list_elem_of_singleton]; [done|by subst].
  - by apply cut_app.
Qed.

Lemma source_plain s : FirewallSource s = Ok tt -> s <> "" -> plain_word s.
Proof.
  intros H Hn. destruct (decide (s = SourceAny)) as [->|Ha]; [by vm_compute|].
  apply (plain_by prefix_char); [exact prefix_char_graph|done|by right|done|].
  by apply FirewallSource_chars.
Qed.

Lemma any_source r : FirewallSource (Source r) = Ok tt ->
  plain_word (if Source r =? "" then SourceAny else Source r).
Proof.
  intros H. destruct (String.eqb_spec (Source r) ""); [by vm_compute|by apply source_plain].
Qed.

Lemma parse_target_word x :
  x <> "from" ->
  parse_target [x] =
    let '(port, protocol, found) := cut "/" x in
    Some (SourceAny, port, if found then protocol else ProtocolAny).
Proof. intros H. unfold parse_target. repeat case_match; congruence. Qed.

Lemma target_round_trip r :
  Validate r = Ok tt ->
  parse_target (target_args r) = Some (Source (normal r), Port r, Protocol r) /\
  Forall token (target_args r) /\ ("comment" ∉ target_args r) /\
  (exists x l, target_args r = x :: l /\ x <> "out").
Proof.
  intros (_ & _ & Hproto & Hport & Hsrc & Hany)%Validate_ok. unfold target_args.
  assert (Htok : forall l, Forall plain_word l -> Forall token l /\ "comment" ∉ l).
  { intros l Hl. split; [eapply Forall_impl; [|exact Hl]; by intros x [Hx _]|].
    intros Hin. rewrite list.Forall_forall in Hl. by apply Hl in Hin as (_ & ? & _). }
  assert (Hpr : Protocol r = ProtocolAny \/ Protocol r ∈ [ProtocolTCP; ProtocolUDP] /\
                Protocol r <> ProtocolAny).
  { rewrite !elem_of_cons, elem_of_nil in Hproto. rewrite !elem_of_cons, elem_of_nil.
    destruct Hproto as [->|[->|[->|[]]]]; [right|right|by left]; (split; [tauto|done]). }
  clear Hproto. destruct (String.eqb_spec (Port r) "") as [Hp|Hp].
  { rewrite andb_false_r. rewrite (Hany Hp), Hp. pose proof (any_source r Hsrc) as Hs.
    split; [done|]. destruct (Htok [if Source r =? "" then SourceAny else Source r])
      as [Ht Hn]; [by constructor|]. split; [by constructor|]. split; [|by do 2 eexists].
    simpl. rewrite elem_of_cons. naive_solver. }
  destruct (port_plain (Port r) Hport Hp) as [Hpl Hsl]. rewrite andb_true_r.
  destruct ((Source r =? "") || (Source r =? SourceAny)) eqn:Es.
  - assert (Hsa : Source (normal r) = SourceAny).
    { simpl. destruct (String.eqb_spec (Source r) ""); [done|]. simpl in Es. by bool_hyps. }
    rewrite Hsa. destruct Hpr as [Hpr|[Hpr Hne]].
    + rewrite Hpr, String.eqb_refl. destruct Hpl as (? & ? & Hf & ? & ?). split_and!.
      * by rewrite parse_target_word, (cut_none slash) by done.
      * by constructor.
      * intros E%list_elem_of_singleton. congruence.
      * by do 2 eexists.
    + destruct (port_proto_plain _ _ Hport Hp Hpr) as [(? & ? & Hf & ? & ?) Hc].
      rewrite (proj2 (String.eqb_neq _ _) Hne). split_and!.
      * by rewrite parse_target_word, Hc by done.
      * by constructor.
      * intros E%list_elem_of_singleton. congruence.
      * by do 2 eexists.
  - pose proof (any_source r Hsrc) as Hs. split_and!; [|..|by do 2 eexists].
    + simpl. destruct Hpr as [->|[_ Hne]]; [done|]. by rewrite (proj2 (String.eqb_neq _ _) Hne).
    + simpl. repeat (constructor; [done || apply Hs || apply Hpl|]).
      destruct (Protocol r =? _) eqn:E; [done|]. destruct Hpr as [?|[Hpr _]]; [bool_hyps; done|].
      rewrite !elem_of_cons, elem_of_nil in Hpr.
      by destruct Hpr as [->|[->|[]]]; repeat constructor.
    + simpl. intros Hin. rewrite !elem_of_cons in Hin.
      destruct Hin as [?|[?|[?|[?|[?|[?|Hin]]]]]]; try done.
      * by destruct Hs as (_ & ? & _).
      * by destruct Hpl as (_ & ? & _).
      * destruct (Protocol r =? _) eqn:E; [by apply elem_of_nil in Hin|].
        rewrite !elem_of_cons, elem_of_nil in Hin. destruct Hin as [?|[Hin|[]]]; [done|].
        destruct Hpr as [Hpr|[Hpr _]]; [apply String.eqb_neq in E; congruence|]. rewrite <- Hin in Hpr.
        rewrite !elem_of_cons, elem_of_nil in Hpr. by destruct Hpr as [?|[?|[]]].
Qed.

Definition unquoted (a : ascii) : bool := negb (contains_char a quotes).

Lemma trim_right_set_quote c :
  str_forall unquoted c = true -> trim_right_set quotes (c ++ "'") = c.
Proof.
  induction c as [|a c IH]; intros H; [done|]. simpl in H. apply andb_true_iff in H as [Ha H].
  rewrite app_string_cons. cbn [trim_right_set str_forall]. unfold unquoted in Ha.
  apply negb_true_iff in Ha. by rewrite Ha, IH.
Qed.

Lemma trim_set_quoted c :
  c <> "" -> str_forall unquoted c = true -> trim_set quotes ("'" ++ c ++ "'") = c.
Proof.
  intros Hn H. unfold trim_set. cbn [String.append trim_left_set].
  change (contains_char "'" quotes) with true. cbn iota.
  destruct c as [|a c]; [done|]. pose proof H as Ha. simpl in Ha.
  apply andb_true_iff in Ha as [Ha _]. apply negb_true_iff in Ha.
  rewrite app_string_cons. cbn [trim_left_set]. rewrite Ha.
  by rewrite <- app_string_cons, trim_right_set_quote.
Qed.

(** A quoted comment is itself a space-joined list of words. *)
Lemma quote_words ws :
  ws <> [] -> Forall token ws ->
  exists qs, qs <> [] /\ Forall token qs /\ "'" ++ join " " ws ++ "'" = join " " qs.
Proof.
  intros Hn Hw. assert (Hlast : exists ls, ls <> [] /\ Forall token ls /\
    join " " ws ++ "'" = join " " ls).
  { destruct ws as [|x ws _] using rev_ind; [done|]. apply Forall_app in Hw as [Hw Hx].
    rewrite list.Forall_singleton in Hx. destruct Hx as [Hx Hx'].
    exists (ws ++ [(x ++ "'")%string])%list. split_and!.
    - by destruct ws.
    - apply Forall_app. split; [done|]. constructor; [|done]. split; [by destruct x|].
      by rewrite str_forall_app, Hx'.
    - destruct ws; [done|]. by rewrite !join_snoc, !app_assoc_str by done. }
  destruct Hlast as (ls & Hl & Ht & ->). destruct ls as [|y ls]; [done|].
  apply list.Forall_cons in Ht as [[Hy Hy'] Ht]. exists (("'" ++ y) :: ls). split_and!; [done| |].
  - constructor; [|done]. split; [done|]. simpl. by rewrite Hy'.
  - destruct ls; [done|]. by rewrite !join_cons by done.
Qed.

Lemma cut_field_app want l k : want ∉ l -> cut_field want (l ++ want :: k)%list = Some (l, k).
Proof.
  induction l as [|x l IH]; intros H; simpl; [by rewrite String.eqb_refl|].
  apply not_elem_of_cons in H as [Hx H]. rewrite (proj2 (String.eqb_neq _ _)) by congruence.
  by rewrite IH.
Qed.

Lemma cut_field_none want l : want ∉ l -> cut_field want l = None.
Proof.
  induction l as [|x l IH]; intros H; simpl; [done|].
  apply not_elem_of_cons in H as [Hx H]. rewrite (proj2 (String.eqb_neq _ _)) by congruence.
  by rewrite IH.
Qed.

Lemma comment_unquoted c : FirewallComment c = Ok tt -> str_forall unquoted c = true.
Proof.
  unfold FirewallComment. intros H. go_inv H. apply guard_ok in H. bool_hyps.
  eapply str_forall_impl; [|exact H]. clear.
  intros a. destruct a as [[] [] [] [] [] [] [] []]; vm_compute; congruence.
Qed.

Lemma Validate_comment r : Validate r = Ok tt -> FirewallComment (Comment r) = Ok tt.
Proof. unfold Validate. intros H. go_inv H. by destruct v4. Qed.

Lemma normal_valid r : Validate r = Ok tt -> Validate (normal r) = Ok tt.
Proof.
  unfold Validate. simpl. intros H. go_inv H. rewrite Hb, Hb0, Hb1, Hb2, Hb4. simpl.
  destruct (String.eqb_spec (Source r) ""); simpl; [done|]. rewrite Hb3. done.
Qed.

(** What "ufw show added" prints for a rule: the command that adds it, the comment in
    single quotes. *)
Definition added_line (r : Rule) : string :=
  "ufw " ++ join " " (Args (no_comment r) "") ++
  (if Comment r =? "" then "" else " comment '" ++ Comment r ++ "'").

Lemma added_line_words r :
  Validate r = Ok tt ->
  (exists ws, Comment r = join " " ws /\ Forall token ws) ->
  exists qs, added_line r = join " " ("ufw" :: Args (no_comment r) "" ++ qs)%list /\
    Forall token qs /\
    (Comment r = "" /\ qs = [] \/
     exists ks, qs = "comment" :: ks /\ Comment r = trim_set quotes (join " " ks)).
Proof.
  intros Hv (ws & Hc & Hw). unfold added_line. rewrite Args_no_comment.
  destruct (String.eqb_spec (Comment r) "") as [He|Hn].
  - exists []. rewrite app_nil_r, app_nil_r_str, (join_cons _ "ufw") by done. split_and!; [done|done|by left].
  - assert (Hws : ws <> []) by (intros ->; done).
    destruct (quote_words ws Hws Hw) as (ks & Hk & Ht & Hj).
    exists ("comment" :: ks). split_and!; [|by constructor|].
    + rewrite (join_cons _ "ufw"), join_app, (join_cons _ "comment") by done.
      rewrite <- Hj, Hc. reflexivity.
    + right. exists ks. split; [done|]. rewrite <- Hj, <- Hc.
      rewrite trim_set_quoted; [done..|]. apply comment_unquoted. by apply Validate_comment.
Qed.

Lemma added_round_trip r :
  Validate r = Ok tt ->
  (exists ws, Comment r = join " " ws /\ Forall token ws) ->
  parseAddedLine (added_line r) = Some (normal r).
Proof.
  intros Hv Hc. destruct (added_line_words r Hv Hc) as (qs & -> & Hq & Hk).
  destruct (target_round_trip r Hv) as (Htr & Htt & Htc & x & l & Hxl & Hxo).
  pose proof (Validate_ok r Hv) as (Ha & Hd & _). rewrite Args_no_comment.
  assert (Hat : token (Action r)).
  { rewrite !elem_of_cons, elem_of_nil in Ha. by destruct Ha as [->|[->|[->|[->|[]]]]]. }
  set (line := ("ufw" :: _ ++ qs)%list).
  assert (Hline : Forall token line).
  { constructor; [done|]. apply Forall_app; split; [|done]. constructor; [done|].
    apply Forall_app; split; [|done]. by case_match; repeat constructor. }
  unfold parseAddedLine. rewrite trim_space_tokens, fields_join by done. unfold line.
  assert (Hcut : (match cut_field "comment" (target_args r ++ qs)%list with
          | Some (before, after) => (trim_set quotes (join " " after), before)
          | None => ("", (target_args r ++ qs)%list)
          end) = (Comment r, target_args r)).
  { destruct Hk as [[-> ->]|(ks & -> & ->)].
    - by rewrite app_nil_r, cut_field_none.
    - by rewrite cut_field_app. }
  assert (Hdir : (Direction r = FirewallOut /\ (Direction r =? FirewallOut) = true \/
                  Direction r = FirewallIn /\ (Direction r =? FirewallOut) = false)).
  { rewrite !elem_of_cons, elem_of_nil in Hd. destruct Hd as [->|[->|[]]]; [by right|by left]. }
  pose proof (normal_valid r Hv) as Hn. unfold normal, mk in *. simpl Source in Htr.
  destruct Hdir as [[Hdr ->]|[Hdr ->]].
  - change ((Action r :: ["out"] ++ target_args r) ++ qs)%list
      with (Action r :: "out" :: (target_args r ++ qs))%list.
    generalize dependent (target_args r ++ qs)%list. intros rest Hcut.
    cbn -[cut_field parse_target Validate trim_set join quotes].
    rewrite Hcut, Htr. rewrite Hdr in *. by rewrite Hn.
  - change ((Action r :: [] ++ target_args r) ++ qs)%list
      with (Action r :: (target_args r ++ qs))%list.
    assert (Hm : exists l', (target_args r ++ qs)%list = x :: l') by (rewrite Hxl; by eexists).
    generalize dependent (target_args r ++ qs)%list. intros rest Hcut [l' ->].
    assert (Hm : (match x :: l' with
      | "out" :: rest' => (FirewallOut, rest') | _ => (FirewallIn, x :: l') end)
      = (FirewallIn, x :: l')).
    { clear -Hxo. repeat case_match; congruence. }
    cbn -[cut_field parse_target Validate trim_set join quotes].
    cbn -[cut_field parse_target Validate trim_set join quotes] in Hm.
    rewrite Hm, Hcut, Htr. rewrite Hdr in *. by rewrite Hn.
Qed.

Definition printed (a : ascii) : bool := graph_char a || Ascii.eqb a " ".

Lemma added_line_no_newline r :
  Validate r = Ok tt ->
  (exists ws, Comment r = join " " ws /\ Forall token ws) ->
  contains_char newline (added_line r) = false.
Proof.
  intros Hv Hc. destruct (added_line_words r Hv Hc) as (qs & -> & Hq & _).
  destruct (target_round_trip r Hv) as (_ & Htt & _ & _).
  pose proof (Validate_ok r Hv) as (Ha & _). rewrite Args_no_comment.
  apply (contains_char_forall newline printed); [|done].
  apply join_forall; [done|]. apply (list.Forall_impl token).
  - constructor; [done|]. apply Forall_app; split; [|done]. constructor.
    { rewrite !elem_of_cons, elem_of_nil in Ha. by destruct Ha as [->|[->|[->|[->|[]]]]]. }
    apply Forall_app; split; [|done]. by case_match; repeat constructor.
  - intros s [_ Hs]. eapply str_forall_impl; [|exact Hs]. unfold printed. by intros ? ->.
Qed.

Lemma rule_ID_normal r : rule_ID (normal r) = rule_ID r.
Proof. unfold rule_ID. simpl. destruct (Source r =? "") eqn:E; [done|by rewrite E]. Qed.

Lemma collect_added seen rs :
  Forall (fun r => Validate r = Ok tt /\ exists ws, Comment r = join " " ws /\ Forall token ws) rs ->
  NoDup (rule_ID <$> rs) -> (forall r, r ∈ rs -> rule_ID r ∉ seen) ->
  collect parseAddedLine seen (added_line <$> rs) = normal <$> rs.
Proof.
  intros Hrs. revert seen. induction Hrs as [|r rs [Hv Hc] Hrs IH]; intros seen Hnd Hs; [done|].
  rewrite !fmap_cons in *. apply list.NoDup_cons in Hnd as [Hni Hnd]. cbn [collect].
  rewrite added_round_trip by done. simpl V6. cbn iota. rewrite rule_ID_normal.
  destruct (existsb _ seen) eqn:E.
  { exfalso. apply existsb_elem in E as (x & Hx & He). apply String.eqb_eq in He as <-.
    eapply Hs; [|exact Hx]. by left. }
  f_equal. apply IH; [done|]. intros r' Hr' [He|Hin]%elem_of_cons.
  - apply Hni. rewrite <- He. by apply list_elem_of_fmap_2.
  - eapply Hs; [|exact Hin]. by right.
Qed.

Lemma collect_app_none parse seen l1 l2 :
  Forall (fun line => parse line = None) l2 -> collect parse seen (l1 ++ l2)%list = collect parse seen l1.
Proof.
  intros H. revert seen. induction l1 as [|x l1 IH]; intros seen; simpl.
  - by induction H as [|y l2 Hy _ IH]; simpl; [done|rewrite Hy].
  - repeat case_match; by rewrite ?IH.
Qed.

(** The rules the panel stages are the rules it reads back. For any list of
    valid rules with distinct identifiers (comments being single-spaced words),
    "ufw show added" printing the command line [Args] builds for each of them
    is read by [Rules] as the same rules in the same order, each with its source
    named. *)
Theorem added_rules_round_trip rs header :
  Forall (fun r => Validate r = Ok tt /\ exists ws, Comment r = join " " ws /\ Forall token ws) rs ->
  NoDup (rule_ID <$> rs) ->
  contains_char newline header = false -> parseAddedLine header = None ->
  read_rules false
    (join (String newline "") (header :: (added_line <$> rs) ++ [""])%list) = normal <$> rs.
Proof.
  intros Hrs Hnd Hh Hp. unfold read_rules. rewrite split_join.
  - cbn [collect]. rewrite Hp, collect_app_none by by constructor.
    apply collect_added; [done..|]. intros r _ Hin. by apply elem_of_nil in Hin.
  - done.
  - constructor; [done|]. apply Forall_app. split; [|by constructor].
    apply Forall_fmap. eapply Forall_impl; [|exact Hrs].
    intros r [Hv Hc]. by apply added_line_no_newline.
Qed.

Lemma added_rules_round_trip_witness :
  let rs := [mk "allow" "in" "tcp" "443" "" "panel https" false;
             mk "deny" "out" "any" "25:26" "any" "" false;
             mk "allow" "in" "udp" "53" "2001:db8::/32" "dns" false] in
  read_rules false
    (join (String newline "")
      ("Added user rules (see 'ufw status' for running firewall):" ::
         (added_line <$> rs) ++ [""])%list) = normal <$> rs.
Proof.
  intros rs. apply added_rules_round_trip.
  - repeat constructor; [exists ["panel"; "https"]|exists []|exists ["dns"]];
      (split; [reflexivity|]); repeat constructor; try reflexivity; discriminate.
  - by apply (bool_decide_eq_true_1 (NoDup (rule_ID <$> rs))).
  - reflexivity.
  - reflexivity.
Defined.

(** A port specification covers exactly the ports it names. A specification the
    validator accepts is empty (every port), a single number or an ordered range
    with ends in 1..65535, and [PortsOverlap] holds of the ports from its first
    number to its last. *)
Theorem PortsOverlap_spec port q :
  FirewallPort port = Ok tt ->
  PortsOverlap port q = true <->
  port = "" \/
  exists low high lo hi, portPattern port = Some (low, high) /\ atoi low = Some lo /\
    (high = "" /\ hi = lo \/ atoi high = Some hi) /\ (lo <= q <= hi)%Z.
Proof. apply PortsOverlap_range. Qed.

Lemma PortsOverlap_spec_witness :
  FirewallPort "7080:7090" = Ok tt /\ ~ (PortsOverlap "7080:7090" 22 = true).
Proof.
  split; [reflexivity|].
  intros H. apply (PortsOverlap_spec "7080:7090" 22 eq_refl) in H
    as [H|(low & high & lo & hi & Hp & Hl & Hh & Hr)]; [discriminate H|].
  vm_compute in Hp. injection Hp as <- <-. vm_compute in Hl. injection Hl as <-. lia.
Defined.
