(* ===== verification/FirewallChange.v ===== *)
(** * Provisional firewall changes ([agent/internal/firewall/change.go],
    [firewall.go], [backup.go])

    A change is applied with a backup taken first, a marker written to disk and
    a timer armed; it is confirmed inside its window or undone. The world holds
    ufw's files, the backups, the marker and the provider's memory; every file
    operation consults a script of faults, and ufw is a parameter. *)

From S2P Require Import Prelude Store GoStr GoTime FirewallRules.

#[local] Open Scope string_scope.

(** ** State *)
Inductive chg_err :=
| Fw (e : fw_err)
| ErrUnavailable | ErrRefused | ErrChangeInFlight | ErrNoPendingChange
| ErrOther.

Record Pending := {
  ID : string;
  p_Kind : string;
  p_Rule : Rule;
  p_Policy : string;
  Backup : string;
  Deadline : Z;
  StartedBy : string;
}.

Definition DefaultWindow : Z := 60 * Second.
Definition MaxWindow : Z := 10 * Minute.

(** [now.After(p.Deadline)] *)
Definition Expired (p : Pending) (now : Z) : bool := (Deadline p <? now)%Z.

#[local] Abbreviation snapshot := (gmap string string).

(** The Go runner's answer: an error of its own, or an exit status with output. *)
Record RunResult := { Succeeded : bool; Stdout : string; Stderr : string }.

(** What ufw can read and change: its files, the kernel's rules and the passing of
    time. *)
Record Host (K : Type) := mkHost {
  conf : snapshot;
  kernel : K;
  clock : Z;
}.
Arguments mkHost {K}. Arguments conf {K}. Arguments kernel {K}. Arguments clock {K}.

(** One file operation works, is refused with nothing changed, or fails leaving some
    other content behind. *)
Inductive fault := Works | Refused | Torn (content : string).

(** [Some None] is a marker that cannot be decoded. *)
Record World (K : Type) := mkWorld {
  host : Host K;
  backups : gmap string snapshot;
  marker : option (option Pending);
  faults : list fault;
  pending : option Pending;
  timer : option (string * Z);
}.
Arguments mkWorld {K}. Arguments host {K}. Arguments backups {K}. Arguments marker {K}.
Arguments faults {K}. Arguments pending {K}. Arguments timer {K}.

(** The provider's configuration and its surroundings: ufw and the JSON of a
    status, which only a person reads. *)
Class Env := {
  Kern : Type;
  installed : Host Kern -> bool;
  ufw : list string -> Host Kern -> option RunResult * Host Kern;
  status_json : Status -> string;
  stateDir : string;
  guarded : list Z;
}.

(** ** The effects *)
#[local] Open Scope store_scope.

Section change.
Context `{Env}.
Local Abbreviation world := (World Kern).

Local Abbreviation M := (Store.M (World Kern) chg_err).

Definition lift {A} (r : result fw_err A) : M A :=
  fun w => (match r with Ok a => Ok a | Err e => Err (Fw e) end, w).

Definition set_host (h : Host Kern) (w : world) : world :=
  mkWorld h (backups w) (marker w) (faults w) (pending w) (timer w).
Definition set_backups b (w : world) : world :=
  mkWorld (host w) b (marker w) (faults w) (pending w) (timer w).
Definition set_marker m (w : world) : world :=
  mkWorld (host w) (backups w) m (faults w) (pending w) (timer w).
Definition set_memory p t (w : world) : world :=
  mkWorld (host w) (backups w) (marker w) (faults w) p t.
Definition set_conf c (w : world) : world :=
  set_host (mkHost c (kernel (host w)) (clock (host w))) w.

Definition next_fault : M fault :=
  fun w => match faults w with
           | [] => (Ok Works, w)
           | f :: fs => (Ok f, mkWorld (host w) (backups w) (marker w) fs (pending w) (timer w))
           end.

Definition time_Now : M Z := get (fun w => clock (host w)).
Definition available : M bool := get (fun w => installed (host w)).

(** [os.ReadFile]; [None] is [os.IsNotExist]. *)
Definition read_file (lookup : world -> option string) : M (option string) :=
  let! f := next_fault in
  match f with Works => get lookup | _ => fail ErrOther end.

(** [os.WriteFile], which can leave anything behind when it fails. *)
Definition write_file (store : string -> world -> world) (data : string) : M unit :=
  let! f := next_fault in
  match f with
  | Works => update (store data)
  | Refused => fail ErrOther
  | Torn s => update (store s) ;! fail ErrOther
  end.

Definition file_op (f : world -> world) : M unit :=
  let! x := next_fault in
  match x with Works => update f | _ => fail ErrOther end.

Definition store_conf (name data : string) (w : world) : world :=
  set_conf (<[name := data]> (conf (host w))) w.
Definition backup_files (dir : string) (w : world) : snapshot := default ∅ (backups w !! dir).
Definition store_backup (dir name data : string) (w : world) : world :=
  set_backups (<[dir := <[name := data]> (backup_files dir w)]> (backups w)) w.

Definition ensureStateDir : M unit := file_op (fun w => w).

(** ** ufw *)
Definition run_ufw (args : list string) : M RunResult :=
  fun w => let '(r, h) := ufw args (host w) in
           (match r with Some res => Ok res | None => Err ErrOther end, set_host h w).

(** [run]: ufw reports some refusals on stdout with a zero exit. *)
Definition run_change (args : list string) : M unit :=
  let! ok := available in
  if negb ok then fail ErrUnavailable
  else let! r := run_ufw args in
       if negb (Succeeded r) then fail ErrRefused
       else if str_contains "ERROR:" (Stdout r) then fail ErrRefused
       else ret tt.

Definition Rules_ (enabled : bool) : M (list Rule) :=
  let! ok := available in
  if negb ok then fail ErrUnavailable
  else let! r := run_ufw (if enabled then ["status"; "numbered"] else ["show"; "added"]) in
       if negb (Succeeded r) then fail ErrUnavailable
       else ret (read_rules enabled (Stdout r)).

Definition Status_ : M Status :=
  let! ok := available in
  if negb ok then ret unavailable_status
  else let! r := run_ufw ["status"; "verbose"] in
       if negb (Succeeded r) then ret unavailable_status
       else let status := read_verbose (Stdout r) in
            let! rules := Rules_ (Enabled status) in
            ret (with_rules status rules).

Definition addRule (rule : Rule) : M unit :=
  lift (Validate rule) ;! run_change (Args rule "").
Definition deleteRule (rule : Rule) : M unit :=
  lift (Validate rule) ;! run_change (Args rule "delete").

Definition setDefault (direction policy : string) : M unit :=
  if negb (one_of [FirewallAllow; FirewallDeny; FirewallReject] policy)
  then fail (Fw ErrInvalidFirewallRule)
  else lift (FirewallDirection direction) ;!
       run_change ["default"; policy;
                   if direction =? FirewallOut then "outgoing" else "incoming"].

Definition enable : M unit := run_change ["--force"; "enable"].
Definition disable : M unit := run_change ["--force"; "disable"].

Definition run3 (ch : Change) : M unit :=
  if Kind ch =? ChangeAddRule then addRule (ch_Rule ch)
  else if Kind ch =? ChangeDeleteRule then deleteRule (ch_Rule ch)
  else if Kind ch =? ChangeEnable then enable
  else if Kind ch =? ChangeDisable then disable
  else if Kind ch =? ChangeDefault then setDefault (ch_Direction ch) (Policy ch)
  else fail (Fw ErrInvalidFirewallRule).

(** ** Backups *)
Definition stateFiles : list string := ["user.rules"; "user6.rules"; "ufw.conf"].

Definition backupsDir : string := fp_join [stateDir; "backups"].
Definition maxBackups : nat := 20.

(** The loop of [backup]; the result is the number of files copied. *)
Fixpoint copy_out (dir : string) (names : list string) (copied : nat) : M nat :=
  match names with
  | [] => ret copied
  | name :: more =>
      let! data := read_file (fun w => conf (host w) !! name) in
      match data with
      | None => copy_out dir more copied
      | Some data => write_file (store_backup dir name) data ;! copy_out dir more (S copied)
      end
  end.

(** The directory names in order; their common prefix makes this the order of the
    timestamps. *)
Fixpoint insert_name (x : string) (l : list string) : list string :=
  match l with
  | [] => [x]
  | y :: r => if String.leb x y then x :: l else y :: insert_name x r
  end.
Definition sorted_names (b : gmap string snapshot) : list string :=
  foldr insert_name [] (map_to_list b).*1.

Fixpoint remove_all (names : list string) : M unit :=
  match names with
  | [] => ret tt
  | name :: more =>
      attempt (file_op (fun w => set_backups (delete name (backups w)) w)) ;! remove_all more
  end.

Definition pruneBackups : M unit :=
  let! f := next_fault in
  match f with
  | Works =>
      let! names := get (fun w => sorted_names (backups w)) in
      if (List.length names <=? maxBackups)%nat then ret tt
      else remove_all (take (List.length names - maxBackups)%nat names)
  | _ => ret tt
  end.

Definition backup (status : Status) : M string :=
  ensureStateDir ;!
  let! now := time_Now in
  let dir := fp_join [stateDir; "backups"; stamp now] in
  file_op (fun w => set_backups (<[dir := backup_files dir w]> (backups w)) w) ;!
  let! copied := copy_out dir stateFiles 0 in
  if (copied =? 0)%nat then fail ErrUnavailable
  else attempt (write_file (store_backup dir "status.json") (status_json status)) ;!
       pruneBackups ;!
       ret dir.

(** The loop of [restore]. *)
Fixpoint copy_back (dir : string) (names : list string) (restored : nat) : M nat :=
  match names with
  | [] => ret restored
  | name :: more =>
      let! data := read_file (fun w => backup_files dir w !! name) in
      match data with
      | None => copy_back dir more restored
      | Some data => write_file (store_conf name) data ;! copy_back dir more (S restored)
      end
  end.

(** The flag of [ufw.conf]: the first [ENABLED] assignment. *)
Fixpoint enabled_in (lines : list string) : bool :=
  match lines with
  | [] => false
  | line :: more =>
      match cut "=" (trim_space line) with
      | (key, value, true) =>
          if trim_space key =? "ENABLED" then equal_fold (trim_space value) "yes"
          else enabled_in more
      | _ => enabled_in more
      end
  end.
Definition enabled_flag (data : string) : bool := enabled_in (split newline data).

Definition enabledInConfig : M bool :=
  let! data := read_file (fun w => conf (host w) !! "ufw.conf") in
  ret (match data with None => false | Some data => enabled_flag data end).

Definition reload : M unit :=
  let! enabled := enabledInConfig in
  if negb enabled then disable else disable ;! enable.

Definition restore (dir : string) : M unit :=
  if dir =? "" then fail ErrNoPendingChange
  else if negb (has_prefix backupsDir (fp_clean dir)) then fail ErrOther
  else let! restored := copy_back dir stateFiles 0 in
       if (restored =? 0)%nat then fail ErrOther else reload.

(** ** The change protocol *)
(** [writePending]: a failed write can leave a torn marker, a failed sync leaves the
    written one. *)
Definition writePending (p : Pending) : M unit :=
  ensureStateDir ;!
  file_op (set_marker (Some None)) ;!
  let! f := next_fault in
  (match f with Works => update (set_marker (Some (Some p))) | _ => fail ErrOther end) ;!
  file_op (fun w => w).

Definition readPending : M (option Pending) :=
  let! f := next_fault in
  match f with
  | Works => let! m := get marker in
             match m with
             | None => ret None
             | Some None => fail ErrOther
             | Some (Some p) => ret (Some p)
             end
  | _ => fail ErrOther
  end.

Definition clearPending : M unit := file_op (set_marker None).

Definition arm (p : Pending) : M unit :=
  writePending p ;! update (set_memory (Some p) (Some (ID p, Deadline p))).

Definition disarmLocked : M unit :=
  update (set_memory None None) ;! attempt clearPending ;! ret tt.

Definition verify : M unit :=
  let! status := Status_ in
  if negb (Available status) then fail ErrUnavailable
  else if negb (Enabled status) then ret tt
  else if DefaultIncoming status =? FirewallAllow then ret tt
  else lift (nothing_missing guarded (Rules status)).

Definition clamp_window (window : Z) : Z :=
  let window := if (window <=? 0)%Z then DefaultWindow else window in
  if (MaxWindow <? window)%Z then MaxWindow else window.

(** [restore] after a failure, which is reported whether it worked or not. *)
Definition undo_and_fail {A} (dir : string) (e : chg_err) : M A :=
  attempt (restore dir) ;! fail e.

Definition or_undo (dir : string) (m : M unit) : M unit :=
  let! r := attempt m in
  match r with Ok _ => ret tt | Err e => undo_and_fail dir e end.

Definition in_flight (p : option Pending) (now : Z) : bool :=
  match p with Some p => negb (Expired p now) | None => false end.

Definition newChangeID (now : Z) : string := "fwc_" ++ stamp now.

Definition Apply (ch : Change) (window : Z) (requestID : string) : M Pending :=
  let! ok := available in
  if negb ok then fail ErrUnavailable
  else
    let! p := get pending in
    let! now := time_Now in
    if in_flight p now then fail ErrChangeInFlight
    else
      let window := clamp_window window in
      let! current := Status_ in
      if negb (Available current) then fail ErrUnavailable
      else
        lift (Guard guarded ch current) ;!
        let! dir := backup current in
        run3 ch ;!
        or_undo dir verify ;!
        let! now := time_Now in
        let p := {| ID := newChangeID now; p_Kind := Kind ch; p_Rule := ch_Rule ch;
                    p_Policy := Policy ch; Backup := dir; Deadline := (now + window)%Z;
                    StartedBy := requestID |} in
        or_undo dir (arm p) ;!
        ret p.

Definition Confirm (id : string) : M Pending :=
  let! p := get pending in
  match p with
  | None => fail ErrNoPendingChange
  | Some p =>
      let! now := time_Now in
      if negb (ID p =? id) then fail ErrNoPendingChange
      else if Expired p now then fail ErrNoPendingChange
      else disarmLocked ;! ret p
  end.

Definition Rollback (id : string) : M Pending :=
  let! p := get pending in
  match p with
  | None => fail ErrNoPendingChange
  | Some p =>
      if negb (id =? "") && negb (ID p =? id) then fail ErrNoPendingChange
      else restore (Backup p) ;! disarmLocked ;! ret p
  end.

Definition PendingChange : M (option Pending) := get pending.

(** What the timer runs. *)
Definition expire (id : string) : M unit :=
  let! p := get pending in
  match p with
  | None => ret tt
  | Some p =>
      if negb (ID p =? id) then ret tt
      else let! r := attempt (restore (Backup p)) in
           match r with Err _ => ret tt | Ok _ => disarmLocked end
  end.

Definition RecoverPending : M unit :=
  let! ok := available in
  if negb ok then ret tt
  else
    let! p := readPending in
    match p with
    | None => ret tt
    | Some p =>
        let! now := time_Now in
        if Expired p now then restore (Backup p) ;! clearPending
        else update (set_memory (Some p) (Some (ID p, Deadline p)))
    end.
(** ** Reasoning about runs *)

Lemma attempt_ok {A} (m : M A) w r w' : attempt m w = (r, w') -> exists x, r = Ok x /\ m w = (x, w').
Proof. unfold attempt. destruct (m w) as [x w1]. intros [= <- <-]. by exists x. Qed.

(** What an operation that is not about ufw leaves alone. *)
Definition keeps_memory (w w' : world) : Prop := pending w' = pending w /\ timer w' = timer w.
Definition only_host (w w' : world) : Prop :=
  backups w' = backups w /\ marker w' = marker w /\ keeps_memory w w'.
Definition only_backups (w w' : world) : Prop :=
  host w' = host w /\ marker w' = marker w /\ keeps_memory w w'.

#[export] Instance keeps_memory_preorder : PreOrder keeps_memory.
Proof. unfold keeps_memory. split; [done|]. intros ? ? ? [? ?] [? ?]. split; congruence. Qed.
#[export] Instance only_host_preorder : PreOrder only_host.
Proof.
  unfold only_host. split; [done|]. intros ? ? ? (? & ? & ?) (? & ? & ?).
  split_and!; [congruence..|]. by etransitivity.
Qed.
#[export] Instance only_backups_preorder : PreOrder only_backups.
Proof.
  unfold only_backups. split; [done|]. intros ? ? ? (? & ? & ?) (? & ? & ?).
  split_and!; [congruence..|]. by etransitivity.
Qed.

Lemma next_fault_world w f w' :
  next_fault w = (f, w') ->
  exists x, f = Ok x /\ host w' = host w /\ backups w' = backups w /\ marker w' = marker w /\
    keeps_memory w w'.
Proof.
  unfold next_fault. destruct (faults w); intros [= <- <-]; eexists; repeat split.
Qed.

Lemma file_op_ok f w u w' :
  file_op f w = (Ok u, w') ->
  exists w1, w' = f w1 /\ host w1 = host w /\ backups w1 = backups w /\ marker w1 = marker w /\
    keeps_memory w w1.
Proof.
  unfold file_op. intros (x & w1 & Hf & Hk)%bind_ok.
  apply next_fault_world in Hf as (? & [= <-] & Hw). destruct x; unfold update, fail in Hk; simplify_eq. by exists w1.
Qed.

Lemma read_file_ok lookup w r w' :
  read_file lookup w = (Ok r, w') ->
  r = lookup w' /\ host w' = host w /\ backups w' = backups w /\
    marker w' = marker w /\ keeps_memory w w'.
Proof.
  unfold read_file. intros (x & w1 & Hf & Hk)%bind_ok.
  apply next_fault_world in Hf as (? & [= <-] & Hw). destruct x; [|done..].
  unfold get in Hk. by simplify_eq.
Qed.

Lemma write_file_ok store data w u w' :
  write_file store data w = (Ok u, w') ->
  exists w1, w' = store data w1 /\ host w1 = host w /\ backups w1 = backups w /\
    marker w1 = marker w /\ keeps_memory w w1.
Proof.
  unfold write_file. intros (x & w1 & Hf & Hk)%bind_ok.
  apply next_fault_world in Hf as (? & [= <-] & Hw). destruct x; [|done|].
  - unfold update in Hk. simplify_eq. by exists w1.
  - unfold bind, update in Hk. done.
Qed.

Lemma run_ufw_host args w r w' :
  run_ufw args w = (r, w') ->
  only_host w w' /\ host w' = snd (ufw args (host w)).
Proof.
  unfold run_ufw. destruct (ufw args (host w)) as [x h]. by intros [= <- <-].
Qed.

Lemma run_change_ok args w u w' :
  run_change args w = (Ok u, w') ->
  only_host w w' /\ exists res, ufw args (host w) = (Some res, host w') /\
    Succeeded res = true /\ str_contains "ERROR:" (Stdout res) = false.
Proof.
  unfold run_change. intros (b & w1 & [= <- <-] & Hk)%bind_ok.
  destruct (installed _); [|done]. cbn [negb] in Hk.
  apply bind_ok in Hk as (res & w2 & Hr & Hk). pose proof Hr as Hr2.
  apply run_ufw_host in Hr2 as [Ho Hh]. unfold run_ufw in Hr.
  destruct (ufw args (host w)) as [[x|] h]; simplify_eq/=.
  destruct (Succeeded res) eqn:Es; [|done]. simpl in Hk.
  destruct (str_contains _ _) eqn:Ee; [done|]. injection Hk as _ <-. eauto.
Qed.

(** *** The two copying loops *)

Lemma copy_out_ok dir names n w k w' :
  copy_out dir names n w = (Ok k, w') ->
  only_backups w w' /\
  (forall d, d <> dir -> backups w' !! d = backups w !! d) /\
  (is_Some (backups w !! dir) -> is_Some (backups w' !! dir)) /\
  forall name, backup_files dir w' !! name =
    (if decide (name ∈ names) then match conf (host w) !! name with
                                   | Some data => Some data
                                   | None => backup_files dir w !! name
                                   end
     else backup_files dir w !! name).
Proof.
  revert n w. induction names as [|x names IH]; intros n w Hr.
  - cbn in Hr. unfold ret in Hr. simplify_eq. split; [done|]. done.
  - cbn [copy_out] in Hr. apply bind_ok in Hr as (data & w1 & H1 & Hr).
    apply read_file_ok in H1 as (-> & Hh & Hb & Hm & Hk). rewrite Hh in Hr.
    destruct (conf (host w) !! x) as [data|] eqn:Ex.
    + apply bind_ok in Hr as (u & w2 & H2 & Hr).
      apply write_file_ok in H2 as (w3 & -> & Hh' & Hb' & Hm' & Hk').
      apply IH in Hr as (Ho & Hd & Hs & Hn).
      assert (Hw3 : only_backups w w3).
      { split_and!; [congruence..|]. by etransitivity. }
      split_and!.
      * etransitivity; [exact Hw3|]. exact Ho.
      * intros d Hne. rewrite Hd by done. simpl. rewrite lookup_insert_ne by done. congruence.
      * intros _. apply Hs. simpl. rewrite lookup_insert_eq. by eexists.
      * intros name. rewrite Hn. cbn [store_backup]. unfold backup_files, store_backup, set_backups.
        simpl. rewrite lookup_insert_eq. simpl. rewrite Hh', Hh.
        assert (Hbf : backup_files dir w3 = backup_files dir w)
          by (unfold backup_files; congruence).
        rewrite Hbf. destruct (decide (name = x)) as [->|Hne].
        -- rewrite lookup_insert_eq, Ex. destruct (decide (x ∈ x :: names)) as [_|[]]; [|by left]. by destruct (decide _).
        -- rewrite lookup_insert_ne by done.
           assert (Hiff : name ∈ x :: names <-> name ∈ names) by (rewrite elem_of_cons; naive_solver).
           rewrite (decide_ext _ _ _ _ Hiff). done.
    + apply IH in Hr as (Ho & Hd & Hs & Hn).
      assert (Hbf : backup_files dir w1 = backup_files dir w) by (unfold backup_files; congruence).
      split_and!.
      * etransitivity; [|exact Ho]. done.
      * intros d Hne. rewrite Hd by done. congruence.
      * rewrite <- Hb. exact Hs.
      * intros name. rewrite Hn, Hh, Hbf. destruct (decide (name = x)) as [->|Hne].
        -- rewrite Ex. by destruct (decide _), (decide _).
        -- assert (Hiff : name ∈ x :: names <-> name ∈ names) by (rewrite elem_of_cons; naive_solver).
           rewrite (decide_ext _ _ _ _ Hiff). done.
Qed.

Lemma copy_back_ok dir names n w k w' :
  copy_back dir names n w = (Ok k, w') ->
  only_host w w' /\ clock (host w') = clock (host w) /\
  forall name, conf (host w') !! name =
    (if decide (name ∈ names) then match backup_files dir w !! name with
                                   | Some data => Some data
                                   | None => conf (host w) !! name
                                   end
     else conf (host w) !! name).
Proof.
  revert n w. induction names as [|x names IH]; intros n w Hr.
  - cbn in Hr. unfold ret in Hr. simplify_eq. split; [done|]. done.
  - cbn [copy_back] in Hr. apply bind_ok in Hr as (data & w1 & H1 & Hr).
    apply read_file_ok in H1 as (-> & Hh & Hb & Hm & Hk).
    assert (Hbf : backup_files dir w1 = backup_files dir w) by (unfold backup_files; congruence).
    rewrite Hbf in Hr.
    assert (Hiff : forall name, name <> x -> name ∈ x :: names <-> name ∈ names)
      by (intros ?; rewrite elem_of_cons; naive_solver).
    destruct (backup_files dir w !! x) as [data|] eqn:Ex.
    + apply bind_ok in Hr as (u & w2 & H2 & Hr).
      apply write_file_ok in H2 as (w3 & -> & Hh' & Hb' & Hm' & Hk').
      apply IH in Hr as (Ho & Hc & Hn).
      assert (Hw3 : only_host w w3).
      { split_and!; [congruence..|]. by etransitivity. }
      assert (Hbf3 : backup_files dir (store_conf x data w3) = backup_files dir w)
        by (unfold backup_files; simpl; congruence).
      split_and!.
      * etransitivity; [exact Hw3|]. exact Ho.
      * rewrite Hc. simpl. congruence.
      * intros name. rewrite Hn, Hbf3. simpl. rewrite Hh', Hh.
        destruct (decide (name = x)) as [->|Hne].
        -- rewrite lookup_insert_eq, Ex. destruct (decide (x ∈ x :: names)) as [_|[]]; [|by left]. by destruct (decide _).
        -- rewrite lookup_insert_ne by done. rewrite (decide_ext _ _ _ _ (Hiff _ Hne)). done.
    + apply IH in Hr as (Ho & Hc & Hn). split_and!.
      * etransitivity; [|exact Ho]. done.
      * congruence.
      * intros name. rewrite Hn, Hh, Hbf. destruct (decide (name = x)) as [->|Hne].
        -- rewrite Ex. by destruct (decide _), (decide _).
        -- rewrite (decide_ext _ _ _ _ (Hiff _ Hne)). done.
Qed.

(** *** Pruning keeps the newest backup *)

Definition before (x y : string) : Prop := String.compare x y = Lt.

Lemma before_leb x y : before x y -> String.leb x y = true /\ String.leb y x = false.
Proof.
  unfold before, String.leb. intros E. rewrite E. split; [done|].
  rewrite String.compare_antisym, E. done.
Qed.

Lemma insert_name_last m l :
  (forall y, y ∈ l -> before y m) -> insert_name m l = (l ++ [m])%list.
Proof.
  induction l as [|y l IH]; intros Hl; simpl; [done|].
  destruct (before_leb y m) as [_ ->]; [apply Hl; by left|].
  rewrite IH; [done|]. intros z Hz. apply Hl. by right.
Qed.

Lemma insert_name_before m x l :
  before x m -> insert_name x (l ++ [m])%list = (insert_name x l ++ [m])%list.
Proof.
  intros Hx. induction l as [|y l IH]; simpl.
  - by destruct (before_leb x m) as [-> _].
  - destruct (String.leb x y); [done|]. by rewrite IH.
Qed.

Lemma insert_name_elem x l y : y ∈ insert_name x l <-> y = x \/ y ∈ l.
Proof.
  induction l as [|z l IH]; simpl; [by rewrite list_elem_of_singleton, elem_of_nil; tauto|].
  destruct (String.leb x z); rewrite !elem_of_cons; [done|]. rewrite IH. tauto.
Qed.

Lemma sort_elem l y : y ∈ foldr insert_name [] l <-> y ∈ l.
Proof.
  induction l as [|x l IH]; simpl; [done|]. by rewrite insert_name_elem, elem_of_cons, IH.
Qed.

(** Sorting leaves the greatest name last, and nowhere else. *)
Lemma sort_last m l :
  NoDup l -> m ∈ l -> (forall y, y ∈ l -> y <> m -> before y m) ->
  exists l', foldr insert_name [] l = (l' ++ [m])%list /\ m ∉ l'.
Proof.
  intros Hnd. induction Hnd as [|x l Hx Hnd IH]; intros Hm Hl; [by apply elem_of_nil in Hm|].
  simpl. destruct (decide (x = m)) as [->|Hne].
  - exists (foldr insert_name [] l). rewrite sort_elem. split; [|done].
    apply insert_name_last. intros y Hy. rewrite sort_elem in Hy.
    apply Hl; [by right|]. by intros ->.
  - apply elem_of_cons in Hm as [->|Hm]; [done|].
    destruct IH as (l' & -> & Hn); [done|intros y Hy; apply Hl; by right|].
    exists (insert_name x l'). rewrite insert_name_before by (apply Hl; [by left|done]).
    split; [done|]. rewrite insert_name_elem. naive_solver.
Qed.

Lemma remove_all_ok names w r w' :
  remove_all names w = (r, w') ->
  only_backups w w' /\ forall d, d ∉ names -> backups w' !! d = backups w !! d.
Proof.
  revert w. induction names as [|x names IH]; intros w Hr; cbn in Hr.
  - unfold ret in Hr. simplify_eq. done.
  - unfold bind in Hr. destruct (attempt _ _) as [y w1] eqn:Ea.
    apply attempt_ok in Ea as (z & -> & Hz). apply IH in Hr as [Ho Hd].
    assert (H1 : only_backups w w1 /\ forall d, d <> x -> backups w1 !! d = backups w !! d).
    { destruct z as [u|e].
      - apply file_op_ok in Hz as (w2 & -> & Hh & Hb & Hm & Hk). split; [done|].
        intros d Hne. simpl. rewrite lookup_delete_ne by done. congruence.
      - unfold file_op, bind in Hz. destruct (next_fault w) as [f w2] eqn:Ef.
        apply next_fault_world in Ef as (f' & -> & Hh & Hb & Hm & Hk).
        destruct f'; [done|..]; unfold fail in Hz; simplify_eq; (split; [done|congruence]). }
    destruct H1 as [Ho1 Hd1]. split; [by etransitivity|].
    intros d [Hne Hni]%not_elem_of_cons. by rewrite Hd, Hd1.
Qed.

Lemma pruneBackups_ok w r w' dir :
  pruneBackups w = (r, w') -> is_Some (backups w !! dir) ->
  (forall d, is_Some (backups w !! d) -> d <> dir -> before d dir) ->
  only_backups w w' /\ backups w' !! dir = backups w !! dir.
Proof.
  unfold pruneBackups, bind. intros Hr Hin Hmax. destruct (next_fault w) as [f w1] eqn:Ef.
  apply next_fault_world in Ef as (x & -> & Hh & Hb & Hm & Hk).
  assert (H1 : only_backups w w1) by done.
  destruct x; unfold ret in Hr; [|by simplify_eq; rewrite Hb..]. cbn in Hr.
  destruct (_ <=? _)%nat eqn:El; [by simplify_eq; rewrite Hb|].
  apply Nat.leb_gt in El.
  apply remove_all_ok in Hr as [Ho Hd]. split; [by etransitivity|]. rewrite Hd, Hb; [done|].
  assert (Hkeys : forall d, d ∈ (map_to_list (backups w)).*1 <-> is_Some (backups w !! d)).
  { intros d. rewrite list_elem_of_fmap. split.
    - intros ([k v] & -> & Hkv). apply elem_of_map_to_list in Hkv. simpl. by rewrite Hkv.
    - intros [v Hv]. exists (d, v). by rewrite elem_of_map_to_list. }
  unfold sorted_names in *. rewrite Hb in *.
  destruct (sort_last dir (map_to_list (backups w)).*1) as (l' & Hs & Hn).
  - apply NoDup_fst_map_to_list.
  - by apply Hkeys.
  - intros y Hy. apply Hmax. by apply Hkeys.
  - rewrite Hs. rewrite length_app. simpl. intros Hin'. apply Hn.
    rewrite take_app_le in Hin' by (unfold maxBackups; lia). by apply elem_of_take in Hin' as (i & Hi & _);
      apply list_elem_of_lookup_2 in Hi.
Qed.

(** *** Taking a backup *)

Definition backup_dir (now : Z) : string := fp_join [stateDir; "backups"; stamp now].

(** The backups already there were taken earlier by the same clock. *)
Definition names_older (w : world) (dir : string) : Prop :=
  forall d, is_Some (backups w !! d) -> before d dir.

Lemma before_irrefl x : ~ before x x.
Proof.
  unfold before. intros E. pose proof (String.compare_antisym x x) as Ha.
  rewrite E in Ha. discriminate Ha.
Qed.

Lemma store_backup_other dir n data w name :
  name <> n -> backup_files dir (store_backup dir n data w) !! name = backup_files dir w !! name.
Proof.
  intros Hne. unfold store_backup, backup_files at 1. simpl. rewrite lookup_insert_eq. simpl.
  by rewrite lookup_insert_ne.
Qed.

Lemma attempt_write_backup dir n data w r w' :
  attempt (write_file (store_backup dir n) data) w = (r, w') ->
  exists x, r = Ok x /\ only_backups w w' /\
    (forall d, d <> dir -> backups w' !! d = backups w !! d) /\
    (is_Some (backups w !! dir) -> is_Some (backups w' !! dir)) /\
    forall name, name <> n -> backup_files dir w' !! name = backup_files dir w !! name.
Proof.
  intros Ha. apply attempt_ok in Ha as (x & -> & Hw). exists x. split; [done|].
  unfold write_file, bind in Hw. destruct (next_fault w) as [f w1] eqn:Ef.
  apply next_fault_world in Ef as (y & -> & Hh & Hb & Hm & Hk).
  assert (Ho : only_backups w w1) by done.
  assert (Hf : forall s, backup_files dir w1 !! s = backup_files dir w !! s)
    by (intros; unfold backup_files; by rewrite Hb).
  assert (Hstore : forall s, let w2 := store_backup dir n s w1 in
    only_backups w w2 /\ (forall d, d <> dir -> backups w2 !! d = backups w !! d) /\
    (is_Some (backups w !! dir) -> is_Some (backups w2 !! dir)) /\
    forall name, name <> n -> backup_files dir w2 !! name = backup_files dir w !! name).
  { intros s w2. split_and!; [done| | |].
    - intros d Hne. simpl. rewrite lookup_insert_ne by done. congruence.
    - intros _. simpl. rewrite lookup_insert_eq. by eexists.
    - intros name Hne. unfold w2. by rewrite store_backup_other, Hf. }
  destruct y; unfold update, fail in Hw; simplify_eq; [apply Hstore| |apply Hstore].
  split; [done|]. rewrite Hb. done.
Qed.

Lemma backup_ok status w dir w' :
  backup status w = (Ok dir, w') ->
  dir = backup_dir (clock (host w)) /\
  (names_older w dir ->
   only_backups w w' /\
   forall name, name ∈ stateFiles -> backup_files dir w' !! name = conf (host w) !! name).
Proof.
  unfold backup. intros Hr. apply bind_ok in Hr as (u & w1 & H1 & Hr).
  apply file_op_ok in H1 as (w0 & -> & Hh0 & Hb0 & Hm0 & Hk0).
  apply bind_ok in Hr as (now & w1 & [= <- <-] & Hr).
  apply bind_ok in Hr as (u2 & w1 & H1 & Hr). rewrite Hh0 in *.
  set (dir' := fp_join _) in *.
  apply file_op_ok in H1 as (w2 & -> & Hh2 & Hb2 & Hm2 & Hk2).
  apply bind_ok in Hr as (k & w3 & H3 & Hr). apply copy_out_ok in H3 as (Ho3 & Hd3 & Hs3 & Hn3).
  destruct (k =? 0)%nat; [done|].
  apply bind_ok in Hr as (u4 & w4 & H4 & Hr). apply attempt_write_backup in H4
    as (x4 & [= <-] & Ho4 & Hd4 & Hs4 & Hn4).
  apply bind_ok in Hr as (u5 & w5 & H5 & Hr). injection Hr as <- <-.
  split; [done|]. intros Hold.
  assert (Hnone : backups w !! dir' = None).
  { destruct (backups w !! dir') eqn:E; [|done]. exfalso. eapply before_irrefl.
    apply (Hold dir'). by rewrite E. }
  eapply pruneBackups_ok in H5 as [Ho5 Hd5].
  - split.
    + etransitivity; [|exact Ho5]. etransitivity; [|exact Ho4]. etransitivity; [|exact Ho3].
      split_and!; simpl; [congruence..|]. etransitivity; [exact Hk0|exact Hk2].
    + intros name Hname.
      transitivity (backup_files dir' w4 !! name); [unfold backup_files; by rewrite Hd5|].
      rewrite Hn4, Hn3.
      * rewrite decide_True by done. simpl. rewrite Hh2, Hh0.
        destruct (conf (host w) !! name); [done|]. unfold backup_files. simpl.
        rewrite lookup_insert_eq. simpl. rewrite Hb2, Hb0, Hnone. apply lookup_empty.
      * intros ->. by repeat (apply elem_of_cons in Hname as [?|Hname]; [done|]);
          apply elem_of_nil in Hname.
  - apply Hs4, Hs3. simpl. rewrite lookup_insert_eq. by eexists.
  - intros d Hd Hne. apply Hold. rewrite Hd4, Hd3 in Hd by done. simpl in Hd.
    rewrite lookup_insert_ne in Hd by done. by rewrite Hb2, Hb0 in Hd.
Qed.
End change.

Notation "'let!' x ':=' c 'in' k" := (bind c (fun x => k))
  (at level 10, x pattern, c at level 100, k at level 200) : go_scope.

(** ** What the panel relies on ufw for

    ufw's manual page: listings change nothing; "enable" and "disable" change the flag in
    [ufw.conf] and leave the rule files alone; once enabled the kernel enforces
    the rule files, once disabled nothing. *)
Class UfwLaws `{Env} := {
  enforced : Kern -> option (option string * option string);
  query_conf args h :
    args ∈ [["status"; "verbose"]; ["status"; "numbered"]; ["show"; "added"]] ->
    conf (snd (ufw args h)) = conf h;
  toggle_rules args h name :
    args ∈ [["--force"; "enable"]; ["--force"; "disable"]] -> name <> "ufw.conf" ->
    conf (snd (ufw args h)) !! name = conf h !! name;
  disable_done h res :
    fst (ufw ["--force"; "disable"] h) = Some res -> Succeeded res = true ->
    str_contains "ERROR:" (Stdout res) = false ->
    enforced (kernel (snd (ufw ["--force"; "disable"] h))) = None;
  enable_done h res :
    fst (ufw ["--force"; "enable"] h) = Some res -> Succeeded res = true ->
    str_contains "ERROR:" (Stdout res) = false ->
    enforced (kernel (snd (ufw ["--force"; "enable"] h))) =
      Some (conf h !! "user.rules", conf h !! "user6.rules");
}.

Section laws.
Context `{UfwLaws}.
Local Abbreviation world := (World Kern).
Local Abbreviation M := (Store.M (World Kern) chg_err).

(** A listing leaves everything but ufw's kernel state and the clock. *)
Definition only_looked (w w' : world) : Prop :=
  only_host w w' /\ conf (host w') = conf (host w).

Lemma run_ufw_query args w r w' :
  args ∈ [["status"; "verbose"]; ["status"; "numbered"]; ["show"; "added"]] ->
  run_ufw args w = (r, w') -> only_looked w w'.
Proof.
  intros Ha Hr. apply run_ufw_host in Hr as [Ho Hh]. split; [done|]. rewrite Hh.
  by apply query_conf.
Qed.

Lemma Rules_looked en w r w' : Rules_ en w = (r, w') -> only_looked w w'.
Proof.
  unfold Rules_, bind, available, get. destruct (negb _).
  { unfold fail. intros [= <- <-]. done. }
  destruct (run_ufw _ w) as [x w1] eqn:E. apply run_ufw_query in E.
  - intros Hr. destruct x as [res|e]; [|by simplify_eq].
    destruct (Succeeded res); unfold fail, ret in Hr; cbn in Hr; by simplify_eq.
  - destruct en; rewrite !elem_of_cons; tauto.
Qed.

Lemma Status_looked w r w' : Status_ w = (r, w') -> only_looked w w'.
Proof.
  unfold Status_, bind, available, get. destruct (negb _).
  { unfold ret. intros [= <- <-]. done. }
  destruct (run_ufw _ w) as [x w1] eqn:E. apply run_ufw_query in E; [|by left].
  intros Hr. destruct x as [res|e]; [|by simplify_eq].
  destruct (Succeeded res); unfold ret in Hr; cbn -[Rules_] in Hr; [|by simplify_eq].
  destruct (Rules_ _ w1) as [y w2] eqn:E2. apply Rules_looked in E2.
  assert (Hw : only_looked w w2).
  { destruct E as [Ho Hc], E2 as [Ho2 Hc2]. split; [by etransitivity|congruence]. }
  by destruct y; simplify_eq.
Qed.

Lemma verify_looked w r w' : verify w = (r, w') -> only_looked w w'.
Proof.
  unfold verify, bind. destruct (Status_ w) as [x w1] eqn:E. apply Status_looked in E.
  intros Hr. destruct x as [st|e]; [|by simplify_eq].
  by repeat (case_match; unfold fail, ret, lift in Hr; simplify_eq; try done).
Qed.

Lemma toggle_ok args w u w' :
  args ∈ [["--force"; "enable"]; ["--force"; "disable"]] ->
  run_change args w = (Ok u, w') ->
  only_host w w' /\
  (forall name, name <> "ufw.conf" -> conf (host w') !! name = conf (host w) !! name) /\
  (args = ["--force"; "disable"] -> enforced (kernel (host w')) = None) /\
  (args = ["--force"; "enable"] -> enforced (kernel (host w')) =
     Some (conf (host w) !! "user.rules", conf (host w) !! "user6.rules")).
Proof.
  intros Ha Hr. apply run_change_ok in Hr as (Ho & res & Hu & Hs & He). split; [done|].
  assert (Hsnd : host w' = snd (ufw args (host w))) by by rewrite Hu.
  assert (Hfst : fst (ufw args (host w)) = Some res) by by rewrite Hu.
  rewrite Hsnd. split_and!.
  - intros name Hn. by apply toggle_rules.
  - intros ->. by eapply disable_done.
  - intros ->. by eapply enable_done.
Qed.

(** What the kernel enforces when ufw's own files say what they say. *)
Definition enforced_by (c : gmap string string) : option (option string * option string) :=
  if match c !! "ufw.conf" with Some data => enabled_flag data | None => false end
  then Some (c !! "user.rules", c !! "user6.rules") else None.

Lemma reload_ok w u w' :
  reload w = (Ok u, w') ->
  only_host w w' /\
  (forall name, name <> "ufw.conf" -> conf (host w') !! name = conf (host w) !! name) /\
  enforced (kernel (host w')) = enforced_by (conf (host w)).
Proof.
  unfold reload, enforced_by. intros Hr. apply bind_ok in Hr as (en & w1 & H1 & Hr).
  unfold enabledInConfig in H1. apply bind_ok in H1 as (data & w2 & H1 & [= <- ->]).
  apply read_file_ok in H1 as (-> & Hh & Hb & Hm & Hk). rewrite Hh in Hr.
  assert (Ho1 : only_host w w1) by done.
  destruct (match _ !! "ufw.conf" with Some _ => _ | None => _ end); cbn [negb] in Hr.
  - apply bind_ok in Hr as (v & w2 & H2 & Hr).
    apply toggle_ok in H2 as (Ho2 & Hc2 & _ & _); [|right; by left].
    apply toggle_ok in Hr as (Ho3 & Hc3 & _ & He3); [|by left]. split_and!.
    + etransitivity; [exact Ho1|]. by etransitivity.
    + intros name Hn. by rewrite Hc3, Hc2, Hh.
    + rewrite He3 by done. by rewrite !Hc2, Hh by done.
  - apply toggle_ok in Hr as (Ho2 & Hc2 & He2 & _); [|right; by left]. split_and!.
    + by etransitivity.
    + intros name Hn. by rewrite Hc2, Hh.
    + by apply He2.
Qed.

(** ufw's files after a backup has been laid over them. *)
Definition laid_over (b c : gmap string string) (name : string) : option string :=
  match b !! name with Some data => Some data | None => c !! name end.

Lemma restore_ok dir w u w' :
  restore dir w = (Ok u, w') ->
  only_host w w' /\
  exists c,
    (forall name, c !! name = if decide (name ∈ stateFiles)
       then laid_over (backup_files dir w) (conf (host w)) name else conf (host w) !! name) /\
    (forall name, name <> "ufw.conf" -> conf (host w') !! name = c !! name) /\
    enforced (kernel (host w')) = enforced_by c.
Proof.
  unfold restore. destruct (dir =? ""); [done|]. destruct (negb _); [done|]. intros Hr.
  apply bind_ok in Hr as (k & w1 & H1 & Hr). apply copy_back_ok in H1 as (Ho & _ & Hc).
  destruct (k =? 0)%nat; [done|]. apply reload_ok in Hr as (Ho2 & Hc2 & He2).
  split; [by etransitivity|]. exists (conf (host w1)). done.
Qed.

Lemma arm_ok p w u w' :
  arm p w = (Ok u, w') ->
  host w' = host w /\ backups w' = backups w /\ marker w' = Some (Some p) /\
  pending w' = Some p /\ timer w' = Some (ID p, Deadline p).
Proof.
  unfold arm, writePending. intros Hr. apply bind_ok in Hr as (x & w1 & H1 & Hr).
  apply bind_ok in H1 as (x2 & w2 & H2 & H1).
  apply file_op_ok in H2 as (? & -> & Hh2 & Hb2 & _).
  apply bind_ok in H1 as (x3 & w3 & H3 & H1).
  apply file_op_ok in H3 as (? & -> & Hh3 & Hb3 & _).
  apply bind_ok in H1 as (f & w4 & H4 & H1).
  apply next_fault_world in H4 as (y & [= <-] & Hh4 & Hb4 & _).
  destruct f; unfold bind, update, fail in H1; [|done..].
  apply file_op_ok in H1 as (? & -> & Hh5 & Hb5 & Hm5 & _).
  unfold update in Hr. simplify_eq. simpl in *. split_and!; congruence.
Qed.

Lemma or_undo_ok dir m w u w' : or_undo dir m w = (Ok u, w') -> exists v, m w = (Ok v, w').
Proof.
  unfold or_undo. intros Hr. apply bind_ok in Hr as (x & w1 & H1 & Hr).
  apply attempt_ok in H1 as (y & [= ->] & H1). destruct y as [v|e].
  - unfold ret in Hr. simplify_eq. eauto.
  - unfold undo_and_fail in Hr. by apply bind_ok in Hr as (? & ? & ? & ?).
Qed.

Lemma lift_ok {A} (r : result fw_err A) (w : world) a w' :
  lift r w = (Ok a, w') -> r = Ok a /\ w' = w.
Proof. unfold lift. destruct r; intros; by simplify_eq. Qed.

Lemma run3_ok ch w u w' : run3 ch w = (Ok u, w') -> only_host w w'.
Proof.
  unfold run3, addRule, deleteRule, setDefault, enable, disable. intros Hr.
  repeat case_match; try done;
    try (apply bind_ok in Hr as (x & w1 & Hl & Hr); apply lift_ok in Hl as [_ ->]);
    by apply run_change_ok in Hr as [? _].
Qed.

(** ** What an accepted change leaves behind *)

Definition verified (st : Status) : Prop :=
  Available st = true /\
  (Enabled st = true -> DefaultIncoming st <> FirewallAllow ->
   unprotected guarded (Rules st) = []).

Lemma verify_ok w u w' :
  verify w = (Ok u, w') -> exists st, Status_ w = (Ok st, w') /\ verified st.
Proof.
  unfold verify. intros Hr. apply bind_ok in Hr as (st & w1 & Hs & Hr).
  exists st. unfold verified. destruct (Available st); [|done]. cbn [negb] in Hr.
  destruct (Enabled st); cbn [negb] in Hr; [|unfold ret in Hr; by simplify_eq].
  destruct (String.eqb_spec (DefaultIncoming st) FirewallAllow) as [->|Hn].
  - unfold ret in Hr. by simplify_eq.
  - apply lift_ok in Hr as [Hg ->]. split; [done|]. split; [done|]. intros _ _.
    unfold nothing_missing in Hg. apply guard_ok in Hg. by destruct (unprotected _ _).
Qed.

Record applied (ch : Change) (window : Z) (w : world) (p : Pending) (w' : world) : Prop := {
  ap_free : in_flight (pending w) (clock (host w)) = false;
  ap_guard : exists st w1, Status_ w = (Ok st, w1) /\ Guard guarded ch st = Ok tt;
  ap_verified : exists st w2 w3, Status_ w2 = (Ok st, w3) /\ verified st /\ host w3 = host w';
  ap_pending : pending w' = Some p;
  ap_timer : timer w' = Some (ID p, Deadline p);
  ap_marker : marker w' = Some (Some p);
  ap_deadline : Deadline p = (clock (host w') + clamp_window window)%Z;
  ap_dir : exists now, Backup p = backup_dir now;
  ap_backup : names_older w (Backup p) -> forall name, name ∈ stateFiles ->
    backup_files (Backup p) w' !! name = conf (host w) !! name;
}.

Lemma Apply_applied ch window req w p w' :
  Apply ch window req w = (Ok p, w') -> applied ch window w p w'.
Proof.
  unfold Apply. intros Hr. apply bind_ok in Hr as (av & wa & [= <- <-] & Hr).
  destruct (installed _); [|done]. cbn [negb] in Hr.
  apply bind_ok in Hr as (pw & wa & [= <- <-] & Hr).
  apply bind_ok in Hr as (now & wa & [= <- <-] & Hr).
  destruct (in_flight _ _) eqn:Ef; [done|].
  apply bind_ok in Hr as (st & w1 & Hst & Hr). destruct (Available st); [|done].
  cbn [negb] in Hr. apply bind_ok in Hr as ([] & wa & Hg & Hr). apply lift_ok in Hg as [Hg ->].
  apply bind_ok in Hr as (dir & w2 & Hb & Hr).
  apply bind_ok in Hr as (u3 & w3 & H3 & Hr). apply run3_ok in H3.
  apply bind_ok in Hr as (u4 & w4 & H4 & Hr). apply or_undo_ok in H4 as (v4 & H4).
  pose proof H4 as H4'. apply verify_looked in H4' as [Ho4 _].
  apply verify_ok in H4 as (st4 & Hst4 & Hv4).
  apply bind_ok in Hr as (now & wa & [= <- <-] & Hr).
  apply bind_ok in Hr as (u5 & w5 & H5 & Hr). apply or_undo_ok in H5 as (v5 & H5).
  apply arm_ok in H5 as (Hh5 & Hb5 & Hm5 & Hp5 & Ht5).
  unfold ret in Hr. injection Hr as <- <-.
  apply backup_ok in Hb as [Hdir Hb]. pose proof Hst as Hst'.
  apply Status_looked in Hst' as [Ho1 Hc1]. destruct H3 as (Hb3 & _), Ho4 as (Hb4 & _).
  split; simpl; [done|by eauto|by eauto 6|done|done|done|by rewrite Hh5|by eauto|].
  intros Hold name Hname.
  assert (Hold1 : names_older w1 dir).
  { intros d Hd. apply Hold. destruct Ho1 as (<- & _). done. }
  destruct (Hb Hold1) as [_ Hbn]. rewrite <- Hc1, <- (Hbn name Hname).
  unfold backup_files. congruence.
Qed.

(** ** Undoing in a healthy host *)

(** ufw is installed and obeys when told to switch on or off. *)
Definition toggles_work : Prop :=
  (forall h, installed h = true) /\
  forall args h, args ∈ [["--force"; "enable"]; ["--force"; "disable"]] ->
    exists res, fst (ufw args h) = Some res /\ Succeeded res = true /\
      str_contains "ERROR:" (Stdout res) = false.

Definition done_healthy {A} (m : M A) (w : world) : Prop :=
  exists a w', m w = (Ok a, w') /\ faults w' = [].

Lemma bind_healthy {A B} (m : M A) (k : A -> M B) w :
  done_healthy m w ->
  (forall a w', m w = (Ok a, w') -> faults w' = [] -> done_healthy (k a) w') ->
  done_healthy (bind m k) w.
Proof.
  intros (a & w1 & Hm & Hf) Hk. destruct (Hk a w1 Hm Hf) as (b & w2 & Hb & Hf2).
  exists b, w2. split; [|done]. apply bind_ok. eauto.
Qed.

Lemma read_healthy lookup w : faults w = [] -> done_healthy (read_file lookup) w.
Proof.
  intros Hf. unfold done_healthy, read_file, bind, next_fault. rewrite Hf.
  by do 2 eexists.
Qed.

Lemma write_healthy store data w :
  faults w = [] -> (forall w, faults (store data w) = faults w) ->
  done_healthy (write_file store data) w.
Proof.
  intros Hf Hs. unfold done_healthy, write_file, bind, next_fault. rewrite Hf.
  do 2 eexists. split; [done|]. by rewrite Hs.
Qed.

Lemma toggle_healthy args w :
  toggles_work -> args ∈ [["--force"; "enable"]; ["--force"; "disable"]] ->
  faults w = [] -> done_healthy (run_change args) w.
Proof.
  intros [Hi Ht] Ha Hf. unfold done_healthy, run_change, bind, available, get, run_ufw.
  rewrite Hi. cbn [negb]. destruct (Ht args (host w) Ha) as (res & Hu & Hs & He).
  destruct (ufw args (host w)) as [x h]. simpl in Hu. subst x. rewrite Hs, He.
  by do 2 eexists.
Qed.

Lemma copy_back_healthy dir names n w :
  faults w = [] ->
  exists k w', copy_back dir names n w = (Ok k, w') /\ faults w' = [] /\
    (n <= k)%nat /\ (forall name, name ∈ names -> is_Some (backup_files dir w !! name) -> (n < k)%nat).
Proof.
  revert n w. induction names as [|x names IH]; intros n w Hf.
  - exists n, w. split_and!; [done|done|lia|]. intros name Hn. by apply elem_of_nil in Hn.
  - cbn [copy_back]. unfold bind at 1, read_file, bind at 1, next_fault. rewrite Hf.
    unfold get. destruct (backup_files dir w !! x) as [data|] eqn:Ex.
    + unfold write_file, bind at 1, bind at 1, next_fault. rewrite Hf. unfold update.
      destruct (IH (S n) (store_conf x data w)) as (k & w' & Hr & Hf' & Hk & Hlt); [done|].
      exists k, w'. split_and!; [done|done|lia|]. intros; lia.
    + destruct (IH n w Hf) as (k & w' & Hr & Hf' & Hk & Hlt).
      exists k, w'. split_and!; [done|done|lia|].
      intros name [->|Hn]%elem_of_cons Hs; [|by eapply Hlt].
      rewrite Ex in Hs. by destruct Hs.
Qed.

Lemma restore_healthy dir w :
  toggles_work -> faults w = [] -> dir <> "" -> has_prefix backupsDir (fp_clean dir) = true ->
  (exists name, name ∈ stateFiles /\ is_Some (backup_files dir w !! name)) ->
  done_healthy (restore dir) w.
Proof.
  intros Ht Hf Hn Hp (name & Hname & Hs). unfold restore.
  rewrite (proj2 (String.eqb_neq _ _) Hn), Hp. cbn [negb].
  destruct (copy_back_healthy dir stateFiles 0 w Hf) as (k & w1 & H1 & Hf1 & _ & Hlt).
  specialize (Hlt name Hname Hs). apply bind_healthy; [by exists k, w1|].
  intros a w' Ha Hfa. rewrite H1 in Ha. simplify_eq. destruct (Nat.eqb_spec a 0); [lia|].
  unfold reload, enabledInConfig. apply bind_healthy.
  { apply bind_healthy; [by apply read_healthy|]. intros d w2 _ Hf2. by do 2 eexists. }
  intros en w2 _ Hf2. destruct en; cbn [negb].
  - apply bind_healthy; [apply toggle_healthy; [done|right; by left|done]|].
    intros [] w3 _ Hf3. apply toggle_healthy; [done|by left|done].
  - apply toggle_healthy; [done|right; by left|done].
Qed.
End laws.

(** ** The backup's path *)

Definition stamp_char (a : ascii) : bool := is_digit a || Ascii.eqb a "T" || Ascii.eqb a ".".

Lemma stamp_good t : good_seg (stamp t).
Proof.
  assert (Hl : (4 <= String.length (stamp t))%nat).
  { unfold stamp. rewrite length_app_str, pad_length. lia. }
  split_and!; try (intros E; rewrite E in Hl; simpl in Hl; lia).
  apply (contains_char_forall slash stamp_char); [|done].
  assert (Hp : forall w z, str_forall stamp_char (pad w z "") = true).
  { intros w z. eapply str_forall_impl; [|apply pad_digits]. unfold stamp_char. by intros ? ->. }
  unfold stamp. by rewrite !str_forall_app, !Hp.
Qed.

Section paths.
Context `{Env} (rs : list string).
Hypothesis Hrs : Forall good_seg rs.
Hypothesis Hdir : stateDir = abs_path rs.

Lemma backup_dir_path now :
  backup_dir now <> "" /\ has_prefix backupsDir (fp_clean (backup_dir now)) = true.
Proof.
  assert (Hb : good_seg "backups") by done. pose proof (stamp_good now) as Hs.
  assert (E1 : backupsDir = abs_path (rs ++ ["backups"])%list).
  { unfold backupsDir. rewrite Hdir. apply (fp_join_abs rs ["backups"]); [done| |done].
    by apply Forall_cons. }
  assert (E2 : backup_dir now = abs_path (rs ++ ["backups"; stamp now])%list).
  { unfold backup_dir. rewrite Hdir.
    transitivity (fp_join [abs_path rs; join "/" ["backups"; stamp now]]); [done|].
    apply fp_join_abs; [done| |done]. apply Forall_cons; [done|]. by apply Forall_cons. }
  rewrite E1, E2. split; [done|]. rewrite fp_clean_abs.
  - apply has_prefix_spec. exists ("/" ++ stamp now).
    change ["backups"; stamp now] with (["backups"] ++ [stamp now])%list.
    rewrite app_assoc. rewrite abs_path_snoc. rewrite decide_False by by destruct rs. done.
  - apply Forall_app. split; [done|]. apply Forall_cons; [done|]. by apply Forall_cons.
Qed.
End paths.

(** ** The guarantees *)
Section guarantees.
Context `{UfwLaws} (rs : list string).
Hypothesis Hrs : Forall good_seg rs.
Hypothesis Hdir : stateDir = abs_path rs.
Local Abbreviation world := (World Kern).
Local Abbreviation M := (Store.M (World Kern) chg_err).

(** The rules of [w] are back in [w']: every rule file [w] had holds what it held, and
    the kernel enforces them, or nothing, as the flag of [w] says. *)
Definition put_back (w w' : world) : Prop :=
  (forall name data, name ∈ ["user.rules"; "user6.rules"] ->
     conf (host w) !! name = Some data -> conf (host w') !! name = Some data) /\
  (forall data, conf (host w) !! "ufw.conf" = Some data ->
     enforced (kernel (host w')) =
       if enabled_flag data
       then Some (conf (host w') !! "user.rules", conf (host w') !! "user6.rules") else None).

Lemma restore_puts_back w dir w2 :
  toggles_work -> (exists now, dir = backup_dir now) ->
  (exists name, name ∈ stateFiles /\ is_Some (conf (host w) !! name)) ->
  (forall name, name ∈ stateFiles -> backup_files dir w2 !! name = conf (host w) !! name) ->
  faults w2 = [] ->
  exists w3, restore dir w2 = (Ok tt, w3) /\ faults w3 = [] /\ put_back w w3 /\ only_host w2 w3.
Proof.
  intros Ht [now ->] (name & Hname & Hsome) Hb Hf.
  destruct (backup_dir_path rs Hrs Hdir now) as [Hne Hpre].
  destruct (restore_healthy (backup_dir now) w2 Ht Hf Hne Hpre) as ([] & w3 & Hr & Hf3).
  { exists name. by rewrite Hb. }
  exists w3. split; [done|]. split; [done|].
  apply restore_ok in Hr as (Ho & c & Hc & Hc3 & He). split; [|done].
  assert (Hcn : forall n data, n ∈ stateFiles -> conf (host w) !! n = Some data -> c !! n = Some data).
  { intros n data Hn Hd. rewrite Hc, decide_True by done. unfold laid_over. by rewrite Hb, Hd. }
  split.
  - intros n data Hn Hd. rewrite Hc3, (Hcn n data); [done| |done|].
    + unfold stateFiles. set_solver.
    + unfold stateFiles. set_solver.
  - intros data Hd. rewrite He. unfold enforced_by. rewrite (Hcn "ufw.conf" data) by (done || (unfold stateFiles; set_solver)).
    by rewrite !Hc3 by done.
Qed.

Lemma disarm_healthy w :
  faults w = [] -> disarmLocked w = (Ok tt, set_marker None (set_memory None None w)).
Proof.
  intros Hf. unfold disarmLocked, update, attempt, clearPending, file_op, bind, next_fault.
  simpl. by rewrite Hf.
Qed.

Lemma undo_core ch window req w p w1 w2 :
  toggles_work ->
  Apply ch window req w = (Ok p, w1) -> names_older w (Backup p) ->
  (exists name, name ∈ stateFiles /\ is_Some (conf (host w) !! name)) ->
  backup_files (Backup p) w2 = backup_files (Backup p) w1 -> faults w2 = [] ->
  exists w3, restore (Backup p) w2 = (Ok tt, w3) /\ faults w3 = [] /\ put_back w w3 /\
    only_host w2 w3.
Proof.
  intros Ht Ha Ho Hs Hb Hf. apply Apply_applied in Ha as [_ _ _ _ _ _ _ Hd Hbk].
  apply restore_puts_back; [done..| |done]. intros name Hn. rewrite Hb. by apply Hbk.
Qed.

(** C4: an unconfirmed change is undone. After [Apply] returns a pending change, in any
    later world where it is still pending and its backup is untouched, the timer's
    callback (and [Rollback] with its id) returns with the change
    disarmed, the marker removed, every rule file holding what it held before the change
    and the kernel enforcing exactly those rules, or nothing if the firewall was off
    before; whatever happened to ufw's files in between. File operations
    work and ufw obeys "enable" and "disable". *)
Theorem unconfirmed_change_is_undone ch window req w p w1 w2 :
  toggles_work ->
  Apply ch window req w = (Ok p, w1) -> names_older w (Backup p) ->
  (exists name, name ∈ stateFiles /\ is_Some (conf (host w) !! name)) ->
  pending w2 = Some p -> backup_files (Backup p) w2 = backup_files (Backup p) w1 ->
  faults w2 = [] ->
  exists w3, expire (ID p) w2 = (Ok tt, w3) /\ Rollback (ID p) w2 = (Ok p, w3) /\
    pending w3 = None /\ timer w3 = None /\ marker w3 = None /\ put_back w w3.
Proof.
  intros Ht Ha Ho Hs Hp Hb Hf.
  destruct (undo_core ch window req w p w1 w2 Ht Ha Ho Hs Hb Hf) as (w3 & Hr & Hf3 & Hput & _).
  exists (set_marker None (set_memory None None w3)).
  unfold expire, Rollback. split_and!; try done.
  - unfold bind at 1, get. rewrite Hp, String.eqb_refl. cbn [negb].
    unfold bind, attempt. rewrite Hr. by apply disarm_healthy.
  - unfold bind at 1, get. rewrite Hp, String.eqb_refl, andb_false_r.
    unfold bind. rewrite Hr, disarm_healthy by done. done.
Qed.

(** A restart does not make a provisional change permanent. With the memory of the
    agent lost after [Apply] and the marker still on disk, [RecoverPending]
    past the deadline puts the host back and removes the marker, and inside the window
    arms the timer again for the same change. *)
Theorem restart_keeps_the_promise ch window req w p w1 w2 :
  toggles_work ->
  Apply ch window req w = (Ok p, w1) -> names_older w (Backup p) ->
  (exists name, name ∈ stateFiles /\ is_Some (conf (host w) !! name)) ->
  marker w2 = marker w1 -> backup_files (Backup p) w2 = backup_files (Backup p) w1 ->
  pending w2 = None -> faults w2 = [] ->
  exists w3, RecoverPending w2 = (Ok tt, w3) /\
    if Expired p (clock (host w2))
    then put_back w w3 /\ marker w3 = None /\ pending w3 = None
    else pending w3 = Some p /\ timer w3 = Some (ID p, Deadline p) /\ marker w3 = Some (Some p).
Proof.
  intros Ht Ha Ho Hs Hm Hb Hp Hf.
  destruct (undo_core ch window req w p w1 w2 Ht Ha Ho Hs Hb Hf)
    as (w3 & Hr & Hf3 & Hput & _ & _ & Hmem & _).
  apply Apply_applied in Ha as [_ _ _ _ _ Hmark _ _ _]. rewrite Hmark in Hm.
  destruct Ht as [Hi _]. unfold RecoverPending, bind at 1, available, get. rewrite Hi. cbn [negb].
  assert (Hread : readPending w2 = (Ok (Some p), w2)).
  { unfold readPending, bind, next_fault, get. by rewrite Hf, Hm. }
  unfold bind at 1. rewrite Hread. unfold bind at 1, time_Now, get.
  destruct (Expired p _).
  - exists (set_marker None w3). unfold bind. rewrite Hr. unfold clearPending, file_op, bind, next_fault.
    rewrite Hf3. unfold update. rewrite <- Hp, <- Hmem. done.
  - by eexists.
Qed.

(** C23: what [Apply] promises when it succeeds. No unexpired change was pending; the
    guard accepted the change against the status just read; the status read after the
    change still opens the guarded ports; the change is pending in memory, on disk
    and under a timer for its deadline, which is the clamped window from now; and the
    backup holds every state file as it was before the change. *)
Theorem Apply_spec ch window req w p w' :
  Apply ch window req w = (Ok p, w') -> applied ch window w p w'.
Proof. apply Apply_applied. Qed.

Lemma bind_get {A B} (f : world -> A) (k : A -> M B) w : bind (get f) k w = k (f w) w.
Proof. done. Qed.

(** Confirming is exact. [Confirm] succeeds only for the id of the pending change inside
    its window, and then touches neither ufw nor the rules, disarms the timer, and
    makes a later firing of the timer a no-op; in every other case it reports
    [ErrNoPendingChange] and changes nothing. *)
Theorem Confirm_spec id w :
  match pending w with
  | Some p =>
      if (ID p =? id) && negb (Expired p (clock (host w))) then
        exists w', Confirm id w = (Ok p, w') /\ host w' = host w /\ backups w' = backups w /\
          pending w' = None /\ timer w' = None /\ expire id w' = (Ok tt, w') /\
          (faults w = [] -> marker w' = None)
      else Confirm id w = (Err ErrNoPendingChange, w)
  | None => Confirm id w = (Err ErrNoPendingChange, w)
  end.
Proof.
  unfold Confirm. rewrite bind_get. destruct (pending w) as [p|]; [|done].
  unfold time_Now. rewrite bind_get. destruct (ID p =? id); [|done]. cbn [negb andb].
  destruct (Expired p _); [done|]. cbn [negb].
  unfold disarmLocked, update, bind, attempt, clearPending, file_op, bind, next_fault.
  simpl. destruct (faults w) as [|[| |s] fs]; simpl; eexists; split_and!; done.
Qed.

(** one change at a time. While an unexpired change is pending, [Apply] is refused
    with [ErrChangeInFlight] before anything is read or written. *)
Theorem Apply_one_at_a_time ch window req w :
  installed (host w) = true -> in_flight (pending w) (clock (host w)) = true ->
  Apply ch window req w = (Err ErrChangeInFlight, w).
Proof.
  intros Hi Hp. unfold Apply, available, time_Now. rewrite bind_get, Hi. cbn [negb].
  by rewrite !bind_get, Hp.
Qed.
End guarantees.

(** ** A failed change is not left pending *)
Create HintDb keeps discriminated.

Section keeps.
Context `{Env}.
Local Abbreviation world := (World Kern).
Local Abbreviation M := (Store.M (World Kern) chg_err).

(** The operation does not touch the pending change or its timer. *)
Definition keeps {A} (m : M A) : Prop := forall w r w', m w = (r, w') -> keeps_memory w w'.

Lemma keeps_bind {A B} (m : M A) (k : A -> M B) :
  keeps m -> (forall a, keeps (k a)) -> keeps (bind m k).
Proof.
  intros Hm Hk w r w' Hr. unfold bind in Hr. destruct (m w) as [[a|e] w1] eqn:E.
  - transitivity w1; [by eapply Hm|by eapply Hk].
  - simplify_eq. by eapply Hm.
Qed.

Lemma keeps_attempt {A} (m : M A) : keeps m -> keeps (attempt m).
Proof. intros Hm w r w' (x & _ & Hx)%attempt_ok. by eapply Hm. Qed.

Lemma keeps_ret {A} (a : A) : keeps (ret a).
Proof. intros w r w' [= <- <-]. done. Qed.
Lemma keeps_fail {A} e : keeps (fail (A := A) e).
Proof. intros w r w' [= <- <-]. done. Qed.
Lemma keeps_get {A} (f : world -> A) : keeps (get f).
Proof. intros w r w' [= <- <-]. done. Qed.
Lemma keeps_lift {A} (x : result fw_err A) : keeps (lift x).
Proof. intros w r w' [= <- <-]. done. Qed.
Lemma keeps_update f : (forall w, keeps_memory w (f w)) -> keeps (update f).
Proof. intros Hf w r w' [= <- <-]. apply Hf. Qed.
Lemma keeps_next_fault : keeps next_fault.
Proof. intros w r w' Hr. by apply next_fault_world in Hr as (_ & _ & _ & _ & _ & ?). Qed.
Lemma keeps_run_ufw args : keeps (run_ufw args).
Proof. intros w r w' Hr. by apply run_ufw_host in Hr as [(_ & _ & ?) _]. Qed.
Lemma keeps_if {A} (b : bool) (m1 m2 : M A) : keeps m1 -> keeps m2 -> keeps (if b then m1 else m2).
Proof. by destruct b. Qed.
End keeps.

#[export] Hint Resolve keeps_bind keeps_attempt keeps_ret keeps_fail keeps_get keeps_lift
  keeps_next_fault keeps_run_ufw keeps_if : keeps.

(** Proves that a composed operation keeps the memory. *)
Ltac keep :=
  repeat first
    [ progress intros
    | solve [auto with keeps]
    | apply keeps_bind | apply keeps_attempt | apply keeps_if
    | apply keeps_update; by split
    | match goal with |- keeps (match ?x with _ => _ end) => destruct x end ].

Section failures.
Context `{Env}.

Lemma keeps_read_file lookup : keeps (read_file lookup).
Proof. unfold read_file. keep. Qed.
Lemma keeps_file_op f : (forall w, keeps_memory w (f w)) -> keeps (file_op f).
Proof. intros Hf. unfold file_op. keep; by apply keeps_update. Qed.
Lemma keeps_write_file store data :
  (forall s w, keeps_memory w (store s w)) -> keeps (write_file store data).
Proof. intros Hf. unfold write_file. keep; by apply keeps_update. Qed.
#[local] Hint Resolve keeps_read_file : keeps.

Lemma keeps_Status : keeps Status_.
Proof. unfold Status_, Rules_, available. keep. Qed.
Lemma keeps_run_change args : keeps (run_change args).
Proof. unfold run_change, available. keep. Qed.
#[local] Hint Resolve keeps_Status keeps_run_change : keeps.
Lemma keeps_run3 ch : keeps (run3 ch).
Proof. unfold run3, addRule, deleteRule, enable, disable, setDefault. keep. Qed.
Lemma keeps_verify : keeps verify.
Proof. unfold verify. keep. Qed.
Lemma keeps_copy_out dir names n : keeps (copy_out dir names n).
Proof.
  revert n. induction names as [|x names IH]; intros n; cbn [copy_out]; keep; try apply IH;
  apply keeps_write_file; by split.
Qed.
Lemma keeps_copy_back dir names n : keeps (copy_back dir names n).
Proof.
  revert n. induction names as [|x names IH]; intros n; cbn [copy_back]; keep; try apply IH;
  apply keeps_write_file; by split.
Qed.
Lemma keeps_remove_all names : keeps (remove_all names).
Proof.
  induction names as [|x names IH]; cbn [remove_all]; keep; try apply IH;
  apply keeps_file_op; by split.
Qed.
#[local] Hint Resolve keeps_run3 keeps_verify keeps_copy_out keeps_copy_back keeps_remove_all : keeps.
Lemma keeps_backup st : keeps (backup st).
Proof.
  unfold backup, pruneBackups, ensureStateDir, time_Now. keep;
    try (apply keeps_file_op; by split); apply keeps_write_file; by split.
Qed.
Lemma keeps_restore dir : keeps (restore dir).
Proof. unfold restore, reload, enabledInConfig, enable, disable. keep. Qed.
Lemma keeps_writePending p : keeps (writePending p).
Proof. unfold writePending, ensureStateDir. keep; apply keeps_file_op; by split. Qed.
#[local] Hint Resolve keeps_backup keeps_restore keeps_writePending : keeps.

Lemma or_undo_keeps dir m : keeps m -> keeps (or_undo dir m).
Proof. intros Hm. unfold or_undo, undo_and_fail. keep; done. Qed.

Lemma arm_err p w e w' : arm p w = (Err e, w') -> keeps_memory w w'.
Proof.
  unfold arm, bind. destruct (writePending p w) as [[u|x] w1] eqn:E; [done|].
  intros [= <- <-]. by eapply keeps_writePending.
Qed.

(** Until its last step [Apply] is an operation that keeps the memory. *)
Lemma Apply_err_core ch window req w e w' :
  Apply ch window req w = (Err e, w') -> keeps_memory w w'.
Proof.
  assert (Hlast : forall p dir w e w',
    bind (or_undo dir (arm p)) (fun _ => ret p) w = (Err e, w') -> keeps_memory w w').
  { clear. intros p dir w e w' Hr. unfold bind in Hr.
    destruct (or_undo dir (arm p) w) as [[u|x] w1] eqn:E; [done|]. simplify_eq.
    unfold or_undo, bind, attempt in E. destruct (arm p w) as [[v|y] w2] eqn:Ea; [done|].
    transitivity w2; [by eapply arm_err|]. revert E. apply (keeps_bind (attempt (restore dir))
      (fun _ => fail y)); keep. }
  assert (Hstep : forall A (m : Store.M (World Kern) chg_err A) (k : A -> Store.M (World Kern) chg_err Pending),
    keeps m -> (forall a w e w', k a w = (Err e, w') -> keeps_memory w w') ->
    forall w e w', bind m k w = (Err e, w') -> keeps_memory w w').
  { clear. intros A m k Hm Hk w e w' Hr. unfold bind in Hr.
    destruct (m w) as [[a|x] w1] eqn:E.
    - transitivity w1; [by eapply Hm|by eapply Hk].
    - simplify_eq. by eapply Hm. }
  unfold Apply, available, time_Now. revert w e w'.
  apply Hstep; [keep|]. intros b. destruct (negb b); [intros w e w' [= <- <-]; done|].
  apply Hstep; [keep|]. intros q. apply Hstep; [keep|]. intros now.
  destruct (in_flight q now); [intros w e w' [= <- <-]; done|]. cbv zeta.
  apply Hstep; [keep|]. intros st. destruct (negb _); [intros w e w' [= <- <-]; done|].
  apply Hstep; [keep|]. intros _. apply Hstep; [keep|]. intros dir.
  apply Hstep; [keep|]. intros _.
  apply Hstep; [apply or_undo_keeps; keep|]. intros _. apply Hstep; [keep|]. intros t.
  apply Hlast.
Qed.

(** A change that fails is not left half-armed. Whatever makes [Apply] fail (a refusal,
    a file operation at any point, ufw, the check of the guarded ports), the pending
    change and its timer are what they were before the call. *)
Theorem Apply_failure_arms_nothing ch window req w e w' :
  Apply ch window req w = (Err e, w') -> pending w' = pending w /\ timer w' = timer w.
Proof. apply Apply_err_core. Qed.
End failures.

(** ** A small ufw *)
Module Toy.

(** Rules are kept in [user.rules] as "show added" prints them; the kernel holds the rule
    files it was loaded with. *)
Definition K := option (option string * option string).

Definition nl : string := String newline "".
Definition rules_file (h : Host K) : string := default "" (conf h !! "user.rules").

Definition row (line : string) : string :=
  match parseAddedLine line with
  | Some r => "[ 1] " ++ (if Port r =? "" then "Anywhere" else Port r) ++
              (if Protocol r =? "any" then "" else "/" ++ Protocol r) ++ "  " ++
              Action r ++ " " ++ Direction r ++ "  " ++
              (if Source r =? "any" then "Anywhere" else Source r)
  | None => ""
  end.

Definition answer (out : string) (h : Host K) : option RunResult * Host K :=
  (Some {| Succeeded := true; Stdout := out; Stderr := "" |}, h).

Definition load (c : gmap string string) : K := Some (c !! "user.rules", c !! "user6.rules").

Definition write_rules (lines : list string) (h : Host K) : Host K :=
  let c := <["user.rules" := join nl lines]> (conf h) in
  mkHost c (match kernel h with Some _ => load c | None => None end) (clock h + 1).

Definition toy_ufw (args : list string) (h : Host K) : option RunResult * Host K :=
  if decide (args = ["status"; "verbose"]) then
    answer (match kernel h with
            | Some _ => "Status: active" ++ nl ++ "Default: deny (incoming), allow (outgoing)"
            | None => "Status: inactive" end) h
  else if decide (args = ["status"; "numbered"]) then
    answer (join nl (row <$> split newline (rules_file h))) h
  else if decide (args = ["show"; "added"]) then answer (rules_file h) h
  else if decide (args = ["--force"; "enable"]) then
    let c := <["ufw.conf" := "ENABLED=yes"]> (conf h) in
    answer "" (mkHost c (load c) (clock h + 1))
  else if decide (args = ["--force"; "disable"]) then
    answer "" (mkHost (<["ufw.conf" := "ENABLED=no"]> (conf h)) None (clock h + 1))
  else match args with
       | "delete" :: spec =>
           answer "" (write_rules (List.filter (fun l => negb (l =? "ufw " ++ join " " spec))
                                     (split newline (rules_file h))) h)
       | _ => answer "" (write_rules (split newline (rules_file h) ++ [("ufw " ++ join " " args)%string])%list h)
       end.

#[export] Instance toy : Env := {|
  Kern := K;
  installed _ := true;
  ufw := toy_ufw;
  status_json _ := "{}";
  stateDir := "/var/lib/jothost/firewall";
  guarded := [22]%Z;
|}.

#[export] Instance toy_laws : UfwLaws.
Proof.
  refine {| enforced := fun k : Kern => (k : K) |}.
  - intros args h Ha. rewrite !elem_of_cons, elem_of_nil in Ha.
    by destruct Ha as [->|[->|[->|[]]]].
  - intros args h name Ha Hn. rewrite !elem_of_cons, elem_of_nil in Ha.
    destruct Ha as [->|[->|[]]]; simpl; by rewrite lookup_insert_ne.
  - intros h res _ _ _. done.
  - intros h res _ _ _. simpl. unfold load. by rewrite !lookup_insert_ne.
Defined.

Lemma toy_toggles : toggles_work.
Proof.
  split; [done|]. intros args h Ha. rewrite !elem_of_cons, elem_of_nil in Ha.
  destruct Ha as [->|[->|[]]]; eexists; by split_and!.
Qed.

Definition world0 : World Kern :=
  mkWorld (mkHost (list_to_map [("user.rules", "ufw allow 22/tcp"); ("user6.rules", "");
                                ("ufw.conf", "ENABLED=yes")])
             (Some (Some "ufw allow 22/tcp", Some "")) (t_of 2026 1 2 3 4))
          ∅ None [] None None.

Definition deny_mail : Change :=
  {| Kind := ChangeAddRule; ch_Rule := mk "deny" "in" "tcp" "25" "any" "" false;
     Policy := ""; ch_Direction := "" |}.

Definition value {A} (x : result chg_err A * World Kern) : option A := ok_value (fst x).
Definition world_of {A} (x : result chg_err A * World Kern) : World Kern := snd x.

Definition p0 : Pending :=
  {| ID := "fwc_20260102T030400.000000001"; p_Kind := ChangeAddRule;
     p_Rule := mk "deny" "in" "tcp" "25" "any" "" false; p_Policy := "";
     Backup := "/var/lib/jothost/firewall/backups/20260102T030400.000000000";
     Deadline := (t_of 2026 1 2 3 4 + 1 + 60 * Second)%Z; StartedBy := "req" |}.

Definition world1 : World Kern := world_of (Apply deny_mail 0 "req" world0).

Lemma world1_applied : Apply deny_mail 0 "req" world0 = (Ok p0, world1).
Proof. vm_compute. reflexivity. Qed.

Lemma no_backups dir : names_older world0 dir.
Proof. intros d [x Hx]. done. Qed.

Lemma rs_good : Forall good_seg ["var"; "lib"; "jothost"; "firewall"].
Proof. by repeat (apply Forall_cons; [done|]). Qed.

Lemma toy_dir : stateDir = abs_path ["var"; "lib"; "jothost"; "firewall"].
Proof. reflexivity. Qed.

Lemma forget (w : World Kern) :
  marker (set_memory None None w) = marker w /\ pending (set_memory None None w) = None /\
  forall dir, backup_files dir (set_memory None None w) = backup_files dir w.
Proof. done. Qed.

Lemma world1_state :
  pending world1 = Some p0 /\ faults world1 = [] /\ faults (set_memory None None world1) = [] /\
  Expired p0 (clock (host (set_memory None None world1))) = false /\
  installed (host world1) = true /\ in_flight (pending world1) (clock (host world1)) = true.
Proof. vm_compute. repeat split. Qed.

Lemma has_rules : exists name, name ∈ stateFiles /\ is_Some (conf (host world0) !! name).
Proof. exists "user.rules". split; [by left|]. by eexists. Qed.
End Toy.
Import Toy.

Lemma Apply_spec_witness :
  applied (H := Toy.toy) Toy.deny_mail 0 Toy.world0 Toy.p0 Toy.world1.
Proof. exact (Apply_spec Toy.deny_mail 0 "req" _ _ _ Toy.world1_applied). Defined.

(** The mail rule is live in [world1], and gone once the timer has fired. *)
Lemma unconfirmed_change_is_undone_witness :
  conf (host Toy.world1) !! "user.rules" = Some ("ufw allow 22/tcp" ++ Toy.nl ++ "ufw deny 25/tcp") /\
  exists w3, expire (ID Toy.p0) Toy.world1 = (Ok tt, w3) /\
    Rollback (ID Toy.p0) Toy.world1 = (Ok Toy.p0, w3) /\
    pending w3 = None /\ timer w3 = None /\ marker w3 = None /\ put_back Toy.world0 w3.
Proof.
  split; [vm_compute; reflexivity|].
  exact (unconfirmed_change_is_undone _ Toy.rs_good Toy.toy_dir Toy.deny_mail 0 "req"
           Toy.world0 Toy.p0 Toy.world1 Toy.world1
           Toy.toy_toggles Toy.world1_applied (Toy.no_backups _) Toy.has_rules
           (proj1 Toy.world1_state) eq_refl (proj1 (proj2 Toy.world1_state))).
Defined.

Lemma restart_keeps_the_promise_witness :
  let w2 := set_memory None None Toy.world1 in
  exists w3, RecoverPending w2 = (Ok tt, w3) /\ pending w3 = Some Toy.p0.
Proof.
  intros w2.
  destruct (restart_keeps_the_promise _ Toy.rs_good Toy.toy_dir Toy.deny_mail 0 "req"
           Toy.world0 Toy.p0 Toy.world1 w2
           Toy.toy_toggles Toy.world1_applied (Toy.no_backups _) Toy.has_rules
           (proj1 (Toy.forget Toy.world1)) (proj2 (proj2 (Toy.forget Toy.world1)) _)
           (proj1 (proj2 (Toy.forget Toy.world1))) (proj1 (proj2 (proj2 Toy.world1_state))))
    as (w3 & Hr & Hw).
  exists w3. split; [exact Hr|].
  unfold w2 in Hw. rewrite (proj1 (proj2 (proj2 (proj2 Toy.world1_state)))) in Hw.
  exact (proj1 Hw).
Defined.

Lemma Apply_one_at_a_time_witness :
  Apply Toy.deny_mail 0 "again" Toy.world1 = (Err ErrChangeInFlight, Toy.world1).
Proof.
  apply Apply_one_at_a_time; [reflexivity|].
  exact (proj2 (proj2 (proj2 (proj2 (proj2 Toy.world1_state))))).
Defined.

Lemma Apply_failure_arms_nothing_witness :
  let w := mkWorld (host Toy.world0) ∅ None [Works; Refused] None None in
  exists e w', Apply Toy.deny_mail 0 "req" w = (Err e, w') /\ pending w' = None.
Proof.
  intros w. exists ErrOther, (snd (Apply Toy.deny_mail 0 "req" w)).
  assert (Hr : Apply Toy.deny_mail 0 "req" w = (Err ErrOther, snd (Apply Toy.deny_mail 0 "req" w)))
    by (vm_compute; reflexivity).
  split; [exact Hr|].
  exact (proj1 (Apply_failure_arms_nothing Toy.deny_mail 0 "req" w ErrOther _ Hr)).
Defined.

(** ** Two ways the promise is broken *)

Definition later (seconds : Z) (fs : list fault) (w : World Kern) : World Kern :=
  mkWorld (mkHost (conf (host w)) (kernel (host w)) (clock (host w) + seconds * Second))
    (backups w) (marker w) fs (pending w) (timer w).

Definition allow_web : Change :=
  {| Kind := ChangeAddRule; ch_Rule := mk "allow" "in" "tcp" "443" "any" "" false;
     Policy := ""; ch_Direction := "" |}.

(** When the timer fails to restore, the marker is left for the next start to try again;
    but a change applied in between overwrites it, and once that one is undone the
    first change stands with nothing left that would undo it. *)
Lemma unconfirmed_change_forgotten :
  let w2 := snd (expire (ID Toy.p0) (later 61 [Refused] Toy.world1)) in
  let w3 := snd (Apply allow_web 0 "next" w2) in
  let w4 := match pending w3 with Some p => snd (expire (ID p) w3) | None => w3 end in
  pending w2 = Some Toy.p0 /\ marker w2 = Some (Some Toy.p0) /\
  is_ok (fst (Apply allow_web 0 "next" w2)) = true /\
  pending w4 = None /\ marker w4 = None /\
  conf (host w4) !! "user.rules" = Some ("ufw allow 22/tcp" ++ Toy.nl ++ "ufw deny 25/tcp").
Proof. vm_compute. repeat split. Qed.

(** A confirmation whose marker cannot be removed still reports success, and a restart
    after the deadline undoes the confirmed change. *)
Lemma confirmed_change_undone_at_restart :
  let w2 := snd (Confirm (ID Toy.p0) (later 1 [Refused] Toy.world1)) in
  let w3 := snd (RecoverPending (later 120 [] w2)) in
  is_ok (fst (Confirm (ID Toy.p0) (later 1 [Refused] Toy.world1))) = true /\
  conf (host w2) !! "user.rules" = Some ("ufw allow 22/tcp" ++ Toy.nl ++ "ufw deny 25/tcp") /\
  conf (host w3) !! "user.rules" = Some "ufw allow 22/tcp".
Proof. vm_compute. repeat split. Qed.
