(* ===== verification/Cron.v ===== *)
(** * Scheduled jobs: validation and the next run ([shared/validate/cron.go])

    The validators of a job's identifier, name, command and schedule, the cron
    expression they accept, and the search for the next minute it fires. The
    panel works in UTC. *)

From S2P Require Import Prelude GoStr GoTime.

#[local] Open Scope string_scope.

(** ** Validators *)
Inductive cron_err :=
| ErrInvalidSchedule | ErrInvalidCommand | ErrInvalidJobName | ErrInvalidJobType | ErrInvalidUUID.

Definition JobPHP := "php".
Definition JobURL := "url".
Definition JobCommand := "command".
Definition JobTypes : list string := [JobPHP; JobURL; JobCommand].

Definition JobType (value : string) : result cron_err unit :=
  guard (negb (existsb (String.eqb value) JobTypes)) ErrInvalidJobType.

(** The loop of [UUID] from index [i]; a byte outside ASCII is neither a dash nor a
    hexadecimal digit. *)
Fixpoint uuid_from (i : nat) (value : string) : bool :=
  match value with
  | "" => true
  | String r rest =>
      (if existsb (Nat.eqb i) [8; 13; 18; 23]%nat then Ascii.eqb r "-" else is_hex r) &&
      uuid_from (S i) rest
  end.

Definition UUID (value : string) : result cron_err unit :=
  guard (negb (String.length value =? 36)%nat) ErrInvalidUUID ;?
  guard (negb (uuid_from 0 value)) ErrInvalidUUID.

Definition MaxCommandLength : nat := 500.
Definition MaxJobNameLength : nat := 60.
Definition MaxScheduleLength : nat := 100.

(** Line feed, carriage return and NUL. *)
Definition CR : ascii := "013".
Definition NUL : ascii := "000".
Definition chars_of (l : list ascii) : string := foldr String "" l.

Definition JobName (name : string) : result cron_err unit :=
  let trimmed := trim_space name in
  guard (trimmed =? "") ErrInvalidJobName ;?
  guard (MaxJobNameLength <? String.length trimmed)%nat ErrInvalidJobName ;?
  guard (contains_any (chars_of [LF; CR; NUL]) trimmed) ErrInvalidJobName.

Definition Command (command : string) : result cron_err unit :=
  let trimmed := trim_space command in
  guard (trimmed =? "") ErrInvalidCommand ;?
  guard (MaxCommandLength <? String.length trimmed)%nat ErrInvalidCommand ;?
  guard (contains_any (chars_of [LF; CR]) trimmed) ErrInvalidCommand ;?
  guard (contains_char NUL trimmed) ErrInvalidCommand ;?
  guard (contains_char "%" trimmed) ErrInvalidCommand.

(** ** Schedules *)
Record field := {
  f_min : Z;
  f_max : Z;
  names : list (string * Z);
}.

Definition cronFields : list field := [
  {| f_min := 0; f_max := 59; names := [] |};
  {| f_min := 0; f_max := 23; names := [] |};
  {| f_min := 1; f_max := 31; names := [] |};
  {| f_min := 1; f_max := 12; names :=
       [("jan", 1); ("feb", 2); ("mar", 3); ("apr", 4); ("may", 5); ("jun", 6);
        ("jul", 7); ("aug", 8); ("sep", 9); ("oct", 10); ("nov", 11); ("dec", 12)] |};
  {| f_min := 0; f_max := 7; names :=
       [("sun", 0); ("mon", 1); ("tue", 2); ("wed", 3); ("thu", 4); ("fri", 5); ("sat", 6)] |}
]%Z.

Definition nth_field (i : nat) : field :=
  nth i cronFields {| f_min := 0; f_max := 0; names := [] |}.

Fixpoint assoc (k : string) (l : list (string * Z)) : option Z :=
  match l with
  | [] => None
  | (x, v) :: r => if k =? x then Some v else assoc k r
  end.

(** One number or name of a field. *)
Definition resolve (value : string) (f : field) : option Z :=
  match assoc (to_lower value) (names f) with
  | Some number => Some number
  | None =>
      match atoi value with
      | None => None
      | Some number => if ((number <? f_min f) || (f_max f <? number))%Z then None else Some number
      end
  end.

Definition fieldValue (value : string) (f : field) : bool :=
  if value =? "" then false
  else match assoc (to_lower value) (names f) with
       | Some _ => true
       | None =>
           match atoi value with
           | None => false
           | Some number => negb ((number <? f_min f) || (f_max f <? number))%Z
           end
       end.

Definition checkRange (part : string) (f : field) : bool :=
  let '(body, step, hasStep) := cut "/" part in
  let step_ok :=
    if hasStep then
      match atoi step with
      | None => false
      | Some value => negb (value <? 1)%Z && negb (f_max f <? value)%Z
      end
    else true in
  if negb step_ok then false
  else if body =? "*" then true
  else
    let '(from, to, isRange) := cut "-" body in
    if negb (fieldValue from f) then false
    else if negb isRange then true
    else if negb (fieldValue to f) then false
    else
      let start := default 0%Z (resolve from f) in
      let stop := default 0%Z (resolve to f) in
      negb (stop <? start)%Z.

Definition checkField (value : string) (f : field) : bool :=
  if value =? "" then false
  else forallb (fun part => checkRange part f) (split "," value).

Fixpoint check_fields (values : list string) (fs : list field) : bool :=
  match values, fs with
  | value :: values, f :: fs => checkField value f && check_fields values fs
  | _, _ => true
  end.

Definition shorthands : list (string * string) := [
  ("@yearly", "0 0 1 1 *"); ("@annually", "0 0 1 1 *"); ("@monthly", "0 0 1 * *");
  ("@weekly", "0 0 * * 0"); ("@daily", "0 0 * * *"); ("@midnight", "0 0 * * *");
  ("@hourly", "0 * * * *")].

Fixpoint shorthand (k : string) (l : list (string * string)) : option string :=
  match l with
  | [] => None
  | (x, v) :: r => if k =? x then Some v else shorthand k r
  end.

Definition Schedule (expression : string) : result cron_err string :=
  let trimmed := trim_space expression in
  guard (trimmed =? "") ErrInvalidSchedule ;?
  guard (MaxScheduleLength <? String.length trimmed)%nat ErrInvalidSchedule ;?
  guard (contains_any (chars_of [LF; CR; NUL; "%"%char]) trimmed) ErrInvalidSchedule ;?
  if has_prefix "@" trimmed then
    match shorthand (to_lower trimmed) shorthands with
    | None => Err ErrInvalidSchedule
    | Some expanded => Ok expanded
    end
  else
    let values := fields trimmed in
    guard (negb (List.length values =? 5)%nat) ErrInvalidSchedule ;?
    guard (negb (check_fields values cronFields)) ErrInvalidSchedule ;?
    Ok (join " " values).

(** ** Matching *)
Definition rangeMatches (part : string) (actual : Z) (f : field) : bool :=
  let '(body, stepText, hasStep) := cut "/" part in
  match (if hasStep then
           match atoi stepText with
           | None => None
           | Some parsed => if (parsed <? 1)%Z then None else Some parsed
           end
         else Some 1%Z) with
  | None => false
  | Some step =>
      match (if body =? "*" then Some (f_min f, f_max f)
             else
               let '(from, to, isRange) := cut "-" body in
               match resolve from f with
               | None => None
               | Some value =>
                   if isRange then
                     match resolve to f with
                     | None => None
                     | Some stop => Some (value, stop)
                     end
                   else Some (value, value)
               end) with
      | None => false
      | Some (start, stop) =>
          if ((actual <? start) || (stop <? actual))%Z then false
          else (Z.rem (actual - start) step =? 0)%Z
      end
  end.

Definition fieldMatches (value : string) (actual : Z) (f : field) : bool :=
  existsb (fun part => rangeMatches part actual f) (split "," value).

(** Sunday is both 0 and 7. *)
Definition weekdayMatches (value : string) (day : Z) : bool :=
  fieldMatches value day (nth_field 4) ||
  (day =? 0)%Z && fieldMatches value 7 (nth_field 4).

Definition isUnrestricted (value : string) : bool := (value =? "*") || has_prefix "*/1" value.

(** [matches], for the five values of a normalised expression. *)
Definition matches (at_ : Z) (values : list string) : bool :=
  let v i := nth i values "" in
  if negb (fieldMatches (v 0%nat) (t_Minute at_) (nth_field 0)) ||
     negb (fieldMatches (v 1%nat) (t_Hour at_) (nth_field 1)) ||
     negb (fieldMatches (v 3%nat) (t_Month at_) (nth_field 3))
  then false
  else
    let domRestricted := negb (isUnrestricted (v 2%nat)) in
    let dowRestricted := negb (isUnrestricted (v 4%nat)) in
    let dom := fieldMatches (v 2%nat) (t_Day at_) (nth_field 2) in
    let dow := weekdayMatches (v 4%nat) (t_Weekday at_) in
    if domRestricted && dowRestricted then dom || dow
    else if domRestricted then dom
    else if dowRestricted then dow
    else true.

(** [AddDate(4, 0, 0)]: a 29 February with no counterpart becomes 1 March. *)
Definition add_years (n t : Z) : Z :=
  let '(y, m, d) := t_date t in
  (days_of_civil (y + n) m d * day_ns + t mod day_ns)%Z.

(** The walk: minute by minute while before the limit. *)
Fixpoint walk (fuel : nat) (candidate limit : Z) (values : list string) : option Z :=
  match fuel with
  | O => None
  | S fuel =>
      if negb (candidate <? limit)%Z then None
      else if matches candidate values then Some candidate
      else walk fuel (candidate + Minute)%Z limit values
  end.

(** [from.Truncate(time.Minute).Add(time.Minute)]. *)
Definition first_candidate (from : Z) : Z := (from - from mod Minute + Minute)%Z.

Definition NextRun (schedule : string) (from : Z) : option Z :=
  match Schedule schedule with
  | Err _ => None
  | Ok normalised =>
      let values := fields normalised in
      let candidate := first_candidate from in
      let limit := add_years 4 candidate in
      walk (Z.to_nat ((limit - candidate) / Minute + 1)) candidate limit values
  end.

Example schedule_examples :
  Schedule "  @Daily " = Ok "0 0 * * *" /\
  Schedule "*/15  0-6,22 * jan-mar Mon" = Ok "*/15 0-6,22 * jan-mar Mon" /\
  Schedule "60 * * * *" = Err ErrInvalidSchedule /\
  Schedule "0 0 * 3-1 *" = Err ErrInvalidSchedule /\
  Schedule "@reboot" = Err ErrInvalidSchedule /\
  UUID "01234567-89ab-cdef-0123-456789ABCDEF" = Ok tt /\
  Command "echo 100%" = Err ErrInvalidCommand /\
  matches (t_of 2026 3 13 0 0) ["0"; "0"; "13"; "*"; "1"] = true /\
  matches (t_of 2026 3 16 0 0) ["0"; "0"; "13"; "*"; "1"] = true /\
  matches (t_of 2026 3 17 0 0) ["0"; "0"; "13"; "*"; "1"] = false.
Proof. vm_compute. repeat split. Qed.

(** ** The walk *)

(** Whole minutes. *)
Definition on_minute (t : Z) : Prop := (t mod Minute = 0)%Z.

Lemma Minute_pos : (0 < Minute)%Z.
Proof. done. Qed.

Lemma walk_spec fuel c limit values :
  on_minute c -> (limit <= c + Z.of_nat fuel * Minute)%Z ->
  match walk fuel c limit values with
  | Some t => (c <= t < limit)%Z /\ on_minute t /\ matches t values = true /\
      forall u, on_minute u -> (c <= u < t)%Z -> matches u values = false
  | None => forall u, on_minute u -> (c <= u < limit)%Z -> matches u values = false
  end.
Proof.
  pose proof Minute_pos as Hm. revert c. induction fuel as [|fuel IH]; intros c Hc Hl.
  - cbn [walk]. intros u _ Hu. lia.
  - cbn [walk]. destruct (Z.ltb_spec c limit) as [Hlt|Hge]; cbn [negb].
    2:{ intros u _ Hu. lia. }
    destruct (matches c values) eqn:Em.
    + split_and!; [lia|lia|done|done|]. intros u _ Hu. lia.
    + assert (Hc' : on_minute (c + Minute)).
      { unfold on_minute in *. rewrite <- (Z.mul_1_l Minute) at 1. by rewrite Z.mod_add. }
      assert (Hnext : forall u, on_minute u -> (c <= u)%Z -> u = c \/ (c + Minute <= u)%Z).
      { intros u Hu Hcu. unfold on_minute in *.
        apply Z.mod_divide in Hu as [q ->]; [|lia]. apply Z.mod_divide in Hc as [q' ->]; [|lia].
        destruct (decide (q = q')) as [->|Hne]; [by left|right].
        assert (q' < q)%Z by nia. nia. }
      specialize (IH (c + Minute)%Z Hc' ltac:(lia)).
      destruct (walk fuel _ limit values) as [t|].
      * destruct IH as (Ht & Hmt & Hmatch & Hbefore). split_and!; [lia|lia|done|done|].
        intros u Hu Hr. destruct (Hnext u Hu ltac:(lia)) as [->|Hge]; [done|].
        apply Hbefore; [done|lia].
      * intros u Hu Hr. destruct (Hnext u Hu ltac:(lia)) as [->|Hge]; [done|].
        apply IH; [done|lia].
Qed.

Lemma first_candidate_spec from :
  on_minute (first_candidate from) /\ (from < first_candidate from)%Z /\
  forall u, on_minute u -> (from < u)%Z -> (first_candidate from <= u)%Z.
Proof.
  pose proof Minute_pos as Hm. unfold first_candidate, on_minute.
  pose proof (Z.div_mod from Minute ltac:(lia)) as Hd.
  pose proof (Z.mod_pos_bound from Minute Hm) as Hb.
  assert (E : (from - from mod Minute + Minute = (from / Minute + 1) * Minute)%Z) by lia.
  rewrite E. split; [by apply Z.mod_mul|]. split; [lia|]. intros u Hu Hlt.
  apply Z.mod_divide in Hu as [q ->]; [|lia]. assert (from / Minute < q)%Z by nia. nia.
Qed.

Lemma walk_more n k c limit values t :
  walk n c limit values = Some t -> walk (n + k) c limit values = Some t.
Proof.
  revert c. induction n as [|n IH]; intros c H; [done|]. cbn [walk Nat.add] in *.
  destruct (negb _); [done|]. destruct (matches c values); [done|]. by apply IH.
Qed.

(** Running the search with little fuel is enough when it succeeds. *)
Lemma NextRun_early n schedule normalised from t :
  Schedule schedule = Ok normalised ->
  walk n (first_candidate from) (add_years 4 (first_candidate from)) (fields normalised) = Some t ->
  (Z.of_nat n <=? (add_years 4 (first_candidate from) - first_candidate from) / Minute + 1)%Z = true ->
  NextRun schedule from = Some t.
Proof.
  intros Hs Hw Hn. unfold NextRun. rewrite Hs. cbv zeta. apply Z.leb_le in Hn.
  set (z := (_ / Minute + 1)%Z) in *.
  replace (Z.to_nat z) with (n + (Z.to_nat z - n))%nat by lia. by apply walk_more.
Qed.

(** The first whole minute after the instant at which [matches] holds. *)
Lemma NextRun_walks schedule normalised from :
  Schedule schedule = Ok normalised ->
  let limit := add_years 4 (first_candidate from) in
  match NextRun schedule from with
  | Some t =>
      (from < t < limit)%Z /\ on_minute t /\ matches t (fields normalised) = true /\
      forall u, on_minute u -> (from < u < t)%Z -> matches u (fields normalised) = false
  | None =>
      forall u, on_minute u -> (from < u < limit)%Z -> matches u (fields normalised) = false
  end.
Proof.
  intros Hs limit. unfold NextRun. rewrite Hs.
  destruct (first_candidate_spec from) as (Hc & Hlt & Hleast).
  set (c := first_candidate from) in *. fold limit. pose proof Minute_pos as Hm.
  assert (Hfuel : (limit <= c + Z.of_nat (Z.to_nat ((limit - c) / Minute + 1)) * Minute)%Z).
  { pose proof (Z.div_mod (limit - c) Minute ltac:(lia)) as Hd.
    pose proof (Z.mod_pos_bound (limit - c) Minute Hm).
    destruct (Z.le_gt_cases 0 ((limit - c) / Minute + 1)) as [Hp|Hn].
    - rewrite Z2Nat.id by done. nia.
    - rewrite Z2Nat.nonpos by lia. nia. }
  pose proof (walk_spec _ c limit (fields normalised) Hc Hfuel) as Hw.
  destruct (walk _ _ _ _) as [t|].
  - destruct Hw as (Ht & Hmt & Hmatch & Hbefore). split_and!; [lia|lia|done|done|].
    intros u Hu Hr. apply Hbefore; [done|]. split; [apply Hleast|]; [done|lia|lia].
  - intros u Hu Hr. apply Hw; [done|]. split; [apply Hleast|]; [done|lia|lia].
Qed.

(** ** What an expression says, by the rules of crontab *)

(** A value, a range, or everything the field may be. *)
Inductive body_says (f : field) : string -> Z -> Z -> Prop :=
| says_all : body_says f "*" (f_min f) (f_max f)
| says_one v n : v <> "*" -> contains_char "-" v = false -> resolve v f = Some n -> body_says f v n n
| says_range a b lo hi : contains_char "-" a = false -> resolve a f = Some lo -> resolve b f = Some hi ->
    body_says f (a ++ String "-" b) lo hi.

(** One part of a list: all of it, or every k-th from its start. *)
Inductive part_says (f : field) : string -> Z -> Prop :=
| says_each body lo hi n : contains_char "/" body = false -> body_says f body lo hi ->
    (lo <= n <= hi)%Z -> part_says f body n
| says_every body step k lo hi n : contains_char "/" body = false -> atoi step = Some k -> (1 <= k)%Z ->
    body_says f body lo hi -> (lo <= n <= hi)%Z -> (k | n - lo)%Z -> part_says f (body ++ String "/" step) n.

Definition field_says (i : nat) (value : string) (n : Z) : Prop :=
  exists part, part ∈ split "," value /\ part_says (nth_field i) part n.
(** Sunday is 0 and 7. *)
Definition weekday_says (value : string) (w : Z) : Prop :=
  field_says 4 value w \/ w = 0%Z /\ field_says 4 value 7.

(** A field that matches everything restricts nothing. *)
Definition every_day (value : string) : Prop := forall d, (1 <= d <= 31)%Z -> field_says 2 value d.
Definition every_weekday (value : string) : Prop := forall w, (0 <= w <= 6)%Z -> weekday_says value w.

(** When the expression fires: a day is one of the days of the month or one of the weekdays when
    both are restricted, and otherwise the one that the restricted field says. *)
Definition fires (values : list string) (t : Z) : Prop :=
  let v i := nth i values "" in
  field_says 0 (v 0%nat) (t_Minute t) /\ field_says 1 (v 1%nat) (t_Hour t) /\ field_says 3 (v 3%nat) (t_Month t) /\
  let dom := field_says 2 (v 2%nat) (t_Day t) in
  let dow := weekday_says (v 4%nat) (t_Weekday t) in
  (dom \/ dow) /\ (every_day (v 2%nat) -> dow) /\ (every_weekday (v 4%nat) -> dom).

(** A day field whose text says whether it restricts: [*] or [*/1], or one that leaves something
    out and does not start like them. [*/10] is taken for everything by [isUnrestricted], and
    [1-31] for a restriction. *)
Definition says_plainly (value : string) (everything : Prop) : Prop :=
  value = "*" \/ value = "*/1" \/ has_prefix "*/1" value = false /\ ~ everything.

Lemma body_bounds f body lo hi : body_says f body lo hi <->
  (if body =? "*" then Some (f_min f, f_max f)
   else let '(from, to, isRange) := cut "-" body in
     match resolve from f with
     | None => None
     | Some value => if isRange : bool then match resolve to f with None => None | Some stop => Some (value, stop) end
                     else Some (value, value)
     end) = Some (lo, hi).
Proof.
  split.
  - intros [|v n Hv Hd Hr|a b x y Ha Hx Hy]; [done| |].
    + apply String.eqb_neq in Hv. by rewrite Hv, cut_none, Hr.
    + assert ((a ++ String "-" b =? "*") = false) as -> by (apply String.eqb_neq; by destruct a as [|c []]).
      by rewrite cut_app, Hx, Hy.
  - destruct (String.eqb_spec body "*") as [->|Hb]; [intros [= <- <-]; constructor|].
    destruct (cut "-" body) as [[a b] r] eqn:Ec. apply cut_spec in Ec as [Ha Hr].
    destruct (resolve a f) as [x|] eqn:Ex; [|done]. destruct r.
    + destruct (resolve b f) as [y|] eqn:Ey; [|done]. intros [= <- <-]. subst body. by constructor.
    + destruct Hr as [-> ->]. intros [= <- <-]. by constructor.
Qed.

Lemma rangeMatches_says part n f : rangeMatches part n f = true <-> part_says f part n.
Proof.
  unfold rangeMatches. split.
  - destruct (cut "/" part) as [[body step] r] eqn:Ec. apply cut_spec in Ec as [Hb Hr].
    destruct (if r then _ else _) as [k|] eqn:Ek; [|done].
    destruct (if body =? "*" then _ else _) as [[lo hi]|] eqn:Eb; [|done]. apply body_bounds in Eb.
    destruct (Z.ltb_spec n lo), (Z.ltb_spec hi n); try done. cbn [orb]. intros Hm%Z.eqb_eq.
    destruct r; [|destruct Hr as [-> _]; by apply (says_each f body lo hi)].
    destruct (atoi step) as [k'|] eqn:Ea; [|done]. destruct (Z.ltb_spec k' 1); [done|]. injection Ek as <-. subst part.
    apply (says_every f body step k' lo hi); try done. apply Z.mod_divide; [lia|]. by rewrite <- Z.rem_mod_nonneg by lia.
  - intros [body lo hi m Hb Hs Hm|body step k lo hi m Hb Ha Hk Hs Hm Hd].
    + rewrite cut_none by done. apply body_bounds in Hs. rewrite Hs.
      destruct (Z.ltb_spec m lo), (Z.ltb_spec hi m); try lia. cbn. by rewrite Z.rem_1_r.
    + rewrite cut_app by done. rewrite Ha. destruct (Z.ltb_spec k 1); [lia|]. apply body_bounds in Hs. rewrite Hs.
      destruct (Z.ltb_spec m lo), (Z.ltb_spec hi m); try lia. cbn. apply Z.eqb_eq.
      rewrite Z.rem_mod_nonneg by lia. by apply Z.mod_divide; [lia|].
Qed.

Lemma fieldMatches_says i value n : fieldMatches value n (nth_field i) = true <-> field_says i value n.
Proof.
  unfold fieldMatches, field_says. rewrite existsb_exists. setoid_rewrite rangeMatches_says.
  by setoid_rewrite <- list_elem_of_In.
Qed.
Lemma weekdayMatches_says value w : weekdayMatches value w = true <-> weekday_says value w.
Proof. unfold weekdayMatches, weekday_says. by rewrite orb_true_iff, andb_true_iff, Z.eqb_eq, !fieldMatches_says. Qed.

(** The two texts that restrict nothing. *)
Lemma stars_say i value n : value = "*" \/ value = "*/1" -> (f_min (nth_field i) <= n <= f_max (nth_field i))%Z ->
  field_says i value n.
Proof.
  intros Hv Hn. exists value. split; [destruct Hv as [->| ->]; by apply list_elem_of_here|].
  destruct Hv as [->| ->]; [by eapply says_each; [..|exact Hn]; [|constructor]|].
  eapply (says_every (nth_field i) "*" "1" 1); [done..|constructor|exact Hn|]. apply Z.divide_1_l.
Qed.

Lemma unrestricted_says value everything : says_plainly value everything ->
  (value = "*" \/ value = "*/1" -> everything) -> isUnrestricted value = true <-> everything.
Proof.
  intros [->|[->|[Hp Hn]]] Hs; [by split; auto..|]. unfold isUnrestricted. rewrite Hp, orb_false_r.
  split; [intros ->%String.eqb_eq; auto|by intros ?].
Qed.

Lemma t_Day_range t : (1 <= t_Day t <= 31)%Z.
Proof.
  unfold t_Day, t_date, civil_of_days, date_of_doe. cbv zeta. cbn [snd].
  generalize ((t / day_ns + 719468) mod 146097)%Z as doe. intros doe.
  generalize (doe - (365 * ((doe - doe / 1460 + doe / 36524 - doe / 146096) / 365) +
    (doe - doe / 1460 + doe / 36524 - doe / 146096) / 365 / 4 -
    (doe - doe / 1460 + doe / 36524 - doe / 146096) / 365 / 100))%Z as doy. intros doy.
  pose proof (Z.div_mod (5 * doy + 2) 153). pose proof (Z.mod_pos_bound (5 * doy + 2) 153).
  generalize dependent ((5 * doy + 2) / 153)%Z. intros mp H1.
  pose proof (Z.div_mod (153 * mp + 2) 5). pose proof (Z.mod_pos_bound (153 * mp + 2) 5). lia.
Qed.
Lemma t_Weekday_range t : (0 <= t_Weekday t <= 6)%Z.
Proof. unfold t_Weekday, weekday_of_days. pose proof (Z.mod_pos_bound (t / day_ns + 4) 7). lia. Qed.

Lemma matches_fires t values :
  says_plainly (nth 2 values "") (every_day (nth 2 values "")) ->
  says_plainly (nth 4 values "") (every_weekday (nth 4 values "")) ->
  matches t values = true <-> fires values t.
Proof.
  intros Hd Hw. unfold matches, fires. cbv zeta.
  rewrite <- !fieldMatches_says, <- weekdayMatches_says.
  pose proof (unrestricted_says _ _ Hd) as Hud. pose proof (unrestricted_says _ _ Hw) as Huw.
  specialize (Hud ltac:(intros Hv d Hr; by apply stars_say)).
  specialize (Huw ltac:(intros Hv w Hr; left; apply stars_say; [done|cbn; lia])).
  assert (Hday : every_day (nth 2 values "") -> fieldMatches (nth 2 values "") (t_Day t) (nth_field 2) = true)
    by (intros He; apply fieldMatches_says, He, t_Day_range).
  assert (Hwday : every_weekday (nth 4 values "") -> weekdayMatches (nth 4 values "") (t_Weekday t) = true)
    by (intros He; apply weekdayMatches_says, He, t_Weekday_range).
  destruct (fieldMatches _ (t_Minute t) _), (fieldMatches _ (t_Hour t) _), (fieldMatches _ (t_Month t) _); cbn [negb orb];
    try (split; [done|by intros (? & ? & ? & _)]).
  destruct (fieldMatches _ (t_Day t) _), (weekdayMatches _ _), (isUnrestricted (nth 2 values "")),
    (isUnrestricted (nth 4 values "")); cbn [negb andb orb]; naive_solver.
Qed.

(** C27: [NextRun] finds the next time the schedule fires. For a schedule it accepts, whose two day
    fields say plainly whether they restrict, and an instant between two minutes, the answer is
    the first whole minute from then on, inside the four-year window, at which the expression
    fires by the rules of crontab; with no answer, it does not fire in the window. The walk
    terminates in every case. *)
Theorem NextRun_spec schedule normalised from :
  Schedule schedule = Ok normalised -> ~ on_minute from ->
  let values := fields normalised in
  says_plainly (nth 2 values "") (every_day (nth 2 values "")) ->
  says_plainly (nth 4 values "") (every_weekday (nth 4 values "")) ->
  let limit := add_years 4 (first_candidate from) in
  match NextRun schedule from with
  | Some t => (from <= t < limit)%Z /\ on_minute t /\ fires values t /\
      forall u, on_minute u -> (from <= u < t)%Z -> ~ fires values u
  | None => forall u, on_minute u -> (from <= u < limit)%Z -> ~ fires values u
  end.
Proof.
  intros Hs Hfrom values Hd Hw limit. pose proof (NextRun_walks schedule normalised from Hs) as Hn. cbv zeta in Hn.
  fold limit values in Hn.
  assert (Hno : forall u, matches u values = false -> ~ fires values u).
  { intros u Hu Hf. apply matches_fires in Hf; [congruence|done|done]. }
  assert (Hlt : forall u, on_minute u -> (from <= u)%Z -> (from < u)%Z) by (intros u Hu Hle; assert (from <> u) by congruence; lia).
  destruct (NextRun schedule from) as [t|].
  - destruct Hn as (Ht & Hm & Hmatch & Hb). split_and!; [lia|lia|done|by apply matches_fires|].
    intros u Hu Hr. apply Hno, Hb; [done|]. specialize (Hlt u Hu). lia.
  - intros u Hu Hr. apply Hno, Hn; [done|]. specialize (Hlt u Hu). lia.
Qed.

(** Fridays and the 13th, asked for a moment after midnight on Friday the 6th. *)
Lemma NextRun_spec_witness :
  NextRun "0 0 13 * fri" (t_of 2026 3 12 23 58 + 5) = Some (t_of 2026 3 13 0 0) /\
  fires ["0"; "0"; "13"; "*"; "fri"] (t_of 2026 3 13 0 0) /\ ~ fires ["0"; "0"; "13"; "*"; "fri"] (t_of 2026 3 12 23 59).
Proof.
  assert (Hr : NextRun "0 0 13 * fri" (t_of 2026 3 12 23 58 + 5) = Some (t_of 2026 3 13 0 0)).
  { apply (NextRun_early 3 _ "0 0 13 * fri"); vm_compute; reflexivity. }
  split; [exact Hr|].
  assert (Hd : ~ every_day "13").
  { intros He. assert (Hm : fieldMatches "13" 1 (nth_field 2) = true); [|vm_compute in Hm; discriminate].
    apply fieldMatches_says, He. split; intros E; discriminate E. }
  assert (Hw : ~ every_weekday "fri").
  { intros He. assert (Hm : weekdayMatches "fri" 0 = true); [|vm_compute in Hm; discriminate].
    apply weekdayMatches_says, He. split; intros E; discriminate E. }
  pose proof (NextRun_spec "0 0 13 * fri" "0 0 13 * fri" (t_of 2026 3 12 23 58 + 5) eq_refl ltac:(vm_compute; discriminate)
    (or_intror (or_intror (conj eq_refl Hd))) (or_intror (or_intror (conj eq_refl Hw)))) as H.
  rewrite Hr in H. destruct H as (_ & _ & Hf & Hb). split; [exact Hf|]. apply (Hb (t_of 2026 3 12 23 59)); [reflexivity|].
  vm_compute. split; [discriminate|reflexivity].
Defined.

(** [*/10] is taken for every day of the month: a job for the 1st, 11th, 21st and 31st is
    announced for the next day. *)
Example every_tenth_day :
  NextRun "0 0 */10 * *" (t_of 2026 3 12 23 58 + 5) = Some (t_of 2026 3 13 0 0) /\
  fieldMatches "*/10" 13 (nth_field 2) = false.
Proof. split; [apply (NextRun_early 3 _ "0 0 */10 * *")|]; vm_compute; reflexivity. Qed.

(** ** Every accepted field means something *)

Lemma assoc_in k l v : assoc k l = Some v -> (k, v) ∈ l.
Proof.
  induction l as [|[x w] l IH]; simpl; intros H; [done|].
  destruct (String.eqb_spec k x) as [->|]; [simplify_eq; by left|right; by apply IH].
Qed.

(** The names of a field stand for values of its range. *)
Definition good_field (f : field) : Prop :=
  (0 <= f_min f <= f_max f)%Z /\
  forall n v, (n, v) ∈ names f -> (f_min f <= v <= f_max f)%Z /\ str_forall is_lower n = true.

Lemma cronFields_good i : good_field (nth_field i).
Proof.
  assert (Hnames : forall f l, names f = l ->
    forallb (fun '(n, v) => (f_min f <=? v) && (v <=? f_max f) && str_forall is_lower n)%Z l = true ->
    forall n v, (n, v) ∈ names f -> (f_min f <= v <= f_max f)%Z /\ str_forall is_lower n = true).
  { intros f l <- H n v Hin. rewrite forallb_elem in H. specialize (H _ Hin). simpl in H.
    bool_hyps. done. }
  do 5 (destruct i as [|i]; [split; [done|by eapply Hnames]|]).
  unfold nth_field. cbn [nth cronFields]. destruct i; (split; [done|by eapply Hnames]).
Qed.

Lemma fieldValue_resolve value f :
  good_field f -> fieldValue value f = true ->
  exists v, resolve value f = Some v /\ (f_min f <= v <= f_max f)%Z.
Proof.
  intros [_ Hn]. unfold fieldValue, resolve. destruct (value =? ""); [done|].
  destruct (assoc _ _) as [v|] eqn:E.
  - intros _. exists v. split; [done|]. apply assoc_in in E. by apply Hn in E as [? _].
  - destruct (atoi value) as [v|]; [|done]. intros H. bool_hyps.
    exists v. rewrite (proj2 (orb_false_iff _ _)); [split; [done|lia]|].
    split; apply Z.ltb_ge; lia.
Qed.

Lemma rem_0 s : (Z.rem 0 s =? 0)%Z = true.
Proof. destruct s; reflexivity. Qed.

Lemma checkRange_matches part f :
  good_field f -> checkRange part f = true ->
  exists v, (f_min f <= v <= f_max f)%Z /\ rangeMatches part v f = true.
Proof.
  intros Hg. unfold checkRange, rangeMatches.
  destruct (cut "/" part) as [[body step] hasStep].
  set (ok := if hasStep then _ else true). destruct ok eqn:Eok; [|done]. cbn [negb].
  assert (Hstep : exists s, (if hasStep then match atoi step with
      | None => None | Some parsed => if (parsed <? 1)%Z then None else Some parsed end
      else Some 1%Z) = Some s).
  { subst ok. destruct hasStep; [|by eexists]. destruct (atoi step); [|done].
    apply andb_true_iff in Eok as [E1 _]. apply negb_true_iff in E1. rewrite E1. by eexists. }
  destruct Hstep as [s ->]. clear ok Eok. destruct (body =? "*").
  { intros _. destruct Hg as [Hr _]. exists (f_min f). split; [lia|].
    rewrite Z.sub_diag, rem_0. rewrite Z.ltb_irrefl. by rewrite (proj2 (Z.ltb_ge _ _)) by lia. }
  destruct (cut "-" body) as [[from to] isRange]. intros H.
  destruct (fieldValue from f) eqn:Ef; [|done]. cbn [negb] in H.
  apply fieldValue_resolve in Ef as (v & Hv & Hrange); [|done]. rewrite Hv in *.
  exists v. split; [lia|]. destruct isRange; cbn [negb] in H.
  - destruct (fieldValue to f) eqn:Et; [|done]. cbn [negb] in H.
    apply fieldValue_resolve in Et as (w & Hw & _); [|done]. rewrite Hw in *. simpl in H.
    rewrite Z.ltb_irrefl. apply negb_true_iff in H. by rewrite H, Z.sub_diag, rem_0.
  - by rewrite Z.ltb_irrefl, Z.sub_diag, rem_0.
Qed.

Lemma checkField_matches value f :
  good_field f -> checkField value f = true ->
  exists v, (f_min f <= v <= f_max f)%Z /\ fieldMatches value v f = true.
Proof.
  intros Hg. unfold checkField, fieldMatches. destruct (value =? ""); [done|]. intros H.
  pose proof (split_not_nil "," value) as Hn. destruct (split "," value) as [|part parts]; [done|].
  simpl in H. apply andb_true_iff in H as [H _].
  destruct (checkRange_matches part f Hg H) as (v & Hv & Hm). exists v. simpl. by rewrite Hm.
Qed.

(** ** The normal form of a schedule *)

Definition cron_char (a : ascii) : bool :=
  is_lower a || is_upper a || is_digit a || contains_char a "*/-+".
Definition list_char (a : ascii) : bool := cron_char a || Ascii.eqb a ",".

Lemma list_char_graph a : list_char a = true -> graph_char a = true.
Proof. destruct a as [[] [] [] [] [] [] [] []]; vm_compute; congruence. Qed.

Lemma lower_name_chars s : str_forall is_lower (to_lower s) = true -> str_forall cron_char s = true.
Proof.
  unfold to_lower. induction s as [|a s IH]; intros H; [done|].
  cbn [str_map str_forall] in *. apply andb_true_iff in H as [Ha H]. rewrite (IH H), andb_true_r.
  revert Ha. clear. destruct a as [[] [] [] [] [] [] [] []]; vm_compute; congruence.
Qed.

Lemma atoi_cron_chars s v : atoi s = Some v -> str_forall cron_char s = true.
Proof.
  assert (Hd : forall acc t u, digits_val acc t = Some u -> str_forall cron_char t = true).
  { intros acc t. revert acc. induction t as [|a t IH]; intros acc u H; [done|].
    cbn [digits_val str_forall] in *. destruct (is_digit a) eqn:Ea; [|done].
    rewrite (IH _ _ H). unfold cron_char. by rewrite Ea, !orb_true_r. }
  unfold atoi, udigits. intros H. destruct s as [|a s]; [done|].
  destruct (Ascii.eqb_spec a "-") as [->|_]; [|destruct (Ascii.eqb_spec a "+") as [->|_]].
  - destruct s; [done|]. destruct (digits_val _ _) eqn:E in H; [|done]. by apply Hd in E.
  - destruct s; [done|]. destruct (digits_val _ _) eqn:E in H; [|done]. by apply Hd in E.
  - destruct (digits_val _ _) eqn:E in H; [|done]. by apply Hd in E.
Qed.

Lemma fieldValue_chars value f :
  good_field f -> fieldValue value f = true -> str_forall cron_char value = true.
Proof.
  intros [_ Hn]. unfold fieldValue. destruct (value =? ""); [done|].
  destruct (assoc _ _) as [v|] eqn:E.
  - intros _. apply assoc_in in E. apply Hn in E as [_ E]. by apply lower_name_chars.
  - destruct (atoi value) eqn:Ea; [|done]. intros _. by eapply atoi_cron_chars.
Qed.

Lemma checkRange_chars part f :
  good_field f -> checkRange part f = true -> str_forall cron_char part = true.
Proof.
  intros Hg. unfold checkRange. destruct (cut "/" part) as [[body step] hasStep] eqn:Ec.
  apply cut_spec in Ec as [_ Ec].
  destruct (if hasStep then _ else true) eqn:Eok; [|done]. cbn [negb]. intros H.
  assert (Hb : str_forall cron_char body = true).
  { destruct (String.eqb_spec body "*") as [->|_]; [done|].
    destruct (cut "-" body) as [[from to] isRange] eqn:E. apply cut_spec in E as [_ E].
    destruct (fieldValue from f) eqn:Ef; [|done]. apply fieldValue_chars in Ef; [|done].
    destruct isRange; cbn [negb] in H.
    - destruct (fieldValue to f) eqn:Et; [|done]. apply fieldValue_chars in Et; [|done].
      subst body. rewrite str_forall_app. simpl. by rewrite Ef, Et.
    - by destruct E as [-> _]. }
  destruct hasStep.
  - destruct (atoi step) eqn:Es; [|done]. apply atoi_cron_chars in Es. subst part.
    rewrite str_forall_app. simpl. by rewrite Hb, Es.
  - by destruct Ec as [-> _].
Qed.

Lemma checkField_token value f :
  good_field f -> checkField value f = true -> value <> "" /\ str_forall list_char value = true.
Proof.
  intros Hg. unfold checkField. destruct (String.eqb_spec value ""); [done|]. intros H.
  split; [done|]. rewrite <- (join_split "," value). apply join_forall; [done|].
  apply list.Forall_forall. intros part Hp. rewrite forallb_elem in H. specialize (H part Hp).
  apply checkRange_chars in H; [|done]. eapply str_forall_impl; [|exact H].
  unfold list_char. by intros ? ->.
Qed.

(** Splitting never lengthens the text. *)
Lemma fields_go_length s cur skip :
  (String.length (join " " (fields_go cur skip s)) <=
   String.length s + match cur with Some c => String.length c | None => 0 end)%nat.
Proof.
  revert cur skip. induction s as [|a s IH]; intros cur skip.
  - destruct cur; simpl; lia.
  - cbn [fields_go String.length]. destruct skip as [|k]; [|specialize (IH cur k); lia].
    destruct (space_len (String a s)) as [|k].
    + specialize (IH (Some (default "" cur ++ String a "")) 0%nat).
      cbn iota in IH. rewrite length_app_str in IH.
      change (String.length (String a "")) with 1%nat in IH.
      assert (Hc : String.length (default "" cur) =
                   match cur with Some c => String.length c | None => 0%nat end) by by destruct cur.
      lia.
    + specialize (IH None k). cbn iota in IH. destruct cur as [c|].
      2:{ change (option_list (@None string) ++ fields_go None k s)%list with (fields_go None k s).
          lia. }
      change (option_list (Some c) ++ fields_go None k s)%list with (c :: fields_go None k s).
      destruct (fields_go None k s) as [|x l] eqn:E; [simpl; lia|].
      rewrite join_cons by done. rewrite !length_app_str.
      change (String.length " ") with 1%nat. lia.
Qed.

Lemma check_fields_tokens i values :
  check_fields values (drop i cronFields) = true ->
  (i + List.length values <= 5)%nat ->
  Forall (fun v => v <> "" /\ str_forall list_char v = true) values.
Proof.
  revert i. induction values as [|v values IH]; intros i H Hl; [done|].
  simpl in Hl. assert (Hd : drop i cronFields = nth_field i :: drop (S i) cronFields).
  { do 5 (destruct i as [|i]; [done|]). lia. }
  rewrite Hd in H. cbn [check_fields] in H. apply andb_true_iff in H as [Hv H].
  constructor; [|apply (IH (S i)); [done|lia]].
  eapply checkField_token; [|exact Hv]. apply cronFields_good.
Qed.

Definition schedule_char (a : ascii) : bool := list_char a || Ascii.eqb a " ".

Lemma schedule_char_safe c s :
  schedule_char c = false -> str_forall schedule_char s = true -> contains_char c s = false.
Proof. intros Hc Hs. by apply (contains_char_forall c schedule_char). Qed.

Lemma contains_any_none cs s :
  (forall c, contains_char c cs = true -> contains_char c s = false) -> contains_any cs s = false.
Proof.
  unfold contains_any. intros H. induction s as [|a s IH]; [done|]. simpl.
  apply orb_false_iff. split.
  - destruct (contains_char a cs) eqn:E; [|done]. specialize (H a E).
    unfold contains_char in H. simpl in H. by rewrite Ascii.eqb_refl in H.
  - apply IH. intros c Hc. specialize (H c Hc). unfold contains_char in *. simpl in H.
    by apply orb_false_iff in H as [_ H].
Qed.

Lemma Schedule_core e s :
  Schedule e = Ok s ->
  Schedule s = Ok s /\ str_forall schedule_char s = true /\
  (List.length (fields s) = 5)%nat /\ check_fields (fields s) cronFields = true.
Proof.
  unfold Schedule at 1. intros H. go_inv H.
  destruct (has_prefix "@" (trim_space e)).
  { destruct (shorthand _ _) as [x|] eqn:E; [|done]. injection H as <-. revert E. clear.
    unfold shorthands. generalize (to_lower (trim_space e)). intros k. cbn [shorthand].
    repeat (destruct (k =? _); [intros [= <-]; vm_compute; tauto|]). done. }
  go_inv H. injection H as <-. bool_hyps.
  set (vs := fields (trim_space e)) in *.
  pose proof (check_fields_tokens 0 vs Hg3 ltac:(simpl; lia)) as Htok.
  assert (Ht : Forall token vs).
  { eapply list.Forall_impl; [exact Htok|]. intros v [Hv Hc]. split; [done|].
    eapply str_forall_impl; [|exact Hc]. exact list_char_graph. }
  assert (Hne : vs <> []) by (intros E; rewrite E in Hg2; done).
  assert (Hchars : str_forall schedule_char (join " " vs) = true).
  { apply join_forall; [done|]. eapply list.Forall_impl; [exact Htok|]. intros v [_ Hc].
    eapply str_forall_impl; [|exact Hc]. unfold schedule_char. by intros ? ->. }
  assert (Hlen : (String.length (join " " vs) <= String.length (trim_space e))%nat).
  { pose proof (fields_go_length (trim_space e) None 0) as Hl. cbn iota in Hl.
    unfold vs, fields. lia. }
  split_and!; [|done|by rewrite fields_join|by rewrite fields_join].
  unfold Schedule. rewrite trim_space_tokens, fields_join by done.
  assert (Hempty : (join " " vs =? "") = false).
  { apply String.eqb_neq. intros E. apply Hne. destruct vs as [|v vs']; [done|].
    inversion Ht as [|? ? [Hv _] _]; subst. destruct vs'; [done|].
    rewrite join_cons in E by done. by destruct v. }
  assert (Hpre : has_prefix "@" (join " " vs) = false).
  { destruct (join " " vs) as [|a t]; [done|]. simpl in Hchars.
    apply andb_true_iff in Hchars as [Ha _]. destruct (has_prefix "@" (String a t)) eqn:E; [|done].
    exfalso. apply has_prefix_spec in E as [u Hu]. simpl in Hu. by simplify_eq. }
  rewrite Hempty, Hpre. cbn [guard rbind].
  replace (MaxScheduleLength <? _)%nat with false by (symmetry; apply Nat.ltb_ge; lia).
  rewrite contains_any_none.
  - cbn [guard rbind]. rewrite Hg2. simpl negb. cbn [guard rbind]. by rewrite Hg3.
  - intros c Hc. eapply schedule_char_safe; [|exact Hchars]. revert Hc. clear.
    destruct c as [[] [] [] [] [] [] [] []]; vm_compute; congruence.
Qed.

(** A schedule has one normal form, and it is safe to write on a crontab line. What
    [Schedule] returns is accepted again and returned unchanged, consists of five
    space-separated fields made of letters, digits and the characters * / - + and comma,
    and so contains no line break, NUL or percent sign. *)
Theorem Schedule_normal_form e s :
  Schedule e = Ok s ->
  Schedule s = Ok s /\ (List.length (fields s) = 5)%nat /\ str_forall schedule_char s = true /\
  contains_char LF s = false /\ contains_char CR s = false /\ contains_char NUL s = false /\
  contains_char "%" s = false.
Proof.
  intros H. apply Schedule_core in H as (Hs & Hc & Hl & _).
  split_and!; try done; by apply (schedule_char_safe _ s).
Qed.

Lemma Schedule_normal_form_witness :
  Schedule "  */5 0-6,22  1 * mon " = Ok "*/5 0-6,22 1 * mon" /\
  Schedule "*/5 0-6,22 1 * mon" = Ok "*/5 0-6,22 1 * mon" /\
  contains_char LF "*/5 0-6,22 1 * mon" = false.
Proof.
  assert (H : Schedule "  */5 0-6,22  1 * mon " = Ok "*/5 0-6,22 1 * mon") by reflexivity.
  destruct (Schedule_normal_form _ _ H) as (Hs & _ & _ & Hl & _). split; [exact H|].
  split; [exact Hs|exact Hl].
Defined.

(** No accepted field is silently empty. Each of the five fields of an accepted
    schedule matches at least one value of its range, so only the combination of the
    day and the month can make a schedule never fire. *)
Theorem Schedule_fields_match e s i :
  Schedule e = Ok s -> (i < 5)%nat ->
  exists v, (f_min (nth_field i) <= v <= f_max (nth_field i))%Z /\
    fieldMatches (nth i (fields s) "") v (nth_field i) = true.
Proof.
  intros H Hi. apply Schedule_core in H as (_ & _ & Hl & Hc).
  assert (Hf : checkField (nth i (fields s) "") (nth_field i) = true).
  { revert Hl Hc. generalize (fields s). intros vs Hl Hc.
    destruct vs as [|v0 [|v1 [|v2 [|v3 [|v4 [|]]]]]]; try done.
    unfold cronFields in Hc. cbn [check_fields] in Hc. bool_hyps.
    do 5 (destruct i as [|i]; [done|]). lia. }
  eapply checkField_matches; [apply cronFields_good|exact Hf].
Qed.

Lemma Schedule_fields_match_witness :
  Schedule "*/20 4 1,15 * *" = Ok "*/20 4 1,15 * *" /\
  exists v, (0 <= v <= 59)%Z /\ fieldMatches "*/20" v (nth_field 0) = true.
Proof.
  split; [reflexivity|].
  exact (Schedule_fields_match "*/20 4 1,15 * *" "*/20 4 1,15 * *" 0 eq_refl ltac:(lia)).
Defined.

(** ** Day fields that match everything *)

(** A field of the form "*/1..." with a further digit. *)
Definition longer_step (value : string) : Prop :=
  exists c rest, value = "*/1" ++ String c rest /\ is_digit c = true.

Lemma star_matches part f v :
  part = "*" \/ part = "*/1" -> (f_min f <= v <= f_max f)%Z -> rangeMatches part v f = true.
Proof.
  intros Hp Hv. assert (Hb : ((v <? f_min f) || (f_max f <? v))%Z = false)
    by (apply orb_false_iff; split; apply Z.ltb_ge; lia).
  unfold rangeMatches. destruct Hp as [->| ->].
  - change (cut "/" "*") with ("*", "", false). simpl. by rewrite Hb, Z.rem_1_r.
  - change (cut "/" "*/1") with ("*", "1", true). change (atoi "1") with (Some 1%Z). simpl.
    by rewrite Hb, Z.rem_1_r.
Qed.

Lemma split_cons_ne c a s :
  a <> c -> exists x xs, split c s = x :: xs /\ split c (String a s) = String a x :: xs.
Proof.
  intros Hne. pose proof (split_not_nil c s) as Hn. cbn [split].
  destruct (Ascii.eqb_spec a c); [done|]. destruct (split c s) as [|x xs]; [done|]. by eexists _, _.
Qed.

Lemma split_star_one c t :
  c <> ","%char -> exists u xs, split "," ("*/1" ++ String c t) = ("*/1" ++ String c u) :: xs.
Proof.
  intros Hc. destruct (split_cons_ne "," c t Hc) as (u & xs & _ & H1).
  destruct (split_cons_ne "," "1" (String c t)) as (x2 & xs2 & E2 & H2); [done|].
  destruct (split_cons_ne "," "/" (String "1" (String c t))) as (x3 & xs3 & E3 & H3); [done|].
  destruct (split_cons_ne "," "*" (String "/" (String "1" (String c t)))) as (x4 & xs4 & E4 & H4);
    [done|].
  exists u, xs. simpl String.append. simplify_eq. congruence.
Qed.

(** When a day field may be ignored. A day field of an accepted schedule that
    [isUnrestricted] calls unrestricted matches every value of its range, except for the fields
    that begin with a step of two or three digits starting with 1 ("*/10" to "*/19"), which it
    takes for "*/1" although they match few values. *)
Theorem isUnrestricted_sound value f v :
  (f_min f <= v <= f_max f)%Z -> checkField value f = true -> isUnrestricted value = true ->
  fieldMatches value v f = true \/ longer_step value.
Proof.
  intros Hv Hc Hu. unfold isUnrestricted in Hu. apply orb_true_iff in Hu as [Hu|Hu].
  { apply String.eqb_eq in Hu as ->. left. unfold fieldMatches.
    change (split "," "*") with ["*"]. cbn [existsb]. by rewrite star_matches by auto. }
  apply has_prefix_spec in Hu as [t ->]. destruct t as [|c t].
  { left. unfold fieldMatches. change (split "," ("*/1" ++ "")) with ["*/1"]. cbn [existsb].
    by rewrite star_matches by auto. }
  destruct (is_digit c) eqn:Ec; [right; by exists c, t|]. left.
  destruct (decide (c = ","%char)) as [->|Hne].
  - unfold fieldMatches. rewrite (split_app "," "*/1" t) by done. cbn [existsb].
    by rewrite star_matches by auto.
  - exfalso. destruct (split_star_one c t Hne) as (u & xs & Hs).
    unfold checkField in Hc. rewrite Hs in Hc. cbn [forallb] in Hc.
    assert (Hr : checkRange ("*/1" ++ String c u) f = false).
    { unfold checkRange.
      change ("*/1" ++ String c u) with ("*" ++ String "/" (String "1" (String c u))).
      rewrite (cut_app "/" "*" (String "1" (String c u))) by done.
      assert (Ha : atoi (String "1" (String c u)) = None).
      { unfold atoi, udigits. cbn [Ascii.eqb digits_val]. simpl. by rewrite Ec. }
      by rewrite Ha. }
    rewrite Hr in Hc. by case_match.
Qed.

(** The exception is real: on the 12th, "*/10" matches nothing, and a schedule for every
    tenth day of the month at midnight is said to run. *)
Lemma isUnrestricted_sound_witness :
  checkField "*/10" (nth_field 2) = true /\ fieldMatches "*/10" 12 (nth_field 2) = false /\
  matches (t_of 2026 3 12 0 0) ["0"; "0"; "*/10"; "*"; "*"] = true /\ longer_step "*/10".
Proof.
  split; [reflexivity|]. split; [reflexivity|]. split; [vm_compute; reflexivity|].
  destruct (isUnrestricted_sound "*/10" (nth_field 2) 12) as [H|H].
  - vm_compute. split; discriminate.
  - reflexivity.
  - reflexivity.
  - vm_compute in H. discriminate H.
  - exact H.
Defined.

(** A sign is accepted where cron reads only digits. *)
Example plus_sign : Schedule "+5 * * * */+2" = Ok "+5 * * * */+2".
Proof. vm_compute. reflexivity. Qed.
