(* ===== verification/Crontab.v ===== *)
(** * The panel's block in a crontab ([agent/internal/cron/crontab.go], [cron.go])

    Rendering the jobs of an account, merging the block into a file the customer also
    writes, and reading the identifiers back. *)

From S2P Require Import Prelude GoStr GoTime Cron.

#[local] Open Scope string_scope.

(** ** Jobs *)
Record Job := {
  ID : string;
  Name : string;
  j_Schedule : string;
  j_Command : string;
  Enabled : bool;
}.

Definition Validate (j : Job) : result cron_err unit :=
  UUID (ID j) ;?
  JobName (Name j) ;?
  let? _ := Schedule (j_Schedule j) in
  Command (j_Command j).

(** ** The block *)
Definition beginMarker := "# BEGIN JotHost scheduled jobs — managed by the panel, do not edit".
Definition endMarker := "# END JotHost scheduled jobs".

(** [Format(time.RFC3339)] in UTC. *)
Definition rfc3339 (t : Z) : string :=
  pad 4 (t_Year t) "" ++ "-" ++ pad 2 (t_Month t) "" ++ "-" ++ pad 2 (t_Day t) "" ++ "T" ++
  pad 2 (t_Hour t) "" ++ ":" ++ pad 2 (t_Minute t) "" ++ ":" ++ pad 2 (t_Second t) "" ++ "Z".

Definition LogPath (logDir id : string) : string := fp_join [logDir; id ++ ".log"].

(** The two lines of a job. *)
Definition comment_line (j : Job) : string := "# " ++ Name j ++ " (job " ++ ID j ++ ")".
Definition entry_line (logDir : string) (j : Job) : string :=
  j_Schedule j ++ " ( " ++ j_Command j ++ " ) >> " ++ LogPath logDir (ID j) ++ " 2>&1".

Fixpoint render_jobs (logDir : string) (jobs : list Job) : string :=
  match jobs with
  | [] => ""
  | j :: more =>
      comment_line j ++ nl ++ entry_line logDir j ++ nl ++ render_jobs logDir more
  end.

Definition render (logDir : string) (now : Z) (jobs : list Job) : string :=
  beginMarker ++ nl ++
  "# Written " ++ rfc3339 now ++ ". Changes inside this block are overwritten by the panel;" ++ nl ++
  "# anything outside it is left alone." ++ nl ++
  render_jobs logDir jobs ++
  endMarker ++ nl.

Definition right_blanks : string := " " ++ String "009" "".
Definition is_marker (marker line : string) : bool := trim_right_set right_blanks line =? marker.

(** The loop of [managedJobIDs]. *)
Fixpoint ids_from (inside : bool) (lines : list string) : list string :=
  match lines with
  | [] => []
  | line :: more =>
      let trimmed := trim_right_set right_blanks line in
      if trimmed =? beginMarker then ids_from true more
      else if trimmed =? endMarker then ids_from false more
      else if negb inside then ids_from inside more
      else
        let '(_, rest, found) := cut_str "(job " trimmed in
        if negb found then ids_from inside more
        else
          let '(id, _, found) := cut ")" rest in
          if negb found || negb (is_ok (UUID id)) then ids_from inside more
          else id :: ids_from inside more
  end.

Definition managedJobIDs (existing : string) : list string := ids_from false (split LF existing).

(** ** Merging *)
Definition blank (line : string) : bool := trim_space line =? "".

Fixpoint drop_blank (lines : list string) : list string :=
  match lines with
  | x :: r => if blank x then drop_blank r else lines
  | [] => []
  end.
Definition drop_last_blank (lines : list string) : list string := rev (drop_blank (rev lines)).

Definition trimTrailingBlanks (lines : list string) : string := join nl (drop_last_blank lines).
Definition trimLeadingBlanks (lines : list string) : string :=
  join nl (drop_last_blank (drop_blank lines)).

(** The lines before and after the first line that is a marker. *)
Fixpoint cut_marker (marker : string) (lines : list string) : option (list string * list string) :=
  match lines with
  | [] => None
  | x :: r => if is_marker marker x then Some ([], r)
              else match cut_marker marker r with
                   | Some (a, b) => Some (x :: a, b)
                   | None => None
                   end
  end.

(** The customer's lines before and after the block. *)
Definition outside (lines : list string) : list string * list string :=
  match cut_marker beginMarker lines with
  | None => (lines, [])
  | Some (before, rest) =>
      match cut_marker endMarker rest with
      | None => (before, [])
      | Some (_, after) => (before, after)
      end
  end.

(** A joined part, with its newline when there is anything in it. *)
Definition with_newline (joined : string) : string :=
  if joined =? "" then "" else joined ++ nl.

Definition merge (existing block : string) : string :=
  let '(before, after) := outside (split LF existing) in
  let rendered := with_newline (trimTrailingBlanks before) ++ block ++
                  with_newline (trimLeadingBlanks after) in
  if negb (rendered =? "") && negb (has_suffix nl rendered) then rendered ++ nl else rendered.

(** [write]: the content the file ends up with; [None] removes it. *)
Definition write (logDir : string) (now : Z) (existing : string) (jobs : list Job) : option string :=
  let block := match jobs with [] => "" | _ => render logDir now jobs end in
  let merged := merge existing block in
  if trim_space merged =? "" then None else Some merged.

(** The loop of [Apply]: the jobs that are written, or the first that is refused. *)
Fixpoint written_jobs (jobs : list Job) : result cron_err (list Job) :=
  match jobs with
  | [] => Ok []
  | j :: more =>
      Validate j ;?
      let? rest := written_jobs more in
      Ok (if negb (Enabled j) then rest else j :: rest)
  end.

(** What [Apply] and [Remove] make of a crontab: the identifiers whose logs go and
    the new content. *)
Definition apply_content (logDir : string) (now : Z) (existing : string) (jobs : list Job)
  : result cron_err (option string) :=
  let? written := written_jobs jobs in Ok (write logDir now existing written).
Definition remove_content (logDir : string) (now : Z) (existing : string) : list string * option string :=
  (managedJobIDs existing, write logDir now existing []).

Definition sample := {| ID := "01234567-89ab-cdef-0123-456789abcdef"; Name := "nightly";
  j_Schedule := "0 3 * * *"; j_Command := "php run.php; echo ok"; Enabled := true |}.

Example crontab_example :
  merge (join nl ["MAILTO=me"; "5 4 * * * mine"; ""; ""]) (render "/var/log/j" 0 [sample])
  = join nl ["MAILTO=me"; "5 4 * * * mine"; beginMarker;
       "# Written 1970-01-01T00:00:00Z. Changes inside this block are overwritten by the panel;";
       "# anything outside it is left alone.";
       "# nightly (job 01234567-89ab-cdef-0123-456789abcdef)";
       "0 3 * * * ( php run.php; echo ok ) >> /var/log/j/01234567-89ab-cdef-0123-456789abcdef.log 2>&1";
       endMarker; ""] /\
  managedJobIDs (render "/var/log/j" 0 [sample]) = [ID sample].
Proof. vm_compute. split; reflexivity. Qed.

(** ** Lines *)

Lemma blank_empty x : x = "" -> blank x = true.
Proof. by intros ->. Qed.

(** A list that does not start, or end, with a blank line. *)
Definition head_ok (l : list string) : Prop := match l with [] => True | x :: _ => blank x = false end.

Lemma drop_blank_head l : head_ok (drop_blank l).
Proof. induction l as [|x l IH]; simpl; [done|]. by destruct (blank x) eqn:E. Qed.

Lemma drop_blank_id l : head_ok l -> drop_blank l = l.
Proof. destruct l as [|x l]; simpl; [done|]. by intros ->. Qed.

Lemma drop_blank_suffix l : exists k, l = (k ++ drop_blank l)%list /\ Forall (fun x => blank x = true) k.
Proof.
  induction l as [|x l (k & Hk & Hb)]; simpl; [by exists []|]. destruct (blank x) eqn:E.
  - exists (x :: k). simpl. split; [congruence|by constructor].
  - by exists [].
Qed.

Lemma drop_last_prefix l : exists k, l = (drop_last_blank l ++ k)%list /\ Forall (fun x => blank x = true) k.
Proof.
  unfold drop_last_blank. destruct (drop_blank_suffix (rev l)) as (k & Hk & Hb).
  exists (rev k). split; [|by apply Forall_rev].
  rewrite <- rev_app_distr, <- Hk. by rewrite rev_involutive.
Qed.

Lemma drop_last_idem l : drop_last_blank (drop_last_blank l) = drop_last_blank l.
Proof.
  unfold drop_last_blank. rewrite rev_involutive. by rewrite drop_blank_id by apply drop_blank_head.
Qed.

Lemma drop_last_snoc l : drop_last_blank (l ++ [""])%list = drop_last_blank l.
Proof. unfold drop_last_blank. rewrite rev_app_distr. done. Qed.

(** What is kept of the lines after the block. *)
Definition trim_lines (l : list string) : list string := drop_last_blank (drop_blank l).

Lemma trim_lines_head l : head_ok (trim_lines l).
Proof.
  unfold trim_lines. pose proof (drop_blank_head l) as H. destruct (drop_blank l) as [|x k]; [done|].
  simpl in H. rewrite <- (app_nil_l (x :: k)). unfold drop_last_blank. simpl rev.
  assert (E : exists m, drop_blank (rev k ++ [x]) = (m ++ [x])%list).
  { generalize (rev k). intros m. induction m as [|y m [m' IH]]; simpl.
    - exists []. by rewrite H.
    - destruct (blank y); [by exists m'|]. by exists (y :: m). }
  destruct E as [m ->]. rewrite rev_app_distr. done.
Qed.

Lemma trim_lines_snoc_idem l : trim_lines (trim_lines l ++ [""])%list = trim_lines l.
Proof.
  pose proof (trim_lines_head l) as Hh. unfold trim_lines at 1.
  destruct (trim_lines l) as [|x k] eqn:E; [done|].
  rewrite drop_blank_id by done. rewrite drop_last_snoc, <- E. unfold trim_lines.
  apply drop_last_idem.
Qed.

Lemma with_newline_lines l :
  head_ok (rev l) -> with_newline (join nl l) = unlines l.
Proof.
  intros Hl. unfold with_newline. destruct l as [|x l]; [done|].
  destruct (String.eqb_spec (join nl (x :: l)) "") as [E|E]; [|by rewrite join_unlines].
  exfalso. destruct l as [|y l].
  - simpl in *. by rewrite blank_empty in Hl.
  - rewrite join_cons in E by done. by destruct x.
Qed.

Lemma drop_last_last l : head_ok (rev (drop_last_blank l)).
Proof. unfold drop_last_blank. rewrite rev_involutive. apply drop_blank_head. Qed.

Lemma before_text l : with_newline (trimTrailingBlanks l) = unlines (drop_last_blank l).
Proof. apply with_newline_lines, drop_last_last. Qed.
Lemma after_text l : with_newline (trimLeadingBlanks l) = unlines (trim_lines l).
Proof. apply with_newline_lines, drop_last_last. Qed.

Lemma has_suffix_nl s : has_suffix nl (s ++ nl) = true.
Proof.
  induction s as [|a s IH]; [done|]. rewrite app_string_cons. cbn [has_suffix].
  rewrite IH. by rewrite orb_true_r.
Qed.

Lemma unlines_suffix l : l = [] \/ exists s, unlines l = s ++ nl.
Proof.
  destruct l as [|x l _] using rev_ind; [by left|right].
  rewrite unlines_app. exists (unlines l ++ x). simpl. by rewrite !app_assoc_str.
Qed.

(** [merge] as lines: the customer's, the block's, the customer's. *)
Lemma merge_lines existing block before after :
  outside (split LF existing) = (before, after) ->
  merge existing (unlines block) =
    unlines (drop_last_blank before ++ block ++ trim_lines after)%list.
Proof.
  intros Ho. unfold merge. rewrite Ho. rewrite before_text, after_text.
  rewrite !unlines_app. rewrite <- !unlines_app.
  set (ls := (drop_last_blank before ++ block ++ trim_lines after)%list).
  destruct (unlines_suffix ls) as [->|[s ->]]; [done|].
  rewrite has_suffix_nl. by rewrite andb_false_r.
Qed.

(** ** The markers *)

Lemma cut_marker_app m l x r :
  Forall (fun y => is_marker m y = false) l -> is_marker m x = true ->
  cut_marker m (l ++ x :: r)%list = Some (l, r).
Proof.
  intros Hl Hx. induction Hl as [|y l Hy Hl IH]; simpl; [by rewrite Hx|]. by rewrite Hy, IH.
Qed.

Lemma cut_marker_before m l a b :
  cut_marker m l = Some (a, b) -> Forall (fun y => is_marker m y = false) a.
Proof.
  revert a b. induction l as [|x l IH]; simpl; intros a b H; [done|].
  destruct (is_marker m x) eqn:E; [by simplify_eq|].
  destruct (cut_marker m l) as [[a' b']|]; [|done]. simplify_eq. constructor; [done|].
  by eapply IH.
Qed.

Lemma cut_marker_none m l : cut_marker m l = None -> Forall (fun y => is_marker m y = false) l.
Proof.
  induction l as [|x l IH]; simpl; intros H; [done|]. destruct (is_marker m x) eqn:E; [done|].
  destruct (cut_marker m l) as [[]|]; [done|]. constructor; [done|by apply IH].
Qed.

Lemma cut_marker_split m l a b :
  cut_marker m l = Some (a, b) -> exists x, l = (a ++ x :: b)%list.
Proof.
  revert a b. induction l as [|x l IH]; simpl; intros a b H; [done|].
  destruct (is_marker m x); [simplify_eq; by exists x|].
  destruct (cut_marker m l) as [[a' b']|]; [|done]. simplify_eq.
  destruct (IH _ _ eq_refl) as [y ->]. by exists y.
Qed.

Lemma outside_before lines before after :
  outside lines = (before, after) -> Forall (fun y => is_marker beginMarker y = false) before.
Proof.
  unfold outside. destruct (cut_marker beginMarker lines) as [[a b]|] eqn:E.
  - apply cut_marker_before in E. destruct (cut_marker endMarker b) as [[c d]|]; intros; by simplify_eq.
  - intros. simplify_eq. by apply cut_marker_none.
Qed.

Lemma outside_one_line lines before after :
  Forall one_line lines -> outside lines = (before, after) ->
  Forall one_line before /\ Forall one_line after.
Proof.
  unfold outside. intros Hl. destruct (cut_marker beginMarker lines) as [[a b]|] eqn:E.
  - apply cut_marker_split in E as [x ->]. apply Forall_app in Hl as [Ha Hb].
    apply list.Forall_cons in Hb as [_ Hb].
    destruct (cut_marker endMarker b) as [[c d]|] eqn:E2; intros; simplify_eq; [|done].
    apply cut_marker_split in E2 as [y ->]. apply Forall_app in Hb as [_ Hb].
    by apply list.Forall_cons in Hb as [_ Hb].
  - intros. by simplify_eq.
Qed.

(** A block: a begin line, lines that are not the end, an end line. *)
Definition block_ok (bl : list string) : Prop :=
  exists x body y, bl = (x :: body ++ [y])%list /\ is_marker beginMarker x = true /\
    is_marker endMarker y = true /\ Forall (fun z => is_marker endMarker z = false) body /\
    Forall one_line bl.

Lemma Forall_drop_last (P : string -> Prop) l : Forall P l -> Forall P (drop_last_blank l).
Proof.
  intros H. destruct (drop_last_prefix l) as (k & E & _). rewrite E in H.
  by apply Forall_app in H as [H _].
Qed.

Lemma Forall_trim_lines (P : string -> Prop) l : Forall P l -> Forall P (trim_lines l).
Proof.
  intros H. apply Forall_drop_last. destruct (drop_blank_suffix l) as (k & E & _). rewrite E in H.
  by apply Forall_app in H as [_ H].
Qed.

(** After a merge, the lines outside the block are the ones that were outside, less blank
    lines next to the block and at the ends. *)
Lemma outside_merge existing bl before after :
  outside (split LF existing) = (before, after) -> block_ok bl ->
  outside (split LF (merge existing (unlines bl))) =
    (drop_last_blank before, (trim_lines after ++ [""])%list).
Proof.
  intros Ho Hb. rewrite (merge_lines _ _ _ _ Ho).
  pose proof (outside_one_line _ _ _ (split_one_line existing) Ho) as [Hl1 Hl2].
  apply outside_before in Ho.
  destruct Hb as (x & body & y & -> & Hx & Hy & Hbody & Hone).
  rewrite split_unlines.
  - unfold outside. rewrite <- !app_assoc. cbn [app].
    rewrite cut_marker_app; [|by apply Forall_drop_last|done].
    rewrite <- !app_assoc. cbn [app]. by rewrite cut_marker_app.
  - apply Forall_app. split; [by apply Forall_drop_last|]. apply Forall_app. split; [done|].
    by apply Forall_trim_lines.
Qed.

Lemma merge_again existing bl bl' :
  block_ok bl ->
  merge (merge existing (unlines bl)) (unlines bl') = merge existing (unlines bl').
Proof.
  intros Hb. destruct (outside (split LF existing)) as [before after] eqn:Ho.
  rewrite (merge_lines _ _ _ _ (outside_merge _ _ _ _ Ho Hb)), (merge_lines _ _ _ _ Ho).
  by rewrite drop_last_idem, trim_lines_snoc_idem.
Qed.

(** ** The lines of a block *)

Definition job_lines (logDir : string) (j : Job) : list string := [comment_line j; entry_line logDir j].

Definition written_line (now : Z) : string :=
  "# Written " ++ rfc3339 now ++ ". Changes inside this block are overwritten by the panel;".
Definition warning_line : string := "# anything outside it is left alone.".

Definition body_lines (logDir : string) (now : Z) (jobs : list Job) : list string :=
  (written_line now :: warning_line :: concat (job_lines logDir <$> jobs))%list.

Definition block_lines (logDir : string) (now : Z) (jobs : list Job) : list string :=
  (beginMarker :: body_lines logDir now jobs ++ [endMarker])%list.

Lemma render_unlines logDir now jobs : render logDir now jobs = unlines (block_lines logDir now jobs).
Proof.
  assert (Hj : unlines (concat (job_lines logDir <$> jobs)) = render_jobs logDir jobs).
  { induction jobs as [|j jobs IH]; [done|]. rewrite fmap_cons. cbn [concat].
    rewrite unlines_app, IH.
    change (unlines (job_lines logDir j)) with
      (comment_line j ++ nl ++ entry_line logDir j ++ nl ++ "").
    cbn [render_jobs]. rewrite app_nil_r_str. by rewrite !app_assoc_str. }
  unfold render, block_lines, body_lines, written_line. cbn [app].
  change (unlines (beginMarker :: ?a :: ?b :: ?l)) with
    (beginMarker ++ nl ++ a ++ nl ++ b ++ nl ++ unlines l).
  rewrite unlines_app, Hj. change (unlines [endMarker]) with (endMarker ++ nl ++ "").
  rewrite app_nil_r_str. by rewrite !app_assoc_str.
Qed.

(** A job whose name, schedule and command have no white space to trim, as the panel
    stores them. *)
Definition trimmed (j : Job) : Prop :=
  trim_space (Name j) = Name j /\ trim_space (j_Schedule j) = j_Schedule j /\
  trim_space (j_Command j) = j_Command j.

Lemma contains_any_app c cs s : contains_any cs s = false -> contains_char c cs = true ->
  contains_char c s = false.
Proof.
  unfold contains_any. intros H Hc. induction s as [|a s IH]; [done|]. simpl in H.
  apply orb_false_iff in H as [Ha H]. unfold contains_char in *. cbn [str_exists].
  rewrite (IH H), orb_false_r. destruct (Ascii.eqb_spec c a); [congruence|done].
Qed.

Lemma uuid_chars i s : uuid_from i s = true ->
  str_forall (fun a => is_hex a || Ascii.eqb a "-") s = true.
Proof.
  revert i. induction s as [|a s IH]; intros i H; [done|]. cbn [uuid_from str_forall] in *.
  apply andb_true_iff in H as [Ha H]. rewrite (IH _ H), andb_true_r.
  destruct (existsb _ _); by rewrite Ha, ?orb_true_r.
Qed.

Lemma UUID_ok s : UUID s = Ok tt ->
  String.length s = 36%nat /\ str_forall (fun a => is_hex a || Ascii.eqb a "-") s = true.
Proof.
  unfold UUID. intros H. go_inv H. apply guard_ok in H. bool_hyps.
  split; [done|by eapply uuid_chars].
Qed.

Lemma valid_trimmed_one_line j :
  Validate j = Ok tt -> trimmed j ->
  UUID (ID j) = Ok tt /\ one_line (Name j) /\ one_line (j_Schedule j) /\ one_line (j_Command j).
Proof.
  unfold Validate. intros H (Hn & Hs & Hc). go_inv H. destruct v. split; [done|].
  unfold JobName in Hb0. go_inv Hb0. apply guard_ok in Hb0. rewrite Hn in *.
  unfold Schedule in Hb1. go_inv Hb1. rewrite Hs in *.
  unfold Command in H. go_inv H. rewrite Hc in *.
  split_and!; eapply contains_any_app; eauto.
Qed.

Section block.
Context (rs : list string).
Hypothesis Hrs : Forall good_seg rs.
Hypothesis Hline : Forall one_line rs.
Local Abbreviation logDir := (abs_path rs).

Lemma LogPath_path id : UUID id = Ok tt -> LogPath logDir id = abs_path (rs ++ [(id ++ ".log")%string])%list.
Proof.
  intros Hid. apply UUID_ok in Hid as [Hl Hc]. unfold LogPath.
  apply (fp_join_abs rs [id ++ ".log"]); [done| |done]. apply Forall_cons; [|done].
  split_and!; try (intros E; apply (f_equal String.length) in E;
    rewrite length_app_str in E; simpl in E; lia).
  apply (contains_char_forall slash (fun a => is_hex a || Ascii.eqb a "-" || contains_char a ".log")).
  - rewrite str_forall_app. apply andb_true_iff. split; [|done].
    eapply str_forall_impl; [|exact Hc]. by intros a ->.
  - done.
Qed.

Lemma uuid_one_line id : UUID id = Ok tt -> one_line id.
Proof.
  intros Hid. apply UUID_ok in Hid as [_ Hc]. by eapply contains_char_forall.
Qed.

Lemma LogPath_one_line id : UUID id = Ok tt -> one_line (LogPath logDir id).
Proof.
  intros Hid. rewrite LogPath_path by done. unfold one_line, abs_path.
  rewrite contains_char_app. cbn -[join contains_char].
  assert (Hall : Forall one_line (rs ++ [(id ++ ".log")%string])%list).
  { apply Forall_app. split; [done|]. apply Forall_cons; [|done].
    unfold one_line. rewrite contains_char_app. by rewrite (uuid_one_line id Hid). }
  revert Hall. generalize (rs ++ [(id ++ ".log")%string])%list. intros l Hall.
  induction Hall as [|x l Hx Hl IH]; [done|]. destruct l as [|y l]; [done|].
  rewrite join_cons by done. rewrite !contains_char_app. rewrite Hx. by rewrite IH.
Qed.

Lemma written_one_line now : one_line (written_line now).
Proof.
  unfold written_line, rfc3339.
  repeat first [apply one_line_app | by apply pad_no]; reflexivity.
Qed.

Lemma job_lines_one_line j :
  Validate j = Ok tt -> trimmed j -> Forall one_line (job_lines logDir j).
Proof.
  intros Hv Ht. destruct (valid_trimmed_one_line j Hv Ht) as (Hid & Hn & Hs & Hc).
  apply Forall_cons; [|apply Forall_cons; [|done]]; unfold comment_line, entry_line;
    repeat apply one_line_app; try reflexivity; try done.
  - by apply uuid_one_line.
  - by apply LogPath_one_line.
Qed.

Lemma trim_right_set_last cs s a : contains_char a cs = false ->
  trim_right_set cs (s ++ String a "") = s ++ String a "".
Proof.
  intros Ha. induction s as [|b s IH].
  - cbn [String.append trim_right_set str_forall]. by rewrite Ha.
  - rewrite app_string_cons. cbn [trim_right_set].
    replace (str_forall _ (String b (s ++ String a ""))) with false; [by rewrite IH|].
    symmetry. cbn [str_forall]. apply andb_false_iff. right. rewrite str_forall_app.
    cbn [str_forall]. by rewrite Ha, andb_false_r.
Qed.

Lemma last_char_inj s a t b : s ++ String a "" = t ++ String b "" -> a = b.
Proof.
  revert t. induction s as [|c s IH]; intros [|d t] H; simpl in H; simplify_eq; try done.
  - by destruct t.
  - by destruct s.
  - by eapply IH.
Qed.

Lemma not_marker s a m t b : m = t ++ String b "" -> a <> b ->
  contains_char a right_blanks = false -> is_marker m (s ++ String a "") = false.
Proof.
  intros -> Hne Ha. unfold is_marker. rewrite trim_right_set_last by done.
  apply String.eqb_neq. intros E. by apply last_char_inj in E.
Qed.

Lemma end_marker_last : endMarker = "# END JotHost scheduled job" ++ String "s" "".
Proof. reflexivity. Qed.
Lemma begin_marker_last :
  beginMarker = "# BEGIN JotHost scheduled jobs — managed by the panel, do not edi" ++ String "t" "".
Proof. reflexivity. Qed.

(** The last characters of the lines of a block. *)
Lemma job_lines_ends j : Forall (fun x => exists s a, x = s ++ String a "" /\ (a = ")"%char \/ a = "1"%char))
  (job_lines logDir j).
Proof.
  apply Forall_cons; [|apply Forall_cons; [|done]].
  - exists ("# " ++ Name j ++ " (job " ++ ID j), ")"%char. unfold comment_line.
    split; [by rewrite !app_assoc_str|by left].
  - exists (j_Schedule j ++ " ( " ++ j_Command j ++ " ) >> " ++ LogPath logDir (ID j) ++ " 2>&"), "1"%char.
    unfold entry_line. split; [by rewrite !app_assoc_str|by right].
Qed.

Lemma body_ends now jobs : Forall (fun x => exists s a, x = s ++ String a "" /\
    a ∈ [")"; "1"; ";"; "."]%char) (body_lines logDir now jobs).
Proof.
  apply Forall_cons; [|apply Forall_cons].
  - exists ("# Written " ++ rfc3339 now ++ ". Changes inside this block are overwritten by the panel"), ";"%char.
    unfold written_line. split; [by rewrite !app_assoc_str|]. set_solver.
  - exists "# anything outside it is left alone", "."%char. split; [done|set_solver].
  - induction jobs as [|j jobs IH]; [done|]. rewrite fmap_cons. cbn [concat].
    apply Forall_app. split; [|done]. eapply Forall_impl; [|apply job_lines_ends].
    intros x (s & a & -> & [->| ->]); exists s; eexists; (split; [done|]); set_solver.
Qed.

Lemma body_not_marker now jobs :
  Forall (fun z => is_marker endMarker z = false /\ is_marker beginMarker z = false)
    (body_lines logDir now jobs).
Proof.
  eapply Forall_impl; [|apply body_ends]. intros x (s & a & -> & Ha).
  rewrite !elem_of_cons, elem_of_nil in Ha.
  split; [apply (not_marker s a _ _ _ end_marker_last)|apply (not_marker s a _ _ _ begin_marker_last)];
    by destruct Ha as [->|[->|[->|[->|[]]]]].
Qed.

Lemma render_block_ok now jobs :
  Forall (fun j => Validate j = Ok tt /\ trimmed j) jobs -> block_ok (block_lines logDir now jobs).
Proof.
  intros Hj. exists beginMarker, (body_lines logDir now jobs), endMarker.
  split; [done|]. split; [done|]. split; [done|]. split.
  - eapply Forall_impl; [|apply body_not_marker]. by intros x [? _].
  - apply Forall_cons; [done|]. apply Forall_app. split; [|by apply Forall_cons].
    apply Forall_cons; [apply written_one_line|]. apply Forall_cons; [done|].
    induction Hj as [|j jobs [Hv Ht] Hjs IH]; [done|]. rewrite fmap_cons. cbn [concat].
    apply Forall_app. split; [by apply job_lines_one_line|done].
Qed.

(** ** Reading the identifiers back *)

Lemma cut_str_none sep s : str_contains sep s = false -> cut_str sep s = (s, "", false).
Proof.
  induction s as [|a s IH]; intros H.
  - simpl in *. by destruct sep.
  - cbn [str_contains cut_str] in *. apply orb_false_iff in H as [Hp H].
    destruct (trim_prefix_opt sep (String a s)) as [t|] eqn:E.
    + exfalso. apply trim_prefix_opt_spec in E.
      rewrite (proj2 (has_prefix_spec _ _)) in Hp; [done|by exists t].
    + by rewrite IH.
Qed.

Lemma job_prefix_local x y :
  has_prefix "(job " x = false -> x <> "" -> has_prefix "(job " (x ++ "(job " ++ y) = false.
Proof.
  intros H Hn. destruct (has_prefix "(job " (x ++ "(job " ++ y)) eqn:E; [|done]. exfalso.
  apply has_prefix_spec in E as [t E]. destruct x as [|a1 x]; [done|].
  destruct x as [|a2 x]; [simpl in E; simplify_eq|].
  destruct x as [|a3 x]; [simpl in E; simplify_eq|].
  destruct x as [|a4 x]; [simpl in E; simplify_eq|].
  destruct x as [|a5 x]; [simpl in E; simplify_eq|].
  simpl in E. simplify_eq.
Qed.

Lemma cut_str_job x y :
  str_contains "(job " x = false -> cut_str "(job " (x ++ "(job " ++ y) = (x, y, true).
Proof.
  induction x as [|a x IH]; intros H; [done|]. cbn [str_contains] in H.
  apply orb_false_iff in H as [Hp H]. rewrite app_string_cons. cbn [cut_str].
  destruct (trim_prefix_opt "(job " (String a (x ++ "(job " ++ y))) as [t|] eqn:E.
  - exfalso. apply trim_prefix_opt_spec in E.
    pose proof (job_prefix_local (String a x) y Hp) as Hl. rewrite app_string_cons, E in Hl.
    rewrite (proj2 (has_prefix_spec _ _)) in Hl; [|by exists t]. by specialize (Hl ltac:(done)).
  - by rewrite IH.
Qed.

(** Nothing in the job's lines but its own identifier looks like one. *)
Definition quiet (j : Job) : Prop :=
  str_contains "(job " ("# " ++ Name j ++ " ") = false /\
  str_contains "(job " (entry_line logDir j) = false.

Lemma ids_outside l k : Forall (fun y => is_marker beginMarker y = false) l ->
  ids_from false (l ++ k)%list = ids_from false k.
Proof.
  induction 1 as [|x l Hx Hl IH]; [done|]. cbn [app ids_from]. unfold is_marker in Hx.
  rewrite Hx. destruct (_ =? endMarker); done.
Qed.

Lemma ids_skip x k :
  is_marker beginMarker x = false -> is_marker endMarker x = false ->
  str_contains "(job " (trim_right_set right_blanks x) = false ->
  ids_from true (x :: k) = ids_from true k.
Proof.
  unfold is_marker. intros Hb He Hs. cbn [ids_from]. rewrite Hb, He. cbn [negb].
  by rewrite cut_str_none.
Qed.

Lemma ids_job j k :
  UUID (ID j) = Ok tt -> quiet j ->
  ids_from true (job_lines logDir j ++ k)%list = ID j :: ids_from true k.
Proof.
  intros Hid [Hq1 Hq2]. unfold job_lines. cbn [app ids_from].
  assert (Hc : trim_right_set right_blanks (comment_line j) = comment_line j).
  { unfold comment_line.
    replace ("# " ++ Name j ++ " (job " ++ ID j ++ ")")
      with (("# " ++ Name j ++ " (job " ++ ID j) ++ String ")" "") by (by rewrite !app_assoc_str).
    by apply trim_right_set_last. }
  assert (He : trim_right_set right_blanks (entry_line logDir j) = entry_line logDir j).
  { unfold entry_line.
    replace (j_Schedule j ++ " ( " ++ j_Command j ++ " ) >> " ++ LogPath logDir (ID j) ++ " 2>&1")
      with ((j_Schedule j ++ " ( " ++ j_Command j ++ " ) >> " ++ LogPath logDir (ID j) ++ " 2>&")
              ++ String "1" "") by (by rewrite !app_assoc_str).
    by apply trim_right_set_last. }
  assert (Hm : forall x, x ∈ job_lines logDir j ->
    is_marker beginMarker x = false /\ is_marker endMarker x = false).
  { intros x Hx. pose proof (body_not_marker 0 [j]) as H.
    apply list.Forall_forall with (x := x) in H; [tauto|]. unfold body_lines. simpl.
    unfold job_lines in Hx. set_solver. }
  destruct (Hm (comment_line j)) as [Hb1 He1]; [by left|].
  destruct (Hm (entry_line logDir j)) as [Hb2 He2]; [right; by left|].
  unfold is_marker in *. rewrite Hc in *. rewrite He in *. rewrite Hb1, He1, Hb2, He2. cbn [negb].
  assert (Hcut : cut_str "(job " (comment_line j) = ("# " ++ Name j ++ " ", ID j ++ ")", true)).
  { unfold comment_line.
    replace ("# " ++ Name j ++ " (job " ++ ID j ++ ")")
      with (("# " ++ Name j ++ " ") ++ "(job " ++ (ID j ++ ")")) by (by rewrite !app_assoc_str).
    by apply cut_str_job. }
  rewrite Hcut. cbn [negb].
  assert (Hpar : cut ")" (ID j ++ ")") = (ID j, "", true)).
  { apply cut_app. apply UUID_ok in Hid as [_ Hid]. by eapply contains_char_forall. }
  rewrite Hpar, Hid. cbn [negb is_ok orb]. by rewrite (cut_str_none _ _ Hq2).
Qed.

Lemma no_paren_no_job s : contains_char "(" s = false -> str_contains "(job " s = false.
Proof.
  unfold contains_char. induction s as [|a s IH]; intros H; [done|].
  simpl in H. apply orb_false_iff in H as [Ha H]. cbn [str_contains]. rewrite IH by done.
  rewrite orb_false_r. destruct (has_prefix _ _) eqn:E; [|done].
  apply has_prefix_spec in E as [t E]. simpl in E. by simplify_eq.
Qed.

Lemma written_quiet now :
  str_contains "(job " (trim_right_set right_blanks (written_line now)) = false.
Proof.
  unfold written_line.
  replace ("# Written " ++ rfc3339 now ++ ". Changes inside this block are overwritten by the panel;")
    with (("# Written " ++ rfc3339 now ++ ". Changes inside this block are overwritten by the panel")
            ++ String ";" "") by (by rewrite !app_assoc_str).
  rewrite trim_right_set_last by done. apply no_paren_no_job. unfold rfc3339.
  rewrite !contains_char_app, !pad_no by done. reflexivity.
Qed.

Lemma ids_block now jobs after :
  Forall (fun j => UUID (ID j) = Ok tt /\ quiet j) jobs ->
  Forall (fun y => is_marker beginMarker y = false) after ->
  ids_from false (block_lines logDir now jobs ++ after)%list = ID <$> jobs.
Proof.
  intros Hj Ha. unfold block_lines. rewrite <- app_comm_cons, <- app_assoc. cbn [ids_from].
  change (trim_right_set right_blanks beginMarker =? beginMarker) with true. cbn iota.
  unfold body_lines. cbn [app].
  pose proof (body_not_marker now []) as Hbm. unfold body_lines in Hbm.
  apply list.Forall_cons in Hbm as [[Hwe Hwb] Hbm]. apply list.Forall_cons in Hbm as [[Hge Hgb] _].
  rewrite ids_skip; [|done|done|apply written_quiet].
  rewrite ids_skip; [|done|done|by vm_compute].
  induction Hj as [|j jobs [Hid Hq] Hjs IH].
  - cbn [fmap list_fmap concat app ids_from].
    change (trim_right_set right_blanks endMarker =? beginMarker) with false.
    change (trim_right_set right_blanks endMarker =? endMarker) with true. cbn iota.
    rewrite <- (app_nil_r after). by rewrite ids_outside.
  - rewrite fmap_cons. cbn [concat]. rewrite <- app_assoc, ids_job by done. by rewrite IH.
Qed.
End block.

(** ** The guarantees *)

(** C19: rewriting an account's block touches nothing else. Whatever the crontab holds, after
    the panel has written a block of validated, trimmed jobs, the lines outside the block are
    the lines that were outside before, less blank ones next to it and at the ends; and
    writing other jobs, or none, then gives exactly what writing them to the original file
    would have given. *)
Theorem block_is_replaced rs now now' existing jobs jobs' before after :
  Forall good_seg rs -> Forall one_line rs ->
  Forall (fun j => Validate j = Ok tt /\ trimmed j) jobs ->
  outside (split LF existing) = (before, after) ->
  let logDir := abs_path rs in
  let merged := merge existing (render logDir now jobs) in
  outside (split LF merged) = (drop_last_blank before, (trim_lines after ++ [""])%list) /\
  merge merged (render logDir now' jobs') = merge existing (render logDir now' jobs') /\
  merge merged "" = merge existing "".
Proof.
  intros Hrs Hl Hj Ho logDir merged. unfold merged. rewrite !render_unlines.
  pose proof (render_block_ok rs Hrs Hl now jobs Hj) as Hok. split_and!.
  - by apply outside_merge.
  - by apply merge_again.
  - by apply (merge_again existing _ []).
Qed.

Definition logs : list string := ["var"; "log"; "jothost"; "cron"].

Lemma logs_ok : Forall good_seg logs /\ Forall one_line logs.
Proof. split; repeat (apply Forall_cons; [done|]); done. Qed.

Lemma sample_ok : Forall (fun j => Validate j = Ok tt /\ trimmed j) [sample].
Proof. apply Forall_cons; [|done]. split; [reflexivity|]. repeat split. Qed.

Lemma block_is_replaced_witness :
  let mine := "MAILTO=me" ++ nl ++ "5 4 * * * mine" ++ nl in
  merge (merge mine (render (abs_path logs) 0 [sample])) "" = mine.
Proof.
  intros mine.
  destruct (block_is_replaced logs 0 0 mine [sample] [] ["MAILTO=me"; "5 4 * * * mine"; ""] []
              (proj1 logs_ok) (proj2 logs_ok) sample_ok eq_refl) as (_ & _ & H).
  exact H.
Defined.

(** A job is two lines of the file and nothing more. The block of validated, trimmed jobs
    splits into the begin line, two comments, one comment and one entry per job, and
    the end line; no name, schedule or command adds a line of its own. *)
Theorem render_lines rs now jobs :
  Forall good_seg rs -> Forall one_line rs ->
  Forall (fun j => Validate j = Ok tt /\ trimmed j) jobs ->
  split LF (render (abs_path rs) now jobs) = (block_lines (abs_path rs) now jobs ++ [""])%list.
Proof.
  intros Hrs Hl Hj. rewrite render_unlines. apply split_unlines.
  destruct (render_block_ok rs Hrs Hl now jobs Hj) as (? & ? & ? & _ & _ & _ & _ & Hone).
  exact Hone.
Qed.

Lemma render_lines_witness :
  (List.length (split LF (render (abs_path logs) 0 [sample])) = 7)%nat.
Proof.
  rewrite (render_lines logs 0 [sample] (proj1 logs_ok) (proj2 logs_ok) sample_ok). reflexivity.
Defined.

(** The jobs of a block are found again. From a crontab the panel has just written,
    [managedJobIDs] reads back exactly the identifiers of the jobs, in order, provided
    no name or command contains text of the form of an identifier comment and the customer keeps
    no second begin marker below the block. *)
Theorem managedJobIDs_round_trip rs now existing jobs before after :
  Forall good_seg rs -> Forall one_line rs ->
  Forall (fun j => Validate j = Ok tt /\ trimmed j) jobs ->
  Forall (quiet rs) jobs ->
  outside (split LF existing) = (before, after) ->
  Forall (fun y => is_marker beginMarker y = false) after ->
  managedJobIDs (merge existing (render (abs_path rs) now jobs)) = ID <$> jobs.
Proof.
  intros Hrs Hl Hj Hq Ho Ha. unfold managedJobIDs. rewrite render_unlines.
  rewrite (merge_lines _ _ _ _ Ho).
  pose proof (outside_one_line _ _ _ (split_one_line existing) Ho) as [Hl1 Hl2].
  pose proof (render_block_ok rs Hrs Hl now jobs Hj) as (? & ? & ? & _ & _ & _ & _ & Hone).
  rewrite split_unlines.
  2:{ apply Forall_app. split; [by apply Forall_drop_last|]. apply Forall_app.
      split; [exact Hone|by apply Forall_trim_lines]. }
  rewrite <- app_assoc, ids_outside by (apply Forall_drop_last; by eapply outside_before).
  rewrite <- app_assoc. eapply (ids_block rs); try done.
  - apply list.Forall_forall. intros j Hin. rewrite list.Forall_forall in Hj, Hq.
    split; [|by apply Hq]. destruct (Hj j Hin) as [Hv Ht].
    by destruct (valid_trimmed_one_line j Hv Ht) as [? _].
  - apply Forall_app. split; [by apply Forall_trim_lines|by apply Forall_cons].
Qed.

Lemma managedJobIDs_round_trip_witness :
  managedJobIDs (merge ("MAILTO=me" ++ nl) (render (abs_path logs) 0 [sample; sample]))
    = [ID sample; ID sample].
Proof.
  apply (managedJobIDs_round_trip logs 0 ("MAILTO=me" ++ nl) [sample; sample] ["MAILTO=me"; ""] []).
  - exact (proj1 logs_ok).
  - exact (proj2 logs_ok).
  - repeat (apply Forall_cons; [split; [reflexivity|repeat split]|]). constructor.
  - repeat (apply Forall_cons; [split; vm_compute; reflexivity|]). constructor.
  - reflexivity.
  - constructor.
Defined.

(** ** Where the guarantees need their hypotheses *)

Definition with_command (c : string) : Job :=
  {| ID := ID sample; Name := "nightly"; j_Schedule := "0 3 * * *"; j_Command := c; Enabled := true |}.
Definition with_name (n : string) : Job :=
  {| ID := ID sample; Name := n; j_Schedule := "0 3 * * *"; j_Command := "true"; Enabled := true |}.

(** [Validate] checks the trimmed command and [render] writes the untrimmed one: a command
    that begins with a line feed is accepted and puts an entry of its own in the file. *)
Lemma untrimmed_command_injects :
  let j := with_command (nl ++ "* * * * * evil #") in
  Validate j = Ok tt /\
  ("* * * * * evil # ) >> /var/log/jothost/cron/01234567-89ab-cdef-0123-456789abcdef.log 2>&1")
    ∈ split LF (render (abs_path logs) 0 [j]).
Proof. split; [vm_compute; reflexivity|]. apply (bool_decide_eq_true_1 _). vm_compute. reflexivity. Qed.

(** A name that itself contains "(job " hides the job from [managedJobIDs], and a command
    that does names a job of the writer's choosing. *)
Lemma identifiers_can_be_forged :
  let victim := "ffffffff-ffff-ffff-ffff-ffffffffffff" in
  managedJobIDs (render (abs_path logs) 0 [with_name "backup (job 2)"]) = [] /\
  managedJobIDs (render (abs_path logs) 0 [with_command ("echo (job " ++ victim ++ ")")])
    = [ID sample; victim].
Proof. vm_compute. split; reflexivity. Qed.
