(* ===== verification/SshKeys.v ===== *)
(** * The host's SSH keys ([agent/internal/ssh/keys.go])

    The accounts that may hold keys, the reading of one line of [authorized_keys], and the
    listing, adding and removing of keys.  The world is the host: its files by path, the files
    the running SSH server has read, and the faults still to come; a fault is a system call
    that fails and does nothing. *)

From S2P Require Import Prelude Store GoStr GoTime GoSort GoCodec TenancyRules.

#[local] Open Scope string_scope.

(** ** The host *)
Record Host := {
  files : gmap string string;
  loaded : gmap string string;      (** the files when the server last read them *)
  h_faults : list fault;
}.
Definition set_files (m : gmap string string) (h : Host) : Host := {|
  files := m; loaded := loaded h; h_faults := h_faults h |}.
Definition set_loaded (m : gmap string string) (h : Host) : Host := {|
  files := files h; loaded := m; h_faults := h_faults h |}.
#[global] Instance Host_faulty : Faulty Host := {
  faults_of := h_faults;
  with_faults fs h := {| files := files h; loaded := loaded h; h_faults := fs |} }.

Inductive ssh_err :=
| ErrUnavailable | ErrNoDropIn | ErrWouldLockOut | ErrInvalidConfig | ErrNotApplied
| ErrUnknownAccount | ErrInvalidKey | ErrKeyNotFound | ErrDuplicateKey | IOErr.
#[global] Instance ssh_err_eq_dec : EqDecision ssh_err.
Proof. solve_decision. Defined.

Local Abbreviation M := (Store.M Host ssh_err).
#[local] Open Scope store_scope.

Definition io {A} (f : Host -> result ssh_err A * Host) : M A :=
  fun h => match h_faults h with
           | [] => f h
           | Fine :: fs => f (with_faults fs h)
           | _ :: fs => (Err IOErr, with_faults fs h)
           end.
Definition ReadFile (path : string) : M (option string) := io (fun h => (Ok (files h !! path), h)).
Definition nothing : M unit := io (fun h => (Ok tt, h)).
(** A temporary file is renamed over [path]. *)
Definition rename_to (path content : string) : M unit :=
  io (fun h => (Ok tt, set_files (<[path := content]> (files h)) h)).

(** ** Keys *)
Definition MaxKeyLength : Z := 8192.
Definition MaxKeys : nat := 100.
Definition keyTypes : list string :=
  ["ssh-ed25519"; "ssh-rsa"; "ecdsa-sha2-nistp256"; "ecdsa-sha2-nistp384"; "ecdsa-sha2-nistp521";
   "sk-ssh-ed25519@openssh.com"; "sk-ecdsa-sha2-nistp256@openssh.com"; "rsa-sha2-256"; "rsa-sha2-512"].

Record Key := { Fingerprint : string; k_Type : string; Comment : string; Bits : Z; k_Account : string }.

Definition codes (s : string) : list Z := (fun a => Z.of_nat (nat_of_ascii a)) <$> String.list_ascii_of_string s.

(** [base64.StdEncoding.DecodeString]: padded, and the bits left over are not looked at. *)
Definition quantum_of (vals : list Z) : list Z :=
  take (pred (length vals)) (digits 256 3 (undigits 64 vals * 64 ^ Z.of_nat (4 - length vals))).
Fixpoint std64_quanta (l : list ascii) : option (list Z) :=
  match l with
  | [] => Some []
  | a :: b :: c :: d :: rest =>
      x ← base64_val a; y ← base64_val b;
      if Ascii.eqb c "=" then if Ascii.eqb d "=" && bool_decide (rest = []) then Some (quantum_of [x; y]) else None
      else
        z ← base64_val c;
        if Ascii.eqb d "=" then if bool_decide (rest = []) then Some (quantum_of [x; y; z]) else None
        else w ← base64_val d; more ← std64_quanta rest; Some (quantum_of [x; y; z; w] ++ more)%list
  | _ => None
  end.
Definition std64_decode (s : string) : option (list Z) :=
  std64_quanta (List.filter (fun a => negb (Ascii.eqb a "010" || Ascii.eqb a "013")) (String.list_ascii_of_string s)).

(** A string with its length in front of it, and what follows. *)
Definition readString (blob : list Z) : option (list Z * list Z) :=
  if (length blob <? 4)%nat then None
  else
    let len := undigits 256 (take 4 blob) in
    if (Z.of_nat (length blob - 4) <? len)%Z then None
    else Some (take (Z.to_nat len) (drop 4 blob), drop (Z.to_nat len) (drop 4 blob)).

Fixpoint trim_zeros (l : list Z) : list Z :=
  match l with 0%Z :: more => trim_zeros more | _ => l end.

Definition bits (keyType : string) (rest : list Z) : Z :=
  if one_of ["ssh-ed25519"; "sk-ssh-ed25519@openssh.com"] keyType then 256
  else if one_of ["ecdsa-sha2-nistp256"; "sk-ecdsa-sha2-nistp256@openssh.com"] keyType then 256
  else if keyType =? "ecdsa-sha2-nistp384" then 384
  else if keyType =? "ecdsa-sha2-nistp521" then 521
  else if one_of ["ssh-rsa"; "rsa-sha2-256"; "rsa-sha2-512"] keyType then
    match readString rest with
    | None => 0
    | Some (_, after) =>
        match readString after with
        | None => 0
        | Some (modulus, _) => Z.of_nat (length (trim_zeros modulus)) * 8
        end
    end
  else 0.

Section keys.
(** The digest of [crypto/sha256]. *)
Context (sha256 : list Z -> list Z).

Definition fingerprint (blob : list Z) : string := "SHA256:" ++ base64_encode (sha256 blob).

Definition ParseKey (entry : string) : result ssh_err Key :=
  let line := trim_space entry in
  guard (line =? "") ErrInvalidKey ;?
  guard (MaxKeyLength <? Z.of_nat (String.length line))%Z ErrInvalidKey ;?
  guard (str_exists (fun a => Ascii.eqb a "010" || Ascii.eqb a "013" || Ascii.eqb a "000") line) ErrInvalidKey ;?
  guard (has_prefix "#" line) ErrInvalidKey ;?
  match fields line with
  | keyType :: body :: comment =>
      guard (negb (one_of keyTypes keyType)) ErrInvalidKey ;?
      match std64_decode body with
      | None => Err ErrInvalidKey
      | Some blob =>
          match readString blob with
          | None => Err ErrInvalidKey
          | Some (inner, rest) =>
              guard (negb (bool_decide (inner = codes keyType))) ErrInvalidKey ;?
              Ok {| Fingerprint := fingerprint blob; k_Type := keyType; Comment := join " " comment;
                    Bits := bits keyType rest; k_Account := "" |}
          end
      end
  | _ => Err ErrInvalidKey
  end.
Definition with_account (name : string) (k : Key) : Key := {|
  Fingerprint := Fingerprint k; k_Type := k_Type k; Comment := Comment k; Bits := Bits k; k_Account := name |}.

Definition normalise (entry : string) : string := trim_space entry.

(** ** Accounts *)
Record Account := { Name : string; UID : Z; GID : Z; Home : string; Shell : string; Keys : nat }.

Definition nonLoginShells : list string :=
  ["/sbin/nologin"; "/usr/sbin/nologin"; "/bin/false"; "/usr/bin/false"; ""].
Definition passwd_path : string := "/etc/passwd".

(** The lines of a [bufio.Scanner]: [None] when one does not fit its buffer. *)
Definition MaxScanTokenSize : Z := 65536.
Definition scan_lines (s : string) : option (list string) :=
  let raw := split LF s in
  let lines := match list.last raw with Some "" => removelast raw | _ => raw end in
  if existsb (fun l => negb (Z.of_nat (String.length l) <? MaxScanTokenSize)%Z) lines then None
  else Some (trim_suffix (String "013" "") <$> lines).

Definition login_account (line : string) : option Account :=
  match split ":" line with
  | name :: _ :: uid :: gid :: _ :: home :: shell :: _ =>
      if one_of nonLoginShells shell then None
      else
        u ← atoi uid; g ← atoi gid;
        if negb (u =? 0)%Z && (u <? 1000)%Z then None
        else Some {| Name := name; UID := u; GID := g; Home := home; Shell := shell; Keys := 0 |}
  | _ => None
  end.

(** [sort.Slice] by user id, which leaves the order of equal ones open. *)
Context (by_uid : list Account -> list Account).
(** Whether the Agent runs as root. *)
Context (is_root : bool).

Definition LoginAccounts : M (list Account) :=
  let! content := ReadFile passwd_path in
  match content with
  | None => fail IOErr
  | Some text =>
      match scan_lines text with
      | None => fail IOErr
      | Some lines => ret (by_uid (omap login_account lines))
      end
  end.

Definition account (name : string) : M Account :=
  let! accounts := LoginAccounts in
  match List.find (fun a => Name a =? name) accounts with
  | Some a => ret a
  | None => fail ErrUnknownAccount
  end.

Definition keyPath (a : Account) : string := fp_join [Home a; ".ssh"; "authorized_keys"].

(** The lines of a file that are not blank. *)
Definition lines_of (content : string) : list string :=
  List.filter (fun l => negb (trim_space l =? "")) (split LF content).
Definition readLines (a : Account) : M (list string) :=
  let! content := ReadFile (keyPath a) in
  ret (match content with None => [] | Some text => lines_of text end).

Definition parsed (name : string) (line : string) : option Key :=
  match ParseKey line with Ok k => Some (with_account name k) | Err _ => None end.
Definition readKeys (a : Account) : M (list Key) :=
  let! lines := readLines a in ret (omap (parsed (Name a)) lines).

(** The directory and the temporary file are made, written, and given their modes and owner. *)
Definition chownIfPossible : M unit := if is_root then nothing else ret tt.
Definition content_of (lines : list string) : string :=
  if bool_decide (lines = []) then "" else join nl lines ++ nl.
Definition writeLines (a : Account) (lines : list string) : M unit :=
  nothing ;! nothing ;! chownIfPossible ;!
  nothing ;! nothing ;! nothing ;! nothing ;! chownIfPossible ;!
  rename_to (keyPath a) (content_of lines).

(** ** The operations *)
Fixpoint count_keys (accounts : list Account) : M (list Account) :=
  match accounts with
  | [] => ret []
  | a :: more =>
      let! keys := attempt (readKeys a) in
      let! rest := count_keys more in
      ret ({| Name := Name a; UID := UID a; GID := GID a; Home := Home a; Shell := Shell a;
              Keys := match keys with Ok l => length l | Err _ => Keys a end |} :: rest)
  end.
Definition Accounts : M (list Account) := let! accounts := LoginAccounts in count_keys accounts.

Definition KeysOf (name : string) : M (list Key) := let! a := account name in readKeys a.

Definition AddKey (name entry : string) : M Key :=
  let! a := account name in
  let! key := answer (ParseKey entry) in
  let key := with_account (Name a) key in
  let! existing := readKeys a in
  if (MaxKeys <=? length existing)%nat then fail ErrInvalidKey
  else if existsb (fun held => Fingerprint held =? Fingerprint key) existing then fail ErrDuplicateKey
  else
    let! lines := readLines a in
    writeLines a (lines ++ [normalise entry])%list ;!
    ret key.

(** The line is that of a key with the fingerprint. *)
Definition is_key (fp line : string) : bool :=
  match ParseKey line with Ok k => Fingerprint k =? fp | Err _ => false end.
(** The last key with the fingerprint, and the lines that are not of one. *)
Fixpoint withdraw (fp : string) (lines : list string) (removed : option Key) : option Key * list string :=
  match lines with
  | [] => (removed, [])
  | line :: more =>
      match ParseKey line with
      | Ok k =>
          if Fingerprint k =? fp then withdraw fp more (Some k)
          else let '(r, kept) := withdraw fp more removed in (r, line :: kept)
      | Err _ => let '(r, kept) := withdraw fp more removed in (r, line :: kept)
      end
  end.
Definition RemoveKey (name fp : string) : M Key :=
  let! a := account name in
  let! lines := readLines a in
  match withdraw fp lines None with
  | (None, _) => fail ErrKeyNotFound
  | (Some k, kept) => writeLines a kept ;! ret (with_account (Name a) k)
  end.
End keys.

(** ** What a request does to the files *)
Definition same_files (h h' : Host) : Prop := files h' = files h /\ loaded h' = loaded h.
Lemma same_files_refl h : same_files h h.
Proof. done. Qed.
Lemma same_files_trans u v w : same_files u v -> same_files v w -> same_files u w.
Proof. intros [H1 H2] [H3 H4]. split; congruence. Qed.

(** [m] changes no file, and one that fails changes none. *)
Definition looks {A} (m : M A) : Prop := respects same_files m.
Definition harmless {A} (m : M A) : Prop := forall h e h', m h = (Err e, h') -> same_files h h'.

Lemma looks_bind {A B} (m : M A) (k : A -> M B) : looks m -> (forall a, looks (k a)) -> looks (bind m k).
Proof. apply respects_bind, same_files_trans. Qed.
Lemma looks_attempt {A} (m : M A) : looks m -> looks (attempt m).
Proof. apply respects_attempt. Qed.
Lemma looks_ret {A} (a : A) : looks (ret a).
Proof. by intros h. Qed.
Lemma looks_fail {A} e : looks (fail e : M A).
Proof. by intros h. Qed.
Lemma looks_answer {A} (r : result ssh_err A) : looks (answer r).
Proof. by intros h. Qed.
Lemma looks_io {A} (f : Host -> result ssh_err A * Host) : (forall h, same_files h (snd (f h))) -> looks (io f).
Proof.
  intros Hf h. unfold io. destruct (h_faults h) as [|[] fs]; try done. exact (Hf (with_faults fs h)).
Qed.
Lemma looks_read path : looks (ReadFile path).
Proof. by apply looks_io. Qed.
Lemma looks_nothing : looks nothing.
Proof. by apply looks_io. Qed.
Lemma harmless_looks {A} (m : M A) : looks m -> harmless m.
Proof. intros Hm h e h' E. specialize (Hm h). by rewrite E in Hm. Qed.
Lemma harmless_bind {A B} (m : M A) (k : A -> M B) : looks m -> (forall a, harmless (k a)) -> harmless (bind m k).
Proof.
  intros Hm Hk h e h'. specialize (Hm h). unfold bind. destruct (m h) as [[a|e0] h1]; [|by intros [= _ <-]].
  intros E. eapply same_files_trans; [exact Hm|by eapply Hk].
Qed.
Lemma harmless_last {A B} (m : M A) (k : A -> M B) : harmless m -> (forall a h, exists b, k a h = (Ok b, h)) -> harmless (bind m k).
Proof.
  intros Hm Hk h e h'. unfold bind. destruct (m h) as [[a|e0] h1] eqn:E; [by destruct (Hk a h1) as [b ->]|].
  intros [= _ <-]. by eapply Hm.
Qed.
Lemma harmless_rename path content : harmless (rename_to path content).
Proof. intros h e h'. unfold rename_to, io. destruct (h_faults h) as [|[] fs]; try done; by intros [= _ <-]. Qed.
Lemma read_ok path h c h' : ReadFile path h = (Ok c, h') -> c = files h !! path /\ same_files h h'.
Proof. unfold ReadFile, io. destruct (h_faults h) as [|[] fs]; try done; by intros [= <- <-]. Qed.
Lemma rename_ok path content h u h' : rename_to path content h = (Ok u, h') ->
  files h' = <[path := content]> (files h) /\ loaded h' = loaded h.
Proof. unfold rename_to, io. destruct (h_faults h) as [|[] fs]; try done; by intros [= <- <-]. Qed.
Lemma looks_ok {A} (m : M A) h a h' : looks m -> m h = (Ok a, h') -> same_files h h'.
Proof. intros Hm E. specialize (Hm h). by rewrite E in Hm. Qed.

Create HintDb looks discriminated.
#[export] Hint Resolve looks_ret looks_fail looks_answer looks_read looks_nothing : looks.
Ltac looks_tac :=
  repeat first
    [ match goal with |- forall _, _ => intros end
    | solve [eauto with looks]
    | apply looks_bind | apply looks_attempt
    | match goal with |- looks (match ?x with _ => _ end) => destruct x end ].

(** ** What the requests do *)
Section requests.
Context (sha256 : list Z -> list Z) (by_uid : list Account -> list Account) (is_root : bool).
Local Abbreviation ParseKey := (ParseKey sha256).
Local Abbreviation parsed := (parsed sha256).
Local Abbreviation AddKey := (AddKey sha256 by_uid is_root).
Local Abbreviation RemoveKey := (RemoveKey sha256 by_uid is_root).

(** An account's lines and keys in the files. *)
Definition held_lines (fs : gmap string string) (a : Account) : list string :=
  match fs !! keyPath a with None => [] | Some text => lines_of text end.
Definition held_keys (fs : gmap string string) (a : Account) : list Key := omap (parsed (Name a)) (held_lines fs a).

Definition plain_line (l : string) : Prop := one_line l /\ trim_space l <> "".

Lemma held_plain fs a : Forall plain_line (held_lines fs a).
Proof.
  unfold held_lines. destruct (fs !! keyPath a) as [text|]; [|constructor]. unfold lines_of.
  apply list.Forall_forall. intros l Hl. apply list_elem_of_In, filter_In in Hl as [Hl Hb]. split.
  - apply list_elem_of_In in Hl. pose proof (split_one_line text) as Hf. by eapply list.Forall_forall in Hf.
  - by apply negb_true_iff, String.eqb_neq in Hb.
Qed.
Lemma lines_of_content lines : Forall plain_line lines -> lines_of (content_of lines) = lines.
Proof.
  intros Hl. unfold content_of. case_bool_decide as Hn; [by subst|]. rewrite join_unlines by done. unfold lines_of.
  rewrite split_unlines by (eapply list.Forall_impl; [exact Hl|by intros l []]). rewrite filter_app.
  change (List.filter _ [""]) with (@nil string). rewrite app_nil_r.
  clear Hn. induction Hl as [|l lines [_ Hb] Hl IH]; [done|]. cbn. by rewrite (proj2 (String.eqb_neq _ _) Hb), IH.
Qed.

Lemma ParseKey_trimmed entry : ParseKey (trim_space entry) = ParseKey entry.
Proof. unfold ParseKey. by rewrite trim_space_twice. Qed.
Lemma ParseKey_plain entry k : ParseKey entry = Ok k -> plain_line (trim_space entry).
Proof.
  unfold ParseKey. destruct (String.eqb_spec (trim_space entry) "") as [|Hb]; [done|]. cbn [guard rbind].
  destruct (_ <? _)%Z; [done|]. cbn [guard rbind]. destruct (str_exists _ _) eqn:Ex; [done|]. intros _.
  split; [|by rewrite trim_space_twice]. unfold one_line, contains_char.
  clear Hb. revert Ex. generalize (trim_space entry). intros s. induction s as [|c s IH]; [done|]. cbn.
  intros [Hc Hs]%orb_false_iff. apply orb_false_iff in Hc as [Hc _]. apply orb_false_iff in Hc as [Hc _].
  rewrite IH by done. rewrite (Ascii.eqb_sym LF c). unfold LF. by rewrite Hc.
Qed.

Lemma ParseKey_account entry k : ParseKey entry = Ok k -> k_Account k = "".
Proof.
  unfold ParseKey. do 4 (intros [_ E]%guard_bind_ok; revert E). destruct (fields _) as [|ty [|body comment]]; [done..|].
  intros [_ E]%guard_bind_ok. destruct (std64_decode body) as [blob|]; [|done].
  destruct (readString blob) as [[inner rest]|]; [|done]. apply guard_bind_ok in E as [_ E]. by injection E as <-.
Qed.

Lemma looks_accounts : looks (LoginAccounts by_uid).
Proof. unfold LoginAccounts. looks_tac. Qed.
Lemma looks_account name : looks (account by_uid name).
Proof. unfold account. pose proof looks_accounts. looks_tac. Qed.
Lemma looks_lines a : looks (readLines a).
Proof. unfold readLines. looks_tac. Qed.
Lemma looks_keys a : looks (readKeys sha256 a).
Proof. unfold readKeys. pose proof looks_lines. looks_tac. Qed.
#[local] Hint Resolve looks_accounts looks_account looks_lines looks_keys : looks.

Lemma account_ok name h a h' : account by_uid name h = (Ok a, h') -> Name a = name /\ same_files h h'.
Proof.
  intros E. split; [|by eapply looks_ok; [apply looks_account|]]. revert E. unfold account.
  intros (accounts & h1 & _ & E)%bind_ok. destruct (List.find _ _) as [a'|] eqn:Ef; [|done]. injection E as -> _.
  apply find_some in Ef as [_ Ef]. by apply String.eqb_eq.
Qed.
Lemma readLines_ok a h l h' : readLines a h = (Ok l, h') -> l = held_lines (files h) a /\ same_files h h'.
Proof. intros (c & h1 & [-> Hs]%read_ok & [= <- <-])%bind_ok. by destruct Hs. Qed.
Lemma readKeys_ok a h l h' : readKeys sha256 a h = (Ok l, h') -> l = held_keys (files h) a /\ same_files h h'.
Proof. intros (c & h1 & [-> Hs]%readLines_ok & [= <- <-])%bind_ok. by split. Qed.
Lemma looks_chown : looks (chownIfPossible is_root).
Proof. unfold chownIfPossible. looks_tac. Qed.
#[local] Hint Resolve looks_chown : looks.
Lemma writeLines_ok a lines h u h' : writeLines is_root a lines h = (Ok u, h') ->
  files h' = <[keyPath a := content_of lines]> (files h) /\ loaded h' = loaded h.
Proof.
  unfold writeLines. do 8 (intros (? & ? & E0%looks_ok & E)%bind_ok; [|solve [looks_tac]]; revert E; destruct E0 as [<- <-]).
  apply rename_ok.
Qed.
Lemma harmless_write a lines : harmless (writeLines is_root a lines).
Proof. unfold writeLines. do 8 (apply harmless_bind; [solve [looks_tac]|intros _]). apply harmless_rename. Qed.

Lemma AddKey_effect name entry h k h' : AddKey name entry h = (Ok k, h') -> exists a,
  Name a = name /\ k_Account k = name /\ ParseKey entry = Ok {| Fingerprint := Fingerprint k; k_Type := k_Type k;
    Comment := Comment k; Bits := Bits k; k_Account := "" |} /\
  Forall (fun held => Fingerprint held <> Fingerprint k) (held_keys (files h) a) /\
  (length (held_keys (files h) a) < MaxKeys)%nat /\
  files h' = <[keyPath a := content_of (held_lines (files h) a ++ [trim_space entry])]> (files h) /\ loaded h' = loaded h.
Proof.
  unfold AddKey. intros (a & h1 & [<- [Hf1 Hl1]]%account_ok & E)%bind_ok. apply bind_ok in E as (key & h2 & E2 & E).
  unfold answer in E2. injection E2 as E2 <-. cbv zeta in E.
  apply bind_ok in E as (existing & h3 & [-> [Hf3 Hl3]]%readKeys_ok & E).
  destruct (MaxKeys <=? _)%nat eqn:Em; [done|]. destruct (existsb _ _) eqn:Ee; [done|].
  apply bind_ok in E as (lines & h4 & [-> [Hf4 Hl4]]%readLines_ok & E).
  apply bind_ok in E as (u & h5 & [Hf5 Hl5]%writeLines_ok & [= <- <-]).
  exists a. split_and!; try done.
  - pose proof (ParseKey_account _ _ E2) as Hac. rewrite E2. destruct key as [fp ty co bi ac]. cbn in *. by subst.
  - rewrite Hf1 in Ee. apply list.Forall_forall. intros held Hh Heq. cbn in Heq.
    assert (Ht : existsb (fun held => Fingerprint held =? Fingerprint (with_account (Name a) key)) (held_keys (files h) a) = true).
    { apply existsb_exists. exists held. split; [by apply list_elem_of_In|]. by apply String.eqb_eq. }
    by rewrite Ht in Ee.
  - rewrite Hf1 in Em. by apply Nat.leb_gt in Em.
  - by rewrite Hf5, Hf4, Hf3, Hf1.
  - by rewrite Hl5, Hl4, Hl3.
Qed.

Lemma withdraw_spec fp lines : forall removed,
  snd (withdraw sha256 fp lines removed) = List.filter (fun l => negb (is_key sha256 fp l)) lines /\
  (forall k, fst (withdraw sha256 fp lines removed) = Some k -> removed = Some k \/ (Fingerprint k = fp /\ exists l, In l lines /\ ParseKey l = Ok k)) /\
  (fst (withdraw sha256 fp lines removed) = None -> removed = None /\ forall l, In l lines -> is_key sha256 fp l = false).
Proof.
  induction lines as [|line lines IH]; intros removed.
  { cbn. split_and!; [done|by left|done]. }
  cbn [withdraw List.filter]. unfold is_key at 1. destruct (ParseKey line) as [k0|e] eqn:Ek.
  2: { destruct (IH removed) as (IH1 & IH2 & IH3). destruct (withdraw _ _ _ _) as [r kept]. cbn in *. split_and!.
    - by f_equal.
    - intros k Hk. destruct (IH2 k Hk) as [|(Hf & l & Hl & Hp)]; [by left|]. right. split; [done|]. exists l. by split; [right|].
    - intros Hr. destruct (IH3 Hr) as [Hn Hl]. split; [done|]. intros l [<-|Hin]; [unfold is_key; by rewrite Ek|by apply Hl]. }
  destruct (String.eqb_spec (Fingerprint k0) fp) as [Hfp|Hfp].
  - destruct (IH (Some k0)) as (IH1 & IH2 & IH3). split_and!.
    + done.
    + intros k Hk. destruct (IH2 k Hk) as [[= ->]|(Hf & l & Hl & Hp)]; right; (split; [done|]); [by exists line; split; [left|]|].
      exists l. by split; [right|].
    + intros Hr. by destruct (IH3 Hr).
  - destruct (IH removed) as (IH1 & IH2 & IH3). destruct (withdraw _ _ _ _) as [r kept]. cbn in *. split_and!.
    + by f_equal.
    + intros k Hk. destruct (IH2 k Hk) as [|(Hf & l & Hl & Hp)]; [by left|]. right. split; [done|]. exists l. by split; [right|].
    + intros Hr. destruct (IH3 Hr) as [Hn Hl]. split; [done|].
      intros l [<-|Hin]; [unfold is_key; rewrite Ek; by apply String.eqb_neq|by apply Hl].
Qed.

Lemma RemoveKey_effect name fp h k h' : RemoveKey name fp h = (Ok k, h') -> exists a,
  Name a = name /\ Fingerprint k = fp /\ (exists l, In l (held_lines (files h) a) /\ is_key sha256 fp l = true) /\
  files h' = <[keyPath a := content_of (List.filter (fun l => negb (is_key sha256 fp l)) (held_lines (files h) a))]> (files h) /\
  loaded h' = loaded h.
Proof.
  unfold RemoveKey. intros (a & h1 & [<- [Hf1 Hl1]]%account_ok & E)%bind_ok.
  apply bind_ok in E as (lines & h2 & [-> [Hf2 Hl2]]%readLines_ok & E). rewrite Hf1 in E.
  destruct (withdraw_spec fp (held_lines (files h) a) None) as (Hw1 & Hw2 & _).
  destruct (withdraw _ _ _ _) as [[k0|] kept] eqn:Ew; [|done]. cbn [fst snd] in Hw1, Hw2.
  apply bind_ok in E as (u & h3 & [Hf3 Hl3]%writeLines_ok & [= <- <-]).
  destruct (Hw2 k0 eq_refl) as [|(Hf & l & Hl & Hp)]; [done|]. exists a. split_and!; try done.
  - exists l. split; [done|]. unfold is_key. rewrite Hp. by apply String.eqb_eq.
  - by rewrite Hf3, Hf2, Hf1, Hw1.
  - by rewrite Hl3, Hl2.
Qed.

Lemma held_written fs a lines : Forall plain_line lines -> held_lines (<[keyPath a := content_of lines]> fs) a = lines.
Proof. intros Hl. unfold held_lines. rewrite lookup_insert_eq. by apply lines_of_content. Qed.
Lemma plain_filter p lines : Forall plain_line lines -> Forall plain_line (List.filter p lines).
Proof. induction 1 as [|l lines Hp Hl IH]; [constructor|]. cbn. destruct (p l); [by constructor|done]. Qed.

Lemma harmless_AddKey name entry : harmless (AddKey name entry).
Proof.
  unfold AddKey. apply harmless_bind; [solve [looks_tac]|intros a]. apply harmless_bind; [solve [looks_tac]|intros k]. cbv zeta.
  apply harmless_bind; [solve [looks_tac]|intros existing]. destruct (_ <=? _)%nat; [apply harmless_looks; looks_tac|].
  destruct (existsb _ _); [apply harmless_looks; looks_tac|]. apply harmless_bind; [solve [looks_tac]|intros lines].
  apply harmless_last; [apply harmless_write|]. intros u h. by eexists.
Qed.
Lemma harmless_RemoveKey name fp : harmless (RemoveKey name fp).
Proof.
  unfold RemoveKey. apply harmless_bind; [solve [looks_tac]|intros a]. apply harmless_bind; [solve [looks_tac]|intros lines].
  destruct (withdraw _ _ _ _) as [[k|] kept]; [|apply harmless_looks; looks_tac].
  apply harmless_last; [apply harmless_write|]. intros u h. by eexists.
Qed.

(** The keys of an account that are not of a fingerprint. *)
Lemma keys_filter a fp lines :
  omap (parsed (Name a)) (List.filter (fun l => negb (is_key sha256 fp l)) lines) =
  List.filter (fun k => negb (Fingerprint k =? fp)) (omap (parsed (Name a)) lines).
Proof.
  induction lines as [|l lines IH]; [done|]. cbn [List.filter omap list_omap]. unfold is_key at 1, parsed at 2.
  destruct (ParseKey l) as [k|e] eqn:Ek; cbn [with_account Fingerprint].
  - cbn [List.filter]. destruct (Fingerprint k =? fp) eqn:Ef; cbn [with_account Fingerprint negb]; rewrite ?Ef; [exact IH|]. cbn [omap list_omap]. unfold parsed at 1.
    rewrite Ek. cbn [with_account Fingerprint]. by f_equal.
  - cbn [negb omap list_omap]. unfold parsed at 1. by rewrite Ek.
Qed.

(** C34: A key request changes one account's keys and nothing else of the host. One that
    answers without error has, for an account of the name that may log in, put the key after
    those it had (a key the account did not have, on one line of its own), or taken out the
    keys of the fingerprint and no other; the lines of the file that are not keys, comments
    and keys with options among them, stay as they were and where they were; and one that
    fails, at whatever system call, has changed no file. *)
Theorem key_requests_change_one_account name h :
  (forall entry k h', AddKey name entry h = (Ok k, h') -> exists a, Name a = name /\
     held_lines (files h') a = (held_lines (files h) a ++ [trim_space entry])%list /\
     held_keys (files h') a = (held_keys (files h) a ++ [k])%list /\
     (Fingerprint k ∉ (Fingerprint <$> held_keys (files h) a)) /\
     (forall path, path <> keyPath a -> files h' !! path = files h !! path)) /\
  (forall fp k h', RemoveKey name fp h = (Ok k, h') -> exists a, Name a = name /\ Fingerprint k = fp /\
     (fp ∈ (Fingerprint <$> held_keys (files h) a)) /\
     held_lines (files h') a = List.filter (fun l => negb (is_key sha256 fp l)) (held_lines (files h) a) /\
     held_keys (files h') a = List.filter (fun k => negb (Fingerprint k =? fp)) (held_keys (files h) a) /\
     (forall path, path <> keyPath a -> files h' !! path = files h !! path)) /\
  (forall entry e h', AddKey name entry h = (Err e, h') -> files h' = files h) /\
  (forall fp e h', RemoveKey name fp h = (Err e, h') -> files h' = files h).
Proof.
  split_and!.
  - intros entry k h' (a & Hn & Hka & Hp & Hnew & _ & -> & _)%AddKey_effect. exists a.
    assert (Hl : held_lines (<[keyPath a:=content_of (held_lines (files h) a ++ [trim_space entry])]> (files h)) a =
                 (held_lines (files h) a ++ [trim_space entry])%list).
    { apply held_written, Forall_app. split; [apply held_plain|]. apply Forall_singleton. by eapply ParseKey_plain. }
    split_and!; [done|done| | |by intros path Hne; apply lookup_insert_ne].
    + unfold held_keys. rewrite Hl, omap_app. f_equal. cbn. unfold parsed. rewrite ParseKey_trimmed, Hp. unfold with_account. cbn.
      rewrite Hn, <- Hka. by destruct k.
    + intros (held & Heq & Hin)%list_elem_of_fmap. eapply list.Forall_forall in Hnew; [|exact Hin]. by apply Hnew.
  - intros fp k h' (a & Hn & Hfp & (l & Hl & Hk) & -> & _)%RemoveKey_effect. exists a.
    assert (Hlines : held_lines (<[keyPath a:=content_of (List.filter (fun l => negb (is_key sha256 fp l)) (held_lines (files h) a))]> (files h)) a =
                     List.filter (fun l => negb (is_key sha256 fp l)) (held_lines (files h) a)).
    { apply held_written, plain_filter, held_plain. }
    split_and!; [done|done| |done| |by intros path Hne; apply lookup_insert_ne].
    + unfold is_key in Hk. destruct (ParseKey l) as [k0|] eqn:Ek; [|done]. apply String.eqb_eq in Hk.
      apply list_elem_of_fmap. exists (with_account (Name a) k0). split; [done|]. apply list_elem_of_omap. exists l.
      split; [by apply list_elem_of_In|]. unfold parsed. by rewrite Ek.
    + unfold held_keys at 1. rewrite Hlines. apply keys_filter.
  - intros entry e h' E. by apply harmless_AddKey in E as [-> _].
  - intros fp e h' E. by apply harmless_RemoveKey in E as [-> _].
Qed.
End requests.
