(* ===== verification/SshConfig.v ===== *)
(** * The configuration of the host's SSH server ([agent/internal/ssh/ssh.go], [apply.go], [audit.go],
    [agent/internal/operations/ssh.go])

    Reading the effective configuration, the refusals that keep a way in, the file the panel
    writes beside the distribution's, and a change with its backup, its checks, its reload and
    its undoing.  [sshd] is a parameter: what it makes of the files on the host. *)

From S2P Require Import Protocol FirewallRules Prelude Store GoStr GoTime GoSort GoCodec TenancyRules SshKeys.

#[local] Open Scope string_scope.
#[local] Open Scope store_scope.
Local Abbreviation M := (Store.M Host ssh_err).

(** ** [filepath.Match], on bytes *)

(** One end of a range, with a backslash in front of it or without; something follows. *)
Definition getEsc (chunk : string) : option (ascii * string) :=
  let ends c rest := if rest =? "" then None else Some (c, rest) in
  match chunk with
  | "" => None
  | String "\" rest => match rest with "" => None | String c rest => ends c rest end
  | String c rest => if Ascii.eqb c "-" || Ascii.eqb c "]" then None else ends c rest
  end.
(** The ranges of a class up to its bracket: whether the character is in one. *)
Fixpoint class_go (fuel : nat) (r : ascii) (chunk : string) (first found : bool) : option (bool * string) :=
  match fuel with
  | O => None
  | S f =>
      match chunk with
      | String "]" rest => if first then None else Some (found, rest)
      | _ =>
          '(lo, chunk) ← getEsc chunk;
          match chunk with
          | String "-" rest =>
              '(hi, chunk) ← getEsc rest; class_go f r chunk false (found || in_range lo hi r)
          | _ => class_go f r chunk false (found || Ascii.eqb lo r)
          end
      end
  end.
(** What is left of the name after a chunk of the pattern. *)
Fixpoint match_chunk (fuel : nat) (chunk s : string) : option string :=
  match fuel with
  | O => None
  | S f =>
      match chunk with
      | "" => Some s
      | String "[" rest =>
          match s with
          | "" => None
          | String r s =>
              let '(negated, rest) := match rest with String "^" rest => (true, rest) | _ => (false, rest) end in
              '(found, rest) ← class_go f r rest true false;
              if Bool.eqb found negated then None else match_chunk f rest s
          end
      | String "?" rest =>
          match s with
          | "" => None
          | String r s => if Ascii.eqb r "/" then None else match_chunk f rest s
          end
      | String "\" rest =>
          match rest, s with
          | String c rest, String r s => if Ascii.eqb c r then match_chunk f rest s else None
          | _, _ => None
          end
      | String c rest =>
          match s with
          | "" => None
          | String r s => if Ascii.eqb c r then match_chunk f rest s else None
          end
      end
  end.
(** The chunk up to the next star outside a class, and the rest. *)
Fixpoint scan_chunk (inrange : bool) (pattern : string) : string * string :=
  match pattern with
  | "" => ("", "")
  | String "\" (String c rest) => let '(x, y) := scan_chunk inrange rest in (String "\" (String c x), y)
  | String c rest =>
      if Ascii.eqb c "*" && negb inrange then ("", pattern)
      else
        let inrange := if Ascii.eqb c "[" then true else if Ascii.eqb c "]" then false else inrange in
        let '(x, y) := scan_chunk inrange rest in (String c x, y)
  end.
Fixpoint strip_stars (pattern : string) : bool * string :=
  match pattern with String "*" rest => (true, snd (strip_stars rest)) | _ => (false, pattern) end.
(** The first place behind some characters that are no separators where the chunk matches,
    to the end of the name if it is the [last]. *)
Fixpoint skip_to (last : bool) (chunk s : string) : option string :=
  match s with
  | "" => None
  | String c s =>
      if Ascii.eqb c "/" then None
      else
        match match_chunk (S (String.length chunk)) chunk s with
        | Some t => if last && negb (t =? "") then skip_to last chunk s else Some t
        | None => skip_to last chunk s
        end
  end.
(** A malformed pattern, for which Go answers an error, matches nothing. *)
Fixpoint glob (fuel : nat) (pattern name : string) : bool :=
  match fuel with
  | O => false
  | S f =>
      if pattern =? "" then name =? ""
      else
        let '(star, p) := strip_stars pattern in
        let '(chunk, rest) := scan_chunk false p in
        if star && (chunk =? "") then negb (contains_char "/" name)
        else
          match match_chunk (S (String.length chunk)) chunk name with
          | Some t =>
              if (t =? "") || negb (rest =? "") then glob f rest t
              else if star then match skip_to (rest =? "") chunk name with Some t => glob f rest t | None => false end
              else false
          | None => if star then match skip_to (rest =? "") chunk name with Some t => glob f rest t | None => false end
                    else false
          end
  end.
Definition fp_match (pattern name : string) : bool := glob (S (String.length pattern)) pattern name.

Example glob_examples :
  fp_match "/etc/ssh/sshd_config.d/*.conf" "/etc/ssh/sshd_config.d/10-jothost.conf" = true /\
  fp_match "*" "a/b" = false /\ fp_match "[0-9]?-*" "10-x" = true /\ fp_match "a[" "a[" = false /\
  fp_match "\*x" "*x" = true /\ fp_match "[^a]" "a" = false /\ fp_match "*a*b" "xaab" = true.
Proof. vm_compute. repeat split. Qed.

(** ** The server's configuration *)
Record Config := {
  Available : bool; Managed : bool; Ports : list Z; RootLogin : string; PasswordAuthentication : bool;
  PubkeyAuthentication : bool; PermitEmptyPasswords : bool; X11Forwarding : bool; MaxAuthTries : Z;
  LoginGraceTime : Z; Running : bool }.
Definition no_config : Config := {|
  Available := false; Managed := false; Ports := []; RootLogin := ""; PasswordAuthentication := false;
  PubkeyAuthentication := false; PermitEmptyPasswords := false; X11Forwarding := false; MaxAuthTries := 0;
  LoginGraceTime := 0; Running := false |}.

Definition available : Config := {|
  Available := true; Managed := false; Ports := []; RootLogin := ""; PasswordAuthentication := false;
  PubkeyAuthentication := false; PermitEmptyPasswords := false; X11Forwarding := false; MaxAuthTries := 0;
  LoginGraceTime := 0; Running := false |}.
Definition with_managed (b : bool) (c : Config) : Config := {|
  Available := Available c; Managed := b; Ports := Ports c; RootLogin := RootLogin c;
  PasswordAuthentication := PasswordAuthentication c; PubkeyAuthentication := PubkeyAuthentication c;
  PermitEmptyPasswords := PermitEmptyPasswords c; X11Forwarding := X11Forwarding c;
  MaxAuthTries := MaxAuthTries c; LoginGraceTime := LoginGraceTime c; Running := Running c |}.

(** The package's own [atoi]: 0 for what is no number. *)
Fixpoint atoi_go (total : Z) (s : string) : Z :=
  match s with
  | "" => total
  | String c s => if is_digit c then atoi_go (wrap64 (total * 10 + digit_val c)) s else 0
  end.
Definition atoi (value : string) : Z := atoi_go 0 (trim_space value).
Definition parsePort (value : string) : option Z :=
  let port := atoi value in if ((port <? 1) || (65535 <? port))%Z then None else Some port.
Definition isYes (value : string) : bool := equal_fold (trim_space value) "yes".

(** One line of [sshd -T]. *)
Definition effective_line (c : Config) (line : string) : Config :=
  let '(key, value, found) := cut " " (trim_space line) in
  if negb found then c
  else
    let value := trim_space value in
    let key := to_lower key in
    let set ports root password pubkey empty x11 tries grace := {|
      Available := Available c; Managed := Managed c; Ports := ports; RootLogin := root;
      PasswordAuthentication := password; PubkeyAuthentication := pubkey; PermitEmptyPasswords := empty;
      X11Forwarding := x11; MaxAuthTries := tries; LoginGraceTime := grace; Running := Running c |} in
    let 'Build_Config _ _ ports root password pubkey empty x11 tries grace _ := c in
    if key =? "port" then
      match parsePort value with
      | Some port => set (ports ++ [port])%list root password pubkey empty x11 tries grace
      | None => c
      end
    else if key =? "permitrootlogin" then set ports (to_lower value) password pubkey empty x11 tries grace
    else if key =? "passwordauthentication" then set ports root (isYes value) pubkey empty x11 tries grace
    else if key =? "pubkeyauthentication" then set ports root password (isYes value) empty x11 tries grace
    else if key =? "permitemptypasswords" then set ports root password pubkey (isYes value) x11 tries grace
    else if key =? "x11forwarding" then set ports root password pubkey empty (isYes value) tries grace
    else if key =? "maxauthtries" then set ports root password pubkey empty x11 (atoi value) grace
    else if key =? "logingracetime" then set ports root password pubkey empty x11 tries (atoi value)
    else c.
Definition applyEffective (c : Config) (output : string) : Config := fold_left effective_line (split LF output) c.

Definition dropInDir : string := "sshd_config.d".
Definition dropInName : string := "10-jothost.conf".
Definition defaultPathSSH : string := "/etc/ssh".

Definition matchesDropIn (pattern dropIn : string) : bool :=
  existsb (fun candidate =>
    let candidate := if has_prefix "/" candidate then candidate else fp_join [defaultPathSSH; candidate] in
    fp_match candidate dropIn ||
    (fp_match (fp_base candidate) (fp_base dropIn) && (fp_base (fp_dir candidate) =? dropInDir))) (fields pattern).

Fixpoint str_drop (n : nat) (s : string) : string :=
  match n, s with S n, String _ s => str_drop n s | _, _ => s end.
(** An [Include] line that picks the panel's file up. *)
Definition includes (dropIn line : string) : bool :=
  let trimmed := trim_space line in
  has_prefix "include " (to_lower trimmed) && matchesDropIn (trim_space (str_drop 8 trimmed)) dropIn.

(** ** What the panel writes *)
Record Change := {
  c_Port : option Z; c_RootLogin : option string; c_PasswordAuthentication : option bool;
  c_PubkeyAuthentication : option bool; c_PermitEmptyPasswords : option bool; c_X11Forwarding : option bool;
  c_MaxAuthTries : option Z }.
Definition Empty (c : Change) : bool :=
  bool_decide (c_Port c = None /\ c_RootLogin c = None /\ c_PasswordAuthentication c = None /\
    c_PubkeyAuthentication c = None /\ c_PermitEmptyPasswords c = None /\ c_X11Forwarding c = None /\
    c_MaxAuthTries c = None).

Definition normaliseRootLogin (value : string) : string :=
  let v := to_lower (trim_space value) in
  if v =? "without-password" then "prohibit-password" else v.
Definition yesNo (b : bool) : string := if b then "yes" else "no".
Definition samePort (ports : list Z) (port : Z) : bool := existsb (fun p => (p =? port)%Z) ports.

Definition orderedDirectives : list string :=
  ["Port"; "PermitRootLogin"; "PasswordAuthentication"; "PubkeyAuthentication"; "PermitEmptyPasswords";
   "X11Forwarding"; "MaxAuthTries"].
Definition managedDirectives : list string := orderedDirectives.

(** A line of the file: the directive it sets and its value. *)
Definition directive (line : string) : option (string * string) :=
  let trimmed := trim_space line in
  if (trimmed =? "") || has_prefix "#" trimmed then None
  else
    let '(key, value, found) := cut " " trimmed in
    if found && one_of managedDirectives key then Some (key, trim_space value) else None.
Definition currentDropIn (content : string) : gmap string string :=
  fold_left (fun m kv => <[fst kv := snd kv]> m) (omap directive (split LF content)) ∅.

(** [Format(time.RFC3339)] in UTC. *)
Definition rfc3339 (t : Z) : string :=
  pad 4 (t_Year t) "" ++ "-" ++ pad 2 (t_Month t) "" ++ "-" ++ pad 2 (t_Day t) "" ++ "T" ++
  pad 2 (t_Hour t) "" ++ ":" ++ pad 2 (t_Minute t) "" ++ ":" ++ pad 2 (t_Second t) "" ++ "Z".

Definition set_lines (values : gmap string string) : list string :=
  omap (fun key => (fun value => key ++ " " ++ value) <$> values !! key) orderedDirectives.
Definition render (now : Z) (values : gmap string string) : string :=
  unlines (["# Written by JotHost Panel. This file is rewritten on every change.";
            "#";
            "# It is included from sshd_config before the directives below it, and";
            "# the first setting of a directive is the one sshd uses — so what is";
            "# here overrides the rest of the configuration.";
            "#";
            ("# Written " ++ rfc3339 now)%string;
            ""] ++ set_lines values)%list.

Definition keysOf (values : gmap string string) : list string :=
  List.filter (fun key => bool_decide (is_Some (values !! key))) orderedDirectives.

Definition set_if {A} (key : string) (show : A -> string) (v : option A) (m : gmap string string) : gmap string string :=
  match v with Some x => <[key := show x]> m | None => m end.
Definition merge (c : Change) (m : gmap string string) : gmap string string :=
  set_if "MaxAuthTries" itoa (c_MaxAuthTries c) (
  set_if "X11Forwarding" yesNo (c_X11Forwarding c) (
  set_if "PermitEmptyPasswords" yesNo (c_PermitEmptyPasswords c) (
  set_if "PubkeyAuthentication" yesNo (c_PubkeyAuthentication c) (
  set_if "PasswordAuthentication" yesNo (c_PasswordAuthentication c) (
  set_if "PermitRootLogin" normaliseRootLogin (c_RootLogin c) (
  set_if "Port" itoa (c_Port c) m)))))).

(** What a directive is and should be, [None] when they agree. *)
Definition joinPorts (ports : list Z) : string :=
  if bool_decide (ports = []) then "unset" else join ", " (itoa <$> ports).
Definition difference (after : Config) (key want : string) : option string :=
  let unless (agrees : bool) (got : string) := if agrees then None else Some (key ++ " is " ++ got ++ ", not " ++ want) in
  if key =? "Port" then unless (samePort (Ports after) (atoi want)) (joinPorts (Ports after))
  else if key =? "PermitRootLogin" then
    unless (normaliseRootLogin (RootLogin after) =? normaliseRootLogin want) (RootLogin after)
  else if key =? "PasswordAuthentication" then
    unless (yesNo (PasswordAuthentication after) =? want) (yesNo (PasswordAuthentication after))
  else if key =? "PubkeyAuthentication" then
    unless (yesNo (PubkeyAuthentication after) =? want) (yesNo (PubkeyAuthentication after))
  else if key =? "PermitEmptyPasswords" then
    unless (yesNo (PermitEmptyPasswords after) =? want) (yesNo (PermitEmptyPasswords after))
  else if key =? "X11Forwarding" then unless (yesNo (X11Forwarding after) =? want) (yesNo (X11Forwarding after))
  else unless (itoa (MaxAuthTries after) =? want) (itoa (MaxAuthTries after)).
Definition disagreements (desired : gmap string string) (after : Config) : list string :=
  omap (fun key => match desired !! key with Some want => difference after key want | None => None end) orderedDirectives.

(** ** A change *)
Record Sshd := {
  installed : bool;
  dir : string;
  effective : gmap string string -> option string;    (** [sshd -T] on the host's files *)
  accepts : gmap string string -> bool;               (** [sshd -t] *)
  now : Z;
}.

Record ApplyResult := { r_Config : Config; Changed : list string; Backup : string; Reloaded : bool }.

Section provider.
Context (sha256 : list Z -> list Z) (by_uid : list Account -> list Account) (is_root : bool) (t : Sshd).

Definition ConfigPath : string := fp_join [dir t; "sshd_config"].
Definition DropInPath : string := fp_join [dir t; dropInDir; dropInName].

Definition dropInSupported : M bool :=
  let! r := attempt (ReadFile ConfigPath) in
  ret (match r with
       | Ok (Some content) => existsb (includes DropInPath) (split LF content)
       | _ => false
       end).

Definition Read : M Config :=
  if negb (installed t) then ret no_config
  else
    let! output := io (fun h => (Ok (effective t (files h)), h)) in
    match output with
    | None => ret available
    | Some text =>
        let c := applyEffective available text in
        let! managed := dropInSupported in
        ret (with_managed managed c)
    end.

(** Whether an account has a key; a file that cannot be read has none. *)
Fixpoint any_key (accounts : list Account) : M bool :=
  match accounts with
  | [] => ret false
  | a :: more =>
      let! keys := attempt (readKeys sha256 a) in
      match keys with
      | Ok (_ :: _) => ret true
      | _ => any_key more
      end
  end.
Definition anyAuthorisedKey : M bool := let! accounts := LoginAccounts by_uid in any_key accounts.

(** [Guard]: whether a connection to a port gets through; [None] when it is not asked. *)
Definition checkLockout (c : Change) (before : Config) (guard : option (Z -> bool)) : M unit :=
  (if bool_decide (c_PasswordAuthentication c = Some false) && PasswordAuthentication before then
     let! keyed := anyAuthorisedKey in if keyed : bool then ret tt else fail ErrWouldLockOut
   else ret tt) ;!
  (if bool_decide (c_PubkeyAuthentication c = Some false) &&
      negb (default (PasswordAuthentication before) (c_PasswordAuthentication c))
   then fail ErrWouldLockOut else ret tt) ;!
  match c_Port c with
  | None => ret tt
  | Some port =>
      if ((port <? 1) || (65535 <? port))%Z then fail ErrInvalidConfig
      else
        match guard with
        | Some reachable =>
            if negb (samePort (Ports before) port) && negb (reachable port) then fail ErrWouldLockOut else ret tt
        | None => ret tt
        end
  end ;!
  match c_RootLogin c with
  | Some v =>
      if normaliseRootLogin v =? "no" then
        let! accounts := LoginAccounts by_uid in
        if existsb (fun a => negb (UID a =? 0)%Z) accounts then ret tt else fail ErrWouldLockOut
      else ret tt
  | None => ret tt
  end.

(** The file the panel wrote last, nothing when it cannot be read. *)
Definition read_drop_in : M (option string) :=
  let! r := attempt (ReadFile DropInPath) in ret (match r with Ok c => c | Err _ => None end).

Definition install (rendered : string) : M unit :=
  nothing ;! nothing ;! nothing ;! nothing ;! nothing ;! rename_to DropInPath rendered.
Definition remove (path : string) : M unit := io (fun h => (Ok tt, set_files (delete path (files h)) h)).
(** An error is logged. *)
Definition logged {A} (m : M A) : M unit := let! _ := attempt m in ret tt.

Definition putBack (previous : option string) : M unit :=
  match previous with
  | None => logged (remove DropInPath)
  | Some content => logged (install content)
  end.

Definition validate (rendered : string) : M unit :=
  nothing ;!
  let! previous := read_drop_in in
  install rendered ;!
  let! r := attempt (io (fun h => (Ok (accepts t (files h)), h))) in
  match r with
  | Err e => putBack previous ;! fail e
  | Ok false => putBack previous ;! fail ErrInvalidConfig
  | Ok true => ret tt
  end.

Definition backup_path : string := DropInPath ++ ".backup".
Definition backup : M string :=
  let! content := ReadFile DropInPath in
  match content with
  | None => ret ""
  | Some text => rename_to backup_path text ;! ret backup_path
  end.
Definition restore (path : string) : M unit :=
  if path =? "" then logged (remove DropInPath)
  else
    let! r := attempt (ReadFile path) in
    match r with
    | Ok (Some content) => logged (install content)
    | _ => ret tt
    end.

(** [Reloader]; [has_reloader] when there is one. *)
Definition ReloadSSH : M unit := io (fun h => (Ok tt, set_loaded (files h) h)).

Definition Apply (c : Change) (guard : option (Z -> bool)) (has_reloader : bool) : M ApplyResult :=
  if negb (installed t) then fail ErrUnavailable
  else if Empty c then fail ErrInvalidConfig
  else
    let! before := Read in
    if negb (Managed before) then fail ErrNoDropIn
    else
      checkLockout c before guard ;!
      let! current := read_drop_in in
      let desired := merge c (match current with Some content => currentDropIn content | None => ∅ end) in
      let rendered := render (now t) desired in
      let! saved := backup in
      validate rendered ;!
      let! installed := attempt (install rendered) in
      match installed with
      | Err e => restore saved ;! fail e
      | Ok _ =>
          let! reloaded := (if has_reloader then let! r := attempt ReloadSSH in ret (is_ok r) else ret false) in
          let! after := attempt Read in
          match after with
          | Err e => restore saved ;! fail e
          | Ok after =>
              if negb (bool_decide (disagreements desired after = [])) then
                restore saved ;!
                (if has_reloader then logged ReloadSSH else ret tt) ;!
                fail ErrNotApplied
              else ret {| r_Config := after; Changed := keysOf desired; Backup := saved; Reloaded := reloaded |}
          end
      end.
End provider.

(** ** The firewall's answer *)
Definition portCovered (field : string) (port : Z) : bool :=
  (field =? "") ||
  existsb (fun part =>
    let part := trim_space part in
    let '(low, high, ranged) := cut ":" part in
    if negb ranged then bool_decide (GoStr.atoi part = Some port)
    else
      match GoStr.atoi (trim_space low), GoStr.atoi (trim_space high) with
      | Some from, Some to => ((from <=? port) && (port <=? to))%Z
      | _, _ => false
      end) (split "," field).
(** [None] when there is no firewall; an error when its status cannot be read. *)
Definition PortReachable (status : option (result unit FirewallRules.Status)) (port : Z) : bool :=
  match status with
  | None => true
  | Some (Err _) => false
  | Some (Ok s) =>
      negb (FirewallRules.Enabled s) ||
      existsb (fun r => equal_fold (FirewallRules.Action r) "allow" &&
                        ((FirewallRules.Direction r =? "") || equal_fold (FirewallRules.Direction r) "in") &&
                        portCovered (FirewallRules.Port r) port) (FirewallRules.Rules s)
  end.

(** ** What is worth changing. The detail and the advice of a finding are left out. *)
Definition SeverityHigh : string := "high".
Definition SeverityWarn : string := "warn".
Definition SeverityInfo : string := "info".
Record Finding := { f_ID : string; Severity : string; Title : string }.
Definition Audit (c : Config) (accounts : list Account) : list Finding :=
  if negb (Available c) then []
  else
    let keyed := fold_left (fun n a => n + Keys a)%nat accounts 0%nat in
    let finding (b : bool) id severity title :=
      if b then [{| f_ID := id; Severity := severity; Title := title |}] else [] in
    (finding (PermitEmptyPasswords c) "ssh.empty-passwords" SeverityHigh "Accounts with no password can log in" ++
     finding (RootLogin c =? "yes") "ssh.root-login" SeverityHigh "Root can log in with a password" ++
     finding (PasswordAuthentication c) "ssh.password-authentication" SeverityWarn "Passwords can be used to log in" ++
     finding (negb (PubkeyAuthentication c)) "ssh.pubkey-authentication" SeverityHigh "Key authentication is switched off" ++
     finding (keyed =? 0)%nat "ssh.no-keys" SeverityWarn "No account has an SSH key" ++
     finding (6 <? MaxAuthTries c)%Z "ssh.max-auth-tries" SeverityWarn "Each connection may try many passwords" ++
     finding (X11Forwarding c) "ssh.x11-forwarding" SeverityInfo "X11 forwarding is enabled" ++
     finding (samePort (Ports c) 22) "ssh.default-port" SeverityInfo "SSH is on the default port" ++
     finding (negb (Running c)) "ssh.not-running" SeverityInfo "The SSH server is not running")%list.

(** ** The requests' ends *)

(** The code an error is answered with; another error is passed on. *)
Definition sshError (e : ssh_err) : option string :=
  match e with
  | ErrUnavailable => Some CodeUnsupported
  | ErrNoDropIn | ErrNotApplied | ErrWouldLockOut | ErrDuplicateKey => Some CodeInvalidRequest
  | ErrInvalidConfig | ErrInvalidKey => Some CodeInvalidPayload
  | ErrUnknownAccount | ErrKeyNotFound => Some CodeNotFound
  | IOErr => None
  end.

(** The panel's own check of a change ([api/internal/ssh/handlers.go]): the change it passes on,
    [None] when it is refused. *)
Definition rootLoginValues : list string :=
  ["yes"; "no"; "prohibit-password"; "without-password"; "forced-commands-only"].
Definition panel_change (c : Change) : option Change :=
  let root := to_lower ∘ trim_space <$> c_RootLogin c in
  let outside lo hi (v : option Z) := match v with Some z => ((z <? lo) || (hi <? z))%Z | None => false end in
  if match root with Some v => negb (one_of rootLoginValues v) | None => false end then None
  else if outside 1%Z 65535%Z (c_Port c) then None
  else if outside 1%Z 100%Z (c_MaxAuthTries c) then None
  else Some {| c_Port := c_Port c; c_RootLogin := root; c_PasswordAuthentication := c_PasswordAuthentication c;
               c_PubkeyAuthentication := c_PubkeyAuthentication c; c_PermitEmptyPasswords := c_PermitEmptyPasswords c;
               c_X11Forwarding := c_X11Forwarding c; c_MaxAuthTries := c_MaxAuthTries c |}.
