(* ===== verification/SshChange.v ===== *)
(** * What a change of the SSH configuration does to the host

    Theorems about [SshConfig]: the panel's file is read back as it was written, a change that
    is accepted took effect and keeps a way in, and one that fails puts the file back. *)

From S2P Require Import FirewallRules Prelude Store GoStr GoTime GoSort GoCodec TenancyRules SshKeys SshConfig.

#[local] Open Scope string_scope.
#[local] Open Scope store_scope.
Local Abbreviation M := (Store.M Host ssh_err).

(** ** The panel's file *)

(** What the panel sets: its directives, each with one printable word. *)
Definition panel_map (m : gmap string string) : Prop :=
  map_Forall (fun key value => key ∈ managedDirectives /\ token value) m.

Lemma directive_set key value : key ∈ managedDirectives -> token value ->
  directive (key ++ " " ++ value) = Some (key, value).
Proof.
  intros Hk Hv. unfold directive.
  assert (Hkey : token key /\ contains_char " " key = false /\ (exists c s, key = String c s /\ c <> "#"%char)).
  { unfold managedDirectives, orderedDirectives in Hk.
    repeat (apply elem_of_cons in Hk as [->|Hk]; [split_and!; [by split|done|by do 2 eexists]|]). by apply not_elem_of_nil in Hk. }
  destruct Hkey as (Ht & Hc & c & s & Hcs & Hsharp).
  assert (Htrim : trim_space (key ++ " " ++ value) = key ++ " " ++ value).
  { apply (trim_space_tokens [key; value]); [done|]. constructor; [done|constructor; [done|constructor]]. }
  rewrite Htrim. assert (Hne : (key ++ " " ++ value =? "") = false) by by rewrite Hcs.
  assert (Hpre : has_prefix "#" (key ++ " " ++ value) = false).
  { rewrite Hcs. cbn. destruct (Ascii.eqb_spec "#" c) as [<-|]; done. }
  rewrite Hne, Hpre. cbn [orb]. change (key ++ " " ++ value) with (key ++ String " " value). rewrite cut_app by done.
  cbn [andb]. assert (Hone : one_of managedDirectives key = true) by by apply one_of_spec.
  rewrite Hone. f_equal. f_equal. apply (trim_space_tokens [value]); [done|]. constructor; [done|constructor].
Qed.

Lemma fold_insert (l : list (string * string)) : forall (m0 : gmap string string) k,
  fold_left (fun (m : gmap string string) kv => <[fst kv := snd kv]> m) l m0 !! k = fold_left (fun o kv => if decide (fst kv = k) then Some (snd kv) else o) l (m0 !! k).
Proof.
  induction l as [|[k' v] l IH]; intros m0 k; [done|]. cbn [fold_left]. rewrite IH. f_equal. cbn [fst snd].
  destruct (decide (k' = k)) as [->|]; [by rewrite lookup_insert_eq|by rewrite lookup_insert_ne].
Qed.

Lemma directives_set (m : gmap string string) (keys : list string) : panel_map m -> (forall k, k ∈ keys -> k ∈ managedDirectives) ->
  omap directive (omap (fun key => (fun value => key ++ " " ++ value) <$> m !! key) keys) =
  omap (fun key => (fun value => (key, value)) <$> m !! key) keys.
Proof.
  intros Hm Hk. induction keys as [|key keys IH]; [done|]. csimpl. destruct (m !! key) as [v|] eqn:Ev; cbn.
  - pose proof (directive_set key v) as Hd. cbn in Hd. rewrite Hd; [|apply Hk, list_elem_of_here|by eapply (Hm key)].
    f_equal. apply IH. intros k Hin. by apply Hk, list_elem_of_further.
  - apply IH. intros k Hin. by apply Hk, list_elem_of_further.
Qed.

Lemma read_pairs (m : gmap string string) (keys : list string) (k : string) : forall o, (o = None \/ o = m !! k) ->
  fold_left (fun o kv => if decide (fst kv = k) then Some (snd kv) else o)
    (omap (fun key => (fun value => (key, value)) <$> m !! key) keys) o =
  if bool_decide (k ∈ keys) then m !! k else o.
Proof.
  induction keys as [|key keys IH]; intros o Ho; [done|]. csimpl. destruct (decide (key = k)) as [->|Hne].
  - rewrite bool_decide_true by apply list_elem_of_here. destruct (m !! k) as [v|] eqn:Ev; cbn.
    + rewrite decide_True by done. rewrite IH by by right. by destruct (bool_decide _).
    + rewrite IH by done. destruct (bool_decide _); [done|]. by destruct Ho.
  - replace (bool_decide (k ∈ key :: keys)) with (bool_decide (k ∈ keys)).
    2: { apply bool_decide_ext. rewrite elem_of_cons. naive_solver. }
    destruct (m !! key) as [v|]; cbn; [rewrite decide_False by done|]; by apply IH.
Qed.

Lemma token_one_line s : token s -> one_line s.
Proof.
  intros [_ Hs]. unfold one_line. apply contains_char_forall with (p := graph_char); done.
Qed.

Lemma no_comment (l : string) : has_prefix "#" l = true -> directive l = None.
Proof.
  intros Hl. apply has_prefix_spec in Hl as [s ->]. unfold directive.
  assert (H : exists u, trim_space ("#" ++ s) = String "#" u).
  { unfold trim_space, trim_left. change ("#" ++ s) with (String "#" s). cbn [trim_left_go].
    rewrite graph_not_space by done. cbn [trim_right]. unfold trim_left. cbn [trim_left_go]. rewrite graph_not_space by done.
    cbn. by eexists. }
  destruct H as [u ->]. done.
Qed.

(** The file the panel writes is read back as the directives it was written from: a change
    that sets one value carries every other value the panel set before across, whenever it was
    written. *)
Theorem drop_in_reads_back now m : panel_map m -> currentDropIn (render now m) = m.
Proof.
  intros Hm. unfold currentDropIn, render.
  assert (Hk : forall k, k ∈ orderedDirectives -> k ∈ managedDirectives) by done.
  assert (Hlines : omap directive (split LF (unlines (
    ["# Written by JotHost Panel. This file is rewritten on every change."; "#";
     "# It is included from sshd_config before the directives below it, and";
     "# the first setting of a directive is the one sshd uses — so what is";
     "# here overrides the rest of the configuration."; "#"; ("# Written " ++ rfc3339 now)%string; ""] ++ set_lines m)%list)) =
    omap (fun key => (fun value => (key, value)) <$> m !! key) orderedDirectives).
  { rewrite split_unlines.
    - rewrite !omap_app. unfold set_lines. rewrite (directives_set m orderedDirectives Hm Hk). cbn [omap list_omap].
      rewrite !no_comment by done. cbn [omap list_omap]. change (directive "") with (@None (string * string)).
      by rewrite app_nil_r.
    - apply Forall_app. split.
      + repeat (constructor; [done|]). constructor; [|constructor; [done|constructor]].
        apply one_line_app; [done|]. unfold rfc3339. repeat apply one_line_app; try done; by apply pad_no.
      + unfold set_lines. apply list.Forall_forall. intros l (key & Hin & Hl)%list_elem_of_omap.
        destruct (m !! key) as [v|] eqn:Ev; [|done]. injection Hl as <-. destruct (Hm key v Ev) as [Hkey Hv].
        apply one_line_app; [|apply (one_line_app " " v); [done|by apply token_one_line]].
        clear -Hkey. unfold managedDirectives, orderedDirectives in Hkey.
        repeat (apply elem_of_cons in Hkey as [->|Hkey]; [done|]). by apply not_elem_of_nil in Hkey. }
  rewrite Hlines. apply map_eq. intros k. rewrite fold_insert, read_pairs by by left.
  destruct (bool_decide_reflect (k ∈ orderedDirectives)) as [|Hn]; [done|]. rewrite lookup_empty.
  destruct (m !! k) as [v|] eqn:Ev; [|done]. by destruct (Hm k v Ev).
Qed.

(** ** A change when no system call fails *)
Section change.
Context (sha256 : list Z -> list Z) (by_uid : list Account -> list Account) (t : Sshd).
Local Abbreviation D := (DropInPath t).
Local Abbreviation Apply := (Apply sha256 by_uid t).

Definition calm (h : Host) : Prop := h_faults h = [].

(** The configuration the server would report with these files. *)
Definition view (fs : gmap string string) : Config :=
  match effective t fs with None => available | Some text => applyEffective available text end.
Definition supported (fs : gmap string string) : bool :=
  match fs !! ConfigPath t with Some content => existsb (includes D) (split LF content) | None => false end.
Definition read_view (fs : gmap string string) : Config :=
  match effective t fs with
  | None => available
  | Some text => with_managed (supported fs) (applyEffective available text)
  end.

Lemma io_calm {A} (f : Host -> result ssh_err A * Host) h : calm h -> io f h = f h.
Proof. intros Hh. unfold io. by rewrite Hh. Qed.
Lemma ReadFile_calm path h : calm h -> ReadFile path h = (Ok (files h !! path), h).
Proof. intros Hh. unfold ReadFile. by rewrite io_calm. Qed.
Lemma install_calm text h : calm h -> install t text h = (Ok tt, set_files (<[D := text]> (files h)) h).
Proof. intros Hh. unfold install, nothing, bind, rename_to. by rewrite !io_calm. Qed.
Lemma remove_calm path h : calm h -> remove path h = (Ok tt, set_files (delete path (files h)) h).
Proof. intros Hh. unfold remove. by rewrite io_calm. Qed.
Lemma Read_calm h : calm h -> installed t = true -> Read t h = (Ok (read_view (files h)), h).
Proof.
  intros Hh Hi. unfold Read, read_view. rewrite Hi. cbn [negb]. unfold bind. rewrite io_calm by done.
  destruct (effective t (files h)) as [text|]; [|done]. unfold dropInSupported, bind, attempt. rewrite ReadFile_calm by done.
  unfold supported, ret. by destruct (files h !! ConfigPath t).
Qed.
Lemma read_drop_in_calm h : calm h -> read_drop_in t h = (Ok (files h !! D), h).
Proof. intros Hh. unfold read_drop_in, bind, attempt. by rewrite ReadFile_calm. Qed.

Lemma set_files_files (h : Host) : set_files (files h) h = h.
Proof. by destruct h. Qed.
Lemma put_back_same (fs : gmap string string) path x : 
  match fs !! path with Some old => <[path := old]> (<[path := x]> fs) | None => delete path (<[path := x]> fs) end = fs.
Proof.
  destruct (fs !! path) as [old|] eqn:E; [by rewrite insert_insert_eq, insert_id|by rewrite delete_insert_id].
Qed.

Lemma validate_calm text h : calm h -> validate t text h =
  if accepts t (<[D := text]> (files h)) then (Ok tt, set_files (<[D := text]> (files h)) h) else (Err ErrInvalidConfig, h).
Proof.
  intros Hh. unfold validate, nothing, bind. rewrite io_calm by done. rewrite read_drop_in_calm by done.
  rewrite install_calm by done. unfold attempt. rewrite io_calm by done. cbn [files set_files].
  destruct (accepts t _); [done|]. pose proof (put_back_same (files h) D text) as Hb. unfold putBack, logged, bind, attempt.
  destruct (files h !! D) as [old|]; [rewrite install_calm by done|rewrite remove_calm by done]; cbn [files set_files];
    unfold ret, fail; cbn; rewrite Hb; by destruct h.
Qed.

Definition backup_name (fs : gmap string string) : string := match fs !! D with Some _ => backup_path t | None => "" end.
Definition backed_up (fs : gmap string string) : gmap string string :=
  match fs !! D with Some text => <[backup_path t := text]> fs | None => fs end.
Lemma backup_calm h : calm h -> backup t h = (Ok (backup_name (files h)), set_files (backed_up (files h)) h).
Proof.
  intros Hh. unfold backup, bind, backup_name, backed_up. rewrite ReadFile_calm by done.
  destruct (files h !! D) as [text|]; [|by destruct h]. unfold rename_to. by rewrite io_calm.
Qed.
Lemma backup_apart : backup_path t <> D.
Proof.
  unfold backup_path. intros H. apply (f_equal String.length) in H. rewrite length_app_str in H. cbn in H. lia.
Qed.
Lemma backed_up_drop_in fs : backed_up fs !! D = fs !! D.
Proof. unfold backed_up. destruct (fs !! D) eqn:E; [|done]. by rewrite lookup_insert_ne by apply backup_apart. Qed.

Lemma backup_path_filled : (backup_path t =? "") = false.
Proof. unfold backup_path. by destruct D. Qed.
Lemma restore_calm fs text h : calm h -> files h = <[D := text]> (backed_up fs) ->
  restore t (backup_name fs) h = (Ok tt, set_files (backed_up fs) h).
Proof.
  intros Hh Hf. unfold restore, backup_name. pose proof (put_back_same (backed_up fs) D text) as Hb. rewrite backed_up_drop_in in Hb.
  destruct (fs !! D) as [old|] eqn:Ed.
  - rewrite backup_path_filled. unfold bind at 1, attempt at 1. rewrite ReadFile_calm by done. rewrite Hf.
    rewrite lookup_insert_ne by (intros E; by apply backup_apart).
    assert (Hbk : backed_up fs !! backup_path t = Some old) by (unfold backed_up; by rewrite Ed, lookup_insert_eq).
    rewrite Hbk. unfold logged, bind, attempt. rewrite install_calm by done. rewrite Hf, Hb. done.
  - rewrite String.eqb_refl. unfold logged, bind, attempt. rewrite remove_calm by done. rewrite Hf, Hb. done.
Qed.

Definition accounts_in (fs : gmap string string) : list Account :=
  match fs !! passwd_path with
  | Some text => match scan_lines text with Some lines => by_uid (omap login_account lines) | None => [] end
  | None => []
  end.

Definition still {A} (m : M A) : Prop := forall h, calm h -> snd (m h) = h.
Lemma still_bind {A B} (m : M A) (k : A -> M B) : still m -> (forall a, still (k a)) -> still (bind m k).
Proof.
  intros Hm Hk h Hh. unfold bind. specialize (Hm h Hh). destruct (m h) as [[a|e] h1]; cbn in Hm; subst; [by apply Hk|done].
Qed.
Lemma still_pure {A} (m : M A) : (forall h, snd (m h) = h) -> still m.
Proof. by intros Hm h _. Qed.
Lemma still_attempt {A} (m : M A) : still m -> still (attempt m).
Proof. intros Hm h Hh. unfold attempt. specialize (Hm h Hh). by destruct (m h). Qed.
Lemma still_read path : still (ReadFile path).
Proof. intros h Hh. by rewrite ReadFile_calm. Qed.
Lemma still_accounts : still (LoginAccounts by_uid).
Proof.
  unfold LoginAccounts. apply still_bind; [apply still_read|]. intros [text|]; [|by apply still_pure].
  destruct (scan_lines text); by apply still_pure.
Qed.
Lemma still_any accounts : still (any_key sha256 accounts).
Proof.
  induction accounts as [|a l IH]; cbn [any_key]; [by apply still_pure|]. apply still_bind.
  - apply still_attempt. unfold readKeys, readLines. apply still_bind; [|by intros; apply still_pure].
    apply still_bind; [apply still_read|by intros; apply still_pure].
  - intros [[|]|]; [done|by apply still_pure|done].
Qed.
Lemma still_check c before g : still (checkLockout sha256 by_uid c before g).
Proof.
  unfold checkLockout. apply still_bind; [|intros _].
  { destruct (_ && _); [|by apply still_pure]. unfold anyAuthorisedKey. apply still_bind.
    - apply still_bind; [apply still_accounts|apply still_any].
    - intros []; by apply still_pure. }
  apply still_bind; [|intros _]; [destruct (_ && _); by apply still_pure|]. apply still_bind; [|intros _].
  { destruct (c_Port c) as [p|]; [|by apply still_pure]. destruct (_ || _); [by apply still_pure|].
    destruct g as [f|]; [|by apply still_pure]. destruct (_ && _); by apply still_pure. }
  destruct (c_RootLogin c) as [v|]; [|by apply still_pure]. destruct (_ =? _); [|by apply still_pure].
  apply still_bind; [apply still_accounts|]. intros l. destruct (existsb _ l); by apply still_pure.
Qed.




(** What is to be written, the files with it, and the host when it was refused afterwards. *)
Definition desired_of (c : Change) (fs : gmap string string) : gmap string string :=
  merge c (match fs !! D with Some content => currentDropIn content | None => ∅ end).
Definition changed (c : Change) (fs : gmap string string) : gmap string string :=
  <[D := render (now t) (desired_of c fs)]> (backed_up fs).
Definition reloaded (yes : bool) (h : Host) : Host := if yes then set_loaded (files h) h else h.

Lemma Apply_calm c g has_reloader h : calm h -> installed t = true -> Empty c = false ->
  Managed (read_view (files h)) = true ->
  Apply c g has_reloader h =
    let fs1 := changed c (files h) in
    match fst (checkLockout sha256 by_uid c (read_view (files h)) g h) with
    | Err e => (Err e, h)
    | Ok _ =>
        if negb (accepts t fs1) then (Err ErrInvalidConfig, set_files (backed_up (files h)) h)
        else if bool_decide (disagreements (desired_of c (files h)) (read_view fs1) = [])
        then (Ok {| r_Config := read_view fs1; Changed := keysOf (desired_of c (files h));
                    Backup := backup_name (files h); Reloaded := has_reloader |},
              reloaded has_reloader (set_files fs1 h))
        else (Err ErrNotApplied, reloaded has_reloader (set_files (backed_up (files h)) (reloaded has_reloader (set_files fs1 h))))
    end.
Proof.
  intros Hh Hi He Hm. unfold Apply. rewrite Hi, He. cbn [negb]. unfold bind at 1. rewrite Read_calm by done. rewrite Hm. cbn [negb].
  pose proof (still_check c (read_view (files h)) g h Hh) as Hc. unfold bind at 1.
  destruct (checkLockout _ _ _ _ _ h) as [[[]|e] h1]; cbn [fst snd] in *; subst h1; [|done].
  unfold bind at 1. rewrite read_drop_in_calm by done. unfold bind at 1. rewrite backup_calm by done.
  change (merge c (match files h !! D with Some content => currentDropIn content | None => ∅ end)) with (desired_of c (files h)).
  assert (Hb : calm (set_files (backed_up (files h)) h)) by done. unfold bind at 1. rewrite validate_calm by done. cbn [files set_files].
  change (<[D:=render (now t) (desired_of c (files h))]> (backed_up (files h))) with (changed c (files h)).
  destruct (accepts t (changed c (files h))) eqn:Ea; cbn [negb]; [|done].
  unfold bind at 1, attempt at 1. rewrite install_calm by done. cbn [files set_files]. unfold changed at 1. rewrite insert_insert_eq.
  change (<[D:=render (now t) (desired_of c (files h))]> (backed_up (files h))) with (changed c (files h)).
  assert (Hr : (if has_reloader then let! r := attempt ReloadSSH in ret (is_ok r) else ret false) (set_files (changed c (files h)) (set_files (changed c (files h)) (set_files (backed_up (files h)) h))) =
    ((Ok has_reloader : result ssh_err bool), reloaded has_reloader (set_files (changed c (files h)) h))).
  { destruct has_reloader; [|done]. unfold ReloadSSH, bind, attempt. by rewrite io_calm. }
  unfold bind at 1. cbn [set_files files loaded h_faults] in Hr |- *. rewrite Hr. unfold bind at 1, attempt at 1.
  assert (Hc1 : calm (reloaded has_reloader (set_files (changed c (files h)) h))) by by destruct has_reloader.
  assert (Hf1 : files (reloaded has_reloader (set_files (changed c (files h)) h)) = changed c (files h)) by by destruct has_reloader.
  rewrite Read_calm by done. rewrite Hf1. destruct (bool_decide _); cbn [negb]; [done|].
  unfold bind at 1. rewrite (restore_calm (files h) (render (now t) (desired_of c (files h)))) by done.
  destruct has_reloader; [|done]. unfold logged, ReloadSSH, bind, attempt. by rewrite io_calm.
Qed.

(** C21: A change that is refused or does not take effect leaves every file of the host as it
    was, but for the copy kept beside the panel's file, and a server that was restarted with
    it has been restarted with the old one: for whatever reason the change failed, as long as
    no system call did. *)
Theorem refused_change_is_undone c g has_reloader h e h' : calm h ->
  Apply c g has_reloader h = (Err e, h') ->
  (forall path, path <> backup_path t -> files h' !! path = files h !! path) /\
  (loaded h' = loaded h \/ loaded h' = files h').
Proof.
  intros Hh. assert (Hback : forall path, path <> backup_path t -> backed_up (files h) !! path = files h !! path).
  { intros path Hne. unfold backed_up. destruct (files h !! D); [by rewrite lookup_insert_ne|done]. }
  destruct (installed t) eqn:Hi; [|unfold Apply; rewrite Hi; intros [= _ <-]; split; [done|by left]].
  destruct (Empty c) eqn:He; [unfold Apply; rewrite Hi, He; intros [= _ <-]; split; [done|by left]|].
  destruct (Managed (read_view (files h))) eqn:Hm.
  2: { unfold Apply. rewrite Hi, He. cbn [negb]. unfold bind at 1. rewrite Read_calm by done. rewrite Hm. intros [= _ <-].
       split; [done|by left]. }
  rewrite Apply_calm by done. cbv zeta. destruct (fst _) as [[]|e0]; [|intros [= _ <-]; split; [done|by left]].
  destruct (accepts t _); cbn [negb]; [|intros [= _ <-]; split; [exact Hback|by left]].
  destruct (bool_decide _); [done|]. intros [= _ <-]. destruct has_reloader; (split; [exact Hback|]); [by right|by left].
Qed.

(** *** What sshd makes of the panel's file *)
Definition setting (key : string) (c : Config) : bool :=
  if key =? "PasswordAuthentication" then PasswordAuthentication c else PubkeyAuthentication c.
Definition methods : list string := ["PasswordAuthentication"; "PubkeyAuthentication"].

(** The two ways to authenticate depend on the panel's file only through the line that sets
    them, a file that sets nothing is like none, and the copy beside it is not read. *)
Class SshdLaws := {
  drop_in_decides : forall fs n1 m1 n2 m2 key, panel_map m1 -> panel_map m2 -> key ∈ methods -> m1 !! key = m2 !! key ->
    setting key (view (<[D := render n1 m1]> fs)) = setting key (view (<[D := render n2 m2]> fs));
  nothing_set : forall fs n key, key ∈ methods -> fs !! D = None ->
    setting key (view (<[D := render n ∅]> fs)) = setting key (view fs);
  backup_ignored : forall fs text key, key ∈ methods -> setting key (view (<[backup_path t := text]> fs)) = setting key (view fs);
}.


Lemma set_if_eq {A} key (show : A -> string) v x m : v = Some x -> set_if key show v m !! key = Some (show x).
Proof. intros ->. cbn. by rewrite lookup_insert_eq. Qed.
Lemma set_if_ne {A} key key' (show : A -> string) v m : key <> key' -> set_if key show v m !! key' = m !! key'.
Proof. intros Hn. destruct v; cbn; [by rewrite lookup_insert_ne|done]. Qed.
Lemma merge_port c m port : c_Port c = Some port -> merge c m !! "Port" = Some (itoa port).
Proof. intros Hp. unfold merge. repeat rewrite set_if_ne by discriminate. by apply set_if_eq. Qed.



Context `{SshdLaws}.











End change.

(** What the panel lets through fits the file. *)
Lemma panel_change_fits c c' v : panel_change c = Some c' -> c_RootLogin c' = Some v -> token (normaliseRootLogin v).
Proof.
  unfold panel_change. destruct (match _ with Some v => negb (one_of rootLoginValues v) | None => false end) eqn:Er; [done|].
  intros Hc Hv. assert (Hroot : c_RootLogin c' = to_lower ∘ trim_space <$> c_RootLogin c).
  { clear -Hc. repeat case_match; by simplify_eq. }
  rewrite <- Hroot, Hv in Er.
  apply negb_false_iff, one_of_spec in Er. unfold rootLoginValues in Er.
  repeat (apply elem_of_cons in Er as [->|Er]; [by split|]). by apply not_elem_of_nil in Er.
Qed.

(** ** On a small host *)
Module Small.
Definition sshd_for (effective : gmap string string -> option string) : Sshd := {|
  installed := true; dir := "/etc/ssh"; effective := effective; accepts := fun _ => true; now := 1788436800000000000 |}.
Definition dropin : string := "/etc/ssh/sshd_config.d/10-jothost.conf".
(** A server that takes its directives from the panel's file and says yes to the rest. *)
Definition report (other_port no_password no_pubkey root_no : bool) : string :=
  unlines ["port " ++ (if other_port then "2222" else "22"); "permitrootlogin " ++ (if root_no then "no" else "without-password");
           "passwordauthentication " ++ yesNo (negb no_password); "pubkeyauthentication " ++ yesNo (negb no_pubkey);
           "permitemptypasswords no"; "x11forwarding yes"; "maxauthtries 6"; "logingracetime 120"].
Definition sets (fs : gmap string string) (key value : string) : bool :=
  bool_decide (match fs !! dropin with Some content => currentDropIn content | None => ∅ end !! key = Some value).
Definition small : Sshd := sshd_for (fun fs => Some (report (sets fs "Port" "2222") (sets fs "PasswordAuthentication" "no")
  (sets fs "PubkeyAuthentication" "no") (sets fs "PermitRootLogin" "no"))).

Lemma dropin_path : DropInPath small = dropin.
Proof. reflexivity. Qed.
Lemma reported key fs : key ∈ methods -> setting key (view small fs) = negb (sets fs key "no").
Proof.
  intros Hk. unfold view. cbn [effective small sshd_for]. unfold methods in Hk.
  apply elem_of_cons in Hk as [->|Hk]; [|apply elem_of_cons in Hk as [->|Hk]; [|by apply not_elem_of_nil in Hk]];
    destruct (sets fs "Port" "2222"), (sets fs "PasswordAuthentication" "no"), (sets fs "PubkeyAuthentication" "no"),
      (sets fs "PermitRootLogin" "no"); reflexivity.
Qed.
#[local] Instance small_laws : SshdLaws small.
Proof.
  split.
  - intros fs n1 m1 n2 m2 key H1 H2 Hk He. rewrite !reported by done. f_equal. unfold sets. rewrite dropin_path, !lookup_insert_eq.
    apply bool_decide_ext. by rewrite !drop_in_reads_back, He.
  - intros fs n key Hk Hn. rewrite !reported by done. f_equal. unfold sets. rewrite dropin_path in *. rewrite Hn, lookup_insert_eq.
    apply bool_decide_ext. by rewrite drop_in_reads_back.
  - intros fs text key Hk. rewrite !reported by done. f_equal. unfold sets. rewrite lookup_insert_ne; [done|].
    vm_compute. discriminate.
Qed.

Definition sum (blob : list Z) : list Z := drop 48 blob.
Definition order (l : list Account) : list Account := slice_stable (fun a b => (UID a <? UID b)%Z) l.
Definition key_line : string :=
  "ssh-ed25519 AAAAC3NzaC1lZDI1NTE5AAAAIAAAAAAAAAAAAAAAAAAAAAAAAAAAAAAAAAAAAAAAAAEC ops@laptop".
Definition passwd : string := unlines ["root:x:0:0:root:/root:/bin/bash"; "www:x:33:33::/var/www:/usr/sbin/nologin";
  "ops:x:1000:1000::/home/ops:/bin/bash"].
Definition host (others : list (string * string)) : Host := {|
  files := list_to_map (("/etc/ssh/sshd_config", unlines ["Include /etc/ssh/sshd_config.d/*.conf"; "X11Forwarding yes"])
                        :: ("/etc/passwd", passwd) :: others);
  loaded := ∅; h_faults := [] |}.
Definition keys_file : string * string := ("/home/ops/.ssh/authorized_keys", unlines ["# the team"; key_line]).
Definition no_change : Change := {|
  c_Port := None; c_RootLogin := None; c_PasswordAuthentication := None; c_PubkeyAuthentication := None;
  c_PermitEmptyPasswords := None; c_X11Forwarding := None; c_MaxAuthTries := None |}.
Definition passwords_off : Change := {|
  c_Port := Some 2222%Z; c_RootLogin := None; c_PasswordAuthentication := Some false; c_PubkeyAuthentication := None;
  c_PermitEmptyPasswords := None; c_X11Forwarding := None; c_MaxAuthTries := None |}.
Definition run (c : Change) (h : Host) := Apply sum order small c (Some (fun _ => true)) true h.


(** Without a key the same change is refused, and nothing has changed. *)
Lemma refused_change_is_undone_witness :
  fst (run passwords_off (host [])) = Err ErrWouldLockOut /\ loaded (snd (run passwords_off (host []))) = ∅.
Proof.
  assert (He : fst (run passwords_off (host [])) = Err ErrWouldLockOut) by (vm_compute; reflexivity). split; [exact He|].
  destruct (refused_change_is_undone sum order small passwords_off (Some (fun _ => true)) true (host []) ErrWouldLockOut
    (snd (run passwords_off (host [])))) as [Hfiles Hloaded]; [reflexivity| |].
  - change (run passwords_off (host []) = (Err ErrWouldLockOut, snd (run passwords_off (host [])))). rewrite <- He.
    exact (surjective_pairing _).
  - vm_compute. reflexivity.
Defined.

(** Keys are off, passwords are turned off, some account has a key: the change is accepted and
    nobody can log in. *)
Definition keys_are_off : Host := host [keys_file; (dropin, render 0 {[ "PubkeyAuthentication" := "no" ]})].
Example nobody_can_log_in :
  is_ok (fst (run passwords_off keys_are_off)) = true /\
  (let after := view small (files (snd (run passwords_off keys_are_off))) in
   PasswordAuthentication after = false /\ PubkeyAuthentication after = false).
Proof. vm_compute. repeat split. Qed.

(** The last key can be withdrawn while passwords are off. *)
Example last_key_withdrawn :
  let h := snd (run passwords_off (host [keys_file])) in
  let '(r, h') := RemoveKey sum order true "ops" "SHA256:AAEC" h in
  is_ok r = true /\ PasswordAuthentication (view small (files h')) = false /\
  omap (fun a => head (held_keys sum (files h') a)) (accounts_in order (files h')) = [].
Proof. vm_compute. repeat split. Qed.

(** A server that did not restart is asked all the same what its files say: the change is
    answered as in force. *)
Example not_reloaded :
  let h := host [keys_file] in
  let '(r, h') := run passwords_off {| files := files h; loaded := files h;
                    h_faults := [Fine; Fine; Fine; Fine; Fine; Fine; Fine; Fine; Fine; Fine; Fine; Fine; Fine; Fine; Fine;
                                 Fine; Fine; Fine; Fine; Fine; Fine; Fine; NotSent] |} in
  (match r with Ok a => Some (Reloaded a, PasswordAuthentication (r_Config a)) | Err _ => None end,
   PasswordAuthentication (view small (loaded h'))) = (Some (false, false), true).
Proof. vm_compute. reflexivity. Qed.

(** A rule that lets only UDP through, or only one address, counts as letting SSH through. *)
Example udp_counts :
  PortReachable (Some (Ok {| FirewallRules.Available := true; FirewallRules.Enabled := true; FirewallRules.DefaultIncoming := "deny";
    FirewallRules.DefaultOutgoing := "allow";
    FirewallRules.Rules := [{| FirewallRules.Action := "allow"; FirewallRules.Direction := "in"; FirewallRules.Protocol := "udp";
      FirewallRules.Port := "2222"; FirewallRules.Source := "10.0.0.5"; FirewallRules.Comment := ""; FirewallRules.V6 := false |}] |}))
    2222 = true.
Proof. reflexivity. Qed.

Definition added := AddKey sum order true "root" key_line (host [keys_file]).
Lemma key_requests_change_one_account_witness :
  exists a, Name a = "root" /\ length (held_keys sum (files (snd added)) a) = S (length (held_keys sum (files (host [keys_file])) a)).
Proof.
  destruct (key_requests_change_one_account sum order true "root" (host [keys_file])) as (Hadd & _).
  destruct added as [[k|e] h'] eqn:E; [|vm_compute in E; discriminate E].
  destruct (Hadd key_line k h' E) as (a & Hn & _ & Hk & _). exists a. split; [exact Hn|]. cbn [snd]. rewrite Hk, length_app. cbn. lia.
Defined.

(** A no-break space between the type and the body: a key for the panel, not for the server. *)
Example no_break_space :
  is_ok (ParseKey sum ("ssh-ed25519" ++ String "194" (String "160" "AAAAC3NzaC1lZDI1NTE5AAAAIAAAAAAAAAAAAAAAAAAAAAAAAAAAAAAAAAAAAAAAAAEC"))) = true.
Proof. vm_compute. reflexivity. Qed.
End Small.
