(* ===== verification/DeployRules.v ===== *)
(** * Deployment rules ([shared/validate/deploy.go], [SystemUser] of [validate.go])

    What a repository's address, a branch, a commit, a step, a script and the account a site
    runs as may be, as both the panel and the host check it, and the characters an accepted
    value is made of. An error is the sentinel the code wraps. *)

From S2P Require Import Prelude GoStr TenancyRules Netip DnsRules.

#[local] Open Scope string_scope.
#[local] Arguments Nat.ltb : simpl never.

Inductive deploy_rule_err :=
| ErrInvalidRemote | ErrInvalidBranch | ErrInvalidAction | ErrInvalidScript | ErrInvalidSystemUser.
#[global] Instance deploy_rule_err_eq_dec : EqDecision deploy_rule_err.
Proof. solve_decision. Defined.

Definition MaxRemoteLength : nat := 512.
Definition MaxBranchLength : nat := 255.
Definition MaxDeployScript : Z := 65536.
Definition MinScriptTimeout : Z := 30.
Definition MaxScriptTimeout : Z := 3600.

(** ** Repository addresses *)

(** What follows the last [c], which is [strings.LastIndex]. *)
Fixpoint after_last (c : ascii) (s : string) : option string :=
  match s with
  | "" => None
  | String a t =>
      match after_last c t with
      | Some u => Some u
      | None => if Ascii.eqb a c then Some t else None
      end
  end.

(** A rune below 0x21, or 0x7f; every byte of a longer rune is above both. *)
Definition unprintable (a : ascii) : bool := (nat_of_ascii a <? 33)%nat || (nat_of_ascii a =? 127)%nat.

Definition checkRemoteHost (rest : string) : result deploy_rule_err unit :=
  let '(host, path, _) := cut "/" rest in
  let host := default host (after_last "@" host) in
  let '(name, port, ported) := cut ":" host in
  guard (ported && ((port =? "") || negb (isNumeric port))) ErrInvalidRemote ;?
  guard (name =? "") ErrInvalidRemote ;?
  guard (negb (is_ok (Domain name)) && negb (is_ok (MatchAddress name))) ErrInvalidRemote ;?
  guard (trim_space path =? "") ErrInvalidRemote ;?
  guard (existsb (String.eqb "..") (split "/" path)) ErrInvalidRemote.

Definition GitRemote (remote : string) : result deploy_rule_err unit :=
  let trimmed := trim_space remote in
  guard (trimmed =? "") ErrInvalidRemote ;?
  guard (MaxRemoteLength <? String.length trimmed)%nat ErrInvalidRemote ;?
  guard (negb (trimmed =? remote)) ErrInvalidRemote ;?
  guard (has_prefix "-" trimmed) ErrInvalidRemote ;?
  guard (str_exists unprintable trimmed) ErrInvalidRemote ;?
  if has_prefix "https://" trimmed then checkRemoteHost (trim_prefix "https://" trimmed)
  else if has_prefix "ssh://" trimmed then checkRemoteHost (trim_prefix "ssh://" trimmed)
  else if contains_char "@" trimmed && contains_char ":" trimmed then
    let '(_, rest, _) := cut "@" trimmed in
    let '(host, path, found) := cut ":" rest in
    guard (negb found || (host =? "") || (path =? "")) ErrInvalidRemote ;?
    guard (has_prefix "/" path) ErrInvalidRemote ;?
    checkRemoteHost (host ++ "/" ++ path)
  else Err ErrInvalidRemote.

(** ** Branches and commits *)
Definition branch_char_refused (a : ascii) : bool :=
  (nat_of_ascii a <=? 32)%nat || (nat_of_ascii a =? 127)%nat || contains_char a "~^:?*[\".

Definition GitBranch (branch : string) : result deploy_rule_err unit :=
  let trimmed := trim_space branch in
  guard (trimmed =? "") ErrInvalidBranch ;?
  guard (MaxBranchLength <? String.length trimmed)%nat ErrInvalidBranch ;?
  guard (has_prefix "-" trimmed) ErrInvalidBranch ;?
  guard (has_prefix "." trimmed || has_suffix "." trimmed) ErrInvalidBranch ;?
  guard (has_suffix ".lock" trimmed || has_suffix "/" trimmed) ErrInvalidBranch ;?
  guard (str_contains ".." trimmed || str_contains "@{" trimmed) ErrInvalidBranch ;?
  guard (str_exists branch_char_refused trimmed) ErrInvalidBranch.

Definition CommitSHA (sha : string) : result deploy_rule_err unit :=
  let trimmed := trim_space sha in
  guard ((String.length trimmed <? 7)%nat || (40 <? String.length trimmed)%nat) ErrInvalidAction ;?
  guard (negb (str_forall is_hex trimmed)) ErrInvalidAction.

(** ** Steps, scripts, providers and triggers *)
Definition ActionComposerInstall := "composer.install".
Definition ActionNpmCI := "npm.ci".
Definition ActionNpmInstall := "npm.install".
Definition ActionNpmBuild := "npm.build".
Definition ActionArtisanMigrate := "artisan.migrate".
Definition ActionArtisanOptimise := "artisan.optimise".
Definition ActionScript := "script".
Definition DeployActions : list string :=
  [ActionComposerInstall; ActionNpmCI; ActionNpmInstall; ActionNpmBuild; ActionArtisanMigrate;
   ActionArtisanOptimise; ActionScript].

Definition DeployAction (kind : string) : result deploy_rule_err unit :=
  if one_of DeployActions kind then Ok tt else Err ErrInvalidAction.

Definition DeployScript (script : string) : result deploy_rule_err unit :=
  guard (MaxDeployScript <? Z.of_nat (String.length script))%Z ErrInvalidScript ;?
  guard (contains_char "000" script) ErrInvalidScript.

Definition ScriptTimeout (seconds : Z) : result deploy_rule_err unit :=
  guard ((seconds <? MinScriptTimeout) || (MaxScriptTimeout <? seconds))%Z ErrInvalidScript.

Definition ProviderGitHub := "github".
Definition ProviderGitLab := "gitlab".
Definition ProviderGeneric := "generic".
Definition ProviderNone := "none".
Definition DeployProviders : list string := [ProviderNone; ProviderGitHub; ProviderGitLab; ProviderGeneric].
Definition DeployProvider (provider : string) : result deploy_rule_err unit :=
  if one_of DeployProviders provider then Ok tt else Err ErrInvalidAction.

Definition TriggerManual := "manual".
Definition TriggerWebhook := "webhook".
Definition TriggerRollback := "rollback".
Definition DeployTrigger (trigger : string) : result deploy_rule_err unit :=
  if one_of [TriggerManual; TriggerWebhook; TriggerRollback] trigger then Ok tt else Err ErrInvalidAction.

(** ** The account a site runs as *)
Definition user_start (a : ascii) : bool := is_lower a || Ascii.eqb a "_".
Definition user_char (a : ascii) : bool := is_lower a || is_digit a || contains_char a "_-".

(** [^[a-z_][a-z0-9_-]{0,31}$]. *)
Definition systemUserPattern (name : string) : bool :=
  match name with
  | String a rest => user_start a && str_forall user_char rest && (String.length rest <=? 31)%nat
  | "" => false
  end.

Definition reservedUsers : list string :=
  ["root"; "daemon"; "bin"; "sys"; "sync"; "games"; "man"; "lp"; "mail"; "news"; "uucp"; "proxy";
   "www-data"; "backup"; "list"; "irc"; "nobody"; "systemd-network"; "systemd-resolve"; "messagebus";
   "sshd"; "postgres"; "redis"; "nginx"; "mysql"; "jothost"; "adm"; "shutdown"; "halt"; "operator"].

Definition SystemUser (name : string) : result deploy_rule_err unit :=
  guard (name =? "") ErrInvalidSystemUser ;?
  guard (negb (systemUserPattern name)) ErrInvalidSystemUser ;?
  guard (one_of reservedUsers name) ErrInvalidSystemUser.

Definition GroupName (name : string) : result deploy_rule_err unit :=
  guard (name =? "") ErrInvalidSystemUser ;?
  guard (negb (systemUserPattern name)) ErrInvalidSystemUser.

Example deploy_rules_examples :
  GitRemote "https://example.com/owner/repo.git" = Ok tt /\
  GitRemote "git@example.com:owner/repo.git" = Ok tt /\
  GitRemote "ssh://git@example.com:2222/owner/repo.git" = Ok tt /\
  GitRemote "--upload-pack=touch@example.com:x" = Err ErrInvalidRemote /\
  GitRemote "file:///etc/passwd" = Err ErrInvalidRemote /\
  GitRemote "git@example.com:/etc" = Err ErrInvalidRemote /\
  GitRemote "https://example.com/../x" = Err ErrInvalidRemote /\
  GitRemote "https://example.com:ab/x" = Err ErrInvalidRemote /\
  GitBranch "main" = Ok tt /\ GitBranch "a..b" = Err ErrInvalidBranch /\ GitBranch "x:y" = Err ErrInvalidBranch /\
  CommitSHA "0a1B2c3" = Ok tt /\ CommitSHA "HEAD^^^" = Err ErrInvalidAction /\
  SystemUser "web_shop" = Ok tt /\ SystemUser "root" = Err ErrInvalidSystemUser /\
  SystemUser "a/b" = Err ErrInvalidSystemUser /\ GroupName "nginx" = Ok tt.
Proof. vm_compute. repeat split. Qed.

(** What comes before the first "@" of the short form is not looked at: other transports of git,
    and paths on the host, pass as the name of a user. *)
Example other_transports_pass :
  GitRemote "ext::/srv/run@example.com:x" = Ok tt /\
  GitRemote "file:///srv/other@example.com:x" = Ok tt /\
  GitRemote "/srv/other@example.com:x" = Ok tt /\
  GitRemote "http://me@example.com:80/x.git" = Ok tt.
Proof. vm_compute. repeat split. Qed.

(** ** What an accepted value is made of *)

(** What a program may be handed as one argument: no space, no control character, and not
    read as an option. *)
Definition argument (s : string) : Prop :=
  s <> "" /\ has_prefix "-" s = false /\ str_exists unprintable s = false.

(** The part of an address that names a host: perhaps a user before it and a port after it. *)
Definition authority (a host : string) : Prop :=
  (default a (after_last "@" a) = host \/
   exists port, default a (after_last "@" a) = host ++ ":" ++ port /\ isNumeric port = true) /\
  (Domain host = Ok tt \/ MatchAddress host = Ok tt).

Definition repository_path (path : string) : Prop := trim_space path <> "" /\ ".." ∉ split "/" path.

(** The three forms of an address. *)
Inductive remote_form : string -> Prop :=
| https_form a path host : authority a host -> repository_path path ->
    remote_form ("https://" ++ a ++ "/" ++ path)
| ssh_form a path host : authority a host -> repository_path path ->
    remote_form ("ssh://" ++ a ++ "/" ++ path)
| scp_form user a path : contains_char "@" user = false -> has_prefix "/" path = false ->
    checkRemoteHost (a ++ "/" ++ path) = Ok tt -> remote_form (user ++ "@" ++ a ++ ":" ++ path).

Lemma checkRemoteHost_form rest : checkRemoteHost rest = Ok tt ->
  exists a path host, rest = a ++ "/" ++ path /\ authority a host /\ repository_path path.
Proof.
  unfold checkRemoteHost. destruct (cut "/" rest) as [[a path] b] eqn:Ec.
  destruct (cut ":" (default a (after_last "@" a))) as [[name port] ported] eqn:Ep. intros Hr.
  destruct (ported && _) eqn:E1; [done|]. cbn [guard rbind] in Hr.
  destruct (name =? "") eqn:E2; [done|]. cbn [guard rbind] in Hr.
  destruct (negb (is_ok (Domain name)) && _) eqn:E3; [done|]. cbn [guard rbind] in Hr.
  destruct (trim_space path =? "") eqn:E4; [done|]. cbn [guard rbind] in Hr.
  destruct (existsb _ _) eqn:E5; [done|]. apply String.eqb_neq in E4.
  apply cut_spec in Ec as [_ Ec]. destruct b; [|by destruct Ec as [-> ->]].
  exists a, path, name. split; [done|]. split; [|split; [done|]].
  - split.
    + apply cut_spec in Ep as [_ Ep]. destruct ported; [right|left]; [|by destruct Ep].
      exists port. split; [done|]. cbn in E1. apply orb_false_iff in E1 as [_ E1]. by apply negb_false_iff in E1.
    + destruct (Domain name) as [[]|]; [by left|]. destruct (MatchAddress name) as [[]|]; [by right|done].
  - intros Hin. apply list_elem_of_In in Hin. enough (existsb (String.eqb "..") (split "/" path) = true) by congruence.
    apply existsb_exists. exists "..". split; [done|apply String.eqb_refl].
Qed.

Lemma GitRemote_ok remote : GitRemote remote = Ok tt ->
  argument remote /\ (String.length remote <= MaxRemoteLength)%nat /\ trim_space remote = remote /\ remote_form remote.
Proof.
  unfold GitRemote. intros Hr.
  destruct (trim_space remote =? "") eqn:E1; [done|]. cbn [guard rbind] in Hr. apply String.eqb_neq in E1.
  destruct (_ <? _)%nat eqn:E2; [done|]. cbn [guard rbind] in Hr. apply Nat.ltb_ge in E2.
  destruct (trim_space remote =? remote) eqn:E3; [|done]. cbn [guard rbind negb] in Hr.
  apply String.eqb_eq in E3. rewrite E3 in *.
  destruct (has_prefix "-" remote) eqn:E4; [done|]. cbn [guard rbind] in Hr.
  destruct (str_exists unprintable remote) eqn:E5; [done|]. cbn [guard rbind] in Hr.
  split; [done|]. split; [done|]. split; [done|].
  destruct (has_prefix "https://" remote) eqn:E6.
  { apply has_prefix_spec in E6 as [t ->]. 
    replace (trim_prefix "https://" ("https://" ++ t)) with t in Hr by done.
    apply checkRemoteHost_form in Hr as (a & path & host & -> & Ha & Hp). by eapply https_form. }
  destruct (has_prefix "ssh://" remote) eqn:E7.
  { apply has_prefix_spec in E7 as [t ->].
    replace (trim_prefix "ssh://" ("ssh://" ++ t)) with t in Hr by done.
    apply checkRemoteHost_form in Hr as (a & path & host & -> & Ha & Hp). by eapply ssh_form. }
  destruct (contains_char "@" remote && _) eqn:E8; [|done]. apply andb_true_iff in E8 as [E8 _].
  destruct (cut "@" remote) as [[user rest] b] eqn:Eu. destruct (cut ":" rest) as [[a path] found] eqn:Ea.
  destruct (negb found || _ || _) eqn:E9; [done|]. cbn [guard rbind] in Hr.
  destruct (has_prefix "/" path) eqn:E10; [done|]. cbn [guard rbind] in Hr.
  apply cut_spec in Eu as [Hu Eu]. apply cut_spec in Ea as [_ Ea].
  destruct b; [|destruct Eu; congruence]. destruct found; [|done]. subst. by apply scp_form.
Qed.

(** A text that starts with a hyphen still does when the space around it is gone. *)
Lemma trim_hyphen s : has_prefix "-" s = true -> has_prefix "-" (trim_space s) = true.
Proof.
  intros Hs. apply has_prefix_spec in Hs as [t ->]. unfold trim_space.
  assert (Ht : trim_left ("-" ++ t) = "-" ++ t) by (apply solid_left; by apply (graph_not_space "-")).
  rewrite Ht. cbn [String.append trim_right]. change (String "-" t) with ("-" ++ t). by rewrite Ht.
Qed.

Lemma GitBranch_ok branch : GitBranch branch = Ok tt ->
  argument (trim_space branch) /\ has_prefix "-" branch = false /\
  (String.length (trim_space branch) <= MaxBranchLength)%nat /\ str_exists branch_char_refused (trim_space branch) = false.
Proof.
  unfold GitBranch. intros Hr.
  destruct (trim_space branch =? "") eqn:E1; [done|]. cbn [guard rbind] in Hr. apply String.eqb_neq in E1.
  destruct (_ <? _)%nat eqn:E2; [done|]. cbn [guard rbind] in Hr. apply Nat.ltb_ge in E2.
  destruct (has_prefix "-" (trim_space branch)) eqn:E3; [done|]. cbn [guard rbind] in Hr.
  destruct (_ || _) eqn:E4 in Hr; [done|]. cbn [guard rbind] in Hr.
  destruct (_ || _) eqn:E5 in Hr; [done|]. cbn [guard rbind] in Hr.
  destruct (_ || _) eqn:E6 in Hr; [done|]. cbn [guard rbind] in Hr.
  destruct (str_exists _ _) eqn:E7; [done|]. split_and!; try done.
  - split_and!; [done|done|]. rewrite str_exists_negb, negb_false_iff in E7 |- *. eapply str_forall_impl; [|exact E7].
    intros a Ha. apply negb_true_iff in Ha. apply negb_true_iff.
    unfold branch_char_refused, unprintable in *. apply orb_false_iff in Ha as [Ha _].
    apply orb_false_iff in Ha as [Ha ->]. rewrite orb_false_r. apply Nat.leb_gt in Ha. apply Nat.ltb_ge. lia.
  - destruct (has_prefix "-" branch) eqn:Eb; [|done]. by rewrite trim_hyphen in E3.
Qed.

Lemma CommitSHA_ok sha : CommitSHA sha = Ok tt ->
  argument (trim_space sha) /\ has_prefix "-" sha = false /\ str_forall is_hex (trim_space sha) = true /\
  (7 <= String.length (trim_space sha) <= 40)%nat.
Proof.
  unfold CommitSHA. intros Hr.
  destruct (_ || _) eqn:E1 in Hr; [done|]. cbn [guard rbind] in Hr.
  destruct (str_forall is_hex (trim_space sha)) eqn:E2; [|done].
  apply orb_false_iff in E1 as [E1 E3]. apply Nat.ltb_ge in E1, E3.
  assert (Hh : has_prefix "-" (trim_space sha) = false).
  { destruct (has_prefix "-" (trim_space sha)) eqn:E; [|done]. apply has_prefix_spec in E as [t Et]. by rewrite Et in E2. }
  split_and!; try done.
  - split_and!; [intros E; rewrite E in E1; inversion E1|done|].
    rewrite str_exists_negb, negb_false_iff. eapply str_forall_impl; [|exact E2].
    intros a Ha. apply negb_true_iff. revert Ha. each_char a.
  - destruct (has_prefix "-" sha) eqn:Eb; [|done]. by rewrite trim_hyphen in Hh.
Qed.

Lemma SystemUser_ok name : SystemUser name = Ok tt ->
  name <> "" /\ str_forall user_char name = true /\ (String.length name <= 32)%nat /\ name ∉ reservedUsers.
Proof.
  unfold SystemUser. intros Hr. destruct (name =? "") eqn:E1; [done|]. cbn [guard rbind] in Hr.
  destruct (systemUserPattern name) eqn:E2; [|done]. cbn [guard rbind negb] in Hr.
  destruct (one_of reservedUsers name) eqn:E3; [done|]. destruct name as [|a rest]; [done|].
  cbn [systemUserPattern] in E2. apply andb_true_iff in E2 as [E2 El]. apply andb_true_iff in E2 as [Ea Er].
  apply Nat.leb_le in El. split_and!; [done| |cbn; lia|].
  - cbn. rewrite Er, andb_true_r. unfold user_start in Ea. unfold user_char. apply orb_true_iff in Ea as [->|Ea]; [done|].
    apply Ascii.eqb_eq in Ea as ->. done.
  - intros Hin. apply one_of_spec in Hin. congruence.
Qed.
