(* ===== verification/CommandRunner.v ===== *)
(** * Running programs ([agent/internal/command/])

    The allowlist, the checks of arguments and environment, one execution with its bounds, and
    a program left running. The machine is its files and directories, the processes started on
    it so far, and everything else; what a process does to it is a parameter. *)

From stdpp Require Import gmap sorting.
From S2P Require Import Prelude Store GoStr GoTime TenancyRules.

#[local] Open Scope string_scope.
#[local] Open Scope store_scope.

(** ** The machine *)
Record File := { f_Content : string; f_UID : Z; f_GID : Z; f_Mode : Z }.

Inductive Input := NoInput | InputText (s : string) | InputFile (path : string).
(** Where the output of a program left running goes, and that it has a session of its own. *)
Record Background := { b_Stdout : string; b_Stderr : string }.

Record Process := {
  p_Path : string; p_Args : list string; p_Env : list string; p_Dir : string; p_Stdin : Input;
  p_Credential : option (Z * Z);       (** user and group, or the Agent's own *)
  p_Limit : option Z;                  (** how long it may run *)
  p_Background : option Background }.

Record Machine (T : Type) := {
  fs : gmap string File;               (** files by path, symbolic links followed *)
  dirs : gmap string Z;                (** directories and their modes *)
  rest : T;
  ran : list Process;                  (** the processes started so far, the first one first *)
  m_faults : list fault }.
Arguments fs {T} _.
Arguments dirs {T} _.
Arguments rest {T} _.
Arguments ran {T} _.
Arguments m_faults {T} _.

Definition set_fs {T} (m : gmap string File) (h : Machine T) : Machine T := {|
  fs := m; dirs := dirs h; rest := rest h; ran := ran h; m_faults := m_faults h |}.
Definition set_dirs {T} (m : gmap string Z) (h : Machine T) : Machine T := {|
  fs := fs h; dirs := m; rest := rest h; ran := ran h; m_faults := m_faults h |}.
Definition set_ran {T} (l : list Process) (h : Machine T) : Machine T := {|
  fs := fs h; dirs := dirs h; rest := rest h; ran := l; m_faults := m_faults h |}.
#[global] Instance Machine_faulty T : Faulty (Machine T) := {
  faults_of := m_faults;
  with_faults l h := {| fs := fs h; dirs := dirs h; rest := rest h; ran := ran h; m_faults := l |} }.

(** A system call: it takes effect, or it fails and does nothing. *)
Definition io {T E A} (down : E) (f : Machine T -> result E A * Machine T) : Store.M (Machine T) E A :=
  fun h => match m_faults h with
           | [] => f h
           | Fine :: l => f (with_faults l h)
           | _ :: l => (Err down, with_faults l h)
           end.

(** ** Specs and the runner ([command.go]) *)
Inductive run_err :=
| ErrNotAllowed | ErrNotAbsolute | ErrInvalidArg | ErrTimeout | ErrOutputTooLarge | ErrUnavailable
| NoSpecs | NoName | DuplicateSpec | OpenFailed | RunFailed.
#[global] Instance run_err_eq_dec : EqDecision run_err.
Proof. solve_decision. Defined.

Definition DefaultTimeout : Z := (30 * Second)%Z.
Definition DefaultMaxOutput : Z := 1048576.
Definition maxArgs : nat := 64.
Definition maxArgLength : Z := 4096.

Record Spec := {
  s_Name : string; s_Path : string; s_Timeout : Z; s_MaxOutput : Z; AllowedEnv : list string; AllowAnyEnv : bool }.
Record Runner := { specs : gmap string Spec; r_env : list string }.

Definition base_env : list string :=
  ["PATH=/usr/local/sbin:/usr/local/bin:/usr/sbin:/usr/bin:/sbin:/bin"; "LC_ALL=C"; "LANG=C"].

Definition with_defaults (s : Spec) : Spec := {|
  s_Name := s_Name s; s_Path := s_Path s;
  s_Timeout := if (s_Timeout s <=? 0)%Z then DefaultTimeout else s_Timeout s;
  s_MaxOutput := if (s_MaxOutput s <=? 0)%Z then DefaultMaxOutput else s_MaxOutput s;
  AllowedEnv := AllowedEnv s; AllowAnyEnv := AllowAnyEnv s |}.

Fixpoint add_specs (l : list Spec) (byName : gmap string Spec) : result run_err (gmap string Spec) :=
  match l with
  | [] => Ok byName
  | s :: l =>
      guard (s_Name s =? "") NoName ;?
      guard (negb (is_abs (s_Path s))) ErrNotAbsolute ;?
      guard (bool_decide (is_Some (byName !! s_Name s))) DuplicateSpec ;?
      add_specs l (<[s_Name s := with_defaults s]> byName)
  end.
Definition NewRunner (l : list Spec) : result run_err Runner :=
  guard (bool_decide (l = [])) NoSpecs ;?
  let? byName := add_specs l ∅ in Ok {| specs := byName; r_env := base_env |}.

Record Options := {
  o_Stdin : string; o_StdinFile : string; o_Env : gmap string string; o_Dir : string;
  o_UID : Z; o_GID : Z; SetCredential : bool }.
Definition no_options : Options := {|
  o_Stdin := ""; o_StdinFile := ""; o_Env := ∅; o_Dir := ""; o_UID := 0; o_GID := 0; SetCredential := false |}.

Record Result := { ExitCode : Z; Stdout : string; Stderr : string; TimedOut : bool }.
Definition Succeeded (r : Result) : bool := (ExitCode r =? 0)%Z && negb (TimedOut r).

(** ** Arguments and environment *)
Definition argument_ok (arg : string) : bool :=
  (Z.of_nat (String.length arg) <=? maxArgLength)%Z && negb (contains_char "000" arg) &&
  negb (str_exists (fun a => Ascii.eqb a "010" || Ascii.eqb a "013") arg).
Definition validateArgs (args : list string) : result run_err unit :=
  guard (maxArgs <? length args)%nat ErrInvalidArg ;?
  guard (negb (forallb argument_ok args)) ErrInvalidArg.

Definition value_ok (v : string) : bool :=
  negb (str_exists (fun a => Ascii.eqb a "000" || Ascii.eqb a "010" || Ascii.eqb a "013") v).

(** The order of [sort.Strings]. *)
Definition name_le (a b : string) : Prop := String.leb a b = true.
#[global] Instance name_le_dec : RelDecision name_le := fun a b => bool_eq_dec _ _.

Fixpoint assignments (extra : gmap string string) (names : list string) : result run_err (list string) :=
  match names with
  | [] => Ok []
  | name :: names =>
      let value := default "" (extra !! name) in
      guard (negb (value_ok value)) ErrInvalidArg ;?
      let? more := assignments extra names in Ok ((name ++ "=" ++ value) :: more)
  end.
Definition environment (r : Runner) (spec : Spec) (extra : gmap string string) : result run_err (list string) :=
  if bool_decide (extra = ∅) then Ok (r_env r)
  else
    let names := map fst (map_to_list extra) in
    guard (negb (AllowAnyEnv spec) && negb (forallb (one_of (AllowedEnv spec)) names)) ErrNotAllowed ;?
    let? added := assignments extra (merge_sort name_le names) in
    Ok (r_env r ++ added)%list.

(** ** Output under a cap *)
Record cappedBuffer := { buf : string; limit : Z; truncated : bool }.
Definition write_capped (c : cappedBuffer) (p : string) : cappedBuffer :=
  let remaining := (limit c - Z.of_nat (String.length (buf c)))%Z in
  if (remaining <=? 0)%Z then {| buf := buf c; limit := limit c; truncated := true |}
  else if (remaining <? Z.of_nat (String.length p))%Z then
    {| buf := buf c ++ String.substring 0 (Z.to_nat remaining) p; limit := limit c; truncated := true |}
  else {| buf := buf c ++ p; limit := limit c; truncated := truncated c |}.
Definition collect (max : Z) (chunks : list string) : cappedBuffer :=
  fold_left write_capped chunks {| buf := ""; limit := max; truncated := false |}.

(** How a process ended, and what it wrote, piece by piece. *)
Inductive ending :=
| Exited (code : Z)                    (** the status, -1 for a signal *)
| OverDeadline
| PipeHeld (code : Z)                  (** it exited, but something it started holds the pipe *)
| NotStarted.
Record Raw := { r_End : ending; r_Out : list string; r_Err : list string }.

Definition outcome (spec : Spec) (raw : Raw) : result run_err Result :=
  let stdout := collect (s_MaxOutput spec) (r_Out raw) in
  let stderr := collect (s_MaxOutput spec) (r_Err raw) in
  let exited code := {| ExitCode := code; Stdout := buf stdout; Stderr := buf stderr; TimedOut := false |} in
  match r_End raw with
  | OverDeadline => Err ErrTimeout
  | PipeHeld code => Ok (exited code)
  | NotStarted => Err RunFailed
  | Exited code =>
      if negb (code =? 0)%Z then Ok (exited code)
      else if truncated stdout || truncated stderr then Err ErrOutputTooLarge
      else Ok (exited code)
  end.

(** The type of an account in the kernel. *)
Definition uint32 (z : Z) : Z := (z mod 2 ^ 32)%Z.

Section run.
Context {T : Type} (launch : Process -> Machine T -> Raw * Machine T).
Context (spawn : Process -> Machine T -> option Z * Machine T).
Local Abbreviation M := (Store.M (Machine T) run_err).

(** A regular file with an execute bit. *)
Definition isExecutable (path : string) (h : Machine T) : bool :=
  match fs h !! path with Some f => negb (Z.land (f_Mode f) 73 =? 0)%Z | None => false end.

Definition Available (r : Runner) (name : string) (h : Machine T) : bool :=
  match specs r !! name with Some spec => isExecutable (s_Path spec) h | None => false end.

Definition execute (p : Process) : M Raw := fun h =>
  let '(raw, h') := launch p h in (Ok raw, set_ran (ran h ++ [p])%list h').

(** [left] is what remains of the caller's own deadline. *)
Definition bounded (left : option Z) (spec : Spec) : Z :=
  match left with Some t => Z.min t (s_Timeout spec) | None => s_Timeout spec end.

Definition process_of (spec : Spec) (env : list string) (left : option Z) (opts : Options) (args : list string)
  (stdin : Input) : Process := {|
  p_Path := s_Path spec; p_Args := args; p_Env := env;
  p_Dir := if o_Dir opts =? "" then "/" else o_Dir opts; p_Stdin := stdin;
  p_Credential := if SetCredential opts then Some (uint32 (o_UID opts), uint32 (o_GID opts)) else None;
  p_Limit := Some (bounded left spec); p_Background := None |}.

Definition RunWith (r : Runner) (left : option Z) (name : string) (opts : Options) (args : list string) : M Result :=
  match specs r !! name with
  | None => fail ErrNotAllowed
  | Some spec =>
      answer (validateArgs args) ;!
      let! env := answer (environment r spec (o_Env opts)) in
      let! found := get (isExecutable (s_Path spec)) in
      if negb found then fail ErrUnavailable
      else
        answer (guard (negb (o_Dir opts =? "") && negb (has_prefix "/" (o_Dir opts))) ErrInvalidArg) ;!
        answer (guard (negb (o_Stdin opts =? "") && negb (o_StdinFile opts =? "")) ErrInvalidArg) ;!
        let! stdin :=
          if negb (o_StdinFile opts =? "") then
            answer (guard (negb (has_prefix "/" (o_StdinFile opts))) ErrInvalidArg) ;!
            io OpenFailed (fun h => (if bool_decide (is_Some (fs h !! o_StdinFile opts))
                                     then Ok (InputFile (o_StdinFile opts)) else Err OpenFailed, h))
          else ret (if o_Stdin opts =? "" then NoInput else InputText (o_Stdin opts)) in
        let! raw := execute (process_of spec env left opts args stdin) in
        answer (outcome spec raw)
  end.

Definition Run (r : Runner) (left : option Z) (name : string) (args : list string) : M Result :=
  RunWith r left name no_options args.

(** ** A program left running ([detached.go]) *)
Record DetachedOptions := {
  d_Dir : string; d_Env : gmap string string; d_Stdout : string; d_Stderr : string;
  d_UID : Z; d_GID : Z; d_SetCredential : bool }.

(** Its log, created if there is none, and given to the account it runs as. *)
Definition openLog (path : string) (uid gid : Z) (own : bool) : M unit :=
  if path =? "" then ret tt
  else
    answer (guard (negb (has_prefix "/" path)) ErrInvalidArg) ;!
    io OpenFailed (fun h =>
      (Ok tt, match fs h !! path with
              | Some _ => h
              | None => set_fs (<[path := {| f_Content := ""; f_UID := 0; f_GID := 0; f_Mode := 416 |}]> (fs h)) h
              end)) ;!
    if own then
      io OpenFailed (fun h =>
        (Ok tt, set_fs (alter (fun f => {| f_Content := f_Content f; f_UID := uid; f_GID := gid; f_Mode := f_Mode f |})
                          path (fs h)) h))
    else ret tt.

Definition StartDetached (r : Runner) (name : string) (opts : DetachedOptions) (args : list string) : M Z :=
  match specs r !! name with
  | None => fail ErrNotAllowed
  | Some spec =>
      answer (validateArgs args) ;!
      let! env := answer (environment r spec (d_Env opts)) in
      let! found := get (isExecutable (s_Path spec)) in
      if negb found then fail ErrUnavailable
      else
        answer (guard ((d_Dir opts =? "") || negb (has_prefix "/" (d_Dir opts))) ErrInvalidArg) ;!
        openLog (d_Stdout opts) (d_UID opts) (d_GID opts) (d_SetCredential opts) ;!
        (if negb (d_Stderr opts =? "") && negb (d_Stderr opts =? d_Stdout opts)
         then openLog (d_Stderr opts) (d_UID opts) (d_GID opts) (d_SetCredential opts) else ret tt) ;!
        let p := {|
          p_Path := s_Path spec; p_Args := args; p_Env := env; p_Dir := d_Dir opts; p_Stdin := NoInput;
          p_Credential := if d_SetCredential opts then Some (uint32 (d_UID opts), uint32 (d_GID opts)) else None;
          p_Limit := None;
          p_Background := Some {| b_Stdout := d_Stdout opts;
            b_Stderr := if negb (d_Stderr opts =? "") then d_Stderr opts else d_Stdout opts |} |} in
        fun h => match spawn p h with
                 | (Some pid, h') => (Ok pid, set_ran (ran h ++ [p])%list h')
                 | (None, h') => (Err RunFailed, h')
                 end
  end.
End run.

(** ** The allowlist is what runs *)

(** A runner's table: every program has an absolute path, a deadline and a cap. *)
Definition spec_ok (name : string) (s : Spec) : Prop :=
  s_Name s = name /\ is_abs (s_Path s) = true /\ (0 < s_Timeout s)%Z /\ (0 < s_MaxOutput s)%Z.

Lemma with_defaults_ok s : is_abs (s_Path s) = true -> spec_ok (s_Name s) (with_defaults s).
Proof.
  intros Hp. unfold spec_ok, with_defaults. cbn. split_and!; [done|done|..].
  - destruct (Z.leb_spec (s_Timeout s) 0); [done|lia].
  - destruct (Z.leb_spec (s_MaxOutput s) 0); [done|lia].
Qed.

Lemma add_specs_ok l : forall byName byName', map_Forall spec_ok byName -> add_specs l byName = Ok byName' ->
  map_Forall spec_ok byName' /\
  forall name s, byName' !! name = Some s -> byName !! name = Some s \/ exists s0, s0 ∈ l /\ s = with_defaults s0.
Proof.
  induction l as [|s l IH]; intros m m' Hm Ha; cbn [add_specs] in Ha; [injection Ha as <-; auto|].
  destruct (s_Name s =? "") eqn:E1; [done|]. cbn [guard rbind] in Ha.
  destruct (is_abs (s_Path s)) eqn:E2; [|done]. cbn [guard rbind negb] in Ha.
  destruct (bool_decide _); [done|]. cbn [guard rbind] in Ha.
  apply IH in Ha as [Hf Hl].
  - split; [done|]. intros name s' Hs. destruct (Hl _ _ Hs) as [Hi|(s0 & Hin & ->)].
    + apply lookup_insert_Some in Hi as [[_ <-]|[_ Hi]]; [right|by left].
      exists s. split; [apply list_elem_of_here|done].
    + right. exists s0. split; [by apply list_elem_of_further|done].
  - apply map_Forall_insert_2; [by apply with_defaults_ok|done].
Qed.

Lemma NewRunner_ok l r : NewRunner l = Ok r ->
  r_env r = base_env /\ map_Forall spec_ok (specs r) /\
  forall name s, specs r !! name = Some s -> exists s0, s0 ∈ l /\ s = with_defaults s0.
Proof.
  unfold NewRunner. intros Hn. destruct (bool_decide _); [done|]. cbn [guard rbind] in Hn.
  destruct (add_specs l ∅) as [m|] eqn:E; [|done]. injection Hn as <-.
  apply add_specs_ok in E as [Hf Hl]; [|apply map_Forall_empty]. split; [done|]. split; [done|]. cbn.
  intros name s Hs. destruct (Hl _ _ Hs) as [Hi|?]; [by rewrite lookup_empty in Hi|done].
Qed.

(** What one variable of a child's environment may be. *)
Definition variable_ok (r : Runner) (spec : Spec) (v : string) : Prop :=
  v ∈ r_env r \/ exists name value, v = name ++ "=" ++ value /\ value_ok value = true /\
    (AllowAnyEnv spec = true \/ name ∈ AllowedEnv spec).

Lemma assignments_ok extra names : forall env, assignments extra names = Ok env ->
  Forall (fun v => exists name value, v = name ++ "=" ++ value /\ value_ok value = true /\ name ∈ names) env.
Proof.
  induction names as [|name names IH]; intros env He; cbn [assignments] in He; [by injection He as <-|].
  destruct (value_ok _) eqn:Ev; [|done]. cbn [guard rbind negb] in He.
  destruct (assignments extra names) as [more|]; [|done]. injection He as <-.
  constructor; [exists name, (default "" (extra !! name)); split_and!; [done|done|apply list_elem_of_here]|].
  eapply list.Forall_impl; [by apply IH|]. intros v (n & x & -> & Hx & Hn). exists n, x. split_and!; [done|done|].
  by apply list_elem_of_further.
Qed.

Lemma environment_ok r spec extra env : environment r spec extra = Ok env -> Forall (variable_ok r spec) env.
Proof.
  unfold environment. destruct (bool_decide _).
  { intros [= <-]. rewrite list.Forall_forall. by left. }
  destruct (_ && _) eqn:E; [done|]. cbn [guard rbind].
  destruct (assignments _ _) as [added|] eqn:Ea; [|done]. intros [= <-]. apply Forall_app. split.
  { rewrite list.Forall_forall. by left. }
  eapply list.Forall_impl; [by eapply assignments_ok|]. intros v (n & x & -> & Hx & Hn).
  right. exists n, x. split_and!; [done|done|]. rewrite merge_sort_Permutation in Hn.
  apply andb_false_iff in E as [E|E]; apply negb_false_iff in E; [by left|right].
  rewrite forallb_forall in E. apply one_of_spec, E. by apply list_elem_of_In.
Qed.

Lemma environment_succeeds r spec (extra : gmap string string) :
  Forall (fun x => one_of (AllowedEnv spec) (fst x) = true /\ value_ok (snd x) = true) (map_to_list extra) ->
  exists env, environment r spec extra = Ok env.
Proof.
  intros Hx. unfold environment. case_bool_decide; [by eexists|].
  assert (Hn : forallb (one_of (AllowedEnv spec)) (map fst (map_to_list extra)) = true).
  { apply forallb_forall. intros n Hn. apply in_map_iff in Hn as ([k v] & <- & Hin).
    rewrite list.Forall_forall in Hx. by apply Hx, list_elem_of_In. }
  rewrite Hn, andb_false_r. cbn [guard rbind].
  enough (exists added, assignments extra (merge_sort name_le (map fst (map_to_list extra))) = Ok added) as [added ->]
    by by eexists.
  assert (Hv : forall n, n ∈ merge_sort name_le (map fst (map_to_list extra)) -> value_ok (default "" (extra !! n)) = true).
  { intros n Hin. rewrite merge_sort_Permutation in Hin. apply list_elem_of_In, in_map_iff in Hin as ([k v] & <- & Hin).
    apply list_elem_of_In, elem_of_map_to_list in Hin as Hl. cbn. rewrite Hl. cbn.
    rewrite list.Forall_forall in Hx. apply (Hx (k, v)). by apply elem_of_map_to_list. }
  clear Hn. induction (merge_sort name_le _) as [|n l IH]; cbn [assignments]; [by eexists|].
  rewrite (Hv n) by apply list_elem_of_here. cbn [guard rbind negb].
  destruct IH as [more ->]; [|by eexists]. intros m Hm. apply Hv. by apply list_elem_of_further.
Qed.

Section runs.
Context {T : Type} (launch : Process -> Machine T -> Raw * Machine T).

(** What is checked before a process is started. *)
Definition checked (r : Runner) (name : string) (opts : Options) (args : list string) (h : Machine T)
  (spec : Spec) (env : list string) : Prop :=
  specs r !! name = Some spec /\ validateArgs args = Ok tt /\ environment r spec (o_Env opts) = Ok env /\
  isExecutable (s_Path spec) h = true /\ (o_Dir opts = "" \/ has_prefix "/" (o_Dir opts) = true).

(** Either nothing is started, or one process that passed the checks. *)
Lemma RunWith_runs r left name opts args h :
  (exists e l, RunWith launch r left name opts args h = (Err e, with_faults l h) /\ (o_StdinFile opts = "" -> l = m_faults h)) \/
  exists spec env stdin l, checked r name opts args h spec env /\
    (o_StdinFile opts = "" -> l = m_faults h /\ stdin = if o_Stdin opts =? "" then NoInput else InputText (o_Stdin opts)) /\
    RunWith launch r left name opts args h =
      (let! raw := execute launch (process_of spec env left opts args stdin) in answer (outcome spec raw)) (with_faults l h).
Proof.
  assert (Hself : h = with_faults (m_faults h) h) by by destruct h.
  assert (Hfail : forall e, exists e' l, (Err e, h) = (@Err run_err Result e', with_faults l h) /\
    (o_StdinFile opts = "" -> l = m_faults h)) by (intros e; exists e, (m_faults h); by rewrite <- Hself).
  unfold RunWith. destruct (specs r !! name) as [spec|] eqn:Es; [|left; apply Hfail].
  unfold bind, answer, get, ret. destruct (validateArgs args) as [[]|e] eqn:Ea; [|left; apply Hfail].
  destruct (environment r spec (o_Env opts)) as [env|e] eqn:Ee; [|left; apply Hfail].
  destruct (isExecutable (s_Path spec) h) eqn:Ex; [|left; apply Hfail]. cbn [negb].
  destruct (negb (o_Dir opts =? "") && _) eqn:Ed; [left; apply Hfail|]. cbn [guard].
  destruct (negb (o_Stdin opts =? "") && _) eqn:Ei; [left; apply Hfail|]. cbn [guard].
  assert (Hd : o_Dir opts = "" \/ has_prefix "/" (o_Dir opts) = true).
  { apply andb_false_iff in Ed as [Ed|Ed]; apply negb_false_iff in Ed; [left; by apply String.eqb_eq|by right]. }
  assert (Hc : checked r name opts args h spec env) by by unfold checked; split_and!.
  destruct (String.eqb_spec (o_StdinFile opts) "") as [Hf|Hf]; cbn [negb].
  - right. exists spec, env, (if o_Stdin opts =? "" then NoInput else InputText (o_Stdin opts)), (m_faults h).
    by rewrite <- Hself.
  - destruct (negb (has_prefix "/" (o_StdinFile opts))); [left; apply Hfail|]. cbn [guard]. unfold io.
    destruct (m_faults h) as [|[] l] eqn:Eh; [| |left; by exists OpenFailed, l..];
      destruct (bool_decide _); try (left; first [by exists OpenFailed, l|by apply Hfail]); right.
    + exists spec, env, (InputFile (o_StdinFile opts)), []. by rewrite <- Hself.
    + by exists spec, env, (InputFile (o_StdinFile opts)), l.
Qed.

(** C14: Whatever is asked of the runner, with whatever options and arguments, and whatever programs do:
    at most one process is started, of a program of the list the Agent was built with, at its
    absolute path, with arguments free of null bytes and line breaks, an environment made of the
    fixed one and of allowed variables, an absolute working directory, and a deadline no longer
    than its own; and a request that starts nothing changes nothing. *)
Theorem only_allowlisted_programs_run l r left name opts args h res h' :
  NewRunner l = Ok r -> RunWith launch r left name opts args h = (res, h') ->
  (fs h' = fs h /\ dirs h' = dirs h /\ rest h' = rest h /\ ran h' = ran h /\ is_ok res = false) \/
  exists p spec, ran h' = (ran h ++ [p])%list /\ spec ∈ l /\ s_Name spec = name /\
    p_Path p = s_Path spec /\ is_abs (p_Path p) = true /\ isExecutable (p_Path p) h = true /\
    p_Args p = args /\ forallb argument_ok args = true /\ (length args <= maxArgs)%nat /\
    Forall (fun v => v ∈ base_env \/ exists name value, v = name ++ "=" ++ value /\ value_ok value = true /\
              (AllowAnyEnv spec = true \/ name ∈ AllowedEnv spec)) (p_Env p) /\
    has_prefix "/" (p_Dir p) = true /\
    p_Credential p = (if SetCredential opts then Some (uint32 (o_UID opts), uint32 (o_GID opts)) else None) /\
    exists t, p_Limit p = Some t /\ (t <= s_Timeout (with_defaults spec))%Z.
Proof.
  intros Hn Hr. apply NewRunner_ok in Hn as (He & Hf & Hl).
  destruct (RunWith_runs r left name opts args h) as [(e & k & Ek & _)|(spec & env & stdin & k & Hc & _ & Ek)];
    rewrite Ek in Hr; [by left; injection Hr as <- <-|right].
  destruct Hc as (Hs & Ha & Henv & Hx & Hd). destruct (Hl _ _ Hs) as (s0 & Hin & ->).
  destruct (Hf _ _ Hs) as (Hname & Habs & _). unfold bind, execute, answer in Hr.
  destruct (launch _ _) as [raw h1]. injection Hr as _ <-.
  eexists _, s0. split; [done|]. unfold validateArgs in Ha.
  destruct (_ <? _)%nat eqn:El; [done|]. cbn [guard rbind] in Ha. apply Nat.ltb_ge in El.
  destruct (forallb argument_ok args) eqn:Eg; [|done].
  split_and!; try done.
  - rewrite <- He. by apply environment_ok in Henv.
  - unfold process_of. cbn. destruct Hd as [->|Hd]; [done|]. by destruct (o_Dir opts =? "").
  - eexists. split; [done|]. unfold bounded. destruct left; [apply Z.le_min_r|reflexivity].
Qed.
End runs.

(** ** What is kept of the output

    The first [max] bytes of everything written, and whether there was more. *)
Definition concat_all (chunks : list string) : string := foldr String.append "" chunks.

Lemma substring_0_le n s : (String.length s <= n)%nat -> String.substring 0 n s = s.
Proof. revert n. induction s as [|a s IH]; intros [|n] Hn; cbn in *; try done; [lia|]. by rewrite IH by lia. Qed.

Lemma substring_0_app n s t :
  String.substring 0 n (s ++ t) = String.substring 0 n s ++ String.substring 0 (n - String.length s) t.
Proof.
  revert n. induction s as [|a s IH]; intros n; [cbn; by rewrite Nat.sub_0_r; destruct n|].
  destruct n as [|n]; cbn; [by destruct t|]. by rewrite IH.
Qed.

Lemma write_capped_keeps max s p c : (0 <= max)%Z ->
  buf c = String.substring 0 (Z.to_nat max) s -> limit c = max ->
  buf (write_capped c p) = String.substring 0 (Z.to_nat max) (s ++ p) /\ limit (write_capped c p) = max.
Proof.
  intros Hm Hb Hl. rewrite substring_0_app, <- Hb. unfold write_capped. rewrite Hl.
  assert (Hlen : String.length (buf c) = Nat.min (Z.to_nat max) (String.length s)).
  { rewrite Hb. clear. generalize (Z.to_nat max). intros n. revert n. induction s as [|a s IH]; intros [|n]; cbn; auto. }
  destruct (Z.leb_spec (max - Z.of_nat (String.length (buf c))) 0); cbn.
  { split; [|done]. replace (Z.to_nat max - String.length s)%nat with 0%nat by lia. by destruct p; rewrite app_nil_r_str. }
  assert (String.length (buf c) = String.length s) as <- by lia.
  destruct (Z.ltb_spec (max - Z.of_nat (String.length (buf c))) (Z.of_nat (String.length p))); cbn; (split; [|done]).
  - f_equal. f_equal. lia.
  - by rewrite (substring_0_le _ p) by lia.
Qed.

Lemma collect_keeps max chunks : (0 <= max)%Z ->
  buf (collect max chunks) = String.substring 0 (Z.to_nat max) (concat_all chunks).
Proof.
  intros Hm. unfold collect.
  assert (Hg : forall c s, buf c = String.substring 0 (Z.to_nat max) s -> limit c = max ->
    buf (fold_left write_capped chunks c) = String.substring 0 (Z.to_nat max) (s ++ concat_all chunks)).
  { induction chunks as [|p chunks IH]; intros c s Hb Hl; cbn; [by rewrite app_nil_r_str|].
    destruct (write_capped_keeps max s p c Hm Hb Hl) as [Hb' Hl']. rewrite (IH _ _ Hb' Hl'). by rewrite app_assoc_str. }
  rewrite (Hg _ ""); [done| |done]. by destruct (Z.to_nat max).
Qed.

(** Less than the cap is kept whole. *)
Lemma collect_whole max chunks : (Z.of_nat (String.length (concat_all chunks)) < max)%Z ->
  buf (collect max chunks) = concat_all chunks /\ truncated (collect max chunks) = false.
Proof.
  intros Hm. split; [rewrite collect_keeps by lia; apply substring_0_le; lia|]. unfold collect.
  assert (Hg : forall c, limit c = max -> truncated c = false ->
    (Z.of_nat (String.length (buf c) + String.length (concat_all chunks)) < max)%Z ->
    truncated (fold_left write_capped chunks c) = false).
  { clear. induction chunks as [|x chunks IH]; intros c Hl Ht Hn; [done|]. cbn [fold_left].
    change (concat_all (x :: chunks)) with (x ++ concat_all chunks) in Hn. rewrite length_app_str in Hn. unfold write_capped. rewrite Hl.
    destruct (Z.leb_spec (max - Z.of_nat (String.length (buf c))) 0); [lia|].
    destruct (Z.ltb_spec (max - Z.of_nat (String.length (buf c))) (Z.of_nat (String.length x))); [lia|].
    apply IH; [done|done|]. cbn [buf]. rewrite length_app_str. lia. }
  by apply Hg.
Qed.

(** A status other than zero is an answer, and so is a program that left its pipe open;
    zero with too much output is a failure. *)
Example endings :
  let spec := {| s_Name := "x"; s_Path := "/x"; s_Timeout := 1; s_MaxOutput := 3; AllowedEnv := []; AllowAnyEnv := false |} in
  outcome spec {| r_End := Exited 2; r_Out := ["ab"; "cd"]; r_Err := [] |} =
    Ok {| ExitCode := 2; Stdout := "abc"; Stderr := ""; TimedOut := false |} /\
  outcome spec {| r_End := Exited 0; r_Out := ["ab"; "cd"]; r_Err := [] |} = Err ErrOutputTooLarge /\
  outcome spec {| r_End := PipeHeld 0; r_Out := ["a"]; r_Err := [] |} =
    Ok {| ExitCode := 0; Stdout := "a"; Stderr := ""; TimedOut := false |} /\
  outcome spec {| r_End := OverDeadline; r_Out := []; r_Err := [] |} = Err ErrTimeout.
Proof. vm_compute. repeat split. Qed.

(** An account number of more than 32 bits is cut to another account's. *)
Example cut_account_is_root : uint32 4294967296 = 0%Z.
Proof. reflexivity. Qed.

Module Small.
Definition echo (p : Process) (h : Machine unit) : Raw * Machine unit :=
  ({| r_End := Exited 0; r_Out := p_Args p; r_Err := [] |}, h).
Definition spec : Spec := {|
  s_Name := "echo"; s_Path := "/bin/echo"; s_Timeout := 0; s_MaxOutput := 0; AllowedEnv := ["HOME"]; AllowAnyEnv := false |}.
Definition runner : Runner := {| specs := {["echo" := with_defaults spec]}; r_env := base_env |}.
Definition machine : Machine unit := {|
  fs := {["/bin/echo" := {| f_Content := ""; f_UID := 0; f_GID := 0; f_Mode := 493 |}]};
  dirs := ∅; rest := tt; ran := []; m_faults := [] |}.
Definition opts : Options := {|
  o_Stdin := ""; o_StdinFile := ""; o_Env := {["HOME" := "/home/a"]}; o_Dir := "/srv"; o_UID := 1000; o_GID := 1000;
  SetCredential := true |}.

Lemma only_allowlisted_programs_run_witness :
  NewRunner [spec] = Ok runner /\
  exists p s, ran (snd (RunWith echo runner None "echo" opts ["a; b"] machine)) = [p] /\ s ∈ [spec] /\ p_Path p = s_Path s.
Proof.
  assert (Hn : NewRunner [spec] = Ok runner) by (vm_compute; reflexivity). split; [exact Hn|].
  destruct (only_allowlisted_programs_run echo [spec] runner None "echo" opts ["a; b"] machine
    (fst (RunWith echo runner None "echo" opts ["a; b"] machine)) (snd (RunWith echo runner None "echo" opts ["a; b"] machine))
    Hn (surjective_pairing _)) as [(_ & _ & _ & _ & He)|(p & s & Hp & Hs & _ & Hpath & _)];
    [vm_compute in He; discriminate He|exists p, s; split; [exact Hp|split; [exact Hs|exact Hpath]]].
Defined.
End Small.
