(* ===== verification/DeployHost.v ===== *)
(** * Deployments on the host ([agent/internal/deploy/], [operations/deploy.go])

    A website's source put on the host from a git repository and the steps that make a site of
    it: accounts, git, the steps, the deploy key, one deployment with its log and its rollback,
    the status and the operations.  The account database, the texts of errors and the progress
    callback are arguments; so are git and the other programs, through [CommandRunner].
    Durations are left out. *)

From stdpp Require Import gmap.
From S2P Require Import Prelude Store GoStr GoTime TenancyRules DeployRules Protocol CommandRunner.

#[local] Open Scope string_scope.
#[local] Open Scope store_scope.

(** ** Errors, paths and requests ([deploy.go], [types.go]) *)
Inductive deploy_err :=
| ErrUnavailable | ErrNoAccount | ErrRootRefused | ErrNotCloned | ErrRemoteFailed (detail : string)
| ErrActionFailed (label : string) | ErrActionUnavailable | ErrDirty
| ErrRule (e : deploy_rule_err)
| GitFailed (what detail : string)               (** a git command that said no *)
| RunnerFailed (what : string) (e : run_err)     (** a program that could not be run *)
| SystemCall.
#[global] Instance deploy_err_eq_dec : EqDecision deploy_err.
Proof. solve_decision. Defined.

Definition CommandGit := "deploy-git".
Definition CommandSSHKeygen := "deploy-ssh-keygen".
Definition CommandDeployShell := "deploy-shell".
Definition CommandComposer := "deploy-composer".
Definition CommandNpm := "deploy-npm".
Definition CommandPHP := "deploy-php".

Definition DefaultStateDir := "/var/lib/jothost/deploy".
Definition MaxLogBytes : Z := 262144.
Definition cloneTimeout : Z := 600.
Definition fetchTimeout : Z := 300.

Record Paths := { StateDir : string }.
Definition paths_with_defaults (p : Paths) : Paths :=
  {| StateDir := if StateDir p =? "" then DefaultStateDir else StateDir p |}.
Definition KeyDir (p : Paths) : string := fp_join [StateDir p; "keys"].
Definition ScriptDir (p : Paths) : string := fp_join [StateDir p; "scripts"].
Definition KeyPath (p : Paths) (account : string) : string := fp_join [KeyDir p; account ++ ".key"].
Definition ScriptPath (p : Paths) (account : string) : string := fp_join [ScriptDir p; account ++ ".sh"].
Definition SSHConfigPath (p : Paths) (account : string) : string := fp_join [KeyDir p; account ++ ".ssh-config"].
Definition knownHostsPath (p : Paths) (account : string) : string := KeyPath p account ++ ".known_hosts".

Record Request := {
  q_Account : string; q_DocumentRoot : string; q_Remote : string; q_Branch : string; q_Commit : string;
  q_Actions : list string; q_Script : string; q_ScriptTimeoutSeconds : Z; q_UseDeployKey : bool;
  q_RollbackOnFailure : bool }.

Record DResult := {
  Commit : string; PreviousCommit : string; Branch : string; r_Message : string; Author : string;
  r_Succeeded : bool; r_ExitCode : Z; FailedStep : string; Log : string; LogTruncated : bool;
  RolledBack : bool; RollbackError : string }.
Definition no_result : DResult := {|
  Commit := ""; PreviousCommit := ""; Branch := ""; r_Message := ""; Author := ""; r_Succeeded := false;
  r_ExitCode := 0; FailedStep := ""; Log := ""; LogTruncated := false; RolledBack := false; RollbackError := "" |}.

(** The programs of a deployment as the Agent registers them ([cmd/agent/main.go]); the paths
    are its configuration's. *)
Record ToolPaths := {
  GitPath : string; SSHKeygenPath : string; ComposerPath : string; NpmToolPath : string; PHPToolPath : string;
  DeployShell : string }.
Definition build_variables : list string :=
  ["HOME"; "USER"; "LOGNAME"; "CI"; "COMPOSER_HOME"; "COMPOSER_NO_INTERACTION"; "NPM_CONFIG_CACHE";
   "NPM_CONFIG_UPDATE_NOTIFIER"].
Definition deploy_spec (name path : string) (timeout : Z) (env : list string) : Spec := {|
  s_Name := name; s_Path := path; s_Timeout := timeout; s_MaxOutput := 0; AllowedEnv := env; AllowAnyEnv := false |}.
Definition git_spec (path : string) : Spec :=
  deploy_spec CommandGit path (15 * Minute)%Z ["HOME"; "GIT_TERMINAL_PROMPT"; "GIT_CONFIG_NOSYSTEM"; "GIT_SSH_COMMAND"].
Definition deploy_specs (t : ToolPaths) : list Spec := [
  git_spec (GitPath t);
  deploy_spec CommandSSHKeygen (SSHKeygenPath t) (30 * Second)%Z [];
  deploy_spec CommandComposer (ComposerPath t) (15 * Minute)%Z build_variables;
  deploy_spec CommandNpm (NpmToolPath t) (15 * Minute)%Z build_variables;
  deploy_spec CommandPHP (PHPToolPath t) (15 * Minute)%Z build_variables;
  deploy_spec CommandDeployShell (DeployShell t) (60 * Minute)%Z build_variables].

(** [Provider]. *)
Record Provider := { runner : Runner; paths : Paths }.

Record account := { acc_Name : string; acc_UID : Z; acc_GID : Z; acc_Home : string }.

(** ** The log ([logBuilder]) *)
Record logBuilder := { out : string; l_truncated : bool }.
Definition new_log : logBuilder := {| out := ""; l_truncated := false |}.
Definition section (l : logBuilder) (title : string) : logBuilder := {|
  out := out l ++ (if (0 <? String.length (out l))%nat then nl else "") ++ "=== " ++ title ++ nl;
  l_truncated := l_truncated l |}.
Definition line (l : logBuilder) (text : string) : logBuilder :=
  if trim_space text =? "" then l else {| out := out l ++ text ++ nl; l_truncated := l_truncated l |}.
Definition dropped_notice : string := "[earlier output was dropped]" ++ nl.
Definition finish (l : logBuilder) : string * bool :=
  let n := String.length (out l) in
  if (Z.of_nat n <=? MaxLogBytes)%Z then (out l, l_truncated l)
  else (dropped_notice ++ String.substring (n - Z.to_nat MaxLogBytes) (Z.to_nat MaxLogBytes) (out l), true).

(** [strings.TrimRight(s, "\n")]. *)
Definition trim_newlines (s : string) : string := trim_right_set nl s.

Fixpoint first_filled (lines : list string) : option string :=
  match lines with
  | [] => None
  | l :: more => if trim_space l =? "" then first_filled more else Some (trim_space l)
  end.
Fixpoint firstLine (candidates : list string) : string :=
  match candidates with
  | [] => ""
  | c :: more => match first_filled (split LF c) with Some l => l | None => firstLine more end
  end.

Definition wrap (what : string) (e : run_err) : deploy_err :=
  match e with
  | ErrNotAllowed | CommandRunner.ErrUnavailable => ErrUnavailable
  | _ => RunnerFailed what e
  end.

(** ** The steps ([actions.go]) *)
Record template := { tool : string; argv : list string; label : string }.
Definition templates (kind : string) : option template :=
  if kind =? ActionComposerInstall then Some {| tool := CommandComposer;
    argv := ["install"; "--no-interaction"; "--no-dev"; "--optimize-autoloader"; "--prefer-dist"]; label := "composer install" |}
  else if kind =? ActionNpmCI then Some {| tool := CommandNpm;
    argv := ["ci"; "--omit=dev"; "--no-audit"; "--no-fund"]; label := "npm ci" |}
  else if kind =? ActionNpmInstall then Some {| tool := CommandNpm;
    argv := ["install"; "--omit=dev"; "--no-audit"; "--no-fund"]; label := "npm install" |}
  else if kind =? ActionNpmBuild then Some {| tool := CommandNpm; argv := ["run"; "build"]; label := "npm run build" |}
  else if kind =? ActionArtisanMigrate then Some {| tool := CommandPHP;
    argv := ["artisan"; "migrate"; "--force"; "--no-interaction"]; label := "php artisan migrate" |}
  else if kind =? ActionArtisanOptimise then Some {| tool := CommandPHP;
    argv := ["artisan"; "optimize"; "--no-interaction"]; label := "php artisan optimize" |}
  else None.

Record stepResult := { st_label : string; st_exitCode : Z; st_output : string; st_timedOut : bool }.

Definition actionLabel (kind : string) : string :=
  match templates kind with
  | Some t => label t
  | None => if kind =? ActionScript then "deployment script" else kind
  end.

Definition short (sha : string) : string := String.substring 0 8 sha.

Definition buildEnvironment (owner : account) : gmap string string :=
  list_to_map [("HOME", acc_Home owner); ("USER", acc_Name owner); ("LOGNAME", acc_Name owner); ("CI", "1");
    ("COMPOSER_HOME", acc_Home owner ++ "/.composer"); ("COMPOSER_NO_INTERACTION", "1");
    ("NPM_CONFIG_CACHE", acc_Home owner ++ "/.npm"); ("NPM_CONFIG_UPDATE_NOTIFIER", "false")].

Definition sshCommand (p : Paths) (accountName : string) : string :=
  join " " ["ssh"; "-i"; KeyPath p accountName; "-o"; "IdentitiesOnly=yes"; "-o"; "StrictHostKeyChecking=accept-new";
    "-o"; ("UserKnownHostsFile=" ++ knownHostsPath p accountName)%string; "-F"; "/dev/null"; "-o"; "BatchMode=yes";
    "-o"; "ConnectTimeout=15"].

(** ** What a request must be ([checkRequest]) *)
Definition rule {A} (r : result deploy_rule_err A) : result deploy_err A :=
  match r with Ok a => Ok a | Err e => Err (ErrRule e) end.

Fixpoint check_actions (kinds : list string) : result deploy_err unit :=
  match kinds with
  | [] => Ok tt
  | k :: more => rule (DeployAction k) ;? check_actions more
  end.

Definition checkRequest (req : Request) : result deploy_err unit :=
  rule (SystemUser (q_Account req)) ;?
  guard ((q_DocumentRoot req =? "") || negb (has_prefix "/" (q_DocumentRoot req))) ErrNotCloned ;?
  rule (GitRemote (q_Remote req)) ;?
  rule (GitBranch (q_Branch req)) ;?
  (if negb (q_Commit req =? "") then rule (CommitSHA (q_Commit req)) else Ok tt) ;?
  check_actions (q_Actions req) ;?
  (if negb (q_Script req =? "") then rule (DeployScript (q_Script req)) else Ok tt).

(** ** On the machine ([provider.go], [git.go], [actions.go]) *)
Record gitOptions := { UseKey : bool; g_Timeout : Z }.
Definition plain : gitOptions := {| UseKey := false; g_Timeout := 0 |}.

Section host.
Context {T : Type} (launch : Process -> Machine T -> Raw * Machine T).
(** The text of an error, the account database and the callback of the job's progress. *)
Context (Error : deploy_err -> string).
Context (user_Lookup : string -> option (string * string * string)).
Context (progress : Z -> string -> Machine T -> Machine T).
Context (p : Provider).
Local Abbreviation M := (Store.M (Machine T) deploy_err).

Definition isDir (path : string) (h : Machine T) : bool := bool_decide (is_Some (dirs h !! path)).

(** The directories on the way to a path, the first one first. *)
Fixpoint ways (sofar : string) (segs : list string) : list string :=
  match segs with
  | [] => []
  | s :: segs => if s =? "" then ways sofar segs else (sofar ++ "/" ++ s)%string :: ways (sofar ++ "/" ++ s) segs
  end.
Definition MkdirAll (path : string) (mode : Z) : M unit :=
  io SystemCall (fun h =>
    (Ok tt, set_dirs (foldl (fun m d => match m !! d with Some _ => m | None => <[d := mode]> m end)
                        (dirs h) (ways "" (split "/" (fp_clean path)))) h)).
Definition ChmodDir (path : string) (mode : Z) : M unit :=
  io SystemCall (fun h =>
    if isDir path h then (Ok tt, set_dirs (<[path := mode]> (dirs h)) h) else (Err SystemCall, h)).
Definition on_file (path : string) (f : File -> File) : M unit :=
  io SystemCall (fun h =>
    match fs h !! path with
    | Some x => (Ok tt, set_fs (<[path := f x]> (fs h)) h)
    | None => (Err SystemCall, h)
    end).
Definition Chown (path : string) (uid gid : Z) : M unit :=
  on_file path (fun x => {| f_Content := f_Content x; f_UID := uid; f_GID := gid; f_Mode := f_Mode x |}).
Definition Chmod (path : string) (mode : Z) : M unit :=
  on_file path (fun x => {| f_Content := f_Content x; f_UID := f_UID x; f_GID := f_GID x; f_Mode := mode |}).
(** [os.WriteFile]: a new file is the Agent's, one that is there keeps its owner and mode. *)
Definition WriteFile (path content : string) (mode : Z) : M unit :=
  io SystemCall (fun h =>
    (Ok tt, set_fs (<[path := match fs h !! path with
                              | Some x => {| f_Content := content; f_UID := f_UID x; f_GID := f_GID x; f_Mode := f_Mode x |}
                              | None => {| f_Content := content; f_UID := 0; f_GID := 0; f_Mode := mode |}
                              end]> (fs h)) h)).
(** [os.Remove], a file that is not there being no error to the callers. *)
Definition RemoveFile (path : string) : M unit :=
  io SystemCall (fun h => (Ok tt, set_fs (delete path (fs h)) h)).

Definition Available : Machine T -> bool := CommandRunner.Available (runner p) CommandGit.

Definition lookupAccount (name : string) : M account :=
  answer (rule (SystemUser name)) ;!
  match user_Lookup name with
  | None => fail ErrNoAccount
  | Some (uid, gid, home) =>
      match atoi uid, atoi gid with
      | Some uid, Some gid =>
          if ((uid =? 0) || (gid =? 0))%Z then fail ErrRootRefused
          else
            let! found := get (isDir home) in
            ret {| acc_Name := name; acc_UID := uid; acc_GID := gid;
                   acc_Home := if (home =? "") || negb found then "/tmp" else home |}
      | _, _ => fail ErrNoAccount
      end
  end.

Fixpoint each_dir (l : list string) : M unit :=
  match l with
  | [] => ret tt
  | d :: l => MkdirAll d 457 ;! ChmodDir d 457 ;! each_dir l
  end.
Definition ensureDirs : M unit := each_dir [StateDir (paths p); KeyDir (paths p); ScriptDir (paths p)].

(** A call of the runner, whose error says what was being done. *)
Definition running {A} (what : string) (m : Store.M (Machine T) run_err A) : M A :=
  fun h => match m h with (Ok a, h') => (Ok a, h') | (Err e, h') => (Err (wrap what e), h') end.

Definition as_site (owner : account) (dir : string) (env : gmap string string) : Options := {|
  o_Stdin := ""; o_StdinFile := ""; o_Env := env; o_Dir := dir;
  o_UID := acc_UID owner; o_GID := acc_GID owner; SetCredential := true |}.

Definition git_env (owner : account) (opts : gitOptions) : gmap string string :=
  let env : gmap string string :=
    list_to_map [("HOME", acc_Home owner); ("GIT_TERMINAL_PROMPT", "0"); ("GIT_CONFIG_NOSYSTEM", "1")] in
  if UseKey opts then <["GIT_SSH_COMMAND" := sshCommand (paths p) (acc_Name owner)]> env else env.

Definition git (owner : account) (root : string) (opts : gitOptions) (args : list string)
  : Store.M (Machine T) run_err Result :=
  RunWith launch (runner p) None CommandGit (as_site owner root (git_env owner opts)) ("-C" :: root :: args).

(** The output of a command that only reads; empty when it fails. *)
Definition gitOutput (owner : account) (root : string) (args : list string) : M string :=
  let! r := attempt (running "" (git owner root plain args)) in
  ret match r with Ok r => if Succeeded r then trim_newlines (Stdout r) else "" | Err _ => "" end.

(** A command whose failure ends what is being done. *)
Definition git_do (what : string) (owner : account) (root : string) (args : list string) : M unit :=
  let! r := running what (git owner root plain args) in
  if Succeeded r then ret tt else fail (GitFailed what (firstLine [Stderr r; Stdout r])).

Definition setRemote (owner : account) (root remote : string) : M unit :=
  answer (rule (GitRemote remote)) ;!
  let! existing := running "read the repository's remote" (git owner root plain ["remote"; "get-url"; "origin"]) in
  if Succeeded existing && (trim_space (Stdout existing) =? remote) then ret tt
  else
    let verb := if Succeeded existing then "set-url" else "add" in
    git_do "set the repository's remote" owner root ["remote"; verb; "origin"; "--"; remote].

Definition fetch (owner : account) (req : Request) : M unit :=
  let! r := running "fetch from the repository"
    (git owner (q_DocumentRoot req) {| UseKey := q_UseDeployKey req; g_Timeout := fetchTimeout |}
       ["fetch"; "--prune"; "origin"; "--"; q_Branch req]) in
  if Succeeded r then ret tt else fail (ErrRemoteFailed (firstLine [Stderr r; Stdout r])).

(** The log's sections are the callback's. *)
Definition Clone (req : Request) (log : logBuilder) : M (logBuilder * result deploy_err unit) :=
  let! ready := attempt (
    let! owner := lookupAccount (q_Account req) in
    answer (rule (GitRemote (q_Remote req))) ;!
    answer (rule (GitBranch (q_Branch req))) ;!
    let! found := get (isDir (q_DocumentRoot req)) in
    if negb found then fail ErrNotCloned
    else ensureDirs ;! ret owner) in
  match ready with
  | Err e => ret (log, Err e)
  | Ok owner =>
      let log := section log "Preparing the repository" in
      let! r := attempt (
        git_do "initialise the repository" owner (q_DocumentRoot req) ["init"; "-q"] ;!
        setRemote owner (q_DocumentRoot req) (q_Remote req)) in
      match r with
      | Err e => ret (log, Err e)
      | Ok _ =>
          let log := section log ("Fetching " ++ q_Branch req) in
          let! r := attempt (fetch owner req) in
          ret (log, r)
      end
  end.

Definition Checkout (req : Request) (target : string) : M string :=
  let! owner := lookupAccount (q_Account req) in
  git_do ("check out " ++ target) owner (q_DocumentRoot req) ["reset"; "--hard"; target] ;!
  gitOutput owner (q_DocumentRoot req) ["rev-parse"; "HEAD"].

Definition resolve (owner : account) (req : Request) : M string :=
  if negb (q_Commit req =? "") then answer (rule (CommitSHA (q_Commit req))) ;! ret (q_Commit req)
  else
    let! sha := gitOutput owner (q_DocumentRoot req) ["rev-parse"; "--verify"; ("origin/" ++ q_Branch req)%string] in
    if sha =? "" then fail (ErrRemoteFailed ("the repository has no branch called " ++ q_Branch req)) else ret sha.

Definition describe (owner : account) (root sha : string) : M (string * string) :=
  let! message := gitOutput owner root ["log"; "-1"; "--pretty=%s"; sha] in
  let! author := gitOutput owner root ["log"; "-1"; "--pretty=%an"; sha] in
  ret (String.substring 0 500 message, author).

Definition isClean (owner : account) (root : string) : M bool :=
  let! status := gitOutput owner root ["status"; "--porcelain"] in ret (status =? "").

(** ** The steps *)
Definition writeScript (path body : string) (owner : account) : M unit :=
  WriteFile path body 384 ;! Chown path (acc_UID owner) (acc_GID owner) ;! Chmod path 384.

Definition step_of (label : string) (r : Result) : stepResult := {|
  st_label := label; st_exitCode := ExitCode r; st_output := trim_newlines (Stdout r ++ Stderr r);
  st_timedOut := TimedOut r |}.

Definition runScript (owner : account) (req : Request) : M stepResult :=
  let script := trim_space (q_Script req) in
  if script =? "" then
    ret {| st_label := "deployment script"; st_exitCode := 0;
           st_output := "no script is configured, so this step did nothing"; st_timedOut := false |}
  else
    answer (rule (DeployScript (q_Script req))) ;!
    let! shell := get (CommandRunner.Available (runner p) CommandDeployShell) in
    if negb shell then fail ErrActionUnavailable
    else
      ensureDirs ;!
      answer (rule (ScriptTimeout (q_ScriptTimeoutSeconds req))) ;!
      let path := ScriptPath (paths p) (acc_Name owner) in
      writeScript path ("#!/bin/sh" ++ nl ++ "set -e" ++ nl ++ script ++ nl) owner ;!
      let! r := attempt (running "run the deployment script"
        (RunWith launch (runner p) (Some (q_ScriptTimeoutSeconds req * Second)%Z) CommandDeployShell
           (as_site owner (q_DocumentRoot req) (buildEnvironment owner)) [path])) in
      attempt (RemoveFile path) ;!
      let! r := answer r in
      ret (step_of "deployment script" r).

Definition runAction (owner : account) (req : Request) (kind : string) : M stepResult :=
  if kind =? ActionScript then runScript owner req
  else
    match templates kind with
    | None => fail (ErrRule ErrInvalidAction)
    | Some t =>
        let! there := get (CommandRunner.Available (runner p) (tool t)) in
        if negb there then fail ErrActionUnavailable
        else
          let! r := running ("run " ++ label t)
            (RunWith launch (runner p) None (tool t) (as_site owner (q_DocumentRoot req) (buildEnvironment owner)) (argv t)) in
          ret (step_of (label t) r)
    end.

(** ** One deployment ([run.go]) *)
Definition set_log (l : logBuilder) (r : DResult) : DResult := {|
  Commit := Commit r; PreviousCommit := PreviousCommit r; Branch := Branch r; r_Message := r_Message r;
  Author := Author r; r_Succeeded := r_Succeeded r; r_ExitCode := r_ExitCode r; FailedStep := FailedStep r;
  Log := fst (finish l); LogTruncated := snd (finish l); RolledBack := RolledBack r; RollbackError := RollbackError r |}.
Definition set_step (code : Z) (step : string) (r : DResult) : DResult := {|
  Commit := Commit r; PreviousCommit := PreviousCommit r; Branch := Branch r; r_Message := r_Message r;
  Author := Author r; r_Succeeded := r_Succeeded r; r_ExitCode := code; FailedStep := step;
  Log := Log r; LogTruncated := LogTruncated r; RolledBack := RolledBack r; RollbackError := RollbackError r |}.
Definition set_commit (commit message author : string) (r : DResult) : DResult := {|
  Commit := commit; PreviousCommit := PreviousCommit r; Branch := Branch r; r_Message := message;
  Author := author; r_Succeeded := r_Succeeded r; r_ExitCode := r_ExitCode r; FailedStep := FailedStep r;
  Log := Log r; LogTruncated := LogTruncated r; RolledBack := RolledBack r; RollbackError := RollbackError r |}.
Definition set_succeeded (r : DResult) : DResult := {|
  Commit := Commit r; PreviousCommit := PreviousCommit r; Branch := Branch r; r_Message := r_Message r;
  Author := Author r; r_Succeeded := true; r_ExitCode := r_ExitCode r; FailedStep := FailedStep r;
  Log := Log r; LogTruncated := LogTruncated r; RolledBack := RolledBack r; RollbackError := RollbackError r |}.
Definition set_rolled_back (r : DResult) : DResult := {|
  Commit := PreviousCommit r; PreviousCommit := PreviousCommit r; Branch := Branch r; r_Message := r_Message r;
  Author := Author r; r_Succeeded := r_Succeeded r; r_ExitCode := r_ExitCode r; FailedStep := FailedStep r;
  Log := Log r; LogTruncated := LogTruncated r; RolledBack := true; RollbackError := RollbackError r |}.
Definition set_rollback_error (text : string) (r : DResult) : DResult := {|
  Commit := Commit r; PreviousCommit := PreviousCommit r; Branch := Branch r; r_Message := r_Message r;
  Author := Author r; r_Succeeded := r_Succeeded r; r_ExitCode := r_ExitCode r; FailedStep := FailedStep r;
  Log := Log r; LogTruncated := LogTruncated r; RolledBack := RolledBack r; RollbackError := text |}.
Definition first_result (req : Request) (previous : string) : DResult := {|
  Commit := ""; PreviousCommit := previous; Branch := q_Branch req; r_Message := ""; Author := ""; r_Succeeded := false;
  r_ExitCode := 0; FailedStep := ""; Log := ""; LogTruncated := false; RolledBack := false; RollbackError := "" |}.

Definition rollback (req : Request) (result : DResult) (log : logBuilder) : M (DResult * logBuilder) :=
  if negb (q_RollbackOnFailure req) then ret (result, log)
  else if PreviousCommit result =? "" then
    ret (result, section log "Not rolling back: this is the first deployment, so there is nothing to go back to")
  else if PreviousCommit result =? Commit result then
    ret (result, section log ("Not rolling back: the working tree is already on " ++ short (PreviousCommit result)))
  else
    let log := section log ("Rolling back to " ++ short (PreviousCommit result)) in
    let! back := attempt (Checkout req (PreviousCommit result)) in
    match back with
    | Err e =>
        ret (set_rollback_error (Error e) result,
             line (line log ("The rollback failed: " ++ Error e))
               "This site is now on neither commit. Its working tree needs looking at.")
    | Ok _ =>
        ret (set_rolled_back result,
             line (line log ("The source is back on " ++ short (PreviousCommit result) ++ "."))
               "Files the build wrote are still there: they are not in the repository, so restoring the source cannot remove them.")
    end.

Definition report (percent : Z) (message : string) : M unit := update (progress percent message).

Definition after_step (req : Request) (log : logBuilder) (step : stepResult) : logBuilder :=
  let log := line log (st_output step) in
  let log := if st_timedOut step
             then line log ("[the step was stopped after " ++ itoa (q_ScriptTimeoutSeconds req) ++ " seconds]") else log in
  if negb (st_exitCode step =? 0)%Z
  then line log ("[" ++ st_label step ++ " exited " ++ itoa (st_exitCode step) ++ "]") else log.

Fixpoint run_steps (owner : account) (req : Request) (index : Z) (actions : list string)
  (result : DResult) (log : logBuilder) : M (DResult * option deploy_err) :=
  match actions with
  | [] =>
      report 100 ("Deployed " ++ short (Commit result)) ;!
      ret (set_log log (set_succeeded result), None)
  | kind :: more =>
      report (35 + Z.quot (index * 55) (Z.max (Z.of_nat (length (q_Actions req))) 1)) (actionLabel kind) ;!
      let log := section log (actionLabel kind) in
      let! step := attempt (runAction owner req kind) in
      match step with
      | Err e =>
          let! (result, log) := rollback req (set_step 0 (actionLabel kind) result) (line log (Error e)) in
          ret (set_log log result, Some e)
      | Ok step =>
          let log := after_step req log step in
          if negb (st_exitCode step =? 0)%Z then
            let! (result, log) := rollback req (set_step (st_exitCode step) (st_label step) result) log in
            ret (set_log log result, Some (ErrActionFailed (st_label step)))
          else run_steps owner req (index + 1) more result log
      end
  end.

(** The commit is on the host; what is left is to check it out and to run the steps. *)
Definition check_out (owner : account) (req : Request) (target : string) (result : DResult) (log : logBuilder)
  : M (DResult * option deploy_err) :=
  report 30 ("Checking out " ++ short target) ;!
  let log := section log ("Checking out " ++ short target) in
  let! commit := attempt (Checkout req target) in
  match commit with
  | Err e => ret (set_log log result, Some e)
  | Ok commit =>
      let! (message, author) := describe owner (q_DocumentRoot req) commit in
      let result := set_commit commit message author result in
      run_steps owner req 0 (q_Actions req) result (line log (commit ++ " " ++ message))
  end.

(** A working tree that is on the commit, is clean, and has no steps to run. *)
Definition nothing_to_do (owner : account) (req : Request) (target : string) (result : DResult) : M bool :=
  if PreviousCommit result =? target then
    let! clean := isClean owner (q_DocumentRoot req) in
    ret (clean && (length (q_Actions req) =? 0)%nat)
  else ret false.

Definition Deploy (req : Request) : M (DResult * option deploy_err) :=
  let! available := get Available in
  if negb available then ret (no_result, Some ErrUnavailable)
  else
    match checkRequest req with
    | Err e => ret (no_result, Some e)
    | Ok _ =>
        let! owner := attempt (lookupAccount (q_Account req)) in
        match owner with
        | Err e => ret (no_result, Some e)
        | Ok owner =>
            let! previous := gitOutput owner (q_DocumentRoot req) ["rev-parse"; "HEAD"] in
            let result := first_result req previous in
            report 5 "Preparing the repository" ;!
            let! (log, cloned) := Clone req new_log in
            match cloned with
            | Err e => ret (set_log log result, Some e)
            | Ok _ =>
                report 20 "Working out what to deploy" ;!
                let! target := attempt (resolve owner req) in
                match target with
                | Err e => ret (set_log log result, Some e)
                | Ok target =>
                    let! idle := nothing_to_do owner req target result in
                    if idle then
                      let log := section log ("Already on " ++ short target ++ ", and there are no steps to run") in
                      let! (message, author) := describe owner (q_DocumentRoot req) target in
                      ret (set_log log (set_succeeded (set_commit target message author result)), None)
                    else check_out owner req target result log
                end
            end
        end
    end.

(** ** Keys ([keys.go]) *)
Record Key := { k_PublicKey : string; k_Fingerprint : string; k_Path : string; k_Type : string }.

Definition fingerprint (keyPath : string) : M string :=
  let! there := get (CommandRunner.Available (runner p) CommandSSHKeygen) in
  if negb there then ret ""
  else
    let! r := attempt (running "" (Run launch (runner p) None CommandSSHKeygen ["-l"; "-f"; keyPath])) in
    ret match r with
        | Ok r => if Succeeded r then default "" (fields (trim_space (Stdout r)) !! 1%nat) else ""
        | Err _ => ""
        end.

Definition ReadFile (path : string) : M (option string) :=
  io SystemCall (fun h => (Ok (f_Content <$> fs h !! path), h)).

Definition writeSSHConfig (owner : account) : M unit :=
  let path := knownHostsPath (paths p) (acc_Name owner) in
  let! there := get (fun h => bool_decide (is_Some (fs h !! path))) in
  if there then ret tt
  else
    io SystemCall (fun h =>
      (Ok tt, set_fs (<[path := {| f_Content := ""; f_UID := 0; f_GID := 0; f_Mode := 384 |}]> (fs h)) h)) ;!
    Chown path (acc_UID owner) (acc_GID owner).

Definition GenerateKey (accountName : string) : M Key :=
  let! owner := lookupAccount accountName in
  let! there := get (CommandRunner.Available (runner p) CommandSSHKeygen) in
  if negb there then fail ErrUnavailable
  else
    ensureDirs ;!
    let path := KeyPath (paths p) (acc_Name owner) in
    RemoveFile path ;!
    RemoveFile (path ++ ".pub") ;!
    let! r := running "generate a deploy key"
      (Run launch (runner p) None CommandSSHKeygen
         ["-t"; "ed25519"; "-N"; ""; "-C"; ("jothost-" ++ acc_Name owner)%string; "-f"; path]) in
    if negb (Succeeded r) then fail (GitFailed "generate a deploy key" (firstLine [Stderr r; Stdout r]))
    else
      Chown path (acc_UID owner) (acc_GID owner) ;!
      Chmod path 384 ;!
      Chown (path ++ ".pub") (acc_UID owner) (acc_GID owner) ;!
      let! public := ReadFile (path ++ ".pub") in
      match public with
      | None => fail SystemCall
      | Some public =>
          writeSSHConfig owner ;!
          let! print := fingerprint path in
          ret {| k_PublicKey := trim_space public; k_Fingerprint := print; k_Path := path; k_Type := "ed25519" |}
      end.

Definition RemoveKey (accountName : string) : M unit :=
  answer (rule (SystemUser accountName)) ;!
  RemoveFile (KeyPath (paths p) accountName) ;!
  RemoveFile (KeyPath (paths p) accountName ++ ".pub") ;!
  RemoveFile (SSHConfigPath (paths p) accountName) ;!
  RemoveFile (knownHostsPath (paths p) accountName).

Definition PublicKey (accountName : string) : M (option Key) :=
  answer (rule (SystemUser accountName)) ;!
  let path := KeyPath (paths p) accountName in
  let! public := ReadFile (path ++ ".pub") in
  match public with
  | None => ret None
  | Some public =>
      let! print := fingerprint path in
      ret (Some {| k_PublicKey := trim_space public; k_Fingerprint := print; k_Path := path; k_Type := "ed25519" |})
  end.

(** [os.RemoveAll] of a directory. *)
Definition beneath (dir path : string) : bool := (path =? dir) || has_prefix (dir ++ "/") path.
Definition removeWorkingTree (root : string) : M unit :=
  if (root =? "") || negb (has_prefix "/" root) then fail ErrNotCloned
  else
    let gitDir := root ++ "/.git" in
    let! found := get (isDir gitDir) in
    if negb found then ret tt
    else
      io SystemCall (fun h =>
        (Ok tt, set_fs (filter (fun x => beneath gitDir (fst x) = false) (fs h))
                  (set_dirs (filter (fun x => beneath gitDir (fst x) = false) (dirs h)) h))).

Definition Unlink (accountName root : string) (removeKey : bool) : M unit :=
  answer (rule (SystemUser accountName)) ;!
  removeWorkingTree root ;!
  if removeKey then RemoveKey accountName else ret tt.

(** ** The status ([provider.go]) *)
Record Status := {
  s_Available : bool; s_Reason : string; s_GitVersion : string; s_Cloned : bool; s_Commit : string;
  s_Branch : string; s_Message : string; s_Author : string; s_Dirty : bool; s_DirtyFiles : list string;
  s_Remote : string; s_HasKey : bool; s_Fingerprint : string; s_Tools : gmap string bool; s_Warnings : list string }.

Definition gitVersion : M string :=
  let! available := get Available in
  if negb available then ret ""
  else
    let! r := attempt (running "" (Run launch (runner p) None CommandGit ["--version"])) in
    ret match r with
        | Ok r => if Succeeded r then default "" (list.last (fields (trim_space (Stdout r)))) else ""
        | Err _ => ""
        end.

Definition tools (h : Machine T) : gmap string bool :=
  let has := fun name => CommandRunner.Available (runner p) name h in
  list_to_map [(ActionComposerInstall, has CommandComposer); (ActionNpmCI, has CommandNpm);
    (ActionNpmInstall, has CommandNpm); (ActionNpmBuild, has CommandNpm); (ActionArtisanMigrate, has CommandPHP);
    (ActionArtisanOptimise, has CommandPHP); (ActionScript, has CommandDeployShell)].

Definition dirty_files (dirty : string) : list string :=
  filter (fun l => l <> "") (trim_space <$> take 10 (split LF dirty)).

Definition no_account_warning (e : deploy_err) : string :=
  "the website has no usable system account, so nothing can be deployed: " ++ Error e.
Definition dirty_warning : string :=
  "this working tree has uncommitted changes; a deployment resets it and they would be lost".
Definition no_key_warning : string :=
  "this repository is reached over SSH and this host has no deploy key for it, so every deployment will fail to authenticate".

Definition bare_status (available : bool) (reason version : string) (cloned : bool) (t : gmap string bool)
  (warnings : list string) : Status := {|
  s_Available := available; s_Reason := reason; s_GitVersion := version; s_Cloned := cloned; s_Commit := "";
  s_Branch := ""; s_Message := ""; s_Author := ""; s_Dirty := false; s_DirtyFiles := []; s_Remote := "";
  s_HasKey := false; s_Fingerprint := ""; s_Tools := t; s_Warnings := warnings |}.

Definition read_status (accountName root : string) : M Status :=
  let! available := get Available in
  if negb available then ret (bare_status false (Error ErrUnavailable) "" false ∅ [])
  else
    let! version := gitVersion in
    let! t := get tools in
    let! cloned := get (isDir (root ++ "/.git")) in
    if (accountName =? "") || (root =? "") || negb cloned then ret (bare_status true "" version false t [])
    else
      let! owner := attempt (lookupAccount accountName) in
      match owner with
      | Err e => ret (bare_status true "" version true t [no_account_warning e])
      | Ok owner =>
          let! commit := gitOutput owner root ["rev-parse"; "HEAD"] in
          let! branch := gitOutput owner root ["rev-parse"; "--abbrev-ref"; "HEAD"] in
          let! message := gitOutput owner root ["log"; "-1"; "--pretty=%s"] in
          let! author := gitOutput owner root ["log"; "-1"; "--pretty=%an"] in
          let! remote := gitOutput owner root ["config"; "--get"; "remote.origin.url"] in
          let! dirty := gitOutput owner root ["status"; "--porcelain"] in
          let keyPath := KeyPath (paths p) accountName in
          let! hasKey := get (fun h => match fs h !! keyPath with
                                       | Some f => (0 <? String.length (f_Content f))%nat | None => false end) in
          let! print := if hasKey then fingerprint keyPath else ret "" in
          ret {| s_Available := true; s_Reason := ""; s_GitVersion := version; s_Cloned := true; s_Commit := commit;
                 s_Branch := branch; s_Message := message; s_Author := author; s_Dirty := negb (dirty =? "");
                 s_DirtyFiles := if dirty =? "" then [] else dirty_files dirty; s_Remote := remote;
                 s_HasKey := hasKey; s_Fingerprint := print; s_Tools := t;
                 s_Warnings := ((if dirty =? "" then [] else [dirty_warning]) ++
                                (if negb hasKey && has_prefix "git@" remote then [no_key_warning] else []))%list |}
      end.

(** ** The operations ([operations/deploy.go]) *)
Definition payload_request (payload : Request) : result (string * deploy_err) Request :=
  guard ((q_DocumentRoot payload =? "") || negb (has_prefix "/" (q_DocumentRoot payload)))
    (CodeInvalidPayload, ErrNotCloned) ;?
  guard (negb (forallb (fun k => is_ok (DeployAction k)) (q_Actions payload)))
    (CodeInvalidPayload, ErrRule ErrInvalidAction) ;?
  Ok {| q_Account := q_Account payload; q_DocumentRoot := q_DocumentRoot payload; q_Remote := q_Remote payload;
        q_Branch := q_Branch payload; q_Commit := q_Commit payload; q_Actions := q_Actions payload;
        q_Script := q_Script payload;
        q_ScriptTimeoutSeconds := if (q_ScriptTimeoutSeconds payload =? 0)%Z then 600 else q_ScriptTimeoutSeconds payload;
        q_UseDeployKey := q_UseDeployKey payload; q_RollbackOnFailure := q_RollbackOnFailure payload |}.

Definition deployError (e : deploy_err) : string :=
  match e with
  | ErrUnavailable | ErrActionUnavailable => CodeUnsupported
  | ErrRootRefused => CodeInvalidRequest
  | ErrNoAccount | ErrNotCloned => CodeNotFound
  | ErrRemoteFailed _ | ErrDirty | ErrActionFailed _ => CodeInvalidRequest
  | ErrRule ErrInvalidSystemUser => CodeInternal
  | ErrRule _ => CodeInvalidPayload
  | _ => CodeInternal
  end.

(** What the operation answers: the result with the error's text in it, and the operation's own
    error with its code. *)
Definition handleDeployRun (payload : Request) : M (DResult * string * option string) :=
  let! available := get Available in
  if negb available then ret (no_result, "", Some CodeUnsupported)
  else
    match payload_request payload with
    | Err (code, _) => ret (no_result, "", Some code)
    | Ok req =>
        let! (result, e) := Deploy req in
        ret match e with
            | None => (result, "", None)
            | Some (ErrActionFailed l) => (result, Error (ErrActionFailed l), None)
            | Some e => (result, Error e, Some (deployError e))
            end
    end.
End host.
