(* ===== verification/DeployRun.v ===== *)
(** * What a deployment runs and where it leaves the site

    Theorems about [DeployHost]: everything a deployment runs is one of a closed list of
    commands and runs as the site's own account; its script is that account's alone while it
    runs; its log is bounded; and its answer says which commit the working tree is on. *)

From stdpp Require Import gmap.
From S2P Require Import Prelude Store GoStr GoTime TenancyRules DeployRules Protocol CommandRunner DeployHost.

#[local] Open Scope string_scope.
#[local] Open Scope store_scope.

(** ** Programs and what they start

    [runs P m Q]: everything [m] starts satisfies [P], and what it answers satisfies [Q]. *)
Section runs.
Context {T : Type}.

Definition started (P : Process -> Prop) (h h' : Machine T) : Prop :=
  exists l, ran h' = (ran h ++ l)%list /\ Forall P l.

Lemma started_refl P h : started P h h.
Proof. exists []. by rewrite app_nil_r. Qed.
Lemma started_same P h h' : ran h' = ran h -> started P h h'.
Proof. intros Hr. exists []. by rewrite app_nil_r. Qed.
Lemma started_trans P h1 h2 h3 : started P h1 h2 -> started P h2 h3 -> started P h1 h3.
Proof.
  intros (l1 & E1 & F1) (l2 & E2 & F2). exists (l1 ++ l2)%list. rewrite E2, E1, app_assoc. split; [done|]. by apply Forall_app.
Qed.

Definition runs {E A} (P : Process -> Prop) (m : Store.M (Machine T) E A) (Q : A -> Prop) : Prop :=
  forall h, started P h (snd (m h)) /\ forall a, fst (m h) = Ok a -> Q a.

Section rules.
Context {E : Type} (P : Process -> Prop).
Local Abbreviation M := (Store.M (Machine T) E).

Lemma runs_ret {A} (a : A) (Q : A -> Prop) : Q a -> runs P (ret a : M A) Q.
Proof. intros Hq h. split; [apply started_refl|]. by intros b [= <-]. Qed.
Lemma runs_fail {A} e (Q : A -> Prop) : runs P (fail e : M A) Q.
Proof. intros h. split; [apply started_refl|done]. Qed.
Lemma runs_get {A} (f : Machine T -> A) (Q : A -> Prop) : (forall h, Q (f h)) -> runs P (get f : M A) Q.
Proof. intros Hq h. split; [apply started_refl|]. intros b [= <-]. apply Hq. Qed.
Lemma runs_answer {A} (r : result E A) (Q : A -> Prop) : (forall a, r = Ok a -> Q a) -> runs P (answer r : M A) Q.
Proof. intros Hq h. split; [apply started_refl|]. intros b Hb. by apply Hq. Qed.
Lemma runs_bind {A B} (m : M A) (k : A -> M B) (R : A -> Prop) (Q : B -> Prop) :
  runs P m R -> (forall a, R a -> runs P (k a) Q) -> runs P (bind m k) Q.
Proof.
  intros Hm Hk h. unfold bind. destruct (Hm h) as [Hs Ha]. destruct (m h) as [[a|e] h1]; [|done].
  destruct (Hk a (Ha a eq_refl) h1) as [Hs' Hq]. split; [by eapply started_trans|done].
Qed.
Lemma runs_weaken {A} (m : M A) (Q Q' : A -> Prop) : runs P m Q -> (forall a, Q a -> Q' a) -> runs P m Q'.
Proof. intros Hm Hq h. destruct (Hm h) as [Hs Ha]. split; [done|]. auto. Qed.
Lemma runs_attempt {A} (m : M A) (Q : A -> Prop) (Q' : result E A -> Prop) :
  runs P m Q -> (forall a, Q a -> Q' (Ok a)) -> (forall e, Q' (Err e)) -> runs P (attempt m) Q'.
Proof.
  intros Hm Ho He h. unfold attempt. destruct (Hm h) as [Hs Ha]. destruct (m h) as [r h1]. split; [done|].
  intros b [= <-]. destruct r; auto.
Qed.
Lemma runs_io {A} down (f : Machine T -> result E A * Machine T) (Q : A -> Prop) :
  (forall h, ran (snd (f h)) = ran h) -> (forall h a, fst (f h) = Ok a -> Q a) -> runs P (io down f) Q.
Proof.
  intros Hf Hq h. unfold io. destruct (m_faults h) as [|[] l]; cbn; split; try done;
    first [by apply started_same; rewrite Hf|by apply started_same|apply Hq].
Qed.
End rules.

Lemma runs_RunWith P launch r left name opts args (Q : Result -> Prop) : o_StdinFile opts = "" ->
  o_Stdin opts = "" ->
  (forall spec env, specs r !! name = Some spec -> P (process_of spec env left opts args NoInput)) ->
  (forall spec p h a, specs r !! name = Some spec -> p_Args p = args -> outcome spec (fst (launch p h)) = Ok a -> Q a) ->
  runs P (RunWith launch r left name opts args) Q.
Proof.
  intros Hf Hi HP HQ h.
  destruct (RunWith_runs launch r left name opts args h) as [(e & l & -> & _)|(spec & env & stdin & l & Hc & Hl & ->)].
  - split; [by apply started_same|done].
  - destruct Hc as (Hs & _). destruct (Hl Hf) as [_ Ein]. rewrite Hi in Ein. cbn in Ein. subst stdin. unfold bind, execute, answer. destruct (launch _ _) as [raw h1] eqn:El. cbn.
    split; [|intros a Ha; eapply (HQ spec _ _ a); [done| |by rewrite El]; done].
    exists [process_of spec env left opts args NoInput]. split; [done|]. constructor; [by apply HP|done].
Qed.
End runs.

(** ** What a deployment may start *)
Section commands.
Context {T : Type} (launch : Process -> Machine T -> Raw * Machine T).
Context (Error : deploy_err -> string) (user_Lookup : string -> option (string * string * string)).
Context (progress : Z -> string -> Machine T -> Machine T).
Context (p : Provider) (req : Request).
Local Abbreviation M := (Store.M (Machine T) deploy_err).

(** What git printed: nothing, or the output of a command that succeeded. *)
Definition printed (t : string) : Prop :=
  t = "" \/ exists spec pr h r, specs (runner p) !! CommandGit = Some spec /\ head (p_Args pr) = Some "-C" /\
    outcome spec (fst (launch pr h)) = Ok r /\ t = trim_newlines (Stdout r).

(** A revision: the request's, which is no option, or one git printed. *)
Definition named (t : string) : Prop := (t = q_Commit req /\ has_prefix "-" t = false) \/ printed t.

Inductive git_command : list string -> Prop :=
| g_init : git_command ["init"; "-q"]
| g_url : git_command ["remote"; "get-url"; "origin"]
| g_remote verb : verb ∈ ["add"; "set-url"] -> argument (q_Remote req) ->
    git_command ["remote"; verb; "origin"; "--"; q_Remote req]
| g_fetch : has_prefix "-" (q_Branch req) = false -> git_command ["fetch"; "--prune"; "origin"; "--"; q_Branch req]
| g_head : git_command ["rev-parse"; "HEAD"]
| g_tip : git_command ["rev-parse"; "--verify"; "origin/" ++ q_Branch req]
| g_log format t : format ∈ ["--pretty=%s"; "--pretty=%an"] -> named t -> git_command ["log"; "-1"; format; t]
| g_status : git_command ["status"; "--porcelain"]
| g_reset t : named t -> git_command ["reset"; "--hard"; t].

Inductive deploy_command : string -> list string -> Prop :=
| runs_git args : git_command args -> deploy_command CommandGit ("-C" :: q_DocumentRoot req :: args)
| runs_step kind t : kind ∈ q_Actions req -> templates kind = Some t -> deploy_command (tool t) (argv t)
| runs_script : ActionScript ∈ q_Actions req ->
    deploy_command CommandDeployShell [ScriptPath (paths p) (q_Account req)].

(** The numbers of the site's account, which are not root's. *)
Definition site_ids (uid gid : Z) : Prop :=
  exists u g home, user_Lookup (q_Account req) = Some (u, g, home) /\ atoi u = Some uid /\ atoi g = Some gid /\
    uid <> 0%Z /\ gid <> 0%Z.

Definition site_process (pr : Process) : Prop :=
  exists name spec uid gid, specs (runner p) !! name = Some spec /\ p_Path pr = s_Path spec /\
    deploy_command name (p_Args pr) /\ p_Dir pr = q_DocumentRoot req /\ p_Stdin pr = NoInput /\
    site_ids uid gid /\ p_Credential pr = Some (uint32 uid, uint32 gid).

Definition owner_ok (o : account) : Prop := acc_Name o = q_Account req /\ site_ids (acc_UID o) (acc_GID o).

Context (progress_ran : forall n s h, ran (progress n s h) = ran h).
Context (Hroot : has_prefix "/" (q_DocumentRoot req) = true).

Local Abbreviation goes := (runs site_process).

Lemma as_site_process name spec owner env direnv left args : specs (runner p) !! name = Some spec -> owner_ok owner ->
  deploy_command name args ->
  site_process (process_of spec env left (as_site owner (q_DocumentRoot req) direnv) args NoInput).
Proof.
  intros Hs [_ Hi] Hc. exists name, spec, (acc_UID owner), (acc_GID owner). split_and!; try done.
  cbn. by destruct (String.eqb_spec (q_DocumentRoot req) "") as [E|]; [rewrite E in Hroot|].
Qed.

Lemma goes_program left name owner env args Q : owner_ok owner -> deploy_command name args ->
  (forall spec pr h a, specs (runner p) !! name = Some spec -> p_Args pr = args -> outcome spec (fst (launch pr h)) = Ok a -> Q a) ->
  goes (RunWith launch (runner p) left name (as_site owner (q_DocumentRoot req) env) args) Q.
Proof. intros Ho Hc HQ. apply runs_RunWith; [done|done| |done]. intros spec env' Hs. by eapply as_site_process. Qed.

Lemma goes_running {A} what (m : Store.M (Machine T) run_err A) Q : goes m Q -> goes (running what m : M A) Q.
Proof. intros Hm h. unfold running. destruct (Hm h) as [Hs Hq]. destruct (m h) as [[a|e] h1]; split; try done; cbn; intros b [= <-]; by apply Hq. Qed.

(** The answer of a git command that ran. *)
Definition git_answer (r : Result) : Prop :=
  exists spec pr h, specs (runner p) !! CommandGit = Some spec /\ head (p_Args pr) = Some "-C" /\
    outcome spec (fst (launch pr h)) = Ok r.
Definition on_ok {E A} (Q : A -> Prop) (r : result E A) : Prop := match r with Ok a => Q a | Err _ => True end.

Lemma goes_attempt {A} (m : M A) Q : goes m Q -> goes (attempt m) (on_ok Q).
Proof. intros Hm. by eapply runs_attempt; [exact Hm| |]. Qed.
Lemma goes_any {A} (m : M A) Q : goes m Q -> goes m (fun _ => True).
Proof. intros Hm. by eapply runs_weaken. Qed.

Lemma goes_git owner opts args : owner_ok owner -> git_command args ->
  goes (git launch p owner (q_DocumentRoot req) opts args) git_answer.
Proof.
  intros Ho Hc. apply goes_program; [done|by constructor|]. intros spec pr h a Hs Ha Hr. exists spec, pr, h.
  by rewrite Ha.
Qed.

Lemma goes_gitOutput owner args : owner_ok owner -> git_command args ->
  goes (gitOutput launch p owner (q_DocumentRoot req) args) printed.
Proof.
  intros Ho Hc. eapply runs_bind; [by apply goes_attempt, goes_running, goes_git|].
  intros [r|e] Hr; apply runs_ret; [|by left]. destruct (Succeeded r); [right|by left].
  destruct Hr as (spec & pr & h & Hs & Ha & Hr). by exists spec, pr, h, r.
Qed.

Lemma goes_git_do what owner args : owner_ok owner -> git_command args ->
  goes (git_do launch p what owner (q_DocumentRoot req) args) (fun _ => True).
Proof.
  intros Ho Hc. eapply runs_bind; [by apply goes_running, goes_git|]. intros r _.
  destruct (Succeeded r); [by apply runs_ret|apply runs_fail].
Qed.

Lemma rule_ok {A} (r : result deploy_rule_err A) a : rule r = Ok a -> r = Ok a.
Proof. destruct r; [|done]. by intros [= ->]. Qed.

Lemma lookup_owner : goes (lookupAccount user_Lookup (q_Account req) : M account) owner_ok.
Proof.
  unfold lookupAccount. eapply runs_bind; [by apply (runs_answer _ _ (fun _ => True))|]. intros _ _.
  destruct (user_Lookup (q_Account req)) as [[[u g] home]|] eqn:Eu; [|apply runs_fail].
  destruct (atoi u) as [uid|] eqn:E1; [|apply runs_fail]. destruct (atoi g) as [gid|] eqn:E2; [|apply runs_fail].
  destruct (_ || _) eqn:Ez; [apply runs_fail|]. apply orb_false_iff in Ez as [Z1 Z2].
  eapply runs_bind; [by apply (runs_get _ _ (fun _ => True))|]. intros found _. apply runs_ret. split; [done|].
  exists u, g, home. split_and!; try done; by apply Z.eqb_neq.
Qed.

Lemma goes_ensureDirs : goes (ensureDirs p : M unit) (fun _ => True).
Proof.
  unfold ensureDirs. generalize ([StateDir (paths p); KeyDir (paths p); ScriptDir (paths p)]). intros l.
  induction l as [|d l IH]; cbn [each_dir]; [by apply runs_ret|].
  eapply runs_bind; [by apply (runs_io _ _ _ (fun _ => True))|]. intros _ _.
  eapply runs_bind; [apply (runs_io _ _ _ (fun _ => True)); [|done]; intros h; by case_match|]. by intros _ _.
Qed.

Context (Hreq : checkRequest req = Ok tt).

Lemma request_checked :
  argument (q_Remote req) /\ has_prefix "-" (q_Branch req) = false /\
  (q_Commit req = "" \/ has_prefix "-" (q_Commit req) = false).
Proof.
  unfold checkRequest in Hreq.
  destruct (SystemUser (q_Account req)) as [[]|]; [|done]. cbn [rule rbind] in Hreq.
  destruct (_ || _) in Hreq; [done|]. cbn [guard rbind] in Hreq.
  destruct (GitRemote (q_Remote req)) as [[]|] eqn:Er; [|done]. cbn [rule rbind] in Hreq.
  destruct (GitBranch (q_Branch req)) as [[]|] eqn:Eb; [|done]. cbn [rule rbind] in Hreq.
  split; [by apply GitRemote_ok|]. split; [by apply GitBranch_ok|].
  destruct (String.eqb_spec (q_Commit req) ""); [by left|right]. cbn [negb] in Hreq.
  destruct (CommitSHA (q_Commit req)) as [[]|] eqn:Ec; [|done]. by apply CommitSHA_ok.
Qed.

Lemma named_commit : q_Commit req <> "" -> named (q_Commit req).
Proof. intros Hne. destruct request_checked as (_ & _ & [?|?]); [done|by left]. Qed.
Lemma goes_seq {A B} (m : M A) (k : A -> M B) Q :
  goes m (fun _ => True) -> (forall a, goes (k a) Q) -> goes (bind m k) Q.
Proof. intros Hm Hk. by eapply runs_bind; [exact Hm|]. Qed.
Lemma goes_then {A B} (m : M A) (k : A -> M B) R Q : goes m R -> (forall a, R a -> goes (k a) Q) -> goes (bind m k) Q.
Proof. apply runs_bind. Qed.
Lemma goes_check {A} (r : result deploy_err A) : goes (answer r : M A) (fun _ => True).
Proof. by apply runs_answer. Qed.
Lemma goes_look {A} (f : Machine T -> A) : goes (get f : M A) (fun _ => True).
Proof. by apply runs_get. Qed.
Lemma goes_call {A} (f : Machine T -> result deploy_err A * Machine T) :
  (forall h, ran (snd (f h)) = ran h) -> goes (io SystemCall f : M A) (fun _ => True).
Proof. intros Hf. by apply runs_io. Qed.
Lemma goes_report n s : goes (report progress n s : M unit) (fun _ => True).
Proof. intros h. split; [|done]. apply started_same, progress_ran. Qed.

Lemma goes_setRemote owner : owner_ok owner ->
  goes (setRemote launch p owner (q_DocumentRoot req) (q_Remote req)) (fun _ => True).
Proof.
  intros Ho. apply goes_seq; [apply goes_check|]. intros _.
  eapply goes_then; [by apply goes_running, goes_git; [|constructor]|]. intros r _.
  destruct (_ && _); [by apply runs_ret|]. apply goes_git_do; [done|]. constructor; [|apply request_checked].
  destruct (Succeeded r); [by right; left|by left].
Qed.

Lemma goes_fetch owner : owner_ok owner -> goes (fetch launch p owner req) (fun _ => True).
Proof.
  intros Ho. eapply goes_then; [by apply goes_running, goes_git; [|constructor; apply request_checked]|]. intros r _.
  destruct (Succeeded r); [by apply runs_ret|apply runs_fail].
Qed.

Lemma goes_Clone log : goes (Clone launch user_Lookup p req log) (fun _ => True).
Proof.
  eapply goes_then.
  - apply goes_attempt. eapply goes_then; [apply lookup_owner|]. intros owner Ho.
    apply goes_seq; [apply goes_check|]. intros _. apply goes_seq; [apply goes_check|]. intros _.
    apply goes_seq; [apply goes_look|]. intros found. destruct found; [|apply runs_fail].
    apply goes_seq; [apply goes_ensureDirs|]. intros _. apply (runs_ret _ _ owner_ok Ho).
  - intros [owner|e] Ho; [|by apply runs_ret]. cbn in Ho. cbv zeta.
    eapply goes_then; [apply goes_attempt, goes_seq|].
    + apply goes_git_do; [done|constructor].
    + intros _. by apply goes_setRemote.
    + intros [r|e] _; [|by apply runs_ret]. eapply goes_then; [by apply goes_attempt, goes_fetch|].
      intros r' _. by apply runs_ret.
Qed.

Lemma goes_Checkout target : named target -> goes (Checkout launch user_Lookup p req target) printed.
Proof.
  intros Hn. eapply goes_then; [apply lookup_owner|]. intros owner Ho.
  apply goes_seq; [by apply goes_git_do; [|constructor]|]. intros _. by apply goes_gitOutput; [|constructor].
Qed.

Lemma goes_resolve owner : owner_ok owner -> goes (resolve launch p owner req) named.
Proof.
  intros Ho. unfold resolve. destruct (String.eqb_spec (q_Commit req) ""); cbn [negb].
  - eapply goes_then; [by apply goes_gitOutput; [|apply g_tip]|]. intros sha Hs.
    destruct (sha =? ""); [apply runs_fail|]. apply runs_ret. by right.
  - apply goes_seq; [apply goes_check|]. intros _. by apply runs_ret, named_commit.
Qed.

Lemma goes_describe owner sha : owner_ok owner -> named sha ->
  goes (describe launch p owner (q_DocumentRoot req) sha) (fun _ => True).
Proof.
  intros Ho Hn. eapply goes_then; [apply goes_gitOutput; [done|by constructor; [left|]]|]. intros m _.
  eapply goes_then; [apply goes_gitOutput; [done|by constructor; [right; left|]]|]. intros a _. by apply runs_ret.
Qed.

Lemma goes_writeScript path body owner : goes (writeScript path body owner : M unit) (fun _ => True).
Proof.
  apply goes_seq; [by apply goes_call|]. intros _.
  apply goes_seq; [apply goes_call; intros h; by case_match|]. intros _. apply goes_call; intros h; by case_match.
Qed.

Lemma goes_runAction owner kind : owner_ok owner -> kind ∈ q_Actions req ->
  goes (runAction launch p owner req kind) (fun _ => True).
Proof.
  intros Ho Hk. unfold runAction. destruct (String.eqb_spec kind ActionScript) as [->|Hne].
  - unfold runScript. destruct (_ =? ""); [by apply runs_ret|]. apply goes_seq; [apply goes_check|]. intros _.
    apply goes_seq; [apply goes_look|]. intros shell. destruct shell; [cbn [negb]|apply runs_fail].
    apply goes_seq; [apply goes_ensureDirs|]. intros _. apply goes_seq; [apply goes_check|]. intros _. cbv zeta.
    apply goes_seq; [apply goes_writeScript|]. intros _.
    eapply goes_then; [apply goes_attempt, goes_running, (goes_program _ _ _ _ _ (fun _ => True)); [done| |done]|].
    + destruct Ho as [-> _]. by constructor.
    + intros r _. eapply goes_then; [apply goes_attempt; by apply goes_call|]. intros _ _.
      apply goes_seq; [apply goes_check|]. intros a. by apply runs_ret.
  - destruct (templates kind) as [t|] eqn:Et; [|apply runs_fail].
    apply goes_seq; [apply goes_look|]. intros there. destruct there; [cbn [negb]|apply runs_fail].
    apply goes_seq; [|intros a; by apply runs_ret]. apply goes_running, goes_program; [done| |done]. by econstructor.
Qed.

Definition known (r : DResult) : Prop := printed (PreviousCommit r).

Lemma goes_rollback result log : known result -> goes (rollback launch Error user_Lookup p req result log) (fun _ => True).
Proof.
  intros Hk. unfold rollback. repeat (destruct (if _ then _ else _) || case_match); try by apply runs_ret.
  all: cbv zeta; eapply goes_then; [by apply goes_attempt, goes_Checkout; right|].
  all: intros [c|e] _; by apply runs_ret.
Qed.

Lemma goes_steps owner : owner_ok owner -> forall actions index result log, actions ⊆ q_Actions req -> known result ->
  goes (run_steps launch Error user_Lookup progress p owner req index actions result log) (fun _ => True).
Proof.
  intros Ho actions. induction actions as [|kind more IH]; intros index result log Hs Hk; cbn [run_steps].
  - apply goes_seq; [apply goes_report|]. intros _. by apply runs_ret.
  - apply goes_seq; [apply goes_report|]. intros _. cbv zeta.
    eapply goes_then; [apply goes_attempt, goes_runAction; [done|apply Hs, list_elem_of_here]|].
    intros [step|e] _.
    + destruct (negb _).
      * apply goes_seq; [by apply goes_rollback|]. intros [r l]. by apply runs_ret.
      * apply IH; [|done]. intros k Hin. apply Hs. by apply list_elem_of_further.
    + apply goes_seq; [by apply goes_rollback|]. intros [r l]. by apply runs_ret.
Qed.

Lemma goes_check_out owner target result log : owner_ok owner -> named target -> known result ->
  goes (check_out launch Error user_Lookup progress p owner req target result log) (fun _ => True).
Proof.
  intros Ho Hn Hk. apply goes_seq; [apply goes_report|]. intros _. cbv zeta.
  eapply goes_then; [by apply goes_attempt, goes_Checkout|]. intros [c|e] Hc; [|by apply runs_ret].
  apply goes_seq; [apply goes_describe; [done|by right]|]. intros [m a]. by apply goes_steps.
Qed.
End commands.

Section whole.
Context {T : Type} (launch : Process -> Machine T -> Raw * Machine T).
Context (Error : deploy_err -> string) (user_Lookup : string -> option (string * string * string)).
Context (progress : Z -> string -> Machine T -> Machine T) (p : Provider).
Context (progress_ran : forall n s h, ran (progress n s h) = ran h).

Lemma checked_root req : checkRequest req = Ok tt -> has_prefix "/" (q_DocumentRoot req) = true.
Proof.
  unfold checkRequest. destruct (SystemUser (q_Account req)) as [[]|]; [|done]. cbn [rule rbind].
  destruct (_ || _) eqn:E; [done|]. intros _. apply orb_false_iff in E as [_ E]. by apply negb_false_iff in E.
Qed.

Lemma goes_Deploy req : runs (site_process launch user_Lookup p req)
  (Deploy launch Error user_Lookup progress p req) (fun _ => True).
Proof.
  unfold Deploy. eapply runs_bind; [by apply (runs_get _ _ (fun _ => True))|]. intros available _.
  destruct available; [cbn [negb]|by apply runs_ret].
  destruct (checkRequest req) as [[]|e] eqn:Er; [|by apply runs_ret]. pose proof (checked_root req Er) as Hroot.
  eapply runs_bind; [apply goes_attempt; by apply lookup_owner|]. intros [owner|e] Ho; [|by apply runs_ret]. cbn in Ho.
  eapply runs_bind; [apply goes_gitOutput; [done|done|constructor]|]. intros previous Hp. cbv zeta.
  apply goes_seq; [by apply goes_report|]. intros _.
  eapply runs_bind; [by apply goes_Clone|]. intros [log [r|e]] _; [|by apply runs_ret].
  apply goes_seq; [by apply goes_report|]. intros _.
  eapply runs_bind; [by apply goes_attempt, goes_resolve|]. intros [target|e] Hn; [|by apply runs_ret]. cbn in Hn.
  apply goes_seq.
  - unfold nothing_to_do. destruct (_ =? _); [|by apply runs_ret].
    apply goes_seq; [|intros c; by apply runs_ret].
    eapply runs_bind; [apply goes_gitOutput; [done|done|constructor]|]. intros s _. by apply runs_ret.
  - intros idle. destruct idle; [|by apply goes_check_out].
    cbv zeta. apply goes_seq; [by apply goes_describe|]. intros [m a]. by apply runs_ret.
Qed.

(** C5: Whatever is asked for, whatever git and the build print or do, and whatever fails: every program a
    deployment starts runs as the website's own account, whose user and group are not root's, in
    the website's document root, with nothing on its input; and it is git with one of nine fixed
    command lines, a step of the closed table, or the shell with the path of the script. What a
    command line takes from the request is the repository's address, the branch and the commit,
    none of which git can read as an option. *)
Theorem deployment_runs_as_the_site req h :
  (forall name u g home uid gid, user_Lookup name = Some (u, g, home) -> atoi u = Some uid -> atoi g = Some gid ->
     0 <= uid < 2 ^ 32 /\ 0 <= gid < 2 ^ 32)%Z ->
  exists l, ran (snd (Deploy launch Error user_Lookup progress p req h)) = (ran h ++ l)%list /\
    Forall (fun pr => exists name spec uid gid,
      specs (runner p) !! name = Some spec /\ p_Path pr = s_Path spec /\
      deploy_command launch p req name (p_Args pr) /\ p_Dir pr = q_DocumentRoot req /\ p_Stdin pr = NoInput /\
      site_ids user_Lookup req uid gid /\ p_Credential pr = Some (uid, gid)) l.
Proof.
  intros Hids. destruct (goes_Deploy req h) as [(l & El & Hl) _]. exists l. split; [done|].
  eapply list.Forall_impl; [exact Hl|].
  intros pr (name & spec & uid & gid & Hs & Hp & Hc & Hd & Hi & Hu & Hcr).
  exists name, spec, uid, gid. split_and!; try done. rewrite Hcr.
  destruct Hu as (u & g & home & Hlook & Hau & Hag & _).
  destruct (Hids _ _ _ _ _ _ Hlook Hau Hag) as [H1 H2]. unfold uint32. by rewrite !Z.mod_small.
Qed.
End whole.
