(* ===== verification/DeployTree.v ===== *)
(** * Where a deployment leaves the working tree

    What git is documented to do with HEAD, and what follows for [DeployHost.Deploy]: its answer
    says which commit the working tree is on, and a failure that is rolled back leaves the tree
    on the commit it was on. *)

From stdpp Require Import gmap.
From S2P Require Import Prelude Store GoStr GoTime TenancyRules DnsRules DeployRules Protocol CommandRunner DeployHost DeployRun.

#[local] Open Scope string_scope.
#[local] Open Scope store_scope.

(** A commit's identifier in full. *)
Definition commit_id (c : string) : Prop :=
  str_forall is_hex c = true /\ (String.length c = 40 \/ String.length c = 64)%nat.

(** What a process printed, in bytes. *)
Definition printed_bytes (raw : Raw) : Z :=
  Z.of_nat (String.length (concat_all (r_Out raw)) + String.length (concat_all (r_Err raw))).

(** git as documented: [rev-parse HEAD] prints the commit HEAD is on, if there is one; a hard
    reset moves HEAD or says no; no other command a deployment runs moves it, and neither do the
    site's steps; and the site's programs cannot take git away. A reset that is cut off by its
    deadline is left out. *)
Class GitLaws {T} (launch : Process -> Machine T -> Raw * Machine T) (gitpath : string) := {
  tree_head : string -> T -> option string;
  head_commit root t c : tree_head root t = Some c -> commit_id c;
  says_head pr root h : p_Path pr = gitpath -> p_Args pr = ["-C"; root; "rev-parse"; "HEAD"] ->
    let raw := fst (launch pr h) in
    match tree_head root (rest h) with
    | Some c => r_End raw = Exited 0 /\ concat_all (r_Out raw) = c ++ nl /\ r_Err raw = []
    | None => exists n, r_End raw = Exited n /\ n <> 0%Z
    end;
  reset_moves pr root c h : p_Path pr = gitpath -> p_Args pr = ["-C"; root; "reset"; "--hard"; c] ->
    let raw := fst (launch pr h) in let h' := snd (launch pr h) in
    (r_End raw = Exited 0 /\ (printed_bytes raw < DefaultMaxOutput)%Z /\
       exists c', tree_head root (rest h') = Some c' /\ (commit_id c -> c' = c)) \/
    (exists n, r_End raw = Exited n /\ n <> 0%Z /\ tree_head root (rest h') = tree_head root (rest h));
  others_stay pr root root' verb more h : p_Path pr = gitpath -> p_Args pr = "-C" :: root' :: verb :: more ->
    verb <> "reset" -> tree_head root (rest (snd (launch pr h))) = tree_head root (rest h);
  steps_stay pr root h : p_Path pr <> gitpath -> tree_head root (rest (snd (launch pr h))) = tree_head root (rest h);
  git_stays pr h : isExecutable gitpath h = true -> isExecutable gitpath (snd (launch pr h)) = true;
}.

Section tree.
Context {T : Type} (launch : Process -> Machine T -> Raw * Machine T) (gitpath : string) `{!GitLaws launch gitpath}.
Context (Error : deploy_err -> string) (user_Lookup : string -> option (string * string * string)).
Context (progress : Z -> string -> Machine T -> Machine T) (p : Provider) (req : Request).
Local Abbreviation M := (Store.M (Machine T) deploy_err).

(** git is the Agent's, the callback is about the job, accounts' homes are lines of text, and no
    script is written over git. *)
Context (Hgit : specs (runner p) !! CommandGit = Some (with_defaults (git_spec gitpath))).
Context (Hothers : forall name s, specs (runner p) !! name = Some s -> s_Path s = gitpath -> name = CommandGit).
Context (Hprogress : forall n s h, fs (progress n s h) = fs h /\ rest (progress n s h) = rest h).
Context (Hhome : forall name u g home, user_Lookup name = Some (u, g, home) -> value_ok home = true).
Context (Hscript : ScriptPath (paths p) (q_Account req) <> gitpath).

Local Abbreviation root := (q_DocumentRoot req).
Definition on (h : Machine T) : option string := tree_head root (rest h).
Definition git_there (h : Machine T) : Prop := isExecutable gitpath h = true.

(** What leaves HEAD where it is. *)
Definition stays (h h' : Machine T) : Prop := on h' = on h /\ (git_there h -> git_there h').
Lemma stays_refl h : stays h h.
Proof. by split. Qed.
Lemma stays_trans h1 h2 h3 : stays h1 h2 -> stays h2 h3 -> stays h1 h3.
Proof. intros [E1 G1] [E2 G2]. split; [congruence|auto]. Qed.
Definition still {E A} (m : Store.M (Machine T) E A) : Prop := respects stays m.

Lemma tree_still_bind {E A B} (m : Store.M (Machine T) E A) (k : A -> Store.M (Machine T) E B) :
  still m -> (forall a, still (k a)) -> still (bind m k).
Proof. apply respects_bind, stays_trans. Qed.
Lemma tree_still_pure {E A} (m : Store.M (Machine T) E A) : (forall h, snd (m h) = h) -> still m.
Proof. intros Hm h. rewrite Hm. apply stays_refl. Qed.
Lemma tree_still_attempt {E A} (m : Store.M (Machine T) E A) : still m -> still (attempt m).
Proof. apply respects_attempt. Qed.
Lemma still_running {A} what (m : Store.M (Machine T) run_err A) : still m -> still (running what m : M A).
Proof. intros Hm h. specialize (Hm h). unfold running. by destruct (m h) as [[a|e] h']. Qed.
Lemma still_faults l (h : Machine T) : stays h (with_faults l h).
Proof. by split. Qed.
Lemma still_io {A} (f : Machine T -> result deploy_err A * Machine T) :
  (forall h, rest (snd (f h)) = rest h) -> (forall h, fs (snd (f h)) !! gitpath = fs h !! gitpath) -> still (io SystemCall f : M A).
Proof.
  intros Hr Hf. assert (Hs : forall h, stays h (snd (f h))).
  { intros h. split; [unfold on; by rewrite Hr|]. unfold git_there, isExecutable. by rewrite Hf. }
  intros h. unfold io. destruct (m_faults h) as [|[] l]; try apply still_faults; [apply Hs|].
  eapply stays_trans; [apply (still_faults l)|apply Hs].
Qed.

(** A command line of git that leaves HEAD alone. *)
Definition reads (args : list string) : Prop := exists verb more, args = verb :: more /\ verb <> "reset".

Lemma launch_stays pr l h : (p_Path pr = gitpath -> exists r args, p_Args pr = "-C" :: r :: args /\ reads args) ->
  stays h (set_ran l (snd (launch pr h))).
Proof.
  intros Hp. split; [|apply git_stays]. unfold on. cbn. destruct (decide (p_Path pr = gitpath)) as [E|E].
  - destruct (Hp E) as (r & args & Ea & verb & more & -> & Hv). by eapply others_stay.
  - by apply steps_stay.
Qed.

Lemma still_RunWith left name opts args : o_StdinFile opts = "" ->
  (name <> CommandGit \/ exists r args', args = "-C" :: r :: args' /\ reads args') ->
  still (RunWith launch (runner p) left name opts args).
Proof.
  intros Hf Hn h. destruct (RunWith_runs launch (runner p) left name opts args h)
    as [(e & l & -> & _)|(spec & env & stdin & l & Hc & _ & ->)]; [apply still_faults|].
  destruct Hc as (Hs & _). unfold bind, execute, answer.
  pose proof (launch_stays (process_of spec env left opts args stdin) (ran (with_faults l h) ++ [process_of spec env left opts args stdin])
    (with_faults l h)) as Hl.
  destruct (launch _ _) as [raw h1]. cbn in *. eapply stays_trans; [apply (still_faults l)|]. apply Hl. intros E.
  destruct Hn as [Hn|Hn]; [destruct Hn; by eapply Hothers|]. by destruct Hn as (r & args' & -> & Hr); exists r, args'.
Qed.

Lemma still_git owner opts args : reads args -> still (git launch p owner root opts args).
Proof. intros Hr. apply still_RunWith; [done|right]. by exists root, args. Qed.
Lemma still_gitOutput owner args : reads args -> still (gitOutput launch p owner root args : M string).
Proof.
  intros Hr. apply tree_still_bind; [by apply tree_still_attempt, still_running, still_git|]. intros r. by apply tree_still_pure.
Qed.
Lemma still_git_do what owner args : reads args -> still (git_do launch p what owner root args : M unit).
Proof.
  intros Hr. apply tree_still_bind; [by apply still_running, still_git|]. intros r. apply tree_still_pure. by destruct (Succeeded r).
Qed.
Lemma tree_still_check {A} (r : result deploy_err A) : still (answer r : M A).
Proof. by apply tree_still_pure. Qed.
Lemma still_report n s : still (report progress n s : M unit).
Proof.
  intros h. destruct (Hprogress n s h) as [Hf Hr]. unfold report, update. cbn. split; [unfold on; by rewrite Hr|].
  unfold git_there, isExecutable. by rewrite Hf.
Qed.

Lemma still_lookup name : still (lookupAccount user_Lookup name : M account).
Proof.
  apply tree_still_bind; [apply tree_still_check|]. intros _. destruct (user_Lookup name) as [[[u g] home]|]; [|by apply tree_still_pure].
  destruct (atoi u), (atoi g); try by apply tree_still_pure. destruct (_ || _); [by apply tree_still_pure|].
  apply tree_still_bind; [by apply tree_still_pure|]. intros b. by apply tree_still_pure.
Qed.

Lemma still_ensureDirs : still (ensureDirs p : M unit).
Proof.
  unfold ensureDirs. generalize ([StateDir (paths p); KeyDir (paths p); ScriptDir (paths p)]). intros l.
  induction l as [|d l IH]; cbn [each_dir]; [by apply tree_still_pure|].
  apply tree_still_bind; [by apply still_io|]. intros _.
  apply tree_still_bind; [apply still_io; intros h; by case_match|]. by intros _.
Qed.

Lemma still_Clone log : still (Clone launch user_Lookup p req log : M _).
Proof.
  apply tree_still_bind.
  - apply tree_still_attempt, tree_still_bind; [apply still_lookup|]. intros owner.
    apply tree_still_bind; [apply tree_still_check|]. intros _. apply tree_still_bind; [apply tree_still_check|]. intros _.
    apply tree_still_bind; [by apply tree_still_pure|]. intros found. destruct found; [|by apply tree_still_pure].
    apply tree_still_bind; [apply still_ensureDirs|]. intros _. by apply tree_still_pure.
  - intros [owner|e]; [|by apply tree_still_pure]. cbv zeta. apply tree_still_bind.
    + apply tree_still_attempt, tree_still_bind; [by apply still_git_do; do 2 eexists|]. intros _.
      apply tree_still_bind; [apply tree_still_check|]. intros _.
      apply tree_still_bind; [by apply still_running, still_git; do 2 eexists|]. intros r.
      destruct (_ && _); [by apply tree_still_pure|]. by apply still_git_do; do 2 eexists.
    + intros [r|e]; [|by apply tree_still_pure]. apply tree_still_bind; [|intros r'; by apply tree_still_pure].
      apply tree_still_attempt, tree_still_bind; [by apply still_running, still_git; do 2 eexists|]. intros r'.
      apply tree_still_pure. by destruct (Succeeded r').
Qed.

Lemma still_resolve owner : still (resolve launch p owner req : M string).
Proof.
  unfold resolve. destruct (negb _).
  - apply tree_still_bind; [apply tree_still_check|]. intros _. by apply tree_still_pure.
  - apply tree_still_bind; [by apply still_gitOutput; do 2 eexists|]. intros s. apply tree_still_pure. by destruct (s =? "").
Qed.

Lemma still_describe owner sha : still (describe launch p owner root sha : M _).
Proof.
  apply tree_still_bind; [by apply still_gitOutput; do 2 eexists|]. intros m.
  apply tree_still_bind; [by apply still_gitOutput; do 2 eexists|]. intros a. by apply tree_still_pure.
Qed.

Lemma template_tool kind t : templates kind = Some t -> tool t = CommandComposer \/ tool t = CommandNpm \/ tool t = CommandPHP.
Proof. unfold templates. repeat (case_match; [intros [= <-]; auto|]). done. Qed.

Lemma still_runAction owner kind : acc_Name owner = q_Account req -> still (runAction launch p owner req kind : M stepResult).
Proof.
  intros Hname. unfold runAction. destruct (kind =? ActionScript).
  - unfold runScript. rewrite Hname. destruct (_ =? ""); [by apply tree_still_pure|]. apply tree_still_bind; [apply tree_still_check|]. intros _.
    apply tree_still_bind; [by apply tree_still_pure|]. intros shell. destruct shell; [cbn [negb]|by apply tree_still_pure].
    apply tree_still_bind; [apply still_ensureDirs|]. intros _. apply tree_still_bind; [apply tree_still_check|]. intros _. cbv zeta.
    apply tree_still_bind; [|intros _; apply tree_still_bind; [by apply tree_still_attempt, still_running, still_RunWith; [|left]|]].
    + apply tree_still_bind; [apply still_io; [done|]; intros h; cbn; by rewrite lookup_insert_ne|]. intros _.
      apply tree_still_bind; [|intros _]; (apply still_io; intros h; case_match; [done|done|cbn|done]; by rewrite ?lookup_insert_ne).
    + intros r. apply tree_still_bind; [apply tree_still_attempt, still_io; [done|]; intros h; cbn; by rewrite lookup_delete_ne|].
      intros _. apply tree_still_bind; [apply tree_still_check|]. intros a. by apply tree_still_pure.
  - destruct (templates kind) as [t|] eqn:Et; [|by apply tree_still_pure].
    apply tree_still_bind; [by apply tree_still_pure|]. intros there. destruct there; [cbn [negb]|by apply tree_still_pure].
    apply tree_still_bind; [|intros a; by apply tree_still_pure]. apply still_running, still_RunWith; [done|left].
    by apply template_tool in Et as [-> | [-> | ->]].
Qed.

(** ** The commands that look at HEAD and move it *)
Lemma trim_commit c : commit_id c -> trim_newlines (c ++ nl) = c.
Proof.
  intros [Hx Hl]. unfold trim_newlines. assert (Hne : c <> "") by (intros ->; cbn in Hl; lia). clear Hl.
  induction c as [|a c IH]; [done|]. cbn in Hx. apply andb_true_iff in Hx as [Ha Hx].
  cbn [String.append trim_right_set]. destruct (str_forall (fun b => contains_char b nl) (String a (c ++ nl))) eqn:E.
  - exfalso. cbn in E. apply andb_true_iff in E as [E _]. revert Ha E. each_char a.
  - f_equal. destruct c as [|b c]; [done|]. by apply IH.
Qed.

(** The checks before a plain git command pass for good once they passed for one. *)
Definition home_ok (owner : account) : Prop := value_ok (acc_Home owner) = true /\ acc_Name owner = q_Account req.

Lemma lookup_home (h : Machine T) owner h' : lookupAccount user_Lookup (q_Account req) h = (Ok owner, h') -> home_ok owner.
Proof.
  unfold lookupAccount, bind, answer. destruct (rule (SystemUser _)) as [[]|]; [|done].
  destruct (user_Lookup (q_Account req)) as [[[u g] home]|] eqn:El; [|done]. destruct (atoi u), (atoi g); try done.
  destruct (_ || _); [done|]. cbn. intros [= <- _]. unfold home_ok. cbn. split; [|done]. case_match; [done|by eapply Hhome].
Qed.

Lemma git_runs owner args h : home_ok owner -> git_there h -> validateArgs ("-C" :: root :: args) = Ok tt ->
  has_prefix "/" root = true ->
  exists pr, p_Path pr = gitpath /\ p_Args pr = "-C" :: root :: args /\
    git launch p owner root plain args h =
      (outcome (with_defaults (git_spec gitpath)) (fst (launch pr h)), set_ran (ran h ++ [pr]) (snd (launch pr h))).
Proof.
  intros [Hh _] Hg Hv Hr. unfold git.
  set (opts := as_site owner root (git_env p owner plain)).
  destruct (environment_succeeds (runner p) (with_defaults (git_spec gitpath)) (o_Env opts)) as [env Henv].
  { rewrite list.Forall_forall. intros [k v] Hin. apply elem_of_map_to_list in Hin. cbn in Hin |- *.
    unfold git_env in Hin. cbn [UseKey plain] in Hin.
    repeat (apply lookup_insert_Some in Hin as [[<- <-]|[_ Hin]]; [by split|]). by rewrite lookup_empty in Hin. }
  assert (Hd : o_Dir opts = root) by done. assert (Hi : o_Stdin opts = "") by done. assert (Hf : o_StdinFile opts = "") by done.
  clearbody opts. assert (Hp : s_Path (with_defaults (git_spec gitpath)) = gitpath) by done.
  generalize dependent (with_defaults (git_spec gitpath)). intros spec Hgit' Henv Hp.
  exists (process_of spec env None opts ("-C" :: root :: args) NoInput). split; [exact Hp|]. split; [reflexivity|].
  unfold RunWith. rewrite Hgit'. unfold bind, answer, get, ret. rewrite Hv, Henv, Hp.
  unfold git_there in Hg. rewrite Hg, Hd, Hi, Hf, Hr, andb_false_r. cbn [negb andb guard String.eqb].
  change ("" =? "") with true. cbn [negb andb guard]. unfold execute. cbv beta iota.
  by destruct (launch (process_of spec env None opts ("-C" :: root :: args) NoInput) h).
Qed.

Lemma git_refused owner opts args e h : validateArgs ("-C" :: root :: args) = Err e ->
  git launch p owner root opts args h = (Err e, h).
Proof. intros Hv. unfold git, RunWith. rewrite Hgit. unfold bind, answer. by rewrite Hv. Qed.

Lemma plain_args args : argument_ok root = true -> forallb argument_ok args = true -> (length args <= 8)%nat ->
  validateArgs ("-C" :: root :: args) = Ok tt.
Proof.
  intros Hr Ha Hl. unfold validateArgs. destruct (_ <? _)%nat eqn:E; [apply Nat.ltb_lt in E; cbn in E; unfold maxArgs in E; lia|].
  cbn [guard rbind forallb]. by rewrite Hr, Ha.
Qed.
Lemma args_root args : validateArgs ("-C" :: root :: args) = Ok tt -> argument_ok root = true.
Proof.
  unfold validateArgs. destruct (_ <? _)%nat; [done|]. cbn [guard rbind forallb]. by destruct (argument_ok root).
Qed.

Lemma whole_output raw code : r_End raw = Exited code -> (printed_bytes raw < DefaultMaxOutput)%Z ->
  outcome (with_defaults (git_spec gitpath)) raw =
    Ok {| ExitCode := code; Stdout := concat_all (r_Out raw); Stderr := concat_all (r_Err raw); TimedOut := false |}.
Proof.
  intros He Hb. unfold printed_bytes in Hb. unfold outcome. rewrite He.
  change (s_MaxOutput (with_defaults (git_spec gitpath))) with DefaultMaxOutput.
  destruct (collect_whole DefaultMaxOutput (r_Out raw)) as [-> ->]; [lia|].
  destruct (collect_whole DefaultMaxOutput (r_Err raw)) as [-> ->]; [lia|]. by destruct (_ =? 0)%Z.
Qed.
Lemma refused_output spec raw code : r_End raw = Exited code -> code <> 0%Z ->
  exists r, outcome spec raw = Ok r /\ Succeeded r = false.
Proof.
  intros He Hn. unfold outcome. rewrite He. apply Z.eqb_neq in Hn as E. rewrite E. eexists. split; [done|].
  unfold Succeeded. cbn. by rewrite E.
Qed.

Lemma reads_head_line : reads ["rev-parse"; "HEAD"].
Proof. by do 2 eexists. Qed.

(** HEAD as a deployment reads it. *)
Lemma head_output owner h : home_ok owner -> git_there h -> argument_ok root = true -> has_prefix "/" root = true ->
  fst (gitOutput launch p owner root ["rev-parse"; "HEAD"] h : result deploy_err string * _) = Ok (default "" (on h)).
Proof.
  intros Hh Hg Ha Hr. destruct (git_runs owner ["rev-parse"; "HEAD"] h Hh Hg) as (pr & Hp & Hargs & Eg);
    [apply plain_args; [done|done|cbn; lia]|done|].
  unfold gitOutput, bind, attempt, running. rewrite Eg.
  pose proof (says_head pr root h Hp Hargs) as Hs. unfold on. cbv zeta in Hs.
  destruct (tree_head root (rest h)) as [c|] eqn:Ec.
  - destruct Hs as (He & Ho & Her). pose proof (head_commit _ _ _ Ec) as Hc.
    rewrite (whole_output _ 0 He), Ho.
    + cbn. by rewrite trim_commit.
    + unfold printed_bytes. rewrite Ho, Her, length_app_str. destruct Hc as [_ [Hl|Hl]]; rewrite Hl; done.
  - destruct Hs as (n & He & Hn). destruct (refused_output (with_defaults (git_spec gitpath)) _ _ He Hn) as (r & -> & Hf).
    cbn. by rewrite Hf.
Qed.

(** The one command that moves HEAD. *)
Lemma reset_lands owner target what h r h' : home_ok owner -> git_there h -> has_prefix "/" root = true ->
  (git_do launch p what owner root ["reset"; "--hard"; target] : M unit) h = (r, h') ->
  git_there h' /\
  match r with
  | Ok _ => argument_ok root = true /\ exists c, on h' = Some c /\ (commit_id target -> c = target)
  | Err _ => on h' = on h
  end.
Proof.
  intros Hh Hg Hr. unfold git_do, bind, running.
  destruct (validateArgs ("-C" :: root :: ["reset"; "--hard"; target])) as [[]|e] eqn:Ev.
  2:{ rewrite (git_refused _ _ _ _ _ Ev). intros [= <- <-]. done. }
  destruct (git_runs owner _ h Hh Hg Ev Hr) as (pr & Hp & Hargs & ->).
  assert (Hstay : forall l, git_there (set_ran l (snd (launch pr h)))) by (intros l; by apply git_stays).
  destruct (reset_moves pr root target h Hp Hargs) as [(He & Hb & c & Hc & Ht)|(n & He & Hn & Hsame)].
  - rewrite (whole_output _ 0 He Hb). cbn. intros [= <- <-]. split; [done|]. split; [by eapply args_root|]. by exists c.
  - destruct (refused_output (with_defaults (git_spec gitpath)) _ _ He Hn) as (res & -> & Hf). rewrite Hf. cbn.
    intros [= <- <-]. by split.
Qed.

Lemma Checkout_lands target h r h' : git_there h -> has_prefix "/" root = true ->
  Checkout launch user_Lookup p req target h = (r, h') ->
  git_there h' /\
  match r with
  | Ok c => argument_ok root = true /\ on h' = Some c /\ (commit_id target -> c = target)
  | Err _ => on h' = on h
  end.
Proof.
  intros Hg Hr. unfold Checkout, bind. pose proof (still_lookup (q_Account req) h) as [Ho Hk].
  destruct (lookupAccount user_Lookup (q_Account req) h) as [[owner|e] h1] eqn:El; cbn in Ho, Hk.
  2:{ intros [= <- <-]. by split; [apply Hk|]. }
  pose proof (lookup_home _ _ _ El) as Hh.
  destruct (git_do launch p ("check out " ++ target) owner root ["reset"; "--hard"; target] h1) as [[[]|e] h2] eqn:Eg;
    destruct (reset_lands _ _ _ _ _ _ Hh (Hk Hg) Hr Eg) as [Hg2 Hl].
  2:{ intros [= <- <-]. split; [done|congruence]. }
  destruct Hl as (Ha & c & Hc & Ht). intros Hf.
  pose proof (head_output owner h2 Hh Hg2 Ha Hr) as Ehead. pose proof (still_gitOutput owner _ reads_head_line h2) as [Ho3 Hk3].
  rewrite Hf in Ehead, Ho3, Hk3. cbn in *. rewrite Hc in Ehead. cbn in Ehead. subst r. split; [auto|].
  split; [done|]. split; [congruence|done].
Qed.

Context (HError : forall e, Error e <> "").
Section absolute.
Context (Hroot : has_prefix "/" root = true).

(** The answer names the commit the tree is on. *)
Definition located (h : Machine T) (prev : string) (r : DResult) : Prop :=
  git_there h /\ PreviousCommit r = prev /\ on h = Some (Commit r) /\ (RolledBack r = true -> Commit r = prev).
(** A failure was undone, if that was asked for, there was a commit before, and undoing did not fail. *)
Definition undone (prev : string) (r : DResult) : Prop :=
  q_RollbackOnFailure req = true -> RollbackError r = "" -> prev <> "" -> Commit r = prev.
(** A result that nothing has been undone for yet. *)
Definition fresh (r : DResult) : Prop := r_Succeeded r = false /\ RolledBack r = false /\ RollbackError r = "".

Lemma rollback_lands result log h r' log' h' :
  rollback launch Error user_Lookup p req result log h = (Ok (r', log'), h') ->
  git_there h -> on h = Some (Commit result) -> fresh result ->
  (PreviousCommit result = "" \/ commit_id (PreviousCommit result)) ->
  located h' (PreviousCommit result) r' /\ undone (PreviousCommit result) r' /\ r_Succeeded r' = false.
Proof.
  intros Hr Hg Hon (Hf & Hb & He) Hp. unfold rollback in Hr. destruct (q_RollbackOnFailure req) eqn:Eq; cbn [negb] in Hr.
  2:{ injection Hr as <- _ <-. split; [unfold located; rewrite Hb; split_and!; done|].
      split; [unfold undone; by rewrite Eq|done]. }
  destruct (String.eqb_spec (PreviousCommit result) "") as [E|E].
  { injection Hr as <- _ <-. split; [unfold located; rewrite Hb; split_and!; done|]. split; [intros _ _ Hn|done]. by rewrite E in Hn. }
  destruct (String.eqb_spec (PreviousCommit result) (Commit result)) as [Es|Es].
  { injection Hr as <- _ <-. split; [unfold located; split_and!; done|]. split; [intros _ _ _; by rewrite Es|done]. }
  cbv zeta in Hr. unfold bind, attempt in Hr.
  destruct (Checkout launch user_Lookup p req (PreviousCommit result) h) as [[c|e] h2] eqn:Ec; injection Hr as <- _ <-;
    destruct (Checkout_lands _ _ _ _ Hg Hroot Ec) as [Hg2 Hl].
  - destruct Hl as (_ & Hc & Ht). destruct Hp as [Hp|Hp]; [done|]. rewrite (Ht Hp) in Hc.
    split; [unfold located; cbn; split_and!; done|]. by split.
  - split; [unfold located; cbn; rewrite Hb; split_and!; try done; congruence|]. split; [|done].
    intros _ Hn _. cbn in Hn. by apply HError in Hn.
Qed.

Lemma located_log h prev r l : located h prev r -> located h prev (set_log l r).
Proof. done. Qed.
Lemma undone_log prev r l : undone prev r -> undone prev (set_log l r).
Proof. done. Qed.

Lemma steps_land owner : home_ok owner -> forall actions index result log h r e h',
  run_steps launch Error user_Lookup progress p owner req index actions result log h = (Ok (r, e), h') ->
  git_there h -> on h = Some (Commit result) -> fresh result ->
  (PreviousCommit result = "" \/ commit_id (PreviousCommit result)) ->
  located h' (PreviousCommit result) r /\ (r_Succeeded r = true <-> e = None) /\
  (e <> None -> undone (PreviousCommit result) r).
Proof.
  intros Hh. induction actions as [|kind more IH]; intros index result log h r e h' Hr Hg Hon Hf Hp; cbn [run_steps] in Hr.
  - unfold bind, report, update, ret in Hr. injection Hr as <- <- <-. destruct Hf as (_ & Hb & He).
    set (s := ("Deployed " ++ short (Commit result))%string).
    pose proof (still_report 100 s h) as [Ho Hk].
    unfold report, update in Ho, Hk. cbn in Ho, Hk. split; [|done].
    unfold located. cbn. split_and!; [by apply Hk|done|congruence|congruence].
  - unfold bind at 1 in Hr. unfold report at 1, update at 1 in Hr.
    set (h1 := progress _ _ h) in Hr.
    assert (Hs1 : stays h h1) by apply (still_report _ _ h). destruct Hs1 as [Ho1 Hk1].
    cbv zeta in Hr. unfold bind at 1, attempt at 1 in Hr. pose proof (still_runAction owner kind (proj2 Hh) h1) as [Ho2 Hk2].
    destruct (runAction launch p owner req kind h1) as [[step|er] h2]; cbn in Ho2, Hk2.
    + destruct (st_exitCode step =? 0)%Z; cbn [negb] in Hr.
      * eapply IH; [exact Hr|auto|congruence|done|done].
      * unfold bind in Hr. destruct (rollback _ _ _ _ _ _ _ h2) as [[[r2 l2]|er] h3] eqn:Er; [|done].
        injection Hr as <- <- <-. apply rollback_lands in Er as (Hl & Hu & Hs); [|by auto|cbn; congruence|done|done].
        split; [by apply located_log|]. split; [|intros _; by apply undone_log]. cbn. rewrite Hs. done.
    + unfold bind in Hr. destruct (rollback _ _ _ _ _ _ _ h2) as [[[r2 l2]|er'] h3] eqn:Er; [|done].
      injection Hr as <- <- <-. apply rollback_lands in Er as (Hl & Hu & Hs); [|by auto|cbn; congruence|done|done].
      split; [by apply located_log|]. split; [|intros _; by apply undone_log]. cbn. rewrite Hs. done.
Qed.

Lemma commit_not_empty c : commit_id c -> c <> "".
Proof. intros [_ Hl] ->. cbn in Hl. lia. Qed.

(** What the first reading of HEAD is worth. *)
Definition reading (h : Machine T) (previous : string) : Prop :=
  (argument_ok root = true -> previous = default "" (on h)) /\ (previous <> "" -> on h = Some previous).

Lemma head_reading owner h previous h' : home_ok owner -> git_there h ->
  (gitOutput launch p owner root ["rev-parse"; "HEAD"] : M string) h = (Ok previous, h') -> reading h previous.
Proof.
  intros Hh Hg Ho. destruct (argument_ok root) eqn:Ea.
  - pose proof (head_output owner h Hh Hg Ea Hroot) as He. rewrite Ho in He. cbn in He. injection He as ->.
    split; [done|]. by destruct (on h).
  - assert (Hv : exists er, validateArgs ("-C" :: root :: ["rev-parse"; "HEAD"]) = Err er).
    { unfold validateArgs. eexists. cbn [length Nat.ltb guard rbind forallb]. by rewrite Ea, andb_false_r. }
    destruct Hv as [er Hv]. unfold gitOutput, bind, attempt, running in Ho. rewrite (git_refused _ _ _ _ _ Hv) in Ho.
    injection Ho as <- _. split; [by rewrite Ea|done].
Qed.

Lemma check_out_lands owner target result log h r e h' :
  check_out launch Error user_Lookup progress p owner req target result log h = (Ok (r, e), h') ->
  home_ok owner -> git_there h -> Commit result = "" -> fresh result -> (PreviousCommit result = "" \/ commit_id (PreviousCommit result)) ->
  (r_Succeeded r = true <-> e = None) /\
  ((on h' = on h /\ Commit r = "" /\ RolledBack r = false /\ e <> None) \/
   (argument_ok root = true /\ located h' (PreviousCommit result) r /\ (e <> None -> undone (PreviousCommit result) r))).
Proof.
  intros Hr Hh Hg Hc Hf Hp. unfold check_out, bind at 1 in Hr. pose proof (still_report 30 ("Checking out " ++ short target) h) as [Ho Hk].
  unfold report, update in Hr, Ho, Hk. cbn [fst snd] in Ho, Hk. set (h1 := progress _ _ h) in *. cbv zeta in Hr.
  unfold bind at 1, attempt in Hr.
  destruct (Checkout launch user_Lookup p req target h1) as [[c|er] h2] eqn:Ec;
    destruct (Checkout_lands _ _ _ _ (Hk Hg) Hroot Ec) as [Hg2 Hl].
  2:{ injection Hr as <- <- <-. destruct Hf as (Hs & Hb & He). split; [cbn; by rewrite Hs|]. left.
      split_and!; [congruence|done|done|done]. }
  destruct Hl as (Ha & Hon & _). unfold bind in Hr. pose proof (still_describe owner c h2) as [Ho3 Hk3].
  unfold describe, bind in Ho3, Hk3. unfold describe, bind in Hr.
  destruct (gitOutput launch p owner root ["log"; "-1"; "--pretty=%s"; c] h2) as [[m|er] h3]; [|done].
  destruct (gitOutput launch p owner root ["log"; "-1"; "--pretty=%an"; c] h3) as [[a|er] h4]; [|done].
  cbn in Ho3, Hk3. apply steps_land in Hr as (Hl & Hs & Hu); [|done|auto|cbn; congruence|done|done].
  split; [done|]. right. split; [done|]. by split.
Qed.

(** What an answer says, seen from the machine before and after. *)
Definition told (h h' : Machine T) (r : DResult) (e : option deploy_err) : Prop :=
  (r_Succeeded r = true <-> e = None) /\
  (on h' = on h /\ Commit r = "" \/ on h' = Some (Commit r)) /\
  (RolledBack r = true -> on h' = on h) /\
  (e <> None -> q_RollbackOnFailure req = true -> RollbackError r = "" -> on h <> None -> on h' = on h).

(** An early error. *)
Lemma told_error h h' r e : r_Succeeded r = false -> Commit r = "" -> on h' = on h -> told h h' r (Some e).
Proof. intros Hs Hc Ho. unfold told. rewrite Hs. by split_and!; auto. Qed.

Lemma resolve_filled owner h target h' : resolve launch p owner req h = (Ok target, h') -> target <> "".
Proof.
  unfold resolve. destruct (String.eqb_spec (q_Commit req) "") as [Eq|Eq]; cbn [negb].
  - unfold bind. destruct (gitOutput _ _ _ _ _ h) as [[sha|] h1]; [|done].
    destruct (String.eqb_spec sha ""); [done|]. by intros [= <- _].
  - unfold bind, answer, ret. destruct (rule _); [|done]. by intros [= <- _].
Qed.

Lemma told_located h h' previous r e : reading h previous -> argument_ok root = true -> located h' previous r ->
  (r_Succeeded r = true <-> e = None) -> (e <> None -> undone previous r) -> told h h' r e.
Proof.
  intros [Hp1 Hp2] Ha (_ & _ & Hon & Hb) Hs Hu. specialize (Hp1 Ha).
  assert (Hne : Commit r = previous -> on h' = on h).
  { intros Ec. rewrite Hon, Ec. symmetry. apply Hp2. rewrite <- Ec. apply commit_not_empty. by eapply head_commit. }
  unfold told. split_and!; [done|by right|auto|]. intros He Hq Her Hb0. apply Hne, Hu; [done..|].
  rewrite Hp1. destruct (on h) as [c|] eqn:Ec; [|done]. cbn. apply commit_not_empty. by eapply head_commit.
Qed.

(** From the commit to the answer. *)
Lemma resolved_told owner target previous log h h6 r e h' :
  (let! idle := nothing_to_do launch p owner req target (first_result req previous) in
   if idle then
     let log := section log ("Already on " ++ short target ++ ", and there are no steps to run") in
     let! (message, author) := describe launch p owner root target in
     ret (set_log log (set_succeeded (set_commit target message author (first_result req previous))), None)
   else check_out launch Error user_Lookup progress p owner req target (first_result req previous) log) h6 = (Ok (r, e), h') ->
  home_ok owner -> git_there h6 -> on h6 = on h -> reading h previous -> target <> "" -> told h h' r e.
Proof.
  intros Hr Hh Hg Ho Hp Ht.
  assert (Hc : forall h7, git_there h7 -> on h7 = on h ->
    check_out launch Error user_Lookup progress p owner req target (first_result req previous) log h7 = (Ok (r, e), h') -> told h h' r e).
  { intros h7 Hg7 Ho7 Hc. apply check_out_lands in Hc as [Hs [(Hon & Hcm & Hb & He)|(Ha & Hl & Hu)]]; try done.
    - unfold told. rewrite Hb. split_and!; [done|left; split; [congruence|done]|done|congruence].
    - by eapply told_located.
    - cbn. destruct (decide (previous = "")) as [|Hn]; [by left|right]. eapply head_commit. by apply Hp. }
  unfold bind at 1, nothing_to_do in Hr. cbn [PreviousCommit first_result] in Hr.
  destruct (String.eqb_spec previous target) as [->|Hne]; [|by eapply Hc].
  unfold bind at 1 in Hr. pose proof (still_gitOutput owner ["status"; "--porcelain"] ltac:(by do 2 eexists) h6) as [Ho7 Hk7].
  unfold isClean, bind at 1 in Hr. destruct (gitOutput launch p owner root ["status"; "--porcelain"] h6) as [[st|er] h7]; [|done].
  cbn [fst snd] in Ho7, Hk7. unfold ret at 1 2 in Hr. destruct (_ && _); [|by eapply Hc; [auto|congruence|]].
  cbv zeta in Hr. pose proof (still_describe owner target h7) as [Ho8 _]. unfold bind in Hr.
  destruct (describe launch p owner root target h7) as [[[m a]|er] h8]; [|done]. injection Hr as <- <- <-.
  cbn [fst snd] in Ho8. assert (Hon : on h8 = on h) by congruence. unfold told. cbn. split_and!; try done.
  right. rewrite Hon. by apply Hp.
Qed.

End absolute.

(** Git does what it is documented to do, no build moves HEAD itself, and errors have a text. Whatever
    a deployment is asked for and whatever fails on the way, its answer says where the working tree
    is: it names the commit HEAD is on, or no commit and HEAD is where it was. It reports success
    exactly when there is no error; it says that it rolled back only when HEAD is where it was; and
    a deployment that fails, was asked to roll back and does not report that rolling back failed
    leaves a tree that was on a commit on that commit. *)
Theorem deployment_says_where_the_tree_is h r e h' :
  Deploy launch Error user_Lookup progress p req h = (Ok (r, e), h') ->
  (r_Succeeded r = true <-> e = None) /\
  (on h' = on h /\ Commit r = "" \/ on h' = Some (Commit r)) /\
  (RolledBack r = true -> on h' = on h) /\
  (e <> None -> q_RollbackOnFailure req = true -> RollbackError r = "" -> on h <> None -> on h' = on h).
Proof.
  change (Deploy launch Error user_Lookup progress p req h = (Ok (r, e), h') -> told h h' r e).
  unfold Deploy. unfold bind at 1, get at 1. destruct (DeployHost.Available p h) eqn:Eav; cbn [negb];
    [|intros [= <- <- <-]; by apply told_error].
  assert (Hg : git_there h) by (revert Eav; unfold DeployHost.Available, CommandRunner.Available; by rewrite Hgit).
  destruct (checkRequest req) as [[]|er] eqn:Er; [|intros [= <- <- <-]; by apply told_error].
  pose proof (checked_root req Er) as Hroot.
  unfold bind at 1, attempt at 1. pose proof (still_lookup (q_Account req) h) as [Ho1 Hk1].
  destruct (lookupAccount user_Lookup (q_Account req) h) as [[owner|er] h1] eqn:El; cbn [fst snd] in Ho1, Hk1;
    [|intros [= <- <- <-]; by apply told_error].
  pose proof (lookup_home _ _ _ El) as Hh.
  unfold bind at 1. pose proof (still_gitOutput owner _ reads_head_line h1) as [Ho2 Hk2].
  destruct (gitOutput launch p owner root ["rev-parse"; "HEAD"] h1) as [[previous|er] h2] eqn:Ep; [|done].
  cbn [fst snd] in Ho2, Hk2. pose proof (head_reading Hroot _ _ _ _ Hh (Hk1 Hg) Ep) as Hp. unfold reading in Hp. rewrite Ho1 in Hp.
  cbv zeta. unfold bind at 1, report at 1, update at 1. pose proof (still_report 5 "Preparing the repository" h2) as [Ho3 Hk3].
  unfold report, update in Ho3, Hk3. cbn [fst snd] in Ho3, Hk3. set (h3 := progress _ _ h2) in *.
  unfold bind at 1. pose proof (still_Clone new_log h3) as [Ho4 Hk4].
  destruct (Clone launch user_Lookup p req new_log h3) as [[[log [[]|er]]|er] h4]; cbn [fst snd] in Ho4, Hk4; [| |done].
  2:{ intros [= <- <- <-]. apply told_error; [done..|congruence]. }
  unfold bind at 1, report at 1, update at 1. pose proof (still_report 20 "Working out what to deploy" h4) as [Ho5 Hk5].
  unfold report, update in Ho5, Hk5. cbn [fst snd] in Ho5, Hk5. set (h5 := progress _ _ h4) in *.
  unfold bind at 1, attempt at 1. pose proof (still_resolve owner h5) as [Ho6 Hk6].
  destruct (resolve launch p owner req h5) as [[target|er] h6] eqn:Et; cbn [fst snd] in Ho6, Hk6;
    [|intros [= <- <- <-]; apply told_error; [done..|congruence]].
  intros Hr. eapply resolved_told; [exact Hroot|exact Hr|exact Hh|auto 10|congruence|exact Hp|by eapply resolve_filled].
Qed.
End tree.

(** ** The log is bounded *)
Definition answers {W E A} (m : Store.M W E A) (Q : A -> Prop) : Prop := forall h a, fst (m h) = Ok a -> Q a.

Lemma tree_answers_bind {W E A B} (m : Store.M W E A) (k : A -> Store.M W E B) Q :
  (forall a, answers (k a) Q) -> answers (bind m k) Q.
Proof. intros Hk h b. unfold bind. destruct (m h) as [[a|e] h1]; [apply Hk|done]. Qed.
Lemma tree_answers_ret {W E A} (a : A) (Q : A -> Prop) : Q a -> answers (ret a : Store.M W E A) Q.
Proof. by intros Hq h b [= <-]. Qed.

Lemma length_substring_le n m s : (String.length (String.substring n m s) <= m)%nat.
Proof.
  revert n m. induction s as [|a s IH]; intros n m; [destruct n, m; cbn; lia|].
  destruct n as [|n]; [|apply IH]. destruct m as [|m]; cbn; [lia|]. specialize (IH 0%nat m). lia.
Qed.

Definition log_bounded (r : DResult) : Prop :=
  (Z.of_nat (String.length (Log r)) <= MaxLogBytes + Z.of_nat (String.length dropped_notice))%Z.

Lemma set_log_bounded l r : log_bounded (set_log l r).
Proof.
  unfold log_bounded, set_log, finish. cbn [Log].
  destruct (Z.leb_spec (Z.of_nat (String.length (out l))) MaxLogBytes); cbn [fst]; [lia|].
  rewrite length_app_str. pose proof (length_substring_le (String.length (out l) - Z.to_nat MaxLogBytes) (Z.to_nat MaxLogBytes) (out l)).
  unfold MaxLogBytes in *. lia.
Qed.

Section log.
Context {T : Type} (launch : Process -> Machine T -> Raw * Machine T).
Context (Error : deploy_err -> string) (user_Lookup : string -> option (string * string * string)).
Context (progress : Z -> string -> Machine T -> Machine T) (p : Provider) (req : Request).
Local Abbreviation ok := (fun x : DResult * option deploy_err => log_bounded (fst x)).

Lemma steps_log owner actions : forall index result log,
  answers (run_steps launch Error user_Lookup progress p owner req index actions result log) ok.
Proof.
  induction actions as [|kind more IH]; intros index result log; cbn [run_steps].
  - apply tree_answers_bind. intros _. apply tree_answers_ret, set_log_bounded.
  - apply tree_answers_bind. intros _. cbv zeta. apply tree_answers_bind. intros [step|e].
    + destruct (negb _); [|apply IH]. apply tree_answers_bind. intros [r l]. apply tree_answers_ret, set_log_bounded.
    + apply tree_answers_bind. intros [r l]. apply tree_answers_ret, set_log_bounded.
Qed.

(** However much git and the steps print, what a deployment answers is bounded. *)
Theorem deployment_log_is_bounded h r e h' :
  Deploy launch Error user_Lookup progress p req h = (Ok (r, e), h') -> log_bounded r.
Proof.
  intros Hd. enough (answers (Deploy launch Error user_Lookup progress p req) ok) as Ha.
  { apply (Ha h (r, e)). by rewrite Hd. }
  clear. assert (Hn : log_bounded no_result) by done.
  apply tree_answers_bind. intros []; cbn [negb]; [|by apply tree_answers_ret]. destruct (checkRequest req); [|by apply tree_answers_ret].
  apply tree_answers_bind. intros [owner|e]; [|by apply tree_answers_ret]. apply tree_answers_bind. intros previous. cbv zeta.
  apply tree_answers_bind. intros _. apply tree_answers_bind. intros [log [r|e]]; [|apply tree_answers_ret, set_log_bounded].
  apply tree_answers_bind. intros _. apply tree_answers_bind. intros [target|e]; [|apply tree_answers_ret, set_log_bounded].
  apply tree_answers_bind. intros []; [apply tree_answers_bind; intros [m x]; apply tree_answers_ret, set_log_bounded|].
  unfold check_out. apply tree_answers_bind. intros _. cbv zeta. apply tree_answers_bind.
  intros [c|e]; [|apply tree_answers_ret, set_log_bounded]. apply tree_answers_bind. intros [m x]. apply steps_log.
Qed.
End log.

(** ** The script is the account's alone *)
Section script.
Context {T : Type} (launch : Process -> Machine T -> Raw * Machine T) (p : Provider).
Context (calm : forall pr h, m_faults h = [] -> m_faults (snd (launch pr h)) = []).
Local Abbreviation M := (Store.M (Machine T) deploy_err).

Definition script_file (owner : account) (req : Request) : File := {|
  f_Content := "#!/bin/sh" ++ nl ++ "set -e" ++ nl ++ trim_space (q_Script req) ++ nl;
  f_UID := acc_UID owner; f_GID := acc_GID owner; f_Mode := 384 |}.

Lemma writeScript_writes path body owner (h : Machine T) : m_faults h = [] ->
  writeScript path body owner h = (Ok tt, set_fs (<[path := {| f_Content := body; f_UID := acc_UID owner;
     f_GID := acc_GID owner; f_Mode := 384 |}]> (fs h)) h).
Proof.
  intros Hf. unfold writeScript, WriteFile, Chown, Chmod, on_file, bind, io. rewrite Hf. cbn [fs set_fs m_faults].
  rewrite Hf. cbn [fs set_fs m_faults]. rewrite lookup_insert_eq. cbn [fs set_fs m_faults]. rewrite Hf, lookup_insert_eq.
  cbn [f_Content f_UID f_GID f_Mode fs set_fs]. rewrite !insert_insert_eq. by destruct (fs h !! path).
Qed.

Lemma ensureDirs_files (h : Machine T) : m_faults h = [] ->
  fs (snd ((ensureDirs p : M unit) h)) = fs h /\ ran (snd ((ensureDirs p : M unit) h)) = ran h /\
  m_faults (snd ((ensureDirs p : M unit) h)) = [].
Proof.
  unfold ensureDirs. generalize ([StateDir (paths p); KeyDir (paths p); ScriptDir (paths p)]). intros l.
  revert h. induction l as [|d l IH]; intros h Hf; cbn [each_dir]; [done|].
  unfold bind, MkdirAll, ChmodDir, io. rewrite Hf. cbn [m_faults set_dirs]. rewrite Hf.
  match goal with |- context [if ?b then _ else _] => destruct b end; [|by split_and!].
  match goal with |- fs (snd (each_dir l ?h1)) = _ /\ _ => exact (IH h1 Hf) end.
Qed.

(** While it runs, the script is in a file of the account's, readable by nobody else, and its text
    is on no command line; when the step is over the file is gone, whatever the script did. *)
Theorem script_stays_private owner req h r h' : m_faults h = [] ->
  (runScript launch p owner req : M stepResult) h = (r, h') ->
  (fs h' = fs h /\ ran h' = ran h) \/
  (fs h' !! ScriptPath (paths p) (acc_Name owner) = None /\
   (ran h' = ran h \/ exists pr hs, ran h' = (ran h ++ [pr])%list /\
      p_Args pr = [ScriptPath (paths p) (acc_Name owner)] /\
      fs hs !! ScriptPath (paths p) (acc_Name owner) = Some (script_file owner req) /\
      fs h' = delete (ScriptPath (paths p) (acc_Name owner)) (fs (snd (launch pr hs))))).
Proof.
  intros Hf. unfold runScript. destruct (_ =? ""); [by intros [= _ <-]; left|].
  unfold bind at 1, answer at 1. destruct (rule (DeployScript _)); [|by intros [= _ <-]; left].
  unfold bind at 1, get at 1. destruct (CommandRunner.Available _ _ h); cbn [negb]; [|by intros [= _ <-]; left].
  unfold bind at 1. destruct (ensureDirs_files h Hf) as (Hfs & Hran & Hf1).
  destruct (ensureDirs p h) as [[[]|e] h1]; cbn [fst snd] in Hfs, Hran, Hf1; [|by intros [= _ <-]; left].
  unfold bind at 1, answer at 1. destruct (rule (ScriptTimeout _)); [|by intros [= _ <-]; left]. cbv zeta.
  unfold bind at 1. rewrite writeScript_writes by done. set (path := ScriptPath (paths p) (acc_Name owner)).
  set (hs := set_fs _ h1). assert (Hfs2 : fs hs !! path = Some (script_file owner req)) by by apply lookup_insert_eq.
  assert (Hf2 : m_faults hs = []) by done. assert (Hr2 : ran hs = ran h) by done. clearbody hs.
  unfold bind at 1, attempt at 1, running at 1.
  destruct (RunWith_runs launch (runner p) (Some (q_ScriptTimeoutSeconds req * Second)%Z) CommandDeployShell
    (as_site owner (q_DocumentRoot req) (buildEnvironment owner)) [path] hs)
    as [(e & l & Er & Hl)|(spec & env & stdin & l & _ & Hl & Er)]; rewrite Er; clear Er.
  - rewrite (Hl eq_refl), Hf2. unfold bind, attempt, RemoveFile, io, answer. cbn. intros [= _ <-]. right. cbn.
    split; [apply lookup_delete_eq|by left].
  - destruct (Hl eq_refl) as [-> _]. rewrite Hf2. unfold bind at 1, execute, answer at 1.
    set (pr := process_of _ _ _ _ _ _). assert (Hargs : p_Args pr = [path]) by done. clearbody pr.
    assert (Hself : with_faults [] hs = hs) by (destruct hs; cbn in *; by subst). rewrite Hself.
    pose proof (calm pr hs Hf2) as Hf3. destruct (launch pr hs) as [raw h3] eqn:El. cbn [snd] in Hf3.
    intros Hrun. right. assert (h' = set_fs (delete path (fs h3)) (set_ran (ran hs ++ [pr]) h3)) as ->.
    { revert Hrun. unfold bind, attempt, RemoveFile, io, answer. destruct (outcome spec raw); cbn; rewrite Hf3; by intros [= _ <-]. }
    split; [apply lookup_delete_eq|right]. exists pr, hs. cbn. rewrite Hr2, El. by split_and!.
Qed.
End script.

(** ** A small machine *)
Module Small.
Definition commit_b (c : string) : bool := str_forall is_hex c && (String.length c =? 40)%nat.

(** The commits of working trees, and the tip of the branch at the forge. *)
Record Git := { heads : gmap string string; tip : string }.
Definition small_head (root : string) (g : Git) : option string :=
  match heads g !! root with Some c => if commit_b c then Some c else None | None => None end.
Definition set_head (root c : string) (h : Machine Git) : Machine Git := {|
  fs := fs h; dirs := dirs h; rest := {| heads := <[root := c]> (heads (rest h)); tip := tip (rest h) |};
  ran := ran h; m_faults := m_faults h |}.
Definition exits (code : Z) (text : string) : Raw := {| r_End := Exited code; r_Out := [text]; r_Err := [] |}.

Definition gitpath : string := "/usr/bin/git".
(** A build fails; every other step works. *)
Definition small_launch (pr : Process) (h : Machine Git) : Raw * Machine Git :=
  if p_Path pr =? gitpath then
    match p_Args pr with
    | ["-C"; root; "rev-parse"; "HEAD"] =>
        match small_head root (rest h) with Some c => (exits 0 (c ++ nl), h) | None => (exits 128 "", h) end
    | ["-C"; _; "rev-parse"; "--verify"; _] => (exits 0 (tip (rest h) ++ nl), h)
    | ["-C"; root; "reset"; "--hard"; c] =>
        if commit_b c then (exits 0 ("HEAD is now at " ++ c), set_head root c h) else (exits 128 "", h)
    | _ => (exits 0 "", h)
    end
  else if bool_decide (p_Args pr = ["run"; "build"]) then (exits 1 "no build script", h)
  else (exits 0 "", h).

Lemma commit_b_id c : commit_b c = true -> commit_id c.
Proof. unfold commit_b. intros H. apply andb_true_iff in H as [Hx Hl]. split; [done|left]. by apply Nat.eqb_eq. Qed.

#[export, program] Instance small_git : GitLaws small_launch gitpath := { tree_head := small_head }.
Next Obligation.
  intros root t c. unfold small_head. destruct (heads t !! root) as [x|]; [|done]. destruct (commit_b x) eqn:E; [|done].
  intros [= <-]. by apply commit_b_id.
Qed.
Next Obligation.
  intros pr root h Hp Ha. unfold small_launch. rewrite Hp, String.eqb_refl, Ha. cbv zeta.
  destruct (small_head root (rest h)) as [c|] eqn:E; cbn; rewrite ?E; [by rewrite app_nil_r_str|by exists 128%Z].
Qed.
Next Obligation.
  intros pr root c h Hp Ha. unfold small_launch. rewrite Hp, String.eqb_refl, Ha. cbv zeta.
  change (gitpath =? gitpath) with true. cbn [fst snd]. destruct (commit_b c) eqn:E; [left|right; by exists 128%Z].
  split; [done|]. apply andb_true_iff in E as E2. destruct E2 as [Hx Hl]. apply Nat.eqb_eq in Hl. split.
  - unfold printed_bytes, exits. cbn [fst r_Out r_Err concat_all foldr]. rewrite app_nil_r_str, length_app_str, Hl. done.
  - exists c. split; [|done]. unfold small_head. cbn. by rewrite lookup_insert_eq, E.
Qed.
Next Obligation.
  intros pr root root' verb more h Hp Ha Hv. unfold small_launch. rewrite Hp, String.eqb_refl, Ha.
  repeat (case_match; simplify_eq/=; try done).
Qed.
Next Obligation.
  intros pr root h Hp. unfold small_launch. apply String.eqb_neq in Hp. rewrite Hp. by case_match.
Qed.
Next Obligation.
  intros pr h Hg. unfold small_launch. repeat (case_match; try done).
Qed.

Definition tools : ToolPaths := {|
  GitPath := gitpath; SSHKeygenPath := "/usr/bin/ssh-keygen"; ComposerPath := "/usr/bin/composer";
  NpmToolPath := "/usr/bin/npm"; PHPToolPath := "/usr/bin/php"; DeployShell := "/bin/sh" |}.
Definition small_runner : Runner :=
  match NewRunner (deploy_specs tools) with Ok r => r | Err _ => {| specs := ∅; r_env := [] |} end.
Definition provider : Provider := {| runner := small_runner; paths := {| StateDir := DefaultStateDir |} |}.
Definition users (name : string) : option (string * string * string) :=
  if name =? "web_shop" then Some ("1001", "1001", "/home/shop") else None.
Definition text (e : deploy_err) : string := "failed".
Definition silent (n : Z) (s : string) (h : Machine Git) : Machine Git := h.

Definition old_commit : string := "aaaaaaaaaaaaaaaaaaaaaaaaaaaaaaaaaaaaaaaa".
Definition new_commit : string := "bbbbbbbbbbbbbbbbbbbbbbbbbbbbbbbbbbbbbbbb".
Definition program : File := {| f_Content := ""; f_UID := 0; f_GID := 0; f_Mode := 493 |}.
Definition machine : Machine Git := {|
  fs := list_to_map ((fun path => (path, program)) <$> [gitpath; "/usr/bin/npm"; "/bin/sh"]);
  dirs := {["/srv/shop" := 493%Z; "/home/shop" := 493%Z]};
  rest := {| heads := {["/srv/shop" := old_commit]}; tip := new_commit |}; ran := []; m_faults := [] |}.
Definition request (actions : list string) : Request := {|
  q_Account := "web_shop"; q_DocumentRoot := "/srv/shop"; q_Remote := "git@example.com:shop/site.git"; q_Branch := "main";
  q_Commit := ""; q_Actions := actions; q_Script := ""; q_ScriptTimeoutSeconds := 600; q_UseDeployKey := true;
  q_RollbackOnFailure := true |}.

Definition deployed launch actions := Deploy launch text users silent provider (request actions) machine.
Definition answer_of {A} (x : result deploy_err A * Machine Git) (d : A) : A := match fst x with Ok a => a | Err _ => d end.
Definition failed_build := deployed small_launch [ActionNpmCI; ActionNpmBuild].
Definition failed_answer : DResult * option deploy_err := answer_of failed_build (no_result, None).

Lemma small_specs name s : specs small_runner !! name = Some s -> s_Path s = gitpath -> name = CommandGit.
Proof.
  assert (Hf : map_Forall (fun name s => s_Path s = gitpath -> name = CommandGit) (specs small_runner))
    by (apply (bool_decide_unpack _); vm_compute; exact I).
  apply Hf.
Qed.
Lemma small_homes name u g home : users name = Some (u, g, home) -> value_ok home = true.
Proof. unfold users. case_match; [|done]. by intros [= _ _ <-]. Qed.
Lemma small_ids name u g home uid gid : users name = Some (u, g, home) -> atoi u = Some uid -> atoi g = Some gid ->
  (0 <= uid < 2 ^ 32 /\ 0 <= gid < 2 ^ 32)%Z.
Proof.
  unfold users. case_match; [|done]. intros [= <- <- _]. assert (E : atoi "1001" = Some 1001%Z) by (vm_compute; reflexivity).
  rewrite E. intros [= <-] [= <-]. lia.
Qed.

(** The failed build is undone; without it, the tip is on the host. *)
Example build_fails : RolledBack (fst failed_answer) = true /\ snd failed_answer = Some (ErrActionFailed "npm run build") /\
  on small_launch gitpath (request []) (snd failed_build) = Some old_commit /\
  on small_launch gitpath (request []) (snd (deployed small_launch [ActionNpmCI])) = Some new_commit.
Proof. vm_compute. repeat split. Qed.

Lemma deployment_says_where_the_tree_is_witness :
  RollbackError (fst failed_answer) = "" /\
  on small_launch gitpath (request [ActionNpmCI; ActionNpmBuild]) (snd failed_build) =
  on small_launch gitpath (request [ActionNpmCI; ActionNpmBuild]) machine.
Proof.
  assert (Hr : RollbackError (fst failed_answer) = "") by (vm_compute; reflexivity). split; [exact Hr|].
  assert (Ha : failed_build = (Ok (fst failed_answer, snd failed_answer), snd failed_build)) by (vm_compute; reflexivity).
  refine (proj2 (proj2 (proj2 (deployment_says_where_the_tree_is small_launch gitpath text users silent provider
    (request [ActionNpmCI; ActionNpmBuild]) _ small_specs _ small_homes _ _ machine _ _ _ Ha))) _ _ Hr _).
  - vm_compute; reflexivity.
  - intros n t h; split; reflexivity.
  - vm_compute; discriminate.
  - intros e; discriminate.
  - vm_compute; discriminate.
  - reflexivity.
  - vm_compute; discriminate.
Defined.

Lemma deployment_runs_as_the_site_witness :
  exists l, ran (snd failed_build) = l /\ l <> [] /\ Forall (fun pr => p_Credential pr = Some (1001, 1001)%Z) l.
Proof.
  destruct (deployment_runs_as_the_site small_launch text users silent provider (fun n t h => eq_refl)
    (request [ActionNpmCI; ActionNpmBuild]) machine small_ids) as (l & El & Hl).
  exists l. split; [exact El|]. split.
  - intros ->. vm_compute in El. discriminate El.
  - eapply list.Forall_impl; [exact Hl|]. intros pr (name & spec & uid & gid & _ & _ & _ & _ & _ & Hu & ->).
    destruct Hu as (u & g & home & Hlook & Hau & Hag & _). vm_compute in Hlook. injection Hlook as <- <- _.
    vm_compute in Hau, Hag. injection Hau as <-. injection Hag as <-. reflexivity.
Defined.

(** A fetch may run as long as any git command: its own limit is not used. *)
Example fetch_has_no_limit_of_its_own :
  exists pr, pr ∈ ran (snd (deployed small_launch [])) /\
    p_Args pr = ["-C"; "/srv/shop"; "fetch"; "--prune"; "origin"; "--"; "main"] /\ p_Limit pr = Some (15 * Minute)%Z.
Proof.
  assert (Hn : exists pr, nth_error (ran (snd (deployed small_launch []))) 4 = Some pr /\
    p_Args pr = ["-C"; "/srv/shop"; "fetch"; "--prune"; "origin"; "--"; "main"] /\ p_Limit pr = Some (15 * Minute)%Z)
    by (eexists; vm_compute; split; [reflexivity|split; reflexivity]).
  destruct Hn as (pr & Hn & Hp). exists pr. split; [|done]. apply list_elem_of_In. by eapply nth_error_In.
Qed.

(** A step that runs over its deadline is an error of the operation and not an outcome: what was
    printed, that there was a rollback, and which step it was are in the answer's data, which an
    operation that fails does not hand over. *)
Definition slow_launch (pr : Process) (h : Machine Git) : Raw * Machine Git :=
  if bool_decide (p_Args pr = ["run"; "build"]) then ({| r_End := OverDeadline; r_Out := ["compiling"]; r_Err := [] |}, h)
  else small_launch pr h.
Example overrun_is_no_outcome :
  exists r, fst (handleDeployRun slow_launch text users silent provider (request [ActionNpmBuild]) machine) =
      Ok (r, "failed", Some CodeInternal) /\ RolledBack r = true.
Proof. eexists. split; vm_compute; reflexivity. Qed.
End Small.
