(* ===== verification/DeployTables.v ===== *)
(** * The tables of deployments ([api/internal/deploy/repository.go])

    Repositories, their steps and the deployments, one definition per statement or transaction,
    with the keys and checks of [migrations/0022_deployments.up.sql].  Texts are valid UTF-8, as
    they come out of a JSON decoder, and the class of spaces is the one of ASCII.  Times only
    shown to a user are left out, but for the creation time that orders the history. *)

From stdpp Require Import gmap sorting.
From S2P Require Import Prelude Store GoStr TenancyRules DeployRules.

#[local] Open Scope string_scope.
#[local] Arguments Nat.ltb : simpl never.

(** The package's errors, the ones it passes on, and [ErrTable] for a row that breaks a check of
    the schema or does not fit its columns. *)
Inductive panel_err :=
| ErrNotFound | ErrDuplicate | ErrInProgress | ErrNoAccount | ErrUnverified | ErrNoSignature
| ErrRule (e : deploy_rule_err) | ErrTable | ErrNoSecret | ErrShortSecret | ErrNoEncryption | ErrNoWebsite
| ErrNoDeployment | ErrNoPublicHalf | ErrAgent (code : string) | ErrBackend.
#[global] Instance panel_err_eq_dec : EqDecision panel_err.
Proof. solve_decision. Defined.

(** ** Rows *)
Record GitRepository := {
  g_ServerID : string; g_WebsiteID : string; g_RemoteURL : string; g_Branch : string;
  g_KeyPublic : string; g_KeyFingerprint : string; g_Provider : string; g_Token : option string;
  g_Secret : option string; g_AutoDeploy : bool; g_Script : string; g_Timeout : Z;
  g_CurrentCommit : string; g_CurrentBranch : string }.
Record Step := { sp_Kind : string; sp_Enabled : bool }.
Record Deployment := {
  dp_RepositoryID : string; dp_WebsiteID : string; dp_Trigger : string; dp_Branch : string; dp_CommitSHA : string;
  dp_Message : string; dp_Author : string; dp_PreviousCommit : string; dp_Status : string; dp_ExitCode : option Z;
  dp_Log : string; dp_LogTruncated : bool; dp_RolledBack : bool; dp_RollbackError : string; dp_JobID : string;
  dp_FinishedAt : option Z; dp_DurationMS : option Z; dp_CreatedAt : Z }.
(** What the package reads of a website. *)
Record WebsiteRef := { w_ServerID : string; w_Domain : string; w_SystemUser : string; w_DocumentRoot : string }.

#[global] Instance GitRepository_eq_dec : EqDecision GitRepository.
Proof. solve_decision. Defined.
#[global] Instance Deployment_eq_dec : EqDecision Deployment.
Proof. solve_decision. Defined.

Record Database := {
  repos : gmap string GitRepository;
  steps : gmap string (list Step);           (** of a repository, by position *)
  deployments : gmap string Deployment;
  sites : gmap string WebsiteRef }.
Definition with_repos (m : gmap string GitRepository) (d : Database) : Database := {|
  repos := m; steps := steps d; deployments := deployments d; sites := sites d |}.
Definition with_steps (m : gmap string (list Step)) (d : Database) : Database := {|
  repos := repos d; steps := m; deployments := deployments d; sites := sites d |}.
Definition with_deployments (m : gmap string Deployment) (d : Database) : Database := {|
  repos := repos d; steps := steps d; deployments := m; sites := sites d |}.

Definition statement (A : Type) : Type := Database -> result panel_err (A * Database).

(** ** The checks of the schema *)

(** The length of a text in characters: its bytes but the continuation bytes. *)
Fixpoint characters (s : string) : Z :=
  match s with
  | "" => 0
  | String a s =>
      ((if (128 <=? nat_of_ascii a)%nat && (nat_of_ascii a <? 192)%nat then 0 else 1) + characters s)%Z
  end.
(** PostgreSQL keeps no null byte. *)
Definition text_ok (s : string) : bool := negb (contains_char "000" s).
Definition fits (n : Z) (s : string) : bool := text_ok s && (characters s <=? n)%Z.

Definition remote_shape (remote : string) : bool :=
  has_prefix "https://" remote || has_prefix "ssh://" remote ||
  let '(user, _, found) := cut "@" remote in
  found && negb (user =? "") && negb (has_prefix "-" user) && negb (str_exists is_ascii_space user).
Definition branch_shape (branch : string) : bool :=
  negb (has_prefix "-" branch) && negb (str_exists (fun a => is_ascii_space a || contains_char a ":~^?*[\") branch).

Definition repository_check (g : GitRepository) : bool :=
  one_of DeployProviders (g_Provider g) && (30 <=? g_Timeout g)%Z && (g_Timeout g <=? 3600)%Z &&
  remote_shape (g_RemoteURL g) && branch_shape (g_Branch g) &&
  ((g_Provider g =? ProviderNone) ||
   bool_decide (is_Some (g_Token g)) && bool_decide (is_Some (g_Secret g))) &&
  fits 512 (g_RemoteURL g) && fits 255 (g_Branch g) && fits 40 (g_CurrentCommit g) && fits 255 (g_CurrentBranch g) &&
  fits 120 (g_KeyFingerprint g) && fits 64 (default "" (g_Token g)) &&
  text_ok (g_KeyPublic g) && text_ok (default "" (g_Secret g)) && text_ok (g_Script g).

Definition step_check (position : nat) (s : Step) : bool := one_of DeployActions (sp_Kind s) && (position <? 100)%nat.

Definition StatusPending := "pending".
Definition StatusRunning := "running".
Definition StatusSuccess := "success".
Definition StatusFailed := "failed".
Definition in_progress (d : Deployment) : bool := one_of [StatusPending; StatusRunning] (dp_Status d).
Definition int4 (z : Z) : bool := ((- 2 ^ 31 <=? z) && (z <? 2 ^ 31))%Z.

Definition deployment_check (d : Deployment) : bool :=
  one_of [StatusPending; StatusRunning; StatusSuccess; StatusFailed; "cancelled"] (dp_Status d) &&
  one_of [TriggerManual; TriggerWebhook; TriggerRollback] (dp_Trigger d) &&
  (in_progress d || bool_decide (is_Some (dp_FinishedAt d))) &&
  fits 255 (dp_Branch d) && fits 40 (dp_CommitSHA d) && fits 500 (dp_Message d) && fits 255 (dp_Author d) &&
  fits 40 (dp_PreviousCommit d) && text_ok (dp_Log d) && text_ok (dp_RollbackError d) && fits 64 (dp_JobID d) &&
  int4 (default 0%Z (dp_ExitCode d)) && int4 (default 0%Z (dp_DurationMS d)).

Definition has {A} (p : string -> A -> bool) (m : gmap string A) : bool :=
  existsb (fun x => p (fst x) (snd x)) (map_to_list m).
Definition find_row {A} (p : A -> bool) (m : gmap string A) : option (string * A) :=
  List.find (fun x => p (snd x)) (map_to_list m).

(** [NULLIF($1, '')]. *)
Definition nullif (s : string) : option string := if s =? "" then None else Some s.

(** ** Repositories *)
Record RepositoryParams := {
  rq_ServerID : string; rq_WebsiteID : string; rq_RemoteURL : string; rq_Branch : string; rq_Provider : string;
  rq_AutoDeploy : bool; rq_Script : string; rq_Timeout : Z }.

Definition new_repository (p : RepositoryParams) (token secret : string) : GitRepository := {|
  g_ServerID := rq_ServerID p; g_WebsiteID := rq_WebsiteID p; g_RemoteURL := rq_RemoteURL p; g_Branch := rq_Branch p;
  g_KeyPublic := ""; g_KeyFingerprint := ""; g_Provider := rq_Provider p; g_Token := nullif token;
  g_Secret := nullif secret; g_AutoDeploy := rq_AutoDeploy p; g_Script := rq_Script p; g_Timeout := rq_Timeout p;
  g_CurrentCommit := ""; g_CurrentBranch := "" |}.

(** Another row with the same website, or the same address of a webhook. *)
Definition collides (id : string) (g : GitRepository) (d : Database) : bool :=
  has (fun id' g' => negb (id' =? id) &&
         ((g_WebsiteID g' =? g_WebsiteID g) ||
          match g_Token g', g_Token g with Some t', Some t => t' =? t | _, _ => false end)) (repos d).

Definition create_repository (id : string) (p : RepositoryParams) (token secret : string) : statement (string * GitRepository) :=
  fun d =>
    let g := new_repository p token secret in
    if negb (repository_check g) then Err ErrTable
    else if collides id g d || bool_decide (is_Some (repos d !! id)) then Err ErrDuplicate
    else if negb (bool_decide (is_Some (sites d !! g_WebsiteID g))) then Err ErrNotFound
    else Ok ((id, g), with_repos (<[id := g]> (repos d)) d).

Definition updated_repository (p : RepositoryParams) (token secret : string) (g : GitRepository) : GitRepository := {|
  g_ServerID := g_ServerID g; g_WebsiteID := g_WebsiteID g; g_RemoteURL := rq_RemoteURL p; g_Branch := rq_Branch p;
  g_KeyPublic := g_KeyPublic g; g_KeyFingerprint := g_KeyFingerprint g; g_Provider := rq_Provider p;
  g_Token := if token =? "" then g_Token g else Some token;
  g_Secret := if secret =? "" then g_Secret g else Some secret;
  g_AutoDeploy := rq_AutoDeploy p; g_Script := rq_Script p; g_Timeout := rq_Timeout p;
  g_CurrentCommit := g_CurrentCommit g; g_CurrentBranch := g_CurrentBranch g |}.

(** An UPDATE of one row by [f]. *)
Definition change_repository (id : string) (f : GitRepository -> GitRepository) : statement GitRepository :=
  fun d =>
    match repos d !! id with
    | None => Err ErrNotFound
    | Some g =>
        if negb (repository_check (f g)) then Err ErrTable
        else if collides id (f g) d then Err ErrDuplicate
        else Ok (f g, with_repos (<[id := f g]> (repos d)) d)
    end.

Definition update_repository (id : string) (p : RepositoryParams) (token secret : string) : statement GitRepository :=
  change_repository id (updated_repository p token secret).

Definition keyed (public fingerprint : string) (g : GitRepository) : GitRepository := {|
  g_ServerID := g_ServerID g; g_WebsiteID := g_WebsiteID g; g_RemoteURL := g_RemoteURL g; g_Branch := g_Branch g;
  g_KeyPublic := public; g_KeyFingerprint := fingerprint; g_Provider := g_Provider g; g_Token := g_Token g;
  g_Secret := g_Secret g; g_AutoDeploy := g_AutoDeploy g; g_Script := g_Script g; g_Timeout := g_Timeout g;
  g_CurrentCommit := g_CurrentCommit g; g_CurrentBranch := g_CurrentBranch g |}.
Definition save_deploy_key (id public fingerprint : string) : statement GitRepository :=
  change_repository id (keyed public fingerprint).

Definition with_secret (secret : string) (g : GitRepository) : GitRepository := {|
  g_ServerID := g_ServerID g; g_WebsiteID := g_WebsiteID g; g_RemoteURL := g_RemoteURL g; g_Branch := g_Branch g;
  g_KeyPublic := g_KeyPublic g; g_KeyFingerprint := g_KeyFingerprint g; g_Provider := g_Provider g; g_Token := g_Token g;
  g_Secret := Some secret; g_AutoDeploy := g_AutoDeploy g; g_Script := g_Script g; g_Timeout := g_Timeout g;
  g_CurrentCommit := g_CurrentCommit g; g_CurrentBranch := g_CurrentBranch g |}.
Definition deployed (commit branch : string) (g : GitRepository) : GitRepository := {|
  g_ServerID := g_ServerID g; g_WebsiteID := g_WebsiteID g; g_RemoteURL := g_RemoteURL g; g_Branch := g_Branch g;
  g_KeyPublic := g_KeyPublic g; g_KeyFingerprint := g_KeyFingerprint g; g_Provider := g_Provider g; g_Token := g_Token g;
  g_Secret := g_Secret g; g_AutoDeploy := g_AutoDeploy g; g_Script := g_Script g; g_Timeout := g_Timeout g;
  g_CurrentCommit := commit; g_CurrentBranch := branch |}.

(** An UPDATE that does not ask whether it found a row. *)
Definition blind {A} (s : statement A) : statement unit := fun d =>
  match s d with
  | Ok (_, d') => Ok (tt, d')
  | Err ErrNotFound => Ok (tt, d)
  | Err e => Err e
  end.
Definition seal_secret (id secret : string) : statement unit := blind (change_repository id (with_secret secret)).
Definition record_deployed (id commit branch : string) : statement unit :=
  blind (change_repository id (deployed commit branch)).

Definition get_repository (id : string) (d : Database) : result panel_err GitRepository :=
  match repos d !! id with Some g => Ok g | None => Err ErrNotFound end.
Definition repository_for_website (website : string) (d : Database) : result panel_err (string * GitRepository) :=
  match find_row (fun g => g_WebsiteID g =? website) (repos d) with Some x => Ok x | None => Err ErrNotFound end.
Definition by_webhook_token (token : string) (d : Database) : result panel_err (string * GitRepository) :=
  match find_row (fun g => match g_Token g with Some t => t =? token | None => false end) (repos d) with
  | Some x => Ok x
  | None => Err ErrNotFound
  end.

(** With its steps and its history ([ON DELETE CASCADE]). *)
Definition delete_repository (id : string) : statement unit := fun d =>
  match repos d !! id with
  | None => Err ErrNotFound
  | Some _ => Ok (tt, {|
      repos := delete id (repos d); steps := delete id (steps d);
      deployments := filter (fun x => dp_RepositoryID (snd x) <> id) (deployments d); sites := sites d |})
  end.

(** ** Steps *)
Definition list_actions (id : string) (d : Database) : list Step := default [] (steps d !! id).
Fixpoint steps_check (position : nat) (l : list Step) : bool :=
  match l with [] => true | s :: l => step_check position s && steps_check (S position) l end.
(** The transaction of [ReplaceActions], and the list it reads back. *)
Definition replace_actions (id : string) (l : list Step) : statement unit := fun d =>
  if negb (steps_check 0 l) then Err ErrTable
  else if negb (bool_decide (l = [])) && negb (bool_decide (is_Some (repos d !! id))) then Err ErrNotFound
  else Ok (tt, with_steps (if bool_decide (l = []) then delete id (steps d) else <[id := l]> (steps d)) d).

(** ** Deployments *)
Definition new_deployment (repository website trigger branch previous : string) (now : Z) : Deployment := {|
  dp_RepositoryID := repository; dp_WebsiteID := website; dp_Trigger := trigger; dp_Branch := branch; dp_CommitSHA := "";
  dp_Message := ""; dp_Author := ""; dp_PreviousCommit := previous; dp_Status := StatusRunning; dp_ExitCode := None;
  dp_Log := ""; dp_LogTruncated := false; dp_RolledBack := false; dp_RollbackError := ""; dp_JobID := "";
  dp_FinishedAt := None; dp_DurationMS := None; dp_CreatedAt := now |}.

(** One deployment in progress for each repository: the partial index. *)
Definition busy (repository : string) (d : Database) : bool :=
  has (fun _ x => (dp_RepositoryID x =? repository) && in_progress x) (deployments d).

Definition start_deployment (id repository website trigger branch previous : string) (now : Z) : statement (string * Deployment) :=
  fun d =>
    let x := new_deployment repository website trigger branch previous now in
    if negb (deployment_check x) then Err ErrTable
    else if busy repository d || bool_decide (is_Some (deployments d !! id)) then Err ErrInProgress
    else if negb (bool_decide (is_Some (repos d !! repository))) || negb (bool_decide (is_Some (sites d !! website))) then Err ErrNotFound
    else Ok ((id, x), with_deployments (<[id := x]> (deployments d)) d).

(** What a deployment is finished with. *)
Record Outcome := {
  oc_Status : string; oc_CommitSHA : string; oc_Message : string; oc_Author : string; oc_ExitCode : option Z;
  oc_Log : string; oc_LogTruncated : bool; oc_RolledBack : bool; oc_RollbackError : string; oc_DurationMS : option Z }.
Definition finished (o : Outcome) (now : Z) (x : Deployment) : Deployment := {|
  dp_RepositoryID := dp_RepositoryID x; dp_WebsiteID := dp_WebsiteID x; dp_Trigger := dp_Trigger x; dp_Branch := dp_Branch x;
  dp_CommitSHA := oc_CommitSHA o; dp_Message := oc_Message o; dp_Author := oc_Author o;
  dp_PreviousCommit := dp_PreviousCommit x; dp_Status := oc_Status o; dp_ExitCode := oc_ExitCode o; dp_Log := oc_Log o;
  dp_LogTruncated := oc_LogTruncated o; dp_RolledBack := oc_RolledBack o; dp_RollbackError := oc_RollbackError o;
  dp_JobID := dp_JobID x; dp_FinishedAt := Some now; dp_DurationMS := oc_DurationMS o; dp_CreatedAt := dp_CreatedAt x |}.
(** An UPDATE of one row by [f], found or not; [f] leaves the row's repository and does not put it
    in progress. *)
Definition change_deployment (id : string) (f : Deployment -> Deployment) : statement unit := fun d =>
  match deployments d !! id with
  | None => Ok (tt, d)
  | Some x =>
      if negb (deployment_check (f x)) then Err ErrTable
      else Ok (tt, with_deployments (<[id := f x]> (deployments d)) d)
  end.
Definition finish_deployment (id : string) (o : Outcome) (now : Z) : statement unit := change_deployment id (finished o now).

Definition attached (job : string) (x : Deployment) : Deployment := {|
  dp_RepositoryID := dp_RepositoryID x; dp_WebsiteID := dp_WebsiteID x; dp_Trigger := dp_Trigger x; dp_Branch := dp_Branch x;
  dp_CommitSHA := dp_CommitSHA x; dp_Message := dp_Message x; dp_Author := dp_Author x;
  dp_PreviousCommit := dp_PreviousCommit x; dp_Status := dp_Status x; dp_ExitCode := dp_ExitCode x; dp_Log := dp_Log x;
  dp_LogTruncated := dp_LogTruncated x; dp_RolledBack := dp_RolledBack x; dp_RollbackError := dp_RollbackError x;
  dp_JobID := job; dp_FinishedAt := dp_FinishedAt x; dp_DurationMS := dp_DurationMS x; dp_CreatedAt := dp_CreatedAt x |}.
Definition attach_job (id job : string) : statement unit := change_deployment id (attached job).

Definition get_deployment (id : string) (d : Database) : result panel_err Deployment :=
  match deployments d !! id with Some x => Ok x | None => Err ErrNotFound end.

(** Newest first. *)
Definition newer (x y : string * Deployment) : Prop := (dp_CreatedAt (snd y) <= dp_CreatedAt (snd x))%Z.
#[global] Instance newer_dec : RelDecision newer := fun x y => Z_le_dec _ _.
Definition list_deployments (repository : string) (limit : Z) (d : Database) : list (string * Deployment) :=
  let limit := if (limit <=? 0)%Z || (100 <? limit)%Z then 25%Z else limit in
  take (Z.to_nat limit)
    (merge_sort newer (filter (fun x => dp_RepositoryID (snd x) = repository) (map_to_list (deployments d)))).

Definition restart_note : string :=
  nl ++ "[the panel restarted while this deployment was running, so its outcome is not known. The working tree is in whatever state it reached.]" ++ nl.
Definition released (now : Z) (x : Deployment) : Deployment := {|
  dp_RepositoryID := dp_RepositoryID x; dp_WebsiteID := dp_WebsiteID x; dp_Trigger := dp_Trigger x; dp_Branch := dp_Branch x;
  dp_CommitSHA := dp_CommitSHA x; dp_Message := dp_Message x; dp_Author := dp_Author x;
  dp_PreviousCommit := dp_PreviousCommit x; dp_Status := StatusFailed; dp_ExitCode := dp_ExitCode x;
  dp_Log := dp_Log x ++ restart_note; dp_LogTruncated := dp_LogTruncated x; dp_RolledBack := dp_RolledBack x;
  dp_RollbackError := dp_RollbackError x; dp_JobID := dp_JobID x; dp_FinishedAt := Some now;
  dp_DurationMS := dp_DurationMS x; dp_CreatedAt := dp_CreatedAt x |}.
Definition release_stale (now : Z) : statement Z := fun d =>
  Ok (Z.of_nat (length (filter (fun x => in_progress (snd x) = true) (map_to_list (deployments d)))),
      with_deployments ((fun x => if in_progress x then released now x else x) <$> deployments d) d).
