(* ===== verification/DeployService.v ===== *)
(** * The panel's deployments ([api/internal/deploy/service.go], [webhook.go])

    Repositories, steps, deploy keys, deployments and the webhook, over the tables of
    [DeployTables], the job table of [PanelJobs] and the Agent behind the class [DeployAgent];
    and one turn of the panel's worker with a deployment's hooks.  Calls to PostgreSQL and the
    Agent may fail before or after they took effect.  Only what the pages read is left out. *)

From stdpp Require Import gmap.
From S2P Require Import Prelude Store GoStr TenancyRules DeployRules Seal Secrets Protocol PanelJobs DeployHost DeployTables.

#[local] Open Scope string_scope.
#[local] Open Scope store_scope.
#[local] Arguments Nat.ltb : simpl never.

(** What the Agent answers: [deploy.key.generate] with the public half and its fingerprint, and
    [deploy.unlink]. An error is its code. *)
Class DeployAgent (A : Type) := {
  make_key : string -> A -> result string (string * string) * A;
  unlink_tree : string -> string -> bool -> A -> result string unit * A;
}.

(** ** The world *)
Record World (A : Type) := {
  db : Database;
  jobs : PanelJobs.DB;
  agent : A;
  clock : list Z;                        (** what [now()] is at the coming statements that ask, then 0 *)
  uuids : list string;
  tokens : list string;                  (** the addresses of webhooks to be drawn *)
  nonces : list bytes;
  audit : list (string * string);
  faults : list fault }.
Arguments db {A}. Arguments jobs {A}. Arguments agent {A}. Arguments clock {A}. Arguments uuids {A}.
Arguments tokens {A}. Arguments nonces {A}. Arguments audit {A}. Arguments faults {A}.

Section world.
Context {A : Type}.
Definition set_db (d : Database) (w : World A) : World A := {|
  db := d; jobs := jobs w; agent := agent w; clock := clock w; uuids := uuids w; tokens := tokens w;
  nonces := nonces w; audit := audit w; faults := faults w |}.
Definition set_jobs (j : PanelJobs.DB) (w : World A) : World A := {|
  db := db w; jobs := j; agent := agent w; clock := clock w; uuids := uuids w; tokens := tokens w;
  nonces := nonces w; audit := audit w; faults := faults w |}.
Definition set_agent (a : A) (w : World A) : World A := {|
  db := db w; jobs := jobs w; agent := a; clock := clock w; uuids := uuids w; tokens := tokens w;
  nonces := nonces w; audit := audit w; faults := faults w |}.
Definition set_supplies (c : list Z) (u t : list string) (n : list bytes) (w : World A) : World A := {|
  db := db w; jobs := jobs w; agent := agent w; clock := c; uuids := u; tokens := t; nonces := n;
  audit := audit w; faults := faults w |}.
Definition set_audit (l : list (string * string)) (w : World A) : World A := {|
  db := db w; jobs := jobs w; agent := agent w; clock := clock w; uuids := uuids w; tokens := tokens w;
  nonces := nonces w; audit := l; faults := faults w |}.
#[global] Instance World_faulty : Faulty (World A) := {
  faults_of := faults;
  with_faults l w := {|
    db := db w; jobs := jobs w; agent := agent w; clock := clock w; uuids := uuids w; tokens := tokens w;
    nonces := nonces w; audit := audit w; faults := l |} }.
End world.

Definition JobTypeDeployRun := "deploy.run".
Definition ActionConfigure := "deploy.configure".
Definition ActionRemove := "deploy.remove".
Definition ActionKeyGenerate := "deploy.key.generate".
Definition ActionRun := "deploy.run".
Definition ActionRollback := "deploy.rollback".
Definition ActionAutoEnable := "deploy.auto.enable".
Definition ActionActions := "deploy.actions".
Definition ResourceTypeDeployment := "deployment".
Definition MinWebhookSecret : nat := 16.
Definition placeholder_secret := "pending".

Section service.
Context {A : Type} `{DeployAgent A} `{Crypto} (serverID : string) (encrypter : option Encrypter).
(** [hex] of HMAC-SHA256, and the [ref] of a push payload, if it is JSON with that shape. *)
Context (hmac_sha256 : string -> string -> string) (payload_ref : string -> option string).
Local Abbreviation M := (Store.M (World A) panel_err).
Local Abbreviation call := (Store.call ErrBackend).
Local Abbreviation query := (Store.query ErrBackend).

(** ** Statements as calls *)
Definition exec {B} (s : Z -> statement B) : M B :=
  call (fun w => let w' := set_supplies (tail (clock w)) (uuids w) (tokens w) (nonces w) w in
                 match s (hd 0%Z (clock w)) (db w) with
                 | Ok (a, d) => (Ok a, set_db d w')
                 | Err e => (Err e, w')
                 end).
(** An INSERT draws the identifier of its row. *)
Definition insert {B} (s : string -> Z -> statement B) : M B :=
  call (fun w => match uuids w with
                 | [] => (Err ErrBackend, w)
                 | id :: more =>
                     let w' := set_supplies (tail (clock w)) more (tokens w) (nonces w) w in
                     match s id (hd 0%Z (clock w)) (db w) with
                     | Ok (a, d) => (Ok a, set_db d w')
                     | Err e => (Err e, w')
                     end
                 end).
Definition record (action resource : string) : M unit :=
  update (fun w => set_audit (audit w ++ [(action, resource)])%list w).
Definition valid {B} (r : result deploy_rule_err B) : M B :=
  answer (match r with Ok b => Ok b | Err e => Err (ErrRule e) end).
Definition logged {B} (m : M B) : M unit := let! _ := attempt m in ret tt.

Definition GetRepository (id : string) : M GitRepository := query (fun w => get_repository id (db w)).
Definition RepositoryForWebsite (website : string) : M (string * GitRepository) :=
  query (fun w => repository_for_website website (db w)).
Definition GetDeployment (id : string) : M Deployment := query (fun w => get_deployment id (db w)).
Definition ListActions (id : string) : M (list Step) := query (fun w => Ok (list_actions id (db w))).
(** The websites' repository. *)
Definition LookupForDeploy (id : string) : M WebsiteRef :=
  query (fun w => match sites (db w) !! id with Some s => Ok s | None => Err ErrNoWebsite end).
Definition FinishDeployment (id : string) (o : Outcome) : M unit := exec (finish_deployment id o).

Definition Do {B} (f : A -> result string B * A) : M B :=
  call (fun w => match f (agent w) with
                 | (Ok b, a) => (Ok b, set_agent a w)
                 | (Err code, a) => (Err (ErrAgent code), set_agent a w)
                 end).

(** ** Repositories *)
Record RepositoryRequest := {
  rr_WebsiteID : string; rr_RemoteURL : string; rr_Branch : string; rr_Provider : string; rr_AutoDeploy : option bool;
  rr_DeployScript : option string; rr_ScriptTimeoutSeconds : option Z; rr_WebhookSecret : string }.

Definition newToken : M string := fun w =>
  match tokens w with
  | [] => (Err ErrBackend, w)
  | t :: more => (Ok t, set_supplies (clock w) (uuids w) more (nonces w) w)
  end.

Definition sealSecret (id secret : string) : M unit :=
  match encrypter with
  | None => fail ErrNoEncryption
  | Some e =>
      if secret =? "" then ret tt
      else
        let! sealed := (fun w => match nonces w with
          | [] => (Err ErrBackend, w)
          | n :: more => (Ok (Encrypt e n (String.list_ascii_of_string secret) id),
                          set_supplies (clock w) (uuids w) (tokens w) more w)
          end) in
        exec (fun _ => seal_secret id sealed)
  end.

(** The address a repository gets, if any: one is only drawn beside a secret. *)
Definition webhook_address (provider secret : string) (existing : option GitRepository) : M string :=
  if provider =? ProviderNone then ret ""
  else
    let hasSecret := match existing with Some g => bool_decide (is_Some (g_Token g)) | None => false end in
    if (secret =? "") && negb hasSecret then fail ErrNoSecret
    else if negb (secret =? "") && (String.length secret <? MinWebhookSecret)%nat then fail ErrShortSecret
    else if hasSecret then ret "" else newToken.

Definition repository_params (website remote branch provider : string) (auto : bool) (script : string) (timeout : Z)
  : RepositoryParams := {|
  rq_ServerID := serverID; rq_WebsiteID := website; rq_RemoteURL := remote; rq_Branch := branch; rq_Provider := provider;
  rq_AutoDeploy := auto; rq_Script := script; rq_Timeout := timeout |}.

(** [Configure], from the checks to the row. *)
Definition save_repository (existing : option (string * GitRepository)) (p : RepositoryParams) (secret : string)
  : M (string * GitRepository) :=
  let! token := webhook_address (rq_Provider p) secret (snd <$> existing) in
  let placeholder := if token =? "" then "" else placeholder_secret in
  match existing with
  | None => insert (fun id _ => create_repository id p token placeholder)
  | Some (id, _) => let! g := exec (fun _ => update_repository id p token placeholder) in ret (id, g)
  end.

(** [Configure], once it is known what is there. *)
Definition write_repository (req : RepositoryRequest) (remote branch provider : string)
  (existing : option (string * GitRepository)) : M (string * GitRepository) :=
  let old := snd <$> existing in
  let auto := default (match old with Some g => g_AutoDeploy g | None => false end) (rr_AutoDeploy req) in
  let script := default (match old with Some g => g_Script g | None => "" end) (rr_DeployScript req) in
  let timeout := default (match old with Some g => g_Timeout g | None => 600%Z end) (rr_ScriptTimeoutSeconds req) in
  match rr_DeployScript req with Some s => valid (DeployScript s) | None => ret tt end ;!
  valid (ScriptTimeout timeout) ;!
  let! (id, g) := save_repository existing
    (repository_params (rr_WebsiteID req) remote branch provider auto script timeout) (rr_WebhookSecret req) in
  let! g := if negb (rr_WebhookSecret req =? "") then sealSecret id (rr_WebhookSecret req) ;! GetRepository id else ret g in
  (if bool_decide (rr_AutoDeploy req = Some true) && negb (match old with Some o => g_AutoDeploy o | None => false end)
   then record ActionAutoEnable id else ret tt) ;!
  record ActionConfigure id ;!
  ret (id, g).

Definition Configure (req : RepositoryRequest) : M (string * GitRepository) :=
  let! site := LookupForDeploy (rr_WebsiteID req) in
  if (w_SystemUser site =? "") || (w_DocumentRoot site =? "") then fail ErrNoAccount
  else
    let remote := trim_space (rr_RemoteURL req) in
    valid (GitRemote remote) ;!
    let branch := if trim_space (rr_Branch req) =? "" then "main" else trim_space (rr_Branch req) in
    valid (GitBranch branch) ;!
    let provider := if rr_Provider req =? "" then ProviderNone else rr_Provider req in
    valid (DeployProvider provider) ;!
    let! existing := attempt (RepositoryForWebsite (rr_WebsiteID req)) in
    match existing with
    | Ok x => write_repository req remote branch provider (Some x)
    | Err ErrNotFound => write_repository req remote branch provider None
    | Err e => fail e
    end.

Fixpoint valid_actions (kinds : list string) : M unit :=
  match kinds with
  | [] => ret tt
  | k :: more => valid (DeployAction k) ;! valid_actions more
  end.
Definition SetActions (id : string) (kinds : list string) : M (list Step) :=
  GetRepository id ;!
  valid_actions kinds ;!
  exec (fun _ => replace_actions id ((fun k => {| sp_Kind := k; sp_Enabled := true |}) <$> kinds)) ;!
  let! saved := ListActions id in
  record ActionActions id ;!
  ret saved.

Definition GenerateKey (id : string) : M GitRepository :=
  let! g := GetRepository id in
  let! site := LookupForDeploy (g_WebsiteID g) in
  if w_SystemUser site =? "" then fail ErrNoAccount
  else
    let! (public, fingerprint) := Do (make_key (w_SystemUser site)) in
    if public =? "" then fail ErrNoPublicHalf
    else
      exec (fun _ => save_deploy_key id public fingerprint) ;!
      record ActionKeyGenerate id ;!
      GetRepository id.

Definition Remove (id : string) : M unit :=
  let! g := GetRepository id in
  let! site := attempt (LookupForDeploy (g_WebsiteID g)) in
  match site with
  | Ok s => if negb (w_SystemUser s =? "") then logged (Do (unlink_tree (w_SystemUser s) (w_DocumentRoot s) true)) else ret tt
  | Err _ => ret tt
  end ;!
  exec (fun _ => delete_repository id) ;!
  record ActionRemove id.

(** ** Deployments *)
Definition failure_outcome (reason : string) : Outcome := {|
  oc_Status := StatusFailed; oc_CommitSHA := ""; oc_Message := ""; oc_Author := ""; oc_ExitCode := None; oc_Log := reason;
  oc_LogTruncated := false; oc_RolledBack := false; oc_RollbackError := ""; oc_DurationMS := None |}.
Definition failDeployment (id reason : string) : M unit := logged (FinishDeployment id (failure_outcome reason)).

(** A row of the job table; its database fails as this one does. *)
Definition create_job (p : CreateParams) : M string :=
  call (fun w => match uuids w with
                 | [] => (Err ErrBackend, w)
                 | id :: more =>
                     let w' := set_supplies (clock w) more (tokens w) (nonces w) w in
                     match PanelJobs.Create id p (jobs w) with
                     | (Ok _, j) => (Ok id, set_jobs j w')
                     | (Err _, j) => (Err ErrBackend, set_jobs j w')
                     end
                 end).
Definition deploy_job (actor deployment commit : string) : CreateParams := {|
  c_Type := JobTypeDeployRun;
  c_Payload := list_to_map [("deployment_id", AString deployment); ("commit", AString commit)];
  c_CreatedBy := actor; c_ResourceType := ResourceTypeDeployment; c_ResourceID := deployment |}.

Definition not_queued : string := "the deployment could not be queued".

Definition Deploy (actor id trigger commit : string) : M (string * Deployment) :=
  let! g := GetRepository id in
  let! site := LookupForDeploy (g_WebsiteID g) in
  if (w_SystemUser site =? "") || (w_DocumentRoot site =? "") then fail ErrNoAccount
  else
    valid (DeployTrigger trigger) ;!
    (if negb (commit =? "") then valid (CommitSHA commit) else ret tt) ;!
    let! (deployment, row) := insert (fun fresh now =>
      start_deployment fresh id (g_WebsiteID g) trigger (g_Branch g) (g_CurrentCommit g) now) in
    let! job := attempt (create_job (deploy_job actor deployment commit)) in
    match job with
    | Err e => failDeployment deployment not_queued ;! fail e
    | Ok job =>
        logged (exec (fun _ => attach_job deployment job)) ;!
        record (if trigger =? TriggerRollback then ActionRollback else ActionRun) deployment ;!
        ret (deployment, attached job row)
    end.

Definition text_field (d : data) (key : string) : string := match d !! key with Some (AString s) => s | _ => "" end.
Definition flag_field (d : data) (key : string) : bool := match d !! key with Some (ABool b) => b | _ => false end.
Definition number_field (d : data) (key : string) : option Z := match d !! key with Some (ANumber z) => Some z | _ => None end.

(** [ResolvePayload]: the payload's fields; nothing for another type of job. *)
Definition ResolvePayload (j : Job) : M (option Request) :=
  if negb (Type_ j =? JobTypeDeployRun) then ret None
  else
    let id := text_field (Payload j) "deployment_id" in
    if id =? "" then fail ErrNoDeployment
    else
      let commit := text_field (Payload j) "commit" in
      let! x := GetDeployment id in
      let! g := GetRepository (dp_RepositoryID x) in
      let! site := LookupForDeploy (g_WebsiteID g) in
      if (w_SystemUser site =? "") || (w_DocumentRoot site =? "") then fail ErrNoAccount
      else
        let! actions := ListActions (dp_RepositoryID x) in
        ret (Some {|
          q_Account := w_SystemUser site; q_DocumentRoot := w_DocumentRoot site; q_Remote := g_RemoteURL g;
          q_Branch := g_Branch g; q_Commit := commit; q_Actions := sp_Kind <$> filter (fun s => sp_Enabled s = true) actions;
          q_Script := g_Script g; q_ScriptTimeoutSeconds := g_Timeout g;
          q_UseDeployKey := has_prefix "git@" (g_RemoteURL g) || has_prefix "ssh://" (g_RemoteURL g);
          q_RollbackOnFailure := negb (dp_PreviousCommit x =? "") |}).

(** What [JobFinished] makes of the worker's answer. *)
Definition job_outcome (state : State) (res : data) (failure : string) : Outcome :=
  let succeeded := bool_decide (state = StateSuccess) && match res !! "succeeded" with Some (ABool b) => b | _ => true end in
  let log := text_field res "log" in
  {| oc_Status := if succeeded then StatusSuccess else StatusFailed; oc_CommitSHA := text_field res "commit";
     oc_Message := text_field res "message"; oc_Author := text_field res "author"; oc_ExitCode := number_field res "exit_code";
     oc_Log := if failure =? "" then log else (if log =? "" then "" else log ++ nl) ++ failure;
     oc_LogTruncated := flag_field res "log_truncated"; oc_RolledBack := flag_field res "rolled_back";
     oc_RollbackError := text_field res "rollback_error"; oc_DurationMS := number_field res "duration_ms" |}.

Definition JobFinished (j : Job) (state : State) (res : data) (failure : string) : M unit :=
  let id := text_field (Payload j) "deployment_id" in
  if negb (Type_ j =? JobTypeDeployRun) || (id =? "") then ret tt
  else
    let o := job_outcome state res failure in
    let! written := attempt (FinishDeployment id o) in
    match written with
    | Err _ => ret tt
    | Ok _ =>
        if negb (oc_CommitSHA o =? "") && ((oc_Status o =? StatusSuccess) || oc_RolledBack o) then
          let! x := attempt (GetDeployment id) in
          match x with
          | Ok x => logged (exec (fun _ => record_deployed (dp_RepositoryID x) (oc_CommitSHA o) (dp_Branch x)))
          | Err _ => ret tt
          end
        else ret tt
    end.

Definition ReleaseStale : M unit := logged (exec release_stale).

(** ** The webhook ([webhook.go]) *)
Record WebhookRequest := { wh_Token : string; wh_Body : string; wh_Signature : string; wh_Event : string }.
Inductive WebhookResult := Pinged | OtherBranch (branch : string) | AutoDeployOff | AlreadyRunning | Accepted (deployment : string).

Definition signPayload (secret body : string) : string := "sha256=" ++ hmac_sha256 secret body.

Definition verify (provider secret signature body : string) : result panel_err unit :=
  if secret =? "" then Err ErrUnverified
  else if provider =? ProviderGitLab then
    if signature =? "" then Err ErrNoSignature else if signature =? secret then Ok tt else Err ErrUnverified
  else if one_of [ProviderGitHub; ProviderGeneric] provider then
    if signature =? "" then Err ErrNoSignature
    else if signature =? signPayload secret body then Ok tt else Err ErrUnverified
  else Err ErrUnverified.

Definition pushBranch (body : string) : string :=
  match payload_ref body with
  | Some ref => default "" (trim_prefix_opt "refs/heads/" ref)
  | None => ""
  end.

Definition openSecret (id sealed : string) : result panel_err string :=
  match encrypter with
  | None => Err ErrUnverified
  | Some e =>
      if sealed =? "" then Err ErrUnverified
      else match Decrypt e sealed id with
           | Ok plain => Ok (String.string_of_list_ascii plain)
           | Err _ => Err ErrUnverified
           end
  end.

Definition ByWebhookToken (token : string) : M (string * GitRepository) :=
  query (fun w => by_webhook_token token (db w)).

Definition Webhook (req : WebhookRequest) : M WebhookResult :=
  let! found := attempt (ByWebhookToken (wh_Token req)) in
  let! (id, g) := match found with
    | Ok x => ret x | Err ErrNotFound => fail ErrUnverified | Err e => fail e end in
  let! secret := answer (openSecret id (default "" (g_Secret g))) in
  answer (verify (g_Provider g) secret (wh_Signature req) (wh_Body req)) ;!
  if equal_fold (wh_Event req) "ping" then ret Pinged
  else
    let branch := pushBranch (wh_Body req) in
    if negb (branch =? "") && negb (branch =? g_Branch g) then ret (OtherBranch branch)
    else if negb (g_AutoDeploy g) then ret AutoDeployOff
    else
      let! r := attempt (Deploy "" id TriggerWebhook "") in
      match r with
      | Ok (deployment, _) => ret (Accepted deployment)
      | Err ErrInProgress => ret AlreadyRunning
      | Err e => fail e
      end.

(** [POST /jobs/{id}/cancel]: the job's row, and nobody is told. *)
Definition CancelJob (id : string) : M unit :=
  call (fun w => match PanelJobs.Cancel id (jobs w) with
                 | (Ok _, j) => (Ok tt, set_jobs j w) | (Err _, j) => (Err ErrBackend, set_jobs j w) end).

(** ** The worker's turn ([api/internal/jobs/worker.go] with these hooks)

    The oldest pending job is claimed, its payload resolved, submitted and followed, its row
    finished, and the hook told. The payload goes out as the fields it has. *)
Definition wire_payload (q : Request) (steps_json : string) : data :=
  list_to_map [("account", AString (q_Account q)); ("document_root", AString (q_DocumentRoot q));
    ("remote", AString (q_Remote q)); ("branch", AString (q_Branch q)); ("commit", AString (q_Commit q));
    ("actions", ANested steps_json); ("script", AString (q_Script q));
    ("script_timeout_seconds", ANumber (q_ScriptTimeoutSeconds q)); ("use_deploy_key", ABool (q_UseDeployKey q));
    ("rollback_on_failure", ABool (q_RollbackOnFailure q))].

Fixpoint tell (j : Job) (news : list (string * State * data * string)) : M unit :=
  match news with
  | [] => ret tt
  | (_, state, res, failure) :: more => JobFinished j state res failure ;! tell j more
  end.

Section turn.
(** [encoding/json] of the steps, and what the Agent says to the submission and to each poll. *)
Context (steps_json : list string -> string) (submit : string -> string -> data -> result client_err string).
Context (polls : list (result client_err AgentJob)).

Definition claim_job : M (string * Job) :=
  call (fun w => match PanelJobs.Claim (jobs w) with
                 | (Ok x, j) => (Ok x, set_jobs j w) | (Err _, j) => (Err ErrBackend, set_jobs j w) end).
Definition answers (resolved : result panel_err (option Request)) : Answers := {|
  resolve_payload := match resolved with
    | Ok None => Ok None
    | Ok (Some q) => Ok (Some (wire_payload q (steps_json (q_Actions q))))
    | Err _ => Err OtherFailure
    end;
  PanelJobs.submit := submit; PanelJobs.polls := polls |}.
(** [execute] with the Agent's answers, and what the observers are told. *)
Definition run_job (ans : Answers) (id : string) (j : Job) : M (list (string * State * data * string)) := fun w =>
  let '(worker, j') := execute ans id j {| deferred := false; told := [] |} (jobs w) in
  (Ok (told worker), set_jobs j' w).

Definition turn : M unit :=
  let! claimed := attempt claim_job in
  match claimed with
  | Err _ => ret tt
  | Ok (id, j) =>
      let! resolved := attempt (ResolvePayload j) in
      let! news := run_job (answers resolved) id j in
      tell j news
  end.
End turn.
End service.
