(* ===== verification/DeployKept.v ===== *)
(** * What the tables of deployments keep

    The requests and turns of [DeployService] followed statement by statement: whatever fails on
    the way, the keys and checks of the schema hold, no repository has two deployments in
    progress, and every row holds a remote, a branch, a script and steps the rules allow. *)

From stdpp Require Import gmap.
From S2P Require Import Prelude Store GoStr TenancyRules DeployRules Seal Secrets Protocol PanelJobs DeployHost DeployTables DeployService.

#[local] Open Scope string_scope.
#[local] Open Scope store_scope.
#[local] Arguments Nat.ltb : simpl never.

(** ** The invariant *)

(** What [Configure] checks of a repository. *)
Record within_rules (remote branch script : string) (timeout : Z) : Prop := {
  rule_remote : GitRemote remote = Ok tt;
  rule_branch : GitBranch branch = Ok tt;
  rule_script : DeployScript script = Ok tt;
  rule_timeout : ScriptTimeout timeout = Ok tt }.
Definition ruled (g : GitRepository) : Prop := within_rules (g_RemoteURL g) (g_Branch g) (g_Script g) (g_Timeout g).
Definition params_ruled (p : RepositoryParams) : Prop :=
  within_rules (rq_RemoteURL p) (rq_Branch p) (rq_Script p) (rq_Timeout p).

Record sound (d : Database) : Prop := {
  repo_rows : forall id g, repos d !! id = Some g -> repository_check g = true /\ ruled g;
  site_once : forall i j g h, repos d !! i = Some g -> repos d !! j = Some h -> g_WebsiteID g = g_WebsiteID h -> i = j;
  token_once : forall i j g h t, repos d !! i = Some g -> repos d !! j = Some h ->
    g_Token g = Some t -> g_Token h = Some t -> i = j;
  step_rows : forall id l, steps d !! id = Some l -> steps_check 0 l = true /\ is_Some (repos d !! id);
  deployment_rows : forall id x, deployments d !! id = Some x ->
    deployment_check x = true /\ is_Some (repos d !! dp_RepositoryID x);
  one_at_a_time : forall i j x y, deployments d !! i = Some x -> deployments d !! j = Some y ->
    in_progress x = true -> in_progress y = true -> dp_RepositoryID x = dp_RepositoryID y -> i = j }.

Lemma has_no_row {A} (p : string -> A -> bool) m id x : has p m = false -> m !! id = Some x -> p id x = false.
Proof.
  intros Hp Hm. apply not_true_iff_false. intros Ht. apply not_true_iff_false in Hp. apply Hp.
  unfold has. apply existsb_exists. exists (id, x). split; [|done]. apply list_elem_of_In. by apply elem_of_map_to_list.
Qed.
Lemma found_row {A} (p : A -> bool) m id x : find_row p m = Some (id, x) -> m !! id = Some x /\ p x = true.
Proof. unfold find_row. intros [Hin Hp]%find_some. by apply list_elem_of_In, elem_of_map_to_list in Hin. Qed.

(** ** Rows put and removed *)
Lemma not_collides id g d j h : collides id g d = false -> repos d !! j = Some h -> j <> id ->
  g_WebsiteID h <> g_WebsiteID g /\ forall t, g_Token h = Some t -> g_Token g <> Some t.
Proof.
  intros Hc Hj Hn. pose proof (has_no_row _ _ _ _ Hc Hj) as Hf. cbn in Hf.
  apply String.eqb_neq in Hn. rewrite Hn in Hf. cbn in Hf. apply orb_false_iff in Hf as [Hw%String.eqb_neq Ht].
  split; [done|]. intros t E1 E2. by rewrite E1, E2, String.eqb_refl in Ht.
Qed.

Lemma repo_put d id g : sound d -> repository_check g = true -> ruled g -> collides id g d = false ->
  sound (with_repos (<[id := g]> (repos d)) d).
Proof.
  intros [Hr Hs Ht Ha Hd Ho] Hc Hg Hn. split; cbn [with_repos repos steps deployments]; try done.
  - intros j h [[<- <-]|[_ Hj]]%lookup_insert_Some; [done|by eapply Hr].
  - intros i j g1 h [[<- <-]|[Hi Hg1]]%lookup_insert_Some [[<- <-]|[Hj Hh]]%lookup_insert_Some E; [done|..|by eapply Hs].
    + exfalso. by eapply (proj1 (not_collides id g d j h Hn Hh ltac:(congruence))).
    + exfalso. by eapply (proj1 (not_collides id g d i g1 Hn Hg1 ltac:(congruence))).
  - intros i j g1 h t [[<- <-]|[Hi Hg1]]%lookup_insert_Some [[<- <-]|[Hj Hh]]%lookup_insert_Some E1 E2; [done|..|by eapply Ht].
    + exfalso. by eapply (proj2 (not_collides id g d j h Hn Hh ltac:(congruence))).
    + exfalso. by eapply (proj2 (not_collides id g d i g1 Hn Hg1 ltac:(congruence))).
  - intros j l Hl. destruct (Ha j l Hl) as [? Hin]. split; [done|]. by apply lookup_insert_is_Some'; right.
  - intros j x Hx. destruct (Hd j x Hx) as [? Hin]. split; [done|]. by apply lookup_insert_is_Some'; right.
Qed.

Lemma deployment_put d id x : sound d -> deployment_check x = true -> is_Some (repos d !! dp_RepositoryID x) ->
  (in_progress x = true -> forall j y, j <> id -> deployments d !! j = Some y -> in_progress y = true ->
     dp_RepositoryID y <> dp_RepositoryID x) ->
  sound (with_deployments (<[id := x]> (deployments d)) d).
Proof.
  intros [Hr Hs Ht Ha Hd Ho] Hc Hin Hone. split; cbn [with_deployments repos steps deployments]; try done.
  - intros j y [[<- <-]|[_ Hj]]%lookup_insert_Some; [done|by eapply Hd].
  - intros i j y z [[<- <-]|[Hi Hy]]%lookup_insert_Some [[<- <-]|[Hj Hz]]%lookup_insert_Some Py Pz E;
      [done|..|by eapply Ho]; exfalso.
    + by apply (Hone Py j z).
    + by apply (Hone Pz i y).
Qed.

(** ** Statements *)
Lemma change_repository_keeps id f d g d' : (forall g, ruled g -> ruled (f g)) ->
  change_repository id f d = Ok (g, d') -> sound d -> sound d'.
Proof.
  unfold change_repository. intros Hf. destruct (repos d !! id) as [g0|] eqn:Eg; [|done].
  destruct (repository_check _) eqn:Ec; [|done]. cbn [negb]. destruct (collides _ _ _) eqn:En; [done|]. intros [= <- <-] Hd.
  apply repo_put; [done..| |done]. apply Hf. by apply (repo_rows d Hd id).
Qed.

Lemma create_repository_keeps id p token secret d x d' : params_ruled p ->
  create_repository id p token secret d = Ok (x, d') -> sound d -> sound d'.
Proof.
  unfold create_repository. intros Hp. destruct (repository_check _) eqn:Ec; [|done]. cbn [negb].
  destruct (_ || _) eqn:En; [done|]. destruct (negb _); [done|]. intros [= <- <-] Hd.
  apply orb_false_iff in En as [En _]. by apply repo_put.
Qed.

Lemma blind_keeps {A} (s : statement A) d d' : (forall a d', s d = Ok (a, d') -> sound d -> sound d') ->
  blind s d = Ok (tt, d') -> sound d -> sound d'.
Proof.
  unfold blind. intros Hs. destruct (s d) as [[a d1]|e]; [intros [= <-]; by apply (Hs a)|].
  destruct e; try done. by intros [= <-].
Qed.

Lemma delete_repository_keeps id d d' : delete_repository id d = Ok (tt, d') -> sound d -> sound d'.
Proof.
  unfold delete_repository. destruct (repos d !! id) eqn:Eg; [|done]. intros [= <-] [Hr Hs Ht Ha Hd Ho].
  split; cbn [repos steps deployments].
  - intros j h [_ Hj]%lookup_delete_Some. by eapply Hr.
  - intros i j u v [_ Hu]%lookup_delete_Some [_ Hv]%lookup_delete_Some. by apply Hs.
  - intros i j u v t [_ Hu]%lookup_delete_Some [_ Hv]%lookup_delete_Some. by apply Ht.
  - intros j l [Hne Hl]%lookup_delete_Some. destruct (Ha j l Hl). split; [done|]. by rewrite lookup_delete_ne.
  - intros j x [Hx Hne]%map_lookup_filter_Some. destruct (Hd j x Hx). split; [done|].
    cbn in Hne. by rewrite lookup_delete_ne by congruence.
  - intros i j x y [Hx _]%map_lookup_filter_Some [Hy _]%map_lookup_filter_Some. by apply Ho.
Qed.

Lemma replace_actions_keeps id l d d' : replace_actions id l d = Ok (tt, d') -> sound d -> sound d'.
Proof.
  unfold replace_actions. destruct (steps_check 0 l) eqn:Ec; [|done]. cbn [negb].
  destruct (_ && _) eqn:En; [done|]. intros [= <-] [Hr Hs Ht Ha Hd Ho]. split; cbn [with_steps repos steps deployments]; try done.
  intros j m. case_bool_decide as Hl.
  - intros [_ Hm]%lookup_delete_Some. by apply Ha.
  - intros [[<- <-]|[_ Hm]]%lookup_insert_Some; [|by apply Ha]. split; [done|]. cbn in En.
    by apply negb_false_iff, bool_decide_eq_true in En.
Qed.

Lemma start_deployment_spec id repository website trigger branch previous now d r d' :
  start_deployment id repository website trigger branch previous now d = Ok (r, d') ->
  let x := new_deployment repository website trigger branch previous now in
  r = (id, x) /\ d' = with_deployments (<[id := x]> (deployments d)) d /\ deployment_check x = true /\
  deployments d !! id = None /\ busy repository d = false /\ is_Some (repos d !! repository).
Proof.
  unfold start_deployment. cbv zeta. destruct (deployment_check _) eqn:Ec; [|done]. cbn [negb].
  destruct (_ || _) eqn:En; [done|]. destruct (negb _ || _) eqn:Ef; [done|]. intros [= <- <-].
  apply orb_false_iff in En as [Eb En%bool_decide_eq_false%eq_None_not_Some].
  apply orb_false_iff in Ef as [Er%negb_false_iff%bool_decide_eq_true _]. done.
Qed.

Lemma start_deployment_keeps id repository website trigger branch previous now d x d' :
  start_deployment id repository website trigger branch previous now d = Ok (x, d') -> sound d -> sound d'.
Proof.
  intros (-> & -> & Ec & _ & Eb & Er)%start_deployment_spec Hd.
  apply deployment_put; [done..|]. intros _ j y _ Hy Py E. pose proof (has_no_row _ _ _ _ Eb Hy) as Hf. cbv beta in Hf.
  cbn [dp_RepositoryID new_deployment] in E. by rewrite E, String.eqb_refl, Py in Hf.
Qed.

Lemma change_deployment_keeps id f d d' : (forall x, dp_RepositoryID (f x) = dp_RepositoryID x) ->
  (forall x, in_progress (f x) = true -> in_progress x = true) ->
  change_deployment id f d = Ok (tt, d') -> sound d -> sound d'.
Proof.
  unfold change_deployment. intros Hf Hp. destruct (deployments d !! id) as [x|] eqn:Ex; [|by intros [= <-]].
  destruct (deployment_check _) eqn:Ec; [|done]. intros [= <-] Hd.
  apply deployment_put; [done..| |]; rewrite Hf; [by apply (deployment_rows d Hd id)|].
  intros Px j y Hj Hy Py E. apply Hj. by eapply (one_at_a_time d Hd j id y x); eauto.
Qed.

Definition ends (o : Outcome) : bool := one_of [StatusSuccess; StatusFailed] (oc_Status o).

Lemma finish_deployment_keeps id o now d d' : ends o = true ->
  finish_deployment id o now d = Ok (tt, d') -> sound d -> sound d'.
Proof.
  intros He. apply change_deployment_keeps; [done|]. intros x Hx. exfalso.
  unfold ends, in_progress, one_of in *. cbn [existsb finished dp_Status] in He, Hx.
  destruct (String.eqb_spec (oc_Status o) StatusSuccess) as [E|_]; [by rewrite E in Hx|].
  destruct (String.eqb_spec (oc_Status o) StatusFailed) as [E|_]; [by rewrite E in Hx|done].
Qed.

Lemma released_check now x : deployment_check x = true -> deployment_check (released now x) = true.
Proof.
  unfold deployment_check, in_progress, text_ok. cbn [released dp_Status dp_Trigger dp_FinishedAt dp_Branch dp_CommitSHA
    dp_Message dp_Author dp_PreviousCommit dp_Log dp_RollbackError dp_JobID dp_ExitCode dp_DurationMS].
  rewrite contains_char_app, !andb_true_iff, !negb_true_iff, orb_false_iff. naive_solver.
Qed.
Lemma release_stale_keeps now d n d' : release_stale now d = Ok (n, d') -> sound d -> sound d'.
Proof.
  intros [= _ <-] [Hr Hs Ht Ha Hd Ho]. split; cbn [with_deployments repos steps deployments]; try done.
  - intros j y Hy. apply lookup_fmap_Some in Hy as (x & <- & Hx). destruct (Hd j x Hx).
    destruct (in_progress x); [|done]. by split; [apply released_check|].
  - intros i j y z Hy _ Py. exfalso. apply lookup_fmap_Some in Hy as (x & <- & Hx).
    destruct (in_progress x) eqn:Px; [done|congruence].
Qed.

(** ** Programs *)
Section programs.
Context {A : Type} `{DeployAgent A} `{Crypto} (serverID : string) (encrypter : option Encrypter).
Context (hmac_sha256 : string -> string -> string) (payload_ref : string -> option string).
Local Abbreviation M := (Store.M (World A) panel_err).

Definition kept_step (w : World A) (_ : unit) (w' : World A) : Prop := sound (db w) -> sound (db w').
Local Abbreviation moves := (Store.moves kept_step).

Lemma moves_untouched {B} (m : M B) : (forall w, db (snd (m w)) = db w) -> moves m.
Proof. intros Hm. apply moves_step. intros w Hw. by rewrite Hm. Qed.
Lemma deploy_moves_exec {B} (s : Z -> statement B) :
  (forall now d a d', s now d = Ok (a, d') -> sound d -> sound d') -> moves (exec s : M B).
Proof.
  intros Hs. apply moves_step. intros w Hw. unfold exec, call. cbn [faults_of World_faulty].
  destruct (faults w) as [|[] fs]; cbn; try done;
    destruct (s (hd 0%Z (clock w)) (db w)) as [[a d]|e] eqn:E; cbn; eauto.
Qed.
Lemma deploy_moves_insert {B} (s : string -> Z -> statement B) :
  (forall id now d a d', s id now d = Ok (a, d') -> sound d -> sound d') -> moves (insert s : M B).
Proof.
  intros Hs. apply moves_step. intros w Hw. unfold insert, call. cbn [faults_of World_faulty].
  destruct (faults w) as [|[] fs]; cbn; try done; destruct (uuids w) as [|id us]; cbn; try done;
    destruct (s id (hd 0%Z (clock w)) (db w)) as [[a d]|e] eqn:E; cbn; eauto.
Qed.
Lemma deploy_moves_query {B} (f : World A -> result panel_err B) : moves (Store.query ErrBackend f).
Proof. apply moves_untouched. intros w. unfold query, call. by destruct (faults_of w) as [|[] fs]. Qed.
Lemma deploy_moves_record action resource : moves (record action resource : M unit).
Proof. by apply moves_untouched. Qed.
Lemma moves_valid {B} (r : result deploy_rule_err B) : moves (valid r : M B).
Proof. apply moves_answer. Qed.
Lemma deploy_moves_logged {B} (m : M B) : moves m -> moves (logged m).
Proof. intros Hm. unfold logged. moves_tac. Qed.
Lemma deploy_moves_Do {B} (f : A -> result string B * A) : moves (Do f : M B).
Proof.
  apply moves_untouched. intros w. unfold Do, call.
  destruct (faults_of w) as [|[] fs]; cbn; try done; by destruct (f (agent w)) as [[a|e] n].
Qed.
Lemma moves_newToken : moves (newToken : M string).
Proof. apply moves_untouched. intros w. unfold newToken. by destruct (tokens w). Qed.
Lemma moves_create_job p : moves (create_job p : M string).
Proof.
  apply moves_untouched. intros w. unfold create_job, call.
  destruct (faults_of w) as [|[] fs]; cbn; try done; destruct (uuids w) as [|id us]; cbn; try done;
    by destruct (PanelJobs.Create id p (jobs w)) as [[]].
Qed.
Lemma moves_claim_job : moves (claim_job : M _).
Proof.
  apply moves_untouched. intros w. unfold claim_job, call.
  destruct (faults_of w) as [|[] fs]; cbn; try done; by destruct (PanelJobs.Claim (jobs w)) as [[]].
Qed.
Lemma moves_run_job ans id j : moves (run_job ans id j : M _).
Proof. apply moves_untouched. intros w. unfold run_job. by destruct (execute _ _ _ _ _). Qed.
Lemma moves_CancelJob id : moves (CancelJob id : M unit).
Proof.
  apply moves_untouched. intros w. unfold CancelJob, call.
  destruct (faults_of w) as [|[] fs]; cbn; try done; by destruct (PanelJobs.Cancel id (jobs w)) as [[]].
Qed.
End programs.

#[export] Hint Resolve deploy_moves_query deploy_moves_record moves_valid deploy_moves_Do moves_newToken moves_create_job moves_claim_job
  moves_run_job moves_CancelJob deploy_moves_logged : moves.

(** ** Requests and turns *)
Inductive request :=
| configure (req : RepositoryRequest)
| set_actions (id : string) (kinds : list string)
| generate_key (id : string)
| remove (id : string)
| deploy (actor id trigger commit : string)
| webhook (req : WebhookRequest)
| cancel_job (id : string)
| release
| work (submit : string -> string -> data -> result client_err string) (polls : list (result client_err AgentJob)).

Section requests.
Context {A : Type} `{DeployAgent A} `{Crypto} (serverID : string) (encrypter : option Encrypter).
Context (hmac_sha256 : string -> string -> string) (payload_ref : string -> option string).
Context (steps_json : list string -> string).
Local Abbreviation M := (Store.M (World A) panel_err).
Local Abbreviation moves := (Store.moves kept_step).

Definition silently {B} (m : M B) : M unit := let! _ := m in ret tt.
Definition serve (r : request) : M unit :=
  match r with
  | configure req => silently (Configure serverID encrypter req)
  | set_actions id kinds => silently (SetActions id kinds)
  | generate_key id => silently (GenerateKey id)
  | remove id => Remove id
  | deploy actor id trigger commit => silently (Deploy actor id trigger commit)
  | webhook req => silently (Webhook encrypter hmac_sha256 payload_ref req)
  | cancel_job id => CancelJob id
  | release => ReleaseStale
  | work submit polls => turn steps_json submit polls
  end.

Lemma moves_finish id o : ends o = true -> moves (FinishDeployment id o : M unit).
Proof. intros He. apply deploy_moves_exec. intros now d [] d'. by apply finish_deployment_keeps. Qed.
#[local] Hint Resolve moves_finish : moves.
Lemma moves_attach id job : moves (exec (fun _ => attach_job id job) : M unit).
Proof. apply deploy_moves_exec. intros _ d [] d'. by apply change_deployment_keeps. Qed.
Lemma moves_start id website trigger branch previous :
  moves (insert (fun fresh now => start_deployment fresh id website trigger branch previous now) : M _).
Proof. apply deploy_moves_insert. intros *. apply start_deployment_keeps. Qed.
Lemma moves_change {B} (s : statement B) : (forall d a d', s d = Ok (a, d') -> sound d -> sound d') ->
  moves (exec (fun _ => s) : M B).
Proof. intros Hs. apply deploy_moves_exec. intros _. apply Hs. Qed.
Lemma moves_seal_secret id sealed : moves (exec (fun _ => seal_secret id sealed) : M unit).
Proof.
  apply moves_change. intros d [] d'. apply blind_keeps. intros a d1. by apply change_repository_keeps.
Qed.
Lemma moves_record_deployed id commit branch : moves (exec (fun _ => record_deployed id commit branch) : M unit).
Proof.
  apply moves_change. intros d [] d'. apply blind_keeps. intros a d1. by apply change_repository_keeps.
Qed.
Lemma moves_save_key id public fingerprint : moves (exec (fun _ => save_deploy_key id public fingerprint) : M _).
Proof. apply moves_change. intros d a d'. by apply change_repository_keeps. Qed.
Lemma moves_delete id : moves (exec (fun _ => delete_repository id) : M unit).
Proof. apply moves_change. intros d [] d'. apply delete_repository_keeps. Qed.
Lemma moves_replace id l : moves (exec (fun _ => replace_actions id l) : M unit).
Proof. apply moves_change. intros d [] d'. apply replace_actions_keeps. Qed.
#[local] Hint Resolve moves_attach moves_start moves_seal_secret moves_record_deployed moves_save_key moves_delete
  moves_replace : moves.

Lemma moves_release : moves (ReleaseStale : M unit).
Proof.
  apply deploy_moves_logged, deploy_moves_exec. intros now d a d'. by apply release_stale_keeps.
Qed.
#[local] Hint Resolve moves_release : moves.

Lemma moves_failDeployment id reason : moves (failDeployment id reason : M unit).
Proof. apply deploy_moves_logged. by apply moves_finish. Qed.
Lemma moves_valid_actions kinds : moves (valid_actions kinds : M unit).
Proof. induction kinds as [|k kinds IH]; cbn [valid_actions]; moves_tac. Qed.
#[local] Hint Resolve moves_failDeployment moves_valid_actions : moves.
Lemma moves_SetActions id kinds : moves (SetActions id kinds : M _).
Proof. unfold SetActions, GetRepository, ListActions. moves_tac. Qed.
Lemma moves_GenerateKey id : moves (GenerateKey id : M _).
Proof. unfold GenerateKey, GetRepository, LookupForDeploy. moves_tac. Qed.
Lemma moves_Remove id : moves (Remove id : M unit).
Proof. unfold Remove, GetRepository, LookupForDeploy. moves_tac. Qed.
Lemma moves_Deploy actor id trigger commit : moves (Deploy actor id trigger commit : M _).
Proof.
  unfold Deploy. apply moves_bind; [apply deploy_moves_query|]. intros g. apply moves_bind; [apply deploy_moves_query|]. intros site.
  destruct (_ || _); [apply moves_fail|]. apply moves_bind; [apply moves_valid|]. intros _.
  apply moves_bind; [destruct (negb _); [apply moves_valid|apply moves_ret]|]. intros _.
  apply moves_bind; [apply moves_start|]. intros [deployment row].
  apply moves_bind; [apply moves_attempt, moves_create_job|]. intros [job|e].
  - apply moves_bind; [apply deploy_moves_logged, moves_attach|]. intros _.
    apply moves_bind; [apply deploy_moves_record|]. intros _. apply moves_ret.
  - apply moves_bind; [apply moves_failDeployment|]. intros _. apply moves_fail.
Qed.
#[local] Hint Resolve moves_Deploy : moves.
Lemma moves_Webhook req : moves (Webhook encrypter hmac_sha256 payload_ref req : M _).
Proof. unfold Webhook, ByWebhookToken. moves_tac. Qed.
Lemma moves_ResolvePayload j : moves (ResolvePayload j : M _).
Proof. unfold ResolvePayload, GetDeployment, GetRepository, LookupForDeploy, ListActions. moves_tac. Qed.
Lemma job_outcome_ends state res failure : ends (job_outcome state res failure) = true.
Proof. unfold ends, job_outcome. cbn [oc_Status]. by destruct (_ && _). Qed.
#[local] Hint Resolve moves_ResolvePayload job_outcome_ends : moves.
Lemma moves_JobFinished j state res failure : moves (JobFinished j state res failure : M unit).
Proof.
  unfold JobFinished. cbv zeta. destruct (_ || _); [apply moves_ret|].
  pose proof (job_outcome_ends state res failure) as He. generalize dependent (job_outcome state res failure). intros o He.
  apply moves_bind; [by apply moves_attempt, moves_finish|]. intros [[]|e]; [|apply moves_ret].
  destruct (_ && _); [|apply moves_ret]. apply moves_bind; [apply moves_attempt, deploy_moves_query|].
  intros [x|e]; [apply deploy_moves_logged, moves_record_deployed|apply moves_ret].
Qed.
#[local] Hint Resolve moves_JobFinished : moves.
Lemma moves_tell j news : moves (tell j news : M unit).
Proof. induction news as [|[[[x state] res] failure] news IH]; cbn [tell]; moves_tac. Qed.
#[local] Hint Resolve moves_tell : moves.
Lemma moves_turn submit polls : moves (turn steps_json submit polls : M unit).
Proof. unfold turn. moves_tac. Qed.

(** *** [Configure]: a row's script and limit may be the ones of the row read before *)
#[local] Instance World_quiet : Quiet (World A).
Proof. refine {| same w w' := db w' = db w |}; done. Defined.
Definition stays (w : World A) : Prop := sound (db w).

Lemma wp_moves {B} (m : M B) (Q : B -> World A -> Prop) w : moves m -> stays w ->
  (forall b w', stays w' -> Q b w') -> wp m Q stays w.
Proof.
  intros Hm Hw HQ. unfold wp. specialize (Hm w). destruct (m w) as [[b|e] w']; [apply HQ|];
    (eapply (reaches_invariant kept_step stays); [|exact Hw|exact Hm]); intros ? [] ? Hv Hs; by apply Hs.
Qed.
Lemma wp_valid {B} (r : result deploy_rule_err B) (Q : B -> World A -> Prop) w : stays w ->
  (forall b, r = Ok b -> Q b w) -> wp (valid r) Q stays w.
Proof. intros Hw HQ. unfold valid, wp, answer. destruct r; [by apply HQ|done]. Qed.

Lemma moves_sealSecret id secret : moves (sealSecret encrypter id secret : M unit).
Proof.
  unfold sealSecret. destruct encrypter as [e|]; [|moves_tac]. destruct (secret =? ""); [moves_tac|].
  apply moves_bind; [|intros sealed; apply moves_seal_secret]. apply moves_untouched. intros w. by destruct (nonces w).
Qed.
Lemma moves_save existing p secret : params_ruled p -> moves (save_repository existing p secret : M _).
Proof.
  intros Hp. unfold save_repository, webhook_address. apply moves_bind; [moves_tac|]. intros token.
  destruct existing as [[id g]|].
  - apply moves_bind; [|moves_tac]. apply moves_change. intros d g' d'. by apply change_repository_keeps.
  - apply deploy_moves_insert. intros id _ d x d'. by apply create_repository_keeps.
Qed.

Lemma write_keeps req remote branch provider existing w : stays w ->
  GitRemote remote = Ok tt -> GitBranch branch = Ok tt -> (forall id g, existing = Some (id, g) -> ruled g) ->
  wp (write_repository serverID encrypter req remote branch provider existing) (fun _ => stays) stays w.
Proof.
  intros Hw Hremote Hbranch Hold. unfold write_repository.
  set (script := default _ (rr_DeployScript req)). set (timeout := default _ (rr_ScriptTimeoutSeconds req)).
  assert (Hgo : DeployScript script = Ok tt -> wp (E := panel_err) (valid (ScriptTimeout timeout) ;!
    let! (id, g) := save_repository existing
      (repository_params serverID (rr_WebsiteID req) remote branch provider
        (default (match snd <$> existing with Some g => g_AutoDeploy g | None => false end) (rr_AutoDeploy req)) script timeout)
      (rr_WebhookSecret req) in
    let! g := if negb (rr_WebhookSecret req =? "") then sealSecret encrypter id (rr_WebhookSecret req) ;! GetRepository id else ret g in
    (if bool_decide (rr_AutoDeploy req = Some true) &&
        negb (match snd <$> existing with Some o => g_AutoDeploy o | None => false end)
     then record ActionAutoEnable id else ret tt) ;!
    record ActionConfigure id ;!
    ret (id, g)) (fun _ => stays) stays w).
  { intros Hscript. apply wp_bind, wp_valid; [done|]. intros [] Htime. apply wp_moves; [|done|done].
    apply moves_bind; [apply moves_save; by split|]. intros [id g].
    apply moves_bind; [destruct (negb _); [|apply moves_ret]; apply moves_bind; [apply moves_sealSecret|intros _; apply deploy_moves_query]|].
    intros g'. apply moves_bind; [destruct (_ && _); [apply deploy_moves_record|apply moves_ret]|]. intros _.
    apply moves_bind; [apply deploy_moves_record|intros _; apply moves_ret]. }
  apply wp_bind. destruct (rr_DeployScript req) as [s|] eqn:Es.
  - apply wp_valid; [done|]. intros [] Hs. by apply Hgo.
  - apply wp_ret, Hgo. unfold script. cbn. destruct existing as [[id g]|]; [|done]. cbn. by apply (rule_script _ _ _ _ (Hold id g eq_refl)).
Qed.

Lemma Configure_keeps req w : stays w -> stays (snd (Configure serverID encrypter req w)).
Proof.
  intros Hw. apply wp_sound. unfold Configure. apply wp_bind, wp_moves; [apply deploy_moves_query|done|].
  intros site w1 H1. destruct (_ || _); [by apply wp_fail|].
  apply wp_bind, wp_valid; [done|]. intros [] Hremote. apply wp_bind, wp_valid; [done|]. intros [] Hbranch.
  apply wp_bind, wp_valid; [done|]. intros [] _.
  apply wp_bind, wp_attempt, wp_query. intros w2 E2. assert (H2 : stays w2) by (unfold stays; by rewrite E2). split.
  - intros e. destruct e; by first [apply wp_fail|apply write_keeps].
  - intros [id g] Hf. apply write_keeps; [done..|]. intros id' g' [= <- <-]. unfold repository_for_website in Hf.
    destruct (find_row _ _) as [x|] eqn:E; [|done]. injection Hf as ->. apply found_row in E as [Hg _].
    by apply (repo_rows _ H2 id).
Qed.

Lemma serve_keeps r w : sound (db w) ->
  sound (db (snd (serve r w))).
Proof.
  intros Hw.
  assert (Hm : forall m : M unit, moves m -> sound (db (snd (m w)))).
  { intros m Hm. apply (wp_sound m stays w). by apply wp_moves. }
  assert (Hs : forall B (m : M B), sound (db (snd (m w))) -> sound (db (snd (silently m w)))).
  { intros B m. unfold silently, bind. by destruct (m w) as [[]]. }
  assert (Hms : forall B (m : M B), moves m -> sound (db (snd (silently m w)))).
  { intros B m Hb. apply Hm. apply moves_bind; [done|]. intros _. apply moves_ret. }
  destruct r; cbn [serve].
  - by apply Hs, Configure_keeps.
  - apply Hms, moves_SetActions.
  - apply Hms, moves_GenerateKey.
  - apply Hm, moves_Remove.
  - apply Hms, moves_Deploy.
  - apply Hms, moves_Webhook.
  - apply Hm, moves_CancelJob.
  - apply Hm, moves_release.
  - apply Hm, moves_turn.
Qed.

(** C15: whatever requests, webhooks, cancellations, restarts and turns of the worker follow one
    another, whatever the Agent answers and whichever calls fail, the tables stay sound: rows
    satisfy the checks of the schema, a website has one repository and an address one, steps and
    deployments belong to a repository, no repository has two deployments in progress, and the
    remote, branch, script, time limit and steps of every repository are ones the rules allow. *)
Theorem deployments_stay_sound rs w :
  sound (db w) ->
  sound (db (foldl (fun w r => snd (serve r w)) w rs)).
Proof. revert w. induction rs as [|r rs IH]; intros w Hw; [done|]. by apply IH, serve_keeps. Qed.
End requests.
