(* ===== verification/DeployPanel.v ===== *)
(** * What a deployment is asked for and what becomes of it ([api/internal/deploy/])

    Who a webhook answers to and what it starts; that the Agent accepts what the panel builds for
    a deployment it queued; that one turn of the worker closes the deployment; and concrete
    panels with the cases where it does not. *)

From stdpp Require Import gmap.
From S2P Require Import Prelude Store GoStr TenancyRules DeployRules Seal Secrets Protocol PanelJobs DeployHost DeployTables DeployService DeployKept.

#[local] Open Scope string_scope.
#[local] Open Scope store_scope.
#[local] Arguments Nat.ltb : simpl never.

(** ** What a deployment adds *)
Section added.
Context {A : Type} `{DeployAgent A} `{Crypto} (encrypter : option Encrypter).
Context (hmac_sha256 : string -> string -> string) (payload_ref : string -> option string).
Local Abbreviation M := (Store.M (World A) panel_err).

#[local] Instance tables_quiet : Quiet (World A).
Proof. refine {| same w w' := db w' = db w /\ jobs w' = jobs w |}; done. Defined.

Definition untouched (w w' : World A) : Prop := db w' = db w /\ rows (jobs w') = rows (jobs w).

(** One deployment of the repository [id], with the branch, the website and the commit of the
    panel's own row; and then at most one job for it. *)
Definition begun (id trigger : string) (w : World A) (dep : string) (js : gmap string Job) (w' : World A) : Prop :=
  exists g x, repos (db w) !! id = Some g /\ deployments (db w) !! dep = None /\
    db w' = with_deployments (<[dep := x]> (deployments (db w))) (db w) /\
    dp_RepositoryID x = id /\ dp_WebsiteID x = g_WebsiteID g /\ dp_Trigger x = trigger /\ dp_Branch x = g_Branch g /\
    dp_PreviousCommit x = g_CurrentCommit g /\ rows (jobs w') = js.
Definition queued (actor dep commit : string) (w : World A) (job : string) : gmap string Job :=
  <[job := new_row (deploy_job actor dep commit) (now (jobs w))]> (rows (jobs w)).
Definition at_most_one (actor id trigger commit : string) (w w' : World A) : Prop :=
  untouched w w' \/
  exists dep js, begun id trigger w dep js w' /\ (js = rows (jobs w) \/ exists job, js = queued actor dep commit w job).

Lemma begun_same id trigger w dep js w1 w2 : same w1 w2 -> begun id trigger w dep js w1 -> begun id trigger w dep js w2.
Proof. intros [E1 E2]. unfold begun. by rewrite E1, E2. Qed.

(** A later change of the same row. *)
Definition keeps_origin (f : Deployment -> Deployment) : Prop := forall x,
  dp_RepositoryID (f x) = dp_RepositoryID x /\ dp_WebsiteID (f x) = dp_WebsiteID x /\
  dp_Trigger (f x) = dp_Trigger x /\ dp_Branch (f x) = dp_Branch x /\ dp_PreviousCommit (f x) = dp_PreviousCommit x.
Lemma change_begun id trigger w dep js f w1 d' : begun id trigger w dep js w1 -> keeps_origin f ->
  change_deployment dep f (db w1) = Ok (tt, d') ->
  forall w2, db w2 = d' -> jobs w2 = jobs w1 -> begun id trigger w dep js w2.
Proof.
  intros (g & x & Hg & Hn & Hd & H1 & H2 & H3 & H4 & H5 & Hj) Hf Hc w2 Hw2 Hj2.
  unfold change_deployment in Hc. rewrite Hd in Hc. cbn [with_deployments deployments] in Hc. rewrite lookup_insert_eq in Hc.
  destruct (deployment_check _); [|done]. injection Hc as <-. destruct (Hf x) as (E1 & E2 & E3 & E4 & E5).
  exists g, (f x). rewrite Hw2, Hj2. split_and!; try congruence. unfold with_deployments. cbn. by rewrite insert_insert_eq.
Qed.

Lemma wp_change id trigger w dep js (f : Z -> Deployment -> Deployment) w1 (s : Z -> statement unit) :
  begun id trigger w dep js w1 -> (forall t, s t = change_deployment dep (f t)) -> (forall t, keeps_origin (f t)) ->
  forall F, wp (logged (exec s) : M unit) (fun _ => begun id trigger w dep js) F w1.
Proof.
  intros Hs Hf Hk F. unfold logged. apply wp_bind, wp_attempt, wp_call. intros w0 Hw0.
  pose proof (begun_same _ _ _ _ _ _ _ Hw0 Hs) as H0'.
  split; [intros _; by apply wp_ret|]. rewrite Hf.
  destruct (change_deployment dep _ (db w0)) as [[[] d']|e] eqn:E; [|intros _; by apply wp_ret].
  assert (Hn : begun id trigger w dep js (set_db d' (set_supplies (tail (clock w0)) (uuids w0) (tokens w0) (nonces w0) w0)))
    by (by eapply change_begun).
  by split; [|intros _]; apply wp_ret.
Qed.

Lemma Create_rows job p d r d' : PanelJobs.Create job p d = (r, d') ->
  rows d' = rows d \/ rows d' = <[job := new_row p (now d)]> (rows d).
Proof. unfold PanelJobs.Create, PanelJobs.statement. destruct (down d) as [|[] fs]; intros [= <- <-]; cbn; auto. Qed.
Lemma Create_ok job p d j d' : PanelJobs.Create job p d = (Ok j, d') -> rows d' = <[job := new_row p (now d)]> (rows d).
Proof. unfold PanelJobs.Create, PanelJobs.statement. by destruct (down d) as [|[] fs]; intros [= <- <-]. Qed.

Lemma Deploy_adds actor id trigger commit w :
  wp (Deploy actor id trigger commit : M _) (fun r w' => exists job, begun id trigger w (fst r) (queued actor (fst r) commit w job) w')
     (at_most_one actor id trigger commit w) w.
Proof.
  assert (Hun : forall w', same w w' -> at_most_one actor id trigger commit w w').
  { intros w' [E1 E2]. left. split; congruence. }
  unfold Deploy. apply wp_bind, wp_query. intros w1 [D1 J1]. split; [by apply Hun|]. intros g Hg.
  assert (Hgot : repos (db w) !! id = Some g).
  { unfold get_repository in Hg. rewrite D1 in Hg. destruct (repos (db w) !! id); [|done]. by injection Hg as ->. }
  apply wp_bind, wp_query. intros w2 [D2 J2]. assert (S2 : same w w2) by (split; congruence).
  split; [by apply Hun|]. intros site _. destruct (_ || _); [by apply wp_fail, Hun|].
  apply wp_bind. apply wp_answer; [by apply Hun|]. intros [] _.
  apply wp_bind. assert (Hcommit : wp (if negb (commit =? "") then valid (CommitSHA commit) else ret tt : M unit)
    (fun _ w' => same w w') (at_most_one actor id trigger commit w) w2).
  { destruct (negb _); [apply wp_answer; [by apply Hun|done]|by apply wp_ret]. }
  eapply wp_weaken; [exact Hcommit| |done]. intros [] w3 S3. clear Hcommit.
  apply wp_bind, wp_call. intros w4 [D4 J4]. destruct S3 as [D3 J3]. assert (S4 : same w w4) by (split; congruence).
  split; [by apply Hun|]. destruct (uuids w4) as [|dep more]; [by apply Hun|].
  destruct (start_deployment _ _ _ _ _ _ _ (db w4)) as [[[dep' x] d']|e] eqn:Es; [|apply Hun; by split; cbn; destruct S4].
  apply start_deployment_spec in Es as ([= -> ->] & -> & _ & Eb & _).
  destruct S4 as [E4 F4]. cbv beta iota zeta. match goal with |- context [set_db ?d ?v] => set (w5 := set_db d v) end.
  assert (H5 : begun id trigger w dep (rows (jobs w)) w5).
  { eexists g, _. split_and!; [done|by rewrite <- E4|cbn; by rewrite E4|done..|cbn; by rewrite F4]. }
  assert (Hone : forall w', begun id trigger w dep (rows (jobs w)) w' -> at_most_one actor id trigger commit w w').
  { intros w' Hb. right. exists dep, (rows (jobs w)). auto. }
  assert (Hnow : now (jobs w5) = now (jobs w)) by (cbn; by rewrite F4).
  split; [|by apply Hone]. apply wp_bind, wp_attempt, wp_call. intros w6 S6.
  pose proof (begun_same _ _ _ _ _ _ _ S6 H5) as H6.
  assert (Hfail : forall v e, (exists js, begun id trigger w dep js v /\ (js = rows (jobs w) \/ exists job, js = queued actor dep commit w job)) ->
    wp (failDeployment dep not_queued ;! fail e : M (string * Deployment))
      (fun r w' => exists job, begun id trigger w (fst r) (queued actor (fst r) commit w job) w') (at_most_one actor id trigger commit w) v).
  { intros v e (js & Hv & Hjs). apply wp_bind.
    eapply wp_weaken; [apply (wp_change _ _ _ _ _ (fun t => finished (failure_outcome not_queued) t) _ _ Hv); done| |].
    - intros [] w' Hw'. apply wp_fail. right. exists dep, js. by split.
    - intros w' Hw'. exact Hw'. }
  split; [intros e; apply Hfail; eauto|]. destruct (uuids w6) as [|job more6]; [intros e; apply Hfail; eauto|].
  destruct (PanelJobs.Create job _ (jobs w6)) as [r j] eqn:Ec.
  cbv beta iota zeta. match goal with |- context [set_jobs j ?v] => set (w7 := set_jobs j v) end.
  assert (H7 : begun id trigger w dep (rows j) w7).
  { destruct H6 as (g' & x & ? & ? & ? & ? & ? & ? & ? & ? & ?). exists g', x. by split_and!. }
  assert (Hrows6 : rows (jobs w6) = rows (jobs w)) by (destruct H6 as (? & ? & H6); apply H6).
  assert (Hnow6 : now (jobs w6) = now (jobs w)) by (destruct S6 as [_ ->]; done).
  assert (Hj : rows j = rows (jobs w) \/ rows j = queued actor dep commit w job).
  { unfold queued. rewrite <- Hrows6, <- Hnow6. by apply (Create_rows _ _ _ r). }
  assert (Hfail7 : forall e, wp (failDeployment dep not_queued ;! fail e : M (string * Deployment))
      (fun r w' => exists job, begun id trigger w (fst r) (queued actor (fst r) commit w job) w') (at_most_one actor id trigger commit w) w7).
  { intros e. apply Hfail. exists (rows j). split; [done|]. destruct Hj; eauto. }
  destruct r as [j'|e]; [|apply Hfail7]. split; [|apply Hfail7].
  apply Create_ok in Ec. rewrite Hrows6, Hnow6 in Ec. rewrite Ec in H7.
  apply wp_bind. eapply wp_weaken; [apply (wp_change _ _ _ _ _ (fun _ => attached job) _ _ H7); done| |intros w' Hw'; exact Hw'].
  intros [] w8 H8. apply wp_bind, wp_update, wp_ret. exists job. cbn [fst]. apply (begun_same _ _ _ _ _ w8); [done|exact H8].
Qed.

Lemma at_most_one_same actor id trigger commit w w1 w' : same w w1 ->
  at_most_one actor id trigger commit w1 w' -> at_most_one actor id trigger commit w w'.
Proof. intros [E1 E2]. unfold at_most_one, untouched, begun, queued. by rewrite E1, E2. Qed.

(** ** Webhooks *)

(** What the forge must show: its secret, or the code it makes of the body with it. *)
Definition genuine (provider secret signature body : string) : Prop :=
  provider = ProviderGitLab /\ signature = secret \/
  (provider = ProviderGitHub \/ provider = ProviderGeneric) /\ signature = "sha256=" ++ hmac_sha256 secret body.

Lemma verify_genuine provider secret signature body :
  verify hmac_sha256 provider secret signature body = Ok tt -> secret <> "" /\ genuine provider secret signature body.
Proof.
  unfold verify, genuine. destruct (String.eqb_spec secret ""); [done|]. intros Hv. split; [done|]. revert Hv.
  destruct (String.eqb_spec provider ProviderGitLab).
  - destruct (signature =? ""); [done|]. destruct (String.eqb_spec signature secret); [by left|done].
  - unfold one_of. cbn [existsb]. destruct (String.eqb_spec provider ProviderGitHub), (String.eqb_spec provider ProviderGeneric);
      cbn [orb]; try done; (destruct (signature =? ""); [done|]);
      destruct (String.eqb_spec signature (signPayload hmac_sha256 secret body)); try done; right; auto.
Qed.

(** C6: only a genuine push deploys. Whatever a webhook says and whichever calls fail, either it
    leaves the tables and the queue of jobs as they are, or its address is one of a repository
    that deploys by itself, whose secret opens and stands behind the signature, it is no ping,
    and the branch it names, if any, is the repository's; and then it adds one deployment of that
    repository with the branch in the panel's own row, and at most one job, for the tip of it.
    A body that names no branch counts as one for the repository's: a tag push is such a body,
    though the comment on [pushBranch] says it is refused ([Small.tag_push_deploys]). *)
Theorem only_a_genuine_push_deploys req w r w' :
  Webhook encrypter hmac_sha256 payload_ref req w = (r, w') ->
  untouched w w' \/
  exists id g secret, repos (db w) !! id = Some g /\ g_Token g = Some (wh_Token req) /\ g_AutoDeploy g = true /\
    openSecret encrypter id (default "" (g_Secret g)) = Ok secret /\ secret <> "" /\
    genuine (g_Provider g) secret (wh_Signature req) (wh_Body req) /\ equal_fold (wh_Event req) "ping" = false /\
    (pushBranch payload_ref (wh_Body req) = "" \/ pushBranch payload_ref (wh_Body req) = g_Branch g) /\
    exists dep js, begun id TriggerWebhook w dep js w' /\ (js = rows (jobs w) \/ exists job, js = queued "" dep "" w job).
Proof.
  intros Hr. pattern w'. match goal with |- ?Q _ => set (P := Q) end.
  replace w' with (snd (Webhook encrypter hmac_sha256 payload_ref req w)) by by rewrite Hr. apply wp_sound.
  assert (Hun : forall w1, same w w1 -> P w1) by (intros w1 [E1 E2]; left; split; congruence).
  unfold Webhook. apply wp_bind, wp_attempt, wp_query. intros w1 S1. split.
  - intros e. apply wp_bind. destruct e; by apply wp_fail, Hun.
  - intros [id g] Hg. apply wp_bind, wp_ret. unfold by_webhook_token in Hg.
    destruct (find_row _ _) as [x|] eqn:Ef; [|done]. injection Hg as ->. apply found_row in Ef as [Hg Ht].
    destruct (g_Token g) as [t|] eqn:Et; [|done]. apply String.eqb_eq in Ht as ->. rewrite (proj1 S1) in Hg.
    apply wp_bind, wp_answer; [by apply Hun|]. intros secret Hs. apply wp_bind, wp_answer; [by apply Hun|]. intros [] Hv.
    apply verify_genuine in Hv as [Hne Hv].
    destruct (equal_fold (wh_Event req) "ping") eqn:Eping; [by apply wp_ret, Hun|]. cbv zeta.
    destruct (negb (pushBranch payload_ref (wh_Body req) =? "") && negb (pushBranch payload_ref (wh_Body req) =? g_Branch g)) eqn:Eb;
      [by apply wp_ret, Hun|].
    destruct (g_AutoDeploy g) eqn:Eauto; [cbn [negb]|by apply wp_ret, Hun].
    assert (Hone : forall v, at_most_one "" id TriggerWebhook "" w v -> P v).
    { intros v [Hu|Hst]; [by left|]. right. exists id, g, secret. split_and!; try done.
      apply andb_false_iff in Eb as [Eb%negb_false_iff%String.eqb_eq|Eb%negb_false_iff%String.eqb_eq]; auto. }
    apply wp_bind, wp_attempt. eapply wp_weaken; [apply Deploy_adds| |].
    + intros [dep row] v (job & Hb). apply wp_ret, Hone, (at_most_one_same _ _ _ _ w w1); [done|]. right.
      exists dep, (queued "" dep "" w1 job). split; [exact Hb|by right; exists job].
    + intros v Hv' e. apply (at_most_one_same _ _ _ _ w w1) in Hv'; [|done]. destruct e; by first [apply wp_ret|apply wp_fail]; apply Hone.
Qed.

(** ** From the queue to the Agent *)

(** Websites have an account and a directory of the kinds the Agent accepts, or none. *)
Definition sites_fit (d : Database) : Prop := forall id s, sites d !! id = Some s -> w_SystemUser s <> "" -> w_DocumentRoot s <> "" ->
  SystemUser (w_SystemUser s) = Ok tt /\ has_prefix "/" (w_DocumentRoot s) = true.

Lemma steps_allowed l : forall position, steps_check position l = true -> forallb (fun k => is_ok (DeployAction k)) (sp_Kind <$> l) = true.
Proof.
  induction l as [|s l IH]; intros position; [done|]. cbn [steps_check]. unfold step_check.
  intros [[Hk _]%andb_true_iff Hl]%andb_true_iff. cbn. rewrite (IH _ Hl), andb_true_r. unfold DeployAction. by rewrite Hk.
Qed.
Lemma check_actions_ok kinds : forallb (fun k => is_ok (DeployAction k)) kinds = true -> check_actions kinds = Ok tt.
Proof.
  induction kinds as [|k kinds IH]; [done|]. cbn [forallb check_actions]. intros [Hk Hl]%andb_true_iff.
  destruct (DeployAction k) as [[]|]; [|done]. cbn. by apply IH.
Qed.
Lemma steps_enabled position l : steps_check position l = true ->
  forallb (fun k => is_ok (DeployAction k)) (sp_Kind <$> filter (fun s => sp_Enabled s = true) l) = true.
Proof.
  intros Hl%steps_allowed. apply forallb_forall. intros k Hk%list_elem_of_In. apply list_elem_of_fmap in Hk as (s & -> & Hs).
  apply list_elem_of_filter in Hs as [_ Hs]. rewrite forallb_forall in Hl. apply Hl, list_elem_of_In, list_elem_of_fmap. eauto.
Qed.

(** What is built for a deployment's job passes the Agent's checks. *)
Lemma resolved_is_accepted (j : Job) (w : World A) q w' : sound (db w) -> sites_fit (db w) ->
  (let commit := text_field (Payload j) "commit" in commit = "" \/ CommitSHA commit = Ok tt) ->
  ResolvePayload j w = (Ok (Some q), w') ->
  q_Commit q = text_field (Payload j) "commit" /\ exists q', payload_request q = Ok q' /\ checkRequest q' = Ok tt.
Proof.
  intros Hd Hfit Hcommit Hr. cbv zeta in Hcommit.
  assert (Hw : wp (ResolvePayload j) (fun r _ => forall q, r = Some q ->
      q_Commit q = text_field (Payload j) "commit" /\ exists q', payload_request q = Ok q' /\ checkRequest q' = Ok tt)
    (fun _ => True) w); [|by apply (wp_ok _ _ _ _ _ _ Hw Hr)].
  unfold ResolvePayload. destruct (negb _); [by apply wp_ret|]. cbv zeta. destruct (_ =? ""); [done|].
  apply wp_bind, wp_query. intros w1 S1. split; [done|]. intros x _.
  apply wp_bind, wp_query. intros w2 S2. split; [done|]. intros g Hg.
  assert (Hrepo : repos (db w) !! dp_RepositoryID x = Some g).
  { unfold get_repository in Hg. rewrite (proj1 S2), (proj1 S1) in Hg. destruct (repos (db w) !! _); [|done]. by injection Hg as ->. }
  apply wp_bind, wp_query. intros w3 S3. split; [done|]. intros site Hsite.
  assert (Hsited : sites (db w) !! g_WebsiteID g = Some site).
  { rewrite (proj1 S3), (proj1 S2), (proj1 S1) in Hsite. destruct (sites (db w) !! _); [|done]. by injection Hsite as ->. }
  destruct (_ || _) eqn:Ea; [done|]. apply orb_false_iff in Ea as [Hu%String.eqb_neq Hdoc%String.eqb_neq].
  apply wp_bind, wp_query. intros w4 S4. split; [done|]. intros actions [= <-].
  apply wp_ret. intros q0 [= <-]. split; [done|].
  destruct (repo_rows _ Hd _ _ Hrepo) as [_ [Hremote Hbranch Hscript Htime]].
  destruct (Hfit _ _ Hsited Hu Hdoc) as [Huser Hslash].
  set (steps := sp_Kind <$> _).
  assert (Hsteps : forallb (fun k => is_ok (DeployAction k)) steps = true).
  { unfold steps, list_actions. rewrite (proj1 S4), (proj1 S3), (proj1 S2), (proj1 S1).
    destruct (DeployTables.steps (db w) !! _) as [l|] eqn:El; [|done]. cbn [default].
    destruct (step_rows _ Hd _ _ El) as [Hl _]. by eapply steps_enabled. }
  assert (Hroot : (w_DocumentRoot site =? "") || negb (has_prefix "/" (w_DocumentRoot site)) = false).
  { rewrite Hslash, orb_false_r. by apply String.eqb_neq. }
  unfold payload_request. cbn [q_DocumentRoot q_Actions]. rewrite Hroot, Hsteps. cbn [guard negb].
  eexists. split; [reflexivity|].
  unfold checkRequest. cbn [q_Account q_DocumentRoot q_Remote q_Branch q_Commit q_Actions q_Script].
  rewrite Huser, Hroot, Hremote, Hbranch, (check_actions_ok steps Hsteps), Hscript. cbn [DeployHost.rule guard rbind].
  assert (Hc : (if negb (text_field (Payload j) "commit" =? "") then DeployHost.rule (CommitSHA (text_field (Payload j) "commit"))
    else Ok tt) = Ok tt).
  { destruct Hcommit as [E|E]; rewrite E; [done|]. by destruct (text_field (Payload j) "commit" =? ""). }
  rewrite Hc. cbn [rbind]. by destruct (g_Script g =? "").
Qed.

(** What the panel queues, the Agent accepts. When a deployment was asked for without an error,
    on sound tables, its job is in the queue and pending with the deployment's name and the commit;
    and whatever becomes of the rows until that job is taken up, so long as the tables are sound
    and websites have accounts and directories of the kinds the Agent takes, what the panel builds
    for it looks for that commit and passes every check of the Agent's handler. *)
Theorem queued_deployments_are_accepted actor id trigger commit (w w' : World A) dep row :
  Deploy actor id trigger commit w = (Ok (dep, row), w') ->
  exists job j, rows (jobs w') !! job = Some j /\ PanelJobs.Status j = StatePending /\ Type_ j = JobTypeDeployRun /\
    text_field (Payload j) "deployment_id" = dep /\ deployments (db w) !! dep = None /\ is_Some (deployments (db w') !! dep) /\
    forall j' (v v' : World A) q, Payload j' = Payload j -> sound (db v) -> sites_fit (db v) ->
      ResolvePayload j' v = (Ok (Some q), v') ->
      q_Commit q = commit /\ exists q', payload_request q = Ok q' /\ checkRequest q' = Ok tt.
Proof.
  intros Hr. destruct (wp_ok _ _ _ _ _ _ (Deploy_adds actor id trigger commit w) Hr) as [job Hb]. cbn [fst] in Hb.
  assert (Hcommit : commit = "" \/ CommitSHA commit = Ok tt).
  { destruct (String.eqb_spec commit ""); [by left|right]. unfold Deploy in Hr.
    apply bind_ok in Hr as (g & w1 & _ & Hr). apply bind_ok in Hr as (site & w2 & _ & Hr).
    destruct (_ || _); [done|]. apply bind_ok in Hr as ([] & w3 & _ & Hr). apply bind_ok in Hr as ([] & w4 & Hc & _).
    apply String.eqb_neq in n. rewrite n in Hc. cbn [negb] in Hc. unfold valid, answer in Hc. by destruct (CommitSHA commit) as [[]|]. }
  destruct Hb as (g & x & Hg & Hn & Hdb & _ & _ & _ & _ & _ & Hjobs).
  exists job, (new_row (deploy_job actor dep commit) (now (jobs w))).
  split; [rewrite Hjobs; unfold queued; by rewrite lookup_insert_eq|]. split; [done|]. split; [done|]. split; [done|]. split; [done|].
  split; [rewrite Hdb; cbn; by rewrite lookup_insert_eq|].
  intros j' v v' q Hp Hs Hf Hres.
  destruct (resolved_is_accepted j' v q v' Hs Hf) as [Hq Hok]; [by rewrite Hp|done|]. split; [|done]. rewrite Hq, Hp. done.
Qed.
End added.

(** ** One turn of the worker *)
Section closing.
Context {A : Type} `{DeployAgent A} `{Crypto}.
Context (steps_json : list string -> string) (submit : string -> string -> data -> result client_err string).
Context (polls : list (result client_err AgentJob)).
Local Abbreviation M := (Store.M (World A) panel_err).

(** With the database up, what only looks leaves everything as it is. *)
Definition looks (w w' : World A) : Prop := faults w = [] -> w' = w.
Lemma only_looks_bind {B C} (m : M B) (k : B -> M C) : respects looks m -> (forall b, respects looks (k b)) -> respects looks (bind m k).
Proof. apply respects_bind. intros u v w Huv Hvw Hf. specialize (Huv Hf). subst v. by apply Hvw. Qed.
Lemma only_looks_query {B} (f : World A -> result panel_err B) : respects looks (Store.query ErrBackend f : M B).
Proof. intros w Hf. unfold query. by rewrite call_fine. Qed.

Lemma ResolvePayload_looks j : respects looks (ResolvePayload j : M _).
Proof.
  assert (Hret : forall B (b : B), respects looks (ret b : M B)) by done.
  assert (Hfail : forall B e, respects looks (fail e : M B)) by done.
  unfold ResolvePayload. destruct (negb _); [apply Hret|]. cbv zeta. destruct (_ =? ""); [apply Hfail|].
  apply only_looks_bind; [apply only_looks_query|]. intros x. apply only_looks_bind; [apply only_looks_query|]. intros g.
  apply only_looks_bind; [apply only_looks_query|]. intros site. destruct (_ || _); [apply Hfail|].
  apply only_looks_bind; [apply only_looks_query|]. intros actions. apply Hret.
Qed.

Lemma finished_over state res failure t x : in_progress (finished (job_outcome state res failure) t x) = false.
Proof. unfold in_progress, job_outcome. cbn [finished dp_Status oc_Status]. by destruct (_ && _). Qed.

Lemma bind_attempt {B C} (m : M B) (k : result panel_err B -> M C) w : bind (attempt m) k w = k (fst (m w)) (snd (m w)).
Proof. unfold bind, attempt. by destruct (m w). Qed.
Lemma exec_fine {B} (s : Z -> statement B) (w : World A) : faults w = [] ->
  exec s w = match s (hd 0%Z (clock w)) (db w) with
             | Ok (b, d) => (Ok b, set_db d (set_supplies (tail (clock w)) (uuids w) (tokens w) (nonces w) w))
             | Err e => (Err e, set_supplies (tail (clock w)) (uuids w) (tokens w) (nonces w) w)
             end.
Proof. intros Hf. unfold exec. by rewrite call_fine. Qed.

(** What is written for a job that ended: the deployment, when it fits its columns. *)
Lemma JobFinished_closes j state res failure (w : World A) id x :
  faults w = [] -> Type_ j = JobTypeDeployRun -> text_field (Payload j) "deployment_id" = id -> id <> "" ->
  deployments (db w) !! id = Some x ->
  let x' := finished (job_outcome state res failure) (hd 0%Z (clock w)) x in
  let w' := snd (JobFinished j state res failure w) in
  deployments (db w') = (if deployment_check x' then <[id := x']> (deployments (db w)) else deployments (db w)) /\
  jobs w' = jobs w.
Proof.
  intros Hf Ht Hid Hne Hx x' w'. unfold w', JobFinished. cbv zeta. rewrite Ht, Hid. apply String.eqb_neq in Hne. rewrite Hne.
  rewrite String.eqb_refl. cbn [negb orb]. rewrite bind_attempt. unfold FinishDeployment. rewrite exec_fine by done.
  unfold finish_deployment, change_deployment. rewrite Hx. fold x'. destruct (deployment_check x'); cbn [negb fst snd]; [|done].
  match goal with |- context [set_db ?d ?v] => set (w1 := set_db d v) end. assert (Hf1 : faults w1 = []) by done.
  assert (Hw1 : deployments (db w1) = <[id := x']> (deployments (db w)) /\ jobs w1 = jobs w) by done.
  destruct (_ && _); [|done]. rewrite bind_attempt. unfold GetDeployment, query. rewrite call_fine by done. cbn [fst snd].
  unfold get_deployment. destruct (deployments (db w1) !! id) as [y|]; [|done].
  unfold logged. rewrite bind_attempt, exec_fine by done. unfold record_deployed, blind, change_repository.
  destruct (repos (db w1) !! _) as [g|]; [|done]. destruct (negb _); [done|]. by destruct (collides _ _ _).
Qed.

(** One turn of the worker closes the deployment it takes up. With the database up, whatever
    the Agent answers: either the Agent has no room, and the job waits again with nothing
    changed; or the job is over, and the deployment has become what the job came to, over and
    no longer in the way of the next, provided it fits the columns of its table. What does not
    fit is not written, and the deployment stays in progress. *)
Theorem a_turn_closes_the_deployment (w : World A) job j id x :
  faults w = [] -> down (jobs w) = [] -> table_ok (jobs w) -> oldest_pending (rows (jobs w)) = Some (job, j) ->
  Type_ j = JobTypeDeployRun -> text_field (Payload j) "deployment_id" = id -> id <> "" ->
  deployments (db w) !! id = Some x ->
  let w' := snd (turn steps_json submit polls w) in
  exists j', rows (jobs w') = <[job := j']> (rows (jobs w)) /\
    (PanelJobs.Status j' = StatePending /\ db w' = db w \/
     exists state res failure, Terminal state = true /\ PanelJobs.Status j' = stored state /\
       let x' := finished (job_outcome state res failure) (hd 0%Z (clock w)) x in
       in_progress x' = false /\ dp_FinishedAt x' = Some (hd 0%Z (clock w)) /\
       deployments (db w') = if deployment_check x' then <[id := x']> (deployments (db w)) else deployments (db w)).
Proof.
  intros Hf Hdown Hok Hold Ht Hid Hne Hx w'.
  pose proof (oldest_pending_some _ _ _ Hold) as (Hj & Hp & _).
  set (j1 := claimed (now (jobs w)) j). set (db1 := set_rows (<[job := j1]> (rows (jobs w))) (jobs w)).
  assert (Hclaim : claim_job w = (Ok (job, j1), set_jobs db1 w)).
  { unfold claim_job. rewrite call_fine by done. unfold PanelJobs.Claim, PanelJobs.statement. by rewrite Hdown, Hold. }
  set (w1 := set_jobs db1 w).
  pose proof (ResolvePayload_looks j1 w1 Hf) as Hasks.
  destruct (ResolvePayload j1 w1) as [resolved w2] eqn:Er. cbn [snd] in Hasks. subst w2.
  destruct (execute_turn (answers steps_json submit polls resolved) job j1 {| deferred := false; told := [] |} db1)
    as (worker & db2 & j' & Hex & _ & _ & Hrows & Hturn).
  { exact Hdown. } { done. } { cbn. by rewrite lookup_insert_eq. } { by apply (Hok job j Hj). }
  assert (E : w' = snd (tell j1 (told worker) (set_jobs db2 w1))).
  { unfold w', turn, bind, attempt, run_job. rewrite Hclaim. fold w1. rewrite Er. cbn [fst snd jobs w1 set_jobs].
    by rewrite Hex. }
  rewrite E. clear E w'. cbn [db1 set_rows rows] in Hrows. rewrite insert_insert_eq in Hrows.
  exists j'. destruct Hturn as [Hs _ _ Htold|state res failure Hterm Hs _ _ _ _ Htold]; cbn [told] in Htold; rewrite Htold; cbn [tell app].
  - split; [done|]. by left.
  - destruct (JobFinished_closes j1 state res failure (set_jobs db2 w1) id x) as [Hd Hjobs]; [done..|].
    assert (E : snd ((JobFinished j1 state res failure;! ret tt) (set_jobs db2 w1)) =
                snd (JobFinished j1 state res failure (set_jobs db2 w1))).
    { unfold bind. by destruct (JobFinished j1 state res failure (set_jobs db2 w1)) as [[]]. }
    rewrite E, Hjobs. split; [done|]. right. exists state, res, failure. split_and!; [done|done|apply finished_over|done|exact Hd].
Qed.
End closing.

(** ** A small panel *)
Module Small.
(** A cipher of the right shape, an Agent that has a key, a code that is the secret before the body,
    and bodies that name their ref. *)
#[local] Instance plain_crypto : Crypto := {
  hkdf_key _ _ _ n := Some (repeat zero n);
  gcm_seal _ _ p _ := (p ++ repeat zero tagSize)%list;
  gcm_open _ _ c _ := Some (take (length c - tagSize) c);
}.
#[local] Instance one_key : DeployAgent unit := {
  make_key _ a := (Ok ("ssh-ed25519 AAAA", "SHA256:abc"), a);
  unlink_tree _ _ _ a := (Ok tt, a);
}.
Definition encrypter : option Encrypter := Some {| aead_key := repeat zero 32; panelBackupKey := [] |}.
Definition hmac (secret body : string) : string := secret ++ "/" ++ body.
Definition ref_of (body : string) : option string := trim_prefix_opt "ref=" body.
Definition steps_json (kinds : list string) : string := join "," kinds.
Definition site : WebsiteRef := {|
  w_ServerID := "srv"; w_Domain := "shop.example"; w_SystemUser := "shop"; w_DocumentRoot := "/srv/www/shop" |}.
Definition fresh : World unit := {|
  db := {| repos := ∅; steps := ∅; deployments := ∅; sites := {["s1" := site]} |};
  jobs := {| rows := ∅; now := 100%Z; down := [] |}; agent := tt; clock := [1; 2; 3; 4; 5; 6; 7; 8]%Z;
  uuids := ["r1"; "d1"; "j1"; "d2"; "j2"]; tokens := ["tok"]; nonces := [repeat zero nonceSize]; audit := []; faults := [] |}.
Definition secret : string := "a long enough secret".
Definition request_for (auto : bool) : RepositoryRequest := {|
  rr_WebsiteID := "s1"; rr_RemoteURL := "git@github.com:acme/shop.git"; rr_Branch := ""; rr_Provider := ProviderGitHub;
  rr_AutoDeploy := Some auto; rr_DeployScript := Some "make"; rr_ScriptTimeoutSeconds := None; rr_WebhookSecret := secret |}.
Local Abbreviation serve := (serve "srv" encrypter hmac ref_of steps_json).
Definition after (rs : list request) (w : World unit) : World unit := foldl (fun w r => snd (serve r w)) w rs.
Definition ready : World unit := Eval vm_compute in after [configure (request_for true); set_actions "r1" [ActionComposerInstall; ActionScript]] fresh.
Definition push (body : string) : WebhookRequest := {|
  wh_Token := "tok"; wh_Body := body; wh_Signature := "sha256=" ++ hmac secret body; wh_Event := "push" |}.
Definition answer_to (req : WebhookRequest) (w : World unit) := fst (Webhook encrypter hmac ref_of req w).

(** A push to the branch starts a deployment; one to another branch, one with a wrong code and one
    to an unknown address do not. *)
Example pushes :
  answer_to (push "ref=refs/heads/main") ready = Ok (Accepted "d1") /\
  answer_to (push "ref=refs/heads/dev") ready = Ok (OtherBranch "dev") /\
  answer_to {| wh_Token := "tok"; wh_Body := "ref=refs/heads/main"; wh_Signature := "sha256="; wh_Event := "push" |} ready = Err ErrUnverified /\
  answer_to {| wh_Token := "other"; wh_Body := ""; wh_Signature := ""; wh_Event := "" |} ready = Err ErrUnverified.
Proof. vm_compute. repeat split. Qed.

Lemma fresh_sound : sound (db fresh).
Proof. by split; cbn; try (intros *; rewrite lookup_empty). Qed.

(** Two deployments asked for in a row, and a restart between them. *)
Lemma deployments_stay_sound_witness :
  sound (db (after [configure (request_for true); deploy "u1" "r1" TriggerManual ""; release; deploy "u1" "r1" TriggerManual ""] fresh)) /\
  size (deployments (db (after [configure (request_for true); deploy "u1" "r1" TriggerManual ""; release; deploy "u1" "r1" TriggerManual ""] fresh))) = 2%nat.
Proof.
  split; [|vm_compute; reflexivity].
  exact (deployments_stay_sound "srv" encrypter hmac ref_of steps_json
    [configure (request_for true); deploy "u1" "r1" TriggerManual ""; release; deploy "u1" "r1" TriggerManual ""] fresh fresh_sound).
Defined.

Lemma only_a_genuine_push_deploys_witness :
  let w' := snd (Webhook encrypter hmac ref_of (push "ref=refs/heads/main") ready) in
  is_Some (deployments (db w') !! "d1") /\
  exists id g secret, repos (db ready) !! id = Some g /\ g_Token g = Some "tok" /\
    openSecret encrypter id (default "" (g_Secret g)) = Ok secret /\
    genuine hmac (g_Provider g) secret ("sha256=" ++ hmac Small.secret "ref=refs/heads/main") "ref=refs/heads/main".
Proof.
  intros w'. assert (Hd : is_Some (deployments (db w') !! "d1")) by (vm_compute; eexists; reflexivity). split; [exact Hd|].
  destruct (only_a_genuine_push_deploys encrypter hmac ref_of (push "ref=refs/heads/main") ready _ w' (surjective_pairing _))
    as [[Hu _]|(id & g & s & Hg & Ht & _ & Hs & _ & Hv & _)].
  - rewrite Hu in Hd. vm_compute in Hd. destruct Hd as [x Hx]. discriminate Hx.
  - exists id, g, s. split; [exact Hg|]. split; [exact Ht|]. split; [exact Hs|exact Hv].
Defined.

(** A commit asked for by name. *)
Definition commit_asked : string := "0123456789abcdef0123456789abcdef01234567".
Definition asked_for : World unit := Eval vm_compute in snd (serve (deploy "u1" "r1" TriggerManual commit_asked) ready).
Definition first_job : Job := new_row (deploy_job "u1" "d1" commit_asked) 100.

Lemma asked_sound : sound (db asked_for).
Proof.
  assert (E : asked_for = after [configure (request_for true); set_actions "r1" [ActionComposerInstall; ActionScript];
    deploy "u1" "r1" TriggerManual commit_asked] fresh) by (vm_compute; reflexivity).
  rewrite E. unfold after. cbn [foldl]. repeat apply serve_keeps. apply fresh_sound.
Qed.
Lemma asked_fit : sites_fit (db asked_for).
Proof.
  intros id s Hs _ _. change (({["s1" := site]} : gmap string WebsiteRef) !! id = Some s) in Hs.
  apply lookup_singleton_Some in Hs as [_ <-]. vm_compute. by split.
Qed.

Lemma queued_deployments_are_accepted_witness :
  exists q w', ResolvePayload first_job asked_for = (Ok (Some q), w') /\ q_Commit q = commit_asked /\
    q_Actions q = [ActionComposerInstall; ActionScript] /\
    exists q', payload_request q = Ok q' /\ checkRequest q' = Ok tt.
Proof.
  destruct (ResolvePayload first_job asked_for) as [[[q|]|e] w'] eqn:E; [|by vm_compute in E..].
  exists q, w'. split; [reflexivity|].
  assert (Ha : q_Actions q = [ActionComposerInstall; ActionScript]) by (vm_compute in E; injection E as <- _; reflexivity).
  destruct (Deploy "u1" "r1" TriggerManual commit_asked ready) as [[[dep row]|e] w1] eqn:Ed; [|by vm_compute in Ed].
  destruct (queued_deployments_are_accepted "u1" "r1" TriggerManual commit_asked ready w1 dep row Ed)
    as (job & j & Hj & _ & Hty & Hid & _ & _ & Hacc).
  assert (Hp : Payload first_job = Payload j).
  { assert (Hrows : rows (jobs w1) = {["j1" := first_job]}) by (vm_compute in Ed; injection Ed as _ _ <-; vm_compute; reflexivity).
    rewrite Hrows in Hj. apply lookup_singleton_Some in Hj as [_ <-]. reflexivity. }
  destruct (Hacc first_job asked_for w' q Hp asked_sound asked_fit E) as [Hq Hok].
  split; [exact Hq|]. split; [exact Ha|exact Hok].
Defined.

(** What the Agent comes back with. *)
Definition came_back (author log : string) : AgentJob := {|
  a_State := JobSuccess; a_Progress := 100; a_Message := "";
  a_Result := list_to_map [("succeeded", ABool true); ("commit", AString commit_asked); ("author", AString author); ("log", AString log)];
  a_Error := None |}.
Definition taken_up (author log : string) : request := work (fun _ _ _ => Ok "a1") [Ok (came_back author log)].
Definition states (w : World unit) := dp_Status <$> deployments (db w) !! "d1".

Lemma a_turn_closes_the_deployment_witness :
  exists j', rows (jobs (snd (serve (taken_up "Ann" "built") asked_for))) !! "j1" = Some j' /\ PanelJobs.Status j' = StateSuccess /\
    states (snd (serve (taken_up "Ann" "built") asked_for)) = Some StatusSuccess.
Proof.
  assert (Hx : exists x, deployments (db asked_for) !! "d1" = Some x) by (vm_compute; eexists; reflexivity).
  destruct Hx as [x Hx].
  assert (Hok : table_ok (jobs asked_for)).
  { intros id j Hj. change (({["j1" := first_job]} : gmap string Job) !! id = Some j) in Hj.
    apply lookup_singleton_Some in Hj as [_ <-]. by split. }
  assert (Hs : states (snd (serve (taken_up "Ann" "built") asked_for)) = Some StatusSuccess) by (vm_compute; reflexivity).
  destruct (a_turn_closes_the_deployment steps_json (fun _ _ _ => Ok "a1") [Ok (came_back "Ann" "built")] asked_for "j1" first_job "d1" x
    eq_refl eq_refl Hok ltac:(vm_compute; reflexivity) eq_refl ltac:(vm_compute; reflexivity) ltac:(discriminate) Hx) as (j' & Hrows & Hout).
  assert (Hrows' : rows (jobs (snd (serve (taken_up "Ann" "built") asked_for))) = <["j1" := j']> (rows (jobs asked_for))) by exact Hrows.
  exists j'. split; [rewrite Hrows'; apply lookup_insert_eq|]. split; [|exact Hs].
  assert (Hj : PanelJobs.Status <$> rows (jobs (snd (serve (taken_up "Ann" "built") asked_for))) !! "j1" = Some StateSuccess)
    by (vm_compute; reflexivity).
  rewrite Hrows', lookup_insert_eq in Hj. cbn in Hj. by injection Hj.
Defined.

(** ** What is not as the comments say *)

(** A push of a tag deploys the branch, and so does a roll-back that names no commit. *)
Example tag_push_deploys : answer_to (push "ref=refs/tags/v1.0") ready = Ok (Accepted "d1").
Proof. vm_compute. reflexivity. Qed.
Example rollback_without_commit_deploys_the_tip :
  let w := snd (serve (deploy "u1" "r1" TriggerRollback "") ready) in
  (fun x => (dp_Trigger x, dp_Status x)) <$> deployments (db w) !! "d1" = Some (TriggerRollback, StatusRunning) /\
  (fun j => text_field (Payload j) "commit") <$> rows (jobs w) !! "j1" = Some "".
Proof. vm_compute. split; reflexivity. Qed.

(** Three ways for a deployment to stay in progress, which keeps the site from being deployed: its
    job is cancelled before it is taken up; the author of the commit has a name of more than
    255 characters; and the log holds a null byte. *)
Definition again (w : World unit) : result panel_err (string * Deployment) := fst (Deploy "u1" "r1" TriggerManual "" w).
Example cancelled_job_leaves_the_site_blocked :
  let w := after [cancel_job "j1"; taken_up "Ann" "built"] asked_for in
  states w = Some StatusRunning /\ again w = Err ErrInProgress.
Proof. vm_compute. split; reflexivity. Qed.
Fixpoint many (n : nat) : string := match n with O => "" | S n => "x" ++ many n end.
Example long_author_leaves_the_site_blocked :
  let w := after [taken_up (many 256) "built"] asked_for in
  states w = Some StatusRunning /\ again w = Err ErrInProgress /\
  PanelJobs.Status <$> rows (jobs w) !! "j1" = Some StateSuccess.
Proof. vm_compute. repeat split. Qed.
Example null_byte_leaves_the_site_blocked :
  let w := after [taken_up "Ann" (String "000" "")] asked_for in states w = Some StatusRunning /\ again w = Err ErrInProgress.
Proof. vm_compute. split; reflexivity. Qed.

(** After a restart the site is free while its job still waits: a second deployment is queued behind
    it, and both will run. *)
Example restart_queues_two :
  let w := after [release; deploy "u1" "r1" TriggerManual ""] asked_for in
  (PanelJobs.Status <$> rows (jobs w) !! "j1", PanelJobs.Status <$> rows (jobs w) !! "j2") = (Some StatePending, Some StatePending).
Proof. vm_compute. reflexivity. Qed.

(** A repository whose secret could not be sealed keeps the placeholder, which no key opens. *)
Example placeholder_stays :
  let w := after [configure (request_for true)] {| db := db fresh; jobs := jobs fresh; agent := tt; clock := clock fresh;
    uuids := uuids fresh; tokens := tokens fresh; nonces := []; audit := []; faults := [] |} in
  (fun g => (g_Secret g, g_Token g)) <$> repos (db w) !! "r1" = Some (Some placeholder_secret, Some "tok").
Proof. vm_compute. reflexivity. Qed.
End Small.
